(* ===== verification/_CoqProject ===== *)
-Q . S2P
Prelude.v
Links.v
Que.v
Rmap.v
Clist.v
Dsort.v
Callout.v
Sched.v
Descrip.v
User.v
Clock.v
Cred.v
Signal.v
SigSpec.v
KillSpec.v
Run.v
Swap.v
SwapSpec.v
Proc.v
PidSpec.v
ProcSpec.v
ExitSpec.v
ForkSpec.v
NameCache.v
Bio.v
Cache.v
CacheIO.v
CacheRa.v
CacheSpec.v
Alloc.v
Bmap.v
Inode.v
InodeRules.v
InodeSpec.v
NameSpec.v
TruncSpec.v
Rw.v
RwMove.v
RwSpec.v
FileSpec.v
