(* ===== verification/Prelude.v ===== *)
(** * RetroBSD kernel: a shallow embedding in Rocq

    RetroBSD is 2.11BSD Unix for 32-bit PIC32 microcontrollers.  This library
    models the core of its kernel, the C files under src/sys/kernel with the
    headers of src/sys/include and the pieces of src/sys/pic32 they rest on, and
    proves the properties that make each part correct.

    ** How code is modelled

    A kernel function becomes a program of the monad [M S A]: it passes the state
    of its component along and returns, panics, follows a wild pointer ([Fault])
    or exceeds the bound of a loop ([NoFuel]).  [wp m Q s] is total correctness:
    [m] returns from [s] and the result and the new state satisfy [Q].  Every
    theorem about what code does is a [wp] or names the outcome, so it includes
    that the code returns.  Integers are [Z]; where the code can wrap, the width
    is written out with [u32], [s32], [s16], [s8].  Pointers are [Z] addresses
    into maps or arrays, 0 is null, and the linked structures of the kernel are
    kept linked: no list stands in for a chain of pointers except in
    specifications.  Interrupt priority calls (spl) are not modelled; where an
    operation can sleep, what happens meanwhile is a parameter.

    Loops without a structural bound take fuel, always one more than the chain
    they follow can be long: the size of the table plus one for the process and
    callout chains, four times that for the search for a process id, which can
    start over at each number in use, [chain_fuel] (the number of buffers plus one) for a hash
    chain, [pick_fuel] (the entries of one chunk plus one) for the search of
    [balloc], [ichain_fuel] and [nch_chain_fuel] likewise for the chains of inodes
    and names, [nch_fuel] (the square of the name cache plus one) for [nchinval],
    which starts over after each entry it removes, and for [wakeup], which starts over after each process woken, the
    square of the table size plus two.  The theorems show each bound to be
    enough: none of them can hold of a run that ends in [NoFuel].

    ** The parts

    - Prelude.v (this file): widths, the monad, [wp], frame conditions
      ([keeps]), arrays, and the tactics and hints shared by all files.
      Links.v: singly and doubly linked chains as predicates on a next-pointer
      function, with insertion and deletion lemmas.  Que.v: [insque] and [remque]
      of machdep.c over any memory of linked elements ([QueMem] with [QueLaws]),
      and hash tables of such rings.
    - Rmap.v: resource maps, subr_rmap.c ([malloc], [mfree], [malloc3]) on the
      array of segments with its terminator.  First fit, exact return of ranges,
      round trip, all-or-nothing of three allocations; and that the limit swapmap
      is declared with lets [mfree] write past its array.
    - Clist.v: character lists, tty_subr.c and cinit of init_main.c, on blocks at
      real addresses.  Every operation refines an unbounded byte queue that can
      only fail for want of blocks; [unputc] sign-extends.
    - Dsort.v: the disk queue, ufs_dsort.c.  [disksort] keeps the sweeps of the
      elevator; [dk_alloc] stays within its tables.
    - Callout.v: the callout queue of kern_clock.c with times kept as
      differences.  The class [CalloutQueue] is what it promises to others.
      Calls are made exactly once, in order, at the tick they were armed for.
    - Sched.v: kern_synch.c and kern_proc.c over any [CalloutQueue]: sleep queues,
      run queue, [wakeup], [tsleep], [schedcpu], the choice of [swtch].
    - Descrip.v: descriptors and the file table, kern_descrip.c with [copen],
      the advisory locks of sys_inode.c and the descriptor loops of fork, exit
      and exec.  Reference counts are exact after any sequence of calls; locks
      exclude; open of /dev/fd loses its error.
    - User.v: the user structure, memory as bytes, [copyin], [copyout], [addupc]
      and [suser]; the system state [sys] joins [Sched.kst], the user structure,
      the clock and memory.
    - Clock.v: the whole clock interrupt ([hardclock], [softclock]) and
      kern_time.c on [sys].  The time of day advances exactly, interval timers
      expire exactly; [adjtime] can leave negative microseconds; [profil] lets
      any process write to kernel memory.
    - Cred.v: kern_prot.c, kern_prot2.c, kern_resource.c and the permission checks
      of ufs_fio.c and ufs_syscalls.c on [sys].  An unprivileged process stays
      confined whatever it calls; [access] decides by the permission rules; only
      owners change attributes.
    - Signal.v: signals, kern_sig.c and kern_sig2.c with sendsig and sigreturn of
      pic32/signal.c and the delivery loop of exception.c, on [sys] extended by
      the signal fields of the user structure and the saved registers.
      SigSpec.v: handlers, masks and pending sets stay in step under every call;
      [CURSIG] ends and picks the lowest signal that has an effect; the frame
      [sendsig] builds is what [sigreturn] restores; and [sendsig] writes above
      the user's memory.  KillSpec.v: who may signal whom.  Run.v: posting a
      signal keeps the queues of the scheduler, whatever the target is doing.
    - Swap.v: swapping and the size of memory, vm_swap.c, vm_swp.c, the swapper
      of vm_sched.c and brk of kern_mman.c.  SwapSpec.v: the class [SwapDevice] is
      what the driver promises; exchanging two processes keeps the image of every
      process; [brk] stays within memory.
    - Proc.v: fork, vfork, exit and wait, kern_fork.c and kern_exit.c with pqinit,
      on the process table as it is linked: [p_nxt], [p_prev], hash chains, and
      the fields a zombie shares with a living process.  PidSpec.v: the search for
      a process id ends and gives a fresh one, but for one case.  ProcSpec.v:
      doubly linked lists and hash chains.  ExitSpec.v: the invariant [table];
      [exit] makes a zombie, orphans its children and wakes the parent, [wait1]
      reports the first zombie asked for and frees it; waiting for a group misses
      the dead.  ForkSpec.v: [newproc] enters a child whose image on the swap
      device is the memory of its parent.
    - Bio.v, Cache.v, CacheIO.v, CacheRa.v, CacheSpec.v: the buffer cache, ufs_bio.c with the
      macros of buf.h, bhinit and binit, and the strategy routine of the SD card.
      Bio.v has the definitions, Cache.v the invariant of hash chains and free
      lists, CacheIO.v the class [Driver] of what a block driver promises and the
      specification of each operation over it, CacheRa.v that of reading ahead
      ([breada]), CacheSpec.v the refinement: any
      script of reads, writes and flushes behaves as a plain disk, a flush is
      durable; and the race in [getblk] and the ignored errors of the SD driver.
    - Alloc.v: the block free list of ufs_alloc.c over the cache; it refines a
      stack of blocks kept in chunks on the disk.
    - Bmap.v: ufs_bmap.c over both; reading equals a lookup in the tree of
      indirect blocks, writing extends it and keeps everything else.
    - NameCache.v: the cache of names in ufs_namei.c, its hash chains and LRU
      list.  NameSpec.v: [nchinval] ends and removes the entries of a device, a
      name entered is found again; and the cache stops answering when the
      identifiers of inodes exceed 16 bits.
    - Inode.v: ufs_inode.c, [ialloc] of ufs_alloc.c and the part of [namei] that
      asks the name cache, on the inode table with its hash chains and free list
      and the inodes on the disk.  InodeRules.v: the description [ist] of the table
      and a rule for each step.  InodeSpec.v: any script of references, changes and
      releases finds the inode each file had last; and [iget] spoils the superblock
      after a read error.  TruncSpec.v: removing a file gives its blocks and its
      inode back, and [ialloc] hands the inode out again.
    - Rw.v: reading and writing files, [rwip] and [rdwri] of sys_inode.c with
      [uiomove] of kern_subr.c, from the pieces of memory a [uio] names through
      [bmap] and the cache to the bytes of the blocks.  RwMove.v: what [uiomove]
      moves.  RwSpec.v: a file as the function [fbyte] from offsets to bytes, a
      rule for each step of the loop and for whole transfers.  FileSpec.v: reads
      deliver the bytes of the file, writes change exactly the bytes they name,
      what is written is read back, refused writes change nothing; and [IO_SYNC] is
      lost on regular files.  The loop takes one iteration for each block reached
      ([blocks_of]), a read one more to find the end.

    ** Parameters

    The functions given to [timeout], what other processes do while one sleeps,
    the operations of open objects, the SD card itself and the process a switch
    resumes are arguments of the definitions that use them; the theorems state
    what they assume of them, and each has a witness with a concrete instance.

    ** Not modelled

    Of the kernel: the core file a signal leaves, exec beyond its descriptor loop,
    raw I/O and paging statistics, the walk of [namei] over directories and the
    system calls on names, mounting, pipes and the system calls over [rwip],
    reading holes, terminals above the character lists, kernel printf and logging, sysctl and ptrace; the register-level code of the drivers under src/sys/pic32 and
    startup assembly, which is input and output on hardware registers.  The user
    programs, libraries, games and tools of the tree run outside the kernel. *)

From stdpp Require Export prelude gmap strings.
Open Scope Z_scope.

(** ** Machine integers

    The PIC32 is a 32-bit MIPS: [int], [long], [size_t] and pointers are all
    32 bits wide, [char] is 8 bits wide and signed. *)

Definition u32 (x : Z) : Z := x `mod` 2 ^ 32.
Definition s32 (x : Z) : Z := (x + 2 ^ 31) `mod` 2 ^ 32 - 2 ^ 31.
Definition u8 (x : Z) : Z := x `mod` 2 ^ 8.
Definition s8 (x : Z) : Z := (x + 2 ^ 7) `mod` 2 ^ 8 - 2 ^ 7.
Definition s16 (x : Z) : Z := (x + 2 ^ 15) `mod` 2 ^ 16 - 2 ^ 15.

Definition is_u32 (x : Z) : Prop := 0 ≤ x < 2 ^ 32.
Definition is_s32 (x : Z) : Prop := - 2 ^ 31 ≤ x < 2 ^ 31.

Lemma u32_id x : is_u32 x → u32 x = x.
Proof. intros. by apply Z.mod_small. Qed.

Lemma u32_range x : is_u32 (u32 x).
Proof. apply Z.mod_pos_bound. lia. Qed.

Lemma s32_id x : is_s32 x → s32 x = x.
Proof. unfold is_s32, s32. intros. rewrite Z.mod_small by lia. lia. Qed.

Lemma s32_range x : is_s32 (s32 x).
Proof.
  unfold is_s32, s32. pose proof (Z.mod_pos_bound (x + 2 ^ 31) (2 ^ 32)). lia.
Qed.

Lemma s8_id x : -128 ≤ x < 128 → s8 x = x.
Proof. unfold s8. intros. rewrite Z.mod_small by lia. lia. Qed.

Lemma s8_range x : -128 ≤ s8 x < 128.
Proof. unfold s8. pose proof (Z.mod_pos_bound (x + 2 ^ 7) (2 ^ 8)). lia. Qed.

Lemma u8_range x : 0 ≤ u8 x < 256.
Proof. apply Z.mod_pos_bound. lia. Qed.

Lemma u8_id x : 0 ≤ x < 256 → u8 x = x.
Proof. intros. by apply Z.mod_small. Qed.

Lemma s16_id x : - 2 ^ 15 ≤ x < 2 ^ 15 → s16 x = x.
Proof. unfold s16. intros. rewrite Z.mod_small by lia. lia. Qed.

(** ** Flag words *)

Lemma land_pow2 f n : 0 ≤ n → Z.land f (2 ^ n) = if Z.testbit f n then 2 ^ n else 0.
Proof.
  intros Hn. apply Z.bits_inj'. intros m Hm. rewrite Z.land_spec, Z.pow2_bits_eqb by done.
  destruct (Z.eqb_spec n m) as [->|Hne].
  - rewrite andb_true_r. destruct (Z.testbit f m) eqn:E; [by rewrite Z.pow2_bits_true|by rewrite Z.bits_0].
  - rewrite andb_false_r. destruct (Z.testbit f n); [by rewrite Z.pow2_bits_false|by rewrite Z.bits_0].
Qed.

(** The test [f & (1 << n)] of the code. *)
Lemma flag_test f n : 0 ≤ n → (Z.land f (2 ^ n) =? 0) = negb (Z.testbit f n).
Proof.
  intros Hn. rewrite land_pow2 by done. destruct (Z.testbit f n); [|done].
  apply Z.eqb_neq. by apply Z.pow_nonzero.
Qed.

(** ** The kernel monad

    Kernel code threads a state and has four ways to end: it returns, it calls
    [panic], it follows a bad pointer ([Fault]), or the model's loop bound runs
    out ([NoFuel]).  A total-correctness statement excludes the last three. *)

Inductive outcome (S A : Type) : Type :=
| Ret (a : A) (s : S)
| Panic (msg : string) (s : S)
| Fault
| NoFuel.
Arguments Ret {S A} a s.
Arguments Panic {S A} msg s.
Arguments Fault {S A}.
Arguments NoFuel {S A}.

Definition M (S A : Type) : Type := S → outcome S A.

#[export] Instance M_ret S : MRet (M S) := λ A a s, Ret a s.
#[export] Instance M_bind S : MBind (M S) := λ A B f m s,
  match m s with
  | Ret a s' => f a s'
  | Panic msg s' => Panic msg s'
  | Fault => Fault
  | NoFuel => NoFuel
  end.

Definition gets {S A} (f : S → A) : M S A := λ s, Ret (f s) s.
Definition modify {S} (f : S → S) : M S unit := λ s, Ret tt (f s).
Definition panic {S A} (msg : string) : M S A := λ s, Panic msg s.
Definition nofuel {S A} : M S A := λ _, NoFuel.

(** Reading through a partial projection: [None] is a wild pointer. *)
Definition load {S A} (f : S → option A) : M S A := λ s,
  match f s with Some a => Ret a s | None => Fault end.
Definition store {S} (f : S → option S) : M S unit := λ s,
  match f s with Some s' => Ret tt s' | None => Fault end.

Definition when {S} (b : bool) (m : M S unit) : M S unit :=
  if b then m else mret tt.

(** ** Weakest preconditions for total correctness *)

Definition wp {S A} (m : M S A) (Q : A → S → Prop) (s : S) : Prop :=
  match m s with Ret a s' => Q a s' | _ => False end.

Section wp.
Context {S : Type}.

Lemma wp_ret {A} (a : A) (Q : A → S → Prop) s : Q a s → wp (mret a) Q s.
Proof. done. Qed.

Lemma wp_bind {A B} (m : M S A) (f : A → M S B) Q s :
  wp m (λ a, wp (f a) Q) s → wp (m ≫= f) Q s.
Proof. unfold wp, mbind, M_bind. by destruct (m s). Qed.

Lemma wp_gets {A} (f : S → A) (Q : A → S → Prop) s : Q (f s) s → wp (gets f) Q s.
Proof. done. Qed.

Lemma wp_modify (f : S → S) Q s : Q tt (f s) → wp (modify f) Q s.
Proof. done. Qed.

Lemma wp_load {A} (f : S → option A) a (Q : A → S → Prop) s :
  f s = Some a → Q a s → wp (load f) Q s.
Proof. unfold wp, load. by intros ->. Qed.

Lemma wp_store (f : S → option S) s' (Q : unit → S → Prop) s :
  f s = Some s' → Q tt s' → wp (store f) Q s.
Proof. unfold wp, store. by intros ->. Qed.

Lemma wp_mono {A} (m : M S A) (P Q : A → S → Prop) s :
  wp m P s → (∀ a s', P a s' → Q a s') → wp m Q s.
Proof. unfold wp. destruct (m s); naive_solver. Qed.

Lemma wp_when (b : bool) (m : M S unit) Q s :
  (b = true → wp m Q s) → (b = false → Q tt s) → wp (when b m) Q s.
Proof. destruct b; intros H1 H2; [by apply H1 | by apply H2]. Qed.

Lemma wp_run {A} (m : M S A) Q s :
  wp m Q s ↔ ∃ a s', m s = Ret a s' ∧ Q a s'.
Proof. unfold wp. destruct (m s); naive_solver. Qed.

Lemma wp_conj {A} (m : M S A) (P Q : A → S → Prop) s :
  wp m P s → wp m Q s → wp m (λ a s', P a s' ∧ Q a s') s.
Proof. unfold wp. by destruct (m s). Qed.
End wp.

(** ** Frame conditions

    [keeps f m]: whenever [m] returns, the part [f] of the state is as it was.
    Proved by the structure of the code, and added to a [wp] with [wp_frame]. *)

Definition keeps {S A X} (f : S → X) (m : M S A) : Prop :=
  ∀ s a s', m s = Ret a s' → f s' = f s.

Section keeps.
Context {S X : Type} (f : S → X).

Lemma keeps_ret {A} (a : A) : keeps f (mret a).
Proof. intros s b s'. by intros [= -> ->]. Qed.

Lemma keeps_bind {A B} (m : M S A) (k : A → M S B) :
  keeps f m → (∀ a, keeps f (k a)) → keeps f (m ≫= k).
Proof.
  intros Hm Hk s b s'. unfold mbind, M_bind. destruct (m s) as [a s1| | |] eqn:E; try done.
  intros Hb. rewrite (Hk a _ _ _ Hb). by apply (Hm _ a).
Qed.

Lemma keeps_gets {A} (g : S → A) : keeps f (gets g).
Proof. intros s b s'. by intros [= _ ->]. Qed.

Lemma keeps_load {A} (g : S → option A) : keeps f (load g).
Proof. intros s b s'. unfold load. destruct (g s); [by intros [= _ ->]|done]. Qed.

Lemma keeps_panic {A} msg : keeps f (panic (A := A) msg).
Proof. done. Qed.

Lemma keeps_nofuel {A} : keeps f (nofuel (A := A)).
Proof. done. Qed.

Lemma keeps_modify (g : S → S) : (∀ s, f (g s) = f s) → keeps f (modify g).
Proof. intros Hg s b s'. intros [= _ <-]. apply Hg. Qed.

Lemma keeps_store (g : S → option S) : (∀ s s', g s = Some s' → f s' = f s) → keeps f (store g).
Proof. intros Hg s b s'. unfold store. destruct (g s) eqn:E; [|done]. intros [= _ <-]. by apply Hg. Qed.

Lemma keeps_when (b : bool) (m : M S unit) : keeps f m → keeps f (when b m).
Proof. destruct b; [done|]. intros _. apply keeps_ret. Qed.

Lemma wp_frame {A} (m : M S A) (Q : A → S → Prop) s :
  keeps f m → wp m Q s → wp m (λ a s', Q a s' ∧ f s' = f s) s.
Proof. intros Hk. unfold wp. destruct (m s) eqn:E; try done. intros. split; [done|by eapply Hk]. Qed.
End keeps.

Create HintDb frame.
#[export] Hint Resolve keeps_ret keeps_gets keeps_load keeps_panic keeps_nofuel keeps_when : frame.

(** Follow the structure of a program to prove a frame condition. *)
Ltac keeps_tac :=
  repeat first
    [ progress eauto 1 with frame nocore
    | apply keeps_bind; [|intros ?]
    | apply keeps_when
    | apply keeps_modify; intros; reflexivity
    | match goal with
      | |- keeps _ (match ?b with _ => _ end) => destruct b
      | |- keeps _ (let _ := _ in _) => cbv zeta
      end ].

(** [wp] is used through the rules above only. *)
#[global] Opaque wp.

(** One step of symbolic execution; loads and stores leave their lookup. *)
Ltac wp_step :=
  first
    [ apply wp_bind
    | apply wp_gets
    | apply wp_modify
    | apply wp_ret
    | eapply wp_load
    | eapply wp_store ];
  cbv beta.

(** ** Arrays indexed by C pointers into them

    A pointer into an array is its index as a [Z]; dereferencing outside the
    array is [None]. *)

Definition aget {A} (l : list A) (i : Z) : option A :=
  if 0 <=? i then l !! Z.to_nat i else None.
Definition aset {A} (l : list A) (i : Z) (x : A) : option (list A) :=
  if (0 <=? i) && (i <? Z.of_nat (length l)) then Some (<[Z.to_nat i := x]> l)
  else None.

Notation zlen l := (Z.of_nat (length l)).

Section arrays.
Context {A : Type}.
Implicit Types (l pre post : list A) (x y : A).

Lemma aget_app_r pre post i :
  0 ≤ i → aget (pre ++ post) (zlen pre + i) = aget post i.
Proof.
  intros. unfold aget. rewrite !Zle_imp_le_bool by lia.
  rewrite lookup_app_r by lia. f_equal. lia.
Qed.

Lemma aget_mid pre x post i :
  i = zlen pre → aget (pre ++ x :: post) i = Some x.
Proof.
  intros ->. unfold aget. rewrite Zle_imp_le_bool by lia.
  rewrite Nat2Z.id. by rewrite list_lookup_middle.
Qed.

Lemma aset_mid pre x post i y :
  i = zlen pre → aset (pre ++ x :: post) i y = Some (pre ++ y :: post).
Proof.
  intros ->. unfold aset. rewrite Zle_imp_le_bool by lia.
  rewrite (proj2 (Z.ltb_lt _ _)) by (rewrite length_app; simpl; lia).
  simpl. rewrite Nat2Z.id.
  f_equal. rewrite insert_app_r_alt by lia. by rewrite Nat.sub_diag.
Qed.

Lemma aget_Some l i x : aget l i = Some x → 0 ≤ i < zlen l.
Proof.
  unfold aget. destruct (Z.leb_spec 0 i); [|done].
  intros ?%lookup_lt_Some. lia.
Qed.

Lemma aget_lookup l i : aget l (Z.of_nat i) = l !! i.
Proof. unfold aget. rewrite Zle_imp_le_bool by lia. by rewrite Nat2Z.id. Qed.

Lemma aget_is_Some l i : 0 ≤ i < zlen l → is_Some (aget l i).
Proof.
  intros. unfold aget. rewrite Zle_imp_le_bool by lia.
  apply lookup_lt_is_Some. lia.
Qed.

Lemma aset_Some l i x : 0 ≤ i < zlen l → aset l i x = Some (<[Z.to_nat i := x]> l).
Proof.
  intros. unfold aset. rewrite Zle_imp_le_bool by lia.
  by rewrite (proj2 (Z.ltb_lt _ _)) by lia.
Qed.

Lemma aget_insert l i j x :
  0 ≤ i < zlen l → aget (<[Z.to_nat i := x]> l) j = if decide (i = j) then Some x else aget l j.
Proof.
  intros. unfold aget. case_decide as Hd.
  - subst. rewrite Zle_imp_le_bool by lia. apply list_lookup_insert_eq. lia.
  - destruct (Z.leb_spec 0 j); [|done]. apply list_lookup_insert_ne. lia.
Qed.
End arrays.

Lemma forallb_elem {A} (f : A → bool) l x : forallb f l = true → x ∈ l → f x = true.
Proof. rewrite forallb_forall. intros H Hx. apply H. by apply list_elem_of_In. Qed.

(** A check of every index of an interval. *)
Lemma forallb_range (f : Z → bool) a n i : forallb f (seqZ a n) = true → a ≤ i < a + n → f i = true.
Proof. intros Hf Hi. apply (forallb_elem f (seqZ a n)); [done|]. by apply elem_of_seqZ. Qed.

(** ** Automation shared by the components *)

Create HintDb kernel.
#[export] Hint Resolve u32_range s32_range : kernel.

(** Turn boolean comparisons in the context into propositions. *)
Ltac to_prop :=
  repeat match goal with
  | H : (_ && _)%bool = true |- _ => apply andb_true_iff in H as [? ?]
  | H : (_ || _)%bool = false |- _ => apply orb_false_iff in H as [? ?]
  | H : (_ <=? _) = true |- _ => apply Z.leb_le in H
  | H : (_ <=? _) = false |- _ => apply Z.leb_gt in H
  | H : (_ <? _) = true |- _ => apply Z.ltb_lt in H
  | H : (_ <? _) = false |- _ => apply Z.ltb_ge in H
  | H : (_ =? _) = true |- _ => apply Z.eqb_eq in H
  | H : (_ =? _) = false |- _ => apply Z.eqb_neq in H
  | H : negb _ = true |- _ => apply negb_true_iff in H
  | H : negb _ = false |- _ => apply negb_false_iff in H
  end.

(** Resolve the boolean tests the code branches on from linear facts. *)
Ltac ztest :=
  repeat match goal with
  | |- context [?a <=? ?b] =>
      first [ rewrite (proj2 (Z.leb_le a b)) by lia
            | rewrite (proj2 (Z.leb_gt a b)) by lia ]
  | |- context [?a <? ?b] =>
      first [ rewrite (proj2 (Z.ltb_lt a b)) by lia
            | rewrite (proj2 (Z.ltb_ge a b)) by lia ]
  | |- context [?a =? ?b] =>
      first [ rewrite (proj2 (Z.eqb_eq a b)) by lia
            | rewrite (proj2 (Z.eqb_neq a b)) by lia ]
  end; cbn [negb andb orb].

(** Arithmetic over lengths of concatenations. *)
Ltac len_lia :=
  cbn [length app] in *; rewrite ?length_app in *;
  cbn [length app] in *; rewrite ?length_app in *; cbn [length app] in *; lia.
