(* ===== verification/Links.v ===== *)
(** * Singly linked lists through kernel pointers

    The kernel threads its queues (callouts, run and sleep queues, pid hash
    chains, disk queues) through a link field of the queued structures.  [lseg]
    describes such a chain over any link function; the components instantiate
    it with the link field of their own records. *)

From S2P Require Import Prelude.

(** [lseg nx p l q]: following [nx] from [p] visits the nodes [l] and arrives
    at [q].  With [q = 0] it is a null-terminated list. *)
Fixpoint lseg (nx : Z → option Z) (p : Z) (l : list Z) (q : Z) : Prop :=
  match l with
  | [] => p = q
  | x :: l' => p = x ∧ x ≠ 0 ∧ ∃ n, nx x = Some n ∧ lseg nx n l' q
  end.

Notation chain nx p l := (lseg nx p l 0).

Section lseg.
Implicit Types (nx : Z → option Z) (p q x y : Z) (l : list Z).

Lemma lseg_app nx p l1 l2 q :
  lseg nx p (l1 ++ l2) q ↔ ∃ r, lseg nx p l1 r ∧ lseg nx r l2 q.
Proof.
  revert p. induction l1 as [|x l1 IH]; intros p; simpl.
  - split; [eauto|]. by intros (r & -> & ?).
  - setoid_rewrite IH. naive_solver.
Qed.

Lemma lseg_ext nx nx' p l q :
  (∀ x, x ∈ l → nx' x = nx x) → lseg nx p l q → lseg nx' p l q.
Proof.
  revert p. induction l as [|x l IH]; intros p He; [done|]. cbn [lseg].
  intros (-> & Hx & n & Hn & H). split_and!; [done|done|]. exists n.
  rewrite He by set_solver. split; [done|]. apply IH; [set_solver|done].
Qed.

Lemma lseg_snoc nx p l x q :
  lseg nx p (l ++ [x]) q ↔ lseg nx p l x ∧ x ≠ 0 ∧ nx x = Some q.
Proof. rewrite lseg_app. simpl. naive_solver. Qed.

Lemma chain_nil nx l : chain nx 0 l ↔ l = [].
Proof. destruct l; naive_solver. Qed.

Lemma chain_cons nx p l : p ≠ 0 → chain nx p l → ∃ n l', l = p :: l' ∧ nx p = Some n ∧ chain nx n l'.
Proof. destruct l as [|x l]; simpl; [done|]. naive_solver. Qed.

Lemma chain_det nx p l l' : chain nx p l → chain nx p l' → l = l'.
Proof.
  revert p l'. induction l as [|x l IH]; intros p [|y l']; simpl; try naive_solver.
Qed.

Lemma chain_nodup nx p l : chain nx p l → NoDup l.
Proof.
  revert p. induction l as [|x l IH]; intros p; [constructor|]. cbn [lseg].
  intros (-> & Hx & n & Hn & H). constructor; [|eauto].
  intros (l1 & l2 & ->)%list_elem_of_split.
  apply lseg_app in H as (r & Hl1 & Hr). pose proof Hr as (-> & _).
  assert (Hc : chain nx x (x :: l1 ++ x :: l2)).
  { split_and!; [done|done|]. exists n. split; [done|]. apply lseg_app. by exists x. }
  apply (chain_det _ _ _ _ Hr) in Hc. apply (f_equal length) in Hc. len_lia.
Qed.

(** [p->link] overwritten at one node. *)
Definition upd nx x v : Z → option Z := λ y, if decide (y = x) then Some v else nx y.

Lemma upd_eq nx x v : upd nx x v x = Some v.
Proof. unfold upd. by case_decide. Qed.

Lemma upd_ne nx x y v : y ≠ x → upd nx x v y = nx y.
Proof. unfold upd. by case_decide. Qed.

(** Insert [y] behind [x]. *)
Lemma chain_insert_after nx nx' p l1 x l2 y n :
  chain nx p (l1 ++ x :: l2) → y ∉ l1 ++ x :: l2 → y ≠ 0 → nx x = Some n →
  (∀ z, nx' z = upd (upd nx y n) x y z) →
  chain nx' p (l1 ++ x :: y :: l2).
Proof.
  intros Hc Hy Hy0 Hn Hnx. pose proof (chain_nodup _ _ _ Hc) as Hnd.
  apply NoDup_app in Hnd as (_ & Hd & Hnd). apply NoDup_cons in Hnd as [Hx _].
  apply lseg_app in Hc as (r & H1 & -> & Hx0 & n' & Hn' & H2). simplify_eq.
  apply lseg_app. exists x. split.
  - eapply lseg_ext; [|exact H1]. intros z Hz. rewrite Hnx, !upd_ne; set_solver.
  - split_and!; [done|done|]. exists y. rewrite Hnx, upd_eq. split; [done|]. split_and!; [done|done|].
    exists n'. rewrite Hnx, upd_ne, upd_eq by set_solver. split; [done|].
    eapply lseg_ext; [|exact H2]. intros z Hz. rewrite Hnx, !upd_ne; set_solver.
Qed.

(** Unlink the node [y] that follows [x]. *)
Lemma chain_delete_after nx nx' p l1 x y l2 n :
  chain nx p (l1 ++ x :: y :: l2) → nx y = Some n →
  (∀ z, z ≠ y → nx' z = upd nx x n z) →
  chain nx' p (l1 ++ x :: l2).
Proof.
  intros Hc Hn Hnx. pose proof (chain_nodup _ _ _ Hc) as Hnd.
  apply NoDup_app in Hnd as (_ & Hd & Hnd). apply NoDup_cons in Hnd as [Hx Hnd].
  apply NoDup_cons in Hnd as [Hy _].
  apply lseg_app in Hc as (r & H1 & -> & Hx0 & n1 & Hn1 & -> & Hy0 & n2 & Hn2 & H2). simplify_eq.
  apply lseg_app. exists x. split.
  - eapply lseg_ext; [|exact H1]. intros z Hz. rewrite Hnx, upd_ne; set_solver.
  - split_and!; [done|done|]. exists n2. rewrite Hnx, upd_eq by set_solver. split; [done|].
    eapply lseg_ext; [|exact H2]. intros z Hz. rewrite Hnx, upd_ne; set_solver.
Qed.

(** Push [y] in front. *)
Lemma chain_push nx nx' p l y :
  chain nx p l → y ∉ l → y ≠ 0 → (∀ z, nx' z = upd nx y p z) → chain nx' y (y :: l).
Proof.
  intros Hc Hy Hy0 Hnx. split_and!; [done|done|]. exists p. rewrite Hnx, upd_eq. split; [done|].
  eapply lseg_ext; [|exact Hc]. intros z Hz. rewrite Hnx, upd_ne; set_solver.
Qed.

(** Link [y] in at the tail. *)
Lemma chain_append nx nx' p l x y :
  chain nx p (l ++ [x]) → y ∉ l ++ [x] → y ≠ 0 → (∀ z, nx' z = upd (upd nx y 0) x y z) →
  chain nx' p (l ++ [x; y]).
Proof.
  intros Hc Hy Hy0 Hnx. apply lseg_snoc in Hc as Hs. destruct Hs as (_ & _ & Hn).
  by eapply (chain_insert_after nx nx' p l x [] y 0).
Qed.
End lseg.

(** A boolean check of a segment, for concrete states. *)
Fixpoint lsegb (nx : Z → option Z) (p : Z) (l : list Z) (q : Z) : bool :=
  match l with
  | [] => p =? q
  | x :: l' => (p =? x) && negb (x =? 0) && match nx x with Some n => lsegb nx n l' q | None => false end
  end.

Lemma lsegb_sound nx p l q : lsegb nx p l q = true → lseg nx p l q.
Proof.
  revert p. induction l as [|x l IH]; intros p; simpl; [apply Z.eqb_eq|].
  destruct (nx x) as [n|] eqn:E; [|by rewrite andb_false_r]. intros H. to_prop. split_and!; eauto.
Qed.

(** ** Circular doubly linked lists

    [dseg nx pv a l z]: from [a] the links [nx] lead through [l] to [z], and
    the links [pv] lead back. *)

Fixpoint dseg (nx pv : Z → option Z) (a : Z) (l : list Z) (z : Z) : Prop :=
  match l with
  | [] => nx a = Some z ∧ pv z = Some a
  | x :: l' => nx a = Some x ∧ pv x = Some a ∧ dseg nx pv x l' z
  end.

(** The ring of head [h] and elements [l]. *)
Definition ring (nx pv : Z → option Z) (h : Z) (l : list Z) : Prop := dseg nx pv h l h ∧ NoDup (h :: l).

(** The neighbours of a position between [l1] and [l2]. *)
Definition before (h : Z) (l1 : list Z) : Z := default h (last l1).
Definition after (h : Z) (l2 : list Z) : Z := default h (head l2).

Section rings.
Implicit Types (nx pv : Z → option Z) (l : list Z).

Lemma dseg_app nx pv a l1 x l2 z : dseg nx pv a (l1 ++ x :: l2) z ↔ dseg nx pv a l1 x ∧ dseg nx pv x l2 z.
Proof. revert a. induction l1 as [|y l1 IH]; intros a; simpl; [naive_solver|]. rewrite IH. naive_solver. Qed.

Lemma dseg_ext nx pv nx' pv' a l z :
  (∀ y, y = a ∨ y ∈ l → nx' y = nx y) → (∀ y, y ∈ l ∨ y = z → pv' y = pv y) → dseg nx pv a l z → dseg nx' pv' a l z.
Proof.
  revert a. induction l as [|x l IH]; intros a Hn Hp; simpl.
  - rewrite Hn, Hp by auto. done.
  - intros (H1 & H2 & H3). rewrite Hn, Hp by set_solver. split_and!; [done|done|]. apply IH; [set_solver|set_solver|done].
Qed.

Lemma dseg_first nx pv a l z : dseg nx pv a l z → nx a = Some (after z l) ∧ pv (after z l) = Some a.
Proof. destruct l; simpl; naive_solver. Qed.

Lemma ring_ext nx pv nx' pv' h l :
  (∀ y, y = h ∨ y ∈ l → nx' y = nx y ∧ pv' y = pv y) → ring nx pv h l → ring nx' pv' h l.
Proof. intros H [H1 H2]. split; [|done]. eapply dseg_ext; [..|exact H1]; intros y Hy; apply H; tauto. Qed.

(** What the links around a position are. *)
Lemma ring_around nx pv h l1 l2 : ring nx pv h (l1 ++ l2) →
  nx (before h l1) = Some (after h l2) ∧ pv (after h l2) = Some (before h l1).
Proof.
  intros [Hd _]. destruct l1 as [|a l1 _] using rev_ind; unfold before; [by apply dseg_first|].
  rewrite last_snoc. rewrite <- app_assoc in Hd. apply dseg_app in Hd as [_ Hd]. by apply dseg_first.
Qed.

Lemma ring_at nx pv h l1 x l2 : ring nx pv h (l1 ++ x :: l2) →
  nx x = Some (after h l2) ∧ pv x = Some (before h l1) ∧ pv (after h l2) = Some x ∧ nx (before h l1) = Some x.
Proof.
  intros Hr. pose proof (ring_around _ _ _ l1 (x :: l2) Hr) as [H1 H2].
  change (x :: l2) with ([x] ++ l2) in Hr. rewrite app_assoc in Hr. pose proof (ring_around _ _ _ (l1 ++ [x]) l2 Hr) as [H3 H4].
  unfold before in H3, H4. rewrite last_snoc in H3, H4. done.
Qed.

Lemma before_cases h l1 : (l1 = [] ∧ before h l1 = h) ∨ ∃ l1' a, l1 = l1' ++ [a] ∧ before h l1 = a.
Proof.
  destruct l1 as [|a l1 _] using rev_ind; [by left|]. right. exists l1, a. unfold before. by rewrite last_snoc.
Qed.

Lemma after_cases h l2 : (l2 = [] ∧ after h l2 = h) ∨ ∃ b l2', l2 = b :: l2' ∧ after h l2 = b.
Proof. destruct l2 as [|b l2]; [by left|]. right. by exists b, l2. Qed.

Lemma ring_insert nx pv nx' pv' h l1 l2 x :
  ring nx pv h (l1 ++ l2) → x ≠ h → x ∉ l1 → x ∉ l2 →
  (∀ y, nx' y = if decide (y = before h l1) then Some x else if decide (y = x) then Some (after h l2) else nx y) →
  (∀ y, pv' y = if decide (y = after h l2) then Some x else if decide (y = x) then Some (before h l1) else pv y) →
  ring nx' pv' h (l1 ++ x :: l2).
Proof.
  intros [Hd Hnd] Hxh Hx1 Hx2 Hn Hp. split; cycle 1.
  { rewrite NoDup_cons in Hnd |- *. destruct Hnd as [Hh Hnd]. split; [set_solver|].
    rewrite <- Permutation_middle. apply NoDup_cons. set_solver. }
  apply NoDup_cons in Hnd as [Hh Hnd]. apply NoDup_app in Hnd as (Hnd1 & Hdis & Hnd2).
  assert (Hsuf : ∀ a, a = before h l1 → dseg nx pv a l2 h → (a ∉ l2) → (a ≠ h → h ∉ l2) → dseg nx' pv' a (x :: l2) h).
  { intros a Ha Hs Hal2 Hhl2. assert (Hax : a ≠ x). { intros ->. destruct (before_cases h l1) as [[-> Hb]|(l1' & a & -> & Hb)]; [congruence|]. rewrite Hb in Ha. subst. set_solver. }
  cbn [dseg]. split_and!.
  - rewrite Hn. by rewrite decide_True.
  - rewrite Hp. destruct (after_cases h l2) as [[-> Hb]|(b & l2' & -> & Hb)]; rewrite Hb, decide_False, decide_True by set_solver; congruence.
  - assert (Hxa : dseg nx pv a l2 h → dseg nx' pv' x l2 h); [|by apply Hxa]. destruct l2 as [|b l2]; cbn [dseg].
    + intros _. rewrite Hn, Hp. rewrite decide_False, decide_True by congruence. by rewrite decide_True.
    + intros (H1 & H2 & H3). rewrite Hn, Hp. rewrite decide_False, decide_True by congruence. rewrite decide_True by done.
      split_and!; [done|done|]. apply NoDup_cons in Hnd2 as [Hb2 Hnd2].
      eapply dseg_ext; [| |exact H3].
      * intros y Hy. rewrite Hn, !decide_False; [done|set_solver|]. intros ->. rewrite <- Ha in *. set_solver.
      * intros y Hy. rewrite Hp, !decide_False; [done|set_solver|]. unfold after. simpl. intros ->. set_solver. }
  destruct (before_cases h l1) as [[-> Hb]|(l1' & a & -> & Hb)].
  - simpl in *. apply Hsuf; [done|done|set_solver|done].
  - rewrite <- app_assoc in Hd |- *. cbn [app] in *. apply dseg_app in Hd as [Hd1 Hd2]. apply dseg_app.
    apply NoDup_app in Hnd1 as (Hnd1 & Hda & _). split.
    + eapply dseg_ext; [| |exact Hd1].
      * intros y Hy. rewrite Hn, Hb, !decide_False; [done|set_solver|]. intros ->. destruct Hy as [->|Hy]; [set_solver|]. apply (Hda a); set_solver.
      * intros y Hy. rewrite Hp, !decide_False; [done|set_solver|]. intros ->.
        destruct (after_cases h l2) as [[-> Hb2]|(b & l2' & -> & Hb2)]; rewrite Hb2 in Hy; [set_solver|]. apply (Hdis b); set_solver.
    + apply Hsuf; [done|done| |set_solver]. intros Ha. apply (Hdis a); set_solver.
Qed.

Lemma ring_remove nx pv nx' pv' h l1 x l2 :
  ring nx pv h (l1 ++ x :: l2) →
  (∀ y, nx' y = if decide (y = before h l1) then Some (after h l2) else nx y) →
  (∀ y, pv' y = if decide (y = after h l2) then Some (before h l1) else pv y) →
  ring nx' pv' h (l1 ++ l2).
Proof.
  intros [Hd Hnd] Hn Hp. split; cycle 1.
  { rewrite NoDup_cons in Hnd |- *. destruct Hnd as [Hh Hnd]. split; [set_solver|].
    rewrite <- Permutation_middle in Hnd. by apply NoDup_cons in Hnd as [_ ?]. }
  apply NoDup_cons in Hnd as [Hh Hnd]. apply NoDup_app in Hnd as (Hnd1 & Hdis & [Hx2 Hnd2]%NoDup_cons).
  apply dseg_app in Hd as [Hd1 Hd2].
  assert (Hsuf : ∀ a, a = before h l1 → a ∉ l2 → dseg nx' pv' a l2 h).
  { intros a Ha Hal2. destruct l2 as [|b l2]; cbn [dseg] in Hd2 |- *; rewrite Hn, Hp, !decide_True by done; [by subst|].
    destruct Hd2 as (_ & _ & H3). apply NoDup_cons in Hnd2 as [Hb2 _]. split_and!; [done|by subst|].
    eapply dseg_ext; [| |exact H3].
    - intros y Hy. rewrite Hn, decide_False; [done|]. intros ->. rewrite <- Ha in *. set_solver.
    - intros y Hy. rewrite Hp, decide_False; [done|]. unfold after. simpl. intros ->. set_solver. }
  destruct (before_cases h l1) as [[-> Hb]|(l1' & a & -> & Hb)].
  - simpl. apply Hsuf; [done|set_solver].
  - rewrite <- app_assoc. cbn [app]. apply dseg_app. apply NoDup_app in Hnd1 as (Hnd1 & Hda & _).
    apply dseg_app in Hd1 as [Hd1 _]. split.
    + eapply dseg_ext; [| |exact Hd1].
      * intros y Hy. rewrite Hn, Hb, decide_False; [done|]. intros ->. destruct Hy as [->|Hy]; [set_solver|]. apply (Hda a); set_solver.
      * intros y Hy. rewrite Hp, decide_False; [done|]. intros ->.
        destruct (after_cases h l2) as [[-> Hb2]|(b & l2' & -> & Hb2)]; rewrite Hb2 in Hy; [set_solver|]. apply (Hdis b); set_solver.
    + apply Hsuf; [done|]. intros Ha. apply (Hdis a); set_solver.
Qed.

(** A check of a concrete ring. *)
Fixpoint dsegb (nx pv : Z → option Z) (a : Z) (l : list Z) (z : Z) : bool :=
  match l with
  | [] => bool_decide (nx a = Some z) && bool_decide (pv z = Some a)
  | x :: l' => bool_decide (nx a = Some x) && bool_decide (pv x = Some a) && dsegb nx pv x l' z
  end.
Definition ringb (nx pv : Z → option Z) (h : Z) (l : list Z) : bool := dsegb nx pv h l h && bool_decide (NoDup (h :: l)).

Lemma ringb_sound nx pv h l : ringb nx pv h l = true → ring nx pv h l.
Proof.
  unfold ringb, ring. rewrite andb_true_iff, bool_decide_eq_true. intros [Hd Hn]. split; [|done]. revert Hd. clear Hn.
  generalize h at 1 3. intros a. revert a. induction l as [|x l IH]; intros a; simpl; rewrite !andb_true_iff, !bool_decide_eq_true; naive_solver.
Qed.
End rings.
