(* ===== verification/Que.v ===== *)
(** * Queues (insque and remque of sys/pic32/machdep.c)

    The two operations work on any structure that begins with a pair of links:
    the inodes and the entries of the name cache, and the heads of their hash
    chains, which are nothing but such a pair.  The class [QueMem] is what a
    component offers for them: the links that exist and how they are written. *)

From S2P Require Import Prelude Links.

Class QueMem (S : Type) : Type := {
  q_next : S → Z → option Z;
  q_prev : S → Z → option Z;
  set_q_next : Z → Z → S → S;
  set_q_prev : Z → Z → S → S
}.

Section que.
Context {S : Type} `{!QueMem S}.

Definition rd_next (p : Z) : M S Z := load (λ s, q_next s p).
Definition rd_prev (p : Z) : M S Z := load (λ s, q_prev s p).
Definition wr_next (p v : Z) : M S unit := store (λ s, _ ← q_next s p; Some (set_q_next p v s)).
Definition wr_prev (p v : Z) : M S unit := store (λ s, _ ← q_prev s p; Some (set_q_prev p v s)).

Definition insque (e prev : Z) : M S unit :=
  wr_prev e prev;;
  n ← rd_next prev;
  wr_next e n;;
  n ← rd_next prev;
  wr_prev n e;;
  wr_next prev e.

Definition remque (e : Z) : M S unit :=
  p ← rd_prev e;
  n ← rd_next e;
  wr_next p n;;
  n ← rd_next e;
  p ← rd_prev e;
  wr_prev n p.

(** [ip->i_forw = ip; ip->i_back = ip], which follows [remque] when the element
    is to be on no chain. *)
Definition selfque (e : Z) : M S unit :=
  wr_next e e;;
  wr_prev e e.
End que.

(** The laws of the links: a write changes the one link, and what [q_rest]
    shows of the state stays. *)
Class QueLaws (S : Type) `{!QueMem S} {R : Type} (q_rest : S → R) : Prop := {
  q_next_next : ∀ s p v y, is_Some (q_next s p) → q_next (set_q_next p v s) y = upd (q_next s) p v y;
  q_prev_next : ∀ s p v y, q_prev (set_q_next p v s) y = q_prev s y;
  q_next_prev : ∀ s p v y, q_next (set_q_prev p v s) y = q_next s y;
  q_prev_prev : ∀ s p v y, is_Some (q_prev s p) → q_prev (set_q_prev p v s) y = upd (q_prev s) p v y;
  q_rest_next : ∀ s p v, is_Some (q_next s p) → q_rest (set_q_next p v s) = q_rest s;
  q_rest_prev : ∀ s p v, is_Some (q_prev s p) → q_rest (set_q_prev p v s) = q_rest s;
  q_both : ∀ s p, is_Some (q_next s p) ↔ is_Some (q_prev s p)
}.

(** ** Elements on hash chains

    [hashed el hs X nx pv q]: from each head [h] of [hs] hangs the chain [q h] of
    elements; an element is on at most one chain, and one on none is linked to
    itself, but for the element [X]. *)
Record hashed (el : Z → Prop) (hs : list Z) (X : option Z) (nx pv : Z → option Z) (q : Z → list Z) : Prop := Hashed {
  h_ring : ∀ h, h ∈ hs → ring nx pv h (q h);
  h_el : ∀ h e, h ∈ hs → e ∈ q h → el e;
  h_disj : ∀ h h' e, h ∈ hs → h' ∈ hs → e ∈ q h → e ∈ q h' → h = h';
  h_head : ∀ h, h ∈ hs → ¬ el h;
  h_loose : ∀ e, el e → X ≠ Some e → (∀ h, h ∈ hs → e ∉ q h) → nx e = Some e ∧ pv e = Some e;
  h_mem : ∀ e, el e → is_Some (nx e) ∧ is_Some (pv e)
}.

(** The chains without [e]; with [e] in front of the chain of [h]. *)
Definition without (e : Z) (q : Z → list Z) : Z → list Z := λ h, filter (λ x, x ≠ e) (q h).
Definition front (e h : Z) (q : Z → list Z) : Z → list Z := λ h', if decide (h' = h) then e :: q h else q h'.

Lemma filter_notin (e : Z) (l : list Z) : e ∉ l → filter (λ x, x ≠ e) l = l.
Proof.
  induction l as [|x l IH]; [done|]. intros Hx. rewrite filter_cons, decide_True by set_solver. f_equal. apply IH. set_solver.
Qed.

Lemma filter_split (e : Z) (l1 l2 : list Z) : e ∉ l1 → e ∉ l2 → filter (λ x, x ≠ e) (l1 ++ e :: l2) = l1 ++ l2.
Proof. intros H1 H2. rewrite filter_app, filter_cons, decide_False by naive_solver. by rewrite !filter_notin. Qed.

Lemma without_in e q h x : x ∈ without e q h ↔ x ∈ q h ∧ x ≠ e.
Proof. unfold without. rewrite list_elem_of_filter. tauto. Qed.

Lemma before_mem h l : before h l = h ∨ before h l ∈ l.
Proof. destruct (before_cases h l) as [[_ ->]|(l' & a & -> & ->)]; [by left|set_solver]. Qed.

Lemma after_mem h l : after h l = h ∨ after h l ∈ l.
Proof. destruct (after_cases h l) as [[_ ->]|(a & l' & -> & ->)]; [by left|set_solver]. Qed.

(** A node, head or element, is of one chain only. *)
Lemma h_home el hs X nx pv q h h' y : hashed el hs X nx pv q → h ∈ hs → h' ∈ hs → y = h ∨ y ∈ q h → y = h' ∨ y ∈ q h' → h = h'.
Proof.
  intros [HR HE HD HH HL HM] Hh Hh' [->|Hy] [->|Hy']; [done| | |by eapply HD].
  - destruct (HH h Hh). by apply (HE h').
  - destruct (HH h' Hh'). by apply (HE h).
Qed.

Section hashing.
Context {S : Type} `{!QueMem S} {R : Type} (q_rest : S → R) `{!QueLaws S q_rest}.
Implicit Types (s : S) (q : Z → list Z).
Variables (el : Z → Prop) (hs : list Z).
Notation on_chains X s q := (hashed el hs X (q_next s) (q_prev s) q).

Lemma wp_q_next_set s p v (Q : unit → S → Prop) :
  is_Some (q_next s p) →
  (∀ s', (∀ y, q_next s' y = upd (q_next s) p v y) → (∀ y, q_prev s' y = q_prev s y) → q_rest s' = q_rest s → Q tt s') → wp (wr_next p v) Q s.
Proof using QueLaws0.
  intros Hp HQ. eapply wp_store; [destruct Hp as [? ->]; reflexivity|]. apply HQ; [intros; by apply q_next_next|intros; apply q_prev_next|by apply q_rest_next].
Qed.

Lemma wp_q_prev_set s p v (Q : unit → S → Prop) :
  is_Some (q_prev s p) →
  (∀ s', (∀ y, q_next s' y = q_next s y) → (∀ y, q_prev s' y = upd (q_prev s) p v y) → q_rest s' = q_rest s → Q tt s') → wp (wr_prev p v) Q s.
Proof using QueLaws0.
  intros Hp HQ. eapply wp_store; [destruct Hp as [? ->]; reflexivity|]. apply HQ; [intros; apply q_next_prev|intros; by apply q_prev_prev|by apply q_rest_prev].
Qed.

(** The effect of [remque] on the links. *)
Lemma wp_remque_links s e n p (Q : unit → S → Prop) :
  q_next s e = Some n → q_prev s e = Some p → is_Some (q_next s p) → is_Some (q_next s n) → (p = e → n = e) →
  (∀ s', (∀ y, q_next s' y = upd (q_next s) p n y) → (∀ y, q_prev s' y = upd (q_prev s) n p y) → q_rest s' = q_rest s → Q tt s') →
  wp (remque e) Q s.
Proof using QueLaws0.
  intros Hn Hp Hpn Hnn He HQ. unfold remque. apply wp_bind. eapply wp_load; [exact Hp|]. apply wp_bind. eapply wp_load; [exact Hn|].
  apply wp_bind, wp_q_next_set; [done|]. intros s1 N1 P1 R1.
  assert (Hn1 : q_next s1 e = Some n). { rewrite N1. unfold upd. case_decide; [|done]. f_equal. }
  apply wp_bind. eapply wp_load; [exact Hn1|]. apply wp_bind. eapply wp_load; [by rewrite P1|].
  apply wp_q_prev_set. { rewrite P1. by apply (q_both (q_rest := q_rest)). }
  intros s2 N2 P2 R2. apply HQ; [intros y; by rewrite N2|intros y; rewrite P2; unfold upd; by rewrite P1|congruence].
Qed.

Lemma wp_remque s q e (Q : unit → S → Prop) :
  on_chains None s q → el e →
  (∀ s', on_chains (Some e) s' (without e q) → q_rest s' = q_rest s → Q tt s') → wp (remque e) Q s.
Proof using QueLaws0.
  intros Hh He HQ. pose proof Hh as [HR HE HD HH HL HM].
  destruct (decide (Exists (λ h, e ∈ q h) hs)) as [Hin|Hout].
  - apply Exists_exists in Hin as (h & Hhs & Hin). pose proof (HR h Hhs) as Hr. apply list_elem_of_split in Hin as (l1 & l2 & Eq).
    rewrite Eq in Hr. pose proof (ring_at _ _ _ _ _ _ Hr) as (Hn & Hp & Hpn & Hnp). pose proof Hr as [_ Hnd].
    apply NoDup_cons in Hnd as [Hhl Hnd]. apply NoDup_app in Hnd as (_ & Hd1 & [Hd2 _]%NoDup_cons).
    assert (He1 : e ∉ l1) by (intros ?; apply (Hd1 e); [done|by left]).
    assert (Hb : before h l1 = h ∨ before h l1 ∈ q h) by (rewrite Eq; destruct (before_mem h l1); set_solver).
    assert (Ha : after h l2 = h ∨ after h l2 ∈ q h) by (rewrite Eq; destruct (after_mem h l2); set_solver).
    assert (Hpe : before h l1 ≠ e) by (destruct (before_mem h l1) as [->|]; [|set_solver]; intros ->; by apply (HH e)).
    eapply wp_remque_links; [exact Hn|exact Hp|by rewrite Hnp|apply (q_both (q_rest := q_rest)); by rewrite Hpn|done|].
    intros s' N' P' R'. apply HQ; [|done]. split.
    + intros h' Hh'. destruct (decide (h' = h)) as [->|Hnh].
      * unfold without. rewrite Eq, filter_split by done. by eapply (ring_remove _ _ _ _ h l1 e l2).
      * unfold without. rewrite filter_notin. 2:{ intros Hin. apply Hnh. eapply HD; [done|done|exact Hin|]. rewrite Eq. set_solver. }
        eapply ring_ext; [|by apply HR]. intros y Hy. rewrite N', P'. rewrite !upd_ne; [done| |].
        -- intros ->. apply Hnh. by eapply (h_home _ _ _ _ _ _ h' h _ Hh).
        -- intros ->. apply Hnh. by eapply (h_home _ _ _ _ _ _ h' h _ Hh).
    + intros h' x Hh' [Hx _]%without_in. by apply (HE h').
    + intros h1 h2 x H1 H2 [Hx1 _]%without_in [Hx2 _]%without_in. by eapply HD.
    + done.
    + intros x Hx HX Hno. assert (x ≠ e) by congruence.
      assert (Hno' : ∀ h', h' ∈ hs → x ∉ q h') by (intros h' Hh' Hx'; by apply (Hno h' Hh'), without_in).
      rewrite N', P', !upd_ne; [by apply HL| |].
      * intros ->. destruct Ha as [Ha|Ha]; [rewrite Ha in Hx; by apply (HH h)|by apply (Hno' h)].
      * intros ->. destruct Hb as [Hb|Hb]; [rewrite Hb in Hx; by apply (HH h)|by apply (Hno' h)].
    + intros x Hx. rewrite N', P'. unfold upd. destruct (HM x Hx). repeat case_decide; eauto.
  - assert (Hno : ∀ h, h ∈ hs → e ∉ q h) by (intros h Hh' Hx; apply Hout, Exists_exists; eauto).
    destruct (HL e He ltac:(done) Hno) as [Hn Hp].
    eapply wp_remque_links; [exact Hn|exact Hp|by rewrite Hn..|done|]. intros s' N' P' R'. apply HQ; [|done].
    assert (N : ∀ y, q_next s' y = q_next s y) by (intros y; rewrite N'; unfold upd; case_decide; [by subst|done]).
    assert (P : ∀ y, q_prev s' y = q_prev s y) by (intros y; rewrite P'; unfold upd; case_decide; [by subst|done]).
    split.
    + intros h Hhs. unfold without. rewrite filter_notin by auto. eapply ring_ext; [|by apply HR]. intros y _. by rewrite N, P.
    + intros h' x Hh' [Hx _]%without_in. by apply (HE h').
    + intros h1 h2 x H1 H2 [Hx1 _]%without_in [Hx2 _]%without_in. by eapply HD.
    + done.
    + intros x Hx HX Hnx. rewrite N, P. apply HL; [done|done|]. intros h' Hh' Hx'. apply (Hnx h' Hh'), without_in. split; [done|congruence].
    + intros x Hx. rewrite N, P. by apply HM.
Qed.

Lemma wp_insque s q e h (Q : unit → S → Prop) :
  on_chains (Some e) s q → el e → h ∈ hs → (∀ h', h' ∈ hs → e ∉ q h') →
  (∀ s', on_chains None s' (front e h q) → q_rest s' = q_rest s → Q tt s') → wp (insque e h) Q s.
Proof using QueLaws0.
  intros Hh He Hhs Hno HQ. pose proof Hh as [HR HE HD HH HL HM]. pose proof (HR h Hhs) as Hr.
  assert (Heh : e ≠ h) by (intros ->; by apply (HH h)).
  pose proof (ring_around _ _ _ [] (q h) Hr) as [Hn Hp]. change (before h []) with h in Hn, Hp.
  assert (Ha : after h (q h) = h ∨ after h (q h) ∈ q h) by apply after_mem.
  assert (Hae : after h (q h) ≠ e) by (destruct Ha as [->|Ha]; [congruence|intros E; apply (Hno h Hhs); congruence]).
  destruct (HM e He) as [Hme Hpe]. unfold insque.
  apply wp_bind, wp_q_prev_set; [done|]. intros s1 N1 P1 R1.
  apply wp_bind. eapply wp_load; [rewrite N1; exact Hn|].
  apply wp_bind, wp_q_next_set; [by rewrite N1|]. intros s2 N2 P2 R2.
  apply wp_bind. eapply wp_load; [rewrite N2, upd_ne, N1 by congruence; exact Hn|].
  apply wp_bind, wp_q_prev_set; [rewrite P2, P1, upd_ne by done; by rewrite Hp|]. intros s3 N3 P3 R3.
  apply wp_q_next_set; [rewrite N3, N2, upd_ne, N1 by congruence; by rewrite Hn|]. intros s4 N4 P4 R4.
  assert (N : ∀ y, q_next s4 y = if decide (y = h) then Some e else if decide (y = e) then Some (after h (q h)) else q_next s y).
  { intros y. rewrite N4. unfold upd. case_decide; [done|]. rewrite N3, N2. unfold upd. case_decide; [done|]. by rewrite N1. }
  assert (P : ∀ y, q_prev s4 y = if decide (y = after h (q h)) then Some e else if decide (y = e) then Some h else q_prev s y).
  { intros y. rewrite P4, P3. unfold upd. case_decide; [done|]. rewrite P2, P1. unfold upd. by case_decide. }
  apply HQ; [|congruence]. split.
  - intros h' Hh'. unfold front. case_decide as Ehh; [subst h'|].
    + by eapply (ring_insert _ _ _ _ h [] (q h)); [exact Hr|done|set_solver|auto|..].
    + eapply ring_ext; [|by apply HR]. intros y Hy. rewrite N, P, !decide_False; [done|..].
      * intros ->. destruct Hy as [->|Hy]; [by apply (HH h')|by apply (Hno h')].
      * intros ->. apply Ehh. by eapply (h_home _ _ _ _ _ _ h' h _ Hh).
      * intros ->. destruct Hy as [->|Hy]; [by apply (HH h')|by apply (Hno h')].
      * intros ->. apply Ehh. symmetry. apply (h_home _ _ _ _ _ _ h h' h Hh); auto.
  - intros h' x Hh'. unfold front. case_decide; [|by apply HE]. intros [->|Hx]%elem_of_cons; [done|by apply (HE h)].
  - intros h1 h2 x H1 H2. unfold front. repeat case_decide; subst; try done; rewrite ?elem_of_cons; try by apply HD.
    + intros [->|Hx] Hx2; [by destruct (Hno h2)|]. by eapply HD.
    + intros Hx1 [->|Hx]; [by destruct (Hno h1)|]. by eapply HD.
  - done.
  - intros x Hx _ Hnx. assert (Hxe : x ≠ e). { intros ->. apply (Hnx h Hhs). unfold front. rewrite decide_True by done. by left. }
    assert (Hxq : ∀ h', h' ∈ hs → x ∉ q h').
    { intros h' Hh' Hx'. apply (Hnx h' Hh'). unfold front. case_decide; [|done]. subst. by right. }
    rewrite N, P, !decide_False; [apply HL; [done|congruence|done]|done| |done|].
    + intros ->. destruct Ha as [Ha|Ha]; [rewrite Ha in Hx; by apply (HH h)|by apply (Hxq h)].
    + intros ->. by apply (HH h).
  - intros x Hx. rewrite N, P. destruct (HM x Hx). repeat case_decide; eauto.
Qed.

Lemma wp_selfque s q e (Q : unit → S → Prop) :
  on_chains (Some e) s q → el e → (∀ h', h' ∈ hs → e ∉ q h') →
  (∀ s', on_chains None s' q → q_rest s' = q_rest s → Q tt s') → wp (selfque e) Q s.
Proof using QueLaws0.
  intros Hh He Hno HQ. pose proof Hh as [HR HE HD HH HL HM]. destruct (HM e He) as [Hme Hpe]. unfold selfque.
  apply wp_bind, wp_q_next_set; [done|]. intros s1 N1 P1 R1. apply wp_q_prev_set; [by rewrite P1|]. intros s2 N2 P2 R2.
  apply HQ; [|congruence]. split; try done.
  - intros h Hhs. eapply ring_ext; [|by apply HR]. intros y Hy.
    assert (y ≠ e). { intros ->. destruct Hy as [->|Hy]; [by apply (HH h)|by apply (Hno h)]. }
    by rewrite N2, N1, P2, !upd_ne, P1.
  - intros x Hx _ Hxn. rewrite N2, N1, P2. unfold upd. rewrite P1. case_decide; [by subst|]. apply HL; [done|congruence|done].
  - intros x Hx. rewrite N2, N1, P2. unfold upd. rewrite P1. destruct (HM x Hx). case_decide; eauto.
Qed.
End hashing.

(** ** Tables of linked structures

    The links of a table of structures [elems] and of the heads of its chains
    [heads]; [world] is the state around them. *)
Section structures.
Context {S E W : Type} (heads : S → gmap Z (Z * Z)) (set_heads : gmap Z (Z * Z) → S → S).
Context (elems : S → gmap Z E) (set_elems : gmap Z E → S → S) (world : S → W).
Context (fw bk : E → Z) (set_fw set_bk : Z → E → E) (core : E → E).

Definition table_que : QueMem S := {|
  q_next s p := match heads s !! p with Some l => Some l.1 | None => fw <$> elems s !! p end;
  q_prev s p := match heads s !! p with Some l => Some l.2 | None => bk <$> elems s !! p end;
  set_q_next p v s :=
    match heads s !! p with
    | Some l => set_heads (<[p := (v, l.2)]> (heads s)) s
    | None => set_elems (alter (set_fw v) p (elems s)) s
    end;
  set_q_prev p v s :=
    match heads s !! p with
    | Some l => set_heads (<[p := (l.1, v)]> (heads s)) s
    | None => set_elems (alter (set_bk v) p (elems s)) s
    end
|}.

(** All but the links. *)
Definition table_rest (s : S) := (world s, core <$> elems s, (λ _, ()) <$> heads s).

Hypotheses (Hhh : ∀ m s, heads (set_heads m s) = m) (Hhe : ∀ m s, heads (set_elems m s) = heads s).
Hypotheses (Heh : ∀ m s, elems (set_heads m s) = elems s) (Hee : ∀ m s, elems (set_elems m s) = m).
Hypotheses (Hwh : ∀ m s, world (set_heads m s) = world s) (Hwe : ∀ m s, world (set_elems m s) = world s).
Hypotheses (Hff : ∀ v e, fw (set_fw v e) = v) (Hfb : ∀ v e, fw (set_bk v e) = fw e).
Hypotheses (Hbf : ∀ v e, bk (set_fw v e) = bk e) (Hbb : ∀ v e, bk (set_bk v e) = v).
Hypotheses (Hcf : ∀ v e, core (set_fw v e) = core e) (Hcb : ∀ v e, core (set_bk v e) = core e).

Lemma lookup_update {X} (f : X → X) (m : gmap Z X) p y : alter f p m !! y = if decide (y = p) then f <$> m !! y else m !! y.
Proof. case_decide; [subst; by rewrite lookup_alter_eq|by rewrite lookup_alter_ne]. Qed.

Lemma lookup_replace {X} (x : X) (m : gmap Z X) p y : <[p := x]> m !! y = if decide (y = p) then Some x else m !! y.
Proof. case_decide; [subst; by rewrite lookup_insert_eq|by rewrite lookup_insert_ne]. Qed.

Lemma fmap_heads l l' p (m : gmap Z (Z * Z)) : m !! p = Some l → (λ _, ()) <$> <[p := l']> m = (λ _, ()) <$> m.
Proof. intros E0. apply map_eq. intros y. rewrite !lookup_fmap, lookup_replace. case_decide; [by subst; rewrite E0|done]. Qed.

Lemma fmap_elems (f : E → E) p (m : gmap Z E) : (∀ e, core (f e) = core e) → core <$> alter f p m = core <$> m.
Proof. intros Hf. apply map_eq. intros y. rewrite !lookup_fmap, lookup_update. case_decide; [|done]. destruct (m !! y); simpl; by rewrite ?Hf. Qed.

Lemma table_laws : @QueLaws S table_que _ table_rest.
Proof using All.
  unfold table_rest. split; intros s p; cbn.
  1,4: intros v y Hp; destruct (heads s !! p) as [l|] eqn:E0; rewrite ?Hhh, ?Heh, ?Hhe, ?Hee, ?lookup_replace, ?lookup_update; unfold upd;
    case_decide; subst; rewrite ?E0; try done; destruct (elems s !! p); simpl; rewrite ?Hff, ?Hbb; [done|by destruct Hp].
  1,2: intros v y; destruct (heads s !! p) as [l|] eqn:E0; rewrite ?Hhh, ?Heh, ?Hhe, ?Hee, ?lookup_replace, ?lookup_update;
    case_decide; subst; rewrite ?E0; try done; destruct (elems s !! p); simpl; rewrite ?Hbf, ?Hfb; done.
  1,2: intros v _; destruct (heads s !! p) as [l|] eqn:E0; rewrite ?Hhh, ?Heh, ?Hhe, ?Hee, ?Hwh, ?Hwe;
    [by rewrite (fmap_heads _ _ _ _ E0)|by rewrite fmap_elems].
  destruct (heads s !! p); [by split; intros; eauto|]. by rewrite !fmap_is_Some.
Qed.
End structures.
