(* ===== verification/Rmap.v ===== *)
(** * Resource maps (sys/kernel/subr_rmap.c, sys/include/map.h)

    A resource map is a dense array of [(size, addr)] segments, sorted by
    address and closed by an entry of size 0.  [malloc] allocates first-fit,
    [mfree] returns a range and coalesces it with its neighbours, [malloc3]
    allocates the three segments of a process or nothing.  A pointer into the
    array is its index. *)

From S2P Require Import Prelude.

Module Rmap.

Record mapent := Mapent { m_size : Z; m_addr : Z }.

(** [m_lost] records the [printf] diagnostics of map overflow. *)
Record map := Map {
  m_map : list mapent;
  m_limit : Z;
  m_lost : list (Z * Z)
}.

Definition set_m_map (s : map) (l : list mapent) : map :=
  Map l (m_limit s) (m_lost s).

Definition rd (p : Z) : M map mapent := load (λ s, aget (m_map s) p).
Definition wr (p : Z) (e : mapent) : M map unit :=
  store (λ s, set_m_map s <$> aset (m_map s) p e).
Definition set_size (p : Z) (sz : Z) : M map unit :=
  e ← rd p; wr p (Mapent (u32 sz) (m_addr e)).
Definition set_addr (p : Z) (a : Z) : M map unit :=
  e ← rd p; wr p (Mapent (m_size e) (u32 a)).

(** Every loop walks the array in one direction. *)
Definition map_fuel : M map nat := gets (λ s, S (length (m_map s))).

(** [for (ep = bp;; ++ep) { *ep = *++bp; if (!bp->m_size) break; }] *)
Fixpoint shift_left (fuel : nat) (ep bp : Z) : M map unit :=
  match fuel with
  | O => nofuel
  | S f =>
      e ← rd (bp + 1);
      wr ep e;;
      e' ← rd (bp + 1);
      if m_size e' =? 0 then mret tt else shift_left f (ep + 1) (bp + 1)
  end.

Fixpoint malloc_loop (fuel : nat) (bp : Z) (size : Z) : M map Z :=
  match fuel with
  | O => nofuel
  | S f =>
      e ← rd bp;
      if m_size e =? 0 then mret 0
      else if size <=? m_size e then
        let addr := m_addr e in
        set_size bp (m_size e - size);;
        e' ← rd bp;
        (if negb (m_size e' =? 0) then set_addr bp (m_addr e' + size)
         else n ← map_fuel; shift_left n bp bp);;
        mret addr
      else malloc_loop f (bp + 1) size
  end.

Definition malloc (size : Z) : M map Z :=
  if size =? 0 then panic "malloc: size = 0"
  else n ← map_fuel; malloc_loop n 0 size.

(** [while (bp->m_size && bp->m_addr <= addr) ++bp;] *)
Fixpoint mfree_skip (fuel : nat) (bp addr : Z) : M map Z :=
  match fuel with
  | O => nofuel
  | S f =>
      e ← rd bp;
      if negb (m_size e =? 0) && (m_addr e <=? addr)
      then mfree_skip f (bp + 1) addr else mret bp
  end.

(** [for (start = bp; bp->m_size; ++bp);] *)
Fixpoint find_end (fuel : nat) (bp : Z) : M map Z :=
  match fuel with
  | O => nofuel
  | S f => e ← rd bp; if m_size e =? 0 then mret bp else find_end f (bp + 1)
  end.

(** [for (ep = bp - 1; ep >= start; *bp-- = *ep--);] *)
Fixpoint shift_right (fuel : nat) (bp ep start : Z) : M map unit :=
  match fuel with
  | O => nofuel
  | S f =>
      if start <=? ep then
        e ← rd ep; wr bp e;; shift_right f (bp - 1) (ep - 1) start
      else mret tt
  end.

Definition mfree (size addr : Z) : M map unit :=
  if size =? 0 then mret tt
  else if addr =? 0 then panic "mfree: addr = 0"
  else
    n ← map_fuel;
    bp ← mfree_skip n 0 addr;
    let ep := bp - 1 in
    left ← (if bp =? 0 then mret false
            else e ← rd ep; mret (addr <=? u32 (m_addr e + m_size e)));
    if left : bool then
      e ← rd ep;
      set_size ep (m_size e + size);;
      b ← rd bp;
      if negb (m_size b =? 0) && (m_addr b <=? u32 (addr + size)) then
        e' ← rd ep;
        set_size ep (m_size e' + m_size b);;
        shift_left n (ep + 1) bp
      else mret tt
    else
      b ← rd bp;
      if negb (m_size b =? 0) && (m_addr b <=? u32 (addr + size)) then
        set_addr bp addr;;
        set_size bp (m_size b + size)
      else
        let start := bp in
        bp' ← find_end n bp;
        let bp := bp' + 1 in
        limit ← gets m_limit;
        if limit <? bp then
          modify (λ s, Map (m_map s) (m_limit s) (m_lost s ++ [(size, addr)]))
        else
          shift_right n bp (bp - 1) start;;
          set_addr start addr;;
          set_size start size.

(** Locals of [malloc3]: the slots chosen so far, the first slot emptied,
    and the number of segments placed. *)
Record m3 := M3 { madd : list (option Z); remap : option Z; found : Z }.

(** The inner loop over [next]; [true] is [goto resolve]. *)
Fixpoint m3_fit (sizes : list Z) (bp : Z) (nexts : list Z) (l : m3) : M map (m3 * bool) :=
  match nexts with
  | [] => mret (l, false)
  | next :: ns =>
      e ← rd bp;
      sz ← load (λ _, aget sizes next);
      slot ← load (λ _, aget (madd l) next);
      if bool_decide (slot = None) && (sz <=? m_size e) then
        madd' ← load (λ _, aset (madd l) next (Some bp));
        set_size bp (m_size e - sz);;
        e' ← rd bp;
        let remap' := if (m_size e' =? 0) && bool_decide (remap l = None)
                      then Some bp else remap l in
        let l' := M3 madd' remap' (found l + 1) in
        if found l' =? 3 then mret (l', true) else m3_fit sizes bp ns l'
      else m3_fit sizes bp ns l
  end.

Fixpoint m3_scan (fuel : nat) (sizes : list Z) (bp : Z) (l : m3) : M map (m3 * bool) :=
  match fuel with
  | O => nofuel
  | S f =>
      e ← rd bp;
      if m_size e =? 0 then mret (l, false)
      else
        r ← m3_fit sizes bp [0; 1; 2] l;
        if r.2 : bool then mret r else m3_scan f sizes (bp + 1) r.1
  end.

(** Failure: give the sizes back. *)
Fixpoint m3_restore (sizes : list Z) (nexts : list Z) (l : m3) : M map unit :=
  match nexts with
  | [] => mret tt
  | next :: ns =>
      sz ← load (λ _, aget sizes next);
      slot ← load (λ _, aget (madd l) next);
      match slot with
      | Some bp => e ← rd bp; set_size bp (m_size e + sz)
      | None => mret tt
      end;;
      m3_restore sizes ns l
  end.

(** Success: hand out the addresses, in order. *)
Fixpoint m3_resolve (sizes : list Z) (nexts : list Z) (l : m3) (a : list Z) : M map (list Z) :=
  match nexts with
  | [] => mret a
  | next :: ns =>
      sz ← load (λ _, aget sizes next);
      slot ← load (λ _, aget (madd l) next);
      bp ← load (λ _, slot);
      e ← rd bp;
      a' ← load (λ _, aset a next (m_addr e));
      set_addr bp (m_addr e + sz);;
      m3_resolve sizes ns l a'
  end.

(** [for (bp = remap + 1;; ++bp)]: drop the entries of size 0. *)
Fixpoint m3_compact (fuel : nat) (rp bp : Z) : M map unit :=
  match fuel with
  | O => nofuel
  | S f =>
      e ← rd bp;
      if negb (m_size e =? 0) || (m_addr e =? 0) then
        wr rp e;;
        e' ← rd bp;
        if m_addr e' =? 0 then mret tt else m3_compact f (rp + 1) (bp + 1)
      else m3_compact f rp (bp + 1)
  end.

(** Returns the result of the C function and the caller's array [a]. *)
Definition malloc3 (d_size s_size u_size : Z) (a : list Z) : M map (Z * list Z) :=
  let sizes := [d_size; s_size; u_size] in
  n ← map_fuel;
  r ← m3_scan n sizes 0 (M3 [None; None; None] None 0);
  if r.2 : bool then
    a' ← m3_resolve sizes [0; 1; 2] r.1 a;
    match remap r.1 with
    | Some rp => m3_compact n rp (rp + 1)
    | None => mret tt
    end;;
    res ← load (λ _, aget a' 2);
    mret (res, a')
  else
    m3_restore sizes [0; 1; 2] r.1;;
    mret (0, a).

(** ** Abstract view: the set of free units *)

Definition seg_end (e : mapent) : Z := m_addr e + m_size e.

Fixpoint sorted_from (lo : Z) (es : list mapent) : Prop :=
  match es with
  | [] => True
  | e :: es' =>
      lo < m_addr e ∧ 0 < m_size e ∧ seg_end e < 2 ^ 32 ∧ sorted_from (seg_end e) es'
  end.

(** Segments are non-empty, sorted, separated by gaps and avoid address 0. *)
Definition wf (es : list mapent) : Prop := sorted_from 0 es.

Definition terminator : mapent := Mapent 0 0.

(** The array holds exactly the segments [es], then the terminator; [m_limit]
    is its last slot. *)
Definition rep (s : map) (es : list mapent) : Prop :=
  m_limit s + 1 = zlen (m_map s) ∧ ∃ rest, m_map s = es ++ terminator :: rest.

Definition in_range (a n x : Z) : Prop := a ≤ x < a + n.
Definition free_in (es : list mapent) (x : Z) : Prop :=
  Exists (λ e, in_range (m_addr e) (m_size e) x) es.

Lemma free_in_nil x : free_in [] x ↔ False.
Proof. apply Exists_nil. Qed.
Lemma free_in_cons e es x :
  free_in (e :: es) x ↔ in_range (m_addr e) (m_size e) x ∨ free_in es x.
Proof. apply Exists_cons. Qed.
Lemma free_in_app es1 es2 x : free_in (es1 ++ es2) x ↔ free_in es1 x ∨ free_in es2 x.
Proof. apply Exists_app. Qed.

#[local] Hint Rewrite free_in_nil free_in_cons free_in_app : rmap.

Fixpoint last_end (lo : Z) (es : list mapent) : Z :=
  match es with [] => lo | e :: es' => last_end (seg_end e) es' end.

Lemma sorted_from_app lo es1 es2 :
  sorted_from lo (es1 ++ es2) ↔ sorted_from lo es1 ∧ sorted_from (last_end lo es1) es2.
Proof. revert lo. induction es1 as [|e es1 IH]; intros lo; simpl; [tauto|]. rewrite IH. tauto. Qed.

Lemma sorted_from_lt lo es x : sorted_from lo es → free_in es x → lo < x < 2 ^ 32.
Proof.
  revert lo. induction es as [|e es IH]; intros lo; simpl.
  - by intros _ ?%free_in_nil.
  - intros (? & ? & ? & Hs) [Hr | Hf]%free_in_cons.
    + unfold in_range, seg_end in *. lia.
    + specialize (IH _ Hs Hf). unfold seg_end in *. lia.
Qed.

Lemma sorted_from_last_end lo es : sorted_from lo es → lo ≤ last_end lo es.
Proof.
  revert lo. induction es as [|e es IH]; intros lo; simpl; [lia|].
  intros (? & ? & ? & Hs%IH). unfold seg_end in *. lia.
Qed.

Lemma sorted_from_weaken lo lo' es : lo' ≤ lo → sorted_from lo es → sorted_from lo' es.
Proof. destruct es; simpl; intuition lia. Qed.

Lemma last_end_snoc lo es e : last_end lo (es ++ [e]) = seg_end e.
Proof. revert lo. by induction es; simpl. Qed.

Lemma last_end_app lo es1 es2 : last_end lo (es1 ++ es2) = last_end (last_end lo es1) es2.
Proof. revert lo. by induction es1; simpl. Qed.

Lemma last_end_free lo es x : sorted_from lo es → free_in es x → x < last_end lo es.
Proof.
  revert lo. induction es as [|e es IH]; intros lo; simpl.
  - by intros _ ?%free_in_nil.
  - intros (? & ? & ? & Hs) [Hr|Hf]%free_in_cons.
    + apply sorted_from_last_end in Hs. unfold in_range, seg_end in *. lia.
    + by apply IH.
Qed.

Lemma sorted_from_sizes lo es : sorted_from lo es → Forall (λ e, m_size e ≠ 0) es.
Proof. revert lo. induction es; intros lo; simpl; [done|]. intros (?&?&?&?). constructor; [lia|eauto]. Qed.

(** A sorted, gap-separated segment list is determined by its free set. *)
Lemma canonical lo es1 es2 :
  sorted_from lo es1 → sorted_from lo es2 →
  (∀ x, free_in es1 x ↔ free_in es2 x) → es1 = es2.
Proof.
  revert lo es2. induction es1 as [|[n a] es1 IH]; intros lo [|[m b] es2]; simpl.
  - done.
  - intros _ (?&?&?&?) Hf. exfalso. apply (free_in_nil b), Hf, free_in_cons.
    left. unfold in_range. simpl in *. lia.
  - intros (?&?&?&?) _ Hf. exfalso. apply (free_in_nil a), Hf, free_in_cons.
    left. unfold in_range. simpl in *. lia.
  - unfold seg_end. simpl. intros (Ha&Hn&?&H1) (Hb&Hm&?&H2) Hf.
    assert (Hin1 : ∀ x, free_in es1 x → a + n < x) by (intros ? ?%(sorted_from_lt _ _ _ H1); lia).
    assert (Hin2 : ∀ x, free_in es2 x → b + m < x) by (intros ? ?%(sorted_from_lt _ _ _ H2); lia).
    assert (Hc : ∀ x, in_range a n x ∨ free_in es1 x ↔ in_range b m x ∨ free_in es2 x).
    { intros x. specialize (Hf x). by autorewrite with rmap in Hf. }
    unfold in_range in Hc.
    assert (a = b).
    { destruct (proj1 (Hc a)) as [?|?%Hin2]; [lia| |];
      (destruct (proj2 (Hc b)) as [?|?%Hin1]; [lia|lia|lia]). }
    subst b.
    assert (n = m).
    { destruct (Z.lt_trichotomy n m) as [?|[?|?]]; [|done|].
      - destruct (proj2 (Hc (a + n))) as [?|?%Hin1]; lia.
      - destruct (proj1 (Hc (a + m))) as [?|?%Hin2]; lia. }
    subst m. f_equal. apply (IH _ es2 H1 H2). intros x. specialize (Hc x). split; intros Hx.
    + destruct (proj1 Hc) as [?|?]; [by right| |done]. specialize (Hin1 _ Hx). lia.
    + destruct (proj2 Hc) as [?|?]; [by right| |done]. specialize (Hin2 _ Hx). lia.
Qed.

(** ** Execution lemmas for the array walks *)

Lemma wp_rd pre e post lim lost p Q :
  p = zlen pre → Q e (Map (pre ++ e :: post) lim lost) →
  wp (rd p) Q (Map (pre ++ e :: post) lim lost).
Proof. intros. eapply wp_load; [by apply aget_mid|done]. Qed.

Lemma wp_wr pre e e' post lim lost p Q :
  p = zlen pre → Q tt (Map (pre ++ e' :: post) lim lost) →
  wp (wr p e') Q (Map (pre ++ e :: post) lim lost).
Proof. intros. eapply wp_store; [simpl; by rewrite (aset_mid pre)|done]. Qed.

Lemma wp_set_size pre e post lim lost p n Q :
  p = zlen pre → is_u32 n → Q tt (Map (pre ++ Mapent n (m_addr e) :: post) lim lost) →
  wp (set_size p n) Q (Map (pre ++ e :: post) lim lost).
Proof.
  intros. apply wp_bind, wp_rd; [done|]. apply wp_wr; [done|]. by rewrite u32_id.
Qed.

Lemma wp_set_addr pre e post lim lost p a Q :
  p = zlen pre → is_u32 a → Q tt (Map (pre ++ Mapent (m_size e) a :: post) lim lost) →
  wp (set_addr p a) Q (Map (pre ++ e :: post) lim lost).
Proof.
  intros. apply wp_bind, wp_rd; [done|]. apply wp_wr; [done|]. by rewrite u32_id.
Qed.

Lemma shift_left_ok fuel pre x es T rest lim lost p Q :
  (length es < fuel)%nat → p = zlen pre →
  Forall (λ e, m_size e ≠ 0) es → m_size T = 0 →
  Q tt (Map (pre ++ es ++ T :: T :: rest) lim lost) →
  wp (shift_left fuel p p) Q (Map (pre ++ x :: es ++ T :: rest) lim lost).
Proof.
  revert pre x p fuel. induction es as [|e es IH]; intros pre x p [|fuel] Hf Hp Hes HT HQ;
    try (simpl in *; lia); cbn [shift_left].
  - assert (Hget : ∀ y, pre ++ y :: T :: rest = (pre ++ [y]) ++ T :: rest)
      by (intros; by rewrite <- app_assoc).
    assert (p + 1 = zlen (pre ++ [x])) by (len_lia).
    apply wp_bind. simpl. rewrite Hget. apply wp_rd; [done|]. rewrite <- Hget.
    apply wp_bind, wp_wr; [done|].
    apply wp_bind. rewrite Hget. apply wp_rd; [len_lia|].
    rewrite HT. simpl. apply wp_ret. by rewrite <- Hget.
  - inversion Hes as [|?? He Hes']; subst.
    assert (Hget : ∀ y, pre ++ y :: e :: es ++ T :: rest = (pre ++ [y]) ++ e :: es ++ T :: rest)
      by (intros; by rewrite <- app_assoc).
    apply wp_bind. simpl. rewrite Hget.
    apply wp_rd; [len_lia|]. rewrite <- Hget.
    apply wp_bind, wp_wr; [done|].
    apply wp_bind. rewrite Hget. apply wp_rd; [len_lia|].
    rewrite (proj2 (Z.eqb_neq _ _) He).
    apply (IH (pre ++ [e]) e); [simpl in Hf; lia|len_lia|done|done|].
    rewrite <- app_assoc. apply HQ.
Qed.

Lemma shift_right_ok fuel pre l y rest lim lost bp ep start Q :
  (length l < fuel)%nat → bp = zlen pre + zlen l → ep = bp - 1 → start = zlen pre →
  Q tt (Map (pre ++ (hd y l) :: l ++ rest) lim lost) →
  wp (shift_right fuel bp ep start) Q (Map (pre ++ l ++ y :: rest) lim lost).
Proof.
  revert y rest bp ep fuel. induction l as [|z l IH] using rev_ind;
    intros y rest bp ep [|fuel] Hf Hbp Hep Hst HQ; try lia; cbn [shift_right].
  - simpl in *. ztest. apply wp_ret. exact HQ.
  - rewrite length_app in *. simpl in Hf, Hbp. ztest.
    replace (pre ++ (l ++ [z]) ++ y :: rest) with ((pre ++ l) ++ z :: y :: rest)
      by (by rewrite <- !app_assoc).
    apply wp_bind, wp_rd; [len_lia|].
    replace ((pre ++ l) ++ z :: y :: rest) with ((pre ++ l ++ [z]) ++ y :: rest)
      by (by rewrite <- !app_assoc).
    apply wp_bind, wp_wr; [len_lia|].
    replace ((pre ++ l ++ [z]) ++ z :: rest) with (pre ++ l ++ z :: z :: rest)
      by (by rewrite <- !app_assoc).
    apply IH; [lia..|].
    replace (hd y (l ++ [z])) with (hd z l) in HQ by (destruct l; reflexivity).
    by rewrite <- app_assoc in HQ.
Qed.

(** ** malloc *)

(** What is left of a segment after taking [size] units from its front. *)
Definition carve (e : mapent) (size : Z) : list mapent :=
  if m_size e =? size then [] else [Mapent (m_size e - size) (m_addr e + size)].

Lemma rep_intro es rest lim lost :
  lim + 1 = zlen (es ++ terminator :: rest) →
  rep (Map (es ++ terminator :: rest) lim lost) es.
Proof. intros H. split; [exact H|]. by eexists. Qed.

Lemma malloc_loop_ok fuel pre es rest lim lost lo size bp (Q : Z → map → Prop) :
  (length es < fuel)%nat → bp = zlen pre → 0 < size → 0 ≤ lo → sorted_from lo es →
  (Forall (λ e, m_size e < size) es → Q 0 (Map (pre ++ es ++ terminator :: rest) lim lost)) →
  (∀ es1 e es2 rest', es = es1 ++ e :: es2 → Forall (λ e, m_size e < size) es1 →
     size ≤ m_size e →
     length (carve e size ++ es2 ++ terminator :: rest') = length (e :: es2 ++ terminator :: rest) →
     Q (m_addr e) (Map (pre ++ es1 ++ carve e size ++ es2 ++ terminator :: rest') lim lost)) →
  wp (malloc_loop fuel bp size) Q (Map (pre ++ es ++ terminator :: rest) lim lost).
Proof.
  revert pre lo bp fuel. induction es as [|e es IH];
    intros pre lo bp [|fuel] Hf Hbp Hsz Hlo Hs HQ0 HQ; try (simpl in Hf; lia); cbn [malloc_loop].
  - apply wp_bind, wp_rd; [done|]. simpl. apply wp_ret. by apply HQ0.
  - destruct Hs as (Ha & Hn & He & Hs). unfold seg_end in He. rewrite <- app_comm_cons.
    apply wp_bind, wp_rd; [done|]. ztest.
    destruct (Z.leb_spec size (m_size e)).
    + apply wp_bind, wp_set_size; [done|red; lia|].
      apply wp_bind, wp_rd; [done|]. cbn [m_size m_addr].
      apply wp_bind. specialize (HQ [] e es). unfold carve in HQ.
      destruct (Z.eqb_spec (m_size e) size).
      * ztest. apply wp_bind, wp_gets.
        apply shift_left_ok;
          [simpl; len_lia|done|by eapply sorted_from_sizes|done|].
        apply wp_ret. apply (HQ (terminator :: rest)); [done|constructor|done|].
        simpl. rewrite !length_app. simpl. lia.
      * ztest. apply wp_set_addr; [done|red; cbn [m_addr]; lia|].
        apply wp_ret. apply HQ; [done|constructor|done|done].
    + replace (pre ++ e :: es ++ terminator :: rest)
        with ((pre ++ [e]) ++ es ++ terminator :: rest) by (by rewrite <- app_assoc).
      apply (IH _ (m_addr e + m_size e)); [simpl in Hf; lia|len_lia|lia|lia|done| |].
      * intros. rewrite <- app_assoc. apply HQ0. by constructor.
      * intros es1 e' es2 rest' -> ???. rewrite <- app_assoc.
        apply (HQ (e :: es1)); [done|by constructor|done|done].
Qed.

Lemma run_in_segment lo es b n :
  sorted_from lo es → 0 < n → (∀ x, in_range b n x → free_in es x) →
  Exists (λ e, m_addr e ≤ b ∧ b + n ≤ seg_end e) es.
Proof.
  revert lo. induction es as [|e es IH]; intros lo Hs Hn Hrun.
  - exfalso. apply (free_in_nil b), Hrun. unfold in_range. lia.
  - destruct Hs as (Ha & Hz & He & Hs).
    assert (Hlt : ∀ x, free_in es x → seg_end e < x) by (intros x Hx; by apply (sorted_from_lt _ _ _ Hs)).
    unfold in_range in *.
    destruct (proj1 (free_in_cons e es b)) as [Hb|Hb]; [apply Hrun; lia| |].
    + left. unfold in_range, seg_end in *. split; [lia|].
      destruct (Z.le_gt_cases (b + n) (m_addr e + m_size e)); [done|].
      destruct (proj1 (free_in_cons e es (m_addr e + m_size e))) as [?|?%Hlt];
        [apply Hrun; lia| |]; unfold in_range in *; lia.
    + right. apply (IH _ Hs Hn). intros x Hx.
      destruct (proj1 (free_in_cons e es x)) as [?|?]; [apply Hrun; lia| |done].
      specialize (Hlt _ Hb). unfold in_range, seg_end in *. lia.
Qed.

Lemma carve_free e size x :
  0 < size ≤ m_size e →
  free_in (carve e size) x ↔
  in_range (m_addr e) (m_size e) x ∧ ¬ in_range (m_addr e) size x.
Proof.
  intros. unfold carve, in_range. case_match; to_prop; autorewrite with rmap; simpl;
    unfold in_range; simpl; lia.
Qed.

Lemma carve_sorted lo e size es :
  0 < size ≤ m_size e → sorted_from lo (e :: es) → sorted_from lo (carve e size ++ es).
Proof.
  intros ? (?&?&?&Hs). unfold carve, seg_end in *. case_match; to_prop; simpl; unfold seg_end; simpl.
  - eapply sorted_from_weaken, Hs. lia.
  - repeat split; try lia. eapply sorted_from_weaken, Hs. lia.
Qed.

Lemma segments_disjoint lo es1 e es2 x :
  sorted_from lo (es1 ++ e :: es2) → in_range (m_addr e) (m_size e) x →
  ¬ free_in es1 x ∧ ¬ free_in es2 x.
Proof.
  rewrite sorted_from_app. intros [H1 (?&?&?&H2)] Hx. unfold in_range, seg_end in *. split; intros Hf.
  - apply (last_end_free _ _ _ H1) in Hf. lia.
  - apply (sorted_from_lt _ _ _ H2) in Hf. unfold seg_end in *. lia.
Qed.

(** The specification of a successful or failed allocation of [size] units
    against the free set of [es]. *)
Definition malloc_spec (es : list mapent) (size a : Z) (es' : list mapent) : Prop :=
  wf es' ∧ (length es' ≤ length es)%nat ∧
  ((a = 0 ∧ es' = es ∧ ∀ b, ¬ (∀ x, in_range b size x → free_in es x)) ∨
   (0 < a ∧
    (∀ x, in_range a size x → free_in es x) ∧
    (∀ b, (∀ x, in_range b size x → free_in es x) → a ≤ b) ∧
    (∀ x, free_in es' x ↔ free_in es x ∧ ¬ in_range a size x))).

Lemma malloc_refines s es size :
  rep s es → wf es → 0 < size →
  wp (malloc size) (λ a s', ∃ es', rep s' es' ∧ m_limit s' = m_limit s ∧
    m_lost s' = m_lost s ∧ malloc_spec es size a es') s.
Proof.
  intros [Hlim [rest Hmap]] Hwf Hsz. destruct s as [arr lim lost]; simpl in *; subst arr.
  unfold malloc. ztest. apply wp_bind, wp_gets.
  apply (malloc_loop_ok _ [] es _ _ _ 0); simpl; [len_lia|done|lia|done|done| |].
  - intros Hsmall. exists es. repeat split; [done|by eexists|done|done|].
    left. repeat split. intros b Hrun.
    apply (run_in_segment _ _ _ _ Hwf Hsz), Exists_exists in Hrun as (e & Hin & ? & ?).
    eapply Forall_forall in Hsmall; [|done]. unfold seg_end in *. simpl in *. lia.
  - intros es1 e es2 rest' -> Hsmall Hfit Hlen.
    assert (Hse := Hwf). apply sorted_from_app in Hse as [Hs1 Hse]. simpl in Hse.
    pose proof (sorted_from_last_end _ _ Hs1).
    exists (es1 ++ carve e size ++ es2). unfold malloc_spec.
    split_and!; [| done | done | | |].
    + replace (es1 ++ carve e size ++ es2 ++ terminator :: rest')
        with ((es1 ++ carve e size ++ es2) ++ terminator :: rest') by (by rewrite <- !app_assoc).
      apply rep_intro. rewrite Hlim, <- !app_assoc, !length_app in *. simpl in *.
      lia.
    + apply sorted_from_app. split; [done|]. apply carve_sorted; [lia|]. apply Hse.
    + unfold carve. case_match; len_lia.
    + right. destruct Hse as (?&?&?&Hs2). unfold seg_end in *. split_and!; [lia|..].
      * intros x Hx. autorewrite with rmap. unfold in_range in *. lia.
      * intros b Hrun. apply (run_in_segment _ _ _ _ Hwf Hsz), Exists_exists in Hrun as (e' & Hin & ? & ?).
        apply elem_of_app in Hin as [Hin|[->|Hin]%elem_of_cons]; unfold seg_end in *.
        -- eapply Forall_forall in Hsmall; [|done]. simpl in *. lia.
        -- done.
        -- assert (Hf : free_in es2 (m_addr e')).
           { apply Exists_exists. exists e'. split; [done|]. unfold in_range. lia. }
           apply (sorted_from_lt _ _ _ Hs2) in Hf. lia.
      * intros x. autorewrite with rmap. rewrite carve_free by lia.
        pose proof (segments_disjoint _ _ _ _ x Hwf).
        assert (in_range (m_addr e) size x → in_range (m_addr e) (m_size e) x)
          by (unfold in_range; lia). tauto.
Qed.

(** ** mfree *)

Definition head_above (lo : Z) (es : list mapent) : Prop :=
  ∀ b, head es = Some b → lo < m_addr b.

Lemma sorted_from_raise lo lo' es : sorted_from lo es → head_above lo' es → sorted_from lo' es.
Proof. destruct es as [|b es]; simpl; [done|]. intros (?&?&?&?) Hh. split_and!; try done. by apply Hh. Qed.

Lemma mfree_skip_ok fuel pre es rest lim lost lo bp addr (Q : Z → map → Prop) :
  (length es < fuel)%nat → bp = zlen pre → sorted_from lo es →
  (∀ es1 es2, es = es1 ++ es2 → Forall (λ e, m_addr e ≤ addr) es1 → head_above addr es2 →
     Q (zlen pre + zlen es1) (Map (pre ++ es ++ terminator :: rest) lim lost)) →
  wp (mfree_skip fuel bp addr) Q (Map (pre ++ es ++ terminator :: rest) lim lost).
Proof.
  revert pre lo bp fuel. induction es as [|e es IH];
    intros pre lo bp [|fuel] Hf Hbp Hs HQ; try (simpl in Hf; lia); cbn [mfree_skip].
  - apply wp_bind, wp_rd; [done|]. simpl. apply wp_ret.
    replace bp with (zlen pre + 0) by lia. by apply (HQ [] []).
  - destruct Hs as (Ha & Hn & He & Hs). rewrite <- app_comm_cons.
    apply wp_bind, wp_rd; [done|]. ztest.
    destruct (Z.leb_spec (m_addr e) addr); simpl.
    + replace (pre ++ e :: es ++ terminator :: rest)
        with ((pre ++ [e]) ++ es ++ terminator :: rest) by (by rewrite <- app_assoc).
      eapply (IH _ _ _ _); [simpl in Hf; lia|len_lia|done|].
      intros es1 es2 -> ??. rewrite <- app_assoc, length_app. simpl.
      replace (Z.of_nat (length pre + 1) + zlen es1) with (zlen pre + zlen (e :: es1)) by (simpl; lia).
      apply (HQ (e :: es1) es2); [done|by constructor|done].
    + apply wp_ret. replace bp with (zlen pre + 0) by lia.
      apply (HQ [] (e :: es)); [done|constructor|]. by intros b [= ->].
Qed.

Lemma find_end_ok fuel pre es rest lim lost bp (Q : Z → map → Prop) :
  (length es < fuel)%nat → bp = zlen pre → Forall (λ e, m_size e ≠ 0) es →
  Q (zlen pre + zlen es) (Map (pre ++ es ++ terminator :: rest) lim lost) →
  wp (find_end fuel bp) Q (Map (pre ++ es ++ terminator :: rest) lim lost).
Proof.
  revert pre bp fuel. induction es as [|e es IH];
    intros pre bp [|fuel] Hf Hbp Hs HQ; try (simpl in Hf; lia); cbn [find_end].
  - apply wp_bind, wp_rd; [done|]. simpl. apply wp_ret.
    by replace bp with (zlen pre + 0) by lia.
  - inversion Hs; subst. rewrite <- app_comm_cons. apply wp_bind, wp_rd; [done|]. ztest.
    replace (pre ++ e :: es ++ terminator :: rest)
      with ((pre ++ [e]) ++ es ++ terminator :: rest) by (by rewrite <- app_assoc).
    apply IH; [simpl in Hf; lia|len_lia|done|].
    rewrite <- app_assoc, length_app. simpl in *.
    by replace (Z.of_nat (length pre + 1) + zlen es) with (zlen pre + Z.of_nat (S (length es))) by lia.
Qed.

(** Freeing adds the range to the free set. *)
Definition mfree_spec (es : list mapent) (size addr : Z) (es' : list mapent) : Prop :=
  wf es' ∧ ∀ x, free_in es' x ↔ free_in es x ∨ in_range addr size x.

Section mfree_cases.
Context (size addr : Z) (Hsize : 0 < size) (Hend : addr + size < 2 ^ 32).

(** Goal-directed unfolding of sortedness at a splice point. *)
Local Ltac splice :=
  unfold mfree_spec, wf, seg_end, in_range in *;
  rewrite ?sorted_from_app in *; cbn [sorted_from m_size m_addr last_end] in *; unfold seg_end in *;
  cbn [m_size m_addr] in *.

Lemma merge_both es1 e b es2 :
  wf (es1 ++ e :: b :: es2) → seg_end e = addr → m_addr b = addr + size →
  mfree_spec (es1 ++ e :: b :: es2) size addr
    (es1 ++ Mapent (m_size e + size + m_size b) (m_addr e) :: es2).
Proof.
  splice. intros (H1 & ? & ? & ? & ? & ? & ? & Hs) ??. split.
  - split_and!; try done; try lia. eapply sorted_from_weaken, Hs. lia.
  - intros x. autorewrite with rmap. simpl. unfold in_range. intuition lia.
Qed.

Lemma merge_left es1 e es2 :
  wf (es1 ++ e :: es2) → seg_end e = addr → head_above (addr + size) es2 →
  mfree_spec (es1 ++ e :: es2) size addr (es1 ++ Mapent (m_size e + size) (m_addr e) :: es2).
Proof.
  splice. intros (H1 & ? & ? & ? & Hs) ? Hh. split.
  - split_and!; try done; try lia. eapply sorted_from_raise; [done|].
    by replace (m_addr e + (m_size e + size)) with (addr + size) by lia.
  - intros x. autorewrite with rmap. simpl. unfold in_range. intuition lia.
Qed.

Lemma merge_right es1 b es2 :
  wf (es1 ++ b :: es2) → last_end 0 es1 < addr → m_addr b = addr + size →
  mfree_spec (es1 ++ b :: es2) size addr (es1 ++ Mapent (m_size b + size) addr :: es2).
Proof.
  splice. intros (H1 & ? & ? & ? & Hs) ? ?. split.
  - split_and!; try done; try lia. eapply sorted_from_weaken, Hs. lia.
  - intros x. autorewrite with rmap. simpl. unfold in_range. intuition lia.
Qed.

Lemma insert_new es1 es2 :
  wf (es1 ++ es2) → last_end 0 es1 < addr → head_above (addr + size) es2 →
  mfree_spec (es1 ++ es2) size addr (es1 ++ Mapent size addr :: es2).
Proof.
  splice. intros (H1 & Hs) ? ?. split.
  - split_and!; try done; try lia. by eapply sorted_from_raise.
  - intros x. autorewrite with rmap. simpl. unfold in_range. tauto.
Qed.
End mfree_cases.

Lemma head_above_free lo es x : sorted_from lo es → head_above x es → ¬ free_in es x.
Proof.
  intros Hs Hh Hf. destruct es as [|b es]; [by apply free_in_nil in Hf|].
  specialize (Hh b eq_refl). destruct Hs as (?&?&?&Hs). apply free_in_cons in Hf as [Hf|Hf].
  - unfold in_range in Hf. lia.
  - apply (sorted_from_lt _ _ _ Hs) in Hf. unfold seg_end in *. lia.
Qed.

Lemma last_end_le_free lo es x : sorted_from lo es → last_end lo es ≤ x → ¬ free_in es x.
Proof. intros Hs Hl Hf%(last_end_free _ _ _ Hs). lia. Qed.

(** Outcome of [mfree]: the range joins the free set, or the map was full,
    the range had no free neighbour, and it is reported lost. *)
Definition mfree_post (s : map) (es : list mapent) (size addr : Z) (s' : map) : Prop :=
  m_limit s' = m_limit s ∧
  ((∃ es', rep s' es' ∧ mfree_spec es size addr es' ∧ m_lost s' = m_lost s) ∨
   (rep s' es ∧ zlen es = m_limit s ∧ ¬ free_in es (addr - 1) ∧ ¬ free_in es (addr + size) ∧
    m_lost s' = m_lost s ++ [(size, addr)])).

Lemma mfree_post_ok es size addr arr lim lost es' rest :
  lim + 1 = zlen arr → zlen arr = zlen (es' ++ terminator :: rest) → mfree_spec es size addr es' →
  mfree_post (Map arr lim lost) es size addr (Map (es' ++ terminator :: rest) lim lost).
Proof.
  intros Hl Ha Hs. split; [done|]. left. exists es'. split; [|done]. apply rep_intro. lia.
Qed.

Lemma cons_case {A} (l : list A) : l = [] ∨ ∃ x l', l = x :: l'.
Proof. destruct l; eauto. Qed.

Section mfree_exec.
Context (size addr : Z) (es1 es2 rest : list mapent) (lim : Z) (lost : list (Z * Z)) (n : nat).
Let es := es1 ++ es2.
Let st := Map (es1 ++ es2 ++ terminator :: rest) lim lost.
Context (Hwf : wf es) (Hlim : lim + 1 = zlen (es1 ++ es2 ++ terminator :: rest))
  (Hsize : 0 < size) (Haddr : 0 < addr) (Hend : addr + size < 2 ^ 32)
  (Hdisj : ∀ x, in_range addr size x → ¬ free_in es x)
  (Hlow : Forall (λ e, m_addr e ≤ addr) es1) (Hhigh : head_above addr es2)
  (Hn : (length (es1 ++ es2 ++ terminator :: rest) < n)%nat).

Lemma right_neighbour b es2' :
  es2 = b :: es2' → m_addr b ≤ addr + size → m_addr b = addr + size.
Proof.
  clear Hn Hlim. intros Heq Hb. assert (addr < m_addr b) by (apply Hhigh; by rewrite Heq).
  assert (Hw := Hwf). unfold wf, es in Hw. rewrite Heq, sorted_from_app in Hw.
  destruct Hw as [_ (?&?&?&?)].
  destruct (decide (m_addr b < addr + size)); [|lia]. exfalso.
  apply (Hdisj (m_addr b)); [unfold in_range; lia|]. unfold es. rewrite Heq.
  autorewrite with rmap. unfold in_range. right; left. lia.
Qed.

Lemma left_neighbour es1' e :
  es1 = es1' ++ [e] → addr ≤ seg_end e → seg_end e = addr.
Proof.
  clear Hn Hlim. intros Heq He. assert (m_addr e ≤ addr).
  { rewrite Heq in Hlow. apply Forall_app in Hlow as [_ Hl]. by inversion Hl. }
  destruct (decide (addr < seg_end e)); [|lia]. exfalso. unfold seg_end in *.
  apply (Hdisj addr); [unfold in_range; lia|]. unfold es. rewrite Heq.
  autorewrite with rmap. unfold in_range. left; right; left. lia.
Qed.

Lemma no_right_neighbour :
  (∀ b es2', es2 = b :: es2' → addr + size < m_addr b) → head_above (addr + size) es2.
Proof. intros Hr b Hb. destruct es2; simplify_eq/=. eauto. Qed.

Lemma mfree_insert :
  last_end 0 es1 < addr → head_above (addr + size) es2 →
  wp (bp' ← find_end n (zlen es1);
      limit ← gets m_limit;
      if limit <? bp' + 1 then
        modify (λ s, Map (m_map s) (m_limit s) (m_lost s ++ [(size, addr)]))
      else
        shift_right n (bp' + 1) (bp' + 1 - 1) (zlen es1);;
        set_addr (zlen es1) addr;;
        set_size (zlen es1) size)
    (λ _, mfree_post st es size addr) st.
Proof.
  intros Hl Hr. assert (Hw := Hwf). apply sorted_from_app in Hw as [Hs1 Hs2].
  rewrite !length_app in *. simpl in *.
  apply wp_bind, find_end_ok; [lia|done|by eapply sorted_from_sizes|].
  apply wp_bind, wp_gets. cbn [m_limit].
  destruct (Z.ltb_spec lim (zlen es1 + zlen es2 + 1)).
  - apply wp_modify. split; [done|]. right. unfold es. split_and!; simpl.
    + split; simpl; [len_lia|]. exists rest. by rewrite <- app_assoc.
    + rewrite length_app. lia.
    + autorewrite with rmap. intros [Hf|Hf].
      * eapply last_end_le_free; [exact Hs1| |exact Hf]. lia.
      * eapply head_above_free; [exact Hs2| |exact Hf]. intros b Hb. specialize (Hr b Hb). lia.
    + autorewrite with rmap. intros [Hf|Hf].
      * eapply last_end_le_free; [exact Hs1| |exact Hf]. lia.
      * by eapply head_above_free; [exact Hs2| |exact Hf].
    + done.
  - destruct rest as [|y rest']; [simpl in *; lia|]. simpl in *. unfold st.
    replace (es1 ++ es2 ++ terminator :: y :: rest')
      with (es1 ++ (es2 ++ [terminator]) ++ y :: rest') by (by rewrite <- !app_assoc).
    apply wp_bind, shift_right_ok; [len_lia|len_lia|lia|done|].
    apply wp_bind, wp_set_addr; [done|red; lia|].
    apply wp_set_size; [done|red; lia|]. simpl.
    replace (es1 ++ Mapent size addr :: (es2 ++ [terminator]) ++ rest')
      with ((es1 ++ Mapent size addr :: es2) ++ terminator :: rest') by (by rewrite <- !app_assoc).
    apply mfree_post_ok.
    + len_lia.
    + len_lia.
    + by apply insert_new.
Qed.

Lemma mfree_left es1' e :
  es1 = es1' ++ [e] → seg_end e = addr →
  wp (e ← rd (zlen es1 - 1);
      set_size (zlen es1 - 1) (m_size e + size);;
      b ← rd (zlen es1);
      if negb (m_size b =? 0) && (m_addr b <=? u32 (addr + size)) then
        e' ← rd (zlen es1 - 1);
        set_size (zlen es1 - 1) (m_size e' + m_size b);;
        shift_left n (zlen es1 - 1 + 1) (zlen es1)
      else mret tt)
    (λ _, mfree_post st es size addr) st.
Proof.
  intros Heq He. assert (Hw := Hwf). unfold wf, es in Hw. rewrite Heq in Hw.
  rewrite <- app_assoc in Hw. simpl in Hw. unfold st, es. rewrite Heq.
  assert (Hz : zlen (es1' ++ [e]) - 1 = zlen es1') by len_lia. rewrite Hz.
  assert (Hs := Hw). apply sorted_from_app in Hs as [Hs1 (?&?&?&Hs2)]. unfold seg_end in *.
  pose proof (sorted_from_last_end _ _ Hs1).
  rewrite <- !(app_assoc es1' [e]). simpl.
  apply wp_bind, wp_rd; [done|].
  apply wp_bind, wp_set_size; [done|red; lia|].
  rewrite (u32_id (addr + size)) by (red; lia).
  assert (Hlim' := Hlim). assert (Hn' := Hn). rewrite Heq in Hlim', Hn'.
  set (e1 := Mapent (m_size e + size) (m_addr e)).
  apply wp_bind. destruct (cons_case es2) as [E2|(b & es2' & E2)]; rewrite E2 in Hw, Hs2, Hlim', Hn' |- *.
  - replace (es1' ++ e1 :: [] ++ terminator :: rest)
      with ((es1' ++ [e1]) ++ terminator :: rest) by (by rewrite <- app_assoc).
    apply wp_rd; [len_lia|]. simpl. apply wp_ret.
    apply mfree_post_ok; [len_lia|len_lia|]. by apply merge_left.
  - rewrite <- app_comm_cons.
    replace (es1' ++ e1 :: b :: es2' ++ terminator :: rest)
      with ((es1' ++ [e1]) ++ b :: es2' ++ terminator :: rest) by (by rewrite <- app_assoc).
    destruct Hs2 as (?&?&?&Hs2).
    apply wp_rd; [len_lia|]. ztest.
    destruct (Z.leb_spec (m_addr b) (addr + size)); simpl.
    + assert (m_addr b = addr + size) by (by eapply right_neighbour). unfold seg_end in *.
      rewrite <- app_assoc. simpl.
      apply wp_bind, wp_rd; [done|].
      apply wp_bind, wp_set_size; [done|red; simpl; lia|]. simpl.
      set (e2 := Mapent (m_size e + size + m_size b) (m_addr e)).
      replace (es1' ++ e2 :: b :: es2' ++ terminator :: rest)
        with ((es1' ++ [e2]) ++ b :: es2' ++ terminator :: rest) by (by rewrite <- app_assoc).
      replace (zlen es1' + 1) with (zlen (es1' ++ [e])) by len_lia.
      apply shift_left_ok; [len_lia|len_lia|by eapply sorted_from_sizes|done|].
      replace ((es1' ++ [e2]) ++ es2' ++ terminator :: terminator :: rest)
        with ((es1' ++ e2 :: es2') ++ terminator :: terminator :: rest)
        by (by rewrite <- !app_assoc).
      apply mfree_post_ok; [len_lia|len_lia|]. by apply merge_both.
    + apply wp_ret.
      replace ((es1' ++ [e1]) ++ b :: es2' ++ terminator :: rest)
        with ((es1' ++ e1 :: b :: es2') ++ terminator :: rest) by (by rewrite <- !app_assoc).
      apply mfree_post_ok; [len_lia|len_lia|].
      apply merge_left; [lia|done|done|done|]. by intros ? [= <-].
Qed.

Lemma mfree_right b es2' :
  es2 = b :: es2' → last_end 0 es1 < addr → m_addr b = addr + size →
  wp (set_addr (zlen es1) addr;; set_size (zlen es1) (m_size b + size))
    (λ _, mfree_post st es size addr) st.
Proof.
  intros Heq Hl Hb. assert (Hw := Hwf). unfold wf, es in Hw. assert (Hlim' := Hlim).
  unfold st, es. rewrite Heq in *. assert (Hs := Hw).
  apply sorted_from_app in Hs as [_ (?&?&?&_)]. unfold seg_end in *. simpl.
  apply wp_bind, wp_set_addr; [done|red; lia|].
  apply wp_set_size; [done|red; lia|]. simpl.
  replace (es1 ++ Mapent (m_size b + size) addr :: es2' ++ terminator :: rest)
    with ((es1 ++ Mapent (m_size b + size) addr :: es2') ++ terminator :: rest)
    by (by rewrite <- app_assoc).
  apply mfree_post_ok; [len_lia|len_lia|]. by apply merge_right.
Qed.
End mfree_exec.

Lemma mfree_refines s es size addr :
  rep s es → wf es → 0 < size → 0 < addr → addr + size < 2 ^ 32 →
  (∀ x, in_range addr size x → ¬ free_in es x) →
  wp (mfree size addr) (λ _, mfree_post s es size addr) s.
Proof.
  intros [Hlim [rest Hmap]] Hwf Hsize Haddr Hend Hdisj.
  destruct s as [arr lim lost]; simpl in Hlim, Hmap; subst arr.
  unfold mfree. ztest. apply wp_bind, wp_gets. cbn [m_map].
  assert (Hn : (length (es ++ terminator :: rest) < S (length (es ++ terminator :: rest)))%nat) by lia.
  revert Hn. generalize (S (length (es ++ terminator :: rest))). intros n Hn.
  apply wp_bind, (mfree_skip_ok _ [] es _ _ _ 0); [len_lia|done|done|]. cbn [app length].
  intros es1 es2 -> Hlow Hhigh. change (Z.of_nat 0) with 0. rewrite Z.add_0_l. rewrite <- app_assoc in Hlim, Hn |- *.
  assert (Hs := Hwf). apply sorted_from_app in Hs as [Hs1 Hs2].
  apply wp_bind.
  assert (Hnext : last_end 0 es1 < addr →
    wp (b ← rd (zlen es1);
      if negb (m_size b =? 0) && (m_addr b <=? u32 (addr + size)) then
        set_addr (zlen es1) addr;; set_size (zlen es1) (m_size b + size)
      else
        bp' ← find_end n (zlen es1);
        limit ← gets m_limit;
        if limit <? bp' + 1 then
          modify (λ s, Map (m_map s) (m_limit s) (m_lost s ++ [(size, addr)]))
        else
          shift_right n (bp' + 1) (bp' + 1 - 1) (zlen es1);;
          set_addr (zlen es1) addr;;
          set_size (zlen es1) size)
      (λ _, mfree_post (Map (es1 ++ es2 ++ terminator :: rest) lim lost) (es1 ++ es2) size addr)
      (Map (es1 ++ es2 ++ terminator :: rest) lim lost)).
  { intros Hl. rewrite (u32_id (addr + size)) by (red; lia).
    apply wp_bind. destruct es2 as [|b es2'].
    - apply wp_rd; [done|]. simpl. apply (mfree_insert size addr es1 []); auto. by intros ??.
    - destruct Hs2 as (?&?&?&_). rewrite <- app_comm_cons. apply wp_rd; [done|]. ztest.
      destruct (Z.leb_spec (m_addr b) (addr + size)); simpl.
      + eapply (mfree_right size addr es1 (b :: es2')); auto.
        eapply right_neighbour; eauto.
      + apply (mfree_insert size addr es1 (b :: es2')); auto. by intros ? [= <-]. }
  destruct es1 as [|e es1' _] using rev_ind.
  - apply wp_ret. apply Hnext. done.
  - rewrite (proj2 (Z.eqb_neq _ _)) by len_lia.
    assert (Hw := Hwf). rewrite <- app_assoc in Hw. apply sorted_from_app in Hw as [_ (?&?&?&_)].
    replace ((es1' ++ [e]) ++ es2 ++ terminator :: rest)
      with (es1' ++ e :: es2 ++ terminator :: rest) by (by rewrite <- app_assoc).
    apply wp_bind, wp_rd; [len_lia|].
    replace (es1' ++ e :: es2 ++ terminator :: rest)
      with ((es1' ++ [e]) ++ es2 ++ terminator :: rest) by (by rewrite <- app_assoc).
    pose proof (sorted_from_last_end _ _ Hs1). rewrite last_end_snoc in *. unfold seg_end in *.
    rewrite (u32_id (m_addr e + m_size e)) by (red; lia). apply wp_ret.
    destruct (Z.leb_spec addr (m_addr e + m_size e)).
    + eapply (mfree_left size addr (es1' ++ [e]) es2); eauto.
      apply (left_neighbour size addr (es1' ++ [e]) es2) with es1'; auto.
    + by apply Hnext.
Qed.

(** ** malloc3 *)

Lemma list_filter_all {A} (P : A → Prop) `{∀ x, Decision (P x)} (l : list A) :
  Forall P l → filter P l = l.
Proof. induction 1 as [|x l Hx _ IH]; [done|]. rewrite filter_cons_True by done. by rewrite IH. Qed.

(** Units of segment [p] promised so far, and number of placed requests. *)
Fixpoint taken (ms : list (option Z)) (sizes : list Z) (p : Z) : Z :=
  match ms, sizes with
  | m :: ms', z :: zs => (if bool_decide (m = Some p) then z else 0) + taken ms' zs p
  | _, _ => 0
  end.
Fixpoint placed (ms : list (option Z)) : Z :=
  match ms with [] => 0 | m :: ms' => (if m then 1 else 0) + placed ms' end.
Definition total (sizes : list Z) : Z := foldr Z.add 0 sizes.

Lemma taken_insert ms sizes i k z p :
  ms !! i = Some None → sizes !! i = Some z →
  taken (<[i := Some k]> ms) sizes p = taken ms sizes p + (if bool_decide (p = k) then z else 0).
Proof.
  revert sizes i. induction ms as [|m ms IH]; intros [|z' zs] [|i]; simpl; try done.
  - intros [= ->] [= ->]. repeat case_bool_decide; simplify_eq; lia.
  - intros Hm Hz. rewrite (IH zs i) by done. lia.
Qed.

Lemma placed_insert ms i k : ms !! i = Some None → placed (<[i := Some k]> ms) = placed ms + 1.
Proof.
  revert i. induction ms as [|m ms IH]; intros [|i]; simpl; try done.
  - intros [= ->]. lia.
  - intros Hm. rewrite (IH i) by done. lia.
Qed.

Lemma taken_nonneg ms sizes p : Forall (λ z, 0 ≤ z) sizes → 0 ≤ taken ms sizes p.
Proof.
  revert sizes. induction ms as [|m ms IH]; intros [|z zs]; simpl; try lia.
  intros Hz. inversion Hz; subst. specialize (IH zs ltac:(done)). case_bool_decide; lia.
Qed.

Lemma taken_total ms sizes i z p :
  Forall (λ z, 0 ≤ z) sizes → ms !! i = Some None → sizes !! i = Some z →
  taken ms sizes p + z ≤ total sizes.
Proof.
  assert (Hle : ∀ ms sizes, Forall (λ z, 0 ≤ z) sizes → taken ms sizes p ≤ total sizes).
  { clear. intros ms. induction ms as [|m ms IH]; intros [|z zs] Hz; simpl; try lia.
    - inversion Hz; subst. clear Hz. assert (0 ≤ total zs); [|unfold total in *; lia].
      clear -H2. induction H2; simpl; unfold total in *; lia.
    - inversion Hz; subst. specialize (IH zs ltac:(done)). unfold total in *. simpl. case_bool_decide; lia. }
  revert sizes i. induction ms as [|m ms IH]; intros [|z' zs] [|i]; simpl; try done.
  - intros Hz [= ->] [= ->]. inversion Hz; subst. specialize (Hle ms zs ltac:(done)).
    unfold total in *. simpl. lia.
  - intros Hz ??. inversion Hz; subst. specialize (IH zs i ltac:(done) ltac:(done) ltac:(done)).
    unfold total in *. simpl. case_bool_decide; lia.
Qed.

Lemma placed_all ms : placed ms ≤ zlen ms ∧ (placed ms = zlen ms ↔ None ∉ ms).
Proof.
  induction ms as [|[p|] ms [IH1 IH2]]; simpl.
  - split; [lia|]. split; intros _; [apply not_elem_of_nil|lia].
  - split; [lia|]. rewrite not_elem_of_cons. split; [intros ?|intros [_ ?%IH2]; lia].
    split; [congruence|]. apply IH2. lia.
  - split; [lia|]. rewrite not_elem_of_cons. split; [lia|naive_solver].
Qed.

Lemma wp_rd_at arr e lim lost p Q :
  aget arr p = Some e → Q e (Map arr lim lost) → wp (rd p) Q (Map arr lim lost).
Proof. intros. by eapply wp_load. Qed.

Lemma wp_put_at arr e e' lim lost p Q :
  aget arr p = Some e → Q tt (Map (<[Z.to_nat p := e']> arr) lim lost) →
  wp (wr p e') Q (Map arr lim lost).
Proof.
  intros Hp%aget_Some HQ. eapply wp_store; [simpl; by rewrite (aset_Some _ _ _ Hp)|done].
Qed.

Lemma wp_set_size_at arr e lim lost p n Q :
  aget arr p = Some e → is_u32 n → Q tt (Map (<[Z.to_nat p := Mapent n (m_addr e)]> arr) lim lost) →
  wp (set_size p n) Q (Map arr lim lost).
Proof.
  intros. apply wp_bind. eapply wp_rd_at; [done|]. eapply wp_put_at; [done|]. by rewrite u32_id.
Qed.

Lemma wp_set_addr_at arr e lim lost p a Q :
  aget arr p = Some e → is_u32 a → Q tt (Map (<[Z.to_nat p := Mapent (m_size e) a]> arr) lim lost) →
  wp (set_addr p a) Q (Map arr lim lost).
Proof.
  intros. apply wp_bind. eapply wp_rd_at; [done|]. eapply wp_put_at; [done|]. by rewrite u32_id.
Qed.

Section malloc3.
Context (arr0 : list mapent) (sizes : list Z) (lim : Z) (lost : list (Z * Z)).
Context (Hsizes : length sizes = 3%nat) (Hpos : Forall (λ z, 0 ≤ z) sizes)
  (nseg : Z)
  (Hent : ∀ p e, p < nseg → aget arr0 p = Some e → is_u32 (m_size e) ∧ is_u32 (m_addr e)).

(** The array as promised: sizes are reduced, addresses untouched. *)
Definition promised (ms : list (option Z)) (arr : list mapent) : Prop :=
  length arr = length arr0 ∧
  ∀ p e, aget arr0 p = Some e →
    aget arr p = Some (Mapent (m_size e - taken ms sizes p) (m_addr e)).

(** First segment among the first [k] that has been used up. *)
Definition first_empty (ms : list (option Z)) (k : Z) (r : option Z) : Prop :=
  match r with
  | Some rp => 0 ≤ rp < k ∧ (∀ e, aget arr0 rp = Some e → m_size e = taken ms sizes rp) ∧
               ∀ p e, p < rp → aget arr0 p = Some e → m_size e ≠ taken ms sizes p
  | None => ∀ p e, p < k → aget arr0 p = Some e → m_size e ≠ taken ms sizes p
  end.

Record scan_inv (k : Z) (l : m3) (arr : list mapent) : Prop := {
  si_arr : promised (madd l) arr;
  si_len : length (madd l) = 3%nat;
  si_idx : ∀ i p, madd l !! i = Some (Some p) → 0 ≤ p < k;
  si_fits : ∀ p e, p < k → aget arr0 p = Some e → taken (madd l) sizes p ≤ m_size e;
  si_found : found l = placed (madd l);
  si_remap : first_empty (madd l) k (remap l)
}.

Lemma scan_inv_place k e0 l arr i z n :
  aget arr0 k = Some e0 → scan_inv (k + 1) l arr →
  madd l !! i = Some None → sizes !! i = Some z → z ≤ m_size e0 - taken (madd l) sizes k →
  n = m_size e0 - taken (madd l) sizes k - z →
  scan_inv (k + 1)
    (M3 (<[i := Some k]> (madd l))
        (if (n =? 0) && bool_decide (remap l = None) then Some k else remap l) (found l + 1))
    (<[Z.to_nat k := Mapent n (m_addr e0)]> arr).
Proof using Hpos Hsizes.
  intros He0 [[Hlen Harr] Hml Hidx Hfits Hfnd Hrm] Hi Hz Hle ->.
  assert (Hk := aget_Some _ _ _ He0).
  assert (Hz0 : 0 ≤ z) by (by eapply Forall_lookup_1 in Hpos).
  constructor; cbn [madd remap found].
  - split; [by rewrite length_insert|]. intros p e He.
    rewrite aget_insert by lia. rewrite (taken_insert _ _ _ _ z) by done.
    destruct (decide (k = p)) as [<-|].
    + rewrite bool_decide_eq_true_2 by done. simplify_eq. do 2 f_equal. lia.
    + rewrite bool_decide_eq_false_2 by done. rewrite Z.add_0_r. by apply Harr.
  - by rewrite length_insert.
  - intros j p [(-> & [= <-] & _)|[_ Hj]]%list_lookup_insert_Some; [lia|]. by eapply Hidx.
  - intros p e Hp He. rewrite (taken_insert _ _ _ _ z) by done.
    specialize (Hfits p e Hp He). case_bool_decide; simplify_eq; lia.
  - rewrite (placed_insert _ _ _ Hi). lia.
  - assert (Hother : ∀ p, p ≠ k → taken (<[i:=Some k]> (madd l)) sizes p = taken (madd l) sizes p).
    { intros p ?. rewrite (taken_insert _ _ _ _ z) by done. rewrite bool_decide_eq_false_2 by done. lia. }
    assert (Hsame : taken (<[i:=Some k]> (madd l)) sizes k = taken (madd l) sizes k + z).
    { rewrite (taken_insert _ _ _ _ z) by done. by rewrite bool_decide_eq_true_2. }
    unfold first_empty in *. destruct (remap l) as [rp|]; simpl.
    + rewrite andb_false_r. destruct Hrm as (? & Hrp & Hbelow).
      destruct (decide (rp = k)) as [->|].
      * split_and!; [lia|lia| |].
        -- intros e He. simplify_eq. rewrite Hsame. specialize (Hrp _ He0). lia.
        -- intros p e Hp He. rewrite Hother by lia. eauto.
      * split_and!; [lia|lia| |].
        -- intros e He. rewrite Hother by done. eauto.
        -- intros p e Hp He. rewrite Hother by lia. eauto.
    + rewrite andb_true_r. destruct (Z.eqb_spec (m_size e0 - taken (madd l) sizes k - z) 0) as [Hn0|Hn0].
      * split_and!; [lia|lia| |].
        -- intros e He. simplify_eq. lia.
        -- intros p e Hp He. rewrite Hother by lia. apply Hrm; [lia|done].
      * intros p e Hp He. destruct (decide (p = k)) as [->|].
        -- simplify_eq. lia.
        -- rewrite Hother by done. eauto.
Qed.

Lemma m3_fit_ok k e0 nexts l arr (Q : m3 * bool → map → Prop) :
  k < nseg → aget arr0 k = Some e0 → Forall (λ n, 0 ≤ n < 3) nexts →
  scan_inv (k + 1) l arr → found l < 3 →
  (∀ l' arr', scan_inv (k + 1) l' arr' → found l' = 3 → Q (l', true) (Map arr' lim lost)) →
  (∀ l' arr', scan_inv (k + 1) l' arr' → found l' < 3 →
     (∀ i p, madd l !! i = Some (Some p) → madd l' !! i = Some (Some p)) →
     (∀ n, n ∈ nexts → madd l' !! Z.to_nat n = Some None → m_size e0 < total sizes) →
     Q (l', false) (Map arr' lim lost)) →
  wp (m3_fit sizes k nexts l) Q (Map arr lim lost).
Proof using Hpos Hsizes Hent.
  intros Hk He0. revert l arr. induction nexts as [|n ns IH]; intros l arr Hns Hinv Hf Qt Qf; cbn [m3_fit].
  - apply wp_ret, Qf; [done|done|done|]. intros n Hn. by apply elem_of_nil in Hn.
  - inversion Hns as [|?? Hn Hns']; subst.
    assert (Hcur := proj2 (si_arr _ _ _ Hinv) _ _ He0).
    apply wp_bind. eapply wp_rd_at; [exact Hcur|]. cbn [m_size m_addr].
    destruct (aget_is_Some sizes n) as [z Hz]; [lia|].
    destruct (aget_is_Some (madd l) n) as [slot Hslot]; [rewrite (si_len _ _ _ Hinv); lia|].
    assert (Hzi : sizes !! Z.to_nat n = Some z) by (rewrite <- aget_lookup, Z2Nat.id by lia; done).
    assert (Hsi : madd l !! Z.to_nat n = Some slot) by (rewrite <- aget_lookup, Z2Nat.id by lia; done).
    assert (Hz0 : 0 ≤ z) by (by eapply Forall_lookup_1 in Hpos).
    assert (Ht0 := taken_nonneg (madd l) sizes k Hpos).
    destruct (Hent _ _ Hk He0) as [Hu _]. unfold is_u32 in Hu.
    apply wp_bind. eapply wp_load; [exact Hz|].
    apply wp_bind. eapply wp_load; [exact Hslot|].
    destruct slot as [p|]; simpl.
    { apply IH; [done..|]. intros l' arr' Hi' Hf' Hm Hlow. apply Qf; [done..|].
      intros m [->|Hin]%elem_of_cons Hnone; [|eauto]. apply Hm in Hsi. congruence. }
    destruct (Z.leb_spec z (m_size e0 - taken (madd l) sizes k)).
    + apply wp_bind. eapply wp_load; [apply aset_Some; rewrite (si_len _ _ _ Hinv); lia|].
      apply wp_bind. eapply wp_set_size_at; [exact Hcur|red; lia|]. cbn [m_addr].
      apply wp_bind. eapply wp_rd_at.
      { rewrite aget_insert by (rewrite (proj1 (si_arr _ _ _ Hinv)); by eapply aget_Some).
        by rewrite decide_True. }
      cbn [m_size]. assert (Hinv' := scan_inv_place _ _ _ _ _ _ _ He0 Hinv Hsi Hzi H eq_refl).
      cbn [found] in *. destruct (Z.eqb_spec (found l + 1) 3).
      * apply wp_ret, Qt; done.
      * apply IH; [done|done|cbn [found]; lia|done|]. cbn [madd].
        intros l' arr' Hi' Hf' Hm Hlow. apply Qf; [done|done| |].
        -- intros i p Hp. apply Hm. rewrite list_lookup_insert_ne; [done|]. congruence.
        -- intros m [->|Hin]%elem_of_cons Hnone; [|eauto].
          rewrite (Hm (Z.to_nat n) k) in Hnone; [done|]. apply list_lookup_insert_eq.
          rewrite (si_len _ _ _ Hinv). lia.
    + apply IH; [done..|]. intros l' arr' Hi' Hf' Hm Hlow. apply Qf; [done..|].
      intros m [->|Hin]%elem_of_cons Hnone; [|eauto].
      pose proof (taken_total _ _ _ _ k Hpos Hsi Hzi). lia.
Qed.

Lemma taken_none ms p :
  (∀ i q, ms !! i = Some (Some q) → q ≠ p) → taken ms sizes p = 0.
Proof using.
clear Hsizes Hpos Hent. revert sizes. induction ms as [|m ms IH]; intros [|z zs] Hno; simpl; try done.
rewrite IH by (intros i q Hq; by apply (Hno (S i))).
rewrite bool_decide_eq_false_2; [done|]. intros ->. by apply (Hno 0%nat p).
Qed.

Lemma scan_inv_succ k e l arr :
  k < nseg → aget arr0 k = Some e → m_size e ≠ 0 → scan_inv k l arr → scan_inv (k + 1) l arr.
Proof using Hsizes Hent.
  intros Hkn He Hne [Ha Hl Hidx Hfits Hfnd Hrm].
  assert (Hk : taken (madd l) sizes k = 0).
  { apply taken_none. intros i q Hq. specialize (Hidx i q Hq). lia. }
  destruct (Hent _ _ Hkn He) as [Hu _]. unfold is_u32 in Hu.
  constructor; try done.
  - intros i p Hp. specialize (Hidx i p Hp). lia.
  - intros p e' Hp He'. destruct (decide (p = k)) as [->|]; [simplify_eq; lia|].
    apply Hfits; [lia|done].
  - unfold first_empty in *. destruct (remap l) as [rp|]; [intuition lia|].
    intros p e' Hp He'. destruct (decide (p = k)) as [->|]; [simplify_eq; lia|].
    apply Hrm; [lia|done].
Qed.

Context (Hnseg : 0 ≤ nseg) (Hterm : aget arr0 nseg = Some terminator)
  (Hnz : ∀ p e, 0 ≤ p < nseg → aget arr0 p = Some e → m_size e ≠ 0).

Lemma m3_scan_ok fuel k l arr (Q : m3 * bool → map → Prop) :
  nseg - k < Z.of_nat fuel → 0 ≤ k ≤ nseg → scan_inv k l arr → found l < 3 →
  (∀ l' arr', scan_inv nseg l' arr' → found l' = 3 → Q (l', true) (Map arr' lim lost)) →
  (∀ l' arr', scan_inv nseg l' arr' → found l' < 3 →
     (∀ p e, k ≤ p < nseg → aget arr0 p = Some e → m_size e < total sizes) →
     Q (l', false) (Map arr' lim lost)) →
  wp (m3_scan fuel sizes k l) Q (Map arr lim lost).
Proof using Hsizes Hpos Hent Hterm Hnz Hnseg.
  revert k l arr. induction fuel as [|fuel IH]; intros k l arr Hfu Hk Hinv Hf Qt Qf; [lia|].
  cbn [m3_scan].
  assert (Hup : ∀ k' l' arr', k' ≤ nseg → scan_inv k' l' arr' → 0 ≤ k' → scan_inv nseg l' arr').
  { intros k' l' arr' Hk' Hi H0. replace nseg with (k' + Z.of_nat (Z.to_nat (nseg - k'))) by lia.
    assert (Hb : Z.of_nat (Z.to_nat (nseg - k')) ≤ nseg - k') by lia.
    induction (Z.to_nat (nseg - k')) as [|n IHn]; [by rewrite Z.add_0_r|].
    replace (k' + Z.of_nat (S n)) with (k' + Z.of_nat n + 1) by lia.
    destruct (aget_is_Some arr0 (k' + Z.of_nat n)) as [e He].
    { pose proof (aget_Some _ _ _ Hterm). lia. }
    eapply scan_inv_succ; [lia|done|eapply Hnz; [|done]; lia|]. apply IHn. lia. }
  destruct (decide (k = nseg)) as [->|Hne].
  - assert (Hcur := proj2 (si_arr _ _ _ Hinv) _ _ Hterm).
    rewrite taken_none in Hcur
      by (intros i q Hq; specialize (si_idx _ _ _ Hinv i q Hq); lia).
    apply wp_bind. eapply wp_rd_at; [exact Hcur|]. simpl. apply wp_ret, Qf; [done..|]. intros; lia.
  - destruct (aget_is_Some arr0 k) as [e He]; [pose proof (aget_Some _ _ _ Hterm); lia|].
    assert (Hsz : m_size e ≠ 0) by (by apply (Hnz k); [lia|]).
    assert (Hcur := proj2 (si_arr _ _ _ Hinv) _ _ He).
    rewrite taken_none in Hcur
      by (intros i q Hq; specialize (si_idx _ _ _ Hinv i q Hq); lia).
    apply wp_bind. eapply wp_rd_at; [exact Hcur|]. cbn [m_size]. rewrite Z.sub_0_r. ztest.
    apply wp_bind. eapply m3_fit_ok; [lia|exact He|repeat constructor; lia|eapply scan_inv_succ; [lia|done..]|done|..].
    + intros l' arr' Hi' Hf'. cbn [snd]. apply wp_ret, Qt; [|done]. apply (Hup (k + 1)); [lia|done|lia].
    + intros l' arr' Hi' Hf' _ Hlow. cbn [fst snd]. apply IH; [lia|lia|done|done|done|].
      intros l2 arr2 Hi2 Hf2 Hsmall. apply Qf; [done|done|]. intros p e' Hp He'.
      destruct (decide (p = k)) as [->|]; [|apply (Hsmall p); [lia|done]].
      simplify_eq. destruct (placed_all (madd l')) as [_ Hall].
      assert (Hnone : None ∈ madd l').
      { destruct (decide (None ∈ madd l')) as [?|Hn]; [done|]. apply Hall in Hn.
        rewrite (si_len _ _ _ Hi'), <- (si_found _ _ _ Hi') in Hn. lia. }
      apply list_elem_of_lookup in Hnone as [i Hi].
      assert (i < 3)%nat by (rewrite <- (si_len _ _ _ Hi'); by eapply lookup_lt_Some).
      apply (Hlow (Z.of_nat i)); [|by rewrite Nat2Z.id].
      destruct i as [|[|[|i]]]; [set_solver|set_solver|set_solver|lia].
Qed.

End malloc3.

(** The array with [t p] units cut from the size of entry [p] and [v p] added
    to its address. *)
Definition view (arr0 : list mapent) (t v : Z → Z) (arr : list mapent) : Prop :=
  length arr = length arr0 ∧
  ∀ p e, aget arr0 p = Some e → aget arr p = Some (Mapent (m_size e - t p) (m_addr e + v p)).

Definition at_slot (m : option Z) (z p : Z) : Z := if bool_decide (m = Some p) then z else 0.

Lemma view_ext arr0 t t' v v' arr :
  (∀ p, t p = t' p) → (∀ p, v p = v' p) → view arr0 t v arr → view arr0 t' v' arr.
Proof. intros Ht Hv [Hl Ha]. split; [done|]. intros p e He. rewrite <- Ht, <- Hv. by apply Ha. Qed.

Lemma view_id arr0 arr : view arr0 (λ _, 0) (λ _, 0) arr → arr = arr0.
Proof.
  intros [Hl Ha]. apply list_eq. intros i. rewrite <- !aget_lookup.
  destruct (aget arr0 (Z.of_nat i)) as [e|] eqn:E.
  - rewrite (Ha _ _ E). destruct e; simpl. do 2 f_equal; lia.
  - rewrite aget_lookup in *. apply lookup_ge_None in E. apply lookup_ge_None. lia.
Qed.

Lemma view_put arr0 t v arr p e n a :
  view arr0 t v arr → aget arr0 p = Some e →
  view arr0 (λ q, if bool_decide (q = p) then m_size e - n else t q)
       (λ q, if bool_decide (q = p) then a - m_addr e else v q)
       (<[Z.to_nat p := Mapent n a]> arr).
Proof.
  intros [Hl Ha] He. assert (Hp := aget_Some _ _ _ He). split; [by rewrite length_insert|].
  intros q e' He'. rewrite aget_insert by lia. destruct (decide (p = q)) as [->|].
  - rewrite !bool_decide_eq_true_2 by done. simplify_eq. do 2 f_equal; lia.
  - rewrite !bool_decide_eq_false_2 by done. by apply Ha.
Qed.

Lemma m3_restore_step arr0 t arr lim lost m z (Q : unit → map → Prop) :
  view arr0 t (λ _, 0) arr →
  (∀ p, m = Some p → ∃ e, aget arr0 p = Some e ∧ is_u32 (m_size e) ∧ 0 ≤ z ≤ t p ∧ t p ≤ m_size e) →
  (∀ arr', view arr0 (λ p, t p - at_slot m z p) (λ _, 0) arr' → Q tt (Map arr' lim lost)) →
  wp (match m with Some bp => e ← rd bp; set_size bp (m_size e + z) | None => mret tt end)
     Q (Map arr lim lost).
Proof.
  intros Hv Hm HQ. destruct m as [p|].
  - destruct (Hm p eq_refl) as (e & He & Hu & Hz & Ht). unfold is_u32 in Hu.
    assert (Hcur := proj2 Hv _ _ He). apply wp_bind. eapply wp_rd_at; [exact Hcur|].
    cbn [m_size]. eapply wp_set_size_at; [exact Hcur|red; lia|]. apply HQ. cbn [m_addr].
    eapply view_ext; [..|exact (view_put _ _ _ _ _ _ _ _ Hv He)]; intros q; simpl; unfold at_slot;
      repeat case_bool_decide; simplify_eq; lia.
  - apply wp_ret, HQ. eapply view_ext; [..|done]; intros q; simpl; [|done].
    unfold at_slot. rewrite bool_decide_eq_false_2 by done. lia.
Qed.

Lemma m3_resolve_step {B} arr0 t v arr lim lost bp z a i (k : list Z → M map B) Q :
  view arr0 t v arr → 0 ≤ i < zlen a →
  (∃ e, aget arr0 bp = Some e ∧ 0 ≤ m_addr e + v bp + z < 2 ^ 32 ∧
    ∀ arr', view arr0 t (λ p, v p + at_slot (Some bp) z p) arr' →
      wp (k (<[Z.to_nat i := m_addr e + v bp]> a)) Q (Map arr' lim lost)) →
  wp (bp' ← load (λ _, Some bp);
      e ← rd bp';
      a' ← load (λ _, aset a i (m_addr e));
      set_addr bp' (m_addr e + z);;
      k a') Q (Map arr lim lost).
Proof.
  intros Hv Hi (e & He & Hr & HQ). assert (Hcur := proj2 Hv _ _ He).
  apply wp_bind. eapply wp_load; [done|].
  apply wp_bind. eapply wp_rd_at; [exact Hcur|]. cbn [m_addr].
  apply wp_bind. eapply wp_load; [by apply aset_Some|].
  apply wp_bind. eapply wp_set_addr_at; [exact Hcur|red; lia|]. apply HQ. cbn [m_size].
  eapply view_ext; [..|exact (view_put _ _ _ _ _ _ _ _ Hv He)]; intros q; simpl; unfold at_slot;
    repeat case_bool_decide; simplify_eq; lia.
Qed.

#[export] Instance nz_dec (e : mapent) : Decision (m_size e ≠ 0) := _.
Definition nz (e : mapent) : Prop := m_size e ≠ 0.
#[export] Instance nz_decision e : Decision (nz e) := nz_dec e.

Lemma m3_compact_ok fuel pre g gap todo rest lim lost rp bp (Q : unit → map → Prop) :
  (length todo < fuel)%nat → rp = zlen pre → bp = zlen pre + 1 + zlen gap →
  Forall (λ e, m_addr e ≠ 0) todo →
  (∀ rest', length (filter nz todo ++ terminator :: rest') =
            length (g :: gap ++ todo ++ terminator :: rest) →
     Q tt (Map (pre ++ filter nz todo ++ terminator :: rest') lim lost)) →
  wp (m3_compact fuel rp bp) Q (Map (pre ++ g :: gap ++ todo ++ terminator :: rest) lim lost).
Proof.
  revert pre g gap rp bp fuel.
  induction todo as [|x todo IH]; intros pre g gap rp bp [|fuel] Hf Hrp Hbp Hnz HQ;
    try (simpl in Hf; lia); cbn [m3_compact].
  - assert (Hsh : ∀ y, pre ++ y :: gap ++ [] ++ terminator :: rest = (pre ++ y :: gap) ++ terminator :: rest)
      by (intros; by rewrite <- app_assoc).
    rewrite Hsh. apply wp_bind, wp_rd; [len_lia|]. simpl. rewrite <- Hsh.
    apply wp_bind, wp_wr; [done|]. rewrite Hsh.
    apply wp_bind, wp_rd; [len_lia|]. simpl. apply wp_ret.
    rewrite <- Hsh. apply HQ. simpl. len_lia.
  - inversion Hnz as [|?? Hx Hnz']; subst. rewrite <- app_comm_cons.
    assert (Hsh : ∀ y, pre ++ y :: gap ++ x :: todo ++ terminator :: rest
                     = (pre ++ y :: gap) ++ x :: todo ++ terminator :: rest)
      by (intros; by rewrite <- app_assoc).
    rewrite Hsh. apply wp_bind, wp_rd; [len_lia|].
    rewrite filter_cons in HQ. rewrite (proj2 (Z.eqb_neq _ _) Hx), orb_false_r.
    destruct (Z.eqb_spec (m_size x) 0) as [E|E]; simpl.
    + rewrite decide_False in HQ by (by intros ?).
      replace ((pre ++ g :: gap) ++ x :: todo ++ terminator :: rest)
        with (pre ++ g :: (gap ++ [x]) ++ todo ++ terminator :: rest) by (by rewrite <- !app_assoc).
      apply IH; [simpl in Hf; lia|done|len_lia|done|]. intros rest' Hr. apply HQ. len_lia.
    + rewrite decide_True in HQ by done.
      rewrite <- Hsh. apply wp_bind, wp_wr; [done|]. rewrite Hsh.
      apply wp_bind, wp_rd; [len_lia|]. rewrite (proj2 (Z.eqb_neq _ _) Hx).
      assert (Hg : ∃ g' gap', gap ++ [x] = g' :: gap') by (destruct gap; simpl; eauto).
      destruct Hg as (g' & gap' & Hg). assert (Hgl : length (gap ++ [x]) = length (g' :: gap')) by (by rewrite Hg).
      replace ((pre ++ x :: gap) ++ x :: todo ++ terminator :: rest)
        with ((pre ++ [x]) ++ g' :: gap' ++ todo ++ terminator :: rest).
      2:{ rewrite app_comm_cons, <- Hg. by rewrite <- !app_assoc. }
      apply IH; [simpl in Hf; lia|len_lia|len_lia|done|].
      intros rest' Hr. rewrite <- app_assoc. apply HQ. len_lia.
Qed.

(** Segments after cutting [t i] units from the front of the [i]-th one. *)
Fixpoint shrink (t : Z → Z) (j : Z) (es : list mapent) : list mapent :=
  match es with
  | [] => []
  | e :: es' => Mapent (m_size e - t j) (m_addr e + t j) :: shrink t (j + 1) es'
  end.

Definition cut_ok (t : Z → Z) (j : Z) (es : list mapent) : Prop :=
  ∀ i e, es !! i = Some e → 0 ≤ t (j + Z.of_nat i) ≤ m_size e.

(** The units cut away. *)
Fixpoint cut_in (t : Z → Z) (j : Z) (es : list mapent) (x : Z) : Prop :=
  match es with
  | [] => False
  | e :: es' => in_range (m_addr e) (t j) x ∨ cut_in t (j + 1) es' x
  end.

Lemma cut_ok_cons t j e es : cut_ok t j (e :: es) → 0 ≤ t j ≤ m_size e ∧ cut_ok t (j + 1) es.
Proof.
  intros H. split; [specialize (H 0%nat e eq_refl); by rewrite Z.add_0_r in H|].
  intros i e' Hi. specialize (H (S i) e' Hi). by replace (j + 1 + Z.of_nat i) with (j + Z.of_nat (S i)) by lia.
Qed.

Lemma shrink_length t j es : length (shrink t j es) = length es.
Proof. revert j. induction es; simpl; auto. Qed.

Lemma shrink_lookup t j es i :
  shrink t j es !! i =
    (λ e, Mapent (m_size e - t (j + Z.of_nat i)) (m_addr e + t (j + Z.of_nat i))) <$> es !! i.
Proof.
  revert j i. induction es as [|e es IH]; intros j [|i]; simpl; try done.
  - by rewrite Z.add_0_r.
  - rewrite IH. by replace (j + 1 + Z.of_nat i) with (j + Z.of_nat (S i)) by lia.
Qed.

Lemma shrink_sorted t j lo es :
  sorted_from lo es → cut_ok t j es → sorted_from lo (filter nz (shrink t j es)).
Proof.
  revert j lo. induction es as [|e es IH]; intros j lo; [done|].
  intros (?&?&He&Hs) [Hc Hcs]%cut_ok_cons. cbn [shrink]. rewrite filter_cons. unfold seg_end in *.
  specialize (IH (j + 1) _ Hs Hcs). case_decide as Hz; unfold nz in Hz; simpl in *.
  - unfold seg_end. simpl. split_and!; [lia|lia|lia|].
    by replace (m_addr e + t j + (m_size e - t j)) with (m_addr e + m_size e) by lia.
  - eapply sorted_from_weaken; [|exact IH]. lia.
Qed.

Lemma cut_in_free t j lo es x : sorted_from lo es → cut_ok t j es → cut_in t j es x → free_in es x.
Proof.
  revert j lo. induction es as [|e es IH]; intros j lo; [done|].
  intros (?&?&He&Hs) [Hc Hcs]%cut_ok_cons [Hx|Hx]; apply free_in_cons.
  - left. unfold in_range in *. lia.
  - right. eauto.
Qed.

Lemma shrink_free t j lo es x :
  sorted_from lo es → cut_ok t j es →
  free_in (filter nz (shrink t j es)) x ↔ free_in es x ∧ ¬ cut_in t j es x.
Proof.
  revert j lo. induction es as [|e es IH]; intros j lo; simpl.
  - intros _ _. change (filter nz []) with (@nil mapent). rewrite free_in_nil. tauto.
  - intros (?&?&He&Hs) [Hc Hcs]%cut_ok_cons. rewrite filter_cons, free_in_cons.
    specialize (IH (j + 1) _ Hs Hcs).
    assert (Hd : in_range (m_addr e) (m_size e) x → ¬ free_in es x ∧ ¬ cut_in t (j + 1) es x).
    { intros Hx. assert (¬ free_in es x); [|split; [done|]; intros ?%(cut_in_free _ _ _ _ _ Hs Hcs); done].
      intros Hf%(sorted_from_lt _ _ _ Hs). unfold in_range, seg_end in *. lia. }
    assert (Hr : in_range (m_addr e + t j) (m_size e - t j) x ↔
                 in_range (m_addr e) (m_size e) x ∧ ¬ in_range (m_addr e) (t j) x)
      by (unfold in_range; lia).
    assert (in_range (m_addr e) (t j) x → in_range (m_addr e) (m_size e) x) by (unfold in_range; lia).
    case_decide as Hz; unfold nz in Hz; simpl in *.
    + rewrite free_in_cons. cbn [m_addr m_size]. rewrite IH, Hr. tauto.
    + rewrite IH.
      assert (in_range (m_addr e) (m_size e) x → in_range (m_addr e) (t j) x) by (unfold in_range; lia).
      tauto.
Qed.

Lemma cut_in_lookup t j es x :
  cut_in t j es x ↔ ∃ i e, es !! i = Some e ∧ in_range (m_addr e) (t (j + Z.of_nat i)) x.
Proof.
  revert j. induction es as [|e es IH]; intros j; simpl.
  - split; [done|]. by intros (i & e & ? & _).
  - rewrite IH. split.
    + intros [Hx|(i & e' & Hi & Hx)]; [exists 0%nat, e; by rewrite Z.add_0_r|].
      exists (S i), e'. by replace (j + Z.of_nat (S i)) with (j + 1 + Z.of_nat i) by lia.
    + intros ([|i] & e' & Hi & Hx); simpl in Hi.
      * left. simplify_eq. by rewrite Z.add_0_r in Hx.
      * right. exists i, e'. by replace (j + 1 + Z.of_nat i) with (j + Z.of_nat (S i)) by lia.
Qed.

Lemma view_shrink es rest t arr :
  view (es ++ terminator :: rest) t t arr → (∀ p, zlen es ≤ p → t p = 0) →
  arr = shrink t 0 es ++ terminator :: rest.
Proof.
  intros [Hl Ha] Ht. apply list_eq. intros i.
  rewrite <- (aget_lookup arr).
  destruct (decide (i < length es)%nat).
  - rewrite lookup_app_l by (by rewrite shrink_length).
    destruct (lookup_lt_is_Some_2 es i) as [e He]; [done|].
    rewrite shrink_lookup, He. cbn [fmap option_fmap option_map]. rewrite Z.add_0_l. apply Ha. rewrite aget_lookup. by apply lookup_app_l_Some.
  - rewrite lookup_app_r by (rewrite shrink_length; lia). rewrite shrink_length.
    destruct ((terminator :: rest) !! (i - length es)%nat) as [e|] eqn:E.
    + rewrite (Ha _ e); [|rewrite aget_lookup, lookup_app_r by lia; done].
      rewrite Ht by lia. destruct e; simpl. do 2 f_equal; lia.
    + rewrite aget_lookup. apply lookup_ge_None in E. apply lookup_ge_None.
      rewrite Hl. len_lia.
Qed.

Definition ranges3 (a0 d a1 s a2 u x : Z) : Prop :=
  in_range a0 d x ∨ in_range a1 s x ∨ in_range a2 u x.

Definition disjoint_ranges (a n b m : Z) : Prop := ∀ x, ¬ (in_range a n x ∧ in_range b m x).

Lemma segments_apart lo es i j e e' x :
  sorted_from lo es → es !! i = Some e → es !! j = Some e' → i ≠ j →
  in_range (m_addr e) (m_size e) x → ¬ in_range (m_addr e') (m_size e') x.
Proof.
  assert (Hlt : ∀ i j lo es e e', sorted_from lo es → es !! i = Some e → es !! j = Some e' →
     (i < j)%nat → seg_end e < m_addr e').
  { clear. induction i as [|i IH]; intros [|j] lo [|e0 es] e e' Hs Hi Hj Hij; try (simpl in *; done || lia).
    - simpl in Hi, Hj. simplify_eq. destruct Hs as (_&_&_&Hs).
      clear -Hs Hj. revert j Hj. generalize dependent (seg_end e). induction es as [|b es IH]; intros l Hs j Hj; [done|].
      destruct Hs as (?&?&?&Hs). destruct j as [|j]; simpl in Hj; [by simplify_eq|].
      specialize (IH _ Hs _ Hj). unfold seg_end in *. lia.
    - destruct Hs as (_&_&_&Hs). eapply (IH j); [exact Hs|done|done|lia]. }
  intros Hs Hi Hj Hne Hx Hx'. unfold in_range, seg_end in *.
  destruct (decide (i < j)%nat).
  - specialize (Hlt i j _ _ _ _ Hs Hi Hj ltac:(lia)). lia.
  - specialize (Hlt j i _ _ _ _ Hs Hj Hi ltac:(lia)). lia.
Qed.

Section resolve_pure.
Context (es : list mapent) (m0 m1 m2 : nat) (e0 e1 e2 : mapent) (d s u : Z).
Context (Hwf : wf es) (H0 : es !! m0 = Some e0) (H1 : es !! m1 = Some e1) (H2 : es !! m2 = Some e2)
  (Hd : 0 ≤ d) (Hs : 0 ≤ s) (Hu : 0 ≤ u).
Let t (p : Z) : Z := at_slot (Some (Z.of_nat m0)) d p + at_slot (Some (Z.of_nat m1)) s p
                     + at_slot (Some (Z.of_nat m2)) u p.
Context (Hfit : cut_ok t 0 es).
Let a0 := m_addr e0.
Let a1 := m_addr e1 + at_slot (Some (Z.of_nat m0)) d (Z.of_nat m1).
Let a2 := m_addr e2 + (at_slot (Some (Z.of_nat m0)) d (Z.of_nat m2)
                       + at_slot (Some (Z.of_nat m1)) s (Z.of_nat m2)).

Local Ltac slots :=
  unfold t, a0, a1, a2, at_slot in *; repeat case_bool_decide; simplify_eq; try done;
  unfold in_range in *; simplify_eq; try lia.

Lemma resolve_cut x : cut_in t 0 es x ↔ ranges3 a0 d a1 s a2 u x.
Proof using H0 H1 H2 Hd Hs Hu Hfit.
  rewrite cut_in_lookup. unfold ranges3. split.
  - intros (i & e & Hi & Hx). rewrite Z.add_0_l in Hx.
    slots; repeat match goal with H : Some _ = Some _ |- _ => injection H as H end;
      repeat match goal with H : Z.of_nat _ = Z.of_nat _ |- _ => apply Nat2Z.inj in H; subst end;
      simplify_eq; lia.
  - intros [Hx|[Hx|Hx]];
      [exists m0, e0|exists m1, e1|exists m2, e2]; (split; [done|]); rewrite Z.add_0_l; slots.
Qed.

Lemma resolve_bounds :
  (d ≤ m_size e0) ∧ (0 ≤ a1 - m_addr e1 ∧ a1 - m_addr e1 + s ≤ m_size e1) ∧
  (0 ≤ a2 - m_addr e2 ∧ a2 - m_addr e2 + u ≤ m_size e2).
Proof using H0 H1 H2 Hd Hs Hu Hfit.
  pose proof (Hfit _ _ H0) as F0. pose proof (Hfit _ _ H1) as F1. pose proof (Hfit _ _ H2) as F2.
  rewrite Z.add_0_l in F0, F1, F2. clear Hfit. slots.
Qed.

Lemma resolve_disjoint :
  disjoint_ranges a0 d a1 s ∧ disjoint_ranges a0 d a2 u ∧ disjoint_ranges a1 s a2 u.
Proof using H0 H1 H2 Hd Hs Hu Hfit Hwf.
  destruct resolve_bounds as (B0 & B1 & B2).
  assert (Hap : ∀ i j e e' x, es !! i = Some e → es !! j = Some e' → i ≠ j →
    in_range (m_addr e) (m_size e) x → in_range (m_addr e') (m_size e') x → False)
    by (intros i j e e' x Hi Hj Hn Hx Hx'; by eapply (segments_apart 0 es i j)).
  split_and!; intros x [Hx Hy].
  - destruct (decide (m0 = m1)) as [E|E].
    + revert Hx Hy. simplify_eq. slots.
    + apply (Hap m0 m1 e0 e1 x H0 H1 E); unfold in_range, a0 in *; lia.
  - destruct (decide (m0 = m2)) as [E|E].
    + revert Hx Hy. simplify_eq. slots.
    + apply (Hap m0 m2 e0 e2 x H0 H2 E); unfold in_range, a0 in *; lia.
  - destruct (decide (m1 = m2)) as [E|E].
    + revert Hx Hy. simplify_eq. slots.
    + apply (Hap m1 m2 e1 e2 x H1 H2 E); unfold in_range in *; lia.
Qed.
End resolve_pure.

Definition malloc3_post (s : map) (es : list mapent) (d z u : Z) (a : list Z)
    (r : Z * list Z) (s' : map) : Prop :=
  (r = (0, a) ∧ s' = s ∧ Forall (λ e, m_size e < d + z + u) es) ∨
  (∃ a0 a1 a2 es', r = (a2, [a0; a1; a2]) ∧ rep s' es' ∧ wf es' ∧
     m_limit s' = m_limit s ∧ m_lost s' = m_lost s ∧
     disjoint_ranges a0 d a1 z ∧ disjoint_ranges a0 d a2 u ∧ disjoint_ranges a1 z a2 u ∧
     (∀ x, ranges3 a0 d a1 z a2 u x → free_in es x) ∧
     (∀ x, free_in es' x ↔ free_in es x ∧ ¬ ranges3 a0 d a1 z a2 u x)).

Lemma wf_lookup es i e : wf es → es !! i = Some e → 0 < m_addr e ∧ 0 < m_size e ∧ seg_end e < 2 ^ 32.
Proof.
  unfold wf. assert (H : 0 ≤ 0) by lia. revert H. generalize 0 at 2 3 as lo. revert i.
  induction es as [|b es IH]; intros [|i] lo Hlo Hs Hi; try done; simpl in Hi;
    destruct Hs as (?&?&?&Hs); simplify_eq; [unfold seg_end in *; lia|].
  eapply (IH i (seg_end b)); [unfold seg_end; lia|done|done].
Qed.

Section malloc3_main.
Context (es rest : list mapent) (lim : Z) (lost : list (Z * Z)) (d z u : Z) (a : list Z).
Let arr0 := es ++ terminator :: rest.
Let sizes := [d; z; u].
Context (Hlim : lim + 1 = zlen arr0) (Hwf : wf es)
  (Hd : 0 ≤ d) (Hz : 0 ≤ z) (Hu : 0 ≤ u) (Ha : length a = 3%nat).

Lemma arr0_lookup i e : es !! i = Some e → aget arr0 (Z.of_nat i) = Some e.
Proof using. clear. intros. unfold arr0. rewrite aget_lookup. by apply lookup_app_l_Some. Qed.

Lemma arr0_segment p e : p < zlen es → aget arr0 p = Some e → es !! Z.to_nat p = Some e ∧ 0 ≤ p.
Proof using.
clear. intros Hp Hg. pose proof (aget_Some _ _ _ Hg). unfold arr0, aget in Hg.
rewrite Zle_imp_le_bool in Hg by lia. rewrite lookup_app_l in Hg by lia. split; [done|lia].
Qed.

Lemma malloc3_fail l arr :
  scan_inv arr0 sizes (zlen es) l arr →
  wp (m3_restore sizes [0; 1; 2] l) (λ _ s', s' = Map arr0 lim lost) (Map arr lim lost).
Proof using Hwf Hd Hz Hu.
  clear Ha Hlim. intros [[Hlen Harr] Hml Hidx Hfits _ _].
  destruct l as [ms r f]; cbn [madd] in *.
  destruct ms as [|x0 [|x1 [|x2 [|]]]]; try (simpl in Hml; lia).
  assert (Hv : view arr0 (taken [x0; x1; x2] sizes) (λ _, 0) arr).
  { split; [done|]. intros p e He. rewrite (Harr _ _ He). do 2 f_equal. lia. }
  assert (Hok : ∀ i p, [x0; x1; x2] !! i = Some (Some p) → ∃ e, aget arr0 p = Some e ∧
    is_u32 (m_size e) ∧ taken [x0; x1; x2] sizes p ≤ m_size e).
  { intros i p Hi. specialize (Hidx i p Hi).
    destruct (lookup_lt_is_Some_2 es (Z.to_nat p)) as [e He]; [lia|].
    pose proof (wf_lookup _ _ _ Hwf He). pose proof (arr0_lookup _ _ He) as Hg.
    rewrite Z2Nat.id in Hg by lia. exists e. unfold seg_end in *. split_and!; [done|red; lia|].
    apply Hfits; [lia|done]. }
  assert (Hpos : ∀ m y p, 0 ≤ y → 0 ≤ at_slot m y p)
    by (intros; unfold at_slot; case_bool_decide; lia).
  assert (Hself : ∀ p y, at_slot (Some p) y p = y)
    by (intros; unfold at_slot; by rewrite bool_decide_eq_true_2).
  assert (Ht : ∀ p, taken [x0; x1; x2] sizes p = at_slot x0 d p + at_slot x1 z p + at_slot x2 u p).
  { intros p. unfold sizes, at_slot. simpl. lia. }
  cbn [m3_restore].
  apply wp_bind. eapply wp_load; [done|]. apply wp_bind. eapply wp_load; [done|].
  apply wp_bind. eapply m3_restore_step; [exact Hv| |].
  { intros p ->. destruct (Hok 0%nat p eq_refl) as (e & ? & ? & ?). exists e.
    specialize (Ht p). rewrite Hself in Ht.
    pose proof (Hpos x1 z p Hz). pose proof (Hpos x2 u p Hu). split_and!; try done; lia. }
  intros arr1 Hv1. apply wp_bind. eapply wp_load; [done|]. apply wp_bind. eapply wp_load; [done|].
  apply wp_bind. eapply m3_restore_step; [exact Hv1| |].
  { intros p ->. destruct (Hok 1%nat p eq_refl) as (e & ? & ? & ?). exists e.
    specialize (Ht p). rewrite Hself in Ht.
    pose proof (Hpos x0 d p Hd). pose proof (Hpos x2 u p Hu). split_and!; try done; lia. }
  intros arr2 Hv2. apply wp_bind. eapply wp_load; [done|]. apply wp_bind. eapply wp_load; [done|].
  apply wp_bind. eapply m3_restore_step; [exact Hv2| |].
  { intros p ->. destruct (Hok 2%nat p eq_refl) as (e & ? & ? & ?). exists e.
    specialize (Ht p). rewrite Hself in Ht.
    pose proof (Hpos x0 d p Hd). pose proof (Hpos x1 z p Hz). split_and!; try done; lia. }
  intros arr3 Hv3. apply wp_ret. f_equal. apply view_id.
  eapply view_ext; [..|exact Hv3]; intros p; cbv beta; [rewrite (Ht p); lia|done].
Qed.

Lemma malloc3_done m0 m1 m2 e0 e1 e2 rest' a0 a1 a2 (b : list Z) r :
  let t := λ p, at_slot (Some (Z.of_nat m0)) d p + at_slot (Some (Z.of_nat m1)) z p
                + at_slot (Some (Z.of_nat m2)) u p in
  es !! m0 = Some e0 → es !! m1 = Some e1 → es !! m2 = Some e2 → cut_ok t 0 es →
  length (filter nz (shrink t 0 es) ++ terminator :: rest') = length arr0 →
  r = (a2, [a0; a1; a2]) →
  a0 = m_addr e0 →
  a1 = m_addr e1 + at_slot (Some (Z.of_nat m0)) d (Z.of_nat m1) →
  a2 = m_addr e2 + (at_slot (Some (Z.of_nat m0)) d (Z.of_nat m2)
                    + at_slot (Some (Z.of_nat m1)) z (Z.of_nat m2)) →
  malloc3_post (Map arr0 lim lost) es d z u b r
    (Map (filter nz (shrink t 0 es) ++ terminator :: rest') lim lost).
Proof using Hlim Hwf Hd Hz Hu.
  clear Ha. intros t He0 He1 He2 Hcut Hlen -> -> -> ->. right.
  destruct (resolve_disjoint es m0 m1 m2 e0 e1 e2 d z u) as (D0 & D1 & D2); try done.
  assert (Hran : ∀ x, cut_in t 0 es x ↔ _)
    by (intros x; exact (resolve_cut es m0 m1 m2 e0 e1 e2 d z u He0 He1 He2 Hd Hz Hu Hcut x)).
  do 3 eexists. exists (filter nz (shrink t 0 es)). split; [reflexivity|].
  split_and!; [apply rep_intro; lia|by eapply shrink_sorted|done|done|done|done|done| |].
  - intros x Hx. apply Hran in Hx. by eapply cut_in_free.
  - intros x. rewrite <- Hran. by eapply shrink_free.
Qed.

Lemma malloc3_success l arr n :
  scan_inv arr0 sizes (zlen es) l arr → found l = 3 → (length arr0 < n)%nat →
  wp (a' ← m3_resolve sizes [0; 1; 2] l a;
      match remap l with Some rp => m3_compact n rp (rp + 1) | None => mret tt end;;
      res ← load (λ _, aget a' 2);
      mret (res, a'))
    (malloc3_post (Map arr0 lim lost) es d z u a) (Map arr lim lost).
Proof using Hlim Hwf Hd Hz Hu Ha.
  intros [[Hlen Harr] Hml Hidx Hfits Hfnd Hrm] Hf3 Hn.
  destruct l as [ms r f]; cbn [madd remap found] in *.
  destruct (placed_all ms) as [_ Hall]. rewrite Hml, <- Hfnd, Hf3 in Hall.
  assert (Hno : None ∉ ms) by (by apply Hall).
  destruct ms as [|x0 [|x1 [|x2 [|]]]]; try (simpl in Hml; lia).
  destruct x0 as [p0|]; [|exfalso; apply Hno; set_solver].
  destruct x1 as [p1|]; [|exfalso; apply Hno; set_solver].
  destruct x2 as [p2|]; [|exfalso; apply Hno; set_solver].
  pose proof (Hidx 0%nat _ eq_refl). pose proof (Hidx 1%nat _ eq_refl). pose proof (Hidx 2%nat _ eq_refl).
  assert (Hgen : ∀ p, 0 ≤ p < zlen es → ∃ i e, p = Z.of_nat i ∧ es !! i = Some e).
  { intros p Hp. destruct (lookup_lt_is_Some_2 es (Z.to_nat p)) as [e He]; [lia|].
    exists (Z.to_nat p), e. split; [lia|done]. }
  destruct (Hgen p0) as (m0 & e0 & -> & He0); [done|].
  destruct (Hgen p1) as (m1 & e1 & -> & He1); [done|].
  destruct (Hgen p2) as (m2 & e2 & -> & He2); [done|]. clear Hgen.
  set (t := λ p, at_slot (Some (Z.of_nat m0)) d p + at_slot (Some (Z.of_nat m1)) z p
    + at_slot (Some (Z.of_nat m2)) u p).
  assert (Ht : ∀ p, taken [Some (Z.of_nat m0); Some (Z.of_nat m1); Some (Z.of_nat m2)] sizes p = t p).
  { intros p. unfold t, sizes, at_slot. simpl. lia. }
  assert (Hcut : cut_ok t 0 es).
  { intros i e Hi. rewrite Z.add_0_l, <- Ht. split; [apply taken_nonneg; by repeat constructor|].
    apply Hfits; [|by apply arr0_lookup]. apply lookup_lt_Some in Hi. lia. }
  assert (Hv : view arr0 t (λ _, 0) arr).
  { split; [done|]. intros p e He. rewrite (Harr _ _ He), Ht. do 2 f_equal. lia. }
  destruct (resolve_bounds es m0 m1 m2 e0 e1 e2 d z u) as (B0 & B1 & B2); try done.
  pose proof (wf_lookup _ _ _ Hwf He0) as W0. pose proof (wf_lookup _ _ _ Hwf He1) as W1.
  pose proof (wf_lookup _ _ _ Hwf He2) as W2. unfold seg_end in W0, W1, W2.
  destruct a as [|b0 [|b1 [|b2 [|]]]]; try (simpl in Ha; lia).
  apply wp_bind. cbn [m3_resolve].
  apply wp_bind. eapply wp_load; [done|]. apply wp_bind. eapply wp_load; [done|].
  eapply m3_resolve_step; [exact Hv|simpl; lia|].
  exists e0. split; [by apply arr0_lookup|]. split; [lia|]. intros arr1 Hv1.
  apply wp_bind. eapply wp_load; [done|]. apply wp_bind. eapply wp_load; [done|].
  eapply m3_resolve_step; [exact Hv1|simpl; lia|].
  exists e1. split; [by apply arr0_lookup|]. split; [lia|]. intros arr2 Hv2.
  apply wp_bind. eapply wp_load; [done|]. apply wp_bind. eapply wp_load; [done|].
  eapply m3_resolve_step; [exact Hv2|simpl; lia|].
  exists e2. split; [by apply arr0_lookup|]. split; [lia|]. intros arr3 Hv3.
  apply wp_ret. cbn -[Z.add at_slot].
  assert (Hsh : arr3 = shrink t 0 es ++ terminator :: rest).
  { apply view_shrink.
    - eapply view_ext; [..|exact Hv3]; intros p; unfold t; cbv beta; lia.
    - intros p Hp. unfold t, at_slot. rewrite !bool_decide_eq_false_2 by (intros [= ?]; lia). lia. }
  subst arr3. rewrite !Z.add_0_r in *.
  assert (Hshl : ∀ i e, shrink t 0 es !! i = Some e → 0 < m_addr e).
  { intros i e Hi. rewrite shrink_lookup in Hi. destruct (es !! i) as [e'|] eqn:E; simplify_eq/=.
    pose proof (wf_lookup _ _ _ Hwf E). specialize (Hcut i e' E). lia. }
  assert (Hne : ∀ k, (∀ p e, p < k → aget arr0 p = Some e →
    m_size e ≠ taken [Some (Z.of_nat m0); Some (Z.of_nat m1); Some (Z.of_nat m2)] sizes p) →
    Forall nz (take (Z.to_nat k) (shrink t 0 es))).
  { intros k Hk. apply Forall_lookup. intros i e [Hi Hik]%lookup_take_Some.
    rewrite shrink_lookup, Z.add_0_l in Hi. destruct (es !! i) as [e'|] eqn:E; simplify_eq/=.
    unfold nz. simpl. rewrite <- Ht. specialize (Hk (Z.of_nat i) e' ltac:(lia) (arr0_lookup _ _ E)). lia. }
  apply wp_bind. destruct r as [rp|]; unfold first_empty in Hrm.
  - destruct Hrm as (Hrp & Hempty & Hbelow%Hne).
    destruct (lookup_lt_is_Some_2 (shrink t 0 es) (Z.to_nat rp)) as [g Hg]; [rewrite shrink_length; lia|].
    assert (Hgz : m_size g = 0).
    { rewrite shrink_lookup, Z.add_0_l in Hg. destruct (es !! Z.to_nat rp) as [e'|] eqn:E; simplify_eq/=.
      pose proof (arr0_lookup _ _ E) as Hl'. rewrite Z2Nat.id in * by lia.
      rewrite <- Ht, <- (Hempty _ Hl'). lia. }
    assert (Hsplit := take_drop_middle _ _ _ Hg).
    set (pre := take (Z.to_nat rp) (shrink t 0 es)) in *.
    set (todo := drop (S (Z.to_nat rp)) (shrink t 0 es)) in *.
    assert (Hpl : length pre = Z.to_nat rp) by (unfold pre; rewrite length_take, shrink_length; lia).
    assert (Hfil : filter nz (shrink t 0 es) = pre ++ filter nz todo).
    { rewrite <- Hsplit, filter_app, filter_cons, (list_filter_all _ pre) by done.
      rewrite decide_False; [done|]. unfold nz. rewrite Hgz. by intros []. }
    rewrite <- Hsplit, <- app_assoc. cbn [app].
    apply (m3_compact_ok _ pre g []).
    + apply (f_equal length) in Hsplit. rewrite shrink_length in Hsplit. unfold arr0 in Hn. len_lia.
    + lia.
    + cbn [length]. lia.
    + apply Forall_lookup. intros i e Hi. unfold todo in Hi. rewrite lookup_drop in Hi.
      specialize (Hshl _ _ Hi). lia.
    + intros rest' Hr. apply wp_bind. eapply wp_load; [done|]. apply wp_ret.
      rewrite app_assoc, <- Hfil.
      eapply (malloc3_done m0 m1 m2 e0 e1 e2); [done..| |reflexivity|lia|lia|lia].
      change (length (filter nz (shrink t 0 es) ++ terminator :: rest') = length arr0).
      rewrite Hfil. apply (f_equal length) in Hsplit. rewrite shrink_length in Hsplit. unfold arr0.
      clear Hn Hlim. len_lia.
  - apply Hne in Hrm. rewrite take_ge in Hrm by (rewrite shrink_length; lia).
    apply wp_ret, wp_bind. eapply wp_load; [done|]. apply wp_ret.
    rewrite <- (list_filter_all nz (shrink t 0 es)) by done.
    eapply (malloc3_done m0 m1 m2 e0 e1 e2); [done..| |reflexivity|lia|lia|lia].
    change (length (filter nz (shrink t 0 es) ++ terminator :: rest) = length arr0).
    rewrite list_filter_all by done. unfold arr0. rewrite !length_app, shrink_length. done.
Qed.
End malloc3_main.

Lemma malloc3_refines s es d z u a :
  rep s es → wf es → 0 ≤ d → 0 ≤ z → 0 ≤ u → length a = 3%nat →
  wp (malloc3 d z u a) (malloc3_post s es d z u a) s.
Proof.
  intros [Hlim [rest Hmap]] Hwf Hd Hz Hu Ha.
  destruct s as [arr lim lost]; cbn [m_map m_limit] in Hlim, Hmap; subst arr.
  set (arr0 := es ++ terminator :: rest) in *.
  unfold malloc3. apply wp_bind, wp_gets. cbn [m_map].
  assert (Hpos : Forall (λ y, 0 ≤ y) [d; z; u]) by (by repeat constructor).
  apply wp_bind. apply (m3_scan_ok arr0 [d; z; u] lim lost eq_refl Hpos (zlen es)).
  - intros p e Hp Hg. apply arr0_segment in Hg as [Hg ?]; [|done].
    pose proof (wf_lookup _ _ _ Hwf Hg). unfold seg_end, is_u32 in *. lia.
  - lia.
  - unfold arr0. by apply aget_mid.
  - intros p e Hp Hg. apply arr0_segment in Hg as [Hg ?]; [|lia].
    pose proof (wf_lookup _ _ _ Hwf Hg). lia.
  - unfold arr0. len_lia.
  - lia.
  - constructor; cbn [madd found remap]; try done.
    + split; [done|]. intros p e He. rewrite He. destruct e. simpl. do 2 f_equal. lia.
    + intros i p Hi. destruct i as [|[|[|]]]; simpl in Hi; simplify_eq.
    + intros p e Hp Hg. apply arr0_segment in Hg as [_ ?]; lia.
    + intros p e Hp Hg. apply arr0_segment in Hg as [_ ?]; lia.
  - cbn [found]. lia.
  - intros l arr Hinv Hf. cbn [fst snd]. eapply malloc3_success; try done. unfold arr0. len_lia.
  - intros l arr Hinv Hf Hsmall. cbn [fst snd]. apply wp_bind.
    eapply wp_mono; [by eapply (malloc3_fail es rest lim lost d z u)|].
    intros _ s' ->. apply wp_ret. left. split_and!; [done|done|].
    apply Forall_lookup. intros i e Hi.
    specialize (Hsmall (Z.of_nat i) e). unfold total in Hsmall. simpl in Hsmall.
    assert (m_size e < d + (z + (u + 0))); [|lia]. apply Hsmall.
    + apply lookup_lt_Some in Hi. lia.
    + by apply arr0_lookup.
Qed.

(** ** The kernel's swap map

    [swapmap] (sys/pic32/machdep.c) covers an array of [SMAPSIZ] zeroed
    entries, and its [m_limit] is [&swapent[SMAPSIZ]]. *)

Definition SMAPSIZ : nat := 25.
Definition swapmap : map := Map (replicate SMAPSIZ terminator) (Z.of_nat SMAPSIZ) [].

(** ** Properties *)

(** C1: [malloc] is first-fit.  Size 0 panics.  Otherwise, on a well-formed map, the call
    returns; the result is the lowest address at which [size] consecutive units
    are free, those units leave the free set and nothing else does, and the map
    stays sorted and coalesced without growing; the result is 0 exactly when
    there is no such run, and then the map is untouched. *)
Theorem malloc_first_fit s es size :
  rep s es → wf es → 0 ≤ size →
  malloc 0 s = Panic "malloc: size = 0" s ∧
  (0 < size →
   wp (malloc size) (λ a s', ∃ es', rep s' es' ∧ m_limit s' = m_limit s ∧
     m_lost s' = m_lost s ∧ malloc_spec es size a es') s).
Proof. intros. split; [done|]. intros. by apply malloc_refines. Qed.

(** C2: [mfree] returns a range to the map.  Size 0 is a no-op and address 0
    panics.  Freeing a range disjoint from the free set adds exactly that range
    and coalesces it with its neighbours, unless every slot is in use and the
    range touches no free segment: then the map is unchanged and the loss is
    reported. *)
Theorem mfree_returns_range s es size addr :
  rep s es → wf es → 0 < size → 0 < addr → addr + size < 2 ^ 32 →
  (∀ x, in_range addr size x → ¬ free_in es x) →
  mfree 0 addr s = Ret tt s ∧
  mfree size 0 s = Panic "mfree: addr = 0" s ∧
  wp (mfree size addr) (λ _, mfree_post s es size addr) s.
Proof.
  intros. split_and!; [done| |by apply mfree_refines].
  unfold mfree. by ztest.
Qed.

(** an allocation followed by the release of what it returned restores
    the segment list exactly, whatever was coalesced or split on the way. *)
Theorem malloc_mfree_roundtrip s es size :
  rep s es → wf es → 0 < size → zlen es < m_limit s →
  wp (a ← malloc size; when (negb (a =? 0)) (mfree size a))
     (λ _ s', rep s' es ∧ m_lost s' = m_lost s) s.
Proof.
  intros Hrep Hwf Hsz Hroom. apply wp_bind.
  eapply wp_mono; [by apply malloc_refines|].
  intros a s1 (es1 & Hrep1 & Hlim & Hlost & Hwf1 & Hlen & [(-> & -> & _) | (Ha & Htake & _ & Hset)]).
  - apply wp_when; [done|]. done.
  - apply wp_when; [intros _|intros; to_prop; lia].
    assert (Hend : a + size < 2 ^ 32).
    { apply (run_in_segment _ _ _ _ Hwf Hsz) in Htake. clear -Htake Hwf. unfold wf in Hwf.
      revert Hwf. generalize 0. induction Htake as [e es [? ?]|e es _ IH]; intros lo (?&?&?&?); [lia|eauto]. }
    eapply wp_mono; [apply mfree_refines; eauto; intros x Hx; rewrite Hset; tauto|].
    intros _ s2 (Hlim2 & [(es2 & Hrep2 & [Hwf2 Hset2] & Hl2) | Hfull]).
    + replace es with es2; [split; [done|congruence]|].
      eapply canonical; [exact Hwf2|exact Hwf|]. intros x. rewrite Hset2, Hset.
      split; [intros [[? _]|?]; auto|]. intros ?.
      destruct (decide (a ≤ x < a + size)); unfold in_range; tauto.
    + destruct Hfull as (_ & ? & _). lia.
Qed.

(** C3: [malloc3] is all-or-nothing.  Either it returns 0, leaves the map bit
    for bit as it was, and no segment could hold the three requests together;
    or it returns the third address, the three ranges are pairwise disjoint and
    were free, and the free set of the new (sorted, compacted) map is the old
    one without them. *)
Theorem malloc3_correct s es d z u a :
  rep s es → wf es → 0 ≤ d → 0 ≤ z → 0 ≤ u → length a = 3%nat →
  wp (malloc3 d z u a) (malloc3_post s es d z u a) s.
Proof. apply malloc3_refines. Qed.

(** the limit of [swapmap] is one slot too large: starting from the boot
    value, freeing [SMAPSIZ] isolated ranges makes [mfree] write its terminator
    one entry past the array, where the overflow check should have fired. *)
Theorem swapmap_limit_overflow :
  (mapM (λ i : nat, mfree 1 (2 * Z.of_nat i + 1)) (seq 0 (SMAPSIZ - 1)) swapmap
     = Ret (replicate (SMAPSIZ - 1) tt)
         (Map (((λ i : nat, Mapent 1 (2 * Z.of_nat i + 1)) <$> seq 0 (SMAPSIZ - 1)) ++ [terminator])
            (Z.of_nat SMAPSIZ) [])) ∧
  mapM (λ i : nat, mfree 1 (2 * Z.of_nat i + 1)) (seq 0 SMAPSIZ) swapmap = Fault.
Proof. split; vm_compute; reflexivity. Qed.

(** ** Witnesses *)

Definition ex_segs : list mapent := [Mapent 10 5; Mapent 4 20; Mapent 7 40].
Definition ex_map : map :=
  Map (ex_segs ++ [terminator; terminator; terminator]) 5 [].

Lemma ex_rep : rep ex_map ex_segs.
Proof. split; [reflexivity|]. by exists [terminator; terminator]. Qed.
Lemma ex_wf : wf ex_segs.
Proof. cbv. intuition congruence. Qed.
Lemma ex_gap x : in_range 30 2 x → ¬ free_in ex_segs x.
Proof.
  unfold ex_segs. autorewrite with rmap. unfold in_range. cbn [m_addr m_size]. lia.
Qed.

Lemma malloc_first_fit_witness :
  (∃ s', malloc 4 ex_map = Ret 5 s') ∧
  wp (malloc 4) (λ a s', ∃ es', rep s' es' ∧ m_limit s' = m_limit ex_map ∧
    m_lost s' = m_lost ex_map ∧ malloc_spec ex_segs 4 a es') ex_map.
Proof.
  split; [eexists; vm_compute; reflexivity|].
  apply (malloc_first_fit ex_map ex_segs 4 ex_rep ex_wf); lia.
Defined.

Lemma mfree_returns_range_witness :
  (∃ s', mfree 2 30 ex_map = Ret tt s') ∧
  wp (mfree 2 30) (λ _, mfree_post ex_map ex_segs 2 30) ex_map.
Proof.
  split; [eexists; vm_compute; reflexivity|].
  apply (mfree_returns_range ex_map ex_segs 2 30 ex_rep ex_wf); [lia|lia|lia|exact ex_gap].
Defined.

Lemma malloc_mfree_roundtrip_witness :
  wp (a ← malloc 10; when (negb (a =? 0)) (mfree 10 a))
     (λ _ s', rep s' ex_segs ∧ m_lost s' = m_lost ex_map) ex_map.
Proof.
  apply (malloc_mfree_roundtrip ex_map ex_segs 10 ex_rep ex_wf); [lia|].
  vm_compute; reflexivity.
Defined.

Lemma malloc3_correct_witness :
  (∃ s', malloc3 10 4 3 [0; 0; 0] ex_map = Ret (40, [5; 20; 40]) s') ∧
  wp (malloc3 10 4 3 [0; 0; 0]) (malloc3_post ex_map ex_segs 10 4 3 [0; 0; 0]) ex_map.
Proof.
  split; [eexists; vm_compute; reflexivity|].
  apply (malloc3_correct ex_map ex_segs 10 4 3 [0; 0; 0] ex_rep ex_wf); [lia|lia|lia|reflexivity].
Defined.

End Rmap.
