(* ===== verification/Clist.v ===== *)
(** * Character lists (sys/kernel/tty_subr.c, sys/include/clist.h)

    A clist is a queue of bytes held in a chain of 32-byte blocks; a block is a
    link word followed by 28 data bytes, and is aligned on its size, so that
    the code finds the block of a byte by masking its address.  Blocks come
    from, and return to, one free list shared by all queues.  The model keeps
    the real addresses: a pointer is a [Z], [NULL] is 0, link words and data
    bytes live in maps keyed by address. *)

From S2P Require Import Prelude.

Module Clist.

Definition CBLOCK : Z := 32.
Definition CBSIZE : Z := 28.
Definition CROUND : Z := 31.

Record clist := CL { c_cc : Z; c_cf : Z; c_cl : Z }.

(** [woken] counts the calls [wakeup(&cwaiting)]. *)
Record cstate := CS {
  c_next : gmap Z Z;
  c_info : gmap Z Z;
  cfreelist : Z;
  cfreecount : Z;
  cwaiting : bool;
  woken : Z;
  clists : gmap Z clist
}.

Definition set_next (s : cstate) m := CS m (c_info s) (cfreelist s) (cfreecount s) (cwaiting s) (woken s) (clists s).
Definition set_info (s : cstate) m := CS (c_next s) m (cfreelist s) (cfreecount s) (cwaiting s) (woken s) (clists s).
Definition set_free (s : cstate) p n := CS (c_next s) (c_info s) p n (cwaiting s) (woken s) (clists s).
Definition set_wait (s : cstate) w n := CS (c_next s) (c_info s) (cfreelist s) (cfreecount s) w n (clists s).
Definition set_clists (s : cstate) m := CS (c_next s) (c_info s) (cfreelist s) (cfreecount s) (cwaiting s) (woken s) m.

(** Accesses; a pointer outside the block pool faults. *)
Definition rd_next (b : Z) : M cstate Z := load (λ s, c_next s !! b).
Definition wr_next (b v : Z) : M cstate unit :=
  store (λ s, _ ← c_next s !! b; Some (set_next s (<[b := v]> (c_next s)))).
Definition rd_char (a : Z) : M cstate Z := load (λ s, c_info s !! a).
Definition wr_char (a c : Z) : M cstate unit :=
  store (λ s, _ ← c_info s !! a; Some (set_info s (<[a := u8 c]> (c_info s)))).
Definition rd_clist (q : Z) : M cstate clist := load (λ s, clists s !! q).
Definition wr_clist (q : Z) (c : clist) : M cstate unit :=
  store (λ s, _ ← clists s !! q; Some (set_clists s (<[q := c]> (clists s)))).

(** [bcopy] out of and into a block. *)
Fixpoint copy_out (a : Z) (n : nat) : M cstate (list Z) :=
  match n with
  | O => mret []
  | S n' => c ← rd_char a; l ← copy_out (a + 1) n'; mret (c :: l)
  end.
Fixpoint copy_in (a : Z) (l : list Z) : M cstate unit :=
  match l with
  | [] => mret tt
  | c :: l' => wr_char a c;; copy_in (a + 1) l'
  end.

(** [bp->c_info] as an address, and the block an address belongs to. *)
Definition info_of (b : Z) : Z := b + 4.
Definition block_of (a : Z) : Z := Z.land a (Z.lnot CROUND).
Definition at_boundary (a : Z) : bool := Z.land a CROUND =? 0.

(** [bp->c_next = cfreelist; cfreelist = bp; cfreecount += CBSIZE;] *)
Definition put_block (bp : Z) : M cstate unit :=
  f ← gets cfreelist;
  wr_next bp f;;
  modify (λ s, set_free s bp (cfreecount s + CBSIZE)).

(** [if (cwaiting) { wakeup (&cwaiting); cwaiting = 0; }] *)
Definition wake_waiters : M cstate unit :=
  w ← gets cwaiting;
  when w (modify (λ s, set_wait s false (woken s + 1))).

Definition free_block (bp : Z) : M cstate unit := put_block bp;; wake_waiters.

Definition getc (p : Z) : M cstate Z :=
  q ← rd_clist p;
  if c_cc q <=? 0 then
    wr_clist p (CL 0 0 0);;
    mret (-1)
  else
    ch ← rd_char (c_cf q);
    let c := Z.land ch 255 in
    let cf := c_cf q + 1 in
    let cc := c_cc q - 1 in
    if cc <=? 0 then
      let bp := block_of (cf - 1) in
      wr_clist p (CL cc 0 0);;
      free_block bp;;
      mret c
    else if at_boundary cf then
      let bp := cf - CBLOCK in
      nx ← rd_next bp;
      wr_clist p (CL cc (info_of nx) (c_cl q));;
      free_block bp;;
      mret c
    else
      wr_clist p (CL cc cf (c_cl q));;
      mret c.

(** The copy loop of [q_to_b]; [acc] is what the buffer holds so far. *)
Fixpoint q_to_b_loop (fuel : nat) (p : Z) (cc : Z) (acc : list Z) : M cstate (list Z) :=
  match fuel with
  | O => nofuel
  | S f =>
      if cc =? 0 then mret acc
      else
        q ← rd_clist p;
        let nc := CBLOCK - Z.land (c_cf q) CROUND in
        let nc := Z.min nc cc in
        let nc := Z.min nc (c_cc q) in
        l ← copy_out (c_cf q) (Z.to_nat nc);
        let cf := c_cf q + nc in
        let qcc := c_cc q - nc in
        let cc := cc - nc in
        let acc := acc ++ l in
        if qcc <=? 0 then
          let bp := block_of (cf - 1) in
          wr_clist p (CL qcc 0 0);;
          free_block bp;;
          mret acc
        else if at_boundary cf then
          let bp := cf - CBLOCK in
          nx ← rd_next bp;
          wr_clist p (CL qcc (info_of nx) (c_cl q));;
          free_block bp;;
          q_to_b_loop f p cc acc
        else
          wr_clist p (CL qcc cf (c_cl q));;
          q_to_b_loop f p cc acc
  end.

(** Returns the bytes copied; the C function returns their number. *)
Definition q_to_b (p : Z) (cc : Z) : M cstate (list Z) :=
  if cc <=? 0 then mret []
  else
    q ← rd_clist p;
    if c_cc q <=? 0 then wr_clist p (CL 0 0 0);; mret []
    else q_to_b_loop (S (Z.to_nat cc)) p cc [].

(** [while (p < end) { if ( *p & flag) ...; p++ }] *)
Fixpoint ndqb_scan (n : nat) (a : Z) (flag : Z) (i : Z) : M cstate Z :=
  match n with
  | O => mret i
  | S n' =>
      c ← rd_char a;
      if negb (Z.land (s8 c) flag =? 0) then mret i
      else ndqb_scan n' (a + 1) flag (i + 1)
  end.

Definition ndqb (p flag : Z) : M cstate Z :=
  q ← rd_clist p;
  if c_cc q <=? 0 then mret (- c_cc q)
  else
    let cc := Z.land (c_cf q + CBSIZE) (Z.lnot CROUND) - c_cf q in
    let cc := if c_cc q <? cc then c_cc q else cc in
    if flag =? 0 then mret cc
    else ndqb_scan (Z.to_nat cc) (c_cf q) flag 0.

Fixpoint ndflush_loop (fuel : nat) (p cc : Z) : M cstate unit :=
  match fuel with
  | O => nofuel
  | S f =>
      q ← rd_clist p;
      if (0 <? cc) && negb (c_cc q =? 0) then
        let bp := block_of (c_cf q) in
        let fin := if bp =? block_of (c_cl q - 1) then c_cl q else bp + CBLOCK in
        let rem := fin - c_cf q in
        if rem <=? cc then
          nx ← rd_next bp;
          wr_clist p (CL (c_cc q - rem) (info_of nx) (c_cl q));;
          free_block bp;;
          ndflush_loop f p (cc - rem)
        else
          wr_clist p (CL (c_cc q - cc) (c_cf q + cc) (c_cl q));;
          when (c_cc q - cc <=? 0) (free_block bp)
      else mret tt
  end.

Definition ndflush (p cc : Z) : M cstate unit :=
  q ← rd_clist p;
  if c_cc q <=? 0 then mret tt
  else
    ndflush_loop (S (Z.to_nat cc)) p cc;;
    q' ← rd_clist p;
    when (c_cc q' <=? 0) (wr_clist p (CL 0 0 0)).

(** [bp = cfreelist; cfreelist = bp->c_next; cfreecount -= CBSIZE;
     bp->c_next = NULL] for a non-null [bp]. *)
Definition take_block (bp : Z) : M cstate unit :=
  nx ← rd_next bp;
  modify (λ s, set_free s nx (cfreecount s - CBSIZE));;
  wr_next bp 0.

Definition putc (c p : Z) : M cstate Z :=
  q ← rd_clist p;
  r ← (if (c_cl q =? 0) || (c_cc q <? 0) then
         bp ← gets cfreelist;
         if bp =? 0 then mret None
         else
           take_block bp;;
           wr_clist p (CL (c_cc q) (info_of bp) (c_cl q));;
           mret (Some (info_of bp))
       else if at_boundary (c_cl q) then
         let bp := c_cl q - CBLOCK in
         f ← gets cfreelist;
         wr_next bp f;;
         if f =? 0 then mret None
         else
           b' ← rd_next bp;
           take_block b';;
           mret (Some (info_of b'))
       else mret (Some (c_cl q)));
  match r with
  | None => mret (-1)
  | Some cp =>
      wr_char cp c;;
      q ← rd_clist p;
      wr_clist p (CL (c_cc q + 1) (c_cf q) (cp + 1));;
      mret 0
  end.

(** The copy loop of [b_to_q]: returns the cursor and the bytes left over. *)
Fixpoint b_to_q_loop (fuel : nat) (cq : Z) (l : list Z) : M cstate (Z * list Z) :=
  match fuel with
  | O => nofuel
  | S f =>
      match l with
      | [] => mret (cq, [])
      | _ =>
          r ← (if at_boundary cq then
                 let bp := cq - CBLOCK in
                 fl ← gets cfreelist;
                 wr_next bp fl;;
                 if fl =? 0 then mret None
                 else
                   b' ← rd_next bp;
                   take_block b';;
                   mret (Some (info_of b'))
               else mret (Some cq));
          match r with
          | None => mret (cq, l)
          | Some cq =>
              let nc := Z.min (zlen l) (CBLOCK - Z.land cq CROUND) in
              copy_in cq (take (Z.to_nat nc) l);;
              b_to_q_loop f (cq + nc) (drop (Z.to_nat nc) l)
          end
      end
  end.

(** The buffer is a list of bytes; the result is the number not transferred. *)
Definition b_to_q (l : list Z) (p : Z) : M cstate Z :=
  match l with
  | [] => mret 0
  | _ =>
      let acc := zlen l in
      q ← rd_clist p;
      start ← (if (c_cl q =? 0) || (c_cc q <? 0) then
                 bp ← gets cfreelist;
                 if bp =? 0 then mret None
                 else
                   take_block bp;;
                   wr_clist p (CL (c_cc q) (info_of bp) (c_cl q));;
                   mret (Some (info_of bp))
               else mret (Some (c_cl q)));
      r ← match start with
          | None => mret (c_cl q, l)
          | Some cq => b_to_q_loop (S (length l)) cq l
          end;
      q' ← rd_clist p;
      wr_clist p (CL (c_cc q' + (acc - zlen r.2)) (c_cf q') r.1);;
      mret (zlen r.2)
  end.

Definition nextc (p cp : Z) : M cstate Z :=
  q ← rd_clist p;
  if negb (c_cc q =? 0) && negb (cp + 1 =? c_cl q) then
    let cp := cp + 1 in
    if at_boundary cp then nx ← rd_next (cp - CBLOCK); mret (info_of nx)
    else mret cp
  else mret 0.

(** [while (bp->c_next != cl) bp = bp->c_next;] *)
Fixpoint find_prev (fuel : nat) (bp cl : Z) : M cstate Z :=
  match fuel with
  | O => nofuel
  | S f => nx ← rd_next bp; if nx =? cl then mret bp else find_prev f nx cl
  end.

Definition unputc (p : Z) : M cstate Z :=
  q ← rd_clist p;
  if c_cc q <=? 0 then mret (-1)
  else
    let cl := c_cl q - 1 in
    ch ← rd_char cl;
    let c := s8 ch in
    let cc := c_cc q - 1 in
    if cc <=? 0 then
      let bp := block_of cl in
      wr_clist p (CL cc 0 0);;
      put_block bp;;
      mret c
    else if Z.land cl CROUND =? 4 then
      let cl := block_of cl in
      n ← gets (λ s, size (c_next s));
      obp ← find_prev (S n) (block_of (c_cf q)) cl;
      wr_clist p (CL cc (c_cf q) (obp + CBLOCK));;
      bp ← rd_next obp;
      put_block bp;;
      wr_next obp 0;;
      mret c
    else
      wr_clist p (CL cc (c_cf q) cl);;
      mret c.

(** The transfer loop of [catq], through a buffer of [4 * CBSIZE] bytes. *)
Fixpoint catq_loop (fuel : nat) (from to : Z) : M cstate unit :=
  match fuel with
  | O => nofuel
  | S f =>
      q ← rd_clist from;
      if 0 <? c_cc q then
        bbuf ← q_to_b from (CBSIZE * 4);
        _ ← b_to_q bbuf to;
        catq_loop f from to
      else mret tt
  end.

Definition catq (from to : Z) : M cstate unit :=
  qt ← rd_clist to;
  qf ← rd_clist from;
  if c_cc qt =? 0 then
    wr_clist to qf;;
    qf ← rd_clist from;
    wr_clist from (CL 0 0 0)
  else catq_loop (S (Z.to_nat (c_cc qf))) from to.

(** [cinit] of init_main.c: round [cfree] up to a block boundary and put every
    whole block of the array [cfree[NCLIST]] on the free list. *)
Definition NCLIST : Z := 32.

Fixpoint cinit_loop (fuel : nat) (cp lim : Z) : M cstate unit :=
  match fuel with
  | O => nofuel
  | S f => if cp <=? lim then put_block cp;; cinit_loop f (cp + CBLOCK) lim else mret tt
  end.

Definition cinit (cfree : Z) : M cstate unit :=
  let ccp := Z.land (cfree + CROUND) (Z.lnot CROUND) in
  cinit_loop (S (Z.to_nat NCLIST)) ccp (cfree + CBLOCK * (NCLIST - 1)).

(** Memory at boot: the array [cfree] is zero, the clists [ps] are null. *)
Definition cfree_array (cfree : Z) : gmap Z Z :=
  list_to_map ((λ a, (a, 0)) <$> seqZ cfree (CBLOCK * NCLIST)).
Definition boot (cfree : Z) (ps : gset Z) : cstate :=
  CS (cfree_array cfree) (cfree_array cfree) 0 0 false 0 (gset_to_gmap (CL 0 0 0) ps).

(** ** Address arithmetic *)

Definition aligned (b : Z) : Prop := 0 < b ∧ b `mod` 32 = 0.

Lemma land_cround a : Z.land a CROUND = a `mod` 32.
Proof. change CROUND with (Z.ones 5). by rewrite Z.land_ones. Qed.

Lemma land_not_cround a : Z.land a (Z.lnot CROUND) = a - a `mod` 32.
Proof.
  rewrite <- Z.ldiff_land. change CROUND with (Z.ones 5). rewrite Z.ldiff_ones_r by lia.
  rewrite Z.shiftl_mul_pow2, Z.shiftr_div_pow2 by lia. change (2 ^ 5) with 32.
  pose proof (Z.div_mod a 32 ltac:(lia)). lia.
Qed.

Lemma mod_in_block b a : aligned b → b ≤ a < b + 32 → a `mod` 32 = a - b.
Proof.
  intros [_ Hb] Ha. rewrite <- (Z.mod_small (a - b) 32) by lia.
  rewrite Zminus_mod, Hb, Z.sub_0_r, Z.mod_mod by lia. done.
Qed.

Lemma block_of_in b a : aligned b → b ≤ a < b + 32 → block_of a = b.
Proof. intros Hb Ha. unfold block_of. rewrite land_not_cround, (mod_in_block b) by done. lia. Qed.

Lemma cround_in b a : aligned b → b ≤ a < b + 32 → Z.land a CROUND = a - b.
Proof. intros. rewrite land_cround. by apply mod_in_block. Qed.

Lemma at_boundary_in b a : aligned b → b < a ≤ b + 32 → at_boundary a = (a =? b + 32).
Proof.
  intros Hb Ha. unfold at_boundary. rewrite land_cround.
  destruct (Z.eqb_spec a (b + 32)) as [->|].
  - replace (b + 32) with (b + 1 * 32) by lia. rewrite Z_mod_plus_full. destruct Hb as [_ ->]. done.
  - rewrite (mod_in_block b) by (done || lia). apply Z.eqb_neq. lia.
Qed.

Lemma aligned_apart b b' a : aligned b → aligned b' → b ≤ a < b + 32 → b' ≤ a < b' + 32 → b = b'.
Proof. intros Hb Hb' H H'. rewrite <- (block_of_in b a), <- (block_of_in b' a); done. Qed.

(** ** Representation of a queue *)

(** Memory holds the bytes [l] from address [a] on. *)
Definition chunk (m : gmap Z Z) (a : Z) (l : list Z) : Prop :=
  ∀ i c, l !! i = Some c → m !! (a + Z.of_nat i) = Some c.

(** A pool block: aligned, with a link word and all its data bytes. *)
Definition valid_block (s : cstate) (b : Z) : Prop :=
  aligned b ∧ is_Some (c_next s !! b) ∧
  ∀ a, b + 4 ≤ a < b + 32 → is_Some (c_info s !! a).

(** The chain of blocks [bs] holds the bytes [l], the first at [cf], the last
    one just below [cl]. *)
Fixpoint qchain (s : cstate) (cf : Z) (bs : list Z) (l : list Z) (cl : Z) : Prop :=
  match bs with
  | [] => False
  | b :: bs' =>
      b + 4 ≤ cf < b + 32 ∧
      match bs' with
      | [] => c_next s !! b = Some 0 ∧ cf < cl ≤ b + 32 ∧ zlen l = cl - cf ∧ chunk (c_info s) cf l
      | b' :: _ =>
          c_next s !! b = Some b' ∧
          ∃ l1 l2, l = l1 ++ l2 ∧ zlen l1 = b + 32 - cf ∧ chunk (c_info s) cf l1 ∧
            qchain s (b' + 4) bs' l2 cl
      end
  end.

(** The clist [q] holds [l] in the blocks [bs]. *)
Definition qrep (s : cstate) (q : clist) (l bs : list Z) : Prop :=
  c_cc q = zlen l ∧ Forall (λ c, 0 ≤ c < 256) l ∧
  match l with
  | [] => c_cf q = 0 ∧ c_cl q = 0 ∧ bs = []
  | _ => qchain s (c_cf q) bs l (c_cl q)
  end.

(** The free chain. *)
Fixpoint fchain (s : cstate) (p : Z) (fs : list Z) : Prop :=
  match fs with
  | [] => p = 0
  | b :: fs' => p = b ∧ ∃ n, c_next s !! b = Some n ∧ fchain s n fs'
  end.

Definition free_rep (s : cstate) (fs : list Z) : Prop :=
  fchain s (cfreelist s) fs ∧ cfreecount s = CBSIZE * zlen fs.

(** What an operation on the blocks [bs] may not touch. *)
Definition frame (bs : list Z) (s s' : cstate) : Prop :=
  (∀ b, b ∉ bs → c_next s' !! b = c_next s !! b) ∧
  (∀ a, (∀ b, b ∈ bs → ¬ (b + 4 ≤ a < b + 32)) → c_info s' !! a = c_info s !! a) ∧
  (∀ b, valid_block s b → valid_block s' b).

Lemma frame_refl bs s : frame bs s s.
Proof. by split_and!. Qed.

Lemma frame_trans bs s1 s2 s3 : frame bs s1 s2 → frame bs s2 s3 → frame bs s1 s3.
Proof. intros (N1&I1&V1) (N2&I2&V2). split_and!; [intros; rewrite N2, N1; done|intros; rewrite I2, I1; done|auto]. Qed.

Lemma frame_weaken bs bs' s s' : (∀ b, b ∈ bs → b ∈ bs') → frame bs s s' → frame bs' s s'.
Proof. intros Hb (N&I&V). split_and!; [intros; apply N; auto|intros a Ha; apply I; auto|done]. Qed.

Lemma chunk_app m a l1 l2 : chunk m a (l1 ++ l2) ↔ chunk m a l1 ∧ chunk m (a + zlen l1) l2.
Proof.
  split.
  - intros H. split; intros i c Hi.
    + apply H. by apply lookup_app_l_Some.
    + specialize (H (length l1 + i)%nat c). rewrite lookup_app_r in H by lia.
      replace (length l1 + i - length l1)%nat with i in H by lia. rewrite <- H; [f_equal; lia|done].
  - intros [H1 H2] i c [Hi|[Hi Hj]]%lookup_app_Some; [by apply H1|].
    specialize (H2 _ _ Hj). rewrite <- H2. f_equal. lia.
Qed.

Lemma chunk_ext m m' a l :
  (∀ x, a ≤ x < a + zlen l → m' !! x = m !! x) → chunk m a l → chunk m' a l.
Proof. intros He H i c Hi. rewrite He; [by apply H|]. apply lookup_lt_Some in Hi. lia. Qed.

Lemma qchain_frame s s' cf bs l cl (fb : list Z) :
  (∀ b, b ∈ bs → aligned b) → (∀ b, b ∈ fb → aligned b) → (∀ b, b ∈ bs → b ∉ fb) →
  frame fb s s' → qchain s cf bs l cl → qchain s' cf bs l cl.
Proof.
  intros Ha Hfa Hd (N & I & _). revert cf l. induction bs as [|b bs IH]; intros cf l; [done|].
  assert (Hbd : ∀ a, b + 4 ≤ a < b + 32 → c_info s' !! a = c_info s !! a).
  { intros a Hr. apply I. intros b' Hb' Hr'.
    assert (b = b') as <- by (apply (aligned_apart b b' a); [apply Ha; set_solver|by apply Hfa|lia|lia]).
    apply (Hd b); [set_solver|done]. }
  cbn [qchain]. intros [Hcf H]. split; [done|]. destruct bs as [|b' bs'].
  - destruct H as (Hn & Hcl & Hlen & Hch). rewrite N by (apply Hd; set_solver).
    split_and!; try done; try lia. eapply chunk_ext; [|done]. intros; apply Hbd; lia.
  - destruct H as (Hn & l1 & l2 & -> & Hlen & Hch & Hq). rewrite N by (apply Hd; set_solver).
    split; [done|]. exists l1, l2. split_and!; try done.
    + eapply chunk_ext; [|done]. intros; apply Hbd; lia.
    + apply IH; [set_solver..|done].
Qed.

Lemma fchain_frame s s' p fs (fb : list Z) :
  (∀ b, b ∈ fs → b ∉ fb) → frame fb s s' → fchain s p fs → fchain s' p fs.
Proof.
  intros Hd (N & _). revert p. induction fs as [|b fs IH]; intros p; [done|].
  cbn [fchain]. intros (-> & n & Hn & Hf). split; [done|]. exists n. split.
  - rewrite N; [done|]. apply Hd. set_solver.
  - apply IH; [set_solver|done].
Qed.

(** Clist [p] holds [l] in the blocks [bs], the free list is [fs], and all
    these blocks are distinct pool blocks. *)
Definition owns (s : cstate) (p : Z) (l bs fs : list Z) : Prop :=
  (∃ q, clists s !! p = Some q ∧ qrep s q l bs) ∧
  free_rep s fs ∧ NoDup (bs ++ fs) ∧ Forall (valid_block s) (bs ++ fs).

(** [s'] differs from [s] only in clist [p] and in the blocks [B]. *)
Definition moved (p : Z) (B : list Z) (s s' : cstate) : Prop :=
  frame B s s' ∧ ∀ p', p' ≠ p → clists s' !! p' = clists s !! p'.

Lemma moved_refl p B s : moved p B s s.
Proof. split; [apply frame_refl|done]. Qed.

Lemma moved_trans p B B' s1 s2 s3 :
  B ≡ₚ B' → moved p B s1 s2 → moved p B' s2 s3 → moved p B s1 s3.
Proof.
  intros HB [F1 C1] [F2 C2]. split; [|intros; rewrite C2, C1; done].
  eapply frame_trans; [done|]. eapply frame_weaken; [|done]. intros b. by rewrite HB.
Qed.

Lemma owns_aligned s p l bs fs b : owns s p l bs fs → b ∈ bs ++ fs → aligned b.
Proof. intros (_&_&_&Hv) Hb. rewrite Forall_forall in Hv. by apply Hv. Qed.

Lemma qchain_head s cf bs l cl : qchain s cf bs l cl → ∃ b bs', bs = b :: bs' ∧ b + 4 ≤ cf < b + 32.
Proof. destruct bs; [done|]. intros [? _]. eauto. Qed.

Lemma qchain_nonempty s cf bs l cl : qchain s cf bs l cl → 0 < zlen l.
Proof.
  revert cf l. induction bs as [|b bs IH]; intros cf l; [done|]. cbn [qchain].
  intros [Hcf H]. destruct bs as [|b' bs'].
  - destruct H as (_&?&?&_). lia.
  - destruct H as (_ & l1 & l2 & -> & ? & _ & Hq). apply IH in Hq. len_lia.
Qed.

(** Removing [n] bytes that all lie in the first block. *)
Lemma qchain_pop s cf b bs l cl n :
  qchain s cf (b :: bs) l cl → (0 < n)%nat → Z.of_nat n ≤ zlen l → cf + Z.of_nat n ≤ b + 32 →
  chunk (c_info s) cf (take n l) ∧
  ((Z.of_nat n = zlen l ∧ bs = []) ∨
   (Z.of_nat n < zlen l ∧ cf + Z.of_nat n < b + 32 ∧
      qchain s (cf + Z.of_nat n) (b :: bs) (drop n l) cl) ∨
   (Z.of_nat n < zlen l ∧ cf + Z.of_nat n = b + 32 ∧
      ∃ b' bs', bs = b' :: bs' ∧ c_next s !! b = Some b' ∧ qchain s (b' + 4) bs (drop n l) cl)).
Proof.
  cbn [qchain]. intros [Hcf H] Hn Hnl Hb. destruct bs as [|b' bs'].
  - destruct H as (Hnx & Hcl & Hlen & Hch).
    rewrite <- (take_drop n l) in Hch. apply chunk_app in Hch as [Hc1 Hc2]. split; [done|].
    destruct (decide (Z.of_nat n = zlen l)); [by left|right; left].
    rewrite length_take_le in Hc2 by lia. rewrite length_drop.
    split_and!; try done; try lia.
  - destruct H as (Hnx & l1 & l2 & -> & Hlen & Hch & Hq).
    pose proof (qchain_nonempty _ _ _ _ _ Hq). rewrite length_app in *.
    assert (n ≤ length l1)%nat by lia. rewrite take_app_le, drop_app_le by done.
    rewrite <- (take_drop n l1) in Hch. apply chunk_app in Hch as [Hc1 Hc2]. split; [done|]. right.
    rewrite length_take_le in Hc2 by lia.
    destruct (decide (cf + Z.of_nat n = b + 32)).
    + right. split_and!; [lia|done|]. exists b', bs'. split_and!; try done.
      rewrite drop_ge by lia. done.
    + left. split_and!; [lia|lia|lia|lia|done|]. exists (drop n l1), l2.
      rewrite length_drop. split_and!; try done. lia.
Qed.

Lemma wp_rd_clist s p q (Q : clist → cstate → Prop) :
  clists s !! p = Some q → Q q s → wp (rd_clist p) Q s.
Proof. intros. by eapply wp_load. Qed.

Lemma wp_wr_clist s p q q' (Q : unit → cstate → Prop) :
  clists s !! p = Some q → Q tt (set_clists s (<[p := q']> (clists s))) → wp (wr_clist p q') Q s.
Proof. intros Hp HQ. eapply wp_store; [by rewrite Hp|done]. Qed.

Lemma wp_wr_next s b n v (Q : unit → cstate → Prop) :
  c_next s !! b = Some n → Q tt (set_next s (<[b := v]> (c_next s))) → wp (wr_next b v) Q s.
Proof. intros Hp HQ. eapply wp_store; [by rewrite Hp|done]. Qed.

Lemma frame_set_next s b n v : c_next s !! b = Some n → frame [b] s (set_next s (<[b := v]> (c_next s))).
Proof.
  intros Hb. split_and!; simpl; [|done|].
  - intros b' Hb'. apply lookup_insert_ne. set_solver.
  - intros b' (Ha & [x Hx] & Hi). split_and!; try done. simpl.
    destruct (decide (b = b')) as [->|]; [rewrite lookup_insert_eq|rewrite lookup_insert_ne by done]; eauto.
Qed.

(** Giving a block back: only its link word and the list head change. *)
Lemma wp_put_block s b n fs (Q : unit → cstate → Prop) :
  c_next s !! b = Some n → free_rep s fs → b ∉ fs → aligned b →
  (∀ s', frame [b] s s' → clists s' = clists s → c_info s' = c_info s → free_rep s' (b :: fs) → Q tt s') →
  wp (put_block b) Q s.
Proof.
  intros Hb [Hf Hc] Hnot Hal HQ. unfold put_block. apply wp_bind, wp_gets.
  apply wp_bind. eapply wp_wr_next; [done|]. apply wp_modify. apply HQ.
  - apply (frame_set_next _ _ _ _ Hb).
  - done.
  - done.
  - split; simpl; [|len_lia]. split; [done|]. exists (cfreelist s). split; [by rewrite lookup_insert_eq|].
    eapply (fchain_frame s); [|apply (frame_set_next _ _ _ _ Hb)|done]. set_solver.
Qed.

Lemma wp_wake s (Q : unit → cstate → Prop) :
  (∀ w n, Q tt (set_wait s w n)) → Q tt s → wp wake_waiters Q s.
Proof.
  intros H1 H2. unfold wake_waiters. apply wp_bind, wp_gets. apply wp_when; [|done].
  intros _. by apply wp_modify.
Qed.

Lemma free_rep_set_wait s w n fs : free_rep s fs → free_rep (set_wait s w n) fs.
Proof.
  intros [Hf Hc]. split; [|done]. eapply (fchain_frame s _ _ _ []); [set_solver| |exact Hf].
  by split_and!.
Qed.

Lemma wp_free_block s b n fs (Q : unit → cstate → Prop) :
  c_next s !! b = Some n → free_rep s fs → b ∉ fs → aligned b →
  (∀ s', frame [b] s s' → clists s' = clists s → free_rep s' (b :: fs) → Q tt s') →
  wp (free_block b) Q s.
Proof.
  intros. unfold free_block. apply wp_bind. eapply wp_put_block; [done..|].
  intros s' Hf Hcl _ Hr. apply wp_wake; [|auto]. intros w m. auto using free_rep_set_wait.
Qed.

Lemma frame_clists s m : frame [] s (set_clists s m).
Proof. by split_and!. Qed.

Lemma free_rep_clists s m fs : free_rep s fs → free_rep (set_clists s m) fs.
Proof.
  intros [Hf Hc]. split; [|done]. eapply (fchain_frame s _ _ _ []); [set_solver| |exact Hf].
  apply frame_clists.
Qed.

(** Rebuild [owns] after the memory changed within [B]. *)
Lemma owns_intro s s' p q l bs fs B :
  Forall (valid_block s) B → NoDup B → frame B s s' → bs ++ fs ≡ₚ B →
  clists s' !! p = Some q → qrep s' q l bs → free_rep s' fs →
  owns s' p l bs fs.
Proof.
  intros Hv Hnd (_&_&Hval) HB Hp Hq Hf. split_and!; [eauto|done| |].
  - by rewrite HB.
  - rewrite HB. eapply Forall_impl; [done|]. auto.
Qed.

Lemma drop_cons {A} n (l : list A) : (n < length l)%nat → ∃ x l', drop n l = x :: l'.
Proof.
  intros. destruct (drop n l) eqn:E; [|eauto]. apply (f_equal length) in E.
  rewrite length_drop in E. simpl in E. lia.
Qed.

Lemma drop_first_perm (b b' : Z) bs fs : (b' :: bs) ++ b :: fs ≡ₚ (b :: b' :: bs) ++ fs.
Proof. simpl. rewrite <- Permutation_middle. apply perm_swap. Qed.

(** The first block has been used up and others follow. *)
Lemma wp_drop_first {B} s p q l b b' bs'' fs n (k : M cstate B) (Q : B → cstate → Prop) :
  clists s !! p = Some q → owns s p l (b :: b' :: bs'') fs → Z.of_nat n < zlen l →
  c_next s !! b = Some b' → qchain s (b' + 4) (b' :: bs'') (drop n l) (c_cl q) →
  (∀ s', owns s' p (drop n l) (b' :: bs'') (b :: fs) → moved p ((b :: b' :: bs'') ++ fs) s s' →
     c_cl <$> clists s' !! p = Some (c_cl q) → wp k Q s') →
  wp (nx ← rd_next b;
      wr_clist p (CL (c_cc q - Z.of_nat n) (info_of nx) (c_cl q));;
      free_block b;;
      k) Q s.
Proof.
  intros Hp Hown Hlt Hnb' Hq' HQ.
  pose proof Hown as ((q' & Hp' & Hcc & Hby & Hq) & Hfree & Hnd & Hval). simplify_eq.
  assert (Hal : aligned b) by (eapply owns_aligned; [done|set_solver]).
  assert (Hbfs : b ∉ fs) by (apply NoDup_app in Hnd as (_ & Hd & _); apply Hd; set_solver).
  apply wp_bind. eapply wp_load; [exact Hnb'|].
  apply wp_bind. eapply wp_wr_clist; [done|].
  apply wp_bind. eapply wp_free_block; [exact Hnb'|by apply free_rep_clists|done|done|].
  intros s' Hfr Hcl Hfree'. apply HQ.
  - eapply (owns_intro s s' _ _ _ _ _ ((b :: b' :: bs'') ++ fs)); try done.
    + eapply frame_weaken; [|exact Hfr]. set_solver.
    + apply drop_first_perm.
    + rewrite Hcl. simpl. by rewrite lookup_insert_eq.
    + split; [simpl; rewrite length_drop; lia|]. split; [by apply Forall_drop|].
      destruct (drop_cons n l) as (c1 & l1 & E); [lia|]. rewrite E in *.
      cbn [c_cf c_cl]. eapply (qchain_frame _ _ _ _ _ _ [b]); [| | |exact Hfr|].
      * intros b1 Hb1. eapply owns_aligned; [done|set_solver].
      * set_solver.
      * intros b1 Hb1 Hb2. apply list_elem_of_singleton in Hb2 as ->.
        apply NoDup_app in Hnd as (Hnd & _ & _). apply NoDup_cons in Hnd as [? _]. done.
      * eapply (qchain_frame s _ _ _ _ _ []); [|set_solver|set_solver|apply frame_clists|exact Hq'].
        intros b1 Hb1. eapply owns_aligned; [done|set_solver].
  - split.
    + eapply frame_weaken; [|exact Hfr]. set_solver.
    + intros p' Hp'. rewrite Hcl. simpl. by rewrite lookup_insert_ne.
  - rewrite Hcl. simpl. by rewrite lookup_insert_eq.
Qed.

(** The end of [getc] and of each round of [q_to_b]: [n] bytes have been read
    from the first block. *)
Lemma wp_pop {B} s p q l bs fs n (k1 k2 : M cstate B) (Q : B → cstate → Prop) :
  clists s !! p = Some q → owns s p l bs fs → (0 < n)%nat → Z.of_nat n ≤ zlen l →
  Z.of_nat n ≤ CBLOCK - Z.land (c_cf q) CROUND →
  (∀ s' bs' fs', owns s' p (drop n l) bs' fs' → bs' ++ fs' ≡ₚ bs ++ fs → moved p (bs ++ fs) s s' →
     (Z.of_nat n < zlen l → c_cl <$> clists s' !! p = Some (c_cl q)) →
     (Z.of_nat n = zlen l → wp k1 Q s') ∧ (Z.of_nat n < zlen l → wp k2 Q s')) →
  wp (if c_cc q - Z.of_nat n <=? 0 then
        wr_clist p (CL (c_cc q - Z.of_nat n) 0 0);;
        free_block (block_of (c_cf q + Z.of_nat n - 1));;
        k1
      else if at_boundary (c_cf q + Z.of_nat n) then
        nx ← rd_next (c_cf q + Z.of_nat n - CBLOCK);
        wr_clist p (CL (c_cc q - Z.of_nat n) (info_of nx) (c_cl q));;
        free_block (c_cf q + Z.of_nat n - CBLOCK);;
        k2
      else
        wr_clist p (CL (c_cc q - Z.of_nat n) (c_cf q + Z.of_nat n) (c_cl q));;
        k2) Q s.
Proof.
  intros Hp Hown Hn Hnl Hnb HQ.
  pose proof Hown as ((q' & Hp' & Hcc & Hby & Hq) & Hfree & Hnd & Hval). simplify_eq.
  destruct l as [|c l]; [simpl in Hnl; lia|]. set (L := c :: l) in *.
  destruct (qchain_head _ _ _ _ _ Hq) as (b & bs' & -> & Hcf).
  assert (Hal : aligned b) by (eapply owns_aligned; [done|set_solver]).
  rewrite (cround_in b) in Hnb by (done || lia). unfold CBLOCK in *.
  assert (Hnx : ∃ x, c_next s !! b = Some x) by (apply Forall_app in Hval as [Hv _]; inversion Hv as [|?? (_&?&_)]; done).
  destruct Hnx as [x Hnx].
  assert (Hbfs : b ∉ fs) by (apply NoDup_app in Hnd as (_ & Hd & _); apply Hd; set_solver).
  destruct (qchain_pop _ _ _ _ _ _ n Hq) as [_ Hcases]; [done|done|lia|].
  assert (Hbd : Forall (λ c, 0 ≤ c < 256) (drop n L)) by (by apply Forall_drop).
  assert (Hoth : ∀ s' q'', clists s' = <[p := q'']> (clists s) →
    ∀ p', p' ≠ p → clists s' !! p' = clists s !! p').
  { intros s' q'' -> p' ?. by rewrite lookup_insert_ne. }
  destruct Hcases as [(Hall & ->) | [(Hlt & Hin & Hq') | (Hlt & Heq & b' & bs'' & -> & Hnb' & Hq')]].
  - ztest. apply wp_bind. eapply wp_wr_clist; [done|].
    rewrite (block_of_in b) by (done || lia).
    apply wp_bind. eapply wp_free_block; [exact Hnx|by apply free_rep_clists|done|done|].
    intros s' Hfr Hcl Hfree'. assert (drop n L = []) as Hd0 by (apply drop_ge; lia).
    destruct (HQ s' [] (b :: fs)) as [HQ1 _]; [| |split|lia|by apply HQ1].
    + rewrite Hd0. eapply (owns_intro s s' _ _ _ _ _ ([b] ++ fs)); try done.
      * eapply frame_weaken; [|exact Hfr]. set_solver.
      * rewrite Hcl. simpl. by rewrite lookup_insert_eq.
      * split_and!; simpl; [lia|done|done..].
    + done.
    + eapply frame_weaken; [|exact Hfr]. set_solver.
    + eapply Hoth. by rewrite Hcl.
  - ztest. rewrite (at_boundary_in b) by (done || lia). ztest.
    apply wp_bind. eapply wp_wr_clist; [done|].
    destruct (HQ (set_clists s (<[p:=CL (c_cc q - Z.of_nat n) (c_cf q + Z.of_nat n) (c_cl q)]> (clists s)))
      (b :: bs') fs) as [_ HQ2]; [| |split|intros _; simpl; by rewrite lookup_insert_eq|by apply HQ2].
    + eapply (owns_intro s _ _ _ _ _ _ ((b :: bs') ++ fs)); try done.
      * simpl. by rewrite lookup_insert_eq.
      * split; [simpl; rewrite length_drop; lia|]. split; [done|].
        destruct (drop_cons n L) as (c1 & l1 & E); [lia|]. rewrite E in *.
        eapply (qchain_frame s _ _ _ _ _ []); [|set_solver|set_solver|apply frame_clists|exact Hq'].
        intros b1 Hb1. eapply owns_aligned; [done|set_solver].
      * by apply free_rep_clists.
    + done.
    + eapply frame_weaken; [|apply frame_clists]. set_solver.
    + by eapply Hoth.
  - ztest. rewrite (at_boundary_in b) by (done || lia). ztest.
    replace (c_cf q + Z.of_nat n - 32) with b by lia.
    apply (wp_drop_first s p q L b b' bs'' fs n); try done.
    intros s' Ho Hm Hc. destruct (HQ s' (b' :: bs'') (b :: fs)) as [_ HQ2]; [done| |done|done|by apply HQ2].
    apply drop_first_perm.
Qed.

(** Outcome of an operation on clist [p]: its contents become [l'], the blocks
    of [p] and of the free list are redistributed, nothing else moves. *)
Definition became (s : cstate) (p : Z) (bs fs : list Z) (l' : list Z) (s' : cstate) : Prop :=
  ∃ bs' fs', owns s' p l' bs' fs' ∧ bs' ++ fs' ≡ₚ bs ++ fs ∧ moved p (bs ++ fs) s s'.

Lemma became_refl s p l bs fs : owns s p l bs fs → became s p bs fs l s.
Proof. intros. exists bs, fs. split_and!; [done|done|apply moved_refl]. Qed.

Lemma became_trans s s1 s2 p bs fs bs1 fs1 l2 :
  bs1 ++ fs1 ≡ₚ bs ++ fs → moved p (bs ++ fs) s s1 → became s1 p bs1 fs1 l2 s2 → became s p bs fs l2 s2.
Proof.
  intros HP Hm (bs2 & fs2 & Ho & HP2 & Hm2). exists bs2, fs2.
  split_and!; [done|by rewrite HP2|]. eapply moved_trans; [|done|done]. done.
Qed.

(** Storing the null clist into an empty queue changes nothing. *)
Lemma became_clear s p bs fs :
  owns s p [] bs fs → became s p bs fs [] (set_clists s (<[p := CL 0 0 0]> (clists s))).
Proof.
  intros ((q & Hp & Hcc & _ & Hcf & Hcl & ->) & Hf & Hnd & Hv).
  exists [], fs. split_and!; [|done|split].
  - eapply (owns_intro s _ _ (CL 0 0 0) _ _ _ ([] ++ fs)); try done.
    + simpl. by rewrite lookup_insert_eq.
    + by apply free_rep_clists.
  - eapply frame_weaken; [|apply frame_clists]. set_solver.
  - intros p' ?. simpl. by rewrite lookup_insert_ne.
Qed.

Lemma copy_out_ok s a l (Q : list Z → cstate → Prop) :
  chunk (c_info s) a l → Q l s → wp (copy_out a (length l)) Q s.
Proof.
  revert a Q. induction l as [|c l IH]; intros a Q Hch HQ; cbn [copy_out length]; [by apply wp_ret|].
  apply (chunk_app _ _ [c] l) in Hch as [H1 H2].
  apply wp_bind. eapply wp_load; [specialize (H1 0%nat c eq_refl); by rewrite Z.add_0_r in H1|].
  apply wp_bind. apply IH; [exact H2|]. by apply wp_ret.
Qed.

Lemma getc_ok s p l bs fs :
  owns s p l bs fs →
  wp (getc p) (λ r s', r = default (-1) (head l) ∧ became s p bs fs (tail l) s') s.
Proof.
  intros Hown. pose proof Hown as ((q & Hp & Hcc & Hby & Hq) & _).
  unfold getc. apply wp_bind. eapply wp_rd_clist; [done|].
  destruct l as [|c l].
  - simpl in Hcc. ztest. apply wp_bind. eapply wp_wr_clist; [done|]. apply wp_ret. split; [done|].
    by apply became_clear.
  - assert (0 < c_cc q) by (rewrite Hcc; simpl; lia). rewrite (proj2 (Z.leb_gt _ 0)) by done.
    destruct (qchain_head _ _ _ _ _ Hq) as (b & bs' & -> & Hcf).
    assert (Hal : aligned b) by (eapply owns_aligned; [done|set_solver]).
    destruct (qchain_pop _ _ _ _ _ _ 1 Hq) as [Hch _]; [lia|simpl; lia|lia|].
    specialize (Hch 0%nat c eq_refl). rewrite Z.add_0_r in Hch.
    apply wp_bind. eapply wp_load; [exact Hch|].
    assert (0 ≤ c < 256) by (by inversion Hby).
    assert (Z.land c 255 = c) as ->.
    { change 255 with (Z.ones 8). rewrite Z.land_ones by lia. by apply Z.mod_small. }
    apply (wp_pop s p q (c :: l) (b :: bs') fs 1); [done|done|lia|simpl; lia| |].
    + rewrite (cround_in b) by (done || lia). unfold CBLOCK. lia.
    + intros s' bs1 fs1 Ho HP Hm _.
      split; intros _; apply wp_ret; (split; [done|]); exists bs1, fs1; done.
Qed.

Lemma q_to_b_loop_ok fuel s p l bs fs cc acc :
  owns s p l bs fs → 0 ≤ cc → l ≠ [] → (Z.to_nat cc < fuel)%nat →
  wp (q_to_b_loop fuel p cc acc)
     (λ r s', r = acc ++ take (Z.to_nat cc) l ∧ became s p bs fs (drop (Z.to_nat cc) l) s' ∧
        (cc < zlen l → c_cl <$> clists s' !! p = c_cl <$> clists s !! p)) s.
Proof.
  revert s l bs fs cc acc. induction fuel as [|fuel IH]; intros s l bs fs cc acc Hown Hcc0 Hl Hf; [lia|].
  cbn [q_to_b_loop]. destruct (Z.eqb_spec cc 0) as [->|Hne].
  { apply wp_ret. rewrite app_nil_r. split_and!; [done|by apply became_refl|done]. }
  pose proof Hown as ((q & Hp & Hcc & Hby & Hq) & _).
  destruct l as [|c l]; [done|].
  destruct (qchain_head _ _ _ _ _ Hq) as (b & bs' & -> & Hcf).
  assert (Hal : aligned b) by (eapply owns_aligned; [done|set_solver]).
  apply wp_bind. eapply wp_rd_clist; [done|].
  rewrite (cround_in b) by (done || lia). assert (HC : CBLOCK = 32) by done.
  set (L := c :: l) in *.
  set (n := Z.to_nat (Z.min (Z.min (CBLOCK - (c_cf q - b)) cc) (c_cc q))).
  assert (HL : 0 < zlen L) by (simpl; lia).
  assert (Hnz : Z.min (Z.min (CBLOCK - (c_cf q - b)) cc) (c_cc q) = Z.of_nat n) by lia.
  rewrite Hnz.
  destruct (qchain_pop _ _ _ _ _ _ n Hq) as [Hch _]; [lia|lia|lia|].
  apply wp_bind. rewrite <- (length_take_le L n) by lia. apply copy_out_ok; [done|].
  rewrite (length_take_le L n) by lia.
  apply (wp_pop s p q L (b :: bs') fs n); [done|done|lia|lia| |].
  { rewrite (cround_in b) by (done || lia). unfold CBLOCK. lia. }
  intros s1 bs1 fs1 Ho HP Hm Hc. rewrite Hp. cbn [fmap option_fmap option_map]. split; intros Hn.
  - apply wp_ret. assert (n ≤ Z.to_nat cc)%nat by lia.
    rewrite !take_ge, (drop_ge L) by lia. split; [done|].
    rewrite drop_ge in Ho by lia. split; [exists bs1, fs1; done|lia].
  - eapply wp_mono; [apply (IH s1 (drop n L) bs1 fs1); [done|lia| |lia]|].
    + intros E. destruct (drop_cons n L) as (? & ? & E'); [lia|congruence].
    + intros r s' (-> & Hb & Hc'). rewrite length_drop in Hc'. specialize (Hc Hn). split_and!.
      * rewrite <- app_assoc. f_equal.
        replace (Z.to_nat cc) with (n + Z.to_nat (cc - Z.of_nat n))%nat by lia.
        by rewrite take_take_drop.
      * rewrite drop_drop in Hb. replace (n + Z.to_nat (cc - Z.of_nat n))%nat with (Z.to_nat cc) in Hb by lia.
        by eapply became_trans.
      * intros. rewrite Hc' by lia. done.
Qed.

Lemma q_to_b_ok s p l bs fs cc :
  owns s p l bs fs →
  wp (q_to_b p cc)
     (λ r s', r = take (Z.to_nat cc) l ∧ became s p bs fs (drop (Z.to_nat cc) l) s' ∧
        (cc < zlen l → c_cl <$> clists s' !! p = c_cl <$> clists s !! p)) s.
Proof.
  intros Hown. unfold q_to_b. destruct (Z.leb_spec cc 0).
  { rewrite Z2Nat.nonpos by lia. apply wp_ret. split_and!; [done|by apply became_refl|done]. }
  pose proof Hown as ((q & Hp & Hcc & Hby & Hq) & _).
  apply wp_bind. eapply wp_rd_clist; [done|]. rewrite Hcc. destruct l as [|c l].
  - simpl. apply wp_bind. eapply wp_wr_clist; [done|]. apply wp_ret. rewrite take_nil, drop_nil.
    split_and!; [done|by apply became_clear|simpl; lia].
  - ztest. rewrite (proj2 (Z.leb_gt _ _)) by (simpl; lia).
    apply (q_to_b_loop_ok _ s p (c :: l) bs fs cc []); [done|lia|done|lia].
Qed.

(** ** Appending *)

(** Like [qchain], but the last block may still be empty. *)
Fixpoint qopen (s : cstate) (cf : Z) (bs : list Z) (l : list Z) (cl : Z) : Prop :=
  match bs with
  | [] => False
  | b :: bs' =>
      b + 4 ≤ cf < b + 32 ∧
      match bs' with
      | [] => c_next s !! b = Some 0 ∧ cf ≤ cl ≤ b + 32 ∧ zlen l = cl - cf ∧ chunk (c_info s) cf l
      | b' :: _ =>
          c_next s !! b = Some b' ∧
          ∃ l1 l2, l = l1 ++ l2 ∧ zlen l1 = b + 32 - cf ∧ chunk (c_info s) cf l1 ∧
            qopen s (b' + 4) bs' l2 cl
      end
  end.

Lemma qchain_open s cf bs l cl : qchain s cf bs l cl → qopen s cf bs l cl.
Proof.
  revert cf l. induction bs as [|b bs IH]; intros cf l; [done|]. cbn [qchain qopen].
  intros [Hcf H]. split; [done|]. destruct bs as [|b' bs'].
  - destruct H as (?&?&?&?). split_and!; try done; lia.
  - destruct H as (Hn & l1 & l2 & ? & ? & ? & ?). split; [done|]. exists l1, l2. split_and!; try done. by apply IH.
Qed.

Lemma qopen_last s cf bs l cl :
  qopen s cf bs l cl → ∃ bs0 bl, bs = bs0 ++ [bl] ∧ bl + 4 ≤ cl ≤ bl + 32 ∧ c_next s !! bl = Some 0.
Proof.
  revert cf l. induction bs as [|b bs IH]; intros cf l; [done|]. cbn [qopen].
  intros [Hcf H]. destruct bs as [|b' bs'].
  - destruct H as (?&?&_). exists [], b. split_and!; try done; lia.
  - destruct H as (_ & l1 & l2 & _ & _ & _ & H). apply IH in H as (bs0 & bl & -> & ? & ?).
    exists (b :: bs0), bl. done.
Qed.

(** Writing [x] at the end of the last block. *)
Lemma qopen_write s s' cf bs0 bl l cl x :
  qopen s cf (bs0 ++ [bl]) l cl → x ≠ [] → cl + zlen x ≤ bl + 32 →
  Forall aligned (bs0 ++ [bl]) → NoDup (bs0 ++ [bl]) →
  c_next s' = c_next s → chunk (c_info s') cl x →
  (∀ a, ¬ (cl ≤ a < cl + zlen x) → c_info s' !! a = c_info s !! a) →
  qchain s' cf (bs0 ++ [bl]) (l ++ x) (cl + zlen x).
Proof.
  intros Hq Hx Hroom Hal Hnd Hnx Hch Hoth.
  assert (Hxl : 0 < zlen x) by (destruct x; [done|simpl; lia]).
  assert (Hbl : bl + 4 ≤ cl).
  { apply qopen_last in Hq as (bs1 & bl' & [_ [= <-]]%app_inj_tail & ? & _). lia. }
  revert cf l Hq. induction bs0 as [|b bs0 IH]; intros cf l Hq.
  - destruct Hq as (Hcf & Hn & Hcl & Hlen & Hc). split; [done|]. rewrite Hnx.
    split_and!; [done|lia|lia|len_lia|]. apply chunk_app. split.
    + eapply chunk_ext; [|exact Hc]. intros a Ha. apply Hoth. lia.
    + by replace (cf + zlen l) with cl by lia.
  - change ((b :: bs0) ++ [bl]) with (b :: (bs0 ++ [bl])) in *.
    inversion Hal as [|?? Ha Hal']; subst. apply NoDup_cons in Hnd as [Hnin Hnd].
    specialize (IH Hal' Hnd).
    cbn [qopen] in Hq. cbn [qchain]. destruct Hq as (Hcf & Hq). split; [done|].
    destruct (bs0 ++ [bl]) as [|b' bs'] eqn:E; [by apply app_eq_nil in E as [_ ?]|].
    destruct Hq as (Hn & l1 & l2 & -> & Hlen & Hc & Hq). rewrite Hnx. split; [done|].
    exists l1, (l2 ++ x). split_and!; [by rewrite <- app_assoc|done| |by apply IH].
    eapply chunk_ext; [|exact Hc]. intros a Har. apply Hoth. intros Hin.
    assert (b = bl); [|subst; apply Hnin; rewrite <- E; set_solver].
    apply (aligned_apart b bl a); [done| |lia|lia].
    rewrite Forall_forall in Hal'. apply Hal'. rewrite <- E. set_solver.
Qed.

(** Linking a fresh block [f] after a full last block. *)
Lemma qchain_link s s' cf bs0 bl l f :
  qchain s cf (bs0 ++ [bl]) l (bl + 32) → NoDup (bs0 ++ [bl; f]) →
  c_info s' = c_info s → c_next s' !! bl = Some f → c_next s' !! f = Some 0 →
  (∀ b, b ≠ bl → b ≠ f → c_next s' !! b = c_next s !! b) →
  qopen s' cf (bs0 ++ [bl; f]) l (f + 4).
Proof.
  intros Hq Hnd Hi Hbl Hf Hoth. revert cf l Hq. induction bs0 as [|b bs0 IH]; intros cf l Hq.
  - destruct Hq as (Hcf & Hn & Hcl & Hlen & Hc). cbn [app qopen]. split; [done|]. split; [done|].
    exists l, []. rewrite app_nil_r, Hi. split_and!; try done; simpl; lia.
  - cbn [app qchain] in Hq. cbn [app qopen]. destruct Hq as (Hcf & Hq). split; [done|].
    simpl in Hnd. apply NoDup_cons in Hnd as [Hnin Hnd].
    destruct (bs0 ++ [bl]) as [|b' bs'] eqn:E; [by apply app_eq_nil in E as [_ ?]|].
    assert (E' : bs0 ++ [bl; f] = b' :: bs' ++ [f]).
    { change [bl; f] with ([bl] ++ [f]). by rewrite app_assoc, E. }
    destruct Hq as (Hn & l1 & l2 & -> & Hlen & Hc & Hq). rewrite E'.
    split; [rewrite Hoth; [done|set_solver|set_solver]|].
    exists l1, l2. rewrite Hi. split_and!; try done. rewrite <- E'. by apply IH.
Qed.

Lemma copy_in_ok s a x (Q : unit → cstate → Prop) :
  (∀ i, a ≤ i < a + zlen x → is_Some (c_info s !! i)) →
  (∀ m, chunk m a (u8 <$> x) → (∀ i, ¬ (a ≤ i < a + zlen x) → m !! i = c_info s !! i) →
     Q tt (set_info s m)) →
  wp (copy_in a x) Q s.
Proof.
  revert s a Q. induction x as [|c x IH]; intros s a Q Hs HQ; cbn [copy_in].
  - apply wp_ret. specialize (HQ (c_info s)). destruct s. simpl in HQ. apply HQ; [|done].
    intros i c Hi. by rewrite lookup_nil in Hi.
  - destruct (Hs a) as [y Hy]; [simpl; lia|].
    apply wp_bind. eapply wp_store; [by rewrite Hy|].
    apply IH.
    + intros i Hi. simpl. destruct (decide (a = i)) as [<-|]; [rewrite lookup_insert_eq; eauto|].
      rewrite lookup_insert_ne by done. apply Hs. simpl. lia.
    + simpl. intros m Hch Ho. apply (HQ m).
      * change (u8 <$> c :: x) with ([u8 c] ++ (u8 <$> x)). apply chunk_app. split; [|done]. intros [|i] d Hd; simplify_eq/=.
        rewrite Z.add_0_r, Ho by lia. by rewrite lookup_insert_eq.
      * simpl. intros i Hi. rewrite Ho by lia. rewrite lookup_insert_ne; [done|lia].
Qed.

(** Blocks [bs] hold [l] up to [cl] while a clist is being extended. *)
Definition open_rep (s : cstate) (cf : Z) (bs l : list Z) (cl : Z) (fs : list Z) : Prop :=
  qopen s cf bs l cl ∧ free_rep s fs ∧ NoDup (bs ++ fs) ∧ Forall (valid_block s) (bs ++ fs).

Lemma wp_take_block s f fs (Q : unit → cstate → Prop) :
  free_rep s (f :: fs) → NoDup (f :: fs) →
  (∀ s', frame [f] s s' → clists s' = clists s → c_info s' = c_info s → c_next s' !! f = Some 0 →
     free_rep s' fs → Q tt s') →
  wp (take_block f) Q s.
Proof.
  intros [(_ & n & Hn & Hf) Hc] [Hnin Hnd]%NoDup_cons HQ. unfold take_block.
  apply wp_bind. eapply wp_load; [exact Hn|]. apply wp_bind, wp_modify.
  eapply wp_wr_next; [exact Hn|]. apply HQ; simpl; try done.
  - apply (frame_set_next _ _ _ _ Hn).
  - by rewrite lookup_insert_eq.
  - split; simpl; [|len_lia]. eapply (fchain_frame s _ _ _ [f]); [set_solver| |exact Hf].
    apply (frame_set_next _ _ _ _ Hn).
Qed.

Lemma open_rep_frame_vb B s s' bs fs :
  frame B s s' → Forall (valid_block s) (bs ++ fs) → Forall (valid_block s') (bs ++ fs).
Proof. intros (_&_&H) Hv. eapply Forall_impl; [done|]. auto. Qed.

Lemma qopen_full s cf bs0 bl l : qopen s cf (bs0 ++ [bl]) l (bl + 32) → qchain s cf (bs0 ++ [bl]) l (bl + 32).
Proof.
  revert cf l. induction bs0 as [|b bs0 IH]; intros cf l.
  - cbn [app qopen qchain]. intros (?&?&?&?&?). split_and!; try done; lia.
  - change ((b :: bs0) ++ [bl]) with (b :: (bs0 ++ [bl])). cbn [qopen qchain].
    intros (? & H). split; [done|].
    destruct (bs0 ++ [bl]) as [|b' bs'] eqn:E; [by apply app_eq_nil in E as [_ ?]|].
    destruct H as (? & l1 & l2 & ? & ? & ? & H). split; [done|]. exists l1, l2. split_and!; try done.
    by apply IH.
Qed.

(** A first block for an empty clist. *)
Lemma open_first s f fs :
  free_rep s (f :: fs) → NoDup (f :: fs) → Forall (valid_block s) (f :: fs) →
  ∀ s', frame [f] s s' → c_next s' !! f = Some 0 → free_rep s' fs →
  open_rep s' (info_of f) [f] [] (info_of f) fs.
Proof.
  intros Hf Hnd Hv s' Hfr Hn Hf'. unfold info_of. split_and!; try done; simpl.
  - split_and!; try done; try lia.
  - by eapply (open_rep_frame_vb _ s _ [f]).
Qed.

(** The step that makes room when the cursor has reached the end of a block. *)
Lemma wp_extend {B} s cf bs l cq fs (k : option Z → M cstate B) (Q : B → cstate → Prop) :
  open_rep s cf bs l cq fs →
  (∀ bs0 bl, fs = [] → bs = bs0 ++ [bl] → cq = bl + 32 →
     ∀ s', frame bs s s' → clists s' = clists s → open_rep s' cf bs l cq [] → wp (k None) Q s') →
  (∀ s' bs0 bl cq' fs', frame (bs ++ fs) s s' → clists s' = clists s →
     open_rep s' cf (bs0 ++ [bl]) l cq' fs' → bl + 4 ≤ cq' < bl + 32 →
     (bs0 ++ [bl]) ++ fs' ≡ₚ bs ++ fs →
     ((fs' = fs ∧ bs = bs0 ++ [bl] ∧ cq' = cq) ∨
      (fs = bl :: fs' ∧ cq' = bl + 4 ∧ ∃ bs1 bl1, bs = bs1 ++ [bl1] ∧ cq = bl1 + 32)) →
     wp (k (Some cq')) Q s') →
  wp (r ← (if at_boundary cq then
             let bp := cq - CBLOCK in
             f ← gets cfreelist;
             wr_next bp f;;
             if f =? 0 then mret None
             else
               b' ← rd_next bp;
               take_block b';;
               mret (Some (info_of b'))
           else mret (Some cq)); k r) Q s.
Proof.
  intros (Hq & Hf & Hnd & Hv) HN HS.
  destruct (qopen_last _ _ _ _ _ Hq) as (bs0 & bl & -> & Hcq & Hnl).
  assert (Hal : aligned bl) by (rewrite Forall_forall in Hv; apply Hv; set_solver).
  rewrite (at_boundary_in bl) by (done || lia). unfold CBLOCK.
  destruct (Z.eqb_spec cq (bl + 32)) as [->|Hne]; cycle 1.
  { apply wp_bind, wp_ret. apply (HS s bs0 bl cq fs); try done; [lia|auto]. }
  replace (bl + 32 - 32) with bl by lia.
  assert (Hbf : bl ∉ fs) by (apply NoDup_app in Hnd as (_&Hd&_); apply Hd; set_solver).
  pose proof (frame_set_next s bl 0 (cfreelist s) Hnl) as Hfr1.
  apply wp_bind, wp_bind, wp_gets. apply wp_bind. eapply wp_wr_next; [done|].
  destruct fs as [|f fs].
  - pose proof Hf as [E Hc]. simpl in E. rewrite E in *. apply wp_ret.
    assert (set_next s (<[bl:=0]> (c_next s)) = s) as ->.
    { rewrite insert_id by done. by destruct s. }
    by apply (HN bs0 bl).
  - pose proof Hf as [[E _] _]. rewrite E in *.
    assert (f ≠ 0) by (rewrite Forall_forall in Hv; destruct (Hv f) as [[? _] _]; [set_solver|lia]).
    rewrite (proj2 (Z.eqb_neq f 0)) by done.
    apply wp_bind. eapply wp_load; [simpl; by rewrite lookup_insert_eq|].
    assert (Hnd2 : NoDup (f :: fs)) by (by apply NoDup_app in Hnd as (_&_&?)).
    apply wp_bind. eapply (wp_take_block _ f fs); [|done|].
    { destruct Hf as [Hf Hc]. split; [|done]. change (fchain (set_next s (<[bl:=f]> (c_next s))) (cfreelist s) (f :: fs)). rewrite E.
      eapply (fchain_frame s); [|exact Hfr1|]. { set_solver. } by rewrite E in Hf. }
    intros s' Hfr Hcl Hi Hn0 Hf'. apply wp_ret. unfold info_of.
    assert (f ≠ bl) by set_solver.
    assert (Hperm : ((bs0 ++ [bl]) ++ [f]) ++ fs ≡ₚ (bs0 ++ [bl]) ++ f :: fs) by (by rewrite <- !app_assoc).
    assert (Hfr2 : frame ((bs0 ++ [bl]) ++ f :: fs) s s').
    { eapply frame_trans; (eapply frame_weaken; [|done]); set_solver. }
    apply (HS s' (bs0 ++ [bl]) f (f + 4) fs); [done|done| |lia|done|right; eauto 6].
    split_and!; [|done|by rewrite Hperm|].
    + rewrite <- app_assoc. apply (qchain_link s); [by apply qopen_full| |done| |done|].
      * change [bl; f] with ([bl] ++ [f]). rewrite app_assoc. rewrite <- Hperm in Hnd.
        by apply NoDup_app in Hnd as [? _].
      * destruct Hfr as (N&_&_). rewrite N by set_solver. simpl. by rewrite lookup_insert_eq.
      * intros b' Hb1 Hb2. destruct Hfr as (N&_&_). rewrite N by set_solver. simpl.
        by rewrite lookup_insert_ne.
    + rewrite Hperm. by eapply open_rep_frame_vb.
Qed.

Lemma u8_bytes x : Forall (λ c, 0 ≤ c < 256) (u8 <$> x).
Proof. apply Forall_fmap, Forall_true. intros. apply u8_range. Qed.

Lemma wp_copy_in s cf bs0 bl l cq fs x (Q : unit → cstate → Prop) :
  open_rep s cf (bs0 ++ [bl]) l cq fs → bl + 4 ≤ cq → x ≠ [] → cq + zlen x ≤ bl + 32 →
  (∀ s', frame (bs0 ++ [bl]) s s' → clists s' = clists s →
     qchain s' cf (bs0 ++ [bl]) (l ++ (u8 <$> x)) (cq + zlen x) →
     open_rep s' cf (bs0 ++ [bl]) (l ++ (u8 <$> x)) (cq + zlen x) fs → Q tt s') →
  wp (copy_in cq x) Q s.
Proof.
  intros (Hq & Hf & Hnd & Hv) Hcq Hx Hroom HQ.
  assert (Hbl : valid_block s bl) by (rewrite Forall_forall in Hv; apply Hv; set_solver).
  apply copy_in_ok. { intros i Hi. apply Hbl. lia. }
  intros m Hch Ho.
  assert (Hfr : frame (bs0 ++ [bl]) s (set_info s m)).
  { split_and!; simpl; [done| |].
    - intros a Ha. apply Ho. intros Hin. apply (Ha bl); [set_solver|lia].
    - intros b (Ha & Hn & Hi). split_and!; try done. simpl. intros a Har.
      destruct (decide (cq ≤ a < cq + zlen x)) as [Hin|Hin]; [|rewrite Ho by done; auto].
      destruct ((u8 <$> x) !! Z.to_nat (a - cq)) as [c|] eqn:E.
      + apply Hch in E. replace (cq + Z.of_nat (Z.to_nat (a - cq))) with a in E by lia. eauto.
      + apply lookup_ge_None in E. rewrite length_fmap in E. lia. }
  assert (Hal : Forall aligned (bs0 ++ [bl])).
  { apply Forall_app in Hv as [Hv _]. eapply Forall_impl; [exact Hv|]. by intros ? [? _]. }
  assert (Hnd1 : NoDup (bs0 ++ [bl])) by (by apply NoDup_app in Hnd as [? _]).
  assert (Hqc : qchain (set_info s m) cf (bs0 ++ [bl]) (l ++ (u8 <$> x)) (cq + zlen x)).
  { rewrite <- (length_fmap u8 x). apply (qopen_write s); rewrite ?length_fmap; try done. by destruct x. }
  apply HQ; try done. split_and!; [by apply qchain_open| |done|by eapply open_rep_frame_vb].
  destruct Hf as [Hf Hc]. split; [|done].
  eapply (fchain_frame s _ _ _ (bs0 ++ [bl])); [|exact Hfr|exact Hf].
  intros b Hb Hb'. apply NoDup_app in Hnd as (_&Hd&_). by apply (Hd b).
Qed.

Lemma open_room s cf bs0 bl l cq fs :
  open_rep s cf (bs0 ++ [bl]) l cq fs → bl + 4 ≤ cq < bl + 32 → CBLOCK - Z.land cq CROUND = bl + 32 - cq.
Proof.
  intros (_&_&_&Hv) Hr. rewrite (cround_in bl); [unfold CBLOCK; lia| |lia].
  rewrite Forall_forall in Hv. apply Hv. set_solver.
Qed.

Lemma b_to_q_loop_ok fuel s cf bs l cq fs x :
  open_rep s cf bs l cq fs → (x = [] → qchain s cf bs l cq) → (length x < fuel)%nat →
  wp (b_to_q_loop fuel cq x)
     (λ r s', ∃ y bs' fs', x = y ++ r.2 ∧ qchain s' cf bs' (l ++ (u8 <$> y)) r.1 ∧
        open_rep s' cf bs' (l ++ (u8 <$> y)) r.1 fs' ∧ bs' ++ fs' ≡ₚ bs ++ fs ∧
        frame (bs ++ fs) s s' ∧ clists s' = clists s ∧
        (r.2 ≠ [] → fs' = [] ∧
          ∀ bs0 bl, bs = bs0 ++ [bl] → CBSIZE * zlen fs + (bl + 32 - cq) ≤ zlen y)) s.
Proof.
  revert s bs l cq fs x. induction fuel as [|fuel IH]; intros s bs l cq fs x Ho Hx Hfu; [lia|].
  cbn [b_to_q_loop]. destruct x as [|c x].
  { apply wp_ret. exists [], bs, fs. rewrite !fmap_nil, !app_nil_r. split_and!; first [done | by apply Hx]. }
  eapply wp_extend; [exact Ho| |].
  - intros bs0 bl -> -> -> s' Hfr Hcl Ho'. apply wp_ret. exists [], (bs0 ++ [bl]), [].
    rewrite !fmap_nil, !app_nil_r. split_and!; try done.
    + apply qopen_full. apply Ho'.
    + intros _. split; [done|]. intros bs1 bl1 [_ [= ->]]%app_inj_tail. simpl. lia.
  - intros s1 bs0 bl cq1 fs1 Hfr1 Hcl1 Ho1 Hcq1 HP Hfs.
    rewrite (open_room _ _ _ _ _ _ _ Ho1) by done.
    set (X := c :: x) in *. set (nc := Z.min (zlen X) (bl + 32 - cq1)).
    assert (HX : 0 < zlen X) by (simpl; lia).
    set (n := Z.to_nat nc). assert (Hn : nc = Z.of_nat n) by lia. rewrite Hn.
    assert (Hlt : zlen (take n X) = Z.of_nat n) by (rewrite length_take_le; lia).
    apply wp_bind. eapply wp_copy_in; [exact Ho1|lia| |lia|].
    { intros E. rewrite E in Hlt. simpl in Hlt. lia. }
    intros s2 Hfr2 Hcl2 Hq2 Ho2. rewrite Hlt in *.
    eapply wp_mono; [apply (IH s2 (bs0 ++ [bl]) (l ++ (u8 <$> take n X)) (cq1 + Z.of_nat n) fs1 (drop n X)); [exact Ho2|done|rewrite length_drop; lia]|].
    intros r s3 (y & bs3 & fs3 & Hy & Hq3 & Ho3 & HP3 & Hfr3 & Hcl3 & Hleft).
    exists (take n X ++ y), bs3, fs3. rewrite fmap_app, <- !app_assoc, <- Hy, take_drop.
    rewrite <- !app_assoc in Hq3, Ho3. split_and!; try done.
    + by rewrite HP3.
    + eapply frame_trans; [exact Hfr1|]. eapply frame_trans.
      * eapply frame_weaken; [|exact Hfr2]. intros b Hb. rewrite <- HP. apply elem_of_app; by left.
      * eapply frame_weaken; [|exact Hfr3]. intros b Hb. by rewrite <- HP.
    + congruence.
    + intros Hr. destruct (Hleft Hr) as [-> Hcap]. split; [done|]. specialize (Hcap _ _ eq_refl).
      assert (0 < zlen (drop n X)) by (rewrite Hy; destruct r as [? [|]]; simpl; [done|len_lia]).
      rewrite length_drop in *. rewrite length_app. unfold CBSIZE in *.
      intros bs4 bl4 Hbs. destruct Hfs as [(-> & Hb & ->)|(-> & -> & bs5 & bl5 & Hb & ->)];
        rewrite Hb in Hbs; apply app_inj_tail in Hbs as [_ <-]; cbn [length] in *; lia.
Qed.

Lemma moved_clists p B s s1 q : moved p B s s1 → moved p B s (set_clists s1 (<[p := q]> (clists s1))).
Proof.
  intros [Hf Hc]. split; [done|]. intros p' Hp. simpl. rewrite lookup_insert_ne by done. auto.
Qed.

(** Storing the new cursor closes an extension. *)
Lemma became_finish s p bs fs s1 cf bs1 fs1 l1 cl :
  qchain s1 cf bs1 l1 cl → open_rep s1 cf bs1 l1 cl fs1 → Forall (λ c, 0 ≤ c < 256) l1 →
  bs1 ++ fs1 ≡ₚ bs ++ fs → moved p (bs ++ fs) s s1 →
  became s p bs fs l1 (set_clists s1 (<[p := CL (zlen l1) cf cl]> (clists s1))).
Proof.
  intros Hq (_ & Hf & Hnd & Hv) Hb HP Hm. exists bs1, fs1. split_and!; [|done|by apply moved_clists].
  split_and!; [|by apply free_rep_clists|done|done].
  eexists. split; [simpl; by rewrite lookup_insert_eq|]. split; [done|]. split; [done|].
  pose proof (qchain_nonempty _ _ _ _ _ Hq). destruct l1; [simpl in *; lia|].
  eapply (qchain_frame s1 _ _ _ _ _ []); [|set_solver|set_solver|apply frame_clists|exact Hq].
  intros b Hb'. rewrite Forall_forall in Hv. apply Hv. apply elem_of_app. by left.
Qed.

(** The clist as [putc] and [b_to_q] find it. *)
Lemma owns_cases s p l bs fs :
  owns s p l bs fs →
  ∃ q, clists s !! p = Some q ∧ c_cc q = zlen l ∧ Forall (λ c, 0 ≤ c < 256) l ∧
    ((l = [] ∧ bs = [] ∧ q = CL 0 0 0) ∨
     (c_cl q ≠ 0 ∧ qchain s (c_cf q) bs l (c_cl q) ∧ open_rep s (c_cf q) bs l (c_cl q) fs)).
Proof.
  intros Hown. pose proof Hown as ((q & Hp & Hcc & Hby & Hq) & Hf & Hnd & Hv).
  exists q. split_and!; try done. destruct l as [|c l].
  - left. destruct q, Hq as (?&?&?); simplify_eq/=. done.
  - right. pose proof (qchain_open _ _ _ _ _ Hq) as Hqo. split_and!; try done.
    destruct (qopen_last _ _ _ _ _ Hqo) as (bs0 & bl & -> & Hcl & _).
    destruct (owns_aligned _ _ _ _ _ bl Hown) as [? _]; [set_solver|lia].
Qed.

(** Taking the first block of an empty clist. *)
Lemma wp_open_first {B} s p fs (k : option Z → M cstate B) (Q : B → cstate → Prop) :
  owns s p [] [] fs → clists s !! p = Some (CL 0 0 0) →
  (fs = [] → wp (k None) Q s) →
  (∀ f fs' s' q', fs = f :: fs' → moved p fs s s' → clists s' !! p = Some q' →
     q' = CL 0 (info_of f) 0 →
     open_rep s' (info_of f) [f] [] (info_of f) fs' → wp (k (Some (info_of f))) Q s') →
  wp (r ← (bp ← gets cfreelist;
           if bp =? 0 then mret None
           else
             take_block bp;;
             wr_clist p (CL (c_cc (CL 0 0 0)) (info_of bp) (c_cl (CL 0 0 0)));;
             mret (Some (info_of bp))); k r) Q s.
Proof.
  intros (_ & Hf & Hnd & Hv) Hp HN HS. simpl in Hnd, Hv.
  apply wp_bind, wp_bind, wp_gets. destruct fs as [|f fs].
  - pose proof Hf as [E _]. simpl in E. rewrite E. apply wp_ret. by apply HN.
  - pose proof Hf as [[E _] _]. rewrite E.
    assert (f ≠ 0) by (inversion Hv as [|?? [[? _] _]]; lia).
    rewrite (proj2 (Z.eqb_neq f 0)) by done.
    apply wp_bind. eapply wp_take_block; [done|done|]. intros s' Hfr Hcl Hi Hn Hf'.
    apply wp_bind. eapply wp_wr_clist; [by rewrite Hcl|]. apply wp_ret.
    eapply (HS f fs); [done| |simpl; by rewrite lookup_insert_eq|done|].
    + apply moved_clists. split; [|intros; by rewrite Hcl].
      eapply frame_weaken; [|exact Hfr]. set_solver.
    + destruct (open_first s f fs Hf Hnd Hv s' Hfr Hn Hf') as (Ho & ? & ? & Hv').
      split_and!; try done. by apply free_rep_clists.
Qed.

Lemma owns_l_bytes s p l bs fs : owns s p l bs fs → Forall (λ c, 0 ≤ c < 256) l.
Proof. by intros ((? & _ & _ & ? & _) & _). Qed.

Lemma b_to_q_ok s p l bs fs x :
  owns s p l bs fs →
  wp (b_to_q x p)
     (λ k s', ∃ y, 0 ≤ k ∧ y ++ drop (length y) x = x ∧ k = zlen x - zlen y ∧
        became s p bs fs (l ++ (u8 <$> y)) s' ∧
        (0 < k → CBSIZE * zlen fs ≤ zlen y ∧ cfreelist s' = 0)) s.
Proof.
  intros Hown. unfold b_to_q. destruct x as [|c x].
  { apply wp_ret. exists []. rewrite fmap_nil, (app_nil_r l). split_and!; try done. by apply became_refl. }
  set (X := c :: x). assert (HX : 0 < zlen X) by (simpl; lia).
  destruct (owns_cases _ _ _ _ _ Hown) as (q & Hp & Hcc & Hby & [(-> & -> & ->)|(Hcl & Hq & Ho)]).
  - apply wp_bind. eapply wp_rd_clist; [done|]. cbn [c_cl c_cc Z.eqb orb].
    eapply (wp_open_first s p fs); [done|done| |].
    + intros ->. apply wp_bind, wp_ret. apply wp_bind. eapply wp_rd_clist; [done|].
      apply wp_bind. eapply wp_wr_clist; [done|]. apply wp_ret.
      exists []. rewrite fmap_nil. cbn [fst snd c_cc c_cf app length]. split_and!; try lia; try done.
      * rewrite (Z.sub_diag (zlen X)). by apply became_clear.
      * intros _. split; [simpl; lia|]. apply Hown.
    + intros f fs' s1 q1 -> Hm1 Hp1 -> Ho1.
      apply wp_bind. eapply wp_mono; [apply (b_to_q_loop_ok _ _ _ _ _ _ _ _ Ho1); [done|lia]|].
      intros [cq' lf] s2 (y & bs2 & fs2 & Hy & Hq2 & Ho2 & HP2 & Hfr2 & Hcl2 & Hlf). cbn [fst snd] in *.
      apply wp_bind. eapply wp_rd_clist; [by rewrite Hcl2|]. apply wp_bind.
      eapply wp_wr_clist; [by rewrite Hcl2|]. apply wp_ret. cbn [c_cc c_cf].
      exists y. rewrite Hy, drop_app_length, length_app. split_and!; try done; try lia.
      * replace (0 + (Z.of_nat (length y + length lf) - zlen lf)) with (zlen ([] ++ (u8 <$> y)))
          by (simpl; rewrite length_fmap; lia).
        eapply became_finish; [done|done|apply u8_bytes|done|].
        destruct Hm1 as [F1 C1]. split; [|intros; rewrite Hcl2; auto].
        eapply frame_trans; [done|]. eapply frame_weaken; [|done]. done.
      * intros Hk. destruct lf; [simpl in Hk; lia|]. destruct Hlf as [-> Hcap]; [done|].
        split; [|apply Ho2]. specialize (Hcap [] f eq_refl). unfold info_of, CBSIZE in *. cbn [length]. lia.
  - apply wp_bind. eapply wp_rd_clist; [done|]. rewrite (proj2 (Z.eqb_neq _ _) Hcl).
    rewrite (proj2 (Z.ltb_ge (c_cc q) 0)) by lia. cbn [orb]. apply wp_bind, wp_ret.
    apply wp_bind. eapply wp_mono; [apply (b_to_q_loop_ok _ _ _ _ _ _ _ _ Ho); [done|lia]|].
    intros [cq' lf] s2 (y & bs2 & fs2 & Hy & Hq2 & Ho2 & HP2 & Hfr2 & Hcl2 & Hlf). cbn [fst snd] in *.
    apply wp_bind. eapply wp_rd_clist; [by rewrite Hcl2|]. apply wp_bind.
    eapply wp_wr_clist; [by rewrite Hcl2|]. apply wp_ret.
    exists y. rewrite Hy, drop_app_length, length_app. split_and!; try done; try lia.
    + replace (c_cc q + (Z.of_nat (length y + length lf) - zlen lf)) with (zlen (l ++ (u8 <$> y)))
        by (rewrite length_app, length_fmap; lia).
      eapply became_finish; [done|done| |done|].
      * apply Forall_app. split; [done|apply u8_bytes].
      * split; [done|]. intros. by rewrite Hcl2.
    + intros Hk. destruct lf; [simpl in Hk; lia|]. destruct Hlf as [-> Hcap]; [done|].
      destruct (qopen_last _ _ _ _ _ (proj1 Ho)) as (bs0 & bl & -> & ? & _).
      specialize (Hcap _ _ eq_refl). split; [lia|apply Ho2].
Qed.

Lemma putc_ok s p l bs fs c :
  owns s p l bs fs →
  wp (putc c p)
     (λ r s', (r = 0 ∧ became s p bs fs (l ++ [u8 c]) s') ∨
              (r = -1 ∧ fs = [] ∧ became s p bs fs l s')) s.
Proof.
  intros Hown. unfold putc.
  assert (Hwr : ∀ s1 cf bs0 bl cq fs1 (Q : unit → cstate → Prop),
    open_rep s1 cf (bs0 ++ [bl]) l cq fs1 → bl + 4 ≤ cq < bl + 32 →
    (∀ s', frame (bs0 ++ [bl]) s1 s' → clists s' = clists s1 →
       qchain s' cf (bs0 ++ [bl]) (l ++ [u8 c]) (cq + 1) →
       open_rep s' cf (bs0 ++ [bl]) (l ++ [u8 c]) (cq + 1) fs1 → Q tt s') →
    wp (wr_char cq c) Q s1).
  { intros s1 cf bs0 bl cq fs1 Q Ho Hr HQ.
    assert (Hw : wp (copy_in cq [c]) Q s1); [|].
    { eapply wp_copy_in; [done|lia|done|simpl; lia|]. by apply HQ. }
    apply wp_run in Hw as (a & s' & Hw & HQ'). apply wp_run. exists a, s'. split; [|done].
    cbn [copy_in] in Hw. unfold mbind, M_bind in Hw. by destruct (wr_char cq c s1) as [[] ?| | |]. }
  destruct (owns_cases _ _ _ _ _ Hown) as (q & Hp & Hcc & Hby & [(-> & -> & ->)|(Hcl & Hq & Ho)]).
  - apply wp_bind. eapply wp_rd_clist; [done|]. cbn [c_cl c_cc Z.eqb orb].
    eapply (wp_open_first s p fs); [done|done| |].
    + intros ->. apply wp_ret. right. split_and!; try done. by apply became_refl.
    + intros f fs' s1 q1 -> Hm1 Hp1 -> Ho1.
      apply wp_bind. eapply (Hwr _ _ [] f); [exact Ho1|unfold info_of; lia|].
      intros s2 Hfr2 Hcl2 Hq2 Ho2. apply wp_bind. eapply wp_rd_clist; [by rewrite Hcl2|].
      apply wp_bind. eapply wp_wr_clist; [by rewrite Hcl2|]. apply wp_ret. left. split; [done|].
      apply (became_finish s p [] (f :: fs') s2 (info_of f) [f] fs' [u8 c]); try done; [apply (u8_bytes [c])|].
      destruct Hm1 as [F1 C1]. split; [|intros; rewrite Hcl2; auto].
      eapply frame_trans; [done|]. eapply frame_weaken; [|done]. set_solver.
  - apply wp_bind. eapply wp_rd_clist; [done|]. rewrite (proj2 (Z.eqb_neq _ _) Hcl).
    rewrite (proj2 (Z.ltb_ge (c_cc q) 0)) by lia. cbn [orb].
    eapply wp_extend; [exact Ho| |].
    + intros bs0 bl -> -> Hclq s' Hfr Hcl' Ho'. apply wp_ret. right. split_and!; try done.
      exists (bs0 ++ [bl]), []. split_and!; [|done|split; [by rewrite app_nil_r|intros; by rewrite Hcl']].
      destruct Ho' as (Hq' & Hf' & Hnd' & Hv'). split_and!; try done. exists q. rewrite Hcl'.
      split; [done|]. split_and!; try done. rewrite Hclq in *. apply qopen_full in Hq'.
      pose proof (qchain_nonempty _ _ _ _ _ Hq). destruct l; [simpl in *; lia|]. done.
    + intros s1 bs0 bl cq1 fs1 Hfr1 Hcl1 Ho1 Hcq1 HP _.
      apply wp_bind. eapply Hwr; [exact Ho1|done|].
      intros s2 Hfr2 Hcl2 Hq2 Ho2. apply wp_bind. eapply wp_rd_clist; [by rewrite Hcl2, Hcl1|].
      apply wp_bind. eapply wp_wr_clist; [by rewrite Hcl2, Hcl1|]. apply wp_ret. left. split; [done|].
      replace (c_cc q + 1) with (zlen (l ++ [u8 c])) by len_lia.
      eapply became_finish; try done.
      * apply Forall_app. split; [done|apply (u8_bytes [c])].
      * split; [|intros; by rewrite Hcl2, Hcl1]. eapply frame_trans; [done|].
        eapply frame_weaken; [|done]. intros b Hb. rewrite <- HP. apply elem_of_app. by left.
Qed.

(** ** Removing from the tail *)

(** The last byte lies just below [cl]; either it is the only one, or its
    block keeps others, or its block becomes empty. *)
Lemma qchain_snoc s cf bs l cl :
  qchain s cf bs l cl →
  ∃ l' c bs0 bl, l = l' ++ [c] ∧ c_info s !! (cl - 1) = Some c ∧ bs = bs0 ++ [bl] ∧
    bl + 4 < cl ≤ bl + 32 ∧
    ((l' = [] ∧ bs0 = []) ∨
     (l' ≠ [] ∧ bl + 4 < cl - 1 ∧ qchain s cf bs l' (cl - 1)) ∨
     (l' ≠ [] ∧ cl - 1 = bl + 4 ∧ ∃ bs1 bp, bs0 = bs1 ++ [bp] ∧ c_next s !! bp = Some bl ∧
        ∀ s', c_info s' = c_info s → c_next s' !! bp = Some 0 →
          (∀ b, b ∈ bs1 → c_next s' !! b = c_next s !! b) → qchain s' cf bs0 l' (bp + 32))).
Proof.
  revert cf l. induction bs as [|b bs IH]; intros cf l; [done|]. cbn [qchain]. intros [Hcf H].
  destruct bs as [|b' bs'].
  - destruct H as (Hn & Hcl & Hlen & Hch).
    destruct l as [|c l' _] using rev_ind; [simpl in *; lia|].
    pose proof Hch as [Hch1 Hch2]%chunk_app. specialize (Hch2 0%nat c eq_refl).
    rewrite length_app in Hlen. simpl in Hlen. rewrite Z.add_0_r in Hch2.
    exists l', c, [], b. replace (cl - 1) with (cf + zlen l') by lia. split_and!; try done; try lia.
    destruct l' as [|c0 l']; [by left|]. right; left. simpl in *. split_and!; try done; lia.
  - destruct H as (Hn & l1 & l2 & -> & Hlen & Hch & Hq).
    destruct (IH _ _ Hq) as (l2' & c & bs0 & bl & -> & Hc & Hbs & Hcl & Hcase).
    assert (l1 ≠ []) by (intros ->; simpl in *; lia).
    exists (l1 ++ l2'), c, (b :: bs0), bl. rewrite Hbs, app_assoc. split_and!; try done; try lia.
    assert (Hne : l1 ++ l2' ≠ []) by (by intros [? _]%app_eq_nil).
    destruct Hcase as [(-> & ->)|[(Hl2 & Hlt & Hq')|(Hl2 & Heq & bs1 & bp & -> & Hbp & Hq')]].
    + simpl in Hbs. simplify_eq. destruct Hq as (_ & Hnb & _ & Hlen2 & _). simpl in Hlen2.
      right; right. split_and!; try done; try lia. exists [], b. split_and!; try done.
      intros s' Hi Hb0 _. cbn [qchain]. rewrite app_nil_r, Hi. split_and!; try done; lia.
    + right; left. do 2 (split; [done|]). rewrite <- Hbs. split; [done|]. split; [done|]. exists l1, l2'. by rewrite Hbs in *.
    + right; right. split_and!; try done. exists (b :: bs1), bp. split_and!; try done.
      intros s' Hi Hb0 Hoth.
      assert (Hq2 : qchain s' (b' + 4) (bs1 ++ [bp]) l2' (bp + 32))
        by (apply Hq'; [done|done|]; intros; apply Hoth; set_solver).
      clear IH Hq Hq'. assert (Hb' : head (bs1 ++ [bp]) = Some b').
      { destruct bs1; simplify_eq/=; done. }
      cbn [app qchain]. rewrite Hi, Hoth by set_solver.
      destruct (bs1 ++ [bp]) as [|b2 bs2]; simplify_eq/=. split; [done|]. split; [done|].
      exists l1, l2'. done.
Qed.

(** The walk that looks for the predecessor of block [bl]. *)
Lemma find_prev_ok s cf bs1 bp bl l cl fuel b0 (Q : Z → cstate → Prop) :
  qchain s cf (bs1 ++ [bp; bl]) l cl → NoDup (bs1 ++ [bp; bl]) →
  head (bs1 ++ [bp]) = Some b0 → (length bs1 < fuel)%nat → Q bp s →
  wp (find_prev fuel b0 bl) Q s.
Proof.
  intros Hq Hnd Hb0 Hfu HQ. revert cf l b0 fuel Hq Hb0 Hfu.
  induction bs1 as [|b bs1 IH]; intros cf l b0 [|fuel] Hq Hb0 Hfu; try lia; simplify_eq/=.
  - destruct Hq as (_ & Hn & _). apply wp_bind. eapply wp_load; [exact Hn|].
    rewrite Z.eqb_refl. by apply wp_ret.
  - apply NoDup_cons in Hnd as [Hnin Hnd]. destruct Hq as [_ Hq].
    destruct (bs1 ++ [bp; bl]) as [|b' bs'] eqn:E; [by apply app_eq_nil in E as [_ ?]|].
    destruct Hq as (Hn & l1 & l2 & _ & _ & _ & Hq). apply wp_bind. eapply wp_load; [exact Hn|].
    assert (Hhd : head (bs1 ++ [bp]) = Some b') by (destruct bs1; simplify_eq/=; done).
    assert (b' ≠ bl).
    { intros ->. destruct bs1 as [|b1 bs1]; simplify_eq/=; [|];
        apply NoDup_cons in Hnd as [Hnd _]; set_solver. }
    rewrite (proj2 (Z.eqb_neq _ _)) by done. eapply IH; [done|exact Hq|done|lia].
Qed.

Lemma NoDup_size (m : gmap Z Z) bs :
  NoDup bs → (∀ b, b ∈ bs → is_Some (m !! b)) → (length bs ≤ size m)%nat.
Proof.
  intros Hnd Hb. rewrite <- size_dom. rewrite <- (size_list_to_set (C := gset Z) bs) by done.
  apply subseteq_size. intros b. rewrite elem_of_list_to_set, elem_of_dom. apply Hb.
Qed.

Lemma unputc_ok s p l bs fs :
  owns s p l bs fs →
  wp (unputc p)
     (λ r s', match last l with
              | None => r = -1 ∧ s' = s
              | Some c => r = s8 c ∧ became s p bs fs (removelast l) s'
              end) s.
Proof.
  intros Hown. pose proof Hown as (_ & Hf & Hnd & Hv). unfold unputc.
  destruct (owns_cases _ _ _ _ _ Hown) as (q & Hp & Hcc & Hby & [(-> & -> & ->)|(Hcl & Hq & Ho)]);
    (apply wp_bind; eapply wp_rd_clist; [done|]).
  { cbn [c_cc Z.leb Z.compare]. by apply wp_ret. }
  pose proof (qchain_nonempty _ _ _ _ _ Hq). rewrite (proj2 (Z.leb_gt _ 0)) by lia.
  destruct (qchain_snoc _ _ _ _ _ Hq) as (l' & c & bs0 & bl & -> & Hc & -> & Hr & Hcase).
  rewrite last_snoc, removelast_last, length_app in *. simpl in Hcc.
  apply Forall_app in Hby as [Hby _].
  assert (Hal : aligned bl) by (eapply owns_aligned; [done|set_solver]).
  assert (Hbf : bl ∉ fs) by (apply NoDup_app in Hnd as (_&Hd&_); apply Hd; set_solver).
  assert (Hbn : is_Some (c_next s !! bl)).
  { rewrite Forall_forall in Hv. apply Hv. set_solver. }
  destruct Hbn as [x Hbn].
  apply wp_bind. eapply wp_load; [exact Hc|].
  destruct Hcase as [(-> & ->)|[(Hl2 & Hlt & Hq')|(Hl2 & Heq & bs1 & bp & -> & Hbp & Hq')]].
  - simpl in Hcc. ztest. rewrite (block_of_in bl) by (done || lia).
    apply wp_bind. eapply wp_wr_clist; [done|].
    apply wp_bind. eapply wp_put_block; [exact Hbn|by apply free_rep_clists|done|done|].
    intros s' Hfr Hcl' _ Hf'. apply wp_ret. split; [done|]. exists [], (bl :: fs). split_and!; [|done|split].
    + eapply (owns_intro s s' _ _ _ _ _ ([bl] ++ fs)); try done.
      * eapply frame_weaken; [|exact Hfr]. set_solver.
      * rewrite Hcl'. simpl. by rewrite lookup_insert_eq.
      * split_and!; simpl; try done; lia.
    + eapply frame_weaken; [|exact Hfr]. set_solver.
    + intros p' Hp'. rewrite Hcl'. simpl. by rewrite lookup_insert_ne.
  - assert (0 < zlen l') by (destruct l'; [done|simpl; lia]). ztest.
    rewrite (cround_in bl) by (done || lia). ztest.
    apply wp_bind. eapply wp_wr_clist; [done|]. apply wp_ret. split; [done|].
    replace (c_cc q - 1) with (zlen l') by lia.
    destruct Ho as (_ & Ho). eapply became_finish; try done.
    split; [by apply qchain_open|done].
  - assert (0 < zlen l') by (destruct l'; [done|simpl; lia]). ztest.
    rewrite (cround_in bl) by (done || lia). ztest. rewrite (block_of_in bl (c_cl q - 1)) by (done || lia).
    apply wp_bind, wp_gets. rewrite <- app_assoc in Hq. cbn [app] in Hq.
    destruct (qchain_head _ _ _ _ _ Hq) as (b0 & bs' & Hb0 & Hcf).
    assert (Hbpin : bp ∈ ((bs1 ++ [bp]) ++ [bl]) ++ fs) by set_solver.
    assert (Hal0 : aligned b0).
    { eapply owns_aligned; [done|]. apply elem_of_app. left. rewrite <- app_assoc. cbn [app].
      rewrite Hb0. set_solver. }
    rewrite (block_of_in b0) by (done || lia).
    assert (Hnd' : NoDup (bs1 ++ [bp; bl])).
    { apply NoDup_app in Hnd as [Hnd _]. by rewrite <- app_assoc in Hnd. }
    apply wp_bind. eapply (find_prev_ok s _ bs1 bp bl); [exact Hq|done| | |].
    { destruct bs1; simplify_eq/=; done. }
    { pose proof (NoDup_size (c_next s) (bs1 ++ [bp; bl]) Hnd') as Hsz. rewrite length_app in Hsz.
      simpl in Hsz. assert (length bs1 + 2 ≤ size (c_next s))%nat; [|lia]. apply Hsz.
      intros b Hb. rewrite Forall_forall in Hv. apply Hv. set_solver. }
    apply wp_bind. eapply wp_wr_clist; [done|].
    apply wp_bind. eapply wp_load; [exact Hbp|].
    apply wp_bind. eapply wp_put_block; [exact Hbn|by apply free_rep_clists|done|done|].
    intros s1 Hfr Hcl1 Hi1 Hf1.
    assert (Hbpbl : bp ≠ bl).
    { intros ->. apply NoDup_app in Hnd' as (_&_&Hnd'). apply NoDup_cons in Hnd' as [? _]. set_solver. }
    assert (Hbp1 : c_next s1 !! bp = Some bl).
    { destruct Hfr as (N&_&_). rewrite N by set_solver. done. }
    pose proof (frame_set_next s1 bp bl 0 Hbp1) as Hfr2.
    apply wp_bind. eapply wp_wr_next; [exact Hbp1|]. apply wp_ret. split; [done|].
    exists (bs1 ++ [bp]), (bl :: fs).
    assert (HB : (bs1 ++ [bp]) ++ bl :: fs ≡ₚ ((bs1 ++ [bp]) ++ [bl]) ++ fs) by (by rewrite <- !app_assoc).
    assert (Hfr3 : frame (((bs1 ++ [bp]) ++ [bl]) ++ fs) s (set_next s1 (<[bp:=0]> (c_next s1)))).
    { eapply frame_trans; (eapply frame_weaken; [|eassumption]); set_solver. }
    split_and!; [|done|split; [done|]].
    + eapply (owns_intro s _ _ (CL (c_cc q - 1) (c_cf q) (bp + CBLOCK)) _ _ _ _); [exact Hv|done|done|done| | |].
      * simpl. rewrite Hcl1. simpl. by rewrite lookup_insert_eq.
      * split; [simpl; lia|]. split; [done|]. destruct l'; [done|]. apply Hq'.
        -- done.
        -- simpl. by rewrite lookup_insert_eq.
        -- intros b Hb. simpl.
           assert (b ≠ bp ∧ b ≠ bl) as [? ?].
           { apply NoDup_app in Hnd' as (_&Hd&_). specialize (Hd b Hb). set_solver. }
           rewrite lookup_insert_ne by done. destruct Hfr as (N&_&_). rewrite N by set_solver. done.
      * destruct Hf1 as [Hf1 Hc1]. split; [|done].
        eapply (fchain_frame s1 _ _ _ [bp]); [|exact Hfr2|exact Hf1].
        intros b Hb ->%list_elem_of_singleton.
        apply NoDup_app in Hnd as (Hnd & Hd & _). apply NoDup_app in Hnd as (_ & Hd' & _).
        apply elem_of_cons in Hb as [->|Hb]; [done|]. apply (Hd bp); [set_solver|done].
    + intros p' Hp'. simpl. rewrite Hcl1. simpl. by rewrite lookup_insert_ne.
Qed.

(** ** Flushing, scanning and concatenating *)

Lemma qchain_last_block s cf bs l cl :
  qchain s cf bs l cl → ∃ bl, last bs = Some bl ∧ bl + 4 < cl ≤ bl + 32.
Proof.
  intros (l' & c & bs0 & bl & _ & _ & -> & ? & _)%qchain_snoc. exists bl. by rewrite last_snoc.
Qed.

(** The number of bytes of the queue that lie in its first block. *)
Lemma qchain_rem s cf b bs l cl :
  qchain s cf (b :: bs) l cl → NoDup (b :: bs) → Forall aligned (b :: bs) →
  let rem := (if b =? block_of (cl - 1) then cl else b + CBLOCK) - cf in
  0 < rem ≤ zlen l ∧ cf + rem ≤ b + 32 ∧ (rem = zlen l ↔ bs = []) ∧ (bs ≠ [] → cf + rem = b + 32).
Proof.
  intros Hq Hnd Hal rem. destruct (qchain_last_block _ _ _ _ _ Hq) as (bl & Hl & Hr).
  assert (Hbl : aligned bl).
  { rewrite Forall_forall in Hal. apply Hal. apply last_Some in Hl as [? ->]. set_solver. }
  unfold rem. rewrite (block_of_in bl) by (done || lia). clear rem.
  destruct Hq as [Hcf H]. destruct bs as [|b' bs'].
  - destruct H as (_ & ? & ? & _). simpl in Hl. simplify_eq. rewrite Z.eqb_refl.
    split_and!; try lia; done.
  - destruct H as (_ & l1 & l2 & -> & Hlen & _ & Hq). pose proof (qchain_nonempty _ _ _ _ _ Hq).
    apply NoDup_cons in Hnd as [Hnin _].
    assert (b ≠ bl).
    { intros ->. apply Hnin. change (last (bl :: b' :: bs')) with (last (b' :: bs')) in Hl.
      apply last_Some in Hl as [? ->]. set_solver. }
    rewrite (proj2 (Z.eqb_neq _ _)) by done. rewrite length_app. unfold CBLOCK.
    split_and!; try lia. split; [lia|done].
Qed.

Definition flushed (s : cstate) (p : Z) (bs fs l : list Z) (cc : Z) (s' : cstate) : Prop :=
  ∃ q', clists s' !! p = Some q' ∧
    ((zlen l ≤ cc ∧ c_cc q' = 0 ∧
        became s p bs fs [] (set_clists s' (<[p := CL 0 0 0]> (clists s')))) ∨
     (cc < zlen l ∧ 0 < c_cc q' ∧ became s p bs fs (drop (Z.to_nat cc) l) s')).

Lemma owns_blocks s p l bs fs : owns s p l bs fs → NoDup bs ∧ Forall aligned bs.
Proof.
  intros (_ & _ & Hnd & Hv). apply NoDup_app in Hnd as (?&_). apply Forall_app in Hv as [Hv _].
  split; [done|]. eapply Forall_impl; [exact Hv|]. by intros ? [? _].
Qed.

Lemma ndflush_loop_ok fuel s p l bs fs cc :
  owns s p l bs fs → l ≠ [] → (Z.to_nat cc < fuel)%nat →
  wp (ndflush_loop fuel p cc) (λ _, flushed s p bs fs l cc) s.
Proof.
  revert s l bs fs cc. induction fuel as [|fuel IH]; intros s l bs fs cc Hown Hl Hfu; [lia|].
  cbn [ndflush_loop]. pose proof Hown as ((q & Hp & Hcc & Hby & Hq) & Hf & Hnd & Hv).
  apply wp_bind. eapply wp_rd_clist; [done|].
  assert (0 < zlen l) by (destruct l; [done|simpl; lia]).
  rewrite (proj2 (Z.eqb_neq (c_cc q) 0)) by lia. cbn [negb]. rewrite andb_true_r.
  destruct (Z.ltb_spec 0 cc); cycle 1.
  { apply wp_ret. exists q. split; [done|]. right. rewrite Z2Nat.nonpos by lia.
    split_and!; [lia|lia|by apply became_refl]. }
  assert (Hq' : qchain s (c_cf q) bs l (c_cl q)) by (by destruct l). clear Hq.
  destruct (qchain_head _ _ _ _ _ Hq') as (b & bs' & -> & Hcf).
  destruct (owns_blocks _ _ _ _ _ Hown) as [Hnd1 Hal1].
  pose proof (qchain_rem _ _ _ _ _ _ Hq' Hnd1 Hal1) as (Hrem & Hrb & Hiff & Hfull). cbv zeta in *.
  assert (Hal : aligned b) by (by inversion Hal1).
  rewrite (block_of_in b (c_cf q)) by (done || lia).
  set (rem := (if b =? block_of (c_cl q - 1) then c_cl q else b + CBLOCK) - c_cf q) in *.
  set (n := Z.to_nat rem). assert (Hn : rem = Z.of_nat n) by lia.
  destruct (Z.leb_spec rem cc).
  - destruct (qchain_pop _ _ _ _ _ _ n Hq') as [_ [(Hall & ->)|[(?&?&?)|(Hlt & Heq & b' & bs'' & -> & Hnb & Hq2)]]];
      [lia|lia|lia| | |].
    + assert (Hnx : c_next s !! b = Some 0) by (by destruct Hq' as (_ & ? & _)).
      assert (Hbf : b ∉ fs) by (apply NoDup_app in Hnd as (_&Hd&_); apply Hd; set_solver).
      apply wp_bind. eapply wp_load; [exact Hnx|]. apply wp_bind. eapply wp_wr_clist; [done|].
      apply wp_bind. eapply wp_free_block; [exact Hnx|by apply free_rep_clists|done|done|].
      intros s' Hfr Hcl' Hf'. destruct fuel as [|fuel]; [lia|]. cbn [ndflush_loop].
      assert (Hp' : clists s' !! p = Some (CL (c_cc q - rem) (info_of 0) (c_cl q)))
        by (rewrite Hcl'; simpl; by rewrite lookup_insert_eq).
      apply wp_bind. eapply wp_rd_clist; [done|]. cbn [c_cc].
      rewrite (proj2 (Z.eqb_eq (c_cc q - rem) 0)) by lia. rewrite andb_false_r. apply wp_ret.
      eexists. split; [exact Hp'|]. left. cbn [c_cc]. split_and!; [lia|lia|].
      exists [], (b :: fs). split_and!; [|done|].
      * eapply (owns_intro s _ _ (CL 0 0 0) _ _ _ ([b] ++ fs)); try done.
        -- eapply frame_weaken; [|exact Hfr]. set_solver.
        -- simpl. by rewrite lookup_insert_eq.
        -- by apply free_rep_clists.
      * apply moved_clists. split; [eapply frame_weaken; [|exact Hfr]; set_solver|].
        intros p' Hpp. rewrite Hcl'. simpl. by rewrite lookup_insert_ne.
    + destruct bs'; [|specialize (Hfull ltac:(done)); lia]. destruct Hiff as [_ Hiff].
      specialize (Hiff eq_refl). lia.
    + rewrite Hn. eapply (wp_drop_first s p q l b b' bs'' fs n); try done.
      intros s' Ho Hm _. eapply wp_mono; [apply (IH s' _ _ _ (cc - Z.of_nat n) Ho); [|lia]|].
      { intros E. destruct (drop_cons n l) as (? & ? & E'); [lia|congruence]. }
      intros _ s2 (q2 & Hp2 & Hcase). exists q2. split; [done|].
      rewrite length_drop in Hcase. destruct Hcase as [(?&?&Hb)|(?&?&Hb)].
      * left. split_and!; [lia|done|]. eapply became_trans; [apply drop_first_perm|done|done].
      * right. split_and!; [lia|done|]. rewrite drop_drop in Hb.
        replace (n + Z.to_nat (cc - Z.of_nat n))%nat with (Z.to_nat cc) in Hb by lia.
        eapply became_trans; [apply drop_first_perm|done|done].
  - rewrite (proj2 (Z.leb_gt (c_cc q - cc) 0)) by lia. apply wp_bind. eapply wp_wr_clist; [done|].
    apply wp_ret. eexists. split; [simpl; by rewrite lookup_insert_eq|]. right.
    split_and!; [lia|simpl; lia|].
    destruct (qchain_pop _ _ _ _ _ _ (Z.to_nat cc) Hq') as [_ [(?&_)|[(_&_&Hq2)|(?&?&_)]]]; [lia..| |lia].
    replace (c_cf q + Z.of_nat (Z.to_nat cc)) with (c_cf q + cc) in Hq2 by lia.
    replace (c_cc q - cc) with (zlen (drop (Z.to_nat cc) l)) by (rewrite length_drop; lia).
    eapply became_finish; try done; [|by apply Forall_drop].
    split_and!; [by apply qchain_open|done|done|done].
Qed.

Lemma ndflush_ok s p l bs fs cc :
  owns s p l bs fs → wp (ndflush p cc) (λ _ s', became s p bs fs (drop (Z.to_nat cc) l) s') s.
Proof.
  intros Hown. pose proof Hown as ((q & Hp & Hcc & _) & _). unfold ndflush.
  apply wp_bind. eapply wp_rd_clist; [done|]. destruct (Z.leb_spec (c_cc q) 0).
  { destruct l; [|simpl in *; lia]. rewrite drop_nil. apply wp_ret. by apply became_refl. }
  apply wp_bind. eapply wp_mono; [apply ndflush_loop_ok; [done| |lia]|].
  { intros ->. simpl in *. lia. }
  intros _ s' (q' & Hp' & [(Hge & Hc0 & Hb)|(Hlt & Hc0 & Hb)]); apply wp_bind; (eapply wp_rd_clist; [done|]).
  - rewrite (proj2 (Z.leb_le (c_cc q') 0)) by lia. eapply wp_wr_clist; [done|]. by rewrite drop_ge by lia.
  - rewrite (proj2 (Z.leb_gt (c_cc q') 0)) by lia. by apply wp_ret.
Qed.

Lemma ndqb_scan_ok s a l flag i (Q : Z → cstate → Prop) :
  chunk (c_info s) a l →
  (∀ n, (n ≤ length l)%nat → (∀ c, c ∈ take n l → Z.land (s8 c) flag = 0) →
     (∀ c, l !! n = Some c → Z.land (s8 c) flag ≠ 0) → Q (i + Z.of_nat n) s) →
  wp (ndqb_scan (length l) a flag i) Q s.
Proof.
  revert a i Q. induction l as [|c l IH]; intros a i Q Hch HQ; cbn [length ndqb_scan].
  - apply wp_ret. specialize (HQ 0%nat). rewrite Z.add_0_r in HQ. apply HQ; [done|set_solver|done].
  - apply (chunk_app _ _ [c] l) in Hch as [H1 H2].
    apply wp_bind. eapply wp_load; [specialize (H1 0%nat c eq_refl); by rewrite Z.add_0_r in H1|].
    destruct (Z.eqb_spec (Z.land (s8 c) flag) 0) as [Hz|Hz]; cbn [negb].
    + apply IH; [exact H2|]. intros n Hn Hall Hstop.
      replace (i + 1 + Z.of_nat n) with (i + Z.of_nat (S n)) by lia. apply HQ; [simpl; lia| |done].
      intros d. simpl. intros [->|Hd]%elem_of_cons; auto.
    + apply wp_ret. specialize (HQ 0%nat). rewrite Z.add_0_r in HQ. apply HQ; [lia|set_solver|].
      intros d [= <-]. done.
Qed.

(** The contiguous run at the head of the queue. *)
Definition run_at (s : cstate) (p n : Z) (l : list Z) : Prop :=
  ∃ q, clists s !! p = Some q ∧ 0 ≤ n ≤ zlen l ∧ chunk (c_info s) (c_cf q) (take (Z.to_nat n) l) ∧
    (l ≠ [] → 0 < n) ∧ (n < zlen l → at_boundary (c_cf q + n) = true).

Lemma ndqb_ok s p l bs fs flag :
  owns s p l bs fs →
  wp (ndqb p flag) (λ r s', s' = s ∧ ∃ n, run_at s p n l ∧ 0 ≤ r ≤ n ∧
       (flag = 0 → r = n) ∧
       (∀ c, c ∈ take (Z.to_nat r) l → flag ≠ 0 → Z.land (s8 c) flag = 0) ∧
       (∀ c, r < n → l !! Z.to_nat r = Some c → Z.land (s8 c) flag ≠ 0)) s.
Proof.
  intros Hown. pose proof Hown as ((q & Hp & Hcc & _ & Hq) & _). unfold ndqb.
  apply wp_bind. eapply wp_rd_clist; [done|].
  destruct l as [|c0 l0].
  { simpl in Hcc. ztest. rewrite Hcc. apply wp_ret. split; [done|]. exists 0.
    split_and!; try done; try lia; [|set_solver]. exists q. by split_and!. }
  set (l := c0 :: l0) in *. assert (Hl : 0 < zlen l) by (simpl; lia). clearbody l.
  ztest. destruct (qchain_head _ _ _ _ _ Hq) as (b & bs' & -> & Hcf).
  destruct (owns_blocks _ _ _ _ _ Hown) as [Hnd1 Hal1].
  assert (Hal : aligned b) by (by inversion Hal1).
  assert (Hb : Z.land (c_cf q + CBSIZE) (Z.lnot CROUND) = b + 32).
  { change (block_of (c_cf q + CBSIZE) = b + 32). unfold CBSIZE. apply block_of_in; [|lia].
    destruct Hal as [? Hm]. split; [lia|]. replace (b + 32) with (b + 1 * 32) by lia.
    by rewrite Z_mod_plus_full. }
  rewrite Hb. set (n := if c_cc q <? b + 32 - c_cf q then c_cc q else b + 32 - c_cf q).
  assert (Hn : n = Z.min (c_cc q) (b + 32 - c_cf q)) by (unfold n; destruct (Z.ltb_spec (c_cc q) (b + 32 - c_cf q)); lia).
  destruct (qchain_pop _ _ _ _ _ _ (Z.to_nat n) Hq) as [Hch _]; [lia..|].
  assert (Hrun : run_at s p n l).
  { exists q. split_and!; try done; try lia. intros Hlt. rewrite (at_boundary_in b) by (done || lia).
    apply Z.eqb_eq. lia. }
  destruct (Z.eqb_spec flag 0) as [->|Hfl].
  - apply wp_ret. split; [done|]. exists n. split_and!; try done; lia.
  - rewrite <- (length_take_le l (Z.to_nat n)) by lia. apply ndqb_scan_ok; [done|].
    intros k Hk Hall Hstop. rewrite length_take_le in Hk by lia. split; [done|]. exists n.
    rewrite Z.add_0_l, Nat2Z.id. rewrite take_take, Nat.min_l in Hall by lia.
    split_and!; try done; try lia; [auto|].
    intros c Hlt Hc. apply Hstop. rewrite lookup_take_lt by lia. done.
Qed.

(** The address of byte [i] of a chain that starts at [cf]. *)
Fixpoint addr_at (cf : Z) (bs : list Z) (i : Z) : Z :=
  match bs with
  | [] => 0
  | b :: bs' =>
      if i <? b + 32 - cf then cf + i
      else match bs' with [] => 0 | b' :: _ => addr_at (b' + 4) bs' (i - (b + 32 - cf)) end
  end.

Lemma addr_at_byte s cf bs l cl i c :
  qchain s cf bs l cl → l !! i = Some c → c_info s !! addr_at cf bs (Z.of_nat i) = Some c.
Proof.
  revert cf l i. induction bs as [|b bs IH]; intros cf l i; [done|]. cbn [qchain addr_at].
  intros [Hcf H] Hi. destruct bs as [|b' bs'].
  - destruct H as (_ & Hcl & Hlen & Hch). apply lookup_lt_Some in Hi as Hlt. ztest. by apply Hch.
  - destruct H as (_ & l1 & l2 & -> & Hlen & Hch & Hq).
    apply lookup_app_Some in Hi as [Hi|[Hge Hi]].
    + apply lookup_lt_Some in Hi as Hlt. ztest. by apply Hch.
    + ztest. specialize (IH _ _ _ Hq Hi). rewrite <- IH. do 2 f_equal. lia.
Qed.

(** [nextc] walks from byte [i] to byte [i + 1]. *)
Lemma nextc_chain s cf bs l cl i p q (Q : Z → cstate → Prop) :
  qchain s cf bs l cl → NoDup bs → Forall aligned bs → (i < length l)%nat →
  clists s !! p = Some q → c_cc q ≠ 0 → c_cl q = cl →
  Q (if Z.of_nat i + 1 <? zlen l then addr_at cf bs (Z.of_nat i + 1) else 0) s →
  wp (nextc p (addr_at cf bs (Z.of_nat i))) Q s.
Proof.
  intros Hq Hnd Hal Hi Hp Hcc Hcl HQ. unfold nextc. apply wp_bind. eapply wp_rd_clist; [done|].
  rewrite (proj2 (Z.eqb_neq _ _) Hcc), Hcl. cbn [negb andb]. clear Hcc Hcl.
  revert cf l i Hq Hi HQ. induction bs as [|b bs IH]; intros cf l i; [done|].
  cbn [qchain addr_at]. inversion Hal as [|?? Hab Hal']; subst. apply NoDup_cons in Hnd as [Hnin Hnd].
  specialize (IH Hnd Hal'). intros [Hcf H] Hi HQ. destruct bs as [|b' bs'].
  - destruct H as (_ & Hclr & Hlen & Hch). ztest.
    destruct (Z.eqb_spec (cf + Z.of_nat i + 1) cl) as [E|E]; cbn [negb].
    + rewrite (proj2 (Z.ltb_ge _ _)) in HQ by lia. by apply wp_ret.
    + rewrite (proj2 (Z.ltb_lt (_ + 1) (zlen l))) in HQ by lia.
      rewrite (proj2 (Z.ltb_lt (_ + 1) (b + 32 - cf))) in HQ by lia.
      rewrite (at_boundary_in b) by (done || lia). rewrite (proj2 (Z.eqb_neq _ (b + 32))) by lia.
      apply wp_ret. by rewrite <- Z.add_assoc.
  - destruct H as (Hnx & l1 & l2 & -> & Hlen & Hch & Hq).
    pose proof (qchain_nonempty _ _ _ _ _ Hq) as Hne. rewrite length_app in *.
    destruct (qchain_last_block _ _ _ _ _ Hq) as (bl & Hlast & Hclr).
    assert (Hblin : bl ∈ b' :: bs') by (apply last_Some in Hlast as [? ->]; set_solver).
    assert (Habl : aligned bl) by (rewrite Forall_forall in Hal'; auto).
    destruct (Z.ltb_spec (Z.of_nat i) (b + 32 - cf)) as [Hlt|Hge].
    + assert (cf + Z.of_nat i + 1 ≠ cl).
      { intros E. apply Hnin. rewrite <- (aligned_apart bl b (cl - 1)); [done|done|done|lia|lia]. }
      rewrite (proj2 (Z.eqb_neq _ cl)) by done. cbn [negb].
      rewrite (proj2 (Z.ltb_lt (_ + 1) (Z.of_nat _))) in HQ by lia.
      rewrite (at_boundary_in b) by (done || lia). destruct (Z.eqb_spec (cf + Z.of_nat i + 1) (b + 32)) as [E|E].
      * unfold CBLOCK. replace (cf + Z.of_nat i + 1 - 32) with b by lia.
        apply wp_bind. eapply wp_load; [exact Hnx|]. apply wp_ret. unfold info_of.
        rewrite (proj2 (Z.ltb_ge (Z.of_nat i + 1) (b + 32 - cf))) in HQ by lia.
        replace (Z.of_nat i + 1 - (b + 32 - cf)) with 0 in HQ by lia.
        cbn [addr_at] in HQ. rewrite (proj2 (Z.ltb_lt 0 (b' + 32 - (b' + 4)))), Z.add_0_r in HQ by lia. done.
      * apply wp_ret. rewrite (proj2 (Z.ltb_lt (Z.of_nat i + 1) (b + 32 - cf))) in HQ by lia.
        by rewrite <- Z.add_assoc.
    + replace (Z.of_nat i - (b + 32 - cf)) with (Z.of_nat (i - length l1)) by lia.
      apply (IH _ l2); [done|lia|].
      rewrite (proj2 (Z.ltb_ge (Z.of_nat i + 1) (b + 32 - cf))) in HQ by lia.
      replace (Z.of_nat i + 1 - (b + 32 - cf)) with (Z.of_nat (i - length l1) + 1) in HQ by lia.
      destruct (Z.ltb_spec (Z.of_nat (i - length l1) + 1) (zlen l2));
        [rewrite (proj2 (Z.ltb_lt (_ + 1) (Z.of_nat _))) in HQ by lia
        |rewrite (proj2 (Z.ltb_ge (_ + 1) (Z.of_nat _))) in HQ by lia]; done.
Qed.

(** ** All queues together

    The queues [m] and the free list share out the blocks of [pool]: every
    block belongs to exactly one of them. *)
Definition inv (pool : gset Z) (s : cstate) (m : gmap Z (list Z)) : Prop :=
  ∃ (bm : gmap Z (list Z)) fs,
    (∀ p, is_Some (bm !! p) ↔ is_Some (m !! p)) ∧
    (∀ p l bs, m !! p = Some l → bm !! p = Some bs →
       ∃ q, clists s !! p = Some q ∧ qrep s q l bs) ∧
    free_rep s fs ∧ NoDup fs ∧
    (∀ p bs, bm !! p = Some bs → NoDup bs ∧ bs ## fs) ∧
    (∀ p p' bs bs', p ≠ p' → bm !! p = Some bs → bm !! p' = Some bs' → bs ## bs') ∧
    (∀ b, b ∈ pool ↔ b ∈ fs ∨ ∃ p bs, bm !! p = Some bs ∧ b ∈ bs) ∧
    (∀ b, b ∈ pool → valid_block s b).

Lemma qrep_frame s s' q l bs fb :
  (∀ b, b ∈ bs → aligned b) → (∀ b, b ∈ fb → aligned b) → (∀ b, b ∈ bs → b ∉ fb) →
  frame fb s s' → qrep s q l bs → qrep s' q l bs.
Proof.
  intros Ha Hfa Hd Hfr (Hcc & Hby & H). split_and!; try done. destruct l; [done|].
  by eapply (qchain_frame s).
Qed.

(** What one operation does to its own queue, it does to the whole. *)
Lemma inv_owns pool s m p l :
  inv pool s m → m !! p = Some l →
  ∃ bs fs, owns s p l bs fs ∧ cfreecount s = CBSIZE * zlen fs ∧
    ∀ s' l', became s p bs fs l' s' → inv pool s' (<[p := l']> m).
Proof.
  intros (bm & fs & Hdom & Hq & Hf & Hndf & Hnd & Hdis & Hpool & Hval) Hp.
  destruct (proj2 (Hdom p) ltac:(eauto)) as [bs Hbs].
  destruct (Hnd _ _ Hbs) as [Hndb Hbf].
  assert (Hin : ∀ b, b ∈ bs ++ fs → b ∈ pool).
  { intros b [Hb|Hb]%elem_of_app; apply Hpool; eauto 6. }
  assert (Hndall : NoDup (bs ++ fs)) by (apply NoDup_app; split_and!; [done|set_solver|done]).
  exists bs, fs. split_and!.
  - split_and!; [by eapply Hq|done|done|]. apply Forall_forall. auto.
  - apply Hf.
  - intros s' l' (bs' & fs' & ((q' & Hp' & Hq') & Hf' & Hnd' & Hv') & HP & [Hfr Hcl]).
    assert (Hmem : ∀ b, b ∈ bs' ∨ b ∈ fs' ↔ b ∈ bs ∨ b ∈ fs).
    { intros b. rewrite <- !elem_of_app. by rewrite HP. }
    exists (<[p := bs']> bm), fs'. apply NoDup_app in Hnd' as (Hn1 & Hn2 & Hn3). split_and!; try done.
    + intros p'. destruct (decide (p = p')) as [<-|]; [rewrite !lookup_insert_eq; by split; eauto|].
      by rewrite !lookup_insert_ne by done.
    + intros p' l1 bs1. destruct (decide (p = p')) as [<-|].
      { rewrite !lookup_insert_eq. intros; simplify_eq. eauto. }
      rewrite !lookup_insert_ne by done. intros Hl1 Hb1. rewrite Hcl by done.
      destruct (Hq _ _ _ Hl1 Hb1) as (q1 & ? & Hq1). exists q1. split; [done|].
      eapply qrep_frame; [| | |exact Hfr|done].
      * intros b Hb. apply Hval, Hpool. eauto 6.
      * intros b Hb. apply Hval. auto.
      * intros b Hb [Hb'|Hb']%elem_of_app.
        -- by apply (Hdis p p' bs bs1 ltac:(done) Hbs Hb1 b).
        -- by apply (proj2 (Hnd _ _ Hb1) b).
    + intros p' bs1. destruct (decide (p = p')) as [<-|].
      { rewrite lookup_insert_eq. intros; simplify_eq. split; [done|]. intros b ??. by apply (Hn2 b). }
      rewrite lookup_insert_ne by done. intros Hb1. destruct (Hnd _ _ Hb1) as [? Hd1]. split; [done|].
      intros b Hb1' Hb2. destruct (proj1 (Hmem b) (or_intror Hb2)) as [Hb3|Hb3].
      * by apply (Hdis p p' bs bs1 ltac:(done) Hbs Hb1 b).
      * by apply (Hd1 b).
    + assert (Hd1 : ∀ p' bs1, p ≠ p' → bm !! p' = Some bs1 → bs' ## bs1).
      { intros p' bs1 Hpp Hb1 b Hb2 Hb3. destruct (proj1 (Hmem b) (or_introl Hb2)) as [Hb4|Hb4].
        - by apply (Hdis p p' bs bs1 ltac:(done) Hbs Hb1 b).
        - by apply (proj2 (Hnd _ _ Hb1) b). }
      intros p1 p2 bs1 bs2 Hpp. destruct (decide (p = p1)) as [<-|], (decide (p = p2)) as [<-|]; try done.
      * rewrite lookup_insert_eq, lookup_insert_ne by done. intros; simplify_eq. eauto.
      * rewrite lookup_insert_eq, lookup_insert_ne by done. intros ?? b ??; simplify_eq. eapply (Hd1 p1); eauto.
      * rewrite !lookup_insert_ne by done. eauto.
    + intros b. rewrite Hpool. split.
      * intros [Hb|(p1 & bs1 & Hp1 & Hb)].
        -- destruct (proj2 (Hmem b) (or_intror Hb)); [right; exists p, bs'; by rewrite lookup_insert_eq|by left].
        -- destruct (decide (p = p1)) as [<-|]; simplify_eq.
           ++ destruct (proj2 (Hmem b) (or_introl Hb)); [right; exists p, bs'; by rewrite lookup_insert_eq|by left].
           ++ right. exists p1, bs1. by rewrite lookup_insert_ne.
      * intros [Hb|(p1 & bs1 & Hp1 & Hb)].
        -- destruct (proj1 (Hmem b) (or_intror Hb)); [right; eauto|by left].
        -- destruct (decide (p = p1)) as [<-|].
           ++ rewrite lookup_insert_eq in Hp1. simplify_eq.
              destruct (proj1 (Hmem b) (or_introl Hb)); [right; eauto|by left].
           ++ rewrite lookup_insert_ne in Hp1 by done. right. eauto.
    + intros b Hb. destruct Hfr as (_&_&V). auto.
Qed.

Lemma qchain_same s s' cf bs l cl :
  c_next s' = c_next s → c_info s' = c_info s → qchain s cf bs l cl → qchain s' cf bs l cl.
Proof.
  intros Hn Hi. revert cf l. induction bs as [|b bs IH]; intros cf l; [done|]. cbn [qchain].
  intros [Hcf H]. rewrite Hn, Hi. split; [done|]. destruct bs as [|b' bs']; [done|].
  destruct H as (? & l1 & l2 & ? & ? & ? & ?). split; [done|]. exists l1, l2.
  do 3 (split; [done|]). by apply IH.
Qed.

Lemma qrep_same s s' q l bs :
  c_next s' = c_next s → c_info s' = c_info s → qrep s q l bs → qrep s' q l bs.
Proof. intros Hn Hi (?&?&H). split_and!; try done. destruct l; [done|]. by eapply qchain_same. Qed.

(** [*to = *from] and clearing [from]. *)
Lemma inv_transfer pool s m from to l qf :
  inv pool s m → from ≠ to → m !! from = Some l → m !! to = Some [] → clists s !! from = Some qf →
  inv pool (set_clists s (<[from := CL 0 0 0]> (<[to := qf]> (clists s)))) (<[from := []]> (<[to := l]> m)).
Proof.
  intros (bm & fs & Hdom & Hq & Hf & Hndf & Hnd & Hdis & Hpool & Hval) Hne Hfrom Hto Hqf.
  destruct (proj2 (Hdom from) ltac:(eauto)) as [bs Hbs].
  destruct (proj2 (Hdom to) ltac:(eauto)) as [bt Hbt].
  assert (bt = []) as -> by (destruct (Hq _ _ _ Hto Hbt) as (?&?&_&_&_&_&?); done).
  destruct (Hq _ _ _ Hfrom Hbs) as (qf' & ? & Hqr). simplify_eq.
  exists (<[from := []]> (<[to := bs]> bm)), fs. split_and!; try done.
  - intros p. destruct (decide (from = p)) as [<-|]; [rewrite !lookup_insert_eq; by split; eauto|].
    rewrite !(lookup_insert_ne _ from) by done.
    destruct (decide (to = p)) as [<-|]; [rewrite !lookup_insert_eq; by split; eauto|].
    by rewrite !lookup_insert_ne by done.
  - intros p l1 bs1. simpl. destruct (decide (from = p)) as [<-|].
    { rewrite !lookup_insert_eq. intros; simplify_eq. eexists. by split. }
    rewrite !(lookup_insert_ne _ from) by done. destruct (decide (to = p)) as [<-|].
    { rewrite !lookup_insert_eq. intros; simplify_eq. eexists. split; [done|]. by apply (qrep_same s). }
    rewrite !lookup_insert_ne by done. intros Hl1 Hb1. destruct (Hq _ _ _ Hl1 Hb1) as (q1 & ? & ?).
    exists q1. split; [done|]. by apply (qrep_same s).
  - by apply free_rep_clists.
  - intros p bs1 [[<- <-]|[Hp [[<- <-]|[Hp' Hb]]%lookup_insert_Some]]%lookup_insert_Some; eauto.
  - assert (Hd1 : ∀ p bs1, p ≠ from → bm !! p = Some bs1 → bs ## bs1).
    { intros p bs1 Hp Hb. by apply (Hdis from p). }
    intros p1 p2 bs1 bs2 Hpp [[<- <-]|[Hp1 [[<- <-]|[Hp1' Hb1]]%lookup_insert_Some]]%lookup_insert_Some
      [[<- <-]|[Hp2 [[<- <-]|[Hp2' Hb2]]%lookup_insert_Some]]%lookup_insert_Some; try done; eauto;
      try set_solver.
  - intros b. rewrite Hpool. split.
    + intros [?|(p & bs1 & Hp & Hb)]; [by left|]. right.
      destruct (decide (p = from)) as [->|]; simplify_eq.
      * exists to, bs. by rewrite lookup_insert_ne, lookup_insert_eq.
      * destruct (decide (p = to)) as [->|]; simplify_eq; [set_solver|].
        exists p, bs1. by rewrite !lookup_insert_ne.
    + intros [?|(p & bs1 & [[<- <-]|[Hp [[<- <-]|[Hp' Hb]]%lookup_insert_Some]]%lookup_insert_Some & Hb1)];
        [by left|set_solver|right; eauto|right; eauto].
Qed.

(** Number of bytes a chain holds, from its end points. *)
Lemma qchain_size s cf b bs l cl :
  qchain s cf (b :: bs) l cl → Forall aligned (b :: bs) →
  zlen l = CBSIZE * zlen (b :: bs) - (cf - b - 4) - (block_of (cl - 1) + 32 - cl).
Proof.
  revert cf b l. induction bs as [|b' bs IH]; intros cf b l.
  - cbn [qchain]. intros (Hcf & _ & Hcl & Hlen & _) Hal. inversion Hal; subst.
    rewrite (block_of_in b) by (done || lia). unfold CBSIZE. simpl. lia.
  - intros (Hcf & _ & l1 & l2 & -> & Hlen & _ & Hq) Hal. inversion Hal; subst.
    specialize (IH _ _ _ Hq ltac:(done)). unfold CBSIZE in *. rewrite length_app. cbn [length] in *. lia.
Qed.

(** Taking [4 * CBSIZE] bytes (or all of them) out of a clist frees at least
    as much room as they need in another. *)
Lemma drained_room s p l bs fs s' bs' fs' :
  let n := Z.to_nat (CBSIZE * 4) in
  owns s p l bs fs → owns s' p (drop n l) bs' fs' → bs' ++ fs' ≡ₚ bs ++ fs →
  (CBSIZE * 4 < zlen l → c_cl <$> clists s' !! p = c_cl <$> clists s !! p) →
  zlen (take n l) ≤ CBSIZE * zlen fs'.
Proof.
  intros n Ho Ho' HP Hcl. apply Permutation_length in HP. rewrite !length_app in HP.
  destruct (owns_blocks _ _ _ _ _ Ho) as [_ Hal], (owns_blocks _ _ _ _ _ Ho') as [_ Hal'].
  destruct (owns_cases _ _ _ _ _ Ho) as (q & Hp & Hcc & _ & [(-> & _)|(_ & Hq & _)]).
  { rewrite take_nil. unfold CBSIZE. cbn [length]. lia. }
  destruct (qchain_head _ _ _ _ _ Hq) as (b & bs1 & -> & Hcf).
  pose proof (qchain_size _ _ _ _ _ _ Hq Hal) as Hsz.
  destruct (qchain_last_block _ _ _ _ _ Hq) as (bl & Hlast & Hr).
  assert (aligned bl).
  { rewrite Forall_forall in Hal. apply Hal. apply last_Some in Hlast as [? ->]. set_solver. }
  rewrite (block_of_in bl) in Hsz by (done || lia). rewrite length_take. unfold n, CBSIZE in *.
  destruct (owns_cases _ _ _ _ _ Ho') as (q' & Hp' & _ & _ & [(Hnil & -> & _)|(_ & Hq' & _)]).
  { apply (f_equal length) in Hnil. rewrite length_drop in Hnil. cbn [length] in *. lia. }
  destruct (qchain_head _ _ _ _ _ Hq') as (b' & bs2 & -> & Hcf').
  pose proof (qchain_nonempty _ _ _ _ _ Hq') as Hne. rewrite length_drop in Hne.
  pose proof (qchain_size _ _ _ _ _ _ Hq' Hal') as Hsz'. rewrite length_drop in Hsz'.
  rewrite Hp, Hp' in Hcl. cbn in Hcl. specialize (Hcl ltac:(lia)). injection Hcl as Hcl.
  rewrite Hcl, (block_of_in bl) in Hsz' by (done || lia). unfold CBSIZE in *. cbn [length] in *. lia.
Qed.

Lemma inv_wp {A} pool s m p l (o : M cstate A) (R : A → list Z → cstate → Prop) (Q : A → cstate → Prop) :
  inv pool s m → m !! p = Some l →
  (∀ bs fs, owns s p l bs fs → cfreecount s = CBSIZE * zlen fs →
     wp o (λ r s', ∃ l', became s p bs fs l' s' ∧ R r l' s') s) →
  (∀ r l' s', inv pool s' (<[p := l']> m) → R r l' s' → Q r s') →
  wp o Q s.
Proof.
  intros Hi Hp Ho HQ. destruct (inv_owns _ _ _ _ _ Hi Hp) as (bs & fs & Hown & Hc & Hlift).
  eapply wp_mono; [by apply Ho|]. cbv beta. intros r s' (l' & Hb & HR). eauto.
Qed.

Lemma getc_inv pool s m p l :
  inv pool s m → m !! p = Some l →
  wp (getc p) (λ r s', r = default (-1) (head l) ∧ inv pool s' (<[p := tail l]> m)) s.
Proof.
  intros Hi Hp. apply (inv_wp pool s m p l _ (λ r l' _, r = default (-1) (head l) ∧ l' = tail l)); try done.
  - intros bs fs Hown _. eapply wp_mono; [by apply getc_ok|]. naive_solver.
  - naive_solver.
Qed.

Lemma q_to_b_inv pool s m p l cc :
  inv pool s m → m !! p = Some l →
  wp (q_to_b p cc)
     (λ r s', r = take (Z.to_nat cc) l ∧ inv pool s' (<[p := drop (Z.to_nat cc) l]> m) ∧
        (cc = CBSIZE * 4 → zlen r ≤ cfreecount s')) s.
Proof.
  intros Hi Hp. apply (inv_wp pool s m p l _
    (λ r l' s', r = take (Z.to_nat cc) l ∧ l' = drop (Z.to_nat cc) l ∧ (cc = CBSIZE * 4 → zlen r ≤ cfreecount s'))); try done.
  - intros bs fs Hown _. eapply wp_mono; [by apply q_to_b_ok|]. cbv beta. intros r s' (-> & Hb & Hcl).
    eexists. split_and!; [exact Hb|done|done|]. intros ->.
    destruct Hb as (bs' & fs' & Hown' & HP & _). destruct Hown' as (H1 & [Hf Hc] & H2).
    rewrite Hc. eapply drained_room; [exact Hown| |exact HP|exact Hcl]. done.
  - naive_solver.
Qed.

Lemma b_to_q_inv pool s m p l x :
  inv pool s m → m !! p = Some l →
  wp (b_to_q x p)
     (λ k s', ∃ n, (n ≤ length x)%nat ∧ k = zlen x - Z.of_nat n ∧
        inv pool s' (<[p := l ++ (u8 <$> take n x)]> m) ∧
        (zlen x ≤ cfreecount s → k = 0) ∧ (0 < k → cfreelist s' = 0)) s.
Proof.
  intros Hi Hp. apply (inv_wp pool s m p l _
    (λ k l' s', ∃ n, (n ≤ length x)%nat ∧ k = zlen x - Z.of_nat n ∧ l' = l ++ (u8 <$> take n x) ∧
       (zlen x ≤ cfreecount s → k = 0) ∧ (0 < k → cfreelist s' = 0))); try done.
  - intros bs fs Hown Hc. eapply wp_mono; [by apply b_to_q_ok|]. cbv beta.
    intros k s' (y & Hk & Hy & Hkeq & Hb & Hful). eexists. split; [exact Hb|]. exists (length y).
    assert (length y ≤ length x)%nat by (rewrite <- Hy, length_app; lia).
    split_and!; try done.
    + do 2 f_equal. rewrite <- Hy at 1. by rewrite take_app_length.
    + intros Hle. destruct (decide (0 < k)) as [Hpos|]; [|lia]. destruct (Hful Hpos). lia.
    + intros Hpos. by destruct (Hful Hpos).
  - naive_solver.
Qed.

Lemma catq_loop_ok fuel pool s m from to lf lt :
  inv pool s m → from ≠ to → m !! from = Some lf → m !! to = Some lt → (length lf < fuel)%nat →
  wp (catq_loop fuel from to) (λ _ s', inv pool s' (<[from := []]> (<[to := lt ++ lf]> m))) s.
Proof.
  revert s m lf lt. induction fuel as [|fuel IH]; intros s m lf lt Hi Hne Hf Ht Hfu; [lia|].
  cbn [catq_loop]. destruct (inv_owns _ _ _ _ _ Hi Hf) as (bs & fs & ((q & Hp & Hcc & Hby & _) & _) & _).
  apply wp_bind. eapply wp_rd_clist; [done|]. destruct (Z.ltb_spec 0 (c_cc q)); cycle 1.
  { destruct lf; [|simpl in *; lia]. apply wp_ret. rewrite app_nil_r.
    rewrite (insert_id m to) by done. by rewrite insert_id. }
  apply wp_bind. eapply wp_mono; [by apply q_to_b_inv|]. cbv beta. intros x s1 (-> & Hi1 & Hroom).
  specialize (Hroom eq_refl). set (n := Z.to_nat (CBSIZE * 4)) in *.
  apply wp_bind. eapply wp_mono; [eapply (b_to_q_inv _ _ _ to lt); [exact Hi1|by rewrite lookup_insert_ne]|].
  cbv beta. intros k s2 (j & Hj & Hk & Hi2 & Hfit & _). specialize (Hfit Hroom).
  rewrite take_ge in Hi2 by lia.
  assert (Hid : u8 <$> take n lf = take n lf).
  { transitivity (id <$> take n lf); [|apply list_fmap_id]. apply list_fmap_ext. intros i c Hc.
    apply u8_id. apply lookup_take_Some in Hc as [Hc _]. rewrite Forall_lookup in Hby. by eapply Hby. }
  rewrite Hid in Hi2. rewrite insert_insert_ne in Hi2 by done.
  eapply wp_mono; [apply (IH _ _ (drop n lf) (lt ++ take n lf) Hi2 Hne)|].
  - by rewrite lookup_insert_eq.
  - by rewrite lookup_insert_ne, lookup_insert_eq.
  - rewrite length_drop. unfold n, CBSIZE. lia.
  - cbv beta. intros _ s3 Hi3. rewrite <- app_assoc, take_drop in Hi3.
    by rewrite (insert_insert_ne _ to from), !insert_insert_eq in Hi3 by done.
Qed.

Lemma catq_ok pool s m from to lf lt :
  inv pool s m → from ≠ to → m !! from = Some lf → m !! to = Some lt →
  wp (catq from to) (λ _ s', inv pool s' (<[from := []]> (<[to := lt ++ lf]> m))) s.
Proof.
  intros Hi Hne Hf Ht. unfold catq.
  destruct (inv_owns _ _ _ _ _ Hi Hf) as (bs & fs & ((q & Hp & Hcc & _) & _) & _).
  destruct (inv_owns _ _ _ _ _ Hi Ht) as (bs' & fs' & ((q' & Hp' & Hcc' & _) & _) & _).
  apply wp_bind. eapply wp_rd_clist; [done|]. apply wp_bind. eapply wp_rd_clist; [done|].
  destruct (Z.eqb_spec (c_cc q') 0).
  - destruct lt; [|simpl in *; lia].
    apply wp_bind. eapply wp_wr_clist; [done|].
    apply wp_bind. eapply wp_rd_clist; [simpl; by rewrite lookup_insert_ne|].
    eapply wp_wr_clist; [simpl; by rewrite lookup_insert_ne|]. exact (inv_transfer _ _ _ _ _ _ _ Hi Hne Hf Ht Hp).
  - eapply catq_loop_ok; try done. lia.
Qed.

(** ** The abstract queues and the refinement *)

Inductive op :=
| OGetc (p : Z)
| OPutc (c p : Z)
| OUnputc (p : Z)
| OQtoB (p cc : Z)
| OBtoQ (x : list Z) (p : Z)
| OFlush (p cc : Z)
| OCat (from to : Z).

(** An operation of the code; its results as a list of numbers. *)
Definition run (o : op) : M cstate (list Z) :=
  match o with
  | OGetc p => r ← getc p; mret [r]
  | OPutc c p => r ← putc c p; mret [r]
  | OUnputc p => r ← unputc p; mret [r]
  | OQtoB p cc => q_to_b p cc
  | OBtoQ x p => k ← b_to_q x p; mret [k]
  | OFlush p cc => ndflush p cc;; mret []
  | OCat from to => catq from to;; mret []
  end.

(** What the operations mean for unbounded byte queues [m], when [free] bytes
    of blocks are free. *)
Inductive qstep (free : Z) (m : gmap Z (list Z)) : op → list Z → gmap Z (list Z) → Prop :=
| q_getc p l : m !! p = Some l →
    qstep free m (OGetc p) [default (-1) (head l)] (<[p := tail l]> m)
| q_putc c p l : m !! p = Some l →
    qstep free m (OPutc c p) [0] (<[p := l ++ [u8 c]]> m)
| q_putc_full c p : free = 0 → qstep free m (OPutc c p) [-1] m
| q_unputc p l c : m !! p = Some (l ++ [c]) →
    qstep free m (OUnputc p) [s8 c] (<[p := l]> m)
| q_unputc_empty p : m !! p = Some [] → qstep free m (OUnputc p) [-1] m
| q_q_to_b p cc l : m !! p = Some l →
    qstep free m (OQtoB p cc) (take (Z.to_nat cc) l) (<[p := drop (Z.to_nat cc) l]> m)
| q_b_to_q x p n l : m !! p = Some l → (n ≤ length x)%nat → (zlen x ≤ free → n = length x) →
    qstep free m (OBtoQ x p) [zlen x - Z.of_nat n] (<[p := l ++ (u8 <$> take n x)]> m)
| q_flush p cc l : m !! p = Some l →
    qstep free m (OFlush p cc) [] (<[p := drop (Z.to_nat cc) l]> m)
| q_cat from to lf lt : m !! from = Some lf → m !! to = Some lt →
    qstep free m (OCat from to) [] (<[from := []]> (<[to := lt ++ lf]> m)).

(** The operation names queues that exist ([catq] needs two different ones). *)
Definition op_ok (m : gmap Z (list Z)) (o : op) : Prop :=
  match o with
  | OGetc p | OPutc _ p | OUnputc p | OQtoB p _ | OBtoQ _ p | OFlush p _ => is_Some (m !! p)
  | OCat from to => from ≠ to ∧ is_Some (m !! from) ∧ is_Some (m !! to)
  end.

Lemma inv_id pool s m p l : m !! p = Some l → inv pool s (<[p := l]> m) → inv pool s m.
Proof. intros Hp. by rewrite insert_id. Qed.

Lemma run_simulates pool s m o :
  inv pool s m → op_ok m o →
  wp (run o) (λ out s', ∃ m', qstep (cfreecount s) m o out m' ∧ inv pool s' m') s.
Proof.
  intros Hi Hok. destruct o as [p|c p|p|p cc|x p|p cc|from to]; simpl in *;
    try (destruct Hok as [l Hp]).
  - apply wp_bind. eapply wp_mono; [by apply getc_inv|]. cbv beta. intros r s' [-> Hi'].
    apply wp_ret. eexists. split; [by constructor|done].
  - apply wp_bind. apply (inv_wp pool s m p l _
      (λ r l' _, (r = 0 ∧ l' = l ++ [u8 c]) ∨ (r = -1 ∧ cfreecount s = 0 ∧ l' = l))); try done.
    + intros bs fs Hown Hc. eapply wp_mono; [by apply putc_ok|]. cbv beta.
      intros r s' [[-> Hb]|(-> & -> & Hb)]; eexists; (split; [exact Hb|]); [by left|right].
      split_and!; try done.
    + intros r l' s' Hi' [[-> ->]|(-> & H0 & ->)]; apply wp_ret.
      * eexists. split; [by constructor|done].
      * exists m. split; [by constructor|]. by eapply inv_id.
  - apply wp_bind. apply (inv_wp pool s m p l _
      (λ r l' _, match last l with None => r = -1 ∧ l' = l | Some c => r = s8 c ∧ l' = removelast l end)); try done.
    + intros bs fs Hown Hc. eapply wp_mono; [by apply unputc_ok|]. cbv beta.
      intros r s'. destruct (last l); [|intros [-> ->]; exists l; split; [by apply became_refl|done]].
      intros [-> Hb]. eexists. split; [exact Hb|done].
    + intros r l' s' Hi'. destruct l as [|c l _] using rev_ind.
      { intros [-> ->]. apply wp_ret. exists m. split; [by constructor|]. by eapply inv_id. }
      rewrite last_snoc, removelast_last. intros [-> ->]. apply wp_ret. eexists.
      split; [by eapply q_unputc|done].
  - eapply wp_mono; [by apply q_to_b_inv|]. cbv beta. intros r s' (-> & Hi' & _).
    eexists. split; [by constructor|done].
  - apply wp_bind. eapply wp_mono; [by apply b_to_q_inv|]. cbv beta. intros k s' (n & Hn & -> & Hi' & Hfit & _).
    apply wp_ret. eexists. split; [|exact Hi']. constructor; [done|done|]. intros Hle. specialize (Hfit Hle). lia.
  - apply wp_bind. apply (inv_wp pool s m p l _ (λ _ l' _, l' = drop (Z.to_nat cc) l)); try done.
    + intros bs fs Hown Hc. eapply wp_mono; [by apply ndflush_ok|]. cbv beta. eauto.
    + intros _ l' s' Hi' ->. apply wp_ret. eexists. split; [by constructor|done].
  - rename l into Hne. destruct Hp as ([lf Hf] & [lt Ht]). apply wp_bind.
    eapply wp_mono; [by apply catq_ok|]. cbv beta. intros _ s' Hi'. apply wp_ret.
    eexists. split; [by constructor|done].
Qed.

(** Code and queues executing the same operations. *)
Inductive lockstep : cstate → gmap Z (list Z) → list op → cstate → gmap Z (list Z) → Prop :=
| lock_nil s m : lockstep s m [] s m
| lock_cons s m o os out s1 m1 s2 m2 :
    run o s = Ret out s1 → qstep (cfreecount s) m o out m1 →
    lockstep s1 m1 os s2 m2 → lockstep s m (o :: os) s2 m2.

Lemma qstep_dom free m o out m' p : qstep free m o out m' → is_Some (m' !! p) ↔ is_Some (m !! p).
Proof.
  assert (Hins : ∀ (m : gmap Z (list Z)) q l l', m !! q = Some l → is_Some (<[q := l']> m !! p) ↔ is_Some (m !! p)).
  { intros m1 q l l' Hq. destruct (decide (q = p)) as [<-|]; [rewrite lookup_insert_eq, Hq; split; eauto|].
    by rewrite lookup_insert_ne. }
  destruct 1 as [|?|?|?|?|?|?|?|from to lf lt Hf Ht]; try done; try (by eapply Hins).
  destruct (decide (from = p)) as [<-|]; [rewrite lookup_insert_eq, Hf; split; eauto|].
  rewrite lookup_insert_ne by done. by eapply Hins.
Qed.

Lemma op_ok_dom m m' o : (∀ p, is_Some (m' !! p) ↔ is_Some (m !! p)) → op_ok m o → op_ok m' o.
Proof. intros H. destruct o; simpl; rewrite ?H; naive_solver. Qed.

Lemma run_ops_lockstep pool s m os :
  inv pool s m → Forall (op_ok m) os → ∃ s' m', lockstep s m os s' m' ∧ inv pool s' m'.
Proof.
  revert s m. induction os as [|o os IH]; intros s m Hi Hok.
  { exists s, m. split; [constructor|done]. }
  inversion Hok as [|?? H1 H2]; subst.
  destruct (proj1 (wp_run _ _ _) (run_simulates _ _ _ _ Hi H1)) as (out & s1 & Hr & m1 & Hq & Hi1).
  destruct (IH s1 m1 Hi1) as (s' & m' & Hl & Hi').
  { eapply Forall_impl; [exact H2|]. intros o'. apply op_ok_dom. intros p. by eapply qstep_dom. }
  exists s', m'. split; [by econstructor|done].
Qed.

(** With every queue empty, all blocks are free again. *)
Lemma inv_drained pool s m :
  inv pool s m → (∀ p l, m !! p = Some l → l = []) → cfreecount s = CBSIZE * Z.of_nat (size pool).
Proof.
  intros (bm & fs & Hdom & Hq & [_ Hc] & Hndf & _ & _ & Hpool & _) Hempty.
  rewrite Hc. do 2 f_equal. rewrite <- (size_list_to_set (C := gset Z) fs) by done. f_equal.
  apply set_eq. intros b. rewrite elem_of_list_to_set, Hpool. split; [by left|].
  intros [?|(p & bs & Hbs & Hb)]; [done|]. destruct (proj1 (Hdom p) ltac:(eauto)) as [l Hl].
  destruct (Hq _ _ _ Hl Hbs) as (q & _ & _ & _ & H). rewrite (Hempty _ _ Hl) in H.
  destruct H as (_ & _ & ->). set_solver.
Qed.

(** ** Building the free list *)

Lemma inv_add pool s m b (Q : unit → cstate → Prop) :
  inv pool s m → b ∉ pool → valid_block s b →
  (∀ s', inv ({[b]} ∪ pool) s' m → (∀ b', valid_block s b' → valid_block s' b') → Q tt s') →
  wp (put_block b) Q s.
Proof.
  intros (bm & fs & Hdom & Hq & Hf & Hndf & Hnd & Hdis & Hpool & Hval) Hb Hvb HQ.
  assert (Hbfs : b ∉ fs) by (intros ?; apply Hb, Hpool; by left).
  assert (Hbbm : ∀ p bs, bm !! p = Some bs → b ∉ bs) by (intros p bs ??; apply Hb, Hpool; eauto).
  pose proof Hvb as (Hal & [n Hn] & _). eapply wp_put_block; [exact Hn|done|done|done|].
  intros s' Hfr Hcl Hi Hf'. apply HQ; [|apply Hfr].
  exists bm, (b :: fs). split_and!; try done.
  - intros p l bs Hl Hbs. rewrite Hcl. destruct (Hq _ _ _ Hl Hbs) as (q & Hp & Hqr). exists q.
    split; [done|]. eapply (qrep_frame s _ _ _ _ [b]); [|set_solver| |exact Hfr|done].
    + intros b' Hb'. apply Hval, Hpool. eauto.
    + intros b' Hb' ->%list_elem_of_singleton. by eapply Hbbm.
  - constructor; done.
  - intros p bs Hbs. destruct (Hnd _ _ Hbs) as [? Hd]. split; [done|].
    intros x Hx [->|Hx']%elem_of_cons; [by eapply Hbbm|by apply (Hd x)].
  - intros x. rewrite elem_of_union, elem_of_singleton, Hpool, elem_of_cons. tauto.
  - intros x [->%elem_of_singleton|Hx]%elem_of_union; apply Hfr; [done|auto].
Qed.

Lemma cfree_array_lookup cfree a : cfree ≤ a < cfree + CBLOCK * NCLIST → cfree_array cfree !! a = Some 0.
Proof.
  intros Ha. unfold cfree_array. apply elem_of_list_to_map.
  - rewrite <- list_fmap_compose. change (fst ∘ (λ a, (a, 0))) with (@id Z). rewrite list_fmap_id. apply NoDup_seqZ.
  - apply list_elem_of_fmap. exists a. split; [done|]. by apply elem_of_seqZ.
Qed.

Lemma aligned_next cp : aligned cp → aligned (cp + CBLOCK).
Proof.
  intros [? Hm]. unfold CBLOCK. split; [lia|]. replace (cp + 32) with (cp + 1 * 32) by lia.
  by rewrite Z_mod_plus_full.
Qed.

Lemma cinit_loop_ok fuel cp lim pool s m :
  inv pool s m → (∀ b, b ∈ pool → b < cp) →
  (∀ b, aligned b → cp ≤ b ≤ lim → valid_block s b) → aligned cp → (0 < fuel)%nat →
  lim - cp < 32 * (Z.of_nat fuel - 1) →
  wp (cinit_loop fuel cp lim)
     (λ _ s', ∃ pool', inv pool' s' m ∧
        Z.of_nat (size pool') = Z.of_nat (size pool) + Z.max 0 ((lim - cp) / 32 + 1)) s.
Proof.
  revert cp pool s. induction fuel as [|fuel IH]; intros cp pool s Hi Hlt Hv Hal Hpos Hfu; [lia|].
  cbn [cinit_loop]. destruct (Z.leb_spec cp lim); cycle 1.
  { apply wp_ret. exists pool. split; [done|].
    assert ((lim - cp) / 32 < 0) by (apply Z.div_lt_upper_bound; lia). lia. }
  assert (Hcp : cp ∉ pool) by (intros Hin%Hlt; lia).
  apply wp_bind. eapply inv_add; [exact Hi|done|by apply Hv; [|lia]|]. intros s' Hi' Hvv.
  eapply wp_mono; [apply (IH _ _ _ Hi')|].
  - intros b [->%elem_of_singleton|Hb%Hlt]%elem_of_union; unfold CBLOCK; lia.
  - unfold CBLOCK. intros b Hb Hr. apply Hvv, Hv; [done|lia].
  - by apply aligned_next.
  - lia.
  - unfold CBLOCK. lia.
  - cbv beta. intros _ s2 (pool' & Hi2 & Hsz). exists pool'. split; [done|]. rewrite Hsz.
    rewrite size_union by set_solver. rewrite size_singleton.
    replace (lim - (cp + CBLOCK)) with (lim - cp + (-1) * 32) by (unfold CBLOCK; lia).
    rewrite Z.div_add by lia. pose proof (Z.div_pos (lim - cp) 32). lia.
Qed.

Lemma inv_boot cfree ps : inv ∅ (boot cfree ps) (gset_to_gmap [] ps).
Proof.
  exists (gset_to_gmap [] ps), []. split_and!; try done.
  - intros p l bs (_ & <-)%lookup_gset_to_gmap_Some (Hp & <-)%lookup_gset_to_gmap_Some.
    exists (CL 0 0 0). split; [|done]. simpl. by apply lookup_gset_to_gmap_Some.
  - constructor.
  - intros p bs (_ & <-)%lookup_gset_to_gmap_Some. split; [constructor|set_solver].
  - intros p p' bs bs' _ (_ & <-)%lookup_gset_to_gmap_Some _. set_solver.
  - intros b. split; [set_solver|]. intros [?|(p & bs & (_ & <-)%lookup_gset_to_gmap_Some & ?)]; set_solver.
Qed.

Lemma round_up cfree : 0 < cfree →
  let ccp := Z.land (cfree + CROUND) (Z.lnot CROUND) in
  aligned ccp ∧ cfree ≤ ccp < cfree + 32 ∧ (cfree `mod` 32 = 0 → ccp = cfree).
Proof.
  intros Hp ccp. unfold ccp. rewrite land_not_cround. unfold CROUND.
  pose proof (Z.mod_pos_bound (cfree + 31) 32 ltac:(lia)).
  pose proof (Z.div_mod (cfree + 31) 32 ltac:(lia)). split_and!; try lia.
  - split; [lia|]. replace (cfree + 31 - (cfree + 31) `mod` 32) with (0 + (cfree + 31) / 32 * 32) by lia.
    by rewrite Z_mod_plus_full.
  - intros Hm. rewrite Zplus_mod, Hm, Z.add_0_l, !Z.mod_mod, Z.mod_small by lia. lia.
Qed.

Lemma cinit_ok cfree ps :
  0 < cfree →
  wp (cinit cfree)
     (λ _ s, ∃ pool, inv pool s (gset_to_gmap [] ps) ∧
        NCLIST - 1 ≤ Z.of_nat (size pool) ≤ NCLIST ∧
        (cfree `mod` 32 = 0 → Z.of_nat (size pool) = NCLIST)) (boot cfree ps).
Proof.
  intros Hpos. unfold cinit. destruct (round_up cfree Hpos) as (Hal & Hr & Heq).
  set (ccp := Z.land (cfree + CROUND) (Z.lnot CROUND)) in *.
  eapply wp_mono; [apply (cinit_loop_ok _ _ _ ∅ _ _ (inv_boot cfree ps)); [set_solver| |done|lia|]|].
  - unfold CBLOCK, NCLIST. intros b Hb Hbr. split; [done|]. simpl. split.
    + rewrite cfree_array_lookup; [eauto|unfold CBLOCK, NCLIST; lia].
    + intros a Ha. rewrite cfree_array_lookup; [eauto|unfold CBLOCK, NCLIST; lia].
  - unfold CBLOCK, NCLIST. lia.
  - cbv beta. intros _ s' (pool & Hi & Hsz). exists pool. rewrite size_empty in Hsz.
    unfold CBLOCK, NCLIST in *. split_and!; [done| | |].
    + assert (30 ≤ (cfree + 32 * (32 - 1) - ccp) / 32) by (apply Z.div_le_lower_bound; lia). lia.
    + assert ((cfree + 32 * (32 - 1) - ccp) / 32 < 32) by (apply Z.div_lt_upper_bound; lia). lia.
    + intros Hm. rewrite (Heq Hm) in Hsz. replace (cfree + 32 * (32 - 1) - cfree) with (31 * 32) in Hsz by lia.
      rewrite Z.div_mul in Hsz by lia. lia.
Qed.


(** ** Theorems *)

(** C4: From boot on, any sequence of clist operations runs to completion
    without a fault, in lockstep with unbounded byte queues: every result and
    every queue content is that of the abstract operations, a transfer falls
    short only when the free blocks are exhausted, and once all queues are
    drained every block is back on the free list. *)
Theorem clist_refines_queues cfree ps os :
  0 < cfree → Forall (op_ok (gset_to_gmap [] ps)) os →
  ∃ s0 s m pool, cinit cfree (boot cfree ps) = Ret tt s0 ∧
    cfreecount s0 = CBSIZE * Z.of_nat (size pool) ∧ NCLIST - 1 ≤ Z.of_nat (size pool) ∧
    lockstep s0 (gset_to_gmap [] ps) os s m ∧ inv pool s m ∧
    ((∀ p l, m !! p = Some l → l = []) → cfreecount s = cfreecount s0).
Proof.
  intros Hp Hok. destruct (proj1 (wp_run _ _ _) (cinit_ok cfree ps Hp)) as ([] & s0 & Hr & pool & Hi & Hsz & _).
  destruct (run_ops_lockstep _ _ _ _ Hi Hok) as (s & m & Hl & Hi').
  assert (Hc0 : cfreecount s0 = CBSIZE * Z.of_nat (size pool)).
  { eapply inv_drained; [exact Hi|]. by intros p l (_ & <-)%lookup_gset_to_gmap_Some. }
  exists s0, s, m, pool. split_and!; try done; try lia.
  intros Hd. rewrite Hc0. by eapply inv_drained.
Qed.

Lemma clist_refines_queues_witness :
  ∃ s0 s m pool, cinit 4100 (boot 4100 {[ 1; 2 ]}) = Ret tt s0 ∧
    cfreecount s0 = CBSIZE * Z.of_nat (size pool) ∧ NCLIST - 1 ≤ Z.of_nat (size pool) ∧
    lockstep s0 (gset_to_gmap [] {[ 1; 2 ]}) [OPutc 65 1; OBtoQ [66; 67] 2; OCat 1 2; OUnputc 2; OGetc 2] s m ∧
    inv pool s m ∧ ((∀ p l, m !! p = Some l → l = []) → cfreecount s = cfreecount s0).
Proof.
  apply clist_refines_queues; [lia|].
  repeat constructor; simpl; rewrite ?lookup_gset_to_gmap_Some; try done; try (eexists; reflexivity).
Defined.

(** Two queues with some bytes in them and one free block. *)
Definition demo : cstate :=
  CS (<[32 := 0]> (<[64 := 0]> (<[96 := 0]> ∅)))
     (<[36 := 65]> (<[37 := 66]> (<[38 := 255]> (<[68 := 67]> (cfree_array 32)))))
     96 28 false 0 (<[1 := CL 3 36 39]> (<[2 := CL 1 68 69]> ∅)).
Definition demo_queues : gmap Z (list Z) := <[1 := [65; 66; 255]]> (<[2 := [67]]> ∅).

#[local] Opaque cfree_array.

Lemma demo_inv : inv {[ 32; 64; 96 ]} demo demo_queues.
Proof.
  assert (Hv : ∀ b, b = 32 ∨ b = 64 ∨ b = 96 → valid_block demo b).
  { intros b Hb. split; [|split].
    - by destruct Hb as [->|[->| ->]].
    - destruct Hb as [->|[->| ->]]; eexists; reflexivity.
    - intros a Ha. cbv [demo c_info]. do 4 (apply lookup_insert_is_Some'; right).
      rewrite cfree_array_lookup; [eauto|unfold CBLOCK, NCLIST; lia]. }
  assert (Hch : ∀ a l, forallb (λ '(i, c), bool_decide (c_info demo !! (a + Z.of_nat i) = Some c)) (imap pair l) = true →
    chunk (c_info demo) a l).
  { intros a l Hall i c Hi. rewrite forallb_forall in Hall. specialize (Hall (i, c)). cbv beta iota in Hall.
    apply bool_decide_eq_true in Hall; [done|]. apply list_elem_of_In, elem_of_lookup_imap. eauto. }
  exists (<[1 := [32]]> (<[2 := [64]]> ∅)), [96]. unfold demo_queues. split_and!.
  - intros p. destruct (decide (1 = p)) as [<-|]; [split; eexists; reflexivity|].
    destruct (decide (2 = p)) as [<-|]; [split; eexists; reflexivity|].
    rewrite !lookup_insert_ne by done. done.
  - intros p l bs [[<- <-]|[? [[<- <-]|[? [=]]]%lookup_insert_Some]]%lookup_insert_Some Hb; vm_compute in Hb; injection Hb as <-.
    + exists (CL 3 36 39). split; [done|]. split; [done|]. split; [repeat constructor; lia|].
      split; [simpl; lia|]. split; [done|]. split; [simpl; lia|]. split; [done|]. apply Hch. vm_compute. reflexivity.
    + exists (CL 1 68 69). split; [done|]. split; [done|]. split; [repeat constructor; lia|].
      split; [simpl; lia|]. split; [done|]. split; [simpl; lia|]. split; [done|]. apply Hch. vm_compute. reflexivity.
  - split; [|done]. split; [done|]. exists 0. done.
  - apply NoDup_singleton.
  - intros p bs [[<- <-]|[? [[<- <-]|[? [=]]]%lookup_insert_Some]]%lookup_insert_Some;
      (split; [apply NoDup_singleton|set_solver]).
  - intros p p' bs bs' Hne [[<- <-]|[? [[<- <-]|[? [=]]]%lookup_insert_Some]]%lookup_insert_Some
      [[<- <-]|[? [[<- <-]|[? [=]]]%lookup_insert_Some]]%lookup_insert_Some; try done; set_solver.
  - intros b. rewrite !elem_of_union, !elem_of_singleton, list_elem_of_singleton. split.
    + intros [[->| ->]| ->]; [right; exists 1, [32]|right; exists 2, [64]|by left]; (split; [done|set_solver]).
    + intros [->|(p & bs & [[<- <-]|[? [[<- <-]|[? [=]]]%lookup_insert_Some]]%lookup_insert_Some & Hb)];
        set_solver.
  - intros b Hb. apply Hv. set_solver.
Qed.

(** [catq] loses nothing: whatever the state of the free list, the bytes of
    [from] end up behind those of [to], although its loop ignores the leftover
    count of [b_to_q]. *)
Theorem catq_concatenates pool s m from to lf lt :
  inv pool s m → from ≠ to → m !! from = Some lf → m !! to = Some lt →
  wp (catq from to) (λ _ s', inv pool s' (<[from := []]> (<[to := lt ++ lf]> m))) s.
Proof. apply catq_ok. Qed.

Lemma catq_concatenates_witness :
  wp (catq 1 2) (λ _ s', inv {[ 32; 64; 96 ]} s' (<[1 := []]> (<[2 := [67] ++ [65; 66; 255]]> demo_queues))) demo.
Proof. apply catq_concatenates; [apply demo_inv|done|reflexivity|reflexivity]. Defined.

(** Bytes written with [b_to_q] come back in order from [q_to_b], behind
    what the queue held, when enough blocks are free. *)
Theorem b_to_q_q_to_b_roundtrip pool s m p l x :
  inv pool s m → m !! p = Some l → Forall (λ c, 0 ≤ c < 256) x → zlen x ≤ cfreecount s →
  wp (k ← b_to_q x p; y ← q_to_b p (zlen l + zlen x); mret (k, y))
     (λ r s', r = (0, l ++ x) ∧ inv pool s' (<[p := []]> m)) s.
Proof.
  intros Hi Hp Hx Hroom. apply wp_bind. eapply wp_mono; [by apply b_to_q_inv|]. cbv beta.
  intros k s1 (n & Hn & Hk & Hi1 & Hfit & _). rewrite Hfit in * by done. rewrite take_ge in Hi1 by lia.
  assert (Hid : u8 <$> x = x).
  { transitivity (id <$> x); [|apply list_fmap_id]. apply list_fmap_ext. intros i c Hc.
    apply u8_id. rewrite Forall_lookup in Hx. by eapply Hx. }
  rewrite Hid in Hi1. apply wp_bind.
  eapply wp_mono; [eapply (q_to_b_inv _ _ _ p (l ++ x)); [exact Hi1|by rewrite lookup_insert_eq]|]. cbv beta.
  intros y s2 (-> & Hi2 & _). apply wp_ret.
  rewrite insert_insert_eq, drop_ge in Hi2 by (rewrite length_app; lia).
  by rewrite take_ge by (rewrite length_app; lia).
Qed.

Lemma b_to_q_q_to_b_roundtrip_witness :
  wp (k ← b_to_q [1; 2; 3] 2; y ← q_to_b 2 (zlen [67] + zlen [1; 2; 3]); mret (k, y))
     (λ r s', r = (0, [67; 1; 2; 3]) ∧ inv {[ 32; 64; 96 ]} s' (<[2 := []]> demo_queues)) demo.
Proof.
  apply (b_to_q_q_to_b_roundtrip {[ 32; 64; 96 ]} demo demo_queues 2 [67] [1; 2; 3]).
  - apply demo_inv.
  - reflexivity.
  - repeat constructor; lia.
  - vm_compute. discriminate.
Defined.

(** Starting at [c_cf], [nextc] visits exactly the bytes of the queue in
    order, across block boundaries, and ends with a null pointer. *)
Theorem nextc_walks pool s m p l :
  inv pool s m → m !! p = Some l → l ≠ [] →
  ∃ q (addr : Z → Z), clists s !! p = Some q ∧ addr 0 = c_cf q ∧
    ∀ i c, l !! i = Some c →
      c_info s !! addr (Z.of_nat i) = Some c ∧
      wp (nextc p (addr (Z.of_nat i)))
         (λ r s', s' = s ∧ r = if Z.of_nat i + 1 <? zlen l then addr (Z.of_nat i + 1) else 0) s.
Proof.
  intros Hi Hp Hl. destruct (inv_owns _ _ _ _ _ Hi Hp) as (bs & fs & Hown & _).
  destruct (owns_blocks _ _ _ _ _ Hown) as [Hnd Hal].
  destruct (owns_cases _ _ _ _ _ Hown) as (q & Hq & Hcc & _ & [(-> & _)|(_ & Hch & _)]); [done|].
  exists q, (addr_at (c_cf q) bs). split_and!; [done| |].
  - destruct (qchain_head _ _ _ _ _ Hch) as (b & bs' & -> & Hcf). cbn [addr_at].
    rewrite (proj2 (Z.ltb_lt _ _)) by lia. lia.
  - intros i c Hc. split; [by eapply addr_at_byte|]. apply lookup_lt_Some in Hc as Hlt.
    eapply (nextc_chain s (c_cf q) bs l (c_cl q) i); [done..| |done|done]. lia.
Qed.

Lemma nextc_walks_witness :
  ∃ q (addr : Z → Z), clists demo !! 1 = Some q ∧ addr 0 = c_cf q ∧
    ∀ i c, [65; 66; 255] !! i = Some c →
      c_info demo !! addr (Z.of_nat i) = Some c ∧
      wp (nextc 1 (addr (Z.of_nat i)))
         (λ r s', s' = demo ∧ r = if Z.of_nat i + 1 <? 3 then addr (Z.of_nat i + 1) else 0) demo.
Proof. apply (nextc_walks {[ 32; 64; 96 ]} demo demo_queues 1 [65; 66; 255]); [apply demo_inv|reflexivity|done]. Defined.

(** [unputc] takes the last byte off the queue but, unlike [getc], hands
    it back sign extended: the byte 0377 comes back as -1, the value that
    stands for an empty queue. *)
Theorem unputc_sign_extends pool s m p l c :
  inv pool s m → m !! p = Some (l ++ [c]) →
  wp (unputc p) (λ r s', r = (if c <? 128 then c else c - 256) ∧ (r = -1 ↔ c = 255) ∧
                         inv pool s' (<[p := l]> m)) s.
Proof.
  intros Hi Hp. apply (inv_wp pool s m p (l ++ [c]) _ (λ r l', λ _, r = s8 c ∧ l' = l ∧ 0 ≤ c < 256)); try done.
  - intros bs fs Hown _. eapply wp_mono; [by apply unputc_ok|]. cbv beta. intros r s'.
    rewrite last_snoc, removelast_last. intros [-> Hb]. eexists. split; [exact Hb|]. split; [done|]. split; [done|].
    apply owns_l_bytes in Hown. rewrite Forall_app, Forall_singleton in Hown. tauto.
  - intros r l' s' Hi' (-> & -> & Hc). unfold s8.
    destruct (Z.ltb_spec c 128).
    + rewrite Z.mod_small by lia. split_and!; [lia|lia|done].
    + replace (c + 2 ^ 7) with (c - 128 + 1 * 2 ^ 8) by lia. rewrite Z_mod_plus_full, Z.mod_small by lia.
      split_and!; [lia|lia|done].
Qed.

Lemma unputc_sign_extends_witness :
  wp (unputc 1) (λ r s', r = -1 ∧ (r = -1 ↔ 255 = 255) ∧
                         inv {[ 32; 64; 96 ]} s' (<[1 := [65; 66]]> demo_queues)) demo.
Proof. apply (unputc_sign_extends {[ 32; 64; 96 ]} demo demo_queues 1 [65; 66] 255); [apply demo_inv|reflexivity]. Defined.

End Clist.
