(* ===== verification/Dsort.v ===== *)
(** * Disk queue sorting (sys/kernel/ufs_dsort.c)

    A driver queue is a header [dp] whose [b_actf]/[b_actl] (the fields
    [av_forw]/[av_back]) point at the first and last request; requests are
    linked through [av_forw].  [disksort] puts a new request behind the one
    that best precedes it in the direction of the sweep. *)

From S2P Require Import Prelude Links.

Module Dsort.

Definition B_READ : Z := 1.

Record buf := Buf { b_flags : Z; av_forw : Z; av_back : Z; b_cylin : Z }.

Notation st := (gmap Z buf).

Definition rd (p : Z) : M st buf := load (λ s, s !! p).
Definition wr (p : Z) (f : buf → buf) : M st unit :=
  store (λ s, b ← s !! p; Some (<[p := f b]> s)).

Definition set_forw (v : Z) (b : buf) := Buf (b_flags b) v (av_back b) (b_cylin b).
Definition set_back (v : Z) (b : buf) := Buf (b_flags b) (av_forw b) v (b_cylin b).
Definition is_read (b : buf) : bool := negb (Z.land (b_flags b) B_READ =? 0).

(** The [for] loop of [disksort]; returns [tp]. *)
Fixpoint disksort_scan (fuel : nat) (bp ap tp : Z) : M st Z :=
  match fuel with
  | O => nofuel
  | S f =>
      if ap =? 0 then mret tp
      else
        a ← rd ap;
        b ← rd bp;
        if is_read b && negb (is_read a) then
          mret (if tp =? 0 then ap else tp)
        else if negb (is_read b) && is_read a then
          disksort_scan f bp (av_forw a) tp
        else if b_cylin a <=? b_cylin b then
          take ← (if tp =? 0 then mret true
                  else t ← rd tp; mret (b_cylin t <=? b_cylin a));
          disksort_scan f bp (av_forw a) (if (take : bool) then ap else tp)
        else disksort_scan f bp (av_forw a) tp
  end.

Definition disksort (dp bp : Z) : M st unit :=
  d ← rd dp;
  let ap := av_forw d in
  if ap =? 0 then
    wr dp (set_forw bp);;
    wr dp (set_back bp);;
    wr bp (set_forw 0)
  else
    n ← gets (λ s : st, size s);
    tp ← disksort_scan (S n) bp ap 0;
    d ← rd dp;
    let tp := if tp =? 0 then av_back d else tp in
    t ← rd tp;
    wr bp (set_forw (av_forw t));;
    wr tp (set_forw bp);;
    d ← rd dp;
    when (tp =? av_back d) (wr dp (set_back bp)).

(** [dk_alloc]: iostat slots. *)
Definition DK_NDRIVE : Z := 4.
Record dkstate := DK { dk_n : Z; dk_name : list Z; dk_unit : list Z }.

Fixpoint dk_fill (n : nat) (i base name : Z) : M dkstate unit :=
  match n with
  | O => mret tt
  | S n' =>
      store (λ s, l ← aset (dk_name s) (base + i) name; Some (DK (dk_n s) l (dk_unit s)));;
      store (λ s, l ← aset (dk_unit s) (base + i) i; Some (DK (dk_n s) (dk_name s) l));;
      dk_fill n' (i + 1) base name
  end.

Definition dk_alloc (dkn slots name : Z) : M dkstate Z :=
  n ← gets dk_n;
  if (dkn <? 0) && (n + slots <=? DK_NDRIVE) then
    modify (λ s, DK (dk_n s + slots) (dk_name s) (dk_unit s));;
    dk_fill (Z.to_nat slots) 0 n name;;
    mret n
  else mret dkn.

(** ** Specification *)

Section spec.
Context (isr : Z → bool) (cyl : Z → Z).

(** The requests a new request [b] competes with: for a write the queued
    writes, for a read the reads queued in front of the first write. *)
Fixpoint rivals (b : Z) (q : list Z) : list Z :=
  match q with
  | [] => []
  | a :: q' =>
      if isr b then (if isr a then a :: rivals b q' else [])
      else (if isr a then rivals b q' else a :: rivals b q')
  end.

(** [x] is the rival that [b] goes behind: the last of those nearest to [b]
    from below. *)
Definition nearest (b x : Z) (rs : list Z) : Prop :=
  ∃ r1 r2, rs = r1 ++ x :: r2 ∧ cyl x ≤ cyl b ∧
    (∀ y, y ∈ r1 → cyl y ≤ cyl b → cyl y ≤ cyl x) ∧
    (∀ y, y ∈ r2 → cyl y ≤ cyl b → cyl y < cyl x).

Definition goes_behind (b : Z) (q : list Z) (x : Z) : Prop :=
  nearest b x (rivals b q) ∨
  ((∀ y, y ∈ rivals b q → cyl b < cyl y) ∧
   if isr b && negb (forallb isr q) then
     ∃ q1 q2, q = q1 ++ x :: q2 ∧ forallb isr q1 = true ∧ isr x = false
   else last q = Some x).

(** Elevator order: once the sequence drops below [x] it stays below. *)
Fixpoint sweeps (l : list Z) : Prop :=
  match l with
  | [] => True
  | x :: l' => (∃ a b, l' = a ++ b ∧ Forall (λ y, x ≤ y) a ∧ Forall (λ y, y < x) b) ∧ sweeps l'
  end.

(** The scan of [disksort] over the queue as a list. *)
Fixpoint choose (b : Z) (q : list Z) (tp : option Z) : option Z :=
  match q with
  | [] => tp
  | a :: q' =>
      if isr b && negb (isr a) then Some (default a tp)
      else if negb (isr b) && isr a then choose b q' tp
      else if cyl a <=? cyl b then
        choose b q' (if match tp with None => true | Some t => cyl t <=? cyl a end then Some a else tp)
      else choose b q' tp
  end.

(** Invariant of the scan: what [tp] is after the rivals [rs]. *)
Definition scanned (b : Z) (rs : list Z) (tp : option Z) : Prop :=
  match tp with
  | None => ∀ y, y ∈ rs → cyl b < cyl y
  | Some x => nearest b x rs
  end.

Lemma scanned_snoc b rs tp a :
  scanned b rs tp →
  scanned b (rs ++ [a])
    (if cyl a <=? cyl b then
       (if match tp with None => true | Some t => cyl t <=? cyl a end then Some a else tp)
     else tp).
Proof.
  destruct (Z.leb_spec (cyl a) (cyl b)) as [Hab|Hab]; destruct tp as [t|]; simpl; intros Hs.
  - destruct (Z.leb_spec (cyl t) (cyl a)).
    + exists rs, []. split_and!; [done|done| |set_solver]. intros y Hy Hyb.
      destruct Hs as (r1 & r2 & -> & Htb & H1 & H2).
      apply elem_of_app in Hy as [Hy|[->|Hy]%elem_of_cons]; [specialize (H1 y Hy Hyb)| |specialize (H2 y Hy Hyb)]; lia.
    + destruct Hs as (r1 & r2 & -> & Htb & H1 & H2). exists r1, (r2 ++ [a]).
      split_and!; [by rewrite <- app_assoc|done|done|].
      intros y [Hy|Hy%list_elem_of_singleton]%elem_of_app Hyb; [by apply H2|subst; lia].
  - exists rs, []. split_and!; [done|done| |set_solver]. intros y Hy Hyb. specialize (Hs y Hy). lia.
  - destruct Hs as (r1 & r2 & -> & Htb & H1 & H2). exists r1, (r2 ++ [a]).
    split_and!; [by rewrite <- app_assoc|done|done|].
    intros y [Hy|Hy%list_elem_of_singleton]%elem_of_app Hyb; [by apply H2|subst; lia].
  - intros y [Hy|Hy%list_elem_of_singleton]%elem_of_app; [by apply Hs|subst; lia].
Qed.

Lemma choose_ok b q rs tp :
  scanned b rs tp →
  match choose b q tp with
  | None => (∀ y, y ∈ rs ++ rivals b q → cyl b < cyl y) ∧ isr b && negb (forallb isr q) = false
  | Some x => nearest b x (rs ++ rivals b q) ∨
      ((∀ y, y ∈ rs ++ rivals b q → cyl b < cyl y) ∧ isr b = true ∧
       ∃ q1 q2, q = q1 ++ x :: q2 ∧ forallb isr q1 = true ∧ isr x = false)
  end.
Proof.
  revert rs tp. induction q as [|a q IH]; intros rs tp Hs; cbn [choose rivals].
  { rewrite app_nil_r. destruct tp; simpl in *; [by left|]. by rewrite andb_false_r. }
  assert (Hstep : isr a = true → isr b = true →
    ∀ X, (∃ q1 q2, q = q1 ++ X :: q2 ∧ forallb isr q1 = true ∧ isr X = false) →
    ∃ q1 q2, a :: q = q1 ++ X :: q2 ∧ forallb isr q1 = true ∧ isr X = false).
  { intros Ha Hb X (q1 & q2 & -> & H1 & H2). exists (a :: q1), q2. simpl. by rewrite Ha. }
  pose proof (scanned_snoc b rs tp a Hs) as Hs'.
  destruct (isr b) eqn:Hb, (isr a) eqn:Ha; cbn [andb negb forallb].
  - specialize (IH (rs ++ [a]) _ Hs'). rewrite <- app_assoc in IH. cbn [app] in IH. rewrite Ha. cbn [andb].
    destruct (cyl a <=? cyl b); (destruct (choose _ _ _) as [x|]; [|done]);
      (destruct IH as [?|(? & ? & Hx)]; [by left|right; eauto]).
  - rewrite app_nil_r. destruct tp as [t|]; simpl in *; [by left|]. right. split_and!; try done.
    exists [], q. by rewrite Ha.
  - specialize (IH rs tp Hs). destruct (choose b q tp) as [x|]; [|done].
    destruct IH as [?|(? & ? & ?)]; [by left|done].
  - specialize (IH (rs ++ [a]) _ Hs'). rewrite <- app_assoc in IH. cbn [app] in IH.
    destruct (cyl a <=? cyl b); (destruct (choose _ _ _) as [x|]; [|done]);
      (destruct IH as [?|(? & ? & Hx)]; [by left|done]).
Qed.

Lemma choose_goes_behind b q x :
  q ≠ [] → x = default (default 0 (last q)) (choose b q None) → goes_behind b q x.
Proof.
  intros Hq ->. assert (Hs : scanned b [] None) by (simpl; set_solver).
  pose proof (choose_ok b q [] None Hs) as H. simpl in H. unfold goes_behind.
  destruct (choose b q None) as [x|]; simpl.
  - destruct H as [H|(H & Hr & q1 & q2 & -> & H1 & H2)]; [by left|]. right. split; [done|].
    rewrite Hr, forallb_app, H1. simpl. rewrite H2. simpl. eauto.
  - right. destruct H as [H ->]. split; [done|]. destruct (last q) as [y|] eqn:E; [done|].
    by apply last_None in E.
Qed.

Lemma rivals_incl b q y : y ∈ rivals b q → y ∈ q ∧ isr y = isr b.
Proof.
  induction q as [|a q IH]; simpl; [set_solver|].
  destruct (isr b) eqn:Hb, (isr a) eqn:Ha; intros H; try set_solver;
    apply elem_of_cons in H as [->|H]; (split; [set_solver|congruence]) || set_solver.
Qed.

Lemma goes_behind_in b q x : goes_behind b q x → x ∈ q.
Proof.
  intros [(r1 & r2 & Hr & _)|[_ H]].
  - apply (rivals_incl b). rewrite Hr. set_solver.
  - destruct (isr b && _); [destruct H as (q1 & q2 & -> & _); set_solver|].
    apply last_Some in H as [? ->]. set_solver.
Qed.
End spec.

(** ** Elevator order *)

Lemma split_insert (P N : Z → Prop) l1 v c l2 :
  (P v → P c) → (N v → N c) →
  (∃ a b, l1 ++ v :: l2 = a ++ b ∧ Forall P a ∧ Forall N b) →
  ∃ a b, l1 ++ v :: c :: l2 = a ++ b ∧ Forall P a ∧ Forall N b.
Proof.
  intros HP HN (a & b & E & Ha & Hb). revert a E Ha. induction l1 as [|u l1 IH]; intros [|w a] E Ha; simplify_eq/=.
  - inversion Hb; subst. exists [], (v :: c :: l2). split_and!; [done|done|repeat constructor; auto].
  - inversion Ha; subst. exists (w :: c :: a), b. split_and!; [done|repeat constructor; auto|done].
  - exists [], (u :: l1 ++ v :: c :: l2). split_and!; [done|done|]. inversion Hb as [|?? Hu Hr]; subst.
    constructor; [done|]. apply Forall_app in Hr as [H1 H2]. inversion H2; subst.
    apply Forall_app. split; [done|]. repeat constructor; auto.
  - inversion Ha; subst. destruct (IH a ltac:(done) ltac:(done)) as (a' & b' & -> & ? & ?).
    exists (w :: a'), b'. split_and!; [done|by constructor|done].
Qed.

Lemma sweeps_insert l1 v c l2 :
  v ≤ c → (∀ y, y ∈ l1 → y ≤ c → y ≤ v) → (∀ y, y ∈ l2 → y ≤ c → y < v) →
  sweeps (l1 ++ v :: l2) → sweeps (l1 ++ v :: c :: l2).
Proof.
  intros Hvc H1 H2. induction l1 as [|u l1 IH].
  - cbn [app sweeps]. intros [(a & b & -> & Ha & Hb) Hs]. split_and!; [|..|done].
    + exists (c :: a), b. split_and!; [done|by constructor|done].
    + exists a, b. split_and!; [done| |].
      * apply Forall_forall. intros y Hy. rewrite Forall_forall in Ha. specialize (Ha y Hy).
        destruct (decide (y ≤ c)) as [Hyc|]; [|lia]. assert (y < v) by (apply H2; [set_solver|done]). lia.
      * eapply Forall_impl; [exact Hb|]. simpl. lia.
  - cbn [app sweeps]. intros [Hsp Hs]. split; [|apply IH; [set_solver|done]].
    assert (Hu : u ≤ c → u ≤ v) by (apply H1; set_solver). apply split_insert; [lia|lia|done].
Qed.

Lemma sweeps_append l c : (∀ y, y ∈ l → c < y) → sweeps l → sweeps (l ++ [c]).
Proof.
  induction l as [|u l IH]; intros Hc; cbn [app sweeps].
  - intros _. split; [|done]. by exists [], [].
  - intros [(a & b & -> & Ha & Hb) Hs]. split; [|apply IH; [set_solver|done]].
    exists a, (b ++ [c]). split_and!; [by rewrite app_assoc|done|].
    apply Forall_app. split; [done|]. constructor; [apply Hc; set_solver|done].
Qed.

(** The requests of [q] in the direction of [b]. *)
Definition same_dir (isr : Z → bool) (b : Z) (q : list Z) : list Z :=
  filter (λ a, isr a = isr b) q.

Lemma rivals_same_dir isr b q :
  isr b = false ∨ forallb isr q = true → rivals isr b q = same_dir isr b q.
Proof.
  intros H. unfold same_dir. induction q as [|a q IH]; [done|]. cbn [rivals forallb] in *.
  rewrite filter_cons. destruct (decide (isr a = isr b)) as [E|E];
    destruct (isr b) eqn:Hb, (isr a) eqn:Ha; cbn [andb] in *; try (destruct H; discriminate);
    try congruence; by rewrite IH by tauto.
Qed.

Lemma app_cons_inj (r1 r2 l1 l2 : list Z) x :
  NoDup (l1 ++ x :: l2) → r1 ++ x :: r2 = l1 ++ x :: l2 → r1 = l1 ∧ r2 = l2.
Proof.
  revert l1. induction r1 as [|y r1 IH]; intros [|z l1] Hnd E; cbn [app] in *.
  - by injection E as ->.
  - injection E as <- ->. apply NoDup_cons in Hnd as [Hz _]. set_solver.
  - injection E as -> <-. apply NoDup_cons in Hnd as [Hz _]. set_solver.
  - injection E as <- E. apply NoDup_cons in Hnd as [_ Hnd]. by destruct (IH l1 Hnd E) as [-> ->].
Qed.

(** Inserting where [disksort] does keeps the requests of one direction in
    elevator order: always for writes, for reads as long as no write waits. *)
Lemma goes_behind_sweeps isr cyl b l1 x l2 :
  let q := l1 ++ x :: l2 in
  NoDup q → goes_behind isr cyl b q x → isr b = false ∨ forallb isr q = true →
  sweeps (cyl <$> same_dir isr b q) → sweeps (cyl <$> same_dir isr b (l1 ++ x :: b :: l2)).
Proof.
  intros q Hnd Hg Hdir Hs.
  assert (Hb : same_dir isr b (b :: l2) = b :: same_dir isr b l2).
  { unfold same_dir. rewrite filter_cons. by case_decide. }
  destruct Hg as [(r1 & r2 & Hr & Hxb & H1 & H2)|[Hall Hlast]].
  - pose proof (rivals_incl isr cyl b q x) as [_ Hx]; [rewrite Hr; set_solver|].
    rewrite rivals_same_dir in Hr by done. rewrite Hr in Hs. unfold q, same_dir in Hr.
    rewrite filter_app, filter_cons, decide_True in Hr by done.
    apply eq_sym, app_cons_inj in Hr as [-> ->].
    + unfold same_dir in *. rewrite filter_app, filter_cons, decide_True, Hb, fmap_app by done.
      rewrite fmap_app in Hs. cbn [fmap list_fmap] in *. apply sweeps_insert; try done.
      * intros y (z & -> & Hz)%list_elem_of_fmap. auto.
      * intros y (z & -> & Hz)%list_elem_of_fmap. auto.
    + assert (Hnd' : NoDup (same_dir isr b q)) by (by apply NoDup_filter).
      unfold same_dir, q in Hnd'. by rewrite filter_app, filter_cons, decide_True in Hnd' by done.
  - assert (Hnone : isr b && negb (forallb isr q) = false).
    { destruct Hdir as [-> | ->]; [done|]. by rewrite andb_false_r. }
    rewrite Hnone in Hlast. unfold q in Hlast.
    assert (l2 = []) as ->.
    { apply last_Some in Hlast as [l' E]. destruct l2 as [|y l2 _] using rev_ind; [done|].
      rewrite app_comm_cons, app_assoc in E. apply app_inj_tail in E as [_ ->].
      unfold q in Hnd. apply NoDup_app in Hnd as (_ & _ & Hnd). apply NoDup_cons in Hnd as [? _]. set_solver. }
    rewrite rivals_same_dir in Hall by done.
    replace (l1 ++ [x; b]) with (q ++ [b]) by (unfold q; by rewrite <- app_assoc).
    unfold same_dir in *. rewrite filter_app, fmap_app. rewrite (filter_cons _ b []), decide_True by done.
    apply sweeps_append; [|done]. intros y (z & -> & Hz)%list_elem_of_fmap. auto.
Qed.

(** ** The code implements the specification *)

Definition nx (s : st) : Z → option Z := λ p, av_forw <$> s !! p.
Definition isr_of (s : st) (p : Z) : bool := default false (is_read <$> s !! p).
Definition cyl_of (s : st) (p : Z) : Z := default 0 (b_cylin <$> s !! p).

(** The header [dp] describes the queue [q]. *)
Definition dqueue (s : st) (dp : Z) (q : list Z) : Prop :=
  ∃ d, s !! dp = Some d ∧ chain (nx s) (av_forw d) q ∧ dp ∉ q ∧ (q ≠ [] → last q = Some (av_back d)).

Lemma ds_nx_Some s p n : nx s p = Some n ↔ ∃ b, s !! p = Some b ∧ av_forw b = n.
Proof. unfold nx. destruct (s !! p); naive_solver. Qed.

Lemma chain_mem s p q x : chain (nx s) p q → x ∈ q → x ≠ 0 ∧ is_Some (s !! x).
Proof.
  intros Hc (l1 & l2 & ->)%list_elem_of_split. apply lseg_app in Hc as (r & _ & -> & Hx & n & Hn & _).
  apply ds_nx_Some in Hn as (b & Hb & _). eauto.
Qed.

Lemma nx_insert s p b v z : s !! p = Some b → nx (<[p := set_forw v b]> s) z = upd (nx s) p v z.
Proof.
  intros Hb. unfold nx, upd. case_decide as Hd; [subst; by rewrite lookup_insert_eq|by rewrite lookup_insert_ne].
Qed.

Lemma scan_ok fuel s bp b ap q tpo (Q : Z → st → Prop) :
  s !! bp = Some b → chain (nx s) ap q → (length q < fuel)%nat →
  (∀ t, tpo = Some t → t ≠ 0 ∧ is_Some (s !! t)) →
  Q (default 0 (choose (isr_of s) (cyl_of s) bp q tpo)) s →
  wp (disksort_scan fuel bp ap (default 0 tpo)) Q s.
Proof.
  intros Hb. revert ap q tpo. induction fuel as [|fuel IH]; intros ap q tpo Hc Hf Ht HQ; [lia|].
  cbn [disksort_scan]. destruct q as [|a q].
  { simpl in Hc. subst. by apply wp_ret. }
  pose proof Hc as (-> & Ha0 & n & (ba & Ha & <-)%ds_nx_Some & Hc').
  rewrite (proj2 (Z.eqb_neq a 0)) by done.
  apply wp_bind. eapply wp_load; [exact Ha|]. apply wp_bind. eapply wp_load; [exact Hb|].
  cbn [choose] in HQ.
  assert (Hisr : isr_of s bp = is_read b ∧ isr_of s a = is_read ba) by (unfold isr_of; by rewrite Hb, Ha).
  assert (Hcyl : cyl_of s bp = b_cylin b ∧ cyl_of s a = b_cylin ba) by (unfold cyl_of; by rewrite Hb, Ha).
  destruct Hisr as [-> ->] in HQ. destruct Hcyl as [Hcb Hca]. rewrite Hcb, Hca in HQ.
  destruct (is_read b && negb (is_read ba)).
  { apply wp_ret. destruct tpo as [t|]; simpl in *; [|done].
    destruct (Ht t eq_refl). by rewrite (proj2 (Z.eqb_neq t 0)). }
  destruct (negb (is_read b) && is_read ba); [apply (IH _ q); try done; simpl in *; lia|].
  destruct (b_cylin ba <=? b_cylin b); [|apply (IH _ q); try done; simpl in *; lia].
  destruct tpo as [t|]; cbn [from_option id].
  - destruct (Ht t eq_refl) as [Ht0 [bt Hbt]]. rewrite (proj2 (Z.eqb_neq t 0)) by done.
    apply wp_bind, wp_bind. eapply wp_load; [exact Hbt|]. apply wp_ret.
    assert (cyl_of s t = b_cylin bt) as Ht' by (unfold cyl_of; by rewrite Hbt). rewrite Ht' in HQ.
    destruct (b_cylin bt <=? b_cylin ba).
    + apply (IH _ q (Some a)); try done; [simpl in *; lia|]. intros ? [= <-]. eauto.
    + apply (IH _ q (Some t)); try done. simpl in *; lia.
  - apply wp_bind, wp_ret. apply (IH _ q (Some a)); try done; [simpl in *; lia|]. intros ? [= <-]. eauto.
Qed.

Lemma ds_wp_wr s p b f (Q : unit → st → Prop) :
  s !! p = Some b → Q tt (<[p := f b]> s) → wp (wr p f) Q s.
Proof. intros Hb HQ. eapply wp_store; [by rewrite Hb|done]. Qed.

(** Only link fields of the header, the new request and its predecessor move. *)
Definition same_fields (s s' : st) : Prop :=
  ∀ p, isr_of s' p = isr_of s p ∧ cyl_of s' p = cyl_of s p.

Lemma same_fields_insert s p b f :
  s !! p = Some b → is_read (f b) = is_read b → b_cylin (f b) = b_cylin b →
  same_fields s (<[p := f b]> s).
Proof.
  intros Hb H1 H2 z. unfold isr_of, cyl_of. destruct (decide (p = z)) as [<-|].
  - rewrite lookup_insert_eq, Hb. by simpl; rewrite H1, H2.
  - by rewrite lookup_insert_ne.
Qed.

Lemma same_fields_trans s1 s2 s3 : same_fields s1 s2 → same_fields s2 s3 → same_fields s1 s3.
Proof. intros H1 H2 p. destruct (H1 p), (H2 p). split; congruence. Qed.

Lemma ds_chain_length s p q : chain (nx s) p q → (length q ≤ size s)%nat.
Proof.
  intros Hc. rewrite <- size_dom, <- (size_list_to_set (C := gset Z) q) by (by eapply chain_nodup).
  apply subseteq_size. intros x. rewrite elem_of_list_to_set, elem_of_dom. intros Hx. by eapply chain_mem.
Qed.

Definition inserted (s : st) (bp : Z) (q q' : list Z) : Prop :=
  match q with
  | [] => q' = [bp]
  | _ => ∃ l1 x l2, q = l1 ++ x :: l2 ∧ q' = l1 ++ x :: bp :: l2 ∧ goes_behind (isr_of s) (cyl_of s) bp q x
  end.

Lemma disksort_ok s dp bp q :
  dqueue s dp q → bp ∉ q → bp ≠ dp → bp ≠ 0 → is_Some (s !! bp) →
  wp (disksort dp bp) (λ _ s', ∃ q', dqueue s' dp q' ∧ inserted s bp q q' ∧ same_fields s s') s.
Proof.
  intros (d & Hd & Hc & Hdq & Hl) Hbq Hbd Hb0 [b Hb]. unfold disksort.
  apply wp_bind. eapply wp_load; [exact Hd|].
  destruct q as [|a q].
  - simpl in Hc. rewrite Hc. cbn [Z.eqb].
    apply wp_bind. eapply ds_wp_wr; [exact Hd|]. apply wp_bind. eapply ds_wp_wr; [by rewrite lookup_insert_eq|].
    rewrite insert_insert_eq. eapply ds_wp_wr; [by rewrite lookup_insert_ne|].
    exists [bp]. split_and!; [|done|].
    + eexists. split; [by rewrite lookup_insert_ne, lookup_insert_eq|]. cbn [av_forw av_back set_forw set_back].
      split_and!; [|set_solver|done]. split_and!; [done|done|]. exists 0. split; [|done].
      unfold nx. by rewrite lookup_insert_eq.
    + eapply same_fields_trans; [by apply (same_fields_insert s dp d (λ _, set_back bp (set_forw bp d)) Hd)|].
      apply (same_fields_insert _ bp b (set_forw 0)); try done. by rewrite lookup_insert_ne.
  - set (Q0 := a :: q) in *. assert (HQ0 : Q0 ≠ []) by done. specialize (Hl HQ0).
    assert (Hap : av_forw d ≠ 0) by (destruct Hc as (-> & ? & _); done).
    rewrite (proj2 (Z.eqb_neq _ _) Hap). apply wp_bind, wp_gets.
    apply wp_bind. apply (scan_ok _ s bp b _ Q0 None); [done|done| |done|].
    { pose proof (ds_chain_length _ _ _ Hc). lia. }
    apply wp_bind. eapply wp_load; [exact Hd|].
    set (x := default (default 0 (last Q0)) (choose (isr_of s) (cyl_of s) bp Q0 None)).
    pose proof (choose_goes_behind (isr_of s) (cyl_of s) bp Q0 x HQ0 eq_refl) as Hg.
    destruct (chain_mem _ _ _ x Hc (goes_behind_in _ _ _ _ _ Hg)) as [Hx0 [bx Hx]].
    assert (Htp : (if default 0 (choose (isr_of s) (cyl_of s) bp Q0 None) =? 0 then av_back d
                   else default 0 (choose (isr_of s) (cyl_of s) bp Q0 None)) = x).
    { unfold x in *. rewrite Hl in *. destruct (choose _ _ bp Q0 None); cbn [from_option id] in *; [|done].
      by rewrite (proj2 (Z.eqb_neq _ _)). }
    rewrite Htp. clear Htp. clearbody x.
    pose proof (goes_behind_in _ _ _ _ _ Hg) as Hxin.
    assert (x ≠ dp ∧ x ≠ bp) as [Hxd Hxb] by (split; intros ->; done).
    apply wp_bind. eapply wp_load; [exact Hx|].
    apply wp_bind. eapply ds_wp_wr; [exact Hb|].
    apply wp_bind. eapply ds_wp_wr; [by rewrite lookup_insert_ne|].
    apply wp_bind. eapply wp_load; [by rewrite !lookup_insert_ne by done|].
    set (s2 := <[x := set_forw bp bx]> (<[bp := set_forw (av_forw bx) b]> s)).
    assert (Hs2 : same_fields s s2).
    { eapply same_fields_trans; [by apply (same_fields_insert s bp b (set_forw (av_forw bx)) Hb)|].
      apply (same_fields_insert _ x bx (set_forw bp)); try done. by rewrite lookup_insert_ne. }
    apply list_elem_of_split in Hxin as (l1 & l2 & E).
    assert (Hch : chain (nx s2) (av_forw d) (l1 ++ x :: bp :: l2)).
    { rewrite E in Hc. eapply (chain_insert_after (nx s)); [exact Hc|by rewrite <- E|done|apply ds_nx_Some; eauto|].
      intros z. unfold s2. rewrite nx_insert by (by rewrite lookup_insert_ne).
      unfold upd. case_decide; [done|]. by rewrite nx_insert. }
    assert (Hins : inserted s bp Q0 (l1 ++ x :: bp :: l2)).
    { unfold inserted. subst Q0. exists l1, x, l2. done. }
    assert (Hnd : NoDup Q0) by (by eapply chain_nodup).
    assert (Hdp' : dp ∉ l1 ++ x :: bp :: l2) by (rewrite E in Hdq; set_solver).
    assert (Hs2d : s2 !! dp = Some d) by (unfold s2; by rewrite !lookup_insert_ne).
    apply wp_when.
    + intros Heq%Z.eqb_eq. eapply ds_wp_wr; [exact Hs2d|].
      assert (l2 = []) as ->.
      { rewrite E in Hl, Hnd. apply last_Some in Hl as [l' E']. rewrite <- Heq in E'.
        destruct l2 as [|y l2 _] using rev_ind; [done|].
        rewrite app_comm_cons, app_assoc in E'. apply app_inj_tail in E' as [_ ->].
        apply NoDup_app in Hnd as (_ & _ & Hnd). apply NoDup_cons in Hnd as [? _]. set_solver. }
      exists (l1 ++ [x; bp]). split_and!; [|done|].
      * eexists. split; [by rewrite lookup_insert_eq|]. cbn [av_forw av_back set_back]. split_and!; [|done|].
        -- eapply lseg_ext; [|exact Hch]. intros z Hz. unfold nx. rewrite lookup_insert_ne; [done|].
           intros ->. done.
        -- intros _. change [x; bp] with ([x] ++ [bp]). by rewrite app_assoc, last_snoc.
      * eapply same_fields_trans; [exact Hs2|]. by apply (same_fields_insert s2 dp d (set_back bp) Hs2d).
    + intros Hne%Z.eqb_neq. exists (l1 ++ x :: bp :: l2). split_and!; [|done|done].
      exists d. split_and!; try done. intros _. rewrite E in Hl. destruct l2 as [|y l2 _] using rev_ind.
      { rewrite last_snoc in Hl. congruence. }
      rewrite !app_comm_cons, app_assoc, last_snoc in *. done.
Qed.

(** ** Theorems *)

(** C5: [disksort] links the new request into the driver queue directly behind
    the request its rules select (the last of the nearest rivals from below;
    failing that the first write for a read, or the tail), never in front of
    the head, keeps the order of the others, maintains the tail pointer, and
    changes no flags or cylinder. *)
Theorem disksort_refines s dp bp q :
  dqueue s dp q → bp ∉ q → bp ≠ dp → bp ≠ 0 → is_Some (s !! bp) →
  wp (disksort dp bp) (λ _ s', ∃ q', dqueue s' dp q' ∧ inserted s bp q q' ∧ same_fields s s') s.
Proof. apply disksort_ok. Qed.

Definition demo : st :=
  <[100 := Buf 0 1 2 0]> (<[1 := Buf B_READ 2 0 50]> (<[2 := Buf B_READ 0 0 60]> (<[3 := Buf B_READ 0 0 55]> ∅))).

Lemma demo_queue : dqueue demo 100 [1; 2].
Proof.
  exists (Buf 0 1 2 0). split_and!; [done| |set_solver|done].
  split_and!; [done|done|]. exists 2. split; [done|]. split_and!; [done|done|]. by exists 0.
Qed.

Lemma disksort_refines_witness :
  wp (disksort 100 3) (λ _ s', ∃ q', dqueue s' 100 q' ∧ inserted demo 3 [1; 2] q' ∧ same_fields demo s') demo.
Proof. apply disksort_refines; [apply demo_queue|set_solver|done|done|by eexists]. Defined.

(** Queueing through [disksort] preserves elevator order: the requests of
    the new request's direction stay in sweeps (once the cylinders drop below
    one, they stay below it), always for writes, and for reads while no write
    is queued. *)
Theorem disksort_keeps_sweeps s dp bp q :
  dqueue s dp q → bp ∉ q → bp ≠ dp → bp ≠ 0 → is_Some (s !! bp) →
  isr_of s bp = false ∨ forallb (isr_of s) q = true →
  sweeps (cyl_of s <$> same_dir (isr_of s) bp q) →
  wp (disksort dp bp) (λ _ s', ∃ q', dqueue s' dp q' ∧ q' ≡ₚ bp :: q ∧
        (q ≠ [] → head q' = head q) ∧ sweeps (cyl_of s' <$> same_dir (isr_of s') bp q')) s.
Proof.
  intros Hq Hb1 Hb2 Hb3 Hb4 Hdir Hs.
  assert (Hnd : NoDup q) by (destruct Hq as (d & _ & Hc & _); by eapply chain_nodup).
  eapply wp_mono; [by apply disksort_ok|]. cbv beta. intros _ s' (q' & Hq' & Hins & Hf).
  exists q'. split; [done|].
  assert (E1 : ∀ l, same_dir (isr_of s') bp l = same_dir (isr_of s) bp l).
  { intros l. unfold same_dir. apply list_filter_iff. intros a. destruct (Hf a) as [-> _], (Hf bp) as [-> _]. done. }
  assert (E2 : ∀ l : list Z, cyl_of s' <$> l = cyl_of s <$> l).
  { intros l. apply list_fmap_ext. intros i a _. apply Hf. }
  rewrite E1, E2. unfold inserted in Hins. destruct q as [|a q].
  - subst. split_and!; [done|done|]. unfold same_dir. rewrite filter_cons, decide_True by done. simpl.
    split; [|done]. by exists [], [].
  - destruct Hins as (l1 & x & l2 & E & -> & Hg). rewrite E in *. split_and!.
    + replace (l1 ++ x :: bp :: l2) with ((l1 ++ [x]) ++ bp :: l2) by (by rewrite <- app_assoc).
      by rewrite <- Permutation_middle, <- app_assoc.
    + intros _. by destruct l1.
    + by apply goes_behind_sweeps.
Qed.

Lemma disksort_keeps_sweeps_witness :
  wp (disksort 100 3) (λ _ s', ∃ q', dqueue s' 100 q' ∧ q' ≡ₚ [3; 1; 2] ∧
        ([1; 2] ≠ [] → head q' = head [1; 2]) ∧ sweeps (cyl_of s' <$> same_dir (isr_of s') 3 q')) demo.
Proof.
  apply (disksort_keeps_sweeps demo 100 3 [1; 2]); [apply demo_queue|set_solver|done|done|by eexists|by right|].
  vm_compute. split; [exists [60], []; split_and!; repeat constructor; done|]. by split; [exists [], []|].
Defined.

(** [dk_alloc] hands out consecutive statistics slots and never writes
    outside the tables: a request that does not fit, or that is repeated,
    changes nothing. *)
Theorem dk_alloc_bounds s dkn slots name :
  0 ≤ dk_n s ≤ DK_NDRIVE → zlen (dk_name s) = DK_NDRIVE → zlen (dk_unit s) = DK_NDRIVE → 0 ≤ slots →
  wp (dk_alloc dkn slots name)
     (λ r s', 0 ≤ dk_n s' ≤ DK_NDRIVE ∧ zlen (dk_name s') = DK_NDRIVE ∧ zlen (dk_unit s') = DK_NDRIVE ∧
        if (dkn <? 0) && (dk_n s + slots <=? DK_NDRIVE) then
          r = dk_n s ∧ dk_n s' = dk_n s + slots ∧
          (∀ i, 0 ≤ i < slots → aget (dk_name s') (r + i) = Some name ∧ aget (dk_unit s') (r + i) = Some i) ∧
          (∀ i, i < r → aget (dk_name s') i = aget (dk_name s) i ∧ aget (dk_unit s') i = aget (dk_unit s) i)
        else r = dkn ∧ s' = s) s.
Proof.
  intros Hn H1 H2 Hs. unfold dk_alloc. apply wp_bind, wp_gets.
  destruct ((dkn <? 0) && (dk_n s + slots <=? DK_NDRIVE)) eqn:E; [|by apply wp_ret].
  to_prop. apply wp_bind, wp_modify.
  assert (Hfill : ∀ n i t (Q : unit → dkstate → Prop), 0 ≤ i → i + Z.of_nat n = slots →
    zlen (dk_name t) = DK_NDRIVE → zlen (dk_unit t) = DK_NDRIVE →
    (∀ t', dk_n t' = dk_n t → zlen (dk_name t') = DK_NDRIVE → zlen (dk_unit t') = DK_NDRIVE →
       (∀ j, aget (dk_name t') j = if (dk_n s + i <=? j) && (j <? dk_n s + slots) then Some name else aget (dk_name t) j) →
       (∀ j, aget (dk_unit t') j = if (dk_n s + i <=? j) && (j <? dk_n s + slots) then Some (j - dk_n s) else aget (dk_unit t) j) →
       Q tt t') →
    wp (dk_fill n i (dk_n s) name) Q t).
  { induction n as [|n IH]; intros i t Q Hi Hin L1 L2 HQ; cbn [dk_fill].
    - apply wp_ret. apply HQ; try done; intros j;
        (destruct ((dk_n s + i <=? j) && (j <? dk_n s + slots)) eqn:E'; [to_prop; lia|done]).
    - apply wp_bind. eapply wp_store; [rewrite aset_Some by lia; reflexivity|].
      apply wp_bind. eapply wp_store; [cbn [dk_unit]; rewrite aset_Some by lia; reflexivity|].
      apply IH; cbn [dk_name dk_unit dk_n]; rewrite ?length_insert; try done; try lia.
      intros t' T0 T1 T2 T3 T4. apply HQ; try done; intros j; [rewrite T3|rewrite T4]; rewrite aget_insert by lia;
        destruct (decide (dk_n s + i = j)) as [<-|];
        [ztest; (done || f_equal; lia)| |ztest; (done || f_equal; lia)|];
        (destruct (Z.leb_spec (dk_n s + (i + 1)) j), (Z.leb_spec (dk_n s + i) j); try lia; done). }
  apply wp_bind. apply (Hfill _ 0); try done; try lia. cbn [dk_n dk_name dk_unit].
  intros t' T0 T1 T2 T3 T4. apply wp_ret. rewrite T0. split_and!; try done; try lia.
  - intros i Hi. rewrite T3, T4. ztest. split; [done|f_equal; lia].
  - intros i Hi. rewrite T3, T4. by ztest.
Qed.

Lemma dk_alloc_bounds_witness :
  wp (dk_alloc (-1) 2 7)
     (λ r s', 0 ≤ dk_n s' ≤ DK_NDRIVE ∧ zlen (dk_name s') = DK_NDRIVE ∧ zlen (dk_unit s') = DK_NDRIVE ∧
        r = 1 ∧ dk_n s' = 3 ∧
        (∀ i, 0 ≤ i < 2 → aget (dk_name s') (r + i) = Some 7 ∧ aget (dk_unit s') (r + i) = Some i) ∧
        (∀ i, i < r → aget (dk_name s') i = aget [5; 0; 0; 0] i ∧ aget (dk_unit s') i = aget [0; 0; 0; 0] i))
     (DK 1 [5; 0; 0; 0] [0; 0; 0; 0]).
Proof. apply (dk_alloc_bounds (DK 1 [5; 0; 0; 0] [0; 0; 0; 0]) (-1) 2 7); done. Defined.

End Dsort.
