(* ===== verification/Callout.v ===== *)
(** * The callout queue (sys/kernel/kern_clock.c, sys/include/callout.h)

    Pending timeouts form a list headed by [calltodo]; each entry stores its
    time as a difference to its predecessor, except that entries already due
    (at the front, time <= 0) store how late they are.  [hardclock] advances
    all of them by touching only a prefix, [timeout] and [untimeout] keep the
    differences consistent and [softclock] runs what is due.

    Addresses: [&calltodo] is 1, [&callout[i]] is [2 + i]. *)

From S2P Require Import Prelude Links.

(** ** The interface other components use *)

(** [cq_has c P k]: the calls [P] are pending, in order of expiry, each with the
    ticks left, and [k] more can be armed. *)
Class CalloutQueue (C : Type) := {
  cq_has : C → list (Z * Z * Z) → nat → Prop;
  cq_timeout : Z → Z → Z → M C unit;
  cq_untimeout : Z → Z → M C unit;
  cq_timeout_spec : ∀ c P k fn arg t, cq_has c P (S k) →
    wp (cq_timeout fn arg t) (λ _ c', ∃ P1 P2, P = P1 ++ P2 ∧
      cq_has c' (P1 ++ (fn, arg, Z.max 1 t) :: P2) k) c;
  cq_untimeout_spec : ∀ c P k fn arg, cq_has c P k →
    wp (cq_untimeout fn arg) (λ _ c',
      ((∀ x, x ∈ P → x.1 ≠ (fn, arg)) ∧ cq_has c' P k) ∨
      ∃ P1 P2 r, P = P1 ++ (fn, arg, r) :: P2 ∧ (∀ x, x ∈ P1 → x.1 ≠ (fn, arg)) ∧
        cq_has c' (P1 ++ P2) (S k)) c
}.

Module Callout.

Definition NCALL : Z := 18.
Definition CALLTODO : Z := 1.
Definition callout_at (i : Z) : Z := 2 + i.

Record callout := CO { c_time : Z; c_arg : Z; c_func : Z; c_next : Z }.

(** [fired] records the calls [( *func)(arg)] made so far. *)
Record cost := CQ { nodes : gmap Z callout; callfree : Z; fired : list (Z * Z) }.

Definition rd (p : Z) : M cost callout := load (λ s, nodes s !! p).
Definition wr (p : Z) (f : callout → callout) : M cost unit :=
  store (λ s, b ← nodes s !! p; Some (CQ (<[p := f b]> (nodes s)) (callfree s) (fired s))).
Definition set_callfree (v : Z) : M cost unit := modify (λ s, CQ (nodes s) v (fired s)).

Definition with_time (v : Z) (b : callout) := CO v (c_arg b) (c_func b) (c_next b).
Definition with_next (v : Z) (b : callout) := CO (c_time b) (c_arg b) (c_func b) v.
Definition with_call (fn arg : Z) (b : callout) := CO (c_time b) arg fn (c_next b).

(** The search loop of [timeout]: returns [p1], [p2] and what is left of [t]. *)
Fixpoint timeout_scan (fuel : nat) (p1 t : Z) : M cost (Z * Z * Z) :=
  match fuel with
  | O => nofuel
  | S f =>
      a ← rd p1;
      let p2 := c_next a in
      if p2 =? 0 then mret (p1, p2, t)
      else
        b ← rd p2;
        if c_time b <? t then
          timeout_scan f p2 (if 0 <? c_time b then t - c_time b else t)
        else mret (p1, p2, t)
  end.

Definition timeout (fn arg t : Z) : M cost unit :=
  let t := if t <=? 0 then 1 else t in
  pnew ← gets callfree;
  if pnew =? 0 then panic "timeout table overflow"
  else
    n ← rd pnew;
    set_callfree (c_next n);;
    wr pnew (with_call fn arg);;
    sz ← gets (λ s, size (nodes s));
    '(p1, p2, t) ← timeout_scan (S sz) CALLTODO t;
    wr p1 (with_next pnew);;
    wr pnew (with_next p2);;
    wr pnew (with_time t);;
    when (negb (p2 =? 0)) (wr p2 (λ b, with_time (c_time b - t) b)).

Fixpoint untimeout_scan (fuel : nat) (p1 fn arg : Z) : M cost unit :=
  match fuel with
  | O => nofuel
  | S f =>
      a ← rd p1;
      let p2 := c_next a in
      if p2 =? 0 then mret tt
      else
        b ← rd p2;
        if (c_func b =? fn) && (c_arg b =? arg) then
          when (negb (c_next b =? 0) && (0 <? c_time b))
            (wr (c_next b) (λ x, with_time (c_time x + c_time b) x));;
          wr p1 (with_next (c_next b));;
          fr ← gets callfree;
          wr p2 (with_next fr);;
          set_callfree p2
        else untimeout_scan f p2 fn arg
  end.

Definition untimeout (fn arg : Z) : M cost unit :=
  sz ← gets (λ s, size (nodes s));
  untimeout_scan (S sz) CALLTODO fn arg.

(** The callout loop of [hardclock]; returns [needsoft]. *)
Fixpoint hardclock_callouts (fuel : nat) (p1 : Z) (needsoft : bool) : M cost bool :=
  match fuel with
  | O => nofuel
  | S f =>
      if p1 =? 0 then mret needsoft
      else
        wr p1 (λ b, with_time (c_time b - 1) b);;
        b ← rd p1;
        if 0 <? c_time b then mret needsoft
        else if c_time b =? 0 then mret true
        else hardclock_callouts f (c_next b) true
  end.

(** One round of the [for (;;)] loop of [softclock]: take the entry at the head
    off the queue when it is due and return what to call. *)
Definition softclock_next : M cost (option (Z * Z)) :=
  h ← rd CALLTODO;
  let p1 := c_next h in
  if p1 =? 0 then mret None
  else
    b ← rd p1;
    if 0 <? c_time b then mret None
    else
      wr CALLTODO (with_next (c_next b));;
      fr ← gets callfree;
      wr p1 (with_next fr);;
      set_callfree p1;;
      modify (λ s, CQ (nodes s) (callfree s) (fired s ++ [(c_func b, c_arg b)]));;
      mret (Some (c_func b, c_arg b)).

Section softclock.
(** What the called function itself does to the callout queue. *)
Variable callback : Z → Z → M cost unit.

(** The [for (;;)] loop of [softclock]. *)
Fixpoint softclock_callouts (fuel : nat) : M cost unit :=
  match fuel with
  | O => nofuel
  | S f =>
      nxt ← softclock_next;
      match nxt with
      | None => mret tt
      | Some (fn, arg) => callback fn arg;; softclock_callouts f
      end
  end.
End softclock.

(** [coutinit] *)
Fixpoint coutinit_loop (n : nat) (i : Z) : M cost unit :=
  match n with
  | O => mret tt
  | S n' => wr (callout_at (i - 1)) (with_next (callout_at i));; coutinit_loop n' (i + 1)
  end.

Definition coutinit : M cost unit :=
  set_callfree (callout_at 0);;
  coutinit_loop (Z.to_nat (NCALL - 1)) 1.

(** [hzto]: ticks until an absolute time; [now] is [time]. *)
Definition hz : Z := 200.

Definition hzto (tv_sec tv_usec now_sec now_usec : Z) : Z :=
  let sec := s32 (tv_sec - now_sec) in
  if sec <=? 2147483647 ÷ 1000 - 1000 then
    s32 (s32 (s32 (s32 (tv_sec - now_sec) * 1000) + s32 (tv_usec - now_usec) ÷ 1000) ÷ (1000 ÷ hz))
  else if sec <=? 2147483647 ÷ hz then s32 (sec * hz)
  else 2147483647.

(** ** Times relative to now *)

(** The ticks left for each entry of a list of stored times; [acc] is the time
    accumulated by the entries in front (0 while they are all due). *)
Definition advance (acc t : Z) : Z := if (acc <=? 0) && (t <=? 0) then acc else acc + t.
Fixpoint rems (acc : Z) (ts : list Z) : list Z :=
  match ts with
  | [] => []
  | t :: l => (if (acc <=? 0) && (t <=? 0) then t else acc + t) :: rems (advance acc t) l
  end.
Definition adv (acc : Z) (ts : list Z) : Z := foldl advance acc ts.

(** Behind the first entry that is not due, differences are not negative. *)
Fixpoint deltas (acc : Z) (ts : list Z) : Prop :=
  match ts with
  | [] => True
  | t :: l => (0 < acc → 0 ≤ t) ∧ deltas (advance acc t) l
  end.

Lemma rems_app acc l1 l2 : rems acc (l1 ++ l2) = rems acc l1 ++ rems (adv acc l1) l2.
Proof. revert acc. induction l1 as [|t l1 IH]; intros acc; simpl; [done|]. by rewrite IH. Qed.

Lemma deltas_app acc l1 l2 : deltas acc (l1 ++ l2) ↔ deltas acc l1 ∧ deltas (adv acc l1) l2.
Proof. revert acc. induction l1 as [|t l1 IH]; intros acc; simpl; [tauto|]. rewrite IH. tauto. Qed.

Lemma length_rems acc l : length (rems acc l) = length l.
Proof. revert acc. induction l; intros; simpl; auto. Qed.

Lemma advance_pos acc t : 0 < acc → advance acc t = acc + t.
Proof. intros. unfold advance. by ztest. Qed.

Lemma advance_nonneg acc t : 0 ≤ acc → (0 < acc → 0 ≤ t) → 0 ≤ advance acc t.
Proof.
  intros. unfold advance. destruct (Z.leb_spec acc 0), (Z.leb_spec t 0); cbn [andb]; lia.
Qed.

Lemma adv_nonneg acc l : 0 ≤ acc → deltas acc l → 0 ≤ adv acc l.
Proof.
  revert acc. induction l as [|t l IH]; intros acc Ha; simpl; [done|]. intros [Ht Hd].
  apply IH; [by apply advance_nonneg|done].
Qed.

(** Shifting the origin of a run of differences. *)
Lemma rems_pred acc l :
  0 < acc → deltas acc l → rems (acc - 1) l = (λ r, r - 1) <$> rems acc l ∧ deltas (acc - 1) l.
Proof.
  revert acc. induction l as [|t l IH]; intros acc Ha; [done|]. cbn [rems deltas fmap list_fmap].
  rewrite (advance_pos acc t) by done. rewrite (proj2 (Z.leb_gt acc 0)) by lia. cbn [andb].
  intros [Ht Hd]. specialize (Ht Ha). unfold advance.
  destruct (Z.leb_spec (acc - 1) 0), (Z.leb_spec t 0); cbn [andb].
  - replace (acc + t) with acc in * by lia. destruct (IH acc Ha Hd) as [-> ?].
    split; [f_equal; lia|split; [lia|done]].
  - replace (acc - 1 + t) with (acc + t - 1) by lia. destruct (IH (acc + t)) as [-> ?]; [lia|done|].
    split; [done|split; [lia|done]].
  - replace (acc - 1 + t) with (acc + t - 1) by lia. destruct (IH (acc + t)) as [-> ?]; [lia|done|].
    split; [done|split; [lia|done]].
  - replace (acc - 1 + t) with (acc + t - 1) by lia. destruct (IH (acc + t)) as [-> ?]; [lia|done|].
    split; [done|split; [lia|done]].
Qed.

(** What the loop of [hardclock] does to the stored times. *)
Fixpoint tick_times (ts : list Z) : list Z :=
  match ts with
  | [] => []
  | t :: l => (t - 1) :: (if t - 1 <? 0 then tick_times l else l)
  end.

Lemma tick_times_rems ts :
  deltas 0 ts → rems 0 (tick_times ts) = (λ r, r - 1) <$> rems 0 ts ∧ deltas 0 (tick_times ts).
Proof.
  induction ts as [|t l IH]; [done|]. cbn [tick_times deltas rems fmap list_fmap]. intros [_ Hd].
  unfold advance in *. cbn [Z.leb Z.compare andb] in *. rewrite !Z.add_0_l in *.
  destruct (Z.ltb_spec (t - 1) 0).
  - rewrite (proj2 (Z.leb_le t 0)) in * by lia. rewrite (proj2 (Z.leb_le (t - 1) 0)) by lia.
    destruct (IH Hd) as [-> ?]. done.
  - rewrite (proj2 (Z.leb_gt t 0)) in * by lia.
    destruct (rems_pred t l) as [Hr Hd']; [lia|done|].
    destruct (Z.leb_spec (t - 1) 0).
    + replace (t - 1) with 0 in * by lia. rewrite Hr. done.
    + rewrite Hr. split; [done|]. split; [lia|done].
Qed.

(** Where [timeout] puts an entry for [T] ticks from now. *)
Lemma insert_rems l1 l2 T :
  0 < T - adv 0 l1 → deltas 0 l1 → deltas (adv 0 l1) l2 →
  (∀ c l3, l2 = c :: l3 → T - adv 0 l1 ≤ c) →
  let t := T - adv 0 l1 in
  let l2' := match l2 with [] => [] | c :: l3 => (c - t) :: l3 end in
  rems 0 (l1 ++ t :: l2') = rems 0 l1 ++ T :: rems (adv 0 l1) l2 ∧ deltas 0 (l1 ++ t :: l2').
Proof.
  intros Ht Hd1 Hd2 Hc t l2'. pose proof (adv_nonneg 0 l1 ltac:(lia) Hd1) as Ha.
  rewrite rems_app, deltas_app. cbn [rems deltas].
  assert (Hadv : advance (adv 0 l1) t = T).
  { unfold advance. rewrite (proj2 (Z.leb_gt t 0)) by lia. rewrite andb_false_r. lia. }
  rewrite Hadv, (proj2 (Z.leb_gt t 0)) by lia. rewrite andb_false_r.
  replace (adv 0 l1 + t) with T by lia.
  assert (HT : 0 < T) by lia.
  destruct l2 as [|c l3]; subst l2'; [split_and!; try done; intros; lia|]. specialize (Hc c l3 eq_refl). destruct Hd2 as [Hc0 Hd2].
  cbn [rems deltas]. rewrite (advance_pos T) by done.
  rewrite (proj2 (Z.leb_gt T 0)) by lia. cbn [andb].
  assert (Hadvc : advance (adv 0 l1) c = adv 0 l1 + c).
  { unfold advance. rewrite (proj2 (Z.leb_gt c 0)) by lia. by rewrite andb_false_r. }
  rewrite Hadvc in *. rewrite (proj2 (Z.leb_gt c 0)) by lia. rewrite andb_false_r.
  replace (T + (c - t)) with (adv 0 l1 + c) by lia. split_and!; try done; lia.
Qed.

(** Removing an entry and giving its time to the next. *)
Lemma remove_rems l1 c l2 :
  deltas 0 (l1 ++ c :: l2) →
  let l2' := match l2 with [] => [] | d :: l3 => (if 0 <? c then d + c else d) :: l3 end in
  (∃ r, rems 0 (l1 ++ c :: l2) = rems 0 l1 ++ r :: rems (advance (adv 0 l1) c) l2 ∧
        rems 0 (l1 ++ l2') = rems 0 l1 ++ rems (advance (adv 0 l1) c) l2) ∧ deltas 0 (l1 ++ l2').
Proof.
  intros (Hd1 & Hc & Hd2)%deltas_app l2'. pose proof (adv_nonneg 0 l1 ltac:(lia) Hd1) as Ha.
  rewrite !rems_app, deltas_app. set (A := adv 0 l1) in *.
  assert (Hgoal : rems A l2' = rems (advance A c) l2 ∧ deltas A l2').
  { destruct l2 as [|d l3]; subst l2'; [done|]. cbn [rems deltas]. destruct Hd2 as [Hd Hd2].
    destruct (Z.ltb_spec 0 c).
    - assert (HA : advance A c = A + c) by (unfold advance; rewrite (proj2 (Z.leb_gt c 0)) by lia; by rewrite andb_false_r).
      rewrite HA in *. specialize (Hd ltac:(lia)). rewrite (advance_pos (A + c)) in * by lia.
      assert (HA2 : advance A (d + c) = A + c + d)
        by (unfold advance; rewrite (proj2 (Z.leb_gt (d + c) 0)) by lia; rewrite andb_false_r; lia).
      rewrite HA2. rewrite (proj2 (Z.leb_gt (d + c) 0)), (proj2 (Z.leb_gt (A + c) 0)) by lia.
      rewrite andb_false_r. cbn [andb]. split_and!; try done; [f_equal; lia|lia].
    - destruct (decide (A = 0)) as [->|].
      + unfold advance in *. cbn [Z.leb Z.compare andb] in *. rewrite (proj2 (Z.leb_le c 0)) in * by lia.
        done.
      + assert (c = 0) as -> by lia. assert (HA : advance A 0 = A) by (rewrite advance_pos; lia). by rewrite HA in *. }
  destruct Hgoal as [-> ?]. split; [|done]. eexists. split; [|done]. cbn [rems]. done.
Qed.

(** ** Representation *)

Definition nx (s : cost) : Z → option Z := λ p, c_next <$> nodes s !! p.
Definition time_of (s : cost) (p : Z) : Z := default 0 (c_time <$> nodes s !! p).
Definition ev_of (s : cost) (p : Z) : Z * Z := default (0, 0) ((λ b, (c_func b, c_arg b)) <$> nodes s !! p).

(** The pending list is [l], the free list [fs]. *)
Definition rep (s : cost) (l fs : list Z) : Prop :=
  chain (nx s) CALLTODO (CALLTODO :: l) ∧ chain (nx s) (callfree s) fs ∧
  NoDup (CALLTODO :: l ++ fs) ∧ deltas 0 (time_of s <$> l).

(** The pending calls, each with the ticks left. *)
Definition pending (s : cost) (l : list Z) : list (Z * Z * Z) :=
  zip (ev_of s <$> l) (rems 0 (time_of s <$> l)).

Lemma co_nx_Some s p n : nx s p = Some n ↔ ∃ b, nodes s !! p = Some b ∧ c_next b = n.
Proof. unfold nx. destruct (nodes s !! p); naive_solver. Qed.

Lemma chain_node s p l x : chain (nx s) p l → x ∈ l → x ≠ 0 ∧ ∃ b, nodes s !! x = Some b.
Proof.
  intros Hc (l1 & l2 & ->)%list_elem_of_split. apply lseg_app in Hc as (r & _ & -> & Hx & n & Hn & _).
  apply co_nx_Some in Hn as (b & Hb & _). eauto.
Qed.

Lemma co_chain_length s p q : chain (nx s) p q → (length q ≤ size (nodes s))%nat.
Proof.
  intros Hc. rewrite <- size_dom, <- (size_list_to_set (C := gset Z) q) by (by eapply chain_nodup).
  apply subseteq_size. intros x. rewrite elem_of_list_to_set, elem_of_dom. intros Hx.
  destruct (chain_node _ _ _ _ Hc Hx) as (_ & b & ->). eauto.
Qed.

Lemma co_wp_wr s p b f (Q : unit → cost → Prop) :
  nodes s !! p = Some b → Q tt (CQ (<[p := f b]> (nodes s)) (callfree s) (fired s)) → wp (wr p f) Q s.
Proof. intros Hb HQ. eapply wp_store; [by rewrite Hb|done]. Qed.

(** The successor of the last node in front of [post]. *)
Lemma chain_mid s pre p1 post :
  chain (nx s) CALLTODO (pre ++ p1 :: post) →
  ∃ b, nodes s !! p1 = Some b ∧ c_next b = default 0 (head post).
Proof.
  intros (r & _ & -> & _ & n & (b & Hb & <-)%co_nx_Some & Hc)%lseg_app. exists b. split; [done|].
  destruct post as [|y post]; simpl in *; [done|]. by destruct Hc.
Qed.

Lemma timeout_scan_ok fuel s T pre p1 l1 post (Q : Z * Z * Z → cost → Prop) :
  chain (nx s) CALLTODO (pre ++ p1 :: post) → CALLTODO :: l1 = pre ++ [p1] →
  deltas 0 (time_of s <$> l1 ++ post) → 0 < T - adv 0 (time_of s <$> l1) →
  Forall (λ r, r < T) (rems 0 (time_of s <$> l1)) → (length post < fuel)%nat →
  (∀ pre' p1' l1' post', pre ++ p1 :: post = pre' ++ p1' :: post' → CALLTODO :: l1' = pre' ++ [p1'] →
     l1 ++ post = l1' ++ post' → 0 < T - adv 0 (time_of s <$> l1') →
     Forall (λ r, r < T) (rems 0 (time_of s <$> l1')) →
     (∀ c l3, time_of s <$> post' = c :: l3 → T - adv 0 (time_of s <$> l1') ≤ c) →
     Q (p1', default 0 (head post'), T - adv 0 (time_of s <$> l1')) s) →
  wp (timeout_scan fuel p1 (T - adv 0 (time_of s <$> l1))) Q s.
Proof.
  revert pre p1 l1 post. induction fuel as [|fuel IH]; intros pre p1 l1 post Hc Hpre Hd HT Hall Hf HQ; [lia|].
  cbn [timeout_scan]. destruct (chain_mid _ _ _ _ Hc) as (b1 & Hb1 & Hn1).
  apply wp_bind. eapply wp_load; [exact Hb1|]. rewrite Hn1.
  destruct post as [|p2 post]; cbn [head default from_option id].
  { apply wp_ret. apply (HQ pre p1 l1 []); try done. }
  destruct (chain_node _ _ _ p2 Hc) as [Hp20 (b2 & Hb2)]; [set_solver|].
  rewrite (proj2 (Z.eqb_neq p2 0)) by done. apply wp_bind. eapply wp_load; [exact Hb2|].
  assert (Ht2 : time_of s p2 = c_time b2) by (unfold time_of; by rewrite Hb2).
  rewrite fmap_app in Hd. cbn [fmap list_fmap] in Hd. rewrite Ht2 in Hd.
  pose proof Hd as (Hd1 & Hc2 & Hd2)%deltas_app.
  pose proof (adv_nonneg 0 _ ltac:(lia) Hd1) as Hnn.
  set (A := adv 0 (time_of s <$> l1)) in *.
  destruct (Z.ltb_spec (c_time b2) (T - A)); cycle 1.
  { apply wp_ret. apply (HQ pre p1 l1 (p2 :: post)); try done.
    cbn [fmap list_fmap]. rewrite Ht2. intros c l3 [= <- _]. done. }
  assert (HA : adv 0 (time_of s <$> l1 ++ [p2]) = advance A (c_time b2)).
  { unfold adv. rewrite fmap_app, foldl_app. simpl. by rewrite Ht2. }
  assert (Ht' : (if 0 <? c_time b2 then T - A - c_time b2 else T - A) = T - adv 0 (time_of s <$> l1 ++ [p2])).
  { rewrite HA. unfold advance. destruct (Z.ltb_spec 0 (c_time b2)), (Z.leb_spec A 0), (Z.leb_spec (c_time b2) 0); cbn [andb]; lia. }
  rewrite Ht'. apply (IH (pre ++ [p1]) p2 (l1 ++ [p2]) post).
  - by rewrite <- app_assoc.
  - by rewrite app_comm_cons, Hpre.
  - rewrite <- app_assoc, fmap_app. cbn [app fmap list_fmap]. by rewrite Ht2.
  - rewrite <- Ht'. destruct (Z.ltb_spec 0 (c_time b2)); lia.
  - rewrite fmap_app, rems_app. apply Forall_app. split; [done|]. cbn [fmap list_fmap rems]. rewrite Ht2.
    constructor; [|constructor]. change (adv 0 (time_of s <$> l1)) with A.
    destruct ((A <=? 0) && (c_time b2 <=? 0)) eqn:E; to_prop; lia.
  - simpl in Hf. lia.
  - intros pre' p1' l1' post' E1 E2 E3. apply (HQ pre'); [by rewrite <- E1, <- app_assoc|done|by rewrite <- E3, <- app_assoc].
Qed.

Lemma pending_app s l1 l2 :
  pending s (l1 ++ l2) = pending s l1 ++ zip (ev_of s <$> l2) (rems (adv 0 (time_of s <$> l1)) (time_of s <$> l2)).
Proof.
  unfold pending. rewrite !fmap_app, rems_app, zip_with_app; [done|].
  by rewrite length_rems, !length_fmap.
Qed.

Lemma rems_ge acc l : 0 < acc → deltas acc l → Forall (λ r, acc ≤ r) (rems acc l).
Proof.
  revert acc. induction l as [|t l IH]; intros acc Ha; cbn [rems deltas]; [constructor|].
  intros [Ht Hd]. rewrite (advance_pos acc t) in * by done. specialize (Ht Ha).
  rewrite (proj2 (Z.leb_gt acc 0)) by lia. cbn [andb]. constructor; [lia|].
  eapply Forall_impl; [apply IH; [lia|done]|]. simpl. lia.
Qed.

Lemma chain_tail s l : chain (nx s) CALLTODO (CALLTODO :: l) → ∃ h, nodes s !! CALLTODO = Some h ∧ chain (nx s) (c_next h) l.
Proof. intros (_ & _ & n & (b & Hb & <-)%co_nx_Some & Hc). eauto. Qed.

(** The node map after an entry [x] has been linked in between [p1] and [p2]. *)
Definition linked (s s' : cost) (p1 x p2 t : Z) (e : Z * Z) : Prop :=
  (∀ z, nx s' z = upd (upd (nx s) x p2) p1 x z) ∧
  time_of s' x = t ∧ (∀ z, z ≠ x → z ≠ p2 → time_of s' z = time_of s z) ∧
  (p2 ≠ 0 → time_of s' p2 = time_of s p2 - t) ∧
  ev_of s' x = e ∧ (∀ z, z ≠ x → ev_of s' z = ev_of s z) ∧ fired s' = fired s.

Lemma linked_rep s s' l1 l2 pre p1 x fs T e :
  rep s (l1 ++ l2) (x :: fs) → CALLTODO :: l1 = pre ++ [p1] →
  0 < T - adv 0 (time_of s <$> l1) →
  Forall (λ r, r < T) (rems 0 (time_of s <$> l1)) →
  (∀ c l3, time_of s <$> l2 = c :: l3 → T - adv 0 (time_of s <$> l1) ≤ c) →
  linked s s' p1 x (default 0 (head l2)) (T - adv 0 (time_of s <$> l1)) e →
  nx s p1 = Some (default 0 (head l2)) → callfree s' = default 0 (nx s x) →
  rep s' (l1 ++ x :: l2) fs ∧ ∃ P2,
    pending s (l1 ++ l2) = pending s l1 ++ P2 ∧
    pending s' (l1 ++ x :: l2) = pending s l1 ++ (e, T) :: P2 ∧
    Forall (λ r, r.2 < T) (pending s l1) ∧ Forall (λ r, T ≤ r.2) P2.
Proof.
  intros (Hc & Hf & Hnd & Hd) Hpre HT Hlt Hge (Hnx & Htx & Hto & Htp & Hex & Heo & _) Hp1 Hfree.
  set (t := T - adv 0 (time_of s <$> l1)) in *.
  assert (Hnd' : NoDup (x :: CALLTODO :: (l1 ++ l2) ++ fs)).
  { assert (HP : x :: CALLTODO :: (l1 ++ l2) ++ fs ≡ₚ CALLTODO :: (l1 ++ l2) ++ x :: fs); [|by rewrite HP].
    rewrite (app_comm_cons (l1 ++ l2) (x :: fs)). by rewrite <- Permutation_middle. }
  apply NoDup_cons in Hnd' as [Hx Hnd']. apply NoDup_cons in Hnd' as [Hct Hnd']. apply NoDup_app in Hnd' as (Hnl & Hdis & _).
  assert (Hxl : x ∉ l1 ++ l2 ∧ x ≠ CALLTODO ∧ x ∉ fs) by set_solver. destruct Hxl as (Hxl & Hxc & Hxf).
  destruct Hf as (Ecf & Hx0 & n & Hn & Hf). rewrite Hn in Hfree. cbn in Hfree. subst n.
  assert (Hl1 : ∀ z, z ∈ l1 → z ≠ x ∧ z ≠ default 0 (head l2)).
  { intros z Hz. split; [set_solver|]. destruct l2 as [|p2 l2]; simpl.
    - intros ->. destruct (chain_node _ _ _ 0 Hc) as [? _]; [set_solver|done].
    - intros ->. apply NoDup_app in Hnl as (_ & Hd' & _). apply (Hd' p2); set_solver. }
  assert (Ht1 : time_of s' <$> l1 = time_of s <$> l1).
  { apply list_fmap_ext. intros i z Hz%list_elem_of_lookup_2. apply Hto; by apply Hl1. }
  assert (Ht2 : time_of s' <$> l2 = match time_of s <$> l2 with [] => [] | c :: l3 => (c - t) :: l3 end).
  { destruct l2 as [|p2 l2]; [done|]. cbn [fmap list_fmap head default from_option id] in *. f_equal.
    - apply Htp. eapply (chain_node _ _ (CALLTODO :: l1 ++ p2 :: l2) _ Hc). set_solver.
    - apply list_fmap_ext. intros i z Hz%list_elem_of_lookup_2. apply Hto; [set_solver|].
      apply NoDup_app in Hnl as (_ & _ & Hnl). apply NoDup_cons in Hnl as [? _]. by intros ->. }
  rewrite fmap_app in Hd. pose proof Hd as [Hd1 Hd2]%deltas_app.
  destruct (insert_rems _ _ T HT Hd1 Hd2 Hge) as [Hr Hdn]. cbv zeta in Hr, Hdn. fold t in Hr, Hdn.
  rewrite <- Ht2, <- Ht1 in Hr, Hdn.
  assert (Hev : ∀ l : list Z, x ∉ l → ev_of s' <$> l = ev_of s <$> l).
  { intros l Hl. apply list_fmap_ext. intros i z Hz%list_elem_of_lookup_2. apply Heo. by intros ->. }
  split.
  - split_and!.
    + assert (EH : ∀ l, CALLTODO :: l1 ++ l = pre ++ p1 :: l)
        by (intros; by rewrite app_comm_cons, Hpre, <- app_assoc).
      rewrite EH. rewrite EH in Hc. eapply (chain_insert_after (nx s)); [exact Hc| |done|exact Hp1|done].
      rewrite <- EH. set_solver.
    + eapply lseg_ext; [|exact Hf]. intros z Hz. rewrite Hnx, !upd_ne; [done|set_solver|].
      assert (p1 ∈ CALLTODO :: l1) by (rewrite Hpre; set_solver). set_solver.
    + assert (HP : (l1 ++ x :: l2) ++ fs ≡ₚ (l1 ++ l2) ++ x :: fs); [|by rewrite HP].
      rewrite <- !Permutation_middle. done.
    + rewrite fmap_app. cbn [fmap list_fmap]. by rewrite Htx.
  - exists (zip (ev_of s <$> l2) (rems (adv 0 (time_of s <$> l1)) (time_of s <$> l2))).
    split_and!.
    + apply pending_app.
    + unfold pending. rewrite !fmap_app. cbn [fmap list_fmap]. rewrite Htx, Hr, Hex, !Hev by set_solver.
      rewrite Ht1, zip_with_app by (by rewrite length_rems, !length_fmap). done.
    + unfold pending. apply Forall_forall. intros [e' r] Hin. apply elem_of_zip_r in Hin.
      rewrite Forall_forall in Hlt. by apply Hlt.
    + apply Forall_forall. intros [e' r] Hin%elem_of_zip_r. simpl.
      destruct (time_of s <$> l2) as [|c l3] eqn:El2; [cbn in Hin; set_solver|].
      specialize (Hge c l3 eq_refl). destruct Hd2 as [_ Hd2]. cbn [rems] in Hin.
      pose proof (adv_nonneg 0 _ ltac:(lia) Hd1). unfold advance in Hin, Hd2.
      rewrite (proj2 (Z.leb_gt c 0)) in Hin, Hd2 by lia. rewrite andb_false_r in Hin, Hd2.
      apply elem_of_cons in Hin as [->|Hin]; [lia|].
      eapply rems_ge in Hd2; [|lia]. rewrite Forall_forall in Hd2. specialize (Hd2 r Hin). cbv beta in Hd2. lia.
Qed.

Lemma timeout_ok s l x fs fn arg t :
  rep s l (x :: fs) →
  wp (timeout fn arg t)
     (λ _ s', ∃ l1 l2 P2, l = l1 ++ l2 ∧ rep s' (l1 ++ x :: l2) fs ∧
        pending s l = pending s l1 ++ P2 ∧
        pending s' (l1 ++ x :: l2) = pending s l1 ++ (fn, arg, Z.max 1 t) :: P2 ∧
        Forall (λ r, r.2 < Z.max 1 t) (pending s l1) ∧ Forall (λ r, Z.max 1 t ≤ r.2) P2 ∧
        fired s' = fired s) s.
Proof.
  intros Hrep. pose proof Hrep as (Hc & Hf & Hnd & Hd). unfold timeout.
  assert (HT : (if t <=? 0 then 1 else t) = Z.max 1 t) by (destruct (Z.leb_spec t 0); lia). rewrite HT.
  set (T := Z.max 1 t) in *. assert (HT1 : 1 ≤ T) by lia. clearbody T.
  pose proof Hf as (Ex & Hx0 & n & (bx & Hbx & <-)%co_nx_Some & Hf').
  apply wp_bind, wp_gets. rewrite Ex, (proj2 (Z.eqb_neq x 0)) by done.
  apply wp_bind. eapply wp_load; [exact Hbx|]. apply wp_bind, wp_modify.
  apply wp_bind. eapply co_wp_wr; [exact Hbx|].
  set (s1 := CQ _ _ _).
  assert (Hnx1 : ∀ z, nx s1 z = nx s z).
  { intros z. unfold nx, s1. simpl. destruct (decide (x = z)) as [<-|]; [by rewrite lookup_insert_eq, Hbx|by rewrite lookup_insert_ne]. }
  assert (Ht1 : ∀ z, time_of s1 z = time_of s z).
  { intros z. unfold time_of, s1. simpl. destruct (decide (x = z)) as [<-|]; [by rewrite lookup_insert_eq, Hbx|by rewrite lookup_insert_ne]. }
  assert (Htl : ∀ l : list Z, time_of s1 <$> l = time_of s <$> l) by (intros; apply list_fmap_ext; auto).
  assert (Hc1 : chain (nx s1) CALLTODO (CALLTODO :: l)) by (eapply lseg_ext; [|exact Hc]; auto).
  apply wp_bind, wp_gets. apply wp_bind.
  assert (Hxl : x ∉ CALLTODO :: l).
  { apply NoDup_cons in Hnd as [Hct Hnd]. apply NoDup_app in Hnd as (_ & Hdis & _). set_solver. }
  replace (timeout_scan (S (size (nodes s1))) CALLTODO T)
    with (timeout_scan (S (size (nodes s1))) CALLTODO (T - adv 0 (time_of s1 <$> []))) by (f_equal; simpl; lia).
  apply (timeout_scan_ok _ s1 T [] CALLTODO [] l); [done|done|by rewrite Htl|simpl; lia|constructor| |].
  { pose proof (co_chain_length _ _ _ Hc1). simpl in *. lia. }
  intros pre p1 l1 l2 E1 E2 E3 HT' Hlt Hge. cbn [app] in E1, E3. rewrite ?Htl in HT', Hlt, Hge |- *. setoid_rewrite Htl in Hge.
  assert (Hp1n : nx s p1 = Some (default 0 (head l2))).
  { rewrite <- Hnx1. rewrite E1 in Hc1. destruct (chain_mid _ _ _ _ Hc1) as (b & Hb & Hn). apply co_nx_Some. eauto. }
  set (p2 := default 0 (head l2)) in *. set (t' := T - adv 0 (time_of s <$> l1)) in *.
  assert (Hp1x : p1 ≠ x). { intros ->. apply Hxl. rewrite E1. set_solver. }
  assert (Hp2 : p2 ≠ x ∧ p2 ≠ p1).
  { subst p2. destruct l2 as [|y l2]; simpl.
    - split; [done|]. intros <-. destruct (chain_node _ _ _ 0 Hc) as [? _]; [rewrite E1; set_solver|done].
    - assert (y ∈ CALLTODO :: l) by (rewrite E1; set_solver). split; [by intros ->|]. intros ->.
      apply chain_nodup in Hc. rewrite E1 in Hc. apply NoDup_app in Hc as (_ & _ & Hc).
      apply NoDup_cons in Hc as [? _]. set_solver. }
  destruct Hp2 as [Hp2x Hp21].
  destruct (proj1 (co_nx_Some _ _ _) Hp1n) as (b1 & Hb1 & Hb1n).
  apply wp_bind. eapply co_wp_wr; [unfold s1; simpl; by rewrite lookup_insert_ne|].
  apply wp_bind. eapply co_wp_wr; [simpl; rewrite lookup_insert_ne by done; by rewrite lookup_insert_eq|].
  apply wp_bind. eapply co_wp_wr; [simpl; by rewrite lookup_insert_eq|].
  cbn [nodes callfree fired s1].
  set (m := <[x:=_]> (<[x:=_]> (<[p1:=_]> _))).
  assert (Hm : ∀ z, m !! z = if decide (z = x) then Some (CO t' arg fn p2)
                             else if decide (z = p1) then Some (with_next x b1) else nodes s !! z).
  { intros z. unfold m. destruct (decide (z = x)) as [->|]; [by rewrite lookup_insert_eq|].
    rewrite !(lookup_insert_ne _ x) by done.
    destruct (decide (z = p1)) as [->|]; [by rewrite lookup_insert_eq|]. rewrite lookup_insert_ne by done.
    by rewrite lookup_insert_ne. }
  clearbody m.
  assert (Hfin : ∀ s2, callfree s2 = c_next bx → fired s2 = fired s →
    (∀ z, nodes s2 !! z = if decide (z = p2 ∧ p2 ≠ 0) then (λ b, with_time (c_time b - t') b) <$> nodes s !! p2 else m !! z) →
    ∃ l1 l2 P2, l = l1 ++ l2 ∧ rep s2 (l1 ++ x :: l2) fs ∧ pending s l = pending s l1 ++ P2 ∧
      pending s2 (l1 ++ x :: l2) = pending s l1 ++ (fn, arg, T) :: P2 ∧
      Forall (λ r, r.2 < T) (pending s l1) ∧ Forall (λ r, T ≤ r.2) P2 ∧ fired s2 = fired s).
  { intros s2 Hcf Hfd Hs2. exists l1, l2. subst l.
    assert (Hlink : linked s s2 p1 x p2 t' (fn, arg)).
    { split_and!; try done.
      - intros z. unfold nx, upd. rewrite Hs2, Hm.
        destruct (decide (z = p2 ∧ p2 ≠ 0)) as [[-> ?]|Hz].
        + destruct (decide (p2 = p1)); [done|]. destruct (decide (p2 = x)); [done|]. by destruct (nodes s !! p2).
        + destruct (decide (z = x)) as [->|]; [by destruct (decide (x = p1))|].
          destruct (decide (z = p1)); [done|]. done.
      - unfold time_of. rewrite Hs2, Hm. rewrite decide_False by naive_solver. by rewrite decide_True.
      - intros z Hz1 Hz2. unfold time_of. rewrite Hs2, Hm. rewrite decide_False by naive_solver.
        rewrite decide_False by done. destruct (decide (z = p1)) as [->|]; [by rewrite Hb1|done].
      - intros Hp0. unfold time_of. rewrite Hs2. rewrite decide_True by done.
        destruct (chain_node _ _ _ p2 Hc) as [_ (b & ->)]; [|done]. rewrite E1. subst p2. destruct l2; [done|]. set_solver.
      - unfold ev_of. rewrite Hs2, Hm. rewrite decide_False by naive_solver. by rewrite decide_True.
      - intros z Hz. unfold ev_of. rewrite Hs2, Hm.
        destruct (decide (z = p2 ∧ p2 ≠ 0)) as [[-> ?]|Hz']; [by destruct (nodes s !! p2)|].
        rewrite decide_False by done. destruct (decide (z = p1)) as [->|]; [by rewrite Hb1|done]. }
    destruct (linked_rep s s2 l1 l2 pre p1 x fs T (fn, arg)) as (Hr & P2 & H1 & H2 & H3 & H4); try done.
    { rewrite Hcf. unfold nx. by rewrite Hbx. }
    exists P2. split_and!; done. }
  apply wp_when.
  - intros Hp0%negb_true_iff%Z.eqb_neq.
    destruct (chain_node _ _ _ p2 Hc) as [_ (b2 & Hb2)]; [rewrite E1; subst p2; destruct l2; [done|set_solver]|].
    eapply co_wp_wr; [simpl; rewrite Hm; rewrite !decide_False by done; exact Hb2|].
    apply Hfin; [done|done|]. simpl. intros z. destruct (decide (z = p2 ∧ p2 ≠ 0)) as [[-> _]|Hz].
    + by rewrite lookup_insert_eq, Hb2.
    + rewrite lookup_insert_ne; [done|]. naive_solver.
  - intros Hp0%negb_false_iff%Z.eqb_eq. apply Hfin; [done|done|]. intros z.
    rewrite decide_False by naive_solver. done.
Qed.

Lemma timeout_overflow s l fn arg t :
  rep s l [] → timeout fn arg t s = Panic "timeout table overflow" s.
Proof.
  intros (_ & Hf & _). simpl in Hf. unfold timeout, mbind, M_bind, gets. by rewrite Hf.
Qed.

(** The node map after the entry [x] behind [p1] has been freed. *)
Definition unlinked (s s' : cost) (p1 x p2 : Z) : Prop :=
  (∀ z, nx s' z = upd (upd (nx s) p1 p2) x (callfree s) z) ∧ callfree s' = x ∧
  (∀ z, z ≠ p2 → time_of s' z = time_of s z) ∧
  (p2 ≠ 0 → time_of s' p2 = if 0 <? time_of s x then time_of s p2 + time_of s x else time_of s p2) ∧
  (∀ z, ev_of s' z = ev_of s z) ∧ fired s' = fired s.

Lemma unlinked_rep s s' l1 x l2 pre p1 fs :
  rep s (l1 ++ x :: l2) fs → CALLTODO :: l1 = pre ++ [p1] →
  unlinked s s' p1 x (default 0 (head l2)) →
  rep s' (l1 ++ l2) (x :: fs) ∧ ∃ r P2,
    pending s (l1 ++ x :: l2) = pending s l1 ++ (ev_of s x, r) :: P2 ∧
    pending s' (l1 ++ l2) = pending s l1 ++ P2.
Proof.
  intros (Hc & Hf & Hnd & Hd) Hpre (Hnx & Hcf & Hto & Htp & Hev & _).
  assert (Hx0 : x ≠ 0) by (eapply (chain_node _ _ _ _ Hc); set_solver).
  apply NoDup_cons in Hnd as [Hct Hnd]. pose proof Hnd as (Hnl & Hdis & Hnf)%NoDup_app.
  pose proof Hnl as (_ & Hd12 & [Hx2 Hn2]%NoDup_cons)%NoDup_app.
  assert (EH : ∀ l, CALLTODO :: l1 ++ l = pre ++ p1 :: l) by (intros; by rewrite app_comm_cons, Hpre, <- app_assoc).
  assert (Hxp : x ≠ p1).
  { intros ->. apply chain_nodup in Hc. rewrite EH in Hc. apply NoDup_app in Hc as (_ & _ & [? _]%NoDup_cons). set_solver. }
  assert (Hxn : nx s x = Some (default 0 (head l2))).
  { replace (CALLTODO :: l1 ++ x :: l2) with ((CALLTODO :: l1) ++ x :: l2) in Hc by done.
    destruct (chain_mid _ _ _ _ Hc) as (b & Hb & Hn). apply co_nx_Some. eauto. }
  assert (Hl1 : ∀ z, z ∈ l1 → z ≠ default 0 (head l2)).
  { intros z Hz. destruct l2 as [|p2 l2]; simpl.
    - intros ->. destruct (chain_node _ _ _ 0 Hc) as [? _]; [set_solver|done].
    - intros ->. apply (Hd12 p2); set_solver. }
  assert (Ht1 : time_of s' <$> l1 = time_of s <$> l1).
  { apply list_fmap_ext. intros i z Hz%list_elem_of_lookup_2. apply Hto. by apply Hl1. }
  assert (Hel : ∀ l : list Z, ev_of s' <$> l = ev_of s <$> l) by (intros; apply list_fmap_ext; auto).
  assert (Ht2 : time_of s' <$> l2 = match time_of s <$> l2 with [] => []
     | d :: l3 => (if 0 <? time_of s x then d + time_of s x else d) :: l3 end).
  { destruct l2 as [|p2 l2]; [done|]. cbn [fmap list_fmap head default from_option id] in *. f_equal.
    - apply Htp. eapply (chain_node _ _ (CALLTODO :: l1 ++ x :: p2 :: l2) _ Hc). set_solver.
    - apply list_fmap_ext. intros i z Hz%list_elem_of_lookup_2. apply Hto.
      apply NoDup_cons in Hn2 as [? _]. by intros ->. }
  rewrite fmap_app in Hd. cbn [fmap list_fmap] in Hd.
  destruct (remove_rems _ _ _ Hd) as [(r & Hr1 & Hr2) Hdn]. cbv zeta in *.
  change (list_fmap Z Z (time_of s) l2) with (time_of s <$> l2) in *.
  rewrite <- Ht2, <- Ht1 in Hr2, Hdn. split.
  - split_and!.
    + rewrite EH. rewrite EH in Hc. eapply (chain_delete_after (nx s)); [exact Hc|exact Hxn|].
      intros z Hz. by rewrite Hnx, upd_ne.
    + rewrite Hcf. assert (Hfx : x ∉ fs) by set_solver.
      assert (Hp1f : p1 ∉ fs).
      { assert (p1 ∈ CALLTODO :: l1) by (rewrite Hpre; set_solver). set_solver. }
      split_and!; [done|done|]. exists (callfree s). rewrite Hnx, upd_eq. split; [done|].
      eapply lseg_ext; [|exact Hf]. intros z Hz. rewrite Hnx, !upd_ne; set_solver.
    + assert (HP : (l1 ++ l2) ++ x :: fs ≡ₚ (l1 ++ x :: l2) ++ fs) by (rewrite <- !Permutation_middle; done).
      constructor; [|by rewrite HP]. by rewrite HP.
    + by rewrite fmap_app.
  - exists r, (zip (ev_of s <$> l2) (rems (advance (adv 0 (time_of s <$> l1)) (time_of s x)) (time_of s <$> l2))).
    split.
    + unfold pending. rewrite !fmap_app. cbn [fmap list_fmap].
      change (list_fmap Z Z (time_of s) l2) with (time_of s <$> l2). rewrite Hr1.
      rewrite zip_with_app by (by rewrite length_rems, !length_fmap). done.
    + unfold pending. rewrite !Hel, !fmap_app, Hr2, Ht1.
      by rewrite zip_with_app by (by rewrite length_rems, !length_fmap).
Qed.

(** Unlinking [x] from behind [p1], as [untimeout] and [softclock] do. *)
Lemma unlink_state s s' l1 x l2 pre p1 fs bx b1 :
  rep s (l1 ++ x :: l2) fs → CALLTODO :: l1 = pre ++ [p1] →
  nodes s !! x = Some bx → nodes s !! p1 = Some b1 →
  callfree s' = x → fired s' = fired s →
  (∀ z, nodes s' !! z =
     if decide (z = x) then Some (with_next (callfree s) bx)
     else if decide (z = p1) then Some (with_next (c_next bx) b1)
     else if decide (z = c_next bx ∧ z ≠ 0 ∧ 0 < c_time bx)
          then (λ b, with_time (c_time b + c_time bx) b) <$> nodes s !! z
          else nodes s !! z) →
  unlinked s s' p1 x (default 0 (head l2)).
Proof.
  intros (Hc & _ & Hnd & _) Hpre Hbx Hb1 Hcf Hfd Hs'.
  assert (EH : ∀ l, CALLTODO :: l1 ++ l = pre ++ p1 :: l) by (intros; by rewrite app_comm_cons, Hpre, <- app_assoc).
  assert (Hn : c_next bx = default 0 (head l2)).
  { replace (CALLTODO :: l1 ++ x :: l2) with ((CALLTODO :: l1) ++ x :: l2) in Hc by done.
    destruct (chain_mid _ _ _ _ Hc) as (b & Hb & Hn). congruence. }
  assert (Hp2 : c_next bx ≠ x ∧ c_next bx ≠ p1).
  { rewrite Hn. pose proof (chain_nodup _ _ _ Hc) as Hnc. rewrite EH in Hnc.
    destruct l2 as [|p2 l2]; simpl.
    - split; intros <-; (destruct (chain_node _ _ _ 0 Hc) as [? _]; [rewrite EH; set_solver|done]).
    - apply NoDup_app in Hnc as (_ & _ & [H1 [H2 _]%NoDup_cons]%NoDup_cons). split; intros ->; set_solver. }
  destruct Hp2 as [Hp2x Hp21].
  assert (Hxp : x ≠ p1).
  { intros ->. apply chain_nodup in Hc. rewrite EH in Hc. apply NoDup_app in Hc as (_ & _ & [? _]%NoDup_cons). set_solver. }
  assert (Htx : time_of s x = c_time bx) by (unfold time_of; by rewrite Hbx).
  assert (Hex : c_next bx ≠ 0 → ∃ b, nodes s !! c_next bx = Some b).
  { rewrite Hn. intros H0. eapply (chain_node _ _ _ _ Hc). destruct l2; [done|]. set_solver. }
  rewrite <- Hn. clear Hc Hnd EH. split_and!; try done.
  - intros z. unfold nx, upd. rewrite Hs'. destruct (decide (z = x)); [done|]. destruct (decide (z = p1)); [done|].
    destruct (decide (z = c_next bx ∧ z ≠ 0 ∧ 0 < c_time bx)); [|done]. by destruct (nodes s !! z).
  - intros z Hz. unfold time_of at 1 2. rewrite Hs'.
    destruct (decide (z = x)) as [->|]; [by rewrite Hbx|]. destruct (decide (z = p1)) as [->|]; [by rewrite Hb1|].
    by rewrite decide_False by naive_solver.
  - intros Hp0. rewrite Htx. destruct (Hex Hp0) as [b Hb]. unfold time_of. rewrite Hs', Hb.
    rewrite (decide_False (P := c_next bx = x)), (decide_False (P := c_next bx = p1)) by done.
    destruct (Z.ltb_spec 0 (c_time bx)); [by rewrite decide_True|]. rewrite decide_False; [done|]. intros (_ & _ & ?); lia.
  - intros z. unfold ev_of. rewrite Hs'. destruct (decide (z = x)) as [->|]; [by rewrite Hbx|].
    destruct (decide (z = p1)) as [->|]; [by rewrite Hb1|]. destruct (decide (z = c_next bx ∧ z ≠ 0 ∧ 0 < c_time bx)); [|done]. by destruct (nodes s !! z).
Qed.

(** The first entry for a call is gone, or there was none. *)
Definition cancelled (s : cost) (l fs : list Z) (e : Z * Z) (s' : cost) : Prop :=
  (s' = s ∧ ∀ y, y ∈ l → ev_of s y ≠ e) ∨
  (∃ l1 x l2 r P2, l = l1 ++ x :: l2 ∧ ev_of s x = e ∧ (∀ y, y ∈ l1 → ev_of s y ≠ e) ∧
     rep s' (l1 ++ l2) (x :: fs) ∧ fired s' = fired s ∧
     pending s l = pending s l1 ++ (e, r) :: P2 ∧ pending s' (l1 ++ l2) = pending s l1 ++ P2).

Lemma untimeout_scan_ok fuel s pre p1 l1 post fs fn arg :
  rep s (l1 ++ post) fs → CALLTODO :: l1 = pre ++ [p1] → (∀ y, y ∈ l1 → ev_of s y ≠ (fn, arg)) →
  (length post < fuel)%nat →
  wp (untimeout_scan fuel p1 fn arg) (λ _, cancelled s (l1 ++ post) fs (fn, arg)) s.
Proof.
  revert pre p1 l1 post. induction fuel as [|fuel IH]; intros pre p1 l1 post Hrep Hpre Hno Hfu; [lia|].
  cbn [untimeout_scan]. pose proof Hrep as (Hc & Hfr & Hnd & Hd).
  assert (EH : ∀ l, CALLTODO :: l1 ++ l = pre ++ p1 :: l) by (intros; by rewrite app_comm_cons, Hpre, <- app_assoc).
  pose proof Hc as Hc'. rewrite EH in Hc'. destruct (chain_mid _ _ _ _ Hc') as (b1 & Hb1 & Hn1).
  apply wp_bind. eapply wp_load; [exact Hb1|]. rewrite Hn1.
  destruct post as [|x post]; cbn [head default from_option id].
  { apply wp_ret. left. split; [done|]. by rewrite app_nil_r. }
  destruct (chain_node _ _ _ x Hc) as [Hx0 (bx & Hbx)]; [set_solver|].
  rewrite (proj2 (Z.eqb_neq x 0)) by done. apply wp_bind. eapply wp_load; [exact Hbx|].
  assert (Hev : ev_of s x = (c_func bx, c_arg bx)) by (unfold ev_of; by rewrite Hbx).
  destruct ((c_func bx =? fn) && (c_arg bx =? arg)) eqn:E.
  - to_prop. subst fn arg.
    assert (Hnx : c_next bx = default 0 (head post)).
    { replace (CALLTODO :: l1 ++ x :: post) with ((CALLTODO :: l1) ++ x :: post) in Hc by done.
      destruct (chain_mid _ _ _ _ Hc) as (b & Hb & Hn). congruence. }
    assert (Hdist : x ≠ p1 ∧ c_next bx ≠ x ∧ c_next bx ≠ p1).
    { pose proof (chain_nodup _ _ _ Hc') as (_ & _ & [H1 [H2 _]%NoDup_cons]%NoDup_cons)%NoDup_app.
      rewrite Hnx. split; [set_solver|].
      destruct post as [|p2 post]; simpl; [|set_solver].
      split; intros <-; (destruct (chain_node _ _ _ 0 Hc) as [? _]; [rewrite EH; set_solver|done]). }
    destruct Hdist as (Hxp & Hnxx & Hnxp).
    assert (Hex : c_next bx ≠ 0 → ∃ b, nodes s !! c_next bx = Some b).
    { rewrite Hnx. intros H0. eapply (chain_node _ _ _ _ Hc). destruct post; [done|]. set_solver. }
    assert (Hrest : ∀ s1, callfree s1 = callfree s → fired s1 = fired s →
      (∀ z, nodes s1 !! z = if decide (z = c_next bx ∧ z ≠ 0 ∧ 0 < c_time bx)
                            then (λ b, with_time (c_time b + c_time bx) b) <$> nodes s !! z else nodes s !! z) →
      wp (wr p1 (with_next (c_next bx));; fr ← gets callfree; wr x (with_next fr);; set_callfree x)
         (λ _, cancelled s (l1 ++ x :: post) fs (c_func bx, c_arg bx)) s1).
    { intros s1 Hcf Hfd Hs1. apply wp_bind. eapply co_wp_wr; [rewrite Hs1, decide_False by naive_solver; exact Hb1|].
      apply wp_bind, wp_gets. apply wp_bind.
      eapply co_wp_wr; [simpl; rewrite lookup_insert_ne by done; rewrite Hs1, decide_False by naive_solver; exact Hbx|].
      apply wp_modify. simpl. right. rewrite Hcf, Hfd.
      set (s2 := CQ _ _ _).
      destruct (unlinked_rep s s2 l1 x post pre p1 fs Hrep Hpre) as (Hr & r & P2 & HP & HP').
      { apply (unlink_state s s2 l1 x post pre p1 fs bx b1); try done. intros z. simpl.
        destruct (decide (z = x)) as [->|]; [by rewrite lookup_insert_eq|]. rewrite lookup_insert_ne by done.
        destruct (decide (z = p1)) as [->|]; [by rewrite lookup_insert_eq|]. rewrite lookup_insert_ne by done.
        apply Hs1. }
      rewrite Hev in HP. exists l1, x, post, r, P2. split_and!; try done. }
    apply wp_bind. apply wp_when.
    + intros (Hn0%negb_true_iff%Z.eqb_neq & Htp%Z.ltb_lt)%andb_true_iff.
      destruct (Hex Hn0) as [b2 Hb2]. eapply co_wp_wr; [exact Hb2|]. apply Hrest; [done|done|]. simpl. intros z.
      destruct (decide (z = c_next bx ∧ z ≠ 0 ∧ 0 < c_time bx)) as [[-> _]|Hz]; [by rewrite lookup_insert_eq, Hb2|].
      rewrite lookup_insert_ne; [done|]. naive_solver.
    + intros Hf%andb_false_iff. apply Hrest; [done|done|]. intros z.
      destruct (decide (z = c_next bx ∧ z ≠ 0 ∧ 0 < c_time bx)) as [(-> & H0 & Ht)|Hz]; [|done].
      destruct Hf as [Hf%negb_false_iff%Z.eqb_eq|Hf%Z.ltb_ge]; [done|lia].
  - replace (l1 ++ x :: post) with ((l1 ++ [x]) ++ post) in * by (by rewrite <- app_assoc).
    apply (IH (pre ++ [p1])); [done|by rewrite app_comm_cons, Hpre| |simpl in Hfu; lia].
    intros y [Hy|Hy%list_elem_of_singleton]%elem_of_app; [auto|]. subst. rewrite Hev. intros [= E1 E2].
    by rewrite E1, E2, !Z.eqb_refl in E.
Qed.

(** Only stored times differ, and only within [l]. *)
Definition retimed (l : list Z) (s s' : cost) : Prop :=
  (∀ z, nx s' z = nx s z) ∧ (∀ z, ev_of s' z = ev_of s z) ∧ callfree s' = callfree s ∧ fired s' = fired s ∧
  (∀ z, z ∉ l → time_of s' z = time_of s z).

Definition head_due (ts : list Z) : bool := match ts with [] => false | t :: _ => t <=? 0 end.

Lemma hardclock_callouts_ok fuel s p l ns :
  chain (nx s) p l → (length l < fuel)%nat →
  wp (hardclock_callouts fuel p ns)
     (λ r s', retimed l s s' ∧ time_of s' <$> l = tick_times (time_of s <$> l) ∧
              r = ns || head_due (tick_times (time_of s <$> l))) s.
Proof.
  revert s p l ns. induction fuel as [|fuel IH]; intros s p l ns Hc Hfu; [lia|].
  cbn [hardclock_callouts]. destruct l as [|x l].
  { simpl in Hc. subst. apply wp_ret. split_and!; [by split_and!|done|by rewrite orb_false_r]. }
  pose proof (chain_nodup _ _ _ Hc) as [Hxl _]%NoDup_cons.
  destruct Hc as (-> & Hx0 & n & (b & Hb & <-)%co_nx_Some & Hc).
  rewrite (proj2 (Z.eqb_neq x 0)) by done. apply wp_bind. eapply co_wp_wr; [exact Hb|].
  set (s1 := CQ _ _ _).
  assert (Hs1 : retimed [x] s s1 ∧ time_of s1 x = time_of s x - 1 ∧ nodes s1 !! x = Some (with_time (c_time b - 1) b)).
  { unfold s1. split; [unfold retimed|]; split_and!; simpl; try done.
    - intros z. unfold nx. simpl. destruct (decide (x = z)) as [<-|]; [by rewrite lookup_insert_eq, Hb|by rewrite lookup_insert_ne].
    - intros z. unfold ev_of. simpl. destruct (decide (x = z)) as [<-|]; [by rewrite lookup_insert_eq, Hb|by rewrite lookup_insert_ne].
    - intros z Hz. unfold time_of. simpl. rewrite lookup_insert_ne; [done|]. set_solver.
    - unfold time_of. simpl. by rewrite lookup_insert_eq, Hb.
    - by rewrite lookup_insert_eq. }
  clearbody s1. destruct Hs1 as ((N1 & E1 & C1 & F1 & T1) & Tx & Hbx).
  assert (Hty : time_of s x = c_time b) by (unfold time_of; by rewrite Hb).
  assert (Hl1 : time_of s1 <$> l = time_of s <$> l).
  { apply list_fmap_ext. intros i z Hz%list_elem_of_lookup_2. apply T1. set_solver. }
  apply wp_bind. eapply wp_load; [exact Hbx|]. cbn [with_time c_time c_next fmap list_fmap tick_times head_due].
  change (list_fmap Z Z (time_of s) l) with (time_of s <$> l). rewrite Hty in *.
  assert (Hdone : ∀ r, 0 ≤ c_time b - 1 → r = ns || (c_time b - 1 <=? 0) →
    retimed (x :: l) s s1 ∧ time_of s1 x :: (time_of s1 <$> l) =
      (c_time b - 1) :: (if c_time b - 1 <? 0 then tick_times (time_of s <$> l) else time_of s <$> l) ∧
    r = ns || (c_time b - 1 <=? 0)).
  { intros r Hge Hr. ztest. rewrite Tx, Hl1. split_and!; try done. split_and!; try done.
    intros z Hz. apply T1. set_solver. }
  destruct (Z.ltb_spec 0 (c_time b - 1)).
  { apply wp_ret. apply Hdone; [lia|]. ztest. by rewrite orb_false_r. }
  destruct (Z.eqb_spec (c_time b - 1) 0).
  { apply wp_ret. apply Hdone; [lia|]. ztest. by rewrite orb_true_r. }
  eapply wp_mono; [apply (IH s1 (c_next b) l true)|].
  - eapply lseg_ext; [|exact Hc]. auto.
  - simpl in Hfu. lia.
  - cbv beta. intros r s2 ((N2 & E2 & C2 & F2 & T2) & Ht & ->). ztest. rewrite orb_true_r.
    rewrite T2, Tx by done. rewrite Hl1 in Ht. change (list_fmap Z Z (time_of s2) l) with (time_of s2 <$> l).
    rewrite Ht. split_and!; try done. split_and!; try congruence.
    intros z Hz. rewrite T2, T1 by set_solver. done.
Qed.

Lemma zip_sub (es : list (Z * Z)) rs n :
  zip es ((λ r, r - n) <$> rs) = (λ x : Z * Z * Z, (x.1, x.2 - n)) <$> zip es rs.
Proof. revert rs. induction es as [|e es IH]; intros [|r rs]; simpl; [done..|]. by rewrite IH. Qed.

Lemma retimed_rep s s' l fs :
  rep s l fs → retimed l s s' → time_of s' <$> l = tick_times (time_of s <$> l) →
  rep s' l fs ∧ pending s' l = (λ x : Z * Z * Z, (x.1, x.2 - 1)) <$> pending s l.
Proof.
  intros (Hc & Hf & Hnd & Hd) (N & E & C & F & T) Ht.
  destruct (tick_times_rems _ Hd) as [Hr Hd']. rewrite <- Ht in Hr, Hd'. split.
  - split_and!; [eapply lseg_ext; [|exact Hc]; auto|rewrite C; eapply lseg_ext; [|exact Hf]; auto|done|done].
  - unfold pending. rewrite Hr. assert (Hel : ev_of s' <$> l = ev_of s <$> l) by (apply list_fmap_ext; auto).
    rewrite Hel. apply zip_sub.
Qed.

(** One clock interrupt at base priority, as far as callouts are concerned. *)
Definition tick (callback : Z → Z → M cost unit) : M cost unit :=
  h ← rd CALLTODO;
  sz ← gets (λ s, size (nodes s));
  needsoft ← hardclock_callouts (S sz) (c_next h) false;
  when needsoft (softclock_callouts callback (S sz)).

Definition is_due (x : Z * Z * Z) : bool := x.2 <=? 0.

Lemma pending_cons s x l :
  pending s (x :: l) = (ev_of s x, time_of s x) :: zip (ev_of s <$> l) (rems (advance 0 (time_of s x)) (time_of s <$> l)).
Proof.
  unfold pending. cbn [fmap list_fmap rems zip zip_with]. f_equal. f_equal.
  cbn [Z.leb Z.compare andb]. destruct (time_of s x <=? 0); [done|lia].
Qed.

Lemma none_due s l : deltas 0 (time_of s <$> l) → (∀ x l', l = x :: l' → 0 < time_of s x) →
  Forall (λ x, 0 < x.2) (pending s l).
Proof.
  destruct l as [|x l]; intros Hd Hx; [constructor|]. specialize (Hx x l eq_refl).
  rewrite pending_cons. cbn [fmap list_fmap deltas] in Hd. destruct Hd as [_ Hd]. unfold advance in *.
  rewrite (proj2 (Z.leb_gt (time_of s x) 0)) in * by done. rewrite andb_false_r in *.
  constructor; [done|]. apply Forall_forall. intros [e r] Hin%elem_of_zip_r. simpl.
  apply rems_ge in Hd; [|lia]. rewrite Forall_forall in Hd. specialize (Hd r Hin). cbv beta in Hd. lia.
Qed.

Lemma is_due_spec x : is_due x ↔ x.2 ≤ 0.
Proof. unfold is_due. destruct (Z.leb_spec x.2 0); split; intros; try done; lia. Qed.

Lemma all_future (P : list (Z * Z * Z)) : Forall (λ x, 0 < x.2) P →
  filter is_due P = [] ∧ filter (λ x, ¬ is_due x) P = P.
Proof.
  induction 1 as [|x P Hx HP [IH1 IH2]]; [done|]. rewrite !filter_cons.
  rewrite decide_False by (rewrite is_due_spec; lia). rewrite decide_True by (rewrite is_due_spec; lia).
  split; [done|by f_equal].
Qed.

(** The head of the queue is taken off when it is due. *)
Lemma softclock_next_spec s l fs : rep s l fs →
  wp softclock_next
     (λ r s', match r with
              | None => s' = s ∧ Forall (λ x : Z * Z * Z, 0 < x.2) (pending s l)
              | Some e => ∃ x l2 t, l = x :: l2 ∧ rep s' l2 (x :: fs) ∧ t ≤ 0 ∧
                  pending s l = (e, t) :: pending s' l2 ∧ fired s' = fired s ++ [e]
              end) s.
Proof.
  intros Hrep. unfold softclock_next. pose proof Hrep as (Hc & Hfr & Hnd & Hd).
  destruct (chain_tail _ _ Hc) as (h & Hh & Hc').
  apply wp_bind. eapply wp_load; [exact Hh|].
  destruct l as [|x l].
  { simpl in Hc'. rewrite Hc'. apply wp_ret. split; [done|constructor]. }
  pose proof Hc' as (Ehx & Hx0 & n & (b & Hb & <-)%co_nx_Some & Hc2). rewrite Ehx.
  rewrite (proj2 (Z.eqb_neq x 0)) by done. apply wp_bind. eapply wp_load; [exact Hb|].
  assert (Htx : time_of s x = c_time b) by (unfold time_of; by rewrite Hb).
  destruct (Z.ltb_spec 0 (c_time b)) as [Hpos|Hdue].
  { apply wp_ret. split; [done|]. apply none_due; [done|]. intros ? ? [= <- <-]. lia. }
  assert (Hxc : x ≠ CALLTODO) by (apply NoDup_cons in Hnd as [Hct _]; set_solver).
  apply wp_bind. eapply co_wp_wr; [exact Hh|]. apply wp_bind, wp_gets.
  apply wp_bind. eapply co_wp_wr; [simpl; by rewrite lookup_insert_ne|].
  apply wp_bind, wp_modify. apply wp_bind, wp_modify. apply wp_ret. cbn [nodes callfree fired].
  set (s1 := CQ _ _ (fired s ++ _)).
  set (s0 := CQ (nodes s1) x (fired s)).
  destruct (unlinked_rep s s0 [] x l [] CALLTODO fs Hrep eq_refl) as (Hr0 & r & P2 & HP & HP').
  { apply (unlink_state s s0 [] x l [] CALLTODO fs b h); try done. intros z. unfold s0, s1. simpl.
    destruct (decide (z = x)) as [->|]; [by rewrite lookup_insert_eq|]. rewrite lookup_insert_ne by done.
    destruct (decide (z = CALLTODO)) as [->|]; [by rewrite lookup_insert_eq|]. rewrite lookup_insert_ne by done.
    rewrite decide_False; [done|]. intros (_ & _ & ?). lia. }
  cbn [app] in *. change (pending s []) with (@nil (Z * Z * Z)) in HP, HP'. cbn [app] in HP, HP'.
  assert (Hev : ev_of s x = (c_func b, c_arg b)) by (unfold ev_of; by rewrite Hb).
  exists x, l, r. split_and!; [done|exact Hr0| |by rewrite HP, Hev; f_equal|done].
  rewrite pending_cons in HP. injection HP. intros. lia.
Qed.

Section fires.
Context (callback : Z → Z → M cost unit) (R : list (Z * Z * Z) → list (Z * Z * Z) → Prop) `{!PreOrder R}.
(** A called function may arm and cancel calls, but none that are due. *)
Hypothesis callback_future : ∀ f a s l fs, rep s l fs →
  wp (callback f a) (λ _ s', ∃ l' fs', rep s' l' fs' ∧ fired s' = fired s ∧
        filter is_due (pending s' l') = filter is_due (pending s l) ∧
        R (filter (λ x, ¬ is_due x) (pending s l)) (filter (λ x, ¬ is_due x) (pending s' l'))) s.

Lemma softclock_fires fuel s l fs :
  rep s l fs → (length (filter is_due (pending s l)) < fuel)%nat →
  wp (softclock_callouts callback fuel)
     (λ _ s', ∃ l' fs', rep s' l' fs' ∧ fired s' = fired s ++ (filter is_due (pending s l)).*1 ∧
        Forall (λ x, 0 < x.2) (pending s' l') ∧
        R (filter (λ x, ¬ is_due x) (pending s l)) (pending s' l')) s.
Proof using Type*.
  revert s l fs. induction fuel as [|fuel IH]; intros s l fs Hrep Hfu; [lia|].
  cbn [softclock_callouts]. apply wp_bind. eapply wp_mono; [apply (softclock_next_spec _ _ _ Hrep)|].
  intros [[fn arg]|] s1; cbv beta iota.
  2:{ intros [-> Hall]. apply wp_ret. destruct (all_future _ Hall) as [-> ->].
      exists l, fs. split_and!; try done. by rewrite app_nil_r. }
  intros (x & l1 & t & -> & Hr1 & Ht & HP & Hf1). rewrite HP. rewrite HP in Hfu.
  assert (Hd1 : is_due (fn, arg, t)) by (by apply is_due_spec).
  rewrite filter_cons_True in Hfu by done. rewrite filter_cons_True, filter_cons_False by (done || auto).
  apply wp_bind. eapply wp_mono; [eapply callback_future; exact Hr1|]. cbv beta.
  intros _ s2 (l2 & fs2 & Hr2 & Hf2 & Hdue2 & HR2).
  eapply wp_mono; [apply (IH s2 l2 fs2 Hr2)|].
  - rewrite Hdue2. simpl in Hfu. lia.
  - cbv beta. intros _ s3 (l3 & fs3 & Hr3 & Hf3 & Hall3 & HR3). exists l3, fs3.
    split_and!; try done.
    + rewrite Hf3, Hf2, Hdue2, Hf1. simpl. by rewrite <- app_assoc.
    + by etransitivity.
Qed.
End fires.

(** ** Ticks *)

(** A function that leaves the callout queue alone. *)
Definition quiet (f a : Z) : M cost unit := mret tt.

Fixpoint ticks (callback : Z → Z → M cost unit) (n : nat) : M cost unit :=
  match n with
  | O => mret tt
  | S n' => tick callback;; ticks callback n'
  end.

(** Calls of a pending list that expire within [n] ticks, and the others. *)
Definition expiring (n : Z) (P : list (Z * Z * Z)) : list (Z * Z * Z) := filter (λ x, x.2 ≤ n) P.
Definition waiting (n : Z) (P : list (Z * Z * Z)) : list (Z * Z * Z) :=
  (λ x : Z * Z * Z, (x.1, x.2 - n)) <$> filter (λ x, n < x.2) P.

Lemma length_pending s l : length (pending s l) = length l.
Proof. unfold pending. rewrite length_zip, length_rems, !length_fmap. lia. Qed.

Lemma step_split (P : list (Z * Z * Z)) :
  let P' := (λ x : Z * Z * Z, (x.1, x.2 - 1)) <$> P in
  filter is_due P' = (λ x : Z * Z * Z, (x.1, x.2 - 1)) <$> expiring 1 P ∧
  filter (λ x, ¬ is_due x) P' = waiting 1 P.
Proof.
  unfold expiring, waiting. induction P as [|x P [IH1 IH2]]; [done|]. cbn [fmap list_fmap].
  rewrite !filter_cons. pose proof (is_due_spec (x.1, x.2 - 1)) as Hs. simpl in Hs.
  destruct (decide (x.2 ≤ 1)), (decide (1 < x.2)); try lia;
    [rewrite decide_True by (apply Hs; lia); rewrite decide_False by (rewrite Hs; lia)
    |rewrite decide_False by (rewrite Hs; lia); rewrite decide_True by (rewrite Hs; lia)];
    cbn [fmap list_fmap]; split; (done || by f_equal).
Qed.

Lemma expiring_fst P : ((λ x : Z * Z * Z, (x.1, x.2 - 1)) <$> expiring 1 P).*1 = (expiring 1 P).*1.
Proof. rewrite <- list_fmap_compose. done. Qed.

Lemma tick_generic callback R `{!PreOrder R} s l fs :
  (∀ f a s l fs, rep s l fs →
    wp (callback f a) (λ _ s', ∃ l' fs', rep s' l' fs' ∧ fired s' = fired s ∧
        filter is_due (pending s' l') = filter is_due (pending s l) ∧
        R (filter (λ x, ¬ is_due x) (pending s l)) (filter (λ x, ¬ is_due x) (pending s' l'))) s) →
  rep s l fs →
  wp (tick callback)
     (λ _ s', ∃ l' fs', rep s' l' fs' ∧ fired s' = fired s ++ (expiring 1 (pending s l)).*1 ∧
        Forall (λ x, 0 < x.2) (pending s' l') ∧ R (waiting 1 (pending s l)) (pending s' l')) s.
Proof.
  intros Hcb Hrep. unfold tick. pose proof Hrep as (Hc & _).
  destruct (chain_tail _ _ Hc) as (h & Hh & Hc').
  apply wp_bind. eapply wp_load; [exact Hh|]. apply wp_bind, wp_gets.
  pose proof (co_chain_length _ _ _ Hc) as Hlen. cbn [length] in Hlen.
  apply wp_bind. eapply wp_mono; [apply (hardclock_callouts_ok _ s (c_next h) l false Hc'); lia|]. cbv beta.
  intros r s1 (Hret & Ht & ->). cbn [orb].
  destruct (retimed_rep _ _ _ _ Hrep Hret Ht) as [Hrep1 HP1].
  assert (Hf1 : fired s1 = fired s) by apply Hret.
  destruct (step_split (pending s l)) as [Hd1 Hw1]. rewrite <- HP1 in Hd1, Hw1.
  apply wp_when.
  - intros _. eapply wp_mono; [apply (softclock_fires callback R Hcb _ s1 l fs Hrep1)|].
    + pose proof (length_filter is_due (pending s1 l)) as Hl. rewrite length_pending in Hl. lia.
    + cbv beta. intros _ s2 (l2 & fs2 & Hr2 & Hf2 & Hall & HR). exists l2, fs2.
      rewrite Hf2, Hf1, Hd1, expiring_fst. rewrite Hw1 in HR. done.
  - intros Hnd. exists l, fs. rewrite <- Ht in Hnd.
    assert (Hall : Forall (λ x : Z * Z * Z, 0 < x.2) (pending s1 l)).
    { apply none_due; [apply Hrep1|]. intros x l' ->. simpl in Hnd. by apply Z.leb_gt in Hnd. }
    destruct (all_future _ Hall) as [E1 E2]. rewrite Hf1, <- (expiring_fst (pending s l)), <- Hd1, <- Hw1, E1, E2.
    split_and!; try done. by rewrite app_nil_r.
Qed.

(** The pending list is ordered by expiry. *)
Lemma rems_ordered acc ts k :
  0 ≤ acc → deltas acc ts → 0 ≤ k →
  ∃ A B, rems acc ts = A ++ B ∧ Forall (λ r, r ≤ k) A ∧ Forall (λ r, k < r) B.
Proof.
  revert acc. induction ts as [|t ts IH]; intros acc Ha; cbn [rems deltas].
  { intros _ _. by exists [], []. }
  intros [Ht Hd] Hk. set (r := if (acc <=? 0) && (t <=? 0) then t else acc + t).
  destruct (decide (r ≤ k)) as [Hr|Hr].
  - destruct (IH _ (advance_nonneg _ _ Ha Ht) Hd Hk) as (A & B & -> & HA & HB).
    exists (r :: A), B. split_and!; [done|by constructor|done].
  - exists [], (r :: rems (advance acc t) ts). split_and!; [done|done|]. constructor; [lia|].
    assert (Hadv : advance acc t = r).
    { unfold r, advance in *. destruct (Z.leb_spec acc 0), (Z.leb_spec t 0); cbn [andb] in *; lia. }
    rewrite Hadv in *. apply rems_ge in Hd; [|lia]. eapply Forall_impl; [exact Hd|]. simpl. lia.
Qed.

Lemma pending_ordered s l fs k :
  rep s l fs → 0 ≤ k → ∃ A B, pending s l = A ++ B ∧ Forall (λ x, x.2 ≤ k) A ∧ Forall (λ x, k < x.2) B.
Proof.
  intros (_ & _ & _ & Hd) Hk. destruct (rems_ordered 0 _ k ltac:(lia) Hd Hk) as (A & B & E & HA & HB).
  unfold pending. rewrite E. assert (Hlen : length (A ++ B) = length (ev_of s <$> l)) by (rewrite <- E, length_rems, !length_fmap; done).
  rewrite length_app in Hlen. rewrite <- (take_drop (length A) (ev_of s <$> l)).
  rewrite zip_with_app by (rewrite length_take; lia).
  eexists _, _. split; [done|]. split; apply Forall_forall; intros [e r] Hin%elem_of_zip_r; simpl.
  - rewrite Forall_forall in HA. by apply HA.
  - rewrite Forall_forall in HB. by apply HB.
Qed.

Lemma filter_none {A} (Q : A → Prop) `{∀ x, Decision (Q x)} (xs : list A) : Forall (λ x, ¬ Q x) xs → filter Q xs = [].
Proof. induction 1; [done|]. by rewrite filter_cons_False. Qed.

Lemma filter_all {A} (Q : A → Prop) `{∀ x, Decision (Q x)} (xs : list A) : Forall Q xs → filter Q xs = xs.
Proof. induction 1; [done|]. rewrite filter_cons_True by done. by f_equal. Qed.

Lemma filter_cong {A} (Q R : A → Prop) `{∀ x, Decision (Q x), ∀ x, Decision (R x)} (xs : list A) :
  Forall (λ x, Q x ↔ R x) xs → filter Q xs = filter R xs.
Proof.
  induction 1 as [|x xs Hx _ IH]; [done|]. rewrite !filter_cons, IH.
  destruct (decide (Q x)), (decide (R x)); tauto.
Qed.

Lemma expiring_waiting P n : (expiring n (waiting 1 P)).*1 = (filter (λ x, 1 < x.2 ∧ x.2 ≤ n + 1) P).*1.
Proof.
  unfold expiring, waiting. induction P as [|x P IH]; [done|]. rewrite !filter_cons.
  destruct (decide (1 < x.2)); cbn [fmap list_fmap].
  - rewrite filter_cons. cbn [snd]. destruct (decide (x.2 - 1 ≤ n)); [rewrite decide_True by lia|rewrite decide_False by lia];
      cbn [fmap list_fmap fst]; [by f_equal|done].
  - rewrite decide_False by lia. done.
Qed.

Lemma waiting_waiting P n : 0 ≤ n → waiting n (waiting 1 P) = waiting (n + 1) P.
Proof.
  intros Hn. unfold waiting. induction P as [|x P IH]; [done|]. rewrite !filter_cons.
  destruct (decide (1 < x.2)); cbn [fmap list_fmap].
  - rewrite filter_cons. cbn [snd fst]. destruct (decide (n < x.2 - 1)); [rewrite decide_True by lia|rewrite decide_False by lia];
      cbn [fmap list_fmap fst snd]; [f_equal; [f_equal; lia|]; done|done].
  - rewrite decide_False by lia. done.
Qed.

Lemma expiring_split s l fs n :
  rep s l fs → 0 ≤ n →
  (expiring 1 (pending s l)).*1 ++ (expiring n (waiting 1 (pending s l))).*1 = (expiring (n + 1) (pending s l)).*1.
Proof.
  intros Hrep Hn. rewrite expiring_waiting.
  destruct (pending_ordered s l fs 1 Hrep ltac:(lia)) as (A & B & -> & HA & HB).
  unfold expiring. rewrite !filter_app, !fmap_app.
  rewrite (filter_all (λ x : Z * Z * Z, x.2 ≤ 1) A) by done.
  rewrite (filter_none (λ x : Z * Z * Z, x.2 ≤ 1) B) by (eapply Forall_impl; [exact HB|]; simpl; lia).
  rewrite (filter_none (λ x : Z * Z * Z, 1 < x.2 ∧ x.2 ≤ n + 1) A) by (eapply Forall_impl; [exact HA|]; simpl; lia).
  rewrite (filter_all (λ x : Z * Z * Z, x.2 ≤ n + 1) A) by (eapply Forall_impl; [exact HA|]; simpl; lia).
  rewrite app_nil_r. cbn [fmap list_fmap app]. do 2 f_equal. apply filter_cong.
  eapply Forall_impl; [exact HB|]. simpl. intros; lia.
Qed.

Lemma quiet_future f a s l fs : rep s l fs →
  wp (quiet f a) (λ _ s', ∃ l' fs', rep s' l' fs' ∧ fired s' = fired s ∧
        filter is_due (pending s' l') = filter is_due (pending s l) ∧
        filter (λ x, ¬ is_due x) (pending s l) = filter (λ x, ¬ is_due x) (pending s' l')) s.
Proof. intros. apply wp_ret. by exists l, fs. Qed.

Lemma ticks_future n s l fs :
  rep s l fs → Forall (λ x, 0 < x.2) (pending s l) ∨ (0 < n)%nat →
  wp (ticks quiet n)
     (λ _ s', ∃ l' fs', rep s' l' fs' ∧ fired s' = fired s ++ (expiring (Z.of_nat n) (pending s l)).*1 ∧
        pending s' l' = waiting (Z.of_nat n) (pending s l)) s.
Proof.
  revert s l fs. induction n as [|n IH]; intros s l fs Hrep H; cbn [ticks].
  - destruct H as [Hall|?]; [|lia]. apply wp_ret. exists l, fs. unfold expiring, waiting.
    rewrite filter_none by (eapply Forall_impl; [exact Hall|]; simpl; lia).
    rewrite filter_all by done. split_and!; [done|by rewrite app_nil_r|].
    rewrite <- (list_fmap_id (pending s l)) at 1. apply list_fmap_ext. intros i [e r] _. simpl. f_equal. lia.
  - apply wp_bind. eapply wp_mono; [apply (tick_generic quiet eq s l fs quiet_future Hrep)|]. cbv beta.
    intros _ s1 (l1 & fs1 & Hr1 & Hf1 & Hall1 & HP1).
    eapply wp_mono; [apply (IH s1 l1 fs1 Hr1); by left|]. cbv beta.
    intros _ s2 (l2 & fs2 & Hr2 & Hf2 & HP2). exists l2, fs2. split; [done|].
    rewrite HP2, Hf2, Hf1, <- HP1, <- app_assoc, (expiring_split s l fs) by (done || lia).
    rewrite waiting_waiting by lia. replace (Z.of_nat n + 1) with (Z.of_nat (S n)) by lia. done.
Qed.

(** ** Building the free list *)

Definition boot : cost :=
  CQ (list_to_map ((λ i, (i, CO 0 0 0 0)) <$> seqZ CALLTODO (NCALL + 1))) 0 [].

(** The free nodes after [coutinit]. *)
Definition all_nodes : list Z := callout_at <$> seqZ 0 NCALL.

Lemma coutinit_ok : ∃ s, coutinit boot = Ret tt s ∧ rep s [] all_nodes ∧ fired s = [].
Proof.
  eexists. split; [vm_compute; reflexivity|]. split; [|done]. split_and!.
  - split_and!; [done|done|]. exists 0. done.
  - vm_compute. repeat (split; [done|split; [done|]]; eexists; split; [reflexivity|]). reflexivity.
  - apply (bool_decide_unpack _). vm_compute. done.
  - done.
Qed.

Lemma pending_in s l x : x ∈ pending s l → ∃ y, y ∈ l ∧ ev_of s y = x.1.
Proof.
  intros Hx. destruct x as [e r]. apply elem_of_zip_l in Hx. apply list_elem_of_fmap in Hx as (y & -> & Hy). eauto.
Qed.

Lemma ev_pending s l y : y ∈ l → ∃ r, (ev_of s y, r) ∈ pending s l.
Proof.
  intros [i Hi]%list_elem_of_lookup. destruct (lookup_lt_is_Some_2 (rems 0 (time_of s <$> l)) i) as [r Hr].
  { rewrite length_rems, length_fmap. by eapply lookup_lt_Some. }
  exists r. apply list_elem_of_lookup. exists i. unfold pending. rewrite lookup_zip_with, list_lookup_fmap, Hi, Hr. done.
Qed.

(** A state with pending list and free list of given contents. *)
Definition has (s : cost) (P : list (Z * Z * Z)) (k : nat) : Prop :=
  ∃ l fs, rep s l fs ∧ pending s l = P ∧ length fs = k.

Lemma untimeout_ok s l fs fn arg :
  rep s l fs → wp (untimeout fn arg) (λ _, cancelled s l fs (fn, arg)) s.
Proof.
  intros Hrep. unfold untimeout. apply wp_bind, wp_gets.
  apply (untimeout_scan_ok _ s [] CALLTODO [] l fs); [done|done|set_solver|].
  destruct Hrep as (Hc & _). pose proof (co_chain_length _ _ _ Hc) as Hl. cbn [length] in Hl. lia.
Qed.

#[export, program] Instance callout_queue : CalloutQueue cost := {|
  cq_has := has;
  cq_timeout := timeout;
  cq_untimeout := untimeout
  |}.
Next Obligation.
  intros s P k fn arg t (l & [|x fs] & Hrep & <- & [= <-]).
  eapply wp_mono; [by apply timeout_ok|]. cbv beta.
  intros _ s' (l1 & l2 & P2 & -> & Hrep' & -> & HP & _ & _ & _).
  exists (pending s l1), P2. split; [done|]. by exists (l1 ++ x :: l2), fs.
Qed.
Next Obligation.
  intros s P k fn arg (l & fs & Hrep & <- & <-).
  eapply wp_mono; [by apply untimeout_ok|]. cbv beta.
  intros _ s' [(-> & Hno)|(l1 & x & l2 & r & P2 & -> & Hx & Hno & Hrep' & _ & HP & HP')].
  - left. split; [|by exists l, fs]. intros y Hy E. apply pending_in in Hy as (z & Hz & Ez). apply (Hno z Hz). congruence.
  - right. exists (pending s l1), P2, r. split_and!; [done| |by exists (l1 ++ l2), (x :: fs)].
    intros y Hy E. apply pending_in in Hy as (z & Hz & Ez). apply (Hno z Hz). congruence.
Qed.

(** ** Theorems *)

(** [timeout] arms a call for exactly [max 1 t] ticks from now, at its
    place in the order of expiry, without changing when any other pending call
    expires; with an empty free list it panics. *)
Theorem timeout_inserts s l fs fn arg t :
  rep s l fs →
  match fs with
  | [] => timeout fn arg t s = Panic "timeout table overflow" s
  | x :: fs' =>
      wp (timeout fn arg t)
         (λ _ s', ∃ l1 l2 P1 P2, l = l1 ++ l2 ∧ rep s' (l1 ++ x :: l2) fs' ∧
            pending s l = P1 ++ P2 ∧
            pending s' (l1 ++ x :: l2) = P1 ++ (fn, arg, Z.max 1 t) :: P2 ∧
            Forall (λ r, r.2 < Z.max 1 t) P1 ∧ Forall (λ r, Z.max 1 t ≤ r.2) P2 ∧
            fired s' = fired s) s
  end.
Proof.
  destruct fs as [|x fs]; intros Hrep; [by eapply timeout_overflow|].
  eapply wp_mono; [by apply timeout_ok|]. cbv beta. intros _ s' (l1 & l2 & P2 & H). naive_solver.
Qed.

Lemma timeout_inserts_witness :
  ∃ s, coutinit boot = Ret tt s ∧
    wp (timeout 7 8 5)
       (λ _ s', ∃ l1 l2 P1 P2, [] = l1 ++ l2 ∧ rep s' (l1 ++ 2 :: l2) (tail all_nodes) ∧
          pending s [] = P1 ++ P2 ∧ pending s' (l1 ++ 2 :: l2) = P1 ++ (7, 8, Z.max 1 5) :: P2 ∧
          Forall (λ r, r.2 < Z.max 1 5) P1 ∧ Forall (λ r, Z.max 1 5 ≤ r.2) P2 ∧ fired s' = fired s) s.
Proof.
  destruct coutinit_ok as (s & Hs & Hrep & _). exists s. split; [done|].
  exact (timeout_inserts s [] all_nodes 7 8 5 Hrep).
Defined.

(** [untimeout] removes the first pending call of the given function and
    argument and nothing else: every other call still expires when it did. *)
Theorem untimeout_cancels s l fs fn arg :
  rep s l fs → wp (untimeout fn arg) (λ _, cancelled s l fs (fn, arg)) s.
Proof. apply untimeout_ok. Qed.

Lemma untimeout_cancels_witness :
  ∃ s, coutinit boot = Ret tt s ∧ wp (untimeout 7 8) (λ _, cancelled s [] all_nodes (7, 8)) s.
Proof.
  destruct coutinit_ok as (s & Hs & Hrep & _). exists s. split; [done|]. by apply untimeout_cancels.
Defined.


Definition demo : cost :=
  match (coutinit;; timeout 7 8 5;; timeout 9 9 2;; timeout 1 1 5) boot with Ret _ s => s | _ => boot end.

Lemma co_demo_rep : rep demo [3; 4; 2] (drop 3 all_nodes).
Proof.
  split_and!.
  - vm_compute. repeat (split; [done|split; [done|]]; eexists; split; [reflexivity|]). reflexivity.
  - vm_compute. repeat (split; [done|split; [done|]]; eexists; split; [reflexivity|]). reflexivity.
  - apply (bool_decide_unpack _). vm_compute. done.
  - vm_compute. repeat split; discriminate.
Qed.


(** [softclock] makes exactly the calls that are due, each once and in
    order, whatever future calls the called functions arm or cancel. *)
Theorem softclock_runs_due callback s l fs :
  (∀ f a s l fs, rep s l fs →
    wp (callback f a) (λ _ s', ∃ l' fs', rep s' l' fs' ∧ fired s' = fired s ∧
        filter is_due (pending s' l') = filter is_due (pending s l)) s) →
  rep s l fs →
  wp (softclock_callouts callback (S (length l)))
     (λ _ s', ∃ l' fs', rep s' l' fs' ∧ fired s' = fired s ++ (filter is_due (pending s l)).*1 ∧
        Forall (λ x, 0 < x.2) (pending s' l')) s.
Proof.
  intros Hcb Hrep.
  assert (Hpre : PreOrder (λ _ _ : list (Z * Z * Z), True)) by (split; done).
  assert (Hcb' : ∀ f a s l fs, rep s l fs →
    wp (callback f a) (λ _ s', ∃ l' fs', rep s' l' fs' ∧ fired s' = fired s ∧
        filter is_due (pending s' l') = filter is_due (pending s l) ∧ True) s).
  { intros f a s0 l0 fs0 H0. eapply wp_mono; [by eapply Hcb|]. cbv beta. naive_solver. }
  eapply wp_mono; [apply (softclock_fires callback (λ _ _, True) Hcb' _ s l fs Hrep)|].
  - pose proof (length_filter is_due (pending s l)) as Hl. rewrite length_pending in Hl. lia.
  - cbv beta. naive_solver.
Qed.

Lemma softclock_runs_due_witness :
  wp (softclock_callouts quiet 4)
     (λ _ s', ∃ l' fs', rep s' l' fs' ∧ fired s' = fired demo ++ (filter is_due (pending demo [3; 4; 2])).*1 ∧
        Forall (λ x, 0 < x.2) (pending s' l')) demo.
Proof.
  apply (softclock_runs_due quiet demo [3; 4; 2] (drop 3 all_nodes)); [|apply co_demo_rep].
  intros f a s l fs Hrep. eapply wp_mono; [by eapply quiet_future|]. cbv beta. naive_solver.
Defined.

(** [hzto] never wraps around for a time that is not in the past: up to
    2146483 seconds it is the exact number of ticks, then whole seconds, then
    the largest integer. *)
Theorem hzto_saturates tv_sec tv_usec now_sec now_usec :
  is_s32 tv_sec → is_s32 now_sec → 0 ≤ tv_sec - now_sec < 2 ^ 31 →
  0 ≤ tv_usec < 1000000 → 0 ≤ now_usec < 1000000 →
  let sec := tv_sec - now_sec in
  hzto tv_sec tv_usec now_sec now_usec =
    if sec <=? 2146483 then (sec * 1000 + (tv_usec - now_usec) ÷ 1000) ÷ 5
    else Z.min (sec * hz) 2147483647.
Proof.
  intros Ht Hn Hs Hu Hv sec. unfold hzto. fold sec. unfold hz. rewrite (s32_id sec) by (unfold is_s32; lia).
  change (2147483647 ÷ 1000 - 1000) with 2146483. change (2147483647 ÷ 200) with 10737418. change (1000 ÷ 200) with 5.
  assert (Hq : -1000 ≤ (tv_usec - now_usec) ÷ 1000 ≤ 1000) by (pose proof (Z.quot_rem' (tv_usec - now_usec) 1000);
    pose proof (Z.rem_bound_abs (tv_usec - now_usec) 1000 ltac:(lia)); lia).
  destruct (Z.leb_spec sec 2146483).
  - rewrite (s32_id (tv_usec - now_usec)), (s32_id (sec * 1000)) by (unfold is_s32; lia).
    rewrite (s32_id (sec * 1000 + _)) by (unfold is_s32; lia). apply s32_id. unfold is_s32.
    set (a := sec * 1000 + (tv_usec - now_usec) ÷ 1000).
    pose proof (Z.quot_rem' a 5). pose proof (Z.rem_bound_abs a 5 ltac:(lia)). lia.
  - destruct (Z.leb_spec sec 10737418).
    + rewrite s32_id by (unfold is_s32; lia). lia.
    + lia.
Qed.

Lemma hzto_saturates_witness : hzto 1000 500000 900 250000 = 20050.
Proof.
  assert (H := hzto_saturates 1000 500000 900 250000). cbv zeta in H.
  rewrite H; [vm_compute; reflexivity|unfold is_s32; lia..].
Defined.

End Callout.
