(* ===== verification/Sched.v ===== *)
(** * Sleep, wakeup and scheduling (sys/kernel/kern_synch.c, kern_proc.c)

    A process sleeps on a channel by linking itself into one of 16 hashed sleep
    queues; [wakeup] moves the sleepers of a channel to the run queue [qs],
    from which [swtch] takes the best one.  Both kinds of queue go through the
    same field [p_link].  Timed sleeps use the callout queue through its
    interface [CalloutQueue].

    The addresses of the sleep channels [&lbolt], [&runin] and [&runout] and of
    the functions armed with [timeout] are parameters; signals posted with
    [psignal] are recorded in [sigs]. *)

From S2P Require Import Prelude Links Callout.

Module Sched.

Definition SQSIZE : Z := 16.
Definition SSLEEP : Z := 1.
Definition SWAIT : Z := 2.
Definition SRUN : Z := 3.
Definition SIDL : Z := 4.
Definition SZOMB : Z := 5.
Definition SSTOP : Z := 6.
Definition SLOAD : Z := 1.
Definition SSWAP : Z := 8.
Definition P_SINTR : Z := 128.
Definition P_TIMEOUT : Z := 4096.
Definition PZERO : Z := 25.
Definition PUSER : Z := 50.
Definition PCATCH : Z := 256.
Definition PRIMASK : Z := 255.
Definition SIGALRM : Z := 14.
Definition EINTR : Z := 4.
Definition EWOULDBLOCK : Z := 35.
Definition ERESTART : Z := -1.
Definition PIDHSZ : Z := 16.
Definition NPROC : Z := 25.

(** [&proc[0]] *)
Definition PROC0 : Z := 1.

Definition HASH (x : Z) : Z := Z.land (Z.shiftr x 5) (SQSIZE - 1).
Definition PIDHASH (pid : Z) : Z := Z.land pid (PIDHSZ - 1).

Record proc := Proc {
  p_nxt : Z;
  p_pptr : Z;
  p_flag : Z;
  p_uid : Z;
  p_pid : Z;
  p_ppid : Z;
  p_stat : Z;
  p_pri : Z;
  p_cpu : Z;
  p_time : Z;
  p_nice : Z;
  p_slptime : Z;
  p_hash : Z;
  p_link : Z;
  p_addr : Z;
  p_wchan : Z;
  p_rtval : Z;
  p_rtint : Z;
  p_pgrp : Z;
  p_sig : Z;
  p_sigmask : Z;
  p_sigignore : Z;
  p_sigcatch : Z;
  p_ptracesig : Z
}.

Definition set_p_flag (v : Z) (p : proc) : proc :=
  Proc (p_nxt p) (p_pptr p) v (p_uid p) (p_pid p) (p_ppid p) (p_stat p) (p_pri p) (p_cpu p) (p_time p) (p_nice p) (p_slptime p) (p_hash p) (p_link p) (p_addr p) (p_wchan p) (p_rtval p) (p_rtint p) (p_pgrp p) (p_sig p) (p_sigmask p) (p_sigignore p) (p_sigcatch p) (p_ptracesig p).
Definition set_p_stat (v : Z) (p : proc) : proc :=
  Proc (p_nxt p) (p_pptr p) (p_flag p) (p_uid p) (p_pid p) (p_ppid p) v (p_pri p) (p_cpu p) (p_time p) (p_nice p) (p_slptime p) (p_hash p) (p_link p) (p_addr p) (p_wchan p) (p_rtval p) (p_rtint p) (p_pgrp p) (p_sig p) (p_sigmask p) (p_sigignore p) (p_sigcatch p) (p_ptracesig p).
Definition set_p_pri (v : Z) (p : proc) : proc :=
  Proc (p_nxt p) (p_pptr p) (p_flag p) (p_uid p) (p_pid p) (p_ppid p) (p_stat p) v (p_cpu p) (p_time p) (p_nice p) (p_slptime p) (p_hash p) (p_link p) (p_addr p) (p_wchan p) (p_rtval p) (p_rtint p) (p_pgrp p) (p_sig p) (p_sigmask p) (p_sigignore p) (p_sigcatch p) (p_ptracesig p).
Definition set_p_cpu (v : Z) (p : proc) : proc :=
  Proc (p_nxt p) (p_pptr p) (p_flag p) (p_uid p) (p_pid p) (p_ppid p) (p_stat p) (p_pri p) v (p_time p) (p_nice p) (p_slptime p) (p_hash p) (p_link p) (p_addr p) (p_wchan p) (p_rtval p) (p_rtint p) (p_pgrp p) (p_sig p) (p_sigmask p) (p_sigignore p) (p_sigcatch p) (p_ptracesig p).
Definition set_p_time (v : Z) (p : proc) : proc :=
  Proc (p_nxt p) (p_pptr p) (p_flag p) (p_uid p) (p_pid p) (p_ppid p) (p_stat p) (p_pri p) (p_cpu p) v (p_nice p) (p_slptime p) (p_hash p) (p_link p) (p_addr p) (p_wchan p) (p_rtval p) (p_rtint p) (p_pgrp p) (p_sig p) (p_sigmask p) (p_sigignore p) (p_sigcatch p) (p_ptracesig p).
Definition set_p_slptime (v : Z) (p : proc) : proc :=
  Proc (p_nxt p) (p_pptr p) (p_flag p) (p_uid p) (p_pid p) (p_ppid p) (p_stat p) (p_pri p) (p_cpu p) (p_time p) (p_nice p) v (p_hash p) (p_link p) (p_addr p) (p_wchan p) (p_rtval p) (p_rtint p) (p_pgrp p) (p_sig p) (p_sigmask p) (p_sigignore p) (p_sigcatch p) (p_ptracesig p).
Definition set_p_link (v : Z) (p : proc) : proc :=
  Proc (p_nxt p) (p_pptr p) (p_flag p) (p_uid p) (p_pid p) (p_ppid p) (p_stat p) (p_pri p) (p_cpu p) (p_time p) (p_nice p) (p_slptime p) (p_hash p) v (p_addr p) (p_wchan p) (p_rtval p) (p_rtint p) (p_pgrp p) (p_sig p) (p_sigmask p) (p_sigignore p) (p_sigcatch p) (p_ptracesig p).
Definition set_p_wchan (v : Z) (p : proc) : proc :=
  Proc (p_nxt p) (p_pptr p) (p_flag p) (p_uid p) (p_pid p) (p_ppid p) (p_stat p) (p_pri p) (p_cpu p) (p_time p) (p_nice p) (p_slptime p) (p_hash p) (p_link p) (p_addr p) v (p_rtval p) (p_rtint p) (p_pgrp p) (p_sig p) (p_sigmask p) (p_sigignore p) (p_sigcatch p) (p_ptracesig p).
Definition set_p_rtval (v : Z) (p : proc) : proc :=
  Proc (p_nxt p) (p_pptr p) (p_flag p) (p_uid p) (p_pid p) (p_ppid p) (p_stat p) (p_pri p) (p_cpu p) (p_time p) (p_nice p) (p_slptime p) (p_hash p) (p_link p) (p_addr p) (p_wchan p) v (p_rtint p) (p_pgrp p) (p_sig p) (p_sigmask p) (p_sigignore p) (p_sigcatch p) (p_ptracesig p).
Definition set_p_nice (v : Z) (p : proc) : proc :=
  Proc (p_nxt p) (p_pptr p) (p_flag p) (p_uid p) (p_pid p) (p_ppid p) (p_stat p) (p_pri p) (p_cpu p) (p_time p) v (p_slptime p) (p_hash p) (p_link p) (p_addr p) (p_wchan p) (p_rtval p) (p_rtint p) (p_pgrp p) (p_sig p) (p_sigmask p) (p_sigignore p) (p_sigcatch p) (p_ptracesig p).

Record kst (C : Type) := KS {
  procs : gmap Z proc;
  slpque : list Z;
  qs : Z;
  pidhash : list Z;
  freeproc : Z;
  allproc : Z;
  zombproc : Z;
  runrun : Z;
  curpri : Z;
  noproc : bool;
  runin : Z;
  runout : Z;
  panicstr : bool;
  v_swtch : Z;
  ru_nvcsw : Z;
  u_procp : Z;
  u_error : Z;
  u_sigintr : Z;
  sigs : list (Z * Z);
  co : C
}.
Arguments KS {C}.
Arguments procs {C} _.
Arguments slpque {C} _.
Arguments qs {C} _.
Arguments pidhash {C} _.
Arguments freeproc {C} _.
Arguments allproc {C} _.
Arguments zombproc {C} _.
Arguments runrun {C} _.
Arguments curpri {C} _.
Arguments noproc {C} _.
Arguments runin {C} _.
Arguments runout {C} _.
Arguments panicstr {C} _.
Arguments v_swtch {C} _.
Arguments ru_nvcsw {C} _.
Arguments u_procp {C} _.
Arguments u_error {C} _.
Arguments u_sigintr {C} _.
Arguments sigs {C} _.
Arguments co {C} _.

Definition set_procs {C} (v : gmap Z proc) (s : kst C) : kst C :=
  KS v (slpque s) (qs s) (pidhash s) (freeproc s) (allproc s) (zombproc s) (runrun s) (curpri s) (noproc s) (runin s) (runout s) (panicstr s) (v_swtch s) (ru_nvcsw s) (u_procp s) (u_error s) (u_sigintr s) (sigs s) (co s).
Definition set_slpque {C} (v : list Z) (s : kst C) : kst C :=
  KS (procs s) v (qs s) (pidhash s) (freeproc s) (allproc s) (zombproc s) (runrun s) (curpri s) (noproc s) (runin s) (runout s) (panicstr s) (v_swtch s) (ru_nvcsw s) (u_procp s) (u_error s) (u_sigintr s) (sigs s) (co s).
Definition set_qs {C} (v : Z) (s : kst C) : kst C :=
  KS (procs s) (slpque s) v (pidhash s) (freeproc s) (allproc s) (zombproc s) (runrun s) (curpri s) (noproc s) (runin s) (runout s) (panicstr s) (v_swtch s) (ru_nvcsw s) (u_procp s) (u_error s) (u_sigintr s) (sigs s) (co s).
Definition set_freeproc {C} (v : Z) (s : kst C) : kst C :=
  KS (procs s) (slpque s) (qs s) (pidhash s) v (allproc s) (zombproc s) (runrun s) (curpri s) (noproc s) (runin s) (runout s) (panicstr s) (v_swtch s) (ru_nvcsw s) (u_procp s) (u_error s) (u_sigintr s) (sigs s) (co s).
Definition set_allproc {C} (v : Z) (s : kst C) : kst C :=
  KS (procs s) (slpque s) (qs s) (pidhash s) (freeproc s) v (zombproc s) (runrun s) (curpri s) (noproc s) (runin s) (runout s) (panicstr s) (v_swtch s) (ru_nvcsw s) (u_procp s) (u_error s) (u_sigintr s) (sigs s) (co s).
Definition set_zombproc {C} (v : Z) (s : kst C) : kst C :=
  KS (procs s) (slpque s) (qs s) (pidhash s) (freeproc s) (allproc s) v (runrun s) (curpri s) (noproc s) (runin s) (runout s) (panicstr s) (v_swtch s) (ru_nvcsw s) (u_procp s) (u_error s) (u_sigintr s) (sigs s) (co s).
Definition set_runrun {C} (v : Z) (s : kst C) : kst C :=
  KS (procs s) (slpque s) (qs s) (pidhash s) (freeproc s) (allproc s) (zombproc s) v (curpri s) (noproc s) (runin s) (runout s) (panicstr s) (v_swtch s) (ru_nvcsw s) (u_procp s) (u_error s) (u_sigintr s) (sigs s) (co s).
Definition set_curpri {C} (v : Z) (s : kst C) : kst C :=
  KS (procs s) (slpque s) (qs s) (pidhash s) (freeproc s) (allproc s) (zombproc s) (runrun s) v (noproc s) (runin s) (runout s) (panicstr s) (v_swtch s) (ru_nvcsw s) (u_procp s) (u_error s) (u_sigintr s) (sigs s) (co s).
Definition set_noproc {C} (v : bool) (s : kst C) : kst C :=
  KS (procs s) (slpque s) (qs s) (pidhash s) (freeproc s) (allproc s) (zombproc s) (runrun s) (curpri s) v (runin s) (runout s) (panicstr s) (v_swtch s) (ru_nvcsw s) (u_procp s) (u_error s) (u_sigintr s) (sigs s) (co s).
Definition set_runin {C} (v : Z) (s : kst C) : kst C :=
  KS (procs s) (slpque s) (qs s) (pidhash s) (freeproc s) (allproc s) (zombproc s) (runrun s) (curpri s) (noproc s) v (runout s) (panicstr s) (v_swtch s) (ru_nvcsw s) (u_procp s) (u_error s) (u_sigintr s) (sigs s) (co s).
Definition set_runout {C} (v : Z) (s : kst C) : kst C :=
  KS (procs s) (slpque s) (qs s) (pidhash s) (freeproc s) (allproc s) (zombproc s) (runrun s) (curpri s) (noproc s) (runin s) v (panicstr s) (v_swtch s) (ru_nvcsw s) (u_procp s) (u_error s) (u_sigintr s) (sigs s) (co s).
Definition set_v_swtch {C} (v : Z) (s : kst C) : kst C :=
  KS (procs s) (slpque s) (qs s) (pidhash s) (freeproc s) (allproc s) (zombproc s) (runrun s) (curpri s) (noproc s) (runin s) (runout s) (panicstr s) v (ru_nvcsw s) (u_procp s) (u_error s) (u_sigintr s) (sigs s) (co s).
Definition set_ru_nvcsw {C} (v : Z) (s : kst C) : kst C :=
  KS (procs s) (slpque s) (qs s) (pidhash s) (freeproc s) (allproc s) (zombproc s) (runrun s) (curpri s) (noproc s) (runin s) (runout s) (panicstr s) (v_swtch s) v (u_procp s) (u_error s) (u_sigintr s) (sigs s) (co s).
Definition set_u_error {C} (v : Z) (s : kst C) : kst C :=
  KS (procs s) (slpque s) (qs s) (pidhash s) (freeproc s) (allproc s) (zombproc s) (runrun s) (curpri s) (noproc s) (runin s) (runout s) (panicstr s) (v_swtch s) (ru_nvcsw s) (u_procp s) v (u_sigintr s) (sigs s) (co s).
Definition set_sigs {C} (v : list (Z * Z)) (s : kst C) : kst C :=
  KS (procs s) (slpque s) (qs s) (pidhash s) (freeproc s) (allproc s) (zombproc s) (runrun s) (curpri s) (noproc s) (runin s) (runout s) (panicstr s) (v_swtch s) (ru_nvcsw s) (u_procp s) (u_error s) (u_sigintr s) v (co s).
Definition set_co {C} (v : C) (s : kst C) : kst C :=
  KS (procs s) (slpque s) (qs s) (pidhash s) (freeproc s) (allproc s) (zombproc s) (runrun s) (curpri s) (noproc s) (runin s) (runout s) (panicstr s) (v_swtch s) (ru_nvcsw s) (u_procp s) (u_error s) (u_sigintr s) (sigs s) v.

Definition has_flag (f : Z) (p : proc) : bool := negb (Z.land (p_flag p) f =? 0).

Section ops.
Context {C : Type} `{!CalloutQueue C}.
Context (LBOLT RUNIN RUNOUT SCHEDCPU ENDTSLEEP : Z).
Notation K := (M (kst C)).

Definition rdp (p : Z) : K proc := load (λ s, procs s !! p).
Definition wrp (p : Z) (f : proc → proc) : K unit :=
  store (λ s, b ← procs s !! p; Some (set_procs (<[p := f b]> (procs s)) s)).

Definition on_co {A} (m : M C A) : K A := λ s,
  match m (co s) with
  | Ret a c => Ret a (set_co c s)
  | Panic msg c => Panic msg (set_co c s)
  | Fault => Fault
  | NoFuel => NoFuel
  end.

Definition psignal (p sig : Z) : K unit := modify (λ s, set_sigs (sigs s ++ [(p, sig)]) s).

Definition setpri (pp : Z) : K Z :=
  pr ← rdp pp;
  let p := Z.land (p_cpu pr) 255 ÷ 16 in
  let p := p + (PUSER + p_nice pr) in
  let p := if 127 <? p then 127 else p in
  c ← gets curpri;
  when (p <? c) (modify (λ s, set_runrun (runrun s + 1) s));;
  wrp pp (set_p_pri (s8 p));;
  mret p.

(** [#define SCHMAG 8/10] is textual: [SCHMAG * a] is [8/10 * a]. *)
Definition schmag_times (a : Z) : Z := (8 ÷ 10) * a.
Definition times_schmag (a : Z) : Z := (a * 8) ÷ 10.

(** [while (a && --p->p_slptime) a = (SCHMAG * a);] *)
Fixpoint updatepri_loop (fuel : nat) (p a : Z) : K Z :=
  match fuel with
  | O => nofuel
  | S f =>
      if a =? 0 then mret a
      else
        wrp p (λ r, set_p_slptime (s8 (p_slptime r - 1)) r);;
        pr ← rdp p;
        if p_slptime pr =? 0 then mret a
        else updatepri_loop f p (schmag_times a)
  end.

Definition updatepri (p : Z) : K unit :=
  pr ← rdp p;
  let a := Z.land (p_cpu pr) 255 in
  wrp p (λ r, set_p_slptime (s8 (p_slptime r - 1)) r);;
  a ← updatepri_loop 3 p a;
  let a := if a <? 0 then 0 else a in
  let a := if 255 <? a then 255 else a in
  wrp p (set_p_cpu (s8 a));;
  _ ← setpri p;
  mret tt.

Definition setrq (p : Z) : K unit :=
  q ← gets qs;
  wrp p (set_p_link q);;
  modify (set_qs p).

(** The pointer [q] of [wakeup] and [hp] of [unsleep]: the head of the queue or
    the link of a process. *)
Inductive qptr := QHead | QLink (p : Z).

Definition rd_q (h : Z) (q : qptr) : K Z :=
  match q with
  | QHead => load (λ s, aget (slpque s) h)
  | QLink p => pr ← rdp p; mret (p_link pr)
  end.
Definition wr_q (h : Z) (q : qptr) (v : Z) : K unit :=
  match q with
  | QHead => store (λ s, l ← aset (slpque s) h v; Some (set_slpque l s))
  | QLink p => wrp p (set_p_link v)
  end.

(** The loop of [wakeup]; [goto restart] starts again at the head. *)
Fixpoint wakeup_loop (fuel : nat) (chan : Z) (q : qptr) : K unit :=
  match fuel with
  | O => nofuel
  | S f =>
      p ← rd_q (HASH chan) q;
      if p =? 0 then mret tt
      else
        pr ← rdp p;
        if negb (p_stat pr =? SSLEEP) && negb (p_stat pr =? SSTOP) then panic "wakeup"
        else if p_wchan pr =? chan then
          wrp p (set_p_wchan 0);;
          wr_q (HASH chan) q (p_link pr);;
          if p_stat pr =? SSLEEP then
            when (1 <? p_slptime pr) (updatepri p);;
            wrp p (set_p_slptime 0);;
            wrp p (set_p_stat SRUN);;
            pr ← rdp p;
            when (has_flag SLOAD pr) (setrq p);;
            modify (λ s, set_runrun (runrun s + 1) s);;
            (if has_flag SLOAD pr then mret tt
             else
               ro ← gets runout;
               when (negb (ro =? 0)) (modify (set_runout 0);; wakeup_loop f RUNOUT QHead));;
            wakeup_loop f chan QHead
          else
            wrp p (set_p_slptime 0);;
            wakeup_loop f chan q
        else wakeup_loop f chan (QLink p)
  end.

Definition wakeup_fuel (s : kst C) : nat := (size (procs s) + 2) * (size (procs s) + 2).

Definition wakeup (chan : Z) : K unit :=
  n ← gets wakeup_fuel;
  wakeup_loop n chan QHead.

(** [while ( *hp != p) hp = &( *hp)->p_link;] then [*hp = p->p_link] *)
Fixpoint unsleep_loop (fuel : nat) (h : Z) (hp : qptr) (p : Z) : K unit :=
  match fuel with
  | O => nofuel
  | S f =>
      x ← rd_q h hp;
      if x =? p then
        pr ← rdp p;
        wr_q h hp (p_link pr)
      else unsleep_loop f h (QLink x) p
  end.

Definition unsleep (p : Z) : K unit :=
  pr ← rdp p;
  if p_wchan pr =? 0 then mret tt
  else
    n ← gets (λ s, size (procs s));
    unsleep_loop (S n) (HASH (p_wchan pr)) QHead p;;
    wrp p (set_p_wchan 0).

Definition setrun (p : Z) : K unit :=
  pr ← rdp p;
  (if (p_stat pr =? SSTOP) || (p_stat pr =? SSLEEP) then unsleep p
   else if p_stat pr =? SIDL then mret tt
   else panic "setrun");;
  pr ← rdp p;
  when (1 <? p_slptime pr) (updatepri p);;
  wrp p (set_p_stat SRUN);;
  pr ← rdp p;
  when (has_flag SLOAD pr) (setrq p);;
  pr ← rdp p;
  c ← gets curpri;
  when (p_pri pr <? c) (modify (λ s, set_runrun (runrun s + 1) s));;
  if has_flag SLOAD pr then mret tt
  else
    ro ← gets runout;
    when (negb (ro =? 0)) (modify (set_runout 0);; wakeup RUNOUT).

Definition endtsleep (p : Z) : K unit :=
  pr ← rdp p;
  if p_wchan pr =? 0 then mret tt
  else
    (if p_stat pr =? SSLEEP then setrun p else unsleep p);;
    wrp p (λ r, set_p_flag (Z.lor (p_flag r) P_TIMEOUT) r).

Fixpoint remrq_loop (fuel : nat) (q p : Z) : K unit :=
  match fuel with
  | O => nofuel
  | S f =>
      if q =? 0 then panic "remrq"
      else
        qr ← rdp q;
        if p_link qr =? p then
          pr ← rdp p;
          wrp q (set_p_link (p_link pr))
        else remrq_loop f (p_link qr) p
  end.

Definition remrq (p : Z) : K unit :=
  q ← gets qs;
  if p =? q then
    pr ← rdp p;
    modify (set_qs (p_link pr))
  else
    n ← gets (λ s, size (procs s));
    remrq_loop (S n) q p.

(** The search of [swtch] over the run queue: [(pp, pq, n)]. *)
Fixpoint swtch_scan (fuel : nat) (p q pp pq n : Z) : K (Z * Z * Z) :=
  match fuel with
  | O => nofuel
  | S f =>
      if p =? 0 then mret (pp, pq, n)
      else
        pr ← rdp p;
        if has_flag SLOAD pr && (p_pri pr <? n) then swtch_scan f (p_link pr) p p q (p_pri pr)
        else swtch_scan f (p_link pr) p pp pq n
  end.

(** One round of the search loop of [swtch]: [None] means nothing is runnable
    and [idle] is called; otherwise the process to resume, and whether at its
    swap save area. *)
Definition swtch_pick : K (option (Z * bool)) :=
  modify (set_noproc false);;
  modify (set_runrun 0);;
  p ← gets qs;
  sz ← gets (λ s, size (procs s));
  '(pp, pq, n) ← swtch_scan (S sz) p 0 0 0 128;
  if pp =? 0 then mret None
  else
    pr ← rdp pp;
    (if pq =? 0 then modify (set_qs (p_link pr)) else wrp pq (set_p_link (p_link pr)));;
    modify (set_curpri (s8 n));;
    pr ← rdp pp;
    wrp pp (λ r, set_p_flag (Z.land (p_flag r) (Z.lnot SSWAP)) r);;
    mret (Some (pp, has_flag SSWAP pr)).

(** The body of the loop of [schedcpu] for one process. *)
Definition schedcpu_one (p : Z) : K unit :=
  pr ← rdp p;
  when (negb (p_time pr =? 127)) (wrp p (set_p_time (p_time pr + 1)));;
  (if p_rtval pr =? 0 then mret tt
   else
     wrp p (set_p_rtval (p_rtval pr - 1));;
     when (p_rtval pr - 1 =? 0)
       (psignal p SIGALRM;; wrp p (set_p_rtval (p_rtint pr))));;
  pr ← rdp p;
  when ((p_stat pr =? SSLEEP) || (p_stat pr =? SSTOP))
    (when (negb (p_slptime pr =? 127)) (wrp p (set_p_slptime (p_slptime pr + 1))));;
  pr ← rdp p;
  if 1 <? p_slptime pr then mret tt
  else
    let a := times_schmag (Z.land (p_cpu pr) 255) + p_nice pr in
    let a := if a <? 0 then 0 else a in
    let a := if 255 <? a then 255 else a in
    wrp p (set_p_cpu (s8 a));;
    pr ← rdp p;
    when (PUSER <=? p_pri pr) (_ ← setpri p; mret tt).

Fixpoint schedcpu_loop (fuel : nat) (p : Z) : K unit :=
  match fuel with
  | O => nofuel
  | S f =>
      if p =? 0 then mret tt
      else
        schedcpu_one p;;
        pr ← rdp p;
        schedcpu_loop f (p_nxt pr)
  end.

(** [vmmeter] only updates statistics. *)
Definition schedcpu : K unit :=
  wakeup LBOLT;;
  p ← gets allproc;
  n ← gets (λ s, size (procs s));
  schedcpu_loop (S n) p;;
  ri ← gets runin;
  when (negb (ri =? 0)) (modify (set_runin 0);; wakeup RUNIN);;
  modify (λ s, set_runrun (runrun s + 1) s);;
  on_co (cq_timeout SCHEDCPU 0 Callout.Callout.hz).

(** [tsleep]: the context switch [swtch] and [CURSIG] are parameters, since
    other processes run meanwhile. *)
Definition tsleep (swtch : K unit) (cursig : Z → K Z) (ident priority timo : Z) : K Z :=
  p ← gets u_procp;
  ps ← gets panicstr;
  if (ps : bool) then mret 0
  else
    let catch := negb (Z.land priority PCATCH =? 0) in
    wrp p (set_p_wchan ident);;
    wrp p (set_p_slptime 0);;
    wrp p (set_p_pri (s8 (Z.land priority PRIMASK)));;
    head ← load (λ s, aget (slpque s) (HASH ident));
    wrp p (set_p_link head);;
    store (λ s, l ← aset (slpque s) (HASH ident) p; Some (set_slpque l s));;
    when (negb (timo =? 0)) (on_co (cq_timeout ENDTSLEEP p timo));;
    '(sig, catch, resume) ←
      (if catch then
         wrp p (λ r, set_p_flag (Z.lor (p_flag r) P_SINTR) r);;
         sig ← cursig p;
         pr ← rdp p;
         if negb (sig =? 0) then
           when (negb (p_wchan pr =? 0)) (unsleep p);;
           wrp p (set_p_stat SRUN);;
           mret (sig, true, true)
         else if p_wchan pr =? 0 then mret (0, false, true)
         else mret (0, true, false)
       else mret (0, false, false));
    (if resume : bool then mret tt
     else
       wrp p (set_p_stat SSLEEP);;
       (if p =? PROC0 then mret tt else wakeup RUNIN);;
       modify (λ s, set_ru_nvcsw (ru_nvcsw s + 1) s);;
       swtch);;
    wrp p (λ r, set_p_flag (Z.land (p_flag r) (Z.lnot P_SINTR)) r);;
    pr ← rdp p;
    early ←
      (if has_flag P_TIMEOUT pr then
         wrp p (λ r, set_p_flag (Z.land (p_flag r) (Z.lnot P_TIMEOUT)) r);;
         mret (sig =? 0)
       else
         when (negb (timo =? 0)) (on_co (cq_untimeout ENDTSLEEP p));;
         mret false);
    if early : bool then mret EWOULDBLOCK
    else
      sig ← (if catch && (sig =? 0) then cursig p else mret sig);
      if (catch : bool) && negb (sig =? 0) then
        si ← gets u_sigintr;
        if negb (Z.land si (Z.shiftl 1 (sig - 1)) =? 0) then mret EINTR else mret ERESTART
      else mret 0.

(** [sleep]: [true] means the [longjmp] out of the system call. *)
Definition sleep (swtch : K unit) (cursig : Z → K Z) (chan pri : Z) : K bool :=
  let priority := if PZERO <? pri then Z.lor pri PCATCH else pri in
  r ← tsleep swtch cursig chan priority 0;
  modify (set_u_error r);;
  mret (negb ((Z.land priority PCATCH =? 0) || (r =? 0))).

(** kern_proc.c *)
Fixpoint inferior_loop (fuel : nat) (p : Z) : K bool :=
  match fuel with
  | O => nofuel
  | S f =>
      u ← gets u_procp;
      if p =? u then mret true
      else
        pr ← rdp p;
        if p_ppid pr =? 0 then mret false else inferior_loop f (p_pptr pr)
  end.

Fixpoint pfind_loop (fuel : nat) (p pid : Z) : K Z :=
  match fuel with
  | O => nofuel
  | S f =>
      if p =? 0 then mret 0
      else
        pr ← rdp p;
        if p_pid pr =? pid then mret p else pfind_loop f (p_hash pr) pid
  end.

Definition pfind (pid : Z) : K Z :=
  p ← load (λ s, aget (pidhash s) (PIDHASH pid));
  n ← gets (λ s, size (procs s));
  pfind_loop (S n) p pid.
End ops.

(** ** Queues *)

Section queues.
Context {C : Type}.
Implicit Types (s : kst C) (sq : Z → list Z) (rq : list Z).

Definition lnk s : Z → option Z := λ p, p_link <$> procs s !! p.

(** The sleep queues are [sq 0 .. sq 15], the run queue is [rq]; no process is
    on two of them. *)
Definition chains s sq rq : Prop :=
  zlen (slpque s) = SQSIZE ∧
  (∀ i, 0 ≤ i < SQSIZE → ∃ h, aget (slpque s) i = Some h ∧ chain (lnk s) h (sq i)) ∧
  chain (lnk s) (qs s) rq ∧
  (∀ i j p, 0 ≤ i < SQSIZE → 0 ≤ j < SQSIZE → p ∈ sq i → p ∈ sq j → i = j) ∧
  (∀ i p, 0 ≤ i < SQSIZE → p ∈ sq i → p ∉ rq).

(** Equality of two process tables up to [p_link]. *)
Definition nolink : proc → proc := set_p_link 0.
Definition same_procs s s' : Prop := ∀ z, nolink <$> procs s' !! z = nolink <$> procs s !! z.

Lemma same_procs_trans s1 s2 s3 : same_procs s1 s2 → same_procs s2 s3 → same_procs s1 s3.
Proof. intros H1 H2 z. by rewrite H2. Qed.

Lemma HASH_range x : 0 ≤ HASH x < SQSIZE.
Proof.
  unfold HASH, SQSIZE. change (16 - 1) with (Z.ones 4). rewrite Z.land_ones by lia.
  apply Z.mod_pos_bound. lia.
Qed.

Lemma lnk_Some s p n : lnk s p = Some n ↔ ∃ pr, procs s !! p = Some pr ∧ p_link pr = n.
Proof. unfold lnk. destruct (procs s !! p); naive_solver. Qed.

Lemma chain_proc s p l x : chain (lnk s) p l → x ∈ l → x ≠ 0 ∧ ∃ pr, procs s !! x = Some pr.
Proof.
  intros Hc (l1 & l2 & ->)%list_elem_of_split. apply lseg_app in Hc as (r & _ & -> & Hx & n & Hn & _).
  apply lnk_Some in Hn as (b & Hb & _). eauto.
Qed.

Lemma pr_chain_length s p q : chain (lnk s) p q → (length q ≤ size (procs s))%nat.
Proof.
  intros Hc. rewrite <- size_dom, <- (size_list_to_set (C := gset Z) q) by (by eapply chain_nodup).
  apply subseteq_size. intros x. rewrite elem_of_list_to_set, elem_of_dom. intros Hx.
  destruct (chain_proc _ _ _ _ Hc Hx) as (_ & b & ->). eauto.
Qed.

(** Chains depend on the links and heads only. *)
Lemma chains_ext s s' sq rq :
  (∀ z, lnk s' z = lnk s z) → slpque s' = slpque s → qs s' = qs s → chains s sq rq → chains s' sq rq.
Proof.
  intros Hl Hs Hq (H1 & H2 & H3 & H4 & H5). split_and!; rewrite ?Hs, ?Hq; try done.
  - intros i Hi. destruct (H2 i Hi) as (h & Hh & Hc). exists h. split; [done|].
    eapply lseg_ext; [|exact Hc]. auto.
  - eapply lseg_ext; [|exact H3]. auto.
Qed.

(** A process that lies in queue [i], or in none. *)
Definition off_queues sq rq (p : Z) : Prop := (∀ i, 0 ≤ i < SQSIZE → p ∉ sq i) ∧ p ∉ rq.

Definition upd_sq sq (h : Z) (l : list Z) : Z → list Z := λ i, if decide (i = h) then l else sq i.

(** Where the pointer [q] of the walk stands: behind the processes [pre]. *)
Definition at_pos (pre : list Z) (q : qptr) : Prop :=
  match q with QHead => pre = [] | QLink x => last pre = Some x end.

Lemma wp_rdp s p pr (Q : proc → kst C → Prop) : procs s !! p = Some pr → Q pr s → wp (rdp p) Q s.
Proof. intros. by eapply wp_load. Qed.

Lemma wp_wrp s p pr f (Q : unit → kst C → Prop) :
  procs s !! p = Some pr → Q tt (set_procs (<[p := f pr]> (procs s)) s) → wp (wrp p f) Q s.
Proof. intros Hp HQ. eapply wp_store; [by rewrite Hp|done]. Qed.

Lemma wp_rd_q s sq rq h pre post q (Q : Z → kst C → Prop) :
  chains s sq rq → 0 ≤ h < SQSIZE → sq h = pre ++ post → at_pos pre q →
  Q (default 0 (head post)) s → wp (rd_q h q) Q s.
Proof.
  intros (_ & H2 & _) Hh Hsq Hpos HQ. destruct (H2 h Hh) as (hd & Hhd & Hc). rewrite Hsq in Hc.
  apply lseg_app in Hc as (r & Hc1 & Hc2).
  assert (Hr : r = default 0 (head post)) by (destruct post; simpl in *; [done|by destruct Hc2]).
  destruct q as [|x]; simpl in Hpos.
  - subst pre. simpl in Hc1. subst hd. eapply wp_load; [exact Hhd|]. by rewrite Hr.
  - apply last_Some in Hpos as [l' ->]. apply lseg_snoc in Hc1 as (_ & _ & (pr & Hpr & Hln)%lnk_Some).
    apply wp_bind. eapply wp_rdp; [exact Hpr|]. apply wp_ret. by rewrite Hln, Hr.
Qed.

Lemma lnk_set s p pr v z : procs s !! p = Some pr →
  lnk (set_procs (<[p := set_p_link v pr]> (procs s)) s) z = upd (lnk s) p v z.
Proof.
  intros Hp. unfold lnk, upd. simpl. case_decide as Hd; [subst; by rewrite lookup_insert_eq|by rewrite lookup_insert_ne].
Qed.

Lemma same_procs_link s p pr v : procs s !! p = Some pr →
  same_procs s (set_procs (<[p := set_p_link v pr]> (procs s)) s).
Proof.
  intros Hp z. simpl. destruct (decide (p = z)) as [<-|]; [by rewrite lookup_insert_eq, Hp|by rewrite lookup_insert_ne].
Qed.

(** Unlinking [p] from its sleep queue. *)
Lemma wp_unlink s sq rq h pre p post q pr (Q : unit → kst C → Prop) :
  chains s sq rq → 0 ≤ h < SQSIZE → sq h = pre ++ p :: post → at_pos pre q → procs s !! p = Some pr →
  (∀ m l, let s' := set_procs m (set_slpque l s) in
     chains s' (upd_sq sq h (pre ++ post)) rq → same_procs s s' → procs s' !! p = Some pr → Q tt s') →
  wp (wr_q h q (p_link pr)) Q s.
Proof.
  intros Hch Hh Hsq Hpos Hpr HQ. pose proof Hch as (H1 & H2 & H3 & H4 & H5).
  destruct (H2 h Hh) as (hd & Hhd & Hc). rewrite Hsq in Hc. pose proof (chain_nodup _ _ _ Hc) as Hnd.
  assert (Hlp : lnk s p = Some (p_link pr)) by (apply lnk_Some; eauto).
  assert (Hincl : ∀ i z, 0 ≤ i < SQSIZE → z ∈ upd_sq sq h (pre ++ post) i → z ∈ sq i).
  { intros i z Hi. unfold upd_sq. case_decide; [subst; rewrite Hsq; set_solver|done]. }
  assert (Hdis : (∀ i j z, 0 ≤ i < SQSIZE → 0 ≤ j < SQSIZE → z ∈ upd_sq sq h (pre ++ post) i →
    z ∈ upd_sq sq h (pre ++ post) j → i = j) ∧ (∀ i z, 0 ≤ i < SQSIZE → z ∈ upd_sq sq h (pre ++ post) i → z ∉ rq)).
  { split; [intros i j z Hi Hj Hz1 Hz2; apply (H4 i j z); auto|intros i z Hi Hz; apply (H5 i z); auto]. }
  destruct q as [|x]; simpl in Hpos; cbn [wr_q].
  - subst pre. destruct Hc as (-> & Hp0 & n & Hn & Hc). simplify_eq.
    eapply wp_store; [rewrite aset_Some by (rewrite H1; done); reflexivity|].
    specialize (HQ (procs s) (<[Z.to_nat h := p_link pr]> (slpque s))). cbv zeta in HQ.
    assert (Hset : ∀ l, set_procs (procs s) (set_slpque l s) = set_slpque l s) by (intros; by destruct s).
    rewrite Hset in HQ. apply HQ; [|by intros z|done].
    split_and!; simpl; try apply Hdis; [by rewrite length_insert| |done].
    intros i Hi. rewrite aget_insert by (rewrite H1; done). unfold upd_sq. destruct (decide (h = i)) as [<-|].
    + rewrite decide_True by done. eauto.
    + rewrite decide_False by done. apply (H2 i Hi).
  - apply last_Some in Hpos as [pre0 ->]. rewrite <- app_assoc in Hsq, Hc. cbn [app] in Hsq, Hc.
    destruct (chain_proc _ _ _ x Hc) as [Hx0 (xr & Hxr)]; [set_solver|].
    assert (Hxp : p ≠ x).
    { rewrite <- app_assoc in Hnd. apply NoDup_app in Hnd as (_ & _ & [Hnx _]%NoDup_cons). set_solver. }
    eapply wp_wrp; [exact Hxr|].
    specialize (HQ (<[x := set_p_link (p_link pr) xr]> (procs s)) (slpque s)). cbv zeta in HQ.
    assert (Hset : ∀ m, set_procs m (set_slpque (slpque s) s) = set_procs m s) by (intros; by destruct s).
    rewrite Hset in HQ. apply HQ; [|by apply same_procs_link|simpl; by rewrite lookup_insert_ne].
    assert (Hxin : ∀ i, 0 ≤ i < SQSIZE → x ∈ sq i → i = h).
    { intros i Hi Hx. apply (H4 i h x); try done. rewrite Hsq. set_solver. }
    split_and!; simpl; try apply Hdis; try done.
    + intros i Hi. unfold upd_sq. destruct (decide (i = h)) as [->|Hne].
      * exists hd. split; [done|]. rewrite <- app_assoc.
        eapply (chain_delete_after (lnk s)); [exact Hc|exact Hlp|]. intros z Hz. by rewrite lnk_set.
      * destruct (H2 i Hi) as (hd' & ? & Hc'). exists hd'. split; [done|].
        eapply lseg_ext; [|exact Hc']. intros z Hz. rewrite lnk_set by done. apply upd_ne. intros ->. by apply Hne, Hxin.
    + eapply lseg_ext; [|exact H3]. intros z Hz. rewrite lnk_set by done. apply upd_ne. intros ->.
      apply (H5 h x); try done. rewrite Hsq. set_solver.
Qed.

Lemma wp_setrq s sq rq p pr (Q : unit → kst C → Prop) :
  chains s sq rq → off_queues sq rq p → p ≠ 0 → procs s !! p = Some pr →
  (∀ v, let s' := set_qs p (set_procs (<[p := set_p_link v pr]> (procs s)) s) in
     chains s' sq (p :: rq) → same_procs s s' → Q tt s') →
  wp (setrq p) Q s.
Proof.
  intros (H1 & H2 & H3 & H4 & H5) [Hoff Hrq] Hp0 Hpr HQ. unfold setrq. apply wp_bind, wp_gets.
  apply wp_bind. eapply wp_wrp; [exact Hpr|]. apply wp_modify.
  assert (Hl : ∀ z, lnk (set_qs p (set_procs (<[p := set_p_link (qs s) pr]> (procs s)) s)) z = upd (lnk s) p (qs s) z)
    by (intros z; by apply (lnk_set s)).
  apply (HQ (qs s)); [|by apply same_procs_link].
  split_and!; try done.
  - intros i Hi. destruct (H2 i Hi) as (hd & ? & Hc). exists hd. split; [done|].
    eapply lseg_ext; [|exact Hc]. intros z Hz. rewrite Hl. apply upd_ne. intros ->. by apply (Hoff i).
  - apply (chain_push (lnk s)) with (qs s); done.
  - intros i z Hi Hz [->|Hz']%elem_of_cons; [by apply (Hoff i)|by apply (H5 i z)].
Qed.

End queues.

(** ** Wakeup *)

Section wakeup.
Context {C : Type} `{!CalloutQueue C}.
Context (LBOLT RUNIN RUNOUT SCHEDCPU ENDTSLEEP : Z).
Implicit Types (s : kst C) (sq : Z → list Z) (rq D : list Z).
Notation K_ := (M (kst C)).

(** Who is on the queues: exactly the processes with a wait channel are asleep
    or stopped on the queue of their channel; those on the run queue are
    runnable and in core. *)
Definition rep s sq rq : Prop :=
  chains s sq rq ∧
  (∀ i p, 0 ≤ i < SQSIZE → p ∈ sq i → ∃ pr, procs s !! p = Some pr ∧ p_wchan pr ≠ 0 ∧
     HASH (p_wchan pr) = i ∧ (p_stat pr = SSLEEP ∨ p_stat pr = SSTOP)) ∧
  (∀ p pr, procs s !! p = Some pr → p_wchan pr ≠ 0 → p ∈ sq (HASH (p_wchan pr))) ∧
  (∀ p, p ∈ rq → ∃ pr, procs s !! p = Some pr ∧ p_wchan pr = 0 ∧ p_stat pr = SRUN ∧ has_flag SLOAD pr = true).

(** The processes [D] have been woken: off their channel, and running if they
    were asleep; all others are as they were. *)
Definition woken (pr pr' : proc) : Prop :=
  p_wchan pr' = 0 ∧ p_slptime pr' = 0 ∧ p_flag pr' = p_flag pr ∧
  p_stat pr' = (if p_stat pr =? SSLEEP then SRUN else p_stat pr).

Definition woke D s s' : Prop :=
  (∀ z, is_Some (procs s' !! z) ↔ is_Some (procs s !! z)) ∧
  ∀ z pr pr', procs s !! z = Some pr → procs s' !! z = Some pr' →
    if decide (z ∈ D) then woken pr pr' else nolink pr' = nolink pr.

Definition runs_now s (p : Z) : Prop :=
  ∃ pr, procs s !! p = Some pr ∧ p_stat pr = SSLEEP ∧ has_flag SLOAD pr = true.

Definition prog D s s' sq rq sq' rq' : Prop :=
  woke D s s' ∧ (∀ i, 0 ≤ i < SQSIZE → sq' i = filter (λ p, p ∉ D) (sq i)) ∧
  (∀ p, p ∈ rq' ↔ p ∈ rq ∨ (p ∈ D ∧ runs_now s p)).

Definition chan_of s (p : Z) : Z := default 0 (p_wchan <$> procs s !! p).
Definition sleepers s : gset Z := dom (filter (λ kv, p_wchan kv.2 ≠ 0) (procs s)).

Lemma elem_sleepers s p : p ∈ sleepers s ↔ chan_of s p ≠ 0.
Proof.
  unfold sleepers, chan_of. rewrite elem_of_dom. split.
  - intros [pr [Hp Hw]%map_lookup_filter_Some]. by rewrite Hp.
  - destruct (procs s !! p) as [pr|] eqn:E; simpl; [|done]. intros Hw. exists pr. by apply map_lookup_filter_Some.
Qed.

Lemma nolink_wchan pr pr' : nolink pr' = nolink pr → p_wchan pr' = p_wchan pr ∧ p_stat pr' = p_stat pr ∧
  p_flag pr' = p_flag pr ∧ p_slptime pr' = p_slptime pr.
Proof. intros H. split_and!; [exact (f_equal p_wchan H)|exact (f_equal p_stat H)|exact (f_equal p_flag H)|exact (f_equal p_slptime H)]. Qed.

Lemma woke_chan D s s' p : woke D s s' → chan_of s' p = if decide (p ∈ D) then 0 else chan_of s p.
Proof.
  intros [Hdom H]. unfold chan_of. specialize (Hdom p). specialize (H p).
  destruct (procs s !! p) as [pr|], (procs s' !! p) as [pr'|]; simpl.
  - specialize (H pr pr' eq_refl eq_refl). case_decide; [apply H|]. by apply nolink_wchan.
  - exfalso. destruct Hdom as [_ Hd]. destruct (Hd ltac:(eauto)). done.
  - exfalso. destruct Hdom as [Hd _]. destruct (Hd ltac:(eauto)). done.
  - by case_decide.
Qed.

Lemma woke_refl s : woke [] s s.
Proof. split; [done|]. intros z pr pr' H H'. simplify_eq. rewrite decide_False by set_solver. done. Qed.

Lemma filter_true_all {A} (P : A → Prop) `{∀ x, Decision (P x)} (l : list A) : (∀ x, x ∈ l → P x) → filter P l = l.
Proof.
  induction l as [|x l IH]; intros Hp; [done|]. rewrite filter_cons_True by (apply Hp; set_solver).
  f_equal. apply IH. set_solver.
Qed.

Lemma prog_refl s sq rq : prog [] s s sq rq sq rq.
Proof.
  split_and!; [apply woke_refl| |].
  - intros i _. symmetry. apply filter_true_all. set_solver.
  - intros p. set_solver.
Qed.

(** Progress composes when the second part only wakes processes asleep. *)
Lemma prog_trans D1 D2 s s1 s2 sq rq sq1 rq1 sq2 rq2 :
  prog D1 s s1 sq rq sq1 rq1 → prog D2 s1 s2 sq1 rq1 sq2 rq2 → (∀ p, p ∈ D2 → chan_of s1 p ≠ 0) →
  prog (D1 ++ D2) s s2 sq rq sq2 rq2.
Proof.
  intros (Hw1 & Hsq1 & Hrq1) (Hw2 & Hsq2 & Hrq2) HD2.
  assert (Hdis : ∀ p, p ∈ D2 → p ∉ D1).
  { intros p Hp2 Hp1. apply (HD2 p Hp2). rewrite (woke_chan D1 s s1) by done. by rewrite decide_True. }
  pose proof Hw1 as [Hdom1 Hp1]. pose proof Hw2 as [Hdom2 Hp2]. split_and!.
  - split; [intros z; by rewrite Hdom2, Hdom1|]. intros z pr pr2 Hz Hz2.
    destruct (proj2 (Hdom1 z) ltac:(eauto)) as [pr1 Hz1].
    specialize (Hp1 z pr pr1 Hz Hz1). specialize (Hp2 z pr1 pr2 Hz1 Hz2).
    destruct (decide (z ∈ D1 ++ D2)) as [Hin|Hnin].
    + apply elem_of_app in Hin as [Hin|Hin].
      * rewrite decide_True in Hp1 by done. rewrite decide_False in Hp2 by (intros ?; by apply (Hdis z)).
        destruct (nolink_wchan _ _ Hp2) as (? & ? & ? & ?). destruct Hp1 as (? & ? & ? & ?). split_and!; congruence.
      * rewrite decide_False in Hp1 by auto. rewrite decide_True in Hp2 by done.
        destruct (nolink_wchan _ _ Hp1) as (? & Est & ? & ?). destruct Hp2 as (? & ? & ? & Hst). rewrite Est in Hst.
        split_and!; congruence.
    + rewrite decide_False in Hp1 by set_solver. rewrite decide_False in Hp2 by set_solver. congruence.
  - intros i Hi. rewrite Hsq2, Hsq1 by done. rewrite list_filter_filter. apply list_filter_iff. set_solver.
  - intros p. rewrite Hrq2, Hrq1. split.
    + intros [[?|[? ?]]|[Hpd (pr1 & Hpr1 & Hst & Hfl)]]; [by left|right; set_solver|]. right. split; [set_solver|].
      destruct (proj1 (Hdom1 p) ltac:(eauto)) as [pr Hpr]. specialize (Hp1 p pr pr1 Hpr Hpr1).
      rewrite decide_False in Hp1 by auto. destruct (nolink_wchan _ _ Hp1) as (_ & Hs & Hf & _).
      exists pr. split_and!; [done|congruence|]. unfold has_flag in *. by rewrite Hf in Hfl.
    + intros [?|[[Hpd|Hpd]%elem_of_app (pr & Hpr & Hst & Hfl)]]; [by left; left|left; right; split; [done|by exists pr]|].
      right. split; [done|]. destruct (proj2 (Hdom1 p) ltac:(eauto)) as [pr1 Hpr1]. specialize (Hp1 p pr pr1 Hpr Hpr1).
      rewrite decide_False in Hp1 by auto. destruct (nolink_wchan _ _ Hp1) as (_ & Hs & Hf & _).
      exists pr1. split_and!; [done|congruence|]. unfold has_flag in *. by rewrite Hf.
Qed.

Lemma rep_off s sq rq p pr :
  rep s sq rq → procs s !! p = Some pr → p_wchan pr = 0 → p ∉ rq → off_queues sq rq p.
Proof.
  intros (_ & Ha & _ & _) Hp Hw Hrq. split; [|done]. intros i Hi Hin.
  destruct (Ha i p Hi Hin) as (pr' & ? & ? & _). simplify_eq.
Qed.

(** One process woken. *)
Lemma wake_done s s' sq rq h pre p post pr pr' rq' :
  rep s sq rq → sq h = pre ++ p :: post → HASH (p_wchan pr) = h → procs s !! p = Some pr →
  chains s' (upd_sq sq h (pre ++ post)) rq' →
  (∀ z, z ≠ p → nolink <$> procs s' !! z = nolink <$> procs s !! z) →
  procs s' !! p = Some pr' → woken pr pr' →
  rq' = (if (p_stat pr =? SSLEEP) && has_flag SLOAD pr then p :: rq else rq) →
  rep s' (upd_sq sq h (pre ++ post)) rq' ∧ prog [p] s s' sq rq (upd_sq sq h (pre ++ post)) rq' ∧
  S (size (sleepers s')) = size (sleepers s) ∧ size (procs s') = size (procs s).
Proof.
  intros Hrep Hsq Hh Hp Hch Hoth Hp' Hwk Hrq'. pose proof Hrep as (Hc & Ha & Hb & Hr).
  assert (Hhr : 0 ≤ h < SQSIZE) by (subst h; apply HASH_range).
  assert (Hpin : p ∈ sq h) by (rewrite Hsq; set_solver).
  destruct (Ha h p Hhr Hpin) as (pr0 & Hp0 & Hw0 & _ & Hst). simplify_eq.
  assert (Hnd : NoDup (sq (HASH (p_wchan pr)))).
  { destruct Hc as (_ & Hc & _). destruct (Hc _ Hhr) as (? & _ & Hc'). by eapply chain_nodup. }
  rewrite Hsq in Hnd. set (h := HASH (p_wchan pr)) in *.
  assert (Hout : p ∉ pre ++ post).
  { apply NoDup_app in Hnd as (_ & Hd & [Hn _]%NoDup_cons). intros [H|H]%elem_of_app; [apply (Hd p H); set_solver|done]. }
  assert (Hdom : ∀ z, is_Some (procs s' !! z) ↔ is_Some (procs s !! z)).
  { intros z. destruct (decide (z = p)) as [->|Hz]; [rewrite Hp', Hp; by split; eauto|].
    specialize (Hoth z Hz). destruct (procs s' !! z), (procs s !! z); simplify_eq/=; by split; eauto. }
  assert (Hwoke : woke [p] s s').
  { split; [done|]. intros z q q' Hq Hq'. destruct (decide (z = p)) as [->|Hz].
    - rewrite decide_True by set_solver. simplify_eq. done.
    - rewrite decide_False by set_solver. specialize (Hoth z Hz). rewrite Hq, Hq' in Hoth. by apply (inj Some) in Hoth. }
  destruct Hwk as (W1 & W2 & W3 & W4).
  assert (Hsqf : ∀ i, 0 ≤ i < SQSIZE → upd_sq sq h (pre ++ post) i = filter (λ z, z ∉ [p]) (sq i)).
  { intros i Hi. unfold upd_sq. case_decide as Hd.
    - subst i. rewrite Hsq, filter_app, filter_cons_False by set_solver.
      rewrite !filter_true_all; [done|set_solver..].
    - symmetry. apply filter_true_all. intros z Hz Hzp%list_elem_of_singleton. subst.
      apply Hd. destruct Hc as (_ & _ & _ & Hc & _). by apply (Hc i h p). }
  assert (Hkeep : ∀ z, z ≠ p → ∀ q, procs s !! z = Some q → ∃ q', procs s' !! z = Some q' ∧ nolink q' = nolink q).
  { intros z Hz q Hq. specialize (Hoth z Hz). rewrite Hq in Hoth.
    destruct (procs s' !! z) as [q'|]; [|done]. exists q'. split; [done|]. by apply (inj Some) in Hoth. }
  unfold rep, prog. split_and!; try done.
  - intros i z Hi Hz. assert (z ∈ sq i ∧ z ≠ p) as [Hz1 Hz2].
    { rewrite Hsqf in Hz by done. apply list_elem_of_filter in Hz. set_solver. }
    destruct (Ha i z Hi Hz1) as (q & Hq & ? & ? & ?). destruct (Hkeep z Hz2 q Hq) as (q' & Hq' & Hn).
    destruct (nolink_wchan _ _ Hn) as (E1 & E2 & _ & _). exists q'. rewrite E1, E2. done.
  - intros z q' Hq' Hw. destruct (decide (z = p)) as [->|Hz]; [simplify_eq; done|].
    destruct (proj1 (Hdom z) ltac:(eauto)) as [q Hq]. destruct (Hkeep z Hz q Hq) as (q'' & Hq'' & Hn).
    rewrite Hq' in Hq''. injection Hq'' as <-. destruct (nolink_wchan _ _ Hn) as (E1 & _). rewrite E1 in *. specialize (Hb z q Hq Hw).
    rewrite Hsqf by apply HASH_range. apply list_elem_of_filter. set_solver.
  - assert (Hold : ∀ z, z ∈ rq → ∃ q, procs s' !! z = Some q ∧ p_wchan q = 0 ∧ p_stat q = SRUN ∧ has_flag SLOAD q = true).
    { intros z Hz. destruct (Hr z Hz) as (q & Hq & ? & ? & ?).
      destruct (decide (z = p)) as [->|Hne]; [simplify_eq; done|].
      destruct (Hkeep z Hne q Hq) as (q' & Hq' & Hn). destruct (nolink_wchan _ _ Hn) as (E1 & E2 & E3 & _).
      exists q'. unfold has_flag in *. rewrite E1, E2, E3. done. }
    intros z Hz. destruct ((p_stat pr =? SSLEEP) && has_flag SLOAD pr) eqn:E; [|auto].
    apply elem_of_cons in Hz as [->|Hz]; [|auto]. to_prop. exists pr'. split; [done|]. split; [done|].
    rewrite W4, (proj2 (Z.eqb_eq _ _)) by done. unfold has_flag in *. rewrite W3. done.
  - intros z. destruct ((p_stat pr =? SSLEEP) && has_flag SLOAD pr) eqn:E.
    + to_prop. rewrite elem_of_cons, list_elem_of_singleton. split; [|intros [?|[-> _]]; auto].
      intros [->|?]; [|by left]. right. split; [done|]. by exists pr.
    + split; [by left|]. intros [?|[->%list_elem_of_singleton (q & Hq & Hs & Hf)]]; [done|].
      simplify_eq. rewrite Hs, Hf in E. done.
  - assert (Hss : sleepers s' = sleepers s ∖ {[p]}).
    { apply set_eq. intros z. rewrite elem_of_difference, elem_of_singleton, !elem_sleepers.
      rewrite (woke_chan [p] s s') by done. case_decide as Hd; [set_solver|]. set_solver. }
    assert (p ∈ sleepers s) by (apply elem_sleepers; unfold chan_of; by rewrite Hp).
    rewrite Hss, size_difference by set_solver. rewrite size_singleton.
    assert (size (sleepers s) ≠ 0)%nat by (apply size_non_empty_iff; set_solver). lia.
  - rewrite <- !size_dom. f_equal. apply set_eq. intros z. by rewrite !elem_of_dom.
Qed.
(** Priority computations touch one process and [runrun]. *)
Definition with_proc s (p : Z) (pr : proc) (rr : Z) : kst C := set_procs (<[p := pr]> (procs s)) (set_runrun rr s).

Definition user_pri (pr : proc) : Z := Z.min 127 (Z.land (p_cpu pr) 255 ÷ 16 + (PUSER + p_nice pr)).

Lemma wp_setpri s p pr (Q : Z → kst C → Prop) :
  procs s !! p = Some pr →
  Q (user_pri pr) (with_proc s p (set_p_pri (s8 (user_pri pr)) pr)
                     (if user_pri pr <? curpri s then runrun s + 1 else runrun s)) →
  wp (setpri p) Q s.
Proof.
  intros Hp HQ. unfold setpri. apply wp_bind. eapply wp_rdp; [exact Hp|]. apply wp_bind, wp_gets.
  set (v := if 127 <? _ then 127 else _).
  assert (Hv : v = user_pri pr) by (unfold v, user_pri; destruct (Z.ltb_spec 127 (Z.land (p_cpu pr) 255 ÷ 16 + (PUSER + p_nice pr))); lia).
  rewrite Hv. apply wp_bind, wp_when.
  - intros E. rewrite E in HQ. apply wp_modify. apply wp_bind. eapply wp_wrp; [exact Hp|]. by apply wp_ret.
  - intros E. rewrite E in HQ. apply wp_bind. eapply wp_wrp; [exact Hp|]. apply wp_ret.
    unfold with_proc in HQ. destruct s. exact HQ.
Qed.

(** The usage [updatepri] leaves: the decay factor [8/10] is 0. *)
Definition decayed (pr : proc) : proc :=
  let a := Z.land (p_cpu pr) 255 in
  let sl := s8 (p_slptime pr - 1) in
  let pr1 :=
    if a =? 0 then set_p_cpu (s8 0) (set_p_slptime sl pr)
    else
      let sl' := s8 (sl - 1) in
      set_p_cpu (s8 (if sl' =? 0 then a else 0)) (set_p_slptime sl' pr) in
  set_p_pri (s8 (user_pri pr1)) pr1.

Lemma land255_range x : 0 ≤ Z.land x 255 ≤ 255.
Proof.
  assert (H : Z.land x 255 = x `mod` 256) by (change 255 with (Z.ones 8); by rewrite Z.land_ones).
  rewrite H. pose proof (Z.mod_pos_bound x 256). lia.
Qed.

Lemma with_proc_again s p pr pr' rr rr' :
  with_proc (with_proc s p pr rr) p pr' rr' = with_proc s p pr' rr'.
Proof. unfold with_proc. simpl. rewrite insert_insert_eq. by destruct s. Qed.

Lemma wp_updatepri s p pr (Q : unit → kst C → Prop) :
  procs s !! p = Some pr → (∀ rr, Q tt (with_proc s p (decayed pr) rr)) → wp (updatepri p) Q s.
Proof.
  intros Hp HQ. unfold updatepri. apply wp_bind. eapply wp_rdp; [exact Hp|].
  pose proof (land255_range (p_cpu pr)) as Ha. set (a := Z.land (p_cpu pr) 255) in *.
  apply wp_bind. eapply wp_wrp; [exact Hp|].
  assert (Hs : ∀ q, set_procs (<[p := q]> (procs s)) s = with_proc s p q (runrun s)) by (intros; by destruct s).
  rewrite Hs. set (sl := s8 (p_slptime pr - 1)).
  assert (Hfin : ∀ sl' b, 0 ≤ b ≤ 255 →
    decayed pr = set_p_pri (s8 (user_pri (set_p_cpu (s8 b) (set_p_slptime sl' pr)))) (set_p_cpu (s8 b) (set_p_slptime sl' pr)) →
    wp (wrp p (set_p_cpu (s8 (if 255 <? (if b <? 0 then 0 else b) then 255 else (if b <? 0 then 0 else b))));; _ ← setpri p; mret tt) Q
    (with_proc s p (set_p_slptime sl' pr) (runrun s))).
  { intros sl' b Hb Hd. rewrite (proj2 (Z.ltb_ge b 0)), (proj2 (Z.ltb_ge 255 b)) by lia.
    apply wp_bind. eapply wp_wrp; [simpl; by rewrite lookup_insert_eq|].
    apply wp_bind. eapply wp_setpri; [simpl; by rewrite lookup_insert_eq|]. apply wp_ret.
    rewrite <- Hd. set (st := with_proc _ _ _ _).
    assert (Hst : ∃ rr, st = with_proc s p (decayed pr) rr).
    { eexists. unfold st, with_proc. simpl. rewrite !insert_insert_eq. reflexivity. }
    destruct Hst as [rr ->]. apply HQ. }
  apply wp_bind. cbn [updatepri_loop]. destruct (Z.eqb_spec a 0) as [Ha0|Ha0].
  - apply wp_ret. rewrite Ha0. apply Hfin; [lia|]. unfold decayed. fold a sl. rewrite Ha0. done.
  - apply wp_bind. eapply wp_wrp; [simpl; by rewrite lookup_insert_eq|].
    apply wp_bind. eapply wp_rdp; [simpl; by rewrite lookup_insert_eq|].
    assert (Hs2 : set_procs (<[p := set_p_slptime (s8 (p_slptime (set_p_slptime sl pr) - 1)) (set_p_slptime sl pr)]>
      (procs (with_proc s p (set_p_slptime sl pr) (runrun s)))) (with_proc s p (set_p_slptime sl pr) (runrun s))
      = with_proc s p (set_p_slptime (s8 (sl - 1)) pr) (runrun s)).
    { unfold with_proc. simpl. by rewrite insert_insert_eq. }
    rewrite Hs2. cbn [p_slptime set_p_slptime].
    destruct (s8 (sl - 1) =? 0) eqn:E.
    + apply wp_ret. apply Hfin; [lia|]. unfold decayed. fold a sl. rewrite (proj2 (Z.eqb_neq _ _) Ha0), E. done.
    + change (schmag_times a) with 0. cbn [Z.eqb]. apply wp_ret. apply (Hfin _ 0); [lia|].
      unfold decayed. fold a sl. rewrite (proj2 (Z.eqb_neq _ _) Ha0), E. done.
Qed.

Lemma decayed_fields pr :
  p_link (decayed pr) = p_link pr ∧ p_wchan (decayed pr) = p_wchan pr ∧ p_stat (decayed pr) = p_stat pr ∧
  p_flag (decayed pr) = p_flag pr.
Proof. unfold decayed. destruct (_ =? 0); done. Qed.
Lemma chains_proc s p pr pr' rr sq rq :
  procs s !! p = Some pr → p_link pr' = p_link pr → chains s sq rq → chains (with_proc s p pr' rr) sq rq.
Proof.
  intros Hp Hl. apply chains_ext; [|done|done]. intros z. unfold lnk. simpl.
  destruct (decide (p = z)) as [<-|]; [by rewrite lookup_insert_eq, Hp; simpl; f_equal|by rewrite lookup_insert_ne].
Qed.

(** State [s'] is [s] with process [p] replaced, links, queues and flags aside. *)
Definition only_proc s (p : Z) (pr' : proc) s' : Prop :=
  (∀ z, z ≠ p → nolink <$> procs s' !! z = nolink <$> procs s !! z) ∧ procs s' !! p = Some pr' ∧
  runout s' = runout s.

(** [p->p_wchan = 0; *q = p->p_link;] *)
Lemma wp_off_queue {B} s sq rq h pre p post q pr (k : K_ B) (Q : B → kst C → Prop) :
  rep s sq rq → sq h = pre ++ p :: post → 0 ≤ h < SQSIZE → at_pos pre q → procs s !! p = Some pr →
  (∀ s', chains s' (upd_sq sq h (pre ++ post)) rq → only_proc s p (set_p_wchan 0 pr) s' → wp k Q s') →
  wp (wrp p (set_p_wchan 0);; wr_q h q (p_link pr);; k) Q s.
Proof.
  intros (Hc & _) Hsq Hh Hpos Hp HQ. apply wp_bind. eapply wp_wrp; [exact Hp|].
  assert (Hs : ∀ q, set_procs (<[p := q]> (procs s)) s = with_proc s p q (runrun s)) by (intros; by destruct s).
  rewrite Hs. apply wp_bind.
  assert (Hp1 : procs (with_proc s p (set_p_wchan 0 pr) (runrun s)) !! p = Some (set_p_wchan 0 pr))
    by (simpl; by rewrite lookup_insert_eq).
  change (p_link pr) with (p_link (set_p_wchan 0 pr)).
  eapply wp_unlink; [by eapply chains_proc|done|done|done|exact Hp1|].
  cbv zeta. intros m l Hc' Hsp Hpp. apply HQ; [done|]. split_and!; [|done|done].
  intros z Hz. rewrite (Hsp z). simpl. by rewrite lookup_insert_ne.
Qed.

Lemma only_proc_upd s p pr pr' s' rr :
  only_proc s p pr s' → only_proc s p pr' (with_proc s' p pr' rr).
Proof.
  intros (H1 & H2 & H3). split_and!; [|simpl; by rewrite lookup_insert_eq|done].
  intros z Hz. simpl. rewrite lookup_insert_ne by done. auto.
Qed.

(** A sleeping process of the channel is made runnable. *)
Lemma wp_wake_one {B} s sq rq h pre p post q pr (k : proc → K_ B) (Q : B → kst C → Prop) :
  rep s sq rq → sq h = pre ++ p :: post → HASH (p_wchan pr) = h → at_pos pre q → procs s !! p = Some pr →
  p_stat pr = SSLEEP →
  (∀ s' rq' pr', p_flag pr' = p_flag pr → rep s' (upd_sq sq h (pre ++ post)) rq' →
     prog [p] s s' sq rq (upd_sq sq h (pre ++ post)) rq' → runout s' = runout s →
     S (size (sleepers s')) = size (sleepers s) → size (procs s') = size (procs s) → wp (k pr') Q s') →
  wp (wrp p (set_p_wchan 0);;
      wr_q h q (p_link pr);;
      when (1 <? p_slptime pr) (updatepri p);;
      wrp p (set_p_slptime 0);;
      wrp p (set_p_stat SRUN);;
      pr ← rdp p;
      when (has_flag SLOAD pr) (setrq p);;
      modify (λ s, set_runrun (runrun s + 1) s);;
      k pr) Q s.
Proof.
  intros Hrep Hsq Hh Hpos Hp Hst HQ.
  assert (Hhr : 0 ≤ h < SQSIZE) by (subst h; apply HASH_range).
  eapply wp_off_queue; try done. intros s1 Hc1 Ho1.
  assert (Hoff : off_queues (upd_sq sq h (pre ++ post)) rq p ∧ p ≠ 0).
  { pose proof Hrep as (Hc & Ha & Hb & Hr). pose proof Hc as (_ & H2 & _ & H4 & H5).
    destruct (H2 h Hhr) as (hd & _ & Hch). rewrite Hsq in Hch.
    pose proof (chain_nodup _ _ _ Hch) as (_ & Hd & [Hn _]%NoDup_cons)%NoDup_app.
    split; [|eapply (chain_proc _ _ _ _ Hch); set_solver]. split.
    - intros i Hi. unfold upd_sq. case_decide as Hd'.
      + intros [Hx|Hx]%elem_of_app; [apply (Hd p Hx); set_solver|done].
      + intros Hx. apply Hd', (H4 i h p); try done. rewrite Hsq. set_solver.
    - apply (H5 h p); [done|]. rewrite Hsq. set_solver. }
  destruct Hoff as [Hoff Hp0].
  assert (Hrest : ∀ s2 pr2, chains s2 (upd_sq sq h (pre ++ post)) rq → only_proc s p pr2 s2 →
    p_wchan pr2 = 0 → p_flag pr2 = p_flag pr →
    wp (wrp p (set_p_slptime 0);; wrp p (set_p_stat SRUN);; pr ← rdp p;
    when (has_flag SLOAD pr) (setrq p);; modify (λ s, set_runrun (runrun s + 1) s);; k pr) Q s2).
  { intros s2 pr2 Hc2 Ho2 Hw2 Hf2. pose proof Ho2 as (_ & Hp2 & _).
    assert (Hs : ∀ (t : kst C) q, set_procs (<[p := q]> (procs t)) t = with_proc t p q (runrun t)) by (intros t q0; by destruct t).
    apply wp_bind. eapply wp_wrp; [exact Hp2|]. rewrite Hs.
    apply wp_bind. eapply wp_wrp; [simpl; by rewrite lookup_insert_eq|]. rewrite Hs, with_proc_again.
    set (pr3 := set_p_stat SRUN (set_p_slptime 0 pr2)). set (s3 := with_proc s2 p pr3 _).
    assert (Hc3 : chains s3 (upd_sq sq h (pre ++ post)) rq) by (by eapply chains_proc).
    assert (Ho3 : only_proc s p pr3 s3) by (by eapply only_proc_upd).
    clearbody s3. pose proof Ho3 as (Hz3 & Hp3 & Hr3).
    apply wp_bind. eapply wp_rdp; [exact Hp3|].
    assert (Hwk : ∀ v, woken pr (set_p_link v pr3)).
    { intros v. unfold pr3. split_and!; try done. simpl. by rewrite Hst. }
    assert (Hfl : has_flag SLOAD pr3 = has_flag SLOAD pr) by (unfold has_flag, pr3; simpl; by rewrite Hf2).
    apply wp_bind, wp_when.
    - intros Hload. eapply wp_setrq; [exact Hc3|exact Hoff|done|exact Hp3|]. cbv zeta. intros v Hc4 Hs4.
      apply wp_bind, wp_modify. set (s4 := set_runrun _ _).
      destruct (wake_done s s4 sq rq h pre p post pr (set_p_link v pr3) (p :: rq)) as (R1 & R2 & R3 & R4); try done.
      + intros z Hz. simpl. rewrite lookup_insert_ne by done. auto.
      + simpl. by rewrite lookup_insert_eq.
      + rewrite Hst, <- Hfl, Hload. done.
      + by eapply (HQ s4).
    - intros Hload. apply wp_bind, wp_modify. set (s4 := set_runrun _ _).
      destruct (wake_done s s4 sq rq h pre p post pr pr3 rq) as (R1 & R2 & R3 & R4); try done.
      + specialize (Hwk (p_link pr3)). by destruct pr3.
      + rewrite <- Hfl, Hload, andb_false_r. done.
      + by eapply (HQ s4). }
  apply wp_bind, wp_when.
  - intros _. pose proof Ho1 as (_ & Hp1 & _). eapply wp_updatepri; [exact Hp1|]. intros rr.
    destruct (decayed_fields (set_p_wchan 0 pr)) as (D1 & D2 & D3 & D4).
    eapply (Hrest _ (decayed (set_p_wchan 0 pr))); [by eapply chains_proc|by eapply only_proc_upd|done|done].
  - intros _. eapply (Hrest _ (set_p_wchan 0 pr)); done.
Qed.
(** A sleeper of [chan] that is not in core. *)
Definition swapped_sleeper s (chan p : Z) : Prop :=
  ∃ pr, procs s !! p = Some pr ∧ p_wchan pr = chan ∧ p_stat pr = SSLEEP ∧ has_flag SLOAD pr = false.

(** The result of [wakeup chan]: the processes [D] woken are sleepers of [chan]
    and, if [b], of [&runout]; none of these is left. *)
Definition wakes (chan : Z) (b : bool) D s s' : Prop :=
  (∀ p, p ∈ D → chan_of s p ≠ 0 ∧ (chan_of s p = chan ∨ (b = true ∧ chan_of s p = RUNOUT))) ∧
  (∀ p, chan_of s' p = chan → chan = 0) ∧
  if b then runout s ≠ 0 ∧ runout s' = 0 ∧ (∀ p, chan_of s' p = RUNOUT → RUNOUT = 0) ∧
            (∃ p, p ∈ D ∧ swapped_sleeper s chan p)
  else runout s' = runout s ∧ (runout s ≠ 0 → ∀ p, p ∈ D → ¬ swapped_sleeper s chan p).

Lemma swapped_woke D s s' chan p : woke D s s' → p ∉ D → swapped_sleeper s' chan p → swapped_sleeper s chan p.
Proof.
  intros [Hdom H] Hp (pr' & Hpr' & Hw & Hst & Hfl). destruct (proj1 (Hdom p) ltac:(eauto)) as [pr Hpr].
  specialize (H p pr pr' Hpr Hpr'). rewrite decide_False in H by done.
  destruct (nolink_wchan _ _ H) as (E1 & E2 & E3 & _). exists pr. unfold has_flag in *. rewrite <- E1, <- E2, <- E3. done.
Qed.

Lemma swapped_chan s chan p : swapped_sleeper s chan p → chan_of s p = chan.
Proof. intros (pr & Hp & Hw & _). unfold chan_of. by rewrite Hp. Qed.

Lemma chan_woke_mono D s s' p c : woke D s s' → chan_of s' p = c → c ≠ 0 → chan_of s p = c.
Proof. intros Hw. rewrite (woke_chan D s s') by done. by case_decide. Qed.

(** Waking [p] first and then the rest. *)
Lemma wakes_step chan b D p s s1 s2 :
  woke [p] s s1 → wakes chan b D s1 s2 → runout s1 = runout s → chan_of s p = chan → chan ≠ 0 →
  ¬ (runout s ≠ 0 ∧ swapped_sleeper s chan p) → wakes chan b ([p] ++ D) s s2.
Proof.
  intros Hw (H1 & H2 & H3) Hro Hp Hc0 Hns.
  assert (HD : ∀ z, z ∈ D → z ∉ [p]).
  { intros z Hz ->%list_elem_of_singleton. destruct (H1 p Hz) as [H _]. apply H. rewrite (woke_chan [p] s s1) by done.
    by rewrite decide_True by set_solver. }
  assert (Hch : ∀ z, z ∈ D → chan_of s1 z = chan_of s z).
  { intros z Hz. rewrite (woke_chan [p] s s1) by done. rewrite decide_False by auto. done. }
  split_and!; [|done|].
  - intros z [->%list_elem_of_singleton|Hz]%elem_of_app; [rewrite Hp; auto|]. rewrite <- Hch by done. auto.
  - destruct b.
    + rewrite <- Hro. destruct H3 as (? & ? & ? & z & Hz & Hsw). split_and!; try done. exists z. split; [set_solver|].
      eapply swapped_woke; [exact Hw|auto|done].
    + rewrite <- Hro in *. destruct H3 as [-> H3]. split; [done|]. intros Hr z [->%list_elem_of_singleton|Hz]%elem_of_app.
      * intros ?. by apply Hns.
      * intros Hsw. apply (H3 Hr z Hz). destruct Hw as [Hdom Hw]. destruct Hsw as (pr & Hpr & ? & ? & ?).
        destruct (proj2 (Hdom z) ltac:(eauto)) as [pr' Hpr']. specialize (Hw z pr pr' Hpr Hpr').
        rewrite decide_False in Hw by auto. destruct (nolink_wchan _ _ Hw) as (E1 & E2 & E3 & _).
        exists pr'. unfold has_flag in *. rewrite E1, E2, E3. done.
Qed.

(** Waking the swapped-out [p], then the swapper, then the rest. *)
Lemma wakes_swap chan D1 D2 p s s1 s1' s2 s3 :
  woke [p] s s1 → runout s1 = runout s → chan_of s p = chan → chan ≠ 0 → runout s ≠ 0 → swapped_sleeper s chan p →
  procs s1' = procs s1 → runout s1' = 0 →
  wakes RUNOUT false D1 s1' s2 → woke D1 s1' s2 → wakes chan false D2 s2 s3 → woke D2 s2 s3 →
  wakes chan true ([p] ++ D1 ++ D2) s s3.
Proof.
  intros Hw Hro Hp Hc0 Hrn Hsw Hpr Hro' (A1 & A2 & A3 & A4) HwA (B1 & B2 & B3 & B4) HwB.
  assert (Hc1 : ∀ z, chan_of s1' z = chan_of s1 z) by (intros; unfold chan_of; by rewrite Hpr).
  assert (Hmono1 : ∀ z, chan_of s1 z ≠ 0 → chan_of s z = chan_of s1 z).
  { intros z Hz. by apply (chan_woke_mono [p] s s1). }
  assert (Hmono2 : ∀ z, chan_of s2 z ≠ 0 → chan_of s1 z = chan_of s2 z).
  { intros z Hz. rewrite <- Hc1. by apply (chan_woke_mono D1 s1' s2). }
  split; [|split; [done|]].
  - intros z [->%list_elem_of_singleton|[Hz|Hz]%elem_of_app]%elem_of_app.
    + rewrite Hp. auto.
    + destruct (A1 z Hz) as [Hz0 [Hz1|[? _]]]; [|done]. rewrite Hc1 in Hz0, Hz1. rewrite Hmono1 by done. auto.
    + destruct (B1 z Hz) as [Hz0 [Hz1|[? _]]]; [|done]. rewrite Hmono1, Hmono2 by (rewrite ?Hmono2; done). auto.
  - split_and!; [done|by rewrite B3, A3| |exists p; split; [set_solver|done]].
    intros z Hz. destruct (decide (RUNOUT = 0)) as [|Hr0]; [done|]. apply (A2 z).
    by apply (chan_woke_mono D2 s2 s3).
Qed.

Lemma wakeup_loop_ok fuel s chan q pre post sq rq :
  rep s sq rq → sq (HASH chan) = pre ++ post → at_pos pre q → (∀ p, p ∈ pre → chan_of s p ≠ chan) →
  (size (sleepers s) * (size (procs s) + 1) + length post < fuel)%nat →
  wp (wakeup_loop RUNOUT fuel chan q)
     (λ _ s', ∃ b D sq' rq', rep s' sq' rq' ∧ prog D s s' sq rq sq' rq' ∧ wakes chan b D s s') s.
Proof.
  revert s chan q pre post sq rq. induction fuel as [|fuel IH]; intros s chan q pre post sq rq Hrep Hsq Hpos Hpre Hfu; [lia|].
  pose proof Hrep as (Hc & Ha & Hb & Hr). pose proof (HASH_range chan) as Hh.
  cbn [wakeup_loop]. apply wp_bind. eapply wp_rd_q; [exact Hc|exact Hh|exact Hsq|done|].
  destruct post as [|p post]; cbn [head default from_option id].
  { apply wp_ret. exists false, [], sq, rq. split; [done|]. split; [apply prog_refl|].
    unfold wakes. split_and!; [set_solver| |done|set_solver].
    intros p Hp. destruct (decide (chan = 0)) as [|Hc0]; [done|]. exfalso. unfold chan_of in Hp.
    destruct (procs s !! p) as [pr|] eqn:E; simpl in Hp; [|done].
    assert (Hin : p ∈ sq (HASH chan)) by (rewrite <- Hp; apply (Hb p pr E); congruence).
    rewrite Hsq, app_nil_r in Hin. apply (Hpre p Hin). unfold chan_of. by rewrite E. }
  assert (Hpin : p ∈ sq (HASH chan)) by (rewrite Hsq; set_solver).
  destruct (Ha _ p Hh Hpin) as (pr & Hp & Hw0 & Hhash & Hst).
  assert (Hp0 : p ≠ 0). { destruct Hc as (_ & H2 & _). destruct (H2 _ Hh) as (hd & _ & Hch). eapply (chain_proc _ _ _ _ Hch). done. }
  rewrite (proj2 (Z.eqb_neq p 0)) by done. apply wp_bind. eapply wp_rdp; [exact Hp|].
  assert (Hstb : negb (p_stat pr =? SSLEEP) && negb (p_stat pr =? SSTOP) = false) by (destruct Hst as [-> | ->]; done).
  rewrite Hstb.
  assert (Hlen : ∀ s' sq' rq', rep s' sq' rq' → (length (sq' (HASH chan)) ≤ size (procs s'))%nat).
  { intros s' sq' rq' ((_ & H2 & _) & _). destruct (H2 _ Hh) as (hd & _ & Hch). by eapply pr_chain_length. }
  assert (Hlen' : ∀ s' sq' rq' c, rep s' sq' rq' → (length (sq' (HASH c)) ≤ size (procs s'))%nat).
  { intros s' sq' rq' c ((_ & H2 & _) & _). destruct (H2 _ (HASH_range c)) as (hd & _ & Hch). by eapply pr_chain_length. }
  assert (Hcp : chan_of s p = p_wchan pr) by (unfold chan_of; by rewrite Hp).
  destruct (Z.eqb_spec (p_wchan pr) chan) as [Hwc|Hwc]; cycle 1.
  { apply (IH s chan (QLink p) (pre ++ [p]) post sq rq); try done.
    - by rewrite <- app_assoc.
    - simpl. by rewrite last_snoc.
    - intros z [Hz|Hz%list_elem_of_singleton]%elem_of_app; [auto|]. subst z. by rewrite Hcp.
    - simpl in Hfu. lia. }
  assert (Hc0 : chan ≠ 0) by congruence.
  destruct (Z.eqb_spec (p_stat pr) SSLEEP) as [Hsl|Hsl].
  - eapply wp_wake_one; try done. intros s1 rq1 pr' Hfl Hrep1 Hprog1 Hro1 Hsz1 Hsp1.
    set (sq1 := upd_sq sq (HASH chan) (pre ++ post)) in *.
    assert (Hfl' : has_flag SLOAD pr' = has_flag SLOAD pr) by (unfold has_flag; by rewrite Hfl). rewrite Hfl'.
    assert (Hfuel1 : ∀ s' (x : nat), procs s' = procs s1 → (x ≤ size (procs s'))%nat →
      (size (sleepers s') * (size (procs s') + 1) + x < fuel)%nat).
    { intros s' x Hps Hx. unfold sleepers in *. rewrite Hps in *. nia. }
    assert (Hout : ∀ s' sq' rq' (Qn : Prop), procs s' = procs s1 → rep s' sq' rq' →
      wp (wakeup_loop RUNOUT fuel chan QHead)
      (λ _ s2, ∃ b D sq2 rq2, rep s2 sq2 rq2 ∧ prog D s' s2 sq' rq' sq2 rq2 ∧ wakes chan b D s' s2) s').
    { intros s' sq' rq' _ Hps Hrep'. apply (IH s' chan QHead [] (sq' (HASH chan)) sq' rq'); try done; [set_solver|].
      apply Hfuel1; [done|]. by eapply Hlen. }
    destruct (has_flag SLOAD pr) eqn:Hload.
    + apply wp_bind, wp_ret. eapply wp_mono; [by apply (Hout s1 sq1 rq1 True)|]. cbv beta.
      intros _ s2 (b & D & sq2 & rq2 & Hrep2 & Hprog2 & Hwk2). exists b, ([p] ++ D), sq2, rq2. split_and!; [done| |].
      * eapply prog_trans; [exact Hprog1|exact Hprog2|]. apply Hwk2.
      * eapply wakes_step; [apply Hprog1|done|done|congruence|done|].
        intros [_ (pr2 & ? & _ & _ & ?)]. simplify_eq. congruence.
    + assert (Hsw : swapped_sleeper s chan p) by (by exists pr).
      apply wp_bind, wp_bind, wp_gets. apply wp_when.
      * intros Hrn%negb_true_iff%Z.eqb_neq. apply wp_bind, wp_modify.
        set (s1' := set_runout 0 s1).
        assert (Hrep1' : rep s1' sq1 rq1).
        { destruct Hrep1 as (Hc1 & R). split; [|done]. by apply (chains_ext s1). }
        eapply wp_mono; [apply (IH s1' RUNOUT QHead [] (sq1 (HASH RUNOUT)) sq1 rq1 Hrep1'); try done; [set_solver|]|].
        { apply Hfuel1; [done|]. by eapply Hlen'. }
        cbv beta. intros _ s2 (b & D1 & sq2 & rq2 & Hrep2 & Hprog2 & Hwk2).
        destruct b; [destruct Hwk2 as (_ & _ & Hx & _); done|].
        assert (Hps2 : size (procs s2) = size (procs s1')).
        { rewrite <- !size_dom. f_equal. apply set_eq. intros z. rewrite !elem_of_dom. apply Hprog2. }
        eapply wp_mono; [apply (IH s2 chan QHead [] (sq2 (HASH chan)) sq2 rq2 Hrep2); try done; [set_solver|]|].
        { assert (Hsl2 : (size (sleepers s2) ≤ size (sleepers s1))%nat).
          { apply subseteq_size. intros z. rewrite !elem_sleepers. intros Hz.
            change (chan_of s1 z) with (chan_of s1' z). rewrite (chan_woke_mono D1 s1' s2 z (chan_of s2 z)); [done|apply Hprog2|done|done]. }
          pose proof (Hlen _ _ _ Hrep2) as Hl2. change (procs s1') with (procs s1) in Hps2. rewrite Hps2, Hsp1 in *. nia. }
        cbv beta. intros _ s3 (b & D2 & sq3 & rq3 & Hrep3 & Hprog3 & Hwk3).
        assert (Hro2 : runout s2 = 0) by (destruct Hwk2 as (_ & _ & -> & _); done).
        destruct b; [destruct Hwk3 as (_ & _ & Hx & _); done|].
        exists true, ([p] ++ D1 ++ D2), sq3, rq3. split_and!; [done| |].
        -- eapply prog_trans; [exact Hprog1| |].
          ++ change (prog D1 s1' s2 sq1 rq1 sq2 rq2) with (prog D1 s1 s2 sq1 rq1 sq2 rq2) in Hprog2.
            eapply prog_trans; [exact Hprog2|exact Hprog3|]. apply Hwk3.
          ++ intros z [Hz|Hz]%elem_of_app; [by apply (proj1 Hwk2)|].
            change (chan_of s1 z) with (chan_of s1' z).
            rewrite (chan_woke_mono D1 s1' s2 z (chan_of s2 z)); [by apply (proj1 Hwk3)|apply Hprog2|done|by apply (proj1 Hwk3)].
        -- eapply (wakes_swap chan D1 D2 p s s1 s1' s2 s3); try done; [apply Hprog1|congruence|rewrite <- Hro1; done|apply Hprog2|apply Hprog3].
      * intros Hrn%negb_false_iff%Z.eqb_eq. eapply wp_mono; [by apply (Hout s1 sq1 rq1 True)|]. cbv beta.
        intros _ s2 (b & D & sq2 & rq2 & Hrep2 & Hprog2 & Hwk2). exists b, ([p] ++ D), sq2, rq2. split_and!; [done| |].
        -- eapply prog_trans; [exact Hprog1|exact Hprog2|]. apply Hwk2.
        -- eapply wakes_step; [apply Hprog1|done|done|congruence|done|]. intros [Hx _]. congruence.
  - destruct Hst as [Hst|Hst]; [done|].
    eapply (wp_off_queue s sq rq (HASH chan) pre p post); try done. intros s1 Hc1 Ho1. pose proof Ho1 as (_ & Hp1 & _).
    apply wp_bind. eapply wp_wrp; [exact Hp1|].
    assert (Hs : ∀ q, set_procs (<[p := q]> (procs s1)) s1 = with_proc s1 p q (runrun s1)) by (intros; by destruct s1).
    rewrite Hs. set (pr2 := set_p_slptime 0 (set_p_wchan 0 pr)). set (s2 := with_proc s1 p pr2 _).
    assert (Ho2 : only_proc s p pr2 s2) by (by eapply only_proc_upd). pose proof Ho2 as (Hz2 & Hp2 & Hr2).
    destruct (wake_done s s2 sq rq (HASH chan) pre p post pr pr2 rq) as (R1 & R2 & R3 & R4); try done.
    { by eapply chains_proc. }
    { split_and!; try done. simpl. by rewrite Hst. }
    { by rewrite Hst. }
    eapply wp_mono; [apply (IH s2 chan q pre post _ rq R1)|].
    + unfold upd_sq. by rewrite decide_True.
    + done.
    + intros z Hz Hzc. apply (Hpre z Hz). by eapply (chan_woke_mono [p] s s2); [apply R2| |].
    + rewrite R4. simpl in Hfu. nia.
    + cbv beta. intros _ s3 (b & D & sq2 & rq2 & Hrep2 & Hprog2 & Hwk2). exists b, ([p] ++ D), sq2, rq2. split_and!; [done| |].
      * eapply prog_trans; [exact R2|exact Hprog2|]. apply Hwk2.
      * eapply wakes_step; [apply R2|done|done|congruence|done|].
        intros [_ (pr3 & ? & _ & ? & _)]. simplify_eq.
Qed.
End wakeup.

(** ** Picking a process *)

Section swtch.
Context {C : Type}.
Implicit Types (s : kst C).

Definition pri_of s (p : Z) : Z := default 0 (p_pri <$> procs s !! p).
Definition in_core s (p : Z) : bool := default false (has_flag SLOAD <$> procs s !! p).

(** [p] is the first process of the best priority among those in core. *)
Definition best s (l1 : list Z) (p : Z) (l2 : list Z) : Prop :=
  in_core s p = true ∧ pri_of s p < 128 ∧
  (∀ z, z ∈ l1 → in_core s z = true → pri_of s p < pri_of s z) ∧
  (∀ z, z ∈ l2 → in_core s z = true → pri_of s p ≤ pri_of s z).

(** What the search knows after the processes [l1]. *)
Definition searched s (l1 : list Z) (pp pq n : Z) : Prop :=
  (pp = 0 ∧ n = 128 ∧ ∀ z, z ∈ l1 → in_core s z = true → 128 ≤ pri_of s z) ∨
  (∃ a b, l1 = a ++ pp :: b ∧ pq = default 0 (last a) ∧ n = pri_of s pp ∧ best s a pp b).

Lemma swtch_scan_ok fuel s p l1 l2 pp pq n (Q : Z * Z * Z → kst C → Prop) :
  chain (lnk s) p l2 → (length l2 < fuel)%nat → searched s l1 pp pq n →
  (∀ pp' pq' n', searched s (l1 ++ l2) pp' pq' n' → Q (pp', pq', n') s) →
  wp (swtch_scan fuel p (default 0 (last l1)) pp pq n) Q s.
Proof.
  revert p l1 l2 pp pq n. induction fuel as [|fuel IH]; intros p l1 l2 pp pq n Hc Hf Hs HQ; [lia|].
  cbn [swtch_scan]. destruct l2 as [|x l2].
  { simpl in Hc. subst p. apply wp_ret. apply HQ. by rewrite app_nil_r. }
  destruct Hc as (-> & Hx0 & n' & (pr & Hpr & <-)%lnk_Some & Hc). rewrite (proj2 (Z.eqb_neq x 0)) by done.
  apply wp_bind. eapply wp_rdp; [exact Hpr|].
  assert (Hpx : pri_of s x = p_pri pr ∧ in_core s x = has_flag SLOAD pr) by (unfold pri_of, in_core; by rewrite Hpr).
  destruct Hpx as [Hpx Hcx].
  assert (Hq : x = default 0 (last (l1 ++ [x]))) by (by rewrite last_snoc).
  destruct (has_flag SLOAD pr && (p_pri pr <? n)) eqn:E.
  - to_prop. rewrite Hq at 1. apply (IH _ (l1 ++ [x]) l2); [done|simpl in Hf; lia| |by rewrite <- app_assoc].
    right. exists l1, []. rewrite Hpx. split; [done|]. split; [done|]. split; [done|].
    unfold best. rewrite Hpx, Hcx. split; [done|]. split; [|split].
    + destruct Hs as [(_ & -> & _)|(a & b & _ & _ & -> & (_ & ? & _))]; lia.
    + intros z Hz Hzc. destruct Hs as [(_ & -> & Hall)|(a & b & -> & _ & -> & (_ & _ & H1 & H2))].
      * specialize (Hall z Hz Hzc). lia.
      * apply elem_of_app in Hz as [Hz|[->|Hz]%elem_of_cons]; [specialize (H1 z Hz Hzc)| |specialize (H2 z Hz Hzc)]; lia.
    + set_solver.
  - rewrite Hq at 1. apply (IH _ (l1 ++ [x]) l2); [done|simpl in Hf; lia| |by rewrite <- app_assoc].
    assert (Hxn : in_core s x = true → n ≤ pri_of s x).
    { rewrite Hcx, Hpx. intros Hl. rewrite Hl in E. simpl in E. by apply Z.ltb_ge in E. }
    destruct Hs as [(-> & -> & Hall)|(a & b & -> & -> & -> & (H0 & H128 & H1 & H2))].
    + left. split_and!; [done|done|]. intros z [Hz|Hz%list_elem_of_singleton]%elem_of_app Hzc; [auto|]. subst. auto.
    + right. exists a, (b ++ [x]). split_and!; [by rewrite <- app_assoc|done|done|]. split_and!; [done|done|done|].
      intros z [Hz|Hz%list_elem_of_singleton]%elem_of_app Hzc; [auto|]. subst. auto.
Qed.

Lemma swtch_pick_ok s sq rq :
  chains s sq rq →
  wp swtch_pick
     (λ r s', match r with
              | None => (∀ z, z ∈ rq → in_core s z = true → 128 ≤ pri_of s z) ∧ chains s' sq rq
              | Some (p, swapped) => ∃ l1 l2 pr, rq = l1 ++ p :: l2 ∧ best s l1 p l2 ∧ chains s' sq (l1 ++ l2) ∧
                  procs s !! p = Some pr ∧ swapped = has_flag SSWAP pr ∧ curpri s' = s8 (pri_of s p) ∧ runrun s' = 0
              end) s.
Proof.
  intros Hch. unfold swtch_pick. apply wp_bind, wp_modify. apply wp_bind, wp_modify.
  set (s1 := set_runrun 0 _).
  assert (Hch1 : chains s1 sq rq) by (by apply (chains_ext s)).
  pose proof Hch1 as (H1 & H2 & H3 & H4 & H5).
  apply wp_bind, wp_gets. apply wp_bind, wp_gets. apply wp_bind.
  apply (swtch_scan_ok _ s1 (qs s1) [] rq); [done| | |].
  { pose proof (pr_chain_length _ _ _ H3). lia. }
  { left. split_and!; [done|done|set_solver]. }
  cbn [app]. intros pp pq n [(-> & -> & Hall)|(a & b & -> & -> & -> & Hbest)].
  { cbn [Z.eqb]. apply wp_ret. split; [exact Hall|exact Hch1]. }
  destruct (chain_proc _ _ _ pp H3) as [Hp0 (pr & Hpr)]; [set_solver|].
  rewrite (proj2 (Z.eqb_neq pp 0)) by done. apply wp_bind. eapply wp_rdp; [exact Hpr|].
  pose proof (chain_nodup _ _ _ H3) as Hnd.
  assert (Hlp : lnk s1 pp = Some (p_link pr)) by (apply lnk_Some; eauto).
  assert (Hfin : ∀ s2, chains s2 sq (a ++ b) → procs s2 !! pp = Some pr → runrun s2 = 0 →
    wp (modify (set_curpri (s8 (pri_of s1 pp)));; pr ← rdp pp;
    wrp pp (λ r, set_p_flag (Z.land (p_flag r) (Z.lnot SSWAP)) r);; mret (Some (pp, has_flag SSWAP pr)))
    (λ r s', match r with
    | None => (∀ z, z ∈ a ++ pp :: b → in_core s z = true → 128 ≤ pri_of s z) ∧ chains s' sq (a ++ pp :: b)
    | Some (p, swapped) => ∃ l1 l2 pr, a ++ pp :: b = l1 ++ p :: l2 ∧ best s l1 p l2 ∧ chains s' sq (l1 ++ l2) ∧
    procs s !! p = Some pr ∧ swapped = has_flag SSWAP pr ∧ curpri s' = s8 (pri_of s p) ∧ runrun s' = 0
    end) s2).
  { intros s2 Hc2 Hp2 Hr2. apply wp_bind, wp_modify. apply wp_bind. eapply wp_rdp; [exact Hp2|].
    apply wp_bind. eapply wp_wrp; [exact Hp2|]. apply wp_ret. exists a, b, pr. split_and!; try done.
    apply (chains_ext s2); [|done|done|done]. intros z. unfold lnk. simpl.
    destruct (decide (pp = z)) as [<-|]; [by rewrite lookup_insert_eq, Hp2|by rewrite lookup_insert_ne]. }
  assert (Hsub : (∀ i z, 0 ≤ i < SQSIZE → z ∈ sq i → z ∉ a ++ b)).
  { intros i z Hi Hz Hin. apply (H5 i z Hi Hz). set_solver. }
  apply wp_bind. destruct a as [|y a _] using rev_ind.
  - cbn [last default from_option id Z.eqb]. apply wp_modify. apply Hfin; [|done|done].
    split_and!; simpl; try done. destruct H3 as (_ & _ & n & Hn & H3). rewrite Hlp in Hn. by injection Hn as ->.
  - rewrite last_snoc. cbn [default from_option id].
    destruct (chain_proc _ _ _ y H3) as [Hy0 (yr & Hyr)]; [set_solver|].
    rewrite (proj2 (Z.eqb_neq y 0)) by done. eapply wp_wrp; [exact Hyr|].
    assert (Hyp : pp ≠ y).
    { rewrite <- app_assoc in Hnd. apply NoDup_app in Hnd as (_ & _ & [Hn _]%NoDup_cons). set_solver. }
    apply Hfin; [|simpl; by rewrite lookup_insert_ne|done].
    assert (Hl : ∀ z, lnk (set_procs (<[y := set_p_link (p_link pr) yr]> (procs s1)) s1) z = upd (lnk s1) y (p_link pr) z)
      by (intros z; by apply lnk_set).
    split_and!; try done.
    + intros i Hi. destruct (H2 i Hi) as (hd & ? & Hc). exists hd. split; [done|].
      eapply lseg_ext; [|exact Hc]. intros z Hz. rewrite Hl. apply upd_ne. intros ->.
      apply (H5 i y Hi Hz). set_solver.
    + rewrite <- app_assoc in H3 |- *. cbn [app] in *.
      eapply (chain_delete_after (lnk s1)); [exact H3|exact Hlp|]. intros z _. apply Hl.
Qed.
End swtch.

(** ** Finding a process by number *)

Section pfind.
Context {C : Type}.
Implicit Types (s : kst C).

Definition hnk s : Z → option Z := λ p, p_hash <$> procs s !! p.
Definition pid_of s (p : Z) : Z := default 0 (p_pid <$> procs s !! p).

(** The processes hashed under [i] are [hq i]. *)
Definition hashed s (hq : Z → list Z) : Prop :=
  (∀ i, 0 ≤ i < PIDHSZ → ∃ h, aget (pidhash s) i = Some h ∧ chain (hnk s) h (hq i)) ∧
  (∀ i p, 0 ≤ i < PIDHSZ → p ∈ hq i → PIDHASH (pid_of s p) = i).

Lemma PIDHASH_range x : 0 ≤ PIDHASH x < PIDHSZ.
Proof.
  unfold PIDHASH, PIDHSZ. change (16 - 1) with (Z.ones 4). rewrite Z.land_ones by lia.
  apply Z.mod_pos_bound. lia.
Qed.

Lemma pfind_loop_ok fuel s p l pid :
  chain (hnk s) p l → (length l < fuel)%nat →
  wp (pfind_loop fuel p pid)
     (λ r s', s' = s ∧ ((r = 0 ∧ ∀ z, z ∈ l → pid_of s z ≠ pid) ∨ (r ≠ 0 ∧ r ∈ l ∧ pid_of s r = pid))) s.
Proof.
  revert p l. induction fuel as [|fuel IH]; intros p l Hc Hf; [lia|]. cbn [pfind_loop].
  destruct l as [|x l]; [simpl in Hc; subst p; apply wp_ret; split; [done|left; set_solver]|].
  destruct Hc as (-> & Hx0 & n & Hn & Hc). rewrite (proj2 (Z.eqb_neq x 0)) by done.
  unfold hnk in Hn. destruct (procs s !! x) as [pr|] eqn:Hpr; [|done]. injection Hn as <-.
  apply wp_bind. eapply wp_rdp; [exact Hpr|].
  assert (Hpx : pid_of s x = p_pid pr) by (unfold pid_of; by rewrite Hpr).
  destruct (Z.eqb_spec (p_pid pr) pid) as [E|E].
  - apply wp_ret. split; [done|]. right. split_and!; [done|set_solver|congruence].
  - eapply wp_mono; [apply (IH _ l Hc); simpl in Hf; lia|]. cbv beta. intros r s' [-> [[-> H]|(? & ? & ?)]].
    + split; [done|]. left. split; [done|]. intros z [->|Hz]%elem_of_cons; [congruence|auto].
    + split; [done|]. right. set_solver.
Qed.

Lemma hchain_length s p q : chain (hnk s) p q → (length q ≤ size (procs s))%nat.
Proof.
  intros Hc. rewrite <- size_dom, <- (size_list_to_set (C := gset Z) q) by (by eapply chain_nodup).
  apply subseteq_size. intros x. rewrite elem_of_list_to_set, elem_of_dom. intros Hx.
  apply list_elem_of_split in Hx as (l1 & l2 & ->). apply lseg_app in Hc as (r & _ & -> & _ & n & Hn & _).
  unfold hnk in Hn. destruct (procs s !! x); [eauto|done].
Qed.
End pfind.

(** ** Frames *)

Section frames.
Context {C : Type}.

Lemma keeps_rdp {X} (f : kst C → X) p : keeps f (rdp p).
Proof. apply keeps_load. Qed.

Lemma keeps_co_wrp p g : keeps co (wrp (C := C) p g).
Proof. apply keeps_store. intros s s'. destruct (procs s !! p); [|done]. by intros [= <-]. Qed.
End frames.
#[export] Hint Resolve keeps_rdp keeps_co_wrp : frame.

Section frames2.
Context {C : Type}.

Lemma keeps_co_setpri p : keeps co (setpri (C := C) p).
Proof. unfold setpri. keeps_tac. Qed.
#[local] Hint Resolve keeps_co_setpri : frame.

Lemma keeps_co_updatepri_loop n p a : keeps co (updatepri_loop (C := C) n p a).
Proof. revert a. induction n; intros a; cbn [updatepri_loop]; keeps_tac. Qed.
#[local] Hint Resolve keeps_co_updatepri_loop : frame.

Lemma keeps_co_updatepri p : keeps co (updatepri (C := C) p).
Proof. unfold updatepri. keeps_tac. Qed.
#[local] Hint Resolve keeps_co_updatepri : frame.

Lemma keeps_co_setrq p : keeps co (setrq (C := C) p).
Proof. unfold setrq. keeps_tac. Qed.

Lemma keeps_co_rd_q h q : keeps co (rd_q (C := C) h q).
Proof. destruct q; simpl; keeps_tac. Qed.

Lemma keeps_co_wr_q h q v : keeps co (wr_q (C := C) h q v).
Proof.
  destruct q; simpl; [|apply keeps_co_wrp]. apply keeps_store. intros s s'.
  destruct (aset _ _ _); [|done]. by intros [= <-].
Qed.
#[local] Hint Resolve keeps_co_setrq keeps_co_rd_q keeps_co_wr_q : frame.

Lemma keeps_co_wakeup_loop RUNOUT n chan q : keeps co (wakeup_loop (C := C) RUNOUT n chan q).
Proof. revert chan q. induction n; intros chan q; cbn [wakeup_loop]; keeps_tac. Qed.
#[local] Hint Resolve keeps_co_wakeup_loop : frame.

Lemma keeps_co_wakeup RUNOUT chan : keeps co (wakeup (C := C) RUNOUT chan).
Proof. unfold wakeup. keeps_tac. Qed.
End frames2.
#[export] Hint Resolve keeps_co_setpri keeps_co_updatepri keeps_co_setrq keeps_co_wakeup : frame.

(** ** The whole of [wakeup] *)

Section wakeup_whole.
Context {C : Type} `{!CalloutQueue C}.
Implicit Types (s : kst C).

Lemma sleepers_le s : (size (sleepers s) ≤ size (procs s))%nat.
Proof. unfold sleepers. rewrite size_dom. apply map_size_filter. Qed.

Lemma wakeup_ok RUNOUT s sq rq chan :
  rep s sq rq →
  wp (wakeup RUNOUT chan)
     (λ _ s', ∃ b D sq' rq', rep s' sq' rq' ∧ prog D s s' sq rq sq' rq' ∧ wakes RUNOUT chan b D s s') s.
Proof.
  intros Hrep. unfold wakeup. apply wp_bind, wp_gets.
  apply (wakeup_loop_ok _ _ _ _ _ [] (sq (HASH chan))); [done|done|done|set_solver|].
  unfold wakeup_fuel. pose proof (sleepers_le s).
  assert (length (sq (HASH chan)) ≤ size (procs s))%nat.
  { destruct Hrep as ((_ & H2 & _) & _). destruct (H2 _ (HASH_range chan)) as (hd & _ & Hch). by eapply pr_chain_length. }
  nia.
Qed.

(** ** The ageing pass of [schedcpu] *)

Definition clamp255 (a : Z) : Z := Z.max 0 (Z.min 255 a).

(** One second later: resident time, the real-time timer, sleep time, and for
    those not long asleep the decayed usage and the priority. *)
Definition timed (pr : proc) : proc :=
  let pr := set_p_time (if p_time pr =? 127 then 127 else p_time pr + 1) pr in
  set_p_rtval (if p_rtval pr =? 0 then 0 else if p_rtval pr =? 1 then p_rtint pr else p_rtval pr - 1) pr.
Definition slept (pr : proc) : proc :=
  if (p_stat pr =? SSLEEP) || (p_stat pr =? SSTOP)
  then set_p_slptime (if p_slptime pr =? 127 then 127 else p_slptime pr + 1) pr else pr.
Definition decays (pr : proc) : proc :=
  if 1 <? p_slptime pr then pr
  else
    let pr := set_p_cpu (s8 (clamp255 (times_schmag (Z.land (p_cpu pr) 255) + p_nice pr))) pr in
    if PUSER <=? p_pri pr then set_p_pri (s8 (user_pri pr)) pr else pr.
Definition aged (pr : proc) : proc := decays (slept (timed pr)).

Definition expires (pr : proc) : bool := p_rtval pr =? 1.

Definition aged_at s (p : Z) (pr : proc) (g : list (Z * Z)) (rr : Z) : kst C :=
  set_sigs g (with_proc s p pr rr).

Lemma aged_at_again s p pr g rr pr' : 
  set_procs (<[p := pr']> (procs (aged_at s p pr g rr))) (aged_at s p pr g rr) = aged_at s p pr' g rr.
Proof. unfold aged_at, with_proc. simpl. by rewrite insert_insert_eq. Qed.

Lemma aged_at_lookup s p pr g rr : procs (aged_at s p pr g rr) !! p = Some pr.
Proof. simpl. by rewrite lookup_insert_eq. Qed.

Lemma wp_wrp_aged s p pr g rr f (Q : unit → kst C → Prop) :
  Q tt (aged_at s p (f pr) g rr) → wp (wrp p f) Q (aged_at s p pr g rr).
Proof. intros HQ. eapply wp_wrp; [apply aged_at_lookup|]. by rewrite aged_at_again. Qed.

Lemma clamp_if a : (if 255 <? (if a <? 0 then 0 else a) then 255 else (if a <? 0 then 0 else a)) = clamp255 a.
Proof. unfold clamp255. destruct (Z.ltb_spec a 0); case_match; to_prop; lia. Qed.

Lemma wp_decays s p pr g rr (Q : unit → kst C → Prop) :
  (∀ rr', Q tt (aged_at s p (decays pr) g rr')) →
  wp (if 1 <? p_slptime pr then mret tt
      else
        let a := times_schmag (Z.land (p_cpu pr) 255) + p_nice pr in
        let a := if a <? 0 then 0 else a in
        let a := if 255 <? a then 255 else a in
        wrp p (set_p_cpu (s8 a));;
        pr ← rdp p;
        when (PUSER <=? p_pri pr) (_ ← setpri p; mret tt)) Q (aged_at s p pr g rr).
Proof.
  intros HQ. unfold decays in HQ. destruct (1 <? p_slptime pr); [by apply wp_ret|]. cbv zeta in HQ |- *.
  rewrite clamp_if. set (pr1 := set_p_cpu _ pr) in HQ. apply wp_bind, wp_wrp_aged. fold pr1.
  apply wp_bind. eapply wp_rdp; [apply aged_at_lookup|]. apply wp_when; intros E; rewrite E in HQ; [|done].
  apply wp_bind. eapply wp_setpri; [apply aged_at_lookup|]. apply wp_ret.
  match goal with |- Q tt ?st => assert (Hst : ∃ rr', st = aged_at s p (set_p_pri (s8 (user_pri pr1)) pr1) g rr') end.
  { eexists. unfold with_proc, aged_at. simpl. rewrite insert_insert_eq. reflexivity. }
  destruct Hst as [rr' ->]. apply HQ.
Qed.

Lemma wp_schedcpu_one s p pr (Q : unit → kst C → Prop) :
  procs s !! p = Some pr →
  (∀ rr, Q tt (aged_at s p (aged pr) (sigs s ++ if expires pr then [(p, SIGALRM)] else []) rr)) →
  wp (schedcpu_one p) Q s.
Proof.
  intros Hp HQ. unfold schedcpu_one.
  assert (Hs : s = aged_at s p pr (sigs s) (runrun s)).
  { unfold aged_at, with_proc. simpl. rewrite insert_id by done. by destruct s. }
  rewrite Hs at 1. generalize (runrun s) as rr. intros rr.
  apply wp_bind. eapply wp_rdp; [apply aged_at_lookup|]. apply wp_bind.
  set (pr1 := set_p_time (if p_time pr =? 127 then 127 else p_time pr + 1) pr).
  assert (H1 : ∀ Q' : unit → kst C → Prop, Q' tt (aged_at s p pr1 (sigs s) rr) →
    wp (when (negb (p_time pr =? 127)) (wrp p (set_p_time (p_time pr + 1)))) Q' (aged_at s p pr (sigs s) rr)).
  { intros Q' HQ'. apply wp_when; intros E; to_prop; unfold pr1 in HQ'.
    - rewrite (proj2 (Z.eqb_neq _ _)) in HQ' by done. by apply wp_wrp_aged.
    - rewrite (proj2 (Z.eqb_eq _ _)) in HQ' by done. destruct pr; simpl in *; subst. exact HQ'. }
  apply H1. clear H1. apply wp_bind.
  set (g := sigs s ++ if expires pr then [(p, SIGALRM)] else []) in *.
  assert (H2 : ∀ Q' : unit → kst C → Prop, Q' tt (aged_at s p (timed pr) g rr) →
    wp (if p_rtval pr =? 0 then mret tt
    else wrp p (set_p_rtval (p_rtval pr - 1));;
    when (p_rtval pr - 1 =? 0) (psignal p SIGALRM;; wrp p (set_p_rtval (p_rtint pr))))
    Q' (aged_at s p pr1 (sigs s) rr)).
  { intros Q' HQ'. unfold timed, g, expires in HQ'. fold pr1 in HQ'.
    change (p_rtval pr1) with (p_rtval pr) in HQ'. change (p_rtint pr1) with (p_rtint pr) in HQ'.
    destruct (Z.eqb_spec (p_rtval pr) 0) as [E|E].
    - apply wp_ret. rewrite E, app_nil_r in HQ'. unfold pr1 in *. destruct pr; simpl in *; subst. exact HQ'.
    - apply wp_bind, wp_wrp_aged. destruct (Z.eqb_spec (p_rtval pr) 1) as [E1|E1].
      + rewrite E1. cbn [Z.sub Z.eqb when]. apply wp_bind, wp_modify.
        change (set_sigs _ _) with (aged_at s p (set_p_rtval 0 pr1) (sigs s ++ [(p, SIGALRM)]) rr).
        by apply wp_wrp_aged.
      + rewrite (proj2 (Z.eqb_neq (p_rtval pr - 1) 0)) by lia. apply wp_ret. by rewrite app_nil_r in HQ'. }
  apply H2. clear H2. clearbody g. clear pr1.
  apply wp_bind. eapply wp_rdp; [apply aged_at_lookup|]. apply wp_bind.
  assert (H3 : ∀ Q' : unit → kst C → Prop, Q' tt (aged_at s p (slept (timed pr)) g rr) →
    wp (when ((p_stat (timed pr) =? SSLEEP) || (p_stat (timed pr) =? SSTOP))
    (when (negb (p_slptime (timed pr) =? 127)) (wrp p (set_p_slptime (p_slptime (timed pr) + 1)))))
    Q' (aged_at s p (timed pr) g rr)).
  { intros Q' HQ'. unfold slept in HQ'. generalize dependent (timed pr). intros q HQ'.
    apply wp_when; intros E; rewrite E in HQ'; [|done]. apply wp_when; intros E'; to_prop.
    - rewrite (proj2 (Z.eqb_neq _ _)) in HQ' by done. by apply wp_wrp_aged.
    - rewrite (proj2 (Z.eqb_eq _ _)) in HQ' by done. destruct q; simpl in *; subst. exact HQ'. }
  apply H3. clear H3. apply wp_bind. eapply wp_rdp; [apply aged_at_lookup|]. apply wp_decays. apply HQ.
Qed.

(** The list of all processes is threaded through [p_nxt]. *)
Definition nxt s : gmap Z Z := p_nxt <$> procs s.

Lemma keeps_nxt_wrp p g : (∀ r, p_nxt (g r) = p_nxt r) → keeps nxt (wrp (C := C) p g).
Proof.
  intros Hg. apply keeps_store. intros s s'. destruct (procs s !! p) as [pr|] eqn:E; [|done]. intros [= <-].
  unfold nxt. simpl. rewrite fmap_insert, Hg. apply insert_id. by rewrite lookup_fmap, E.
Qed.

Lemma keeps_nxt_wakeup RUNOUT chan : keeps nxt (wakeup (C := C) RUNOUT chan).
Proof.
  #[local] Hint Extern 1 (keeps nxt (wrp _ _)) => (apply keeps_nxt_wrp; intros; reflexivity) : frame.
  assert (Hp : ∀ p, keeps nxt (setpri (C := C) p)) by (intros; unfold setpri; keeps_tac).
  assert (Hu : ∀ n p a, keeps nxt (updatepri_loop (C := C) n p a)).
  { intros n p. induction n; intros a; cbn [updatepri_loop]; keeps_tac. }
  assert (Hw : ∀ n c q, keeps nxt (wakeup_loop (C := C) RUNOUT n c q)).
  { induction n as [|n IH]; intros c q; cbn [wakeup_loop]; [keeps_tac|].
    unfold rd_q, wr_q, setrq, updatepri. keeps_tac.
    apply keeps_store. intros s s'. destruct (aset _ _ _); [|done]. by intros [= <-]. }
  unfold wakeup. keeps_tac.
Qed.

Lemma keeps_sched_wakeup RUNOUT chan : keeps (λ s : kst C, (co s, nxt s, allproc s)) (wakeup RUNOUT chan).
Proof.
  assert (Hal : keeps allproc (wakeup (C := C) RUNOUT chan)).
  { assert (Hr : ∀ p g, keeps allproc (wrp (C := C) p g)).
    { intros. apply keeps_store. intros s s'. destruct (procs s !! p); [|done]. by intros [= <-]. }
    assert (Hp : ∀ p, keeps allproc (setpri (C := C) p)) by (intros; unfold setpri; keeps_tac).
    assert (Hu : ∀ n p a, keeps allproc (updatepri_loop (C := C) n p a)).
    { intros n p. induction n; intros a; cbn [updatepri_loop]; keeps_tac. }
    assert (Hw : ∀ n c q, keeps allproc (wakeup_loop (C := C) RUNOUT n c q)).
    { induction n as [|n IH]; intros c q; cbn [wakeup_loop]; [keeps_tac|].
      unfold rd_q, wr_q, setrq, updatepri. keeps_tac.
      apply keeps_store. intros s s'. destruct (aset _ _ _); [|done]. by intros [= <-]. }
    unfold wakeup. keeps_tac. }
  intros s a s' H. rewrite (keeps_co_wakeup _ _ _ _ _ H), (keeps_nxt_wakeup _ _ _ _ _ H), (Hal _ _ _ H). done.
Qed.

Lemma nxt_chain_length s p q : chain (λ p, nxt s !! p) p q → (length q ≤ size (procs s))%nat.
Proof.
  intros Hc. rewrite <- size_dom, <- (size_list_to_set (C := gset Z) q) by (by eapply chain_nodup).
  apply subseteq_size. intros x. rewrite elem_of_list_to_set, elem_of_dom. intros Hx.
  apply list_elem_of_split in Hx as (l1 & l2 & ->). apply lseg_app in Hc as (r & _ & -> & _ & n & Hn & _).
  unfold nxt in Hn. rewrite lookup_fmap in Hn. destruct (procs s !! x); [eauto|done].
Qed.

Definition aged_all s s' (l : list Z) : Prop :=
  (∀ z, procs s' !! z = if decide (z ∈ l) then aged <$> procs s !! z else procs s !! z) ∧
  sigs s' = sigs s ++ ((λ p, (p, SIGALRM)) <$> filter (λ p, (expires <$> procs s !! p) = Some true) l) ∧
  (slpque s', qs s', allproc s', runin s', co s') = (slpque s, qs s, allproc s, runin s, co s).

Lemma aged_nxt pr : p_nxt (aged pr) = p_nxt pr.
Proof. unfold aged, decays, slept, timed. repeat case_match; done. Qed.

Lemma aged_kept pr : p_link (aged pr) = p_link pr ∧ p_wchan (aged pr) = p_wchan pr ∧ p_stat (aged pr) = p_stat pr ∧
  p_flag (aged pr) = p_flag pr.
Proof. unfold aged, decays, slept, timed. repeat case_match; done. Qed.

Lemma schedcpu_loop_ok fuel s p l :
  chain (λ p, nxt s !! p) p l → (length l < fuel)%nat →
  wp (schedcpu_loop fuel p) (λ _ s', aged_all s s' l) s.
Proof.
  revert s p l. induction fuel as [|fuel IH]; intros s p l Hc Hf; [lia|]. cbn [schedcpu_loop].
  pose proof (chain_nodup _ _ _ Hc) as Hnd. destruct l as [|x l].
  { simpl in Hc. subst p. apply wp_ret. unfold aged_all. cbn [filter list_filter]. rewrite app_nil_r.
    split_and!; [|done|done]. intros z. by rewrite decide_False by set_solver. }
  destruct Hc as (-> & Hx0 & n & Hn & Hc). rewrite (proj2 (Z.eqb_neq x 0)) by done.
  unfold nxt in Hn. rewrite lookup_fmap in Hn. destruct (procs s !! x) as [pr|] eqn:Hpr; [|done]. injection Hn as <-.
  apply NoDup_cons in Hnd as [Hxl _].
  apply wp_bind. eapply wp_schedcpu_one; [exact Hpr|]. intros rr.
  apply wp_bind. eapply wp_rdp; [apply aged_at_lookup|]. rewrite aged_nxt.
  set (s1 := aged_at _ _ _ _ _).
  assert (Hp1 : ∀ z, z ≠ x → procs s1 !! z = procs s !! z) by (intros; simpl; by rewrite lookup_insert_ne).
  eapply wp_mono; [apply (IH s1 (p_nxt pr) l); [|simpl in Hf; lia]|].
  { eapply lseg_ext; [|exact Hc]. intros z Hz. unfold nxt. rewrite !lookup_fmap, Hp1; [done|]. by intros ->. }
  cbv beta. intros _ s' (HA & HS & HR). split_and!; [| |exact HR].
  - intros z. rewrite HA. destruct (decide (z = x)) as [->|Hz].
    + rewrite decide_False, decide_True by set_solver. simpl. by rewrite lookup_insert_eq, Hpr.
    + rewrite Hp1 by done. destruct (decide (z ∈ l)); [rewrite decide_True by set_solver|rewrite decide_False by set_solver]; done.
  - rewrite HS. assert (Hfl : ∀ l' : list Z, (∀ z, z ∈ l' → z ≠ x) →
      filter (λ p, (expires <$> procs s1 !! p) = Some true) l' = filter (λ p, (expires <$> procs s !! p) = Some true) l').
    { induction l' as [|z l' IHl]; intros Hne; [done|]. rewrite !filter_cons, Hp1, IHl by set_solver. done. }
    rewrite Hfl by (intros ? ? ->; done). rewrite filter_cons, Hpr. simpl.
    destruct (expires pr); [rewrite decide_True by done|rewrite decide_False by done]; simpl; by rewrite <- app_assoc.
Qed.

(** Ageing leaves the queues alone. *)
Lemma rep_aged s s' l sq rq : aged_all s s' l → rep s sq rq → rep s' sq rq.
Proof.
  intros (HA & _ & HR) (Hc & Ha & Hb & Hr). injection HR as Hsl Hqs _ _ _.
  assert (Hk : ∀ z pr, procs s !! z = Some pr → ∃ pr', procs s' !! z = Some pr' ∧
    p_link pr' = p_link pr ∧ p_wchan pr' = p_wchan pr ∧ p_stat pr' = p_stat pr ∧ p_flag pr' = p_flag pr).
  { intros z pr Hz. rewrite HA, Hz. case_decide; simpl; [|by exists pr]. exists (aged pr). split; [done|apply aged_kept]. }
  assert (Hk' : ∀ z pr', procs s' !! z = Some pr' → ∃ pr, procs s !! z = Some pr).
  { intros z pr'. rewrite HA. destruct (procs s !! z); [eauto|]. by case_decide. }
  split_and!.
  - apply (chains_ext s); [|done|done|done]. intros z. unfold lnk. destruct (procs s !! z) as [pr|] eqn:E.
    + destruct (Hk z pr E) as (pr' & -> & Hl & _). simpl. by rewrite Hl.
    + rewrite HA, E. by case_decide.
  - intros i p Hi Hp. destruct (Ha i p Hi Hp) as (pr & Hpr & ?). destruct (Hk p pr Hpr) as (pr' & ? & _ & E1 & E2 & _).
    exists pr'. by rewrite E1, E2.
  - intros p pr' Hpr' Hw. destruct (Hk' p pr' Hpr') as (pr & Hpr). destruct (Hk p pr Hpr) as (q & Hq & _ & E1 & _).
    rewrite Hpr' in Hq. injection Hq as <-. rewrite E1 in *. by apply Hb.
  - intros p Hp. destruct (Hr p Hp) as (pr & Hpr & ?). destruct (Hk p pr Hpr) as (pr' & ? & _ & E1 & E2 & E3).
    exists pr'. unfold has_flag in *. by rewrite E1, E2, E3.
Qed.
End wakeup_whole.

(** ** Timed sleeps *)

Section tsleep.
Context {C : Type} `{!CalloutQueue C}.
Context (RUNIN RUNOUT ENDTSLEEP : Z).
Implicit Types (s : kst C).

Lemma rep_ext s s' sq rq : procs s' = procs s → slpque s' = slpque s → qs s' = qs s → rep s sq rq → rep s' sq rq.
Proof.
  intros Hp Hs Hq (Hc & Ha & Hb & Hr). unfold rep. rewrite Hp. split_and!; try done.
  apply (chains_ext s); [|done|done|done]. intros z. unfold lnk. by rewrite Hp.
Qed.

(** A process in front of the sleep queue [h]. *)
Lemma rep_sleep s sq rq h p pr pr' hd :
  rep s sq rq → off_queues sq rq p → procs s !! p = Some pr → p ≠ 0 → p_wchan pr' ≠ 0 → HASH (p_wchan pr') = h →
  p_stat pr' = SSLEEP → aget (slpque s) h = Some hd → p_link pr' = hd →
  rep (set_slpque (<[Z.to_nat h := p]> (slpque s)) (set_procs (<[p := pr']> (procs s)) s))
      (upd_sq sq h (p :: sq h)) rq.
Proof.
  intros (Hc & Ha & Hb & Hr) [Hoff Hrq] Hpr Hp0 Hw Hh Hst Hhd Hln. subst hd.
  assert (Hhr : 0 ≤ h < SQSIZE) by (subst h; apply HASH_range).
  pose proof Hc as (H1 & H2 & H3 & H4 & H5). set (s' := set_slpque _ _).
  assert (Hl : ∀ z, lnk s' z = upd (lnk s) p (p_link pr') z).
  { intros z. unfold lnk, upd. simpl. case_decide; [subst; by rewrite lookup_insert_eq|by rewrite lookup_insert_ne]. }
  assert (Hpn : ∀ z, z ≠ p → procs s' !! z = procs s !! z) by (intros; simpl; by rewrite lookup_insert_ne).
  assert (Hin : ∀ i z, 0 ≤ i < SQSIZE → z ∈ upd_sq sq h (p :: sq h) i → (z = p ∧ i = h) ∨ (z ≠ p ∧ z ∈ sq i)).
  { intros i z Hi. unfold upd_sq. case_decide as Hd; [subst i|].
    - intros [->|Hz]%elem_of_cons; [by left|]. right. split; [intros ->; by apply (Hoff h)|done].
    - intros Hz. right. split; [intros ->; by apply (Hoff i)|done]. }
  split_and!.
  - split_and!.
    + simpl. by rewrite length_insert.
    + intros i Hi. cbn [slpque s' set_slpque]. rewrite aget_insert by (rewrite H1; done). unfold upd_sq.
      destruct (H2 i Hi) as (hd & Hhdi & Hch). case_decide as Hd.
      * subst i. rewrite Hhd in Hhdi. injection Hhdi as <-. rewrite decide_True by done. exists p. split; [done|].
        split; [done|]. split; [done|]. exists (p_link pr'). split; [rewrite Hl; unfold upd; by rewrite decide_True|].
        eapply lseg_ext; [|exact Hch]. intros z Hz. rewrite Hl. apply upd_ne. intros ->. by apply (Hoff h).
      * rewrite decide_False by done. exists hd. split; [done|]. eapply lseg_ext; [|exact Hch].
        intros z Hz. rewrite Hl. apply upd_ne. intros ->. by apply (Hoff i).
    + eapply lseg_ext; [|exact H3]. intros z Hz. rewrite Hl. apply upd_ne. intros ->. done.
    + intros i j z Hi Hj [[-> ->]|[Hz Hz1]]%Hin [[Hz' ->]|[Hz' Hz2]]%Hin; try done. by apply (H4 i j z).
    + intros i z Hi [[-> ->]|[Hz Hz1]]%Hin; [done|by apply (H5 i z)|done].
  - intros i z Hi [[-> ->]|[Hz Hz1]]%Hin; [|rewrite Hpn by done; by apply Ha|done].
    exists pr'. simpl. rewrite lookup_insert_eq. split_and!; auto.
  - intros z q. destruct (decide (z = p)) as [->|Hz].
    + simpl. rewrite lookup_insert_eq. intros [= <-] _. unfold upd_sq. rewrite decide_True by done. set_solver.
    + rewrite Hpn by done. intros Hq Hwq. specialize (Hb z q Hq Hwq). unfold upd_sq. case_decide as Hd; [|done].
      rewrite Hd in Hb. set_solver.
  - intros z Hz. rewrite Hpn by (intros ->; done). by apply Hr.
Qed.

(** The calls of [endtsleep] pending for [p]. *)
Definition timers (P : list (Z * Z * Z)) (p : Z) : list (Z * Z * Z) := filter (λ x, x.1 = (ENDTSLEEP, p)) P.

Definition asleep s (p ident : Z) : Prop :=
  (∃ sq rq, rep s sq rq ∧ p ∈ sq (HASH ident)) ∧
  ∃ pr, procs s !! p = Some pr ∧ p_wchan pr = ident ∧ p_stat pr = SSLEEP ∧ has_flag P_TIMEOUT pr = false.

Lemma wp_on_co {A} (m : M C A) s (Q : A → kst C → Prop) :
  wp m (λ a c, Q a (set_co c s)) (co s) → wp (on_co m) Q s.
Proof.
  rewrite !wp_run. unfold on_co. intros (a & c & -> & HQ). eauto.
Qed.

Lemma flag_sintr pr : has_flag P_TIMEOUT (set_p_flag (Z.land (p_flag pr) (Z.lnot P_SINTR)) pr) = has_flag P_TIMEOUT pr.
Proof. unfold has_flag. simpl. by rewrite <- Z.land_assoc. Qed.

Lemma flag_clear f pr : has_flag f (set_p_flag (Z.land (p_flag pr) (Z.lnot f)) pr) = false.
Proof.
  unfold has_flag. simpl. rewrite <- Z.land_assoc, (Z.land_comm (Z.lnot f)), Z.land_lnot_diag, Z.land_0_r. done.
Qed.

(** What follows the switch. *)
Lemma wp_tsleep_end s p pr P k (Q : Z → kst C → Prop) (cursig : Z → M (kst C) Z) :
  procs s !! p = Some pr → cq_has (co s) P k →
  (length (timers P p) ≤ if has_flag P_TIMEOUT pr then 0 else 1)%nat →
  (∀ s' pr' P' k', procs s' !! p = Some pr' → has_flag P_TIMEOUT pr' = false → cq_has (co s') P' k' →
     timers P' p = [] → Q (if has_flag P_TIMEOUT pr then EWOULDBLOCK else 0) s') →
  wp (wrp p (λ r, set_p_flag (Z.land (p_flag r) (Z.lnot P_SINTR)) r);;
      pr ← rdp p;
      early ←
        (if has_flag P_TIMEOUT pr then
           wrp p (λ r, set_p_flag (Z.land (p_flag r) (Z.lnot P_TIMEOUT)) r);;
           mret (0 =? 0)
         else
           on_co (cq_untimeout ENDTSLEEP p);;
           mret false);
      if early : bool then mret EWOULDBLOCK
      else
        sig ← (if false && (0 =? 0) then cursig p else mret 0);
        if (false : bool) && negb (sig =? 0) then
          si ← gets u_sigintr;
          if negb (Z.land si (Z.shiftl 1 (sig - 1)) =? 0) then mret EINTR else mret ERESTART
        else mret 0) Q s.
Proof.
  intros Hpr Hcq Hlen HQ. apply wp_bind. eapply wp_wrp; [exact Hpr|].
  apply wp_bind. eapply wp_rdp; [simpl; by rewrite lookup_insert_eq|]. rewrite flag_sintr.
  apply wp_bind. destruct (has_flag P_TIMEOUT pr) eqn:Ef.
  - apply wp_bind. eapply wp_wrp; [simpl; by rewrite lookup_insert_eq|]. apply wp_ret. apply wp_ret.
    eapply HQ; [simpl; by rewrite lookup_insert_eq|apply flag_clear|exact Hcq|]. apply length_zero_iff_nil. lia.
  - apply wp_bind, wp_on_co.
    eapply wp_mono; [by apply cq_untimeout_spec|]. cbv beta.
    intros _ c Hc. apply wp_ret. cbn [andb]. apply wp_bind, wp_ret. apply wp_ret.
    assert (∃ P' k', cq_has c P' k' ∧ timers P' p = []) as (P' & k' & Hc' & Ht').
    { unfold timers in *. destruct Hc as [[Hno Hc]|(P1 & P2 & r & -> & Hno & Hc)].
      - exists P, k. split; [done|]. apply elem_of_nil_inv. intros x [Hx Hin]%list_elem_of_filter. by apply (Hno x).
      - exists (P1 ++ P2), (S k). split; [done|]. rewrite filter_app, filter_cons_True in Hlen by done.
        rewrite length_app in Hlen. simpl in Hlen. rewrite filter_app.
        rewrite (nil_length_inv (filter _ P1)), (nil_length_inv (filter _ P2)) by lia. done. }
    eapply HQ; [simpl; by rewrite lookup_insert_eq|by rewrite flag_sintr|exact Hc'|done].
Qed.

Lemma chan_of_Some s p pr : procs s !! p = Some pr → chan_of s p = p_wchan pr.
Proof. intros H. unfold chan_of. by rewrite H. Qed.

(** Waking the swapper leaves a sleeper of another channel asleep. *)
Lemma wp_wakeup_other s p ident :
  asleep s p ident → ident ≠ 0 → ident ≠ RUNIN → ident ≠ RUNOUT →
  wp (wakeup RUNOUT RUNIN) (λ _ s', asleep s' p ident ∧ co s' = co s) s.
Proof.
  intros [(sq & rq & Hrep & Hin) (pr & Hpr & Hw & Hst & Hfl)] H0 H1 H2. apply wp_frame; [auto with frame|].
  eapply wp_mono; [by apply wakeup_ok|]. cbv beta.
  intros _ s' (b & D & sq' & rq' & Hrep' & ((Hdom & Hwk) & Hsq & _) & (HD & _)).
  assert (HpD : p ∉ D). { intros Hp. destruct (HD p Hp) as [_ Hc]. rewrite (chan_of_Some _ _ _ Hpr) in Hc. intuition congruence. }
  destruct (proj2 (Hdom p) ltac:(eauto)) as [pr' Hpr']. specialize (Hwk p pr pr' Hpr Hpr').
  rewrite decide_False in Hwk by done. destruct (nolink_wchan _ _ Hwk) as (E1 & E2 & E3 & _). split.
  - exists sq', rq'. split; [done|]. rewrite Hsq by apply HASH_range. by apply list_elem_of_filter.
  - exists pr'. unfold has_flag in *. rewrite E1, E2, E3. done.
Qed.

Lemma tsleep_ok s sq rq p pr P k swtch cursig ident priority timo (R : bool → Prop) :
  rep s sq rq → u_procp s = p → panicstr s = false → procs s !! p = Some pr → p ≠ 0 → p_wchan pr = 0 → p ∉ rq →
  has_flag P_TIMEOUT pr = false → cq_has (co s) P (S k) → timers P p = [] →
  ident ≠ 0 → ident ≠ RUNIN → ident ≠ RUNOUT → Z.land priority PCATCH = 0 → timo ≠ 0 →
  (∀ s1 P1 k1, asleep s1 p ident → cq_has (co s1) P1 k1 → timers P1 p = [(ENDTSLEEP, p, Z.max 1 timo)] →
     wp swtch (λ _ s2, ∃ pr2 P2 k2, procs s2 !! p = Some pr2 ∧ cq_has (co s2) P2 k2 ∧ R (has_flag P_TIMEOUT pr2) ∧
        (length (timers P2 p) ≤ if has_flag P_TIMEOUT pr2 then 0 else 1)%nat) s1) →
  wp (tsleep RUNIN RUNOUT ENDTSLEEP swtch cursig ident priority timo)
     (λ r s', ∃ b pr' P' k', R b ∧ r = (if b then EWOULDBLOCK else 0) ∧
        procs s' !! p = Some pr' ∧ has_flag P_TIMEOUT pr' = false ∧ cq_has (co s') P' k' ∧ timers P' p = []) s.
Proof.
  intros Hrep Hup Hps Hpr Hp0 Hw Hrq Hfl Hcq Htm Hi0 Hi1 Hi2 Hca Ht Hsw. unfold tsleep.
  apply wp_bind, wp_gets. rewrite Hup. apply wp_bind, wp_gets. rewrite Hps, Hca. cbn [Z.eqb negb].
  pose proof (HASH_range ident) as Hh. pose proof Hrep as ((H1 & H2 & _) & _). destruct (H2 _ Hh) as (hd & Hhd & _).
  assert (Hoff : off_queues sq rq p) by (by eapply rep_off).
  apply wp_bind. eapply wp_wrp; [exact Hpr|]. apply wp_bind. eapply wp_wrp; [apply lookup_insert_eq|].
  apply wp_bind. eapply wp_wrp; [apply lookup_insert_eq|]. apply wp_bind. eapply wp_load; [exact Hhd|].
  apply wp_bind. eapply wp_wrp; [apply lookup_insert_eq|].
  apply wp_bind. eapply wp_store; [cbn [slpque set_procs]; rewrite aset_Some by (rewrite H1; done); reflexivity|].
  apply wp_bind. rewrite (proj2 (Z.eqb_neq timo 0)) by done. cbn [negb when]. apply wp_on_co.
  eapply wp_mono; [by apply cq_timeout_spec|]. cbv beta. intros _ c (Pa & Pb & -> & Hc).
  apply wp_bind, wp_ret. apply wp_bind, wp_bind. eapply wp_wrp; [apply lookup_insert_eq|].
  set (pr1 := set_p_stat _ _). set (s1 := set_procs _ _).
  assert (Hs1 : procs s1 = <[p := pr1]> (procs s)) by (subst s1; cbn; by rewrite !insert_insert_eq).
  assert (Has : asleep s1 p ident).
  { split.
    - exists (upd_sq sq (HASH ident) (p :: sq (HASH ident))), rq. split; [|unfold upd_sq; rewrite decide_True; set_solver].
      apply (rep_ext (set_slpque (<[Z.to_nat (HASH ident) := p]> (slpque s)) (set_procs (<[p := pr1]> (procs s)) s)));
        [exact Hs1|done|done|by eapply (rep_sleep _ _ _ (HASH ident) p pr pr1 hd)].
    - exists pr1. rewrite Hs1, lookup_insert_eq. done. }
  assert (Htm1 : timers (Pa ++ (ENDTSLEEP, p, Z.max 1 timo) :: Pb) p = [(ENDTSLEEP, p, Z.max 1 timo)]).
  { unfold timers in *. rewrite filter_app in Htm |- *. apply app_nil in Htm as [-> Htb]. rewrite filter_cons_True by done. by rewrite Htb. }
  assert (Hc1 : cq_has (co s1) (Pa ++ (ENDTSLEEP, p, Z.max 1 timo) :: Pb) k) by done.
  clearbody s1. apply wp_bind.
  assert (Hrun : wp (if p =? PROC0 then mret tt else wakeup RUNOUT RUNIN) (λ _ s', asleep s' p ident ∧ co s' = co s1) s1).
  { destruct (p =? PROC0); [by apply wp_ret|by apply wp_wakeup_other]. }
  eapply wp_mono; [exact Hrun|]. cbv beta. intros _ s2 [Has2 Hco2]. apply wp_bind, wp_modify.
  eapply wp_mono; [eapply (Hsw _ _ k); [exact Has2|cbn; by rewrite Hco2|exact Htm1]|]. cbv beta.
  intros _ s3 (pr3 & P3 & k3 & Hpr3 & Hc3 & HR & Hlen).
  eapply wp_tsleep_end; [exact Hpr3|exact Hc3|done|]. intros s' pr' P' k' Hp' Hf' Hc' Ht'.
  exists (has_flag P_TIMEOUT pr3), pr', P', k'. split_and!; done.
Qed.
End tsleep.

(** ** Checking the representation of a concrete state *)

Section check.
Context {C : Type}.
Implicit Types (s : kst C).

Definition rep_check s (sq : Z → list Z) (rq : list Z) : bool :=
  (zlen (slpque s) =? SQSIZE) &&
  forallb (λ i, match aget (slpque s) i with Some h => lsegb (lnk s) h (sq i) 0 | None => false end &&
    forallb (λ p, match procs s !! p with
                  | Some pr => negb (p_wchan pr =? 0) && (HASH (p_wchan pr) =? i) &&
                               ((p_stat pr =? SSLEEP) || (p_stat pr =? SSTOP))
                  | None => false
                  end) (sq i)) (seqZ 0 16) &&
  lsegb (lnk s) (qs s) rq 0 &&
  bool_decide (map_Forall (λ p pr, p_wchan pr ≠ 0 → p ∈ sq (HASH (p_wchan pr))) (procs s)) &&
  forallb (λ p, match procs s !! p with
                | Some pr => (p_wchan pr =? 0) && (p_stat pr =? SRUN) && has_flag SLOAD pr
                | None => false
                end) rq.

Lemma rep_check_sound s sq rq : rep_check s sq rq = true → rep s sq rq.
Proof.
  unfold rep_check. rewrite !andb_true_iff. intros ((((H1 & H2) & H3) & H4) & H5).
  apply bool_decide_eq_true in H4.
  assert (Ha : ∀ i p, 0 ≤ i < SQSIZE → p ∈ sq i → ∃ pr, procs s !! p = Some pr ∧ p_wchan pr ≠ 0 ∧
    HASH (p_wchan pr) = i ∧ (p_stat pr = SSLEEP ∨ p_stat pr = SSTOP)).
  { intros i p Hi Hp. apply (forallb_elem _ _ i) in H2; [|apply elem_of_seqZ; unfold SQSIZE in Hi; lia].
    apply andb_true_iff in H2 as [_ H2]. apply (forallb_elem _ _ p) in H2; [cbv beta in H2|done].
    destruct (procs s !! p) as [pr|]; [|done]. exists pr. to_prop. split_and!; try done.
    apply orb_true_iff in H0 as [?|?]; to_prop; auto. }
  assert (Hr : ∀ p, p ∈ rq → ∃ pr, procs s !! p = Some pr ∧ p_wchan pr = 0 ∧ p_stat pr = SRUN ∧ has_flag SLOAD pr = true).
  { intros p Hp. apply (forallb_elem _ _ p) in H5; [cbv beta in H5|done]. destruct (procs s !! p) as [pr|]; [|done].
    exists pr. to_prop. done. }
  split_and!; [|exact Ha|by intros p pr; apply H4|exact Hr]. split_and!.
  - by apply Z.eqb_eq.
  - intros i Hi. apply (forallb_elem _ _ i) in H2; [|apply elem_of_seqZ; unfold SQSIZE in Hi; lia].
    apply andb_true_iff in H2 as [H2 _]. destruct (aget (slpque s) i) as [h|]; [|done]. exists h. split; [done|by apply lsegb_sound].
  - by apply lsegb_sound.
  - intros i j p Hi Hj Hp1 Hp2. destruct (Ha i p Hi Hp1) as (pr & ? & _ & ? & _). destruct (Ha j p Hj Hp2) as (pr' & ? & _ & ? & _).
    by simplify_eq.
  - intros i p Hi Hp Hq. destruct (Ha i p Hi Hp) as (pr & ? & ? & _). destruct (Hr p Hq) as (pr' & ? & ? & _). by simplify_eq.
Qed.
End check.

(** ** Theorems *)

#[local] Existing Instance Callout.Callout.callout_queue.

Definition demo_proc (nx st pri slp link chan flag pid hash rt : Z) : proc :=
  Proc nx 0 flag 0 pid 1 st pri (s8 200) 0 0 slp hash link 0 chan rt 9 pid 0 0 0 0 0.

(** Process 2 runs, 3 to 5 sleep in one queue, 5 and 8 are swapped out, 6 and 7
    are ready; [&runout] is 96, [&runin] 128, [&lbolt] 160. *)
Definition demo : kst Callout.Callout.cost :=
  KS (list_to_map [
        (2, demo_proc 3 SRUN 60 0 0 0 SLOAD 2 0 0);
        (3, demo_proc 4 SSLEEP 60 5 4 64 SLOAD 3 0 1);
        (4, demo_proc 5 SSLEEP 60 0 5 576 SLOAD 4 0 0);
        (5, demo_proc 6 SSLEEP 60 5 0 64 0 5 0 0);
        (6, demo_proc 7 SRUN 60 0 7 0 SLOAD 6 0 7);
        (7, demo_proc 8 SRUN 50 0 0 0 SLOAD 7 0 0);
        (8, demo_proc 0 SSLEEP 10 0 0 96 SLOAD 18 2 0)])
     [0; 0; 3; 8; 0; 0; 0; 0; 0; 0; 0; 0; 0; 0; 0; 0] 6
     [0; 0; 8; 3; 4; 5; 6; 7; 0; 0; 0; 0; 0; 0; 0; 0]
     0 2 0 0 50 false 0 1 false 0 0 2 0 0 [] Callout.Callout.demo.

Definition demo_sq (i : Z) : list Z := if i =? 2 then [3; 4; 5] else if i =? 3 then [8] else [].

Lemma demo_rep : rep demo demo_sq [6; 7].
Proof. apply rep_check_sound. vm_compute. reflexivity. Qed.

(** C7: [wakeup] wakes every process that sleeps on the channel and no other:
    each leaves its sleep queue, a sleeper becomes runnable and, when in core,
    is put on the run queue; a stopped process stays stopped.  When a sleeper is
    swapped out and the swapper waits on [&runout], its sleepers are woken too.
    The search, restarted after each process woken, ends. *)
Theorem wakeup_exact {C} RUNOUT (s : kst C) sq rq chan :
  rep s sq rq →
  wp (wakeup RUNOUT chan)
     (λ _ s', ∃ b D sq' rq', rep s' sq' rq' ∧ prog D s s' sq rq sq' rq' ∧ wakes RUNOUT chan b D s s' ∧
        ∀ p, chan ≠ 0 → chan_of s p = chan → p ∈ D) s.
Proof.
  intros Hrep. eapply wp_mono; [by apply wakeup_ok|]. cbv beta.
  intros _ s' (b & D & sq' & rq' & H1 & H2 & H3). exists b, D, sq', rq'. split_and!; try done.
  intros p Hc Hp. destruct H2 as [Hw _]. destruct H3 as (_ & Hno & _).
  destruct (decide (p ∈ D)) as [|Hn]; [done|]. exfalso. apply Hc, (Hno p).
  rewrite (woke_chan D s s') by done. by rewrite decide_False.
Qed.

Lemma wakeup_exact_witness :
  wp (wakeup 96 64)
     (λ _ s', ∃ b D sq' rq', rep s' sq' rq' ∧ prog D demo s' demo_sq [6; 7] sq' rq' ∧ wakes 96 64 b D demo s' ∧
        ∀ p, 64 ≠ 0 → chan_of demo p = 64 → p ∈ D) demo.
Proof. apply wakeup_exact, demo_rep. Defined.

(** C8: [swtch] resumes the first process of the smallest priority value among
    those on the run queue that are in core, taking it and only it off the queue;
    it idles exactly when no such process has a priority below 128. *)
Theorem swtch_picks_best {C} (s : kst C) sq rq :
  chains s sq rq →
  wp swtch_pick
     (λ r s', match r with
              | None => (∀ z, z ∈ rq → in_core s z = true → 128 ≤ pri_of s z) ∧ chains s' sq rq
              | Some (p, swapped) => ∃ l1 l2 pr, rq = l1 ++ p :: l2 ∧ best s l1 p l2 ∧ chains s' sq (l1 ++ l2) ∧
                  procs s !! p = Some pr ∧ swapped = has_flag SSWAP pr ∧ curpri s' = s8 (pri_of s p) ∧ runrun s' = 0
              end) s.
Proof. apply swtch_pick_ok. Qed.

Lemma swtch_picks_best_witness :
  wp swtch_pick
     (λ r s', match r with
              | None => (∀ z, z ∈ [6; 7] → in_core demo z = true → 128 ≤ pri_of demo z) ∧ chains s' demo_sq [6; 7]
              | Some (p, swapped) => ∃ l1 l2 pr, [6; 7] = l1 ++ p :: l2 ∧ best demo l1 p l2 ∧ chains s' demo_sq (l1 ++ l2) ∧
                  procs demo !! p = Some pr ∧ swapped = has_flag SSWAP pr ∧ curpri s' = s8 (pri_of demo p) ∧ runrun s' = 0
              end) demo.
Proof. apply swtch_picks_best. exact (proj1 demo_rep). Defined.

(** [updatepri] does not decay the usage of a long sleeper by 8/10 per
    second as [schedcpu] does: it forgets it at once, because [SCHMAG * a]
    expands to [8/10 * a]. *)
Theorem updatepri_forgets {C} (s : kst C) p pr :
  procs s !! p = Some pr → 3 ≤ p_slptime pr ≤ 127 →
  wp (updatepri p) (λ _ s', ∃ pr', procs s' !! p = Some pr' ∧ p_cpu pr' = 0 ∧ p_pri pr' = s8 (Z.min 127 (PUSER + p_nice pr))) s.
Proof.
  intros Hp Hs. eapply wp_updatepri; [exact Hp|]. intros rr. exists (decayed pr).
  split; [simpl; by rewrite lookup_insert_eq|].
  unfold decayed. rewrite (s8_id (p_slptime pr - 1)) by lia. rewrite (s8_id (p_slptime pr - 1 - 1)) by lia.
  rewrite (proj2 (Z.eqb_neq (p_slptime pr - 1 - 1) 0)) by lia.
  destruct (Z.land (p_cpu pr) 255 =? 0); by cbn.
Qed.

Lemma updatepri_forgets_witness :
  wp (updatepri 3) (λ _ s', ∃ pr', procs s' !! 3 = Some pr' ∧ p_cpu pr' = 0 ∧ p_pri pr' = s8 (Z.min 127 (PUSER + 0))) demo.
Proof. apply (updatepri_forgets demo 3 (demo_proc 4 SSLEEP 60 5 4 64 SLOAD 3 0 1)); [reflexivity|cbn; lia]. Defined.

(** [pfind] returns the process with the given number if it is hashed, and
    null otherwise, without changing anything. *)
Theorem pfind_finds {C} (s : kst C) hq pid :
  hashed s hq →
  wp (pfind pid) (λ r s', s' = s ∧
    ((r ≠ 0 ∧ r ∈ hq (PIDHASH pid) ∧ pid_of s r = pid) ∨
     (r = 0 ∧ ∀ i z, 0 ≤ i < PIDHSZ → z ∈ hq i → pid_of s z ≠ pid))) s.
Proof.
  intros [H1 H2]. pose proof (PIDHASH_range pid) as Hr. destruct (H1 _ Hr) as (h & Hh & Hc).
  unfold pfind. apply wp_bind. eapply wp_load; [exact Hh|]. apply wp_bind, wp_gets.
  eapply wp_mono; [apply (pfind_loop_ok _ _ _ _ pid Hc)|].
  - pose proof (hchain_length _ _ _ Hc). lia.
  - cbv beta. intros r s' [-> [[-> Hno]|?]]; split; [done|right|done|by left]. split; [done|].
    intros i z Hi Hz Hp. rewrite <- (H2 i z Hi Hz), Hp in Hz. by apply (Hno z).
Qed.

Definition demo_hq (i : Z) : list Z := if i =? 2 then [8; 2] else if (3 <=? i) && (i <=? 7) then [i] else [].

Lemma demo_hashed : hashed demo demo_hq.
Proof.
  assert (H : ∀ i, 0 ≤ i < PIDHSZ → i ∈ seqZ 0 16) by (intros; apply elem_of_seqZ; unfold PIDHSZ in *; lia).
  split.
  - intros i Hi%H. assert (Hc : forallb (λ i, match aget (pidhash demo) i with Some h => lsegb (hnk demo) h (demo_hq i) 0 | None => false end)
      (seqZ 0 16) = true) by (vm_compute; reflexivity).
    apply (forallb_elem _ _ i) in Hc; [cbv beta in Hc|done]. destruct (aget _ i) as [h|]; [|done]. exists h. split; [done|by apply lsegb_sound].
  - intros i p Hi%H Hp. assert (Hc : forallb (λ i, forallb (λ p, PIDHASH (pid_of demo p) =? i) (demo_hq i)) (seqZ 0 16) = true)
      by (vm_compute; reflexivity).
    apply (forallb_elem _ _ i) in Hc; [cbv beta in Hc|done]. apply (forallb_elem _ _ p) in Hc; [|done]. by apply Z.eqb_eq.
Qed.

Lemma pfind_finds_witness :
  wp (pfind 18) (λ r s', s' = demo ∧
    ((r ≠ 0 ∧ r ∈ demo_hq (PIDHASH 18) ∧ pid_of demo r = 18) ∨
     (r = 0 ∧ ∀ i z, 0 ≤ i < PIDHSZ → z ∈ demo_hq i → pid_of demo z ≠ 18))) demo.
Proof. apply pfind_finds, demo_hashed. Defined.

(** [schedcpu] wakes the sleepers of [&lbolt], ages every process on the
    list of all processes exactly once, posts [SIGALRM] to exactly those whose
    real-time timer runs out, keeps all queues well formed, and rearms itself one
    second ahead. *)
Theorem schedcpu_periodic {C} `{!CalloutQueue C} LBOLT RUNIN RUNOUT SCHEDCPU (s : kst C) sq rq l P k :
  rep s sq rq → chain (λ p, nxt s !! p) (allproc s) l → cq_has (co s) P (S k) →
  wp (schedcpu LBOLT RUNIN RUNOUT SCHEDCPU)
     (λ _ s', ∃ s1 s2 b1 D1 sq1 rq1 D2 sq' rq' P1 P2,
        (prog D1 s s1 sq rq sq1 rq1 ∧ wakes RUNOUT LBOLT b1 D1 s s1) ∧
        aged_all s1 s2 l ∧
        (prog D2 s2 s' sq1 rq1 sq' rq' ∧ (D2 = [] ∨ ∃ b2 s2', procs s2' = procs s2 ∧ wakes RUNOUT RUNIN b2 D2 s2' s')) ∧
        rep s' sq' rq' ∧
        P = P1 ++ P2 ∧ cq_has (co s') (P1 ++ (SCHEDCPU, 0, Callout.Callout.hz) :: P2) k) s.
Proof.
  intros Hrep Hch Hcq. unfold schedcpu. apply wp_bind.
  eapply wp_mono; [apply (wp_frame (λ s, (co s, nxt s, allproc s))); [apply keeps_sched_wakeup|by apply wakeup_ok]|].
  cbv beta. intros _ s1 [(b1 & D1 & sq1 & rq1 & Hrep1 & Hprog1 & Hw1) HF]. injection HF as Hco Hnx Hal.
  apply wp_bind, wp_gets. apply wp_bind, wp_gets. apply wp_bind.
  eapply wp_mono; [apply (schedcpu_loop_ok _ s1 _ l)|].
  { rewrite Hal, Hnx. done. }
  { enough (length l ≤ size (procs s1))%nat by lia. rewrite <- Hnx in Hch. by eapply nxt_chain_length. }
  cbv beta. intros _ s2 Hag. pose proof (rep_aged _ _ _ _ _ Hag Hrep1) as Hrep2.
  assert (Hco2 : co s2 = co s) by (destruct Hag as (_ & _ & [= _ _ _ _ ->]); done).
  apply wp_bind, wp_gets. apply wp_bind.
  assert (Hwk : wp (when (negb (runin s2 =? 0)) (modify (set_runin 0);; wakeup RUNOUT RUNIN))
    (λ _ s3, ∃ D2 sq' rq', co s3 = co s ∧ rep s3 sq' rq' ∧ prog D2 s2 s3 sq1 rq1 sq' rq' ∧
       (D2 = [] ∨ ∃ b2 s2', procs s2' = procs s2 ∧ wakes RUNOUT RUNIN b2 D2 s2' s3)) s2).
  { apply wp_when; intros _; [|exists [], sq1, rq1; split_and!; [done|done|apply prog_refl|by left]].
    apply wp_bind, wp_modify. set (s2' := set_runin 0 s2).
    eapply wp_mono; [apply (wp_frame co); [auto with frame|apply (wakeup_ok _ s2' sq1 rq1)]|].
    { by apply (rep_ext s2). }
    cbv beta. intros _ s3 [(b2 & D2 & sq' & rq' & Hr & Hp & Hw) Hc]. exists D2, sq', rq'.
    split_and!; [rewrite Hc; exact Hco2|done|exact Hp|]. right. by exists b2, s2'. }
  eapply wp_mono; [exact Hwk|]. cbv beta. intros _ s3 (D2 & sq' & rq' & Hc3 & Hrep3 & Hprog3 & HD2).
  apply wp_bind, wp_modify. apply wp_on_co. cbn [co set_runrun]. rewrite Hc3.
  eapply wp_mono; [by apply cq_timeout_spec|]. cbv beta. intros _ c (P1 & P2 & HP & Hc).
  exists s1, s2, b1, D1, sq1, rq1, D2, sq', rq', P1, P2. split; [done|]. split; [done|].
  split; [split; [exact Hprog3|]|split; [by apply (rep_ext s3)|done]].
  destruct HD2 as [?|(b2 & s2' & ? & ?)]; [by left|]. right. by exists b2, s2'.
Qed.

Lemma schedcpu_periodic_witness :
  wp (schedcpu 160 128 96 77)
     (λ _ s', ∃ s1 s2 b1 D1 sq1 rq1 D2 sq' rq' P1 P2,
        (prog D1 demo s1 demo_sq [6; 7] sq1 rq1 ∧ wakes 96 160 b1 D1 demo s1) ∧
        aged_all s1 s2 [2; 3; 4; 5; 6; 7; 8] ∧
        (prog D2 s2 s' sq1 rq1 sq' rq' ∧ (D2 = [] ∨ ∃ b2 s2', procs s2' = procs s2 ∧ wakes 96 128 b2 D2 s2' s')) ∧
        rep s' sq' rq' ∧
        [(9, 9, 2); (1, 1, 5); (7, 8, 5)] = P1 ++ P2 ∧ cq_has (co s') (P1 ++ (77, 0, Callout.Callout.hz) :: P2) 14) demo.
Proof.
  apply schedcpu_periodic; [apply demo_rep|apply lsegb_sound; vm_compute; reflexivity|].
  exists [3; 4; 2], (drop 3 Callout.Callout.all_nodes). split_and!; [apply Callout.Callout.co_demo_rep|vm_compute; reflexivity..].
Defined.



End Sched.
