(* ===== verification/Descrip.v ===== *)
(** * Descriptors and the file table (sys/kernel/kern_descrip.c)

    A process has [NOFILE] descriptors, each null or a pointer to a slot of the
    system file table; a slot counts the pointers to it.  The model holds the
    table, the descriptors of the running process and the advisory lock state
    of the inodes ([ino_lock] and [ino_unlock] of sys_inode.c), and includes
    the loops of [newproc], [exit] and [exec] that copy and close descriptors.

    A pointer to [file\[i\]] is [i + 1], null is 0.  The operations of an open
    object ([fo_close], [fo_ioctl]), [pfind] and [tsleep] are parameters. *)

From S2P Require Import Prelude.

#[local] Set Default Proof Using "Type".

Module Descrip.

Definition NOFILE : Z := 30.
Definition NFILE : Z := 24.
Definition EBADF : Z := 9.
Definition ESRCH : Z := 3.
Definition EACCES : Z := 13.
Definition ENODEV : Z := 19.
Definition EINVAL : Z := 22.
Definition ENFILE : Z := 23.
Definition EMFILE : Z := 24.
Definition EWOULDBLOCK : Z := 35.
Definition EOPNOTSUPP : Z := 45.
Definition FREAD : Z := 1.
Definition FWRITE : Z := 2.
Definition FNONBLOCK : Z := 4.
Definition FSHLOCK : Z := 16.
Definition FEXLOCK : Z := 32.
Definition FASYNC : Z := 64.
Definition FCNTLFLAGS : Z := Z.lor 8 (Z.lor FASYNC (Z.lor 128 FNONBLOCK)).
Definition FMASK : Z := 207.
Definition ISVTX : Z := 512.
Definition ENXIO : Z := 6.
Definition UF_EXCLOSE : Z := 1.
Definition DTYPE_INODE : Z := 1.
Definition ISHLOCK : Z := 128.
Definition IEXLOCK : Z := 256.
Definition ILWAIT : Z := 512.
Definition LOCK_SH : Z := 1.
Definition LOCK_EX : Z := 2.
Definition LOCK_NB : Z := 4.
Definition LOCK_UN : Z := 8.
Definition PLOCK : Z := 35.
Definition PCATCH : Z := 256.
Definition F_DUPFD : Z := 0.
Definition F_GETFD : Z := 1.
Definition F_SETFD : Z := 2.
Definition F_GETFL : Z := 3.
Definition F_SETFL : Z := 4.
Definition F_GETOWN : Z := 5.
Definition F_SETOWN : Z := 6.
Definition FIONBIO : Z := 0x80046660.
Definition FIOASYNC : Z := 0x8004665f.
Definition TIOCGPGRP : Z := 0x40047477.
Definition TIOCSPGRP : Z := 0x80047476.
Definition FFLAGS (oflags : Z) : Z := oflags + 1.
Definition OFLAGS (fflags : Z) : Z := fflags - 1.

Record file := File { f_flag : Z; f_type : Z; f_count : Z; f_msgcount : Z; f_data : Z; f_offset : Z }.

(** The lock part of an inode. *)
Record inode := Inode { i_flag : Z; i_shlockc : Z; i_exlockc : Z }.

Record dst (X : Type) := DS {
  files : list file;
  u_ofile : list Z;
  u_pofile : list Z;
  u_lastfile : Z;
  u_rval : Z;
  u_error : Z;
  u_dupfd : Z;
  lastf : Z;
  inodes : gmap Z inode;
  wakeups : list Z;
  ext : X
}.
Arguments DS {X}.
Arguments files {X} _.
Arguments u_ofile {X} _.
Arguments u_pofile {X} _.
Arguments u_lastfile {X} _.
Arguments u_rval {X} _.
Arguments u_error {X} _.
Arguments u_dupfd {X} _.
Arguments lastf {X} _.
Arguments inodes {X} _.
Arguments wakeups {X} _.
Arguments ext {X} _.

Definition set_files {X} (v : list file) (s : dst X) : dst X :=
  DS v (u_ofile s) (u_pofile s) (u_lastfile s) (u_rval s) (u_error s) (u_dupfd s) (lastf s) (inodes s) (wakeups s) (ext s).
Definition set_u_ofile {X} (v : list Z) (s : dst X) : dst X :=
  DS (files s) v (u_pofile s) (u_lastfile s) (u_rval s) (u_error s) (u_dupfd s) (lastf s) (inodes s) (wakeups s) (ext s).
Definition set_u_pofile {X} (v : list Z) (s : dst X) : dst X :=
  DS (files s) (u_ofile s) v (u_lastfile s) (u_rval s) (u_error s) (u_dupfd s) (lastf s) (inodes s) (wakeups s) (ext s).
Definition set_u_lastfile {X} (v : Z) (s : dst X) : dst X :=
  DS (files s) (u_ofile s) (u_pofile s) v (u_rval s) (u_error s) (u_dupfd s) (lastf s) (inodes s) (wakeups s) (ext s).
Definition set_u_rval {X} (v : Z) (s : dst X) : dst X :=
  DS (files s) (u_ofile s) (u_pofile s) (u_lastfile s) v (u_error s) (u_dupfd s) (lastf s) (inodes s) (wakeups s) (ext s).
Definition set_u_error {X} (v : Z) (s : dst X) : dst X :=
  DS (files s) (u_ofile s) (u_pofile s) (u_lastfile s) (u_rval s) v (u_dupfd s) (lastf s) (inodes s) (wakeups s) (ext s).
Definition set_u_dupfd {X} (v : Z) (s : dst X) : dst X :=
  DS (files s) (u_ofile s) (u_pofile s) (u_lastfile s) (u_rval s) (u_error s) v (lastf s) (inodes s) (wakeups s) (ext s).
Definition set_lastf {X} (v : Z) (s : dst X) : dst X :=
  DS (files s) (u_ofile s) (u_pofile s) (u_lastfile s) (u_rval s) (u_error s) (u_dupfd s) v (inodes s) (wakeups s) (ext s).
Definition set_inodes {X} (v : gmap Z inode) (s : dst X) : dst X :=
  DS (files s) (u_ofile s) (u_pofile s) (u_lastfile s) (u_rval s) (u_error s) (u_dupfd s) (lastf s) v (wakeups s) (ext s).
Definition set_wakeups {X} (v : list Z) (s : dst X) : dst X :=
  DS (files s) (u_ofile s) (u_pofile s) (u_lastfile s) (u_rval s) (u_error s) (u_dupfd s) (lastf s) (inodes s) v (ext s).
Definition set_f_flag (v : Z) (x : file) : file := File v (f_type x) (f_count x) (f_msgcount x) (f_data x) (f_offset x).
Definition set_f_type (v : Z) (x : file) : file := File (f_flag x) v (f_count x) (f_msgcount x) (f_data x) (f_offset x).
Definition set_f_count (v : Z) (x : file) : file := File (f_flag x) (f_type x) v (f_msgcount x) (f_data x) (f_offset x).
Definition set_f_data (v : Z) (x : file) : file := File (f_flag x) (f_type x) (f_count x) (f_msgcount x) v (f_offset x).
Definition set_f_offset (v : Z) (x : file) : file := File (f_flag x) (f_type x) (f_count x) (f_msgcount x) (f_data x) v.
Definition set_i_flag (v : Z) (x : inode) : inode := Inode v (i_shlockc x) (i_exlockc x).
Definition set_i_shlockc (v : Z) (x : inode) : inode := Inode (i_flag x) v (i_exlockc x).
Definition set_i_exlockc (v : Z) (x : inode) : inode := Inode (i_flag x) (i_shlockc x) v.

Section ops.
Context {X : Type}.
Notation K := (M (dst X)).
Context (fo_close : Z → Z → K Z) (fo_ioctl : Z → Z → Z → Z → K (Z * Z)).
Context (pfind_pgrp : Z → K (option Z)) (tsleep : Z → Z → K Z).

Definition rdf (fp : Z) : K file := load (λ s, aget (files s) (fp - 1)).
Definition wrf (fp : Z) (g : file → file) : K unit :=
  store (λ s, x ← aget (files s) (fp - 1); l ← aset (files s) (fp - 1) (g x); Some (set_files l s)).
Definition rd_ofile (fd : Z) : K Z := load (λ s, aget (u_ofile s) fd).
Definition wr_ofile (fd v : Z) : K unit := store (λ s, l ← aset (u_ofile s) fd v; Some (set_u_ofile l s)).
Definition rd_pofile (fd : Z) : K Z := load (λ s, aget (u_pofile s) fd).
Definition wr_pofile (fd v : Z) : K unit := store (λ s, l ← aset (u_pofile s) fd v; Some (set_u_pofile l s)).
Definition rdi (ip : Z) : K inode := load (λ s, inodes s !! ip).
Definition wri (ip : Z) (g : inode → inode) : K unit :=
  store (λ s, x ← inodes s !! ip; Some (set_inodes (<[ip := g x]> (inodes s)) s)).
Definition err (e : Z) : K unit := modify (set_u_error e).
Definition wakeup (chan : Z) : K unit := modify (λ s, set_wakeups (wakeups s ++ [chan]) s).

Definition raise_lastfile (i : Z) : K unit :=
  l ← gets u_lastfile;
  when (l <? i) (modify (set_u_lastfile i)).

Fixpoint ufalloc_loop (fuel : nat) (i : Z) : K Z :=
  match fuel with
  | O => nofuel
  | S f =>
      if i <? NOFILE then
        fp ← rd_ofile i;
        if fp =? 0 then
          modify (set_u_rval i);;
          wr_pofile i 0;;
          raise_lastfile i;;
          mret i
        else ufalloc_loop f (i + 1)
      else
        err EMFILE;;
        mret (-1)
  end.
Definition ufalloc (i : Z) : K Z := ufalloc_loop (S (Z.to_nat (NOFILE - i))) i.

Definition getdtablesize : K unit := modify (set_u_rval NOFILE).

Definition dupit (fd fp flags : Z) : K unit :=
  wr_ofile fd fp;;
  wr_pofile fd (s8 flags);;
  wrf fp (λ x, set_f_count (u32 (f_count x + 1)) x);;
  raise_lastfile fd.

(** [getf], and the macro [GETF] with the same effect: null after an error. *)
Definition getf (f : Z) : K Z :=
  if NOFILE <=? u32 f then err EBADF;; mret 0
  else
    fp ← rd_ofile f;
    if fp =? 0 then err EBADF;; mret 0 else mret fp.

Definition ino_unlock (fp kind : Z) : K unit :=
  x ← rdf fp;
  let ip := f_data x in
  let kind := Z.land kind (f_flag x) in
  if (ip =? 0) || (kind =? 0) then mret tt
  else
    i ← rdi ip;
    let flags := i_flag i in
    (if Z.land kind FSHLOCK =? 0 then mret tt
     else
       wri ip (λ i, set_i_shlockc ((i_shlockc i - 1) `mod` 65536) i);;
       i ← rdi ip;
       when (i_shlockc i =? 0)
         (wri ip (λ i, set_i_flag (Z.land (i_flag i) (Z.lnot ISHLOCK)) i);;
          when (negb (Z.land flags ILWAIT =? 0)) (wakeup ip));;
       wrf fp (λ x, set_f_flag (Z.land (f_flag x) (Z.lnot FSHLOCK)) x));;
    (if Z.land kind FEXLOCK =? 0 then mret tt
     else
       wri ip (λ i, set_i_exlockc ((i_exlockc i - 1) `mod` 65536) i);;
       i ← rdi ip;
       when (i_exlockc i =? 0)
         (wri ip (λ i, set_i_flag (Z.land (i_flag i) (Z.lnot (Z.lor IEXLOCK ILWAIT))) i);;
          when (negb (Z.land flags ILWAIT =? 0)) (wakeup ip));;
       wrf fp (λ x, set_f_flag (Z.land (f_flag x) (Z.lnot FEXLOCK)) x)).

(** The part of [ino_lock] after the waits. *)
Definition ino_lock_grant (fp ip cmd : Z) : K Z :=
  (if Z.land cmd LOCK_EX =? 0 then mret tt
   else
     wri ip (λ i, set_i_exlockc ((i_exlockc i + 1) `mod` 65536) i);;
     wri ip (λ i, set_i_flag (Z.lor (i_flag i) IEXLOCK) i);;
     wrf fp (λ x, set_f_flag (Z.lor (f_flag x) FEXLOCK) x));;
  let cmd := if Z.land cmd LOCK_EX =? 0 then cmd else Z.land cmd (Z.lnot LOCK_SH) in
  x ← rdf fp;
  when (negb (Z.land cmd LOCK_SH =? 0) && (Z.land (f_flag x) FSHLOCK =? 0))
    (wri ip (λ i, set_i_shlockc ((i_shlockc i + 1) `mod` 65536) i);;
     wri ip (λ i, set_i_flag (Z.lor (i_flag i) ISHLOCK) i);;
     wrf fp (λ x, set_f_flag (Z.lor (f_flag x) FSHLOCK) x));;
  mret 0.

(** The loop at [again:]; sleeping on [&ip->i_shlockc] is sleeping on [ip]. *)
Fixpoint ino_lock_loop (fuel : nat) (fp ip cmd : Z) : K Z :=
  match fuel with
  | O => nofuel
  | S f =>
      let priority := if Z.land cmd LOCK_EX =? 0 then PLOCK + 4 else PLOCK in
      i ← rdi ip;
      x ← rdf fp;
      if negb (Z.land (i_flag i) IEXLOCK =? 0) then
        if negb (Z.land (f_flag x) FEXLOCK =? 0) then
          ino_unlock fp FEXLOCK;;
          ino_lock_loop f fp ip cmd
        else if negb (Z.land cmd LOCK_NB =? 0) then mret EWOULDBLOCK
        else
          wri ip (λ i, set_i_flag (Z.lor (i_flag i) ILWAIT) i);;
          error ← tsleep ip (Z.lor priority PCATCH);
          if negb (error =? 0) then mret error else ino_lock_loop f fp ip cmd
      else if negb (Z.land cmd LOCK_EX =? 0) && negb (Z.land (i_flag i) ISHLOCK =? 0) then
        if negb (Z.land (f_flag x) FSHLOCK =? 0) then
          ino_unlock fp FSHLOCK;;
          ino_lock_loop f fp ip cmd
        else if negb (Z.land cmd LOCK_NB =? 0) then mret EWOULDBLOCK
        else
          wri ip (λ i, set_i_flag (Z.lor (i_flag i) ILWAIT) i);;
          error ← tsleep ip (Z.lor PLOCK PCATCH);
          if negb (error =? 0) then mret error else ino_lock_loop f fp ip cmd
      else ino_lock_grant fp ip cmd
  end.
Definition ino_lock (fuel : nat) (fp cmd : Z) : K Z :=
  x ← rdf fp;
  ino_lock_loop fuel fp (f_data x) cmd.

Definition closef (fp : Z) : K Z :=
  if fp =? 0 then mret 0
  else
    x ← rdf fp;
    if 1 <? f_count x then
      wrf fp (λ x, set_f_count (f_count x - 1) x);;
      mret 0
    else
      when (negb (Z.land (f_flag x) (Z.lor FSHLOCK FEXLOCK) =? 0) && (f_type x =? DTYPE_INODE))
        (ino_unlock fp (Z.lor FSHLOCK FEXLOCK));;
      x ← rdf fp;
      error ← fo_close (f_type x) fp;
      wrf fp (set_f_count 0);;
      mret error.

(** [u.u_arg] of [dup2] is the pair [i], [j]. *)
Definition dup2 (i j : Z) : K unit :=
  fp ← getf i;
  if fp =? 0 then mret tt
  else if (j <? 0) || (NOFILE <=? j) then err EBADF
  else
    modify (set_u_rval j);;
    if i =? j then mret tt
    else
      old ← rd_ofile j;
      (if old =? 0 then mret tt else _ ← closef old; mret tt);;
      fl ← rd_pofile i;
      dupit j fp (Z.land fl (Z.lnot UF_EXCLOSE)).

Definition dup (i j : Z) : K unit :=
  if negb (Z.land i (Z.lnot 63) =? 0) then dup2 (Z.land i 63) j
  else
    fp ← getf i;
    if fp =? 0 then mret tt
    else
      j ← ufalloc 0;
      if j <? 0 then mret tt
      else
        fl ← rd_pofile i;
        dupit j fp (Z.land fl (Z.lnot UF_EXCLOSE)).

Definition fioctl (fp cmd value : Z) : K (Z * Z) :=
  x ← rdf fp;
  fo_ioctl (f_type x) fp cmd value.

Definition fset (fp bit value : Z) : K Z :=
  (if value =? 0 then wrf fp (λ x, set_f_flag (Z.land (f_flag x) (Z.lnot bit)) x)
   else wrf fp (λ x, set_f_flag (Z.lor (f_flag x) bit) x));;
  '(error, _) ← fioctl fp (if bit =? FNONBLOCK then FIONBIO else FIOASYNC) value;
  mret error.

(** The new value of the variable passed by reference comes with the error. *)
Definition fgetown (fp value : Z) : K (Z * Z) :=
  '(error, v) ← fioctl fp TIOCGPGRP value;
  mret (error, s32 (- v)).

Definition fsetown (fp value : Z) : K Z :=
  if 0 <? value then
    p ← pfind_pgrp value;
    match p with
    | None => mret ESRCH
    | Some pgrp => '(error, _) ← fioctl fp TIOCSPGRP pgrp; mret error
    end
  else
    '(error, _) ← fioctl fp TIOCSPGRP (s32 (- value));
    mret error.

Definition fcntl (fdes cmd arg : Z) : K unit :=
  fp ← getf fdes;
  if fp =? 0 then mret tt
  else if cmd =? F_DUPFD then
    if (arg <? 0) || (NOFILE <=? arg) then err EINVAL
    else
      i ← ufalloc arg;
      if i <? 0 then mret tt
      else
        fl ← rd_pofile fdes;
        dupit i fp (Z.land fl (Z.lnot UF_EXCLOSE))
  else if cmd =? F_GETFD then
    fl ← rd_pofile fdes;
    modify (set_u_rval (Z.land fl 1))
  else if cmd =? F_SETFD then
    fl ← rd_pofile fdes;
    wr_pofile fdes (s8 (Z.lor (Z.land fl (Z.lnot 1)) (Z.land arg 1)))
  else if cmd =? F_GETFL then
    x ← rdf fp;
    modify (set_u_rval (OFLAGS (f_flag x)))
  else if cmd =? F_SETFL then
    wrf fp (λ x, set_f_flag (Z.land (f_flag x) (Z.lnot FCNTLFLAGS)) x);;
    wrf fp (λ x, set_f_flag (Z.lor (f_flag x) (Z.land (FFLAGS arg) FCNTLFLAGS)) x);;
    x ← rdf fp;
    e ← fset fp FNONBLOCK (Z.land (f_flag x) FNONBLOCK);
    err e;;
    if negb (e =? 0) then mret tt
    else
      x ← rdf fp;
      e ← fset fp FASYNC (Z.land (f_flag x) FASYNC);
      err e;;
      if negb (e =? 0) then _ ← fset fp FNONBLOCK 0; mret tt else mret tt
  else if cmd =? F_GETOWN then
    v ← gets u_rval;
    '(e, v) ← fgetown fp v;
    modify (set_u_rval v);;
    err e
  else if cmd =? F_SETOWN then
    e ← fsetown fp arg;
    err e
  else err EINVAL.

(** [while (u.u_lastfile >= 0 && u.u_ofile\[u.u_lastfile\] == NULL) u.u_lastfile--;] *)
Fixpoint lower_lastfile (fuel : nat) : K unit :=
  match fuel with
  | O => nofuel
  | S f =>
      l ← gets u_lastfile;
      if 0 <=? l then
        fp ← rd_ofile l;
        if fp =? 0 then modify (set_u_lastfile (l - 1));; lower_lastfile f else mret tt
      else mret tt
  end.
Definition lower_fuel : nat := S (S (Z.to_nat NOFILE)).

Definition close (i : Z) : K unit :=
  fp ← getf i;
  if fp =? 0 then mret tt
  else
    wr_ofile i 0;;
    lower_lastfile lower_fuel;;
    e ← closef fp;
    err e.

Fixpoint falloc_scan (fuel : nat) (fp lim : Z) : K Z :=
  match fuel with
  | O => nofuel
  | S f =>
      if fp <? lim then
        x ← rdf fp;
        if f_count x =? 0 then mret fp else falloc_scan f (fp + 1) lim
      else mret 0
  end.

(** [file] is 1 and [file+NFILE] is [NFILE + 1]. *)
Definition falloc : K Z :=
  i ← ufalloc 0;
  if i <? 0 then mret 0
  else
    lf ← gets lastf;
    when (lf =? 0) (modify (set_lastf 1));;
    lf ← gets lastf;
    fp ← falloc_scan (S (Z.to_nat NFILE)) lf (NFILE + 1);
    fp ← (if fp =? 0 then falloc_scan (S (S (Z.to_nat NFILE))) 1 lf else mret fp);
    if fp =? 0 then err ENFILE;; mret 0
    else
      wr_ofile i fp;;
      wrf fp (set_f_count 1);;
      wrf fp (set_f_data 0);;
      wrf fp (set_f_offset 0);;
      modify (set_lastf (fp + 1));;
      mret fp.

Definition flock (fuel : nat) (fd how : Z) : K unit :=
  fp ← getf fd;
  if fp =? 0 then mret tt
  else
    x ← rdf fp;
    if negb (f_type x =? DTYPE_INODE) then err EOPNOTSUPP
    else if negb (Z.land how LOCK_UN =? 0) then ino_unlock fp (Z.lor FSHLOCK FEXLOCK)
    else if Z.land how (Z.lor LOCK_SH LOCK_EX) =? 0 then mret tt
    else
      let how := if Z.land how LOCK_EX =? 0 then how else Z.land how (Z.lnot LOCK_SH) in
      if negb (Z.land (f_flag x) FEXLOCK =? 0) && negb (Z.land how LOCK_EX =? 0) then mret tt
      else if negb (Z.land (f_flag x) FSHLOCK =? 0) && negb (Z.land how LOCK_SH =? 0) then mret tt
      else
        e ← ino_lock fuel fp how;
        err e.

Definition fdopen (minor : Z) : K Z :=
  modify (set_u_dupfd minor);;
  mret ENODEV.

Definition dupfdopen (indx dfd mode error : Z) : K Z :=
  fp ← rd_ofile indx;
  if NOFILE <=? dfd then mret EBADF
  else
    wfp ← rd_ofile dfd;
    if (wfp =? 0) || (fp =? wfp) then mret EBADF
    else if error =? ENODEV then
      w ← rdf wfp;
      if negb (Z.lor (Z.land mode (Z.lor FREAD FWRITE)) (f_flag w) =? f_flag w) then mret EACCES
      else
        wr_ofile indx wfp;;
        fl ← rd_pofile dfd;
        wr_pofile indx fl;;
        wrf wfp (λ x, set_f_count (u32 (f_count x + 1)) x);;
        raise_lastfile indx;;
        mret 0
    else mret error.

(** [copen] of ufs_syscalls.c, the common part of [open] and [creat]: [vn_open]
    returns its error and the inode.  The test on [dupfdopen] assigns the
    comparison, not the error: [error = (dupfdopen(...) == 0)]. *)
Definition copen (vn_open : Z → Z → K (Z * Z)) (fuel : nat) (mode cmode : Z) : K Z :=
  fp ← falloc;
  if fp =? 0 then gets u_error
  else
    let flags := FFLAGS mode in
    wrf fp (set_f_flag (Z.land flags FMASK));;
    wrf fp (set_f_type DTYPE_INODE);;
    let cmode := Z.land cmode (Z.land 32767 (Z.lnot ISVTX)) in
    indx ← gets u_rval;
    modify (set_u_dupfd (- indx - 1));;
    '(error, ip) ← vn_open flags cmode;
    if negb (error =? 0) then
      wrf fp (set_f_count 0);;
      dfd ← gets u_dupfd;
      '(ok, error) ←
        (if ((error =? ENODEV) || (error =? ENXIO)) && (0 <=? dfd) then
           r ← dupfdopen indx dfd flags error;
           mret (r =? 0, if r =? 0 then 1 else 0)
         else mret (false, error));
      if ok : bool then
        modify (set_u_rval indx);;
        mret 0
      else
        wr_ofile indx 0;;
        mret error
    else
      modify (set_u_dupfd 0);;
      wrf fp (set_f_data ip);;
      if Z.land flags (Z.lor FEXLOCK FSHLOCK) =? 0 then mret error
      else
        let type := if Z.land flags FEXLOCK =? 0 then LOCK_SH else LOCK_EX in
        let type := if Z.land flags FNONBLOCK =? 0 then type else Z.lor type LOCK_NB in
        error ← ino_lock fuel fp type;
        (if error =? 0 then mret tt
         else
           _ ← closef fp;
           wr_ofile indx 0);;
        mret error.

(** [newproc]: the child shares every open file. *)
Fixpoint fork_files (fuel : nat) (n : Z) : K unit :=
  match fuel with
  | O => nofuel
  | S f =>
      l ← gets u_lastfile;
      if n <=? l then
        fp ← rd_ofile n;
        (if fp =? 0 then mret tt else wrf fp (λ x, set_f_count (u32 (f_count x + 1)) x));;
        fork_files f (n + 1)
      else mret tt
  end.

(** [exit]: close everything. *)
Fixpoint exit_files (fuel : nat) (i : Z) : K unit :=
  match fuel with
  | O => nofuel
  | S f =>
      l ← gets u_lastfile;
      if i <=? l then
        fp ← rd_ofile i;
        wr_ofile i 0;;
        wr_pofile i 0;;
        _ ← closef fp;
        exit_files f (i + 1)
      else mret tt
  end.

(** [exec]: close the descriptors marked close-on-exec. *)
Fixpoint exec_close_loop (fuel : nat) (cc : Z) : K unit :=
  match fuel with
  | O => nofuel
  | S f =>
      l ← gets u_lastfile;
      if cc <=? l then
        fl ← rd_pofile cc;
        (if Z.land fl UF_EXCLOSE =? 0 then mret tt
         else
           fp ← rd_ofile cc;
           _ ← closef fp;
           wr_ofile cc 0;;
           wr_pofile cc 0);;
        exec_close_loop f (cc + 1)
      else mret tt
  end.
Definition exec_close : K unit :=
  exec_close_loop lower_fuel 0;;
  lower_lastfile lower_fuel.
End ops.

(** ** Counting references *)

Definition b2z (b : bool) : Z := if b then 1 else 0.

(** How many descriptors of a table hold [fp]. *)
Fixpoint refs (l : list Z) (fp : Z) : Z :=
  match l with [] => 0 | x :: l' => b2z (x =? fp) + refs l' fp end.

Lemma refs_app l1 l2 fp : refs (l1 ++ l2) fp = refs l1 fp + refs l2 fp.
Proof. induction l1; simpl; lia. Qed.

Lemma refs_bounds l fp : 0 ≤ refs l fp ≤ zlen l.
Proof. induction l as [|x l IH]; simpl; [lia|]. unfold b2z. destruct (x =? fp); lia. Qed.

Lemma aget_split {A} (l : list A) i x :
  aget l i = Some x → ∃ l1 l2, l = l1 ++ x :: l2 ∧ i = zlen l1.
Proof.
  unfold aget. destruct (Z.leb_spec 0 i); [|done]. intros Hx.
  exists (take (Z.to_nat i) l), (drop (S (Z.to_nat i)) l). split; [by rewrite take_drop_middle|].
  rewrite length_take. apply lookup_lt_Some in Hx. lia.
Qed.

Lemma refs_insert l fd old v fp :
  aget l fd = Some old → refs (<[Z.to_nat fd := v]> l) fp = refs l fp - b2z (old =? fp) + b2z (v =? fp).
Proof.
  intros (l1 & l2 & -> & ->)%aget_split. rewrite Nat2Z.id, insert_app_r_alt by lia. rewrite Nat.sub_diag.
  rewrite !refs_app. simpl. lia.
Qed.

(** The counts [c] of the file table are explained by the descriptors [o] and
    the references [other] from elsewhere. *)
Definition bal (c o : list Z) (other : Z → Z) : Prop :=
  zlen c = NFILE ∧ ∀ fp, 1 ≤ fp ≤ NFILE → aget c (fp - 1) = Some (refs o fp + other fp).

Lemma bal_ext c o f g : bal c o f → (∀ fp, 1 ≤ fp ≤ NFILE → g fp = f fp) → bal c o g.
Proof. intros [Hl H] E. split; [done|]. intros fp Hf. by rewrite H, E. Qed.

Lemma bal_write c o f fd old v :
  bal c o f → aget o fd = Some old →
  bal c (<[Z.to_nat fd := v]> o) (λ x, f x + b2z (old =? x) - b2z (v =? x)).
Proof. intros [Hl H] Ho. split; [done|]. intros fp Hf. rewrite H, (refs_insert _ _ _ _ _ Ho) by done. f_equal. lia. Qed.

Lemma bal_count c o f fp n m :
  bal c o f → 1 ≤ fp ≤ NFILE → aget c (fp - 1) = Some n →
  bal (<[Z.to_nat (fp - 1) := m]> c) o (λ x, f x + (if x =? fp then m - n else 0)).
Proof.
  intros [Hl H] Hf Hn. split; [by rewrite length_insert|]. intros x Hx. rewrite aget_insert by lia. case_decide as Hd.
  - assert (x = fp) as -> by lia. rewrite Z.eqb_refl. rewrite H in Hn by lia. f_equal. simplify_eq. lia.
  - rewrite H by done. rewrite (proj2 (Z.eqb_neq x fp)) by lia. f_equal. lia.
Qed.

(** ** What the operations do to the tables *)

Section tables.
Context {X : Type}.
Implicit Types (s : dst X).
Notation K := (M (dst X)).

(** Descriptors, flags, counts and hints. *)
Definition tables s : list Z * list Z * list Z * Z * Z :=
  (f_count <$> files s, u_ofile s, u_pofile s, u_lastfile s, lastf s).

(** A file that holds a lock refers to an inode. *)
Definition locks_ok s : Prop :=
  ∀ i x, aget (files s) i = Some x → Z.land (Z.lor FSHLOCK FEXLOCK) (f_flag x) ≠ 0 → f_data x ≠ 0 →
    is_Some (inodes s !! f_data x).

Lemma aget_fmap {A B} (g : A → B) l i : aget (g <$> l) i = g <$> aget l i.
Proof. unfold aget. case_match; [apply list_lookup_fmap|done]. Qed.

Lemma fmap_insert_same {A B} (g : A → B) (l : list A) i x y :
  aget l i = Some x → g y = g x → g <$> <[Z.to_nat i := y]> l = g <$> l.
Proof.
  intros Hx Hg. rewrite list_fmap_insert, Hg. apply list_insert_id. rewrite list_lookup_fmap.
  unfold aget in Hx. destruct (0 <=? i); [|done]. by rewrite Hx.
Qed.

Lemma wp_rdf s fp x (Q : file → dst X → Prop) : aget (files s) (fp - 1) = Some x → Q x s → wp (rdf fp) Q s.
Proof. intros. by eapply wp_load. Qed.

Lemma wp_wrf s fp x g (Q : unit → dst X → Prop) :
  aget (files s) (fp - 1) = Some x → Q tt (set_files (<[Z.to_nat (fp - 1) := g x]> (files s)) s) → wp (wrf fp g) Q s.
Proof.
  intros Hx HQ. eapply wp_store; [|exact HQ]. rewrite Hx. cbn [mbind option_bind].
  rewrite aset_Some by (by eapply aget_Some). done.
Qed.

Lemma locks_ok_count s fp x v : locks_ok s → aget (files s) (fp - 1) = Some x →
  locks_ok (set_files (<[Z.to_nat (fp - 1) := set_f_count v x]> (files s)) s).
Proof.
  intros Hl Hx i y. cbn [files set_files inodes]. rewrite aget_insert by (by eapply aget_Some).
  case_decide; [|apply Hl]. intros [= <-]. by apply (Hl (fp - 1) x).
Qed.

(** A write that changes neither a count, nor sets a lock, nor loses an inode. *)
Lemma wp_wrf_quiet s fp x g (Q : unit → dst X → Prop) :
  locks_ok s → aget (files s) (fp - 1) = Some x → f_count (g x) = f_count x → f_data (g x) = f_data x →
  Z.land (Z.lor FSHLOCK FEXLOCK) (f_flag x) ≠ 0 →
  (∀ s', tables s' = tables s → locks_ok s' → inodes s' = inodes s → aget (files s') (fp - 1) = Some (g x) → Q tt s') →
  wp (wrf fp g) Q s.
Proof.
  intros Hl Hx Hc Hd Hf HQ. eapply wp_wrf; [exact Hx|]. pose proof (aget_Some _ _ _ Hx) as Hr. apply HQ.
  - unfold tables. simpl. by erewrite fmap_insert_same.
  - intros i y. cbn [files set_files inodes]. rewrite aget_insert by done. case_decide; [|apply Hl].
    intros [= <-]. intros _. rewrite Hd. by apply (Hl (fp - 1) x).
  - done.
  - cbn [files set_files]. rewrite aget_insert by done. by rewrite decide_True.
Qed.

Lemma wp_wri_quiet s ip i g (Q : unit → dst X → Prop) :
  locks_ok s → inodes s !! ip = Some i →
  (∀ s', tables s' = tables s → locks_ok s' → inodes s' !! ip = Some (g i) → files s' = files s → Q tt s') →
  wp (wri ip g) Q s.
Proof.
  intros Hl Hi HQ. eapply wp_store; [rewrite Hi; reflexivity|]. apply HQ; try done.
  - intros j y Hy H1 H2. cbn [inodes set_inodes files] in *. destruct (decide (ip = f_data y)) as [<-|Hne].
    + rewrite lookup_insert_eq. eauto.
    + rewrite lookup_insert_ne by done. by apply (Hl j y).
  - cbn. by rewrite lookup_insert_eq.
Qed.

Lemma wp_wakeup_quiet s chan (Q : unit → dst X → Prop) :
  locks_ok s →
  (∀ s', tables s' = tables s → locks_ok s' → inodes s' = inodes s → files s' = files s → Q tt s') →
  wp (wakeup chan) Q s.
Proof. intros Hl HQ. apply wp_modify. by apply HQ. Qed.

(** Clearing one kind of lock, as both halves of [ino_unlock] do. *)
Lemma wp_unlock_half s fp x ip i (cnt : inode → Z) (upd : inode → inode) (clr : inode → inode) (fl : Z) (wake : bool)
    (Q : unit → dst X → Prop) :
  locks_ok s → aget (files s) (fp - 1) = Some x → f_data x = ip → inodes s !! ip = Some i →
  Z.land (Z.lor FSHLOCK FEXLOCK) (f_flag x) ≠ 0 →
  (∀ s' i', tables s' = tables s → locks_ok s' → aget (files s') (fp - 1) = Some (set_f_flag (Z.land (f_flag x) fl) x) →
     inodes s' !! ip = Some i' → Q tt s') →
  wp (wri ip upd;; i ← rdi ip; when (cnt i =? 0) (wri ip clr;; when wake (wakeup ip));;
      wrf fp (λ x, set_f_flag (Z.land (f_flag x) fl) x)) Q s.
Proof.
  intros Hl Hx Hd Hi Hf HQ. apply wp_bind. eapply wp_wri_quiet; [done|exact Hi|]. intros s1 T1 L1 I1 F1.
  apply wp_bind. eapply wp_load; [exact I1|]. apply wp_bind.
  assert (Hfin : ∀ s2 i2, tables s2 = tables s → locks_ok s2 → files s2 = files s → inodes s2 !! ip = Some i2 →
    wp (wrf fp (λ x, set_f_flag (Z.land (f_flag x) fl) x)) Q s2).
  { intros s2 i2 T2 L2 F2 I2. eapply wp_wrf_quiet; [done|by rewrite F2|done|done|done|].
    intros s3 T3 L3 I3 F3. apply (HQ s3 i2); [congruence|done|done|congruence]. }
  apply wp_when; intros _; [|by eapply Hfin].
  apply wp_bind. eapply wp_wri_quiet; [done|exact I1|]. intros s2 T2 L2 I2 F2.
  apply wp_when; intros _; [|eapply Hfin; [congruence|done|congruence|exact I2]].
  apply wp_wakeup_quiet; [done|]. intros s3 T3 L3 I3 F3.
  eapply Hfin; [congruence|done|congruence|by rewrite I3].
Qed.

Lemma wp_ino_unlock s fp x :
  locks_ok s → aget (files s) (fp - 1) = Some x →
  wp (ino_unlock fp (Z.lor FSHLOCK FEXLOCK)) (λ _ s', tables s' = tables s ∧ locks_ok s' ∧
     ∃ x', aget (files s') (fp - 1) = Some x' ∧ f_type x' = f_type x) s.
Proof.
  intros Hl Hx. unfold ino_unlock. apply wp_bind. eapply wp_rdf; [exact Hx|].
  set (kind := Z.land (Z.lor FSHLOCK FEXLOCK) (f_flag x)).
  destruct (Z.eqb_spec (f_data x) 0) as [Hd|Hd]; [apply wp_ret; eauto|].
  destruct (Z.eqb_spec kind 0) as [Hk|Hk]; [apply wp_ret; eauto|]. cbn [orb].
  destruct (Hl _ _ Hx Hk Hd) as [i Hi]. apply wp_bind. eapply wp_load; [exact Hi|]. apply wp_bind.
  assert (Hsec : ∀ s1 x1 i1, tables s1 = tables s → locks_ok s1 → aget (files s1) (fp - 1) = Some x1 → f_data x1 = f_data x →
    f_type x1 = f_type x → inodes s1 !! f_data x = Some i1 → (Z.land kind FEXLOCK ≠ 0 → Z.land (Z.lor FSHLOCK FEXLOCK) (f_flag x1) ≠ 0) →
    wp (if Z.land kind FEXLOCK =? 0 then mret tt else
    wri (f_data x) (λ i, set_i_exlockc ((i_exlockc i - 1) `mod` 65536) i);;
    i0 ← rdi (f_data x);
    when (i_exlockc i0 =? 0)
    (wri (f_data x) (λ i, set_i_flag (Z.land (i_flag i) (Z.lnot (Z.lor IEXLOCK ILWAIT))) i);;
    when (negb (Z.land (i_flag i) ILWAIT =? 0)) (wakeup (f_data x)));;
    wrf fp (λ x, set_f_flag (Z.land (f_flag x) (Z.lnot FEXLOCK)) x))
    (λ _ s', tables s' = tables s ∧ locks_ok s' ∧ ∃ x', aget (files s') (fp - 1) = Some x' ∧ f_type x' = f_type x) s1).
  { intros s1 x1 i1 T1 L1 X1 D1 Y1 I1 F1. destruct (Z.eqb_spec (Z.land kind FEXLOCK) 0) as [E|E].
    - apply wp_ret. rewrite T1. eauto.
    - eapply (wp_unlock_half s1 fp x1 (f_data x) i1 i_exlockc); [done|done|done|done|by apply F1|].
      intros s2 i2 T2 L2 X2 I2. split_and!; [congruence|done|]. eexists. split; [exact X2|done]. }
  destruct (Z.eqb_spec (Z.land kind FSHLOCK) 0) as [E|E].
  { apply wp_ret. eapply Hsec; try done. }
  eapply (wp_unlock_half s fp x (f_data x) i i_shlockc); [done|done|done|done|done|].
  intros s2 i2 T2 L2 X2 I2. eapply Hsec; try done. cbn [f_flag set_f_flag]. intros E2 H0. apply E2.
  unfold kind. rewrite (Z.land_comm _ FEXLOCK), Z.land_assoc. change (Z.land FEXLOCK (Z.lor FSHLOCK FEXLOCK)) with FEXLOCK.
  apply (f_equal (Z.land FEXLOCK)) in H0. rewrite Z.land_0_r, !Z.land_assoc in H0.
  rewrite (Z.land_comm _ (Z.lnot FSHLOCK)), !Z.land_assoc in H0. exact H0.
Qed.
End tables.

(** ** Reference counts *)

Section refcounts.
Context {X : Type}.
Implicit Types (s : dst X).
Notation K := (M (dst X)).
Context (fo_close : Z → Z → K Z).

(** Closing an object returns and leaves the tables alone. *)
Hypothesis fo_close_ok : ∀ t fp s, locks_ok s → wp (fo_close t fp) (λ _ s', tables s' = tables s ∧ locks_ok s') s.

(** The state agrees with the tables [c], [o], [po], [l] and [lf]. *)
Definition st s (c o po : list Z) (l lf : Z) : Prop := tables s = (c, o, po, l, lf) ∧ locks_ok s.

Lemma st_file s c o po l lf fp n :
  st s c o po l lf → aget c (fp - 1) = Some n → ∃ x, aget (files s) (fp - 1) = Some x ∧ f_count x = n.
Proof.
  intros [[= <- _ _ _ _] _]. rewrite aget_fmap. destruct (aget (files s) (fp - 1)) as [x|]; [|done]. intros [= <-]. eauto.
Qed.

Lemma wp_set_count s c o po l lf fp n m (g : file → file) (Q : unit → dst X → Prop) :
  st s c o po l lf → aget c (fp - 1) = Some n → (∀ x, f_count x = n → g x = set_f_count m x) →
  (∀ s', st s' (<[Z.to_nat (fp - 1) := m]> c) o po l lf → Q tt s') → wp (wrf fp g) Q s.
Proof.
  intros Hst Hn Hg HQ. destruct (st_file _ _ _ _ _ _ _ _ Hst Hn) as (x & Hx & Hc). destruct Hst as [Ht Hl].
  eapply wp_wrf; [exact Hx|]. rewrite Hg by done. apply HQ. split; [|by eapply locks_ok_count].
  unfold tables in *. simpl. rewrite list_fmap_insert. simplify_eq. done.
Qed.

Lemma wp_rd_ofile s c o po l lf fd v (Q : Z → dst X → Prop) :
  st s c o po l lf → aget o fd = Some v → Q v s → wp (rd_ofile fd) Q s.
Proof. intros [[= _ Ho _ _ _] _] Hv HQ. eapply wp_load; [by rewrite Ho|done]. Qed.

Lemma wp_rd_pofile s c o po l lf fd v (Q : Z → dst X → Prop) :
  st s c o po l lf → aget po fd = Some v → Q v s → wp (rd_pofile fd) Q s.
Proof. intros [[= _ _ Ho _ _] _] Hv HQ. eapply wp_load; [by rewrite Ho|done]. Qed.

Lemma wp_wr_ofile s c o po l lf fd v (Q : unit → dst X → Prop) :
  st s c o po l lf → 0 ≤ fd < zlen o → (∀ s', st s' c (<[Z.to_nat fd := v]> o) po l lf → Q tt s') → wp (wr_ofile fd v) Q s.
Proof.
  intros [Ht Hl] Hfd HQ. unfold tables in Ht. simplify_eq. eapply wp_store; [rewrite aset_Some by done; reflexivity|].
  apply HQ. split; done.
Qed.

Lemma wp_wr_pofile s c o po l lf fd v (Q : unit → dst X → Prop) :
  st s c o po l lf → 0 ≤ fd < zlen po → (∀ s', st s' c o (<[Z.to_nat fd := v]> po) l lf → Q tt s') → wp (wr_pofile fd v) Q s.
Proof.
  intros [Ht Hl] Hfd HQ. unfold tables in Ht. simplify_eq. eapply wp_store; [rewrite aset_Some by done; reflexivity|].
  apply HQ. split; done.
Qed.

Lemma wp_raise s c o po l lf i (Q : unit → dst X → Prop) :
  st s c o po l lf → (∀ s', st s' c o po (Z.max l i) lf → Q tt s') → wp (raise_lastfile i) Q s.
Proof.
  intros [Ht Hl] HQ. unfold raise_lastfile. apply wp_bind, wp_gets. unfold tables in Ht. simplify_eq.
  apply wp_when; intros E; to_prop; [apply wp_modify|]; apply HQ; (split; [|done]); unfold tables; simpl; repeat f_equal; lia.
Qed.

(** The search for a free descriptor. *)
Definition ufound (o : list Z) (i r : Z) : Prop :=
  i ≤ r < NOFILE ∧ aget o r = Some 0 ∧ ∀ k v, i ≤ k < r → aget o k = Some v → v ≠ 0.

Lemma wp_ufalloc s c o po l lf i (Q : Z → dst X → Prop) :
  st s c o po l lf → zlen o = NOFILE → zlen po = NOFILE → 0 ≤ i →
  (∀ s', st s' c o po l lf → u_error s' = EMFILE → (∀ k v, i ≤ k → aget o k = Some v → v ≠ 0) → Q (-1) s') →
  (∀ s' r, st s' c o (<[Z.to_nat r := 0]> po) (Z.max l r) lf → u_rval s' = r → u_error s' = u_error s → ufound o i r → Q r s') →
  wp (ufalloc i) Q s.
Proof.
  intros Hst Ho Hpo Hi HQ1 HQ2. unfold ufalloc.
  assert (Hgen : ∀ fuel j, i ≤ j → (Z.to_nat (NOFILE - j) < fuel)%nat → (∀ k v, i ≤ k < j → aget o k = Some v → v ≠ 0) →
    wp (ufalloc_loop fuel j) Q s); [|apply Hgen; [lia|lia|intros; lia]].
  induction fuel as [|fuel IH]; intros j Hj Hf Hno; [lia|]. cbn [ufalloc_loop].
  destruct (Z.ltb_spec j NOFILE).
  - destruct (aget_is_Some o j ltac:(lia)) as [v Hv]. apply wp_bind. eapply wp_rd_ofile; [done|exact Hv|].
    destruct (Z.eqb_spec v 0) as [->|Hv0].
    + destruct Hst as [Ht Hl]. unfold tables in Ht. injection Ht as <- <- <- <- <-.
      apply wp_bind, wp_modify. apply wp_bind. eapply wp_store; [cbn; rewrite aset_Some by lia; reflexivity|].
      apply wp_bind. unfold raise_lastfile. apply wp_bind, wp_gets. cbn [u_lastfile set_u_pofile set_u_rval].
      apply wp_when; intros E; to_prop; [apply wp_modify|]; apply wp_ret; apply HQ2; try done;
        (split; [|done]); unfold tables; cbn; do 2 f_equal; lia.
    + apply IH; [lia|lia|]. intros k w Hk Hw. destruct (decide (k = j)) as [->|]; [congruence|]. apply (Hno k w); [lia|done].
  - apply wp_bind, wp_modify, wp_ret. apply HQ1; [exact Hst|done|]. intros k v Hk Hv. apply (Hno k v); [|done].
    apply aget_Some in Hv. lia.
Qed.

Lemma wp_closef s c o po l lf fp n (Q : Z → dst X → Prop) :
  st s c o po l lf → 1 ≤ fp → aget c (fp - 1) = Some n → 1 ≤ n →
  (∀ r s', st s' (<[Z.to_nat (fp - 1) := n - 1]> c) o po l lf → Q r s') → wp (closef fo_close fp) Q s.
Proof using fo_close_ok.
  intros Hst Hfp Hn Hn1 HQ. unfold closef. rewrite (proj2 (Z.eqb_neq fp 0)) by lia.
  destruct (st_file _ _ _ _ _ _ _ _ Hst Hn) as (x & Hx & Hc). apply wp_bind. eapply wp_rdf; [exact Hx|]. rewrite Hc.
  destruct (Z.ltb_spec 1 n) as [H1|H1].
  { apply wp_bind. eapply wp_set_count; [done|done|intros y ->; reflexivity|]. intros s' Hs'. apply wp_ret. by apply HQ. }
  assert (n = 1) as -> by lia. destruct Hst as [Ht Hl]. apply wp_bind.
  assert (Hrest : ∀ s1 x1, tables s1 = tables s → locks_ok s1 → aget (files s1) (fp - 1) = Some x1 →
    wp (x ← rdf fp; error ← fo_close (f_type x) fp; wrf fp (set_f_count 0);; mret error) Q s1).
  { intros s1 x1 T1 L1 X1. apply wp_bind. eapply wp_rdf; [exact X1|]. apply wp_bind.
    eapply wp_mono; [by apply fo_close_ok|]. cbv beta. intros e s2 [T2 L2]. apply wp_bind.
    eapply (wp_set_count s2 c o po l lf); [split; [congruence|done]|exact Hn|intros; reflexivity|].
    intros s' Hs'. apply wp_ret. by apply HQ. }
  apply wp_when; intros E; [|by eapply Hrest].
  eapply wp_mono; [by eapply wp_ino_unlock|]. cbv beta. intros _ s1 (T1 & L1 & x1 & X1 & _). by eapply Hrest.
Qed.

Lemma wp_dupit s c o po l lf fd fp flags n (Q : unit → dst X → Prop) :
  st s c o po l lf → 0 ≤ fd < zlen o → 0 ≤ fd < zlen po → aget c (fp - 1) = Some n → 0 ≤ n < 2 ^ 32 - 1 →
  (∀ s', st s' (<[Z.to_nat (fp - 1) := n + 1]> c) (<[Z.to_nat fd := fp]> o) (<[Z.to_nat fd := s8 flags]> po) (Z.max l fd) lf → Q tt s') →
  wp (dupit fd fp flags) Q s.
Proof.
  intros Hst Ho Hpo Hn Hr HQ. unfold dupit. apply wp_bind. eapply wp_wr_ofile; [done|done|]. intros s1 H1.
  apply wp_bind. eapply wp_wr_pofile; [done|done|]. intros s2 H2.
  apply wp_bind. eapply (wp_set_count _ _ _ _ _ _ fp n (n + 1)); [done|done| |].
  { intros x ->. by rewrite u32_id by (unfold is_u32; lia). }
  intros s3 H3. eapply wp_raise; [done|]. exact HQ.
Qed.

(** ** The invariant *)

Definition good (other : Z → Z) (c o po : list Z) (l lf : Z) : Prop :=
  bal c o other ∧ (∀ fp, 1 ≤ fp ≤ NFILE → 0 ≤ other fp < 2 ^ 31) ∧ zlen o = NOFILE ∧ zlen po = NOFILE ∧
  -1 ≤ l < NOFILE ∧ 0 ≤ lf ≤ NFILE + 1 ∧
  ∀ fd v, aget o fd = Some v → 0 ≤ v ≤ NFILE ∧ (v ≠ 0 → fd ≤ l).

(** Every count equals the number of descriptors that hold the file, plus the
    references [other] of other processes; [u_lastfile] bounds the descriptors
    in use. *)
Definition inv (other : Z → Z) s : Prop := ∃ c o po l lf, st s c o po l lf ∧ good other c o po l lf.

Lemma good_count other c o po l lf fp : good other c o po l lf → 1 ≤ fp ≤ NFILE →
  ∃ n, aget c (fp - 1) = Some n ∧ n = refs o fp + other fp ∧ 0 ≤ n < 2 ^ 32 - 1.
Proof.
  intros ((_ & H) & Hot & Ho & _) Hf. rewrite H by done. eexists. split; [done|]. split; [done|].
  specialize (Hot fp Hf). pose proof (refs_bounds o fp). unfold NOFILE in *. lia.
Qed.

Lemma refs_pos o fd fp : aget o fd = Some fp → 1 ≤ refs o fp.
Proof. intros (l1 & l2 & -> & _)%aget_split. rewrite refs_app. simpl. rewrite Z.eqb_refl. pose proof (refs_bounds l1 fp). pose proof (refs_bounds l2 fp). simpl. lia. Qed.

(** One more descriptor for an open file in place of a free one. *)
Lemma good_dup other c o po l lf fd fp n fl :
  good other c o po l lf → 0 ≤ fd < NOFILE → aget o fd = Some 0 → 1 ≤ fp ≤ NFILE → aget c (fp - 1) = Some n →
  good other (<[Z.to_nat (fp - 1) := n + 1]> c) (<[Z.to_nat fd := fp]> o) (<[Z.to_nat fd := fl]> po) (Z.max l fd) lf.
Proof.
  intros (Hb & Hot & Ho & Hpo & Hl & Hlf & Hv) Hfd H0 Hfp Hn. split_and!; try done; rewrite ?length_insert; try lia.
  - eapply bal_ext; [eapply bal_count; [eapply bal_write; [exact Hb|exact H0]|done|exact Hn]|].
    intros x Hx. cbv beta. unfold b2z. rewrite (proj2 (Z.eqb_neq 0 x)) by lia. rewrite (Z.eqb_sym fp x). destruct (x =? fp); lia.
  - intros k v. rewrite aget_insert by lia. case_decide; [intros [= <-]; split; lia|]. intros Hk. specialize (Hv k v Hk). split; [lia|].
    intros Hv0. destruct Hv as [_ Hv]. specialize (Hv Hv0). lia.
Qed.

(** A descriptor cleared, its file one reference less. *)
Lemma good_drop other c o po po' l lf fd fp n :
  good other c o po l lf → aget o fd = Some fp → 1 ≤ fp → aget c (fp - 1) = Some n → zlen po' = NOFILE →
  good other (<[Z.to_nat (fp - 1) := n - 1]> c) (<[Z.to_nat fd := 0]> o) po' l lf.
Proof.
  intros (Hb & Hot & Ho & Hpo & Hl & Hlf & Hv) H0 Hfp Hn Hpo'. destruct (Hv fd fp H0) as [Hr _].
  pose proof (aget_Some _ _ _ H0) as Hfd. split_and!; try done; rewrite ?length_insert; try lia.
  - eapply bal_ext; [eapply bal_count; [eapply bal_write; [exact Hb|exact H0]| |exact Hn]|]; [lia|].
    intros x Hx. cbv beta. unfold b2z. rewrite (proj2 (Z.eqb_neq 0 x)) by lia. rewrite (Z.eqb_sym fp x). destruct (x =? fp); lia.
  - intros k v. rewrite aget_insert by lia. case_decide; [intros [= <-]; unfold NFILE; split; [lia|done]|]. apply Hv.
Qed.

Lemma wp_getf s c o po l lf f (Q : Z → dst X → Prop) :
  st s c o po l lf → zlen o = NOFILE → is_s32 f →
  (∀ s', st s' c o po l lf → u_error s' = EBADF → (∀ v, aget o f = Some v → v = 0) → Q 0 s') →
  (∀ fp, fp ≠ 0 → 0 ≤ f < NOFILE → aget o f = Some fp → Q fp s) → wp (getf f) Q s.
Proof.
  intros Hst Ho Hf HQ1 HQ2. unfold getf.
  destruct (decide (0 ≤ f < NOFILE)) as [Hr|Hr].
  - rewrite u32_id by (unfold is_u32, NOFILE in *; lia). rewrite (proj2 (Z.leb_gt _ _)) by lia.
    destruct (aget_is_Some o f ltac:(lia)) as [v Hv]. apply wp_bind. eapply wp_rd_ofile; [done|exact Hv|].
    destruct (Z.eqb_spec v 0) as [->|Hv0]; [|by apply wp_ret, HQ2].
    apply wp_bind, wp_modify, wp_ret. apply HQ1; [exact Hst|done|]. intros w Hw. congruence.
  - assert (NOFILE ≤ u32 f).
    { unfold u32, is_s32, NOFILE in *. destruct (decide (0 ≤ f)); [rewrite Z.mod_small; lia|].
      rewrite <- (Z.mod_unique f (2 ^ 32) (-1) (f + 2 ^ 32)); lia. }
    rewrite (proj2 (Z.leb_le _ _)) by done. apply wp_bind, wp_modify, wp_ret. apply HQ1; [exact Hst|done|].
    intros v Hv%aget_Some. lia.
Qed.

Lemma inv_intro other s c o po l lf : st s c o po l lf → good other c o po l lf → inv other s.
Proof. intros. by exists c, o, po, l, lf. Qed.

(** [u_pofile] and [u_lastfile] may change within their bounds. *)
Lemma good_hints other c o po po' l l' lf lf' :
  good other c o po l lf → zlen po' = NOFILE → l ≤ l' < NOFILE → 0 ≤ lf' ≤ NFILE + 1 → good other c o po' l' lf'.
Proof.
  intros (Hb & Hot & Ho & Hpo & Hl & Hlf & Hv) H1 H2 H3. split_and!; try done; try lia.
  intros fd v Hfd. destruct (Hv fd v Hfd). split; [done|]. intros. assert (fd ≤ l) by auto. lia.
Qed.

Lemma dup_common other s c o po l lf j fp fl :
  st s c o po l lf → good other c o po l lf → ufound o 0 j ∨ (0 ≤ j < NOFILE ∧ aget o j = Some 0) → 1 ≤ fp ≤ NFILE →
  wp (dupit j fp fl) (λ _ s', inv other s') s.
Proof.
  intros Hst Hg Hj Hfp. assert (0 ≤ j < NOFILE ∧ aget o j = Some 0) as [Hr H0] by (destruct Hj as [(? & ? & _)|?]; [split; [lia|done]|done]).
  pose proof Hg as (_ & _ & Ho & Hpo & _). destruct (good_count _ _ _ _ _ _ _ Hg Hfp) as (n & Hn & _ & Hnr).
  eapply wp_dupit; [done|lia|lia|exact Hn|done|]. intros s' Hs'. eapply inv_intro; [exact Hs'|]. by eapply good_dup.
Qed.

Lemma inv_dup2 other s i j : inv other s → is_s32 i → wp (dup2 fo_close i j) (λ _ s', inv other s') s.
Proof using fo_close_ok.
  intros (c & o & po & l & lf & Hst & Hg) Hi. pose proof Hg as (Hb & Hot & Ho & Hpo & Hl & Hlf & Hv).
  unfold dup2. apply wp_bind. eapply wp_getf; [done|done|done| |].
  { intros s' Hs' _ _. apply wp_ret. by eapply inv_intro. }
  intros fp Hfp0 Hir Hfp. rewrite (proj2 (Z.eqb_neq fp 0)) by done. destruct (Hv i fp Hfp) as [Hfpr _].
  destruct ((j <? 0) || (NOFILE <=? j)) eqn:Ej; [apply wp_modify; by eapply inv_intro|]. to_prop.
  apply wp_bind, wp_modify. set (s1 := set_u_rval j s). assert (Hst1 : st s1 c o po l lf) by done. clearbody s1.
  destruct (Z.eqb_spec i j) as [->|Hij]; [apply wp_ret; by eapply inv_intro|].
  destruct (aget_is_Some o j ltac:(lia)) as [old Hold]. destruct (Hv j old Hold) as [Holdr _].
  apply wp_bind. eapply wp_rd_ofile; [done|exact Hold|]. apply wp_bind.
  destruct (aget_is_Some po i ltac:(lia)) as [fl Hfl].
  destruct (Z.eqb_spec old 0) as [->|Hold0].
  { apply wp_ret. apply wp_bind. eapply wp_rd_pofile; [done|exact Hfl|]. eapply dup_common; [done|done| |lia]. right. split; [lia|done]. }
  destruct (good_count _ _ _ _ _ _ old Hg ltac:(lia)) as (n & Hn & Hnv & Hnr).
  pose proof (refs_pos _ _ _ Hold). specialize (Hot old ltac:(lia)) as Hoto.
  apply wp_bind. eapply wp_closef; [done|lia|exact Hn|lia|]. intros r s2 Hst2. apply wp_ret.
  apply wp_bind. eapply wp_rd_pofile; [done|exact Hfl|].
  set (c' := <[Z.to_nat (old - 1) := n - 1]> c) in *.
  assert (Hb' : bal c' o (λ x, other x + (if x =? old then n - 1 - n else 0))) by (eapply bal_count; [done|lia|done]).
  destruct (aget_is_Some c' (fp - 1)) as [m Hm]; [destruct Hb' as [-> _]; unfold NFILE in *; lia|].
  assert (Hmv : m = refs o fp + other fp + (if fp =? old then -1 else 0)).
  { destruct Hb' as [_ Hb']. rewrite Hb' in Hm by lia. simplify_eq. destruct (fp =? old); lia. }
  pose proof (refs_bounds o fp). pose proof (refs_pos _ _ _ Hfp). specialize (Hot fp ltac:(lia)) as Hotf. unfold NOFILE in *.
  eapply wp_dupit; [done|lia|lia|exact Hm|destruct (fp =? old); lia|].
  intros s3 Hst3. eapply inv_intro; [exact Hst3|]. split_and!; try done; rewrite ?length_insert; unfold NOFILE in *; try lia.
  - eapply bal_ext; [eapply bal_count; [eapply bal_write; [exact Hb'|exact Hold]|lia|exact Hm]|].
    intros x Hx. cbv beta. unfold b2z. rewrite (Z.eqb_sym fp x), (Z.eqb_sym old x). destruct (x =? fp), (x =? old); lia.
  - intros k v. rewrite aget_insert by lia. case_decide; [intros [= <-]; split; lia|]. intros Hk. destruct (Hv k v Hk) as [? Hkl].
    split; [done|]. intros Hv0. specialize (Hkl Hv0). lia.
Qed.

Lemma inv_dup other s i j : inv other s → is_s32 i → wp (dup fo_close i j) (λ _ s', inv other s') s.
Proof using fo_close_ok.
  intros Hinv Hi. unfold dup. destruct (Z.land i (Z.lnot 63) =? 0); cbn [negb]; cycle 1.
  { apply inv_dup2; [done|]. change 63 with (Z.ones 6). rewrite Z.land_ones by lia. unfold is_s32.
    pose proof (Z.mod_pos_bound i (2 ^ 6)). lia. }
  destruct Hinv as (c & o & po & l & lf & Hst & Hg). pose proof Hg as (Hb & Hot & Ho & Hpo & Hl & Hlf & Hv).
  apply wp_bind. eapply wp_getf; [done|done|done| |].
  { intros s' Hs' _ _. apply wp_ret. by eapply inv_intro. }
  intros fp Hfp0 Hir Hfp. rewrite (proj2 (Z.eqb_neq fp 0)) by done. destruct (Hv i fp Hfp) as [Hfpr _].
  apply wp_bind. eapply wp_ufalloc; [done|done|done|lia| |].
  { intros s' Hs' _ _. apply wp_ret. by eapply inv_intro. }
  intros s1 r Hs1 _ _ Hu. assert (0 ≤ r < NOFILE) by (destruct Hu as (? & _); lia).
  rewrite (proj2 (Z.ltb_ge r 0)) by lia.
  destruct (aget_is_Some (<[Z.to_nat r := 0]> po) i) as [fl Hfl]; [rewrite length_insert; lia|].
  apply wp_bind. eapply wp_rd_pofile; [exact Hs1|exact Hfl|].
  eapply dup_common; [exact Hs1| |by left|lia]. eapply good_hints; [done|by rewrite length_insert|lia|done].
Qed.

Lemma inv_fcntl_dup fo_ioctl pfind_pgrp other s fd arg : inv other s → is_s32 fd →
  wp (fcntl fo_ioctl pfind_pgrp fd F_DUPFD arg) (λ _ s', inv other s') s.
Proof.
  intros (c & o & po & l & lf & Hst & Hg) Hi. pose proof Hg as (Hb & Hot & Ho & Hpo & Hl & Hlf & Hv).
  unfold fcntl. apply wp_bind. eapply wp_getf; [done|done|done| |].
  { intros s' Hs' _ _. apply wp_ret. by eapply inv_intro. }
  intros fp Hfp0 Hir Hfp. rewrite (proj2 (Z.eqb_neq fp 0)) by done. destruct (Hv fd fp Hfp) as [Hfpr _]. cbn [Z.eqb F_DUPFD].
  destruct ((arg <? 0) || (NOFILE <=? arg)) eqn:Ea; [apply wp_modify; by eapply inv_intro|]. to_prop.
  apply wp_bind. eapply wp_ufalloc; [done|done|done|lia| |].
  { intros s' Hs' _ _. apply wp_ret. by eapply inv_intro. }
  intros s1 r Hs1 _ _ Hu. assert (0 ≤ r < NOFILE ∧ aget o r = Some 0) by (destruct Hu as (? & ? & _); split; [lia|done]).
  rewrite (proj2 (Z.ltb_ge r 0)) by lia.
  destruct (aget_is_Some (<[Z.to_nat r := 0]> po) fd) as [fl Hfl]; [rewrite length_insert; lia|].
  apply wp_bind. eapply wp_rd_pofile; [exact Hs1|exact Hfl|].
  eapply dup_common; [exact Hs1| |by right|lia]. eapply good_hints; [done|by rewrite length_insert|lia|done].
Qed.

(** Lowering the high-water mark past free descriptors. *)
Definition lowered (o : list Z) (l l' : Z) : Prop :=
  -1 ≤ l' ≤ l ∧ ∀ fd v, aget o fd = Some v → v ≠ 0 → fd ≤ l → fd ≤ l'.

Lemma good_lowered other c o po l l' lf : good other c o po l lf → lowered o l l' → good other c o po l' lf.
Proof.
  intros (Hb & Hot & Ho & Hpo & Hl & Hlf & Hv) [Hl1 Hl2]. split_and!; try done; try lia.
  intros fd v Hfd. destruct (Hv fd v Hfd) as [? Hle]. split; [done|]. intros Hv0. by apply (Hl2 fd v); auto.
Qed.

Lemma wp_lower fuel s c o po l lf (Q : unit → dst X → Prop) :
  st s c o po l lf → zlen o = NOFILE → -1 ≤ l < NOFILE → (Z.to_nat (l + 1) < fuel)%nat →
  (∀ s' l', st s' c o po l' lf → lowered o l l' → Q tt s') → wp (lower_lastfile fuel) Q s.
Proof.
  revert s l. induction fuel as [|fuel IH]; intros s l Hst Ho Hl Hf HQ; [lia|]. cbn [lower_lastfile].
  apply wp_bind, wp_gets. assert (Hlf : u_lastfile s = l) by (by destruct Hst as [[= _ _ _ -> _] _]). rewrite Hlf.
  assert (Hsame : lowered o l l) by (split; [lia|done]).
  destruct (Z.leb_spec 0 l); [|apply wp_ret; by apply (HQ s l)].
  destruct (aget_is_Some o l ltac:(lia)) as [v Hv]. apply wp_bind. eapply wp_rd_ofile; [done|exact Hv|].
  destruct (Z.eqb_spec v 0) as [->|Hv0]; [|apply wp_ret; by apply (HQ s l)].
  apply wp_bind, wp_modify. apply (IH _ (l - 1)); [|done|lia|lia|].
  { destruct Hst as [Ht Hk]. split; [|done]. unfold tables in *. simpl. by simplify_eq. }
  intros s' l' Hs' [Hl1 Hl2]. apply (HQ s' l'); [done|]. split; [lia|]. intros fd w Hfd Hw Hle.
  destruct (decide (fd = l)) as [->|]; [congruence|]. apply (Hl2 fd w); [done|done|lia].
Qed.

Lemma inv_close other s i : inv other s → is_s32 i → wp (close fo_close i) (λ _ s', inv other s') s.
Proof using fo_close_ok.
  intros (c & o & po & l & lf & Hst & Hg) Hi. pose proof Hg as (Hb & Hot & Ho & Hpo & Hl & Hlf & Hv).
  unfold close. apply wp_bind. eapply wp_getf; [done|done|done| |].
  { intros s' Hs' _ _. apply wp_ret. by eapply inv_intro. }
  intros fp Hfp0 Hir Hfp. rewrite (proj2 (Z.eqb_neq fp 0)) by done. destruct (Hv i fp Hfp) as [Hfpr _].
  apply wp_bind. eapply wp_wr_ofile; [done|lia|]. intros s1 Hs1.
  apply wp_bind. eapply wp_lower; [exact Hs1|by rewrite length_insert|done|unfold lower_fuel; lia|]. intros s2 l' Hs2 Hlow.
  destruct (good_count _ _ _ _ _ _ fp Hg ltac:(lia)) as (n & Hn & Hnv & Hnr). pose proof (refs_pos _ _ _ Hfp). pose proof (Hot fp ltac:(lia)).
  apply wp_bind. eapply wp_closef; [exact Hs2|lia|exact Hn|lia|]. intros r s3 Hs3. apply wp_modify.
  eapply inv_intro; [exact Hs3|]. eapply good_lowered; [|exact Hlow]. eapply good_drop; [exact Hg|done|lia|done|done].
Qed.

(** Clearing a descriptor of any content, as [exit] and [exec] do. *)
Lemma good_clear other c o po po' l lf fd fp (Q : list Z → Prop) :
  good other c o po l lf → aget o fd = Some fp → zlen po' = NOFILE →
  (fp = 0 → good other c (<[Z.to_nat fd := 0]> o) po' l lf → Q c) →
  (∀ n, 1 ≤ fp → aget c (fp - 1) = Some n → 1 ≤ n →
     good other (<[Z.to_nat (fp - 1) := n - 1]> c) (<[Z.to_nat fd := 0]> o) po' l lf → Q (<[Z.to_nat (fp - 1) := n - 1]> c)) →
  ∃ c', Q c' ∧ ((fp = 0 ∧ c' = c) ∨ ∃ n, 1 ≤ fp ∧ aget c (fp - 1) = Some n ∧ 1 ≤ n ∧ c' = <[Z.to_nat (fp - 1) := n - 1]> c).
Proof.
  intros Hg Hfp Hpo' HQ1 HQ2. pose proof Hg as (Hb & Hot & Ho & Hpo & Hl & Hlf & Hv). destruct (Hv fd fp Hfp) as [Hr _].
  destruct (decide (fp = 0)) as [->|Hne].
  - exists c. split; [|by left]. apply HQ1; [done|]. rewrite list_insert_id by (unfold aget in Hfp; destruct (0 <=? fd); done).
    by eapply good_hints; [exact Hg|..]; [|lia|].
  - destruct (good_count _ _ _ _ _ _ fp Hg ltac:(lia)) as (n & Hn & Hnv & Hnr). pose proof (refs_pos _ _ _ Hfp). pose proof (Hot fp ltac:(lia)).
    exists (<[Z.to_nat (fp - 1) := n - 1]> c). split; [|right; exists n; split_and!; [lia|done|lia|done]].
    apply HQ2; [lia|done|lia|]. eapply good_drop; [exact Hg|done|lia|done|done].
Qed.

Lemma inv_exit_loop fuel other s c o po l lf i :
  st s c o po l lf → good other c o po l lf → 0 ≤ i → (Z.to_nat (l + 1 - i) < fuel)%nat →
  (∀ fd v, fd < i → aget o fd = Some v → v = 0) →
  wp (exit_files fo_close fuel i) (λ _ s', ∃ c' o' po', st s' c' o' po' l lf ∧ good other c' o' po' l lf ∧
     ∀ fd v, aget o' fd = Some v → v = 0) s.
Proof using fo_close_ok.
  revert s c o po i. induction fuel as [|fuel IH]; intros s c o po i Hst Hg Hi Hf Hz; [lia|]. cbn [exit_files].
  pose proof Hg as (Hb & Hot & Ho & Hpo & Hl & Hlf & Hv).
  apply wp_bind, wp_gets. assert (Hlf' : u_lastfile s = l) by (by destruct Hst as [[= _ _ _ -> _] _]). rewrite Hlf'.
  destruct (Z.leb_spec i l); cycle 1.
  { apply wp_ret. exists c, o, po. split_and!; [done|done|]. intros fd v Hfd. destruct (Hv fd v Hfd) as [_ Hle].
    destruct (decide (v = 0)); [done|]. specialize (Hle ltac:(done)). apply (Hz fd v); [lia|done]. }
  destruct (aget_is_Some o i ltac:(lia)) as [fp Hfp]. apply wp_bind. eapply wp_rd_ofile; [done|exact Hfp|].
  apply wp_bind. eapply wp_wr_ofile; [done|lia|]. intros s1 Hs1. apply wp_bind. eapply wp_wr_pofile; [exact Hs1|lia|]. intros s2 Hs2.
  assert (Hz' : ∀ fd v, fd < i + 1 → aget (<[Z.to_nat i := 0]> o) fd = Some v → v = 0).
  { intros fd v Hlt. rewrite aget_insert by lia. case_decide; [congruence|]. intros Ha. apply (Hz fd v); [lia|done]. }
  apply wp_bind.
  destruct (good_clear other c o po (<[Z.to_nat i := 0]> po) l lf i fp
    (λ c', good other c' (<[Z.to_nat i := 0]> o) (<[Z.to_nat i := 0]> po) l lf)) as (c' & Hg' & Hc'); [done|done|by rewrite length_insert|auto|auto|].
  destruct Hc' as [[-> ->]|(n & Hfp1 & Hn & Hn1 & ->)].
  - cbn [closef Z.eqb]. apply wp_ret. apply (IH s2 _ _ _ (i + 1) Hs2); [done|lia|lia|done].
  - eapply wp_closef; [exact Hs2|lia|exact Hn|lia|]. intros r s3 Hs3. apply (IH s3 _ _ _ (i + 1) Hs3); [done|lia|lia|done].
Qed.

Lemma inv_exec_loop fuel other s c o po l lf i :
  st s c o po l lf → good other c o po l lf → 0 ≤ i → (Z.to_nat (l + 1 - i) < fuel)%nat →
  (∀ fd v w, fd < i → aget o fd = Some v → aget po fd = Some w → v ≠ 0 → Z.land w UF_EXCLOSE = 0) →
  wp (exec_close_loop fo_close fuel i) (λ _ s', ∃ c' o' po', st s' c' o' po' l lf ∧ good other c' o' po' l lf ∧
     (∀ fd v w, aget o' fd = Some v → aget po' fd = Some w → v ≠ 0 → Z.land w UF_EXCLOSE = 0)) s.
Proof using fo_close_ok.
  revert s c o po i. induction fuel as [|fuel IH]; intros s c o po i Hst Hg Hi Hf Hz; [lia|]. cbn [exec_close_loop].
  pose proof Hg as (Hb & Hot & Ho & Hpo & Hl & Hlf & Hv).
  apply wp_bind, wp_gets. assert (Hlf' : u_lastfile s = l) by (by destruct Hst as [[= _ _ _ -> _] _]). rewrite Hlf'.
  destruct (Z.leb_spec i l); cycle 1.
  { apply wp_ret. exists c, o, po. split_and!; [done|done|]. intros fd v w Hfd Hw Hv0. destruct (Hv fd v Hfd) as [_ Hle].
    specialize (Hle Hv0). apply (Hz fd v w); [lia|done..]. }
  destruct (aget_is_Some po i ltac:(lia)) as [fl Hfl]. apply wp_bind. eapply wp_rd_pofile; [done|exact Hfl|]. apply wp_bind.
  destruct (Z.eqb_spec (Z.land fl UF_EXCLOSE) 0) as [Hfl0|Hfl0].
  { apply wp_ret. apply (IH s c o po (i + 1)); [done|done|lia|lia|]. intros fd v w Hlt Ha Hw Hv0.
    destruct (decide (fd = i)) as [->|]; [congruence|]. apply (Hz fd v w); [lia|done..]. }
  destruct (aget_is_Some o i ltac:(lia)) as [fp Hfp]. apply wp_bind. eapply wp_rd_ofile; [done|exact Hfp|].
  assert (Hz' : ∀ fd v w, fd < i + 1 → aget (<[Z.to_nat i := 0]> o) fd = Some v → aget (<[Z.to_nat i := 0]> po) fd = Some w → v ≠ 0 → Z.land w UF_EXCLOSE = 0).
  { intros fd v w Hlt. rewrite !aget_insert by lia. case_decide; [congruence|]. intros Ha Hw Hv0. apply (Hz fd v w); [lia|done..]. }
  destruct (good_clear other c o po (<[Z.to_nat i := 0]> po) l lf i fp
    (λ c', good other c' (<[Z.to_nat i := 0]> o) (<[Z.to_nat i := 0]> po) l lf)) as (c' & Hg' & Hc'); [done|done|by rewrite length_insert|auto|auto|].
  assert (Hrest : ∀ s1, st s1 c' o po l lf →
    wp (wr_ofile i 0;; wr_pofile i 0) (λ _ s0, wp (exec_close_loop fo_close fuel (i + 1)) (λ _ s', ∃ c' o' po', st s' c' o' po' l lf ∧ good other c' o' po' l lf ∧
    (∀ fd v w, aget o' fd = Some v → aget po' fd = Some w → v ≠ 0 → Z.land w UF_EXCLOSE = 0)) s0) s1).
  { intros s1 Hs1. apply wp_bind. eapply wp_wr_ofile; [done|lia|]. intros s2 Hs2. eapply wp_wr_pofile; [exact Hs2|lia|]. intros s3 Hs3.
    apply (IH s3 _ _ _ (i + 1) Hs3); [done|lia|lia|done]. }
  apply wp_bind. destruct Hc' as [[-> ->]|(n & Hfp1 & Hn & Hn1 & ->)].
  - cbn [closef Z.eqb]. apply wp_ret. by apply Hrest.
  - eapply wp_closef; [exact Hst|lia|exact Hn|lia|]. intros r s3 Hs3. by apply Hrest.
Qed.

Lemma inv_exec other s : inv other s → wp (exec_close fo_close) (λ _ s', inv other s') s.
Proof using fo_close_ok.
  intros (c & o & po & l & lf & Hst & Hg). unfold exec_close. apply wp_bind.
  pose proof Hg as (_ & _ & _ & _ & Hl & _). eapply wp_mono; [eapply (inv_exec_loop _ other s c o po l lf 0); [done|done|lia|unfold lower_fuel; lia|]|].
  { intros fd v w ? [? _]%aget_Some. lia. }
  cbv beta. intros _ s1 (c1 & o1 & po1 & Hs1 & Hg1 & _). pose proof Hg1 as (_ & _ & Ho1 & _).
  eapply wp_lower; [exact Hs1|done|done|unfold lower_fuel; lia|]. intros s2 l2 Hs2 Hlow.
  eapply inv_intro; [exact Hs2|]. by eapply good_lowered.
Qed.

(** ** Allocating a file *)

Lemma wp_falloc_scan fuel s c o po l lf fp lim (Q : Z → dst X → Prop) :
  st s c o po l lf → zlen c = NFILE → 1 ≤ fp → lim ≤ NFILE + 1 → (Z.to_nat (lim - fp) < fuel)%nat →
  ((∀ k, fp ≤ k < lim → ∃ n, aget c (k - 1) = Some n ∧ n ≠ 0) → Q 0 s) →
  (∀ r, fp ≤ r < lim → aget c (r - 1) = Some 0 → Q r s) → wp (falloc_scan fuel fp lim) Q s.
Proof.
  intros Hst Hc. revert fp. induction fuel as [|fuel IH]; intros fp Hfp Hlim Hf HQ1 HQ2; [lia|]. cbn [falloc_scan].
  destruct (Z.ltb_spec fp lim); [|apply wp_ret, HQ1; intros; lia].
  destruct (aget_is_Some c (fp - 1) ltac:(lia)) as [n Hn]. destruct (st_file _ _ _ _ _ _ _ _ Hst Hn) as (x & Hx & Hxc).
  apply wp_bind. eapply wp_rdf; [exact Hx|]. rewrite Hxc. destruct (Z.eqb_spec n 0) as [->|Hn0]; [apply wp_ret, HQ2; [lia|done]|].
  apply IH; [lia|lia|lia| |].
  - intros Hall. apply HQ1. intros k Hk. destruct (decide (k = fp)) as [->|]; [eauto|]. apply Hall. lia.
  - intros r Hr Hc0. apply HQ2; [lia|done].
Qed.

(** What is not in the tables: the registers of the system call. *)
Definition regs s : Z * Z * Z := (u_rval s, u_error s, u_dupfd s).

(** A write to a file that keeps its count and cannot make it hold a lock
    without an inode. *)
Lemma wp_wrf_st s c o po l lf fp n g (Q : unit → dst X → Prop) :
  st s c o po l lf → aget c (fp - 1) = Some n → (∀ x, f_count (g x) = f_count x) →
  (∀ x, aget (files s) (fp - 1) = Some x → Z.land (Z.lor FSHLOCK FEXLOCK) (f_flag (g x)) ≠ 0 → f_data (g x) ≠ 0 → is_Some (inodes s !! f_data (g x))) →
  (∀ s' x, st s' c o po l lf → aget (files s) (fp - 1) = Some x → aget (files s') (fp - 1) = Some (g x) → regs s' = regs s → Q tt s') → wp (wrf fp g) Q s.
Proof.
  intros Hst Hn Hg Hl HQ. destruct (st_file _ _ _ _ _ _ _ _ Hst Hn) as (x & Hx & Hc). destruct Hst as [Ht Hk].
  pose proof (aget_Some _ _ _ Hx) as Hr. eapply wp_wrf; [exact Hx|]. apply (HQ _ x); [|done| |done].
  - split; [unfold tables in *; simpl; erewrite fmap_insert_same by eauto; done|].
    intros i y. cbn [files set_files inodes]. rewrite aget_insert by done. case_decide; [|apply Hk]. intros [= <-]. by apply Hl.
  - cbn [files set_files]. rewrite aget_insert by done. by rewrite decide_True.
Qed.

Lemma keeps_regs_wrf fp g : keeps regs (wrf (X := X) fp g).
Proof.
  apply keeps_store. intros s s'. destruct (aget (files s) (fp - 1)); [|done]. cbn. destruct (aset _ _ _); [|done]. by intros [= <-].
Qed.

Lemma keeps_regs_wr_ofile fd v : keeps regs (wr_ofile (X := X) fd v).
Proof. apply keeps_store. intros s s'. destruct (aset _ _ _); [|done]. by intros [= <-]. Qed.

(** The slot a successful [falloc] returns: free before, now held by the lowest
    free descriptor only. *)
Definition fallocated (c o : list Z) (fd fp : Z) : Prop := ufound o 0 fd ∧ 1 ≤ fp ≤ NFILE ∧ aget c (fp - 1) = Some 0.

Lemma wp_falloc other s c o po l lf (Q : Z → dst X → Prop) :
  st s c o po l lf → good other c o po l lf →
  (∀ s', inv other s' → u_error s' ≠ 0 →
     ((∀ k v, 0 ≤ k → aget o k = Some v → v ≠ 0) ∨ (∀ k, 1 ≤ k ≤ NFILE → ∃ n, aget c (k - 1) = Some n ∧ n ≠ 0)) → Q 0 s') →
  (∀ s' fd fp lf', let c' := <[Z.to_nat (fp - 1) := 1]> c in let o' := <[Z.to_nat fd := fp]> o in
     let po' := <[Z.to_nat fd := 0]> po in
     st s' c' o' po' (Z.max l fd) lf' → good other c' o' po' (Z.max l fd) lf' → fallocated c o fd fp →
     u_rval s' = fd → (∃ x, aget (files s') (fp - 1) = Some x ∧ f_data x = 0) → Q fp s') →
  wp falloc Q s.
Proof.
  intros Hst Hg HQ1 HQ2. pose proof Hg as (Hb & Hot & Ho & Hpo & Hl & Hlf & Hv). pose proof Hb as [Hc _].
  unfold falloc. apply wp_bind. eapply wp_ufalloc; [done|done|done|lia| |].
  { intros s' Hs' He Hno. apply wp_ret, HQ1; [by eapply inv_intro|by rewrite He|by left]. }
  intros s1 fd Hs1 Hrv _ Hu. assert (Hfd : 0 ≤ fd < NOFILE) by (destruct Hu as (? & _); lia).
  assert (H0 : aget o fd = Some 0) by apply Hu. rewrite (proj2 (Z.ltb_ge fd 0)) by lia.
  set (po1 := <[Z.to_nat fd := 0]> po) in *. apply wp_bind, wp_gets. apply wp_bind.
  assert (Hl1 : lastf s1 = lf) by (by destruct Hs1 as [[= _ _ _ _ ->] _]). rewrite Hl1.
  set (lf1 := if lf =? 0 then 1 else lf).
  assert (Hg1 : good other c o po1 (Z.max l fd) lf1).
  { eapply good_hints; [done|unfold po1; by rewrite length_insert|lia|]. unfold lf1. destruct (Z.eqb_spec lf 0); unfold NFILE in *; lia. }
  assert (Hlf1 : 1 ≤ lf1 ≤ NFILE + 1) by (unfold lf1; destruct (Z.eqb_spec lf 0); unfold NFILE in *; lia).
  assert (Hw : ∀ Q' : unit → dst X → Prop, (∀ s2, st s2 c o po1 (Z.max l fd) lf1 → u_rval s2 = fd → Q' tt s2) →
    wp (when (lf =? 0) (modify (set_lastf 1))) Q' s1).
  { intros Q' HQ'. unfold lf1 in *. apply wp_when; intros E; rewrite E in *; [apply wp_modify|]; apply HQ'; try done.
    destruct Hs1 as [Ht Hk]. split; [|done]. unfold tables in *. simpl. simplify_eq. congruence. }
  apply Hw. clear Hw. intros s2 Hs2 Hrv2. apply wp_bind, wp_gets.
  assert (Hl2 : lastf s2 = lf1) by (by destruct Hs2 as [[= _ _ _ _ ->] _]). rewrite Hl2.
  assert (Hslot : ∀ fp, 1 ≤ fp ≤ NFILE → aget c (fp - 1) = Some 0 →
    wp (if fp =? 0 then err ENFILE;; mret 0
    else wr_ofile fd fp;; wrf fp (set_f_count 1);; wrf fp (set_f_data 0);; wrf fp (set_f_offset 0);;
    modify (set_lastf (fp + 1));; mret fp) Q s2).
  { intros fp Hfp Hn. rewrite (proj2 (Z.eqb_neq fp 0)) by lia.
    set (tail := wr_ofile fd fp;; _).
    assert (Hk : keeps regs tail).
    { unfold tail. repeat (apply keeps_bind; [|intros _]); try apply keeps_regs_wrf; [apply keeps_regs_wr_ofile|apply keeps_modify; done|apply keeps_ret]. }
    eapply wp_mono; [apply (wp_frame regs _ (λ r s', r = fp ∧ st s' (<[Z.to_nat (fp - 1) := 1]> c) (<[Z.to_nat fd := fp]> o) po1 (Z.max l fd) (fp + 1) ∧
      ∃ x, aget (files s') (fp - 1) = Some x ∧ f_data x = 0)); [exact Hk|]|].
    - unfold tail. apply wp_bind. eapply wp_wr_ofile; [done|lia|]. intros s3 Hs3.
      apply wp_bind. eapply (wp_set_count _ _ _ _ _ _ fp 0 1); [exact Hs3|exact Hn|done|]. intros s4 Hs4.
      assert (Hn1 : aget (<[Z.to_nat (fp - 1) := 1]> c) (fp - 1) = Some 1) by (rewrite aget_insert by lia; by rewrite decide_True).
      apply wp_bind. eapply wp_wrf_st; [exact Hs4|exact Hn1|done|done|]. intros s5 x5 Hs5 _ X5 _.
      apply wp_bind. eapply wp_wrf_st; [exact Hs5|exact Hn1|done| |].
      { intros y Hy. rewrite X5 in Hy. injection Hy as <-. done. }
      intros s6 x6 Hs6 Hx6 X6 _. rewrite X5 in Hx6. injection Hx6 as <-. apply wp_bind, wp_modify, wp_ret. split; [done|]. split; [|by eauto].
      destruct Hs6 as [Ht Hkk]. split; [|done]. unfold tables in *. simpl. injection Ht as -> -> -> -> _. done.
    - cbv beta. intros r s3 [(-> & Hs3 & Hx3) Hr]. injection Hr as Hr1 _ _. eapply (HQ2 s3 fd fp (fp + 1)); [done| |done|congruence|done].
      change 1 with (0 + 1). replace po1 with (<[Z.to_nat fd := 0]> po1) by (unfold po1; apply list_insert_insert_eq).
      eapply good_hints; [eapply (good_dup _ c o po1 (Z.max l fd) lf1 fd fp 0 0); [done|lia|done|lia|done]| |lia|lia].
      unfold po1. by rewrite !length_insert. }
  apply wp_bind. eapply wp_falloc_scan; [exact Hs2|done|lia|lia|lia| |].
  - intros Hn1. cbn [Z.eqb]. apply wp_bind. eapply wp_falloc_scan; [exact Hs2|done|lia|lia|lia| |].
    + intros Hn2. cbn [Z.eqb]. apply wp_bind, wp_modify, wp_ret. apply HQ1; [by eapply inv_intro|done|right].
      intros k Hk. destruct (decide (lf1 ≤ k)); [apply Hn1|apply Hn2]; lia.
    + intros r Hr Hn. apply Hslot; [lia|done].
  - intros r Hr Hn. rewrite (proj2 (Z.eqb_neq r 0)) by lia. apply wp_bind, wp_ret.
    eapply wp_mono; [apply (Hslot r); [lia|done]|]. done.
Qed.

(** ** Opening, forking *)

Lemma wp_dupfdopen s c o po l lf indx fp dfd mode error (Q : Z → dst X → Prop) :
  st s c o po l lf → zlen o = NOFILE → zlen po = NOFILE → aget o indx = Some fp → 0 ≤ dfd → error ≠ 0 →
  (∀ fd v, aget o fd = Some v → 0 ≤ v ≤ NFILE) →
  (∀ wfp, 1 ≤ wfp ≤ NFILE → wfp ≠ fp → ∃ n, aget c (wfp - 1) = Some n ∧ 0 ≤ n < 2 ^ 32 - 1) →
  (∀ r, r ≠ 0 → Q r s) →
  (∀ s' wfp n po', 1 ≤ wfp ≤ NFILE → wfp ≠ fp → aget o dfd = Some wfp → aget c (wfp - 1) = Some n →
     st s' (<[Z.to_nat (wfp - 1) := n + 1]> c) (<[Z.to_nat indx := wfp]> o) po' (Z.max l indx) lf → zlen po' = NOFILE → Q 0 s') →
  wp (dupfdopen indx dfd mode error) Q s.
Proof.
  intros Hst Ho Hpo Hfp Hdfd He Hv Hcn HQ1 HQ2. pose proof (aget_Some _ _ _ Hfp) as Hix. unfold dupfdopen.
  apply wp_bind. eapply wp_rd_ofile; [done|exact Hfp|]. destruct (Z.leb_spec NOFILE dfd); [by apply wp_ret, HQ1|].
  destruct (aget_is_Some o dfd ltac:(lia)) as [wfp Hw]. apply wp_bind. eapply wp_rd_ofile; [done|exact Hw|]. pose proof (Hv _ _ Hw).
  destruct (Z.eqb_spec wfp 0) as [|Hw0]; [by apply wp_ret, HQ1|]. destruct (Z.eqb_spec fp wfp) as [|Hwf]; [by apply wp_ret, HQ1|]. cbn [orb].
  destruct (error =? ENODEV); [|by apply wp_ret, HQ1].
  destruct (Hcn wfp ltac:(lia) ltac:(done)) as (n & Hn & Hnr). destruct (st_file _ _ _ _ _ _ _ _ Hst Hn) as (x & Hx & Hxc).
  apply wp_bind. eapply wp_rdf; [exact Hx|]. case_match; [by apply wp_ret, HQ1|].
  apply wp_bind. eapply wp_wr_ofile; [done|done|]. intros s1 Hs1.
  destruct (aget_is_Some po dfd ltac:(lia)) as [fl Hfl]. apply wp_bind. eapply wp_rd_pofile; [exact Hs1|exact Hfl|].
  apply wp_bind. eapply wp_wr_pofile; [exact Hs1|lia|]. intros s2 Hs2.
  apply wp_bind. eapply (wp_set_count _ _ _ _ _ _ wfp n (n + 1)); [exact Hs2|done| |].
  { intros y ->. by rewrite u32_id by (unfold is_u32; lia). }
  intros s3 Hs3. apply wp_bind. eapply wp_raise; [exact Hs3|]. intros s4 Hs4. apply wp_ret.
  eapply (HQ2 s4 wfp n); [split; lia|done|done|done|exact Hs4|by rewrite length_insert].
Qed.

(** The state of a descriptor [indx] whose file [fp] has lost its count. *)
Lemma good_transit other c o po po' l lf indx fp v n :
  good other c o po l lf → aget o indx = Some fp → 1 ≤ fp → aget c (fp - 1) = Some 1 → 0 ≤ v ≤ NFILE → v ≠ fp →
  (v ≠ 0 → aget c (v - 1) = Some n) → zlen po' = NOFILE →
  let c0 := <[Z.to_nat (fp - 1) := 0]> c in
  good other (if v =? 0 then c0 else <[Z.to_nat (v - 1) := n + 1]> c0) (<[Z.to_nat indx := v]> o) po' (Z.max l indx) lf.
Proof.
  intros Hg Hfp Hfp1 Hn Hv Hne Hvn Hpo' c0. pose proof (good_drop other c o po po' l lf indx fp 1 Hg Hfp Hfp1 Hn Hpo') as Hd.
  change (1 - 1) with 0 in Hd. fold c0 in Hd. pose proof (aget_Some _ _ _ Hfp) as Hix.
  pose proof Hg as (_ & _ & Ho & _ & Hl & Hlf & Hvv). destruct (Hvv _ _ Hfp) as [Hfr Hle]. specialize (Hle ltac:(lia)).
  destruct (Z.eqb_spec v 0) as [->|Hv0].
  - eapply good_hints; [exact Hd|done|lia|done].
  - assert (Hvn' : aget c0 (v - 1) = Some n).
    { unfold c0. rewrite aget_insert by (apply aget_Some in Hn; done). rewrite decide_False by lia. auto. }
    pose proof (good_dup other c0 (<[Z.to_nat indx := 0]> o) po' l lf indx v n 0 Hd) as Hdup.
    rewrite list_insert_insert_eq in Hdup. eapply good_hints; [apply Hdup| | |]; try done; try lia.
    rewrite aget_insert by lia. by rewrite decide_True.
Qed.

Section copen.
Context (tsleep : Z → Z → K Z) (vn_open : Z → Z → K (Z * Z)).

(** Looking a name up and opening it does not touch the file table. *)
Hypothesis vn_open_ok : ∀ a b s, locks_ok s →
  wp (vn_open a b) (λ _ s', tables s' = tables s ∧ files s' = files s ∧ locks_ok s') s.

Lemma inv_copen other s fuel mode cmode :
  inv other s → Z.land (FFLAGS mode) (Z.lor FEXLOCK FSHLOCK) = 0 →
  wp (copen fo_close tsleep vn_open fuel mode cmode) (λ _ s', inv other s') s.
Proof using fo_close_ok vn_open_ok.
  intros (c & o & po & l & lf & Hst & Hg) Hfl. pose proof Hg as (_ & _ & Ho & Hpo & _). unfold copen. apply wp_bind. eapply wp_falloc; [done|done| |].
  { intros s' Hinv _ _. by apply wp_gets. }
  cbv zeta. intros s1 fd fp lf' Hs1 Hg1 (Hu & Hfp & Hc0) Hrv (x1 & Hx1 & Hd1). rewrite (proj2 (Z.eqb_neq fp 0)) by lia.
  assert (Hfd : 0 ≤ fd < NOFILE) by (destruct Hu as (? & _); lia).
  pose proof (aget_Some _ _ _ Hc0) as Hcr.
  assert (Hn1 : aget (<[Z.to_nat (fp - 1) := 1]> c) (fp - 1) = Some 1) by (rewrite aget_insert by done; by rewrite decide_True).
  assert (Hofd : aget (<[Z.to_nat fd := fp]> o) fd = Some fp) by (rewrite aget_insert by lia; by rewrite decide_True).
  apply wp_bind. eapply wp_wrf_st; [exact Hs1|exact Hn1|done| |].
  { intros y Hy _ Hne. exfalso. apply Hne. rewrite Hx1 in Hy. by injection Hy as <-. }
  intros s2 x2 Hs2 Hx2 X2 R2. apply wp_bind. eapply wp_wrf_st; [exact Hs2|exact Hn1|done| |].
  { intros y Hy _ Hne. exfalso. apply Hne. rewrite X2 in Hy. injection Hy as <-. rewrite Hx1 in Hx2. by injection Hx2 as <-. }
  intros s3 x3 Hs3 Hx3 X3 R3. apply wp_bind, wp_gets.
  assert (Hrv3 : u_rval s3 = fd) by (injection R3 as -> _ _; injection R2 as -> _ _; done). rewrite Hrv3.
  apply wp_bind, wp_modify. apply wp_bind.
  eapply wp_mono; [apply vn_open_ok; exact (proj2 Hs3)|]. cbv beta. intros [error ip] s4 (T4 & F4 & L4).
  assert (Hs4 : st s4 (<[Z.to_nat (fp - 1) := 1]> c) (<[Z.to_nat fd := fp]> o) (<[Z.to_nat fd := 0]> po) (Z.max l fd) lf').
  { split; [|done]. rewrite T4. exact (proj1 Hs3). }
  assert (X4 : aget (files s4) (fp - 1) = Some (set_f_type DTYPE_INODE x3)) by (rewrite F4; exact X3).
  rewrite X2 in Hx3. injection Hx3 as <-. pose proof Hg1 as (_ & _ & Ho1 & Hpo1 & _ & _ & Hv1).
  destruct (Z.eqb_spec error 0) as [->|He]; cbn [negb].
  - apply wp_bind, wp_modify. apply wp_bind. eapply (wp_wrf_st _ _ _ _ _ _ fp 1 (set_f_data ip)); [exact Hs4|exact Hn1|done| |].
    { intros y Hy. change (aget (files s4) (fp - 1) = Some y) in Hy. rewrite X4 in Hy. injection Hy as <-. intros Hbad. exfalso. apply Hbad. cbn.
      rewrite Z.land_comm, <- Z.land_assoc. change (Z.land FMASK _) with 0. apply Z.land_0_r. }
    intros s5 x5 Hs5 _ _ _. rewrite Hfl. cbn [Z.eqb]. apply wp_ret. by eapply inv_intro.
  - apply wp_bind. eapply (wp_set_count _ _ _ _ _ _ fp 1 0); [exact Hs4|exact Hn1|done|]. intros s5 Hs5.
    apply wp_bind, wp_gets. apply wp_bind.
    set (c0 := <[Z.to_nat (fp - 1) := 0]> (<[Z.to_nat (fp - 1) := 1]> c)) in *.
    assert (Hnull : ∀ (e : Z) s6, st s6 c0 (<[Z.to_nat fd := fp]> o) (<[Z.to_nat fd := 0]> po) (Z.max l fd) lf' →
      wp (wr_ofile fd 0;; mret e) (λ _ s', inv other s') s6).
    { intros e s6 Hs6. apply wp_bind. eapply wp_wr_ofile; [exact Hs6|lia|]. intros s7 Hs7. apply wp_ret. eapply inv_intro; [exact Hs7|].
      assert (Hmax : Z.max l fd = Z.max (Z.max l fd) fd) by lia. rewrite Hmax.
      apply (good_transit other _ _ _ _ _ _ fd fp 0 0 Hg1 Hofd ltac:(lia) Hn1); [unfold NFILE; lia|lia|done|done]. }
    destruct (((error =? ENODEV) || (error =? ENXIO)) && (0 <=? u_dupfd s5)) eqn:Ed; cycle 1.
    { apply wp_ret. by apply Hnull. }
    to_prop. apply wp_bind.
    eapply wp_dupfdopen; [exact Hs5|by rewrite length_insert|done|exact Hofd|done|done| | | |].
    + intros k v Hk. by apply (Hv1 k v).
    + intros w Hw Hwf. destruct (good_count _ _ _ _ _ _ w Hg1 Hw) as (n & Hn & _ & Hnr). exists n. split; [|done].
      unfold c0. rewrite aget_insert by (rewrite length_insert; done). rewrite decide_False by lia. done.
    + intros r Hr. apply wp_ret. rewrite (proj2 (Z.eqb_neq r 0)) by done. by apply Hnull.
    + intros s6 w n po' Hw Hwf Hod Hcn Hs6 Hpo'. apply wp_ret. cbn [Z.eqb]. apply wp_bind, wp_modify, wp_ret.
      eapply inv_intro; [exact Hs6|].
      assert (Hcn1 : aget (<[Z.to_nat (fp - 1) := 1]> c) (w - 1) = Some n).
      { unfold c0 in Hcn. rewrite aget_insert in Hcn by (rewrite length_insert; done). by rewrite decide_False in Hcn by lia. }
      pose proof (good_transit other _ _ _ po' _ _ fd fp w n Hg1 Hofd ltac:(lia) Hn1) as Ht. cbv zeta in Ht. fold c0 in Ht.
      rewrite (proj2 (Z.eqb_neq w 0)) in Ht by lia. apply Ht; [lia|lia|done|done].
Qed.

(** The error of a failed duplication through [/dev/fd] is lost. *)
Lemma copen_dupfd s c o po l lf other fuel mode cmode dfd k j :
  st s c o po l lf → good other c o po l lf → aget o k = Some 0 → 1 ≤ j ≤ NFILE → aget c (j - 1) = Some 0 →
  0 ≤ dfd → (∀ v, aget o dfd = Some v → v = 0) →
  (∀ a b s, locks_ok s → wp (vn_open a b) (λ r s', r.1 = ENODEV ∧ u_dupfd s' = dfd ∧ u_rval s' = u_rval s ∧
     tables s' = tables s ∧ locks_ok s') s) →
  wp (copen fo_close tsleep vn_open fuel mode cmode)
     (λ r s', r = 0 ∧ ufound o 0 (u_rval s') ∧ aget (u_ofile s') (u_rval s') = Some 0) s.
Proof.
  intros Hst Hg Hk Hj Hj0 Hd0 Hd Hvn. pose proof Hg as (_ & _ & Ho & Hpo & _). unfold copen. apply wp_bind. eapply wp_falloc; [done|done| |].
  { intros s' _ _ [Hno|Hno]; exfalso; [apply (Hno k 0); [apply aget_Some in Hk; lia|done..]|].
    destruct (Hno j Hj) as (n & Hn & ?). congruence. }
  cbv zeta. intros s1 fd fp lf' Hs1 Hg1 (Hu & Hfp & Hc0) Hrv (x1 & Hx1 & Hd1). rewrite (proj2 (Z.eqb_neq fp 0)) by lia.
  assert (Hfd : 0 ≤ fd < NOFILE) by (destruct Hu as (? & _); lia). pose proof (aget_Some _ _ _ Hc0) as Hcr.
  assert (Hn1 : aget (<[Z.to_nat (fp - 1) := 1]> c) (fp - 1) = Some 1) by (rewrite aget_insert by done; by rewrite decide_True).
  assert (Hofd : aget (<[Z.to_nat fd := fp]> o) fd = Some fp) by (rewrite aget_insert by lia; by rewrite decide_True).
  apply wp_bind. eapply wp_wrf_st; [exact Hs1|exact Hn1|done| |].
  { intros y Hy _ Hne. exfalso. apply Hne. rewrite Hx1 in Hy. by injection Hy as <-. }
  intros s2 x2 Hs2 Hx2 X2 R2. apply wp_bind. eapply wp_wrf_st; [exact Hs2|exact Hn1|done| |].
  { intros y Hy _ Hne. exfalso. apply Hne. rewrite X2 in Hy. injection Hy as <-. rewrite Hx1 in Hx2. by injection Hx2 as <-. }
  intros s3 x3 Hs3 _ _ R3. apply wp_bind, wp_gets.
  assert (Hrv3 : u_rval s3 = fd) by (injection R3 as -> _ _; injection R2 as -> _ _; done). rewrite Hrv3.
  apply wp_bind, wp_modify. apply wp_bind.
  eapply wp_mono; [apply Hvn; exact (proj2 Hs3)|]. cbv beta. intros [error ip] s4 (He & Hd4 & Hr4 & T4 & L4). cbn in He, Hr4. subst error.
  assert (Hs4 : st s4 (<[Z.to_nat (fp - 1) := 1]> c) (<[Z.to_nat fd := fp]> o) (<[Z.to_nat fd := 0]> po) (Z.max l fd) lf').
  { split; [|done]. rewrite T4. exact (proj1 Hs3). }
  pose proof Hg1 as (_ & _ & Ho1 & Hpo1 & _ & _ & Hv1). change (negb (ENODEV =? 0)) with true. cbv iota.
  set (tail := wrf fp (set_f_count 0);; _). unfold tail; clear tail.
  apply wp_bind. eapply (wp_mono _ (λ _ s5, st s5 (<[Z.to_nat (fp - 1) := 0]> (<[Z.to_nat (fp - 1) := 1]> c)) (<[Z.to_nat fd := fp]> o) (<[Z.to_nat fd := 0]> po) (Z.max l fd) lf' ∧ regs s5 = regs s4)).
  { apply wp_frame; [apply keeps_regs_wrf|]. eapply (wp_set_count _ _ _ _ _ _ fp 1 0); [exact Hs4|exact Hn1|done|]. auto. }
  intros _ s5 [Hs5 R5]. apply wp_bind, wp_gets. injection R5 as Hr5 _ Hd5. rewrite Hd5, Hd4.
  change ((ENODEV =? ENODEV) || (ENODEV =? ENXIO)) with true. rewrite (proj2 (Z.leb_le 0 dfd)) by done. cbn [andb].
  assert (Hlost : ∀ r, r ≠ 0 → wp ('(ok, error) ← mret (r =? 0, if r =? 0 then 1 else 0);
    if ok : bool then modify (set_u_rval fd);; mret 0 else wr_ofile fd 0;; mret error)
    (λ r s', r = 0 ∧ ufound o 0 (u_rval s') ∧ aget (u_ofile s') (u_rval s') = Some 0) s5).
  { intros r Hr. apply wp_bind, wp_ret. rewrite (proj2 (Z.eqb_neq r 0)) by done. apply wp_bind.
    eapply (wp_mono _ (λ _ s6, u_ofile s6 = <[Z.to_nat fd := 0]> (<[Z.to_nat fd := fp]> o) ∧ regs s6 = regs s5)).
    { apply wp_frame; [apply keeps_regs_wr_ofile|]. eapply wp_wr_ofile; [exact Hs5|lia|]. intros s6 [[= _ H6 _ _ _] _]. exact H6. }
    cbv beta. intros _ s6 [H6 R6]. injection R6 as Hr6 _ _. apply wp_ret. rewrite Hr6, Hr5, Hr4, Hrv3, H6. split_and!; [done|done|].
    rewrite aget_insert by lia. by rewrite decide_True. }
  apply wp_bind, wp_bind. eapply wp_dupfdopen; [exact Hs5|done|done|exact Hofd|done|done| | | |].
  - intros i v Hi. by apply (Hv1 i v).
  - intros w Hw Hwf. destruct (good_count _ _ _ _ _ _ w Hg1 Hw) as (n & Hn & _ & Hnr). exists n. split; [|done].
    rewrite aget_insert by (rewrite length_insert; done). rewrite decide_False by lia. done.
  - intros r Hr. apply wp_ret. exact (Hlost r Hr).
  - intros s6 w n po' Hw Hwf Hod. exfalso. rewrite aget_insert in Hod by lia. case_decide; [congruence|]. specialize (Hd w Hod). lia.
Qed.
End copen.

(** Sharing every open file with a child. *)
Lemma wp_fork_loop fuel s c o po l lf other n :
  st s c o po l lf → bal c o (λ x, other x + refs (take (Z.to_nat n) o) x) → zlen o = NOFILE → l < NOFILE →
  (∀ fp, 1 ≤ fp ≤ NFILE → 0 ≤ other fp < 2 ^ 31) → (∀ fd v, aget o fd = Some v → 0 ≤ v ≤ NFILE ∧ (v ≠ 0 → fd ≤ l)) →
  0 ≤ n → (Z.to_nat (l + 1 - n) < fuel)%nat →
  wp (fork_files fuel n) (λ _ s', ∃ c', st s' c' o po l lf ∧ bal c' o (λ x, other x + refs o x)) s.
Proof.
  clear dependent fo_close.
  revert s c n. induction fuel as [|fuel IH]; intros s c n Hst Hb Ho Hl Hot Hv Hn Hf; [lia|]. cbn [fork_files].
  apply wp_bind, wp_gets. assert (Hlf' : u_lastfile s = l) by (by destruct Hst as [[= _ _ _ -> _] _]). rewrite Hlf'.
  destruct (Z.leb_spec n l); cycle 1.
  { apply wp_ret. exists c. split; [done|]. eapply bal_ext; [exact Hb|]. intros x Hx. cbv beta. f_equal.
    rewrite <- (take_drop (Z.to_nat n) o) at 1. rewrite refs_app.
    enough (refs (drop (Z.to_nat n) o) x = 0) by lia.
    assert (Hz : ∀ q : list Z, (∀ y, y ∈ q → y = 0) → refs q x = 0).
    { induction q as [|y q IHq]; intros Hq; [done|]. simpl. rewrite (Hq y) by set_solver. rewrite (proj2 (Z.eqb_neq 0 x)) by lia.
      rewrite IHq by set_solver. done. }
    apply Hz. intros y [i Hi]%list_elem_of_lookup. rewrite lookup_drop in Hi.
    destruct (decide (y = 0)); [done|]. destruct (Hv (Z.of_nat (Z.to_nat n + i)) y) as [_ Hle]; [by rewrite aget_lookup|]. specialize (Hle ltac:(done)). lia. }
  destruct (aget_is_Some o n ltac:(lia)) as [fp Hfp]. apply wp_bind. eapply wp_rd_ofile; [done|exact Hfp|]. apply wp_bind.
  destruct (Hv n fp Hfp) as [Hfr _].
  assert (Htk : ∀ x, refs (take (Z.to_nat (n + 1)) o) x = refs (take (Z.to_nat n) o) x + b2z (fp =? x)).
  { intros x. replace (Z.to_nat (n + 1)) with (S (Z.to_nat n)) by lia. unfold aget in Hfp. rewrite Zle_imp_le_bool in Hfp by lia.
    rewrite (take_S_r _ _ fp) by done. rewrite refs_app. simpl. lia. }
  destruct (Z.eqb_spec fp 0) as [->|Hne].
  - apply wp_ret. apply (IH s c (n + 1)); try done; [|lia|lia]. eapply bal_ext; [exact Hb|]. intros x Hx. cbv beta. rewrite Htk.
    unfold b2z. rewrite (proj2 (Z.eqb_neq 0 x)) by lia. lia.
  - pose proof Hb as [Hc Hbc]. specialize (Hbc fp ltac:(lia)) as Hm. cbv beta in Hm.
    pose proof (refs_bounds o fp). pose proof (refs_bounds (take (Z.to_nat n) o) fp) as Hrt. rewrite length_take in Hrt. specialize (Hot fp ltac:(lia)) as Hof.
    eapply (wp_set_count _ _ _ _ _ _ fp _ (refs o fp + (other fp + refs (take (Z.to_nat n) o) fp) + 1)); [exact Hst|exact Hm| |].
    { intros y ->. rewrite u32_id; [done|]. unfold is_u32, NOFILE in *. lia. }
    intros s1 Hs1. apply (IH s1 _ (n + 1) Hs1); try done; [|lia|lia].
    eapply bal_ext; [eapply bal_count; [exact Hb|lia|exact Hm]|]. intros x Hx. cbv beta. rewrite Htk. unfold b2z.
    rewrite (Z.eqb_sym fp x). destruct (x =? fp); lia.
Qed.
End refcounts.

(** ** Advisory locks *)

Section locks.
Context {X : Type}.
Implicit Types (s : dst X) (x y : file).
Notation K := (M (dst X)).
Context (tsleep : Z → Z → K Z).

Definition holds_sh x : bool := Z.testbit (f_flag x) 4.
Definition holds_ex x : bool := Z.testbit (f_flag x) 5.

(** How many files of the table hold a lock of a kind on the inode. *)
Fixpoint holders (k : file → bool) (ip : Z) (l : list file) : Z :=
  match l with [] => 0 | x :: l' => b2z (k x && (f_data x =? ip)) + holders k ip l' end.

Lemma holders_app k ip l1 l2 : holders k ip (l1 ++ l2) = holders k ip l1 + holders k ip l2.
Proof. induction l1; simpl; lia. Qed.

Lemma holders_bounds k ip l : 0 ≤ holders k ip l ≤ zlen l.
Proof. induction l as [|x l IH]; simpl; [lia|]. unfold b2z. destruct (_ && _); lia. Qed.

Lemma holders_insert k ip l i x y :
  aget l i = Some x → holders k ip (<[Z.to_nat i := y]> l) =
    holders k ip l - b2z (k x && (f_data x =? ip)) + b2z (k y && (f_data y =? ip)).
Proof.
  intros (l1 & l2 & -> & ->)%aget_split. rewrite Nat2Z.id, insert_app_r_alt by lia. rewrite Nat.sub_diag.
  rewrite !holders_app. simpl. lia.
Qed.

Lemma holders_pos k ip l : 0 < holders k ip l → ∃ i x, aget l i = Some x ∧ k x = true ∧ f_data x = ip.
Proof.
  induction l as [|x l IH]; simpl; [lia|]. destruct (k x && (f_data x =? ip)) eqn:E; simpl; intros H.
  - to_prop. exists 0, x. done.
  - destruct (IH ltac:(lia)) as (i & y & Hy & ?). exists (i + 1), y. split; [|done]. pose proof (aget_Some _ _ _ Hy).
    unfold aget in *. rewrite Zle_imp_le_bool in Hy |- * by lia. replace (Z.to_nat (i + 1)) with (S (Z.to_nat i)) by lia. done.
Qed.

(** The inode counts its lock holders; its flags say whether there are any; an
    exclusive lock has one holder and excludes shared locks. *)
Definition lock_inv (l : list file) (i : inode) (ip : Z) : Prop :=
  let nsh := holders holds_sh ip l in let nex := holders holds_ex ip l in
  zlen l = NFILE ∧ i_shlockc i = nsh ∧ i_exlockc i = nex ∧
  Z.testbit (i_flag i) 7 = (0 <? nsh) ∧ Z.testbit (i_flag i) 8 = (0 <? nex) ∧ nex ≤ 1 ∧ (nex = 0 ∨ nsh = 0).

Definition clear_flag (f : Z) x : file := set_f_flag (Z.land (f_flag x) (Z.lnot f)) x.
Definition add_flag (f : Z) x : file := set_f_flag (Z.lor (f_flag x) f) x.

Lemma wp_wrf_lk s fp x g (Q : unit → dst X → Prop) :
  aget (files s) (fp - 1) = Some x →
  (∀ s', files s' = <[Z.to_nat (fp - 1) := g x]> (files s) → inodes s' = inodes s → Q tt s') → wp (wrf fp g) Q s.
Proof. intros Hx HQ. eapply wp_wrf; [exact Hx|]. by apply HQ. Qed.

Lemma wp_wri_lk s ip i g (Q : unit → dst X → Prop) :
  inodes s !! ip = Some i → (∀ s', files s' = files s → inodes s' !! ip = Some (g i) → Q tt s') → wp (wri ip g) Q s.
Proof. intros Hi HQ. eapply wp_store; [rewrite Hi; reflexivity|]. apply HQ; [done|]. cbn. by rewrite lookup_insert_eq. Qed.

(** Giving back one lock: the counter and, with the last one, the flag. *)
Lemma wp_unlock_lk s fp x ip i (upd clr : inode → inode) (cnt : inode → Z) fl (wake : bool) (Q : unit → dst X → Prop) :
  aget (files s) (fp - 1) = Some x → inodes s !! ip = Some i →
  (∀ s', files s' = <[Z.to_nat (fp - 1) := clear_flag fl x]> (files s) →
     inodes s' !! ip = Some (if cnt (upd i) =? 0 then clr (upd i) else upd i) → Q tt s') →
  wp (wri ip upd;; i ← rdi ip; when (cnt i =? 0) (wri ip clr;; when wake (wakeup ip));;
      wrf fp (λ x, set_f_flag (Z.land (f_flag x) (Z.lnot fl)) x)) Q s.
Proof.
  intros Hx Hi HQ. apply wp_bind. eapply wp_wri_lk; [exact Hi|]. intros s1 F1 I1.
  apply wp_bind. eapply wp_load; [exact I1|]. apply wp_bind.
  assert (Hfin : ∀ s2, files s2 = files s → inodes s2 !! ip = Some (if cnt (upd i) =? 0 then clr (upd i) else upd i) →
    wp (wrf fp (λ x, set_f_flag (Z.land (f_flag x) (Z.lnot fl)) x)) Q s2).
  { intros s2 F2 I2. eapply wp_wrf_lk; [by rewrite F2|]. intros s3 F3 I3. apply HQ; [by rewrite F3, F2|by rewrite I3]. }
  apply wp_when; intros E; rewrite E in Hfin; [|by apply Hfin].
  apply wp_bind. eapply wp_wri_lk; [exact I1|]. intros s2 F2 I2.
  apply wp_when; intros _; [apply wp_modify|]; apply Hfin; cbn; congruence.
Qed.

Lemma unlock_sh_inv l i ip fp x :
  lock_inv l i ip → aget l (fp - 1) = Some x → f_data x = ip → holds_sh x = true →
  let u := set_i_shlockc ((i_shlockc i - 1) `mod` 65536) i in
  lock_inv (<[Z.to_nat (fp - 1) := clear_flag FSHLOCK x]> l)
    (if i_shlockc u =? 0 then set_i_flag (Z.land (i_flag u) (Z.lnot ISHLOCK)) u else u) ip.
Proof.
  intros (HL & Hs & He & Hfs & Hfe & H1 & H2) Hx Hd Hh u. pose proof (holders_bounds holds_sh ip l) as Hb.
  assert (Hpos : 0 < holders holds_sh ip l).
  { destruct (aget_split _ _ _ Hx) as (l1 & l2 & -> & _). rewrite holders_app. simpl. rewrite Hh, Hd, Z.eqb_refl.
    pose proof (holders_bounds holds_sh ip l1). pose proof (holders_bounds holds_sh ip l2). simpl. lia. }
  assert (Hsh' : holds_sh (clear_flag FSHLOCK x) = false).
  { unfold holds_sh, clear_flag. cbn [f_flag set_f_flag]. rewrite Z.land_spec. change (Z.testbit (Z.lnot FSHLOCK) 4) with false. apply andb_false_r. }
  assert (Hex' : holds_ex (clear_flag FSHLOCK x) = holds_ex x).
  { unfold holds_ex, clear_flag. cbn [f_flag set_f_flag]. rewrite Z.land_spec. change (Z.testbit (Z.lnot FSHLOCK) 5) with true. apply andb_true_r. }
  assert (Hns : holders holds_sh ip (<[Z.to_nat (fp - 1) := clear_flag FSHLOCK x]> l) = holders holds_sh ip l - 1).
  { rewrite (holders_insert _ _ _ _ _ _ Hx), Hsh', Hh, Hd, Z.eqb_refl. simpl. lia. }
  assert (Hne : holders holds_ex ip (<[Z.to_nat (fp - 1) := clear_flag FSHLOCK x]> l) = holders holds_ex ip l).
  { rewrite (holders_insert _ _ _ _ _ _ Hx), Hex'. cbn. lia. }
  assert (Hu : i_shlockc u = holders holds_sh ip l - 1).
  { unfold u. cbn. rewrite Hs. apply Z.mod_small. unfold NFILE in *. lia. }
  unfold lock_inv. rewrite Hns, Hne, length_insert, Hu. split; [done|].
  destruct (Z.eqb_spec (holders holds_sh ip l - 1) 0) as [E|E]; cbn [i_shlockc i_exlockc i_flag set_i_flag].
  - split_and!; try done; try lia.
    + rewrite Z.land_spec. change (Z.testbit (Z.lnot ISHLOCK) 7) with false. rewrite andb_false_r. symmetry. apply Z.ltb_ge. lia.
    + rewrite Z.land_spec. change (Z.testbit (Z.lnot ISHLOCK) 8) with true. by rewrite andb_true_r.
  - split_and!; try done; try lia. change (i_flag u) with (i_flag i). rewrite Hfs. rewrite (proj2 (Z.ltb_lt _ _)) by done. symmetry. apply Z.ltb_lt. lia.
Qed.

Lemma unlock_ex_inv l i ip fp x :
  lock_inv l i ip → aget l (fp - 1) = Some x → f_data x = ip → holds_ex x = true →
  let u := set_i_exlockc ((i_exlockc i - 1) `mod` 65536) i in
  lock_inv (<[Z.to_nat (fp - 1) := clear_flag FEXLOCK x]> l)
    (if i_exlockc u =? 0 then set_i_flag (Z.land (i_flag u) (Z.lnot (Z.lor IEXLOCK ILWAIT))) u else u) ip ∧
  holders holds_ex ip (<[Z.to_nat (fp - 1) := clear_flag FEXLOCK x]> l) = 0 ∧
  holders holds_sh ip (<[Z.to_nat (fp - 1) := clear_flag FEXLOCK x]> l) = 0.
Proof.
  intros (HL & Hs & He & Hfs & Hfe & H1 & H2) Hx Hd Hh u. pose proof (holders_bounds holds_ex ip l) as Hb.
  assert (Hpos : 0 < holders holds_ex ip l).
  { destruct (aget_split _ _ _ Hx) as (l1 & l2 & -> & _). rewrite holders_app. simpl. rewrite Hh, Hd, Z.eqb_refl.
    pose proof (holders_bounds holds_ex ip l1). pose proof (holders_bounds holds_ex ip l2). simpl. lia. }
  assert (Hex' : holds_ex (clear_flag FEXLOCK x) = false).
  { unfold holds_ex, clear_flag. cbn [f_flag set_f_flag]. rewrite Z.land_spec. change (Z.testbit (Z.lnot FEXLOCK) 5) with false. apply andb_false_r. }
  assert (Hsh' : holds_sh (clear_flag FEXLOCK x) = holds_sh x).
  { unfold holds_sh, clear_flag. cbn [f_flag set_f_flag]. rewrite Z.land_spec. change (Z.testbit (Z.lnot FEXLOCK) 4) with true. apply andb_true_r. }
  assert (Hne : holders holds_ex ip (<[Z.to_nat (fp - 1) := clear_flag FEXLOCK x]> l) = 0).
  { rewrite (holders_insert _ _ _ _ _ _ Hx), Hex', Hh, Hd, Z.eqb_refl. simpl. lia. }
  assert (Hns : holders holds_sh ip (<[Z.to_nat (fp - 1) := clear_flag FEXLOCK x]> l) = 0).
  { rewrite (holders_insert _ _ _ _ _ _ Hx), Hsh'. cbn. lia. }
  assert (Hu : i_exlockc u = 0) by (unfold u; cbn; rewrite He; replace (holders holds_ex ip l) with 1 by lia; done).
  split; [|done]. unfold lock_inv. rewrite Hns, Hne, length_insert, Hu. cbn [Z.eqb i_shlockc i_exlockc i_flag set_i_flag].
  split_and!; try done; try lia; try (by left).
  - unfold u. cbn. lia.
  - rewrite Z.land_spec. change (Z.testbit (Z.lnot (Z.lor IEXLOCK ILWAIT)) 7) with true. rewrite andb_true_r. change (i_flag u) with (i_flag i). rewrite Hfs.
    apply Z.ltb_ge. lia.
  - rewrite Z.land_spec. change (Z.testbit (Z.lnot (Z.lor IEXLOCK ILWAIT)) 8) with false. by rewrite andb_false_r.
Qed.

Lemma wp_unlock_ex s fp x ip i (Q : unit → dst X → Prop) :
  aget (files s) (fp - 1) = Some x → f_data x = ip → ip ≠ 0 → inodes s !! ip = Some i → holds_ex x = true →
  let u := set_i_exlockc ((i_exlockc i - 1) `mod` 65536) i in
  (∀ s', files s' = <[Z.to_nat (fp - 1) := clear_flag FEXLOCK x]> (files s) →
     inodes s' !! ip = Some (if i_exlockc u =? 0 then set_i_flag (Z.land (i_flag u) (Z.lnot (Z.lor IEXLOCK ILWAIT))) u else u) → Q tt s') →
  wp (ino_unlock fp FEXLOCK) Q s.
Proof.
  intros Hx Hd Hip Hi Hh u HQ. unfold ino_unlock. apply wp_bind. eapply wp_rdf; [exact Hx|]. rewrite Hd, (proj2 (Z.eqb_neq ip 0)) by done.
  rewrite (Z.land_comm FEXLOCK). change FEXLOCK with (2 ^ 5). rewrite land_pow2 by done. unfold holds_ex in Hh. rewrite Hh. cbn [orb Z.eqb].
  apply wp_bind. eapply wp_load; [exact Hi|]. apply wp_bind, wp_ret.
  apply (wp_unlock_lk s fp x ip i _ _ i_exlockc (2 ^ 5) _ Q Hx Hi). exact HQ.
Qed.

Lemma wp_unlock_sh s fp x ip i (Q : unit → dst X → Prop) :
  aget (files s) (fp - 1) = Some x → f_data x = ip → ip ≠ 0 → inodes s !! ip = Some i → holds_sh x = true →
  let u := set_i_shlockc ((i_shlockc i - 1) `mod` 65536) i in
  (∀ s', files s' = <[Z.to_nat (fp - 1) := clear_flag FSHLOCK x]> (files s) →
     inodes s' !! ip = Some (if i_shlockc u =? 0 then set_i_flag (Z.land (i_flag u) (Z.lnot ISHLOCK)) u else u) → Q tt s') →
  wp (ino_unlock fp FSHLOCK) Q s.
Proof.
  intros Hx Hd Hip Hi Hh u HQ. unfold ino_unlock. apply wp_bind. eapply wp_rdf; [exact Hx|]. rewrite Hd, (proj2 (Z.eqb_neq ip 0)) by done.
  rewrite (Z.land_comm FSHLOCK). change FSHLOCK with (2 ^ 4). rewrite land_pow2 by done. unfold holds_sh in Hh. rewrite Hh. cbn [orb Z.eqb].
  apply wp_bind. eapply wp_load; [exact Hi|]. apply wp_bind.
  eapply (wp_unlock_lk s fp x ip i _ _ i_shlockc (2 ^ 4)); [exact Hx|exact Hi|]. intros s' F' I'. apply wp_ret. by apply HQ.
Qed.

(** The lock a command asks for, and the files in its way. *)
Definition wants_ex (cmd : Z) : bool := Z.testbit cmd 1.
Definition granted (cmd : Z) x : Prop := if wants_ex cmd then holds_ex x = true else holds_sh x = true.
Definition in_the_way (cmd ip fp : Z) (l : list file) : Prop :=
  ∃ j y, j ≠ fp - 1 ∧ aget l j = Some y ∧ f_data y = ip ∧ (holds_ex y = true ∨ (wants_ex cmd = true ∧ holds_sh y = true)).

Definition locked cmd ip fp (r : Z) s' : Prop :=
  ∃ i' x', inodes s' !! ip = Some i' ∧ lock_inv (files s') i' ip ∧ aget (files s') (fp - 1) = Some x' ∧ f_data x' = ip ∧
    ((r = 0 ∧ granted cmd x') ∨ (r = EWOULDBLOCK ∧ in_the_way cmd ip fp (files s'))).

Lemma holds_add_ex x : holds_ex (add_flag FEXLOCK x) = true ∧ holds_sh (add_flag FEXLOCK x) = holds_sh x.
Proof.
  unfold holds_ex, holds_sh, add_flag. cbn [f_flag set_f_flag]. rewrite !Z.lor_spec.
  change (Z.testbit FEXLOCK 5) with true. change (Z.testbit FEXLOCK 4) with false. by rewrite orb_true_r, orb_false_r.
Qed.

Lemma holds_add_sh x : holds_sh (add_flag FSHLOCK x) = true ∧ holds_ex (add_flag FSHLOCK x) = holds_ex x.
Proof.
  unfold holds_ex, holds_sh, add_flag. cbn [f_flag set_f_flag]. rewrite !Z.lor_spec.
  change (Z.testbit FSHLOCK 5) with false. change (Z.testbit FSHLOCK 4) with true. by rewrite orb_true_r, orb_false_r.
Qed.

Lemma not_holder k ip l i x : aget l i = Some x → f_data x = ip → holders k ip l = 0 → k x = false.
Proof.
  intros (l1 & l2 & -> & _)%aget_split Hd. rewrite holders_app. simpl. rewrite Hd, Z.eqb_refl, andb_true_r.
  pose proof (holders_bounds k ip l1). pose proof (holders_bounds k ip l2). destruct (k x); simpl; [lia|done].
Qed.

Lemma wp_grant_ex s fp x ip i cmd :
  lock_inv (files s) i ip → aget (files s) (fp - 1) = Some x → f_data x = ip → inodes s !! ip = Some i → wants_ex cmd = true →
  holders holds_ex ip (files s) = 0 → holders holds_sh ip (files s) = 0 →
  wp (ino_lock_grant fp ip cmd) (locked cmd ip fp) s.
Proof.
  intros (HL & Hs & He & Hfs & Hfe & H1 & H2) Hx Hd Hi Hcmd Hne Hns. unfold ino_lock_grant. unfold wants_ex in Hcmd.
  assert (Hc : (Z.land cmd LOCK_EX =? 0) = false) by (change LOCK_EX with (2 ^ 1); rewrite flag_test, Hcmd by done; done).
  rewrite Hc. pose proof (aget_Some _ _ _ Hx) as Hr.
  apply wp_bind, wp_bind. eapply wp_wri_lk; [exact Hi|]. intros s1 F1 I1. apply wp_bind. eapply wp_wri_lk; [exact I1|]. intros s2 F2 I2.
  eapply wp_wrf_lk; [by rewrite F2, F1|]. intros s3 F3 I3.
  assert (X3 : aget (files s3) (fp - 1) = Some (add_flag FEXLOCK x)).
  { rewrite F3, F2, F1, aget_insert by done. by rewrite decide_True. }
  apply wp_bind. eapply wp_rdf; [exact X3|].
  change LOCK_SH with (2 ^ 0). rewrite flag_test, Z.land_spec by done. change (Z.testbit (Z.lnot (2 ^ 0)) 0) with false.
  rewrite andb_false_r. cbn [negb andb when]. apply wp_bind, wp_ret, wp_ret. rewrite F2, F1 in F3. destruct (holds_add_ex x) as [Ha1 Ha2].
  eexists _, _. split; [by rewrite I3|]. split; [|split; [exact X3|split; [done|left; split; [done|]]]].
  2: { unfold granted, wants_ex. by rewrite Hcmd. }
  pose proof (not_holder _ _ _ _ _ Hx Hd Hne) as Hxe.
  unfold lock_inv. rewrite F3, length_insert. change (set_f_flag (Z.lor (f_flag x) FEXLOCK) x) with (add_flag FEXLOCK x).
  assert (holders holds_sh ip (<[Z.to_nat (fp - 1) := add_flag FEXLOCK x]> (files s)) = 0) as ->.
  { rewrite (holders_insert _ _ _ _ _ _ Hx), Ha2. cbn. lia. }
  assert (holders holds_ex ip (<[Z.to_nat (fp - 1) := add_flag FEXLOCK x]> (files s)) = 1) as ->.
  { rewrite (holders_insert _ _ _ _ _ _ Hx), Ha1, Hxe. cbn [andb f_data add_flag set_f_flag]. rewrite Hd, Z.eqb_refl. cbn. lia. }
  cbn [i_shlockc i_exlockc i_flag set_i_flag set_i_exlockc]. rewrite !Z.lor_spec, He, Hne, Hfs, Hns.
  change (Z.testbit IEXLOCK 7) with false. change (Z.testbit IEXLOCK 8) with true. rewrite orb_true_r. split_and!; try done; try lia; try (by right).
Qed.

Lemma wp_grant_sh s fp x ip i cmd :
  lock_inv (files s) i ip → aget (files s) (fp - 1) = Some x → f_data x = ip → inodes s !! ip = Some i →
  wants_ex cmd = false → Z.testbit cmd 0 = true → holders holds_ex ip (files s) = 0 →
  wp (ino_lock_grant fp ip cmd) (locked cmd ip fp) s.
Proof.
  intros HI Hx Hd Hi Hcmd Hsh Hne. pose proof HI as (HL & Hs & He & Hfs & Hfe & H1 & H2). unfold ino_lock_grant. unfold wants_ex in Hcmd.
  assert (Hc : (Z.land cmd LOCK_EX =? 0) = true) by (change LOCK_EX with (2 ^ 1); rewrite flag_test, Hcmd by done; done).
  rewrite Hc. pose proof (aget_Some _ _ _ Hx) as Hr. apply wp_bind, wp_ret. apply wp_bind. eapply wp_rdf; [exact Hx|].
  change LOCK_SH with (2 ^ 0). change FSHLOCK with (2 ^ 4). rewrite !flag_test, Hsh by done. fold (holds_sh x). cbn [negb andb].
  destruct (holds_sh x) eqn:Ex; cbn [negb when].
  { apply wp_bind, wp_ret, wp_ret. exists i, x. split_and!; try done. left. split; [done|]. unfold granted, wants_ex. by rewrite Hcmd. }
  apply wp_bind, wp_bind. eapply wp_wri_lk; [exact Hi|]. intros s1 F1 I1. apply wp_bind. eapply wp_wri_lk; [exact I1|]. intros s2 F2 I2.
  eapply wp_wrf_lk; [by rewrite F2, F1|]. intros s3 F3 I3. apply wp_ret. rewrite F2, F1 in F3. destruct (holds_add_sh x) as [Ha1 Ha2].
  assert (X3 : aget (files s3) (fp - 1) = Some (add_flag FSHLOCK x)).
  { rewrite F3, aget_insert by done. by rewrite decide_True. }
  eexists _, _. split; [by rewrite I3|]. split; [|split; [exact X3|split; [done|left; split; [done|]]]].
  2: { unfold granted, wants_ex. by rewrite Hcmd. }
  unfold lock_inv. rewrite F3, length_insert. change (set_f_flag (Z.lor (f_flag x) (2 ^ 4)) x) with (add_flag FSHLOCK x).
  assert (holders holds_ex ip (<[Z.to_nat (fp - 1) := add_flag FSHLOCK x]> (files s)) = 0) as ->.
  { rewrite (holders_insert _ _ _ _ _ _ Hx), Ha2. cbn. lia. }
  assert (holders holds_sh ip (<[Z.to_nat (fp - 1) := add_flag FSHLOCK x]> (files s)) = holders holds_sh ip (files s) + 1) as ->.
  { rewrite (holders_insert _ _ _ _ _ _ Hx), Ha1, Ex. cbn [andb f_data add_flag set_f_flag]. rewrite Hd, Z.eqb_refl. cbn. lia. }
  pose proof (holders_bounds holds_sh ip (files s)).
  cbn [i_shlockc i_exlockc i_flag set_i_flag set_i_shlockc]. rewrite !Z.lor_spec, He, Hs, Hne, Hfe, Hne.
  unfold NFILE in *.
  change (Z.testbit ISHLOCK 7) with true. change (Z.testbit ISHLOCK 8) with false. rewrite orb_true_r. split_and!; try done; try lia; try (by left).
  apply Z.mod_small. lia.
Qed.

Lemma way_other k cmd ip fp x l :
  0 < holders k ip l → (∀ y, k y = true → holds_ex y = true ∨ (wants_ex cmd = true ∧ holds_sh y = true)) →
  aget l (fp - 1) = Some x → k x = false → in_the_way cmd ip fp l.
Proof.
  intros (j & y & Hj & Hk & Hd)%holders_pos Hi Hx Hkx. exists j, y. split_and!; auto. intros ->. congruence.
Qed.

(** The second turn of the loop: the file holds no lock that has to go. *)
Lemma wp_lock_once fuel s fp x ip i cmd :
  lock_inv (files s) i ip → aget (files s) (fp - 1) = Some x → f_data x = ip → inodes s !! ip = Some i →
  Z.testbit cmd 2 = true → Z.testbit cmd 0 = true ∨ wants_ex cmd = true →
  holds_ex x = false → (wants_ex cmd = true → holds_sh x = false) →
  wp (ino_lock_loop tsleep (S fuel) fp ip cmd) (locked cmd ip fp) s.
Proof.
  intros HI Hx Hd Hi Hnb Hcmd Hxe Hxs. pose proof HI as (HL & Hs & He & Hfs & Hfe & H1 & H2). cbn [ino_lock_loop].
  pose proof (holders_bounds holds_ex ip (files s)). pose proof (holders_bounds holds_sh ip (files s)).
  apply wp_bind. eapply wp_load; [exact Hi|]. apply wp_bind. eapply wp_rdf; [exact Hx|].
  change IEXLOCK with (2 ^ 8). change FEXLOCK with (2 ^ 5). change LOCK_NB with (2 ^ 2). change LOCK_EX with (2 ^ 1). change ISHLOCK with (2 ^ 7).
  change FSHLOCK with (2 ^ 4). rewrite !flag_test, Hfe, Hfs, Hnb by done. fold (holds_ex x) (holds_sh x) (wants_ex cmd). rewrite Hxe, !negb_involutive.
  destruct (Z.ltb_spec 0 (holders holds_ex ip (files s))) as [Hpe|Hpe]; cbn [negb].
  { apply wp_ret. exists i, x. split_and!; try done. right. split; [done|]. by eapply (way_other holds_ex); auto. }
  destruct (wants_ex cmd) eqn:Ew; cbn [andb].
  - rewrite (Hxs eq_refl). destruct (Z.ltb_spec 0 (holders holds_sh ip (files s))) as [Hps|Hps]; cbn [negb].
    + apply wp_ret. exists i, x. split_and!; try done. right. split; [done|]. eapply (way_other holds_sh); [done|by auto|done|auto].
    + eapply wp_grant_ex; try done; lia.
  - eapply wp_grant_sh; try done; [by destruct Hcmd|lia].
Qed.

Lemma wp_lock_nb fuel s fp x ip i cmd :
  lock_inv (files s) i ip → aget (files s) (fp - 1) = Some x → f_data x = ip → ip ≠ 0 → inodes s !! ip = Some i →
  Z.testbit cmd 2 = true → Z.testbit cmd 0 = true ∨ wants_ex cmd = true →
  wp (ino_lock_loop tsleep (S (S fuel)) fp ip cmd) (locked cmd ip fp) s.
Proof.
  intros HI Hx Hd Hip Hi Hnb Hcmd. pose proof HI as (HL & Hs & He & Hfs & Hfe & H1 & H2).
  pose proof (aget_Some _ _ _ Hx) as Hr. remember (S fuel) as F eqn:HF.
  destruct (holds_ex x) eqn:Hxe.
  { cbn [ino_lock_loop]. apply wp_bind. eapply wp_load; [exact Hi|]. apply wp_bind. eapply wp_rdf; [exact Hx|].
    assert (Hpe : 0 < holders holds_ex ip (files s)).
    { destruct (decide (holders holds_ex ip (files s) = 0)) as [E|E].
      - rewrite (not_holder holds_ex ip _ _ _ Hx Hd E) in Hxe. done.
      - pose proof (holders_bounds holds_ex ip (files s)). lia. }
    assert ((Z.land (i_flag i) IEXLOCK =? 0) = false) as -> by (change IEXLOCK with (2 ^ 8); rewrite flag_test, Hfe, (proj2 (Z.ltb_lt _ _)) by done; done).
    assert ((Z.land (f_flag x) FEXLOCK =? 0) = false) as -> by (change FEXLOCK with (2 ^ 5); rewrite flag_test by done; unfold holds_ex in Hxe; by rewrite Hxe).
    cbn [negb]. apply wp_bind. eapply wp_unlock_ex; try done. intros s1 F1 I1.
    destruct (unlock_ex_inv _ _ _ _ _ HI Hx Hd Hxe) as (HI1 & Hn1 & Hn2). rewrite <- F1 in HI1, Hn1, Hn2.
    assert (X1 : aget (files s1) (fp - 1) = Some (clear_flag FEXLOCK x)) by (rewrite F1, aget_insert by done; by rewrite decide_True).
    rewrite HF. apply (wp_lock_once fuel s1 fp _ ip _ cmd HI1 X1 Hd I1 Hnb Hcmd); [exact (not_holder _ _ _ _ _ X1 Hd Hn1)|].
    intros _. exact (not_holder _ _ _ _ _ X1 Hd Hn2). }
  destruct (wants_ex cmd && holds_sh x) eqn:Hxs; cycle 1.
  { apply (wp_lock_once F s fp x ip i); try done. intros Hw. by rewrite Hw in Hxs. }
  to_prop. cbn [ino_lock_loop]. apply wp_bind. eapply wp_load; [exact Hi|]. apply wp_bind. eapply wp_rdf; [exact Hx|].
  assert (Hps : 0 < holders holds_sh ip (files s)).
  { destruct (decide (holders holds_sh ip (files s) = 0)) as [E|E].
    - rewrite (not_holder holds_sh ip _ _ _ Hx Hd E) in *. done.
    - pose proof (holders_bounds holds_sh ip (files s)). lia. }
  assert ((Z.land (i_flag i) IEXLOCK =? 0) = true) as -> by (change IEXLOCK with (2 ^ 8); rewrite flag_test, Hfe, (proj2 (Z.ltb_ge _ _)) by lia; done).
  assert ((Z.land (i_flag i) ISHLOCK =? 0) = false) as -> by (change ISHLOCK with (2 ^ 7); rewrite flag_test, Hfs, (proj2 (Z.ltb_lt _ _)) by done; done).
  assert ((Z.land cmd LOCK_EX =? 0) = false) as -> by (change LOCK_EX with (2 ^ 1); rewrite flag_test by done; unfold wants_ex in *; by rewrite H).
  assert ((Z.land (f_flag x) FSHLOCK =? 0) = false) as -> by (change FSHLOCK with (2 ^ 4); rewrite flag_test by done; unfold holds_sh in *; by rewrite H0).
  cbn [negb andb]. apply wp_bind. eapply wp_unlock_sh; try done. intros s1 F1 I1.
  pose proof (unlock_sh_inv _ _ _ _ _ HI Hx Hd H0) as HI1. cbv zeta in HI1. rewrite <- F1 in HI1.
  assert (X1 : aget (files s1) (fp - 1) = Some (clear_flag FSHLOCK x)) by (rewrite F1, aget_insert by done; by rewrite decide_True).
  rewrite HF. apply (wp_lock_once fuel s1 fp _ ip _ cmd HI1 X1 Hd I1 Hnb Hcmd).
  - unfold holds_ex, clear_flag in *. cbn [f_flag set_f_flag]. by rewrite Z.land_spec, Hxe.
  - intros _. unfold holds_sh, clear_flag. cbn [f_flag set_f_flag]. rewrite Z.land_spec. change (Z.testbit (Z.lnot FSHLOCK) 4) with false. apply andb_false_r.
Qed.
End locks.

(** ** Theorems *)

(** System calls on descriptors, in any order. *)
Inductive sysop :=
| SDup (i j : Z)
| SDup2 (i j : Z)
| SClose (i : Z)
| SDupfd (fd arg : Z)
| SOpen (mode cmode : Z)
| SExec.

Section run.
Context {X : Type}.
Notation K := (M (dst X)).
Context (fo_close : Z → Z → K Z) (fo_ioctl : Z → Z → Z → Z → K (Z * Z)).
Context (pfind_pgrp : Z → K (option Z)) (tsleep : Z → Z → K Z) (vn_open : Z → Z → K (Z * Z)).

Definition do_op (op : sysop) : K unit :=
  match op with
  | SDup i j => dup fo_close i j
  | SDup2 i j => dup2 fo_close i j
  | SClose i => close fo_close i
  | SDupfd fd arg => fcntl fo_ioctl pfind_pgrp fd F_DUPFD arg
  | SOpen mode cmode => e ← copen fo_close tsleep vn_open 2 mode cmode; err e
  | SExec => exec_close fo_close
  end.

Fixpoint do_ops (ops : list sysop) : K unit :=
  match ops with [] => mret tt | op :: ops => do_op op;; do_ops ops end.

(** Arguments are C integers; opens here do not ask for a lock. *)
Definition arg_ok (op : sysop) : Prop :=
  match op with
  | SDup i _ | SDup2 i _ | SClose i | SDupfd i _ => is_s32 i
  | SOpen mode _ => Z.land (FFLAGS mode) (Z.lor FEXLOCK FSHLOCK) = 0
  | SExec => True
  end.
End run.


(** Descriptors 0 and 2 share one file, which another process has open too. *)
Definition demo : dst unit :=
  DS (File 3 1 3 0 0 0 :: replicate 23 (File 0 0 0 0 0 0)) (1 :: 0 :: 1 :: replicate 27 0) (replicate 30 0)
     2 0 0 0 0 (<[7 := Inode 0 0 0]> ∅) [] tt.
Definition demo_other (fp : Z) : Z := if fp =? 1 then 1 else 0.

(** A boolean check of the invariant. *)
Definition inv_check {X} (other : Z → Z) (s : dst X) : bool :=
  forallb (λ x, Z.land (Z.lor FSHLOCK FEXLOCK) (f_flag x) =? 0) (files s) &&
  (zlen (files s) =? NFILE) && (zlen (u_ofile s) =? NOFILE) && (zlen (u_pofile s) =? NOFILE) &&
  (-1 <=? u_lastfile s) && (u_lastfile s <? NOFILE) && (0 <=? lastf s) && (lastf s <=? NFILE + 1) &&
  forallb (λ fp, match aget (files s) (fp - 1) with
                 | Some x => (f_count x =? refs (u_ofile s) fp + other fp) && (0 <=? other fp) && (other fp <? 2 ^ 31)
                 | None => false
                 end) (seqZ 1 24) &&
  forallb (λ fd, match aget (u_ofile s) fd with
                 | Some v => (0 <=? v) && (v <=? NFILE) && ((v =? 0) || (fd <=? u_lastfile s))
                 | None => false
                 end) (seqZ 0 30).

Lemma inv_check_sound {X} other (s : dst X) : inv_check other s = true → inv other s.
Proof.
  unfold inv_check. rewrite !andb_true_iff. intros (((((((((Hl & H1) & H2) & H3) & H4) & H5) & H6) & H7) & H8) & H9). to_prop.
  eexists _, _, _, _, _. split; [split; [reflexivity|]|].
  - intros i x (l1 & l2 & Hx & _)%aget_split Hf. exfalso. apply Hf. apply Z.eqb_eq.
    apply (forallb_elem (λ x, Z.land (Z.lor FSHLOCK FEXLOCK) (f_flag x) =? 0) _ _ Hl). rewrite Hx. set_solver.
  - split; [split|].
    + by rewrite length_fmap.
    + intros fp Hfp. apply (forallb_range _ _ _ fp) in H8; [|unfold NFILE in *; lia]. cbv beta in H8. rewrite aget_fmap.
      destruct (aget (files s) (fp - 1)) as [x|]; [|done]. to_prop. cbn. by f_equal.
    + split_and!; try done.
      * intros fp Hfp. apply (forallb_range _ _ _ fp) in H8; [|unfold NFILE in *; lia]. cbv beta in H8.
        destruct (aget (files s) (fp - 1)) as [x|]; [|done]. to_prop. done.
      * intros fd v Hv. pose proof (aget_Some _ _ _ Hv). apply (forallb_range _ _ _ fd) in H9; [|unfold NOFILE in *; lia].
        cbv beta in H9. rewrite Hv in H9. apply andb_true_iff in H9 as [H9 H9']. to_prop. split; [done|]. intros Hv0.
        apply orb_true_iff in H9' as [?|?]; to_prop; done.
Qed.

Lemma fd_demo_inv : inv demo_other demo.
Proof. apply inv_check_sound. vm_compute. reflexivity. Qed.


(** A child that inherits the descriptors of its parent and exits leaves
    every reference count as it was before the fork, with no descriptor open. *)
Theorem fork_exit_balance {X} fo_close other (s : dst X) :
  (∀ t fp s, locks_ok s → wp (fo_close t fp) (λ _ s', tables s' = tables s ∧ locks_ok s') s) →
  inv other s → (∀ fp, 1 ≤ fp ≤ NFILE → other fp + NOFILE < 2 ^ 31) →
  wp (fork_files lower_fuel 0;; exit_files fo_close lower_fuel 0)
     (λ _ s', f_count <$> files s' = f_count <$> files s ∧ ∀ fd v, aget (u_ofile s') fd = Some v → v = 0) s.
Proof.
  intros Hcl (c & o & po & l & lf & Hst & Hg) Hsm. pose proof Hg as (Hb & Hot & Ho & Hpo & Hl & Hlf & Hv).
  apply wp_bind. eapply wp_mono; [eapply (wp_fork_loop _ s c o po l lf other 0)|]; try done; [|lia|unfold lower_fuel; lia|].
  { eapply bal_ext; [exact Hb|]. intros. rewrite take_0. cbn [refs]. lia. }
  cbv beta. intros _ s1 (c1 & Hs1 & Hb1).
  assert (Hg1 : good (λ x, other x + refs o x) c1 o po l lf).
  { split; [done|]. split; [|done]. intros fp Hfp. specialize (Hot fp Hfp). specialize (Hsm fp Hfp). pose proof (refs_bounds o fp). unfold NOFILE in *. lia. }
  eapply wp_mono; [eapply (inv_exit_loop fo_close Hcl _ _ s1); [exact Hs1|exact Hg1|lia|unfold lower_fuel; lia|]|].
  { intros fd v ? [? _]%aget_Some. lia. }
  cbv beta. intros _ s2 (c2 & o2 & po2 & [Ht2 _] & ([Hc2 Hb2] & _) & Hz). unfold tables in Ht2. injection Ht2 as Hc2' Ho2 _ _ _.
  rewrite Hc2', Ho2. split; [|done]. destruct Hst as [Ht _]. injection Ht as -> _ _ _ _. destruct Hb as [Hcl' Hb].
  apply list_eq_same_length with (n := Z.to_nat NFILE); [lia|lia|]. intros i x y Hi Hx Hy.
  assert (Hr : 1 ≤ Z.of_nat i + 1 ≤ NFILE) by lia.
  specialize (Hb _ Hr). specialize (Hb2 _ Hr). replace (Z.of_nat i + 1 - 1) with (Z.of_nat i) in Hb, Hb2 by lia.
  rewrite aget_lookup in Hb, Hb2. rewrite Hb in Hy. rewrite Hb2 in Hx. injection Hx as <-. injection Hy as <-.
  enough (refs o2 (Z.of_nat i + 1) = 0) by lia.
  assert (Hz' : ∀ q : list Z, (∀ v, v ∈ q → v = 0) → refs q (Z.of_nat i + 1) = 0).
  { induction q as [|v q IHq]; intros Hq; [done|]. cbn [refs]. rewrite (Hq v) by set_solver. rewrite (proj2 (Z.eqb_neq 0 _)) by lia.
    rewrite IHq by set_solver. done. }
  apply Hz'. intros v [j Hj]%list_elem_of_lookup. apply (Hz (Z.of_nat j) v). by rewrite aget_lookup.
Qed.

Lemma fork_exit_balance_witness :
  wp (fork_files lower_fuel 0;; exit_files (λ _ _, mret 0) lower_fuel 0)
     (λ _ s', f_count <$> files s' = f_count <$> files demo ∧ ∀ fd v, aget (u_ofile s') fd = Some v → v = 0) demo.
Proof.
  apply (fork_exit_balance _ demo_other); [by intros; apply wp_ret|apply fd_demo_inv|].
  intros fp _. unfold demo_other, NOFILE. destruct (fp =? 1); lia.
Defined.

(** When opening [/dev/fd/N] fails because descriptor [N] is not open,
    [open] reports success: it returns 0 and a descriptor that is not open. *)
Theorem copen_dupfd_error_lost {X} fo_close tsleep vn_open other (s : dst X) fuel mode cmode dfd k j x :
  (∀ a b s, locks_ok s → wp (vn_open a b) (λ r s', r.1 = ENODEV ∧ u_dupfd s' = dfd ∧ u_rval s' = u_rval s ∧
     tables s' = tables s ∧ locks_ok s') s) →
  inv other s → aget (u_ofile s) k = Some 0 → aget (files s) j = Some x → f_count x = 0 →
  0 ≤ dfd → (∀ v, aget (u_ofile s) dfd = Some v → v = 0) →
  wp (copen fo_close tsleep vn_open fuel mode cmode)
     (λ r s', r = 0 ∧ ufound (u_ofile s) 0 (u_rval s') ∧ aget (u_ofile s') (u_rval s') = Some 0) s.
Proof.
  intros Hvn (c & o & po & l & lf & Hst & Hg) Hk Hj Hx Hd0 Hd.
  assert (Ho : u_ofile s = o) by (by destruct Hst as [[= _ -> _ _ _] _]). rewrite Ho in *.
  assert (Hc : f_count <$> files s = c) by (by destruct Hst as [[= -> _ _ _ _] _]).
  pose proof (aget_Some _ _ _ Hj) as Hjr. assert (Hlen : zlen (files s) = NFILE).
  { destruct Hg as ((Hl & _) & _). rewrite <- Hc, length_fmap in Hl. done. }
  eapply (copen_dupfd _ _ _ _ c o po l lf other _ _ _ dfd k (j + 1)); try done; [lia|].
  replace (j + 1 - 1) with j by lia. by rewrite <- Hc, aget_fmap, Hj, <- Hx.
Qed.

Lemma copen_dupfd_error_lost_witness :
  wp (copen (λ _ _, mret 0) (λ _ _, mret 0) (λ _ _, modify (set_u_dupfd 5);; mret (ENODEV, 0)) 2 0 0)
     (λ r s', r = 0 ∧ ufound (u_ofile demo) 0 (u_rval s') ∧ aget (u_ofile s') (u_rval s') = Some 0) demo.
Proof.
  apply (copen_dupfd_error_lost _ _ _ demo_other demo 2 0 0 5 1 3 (File 0 0 0 0 0 0)); try done; [apply fd_demo_inv|].
  intros v. vm_compute. congruence.
Defined.

(** C11: A non-blocking lock request ends at once: the lock is granted, or some
    other file holds a conflicting one and [EWOULDBLOCK] is returned.  The
    inode counts and flags its holders, there is never more than one exclusive
    holder, and never an exclusive and a shared one together. *)
Theorem ino_lock_excludes {X} tsleep (s : dst X) fuel fp x i cmd :
  lock_inv (files s) i (f_data x) → aget (files s) (fp - 1) = Some x → f_data x ≠ 0 → inodes s !! f_data x = Some i →
  Z.testbit cmd 2 = true → Z.testbit cmd 0 = true ∨ wants_ex cmd = true → (2 ≤ fuel)%nat →
  wp (ino_lock tsleep fuel fp cmd) (locked cmd (f_data x) fp) s.
Proof.
  intros HI Hx Hip Hi Hnb Hcmd Hf. unfold ino_lock. apply wp_bind. eapply wp_rdf; [exact Hx|].
  destruct fuel as [|[|fuel]]; [lia|lia|]. by eapply wp_lock_nb.
Qed.

Definition demo_locks : dst unit :=
  set_files (File 19 1 1 0 7 0 :: File 19 1 1 0 7 0 :: replicate 22 (File 0 0 0 0 0 0))
    (set_inodes (<[7 := Inode 128 2 0]> ∅) demo).

Lemma ino_lock_excludes_witness :
  wp (ino_lock (λ _ _, mret 0) 2 1 (Z.lor LOCK_EX LOCK_NB)) (locked (Z.lor LOCK_EX LOCK_NB) 7 1) demo_locks.
Proof.
  apply (ino_lock_excludes _ demo_locks 2 1 (File 19 1 1 0 7 0) (Inode 128 2 0)); try done; [|by right].
  vm_compute. repeat split; try done. by left.
Defined.

End Descrip.
