(* ===== verification/User.v ===== *)
(** * The user structure, user memory and the system state
    (sys/include/user.h, sys/include/resource.h, sys/include/time.h,
    sys/pic32/machdep.c, sys/pic32/machparam.h)

    System calls run against four parts of the state: the process table and
    its queues ([Sched.kst] over the callout queue), the part of the [user]
    structure of the running process that holds its identity, limits, timers
    and accounting, the clock, and memory as bytes.  This file holds the
    records, the access to memory through [copyin] and [copyout], and the
    profiling counter update [addupc], which goes around them. *)

From S2P Require Import Prelude Links Callout Sched.

Module User.

Definition EPERM : Z := 1.
Definition ESRCH : Z := 3.
Definition EACCES : Z := 13.
Definition EFAULT : Z := 14.
Definition EINVAL : Z := 22.
Definition EROFS : Z := 30.
Definition hz : Z := 200.
Definition usechz : Z := (1000000 + hz - 1) ÷ hz.
Definition NGROUPS : Z := 16.
Definition NOGROUP : Z := 65535.
Definition RLIM_NLIMITS : Z := 6.
Definition RLIM_INFINITY : Z := 0x7fffffff.

(** ** The records *)

Record timeval := TV { tv_sec : Z; tv_usec : Z }.
Record timezone := TZ { tz_minuteswest : Z; tz_dsttime : Z }.
Record k_itimerval := KI { it_interval : Z; it_value : Z }.
Record rlimit := RL { rlim_cur : Z; rlim_max : Z }.
Record uprof := UP { pr_base : Z; pr_size : Z; pr_off : Z; pr_scale : Z }.

Record k_rusage := KR {
  ru_utime : Z;
  ru_stime : Z;
  ru_nswap : Z;
  ru_inblock : Z;
  ru_oublock : Z;
  ru_msgsnd : Z;
  ru_msgrcv : Z;
  ru_nsignals : Z;
  ru_nvcsw : Z;
  ru_nivcsw : Z
}.

(** The context switches counted by [sleep] and [swtch] are [Sched.ru_nvcsw];
    the component of [u_ru] here is the count up to the last exchange. *)
Record user := U {
  u_uid : Z;
  u_svuid : Z;
  u_ruid : Z;
  u_svgid : Z;
  u_rgid : Z;
  u_groups : list Z;
  u_rval : Z;
  u_ru : k_rusage;
  u_cru : k_rusage;
  u_timer : list k_itimerval;
  u_rlimit : list rlimit;
  u_prof : uprof
}.

Record clock := Clk {
  time : timeval;
  boottime : timeval;
  tz : timezone;
  adjdelta : Z;
  lbolt : Z;
  cp_time : list Z
}.

Record sys := Sys {
  kern : Sched.kst Callout.cost;
  usr : user;
  clk : clock;
  mem : gmap Z Z
}.

Notation K := (M sys).

Definition set_kern (v : Sched.kst Callout.cost) (s : sys) : sys := Sys v (usr s) (clk s) (mem s).
Definition set_usr (v : user) (s : sys) : sys := Sys (kern s) v (clk s) (mem s).
Definition set_clk (v : clock) (s : sys) : sys := Sys (kern s) (usr s) v (mem s).
Definition set_mem (v : gmap Z Z) (s : sys) : sys := Sys (kern s) (usr s) (clk s) v.

Definition set_u_uid (v : Z) (x : user) : user :=
  U v (u_svuid x) (u_ruid x) (u_svgid x) (u_rgid x) (u_groups x) (u_rval x) (u_ru x) (u_cru x) (u_timer x) (u_rlimit x) (u_prof x).
Definition set_u_svuid (v : Z) (x : user) : user :=
  U (u_uid x) v (u_ruid x) (u_svgid x) (u_rgid x) (u_groups x) (u_rval x) (u_ru x) (u_cru x) (u_timer x) (u_rlimit x) (u_prof x).
Definition set_u_ruid (v : Z) (x : user) : user :=
  U (u_uid x) (u_svuid x) v (u_svgid x) (u_rgid x) (u_groups x) (u_rval x) (u_ru x) (u_cru x) (u_timer x) (u_rlimit x) (u_prof x).
Definition set_u_svgid (v : Z) (x : user) : user :=
  U (u_uid x) (u_svuid x) (u_ruid x) v (u_rgid x) (u_groups x) (u_rval x) (u_ru x) (u_cru x) (u_timer x) (u_rlimit x) (u_prof x).
Definition set_u_rgid (v : Z) (x : user) : user :=
  U (u_uid x) (u_svuid x) (u_ruid x) (u_svgid x) v (u_groups x) (u_rval x) (u_ru x) (u_cru x) (u_timer x) (u_rlimit x) (u_prof x).
Definition set_u_groups (v : list Z) (x : user) : user :=
  U (u_uid x) (u_svuid x) (u_ruid x) (u_svgid x) (u_rgid x) v (u_rval x) (u_ru x) (u_cru x) (u_timer x) (u_rlimit x) (u_prof x).
Definition set_u_rval (v : Z) (x : user) : user :=
  U (u_uid x) (u_svuid x) (u_ruid x) (u_svgid x) (u_rgid x) (u_groups x) v (u_ru x) (u_cru x) (u_timer x) (u_rlimit x) (u_prof x).
Definition set_u_ru (v : k_rusage) (x : user) : user :=
  U (u_uid x) (u_svuid x) (u_ruid x) (u_svgid x) (u_rgid x) (u_groups x) (u_rval x) v (u_cru x) (u_timer x) (u_rlimit x) (u_prof x).
Definition set_u_timer (v : list k_itimerval) (x : user) : user :=
  U (u_uid x) (u_svuid x) (u_ruid x) (u_svgid x) (u_rgid x) (u_groups x) (u_rval x) (u_ru x) (u_cru x) v (u_rlimit x) (u_prof x).
Definition set_u_rlimit (v : list rlimit) (x : user) : user :=
  U (u_uid x) (u_svuid x) (u_ruid x) (u_svgid x) (u_rgid x) (u_groups x) (u_rval x) (u_ru x) (u_cru x) (u_timer x) v (u_prof x).
Definition set_u_prof (v : uprof) (x : user) : user :=
  U (u_uid x) (u_svuid x) (u_ruid x) (u_svgid x) (u_rgid x) (u_groups x) (u_rval x) (u_ru x) (u_cru x) (u_timer x) (u_rlimit x) v.

Definition set_time (v : timeval) (x : clock) : clock := Clk v (boottime x) (tz x) (adjdelta x) (lbolt x) (cp_time x).
Definition set_boottime (v : timeval) (x : clock) : clock := Clk (time x) v (tz x) (adjdelta x) (lbolt x) (cp_time x).
Definition set_tz (v : timezone) (x : clock) : clock := Clk (time x) (boottime x) v (adjdelta x) (lbolt x) (cp_time x).
Definition set_adjdelta (v : Z) (x : clock) : clock := Clk (time x) (boottime x) (tz x) v (lbolt x) (cp_time x).
Definition set_lbolt (v : Z) (x : clock) : clock := Clk (time x) (boottime x) (tz x) (adjdelta x) v (cp_time x).
Definition set_cp_time (v : list Z) (x : clock) : clock := Clk (time x) (boottime x) (tz x) (adjdelta x) (lbolt x) v.

Definition set_ru_utime (v : Z) (x : k_rusage) : k_rusage :=
  KR v (ru_stime x) (ru_nswap x) (ru_inblock x) (ru_oublock x) (ru_msgsnd x) (ru_msgrcv x) (ru_nsignals x) (ru_nvcsw x) (ru_nivcsw x).
Definition set_ru_stime (v : Z) (x : k_rusage) : k_rusage :=
  KR (ru_utime x) v (ru_nswap x) (ru_inblock x) (ru_oublock x) (ru_msgsnd x) (ru_msgrcv x) (ru_nsignals x) (ru_nvcsw x) (ru_nivcsw x).
Definition set_ru_nvcsw (v : Z) (x : k_rusage) : k_rusage :=
  KR (ru_utime x) (ru_stime x) (ru_nswap x) (ru_inblock x) (ru_oublock x) (ru_msgsnd x) (ru_msgrcv x) (ru_nsignals x) v (ru_nivcsw x).

Definition set_p_uid (v : Z) (p : Sched.proc) : Sched.proc :=
  Sched.Proc (Sched.p_nxt p) (Sched.p_pptr p) (Sched.p_flag p) v (Sched.p_pid p) (Sched.p_ppid p) (Sched.p_stat p) (Sched.p_pri p) (Sched.p_cpu p) (Sched.p_time p) (Sched.p_nice p) (Sched.p_slptime p) (Sched.p_hash p) (Sched.p_link p) (Sched.p_addr p) (Sched.p_wchan p) (Sched.p_rtval p) (Sched.p_rtint p) (Sched.p_pgrp p) (Sched.p_sig p) (Sched.p_sigmask p) (Sched.p_sigignore p) (Sched.p_sigcatch p) (Sched.p_ptracesig p).
Definition set_p_rtint (v : Z) (p : Sched.proc) : Sched.proc :=
  Sched.Proc (Sched.p_nxt p) (Sched.p_pptr p) (Sched.p_flag p) (Sched.p_uid p) (Sched.p_pid p) (Sched.p_ppid p) (Sched.p_stat p) (Sched.p_pri p) (Sched.p_cpu p) (Sched.p_time p) (Sched.p_nice p) (Sched.p_slptime p) (Sched.p_hash p) (Sched.p_link p) (Sched.p_addr p) (Sched.p_wchan p) (Sched.p_rtval p) v (Sched.p_pgrp p) (Sched.p_sig p) (Sched.p_sigmask p) (Sched.p_sigignore p) (Sched.p_sigcatch p) (Sched.p_ptracesig p).
Definition set_p_pgrp (v : Z) (p : Sched.proc) : Sched.proc :=
  Sched.Proc (Sched.p_nxt p) (Sched.p_pptr p) (Sched.p_flag p) (Sched.p_uid p) (Sched.p_pid p) (Sched.p_ppid p) (Sched.p_stat p) (Sched.p_pri p) (Sched.p_cpu p) (Sched.p_time p) (Sched.p_nice p) (Sched.p_slptime p) (Sched.p_hash p) (Sched.p_link p) (Sched.p_addr p) (Sched.p_wchan p) (Sched.p_rtval p) (Sched.p_rtint p) v (Sched.p_sig p) (Sched.p_sigmask p) (Sched.p_sigignore p) (Sched.p_sigcatch p) (Sched.p_ptracesig p).

(** ** Access to the parts *)

Definition on_kern {A} (m : M (Sched.kst Callout.cost) A) : K A := λ s,
  match m (kern s) with
  | Ret a k => Ret a (set_kern k s)
  | Panic msg k => Panic msg (set_kern k s)
  | Fault => Fault
  | NoFuel => NoFuel
  end.

Definition upd_usr (f : user → user) : K unit := modify (λ s, set_usr (f (usr s)) s).
Definition upd_clk (f : clock → clock) : K unit := modify (λ s, set_clk (f (clk s)) s).
Definition rdp (p : Z) : K Sched.proc := on_kern (Sched.rdp p).
Definition wrp (p : Z) (f : Sched.proc → Sched.proc) : K unit := on_kern (Sched.wrp p f).
Definition u_procp : K Z := gets (λ s, Sched.u_procp (kern s)).
Definition u_error : K Z := gets (λ s, Sched.u_error (kern s)).
Definition err (e : Z) : K unit := on_kern (modify (Sched.set_u_error e)).
Definition psignal (p sig : Z) : K unit := on_kern (Sched.psignal p sig).

(** [if (u.u_error) return;] *)
Definition unless_error (k : K unit) : K unit := e ← u_error; when (e =? 0) k.

(** ** Memory *)

Definition ldb (m : gmap Z Z) (a : Z) : Z := default 0 (m !! a).
Definition ld32 (m : gmap Z Z) (a : Z) : Z :=
  s32 (ldb m a + 256 * ldb m (a + 1) + 65536 * ldb m (a + 2) + 16777216 * ldb m (a + 3)).
Definition st32 (m : gmap Z Z) (a v : Z) : gmap Z Z :=
  <[a := v `mod` 256]> (<[a + 1 := v `div` 256 `mod` 256]>
    (<[a + 2 := v `div` 65536 `mod` 256]> (<[a + 3 := v `div` 16777216 `mod` 256]> m))).

(** [n] consecutive 32-bit words, the layout of every structure copied here. *)
Fixpoint get (m : gmap Z Z) (a : Z) (n : nat) : list Z :=
  match n with O => [] | S n' => ld32 m a :: get m (a + 4) n' end.
Fixpoint put (m : gmap Z Z) (a : Z) (ws : list Z) : gmap Z Z :=
  match ws with [] => m | w :: ws' => st32 (put m (a + 4) ws') a w end.

Definition USER_FLASH_START : Z := 0x9d000000 + 192 * 1024.
Definition USER_FLASH_END : Z := 0x9d000000 + 512 * 1024.
Definition KERNEL_DATA_START : Z := 0x80000000.
Definition KERNEL_DATA_END : Z := 0x80000000 + 32 * 1024.
Definition USER_DATA_START : Z := 0x7f000000 + 32 * 1024.
Definition USER_DATA_END : Z := 0x7f000000 + 128 * 1024.

Definition baduaddr (addr : Z) : bool :=
  if (USER_FLASH_START <=? addr) && (addr <? USER_FLASH_END) then false
  else if (USER_DATA_START <=? addr) && (addr <? USER_DATA_END) then false
  else true.

(** The structures are given as their words; the result is the error code. *)
Definition copyout (ws : list Z) (dst : Z) : K Z :=
  if baduaddr dst || baduaddr (u32 (dst + 4 * Z.of_nat (length ws) - 1)) then mret EFAULT
  else modify (λ s, set_mem (put (mem s) dst ws) s);; mret 0.

Definition copyin (src : Z) (n : nat) : K (Z * list Z) :=
  if baduaddr src || baduaddr (u32 (src + 4 * Z.of_nat n - 1)) then mret (EFAULT, [])
  else gets (λ s, (0, get (mem s) src n)).

(** Increment user profiling counters. *)
Definition addupc (pc : Z) (pbuf : uprof) (ticks : Z) : K unit :=
  if pc <? pr_off pbuf then mret tt
  else
    let indx := u32 (pc - pr_off pbuf) in
    let indx := Z.shiftr (u32 (indx * pr_scale pbuf)) 16 in
    if pr_size pbuf <=? indx then mret tt
    else
      let a := u32 (pr_base pbuf + 4 * indx) in
      modify (λ s, set_mem (st32 (mem s) a (ld32 (mem s) a + ticks)) s).

(** Test if the current user is the super user. *)
Definition suser : K bool :=
  uid ← gets (λ s, u_uid (usr s));
  if uid =? 0 then mret true
  else err EPERM;; mret false.

(** ** Words in memory *)

(** Drop the wrap-around of the sums that linear facts show to be in range. *)
Ltac s32s :=
  repeat match goal with
  | H : context [s32 ?x] |- _ => rewrite (s32_id x) in H by (unfold is_s32; lia)
  | |- context [s32 ?x] => rewrite (s32_id x) by (unfold is_s32; lia)
  end.

Lemma ldb_st32_ne m a v b : b < a ∨ a + 4 ≤ b → ldb (st32 m a v) b = ldb m b.
Proof. intros. unfold ldb, st32. by rewrite !lookup_insert_ne by lia. Qed.

Lemma ld32_st32_ne m a v b : b + 4 ≤ a ∨ a + 4 ≤ b → ld32 (st32 m a v) b = ld32 m b.
Proof. intros. unfold ld32. by rewrite !ldb_st32_ne by lia. Qed.

Lemma s32_u32 x : s32 (u32 x) = s32 x.
Proof. unfold s32, u32. by rewrite Zplus_mod_idemp_l. Qed.

Lemma bytes_of_word v :
  v `mod` 256 + 256 * (v `div` 256 `mod` 256) + 65536 * (v `div` 65536 `mod` 256) +
  16777216 * (v `div` 16777216 `mod` 256) = u32 v.
Proof.
  unfold u32. change (2 ^ 32) with 4294967296.
  replace 65536 with (256 * 256) by lia. replace 16777216 with (256 * 256 * 256) by lia.
  replace 4294967296 with (256 * 256 * 256 * 256) by lia.
  rewrite <- !Z.div_div by lia. Z.to_euclidean_division_equations. lia.
Qed.

Lemma ld32_st32 m a v : ld32 (st32 m a v) a = s32 v.
Proof.
  unfold ld32, ldb, st32. rewrite lookup_insert_eq.
  rewrite !(lookup_insert_ne _ a) by lia. rewrite lookup_insert_eq.
  rewrite !(lookup_insert_ne _ (a + 1)) by lia. rewrite lookup_insert_eq.
  rewrite !(lookup_insert_ne _ (a + 2)) by lia. rewrite lookup_insert_eq.
  cbn [default from_option id]. by rewrite bytes_of_word, s32_u32.
Qed.

Lemma get_st32 m a v b n : a + 4 ≤ b → get (st32 m a v) b n = get m b n.
Proof.
  revert b. induction n as [|n IH]; intros b Hb; [done|]. cbn [get].
  rewrite ld32_st32_ne by lia. f_equal. apply IH. lia.
Qed.

(** What [copyout] stores, [copyin] loads. *)
Lemma get_put m a ws : get (put m a ws) a (length ws) = s32 <$> ws.
Proof.
  revert a. induction ws as [|w ws IH]; intros a; [done|]. cbn [put length get fmap list_fmap].
  rewrite ld32_st32, get_st32 by lia. f_equal. apply IH.
Qed.

Lemma get_length m a n : length (get m a n) = n.
Proof. revert a. induction n; intros; [done|]. cbn [get length]. by f_equal. Qed.

Lemma get_s32 m a n : Forall is_s32 (get m a n).
Proof. revert a. induction n; intros; cbn [get]; constructor; [apply s32_range|done]. Qed.

(** ** Rules for the parts *)

Lemma wp_on_kern {A} (m : M (Sched.kst Callout.cost) A) Q s :
  wp m (λ a k, Q a (set_kern k s)) (kern s) → wp (on_kern m) Q s.
Proof.
  rewrite !wp_run. intros (a & k & Hm & HQ). exists a, (set_kern k s). split; [|done].
  unfold on_kern. by rewrite Hm.
Qed.

Lemma wp_upd_usr f (Q : unit → sys → Prop) s : Q tt (set_usr (f (usr s)) s) → wp (upd_usr f) Q s.
Proof. done. Qed.

Lemma wp_upd_clk f (Q : unit → sys → Prop) s : Q tt (set_clk (f (clk s)) s) → wp (upd_clk f) Q s.
Proof. done. Qed.

Lemma wp_err e (Q : unit → sys → Prop) s :
  Q tt (set_kern (Sched.set_u_error e (kern s)) s) → wp (err e) Q s.
Proof. intros. by apply wp_on_kern, wp_modify. Qed.

Lemma wp_psignal p sig (Q : unit → sys → Prop) s :
  Q tt (set_kern (Sched.set_sigs (Sched.sigs (kern s) ++ [(p, sig)]) (kern s)) s) → wp (psignal p sig) Q s.
Proof. intros. by apply wp_on_kern, wp_modify. Qed.

Lemma wp_u_rdp p pr (Q : Sched.proc → sys → Prop) s :
  Sched.procs (kern s) !! p = Some pr → Q pr s → wp (rdp p) Q s.
Proof. intros Hp HQ. apply wp_on_kern. eapply wp_load; [exact Hp|]. by destruct s. Qed.

Lemma wp_u_wrp p f pr (Q : unit → sys → Prop) s :
  Sched.procs (kern s) !! p = Some pr →
  Q tt (set_kern (Sched.set_procs (<[p := f pr]> (Sched.procs (kern s))) (kern s)) s) → wp (wrp p f) Q s.
Proof.
  intros Hp HQ. apply wp_on_kern. eapply wp_store; [by rewrite Hp|]. done.
Qed.

Lemma wp_suser Q s :
  Q (u_uid (usr s) =? 0) (if u_uid (usr s) =? 0 then s else set_kern (Sched.set_u_error EPERM (kern s)) s) →
  wp suser Q s.
Proof.
  intros HQ. unfold suser. apply wp_bind, wp_gets. destruct (u_uid (usr s) =? 0); [by apply wp_ret|].
  apply wp_bind, wp_err, wp_ret. done.
Qed.

Lemma wp_copyout ws dst (Q : Z → sys → Prop) s :
  (baduaddr dst || baduaddr (u32 (dst + 4 * Z.of_nat (length ws) - 1)) = true → Q EFAULT s) →
  (baduaddr dst || baduaddr (u32 (dst + 4 * Z.of_nat (length ws) - 1)) = false →
     Q 0 (set_mem (put (mem s) dst ws) s)) →
  wp (copyout ws dst) Q s.
Proof.
  intros H1 H2. unfold copyout. destruct (_ || _); [by apply wp_ret, H1|].
  apply wp_bind, wp_modify, wp_ret. by apply H2.
Qed.

Lemma wp_copyin src n (Q : Z * list Z → sys → Prop) s :
  (baduaddr src || baduaddr (u32 (src + 4 * Z.of_nat n - 1)) = true → Q (EFAULT, []) s) →
  (baduaddr src || baduaddr (u32 (src + 4 * Z.of_nat n - 1)) = false → Q (0, get (mem s) src n) s) →
  wp (copyin src n) Q s.
Proof. intros H1 H2. unfold copyin. destruct (_ || _); [by apply wp_ret, H1|]. apply wp_gets. by apply H2. Qed.

End User.
