(* ===== verification/Clock.v ===== *)
(** * The clock, time of day and interval timers
    (sys/kernel/kern_clock.c, sys/kernel/kern_time.c)

    [hardclock] is the whole handler of a clock interrupt: it drives the
    callout queue of [Callout], charges the tick to the running process,
    counts it by processor state, advances the time of day and calls
    [softclock], which runs the calls that are due.  The called functions are
    a parameter.  The time of day is [time.tv_sec] seconds and [lbolt] ticks. *)

From S2P Require Import Prelude Links Callout Sched User.

Module Clock.
Import User.

Definition ST_UM : Z := 16.
Definition CPUSTATES : Z := 4.
Definition CP_USER : Z := 0.
Definition CP_NICE : Z := 1.
Definition CP_SYS : Z := 2.
Definition CP_IDLE : Z := 3.
Definition NZERO : Z := 0.
Definition ITIMER_REAL : Z := 0.
Definition ITIMER_VIRTUAL : Z := 1.
Definition ITIMER_PROF : Z := 2.
Definition RLIMIT_CPU : Z := 0.
Definition SIGXCPU : Z := 24.
Definition SIGVTALRM : Z := 26.
Definition SIGPROF : Z := 27.

Definition USERMODE (ps : Z) : bool := negb (Z.land ps ST_UM =? 0).
Definition BASEPRI (ps : Z) : bool := Z.land (Z.shiftr ps 10) 63 =? 0.

(** ** kern_clock.c *)

(** Gather statistics on resource utilization. *)
Definition gatherstats (ps : Z) : K unit :=
  p ← u_procp;
  cpstate ← (if USERMODE ps then
               pr ← rdp p;
               mret (if NZERO <? Sched.p_nice pr then CP_NICE else CP_USER)
             else
               np ← gets (λ s, Sched.noproc (kern s));
               mret (if np && BASEPRI ps then CP_IDLE else CP_SYS));
  store (λ s, v ← aget (cp_time (clk s)) cpstate;
              l ← aset (cp_time (clk s)) cpstate (s32 (v + 1));
              Some (set_clk (set_cp_time l (clk s)) s)).

(** [if (t->it_value && !--t->it_value) { psignal(p, sig); t->it_value = t->it_interval; }] *)
Definition set_timer (i : Z) (t : k_itimerval) : K unit :=
  store (λ s, l ← aset (u_timer (usr s)) i t; Some (set_usr (set_u_timer l (usr s)) s)).

Definition itimer_tick (i p sig : Z) : K unit :=
  t ← load (λ s, aget (u_timer (usr s)) i);
  when (negb (it_value t =? 0))
    (let v := s32 (it_value t - 1) in
     set_timer i (KI (it_interval t) v);;
     when (v =? 0)
       (psignal p sig;;
        set_timer i (KI (it_interval t) (it_interval t)))).

(** Charge the tick to the running process. *)
Definition hardclock_charge : K unit :=
  p ← u_procp;
  wrp p (λ pr, Sched.set_p_cpu (s8 (Sched.p_cpu pr + 1)) pr);;
  pr ← rdp p;
  when (Sched.p_cpu pr =? 0) (wrp p (λ pr, Sched.set_p_cpu (s8 (Sched.p_cpu pr - 1)) pr));;
  ru ← gets (λ s, u_ru (usr s));
  lim ← load (λ s, aget (u_rlimit (usr s)) RLIMIT_CPU);
  when (rlim_cur lim <? s32 (s32 (ru_utime ru + ru_stime ru) + 1))
    (psignal p SIGXCPU;;
     when (rlim_cur lim <? rlim_max lim)
       (store (λ s, l ← aset (u_rlimit (usr s)) RLIMIT_CPU (RL (s32 (rlim_cur lim + 5 * hz)) (rlim_max lim));
                    Some (set_usr (set_u_rlimit l (usr s)) s))));;
  itimer_tick (ITIMER_PROF - 1) p SIGPROF.

(** Advance the time of day. *)
Definition hardclock_time : K unit :=
  d ← gets (λ s, adjdelta (clk s));
  when (negb (d =? 0))
    (if 0 <? d then
       upd_clk (λ c, set_lbolt (s32 (lbolt c + 1)) c);;
       upd_clk (λ c, set_adjdelta (s32 (adjdelta c - 1)) c)
     else
       upd_clk (λ c, set_lbolt (s32 (lbolt c - 1)) c);;
       upd_clk (λ c, set_adjdelta (s32 (adjdelta c + 1)) c));;
  upd_clk (λ c, set_lbolt (s32 (lbolt c + 1)) c);;
  l ← gets (λ s, lbolt (clk s));
  when (hz <=? l)
    (upd_clk (λ c, set_lbolt (s32 (lbolt c - hz)) c);;
     upd_clk (λ c, set_time (TV (s32 (tv_sec (time c) + 1)) (tv_usec (time c))) c)).

Definition on_co {A} (m : M Callout.cost A) : K A := on_kern (Sched.on_co m).

(** The handler up to the call of [softclock]; returns [needsoft]. *)
Definition hardclock_front (ps : Z) : K bool :=
  h ← on_co (Callout.rd Callout.CALLTODO);
  sz ← gets (λ s, size (Callout.nodes (Sched.co (kern s))));
  needsoft ← on_co (Callout.hardclock_callouts (S sz) (Callout.c_next h) false);
  p ← u_procp;
  needsoft ←
    (if USERMODE ps then
       prof ← gets (λ s, u_prof (usr s));
       upd_usr (λ u, set_u_ru (set_ru_utime (s32 (ru_utime (u_ru u) + 1)) (u_ru u)) u);;
       itimer_tick (ITIMER_VIRTUAL - 1) p SIGVTALRM;;
       mret (needsoft || negb (pr_scale prof =? 0))
     else
       np ← gets (λ s, Sched.noproc (kern s));
       when (negb np)
         (upd_usr (λ u, set_u_ru (set_ru_stime (s32 (ru_stime (u_ru u) + 1)) (u_ru u)) u));;
       mret needsoft);
  np ← gets (λ s, Sched.noproc (kern s));
  when (negb np) hardclock_charge;;
  gatherstats ps;;
  hardclock_time;;
  mret needsoft.

(** A process with more than ten minutes of user time is made nicer. *)
Definition softclock_renice (p : Z) : K unit :=
  pr ← rdp p;
  ru ← gets (λ s, u_ru (usr s));
  when (negb (Sched.p_uid pr =? 0) && (Sched.p_nice pr =? NZERO) && (10 * 60 * hz <? ru_utime ru))
    (wrp p (Sched.set_p_nice (NZERO + 4));;
     on_kern (Sched.setpri p);; mret tt).

Section interrupt.
(** The functions [timeout] was given. *)
Variable call : Z → Z → K unit.

Fixpoint softclock_loop (fuel : nat) : K unit :=
  match fuel with
  | O => nofuel
  | S f =>
      nxt ← on_co Callout.softclock_next;
      match nxt with
      | None => mret tt
      | Some (fn, arg) => call fn arg;; softclock_loop f
      end
  end.

Definition softclock (fuel : nat) (pc ps : Z) : K unit :=
  softclock_loop fuel;;
  when (USERMODE ps)
    (p ← u_procp;
     prof ← gets (λ s, u_prof (usr s));
     when (negb (pr_scale prof =? 0)) (addupc pc prof 1);;
     softclock_renice p).

Definition hardclock (pc ps : Z) : K unit :=
  needsoft ← hardclock_front ps;
  sz ← gets (λ s, size (Callout.nodes (Sched.co (kern s))));
  when (needsoft && BASEPRI ps) (softclock (S sz) pc ps).

(** A sequence of interrupts. *)
Fixpoint hardclocks (l : list (Z * Z)) : K unit :=
  match l with
  | [] => mret tt
  | (pc, ps) :: l' => hardclock pc ps;; hardclocks l'
  end.

End interrupt.

Definition profil (bufbase bufsize pcoffset pcscale : Z) : K unit :=
  upd_usr (set_u_prof (UP bufbase bufsize pcoffset pcscale)).

(** ** kern_time.c *)

Definition setthetime (tv : timeval) : K unit :=
  ok ← suser;
  when ok
    (upd_clk (λ c, set_boottime (TV (s32 (tv_sec (boottime c) + s32 (tv_sec tv - tv_sec (time c)))) (tv_usec (boottime c))) c);;
     upd_clk (set_time tv);;
     upd_clk (set_lbolt (tv_usec tv ÷ usechz))).

Definition tv_words (tv : timeval) : list Z := [tv_sec tv; tv_usec tv].
Definition words_tv (w : list Z) : timeval := TV (nth 0 w 0) (nth 1 w 0).

Definition gettimeofday (tp tzp : Z) : K unit :=
  (if negb (tp =? 0) then
     c ← gets clk;
     let ms := u32 (lbolt c) in
     let atv := TV (tv_sec (time c)) (s32 (s32 ms * usechz)) in
     e ← copyout (tv_words atv) tp;
     err e
   else mret tt);;
  e ← (if negb (tp =? 0) then u_error else mret 0);
  when ((e =? 0) && negb (tzp =? 0))
    (c ← gets clk;
     e ← copyout [tz_minuteswest (tz c); tz_dsttime (tz c)] tzp;
     err e).

Definition settimeofday (tv tzp : Z) : K unit :=
  e ← (if negb (tv =? 0) then
         '(e, w) ← copyin tv 2;
         err e;;
         when (e =? 0) (setthetime (words_tv w));;
         u_error
       else mret 0);
  when ((e =? 0) && negb (tzp =? 0))
    (ok ← suser;
     when ok
       ('(e, w) ← copyin tzp 2;
        err e;;
        when (e =? 0) (upd_clk (set_tz (TZ (nth 0 w 0) (nth 1 w 0)))))).

(** [while (lbolt >= hz) { lbolt -= hz; ++time.tv_sec; }] *)
Fixpoint adjtime_carry (fuel : nat) : K unit :=
  match fuel with
  | O => nofuel
  | S f =>
      l ← gets (λ s, lbolt (clk s));
      when (hz <=? l)
        (upd_clk (λ c, set_lbolt (s32 (lbolt c - hz)) c);;
         upd_clk (λ c, set_time (TV (s32 (tv_sec (time c) + 1)) (tv_usec (time c))) c);;
         adjtime_carry f)
  end.

Definition adjtime (delta olddelta : Z) : K unit :=
  ok ← suser;
  when ok
    ('(e, w) ← copyin delta 2;
     err e;;
     when (e =? 0)
       (let atv := words_tv w in
        let adjust := s32 (s32 (tv_sec atv * hz) + tv_usec atv ÷ usechz) in
        if (0x7fff <? adjust) || (adjust <? - 0x8000) then
          upd_clk (λ c, set_time (TV (s32 (tv_sec (time c) + tv_sec atv)) (tv_usec (time c))) c);;
          upd_clk (λ c, set_lbolt (s32 (lbolt c + tv_usec atv ÷ usechz)) c);;
          l ← gets (λ s, lbolt (clk s));
          adjtime_carry (S (Z.to_nat (l ÷ hz)));;
          when (negb (olddelta =? 0)) (e ← copyout (tv_words (TV 0 0)) olddelta; err e)
        else if olddelta =? 0 then upd_clk (set_adjdelta adjust)
        else
          d ← gets (λ s, adjdelta (clk s));
          upd_clk (set_adjdelta adjust);;
          e ← copyout (tv_words (TV (d ÷ hz) (s32 (Z.rem d hz * usechz)))) olddelta;
          err e)).

(** The words of a [struct itimerval]: interval, then value. *)
Definition getitimer (which itv : Z) : K unit :=
  if ITIMER_PROF <? which then err EINVAL
  else
    w ← (if which =? ITIMER_REAL then
           p ← u_procp;
           pr ← rdp p;
           mret [Sched.p_rtint pr; 0; Sched.p_rtval pr; 0]
         else
           t ← load (λ s, aget (u_timer (usr s)) (which - 1));
           mret [it_interval t ÷ hz; 0; it_value t ÷ hz; 0]);
    e ← copyout w itv;
    err e.

Definition setitimer (which itv oitv : Z) : K unit :=
  if ITIMER_PROF <? which then err EINVAL
  else
    when (negb (oitv =? 0)) (getitimer which oitv);;
    when (negb (itv =? 0))
      ('(e, w) ← copyin itv 4;
       err e;;
       when (e =? 0)
         (let isec := nth 0 w 0 in let iusec := nth 1 w 0 in
          let vsec := nth 2 w 0 in let vusec := nth 3 w 0 in
          if which =? ITIMER_REAL then
            p ← u_procp;
            wrp p (λ pr, Sched.set_p_rtval (if vusec =? 0 then vsec else s32 (vsec + 1)) pr);;
            wrp p (λ pr, set_p_rtint (if iusec =? 0 then isec else s32 (isec + 1)) pr)
          else
            let v := s32 (vsec * hz) in
            let i := s32 (isec * hz) in
            set_timer (which - 1)
              (KI (if iusec =? 0 then i else s32 (i + hz)) (if vusec =? 0 then v else s32 (v + hz))))).

Definition itimerfix (tv : timeval) : Z * timeval :=
  if (tv_sec tv <? 0) || (100000000 <? tv_sec tv) || (tv_usec tv <? 0) || (1000000 <=? tv_usec tv)
  then (EINVAL, tv)
  else if (tv_sec tv =? 0) && negb (tv_usec tv =? 0) && (tv_usec tv <? 1000 ÷ hz)
  then (0, TV (tv_sec tv) (1000 ÷ hz))
  else (0, tv).

Definition tvfix (t1 : timeval) : timeval :=
  let t1 := if tv_usec t1 <? 0 then TV (s32 (tv_sec t1 - 1)) (s32 (tv_usec t1 + 1000000)) else t1 in
  if 1000000 <=? tv_usec t1 then TV (s32 (tv_sec t1 + 1)) (s32 (tv_usec t1 - 1000000)) else t1.

Definition timevaladd (t1 t2 : timeval) : timeval :=
  tvfix (TV (s32 (tv_sec t1 + tv_sec t2)) (s32 (tv_usec t1 + tv_usec t2))).

(** ** What an interrupt does to the clock *)

(** The time of day in ticks. *)
Definition now (c : clock) : Z := tv_sec (time c) * hz + lbolt c.
Definition total (l : list Z) : Z := foldr Z.add 0 l.

(** The processor states have counted this many ticks. *)
Definition cp_total (s : sys) : Z := total (cp_time (clk s)).

(** How far [n] ticks move a pending adjustment of [d] ticks. *)
Definition slew (d n : Z) : Z := if 0 <=? d then Z.min d n else - Z.min (- d) n.

Lemma wp_hardclock_time (Q : unit → sys → Prop) s :
  0 ≤ lbolt (clk s) < hz → 0 ≤ tv_sec (time (clk s)) < 2 ^ 31 - 1 → is_s32 (adjdelta (clk s)) →
  (∀ c, now c = now (clk s) + 1 + slew (adjdelta (clk s)) 1 →
        adjdelta c = adjdelta (clk s) - slew (adjdelta (clk s)) 1 →
        0 ≤ lbolt c < hz → tv_sec (time c) ≤ tv_sec (time (clk s)) + 1 → 0 ≤ tv_sec (time c) →
        cp_time c = cp_time (clk s) → Q tt (set_clk c s)) →
  wp hardclock_time Q s.
Proof.
  intros Hl Ht Hd HQ. unfold hardclock_time, slew, now, is_s32 in *. change hz with 200 in *.
  apply wp_bind, wp_gets, wp_bind, wp_when; intros Ed; to_prop;
    [destruct (Z.ltb_spec 0 (adjdelta (clk s))); apply wp_bind, wp_upd_clk, wp_upd_clk; cbn [clk set_clk]|];
    apply wp_bind, wp_upd_clk, wp_bind, wp_gets; cbn [clk set_clk];
    (apply wp_when; intros El; to_prop; [apply wp_bind, wp_upd_clk, wp_upd_clk|]);
    match goal with |- Q tt ?x => change (Q tt (set_clk (clk x) s)) end;
    apply HQ; cbn in *; s32s; try done; try lia;
    destruct (Z.leb_spec 0 (adjdelta (clk s))); lia.
Qed.

(** ** Interval timers *)

(** One tick of a running timer, and whether it expired. *)
Definition itick (t : k_itimerval) : k_itimerval * bool :=
  if it_value t =? 0 then (t, false)
  else if it_value t =? 1 then (KI (it_interval t) (it_interval t), true)
  else (KI (it_interval t) (it_value t - 1), false).

Definition nsig (p sig : Z) (k : Sched.kst Callout.cost) : Z := zlen (filter (λ x, x = (p, sig)) (Sched.sigs k)).

Definition timer (i : Z) (s : sys) : k_itimerval := default (KI 0 0) (aget (u_timer (usr s)) i).

(** The tables the handler indexes have their declared sizes, the running
    process is in the process table, and the callout queue is well formed. *)
Definition wf (s : sys) : Prop :=
  is_Some (Sched.procs (kern s) !! Sched.u_procp (kern s)) ∧
  length (u_timer (usr s)) = 2%nat ∧ length (u_rlimit (usr s)) = 6%nat ∧ length (cp_time (clk s)) = 4%nat ∧
  (∃ l fs, Callout.rep (Sched.co (kern s)) l fs).

Definition timer_range (t : k_itimerval) : Prop := 0 ≤ it_value t < 2 ^ 31 ∧ 0 ≤ it_interval t < 2 ^ 31.

Lemma itick_range t : timer_range t → timer_range (itick t).1.
Proof.
  unfold timer_range, itick. intros. destruct (Z.eqb_spec (it_value t) 0), (Z.eqb_spec (it_value t) 1); simpl; lia.
Qed.

Lemma wp_set_timer i t (Q : unit → sys → Prop) s :
  0 ≤ i < zlen (u_timer (usr s)) →
  Q tt (set_usr (set_u_timer (<[Z.to_nat i := t]> (u_timer (usr s))) (usr s)) s) → wp (set_timer i t) Q s.
Proof. intros Hi HQ. eapply wp_store; [by rewrite aset_Some|done]. Qed.

(** The state after a tick of timer [i], posting [sig] to [p] on expiry. *)
Definition ticked (i p sig : Z) (s : sys) : sys :=
  let t := itick (timer i s) in
  let s1 := set_usr (set_u_timer (<[Z.to_nat i := t.1]> (u_timer (usr s))) (usr s)) s in
  if t.2 then set_kern (Sched.set_sigs (Sched.sigs (kern s) ++ [(p, sig)]) (kern s)) s1 else s1.

Lemma wp_itimer_tick i p sig (Q : unit → sys → Prop) s :
  0 ≤ i < zlen (u_timer (usr s)) → timer_range (timer i s) → Q tt (ticked i p sig s) →
  wp (itimer_tick i p sig) Q s.
Proof.
  intros Hi Hr HQ. unfold itimer_tick. destruct (aget_is_Some (u_timer (usr s)) i Hi) as [t Ht].
  apply wp_bind. eapply wp_load; [exact Ht|]. unfold ticked, timer in *. rewrite Ht in *. cbn [default from_option id] in *.
  unfold itick, timer_range in *. apply wp_when; intros Ev; to_prop.
  - rewrite (proj2 (Z.eqb_neq (it_value t) 0)) in HQ by done. s32s.
    apply wp_bind, wp_set_timer; [done|]. apply wp_when; intros E1; to_prop.
    + rewrite (proj2 (Z.eqb_eq (it_value t) 1)) in HQ by lia. apply wp_bind, wp_psignal, wp_set_timer.
      * cbn. rewrite length_insert. lia.
      * cbn in *. rewrite list_insert_insert_eq. exact HQ.
    + rewrite (proj2 (Z.eqb_neq (it_value t) 1)) in HQ by lia. exact HQ.
  - rewrite (proj2 (Z.eqb_eq (it_value t) 0)) in HQ by done. cbn in HQ.
    rewrite list_insert_id in HQ. { by destruct s as [? []]. }
    unfold aget in Ht. rewrite Zle_imp_le_bool in Ht by lia. done.
Qed.

(** What the theorems on timers observe. *)
Definition view (s : sys) : k_itimerval * k_itimerval * Z * Z * bool * Z :=
  let p := Sched.u_procp (kern s) in
  (timer 0 s, timer 1 s, nsig p SIGVTALRM (kern s), nsig p SIGPROF (kern s), Sched.noproc (kern s), p).

Definition step (b0 b1 : bool) (v : k_itimerval * k_itimerval * Z * Z * bool * Z) :
    k_itimerval * k_itimerval * Z * Z * bool * Z :=
  let '(t0, t1, n0, n1, np, p) := v in
  (if b0 then (itick t0).1 else t0, if b1 then (itick t1).1 else t1,
   if b0 && (itick t0).2 then n0 + 1 else n0, if b1 && (itick t1).2 then n1 + 1 else n1, np, p).

Lemma nsig_posted p sig q sg k :
  nsig p sig (Sched.set_sigs (Sched.sigs k ++ [(q, sg)]) k) =
  nsig p sig k + (if decide ((q, sg) = (p, sig)) then 1 else 0).
Proof.
  unfold nsig. cbn. rewrite filter_app, length_app, filter_cons, filter_nil.
  destruct (decide ((q, sg) = (p, sig))); simpl; lia.
Qed.

Lemma ticked_wf i p sig s : wf s → wf (ticked i p sig s).
Proof.
  unfold wf, ticked. intros (H1 & H2 & H3 & H4 & H5).
  destruct (itick (timer i s)).2; cbn; rewrite length_insert; done.
Qed.

Lemma ticked_clk i p sig s : clk (ticked i p sig s) = clk s.
Proof. unfold ticked. by destruct (itick (timer i s)).2. Qed.

Lemma timer_set i j t s : length (u_timer (usr s)) = 2%nat → 0 ≤ i < 2 →
  timer j (set_usr (set_u_timer (<[Z.to_nat i := t]> (u_timer (usr s))) (usr s)) s) =
  if decide (i = j) then t else timer j s.
Proof. intros Hl Hi. unfold timer. cbn. rewrite aget_insert by lia. by destruct (decide (i = j)). Qed.

Lemma timer_ticked i j p sig s : wf s → 0 ≤ i < 2 →
  timer j (ticked i p sig s) = if decide (i = j) then (itick (timer i s)).1 else timer j s.
Proof.
  intros (_ & Hl & _) Hi. rewrite <- timer_set by done. unfold ticked. by destruct (itick (timer i s)).2.
Qed.

Lemma nsig_ticked i p sig q sg s :
  nsig q sg (kern (ticked i p sig s)) =
  nsig q sg (kern s) + (if (itick (timer i s)).2 then if decide ((p, sig) = (q, sg)) then 1 else 0 else 0).
Proof. unfold ticked. destruct (itick (timer i s)).2; [apply nsig_posted|cbn; lia]. Qed.

Lemma ticked_same i p sig s :
  Sched.noproc (kern (ticked i p sig s)) = Sched.noproc (kern s) ∧
  Sched.u_procp (kern (ticked i p sig s)) = Sched.u_procp (kern s).
Proof. unfold ticked. by destruct (itick (timer i s)).2. Qed.

Lemma ticked_virtual s : wf s →
  view (ticked 0 (Sched.u_procp (kern s)) SIGVTALRM s) = step true false (view s).
Proof.
  intros Hw. unfold view, step. destruct (ticked_same 0 (Sched.u_procp (kern s)) SIGVTALRM s) as [-> ->].
  rewrite !timer_ticked, !nsig_ticked by (done || lia). cbn [andb].
  rewrite !(decide_True (P := 0 = 0)), (decide_False (P := 0 = 1)) by lia.
  rewrite (decide_True (P := (_, SIGVTALRM) = (_, SIGVTALRM))), (decide_False (P := (_, SIGVTALRM) = (_, SIGPROF))) by (done || by intros [= ]).
  destruct (itick (timer 0 s)).2; repeat f_equal; lia.
Qed.

Lemma ticked_prof s : wf s →
  view (ticked 1 (Sched.u_procp (kern s)) SIGPROF s) = step false true (view s).
Proof.
  intros Hw. unfold view, step. destruct (ticked_same 1 (Sched.u_procp (kern s)) SIGPROF s) as [-> ->].
  rewrite !timer_ticked, !nsig_ticked by (done || lia). cbn [andb].
  rewrite !(decide_True (P := 1 = 1)), (decide_False (P := 1 = 0)) by lia.
  rewrite (decide_True (P := (_, SIGPROF) = (_, SIGPROF))), (decide_False (P := (_, SIGPROF) = (_, SIGVTALRM))) by (done || by intros [= ]).
  destruct (itick (timer 1 s)).2; repeat f_equal; lia.
Qed.

(** ** The pieces of the handler *)

(** The clock and what [view] shows are as before. *)
Definition unseen (s s' : sys) : Prop := wf s' ∧ clk s' = clk s ∧ view s' = view s.

Lemma unseen_refl s : wf s → unseen s s.
Proof. done. Qed.

Lemma unseen_trans s1 s2 s3 : unseen s1 s2 → unseen s2 s3 → unseen s1 s3.
Proof. intros (? & ? & ?) (? & ? & ?). split_and!; [done|congruence..]. Qed.

Lemma wp_wrp_unseen f (Q : unit → sys → Prop) s :
  wf s → (∀ s', unseen s s' → usr s' = usr s → Q tt s') → wp (wrp (Sched.u_procp (kern s)) f) Q s.
Proof.
  intros Hw HQ. pose proof Hw as ([pr Hp] & H2 & H3 & H4 & H5). eapply wp_u_wrp; [exact Hp|]. apply HQ; [|done].
  split_and!; [|done|done]. split_and!; try done. cbn. rewrite lookup_insert_eq. eauto.
Qed.

Lemma wp_rdp_running (Q : Sched.proc → sys → Prop) s :
  wf s → (∀ pr, Q pr s) → wp (rdp (Sched.u_procp (kern s))) Q s.
Proof. intros ([pr Hp] & _) HQ. eapply wp_u_rdp; eauto. Qed.

Lemma wp_hardclock_charge s :
  wf s → timer_range (timer 1 s) →
  wp hardclock_charge (λ _ s', wf s' ∧ clk s' = clk s ∧ view s' = step false true (view s)) s.
Proof.
  intros Hw Hr. unfold hardclock_charge. apply wp_bind, wp_gets. cbv beta. set (p := Sched.u_procp (kern s)).
  assert (HP : ∀ s', unseen s s' → p = Sched.u_procp (kern s')) by (intros s' (_ & _ & [= _ _ _ _ _ E]); done).
  apply wp_bind, wp_wrp_unseen; [done|]. intros s1 Hq1 Hu1. rewrite (HP s1 Hq1).
  apply wp_bind, wp_rdp_running; [apply Hq1|]. intros pr.
  assert (Hend : ∀ s', unseen s s' → wp (itimer_tick 1 (Sched.u_procp (kern s')) SIGPROF)
     (λ _ s', wf s' ∧ clk s' = clk s ∧ view s' = step false true (view s)) s').
  { intros s' (Hw' & Hc & Hv). apply wp_itimer_tick.
    - destruct Hw' as (_ & -> & _). lia.
    - injection Hv. intros _ _ _ _ -> _. done.
    - rewrite ticked_clk, ticked_prof, Hv by done. split; [by apply ticked_wf|done]. }
  assert (Hlim : ∀ s', unseen s s' → usr s' = usr s → wp (
      ru ← gets (λ s, u_ru (usr s));
      lim ← load (λ s, aget (u_rlimit (usr s)) RLIMIT_CPU);
      when (rlim_cur lim <? s32 (s32 (ru_utime ru + ru_stime ru) + 1))
        (psignal (Sched.u_procp (kern s')) SIGXCPU;;
         when (rlim_cur lim <? rlim_max lim)
           (store (λ s, l ← aset (u_rlimit (usr s)) RLIMIT_CPU (RL (s32 (rlim_cur lim + 5 * hz)) (rlim_max lim));
                        Some (set_usr (set_u_rlimit l (usr s)) s))));;
      itimer_tick (ITIMER_PROF - 1) (Sched.u_procp (kern s')) SIGPROF)
     (λ _ s', wf s' ∧ clk s' = clk s ∧ view s' = step false true (view s)) s').
  { intros s' Hq Hu. apply wp_bind, wp_gets, wp_bind.
    destruct (aget_is_Some (u_rlimit (usr s')) RLIMIT_CPU) as [lim Hlim].
    { destruct Hq as ((_ & _ & -> & _) & _). unfold RLIMIT_CPU. lia. }
    eapply wp_load; [exact Hlim|]. apply wp_bind, wp_when; intros _; [|by apply Hend].
    apply wp_bind, wp_psignal. set (s2 := set_kern _ s').
    assert (Hq2 : unseen s s2).
    { eapply unseen_trans; [exact Hq|]. destruct Hq as (Hw' & _ & _). split_and!; [exact Hw'|done|].
      unfold view, s2. cbn. rewrite !nsig_posted, !decide_False by (by intros [= ]). by rewrite !Z.add_0_r. }
    apply wp_when; intros _; [|by apply (Hend s2)].
    eapply wp_store; [rewrite aset_Some; [done|]|].
    { destruct Hq as ((_ & _ & Hl & _) & _). unfold s2, RLIMIT_CPU. cbn. lia. }
    apply (Hend (set_usr _ s2)). eapply unseen_trans; [exact Hq2|]. destruct Hq2 as ((H1 & H2 & H3 & H4 & H5) & _).
    split_and!; [|done|done]. split_and!; try done. cbn. by rewrite length_insert. }
  apply wp_bind, wp_when; intros _; [|by apply Hlim].
  apply wp_wrp_unseen; [apply Hq1|]. intros s2 Hq2 Hu2.
  assert (Hq : unseen s s2) by (by eapply unseen_trans).
  replace (Sched.u_procp (kern s1)) with (Sched.u_procp (kern s2)); [apply Hlim; [done|congruence]|].
  by rewrite <- (HP s2), <- (HP s1).
Qed.

Lemma total_insert l i v w : l !! i = Some w → total (<[i := v]> l) = total l - w + v.
Proof.
  unfold total. revert i. induction l as [|x l IH]; intros [|i] Hi; simpl in *; simplify_eq; [lia|].
  rewrite (IH i) by done. lia.
Qed.

Lemma total_ge l i w : Forall (λ v, 0 ≤ v) l → l !! i = Some w → 0 ≤ w ≤ total l.
Proof.
  unfold total. intros Hl. assert (Hp : ∀ l, Forall (λ v, 0 ≤ v) l → 0 ≤ foldr Z.add 0 l) by (induction 1; simpl; lia).
  revert i. induction Hl as [|x l Hx Hl IH]; intros [|i] Hi; simpl in *; simplify_eq.
  - specialize (Hp l Hl). lia.
  - specialize (IH i Hi). lia.
Qed.

(** The counters are in range for one more tick. *)
Definition cp_room (n : Z) (s : sys) : Prop :=
  Forall (λ v, 0 ≤ v) (cp_time (clk s)) ∧ total (cp_time (clk s)) + n < 2 ^ 31.

Lemma wp_gatherstats ps (Q : unit → sys → Prop) s :
  wf s → cp_room 1 s →
  (∀ l, length l = 4%nat → Forall (λ v, 0 ≤ v) l → total l = total (cp_time (clk s)) + 1 →
        Q tt (set_clk (set_cp_time l (clk s)) s)) →
  wp (gatherstats ps) Q s.
Proof.
  intros Hw [Hnn Hroom] HQ. unfold gatherstats. apply wp_bind, wp_gets. pose proof Hw as (_ & _ & _ & Hl & _).
  assert (Hst : ∀ i, 0 ≤ i < 4 → wp (store (λ s, v ← aget (cp_time (clk s)) i;
              l ← aset (cp_time (clk s)) i (s32 (v + 1)); Some (set_clk (set_cp_time l (clk s)) s))) Q s).
  { intros i Hi. destruct (aget_is_Some (cp_time (clk s)) i ltac:(lia)) as [v Hg].
    assert (Hv : cp_time (clk s) !! Z.to_nat i = Some v).
    { unfold aget in Hg. by rewrite Zle_imp_le_bool in Hg by lia. }
    pose proof (total_ge _ _ _ Hnn Hv) as Hb.
    eapply wp_store; [rewrite Hg; cbn; rewrite aset_Some by lia; cbn; done|]. s32s. apply HQ.
    - by rewrite length_insert.
    - apply Forall_insert; [done|lia].
    - rewrite (total_insert _ _ _ v) by done. lia. }
  apply wp_bind. destruct (USERMODE ps).
  - apply wp_bind, wp_rdp_running; [done|]. intros pr. apply wp_ret. apply Hst.
    unfold CP_NICE, CP_USER. destruct (NZERO <? Sched.p_nice pr); lia.
  - apply wp_bind, wp_gets, wp_ret, Hst. unfold CP_IDLE, CP_SYS. destruct (_ && _); lia.
Qed.

Lemma wp_u_co {A} (m : M Callout.cost A) (Q : A → sys → Prop) s :
  wp m (λ a c, Q a (set_kern (Sched.set_co c (kern s)) s)) (Sched.co (kern s)) → wp (on_co m) Q s.
Proof. intros Hm. apply wp_on_kern. by apply Sched.wp_on_co. Qed.

Lemma keeps_update {St X Y} (f : St → X) (g : St → option Y) (h : Y → St → St) :
  (∀ y s, f (h y s) = f s) → keeps f (store (λ s, y ← g s; Some (h y s))).
Proof. intros Hh. apply keeps_store. intros s s'. destruct (g s); [|done]. intros [= <-]. apply Hh. Qed.

Lemma keeps_any_kern {A X} (f : sys → X) (m : M (Sched.kst Callout.cost) A) :
  (∀ k s, f (set_kern k s) = f s) → keeps f (on_kern m).
Proof. intros Hf s a s'. unfold on_kern. destruct (m (kern s)); try done. intros [= <- <-]. apply Hf. Qed.

(** What a called function may do: the functions given to [timeout] run below
    the clock and touch neither it nor the accounting of the running process;
    they may arm and cancel calls, but none that is due. *)
Definition respects (call : Z → Z → K unit) : Prop :=
  ∀ f a s l fs, wf s → Callout.rep (Sched.co (kern s)) l fs →
  wp (call f a) (λ _ s', unseen s s' ∧ ∃ l' fs', Callout.rep (Sched.co (kern s')) l' fs' ∧
    filter Callout.is_due (Callout.pending (Sched.co (kern s')) l') =
    filter Callout.is_due (Callout.pending (Sched.co (kern s)) l)) s.

Section handler.
Context (call : Z → Z → K unit).
Hypothesis call_ok : respects call.

Lemma set_co_unseen s c l fs : wf s → Callout.rep c l fs → unseen s (set_kern (Sched.set_co c (kern s)) s).
Proof.
  intros (H1 & H2 & H3 & H4 & _) Hr. split_and!; [|done|done]. split_and!; try done. eauto.
Qed.

Lemma wp_softclock_loop fuel s l fs :
  wf s → Callout.rep (Sched.co (kern s)) l fs →
  (length (filter Callout.is_due (Callout.pending (Sched.co (kern s)) l)) < fuel)%nat →
  wp (softclock_loop call fuel) (λ _ s', unseen s s') s.
Proof using call_ok.
  revert s l fs. induction fuel as [|fuel IH]; intros s l fs Hw Hr Hfu; [lia|].
  cbn [softclock_loop]. apply wp_bind, wp_u_co.
  eapply wp_mono; [apply (Callout.softclock_next_spec _ _ _ Hr)|].
  intros [[fn arg]|] c; cbv beta iota.
  2:{ intros [-> _]. apply wp_ret. by eapply set_co_unseen. }
  intros (x & l2 & t & -> & Hr' & Ht & HP & _). set (s1 := set_kern _ s).
  assert (Hs1 : unseen s s1) by (by eapply set_co_unseen).
  apply wp_bind. eapply wp_mono; [apply (call_ok fn arg s1 l2 (x :: fs)); [apply Hs1|done]|].
  intros [] s2 (Hs2 & l3 & fs3 & Hr3 & HP3). eapply wp_mono.
  - eapply (IH s2 l3 fs3); [apply Hs2|done|]. rewrite HP3. rewrite HP in Hfu.
    rewrite filter_cons_True in Hfu by (by apply Callout.is_due_spec). simpl in Hfu. unfold s1. cbn. lia.
  - cbv beta. intros [] s3 Hs3. eapply unseen_trans; [|exact Hs3]. exact (unseen_trans _ _ _ Hs1 Hs2).
Qed.

Lemma wp_addupc_unseen pc prof n s : wf s → wp (addupc pc prof n) (λ _ s', unseen s s') s.
Proof.
  intros Hw. unfold addupc. destruct (_ <? _); [by apply wp_ret, unseen_refl|]. cbv zeta. destruct (_ <=? _); [by apply wp_ret, unseen_refl|].
  apply wp_modify. by split_and!.
Qed.

Lemma unseen_procp s s' : unseen s s' → Sched.u_procp (kern s') = Sched.u_procp (kern s).
Proof. intros (_ & _ & Hv). by injection Hv. Qed.

Lemma wp_setpri_unseen s : wf s → wp (on_kern (Sched.setpri (Sched.u_procp (kern s)))) (λ _ s', unseen s s') s.
Proof.
  intros Hw. pose proof Hw as ([pr Hp] & H2 & H3 & H4 & H5). apply wp_on_kern. unfold Sched.setpri.
  apply wp_bind. eapply wp_load; [exact Hp|]. cbv zeta. apply wp_bind, wp_gets, wp_bind.
  set (q := if 127 <? _ then _ else _). clearbody q.
  apply wp_when; intros _; [apply wp_modify|]; apply wp_bind; (eapply wp_store; [cbn; by rewrite Hp|]);
    apply wp_ret; (split_and!; [|done|done]; split_and!; try done; cbn; rewrite lookup_insert_eq; eauto).
Qed.

Lemma wp_softclock_renice s : wf s →
  wp (softclock_renice (Sched.u_procp (kern s))) (λ _ s', unseen s s' ∧ mem s' = mem s) s.
Proof.
  intros Hw. apply wp_frame.
  { unfold softclock_renice, rdp, wrp. repeat first [progress keeps_tac | apply keeps_any_kern; done]. }
  unfold softclock_renice.
  apply wp_bind, wp_rdp_running; [done|]. intros pr. apply wp_bind, wp_gets, wp_when; intros _; [|by apply unseen_refl].
  apply wp_bind, wp_wrp_unseen; [done|]. intros s1 Hs1 _. rewrite <- (unseen_procp s s1) by done.
  apply wp_bind. eapply wp_mono; [apply wp_setpri_unseen, Hs1|]. intros r s2 Hs2. apply wp_ret.
  exact (unseen_trans _ _ _ Hs1 Hs2).
Qed.

Lemma wp_softclock fuel pc ps s l fs :
  wf s → Callout.rep (Sched.co (kern s)) l fs → (length l < fuel)%nat →
  wp (softclock call fuel pc ps) (λ _ s', unseen s s') s.
Proof using call_ok.
  intros Hw Hr Hfu. unfold softclock. apply wp_bind. eapply wp_mono; [eapply wp_softclock_loop; [done|exact Hr|]|].
  { pose proof (length_filter Callout.is_due (Callout.pending (Sched.co (kern s)) l)) as Hle.
    rewrite Callout.length_pending in Hle. lia. }
  intros [] s1 Hs1. apply wp_when; intros _; [|done]. apply wp_bind, wp_gets. cbv beta. apply wp_bind, wp_gets. cbv beta.
  apply wp_bind. apply (wp_mono _ (λ _ s', unseen s1 s')).
  { apply wp_when; intros _; [apply wp_addupc_unseen|apply unseen_refl]; apply Hs1. }
  intros [] s2 Hs2. rewrite <- (unseen_procp s1 s2) by done.
  eapply wp_mono; [apply wp_softclock_renice, Hs2|]. cbv beta. intros [] s3 [Hs3 _].
  eauto using unseen_trans.
Qed.

(** No counter of the handler overflows in the next [n] interrupts. *)
Definition room (n : Z) (s : sys) : Prop :=
  0 ≤ lbolt (clk s) < hz ∧ 0 ≤ tv_sec (time (clk s)) ∧ tv_sec (time (clk s)) + n < 2 ^ 31 ∧
  is_s32 (adjdelta (clk s)) ∧ cp_room n s ∧ timer_range (timer 0 s) ∧ timer_range (timer 1 s).

(** The effect of one interrupt. *)
Definition ticked_once (ps : Z) (s s' : sys) : Prop :=
  now (clk s') = now (clk s) + 1 + slew (adjdelta (clk s)) 1 ∧
  adjdelta (clk s') = adjdelta (clk s) - slew (adjdelta (clk s)) 1 ∧
  cp_total s' = cp_total s + 1 ∧
  view s' = step (USERMODE ps) (negb (Sched.noproc (kern s))) (view s).

Lemma step_range b0 b1 s s' : view s' = step b0 b1 (view s) →
  timer_range (timer 0 s) → timer_range (timer 1 s) → timer_range (timer 0 s') ∧ timer_range (timer 1 s').
Proof.
  intros Hv H0 H1. injection Hv. intros _ _ _ _ -> ->.
  split; [destruct b0|destruct b1]; auto using itick_range.
Qed.

Lemma step_step b0 b1 v : step false b1 (step b0 false v) = step b0 b1 v.
Proof. by destruct v as [[[[[t0 t1] n0] n1] np] p], b0, b1. Qed.

Lemma step_none v : step false false v = v.
Proof. by destruct v as [[[[[t0 t1] n0] n1] np] p]. Qed.

(** Charging the running process, by the mode the interrupt found. *)
Lemma wp_hardclock_mode ps ns s :
  wf s → timer_range (timer 0 s) →
  wp (if USERMODE ps then
       prof ← gets (λ s, u_prof (usr s));
       upd_usr (λ u, set_u_ru (set_ru_utime (s32 (ru_utime (u_ru u) + 1)) (u_ru u)) u);;
       itimer_tick (ITIMER_VIRTUAL - 1) (Sched.u_procp (kern s)) SIGVTALRM;;
       mret (ns || negb (pr_scale prof =? 0))
     else
       np ← gets (λ s, Sched.noproc (kern s));
       when (negb np)
         (upd_usr (λ u, set_u_ru (set_ru_stime (s32 (ru_stime (u_ru u) + 1)) (u_ru u)) u));;
       mret ns)
     (λ r s', (wf s' ∧ clk s' = clk s ∧ view s' = step (USERMODE ps) false (view s)) ∧
              (USERMODE ps = true → pr_scale (u_prof (usr s)) ≠ 0 → r = true)) s.
Proof.
  intros Hw Hr. destruct (USERMODE ps).
  - apply wp_bind, wp_gets, wp_bind, wp_upd_usr. set (s1 := set_usr _ s). assert (Hw1 : wf s1) by exact Hw.
    apply wp_bind. apply (wp_itimer_tick 0 _ _ _ s1); [destruct Hw as (_ & Hl & _); unfold s1; cbn; lia|done|]. apply wp_ret.
    rewrite ticked_clk. change (Sched.u_procp (kern s)) with (Sched.u_procp (kern s1)).
    rewrite ticked_virtual by done. split_and!; [by apply ticked_wf|done|done|].
    intros _ Hsc. rewrite (proj2 (Z.eqb_neq _ _)) by done. apply orb_true_r.
  - apply wp_bind, wp_gets, wp_bind. rewrite step_none.
    apply wp_when; intros _; [apply wp_upd_usr|]; apply wp_ret; by split_and!.
Qed.

Lemma hardclock_front_spec ps s :
  wf s → room 1 s →
  wp (hardclock_front ps) (λ r s', (wf s' ∧ ticked_once ps s s' ∧
    0 ≤ lbolt (clk s') < hz ∧ 0 ≤ tv_sec (time (clk s')) ≤ tv_sec (time (clk s)) + 1 ∧
    Forall (λ v, 0 ≤ v) (cp_time (clk s'))) ∧
    (USERMODE ps = true → pr_scale (u_prof (usr s)) ≠ 0 → r = true)) s.
Proof.
  intros Hw (Hl & Ht0 & Ht & Had & Hcp & Hr0 & Hr1). unfold hardclock_front.
  pose proof Hw as (_ & _ & _ & _ & l & fs & Hrep). pose proof Hrep as (Hc & _).
  destruct (Callout.chain_tail _ _ Hc) as (h & Hh & Hc').
  apply wp_bind, wp_u_co. eapply wp_load; [exact Hh|].
  replace (set_kern _ s) with s by (by destruct s as [[]]).
  apply wp_bind, wp_gets, wp_bind, wp_u_co.
  eapply wp_mono; [eapply Callout.hardclock_callouts_ok; [exact Hc'|]|].
  { pose proof (Callout.co_chain_length _ _ _ Hc'). lia. }
  intros ns c (Hre & Htm & _). destruct (Callout.retimed_rep _ _ _ _ Hrep Hre Htm) as [Hrep1 _].
  set (s1 := set_kern _ s). assert (Hs1 : unseen s s1) by (by eapply set_co_unseen).
  apply wp_bind, wp_gets. cbv beta. apply wp_bind.
  eapply wp_mono; [apply (wp_hardclock_mode ps ns s1); [apply Hs1|done]|].
  intros ns2 s2 ((Hw2 & Hc2 & Hv2) & Hns). apply wp_bind, wp_gets. cbv beta.
  assert (Hnp : Sched.noproc (kern s2) = Sched.noproc (kern s)) by (by injection Hv2). rewrite Hnp.
  apply wp_bind. apply (wp_mono _ (λ _ s3, wf s3 ∧ clk s3 = clk s ∧
    view s3 = step (USERMODE ps) (negb (Sched.noproc (kern s))) (view s))).
  { apply wp_when; intros En.
    - eapply wp_mono; [apply wp_hardclock_charge; [done|]|].
      { apply (step_range (USERMODE ps) false s1 s2); [done|by apply Hr0|by apply Hr1]. }
      cbv beta. intros [] s3 (Hw3 & Hc3 & Hv3). rewrite Hv3, Hv2, step_step, En. split_and!; [done|by rewrite Hc3|done].
    - split_and!; [done|done|]. by rewrite Hv2, En. }
  intros [] s3 (Hw3 & Hc3 & Hv3). apply wp_bind, wp_gatherstats; [done|by unfold cp_room; rewrite Hc3|].
  intros cp Hcl Hcn Hct. apply wp_bind, wp_hardclock_time; cbn [clk set_clk set_cp_time lbolt time adjdelta]; rewrite Hc3; [done|lia|done|].
  intros ck E1 E2 E3 E4 E5 E6. set (s4 := set_clk ck _).
  assert (Hs4 : wf s4). { destruct Hw3 as (W1 & W2 & W3 & W4 & W5). split_and!; try done. unfold s4. cbn. by rewrite E6. }
  apply wp_ret. split; [|done]. unfold ticked_once, cp_total. unfold s4. cbn [clk set_clk].
  cbn in E1, E2, E3, E4, E5, E6. rewrite E6, Hct, Hc3. split_and!; try done; try lia.
Qed.

Lemma hardclock_spec pc ps s :
  wf s → room 1 s →
  wp (hardclock call pc ps) (λ _ s', wf s' ∧ ticked_once ps s s' ∧
    0 ≤ lbolt (clk s') < hz ∧ 0 ≤ tv_sec (time (clk s')) ≤ tv_sec (time (clk s)) + 1 ∧
    Forall (λ v, 0 ≤ v) (cp_time (clk s'))) s.
Proof using call_ok.
  intros Hw Hroom. unfold hardclock. apply wp_bind. eapply wp_mono; [by apply hardclock_front_spec|].
  intros ns s1 [(Hw1 & (E1 & E2 & E3 & E4) & Hrest) _]. apply wp_bind, wp_gets.
  apply (wp_mono _ (λ _ s', unseen s1 s')).
  { apply wp_when; intros _; [|by apply unseen_refl]. pose proof Hw1 as (_ & _ & _ & _ & l & fs & Hrep).
    eapply wp_softclock; [done|exact Hrep|]. destruct Hrep as (Hc & _).
    destruct (Callout.chain_tail _ _ Hc) as (h & Hh & Hc'). pose proof (Callout.co_chain_length _ _ _ Hc'). lia. }
  intros [] s2 (Hw2 & Hc2 & Hv2). unfold ticked_once, cp_total in *. rewrite Hc2, Hv2. split; [done|]. split; [by split_and!|done].
Qed.

Definition steps (np : bool) (l : list (Z * Z)) (v : k_itimerval * k_itimerval * Z * Z * bool * Z) :=
  foldl (λ v x, step (USERMODE x.2) (negb np) v) v l.

Lemma slew_add d n : 0 ≤ n → slew d 1 + slew (d - slew d 1) n = slew d (n + 1).
Proof.
  intros Hn. unfold slew. destruct (Z.leb_spec 0 d); [|destruct (Z.leb_spec 0 (d - - Z.min (- d) 1))];
    [destruct (Z.leb_spec 0 (d - Z.min d 1)); lia|lia..].
Qed.

Lemma slew_range d : is_s32 d → is_s32 (d - slew d 1).
Proof. unfold is_s32, slew. destruct (Z.leb_spec 0 d); lia. Qed.

Lemma hardclocks_spec l s :
  wf s → room (zlen l) s →
  wp (hardclocks call l) (λ _ s',
    now (clk s') = now (clk s) + zlen l + slew (adjdelta (clk s)) (zlen l) ∧
    adjdelta (clk s') = adjdelta (clk s) - slew (adjdelta (clk s)) (zlen l) ∧
    0 ≤ lbolt (clk s') < hz ∧ cp_total s' = cp_total s + zlen l ∧
    view s' = steps (Sched.noproc (kern s)) l (view s)) s.
Proof using call_ok.
  revert s. induction l as [|[pc ps] l IH]; intros s Hw Hroom; cbn [hardclocks].
  { apply wp_ret. destruct Hroom as (Hl & _). cbn [length]. unfold slew.
    destruct (Z.leb_spec 0 (adjdelta (clk s))); rewrite ?Z.min_r by lia; split_and!; (done || lia). }
  pose proof Hroom as (Hl & Ht0 & Ht & Had & [Hcn Hct] & Hr0 & Hr1). cbn [length] in *.
  rewrite Nat2Z.inj_succ in *. unfold Z.succ in *.
  assert (Hroom1 : room 1 s) by (unfold room, cp_room, timer_range, is_s32 in *; split_and!; (done || lia)).
  apply wp_bind. eapply wp_mono; [by apply hardclock_spec|].
  intros [] s1 (Hw1 & (E1 & E2 & E3 & E4) & Hl1 & Ht1 & Hcn1). unfold cp_total in E3.
  destruct (step_range _ _ _ _ E4 Hr0 Hr1) as [Hr01 Hr11].
  assert (Hroom' : room (zlen l) s1).
  { pose proof (slew_range _ Had) as Had1. rewrite <- E2 in Had1.
    unfold room, cp_room, timer_range, is_s32 in *. split_and!; (done || lia). }
  assert (Hnp : Sched.noproc (kern s1) = Sched.noproc (kern s)) by (by injection E4).
  eapply wp_mono; [by apply IH|]. cbv beta. intros [] s2 (F1 & F2 & F3 & F4 & F5).
  pose proof (slew_add (adjdelta (clk s)) (zlen l) ltac:(lia)) as Hsl.
  rewrite F1, F2, F4, F5, E1, E2, Hnp. unfold cp_total. rewrite E3, E4. split_and!; try done; lia.
Qed.

End handler.

(** ** Expirations in closed form *)

(** The signals a timer posts in [k] of its ticks, and what it then shows: it
    expires first after [v] ticks and then every [i]; 0 disarms it. *)
Definition expired (t : k_itimerval) (k : Z) : Z :=
  if (it_value t =? 0) || (k <? it_value t) then 0
  else if it_interval t =? 0 then 1 else 1 + (k - it_value t) `div` it_interval t.

Definition left (t : k_itimerval) (k : Z) : Z :=
  if it_value t =? 0 then 0
  else if k <? it_value t then it_value t - k
  else if it_interval t =? 0 then 0 else it_interval t - (k - it_value t) `mod` it_interval t.

Definition after (t : k_itimerval) (k : Z) : k_itimerval := KI (it_interval t) (left t k).

Lemma expired_tick t k : timer_range t → 0 ≤ k →
  (if (itick t).2 then 1 else 0) + expired (itick t).1 k = expired t (k + 1) ∧
  after (itick t).1 k = after t (k + 1).
Proof.
  destruct t as [i v]. unfold timer_range, itick, after, left, expired. cbn. intros Hr Hk.
  destruct (Z.eqb_spec v 0) as [->|Hv]; [done|]. destruct (Z.eqb_spec v 1) as [->|Hv1]; cbn.
  - ztest. replace (k + 1 - 1) with k by lia. destruct (Z.eqb_spec i 0) as [->|Hi]; cbn; [done|].
    destruct (Z.ltb_spec k i).
    + rewrite Z.div_small, Z.mod_small by lia. done.
    + replace k with ((k - i) + 1 * i) at 2 4 by lia. rewrite Z_div_plus, Z_mod_plus by lia. split; [lia|done].
  - ztest. replace (k + 1 - v) with (k - (v - 1)) by lia.
    destruct (Z.ltb_spec k (v - 1)), (Z.ltb_spec (k + 1) v); try lia; split; try done; f_equal; lia.
Qed.

(** Ticks of the two timers within a sequence of interrupts. *)
Definition user_ticks (l : list (Z * Z)) : Z := zlen (filter (λ x, USERMODE x.2 = true) l).
Definition proc_ticks (np : bool) (l : list (Z * Z)) : Z := if np then 0 else zlen l.

Lemma after_0 t : timer_range t → expired t 0 = 0 ∧ after t 0 = t.
Proof.
  destruct t as [i v]. unfold timer_range, expired, after, left. cbn. intros Hr.
  destruct (Z.eqb_spec v 0) as [->|]; [done|]. ztest. split; [done|]. f_equal. lia.
Qed.

Lemma steps_closed np l t0 t1 n0 n1 p :
  timer_range t0 → timer_range t1 →
  steps np l (t0, t1, n0, n1, np, p) =
  (after t0 (user_ticks l), after t1 (proc_ticks np l), n0 + expired t0 (user_ticks l),
   n1 + expired t1 (proc_ticks np l), np, p).
Proof.
  revert t0 t1 n0 n1. induction l as [|[pc ps] l IH]; intros t0 t1 n0 n1 H0 H1.
  { change (user_ticks []) with 0. replace (proc_ticks np []) with 0 by (by destruct np). cbn [steps foldl]. destruct (after_0 t0 H0) as [E1 E2], (after_0 t1 H1) as [E3 E4].
    by rewrite E1, E2, E3, E4, !Z.add_0_r. }
  change (steps np ((pc, ps) :: l) ?v) with (steps np l (step (USERMODE ps) (negb np) v)).
  set (b0 := USERMODE ps). cbn [step].
  rewrite IH by (destruct b0, np; cbn; auto using itick_range).
  destruct (expired_tick t0 (user_ticks l) H0 ltac:(unfold user_ticks; lia)) as [E1 E2].
  destruct (expired_tick t1 (zlen l) H1 ltac:(lia)) as [E3 E4].
  assert (Hu : user_ticks ((pc, ps) :: l) = if b0 then user_ticks l + 1 else user_ticks l).
  { unfold user_ticks. rewrite filter_cons. cbn [snd]. fold b0. destruct b0; [rewrite decide_True by done; cbn [length]; lia|].
    by rewrite decide_False. }
  rewrite Hu. unfold proc_ticks. cbn [length]. rewrite Nat2Z.inj_succ. unfold Z.succ.
  destruct b0, np; cbn [negb andb]; rewrite <- ?E1, <- ?E2, <- ?E3, <- ?E4;
    repeat lazymatch goal with |- (_, _) = (_, _) => f_equal end; try done;
    destruct (itick t0).2, (itick t1).2; lia.
Qed.

(** ** The theorems *)

(** A function that leaves everything alone, and a small system to run. *)
Definition idle (f a : Z) : K unit := mret tt.

Definition zero_ru : k_rusage := KR 0 0 0 0 0 0 0 0 0 0.

Definition demo_user : user :=
  U 7 7 7 5 5 (5 :: replicate 15 NOGROUP) 0 zero_ru zero_ru [KI 2 3; KI 0 4]
    (replicate 6 (RL RLIM_INFINITY RLIM_INFINITY)) (UP 0 0 0 0).

Definition demo : sys :=
  Sys Sched.demo demo_user (Clk (TV 1000 0) (TV 0 0) (TZ 0 0) (-2) 198 [0; 0; 0; 0]) ∅.

Lemma idle_respects : respects idle.
Proof. intros f a s l fs Hw Hr. apply wp_ret. split; [by apply unseen_refl|]. by exists l, fs. Qed.

Lemma demo_wf : wf demo.
Proof.
  split_and!; [by vm_compute; eauto|done..|]. exists [3; 4; 2], (drop 3 Callout.all_nodes). apply Callout.co_demo_rep.
Qed.

Lemma demo_room n : 0 ≤ n < 1000 → room n demo.
Proof.
  intros Hn. unfold room, cp_room, timer_range, is_s32, hz. cbn.
  split_and!; try lia; [repeat constructor; lia|vm_compute; done..].
Qed.

(** C17: The time of day advances by exactly one tick per clock interrupt, plus
    one tick while a positive adjustment is pending and minus one while a
    negative one is; the pending adjustment shrinks by what was applied, [lbolt]
    stays below [hz], and every interrupt is counted in exactly one processor
    state, whatever the mode, the priority and the calls that fall due. *)
Theorem clock_keeps_time call l s :
  respects call → wf s → room (zlen l) s →
  wp (hardclocks call l) (λ _ s',
    now (clk s') = now (clk s) + zlen l + slew (adjdelta (clk s)) (zlen l) ∧
    adjdelta (clk s') = adjdelta (clk s) - slew (adjdelta (clk s)) (zlen l) ∧
    0 ≤ lbolt (clk s') < hz ∧ cp_total s' = cp_total s + zlen l) s.
Proof.
  intros Hc Hw Hr. eapply wp_mono; [by apply hardclocks_spec|]. cbv beta. naive_solver.
Qed.

(** Five interrupts with an adjustment of -2 pending move the clock 3 ticks. *)
Lemma clock_keeps_time_witness :
  wp (hardclocks idle (replicate 5 (0, 16))) (λ _ s',
    now (clk s') = 200201 ∧ adjdelta (clk s') = 0 ∧ 0 ≤ lbolt (clk s') < hz ∧ cp_total s' = 5) demo.
Proof.
  exact (clock_keeps_time idle (replicate 5 (0, 16)) demo idle_respects demo_wf (demo_room 5 ltac:(lia))).
Defined.

(** The virtual timer of a process expires after exactly [it_value] of the
    interrupts that find it in user mode and then every [it_interval] of them,
    and the profiling timer likewise over the interrupts that find a process
    running; each expiry posts one signal, a zero interval ends the timer after
    its first expiry, and a zero value leaves it off. *)
Theorem interval_timers_exact call l s :
  respects call → wf s → room (zlen l) s →
  wp (hardclocks call l) (λ _ s',
    let p := Sched.u_procp (kern s) in
    let ku := user_ticks l in
    let kp := proc_ticks (Sched.noproc (kern s)) l in
    timer 0 s' = after (timer 0 s) ku ∧ timer 1 s' = after (timer 1 s) kp ∧
    nsig p SIGVTALRM (kern s') = nsig p SIGVTALRM (kern s) + expired (timer 0 s) ku ∧
    nsig p SIGPROF (kern s') = nsig p SIGPROF (kern s) + expired (timer 1 s) kp) s.
Proof.
  intros Hc Hw Hr. eapply wp_mono; [by apply hardclocks_spec|]. cbv beta zeta. intros [] s' (_ & _ & _ & _ & Hv).
  destruct Hr as (_ & _ & _ & _ & _ & H0 & H1).
  unfold view in Hv at 2. rewrite steps_closed in Hv by done. injection Hv. intros -> _ -> -> -> ->. done.
Qed.

(** Ten interrupts, every second in user mode: the virtual timer (3, then every
    2) expires twice, the profiling timer (4, once) once. *)
Lemma interval_timers_exact_witness :
  wp (hardclocks idle [(0, 16); (0, 0); (0, 16); (0, 0); (0, 16); (0, 0); (0, 16); (0, 0); (0, 16); (0, 0)])
     (λ _ s', timer 0 s' = KI 2 2 ∧ timer 1 s' = KI 0 0 ∧
              nsig 2 SIGVTALRM (kern s') = 2 ∧ nsig 2 SIGPROF (kern s') = 1) demo.
Proof.
  exact (interval_timers_exact idle [(0, 16); (0, 0); (0, 16); (0, 0); (0, 16); (0, 0); (0, 16); (0, 0); (0, 16); (0, 0)]
    demo idle_respects demo_wf (demo_room 10 ltac:(lia))).
Defined.

Lemma wp_adjtime_carry_done fuel (Q : unit → sys → Prop) s :
  lbolt (clk s) < hz → Q tt s → wp (adjtime_carry (S fuel)) Q s.
Proof. intros Hl HQ. cbn [adjtime_carry]. apply wp_bind, wp_gets. ztest. by apply wp_ret. Qed.

(** An adjustment too large to be applied slowly is added to the clock at
    once, and a negative number of microseconds then drives [lbolt] below zero:
    the next [gettimeofday] reports negative microseconds. *)
Theorem adjtime_negative_usec delta tp s sec usec :
  u_uid (usr s) = 0 → get (mem s) delta 2 = [sec; usec] →
  baduaddr delta || baduaddr (u32 (delta + 4 * Z.of_nat 2 - 1)) = false →
  baduaddr tp || baduaddr (u32 (tp + 4 * Z.of_nat 2 - 1)) = false →
  - 10000000 ≤ sec ≤ -165 → - 1000000 < usec → 0 ≤ lbolt (clk s) < hz → lbolt (clk s) + usec ÷ usechz < 0 →
  is_s32 (tv_sec (time (clk s)) + sec) →
  wp (adjtime delta 0;; gettimeofday tp 0) (λ _ s',
    Sched.u_error (kern s') = 0 ∧ now (clk s') = now (clk s) + sec * hz + usec ÷ usechz ∧
    get (mem s') tp 2 = [tv_sec (time (clk s)) + sec; (lbolt (clk s) + usec ÷ usechz) * usechz] ∧
    (lbolt (clk s) + usec ÷ usechz) * usechz < 0) s.
Proof.
  intros Hu Hg Hd Ht Hsec Husec Hl Hneg Hts. unfold is_s32 in Hts. change usechz with 5000 in *. change hz with 200 in *.
  assert (Hq : -200 < usec ÷ 5000 < 0) by (split; [|lia]; Z.to_euclidean_division_equations; lia).
  assert (Htp : tp ≠ 0) by (intros ->; vm_compute in Ht; done).
  apply wp_bind. unfold adjtime. apply wp_bind, wp_suser. rewrite Hu. cbn [Z.eqb when].
  apply wp_bind, wp_copyin; [by rewrite Hd|]. intros _. rewrite Hg. apply wp_bind, wp_err. cbn [Z.eqb when].
  cbn [words_tv tv_sec tv_usec nth]. change hz with 200. change usechz with 5000.
  rewrite (s32_id (sec * 200)) by (unfold is_s32; lia). rewrite (s32_id (sec * 200 + usec ÷ 5000)) by (unfold is_s32; lia).
  rewrite (proj2 (Z.ltb_ge 0x7fff _)), (proj2 (Z.ltb_lt _ (- 0x8000))) by lia. cbn [orb].
  apply wp_bind, wp_upd_clk, wp_bind, wp_upd_clk. apply wp_bind, wp_gets, wp_bind, wp_adjtime_carry_done.
  { cbn. s32s. change hz with 200. lia. }
  apply wp_ret. unfold gettimeofday. rewrite (proj2 (Z.eqb_neq tp 0)) by done. cbn [negb].
  apply wp_bind, wp_bind, wp_gets, wp_bind, wp_copyout; [cbn [length tv_words]; by rewrite Ht|].
  intros _. apply wp_err. apply wp_bind, wp_gets. cbn [andb Z.eqb negb Sched.u_error kern set_kern Sched.set_u_error]. apply wp_ret.
  cbn [mem set_kern set_mem clk kern Sched.u_error Sched.set_u_error].
  split_and!; [done| | |lia].
  - unfold now. cbn. s32s. change hz with 200. lia.
  - rewrite (get_put _ _ (tv_words _)). cbn [tv_words fmap list_fmap tv_sec tv_usec]. cbn.
    rewrite (s32_u32 (s32 (lbolt (clk s) + usec ÷ 5000))). change usechz with 5000. by s32s.
Qed.

(** The super-user at 1000 seconds and 10 ticks. *)
Definition demo_root : sys :=
  Sys Sched.demo (set_u_uid 0 demo_user) (Clk (TV 1000 0) (TV 0 0) (TZ 0 0) 0 10 [0; 0; 0; 0])
      (put ∅ USER_DATA_START [-200; -500000]).

(** Moving it back by 200.5 seconds makes it 799 seconds and -450000 microseconds. *)
Lemma adjtime_negative_usec_witness :
  wp (adjtime USER_DATA_START 0;; gettimeofday (USER_DATA_START + 64) 0) (λ _ s',
    Sched.u_error (kern s') = 0 ∧ now (clk s') = 159910 ∧
    get (mem s') (USER_DATA_START + 64) 2 = [800; -450000] ∧ -450000 < 0) demo_root.
Proof.
  assert (Hg : get (mem demo_root) USER_DATA_START 2 = [-200; -500000]) by (vm_compute; done).
  apply (adjtime_negative_usec USER_DATA_START (USER_DATA_START + 64) demo_root (-200) (-500000) eq_refl Hg);
    (done || (vm_compute; done)).
Defined.

(** ** The profiling counters *)

(** Memory and the profiling parameters, which only [softclock] uses. *)
Definition profiled (s : sys) : gmap Z Z * uprof := (mem s, u_prof (usr s)).

Lemma front_keeps_profiled ps : keeps profiled (hardclock_front ps).
Proof.
  unfold hardclock_front, hardclock_charge, hardclock_time, gatherstats, itimer_tick, set_timer, on_co, psignal, rdp, wrp,
    u_procp, upd_usr, upd_clk.
  repeat first
    [ progress keeps_tac
    | apply keeps_any_kern; done
    | apply (keeps_update _ _ (λ l s, set_usr (_ l (usr s)) s)); done
    | apply keeps_store; intros ? ?; cbn; destruct (aget _ _); cbn; [destruct (aset _ _ _); cbn; [intros [= <-]|]|]; done ].
Qed.

Lemma softclock_loop_keeps {X} (f : sys → X) call fuel :
  (∀ fn a, keeps f (call fn a)) → (∀ k s, f (set_kern k s) = f s) → keeps f (softclock_loop call fuel).
Proof.
  intros Hc Hk. induction fuel as [|n IH]; cbn [softclock_loop]; [apply keeps_nofuel|].
  apply keeps_bind; [by apply keeps_any_kern|]. intros [[fn a]|]; [|apply keeps_ret]. apply keeps_bind; [done|]. by intros _.
Qed.

(** [profil] accepts any buffer address and [addupc] writes there without
    the check [copyout] makes: whoever the caller is, the next clock interrupt
    at the program counter given increments the word at any address, also one in
    the memory of the kernel. *)
Theorem profil_writes_anywhere call pc ps a s :
  respects call → (∀ fn x, keeps profiled (call fn x)) → wf s → room 1 s →
  USERMODE ps = true → BASEPRI ps = true → is_u32 a →
  wp (profil a 1 pc 65536;; hardclock call pc ps) (λ _ s', ld32 (mem s') a = s32 (ld32 (mem s) a + 1)) s.
Proof.
  intros Hc Hk Hw Hr Hum Hbp Ha. apply wp_bind, wp_upd_usr. set (s0 := set_usr _ s).
  assert (Hw0 : wf s0) by exact Hw. assert (Hr0 : room 1 s0) by exact Hr.
  unfold hardclock. apply wp_bind.
  eapply wp_mono; [eapply wp_frame; [apply (front_keeps_profiled ps)|by apply hardclock_front_spec]|].
  intros ns s1 [[(Hw1 & _) Hns] Hp1]. rewrite Hns by done. apply wp_bind, wp_gets. cbv beta. rewrite Hbp. cbn [andb when].
  pose proof Hw1 as (_ & _ & _ & _ & l & fs & Hrep).
  unfold softclock. apply wp_bind. eapply wp_mono.
  { eapply wp_frame; [apply (softclock_loop_keeps profiled call); [exact Hk|done]|].
    eapply wp_softclock_loop; [done|done|exact Hrep|].
    pose proof (length_filter Callout.is_due (Callout.pending (Sched.co (kern s1)) l)) as Hle.
    rewrite Callout.length_pending in Hle. destruct Hrep as (Hch & _).
    destruct (Callout.chain_tail _ _ Hch) as (h & Hh & Hc'). pose proof (Callout.co_chain_length _ _ _ Hc'). lia. }
  cbv beta. intros [] s2 [Hs2 Hp2]. rewrite Hp1 in Hp2. injection Hp2. intros Hprof Hmem. rewrite Hum. cbn [when].
  apply wp_bind, wp_gets. cbv beta. apply wp_bind, wp_gets. cbv beta. rewrite Hprof. cbn [pr_scale u_prof s0 usr set_usr].
  apply wp_bind. unfold addupc. cbn [pr_off pr_scale pr_size pr_base u_prof s0 usr set_usr set_u_prof Z.eqb negb when].
  rewrite Z.ltb_irrefl. rewrite Z.sub_diag. change (Z.shiftr (u32 (u32 0 * 65536)) 16) with 0.
  cbn [Z.leb Z.compare]. rewrite Z.mul_0_r, Z.add_0_r, (u32_id a) by done. apply wp_modify.
  eapply wp_mono; [apply (wp_softclock_renice (set_mem _ s2)), Hs2|]. cbv beta. intros [] s4 [_ ->].
  cbn [mem set_mem]. by rewrite ld32_st32, Hmem.
Qed.

(** The first word of the data of the kernel, which no user address reaches. *)
Lemma profil_writes_anywhere_witness :
  baduaddr KERNEL_DATA_START = true ∧ u_uid (usr demo) = 7 ∧
  wp (profil KERNEL_DATA_START 1 5000 65536;; hardclock idle 5000 16)
     (λ _ s', ld32 (mem s') KERNEL_DATA_START = 1) demo.
Proof.
  split; [done|]. split; [done|].
  apply (profil_writes_anywhere idle 5000 16 KERNEL_DATA_START demo idle_respects); try done.
  - intros. apply keeps_ret.
  - apply demo_wf.
  - apply demo_room. lia.
Defined.

End Clock.
