(* ===== verification/Cred.v ===== *)
(** * Credentials, resource limits and permission checks
    (sys/kernel/kern_prot.c, kern_prot2.c, kern_resource.c, ufs_fio.c and
    the permission checks of ufs_syscalls.c)

    The identity of a process is in its [user] structure, and a copy of its
    user number, cut to 16 bits, in the process table.  The system calls here
    change the identity, the groups, the limits and the priorities; [access],
    [chmod1] and [chown1] decide what an identity may do to an inode. *)

From S2P Require Import Prelude Links Callout Sched User Clock.

Module Cred.
Import User.

Definition EFTYPE : Z := 79.
Definition PRIO_MIN : Z := -20.
Definition PRIO_MAX : Z := 20.
Definition PRIO_PROCESS : Z := 0.
Definition PRIO_PGRP : Z := 1.
Definition PRIO_USER : Z := 2.
Definition RUSAGE_SELF : Z := 0.
Definition RUSAGE_CHILDREN : Z := -1.
Definition RLIMIT_CPU : Z := 0.

(** ** kern_prot.c *)

Definition rval (v : Z) : K unit := upd_usr (set_u_rval v).

Definition pfind (pid : Z) : K Z := on_kern (Sched.pfind pid).
Definition inferior (p : Z) : K bool :=
  n ← gets (λ s, size (Sched.procs (kern s)));
  on_kern (Sched.inferior_loop (S n) p).

Definition getpid : K unit := p ← u_procp; pr ← rdp p; rval (Sched.p_pid pr).
Definition getppid : K unit := p ← u_procp; pr ← rdp p; rval (Sched.p_ppid pr).

(** [if (uap->pid == 0) uap->pid = u.u_procp->p_pid;] *)
Definition own_pid (pid : Z) : K Z :=
  if pid =? 0 then p ← u_procp; pr ← rdp p; mret (Sched.p_pid pr) else mret pid.

Definition getpgrp (pid : Z) : K unit :=
  pid ← own_pid pid;
  p ← pfind pid;
  if p =? 0 then err ESRCH
  else pr ← rdp p; rval (Sched.p_pgrp pr).

Definition getuid : K unit := u ← gets usr; rval (s32 (u_ruid u)).
Definition geteuid : K unit := u ← gets usr; rval (s32 (u_uid u)).
Definition getgid : K unit := u ← gets usr; rval (s32 (u_rgid u)).
Definition getegid : K unit := g ← load (λ s, aget (u_groups (usr s)) 0); rval (s32 g).

(** [for (gp = &u.u_groups[NGROUPS]; gp > u.u_groups; gp--) if (gp[-1] != NOGROUP) break;] *)
Fixpoint ngroups (n : nat) (groups : list Z) : nat :=
  match n with
  | O => O
  | S n' => if nth n' groups 0 =? NOGROUP then ngroups n' groups else S n'
  end.

Definition getgroups (gidsetsize gidset : Z) : K unit :=
  groups ← gets (λ s, u_groups (usr s));
  let n := ngroups (Z.to_nat NGROUPS) groups in
  if gidsetsize <? Z.of_nat n then err EINVAL
  else
    e ← copyout (take n groups) gidset;
    err e;;
    when (e =? 0) (rval (Z.of_nat n)).

Definition setpgrp (pid pgrp : Z) : K unit :=
  pid ← own_pid pid;
  p ← pfind pid;
  if p =? 0 then err ESRCH
  else
    pr ← rdp p;
    uid ← gets (λ s, u_uid (usr s));
    denied ← (if negb (u32 (Sched.p_uid pr) =? uid) && negb (uid =? 0)
              then i ← inferior p; mret (negb i) else mret false);
    if denied : bool then err EPERM
    else wrp p (set_p_pgrp (s16 pgrp)).

Definition setgroups (gidsetsize gidset : Z) : K unit :=
  ok ← suser;
  when ok
    (if NGROUPS <? gidsetsize then err EINVAL
     else
       '(e, w) ← copyin gidset (Z.to_nat gidsetsize);
       err e;;
       when (e =? 0)
         (upd_usr (set_u_groups ((u32 <$> w) ++ replicate (Z.to_nat (NGROUPS - gidsetsize)) NOGROUP)))).

(** The loop over the groups that [groupmember] and [access] share; it stops at
    the first free entry. *)
Fixpoint in_groups (gid : Z) (groups : list Z) : bool :=
  match groups with
  | [] => false
  | g :: gs => if g =? NOGROUP then false else if g =? gid then true else in_groups gid gs
  end.

Definition groupmember (gid : Z) : K bool := gets (λ s, in_groups gid (u_groups (usr s))).

(** ** kern_prot2.c *)

Definition setuid (uid : Z) : K unit :=
  u ← gets usr;
  ok ← (if negb (uid =? u_ruid u) then suser else mret true);
  when ok
    (p ← u_procp;
     wrp p (set_p_uid (s16 uid));;
     upd_usr (set_u_uid uid);;
     upd_usr (set_u_ruid uid);;
     upd_usr (set_u_svuid uid);;
     err 0).

Definition seteuid (euid : Z) : K unit :=
  u ← gets usr;
  ok ← (if negb (euid =? u_ruid u) && negb (euid =? u_svuid u) then suser else mret true);
  when ok
    (upd_usr (set_u_uid euid);;
     err 0).

(** [u.u_groups[0] = gid;] *)
Definition set_group0 (gid : Z) : K unit :=
  store (λ s, l ← aset (u_groups (usr s)) 0 gid; Some (set_usr (set_u_groups l (usr s)) s)).

Definition setgid (gid : Z) : K unit :=
  u ← gets usr;
  ok ← (if negb (gid =? u_rgid u) then suser else mret true);
  when ok
    (set_group0 gid;;
     upd_usr (set_u_rgid gid);;
     upd_usr (set_u_svgid gid);;
     err 0).

Definition setegid (egid : Z) : K unit :=
  u ← gets usr;
  ok ← (if negb (egid =? u_rgid u) && negb (egid =? u_svgid u) then suser else mret true);
  when ok
    (set_group0 egid;;
     err 0).

(** ** kern_resource.c *)

(** The lowest [p_nice] of the processes on [allproc] that match. *)
Fixpoint getprio_loop (fuel : nat) (sel : Sched.proc → bool) (p low : Z) : K Z :=
  match fuel with
  | O => nofuel
  | S f =>
      if p =? 0 then mret low
      else
        pr ← rdp p;
        getprio_loop f sel (Sched.p_nxt pr)
          (if sel pr && (Sched.p_nice pr <? low) then Sched.p_nice pr else low)
  end.

Definition loop_fuel : K nat := gets (λ s, S (size (Sched.procs (kern s)))).
Definition allproc : K Z := gets (λ s, Sched.allproc (kern s)).

Definition own_pgrp (who : Z) : K Z :=
  if who =? 0 then p ← u_procp; pr ← rdp p; mret (Sched.p_pgrp pr) else mret who.
Definition own_uid (who : Z) : K Z :=
  if who =? 0 then u ← gets usr; mret (s32 (u_uid u)) else mret who.

Definition getpriority (which who : Z) : K unit :=
  let low := PRIO_MAX + 1 in
  let finish low := if low =? PRIO_MAX + 1 then err ESRCH else rval low in
  if which =? PRIO_PROCESS then
    p ← (if who =? 0 then u_procp else pfind who);
    if p =? 0 then finish low
    else pr ← rdp p; finish (Sched.p_nice pr)
  else if which =? PRIO_PGRP then
    who ← own_pgrp who;
    n ← loop_fuel;
    p ← allproc;
    low ← getprio_loop n (λ pr, Sched.p_pgrp pr =? who) p low;
    finish low
  else if which =? PRIO_USER then
    who ← own_uid who;
    n ← loop_fuel;
    p ← allproc;
    low ← getprio_loop n (λ pr, Sched.p_uid pr =? who) p low;
    finish low
  else err EINVAL.

Definition donice (p n : Z) : K unit :=
  pr ← rdp p;
  u ← gets usr;
  if negb (u_uid u =? 0) && negb (u_ruid u =? 0) &&
     negb (u_uid u =? u32 (Sched.p_uid pr)) && negb (u_ruid u =? u32 (Sched.p_uid pr))
  then err EPERM
  else
    let n := if PRIO_MAX <? n then PRIO_MAX else n in
    let n := if n <? PRIO_MIN then PRIO_MIN else n in
    ok ← (if n <? Sched.p_nice pr then suser else mret true);
    if ok : bool then wrp p (Sched.set_p_nice (s8 n))
    else err EACCES.

Fixpoint setprio_loop (fuel : nat) (sel : Sched.proc → bool) (p prio found : Z) : K Z :=
  match fuel with
  | O => nofuel
  | S f =>
      if p =? 0 then mret found
      else
        pr ← rdp p;
        when (sel pr) (donice p prio);;
        setprio_loop f sel (Sched.p_nxt pr) prio (if sel pr then found + 1 else found)
  end.

Definition setpriority (which who prio : Z) : K unit :=
  let finish found := when (found =? 0) (err ESRCH) in
  if which =? PRIO_PROCESS then
    p ← (if who =? 0 then u_procp else pfind who);
    if p =? 0 then finish 0
    else donice p prio;; finish 1
  else if which =? PRIO_PGRP then
    who ← own_pgrp who;
    n ← loop_fuel;
    p ← allproc;
    found ← setprio_loop n (λ pr, Sched.p_pgrp pr =? who) p prio 0;
    finish found
  else if which =? PRIO_USER then
    who ← own_uid who;
    n ← loop_fuel;
    p ← allproc;
    found ← setprio_loop n (λ pr, Sched.p_uid pr =? who) p prio 0;
    finish found
  else err EINVAL.

(** [RLIMIT_CPU] is stored in ticks. *)
Definition to_ticks (v : Z) : Z := if RLIM_INFINITY ÷ hz <=? v then RLIM_INFINITY else s32 (v * hz).
Definition from_ticks (v : Z) : Z := if v =? RLIM_INFINITY then v else v ÷ hz.

Definition setrlimit (which lim : Z) : K unit :=
  if RLIM_NLIMITS <=? which then err EINVAL
  else
    '(e, w) ← copyin lim 2;
    err e;;
    when (e =? 0)
      (let alim := RL (nth 0 w 0) (nth 1 w 0) in
       let alim := if which =? RLIMIT_CPU then RL (to_ticks (rlim_cur alim)) (to_ticks (rlim_max alim)) else alim in
       old ← load (λ s, aget (u_rlimit (usr s)) which);
       ok ← (if (rlim_max old <? rlim_cur alim) || (rlim_max old <? rlim_max alim) then suser else mret true);
       when ok
         (store (λ s, l ← aset (u_rlimit (usr s)) which alim; Some (set_usr (set_u_rlimit l (usr s)) s)))).

Definition getrlimit (which rlp : Z) : K unit :=
  if RLIM_NLIMITS <=? which then err EINVAL
  else
    lim ← load (λ s, aget (u_rlimit (usr s)) which);
    e ← (if which =? RLIMIT_CPU
         then copyout [from_ticks (rlim_cur lim); from_ticks (rlim_max lim)] rlp
         else copyout [rlim_cur lim; rlim_max lim] rlp);
    err e.

(** The words of a [struct rusage]; the five fields after [ru_maxrss] that the
    kernel does not keep are zero. *)
Definition rucvt (k : k_rusage) : list Z :=
  [ru_utime k ÷ hz; s32 (Z.rem (ru_utime k) hz * usechz); ru_stime k ÷ hz; s32 (Z.rem (ru_stime k) hz * usechz);
   0; 0; 0; 0; 0; 0;
   ru_nswap k; ru_inblock k; ru_oublock k; ru_msgsnd k; ru_msgrcv k; ru_nsignals k; ru_nvcsw k; ru_nivcsw k].

Definition getrusage (who rusage : Z) : K unit :=
  u ← gets usr;
  nv ← gets (λ s, Sched.ru_nvcsw (kern s));
  if who =? RUSAGE_SELF then e ← copyout (rucvt (set_ru_nvcsw nv (u_ru u))) rusage; err e
  else if who =? RUSAGE_CHILDREN then e ← copyout (rucvt (u_cru u)) rusage; err e
  else err EINVAL.

Definition ruadd (ru ru2 : k_rusage) : k_rusage :=
  KR (s32 (ru_utime ru + ru_utime ru2)) (s32 (ru_stime ru + ru_stime ru2)) (s32 (ru_nswap ru + ru_nswap ru2))
     (s32 (ru_inblock ru + ru_inblock ru2)) (s32 (ru_oublock ru + ru_oublock ru2)) (s32 (ru_msgsnd ru + ru_msgsnd ru2))
     (s32 (ru_msgrcv ru + ru_msgrcv ru2)) (s32 (ru_nsignals ru + ru_nsignals ru2)) (s32 (ru_nvcsw ru + ru_nvcsw ru2))
     (s32 (ru_nivcsw ru + ru_nivcsw ru2)).

(** ** Permission checks on inodes *)

Definition IFMT : Z := 0xF000.
Definition IFCHR : Z := 0x2000.
Definition IFDIR : Z := 0x4000.
Definition IFBLK : Z := 0x6000.
Definition ISUID : Z := 0x800.
Definition ISGID : Z := 0x400.
Definition ISVTX : Z := 0x200.
Definition IREAD : Z := 0x100.
Definition IWRITE : Z := 0x80.
Definition IEXEC : Z := 0x40.
Definition ICHG : Z := 0x40.
Definition IMMUTABLE : Z := Z.lor 0x0002 0x0200.

Record inode := Inode {
  i_mode : Z;
  i_uid : Z;
  i_gid : Z;
  i_flags : Z;
  i_flag : Z;
  fs_ronly : bool
}.

Definition access (ip : inode) (mode : Z) : K Z :=
  let check :=
    u ← gets usr;
    if u_uid u =? 0 then mret 0
    else
      let m :=
        if negb (u_uid u =? i_uid ip) then
          let m := Z.shiftr mode 3 in
          if in_groups (i_gid ip) (u_groups u) then m else Z.shiftr m 3
        else mode in
      if negb (Z.land (i_mode ip) m =? 0) then mret 0
      else err EACCES;; mret 1 in
  if mode =? IWRITE then
    if negb (Z.land (i_flags ip) IMMUTABLE =? 0) then err EPERM;; mret 1
    else if fs_ronly ip && negb (Z.land (i_mode ip) IFMT =? IFCHR) && negb (Z.land (i_mode ip) IFMT =? IFBLK)
    then err EROFS;; mret 1
    else check
  else check.

Definition chmod1 (ip : inode) (mode : Z) : K (Z * inode) :=
  uid ← gets (λ s, u_uid (usr s));
  ok ← (if negb (uid =? i_uid ip) then suser else mret true);
  if ok : bool then
    member ← groupmember (i_gid ip);
    if negb (uid =? 0) && (negb (Z.land (i_mode ip) IFMT =? IFDIR) && negb (Z.land mode ISVTX =? 0))
    then mret (EFTYPE, ip)
    else if negb (uid =? 0) && (negb member && negb (Z.land mode ISGID =? 0))
    then mret (EPERM, ip)
    else
      mret (0, Inode (Z.lor (Z.land (i_mode ip) (Z.lnot 0xFFF)) (Z.land mode 0xFFF)) (i_uid ip) (i_gid ip)
                     (i_flags ip) (Z.lor (i_flag ip) ICHG) (fs_ronly ip))
  else e ← u_error; mret (e, ip).

Definition chown1 (ip : inode) (uid gid : Z) : K (Z * inode) :=
  let uid := if uid =? -1 then i_uid ip else u32 uid in
  let gid := if gid =? -1 then i_gid ip else u32 gid in
  me ← gets (λ s, u_uid (usr s));
  member ← groupmember gid;
  ok ← (if negb (me =? i_uid ip) || negb (uid =? i_uid ip) || negb member then suser else mret true);
  if ok : bool then
    let flag := if negb (i_uid ip =? uid) || negb (i_gid ip =? gid) then Z.lor (i_flag ip) ICHG else i_flag ip in
    let mode := if negb (i_uid ip =? uid) && negb (me =? 0) then Z.land (i_mode ip) (Z.lnot ISUID) else i_mode ip in
    let mode := if negb (i_gid ip =? gid) && negb (me =? 0) then Z.land mode (Z.lnot ISGID) else mode in
    mret (0, Inode mode uid gid (i_flags ip) flag (fs_ronly ip))
  else e ← u_error; mret (e, ip).

(** ** The decision [access] makes *)

(** Groups count up to the first free entry. *)
Definition member (gid : Z) (groups : list Z) : Prop :=
  ∃ pre post, groups = pre ++ gid :: post ∧ NOGROUP ∉ pre ++ [gid].

Lemma in_groups_spec gid groups : in_groups gid groups = true ↔ member gid groups.
Proof.
  induction groups as [|g gs IH]; cbn [in_groups].
  { split; [done|]. intros (pre & post & E & _). by destruct pre. }
  destruct (Z.eqb_spec g NOGROUP) as [->|Hn].
  { split; [done|]. intros (pre & post & E & Hno). destruct pre as [|x pre]; simplify_eq/=; set_solver. }
  destruct (Z.eqb_spec g gid) as [->|Hg].
  { split; [|done]. intros _. exists [], gs. split; [done|]. set_solver. }
  rewrite IH. split.
  - intros (pre & post & -> & Hno). exists (g :: pre), post. split; [done|]. set_solver.
  - intros (pre & post & E & Hno). destruct pre as [|x pre]; simplify_eq/=. exists pre, post. split; [done|set_solver].
Qed.

(** The permission bit of the one class the caller falls in. *)
Definition granted (u : user) (ip : inode) (bit : Z) : Prop :=
  u_uid u = 0 ∨
  (u_uid u = i_uid ip ∧ Z.testbit (i_mode ip) bit = true) ∨
  (u_uid u ≠ i_uid ip ∧ member (i_gid ip) (u_groups u) ∧ Z.testbit (i_mode ip) (bit - 3) = true) ∨
  (u_uid u ≠ i_uid ip ∧ ¬ member (i_gid ip) (u_groups u) ∧ Z.testbit (i_mode ip) (bit - 6) = true).

Definition immutable (ip : inode) : Prop := Z.testbit (i_flags ip) 1 = true ∨ Z.testbit (i_flags ip) 9 = true.
Definition device (ip : inode) : Prop := Z.land (i_mode ip) IFMT = IFCHR ∨ Z.land (i_mode ip) IFMT = IFBLK.

(** The outcome of a check as an error number, 0 for granted. *)
Inductive verdict (u : user) (ip : inode) (bit : Z) : Z → Prop :=
| v_immutable : bit = 7 → immutable ip → verdict u ip bit EPERM
| v_readonly : bit = 7 → ¬ immutable ip → fs_ronly ip = true → ¬ device ip → verdict u ip bit EROFS
| v_granted : (bit = 7 → ¬ immutable ip ∧ (fs_ronly ip = true → device ip)) → granted u ip bit → verdict u ip bit 0
| v_denied : (bit = 7 → ¬ immutable ip ∧ (fs_ronly ip = true → device ip)) → ¬ granted u ip bit → verdict u ip bit EACCES.

Lemma land_bit f n : 0 ≤ n → (Z.land f (2 ^ n) =? 0) = negb (Z.testbit f n).
Proof. apply flag_test. Qed.

Lemma immutable_spec ip : negb (Z.land (i_flags ip) IMMUTABLE =? 0) = true ↔ immutable ip.
Proof.
  unfold immutable, IMMUTABLE. rewrite Z.land_lor_distr_r. rewrite negb_true_iff, Z.eqb_neq, Z.lor_eq_0_iff.
  change 0x0002 with (2 ^ 1). change 0x0200 with (2 ^ 9).
  rewrite <- !Z.eqb_eq, !land_bit by lia. destruct (Z.testbit (i_flags ip) 1), (Z.testbit (i_flags ip) 9); cbn; naive_solver.
Qed.

Lemma shiftr_pow2 n k : 0 ≤ k ≤ n → Z.shiftr (2 ^ n) k = 2 ^ (n - k).
Proof. intros. rewrite Z.shiftr_div_pow2 by lia. rewrite <- Z.pow_sub_r by lia. done. Qed.

(** The mode bits selected by the shifts in [access]. *)
Definition class_mask (u : user) (ip : inode) (mode : Z) : Z :=
  if negb (u_uid u =? i_uid ip) then
    let m := Z.shiftr mode 3 in
    if in_groups (i_gid ip) (u_groups u) then m else Z.shiftr m 3
  else mode.

Lemma class_mask_spec u ip bit : 6 ≤ bit ≤ 8 → u_uid u ≠ 0 →
  negb (Z.land (i_mode ip) (class_mask u ip (2 ^ bit)) =? 0) = true ↔ granted u ip bit.
Proof.
  intros Hb Hu. unfold class_mask, granted. cbv zeta.
  pose proof (in_groups_spec (i_gid ip) (u_groups u)) as Hg.
  destruct (Z.eqb_spec (u_uid u) (i_uid ip)) as [E|E]; cbn [negb].
  { rewrite land_bit, negb_involutive by lia. naive_solver. }
  rewrite !shiftr_pow2 by lia. replace (bit - 3 - 3) with (bit - 6) by lia.
  destruct (in_groups (i_gid ip) (u_groups u)); rewrite land_bit, negb_involutive by lia; naive_solver.
Qed.

Lemma verdict_unique u ip bit e e' : verdict u ip bit e → verdict u ip bit e' → e = e'.
Proof. destruct 1; destruct 1; (done || naive_solver). Qed.


(** A file of another user, mode 0640, group 5: member 7 of group 5 may read it
    and not write it. *)
Definition demo_inode : inode := Inode 0x81A0 1 5 0 0 false.


(** ** Changing attributes *)

(** What [chown1] and [chmod1] may leave behind for a caller who is not the
    super-user. *)
Definition chown_allowed (u : user) (ip ip' : inode) (gid : Z) : Prop :=
  u_uid u = i_uid ip ∧ i_uid ip' = i_uid ip ∧ i_gid ip' = (if gid =? -1 then i_gid ip else u32 gid) ∧
  member (i_gid ip') (u_groups u) ∧
  i_mode ip' = (if i_gid ip =? i_gid ip' then i_mode ip else Z.land (i_mode ip) (Z.lnot ISGID)).

Definition chmod_allowed (u : user) (ip ip' : inode) (mode : Z) : Prop :=
  u_uid u = i_uid ip ∧ i_uid ip' = i_uid ip ∧ i_gid ip' = i_gid ip ∧
  (Z.testbit mode 9 = true → Z.land (i_mode ip) IFMT = IFDIR) ∧
  (Z.testbit mode 10 = true → member (i_gid ip) (u_groups u)) ∧
  i_mode ip' = Z.lor (Z.land (i_mode ip) (Z.lnot 0xFFF)) (Z.land mode 0xFFF).

Lemma wp_suser_user (Q : bool → sys → Prop) s :
  u_uid (usr s) ≠ 0 → Q false (set_kern (Sched.set_u_error EPERM (kern s)) s) → wp suser Q s.
Proof. intros Hu HQ. apply wp_suser. by rewrite (proj2 (Z.eqb_neq _ 0)). Qed.

(** C20: A caller who is not the super-user can change owner, group or mode only
    of a file it owns: it cannot give the file away, can give it only to one of
    its groups, which takes the set-group-id bit from it, and cannot set that bit
    for a group it is not in, nor the sticky bit on anything but a directory.  A
    refused change leaves the inode alone and reports why. *)
Theorem attributes_guarded ip s uid gid mode :
  u_uid (usr s) ≠ 0 →
  wp (chown1 ip uid gid) (λ r _, (r.1 = 0 ∧ chown_allowed (usr s) ip r.2 gid) ∨ (r.1 = EPERM ∧ r.2 = ip)) s ∧
  wp (chmod1 ip mode) (λ r _, (r.1 = 0 ∧ chmod_allowed (usr s) ip r.2 mode) ∨
                              ((r.1 = EPERM ∨ r.1 = EFTYPE) ∧ r.2 = ip)) s.
Proof.
  intros Hu. pose proof (proj2 (Z.eqb_neq (u_uid (usr s)) 0) Hu) as Hu0. split.
  - unfold chown1. apply wp_bind, wp_gets, wp_bind, wp_gets, wp_bind.
    set (uid' := if uid =? -1 then _ else _). set (gid' := if gid =? -1 then _ else _).
    destruct (negb (_ =? i_uid ip) || _ || _) eqn:E.
    { apply wp_suser_user; [done|]. apply wp_bind, wp_gets, wp_ret. by right. }
    apply orb_false_iff in E as [[E1 E2]%orb_false_iff E3]. to_prop. apply wp_ret. cbv zeta. apply wp_ret. left. split; [done|].
    rewrite (proj2 (Z.eqb_neq (u_uid (usr s)) 0) Hu), E2, Z.eqb_refl. cbn [snd negb andb]. rewrite andb_true_r. split_and!; try done.
    + by apply in_groups_spec.
    + cbn. by destruct (i_gid ip =? gid').
  - unfold chmod1. apply wp_bind, wp_gets, wp_bind. rewrite Hu0. cbn [negb andb].
    destruct (Z.eqb_spec (u_uid (usr s)) (i_uid ip)) as [Eo|]; cbn [negb].
    2:{ apply wp_suser_user; [done|]. apply wp_bind, wp_gets, wp_ret. right. by split; [left|]. }
    apply wp_ret, wp_bind, wp_gets. change ISVTX with (2 ^ 9). change ISGID with (2 ^ 10). rewrite !land_bit, !negb_involutive by lia.
    destruct (negb _ && Z.testbit mode 9) eqn:E1; [apply wp_ret; right; by split; [right|]|].
    destruct (negb _ && Z.testbit mode 10) eqn:E2; [apply wp_ret; right; by split; [left|]|].
    apply wp_ret. left. split; [done|]. split_and!; try done.
    + intros Hb. rewrite Hb, andb_true_r in E1. to_prop. done.
    + intros Hb. rewrite Hb, andb_true_r in E2. to_prop. by apply in_groups_spec.
Qed.

(** User 7 of group 5 gives its set-group-id file of group 4 to group 5. *)
Lemma attributes_guarded_witness :
  wp (chown1 (Inode 0x85A0 7 4 0 0 false) (-1) 5)
     (λ r _, (r.1 = 0 ∧ chown_allowed (usr Clock.demo) (Inode 0x85A0 7 4 0 0 false) r.2 5) ∨
             (r.1 = EPERM ∧ r.2 = Inode 0x85A0 7 4 0 0 false)) Clock.demo ∧
  wp (chmod1 (Inode 0x85A0 7 4 0 0 false) 0x9ED)
     (λ r _, (r.1 = 0 ∧ chmod_allowed (usr Clock.demo) (Inode 0x85A0 7 4 0 0 false) r.2 0x9ED) ∨
             ((r.1 = EPERM ∨ r.1 = EFTYPE) ∧ r.2 = Inode 0x85A0 7 4 0 0 false)) Clock.demo.
Proof. apply (attributes_guarded (Inode 0x85A0 7 4 0 0 false) Clock.demo). vm_compute. done. Defined.

(** ** Confinement of unprivileged processes *)

Notation kst := (Sched.kst Callout.cost).
Notation proc := Sched.proc.
Implicit Types (k : kst).

Definition ids (u : user) : list Z := [u_uid u; u_ruid u; u_svuid u].
Definition gids (u : user) : list Z := u_rgid u :: u_svgid u :: take 1 (u_groups u).
Definition unprivileged (s : sys) : Prop := 0 ∉ ids (usr s).

(** The fields of a process no call here changes. *)
Definition skel (pr : proc) : Z * Z * Z * Z * Z :=
  (Sched.p_nxt pr, Sched.p_pptr pr, Sched.p_pid pr, Sched.p_ppid pr, Sched.p_hash pr).

(** The process itself and its descendants. *)
Inductive below (k : kst) : Z → Prop :=
| below_self : below k (Sched.u_procp k)
| below_child p pr : Sched.procs k !! p = Some pr → Sched.p_ppid pr ≠ 0 → below k (Sched.p_pptr pr) → below k p.

(** The list of all processes, the hash table and the parent links are well
    formed; every process has a rank above that of its parent. *)
Definition next_of (k : kst) (p : Z) : option Z := Sched.p_nxt <$> Sched.procs k !! p.

Definition tables (k : kst) : Prop :=
  is_Some (Sched.procs k !! Sched.u_procp k) ∧
  (∃ l, chain (next_of k) (Sched.allproc k) l) ∧
  (∃ hq, Sched.hashed k hq) ∧
  (∃ rank : Z → nat, ∀ p pr, Sched.procs k !! p = Some pr → (rank p < size (Sched.procs k))%nat ∧
     (Sched.p_ppid pr ≠ 0 → is_Some (Sched.procs k !! Sched.p_pptr pr) ∧ (rank (Sched.p_pptr pr) < rank p)%nat)).

Definition ok (s : sys) : Prop :=
  tables (kern s) ∧ length (u_groups (usr s)) = 16%nat ∧ length (u_rlimit (usr s)) = 6%nat ∧
  length (u_timer (usr s)) = 2%nat.

(** What a step may do to the process table on behalf of a user with [ids]. *)
Definition procs_step (k k' : kst) (own : list Z) : Prop :=
  Sched.u_procp k' = Sched.u_procp k ∧ Sched.allproc k' = Sched.allproc k ∧ Sched.pidhash k' = Sched.pidhash k ∧
  skel <$> Sched.procs k' = skel <$> Sched.procs k ∧
  ∀ p pr pr', Sched.procs k !! p = Some pr → Sched.procs k' !! p = Some pr' →
    Sched.p_nice pr ≤ Sched.p_nice pr' ∧
    (p ≠ Sched.u_procp k → Sched.p_uid pr' = Sched.p_uid pr ∧
       (u32 (Sched.p_uid pr) ∉ own → Sched.p_nice pr' = Sched.p_nice pr ∧
          (¬ below k p → Sched.p_pgrp pr' = Sched.p_pgrp pr))).

Definition lowered (l l' : list rlimit) : Prop := Forall2 (λ a b, rlim_max b ≤ rlim_max a) l l'.

Definition confined (s s' : sys) : Prop :=
  ok s' ∧ ids (usr s') ⊆ ids (usr s) ∧ gids (usr s') ⊆ gids (usr s) ∧
  drop 1 (u_groups (usr s')) = drop 1 (u_groups (usr s)) ∧
  lowered (u_rlimit (usr s)) (u_rlimit (usr s')) ∧ clk s' = clk s ∧ procs_step (kern s) (kern s') (ids (usr s)).

Lemma skel_lookup k k' p : skel <$> Sched.procs k' = skel <$> Sched.procs k →
  skel <$> (Sched.procs k' !! p) = skel <$> (Sched.procs k !! p).
Proof. intros H. by rewrite <- !lookup_fmap, H. Qed.

Lemma skel_Some k k' p pr : skel <$> Sched.procs k' = skel <$> Sched.procs k →
  Sched.procs k !! p = Some pr → ∃ pr', Sched.procs k' !! p = Some pr' ∧ skel pr' = skel pr.
Proof.
  intros H Hp. pose proof (skel_lookup _ _ p H) as E. rewrite Hp in E.
  destruct (Sched.procs k' !! p) as [pr'|]; [|done]. apply (inj Some) in E. eauto.
Qed.

Lemma below_skel k k' p :
  skel <$> Sched.procs k' = skel <$> Sched.procs k → Sched.u_procp k' = Sched.u_procp k → below k p → below k' p.
Proof.
  intros Hs Hu. induction 1 as [|p pr Hp Hpp Hb IH]; [rewrite <- Hu; constructor|].
  destruct (skel_Some _ _ _ _ Hs Hp) as (pr' & Hp' & E). injection E as E1 E2 E3 E4 E5.
  eapply below_child; [exact Hp'|congruence|]. by rewrite E2.
Qed.

Lemma tables_skel k k' :
  skel <$> Sched.procs k' = skel <$> Sched.procs k → Sched.u_procp k' = Sched.u_procp k →
  Sched.allproc k' = Sched.allproc k → Sched.pidhash k' = Sched.pidhash k → tables k → tables k'.
Proof.
  intros Hs Hu Ha Hh ([pr0 H0] & (l & Hl) & (hq & Hq1 & Hq2) & (rank & Hr)).
  assert (Hsz : size (Sched.procs k') = size (Sched.procs k)).
  { rewrite <- !(size_dom), <- (dom_fmap_L skel (Sched.procs k')), Hs. by rewrite dom_fmap_L. }
  assert (Hx : ∀ (f : proc → Z) p, (∀ a b, skel a = skel b → f a = f b) →
    f <$> (Sched.procs k' !! p) = f <$> (Sched.procs k !! p)).
  { intros f p Hf. pose proof (skel_lookup _ _ p Hs) as E.
    destruct (Sched.procs k' !! p), (Sched.procs k !! p); try done. apply (inj Some) in E. cbn. f_equal. by apply Hf. }
  split_and!.
  - rewrite Hu. destruct (skel_Some _ _ _ _ Hs H0) as (pr' & -> & _). eauto.
  - exists l. rewrite Ha. eapply lseg_ext; [|exact Hl]. intros z _. apply Hx. unfold skel. congruence.
  - exists hq. split.
    + intros i Hi. destruct (Hq1 i Hi) as (h & Hh1 & Hc). exists h. rewrite Hh. split; [done|].
      eapply lseg_ext; [|exact Hc]. intros z _. apply Hx. unfold skel. congruence.
    + intros i p Hi Hp. rewrite <- (Hq2 i p Hi Hp). unfold Sched.pid_of. by rewrite Hx by (unfold skel; congruence).
  - exists rank. intros p pr Hp. rewrite Hsz. symmetry in Hs. destruct (skel_Some _ _ _ _ Hs Hp) as (pr' & Hp' & E).
    injection E as E1 E2 E3 E4 E5. destruct (Hr _ _ Hp') as [H1 H2]. split; [done|]. rewrite <- E2, <- E4. intros Hpp.
    destruct (H2 Hpp) as [[q Hq] ?]. split; [|done]. symmetry in Hs.
    destruct (skel_Some _ _ _ _ Hs Hq) as (q' & -> & _). eauto.
Qed.

Lemma lowered_refl l : lowered l l.
Proof. induction l; constructor; [lia|done]. Qed.

Lemma procs_step_refl k own : procs_step k k own.
Proof. split_and!; try done. intros p pr pr' H1 H2. simplify_eq. by split_and!. Qed.

Lemma confined_refl s : ok s → confined s s.
Proof. intros. split_and!; try done; [apply lowered_refl|apply procs_step_refl]. Qed.

Lemma procs_step_trans k1 k2 k3 own own2 :
  own2 ⊆ own → procs_step k1 k2 own → procs_step k2 k3 own2 → procs_step k1 k3 own.
Proof.
  intros Ho (A1 & A2 & A3 & A4 & A5) (B1 & B2 & B3 & B4 & B5). split_and!; try congruence.
  intros p pr pr3 H1 H3. destruct (skel_Some _ _ _ _ A4 H1) as (pr2 & H2 & _).
  destruct (A5 p pr pr2 H1 H2) as [C1 C2], (B5 p pr2 pr3 H2 H3) as [D1 D2]. split; [lia|].
  intros Hp. destruct (C2 Hp) as [C3 C4], D2 as [D3 D4]; [congruence|]. split; [congruence|].
  intros Hno. destruct (C4 Hno) as [C5 C6], D4 as [D5 D6]; [rewrite C3; set_solver|]. split; [congruence|].
  intros Hb. rewrite D6, C6; [done|done|]. intros Hb2. apply Hb. by apply (below_skel k2).
Qed.

Lemma confined_trans s1 s2 s3 : confined s1 s2 → confined s2 s3 → confined s1 s3.
Proof.
  intros (A1 & A2 & A3 & A4 & A5 & A6 & A7) (B1 & B2 & B3 & B4 & B5 & B6 & B7).
  split_and!; [done|by etransitivity|by etransitivity|congruence| |congruence|by eapply procs_step_trans].
  unfold lowered in *. eapply Forall2_trans; [|exact A5|exact B5]. cbv beta. lia.
Qed.

Lemma confined_ok s s' : confined s s' → ok s'.
Proof. by intros []. Qed.

Lemma confined_unprivileged s s' : unprivileged s → confined s s' → unprivileged s'.
Proof. unfold unprivileged. intros Hu (_ & Hi & _). set_solver. Qed.

(** Everything [confined] speaks of. *)
Definition core (s : sys) :=
  let u := usr s in let k := kern s in
  (u_uid u, u_svuid u, u_ruid u, u_svgid u, u_rgid u, u_groups u, u_rlimit u, length (u_timer u),
   clk s, Sched.procs k, Sched.u_procp k, Sched.allproc k, Sched.pidhash k).

Lemma confined_core s s' : ok s → core s' = core s → confined s s'.
Proof.
  intros Hok Hc. injection Hc. intros E1 E2 E3 E4 E5 E6 E7 E8 E9 E10 E11 E12 E13.
  destruct Hok as (Ht & H1 & H2 & H3). unfold confined, ok, ids, gids, procs_step.
  rewrite E1, E2, E3, E4, E5, E6, E7, E8, E9, E10, E11, E12, E13.
  split_and!; try done; [by eapply tables_skel; try rewrite E4|apply lowered_refl|].
  intros p pr pr' G1 G2. simplify_eq. by split_and!.
Qed.

Lemma confined_user s u :
  ok s → ids u ⊆ ids (usr s) → gids u ⊆ gids (usr s) → drop 1 (u_groups u) = drop 1 (u_groups (usr s)) →
  length (u_groups u) = 16%nat → length (u_timer u) = 2%nat → lowered (u_rlimit (usr s)) (u_rlimit u) →
  confined s (set_usr u s).
Proof.
  intros (Ht & H1 & H2 & H3) ? ? ? ? ? Hl. split_and!; try done; [|apply procs_step_refl].
  split_and!; try done. cbn. by rewrite <- (Forall2_length _ _ _ Hl).
Qed.

Lemma confined_proc s p pr pr' :
  ok s → Sched.procs (kern s) !! p = Some pr → skel pr' = skel pr → Sched.p_nice pr ≤ Sched.p_nice pr' →
  (p ≠ Sched.u_procp (kern s) → Sched.p_uid pr' = Sched.p_uid pr ∧
     (u32 (Sched.p_uid pr) ∉ ids (usr s) → Sched.p_nice pr' = Sched.p_nice pr ∧
        (¬ below (kern s) p → Sched.p_pgrp pr' = Sched.p_pgrp pr))) →
  confined s (set_kern (Sched.set_procs (<[p := pr']> (Sched.procs (kern s))) (kern s)) s).
Proof.
  intros (Ht & H1) Hp Hs Hn Hrest.
  assert (Hsk : skel <$> <[p := pr']> (Sched.procs (kern s)) = skel <$> Sched.procs (kern s)).
  { rewrite fmap_insert, Hs. apply insert_id. by rewrite lookup_fmap, Hp. }
  split; [split; [by eapply tables_skel|done]|]. do 3 (split; [done|]). split; [apply lowered_refl|].
  split; [done|]. split_and!; [done|done|done|exact Hsk|].
  - intros q qr qr' Hq. cbn. destruct (decide (p = q)) as [<-|Hne].
    + rewrite lookup_insert_eq. intros [= <-]. simplify_eq. by split.
    + rewrite lookup_insert_ne by done. intros. simplify_eq. by split_and!.
Qed.

(** ** Each call is confined *)

(** [m] returns from every well-formed state of an unprivileged process and is
    confined there. *)
Definition safe {A} (m : K A) : Prop := ∀ s, ok s → unprivileged s → wp m (λ _ s', confined s s') s.

Lemma safe_then s0 {A} (m : K A) s :
  safe m → unprivileged s0 → confined s0 s → wp m (λ _ s', confined s0 s') s.
Proof.
  intros Hm Hu Hc. eapply wp_mono; [apply Hm; [by eapply confined_ok|by eapply confined_unprivileged]|].
  cbv beta. intros a s' Hc'. by eapply confined_trans.
Qed.

(** What keeps [core] needs only to return. *)
Definition calm {A} (m : K A) : Prop := keeps core m ∧ ∀ s, ok s → wp m (λ _ _, True) s.

Lemma calm_safe {A} (m : K A) : calm m → safe m.
Proof.
  intros [Hk Hw] s Hok Hu. eapply wp_mono; [eapply wp_frame; [exact Hk|by apply Hw]|].
  cbv beta. intros a s' [_ Hc]. by apply confined_core.
Qed.

Lemma calm_bind {A B} (m : K A) (f : A → K B) : calm m → (∀ a, calm (f a)) → calm (m ≫= f).
Proof.
  intros [Hk Hw] Hf. split; [apply keeps_bind; [done|apply Hf]|]. intros s Hok. apply wp_bind.
  eapply wp_mono; [eapply wp_frame; [exact Hk|by apply Hw]|]. cbv beta. intros a s' [_ Hc].
  apply Hf. by apply (confined_ok s), confined_core.
Qed.

Lemma calm_ret {A} (a : A) : calm (mret a).
Proof. split; [apply keeps_ret|]. intros. by apply wp_ret. Qed.

Lemma calm_gets {A} (f : sys → A) : calm (gets f).
Proof. split; [apply keeps_gets|]. intros. by apply wp_gets. Qed.

Lemma calm_when b (m : K unit) : calm m → calm (when b m).
Proof. destruct b; [done|]. intros _. apply calm_ret. Qed.

Lemma calm_err e : calm (err e).
Proof. split; [by intros s a s' [= <- <-]|]. intros. by apply wp_err. Qed.

Lemma calm_usr f : (∀ s, core (set_usr (f (usr s)) s) = core s) → calm (upd_usr f).
Proof. intros Hf. split; [apply keeps_modify; exact Hf|]. intros. by apply wp_modify. Qed.

Lemma calm_rval v : calm (rval v).
Proof. by apply calm_usr. Qed.

Lemma calm_copyout ws dst : calm (copyout ws dst).
Proof. unfold copyout. destruct (_ || _); [apply calm_ret|]. apply calm_bind; [|intros; apply calm_ret].
  split; [by apply keeps_modify|]. intros. by apply wp_modify.
Qed.

Lemma calm_copyin src n : calm (copyin src n).
Proof. unfold copyin. destruct (_ || _); [apply calm_ret|apply calm_gets]. Qed.

Lemma calm_suser : calm suser.
Proof. apply calm_bind; [apply calm_gets|]. intros uid. destruct (_ =? _); [apply calm_ret|]. apply calm_bind; [apply calm_err|intros; apply calm_ret]. Qed.

Lemma calm_load {A} (f : sys → option A) : (∀ s, ok s → is_Some (f s)) → calm (load f).
Proof. intros Hf. split; [apply keeps_load|]. intros s Hok. destruct (Hf s Hok) as [a Ha]. by eapply wp_load. Qed.

Lemma keeps_u_rdp {X} (f : sys → X) p : keeps f (rdp p).
Proof.
  intros s a s'. unfold rdp, on_kern, Sched.rdp, load. destruct (_ !! p); [|done]. intros [= <- <-]. by destruct s.
Qed.

Lemma calm_own : calm (p ← u_procp; rdp p).
Proof.
  split; [apply keeps_bind; [apply keeps_gets|]; intros; apply keeps_u_rdp|].
  intros s (([pr Hp] & _) & _). apply wp_bind, wp_gets. by eapply wp_u_rdp.
Qed.

#[local] Hint Resolve calm_ret calm_gets calm_when calm_err calm_rval calm_copyout calm_copyin calm_suser : calm.

(** Follow the structure of a call that only reads. *)
Ltac calm_tac :=
  repeat first
    [ solve [eauto 1 with calm nocore]
    | apply calm_bind; [|intros ?]
    | apply calm_when
    | match goal with
      | |- calm (match ?b with _ => _ end) => destruct b
      | |- calm (let _ := _ in _) => cbv zeta
      end ].

(** Reading the entry of the process itself. *)
Lemma calm_self {A} (f : proc → K A) : (∀ pr, calm (f pr)) → calm (p ← u_procp; pr ← rdp p; f pr).
Proof.
  intros Hf. pose proof (calm_bind _ f calm_own Hf) as [Hk Hw]. split.
  - intros s a s' E. apply (Hk s a s'). revert E. unfold mbind, M_bind. by destruct (u_procp s).
  - intros s Hok. apply wp_bind. apply Hw in Hok. unfold u_procp in *. apply wp_gets. rewrite wp_run in Hok |- *.
    destruct Hok as (a & s' & E & _). exists a, s'. split; [|done]. exact E.
Qed.

Lemma wp_pfind pid (Q : Z → sys → Prop) s :
  ok s → Q 0 s → (∀ p pr, p ≠ 0 → Sched.procs (kern s) !! p = Some pr → Q p s) → wp (pfind pid) Q s.
Proof.
  intros ((_ & _ & (hq & H1 & _) & _) & _) H0 HQ. apply wp_on_kern. unfold Sched.pfind.
  destruct (H1 _ (Sched.PIDHASH_range pid)) as (h & Hh & Hc). apply wp_bind. eapply wp_load; [exact Hh|].
  apply wp_bind, wp_gets. eapply wp_mono; [apply (Sched.pfind_loop_ok _ _ _ _ pid Hc)|].
  { pose proof (Sched.hchain_length _ _ _ Hc). lia. }
  cbv beta. intros r k [-> Hr]. replace (set_kern (kern s) s) with s by (by destruct s).
  destruct Hr as [[-> _]|(Hr0 & Hr & _)]; [done|].
  apply list_elem_of_split in Hr as (l1 & l2 & E). rewrite E in Hc. apply lseg_app in Hc as (q & _ & -> & _ & n & Hn & _).
  unfold Sched.hnk in Hn. destruct (Sched.procs (kern s) !! r) as [pr|] eqn:Hp; [|done]. by eapply HQ.
Qed.

Lemma wp_inferior p (Q : bool → sys → Prop) s :
  ok s → is_Some (Sched.procs (kern s) !! p) → (∀ b, (b = true → below (kern s) p) → Q b s) → wp (inferior p) Q s.
Proof.
  intros ((_ & _ & _ & (rank & Hr)) & _) Hp HQ. unfold inferior. apply wp_bind, wp_gets, wp_on_kern.
  assert (Hl : ∀ fuel p, is_Some (Sched.procs (kern s) !! p) → (rank p < fuel)%nat →
    wp (Sched.inferior_loop fuel p) (λ b k, k = kern s ∧ (b = true → below (kern s) p)) (kern s)).
  { intros fuel. induction fuel as [|fuel IH]; intros q [pr Hq] Hf; [lia|]. cbn [Sched.inferior_loop].
    apply wp_bind, wp_gets. destruct (Z.eqb_spec q (Sched.u_procp (kern s))) as [->|Hne].
    { apply wp_ret. split; [done|]. constructor. }
    apply wp_bind. eapply wp_load; [exact Hq|]. destruct (Z.eqb_spec (Sched.p_ppid pr) 0); [by apply wp_ret|].
    destruct (Hr _ _ Hq) as [_ Hpar]. destruct (Hpar n) as [Hpp Hrk].
    eapply wp_mono; [apply IH; [done|lia]|]. cbv beta. intros b k [-> Hb]. split; [done|]. intros E. eapply below_child; eauto. }
  destruct Hp as [pr Hp]. eapply wp_mono; [apply Hl; [eauto|]|].
  - destruct (Hr _ _ Hp). lia.
  - cbv beta. intros b k [-> Hb]. replace (set_kern (kern s) s) with s by (by destruct s). by apply HQ.
Qed.

Lemma chain_size k p l : chain (next_of k) p l → (length l ≤ size (Sched.procs k))%nat.
Proof.
  intros Hc. rewrite <- size_dom, <- (size_list_to_set (C := gset Z) l) by (by eapply chain_nodup).
  apply subseteq_size. intros x. rewrite elem_of_list_to_set, elem_of_dom. intros Hx.
  apply list_elem_of_split in Hx as (l1 & l2 & ->). apply lseg_app in Hc as (r & _ & -> & _ & n & Hn & _).
  unfold next_of in Hn. destruct (Sched.procs k !! x); [eauto|done].
Qed.

Lemma chain_next k p l : chain (next_of k) p l →
  (p = 0 ∧ l = []) ∨ ∃ pr l', p ≠ 0 ∧ l = p :: l' ∧ Sched.procs k !! p = Some pr ∧ chain (next_of k) (Sched.p_nxt pr) l'.
Proof.
  destruct l as [|x l]; [by left|]. intros (-> & Hx & n & Hn & Hc). right. unfold next_of in Hn.
  destruct (Sched.procs k !! x) as [pr|] eqn:E; [|done]. injection Hn as <-. eauto 10.
Qed.

Lemma wp_getprio_loop fuel sel p low l (Q : Z → sys → Prop) s :
  chain (next_of (kern s)) p l → (length l < fuel)%nat → (∀ r, Q r s) → wp (getprio_loop fuel sel p low) Q s.
Proof.
  intros Hc Hf HQ. revert p low l Hc Hf. induction fuel as [|fuel IH]; intros p low l Hc Hf; [lia|]. cbn [getprio_loop].
  apply chain_next in Hc as [[-> ->]|(pr & l' & Hp0 & -> & Hp & Hc)]; [by apply wp_ret|].
  rewrite (proj2 (Z.eqb_neq p 0)) by done. apply wp_bind. eapply wp_u_rdp; [exact Hp|]. eapply IH; [exact Hc|]. simpl in Hf. lia.
Qed.

Lemma unprivileged_uid s : unprivileged s → u_uid (usr s) ≠ 0 ∧ u_ruid (usr s) ≠ 0.
Proof. unfold unprivileged, ids. set_solver. Qed.

Lemma wp_suser_denied (Q : bool → sys → Prop) s :
  unprivileged s → Q false (set_kern (Sched.set_u_error EPERM (kern s)) s) → wp suser Q s.
Proof. intros [Hu _]%unprivileged_uid. by apply wp_suser_user. Qed.

(** A check [suser()] guards ends the call of an unprivileged process. *)
Lemma safe_suser (m : K unit) : safe (ok ← suser; when ok m).
Proof.
  intros s Hok Hu. apply wp_bind, wp_suser_denied; [done|]. apply wp_ret. by apply confined_core.
Qed.

Lemma safe_err e : safe (err e).
Proof. apply calm_safe, calm_err. Qed.

Lemma wp_donice p n pr s :
  ok s → unprivileged s → Sched.procs (kern s) !! p = Some pr → wp (donice p n) (λ _ s', confined s s') s.
Proof.
  intros Hok Hu Hp. pose proof (unprivileged_uid _ Hu) as [Hu1 Hu2]. unfold donice.
  apply wp_bind. eapply wp_u_rdp; [exact Hp|]. apply wp_bind, wp_gets.
  rewrite (proj2 (Z.eqb_neq (u_uid (usr s)) 0)), (proj2 (Z.eqb_neq (u_ruid (usr s)) 0)) by done. cbn [negb andb].
  destruct (negb _ && negb _) eqn:E; [by apply safe_err|]. cbv zeta.
  assert (Hown : u32 (Sched.p_uid pr) ∈ ids (usr s)).
  { unfold ids. destruct (Z.eqb_spec (u_uid (usr s)) (u32 (Sched.p_uid pr))); [set_solver|].
    destruct (Z.eqb_spec (u_ruid (usr s)) (u32 (Sched.p_uid pr))); [set_solver|done]. }
  set (n1 := if PRIO_MAX <? n then PRIO_MAX else n). set (n2 := if n1 <? PRIO_MIN then PRIO_MIN else n1).
  assert (Hn2 : -20 ≤ n2 ≤ 20).
  { unfold n2, n1, PRIO_MIN, PRIO_MAX. destruct (Z.ltb_spec 20 n); [|destruct (Z.ltb_spec n (-20))]; ztest; lia. }
  apply wp_bind. destruct (Z.ltb_spec n2 (Sched.p_nice pr)) as [Hlt|Hge].
  - apply wp_suser_denied; [done|]. apply wp_err. by apply confined_core.
  - apply wp_ret. eapply wp_u_wrp; [exact Hp|]. apply (confined_proc s p pr); try done.
    cbn. by rewrite s8_id by lia.
Qed.

Lemma next_of_confined s s' z : confined s s' → next_of (kern s') z = next_of (kern s) z.
Proof.
  intros (_ & _ & _ & _ & _ & _ & _ & _ & _ & Hs & _). unfold next_of. pose proof (skel_lookup _ _ z Hs) as E.
  destruct (Sched.procs (kern s') !! z), (Sched.procs (kern s) !! z); try done. apply (inj Some) in E.
  injection E. intros. cbn. by f_equal.
Qed.

Lemma wp_setprio_loop fuel sel p prio found l s :
  ok s → unprivileged s → chain (next_of (kern s)) p l → (length l < fuel)%nat →
  wp (setprio_loop fuel sel p prio found) (λ _ s', confined s s') s.
Proof.
  revert s p found l. induction fuel as [|fuel IH]; intros s p found l Hok Hu Hc Hf; [lia|]. cbn [setprio_loop].
  apply chain_next in Hc as [[-> ->]|(pr & l' & Hp0 & -> & Hp & Hc)]; [by apply wp_ret, confined_refl|].
  rewrite (proj2 (Z.eqb_neq p 0)) by done. apply wp_bind. eapply wp_u_rdp; [exact Hp|].
  apply wp_bind. apply (wp_mono _ (λ _ s', confined s s')).
  { apply wp_when; intros _; [by eapply wp_donice|by apply confined_refl]. }
  intros [] s1 H1. eapply wp_mono; [eapply IH|].
  - by eapply confined_ok.
  - by eapply confined_unprivileged.
  - eapply lseg_ext; [|exact Hc]. intros z _. by apply next_of_confined.
  - simpl in Hf. lia.
  - cbv beta. intros r s2 H2. by eapply confined_trans.
Qed.

(** The calls an unprivileged process can make here. *)
Inductive call :=
| Getpid | Getppid | Getpgrp (pid : Z) | Getuid | Geteuid | Getgid | Getegid
| Getgroups (gidsetsize gidset : Z) | Setpgrp (pid pgrp : Z) | Setgroups (gidsetsize gidset : Z)
| Setuid (uid : Z) | Seteuid (euid : Z) | Setgid (gid : Z) | Setegid (egid : Z)
| Getpriority (which who : Z) | Setpriority (which who prio : Z)
| Setrlimit (which lim : Z) | Getrlimit (which rlp : Z) | Getrusage (who rusage : Z)
| Gettimeofday (tp tzp : Z) | Settimeofday (tv tzp : Z) | Adjtime (delta olddelta : Z)
| Getitimer (which itv : Z) | Setitimer (which itv oitv : Z).

Definition do_call (c : call) : K unit :=
  match c with
  | Getpid => getpid
  | Getppid => getppid
  | Getpgrp pid => getpgrp pid
  | Getuid => getuid
  | Geteuid => geteuid
  | Getgid => getgid
  | Getegid => getegid
  | Getgroups n p => getgroups n p
  | Setpgrp pid pgrp => setpgrp pid pgrp
  | Setgroups n p => setgroups n p
  | Setuid uid => setuid uid
  | Seteuid euid => seteuid euid
  | Setgid gid => setgid gid
  | Setegid egid => setegid egid
  | Getpriority which who => getpriority which who
  | Setpriority which who prio => setpriority which who prio
  | Setrlimit which lim => setrlimit which lim
  | Getrlimit which rlp => getrlimit which rlp
  | Getrusage who ru => getrusage who ru
  | Gettimeofday tp tzp => Clock.gettimeofday tp tzp
  | Settimeofday tv tzp => Clock.settimeofday tv tzp
  | Adjtime d o => Clock.adjtime d o
  | Getitimer w i => Clock.getitimer w i
  | Setitimer w i o => Clock.setitimer w i o
  end.

Fixpoint do_calls (l : list call) : K unit :=
  match l with
  | [] => mret tt
  | c :: l' => do_call c;; do_calls l'
  end.

(** The system call arguments that select a table entry are unsigned. *)
Definition args_ok (c : call) : Prop :=
  match c with
  | Setrlimit which _ | Getrlimit which _ | Getitimer which _ | Setitimer which _ _ => 0 ≤ which
  | _ => True
  end.

(** Calls that only report. *)
Lemma own_pid_calm pid : calm (own_pid pid).
Proof. unfold own_pid. destruct (_ =? _); [|apply calm_ret]. apply calm_self. intros. apply calm_ret. Qed.

Lemma own_pgrp_calm who : calm (own_pgrp who).
Proof. unfold own_pgrp. destruct (_ =? _); [|apply calm_ret]. apply calm_self. intros. apply calm_ret. Qed.

Lemma own_uid_calm who : calm (own_uid who).
Proof. unfold own_uid. calm_tac. Qed.

Lemma getpgrp_safe pid : safe (getpgrp pid).
Proof.
  intros s Hok Hu. unfold getpgrp. apply wp_bind. destruct (own_pid_calm pid) as [Hk Hw].
  eapply wp_mono; [eapply wp_frame; [exact Hk|by apply Hw]|]. cbv beta. intros pid' s1 [_ Hc].
  apply (confined_core s) in Hc; [|done]. pose proof (confined_ok _ _ Hc) as Hok1.
  apply wp_bind, wp_pfind; [done|by apply (safe_then s _ _ (safe_err ESRCH))|]. intros p pr Hp0 Hp.
  rewrite (proj2 (Z.eqb_neq p 0)) by done. apply wp_bind. eapply wp_u_rdp; [exact Hp|].
  apply (safe_then s); [|done|done]. apply calm_safe, calm_rval.
Qed.

Lemma getpriority_safe which who : safe (getpriority which who).
Proof.
  intros s Hok Hu. unfold getpriority. cbv zeta.
  assert (Hfin : ∀ low, calm (if low =? PRIO_MAX + 1 then err ESRCH else rval low)) by (intros; calm_tac).
  assert (Hloop : ∀ (o : K Z) sel, calm o → wp (who ← o; n ← loop_fuel; p ← allproc;
      low ← getprio_loop n (sel who) p (PRIO_MAX + 1); if low =? PRIO_MAX + 1 then err ESRCH else rval low)
      (λ _ s', confined s s') s).
  { intros o sel [Hk Hw]. apply wp_bind. eapply wp_mono; [eapply wp_frame; [exact Hk|by apply Hw]|].
    cbv beta. intros who' s1 [_ Hc]. apply (confined_core s) in Hc; [|done].
    pose proof (confined_ok _ _ Hc) as ((_ & (l & Hl) & _) & _).
    apply wp_bind, wp_gets, wp_bind, wp_gets, wp_bind. eapply wp_getprio_loop; [exact Hl| |].
    - pose proof (chain_size _ _ _ Hl). lia.
    - intros low. apply (safe_then s); [|done|done]. apply calm_safe, Hfin. }
  destruct (which =? PRIO_PROCESS).
  { destruct (who =? 0).
    - apply wp_bind, wp_gets. pose proof Hok as (([pr Hp] & _) & _).
      destruct (_ =? 0); [by apply (calm_safe _ (Hfin (PRIO_MAX + 1)))|].
      apply wp_bind. eapply wp_u_rdp; [exact Hp|]. by apply (calm_safe _ (Hfin (Sched.p_nice pr))).
    - apply wp_bind, wp_pfind; [done|by apply (calm_safe _ (Hfin (PRIO_MAX + 1)) s)|]. intros p pr Hp0 Hp.
      rewrite (proj2 (Z.eqb_neq p 0)) by done. apply wp_bind. eapply wp_u_rdp; [exact Hp|].
      by apply (calm_safe _ (Hfin (Sched.p_nice pr))). }
  destruct (which =? PRIO_PGRP).
  { apply (Hloop (own_pgrp who) (λ who pr, Sched.p_pgrp pr =? who)), own_pgrp_calm. }
  destruct (which =? PRIO_USER); [|by apply safe_err].
  apply (Hloop (own_uid who) (λ who pr, Sched.p_uid pr =? who)), own_uid_calm.
Qed.

Lemma calm_rlimit which : 0 ≤ which → (RLIM_NLIMITS <=? which) = false → calm (load (λ s, aget (u_rlimit (usr s)) which)).
Proof.
  intros H0 H1. to_prop. apply calm_load. intros s (_ & _ & Hl & _). apply aget_is_Some. unfold RLIM_NLIMITS in *. lia.
Qed.

Lemma getrlimit_safe which rlp : 0 ≤ which → safe (getrlimit which rlp).
Proof.
  intros Hw. apply calm_safe. unfold getrlimit. destruct (RLIM_NLIMITS <=? which) eqn:E; [apply calm_err|].
  apply calm_bind; [by apply calm_rlimit|]. intros lim. calm_tac.
Qed.

Lemma calm_timer which : 0 < which → (Clock.ITIMER_PROF <? which) = false →
  calm (load (λ s, aget (u_timer (usr s)) (which - 1))).
Proof.
  intros H0 H1. to_prop. apply calm_load. intros s (_ & _ & _ & Hl). apply aget_is_Some. unfold Clock.ITIMER_PROF in *. lia.
Qed.

Lemma getitimer_calm which itv : 0 ≤ which → calm (Clock.getitimer which itv).
Proof.
  intros Hw. unfold Clock.getitimer. destruct (Clock.ITIMER_PROF <? which) eqn:E; [apply calm_err|].
  apply calm_bind; [|intros w; calm_tac]. destruct (Z.eqb_spec which Clock.ITIMER_REAL).
  - apply calm_self. intros pr. apply calm_ret.
  - apply calm_bind; [|intros; apply calm_ret]. apply calm_timer; [unfold Clock.ITIMER_REAL in *; lia|done].
Qed.

Lemma gettimeofday_safe tp tzp : safe (Clock.gettimeofday tp tzp).
Proof. apply calm_safe. unfold Clock.gettimeofday, u_error. calm_tac. Qed.

(** Calls that change the identity. *)
Lemma seteuid_safe euid : safe (seteuid euid).
Proof.
  intros s Hok Hu. unfold seteuid. apply wp_bind, wp_gets, wp_bind.
  destruct (negb _ && negb _) eqn:E.
  { apply wp_suser_denied; [done|]. apply wp_ret. by apply confined_core. }
  apply wp_ret. cbn [when]. apply wp_bind, wp_upd_usr. apply (safe_then s); [apply safe_err|done|].
  destruct Hok as (Ht & Hg & Hl & Hm) eqn:E1. apply confined_user; try done; [|apply lowered_refl].
  destruct (Z.eqb_spec euid (u_ruid (usr s))) as [->|]; [cbn; set_solver|].
  destruct (Z.eqb_spec euid (u_svuid (usr s))) as [->|]; [cbn; set_solver|done].
Qed.

Lemma setuid_safe uid : safe (setuid uid).
Proof.
  intros s Hok Hu. unfold setuid. apply wp_bind, wp_gets, wp_bind.
  destruct (Z.eqb_spec uid (u_ruid (usr s))) as [->|]; cbn [negb].
  2:{ apply wp_suser_denied; [done|]. apply wp_ret. by apply confined_core. }
  apply wp_ret. cbn [when]. apply wp_bind, wp_gets. cbv beta. pose proof Hok as (([pr Hp] & _) & Hg & Hl & Hm).
  apply wp_bind. eapply wp_u_wrp; [exact Hp|]. set (s1 := set_kern _ s).
  assert (H1 : confined s s1) by (by apply (confined_proc s _ pr)).
  apply wp_bind, wp_upd_usr, wp_bind, wp_upd_usr, wp_bind, wp_upd_usr.
  apply (safe_then s); [apply safe_err|done|]. apply (confined_trans s s1); [done|].
  match goal with |- confined _ ?x => change (confined s1 (set_usr (usr x) s1)) end.
  apply confined_user; try done; [by eapply confined_ok|cbn; set_solver|apply lowered_refl].
Qed.

(** Setting the effective group to one the process has already. *)
Lemma wp_set_group0 g s (u : user → user) :
  ok s → g = u_rgid (usr s) ∨ g = u_svgid (usr s) → unprivileged s →
  (∀ x, ids (u x) = ids x ∧ u_groups (u x) = u_groups x ∧ u_rlimit (u x) = u_rlimit x ∧ u_timer (u x) = u_timer x) →
  (u_rgid (u (usr s)) ∈ gids (usr s) ∧ u_svgid (u (usr s)) ∈ gids (usr s)) →
  (∀ l x, u_rgid (u (set_u_groups l x)) = u_rgid (u x) ∧ u_svgid (u (set_u_groups l x)) = u_svgid (u x)) →
  wp (set_group0 g) (λ _ s1, ∀ x, x = set_usr (u (usr s1)) s1 → confined s x) s.
Proof.
  intros Hok Hg Hu Hx Hin Hc. pose proof Hok as (_ & Hl & Hr & Ht).
  eapply wp_store; [rewrite aset_Some by lia; done|]. intros x ->.
  match goal with |- confined _ ?x => change (confined s (set_usr (usr x) s)) end. cbn [usr set_usr].
  set (l := <[Z.to_nat 0 := g]> (u_groups (usr s))). destruct (Hx (set_u_groups l (usr s))) as (I1 & I2 & I3 & I4).
  destruct (Hc l (usr s)) as [C1 C2].
  assert (Hgl : ∃ g0 gs, u_groups (usr s) = g0 :: gs ∧ l = g :: gs).
  { unfold l. destruct (u_groups (usr s)) as [|g0 gs]; [done|]. by exists g0, gs. }
  destruct Hgl as (g0 & gs & E1 & E2).
  apply confined_user; [done|by rewrite I1| | | | |].
  - unfold gids in *. rewrite I2, C1, C2. change (u_groups (set_u_groups l (usr s))) with l. rewrite E2. rewrite E1 in *. cbn in *. set_solver.
  - rewrite I2. change (u_groups (set_u_groups l (usr s))) with l. by rewrite E2, E1.
  - rewrite I2. change (u_groups (set_u_groups l (usr s))) with l. unfold l. by rewrite length_insert.
  - by rewrite I4.
  - rewrite I3. apply lowered_refl.
Qed.

Lemma setgid_safe gid : safe (setgid gid).
Proof.
  intros s Hok Hu. unfold setgid. apply wp_bind, wp_gets, wp_bind.
  destruct (Z.eqb_spec gid (u_rgid (usr s))) as [->|]; cbn [negb].
  2:{ apply wp_suser_denied; [done|]. apply wp_ret. by apply confined_core. }
  apply wp_ret. cbn [when]. apply wp_bind. set (g := u_rgid (usr s)).
  eapply wp_mono; [apply (wp_set_group0 g s (λ x, set_u_svgid g (set_u_rgid g x))); try done; [by left|]|].
  { cbn. unfold g, gids. set_solver. }
  intros [] s1 Hs1. apply wp_bind, wp_upd_usr, wp_bind, wp_upd_usr. apply (safe_then s); [apply safe_err|done|].
  by apply Hs1.
Qed.

Lemma setegid_safe egid : safe (setegid egid).
Proof.
  intros s Hok Hu. unfold setegid. apply wp_bind, wp_gets, wp_bind.
  destruct (negb _ && negb _) eqn:E.
  { apply wp_suser_denied; [done|]. apply wp_ret. by apply confined_core. }
  assert (Hg : egid = u_rgid (usr s) ∨ egid = u_svgid (usr s)).
  { destruct (Z.eqb_spec egid (u_rgid (usr s))); [by left|]. destruct (Z.eqb_spec egid (u_svgid (usr s))); [by right|done]. }
  apply wp_ret. cbn [when]. apply wp_bind.
  eapply wp_mono; [apply (wp_set_group0 egid s id); try done; cbn; unfold gids; set_solver|].
  intros [] s1 Hs1. apply (safe_then s); [apply safe_err|done|]. apply Hs1. by destruct s1.
Qed.

(** Calls that change other processes. *)
Lemma setpgrp_safe pid pgrp : safe (setpgrp pid pgrp).
Proof.
  intros s0 Hok0 Hu0. unfold setpgrp. apply wp_bind. destruct (own_pid_calm pid) as [Hk Hw].
  eapply wp_mono; [eapply wp_frame; [exact Hk|by apply Hw]|]. cbv beta. intros pid' s [_ Hc].
  apply (confined_core s0) in Hc; [|done]. pose proof (confined_ok _ _ Hc) as Hok.
  pose proof (confined_unprivileged _ _ Hu0 Hc) as Hu. pose proof (unprivileged_uid _ Hu) as [Hu1 _].
  apply wp_bind, wp_pfind; [done|by apply (safe_then s0 _ _ (safe_err ESRCH))|]. intros p pr Hp0 Hp.
  rewrite (proj2 (Z.eqb_neq p 0)) by done. apply wp_bind. eapply wp_u_rdp; [exact Hp|]. apply wp_bind, wp_gets, wp_bind.
  apply (wp_mono _ (λ d s', s' = s ∧ (d = false → u32 (Sched.p_uid pr) = u_uid (usr s) ∨ below (kern s) p))).
  { rewrite (proj2 (Z.eqb_neq (u_uid (usr s)) 0)) by done. rewrite andb_true_r.
    destruct (Z.eqb_spec (u32 (Sched.p_uid pr)) (u_uid (usr s))); cbn [negb]; [apply wp_ret; auto|].
    apply wp_bind, wp_inferior; [done|eauto|]. intros b Hb. apply wp_ret. split; [done|]. intros. right. apply Hb. by destruct b. }
  intros [] s' [-> Hd]; [by apply (safe_then s0 _ _ (safe_err EPERM))|].
  eapply wp_u_wrp; [exact Hp|]. apply (confined_trans s0 s); [done|]. apply (confined_proc s p pr); try done.
  intros Hne. split; [done|]. intros Hno. split; [done|]. intros Hb. destruct (Hd eq_refl) as [E|E]; [|done].
  exfalso. apply Hno. rewrite E. unfold ids. set_solver.
Qed.

Lemma setpriority_safe which who prio : safe (setpriority which who prio).
Proof.
  intros s Hok Hu. unfold setpriority. cbv zeta.
  assert (Hfin : ∀ found, safe (when (found =? 0) (err ESRCH))) by (intros; apply calm_safe; calm_tac).
  assert (Hloop : ∀ (o : K Z) sel, calm o → wp (who ← o; n ← loop_fuel; p ← allproc;
      found ← setprio_loop n (sel who) p prio 0; when (found =? 0) (err ESRCH)) (λ _ s', confined s s') s).
  { intros o sel [Hk Hw]. apply wp_bind. eapply wp_mono; [eapply wp_frame; [exact Hk|by apply Hw]|].
    cbv beta. intros who' s1 [_ Hc]. apply (confined_core s) in Hc; [|done].
    pose proof (confined_ok _ _ Hc) as ((_ & (l & Hl) & _) & _).
    apply wp_bind, wp_gets, wp_bind, wp_gets, wp_bind. eapply wp_mono; [eapply wp_setprio_loop; [..|exact Hl|]|].
    - by eapply confined_ok.
    - by eapply confined_unprivileged.
    - pose proof (chain_size _ _ _ Hl). lia.
    - cbv beta. intros found s2 H2. apply (safe_then s); [apply Hfin|done|by eapply confined_trans]. }
  assert (Hone : ∀ p pr, Sched.procs (kern s) !! p = Some pr →
    wp (donice p prio;; when (1 =? 0) (err ESRCH)) (λ _ s', confined s s') s).
  { intros p pr Hp. apply wp_bind. eapply wp_mono; [by eapply wp_donice|]. cbv beta. intros [] s1 H1. by apply wp_ret. }
  destruct (which =? PRIO_PROCESS).
  { destruct (who =? 0).
    - apply wp_bind, wp_gets. pose proof Hok as (([pr Hp] & _) & _).
      destruct (Sched.u_procp (kern s) =? 0); [by apply (Hfin 0)|by eapply Hone].
    - apply wp_bind, wp_pfind; [done|by apply (Hfin 0)|]. intros p pr Hp0 Hp.
      rewrite (proj2 (Z.eqb_neq p 0)) by done. by eapply Hone. }
  destruct (which =? PRIO_PGRP).
  { apply (Hloop (own_pgrp who) (λ who pr, Sched.p_pgrp pr =? who)), own_pgrp_calm. }
  destruct (which =? PRIO_USER); [|by apply safe_err].
  apply (Hloop (own_uid who) (λ who pr, Sched.p_uid pr =? who)), own_uid_calm.
Qed.

Lemma setrlimit_safe which lim : 0 ≤ which → safe (setrlimit which lim).
Proof.
  intros Hw s Hok Hu. unfold setrlimit. destruct (RLIM_NLIMITS <=? which) eqn:Ew; [by apply safe_err|].
  apply wp_bind. destruct (calm_copyin lim 2) as [Hk Hc].
  eapply wp_mono; [eapply wp_frame; [exact Hk|by apply Hc]|]. cbv beta. intros [e w] s1 [_ H1].
  apply (confined_core s) in H1; [|done]. apply wp_bind, wp_err. set (s2 := set_kern _ s1).
  assert (H2 : confined s s2) by (eapply confined_trans; [exact H1|by apply confined_core; [eapply confined_ok|]]).
  apply wp_when; intros _; [|done]. cbv zeta. set (alim := if which =? RLIMIT_CPU then _ else _). clearbody alim.
  pose proof (confined_ok _ _ H2) as (Ht2 & Hg2 & Hl2 & Hm2).
  destruct (aget_is_Some (u_rlimit (usr s2)) which) as [old Hold].
  { to_prop. unfold RLIM_NLIMITS in *. lia. }
  apply wp_bind. eapply wp_load; [exact Hold|]. apply wp_bind.
  destruct ((rlim_max old <? rlim_cur alim) || (rlim_max old <? rlim_max alim)) eqn:Eo.
  { apply wp_suser_denied; [by eapply confined_unprivileged|]. apply wp_ret.
    apply (confined_trans s s2); [done|]. by apply confined_core. }
  apply wp_ret. to_prop. cbn [when]. pose proof (aget_Some _ _ _ Hold) as Hin.
  eapply wp_store; [by rewrite aset_Some|]. apply (confined_trans s s2); [done|].
  apply confined_user; try done.
  change (lowered (u_rlimit (usr s2)) (<[Z.to_nat which := alim]> (u_rlimit (usr s2)))). assert (Hlk : u_rlimit (usr s2) !! Z.to_nat which = Some old).
  { unfold aget in Hold. by rewrite Zle_imp_le_bool in Hold by lia. }
  rewrite <- (list_insert_id (u_rlimit (usr s2)) (Z.to_nat which) old) at 1 by done.
  apply Forall2_insert; [apply lowered_refl|lia].
Qed.

Lemma settimeofday_safe tv tzp : safe (Clock.settimeofday tv tzp).
Proof.
  intros s Hok Hu. unfold Clock.settimeofday. apply wp_bind. apply (wp_mono _ (λ _ s', confined s s')).
  { destruct (negb (tv =? 0)); [|by apply wp_ret, confined_refl]. apply wp_bind. destruct (calm_copyin tv 2) as [Hk Hc].
    eapply wp_mono; [eapply wp_frame; [exact Hk|by apply Hc]|]. cbv beta. intros [e w] s1 [_ H1].
    apply (confined_core s) in H1; [|done]. apply wp_bind. eapply wp_mono; [apply (safe_then s _ _ (safe_err e)); done|].
    cbv beta. intros [] s2 H2. apply wp_bind. apply (wp_mono _ (λ _ s', confined s s')).
    - apply wp_when; intros _; [|done]. apply (safe_then s); [apply safe_suser|done|done].
    - intros [] s3 H3. apply wp_gets. done. }
  cbv beta. intros e s1 H1. apply wp_when; intros _; [|done]. apply (safe_then s); [apply safe_suser|done|done].
Qed.

Lemma setitimer_safe which itv oitv : 0 ≤ which → safe (Clock.setitimer which itv oitv).
Proof.
  intros Hw s Hok Hu. unfold Clock.setitimer. destruct (Clock.ITIMER_PROF <? which) eqn:Ew; [by apply safe_err|].
  apply wp_bind. apply (wp_mono _ (λ _ s', confined s s')).
  { apply wp_when; intros _; [by apply (calm_safe _ (getitimer_calm which oitv Hw))|by apply confined_refl]. }
  intros [] s1 H1. apply wp_when; intros _; [|done]. apply wp_bind. destruct (calm_copyin itv 4) as [Hk Hc].
  eapply wp_mono; [eapply wp_frame; [exact Hk|apply Hc; by eapply confined_ok]|]. cbv beta. intros [e w] s2 [_ H2].
  apply (confined_core s1) in H2; [|by eapply confined_ok]. apply (confined_trans s) in H2; [|done].
  apply wp_bind. eapply wp_mono; [apply (safe_then s _ _ (safe_err e)); done|]. cbv beta. intros [] s3 H3.
  apply wp_when; intros _; [|done]. cbv zeta. pose proof (confined_ok _ _ H3) as Hok3. pose proof Hok3 as (([pr Hp] & _) & Hg & Hl & Hm).
  destruct (Z.eqb_spec which Clock.ITIMER_REAL).
  - apply wp_bind, wp_gets. cbv beta. apply wp_bind. eapply wp_u_wrp; [exact Hp|]. set (s4 := set_kern _ s3).
    assert (H4 : confined s3 s4) by (by apply (confined_proc s3 _ pr)).
    pose proof (confined_ok _ _ H4) as Hok4. pose proof Hok4 as (([pr' Hp'] & _) & _).
    eapply wp_u_wrp; [exact Hp'|]. apply (confined_trans s s4); [by eapply confined_trans|].
    by apply (confined_proc s4 _ pr').
  - apply Clock.wp_set_timer; [to_prop; unfold Clock.ITIMER_REAL, Clock.ITIMER_PROF in *; lia|].
    apply (confined_trans s s3); [done|]. apply confined_user; try done; [|apply lowered_refl].
    cbn. by rewrite length_insert.
Qed.

Lemma setgroups_safe n p : safe (setgroups n p).
Proof. apply safe_suser. Qed.

Lemma adjtime_safe d o : safe (Clock.adjtime d o).
Proof. apply safe_suser. Qed.

Lemma getegid_calm : calm getegid.
Proof.
  apply calm_bind; [|intros; apply calm_rval]. apply calm_load. intros s (_ & Hl & _). apply aget_is_Some. lia.
Qed.

Lemma do_call_safe c : args_ok c → safe (do_call c).
Proof.
  destruct c; intros Ha; cbn [do_call args_ok] in *;
    auto using getpgrp_safe, setpgrp_safe, setuid_safe, seteuid_safe, setgid_safe, setegid_safe, getpriority_safe,
      setpriority_safe, setrlimit_safe, getrlimit_safe, gettimeofday_safe, settimeofday_safe, setitimer_safe,
      setgroups_safe, adjtime_safe, calm_safe, getitimer_calm, getegid_calm;
    apply calm_safe; try (apply calm_self; intros; apply calm_rval).
  all: unfold getuid, geteuid, getgid, getgroups, getrusage; calm_tac.
Qed.

Lemma do_calls_safe l : Forall args_ok l → safe (do_calls l).
Proof.
  induction 1 as [|c l Hc Hl IH]; intros s Hok Hu; cbn [do_calls]; [by apply wp_ret, confined_refl|].
  apply wp_bind. eapply wp_mono; [by apply do_call_safe|]. cbv beta. intros [] s1 H1. by apply (safe_then s).
Qed.

(** C18: Whatever sequence of these calls an unprivileged process makes, each one
    returns, and the process never gets a user number it did not start with, so
    never 0; its groups stay, but for an effective group among those it had; no
    hard limit is raised; the time is not set; no process is made less nice, and
    a process of a user it never was keeps its niceness and, unless it is a
    descendant, its process group. *)
Theorem unprivileged_confined l s :
  ok s → unprivileged s → Forall args_ok l →
  wp (do_calls l) (λ _ s', confined s s' ∧ unprivileged s') s.
Proof.
  intros Hok Hu Hl. eapply wp_mono; [by apply do_calls_safe|]. cbv beta. intros [] s' Hc.
  split; [done|by eapply confined_unprivileged].
Qed.

(** The processes of [Sched.demo], none with a parent. *)
Definition orphan (pr : proc) : proc :=
  Sched.Proc (Sched.p_nxt pr) 0 (Sched.p_flag pr) (Sched.p_uid pr) (Sched.p_pid pr) 0 (Sched.p_stat pr)
    (Sched.p_pri pr) (Sched.p_cpu pr) (Sched.p_time pr) (Sched.p_nice pr) (Sched.p_slptime pr) (Sched.p_hash pr)
    (Sched.p_link pr) (Sched.p_addr pr) (Sched.p_wchan pr) (Sched.p_rtval pr) (Sched.p_rtint pr) (Sched.p_pgrp pr)
    (Sched.p_sig pr) (Sched.p_sigmask pr) (Sched.p_sigignore pr) (Sched.p_sigcatch pr) (Sched.p_ptracesig pr).

Definition demo_kern : kst := Sched.set_procs (orphan <$> Sched.procs Sched.demo) Sched.demo.
Definition demo : sys := Sys demo_kern Clock.demo_user (clk Clock.demo) (put ∅ USER_DATA_START [100; 100]).

Lemma demo_ok : ok demo.
Proof.
  split; [|by split_and!]. split_and!.
  - by vm_compute; eauto.
  - exists [2; 3; 4; 5; 6; 7; 8]. apply lsegb_sound. vm_compute. reflexivity.
  - exists Sched.demo_hq. destruct Sched.demo_hashed as [H1 H2].
    assert (Hx : ∀ f z, (∀ pr, f (orphan pr) = f pr :> Z) → f <$> Sched.procs demo_kern !! z = f <$> Sched.procs Sched.demo !! z).
    { intros f z Hf. unfold demo_kern. cbn [Sched.procs Sched.set_procs]. rewrite lookup_fmap.
      destruct (Sched.procs Sched.demo !! z); cbn; by rewrite ?Hf. }
    split.
    + intros i Hi. destruct (H1 i Hi) as (h & Hh & Hc). exists h. split; [done|]. eapply lseg_ext; [|exact Hc].
      intros z _. by apply Hx.
    + intros i p Hi Hp. rewrite <- (H2 i p Hi Hp). unfold Sched.pid_of. by rewrite (Hx Sched.p_pid).
  - exists (λ _, O). intros p pr Hp. split; [vm_compute; lia|]. unfold demo, demo_kern in Hp. cbn [kern Sched.procs Sched.set_procs] in Hp.
    rewrite lookup_fmap in Hp. destruct (Sched.procs Sched.demo !! p); [|done]. injection Hp as <-. done.
Qed.

(** User 7 tries to become the super-user, joins a group, lowers a limit,
    renices every process of user 0 and sets the time. *)
Lemma unprivileged_confined_witness :
  wp (do_calls [Setuid 0; Seteuid 0; Setegid 0; Setgroups 1 USER_DATA_START; Setrlimit 1 USER_DATA_START;
                Setpriority PRIO_USER 0 (-20); Setpriority PRIO_USER 1 20; Settimeofday USER_DATA_START 0])
     (λ _ s', confined demo s' ∧ unprivileged s') demo.
Proof.
  apply (unprivileged_confined _ demo demo_ok); [vm_compute; set_solver|repeat constructor; cbn; lia].
Defined.

End Cred.
