(* ===== verification/Signal.v ===== *)
(** * Signals (sys/kernel/kern_sig.c, kern_sig2.c, sys/include/signalvar.h)

    A signal set is a 32-bit word with bit [n - 1] for signal [n].  The pending,
    held, ignored and caught sets of a process are in the process table, so that
    [psignal] can be called for any process, and the handlers in the [user]
    structure of the running process; [sigaction], [execsigs] and the delivery
    in [issignal] and [postsig] keep the two in step.  [sendsig] writes the
    registers of the process to its stack for [sigreturn] to restore.  The end
    of the process, which [exit] is, is recorded in [exited]; the message
    [issignal] prints for an ignored signal is left out. *)

From S2P Require Import Prelude Links Callout Sched User Clock Cred.

Module Signal.
Import User.

Definition NSIG : Z := 32.
Definition SIGKILL : Z := 9.
Definition SIGSTOP : Z := 17.
Definition SIGTSTP : Z := 18.
Definition SIGCONT : Z := 19.
Definition SIGCHLD : Z := 20.
Definition SIGTTIN : Z := 21.
Definition SIGTTOU : Z := 22.
Definition SIG_DFL : Z := 0.
Definition SIG_IGN : Z := 1.
Definition SIG_CATCH : Z := 2.
Definition SIG_HOLD : Z := 3.
Definition SIG_BLOCK : Z := 1.
Definition SIG_UNBLOCK : Z := 2.
Definition SIG_SETMASK : Z := 3.
Definition SA_ONSTACK : Z := 0x0001.
Definition SA_RESTART : Z := 0x0002.
Definition SA_DISABLE : Z := 0x0004.
Definition SA_NOCLDSTOP : Z := 0x0008.
Definition SAS_OLDMASK : Z := 0x01.
Definition SAS_ALTSTACK : Z := 0x02.
Definition P_TRACED : Z := 0x0010.
Definition P_WAITED : Z := 0x0020.
Definition SVFORK : Z := 0x0100.
Definition P_NOCLDSTOP : Z := 0x2000.
Definition SA_KILL : Z := 0x01.
Definition SA_CORE : Z := 0x02.
Definition SA_STOP : Z := 0x04.
Definition SA_TTYSTOP : Z := 0x08.
Definition SA_IGNORE : Z := 0x10.
Definition SA_CONT : Z := 0x20.
Definition NZERO : Z := 0.
Definition EINTR : Z := 4.
Definition ENOMEM : Z := 12.
Definition EJUSTRETURN : Z := -2.
Definition SIGILL : Z := 4.
Definition SSYS : Z := 0x0002.
Definition PPAUSE : Z := 40.
Definition MINSIGSTKSZ : Z := 128.

(** [&proc[1]], the process of init. *)
Definition PROC1 : Z := Sched.PROC0 + 1.

Definition sigprop : list Z :=
  [0; SA_KILL; SA_KILL; Z.lor SA_KILL SA_CORE; Z.lor SA_KILL SA_CORE; Z.lor SA_KILL SA_CORE; Z.lor SA_KILL SA_CORE;
   Z.lor SA_KILL SA_CORE; Z.lor SA_KILL SA_CORE; SA_KILL; Z.lor SA_KILL SA_CORE; Z.lor SA_KILL SA_CORE;
   Z.lor SA_KILL SA_CORE; SA_KILL; SA_KILL; SA_KILL; SA_IGNORE; SA_STOP; Z.lor SA_STOP SA_TTYSTOP;
   Z.lor SA_IGNORE SA_CONT; SA_IGNORE; Z.lor SA_STOP SA_TTYSTOP; Z.lor SA_STOP SA_TTYSTOP; SA_IGNORE; SA_KILL;
   SA_KILL; SA_KILL; SA_KILL; SA_IGNORE; SA_IGNORE; SA_KILL; SA_KILL; 0].

Definition sigmask (m : Z) : Z := Z.shiftl 1 (m - 1).
Definition contsigmask : Z := sigmask SIGCONT.
Definition stopsigmask : Z :=
  Z.lor (sigmask SIGSTOP) (Z.lor (sigmask SIGTSTP) (Z.lor (sigmask SIGTTIN) (sigmask SIGTTOU))).
Definition sigcantmask : Z := Z.lor (sigmask SIGKILL) (sigmask SIGSTOP).

(** [x & m] as a condition, and [x & ~m]. *)
Definition bit (x m : Z) : bool := negb (Z.land x m =? 0).
Notation "x &~ m" := (Z.ldiff x m) (at level 40).

(** The index of the lowest bit set, counted from 1; 0 for none. *)
Fixpoint ffs_from (n : nat) (i x : Z) : Z :=
  match n with
  | O => 0
  | S n' => if Z.testbit x i then i + 1 else ffs_from n' (i + 1) x
  end.
Definition ffs (x : Z) : Z := ffs_from 32 0 x.

Record sigaltstack_t := SS { ss_base : Z; ss_size : Z; ss_flags : Z }.

(** Data and stack of a process as [struct proc] has them. *)
Record segments := Seg { p_daddr : Z; p_saddr : Z; p_dsize : Z; p_ssize : Z }.

(** The trap frame of the running process and the segments of all. *)
Record ctx := CX {
  u_frame : list Z;
  u_code : Z;
  u_tsize : Z;
  u_dsize : Z;
  u_ssize : Z;
  segs : gmap Z segments
}.

(** [ruids] gives [u_ruid] in the user structure at each [p_addr] in memory. *)
Record sgst := SG {
  sy : sys;
  u_signal : list Z;
  u_sigmask : list Z;
  u_sigonstack : Z;
  u_oldmask : Z;
  u_psflags : Z;
  u_sigtramp : Z;
  u_sigstk : sigaltstack_t;
  cx : ctx;
  ruids : gmap Z Z;
  exited : list Z
}.

Notation K := (M sgst).

Definition set_sy (v : sys) (s : sgst) : sgst :=
  SG v (u_signal s) (u_sigmask s) (u_sigonstack s) (u_oldmask s) (u_psflags s) (u_sigtramp s) (u_sigstk s) (cx s) (ruids s) (exited s).
Definition set_u_signal (v : list Z) (s : sgst) : sgst :=
  SG (sy s) v (u_sigmask s) (u_sigonstack s) (u_oldmask s) (u_psflags s) (u_sigtramp s) (u_sigstk s) (cx s) (ruids s) (exited s).
Definition set_u_sigmask (v : list Z) (s : sgst) : sgst :=
  SG (sy s) (u_signal s) v (u_sigonstack s) (u_oldmask s) (u_psflags s) (u_sigtramp s) (u_sigstk s) (cx s) (ruids s) (exited s).
Definition set_u_sigonstack (v : Z) (s : sgst) : sgst :=
  SG (sy s) (u_signal s) (u_sigmask s) v (u_oldmask s) (u_psflags s) (u_sigtramp s) (u_sigstk s) (cx s) (ruids s) (exited s).
Definition set_u_oldmask (v : Z) (s : sgst) : sgst :=
  SG (sy s) (u_signal s) (u_sigmask s) (u_sigonstack s) v (u_psflags s) (u_sigtramp s) (u_sigstk s) (cx s) (ruids s) (exited s).
Definition set_u_psflags (v : Z) (s : sgst) : sgst :=
  SG (sy s) (u_signal s) (u_sigmask s) (u_sigonstack s) (u_oldmask s) v (u_sigtramp s) (u_sigstk s) (cx s) (ruids s) (exited s).
Definition set_u_sigtramp (v : Z) (s : sgst) : sgst :=
  SG (sy s) (u_signal s) (u_sigmask s) (u_sigonstack s) (u_oldmask s) (u_psflags s) v (u_sigstk s) (cx s) (ruids s) (exited s).
Definition set_u_sigstk (v : sigaltstack_t) (s : sgst) : sgst :=
  SG (sy s) (u_signal s) (u_sigmask s) (u_sigonstack s) (u_oldmask s) (u_psflags s) (u_sigtramp s) v (cx s) (ruids s) (exited s).
Definition set_cx (v : ctx) (s : sgst) : sgst :=
  SG (sy s) (u_signal s) (u_sigmask s) (u_sigonstack s) (u_oldmask s) (u_psflags s) (u_sigtramp s) (u_sigstk s) v (ruids s) (exited s).
Definition set_exited (v : list Z) (s : sgst) : sgst :=
  SG (sy s) (u_signal s) (u_sigmask s) (u_sigonstack s) (u_oldmask s) (u_psflags s) (u_sigtramp s) (u_sigstk s) (cx s) (ruids s) v.

Definition set_u_frame (v : list Z) (c : ctx) : ctx :=
  CX v (u_code c) (u_tsize c) (u_dsize c) (u_ssize c) (segs c).
Definition set_segs (v : gmap Z segments) (c : ctx) : ctx :=
  CX (u_frame c) (u_code c) (u_tsize c) (u_dsize c) (u_ssize c) v.
Definition set_u_ssize (v : Z) (c : ctx) : ctx :=
  CX (u_frame c) (u_code c) (u_tsize c) (u_dsize c) v (segs c).
Definition set_u_dsize (v : Z) (c : ctx) : ctx :=
  CX (u_frame c) (u_code c) (u_tsize c) v (u_ssize c) (segs c).

Definition psets (sig mask ign cat pt : Z) (p : Sched.proc) : Sched.proc :=
  Sched.Proc (Sched.p_nxt p) (Sched.p_pptr p) (Sched.p_flag p) (Sched.p_uid p) (Sched.p_pid p) (Sched.p_ppid p) (Sched.p_stat p) (Sched.p_pri p) (Sched.p_cpu p) (Sched.p_time p) (Sched.p_nice p) (Sched.p_slptime p) (Sched.p_hash p) (Sched.p_link p) (Sched.p_addr p) (Sched.p_wchan p) (Sched.p_rtval p) (Sched.p_rtint p) (Sched.p_pgrp p) sig mask ign cat pt.
Definition set_p_sig (f : Z → Z) (p : Sched.proc) : Sched.proc :=
  psets (f (Sched.p_sig p)) (Sched.p_sigmask p) (Sched.p_sigignore p) (Sched.p_sigcatch p) (Sched.p_ptracesig p) p.
Definition set_p_sigmask (f : Z → Z) (p : Sched.proc) : Sched.proc :=
  psets (Sched.p_sig p) (f (Sched.p_sigmask p)) (Sched.p_sigignore p) (Sched.p_sigcatch p) (Sched.p_ptracesig p) p.
Definition set_p_sigignore (f : Z → Z) (p : Sched.proc) : Sched.proc :=
  psets (Sched.p_sig p) (Sched.p_sigmask p) (f (Sched.p_sigignore p)) (Sched.p_sigcatch p) (Sched.p_ptracesig p) p.
Definition set_p_sigcatch (f : Z → Z) (p : Sched.proc) : Sched.proc :=
  psets (Sched.p_sig p) (Sched.p_sigmask p) (Sched.p_sigignore p) (f (Sched.p_sigcatch p)) (Sched.p_ptracesig p) p.
Definition set_p_ptracesig (v : Z) (p : Sched.proc) : Sched.proc :=
  psets (Sched.p_sig p) (Sched.p_sigmask p) (Sched.p_sigignore p) (Sched.p_sigcatch p) v p.

Definition on_sys {A} (m : M sys A) : K A := λ s,
  match m (sy s) with
  | Ret a k => Ret a (set_sy k s)
  | Panic msg k => Panic msg (set_sy k s)
  | Fault => Fault
  | NoFuel => NoFuel
  end.

Definition rdp (p : Z) : K Sched.proc := on_sys (User.rdp p).
Definition wrp (p : Z) (f : Sched.proc → Sched.proc) : K unit := on_sys (User.wrp p f).
Definition u_procp : K Z := gets (λ s, Sched.u_procp (kern (sy s))).
Definition err (e : Z) : K unit := on_sys (User.err e).
Definition prop_of (sig : Z) : K Z := load (λ _, aget sigprop sig).

Section psignal.
(** [&runout], the channel the swapper sleeps on. *)
Context (RUNOUT : Z).

Definition stop (p : Z) : K unit :=
  wrp p (Sched.set_p_stat Sched.SSTOP);;
  wrp p (λ pr, Sched.set_p_flag (Sched.p_flag pr &~ P_WAITED) pr);;
  pr ← rdp p;
  on_sys (on_kern (Sched.wakeup RUNOUT (Sched.p_pptr pr))).

(** The label [run] of [psignal]. *)
Definition psignal_run (p : Z) : K unit :=
  pr ← rdp p;
  when (Sched.PUSER <? Sched.p_pri pr) (wrp p (Sched.set_p_pri Sched.PUSER));;
  on_sys (on_kern (Sched.setrun RUNOUT p)).

Definition psignal_action (pr : Sched.proc) (mask : Z) : Z :=
  if Sched.has_flag P_TRACED pr then SIG_DFL
  else if bit (Sched.p_sigmask pr) mask then SIG_HOLD
  else if bit (Sched.p_sigcatch pr) mask then SIG_CATCH
  else SIG_DFL.

(** The call [psignal(p->p_pptr, SIGCHLD)] inside is the only recursion: that
    signal stops nobody, so two levels are all there are. *)
Fixpoint psignal_level (level : nat) (p sig : Z) : K unit :=
  match level with
  | O => nofuel
  | S lv =>
      let mask := sigmask sig in
      prop ← prop_of sig;
      pr ← rdp p;
      let traced := Sched.has_flag P_TRACED pr in
      if negb traced && bit (Sched.p_sigignore pr) mask then mret tt
      else
        let action := psignal_action pr mask in
        when ((NZERO <? Sched.p_nice pr) && (action =? SIG_DFL) && bit prop SA_KILL && negb traced)
          (wrp p (Sched.set_p_nice NZERO));;
        when (bit prop SA_CONT) (wrp p (set_p_sig (λ x, x &~ stopsigmask)));;
        if bit prop SA_STOP && (bit prop SA_TTYSTOP && (Sched.p_pptr pr =? PROC1) && (action =? SIG_DFL)) then mret tt
        else
          when (bit prop SA_STOP) (wrp p (set_p_sig (λ x, x &~ contsigmask)));;
          wrp p (set_p_sig (λ x, Z.lor x mask));;
          if (action =? SIG_HOLD) && (negb (bit prop SA_CONT) || negb (Sched.p_stat pr =? Sched.SSTOP)) then mret tt
          else if Sched.p_stat pr =? Sched.SSLEEP then
            if negb (Sched.has_flag Sched.P_SINTR pr) then mret tt
            else if traced then psignal_run p
            else if bit prop SA_CONT && (action =? SIG_DFL) then wrp p (set_p_sig (λ x, x &~ mask))
            else if bit prop SA_STOP then
              if negb (action =? SIG_DFL) then psignal_run p
              else if Sched.has_flag SVFORK pr then mret tt
              else
                wrp p (set_p_sig (λ x, x &~ mask));;
                wrp p (set_p_ptracesig sig);;
                parent ← rdp (Sched.p_pptr pr);
                when (negb (Sched.has_flag P_NOCLDSTOP parent)) (psignal_level lv (Sched.p_pptr pr) SIGCHLD);;
                stop p
            else psignal_run p
          else if Sched.p_stat pr =? Sched.SSTOP then
            if traced then mret tt
            else if sig =? SIGKILL then psignal_run p
            else if bit prop SA_CONT then
              when (action =? SIG_DFL) (wrp p (set_p_sig (λ x, x &~ mask)));;
              if (action =? SIG_CATCH) || (Sched.p_wchan pr =? 0) then psignal_run p
              else wrp p (Sched.set_p_stat Sched.SSLEEP)
            else if bit prop SA_STOP then wrp p (set_p_sig (λ x, x &~ mask))
            else when (negb (Sched.p_wchan pr =? 0) && Sched.has_flag Sched.P_SINTR pr)
                   (on_sys (on_kern (Sched.unsleep p)))
          else mret tt
  end.

Definition psignal (p sig : Z) : K unit := psignal_level 2 p sig.

Fixpoint gsignal_loop (fuel : nat) (pgrp sig p : Z) : K unit :=
  match fuel with
  | O => nofuel
  | S f =>
      if p =? 0 then mret tt
      else
        pr ← rdp p;
        when (Sched.p_pgrp pr =? pgrp) (psignal p sig);;
        pr ← rdp p;
        gsignal_loop f pgrp sig (Sched.p_nxt pr)
  end.

Definition gsignal (pgrp sig : Z) : K unit :=
  if pgrp =? 0 then mret tt
  else
    n ← gets (λ s, size (Sched.procs (kern (sy s))));
    p ← gets (λ s, Sched.allproc (kern (sy s)));
    gsignal_loop (S n) pgrp sig p.

(** Kill the running process with a signal it cannot catch. *)
Definition fatalsig (signum : Z) : K unit :=
  p ← u_procp;
  store (λ s, l ← aset (u_signal s) signum SIG_DFL; Some (set_u_signal l s));;
  let mask := sigmask signum in
  wrp p (set_p_sigignore (λ x, x &~ mask));;
  wrp p (set_p_sigcatch (λ x, x &~ mask));;
  wrp p (set_p_sigmask (λ x, x &~ mask));;
  psignal p signum.

(** ** Actions and masks (kern_sig2.c) *)

Record sigaction_t := SA { sa_handler : Z; sa_mask : Z; sa_flags : Z }.

Definition set_u_sigintr (v : Z) (k : Sched.kst Callout.cost) : Sched.kst Callout.cost :=
  Sched.KS (Sched.procs k) (Sched.slpque k) (Sched.qs k) (Sched.pidhash k) (Sched.freeproc k) (Sched.allproc k)
    (Sched.zombproc k) (Sched.runrun k) (Sched.curpri k) (Sched.noproc k) (Sched.runin k) (Sched.runout k)
    (Sched.panicstr k) (Sched.v_swtch k) (Sched.ru_nvcsw k) (Sched.u_procp k) (Sched.u_error k) v (Sched.sigs k) (Sched.co k).
Definition upd_sigintr (f : Z → Z) : K unit :=
  on_sys (on_kern (modify (λ k, set_u_sigintr (f (Sched.u_sigintr k)) k))).

(** [if (cond) x |= b; else x &= ~b;] *)
Definition set_bit (cond : bool) (b x : Z) : Z := if cond then Z.lor x b else x &~ b.

Definition setsigvec (signum : Z) (sa : sigaction_t) : K unit :=
  p ← u_procp;
  let b := sigmask signum in
  store (λ s, l ← aset (u_signal s) signum (sa_handler sa); Some (set_u_signal l s));;
  store (λ s, l ← aset (u_sigmask s) signum (sa_mask sa &~ sigcantmask); Some (set_u_sigmask l s));;
  upd_sigintr (set_bit (negb (bit (sa_flags sa) SA_RESTART)) b);;
  modify (λ s, set_u_sigonstack (set_bit (bit (sa_flags sa) SA_ONSTACK) b (u_sigonstack s)) s);;
  when (signum =? SIGCHLD)
    (wrp p (λ pr, Sched.set_p_flag (set_bit (bit (sa_flags sa) SA_NOCLDSTOP) P_NOCLDSTOP (Sched.p_flag pr)) pr));;
  prop ← prop_of signum;
  if (sa_handler sa =? SIG_IGN) || (bit prop SA_IGNORE && (sa_handler sa =? SIG_DFL)) then
    wrp p (set_p_sig (λ x, x &~ b));;
    when (negb (signum =? SIGCONT)) (wrp p (set_p_sigignore (λ x, Z.lor x b)));;
    wrp p (set_p_sigcatch (λ x, x &~ b))
  else
    wrp p (set_p_sigignore (λ x, x &~ b));;
    wrp p (set_p_sigcatch (set_bit (negb (sa_handler sa =? SIG_DFL)) b)).

Definition sigaction (signum nsa osa sigtramp : Z) : K unit :=
  modify (set_u_sigtramp sigtramp);;
  if (signum <=? 0) || (NSIG <=? signum) then err EINVAL
  else if negb (nsa =? 0) && ((signum =? SIGKILL) || (signum =? SIGSTOP)) then err EINVAL
  else
    e ← (if negb (osa =? 0) then
           h ← load (λ s, aget (u_signal s) signum);
           m ← load (λ s, aget (u_sigmask s) signum);
           on ← gets u_sigonstack;
           intr ← gets (λ s, Sched.u_sigintr (kern (sy s)));
           p ← u_procp;
           pr ← rdp p;
           let b := sigmask signum in
           let flags := 0 in
           let flags := if bit on b then Z.lor flags SA_ONSTACK else flags in
           let flags := if negb (bit intr b) then Z.lor flags SA_RESTART else flags in
           let flags := if Sched.has_flag P_NOCLDSTOP pr then Z.lor flags SA_NOCLDSTOP else flags in
           on_sys (copyout [h; m; flags] osa)
         else mret 0);
    if negb (e =? 0) then err e
    else if negb (nsa =? 0) then
      '(e, w) ← on_sys (copyin nsa 3);
      when (e =? 0) (setsigvec signum (SA (u32 (nth 0 w 0)) (u32 (nth 1 w 0)) (u32 (nth 2 w 0))));;
      err e
    else err 0.

(** [for (i = 0; i < NSIG; i++)] of [siginit]. *)
Fixpoint siginit_loop (n : nat) (p i : Z) : K unit :=
  match n with
  | O => mret tt
  | S n' =>
      prop ← prop_of i;
      when (bit prop SA_IGNORE && negb (i =? SIGCONT)) (wrp p (set_p_sigignore (λ x, Z.lor x (sigmask i))));;
      siginit_loop n' p (i + 1)
  end.
Definition siginit (p : Z) : K unit := siginit_loop (Z.to_nat NSIG) p 0.

Definition sigprocmask (how set oset : Z) : K unit :=
  p ← u_procp;
  pr ← rdp p;
  let oldmask := Sched.p_sigmask pr in
  e ← (if set =? 0 then mret 0
       else
         '(e, w) ← on_sys (copyin set 1);
         let newmask := u32 (nth 0 w 0) in
         if negb (e =? 0) then mret e
         else if how =? SIG_BLOCK then wrp p (set_p_sigmask (λ x, Z.lor x (newmask &~ sigcantmask)));; mret 0
         else if how =? SIG_UNBLOCK then wrp p (set_p_sigmask (λ x, x &~ newmask));; mret 0
         else if how =? SIG_SETMASK then wrp p (set_p_sigmask (λ _, newmask &~ sigcantmask));; mret 0
         else mret EINVAL);
  e ← (if (e =? 0) && negb (oset =? 0) then on_sys (copyout [oldmask] oset) else mret e);
  err e.

Definition sigpending (set : Z) : K unit :=
  p ← u_procp;
  pr ← rdp p;
  e ← (if negb (set =? 0) then on_sys (copyout [Sched.p_sig pr] set) else mret EINVAL);
  err e.

(** [sigsuspend] up to its sleep. *)
Definition sigsuspend_mask (set : Z) : K unit :=
  p ← u_procp;
  '(e, w) ← (if negb (set =? 0) then on_sys (copyin set 1) else mret (0, []));
  let nmask := if e =? 0 then u32 (nth 0 w 0) else 0 in
  pr ← rdp p;
  modify (set_u_oldmask (Sched.p_sigmask pr));;
  modify (λ s, set_u_psflags (Z.lor (u_psflags s) SAS_OLDMASK) s);;
  wrp p (set_p_sigmask (λ _, nmask &~ sigcantmask)).

Section pause.
(** [tsleep] on the user structure or on its handlers. *)
Context (tsleep : Z → Z → Z → K Z) (UAREA USIGNAL : Z).

Fixpoint sigsuspend_loop (fuel : nat) : K unit :=
  match fuel with
  | O => nofuel
  | S f =>
      r ← tsleep UAREA (Z.lor PPAUSE Sched.PCATCH) 0;
      if r =? 0 then sigsuspend_loop f else mret tt
  end.

Definition sigsuspend (fuel : nat) (set : Z) : K unit :=
  sigsuspend_mask set;;
  sigsuspend_loop fuel;;
  err EINTR.

Fixpoint sigwait_loop (fuel : nat) (p wanted : Z) : K Z :=
  match fuel with
  | O => nofuel
  | S f =>
      pr ← rdp p;
      let sigsavail := Z.land wanted (Sched.p_sig pr) in
      if sigsavail =? 0 then tsleep USIGNAL (Z.lor PPAUSE Sched.PCATCH) 0;; sigwait_loop f p wanted
      else mret sigsavail
  end.

Definition sigwait (fuel : nat) (set sig : Z) : K unit :=
  p ← u_procp;
  if (set =? 0) || (sig =? 0) then err EINVAL
  else
    '(e, w) ← on_sys (copyin set 1);
    if negb (e =? 0) then err e
    else
      let wanted := Z.lor (u32 (nth 0 w 0)) sigcantmask in
      sigsavail ← sigwait_loop fuel p wanted;
      if bit sigsavail sigcantmask then err EINTR
      else
        let signo := ffs sigsavail in
        wrp p (set_p_sig (λ x, x &~ sigmask signo));;
        e ← on_sys (copyout [signo] sig);
        err e.
End pause.

Definition sigaltstack (nss oss : Z) : K unit :=
  fl ← gets u_psflags;
  when (negb (bit fl SAS_ALTSTACK))
    (modify (λ s, let k := u_sigstk s in set_u_sigstk (SS (ss_base k) (ss_size k) (Z.lor (ss_flags k) SA_DISABLE)) s));;
  k ← gets u_sigstk;
  e ← (if negb (oss =? 0) then on_sys (copyout [ss_base k; ss_size k; ss_flags k] oss) else mret 0);
  if negb (e =? 0) || (nss =? 0) then err e
  else
    '(e, w) ← on_sys (copyin nss 3);
    if negb (e =? 0) then err e
    else
      let ss := SS (nth 0 w 0) (nth 1 w 0) (nth 2 w 0) in
      if bit (ss_flags ss) SA_DISABLE then
        if bit (ss_flags k) SA_ONSTACK then err EINVAL
        else
          modify (λ s, set_u_psflags (u_psflags s &~ SAS_ALTSTACK) s);;
          modify (λ s, let k := u_sigstk s in set_u_sigstk (SS (ss_base k) (ss_size k) (ss_flags ss)) s);;
          err 0
      else if ss_size ss <? MINSIGSTKSZ then err ENOMEM
      else
        modify (λ s, set_u_psflags (Z.lor (u_psflags s) SAS_ALTSTACK) s);;
        modify (set_u_sigstk ss);;
        err 0.

(** [sigstack], the call of 4.3BSD. *)
Definition sigstack (nss oss : Z) : K unit :=
  k ← gets u_sigstk;
  e ← (if negb (oss =? 0) then on_sys (copyout [ss_base k; Z.land (ss_flags k) SA_ONSTACK] oss) else mret 0);
  if negb (e =? 0) || (nss =? 0) then err e
  else
    '(e, w) ← on_sys (copyin nss 2);
    when (e =? 0)
      (modify (set_u_sigstk (SS (u32 (nth 0 w 0)) 0 (Z.lor (ss_flags k) (Z.land (nth 1 w 0) SA_ONSTACK))));;
       modify (λ s, set_u_psflags (Z.lor (u_psflags s) SAS_ALTSTACK) s));;
    err e.

(** ** Permission to signal (kern_sig.c, kern_sysctl.c) *)

Section send.
(** [geteblk], a read of the block from the swap device and [biowait], which
    leaves an error in [u_error]; the result is [u_ruid] in the block. *)
Context (swapread : Z → K Z).

(** The real user of a process, the one result [cansignal] asks for. *)
Definition fill_from_u (q : Z) : K Z :=
  pr ← rdp q;
  if Sched.p_stat pr =? Sched.SZOMB then mret (u32 (-2))
  else if Sched.has_flag Sched.SLOAD pr then load (λ s, ruids s !! Sched.p_addr pr)
  else
    r ← swapread (Sched.p_addr pr);
    e ← on_sys User.u_error;
    err 0;;
    mret (if negb (e =? 0) then u32 (-2) else r).

Definition cansignal (q signum : Z) : K bool :=
  curp ← u_procp;
  ruid ← fill_from_u q;
  c ← rdp curp;
  t ← rdp q;
  u_ruid ← gets (λ s, User.u_ruid (usr (sy s)));
  if (Sched.p_uid c =? 0) || (u_ruid =? ruid) || (u32 (Sched.p_uid c) =? ruid) ||
     (u_ruid =? u32 (Sched.p_uid t)) || (Sched.p_uid c =? Sched.p_uid t)
  then mret true
  else if signum =? SIGCONT then on_sys (Cred.inferior q)
  else mret false.

Fixpoint killpg1_loop (fuel : nat) (signo pgrp : Z) (all : bool) (p f error : Z) : K (Z * Z) :=
  match fuel with
  | O => nofuel
  | S fl =>
      if p =? 0 then mret (f, error)
      else
        pr ← rdp p;
        u ← u_procp;
        '(f, error) ←
          (if (negb (Sched.p_pgrp pr =? pgrp) && negb all) || (Sched.p_ppid pr =? 0) || Sched.has_flag SSYS pr ||
              (all && (p =? u))
           then mret (f, error)
           else
             c ← cansignal p signo;
             if negb c then mret (f, if negb all then EPERM else error)
             else when (negb (signo =? 0)) (psignal p signo);; mret (f + 1, error));
        pr ← rdp p;
        killpg1_loop fl signo pgrp all (Sched.p_nxt pr) f error
  end.

Definition killpg1 (signo pgrp : Z) (all : bool) : K Z :=
  u ← u_procp;
  pr ← rdp u;
  let own := negb all && (pgrp =? 0) in
  let pgrp := if own then Sched.p_pgrp pr else pgrp in
  if own && (pgrp =? 0) then mret ESRCH
  else
    n ← gets (λ s, size (Sched.procs (kern (sy s))));
    p ← gets (λ s, Sched.allproc (kern (sy s)));
    '(f, error) ← killpg1_loop (S n) signo pgrp all p 0 0;
    mret (if negb (error =? 0) then error else if f =? 0 then ESRCH else 0).

Definition kill (pid signo : Z) : K unit :=
  e ← (if (signo <? 0) || (NSIG <=? signo) then mret EINVAL
       else if 0 <? pid then
         p ← on_sys (Cred.pfind pid);
         if p =? 0 then mret ESRCH
         else
           c ← cansignal p signo;
           if negb c then mret EPERM
           else when (negb (signo =? 0)) (psignal p signo);; mret 0
       else if pid =? -1 then killpg1 signo 0 true
       else if pid =? 0 then killpg1 signo 0 false
       else killpg1 signo (s32 (- pid)) false);
  err e.

Definition killpg (pgrp signo : Z) : K unit :=
  e ← (if (signo <? 0) || (NSIG <=? signo) then mret EINVAL else killpg1 signo pgrp false);
  err e.
End send.

(** ** The frame of a handler (pic32/signal.c) *)

Definition FRAME_R4 : Z := 3.
Definition FRAME_R5 : Z := 4.
Definition FRAME_R6 : Z := 5.
Definition FRAME_SP : Z := 26.
Definition FRAME_RA : Z := 28.
Definition FRAME_PC : Z := 32.

(** The frame words of [sc_r1], ..., [sc_hi] and [sc_pc], in the order of
    [struct sigcontext]: [FRAME_R1] is 0 and [FRAME_HI] 30, and [FRAME_STATUS],
    31, is not saved. *)
Definition context_regs : list Z := seqZ 0 31 ++ [FRAME_PC].

(** The sizes of [sf_space], [struct sigcontext] and [struct sigframe]. *)
Definition SF_SPACE : Z := 16.
Definition SIGCONTEXT : Z := 4 * 34.
Definition SIGFRAME : Z := SF_SPACE + SIGCONTEXT.

(** Registers stored one after another. *)
Fixpoint set_regs (l : list (Z * Z)) (regs : list Z) : option (list Z) :=
  match l with
  | [] => Some regs
  | (i, v) :: l' => regs' ← aset regs i v; set_regs l' regs'
  end.

Definition upd_cx (f : ctx → ctx) : K unit := modify (λ s, set_cx (f (cx s)) s).
Definition rdg (p : Z) : K segments := load (λ s, segs (cx s) !! p).
Definition wrg (p : Z) (g : segments) : K unit := upd_cx (λ c, set_segs (<[p := g]> (segs c)) c).
Definition store_regs (l : list (Z * Z)) : K unit :=
  store (λ s, r ← set_regs l (u_frame (cx s)); Some (set_cx (set_u_frame r (cx s)) s)).
Definition ss_set (b : bool) (s : sgst) : sgst :=
  let k := u_sigstk s in set_u_sigstk (SS (ss_base k) (ss_size k) (set_bit b SA_ONSTACK (ss_flags k))) s.

(** The address of the frame: on the signal stack if the signal asks for it
    and the process is not on it yet. *)
Definition sendsig_top (sig : Z) : K Z :=
  k ← gets u_sigstk;
  fl ← gets u_psflags;
  on ← gets u_sigonstack;
  if bit fl SAS_ALTSTACK && negb (bit (ss_flags k) SA_ONSTACK) && bit on (sigmask sig) then
    modify (ss_set true);;
    mret (u32 (ss_base k + ss_size k))
  else
    sp ← load (λ s, aget (u_frame (cx s)) FRAME_SP);
    mret (u32 sp).

(** The check of the stack of the process; [false] after [fatalsig]. *)
Definition sendsig_stack (sfp : Z) : K bool :=
  k ← gets u_sigstk;
  if negb (bit (ss_flags k) SA_ONSTACK) then
    p ← u_procp;
    g ← rdg p;
    ds ← gets (λ s, u_dsize (cx s));
    if sfp <? u32 (p_daddr g + ds) then fatalsig SIGILL;; mret false
    else
      let n := u32 (USER_DATA_END - sfp) in
      when (p_ssize g <? n) (wrg p (Seg (p_daddr g) sfp (p_dsize g) n);; upd_cx (set_u_ssize n));;
      mret true
  else mret true.

Definition sendsig (p sig mask : Z) : K unit :=
  k ← gets u_sigstk;
  let oonstack := Z.land (ss_flags k) SA_ONSTACK in
  top ← sendsig_top sig;
  let sfp := u32 (top - SIGFRAME) in
  fits ← sendsig_stack sfp;
  if negb (fits : bool) then mret tt
  else
    ws ← load (λ s, mapM (aget (u_frame (cx s))) context_regs);
    on_sys (modify (λ y, set_mem (put (mem y) (sfp + SF_SPACE) (oonstack :: mask :: ws)) y));;
    code ← gets (λ s, u_code (cx s));
    tramp ← gets u_sigtramp;
    store_regs [(FRAME_R4, sig); (FRAME_R5, code); (FRAME_R6, s32 (sfp + SF_SPACE)); (FRAME_RA, s32 tramp);
                (FRAME_SP, s32 sfp); (FRAME_PC, s32 p)].

(** Every word is read at its address in the order of the structure. *)
Definition sigreturn : K unit :=
  sp ← load (λ s, aget (u_frame (cx s)) FRAME_SP);
  let scp := u32 (sp + SF_SPACE) in
  if baduaddr scp || baduaddr (u32 (scp + SIGCONTEXT)) then err EFAULT
  else
    err EJUSTRETURN;;
    w ← gets (λ s, get (mem (sy s)) scp 34);
    modify (ss_set (bit (nth 0 w 0) SA_ONSTACK));;
    p ← u_procp;
    wrp p (set_p_sigmask (λ _, u32 (nth 1 w 0) &~ sigcantmask));;
    store_regs (zip context_regs (drop 2 w)).

(** ** Delivery (kern_sig.c) *)

Section deliver.
(** The processor switch, the command a tracing parent left, and the core dump,
    which is given [u_arg[0]]. *)
Context (swtch : K unit) (procxmt : K bool) (core : Z → K bool).

(** [do { stop(p); swtch(); } while (!procxmt() && (p->p_flag & P_TRACED));] *)
Fixpoint trace_stop (fuel : nat) (p : Z) : K unit :=
  match fuel with
  | O => nofuel
  | S f =>
      stop p;;
      swtch;;
      r ← procxmt;
      pr ← rdp p;
      if negb r && Sched.has_flag P_TRACED pr then trace_stop f p else mret tt
  end.

(** What a round of [issignal] does with the signal it looks at. *)
Definition issignal_action (p sig prop : Z) : K (option Z) :=
  h ← load (λ s, aget (u_signal s) sig);
  if h =? SIG_DFL then
    pr ← rdp p;
    if Sched.p_pid pr <=? 1 then mret None
    else if bit prop SA_STOP then
      if Sched.has_flag P_TRACED pr || ((Sched.p_pptr pr =? PROC1) && bit prop SA_TTYSTOP) then mret None
      else
        wrp p (set_p_ptracesig sig);;
        parent ← rdp (Sched.p_pptr pr);
        when (negb (Sched.has_flag P_NOCLDSTOP parent)) (psignal (Sched.p_pptr pr) SIGCHLD);;
        stop p;;
        swtch;;
        mret None
    else if bit prop SA_IGNORE then mret None
    else mret (Some sig)
  else if h =? SIG_IGN then mret None
  else mret (Some sig).

Fixpoint issignal (fuel : nat) (p : Z) : K Z :=
  match fuel with
  | O => nofuel
  | S f =>
      pr ← rdp p;
      let mask := Sched.p_sig pr &~ Sched.p_sigmask pr in
      let mask := if Sched.has_flag SVFORK pr then mask &~ stopsigmask else mask in
      if mask =? 0 then mret 0
      else
        let sig := ffs mask in
        let mask := sigmask sig in
        prop ← prop_of sig;
        if bit mask (Sched.p_sigignore pr) && negb (Sched.has_flag P_TRACED pr) then
          wrp p (set_p_sig (λ x, x &~ mask));;
          issignal f p
        else
          r ← (if Sched.has_flag P_TRACED pr && negb (Sched.has_flag SVFORK pr) then
                 wrp p (set_p_sig (λ x, x &~ mask));;
                 wrp p (set_p_ptracesig sig);;
                 psignal (Sched.p_pptr pr) SIGCHLD;;
                 trace_stop f p;;
                 pr ← rdp p;
                 let sig := Sched.p_ptracesig pr in
                 if sig =? 0 then mret None
                 else
                   let mask := sigmask sig in
                   wrp p (set_p_sig (λ x, Z.lor x mask));;
                   if bit (Sched.p_sigmask pr) mask then mret None
                   else if negb (Sched.has_flag P_TRACED pr) then mret None
                   else prop ← prop_of sig; mret (Some (sig, mask, prop))
               else mret (Some (sig, mask, prop)));
          match r with
          | None => issignal f p
          | Some (sig, mask, prop) =>
              a ← issignal_action p sig prop;
              match a with
              | Some sig => mret sig
              | None => wrp p (set_p_sig (λ x, x &~ mask));; issignal f p
              end
          end
  end.

(** The macro [CURSIG]. *)
Definition CURSIG (fuel : nat) (p : Z) : K Z :=
  pr ← rdp p;
  if (Sched.p_sig pr =? 0) ||
     (negb (Sched.has_flag P_TRACED pr) && (Sched.p_sig pr &~ Sched.p_sigmask pr =? 0))
  then mret 0 else issignal fuel p.

Definition postsig (sig : Z) : K unit :=
  p ← u_procp;
  let mask := sigmask sig in
  wrp p (set_p_sig (λ x, x &~ mask));;
  action ← load (λ s, aget (u_signal s) sig);
  if negb (action =? SIG_DFL) then
    err 0;;
    fl ← gets u_psflags;
    pr ← rdp p;
    returnmask ← (if bit fl SAS_OLDMASK then
                    modify (set_u_psflags (fl &~ SAS_OLDMASK));;
                    gets u_oldmask
                  else mret (Sched.p_sigmask pr));
    m ← load (λ s, aget (u_sigmask s) sig);
    wrp p (set_p_sigmask (λ x, Z.lor x (Z.lor m mask)));;
    on_sys (upd_usr (λ u, set_u_ru (let k := u_ru u in KR (ru_utime k) (ru_stime k) (ru_nswap k) (ru_inblock k)
      (ru_oublock k) (ru_msgsnd k) (ru_msgrcv k) (s32 (ru_nsignals k + 1)) (ru_nvcsw k) (ru_nivcsw k)) u));;
    sendsig action sig returnmask
  else
    prop ← prop_of sig;
    dumped ← (if bit prop SA_CORE then core sig else mret false);
    modify (λ s, set_exited (exited s ++ [if dumped : bool then Z.lor sig 128 else sig]) s).

(** The loop at the end of a trap (pic32/exception.c); [exit] does not return
    to it. *)
Fixpoint deliver_loop (fuel scan : nat) : K unit :=
  match fuel with
  | O => nofuel
  | S f =>
      p ← u_procp;
      psig ← CURSIG scan p;
      if psig <=? 0 then mret tt
      else
        postsig psig;;
        dead ← gets exited;
        if negb (bool_decide (dead = [])) then mret tt else deliver_loop f scan
  end.
End deliver.

(** [while (p->p_sigcatch)] of [execsigs]: each round clears one bit. *)
Fixpoint execsigs_loop (fuel : nat) (p : Z) : K unit :=
  match fuel with
  | O => nofuel
  | S f =>
      pr ← rdp p;
      if Sched.p_sigcatch pr =? 0 then mret tt
      else
        let nc := ffs (Sched.p_sigcatch pr) in
        let mask := sigmask nc in
        wrp p (set_p_sigcatch (λ x, x &~ mask));;
        prop ← prop_of nc;
        when (bit prop SA_IGNORE)
          (when (negb (nc =? SIGCONT)) (wrp p (set_p_sigignore (λ x, Z.lor x mask)));;
           wrp p (set_p_sig (λ x, x &~ mask)));;
        store (λ s, l ← aset (u_signal s) nc SIG_DFL; Some (set_u_signal l s));;
        execsigs_loop f p
  end.

Definition execsigs (p : Z) : K unit :=
  execsigs_loop 33 p;;
  modify (set_u_sigstk (SS 0 0 SA_DISABLE));;
  modify (set_u_psflags 0).

End psignal.
End Signal.
