(* ===== verification/SigSpec.v ===== *)
(** * Properties of the signals

    Handlers and sets in step, the posting and the choice of signals, and the
    frame [sendsig] leaves for [sigreturn]. *)

From S2P Require Import Prelude Links Callout Sched User Clock Cred Signal.

Module SigSpec.
Import User.
Import Signal.

(** ** Bits *)

Lemma sigmask_bits m i : 0 < m → Z.testbit (sigmask m) i = (i =? m - 1).
Proof. intros. unfold sigmask. rewrite Z.shiftl_1_l, Z.pow2_bits_eqb by lia. apply Z.eqb_sym. Qed.

Lemma bit_sigmask x m : 0 < m → bit x (sigmask m) = Z.testbit x (m - 1).
Proof.
  intros. unfold bit, sigmask. rewrite Z.shiftl_1_l, flag_test by lia. apply negb_involutive.
Qed.

Lemma set_bit_spec c m x i : 0 < m → Z.testbit (set_bit c (sigmask m) x) i = if i =? m - 1 then c else Z.testbit x i.
Proof.
  intros. unfold set_bit. destruct c; [rewrite Z.lor_spec|rewrite Z.ldiff_spec]; rewrite sigmask_bits by lia;
    destruct (i =? m - 1), (Z.testbit x i); done.
Qed.

Lemma add_bit m x i : 0 < m → Z.testbit (Z.lor x (sigmask m)) i = if i =? m - 1 then true else Z.testbit x i.
Proof. apply (set_bit_spec true). Qed.

Lemma del_bit m x i : 0 < m → Z.testbit (x &~ sigmask m) i = if i =? m - 1 then false else Z.testbit x i.
Proof. apply (set_bit_spec false). Qed.

Lemma cant_bits i : 0 ≤ i → Z.testbit sigcantmask i = ((i =? 8) || (i =? 16)).
Proof.
  intros. unfold sigcantmask. rewrite Z.lor_spec, !sigmask_bits by (unfold SIGKILL, SIGSTOP; lia). done.
Qed.

Lemma ffs_from_spec n i x :
  0 ≤ i → (∃ j, i ≤ j < i + Z.of_nat n ∧ Z.testbit x j = true) →
  ∃ j, ffs_from n i x = j + 1 ∧ i ≤ j ∧ Z.testbit x j = true ∧ ∀ k, i ≤ k < j → Z.testbit x k = false.
Proof.
  revert i. induction n as [|n IH]; intros i Hi (j & Hj & Hb); [lia|]. cbn [ffs_from].
  destruct (Z.testbit x i) eqn:Hx; [exists i; split; [done|split; [lia|split; [done|lia]]]|].
  destruct (IH (i + 1)) as (j' & -> & Hij & Hb' & Hlow); [lia| |].
  { exists j. split; [|done]. assert (j ≠ i) by congruence. lia. }
  exists j'. split; [done|]. split; [lia|]. split; [done|]. intros k Hk.
  destruct (decide (k = i)) as [->|]; [done|]. apply Hlow. lia.
Qed.

(** The lowest member of a nonempty set of the signals 1 to 31. *)
Lemma ffs_spec x :
  x ≠ 0 → (∀ i, 31 ≤ i → Z.testbit x i = false) →
  0 < ffs x < NSIG ∧ Z.testbit x (ffs x - 1) = true ∧ ∀ i, 0 ≤ i < ffs x - 1 → Z.testbit x i = false.
Proof.
  intros Hx Hh. destruct (ffs_from_spec 32 0 x) as (j & Hf & Hj & Hb & Hlow); [lia| |].
  { destruct (existsb (Z.testbit x) (seqZ 0 31)) eqn:E.
    - apply existsb_exists in E as (j & Hj & Hb). apply list_elem_of_In, elem_of_seqZ in Hj. exists j. split; [lia|done].
    - destruct Hx. apply Z.bits_inj'. intros i Hi. rewrite Z.bits_0.
      destruct (decide (31 ≤ i)); [by apply Hh|]. destruct (Z.testbit x i) eqn:Hb; [|done].
      assert (existsb (Z.testbit x) (seqZ 0 31) = true); [|congruence].
      apply existsb_exists. exists i. split; [apply list_elem_of_In, elem_of_seqZ; lia|done]. }
  fold (ffs x) in Hf. rewrite Hf. replace (j + 1 - 1) with j by lia. split; [|split; [done|]].
  - unfold NSIG. destruct (decide (31 ≤ j)); [by rewrite Hh in Hb|lia].
  - intros i Hi. apply Hlow. lia.
Qed.

(** ** Rules *)

Definition procs_of (s : sgst) := Sched.procs (kern (sy s)).
Definition cur (s : sgst) : Z := Sched.u_procp (kern (sy s)).
Definition put_proc (p : Z) (pr : Sched.proc) (s : sgst) : sgst :=
  set_sy (set_kern (Sched.set_procs (<[p := pr]> (procs_of s)) (kern (sy s))) (sy s)) s.

Lemma wp_on_sys {A} (m : M sys A) Q s :
  wp m (λ a y, Q a (set_sy y s)) (sy s) → wp (on_sys m) Q s.
Proof.
  rewrite !wp_run. intros (a & k & Hm & HQ). exists a, (set_sy k s). split; [|done].
  unfold on_sys. by rewrite Hm.
Qed.

Lemma wp_s_rdp p pr (Q : Sched.proc → sgst → Prop) s : procs_of s !! p = Some pr → Q pr s → wp (rdp p) Q s.
Proof. intros Hp HQ. apply wp_on_sys. eapply wp_u_rdp; [exact Hp|]. by destruct s. Qed.

Lemma wp_s_wrp p f pr (Q : unit → sgst → Prop) s :
  procs_of s !! p = Some pr → Q tt (put_proc p (f pr) s) → wp (wrp p f) Q s.
Proof. intros Hp HQ. apply wp_on_sys. eapply wp_u_wrp; [exact Hp|]. done. Qed.

Lemma wp_s_err e (Q : unit → sgst → Prop) s :
  Q tt (set_sy (set_kern (Sched.set_u_error e (kern (sy s))) (sy s)) s) → wp (err e) Q s.
Proof. intros. by apply wp_on_sys, wp_err. Qed.

Lemma wp_prop_of sig (Q : Z → sgst → Prop) s :
  0 ≤ sig ≤ NSIG → Q (nth (Z.to_nat sig) sigprop 0) s → wp (prop_of sig) Q s.
Proof.
  intros Hs HQ. eapply wp_load; [|exact HQ]. unfold aget. rewrite (proj2 (Z.leb_le 0 sig)) by lia.
  destruct (lookup_lt_is_Some_2 sigprop (Z.to_nat sig)) as (x & Hx); [unfold NSIG in Hs; cbn; lia|].
  rewrite Hx. by rewrite (nth_lookup_Some _ _ _ _ Hx).
Qed.

Lemma procs_put p pr s : procs_of (put_proc p pr s) !! p = Some pr.
Proof. apply lookup_insert_eq. Qed.

Lemma procs_put_ne p q pr s : p ≠ q → procs_of (put_proc p pr s) !! q = procs_of s !! q.
Proof. intros. by apply lookup_insert_ne. Qed.

Lemma put_put p a b s : put_proc p a (put_proc p b s) = put_proc p a s.
Proof.
  unfold put_proc at 1. change (procs_of (put_proc p b s)) with (<[p := b]> (procs_of s)).
  rewrite insert_insert_eq. done.
Qed.

Lemma put_id p pr s : procs_of s !! p = Some pr → put_proc p pr s = s.
Proof.
  intros Hp. unfold put_proc. rewrite (insert_id _ _ _ Hp). destruct s as [[[]]]; done.
Qed.

Lemma wp_when_wrp (b : bool) p f pr (Q : unit → sgst → Prop) s :
  procs_of s !! p = Some pr → Q tt (put_proc p (if b then f pr else pr) s) → wp (when b (wrp p f)) Q s.
Proof.
  intros Hp HQ. destruct b; cbn [when]; [by eapply wp_s_wrp|]. apply wp_ret. by rewrite (put_id _ _ _ Hp) in HQ.
Qed.

(** Symbolic execution with the entry of one process at hand. *)
Ltac s_step :=
  first
    [ apply wp_bind
    | eapply wp_when_wrp; [first [eassumption | apply procs_put]|]; cbv beta; rewrite ?put_put
    | eapply wp_s_rdp; [first [eassumption | apply procs_put]|]; cbv beta
    | eapply wp_s_wrp; [first [eassumption | apply procs_put]|]; cbv beta; rewrite ?put_put
    | apply wp_s_err
    | apply wp_gets
    | apply wp_modify
    | apply wp_ret ];
  cbv beta.

(** ** Posting *)

Definition prop (sig : Z) : Z := nth (Z.to_nat sig) sigprop 0.

(** What posting a signal makes of the entry of a process that neither sleeps
    nor is stopped. *)
Definition posted (sig : Z) (pr : Sched.proc) : Sched.proc :=
  let mask := sigmask sig in
  let traced := Sched.has_flag P_TRACED pr in
  if negb traced && bit (Sched.p_sigignore pr) mask then pr
  else
    let action := psignal_action pr mask in
    let pr1 := if (NZERO <? Sched.p_nice pr) && (action =? SIG_DFL) && bit (prop sig) SA_KILL && negb traced
               then Sched.set_p_nice NZERO pr else pr in
    let pr2 := if bit (prop sig) SA_CONT then set_p_sig (λ x, x &~ stopsigmask) pr1 else pr1 in
    if bit (prop sig) SA_STOP && (bit (prop sig) SA_TTYSTOP && (Sched.p_pptr pr =? PROC1) && (action =? SIG_DFL)) then pr2
    else set_p_sig (λ x, Z.lor x mask) (if bit (prop sig) SA_STOP then set_p_sig (λ x, x &~ contsigmask) pr2 else pr2).

Definition awake (pr : Sched.proc) : Prop := Sched.p_stat pr ≠ Sched.SSLEEP ∧ Sched.p_stat pr ≠ Sched.SSTOP.

Lemma psignal_awake RUNOUT p sig pr (Q : unit → sgst → Prop) s :
  procs_of s !! p = Some pr → awake pr → 0 ≤ sig ≤ NSIG → Q tt (put_proc p (posted sig pr) s) →
  wp (psignal RUNOUT p sig) Q s.
Proof.
  intros Hp (Hsl & Hst) Hs. unfold posted, psignal. cbn [psignal_level]. intros HQ.
  s_step. apply wp_prop_of; [done|]. fold (prop sig). s_step. s_step.
  destruct (negb _ && _); [s_step; by rewrite (put_id _ _ _ Hp) in HQ|].
  do 4 s_step. destruct (bit (prop sig) SA_STOP && _); [by s_step|].
  do 4 s_step. destruct ((_ =? SIG_HOLD) && _); [by s_step|].
  rewrite (proj2 (Z.eqb_neq _ _) Hsl), (proj2 (Z.eqb_neq _ _) Hst). by s_step.
Qed.

(** SIGCONT and the stop signals cancel each other. *)
Definition stops (sig : Z) : bool := bool_decide (sig ∈ [SIGSTOP; SIGTSTP; SIGTTIN; SIGTTOU]).
Definition cancels (sig j : Z) : bool := ((sig =? SIGCONT) && stops j) || (stops sig && (j =? SIGCONT)).

Lemma prop_flags sig : 0 ≤ sig ≤ NSIG →
  bit (prop sig) SA_CONT = (sig =? SIGCONT) ∧ bit (prop sig) SA_STOP = stops sig ∧
  bit (prop sig) SA_TTYSTOP = (stops sig && negb (sig =? SIGSTOP)).
Proof.
  intros Hs. pose (f := λ sig, bool_decide (bit (prop sig) SA_CONT = (sig =? SIGCONT) ∧ bit (prop sig) SA_STOP = stops sig ∧
    bit (prop sig) SA_TTYSTOP = (stops sig && negb (sig =? SIGSTOP)))).
  assert (Hf : f sig = true) by (apply (forallb_range f 0 33); [vm_compute; reflexivity|unfold NSIG in Hs; lia]).
  by apply bool_decide_eq_true in Hf.
Qed.

Lemma stop_bits i : 0 ≤ i → Z.testbit stopsigmask i = stops (i + 1).
Proof.
  intros Hi. unfold stopsigmask. rewrite !Z.lor_spec, !sigmask_bits by done. unfold stops.
  apply eq_true_iff_eq. rewrite bool_decide_eq_true, !orb_true_iff, !Z.eqb_eq.
  rewrite !elem_of_cons, elem_of_nil. unfold SIGSTOP, SIGTSTP, SIGTTIN, SIGTTOU. lia.
Qed.

(** A signal that leaves no trace: ignored, or a stop from the terminal to a
    child of init that would only stop it. *)
Definition discarded (sig : Z) (pr : Sched.proc) : bool :=
  (negb (Sched.has_flag P_TRACED pr) && bit (Sched.p_sigignore pr) (sigmask sig)) ||
  (stops sig && negb (sig =? SIGSTOP) && (Sched.p_pptr pr =? PROC1) && (psignal_action pr (sigmask sig) =? SIG_DFL)).

Lemma posted_bits sig pr i : 0 < sig < NSIG → 0 ≤ i →
  Z.testbit (Sched.p_sig (posted sig pr)) i =
  if discarded sig pr then Z.testbit (Sched.p_sig pr) i
  else (i =? sig - 1) || (Z.testbit (Sched.p_sig pr) i && negb (cancels sig (i + 1))).
Proof.
  intros Hs Hi. destruct (prop_flags sig) as (Hc & Hst & Htt); [lia|]. unfold posted, discarded, cancels.
  rewrite Hc, Hst, Htt. destruct (negb _ && bit _ _); cbn [orb]; [done|].
  set (dfl := psignal_action _ _ =? SIG_DFL). set (o := Sched.p_pptr pr =? PROC1).
  assert (Hn : ∀ b : bool, Sched.p_sig (if b then Sched.set_p_nice NZERO pr else pr) = Sched.p_sig pr) by (by intros []).
  destruct (Z.eqb_spec sig SIGCONT) as [->|Hne].
  - change (stops SIGCONT) with false. cbn [andb orb]. cbn [set_p_sig psets Sched.p_sig]. rewrite Hn.
    rewrite Z.lor_spec, Z.ldiff_spec, sigmask_bits, stop_bits by done. rewrite orb_false_r. apply orb_comm.
  - cbn [andb orb]. destruct (stops sig) eqn:Hs17; cbn [andb].
    + destruct (negb (sig =? SIGSTOP) && o && dfl).
      * by rewrite Hn.
      * cbn [set_p_sig psets Sched.p_sig]. rewrite Hn, Z.lor_spec, sigmask_bits by lia.
        unfold contsigmask. rewrite del_bit by done. change (SIGCONT - 1) with 18. unfold SIGCONT.
        destruct (Z.eqb_spec i 18), (Z.eqb_spec (i + 1) 19); try lia.
        cbn [negb]. rewrite andb_true_r. apply orb_comm.
    + cbn [set_p_sig psets Sched.p_sig]. rewrite Hn, Z.lor_spec, sigmask_bits by lia.
      rewrite andb_true_r. apply orb_comm.
Qed.

(** A process never has both SIGCONT and a stop signal pending. *)
Definition exclusive (x : Z) : Prop :=
  Z.testbit x (SIGCONT - 1) = true → ∀ j, 0 < j → stops j = true → Z.testbit x (j - 1) = false.

Lemma posted_exclusive sig pr : 0 < sig < NSIG → exclusive (Sched.p_sig pr) → exclusive (Sched.p_sig (posted sig pr)).
Proof.
  intros Hs Hx. unfold exclusive. intros Hc j Hj Hst. rewrite posted_bits in Hc |- * by (unfold SIGCONT; lia).
  destruct (discarded sig pr); [by apply Hx|]. replace (j - 1 + 1) with j by lia.
  replace (SIGCONT - 1 + 1) with SIGCONT in Hc by lia. unfold cancels in *.
  rewrite Hst, andb_true_r. rewrite Z.eqb_refl, andb_true_r in Hc. change (stops SIGCONT) with false in Hc.
  rewrite andb_false_r in Hc. cbn [orb] in Hc.
  destruct (Z.eqb_spec (SIGCONT - 1) (sig - 1)) as [E|E].
  - replace sig with SIGCONT in * by lia. rewrite Z.eqb_refl. cbn [orb negb]. rewrite andb_false_r, orb_false_r.
    apply Z.eqb_neq. intros E'. replace j with SIGCONT in Hst by lia. done.
  - cbn [orb] in Hc. apply andb_true_iff in Hc as (Hc & Hsig). apply negb_true_iff in Hsig.
    rewrite (Hx Hc j) by done. rewrite andb_false_l, orb_false_r. apply Z.eqb_neq. intros E'.
    replace sig with j in Hsig by lia. congruence.
Qed.

(** ** Handlers and sets in step *)

Definition handler (us : list Z) (sig : Z) : Z := default SIG_DFL (aget us sig).
Definition caught (us : list Z) (sig : Z) : bool := negb (handler us sig =? SIG_DFL) && negb (handler us sig =? SIG_IGN).
Definition ignored (us : list Z) (sig : Z) : bool :=
  negb (sig =? SIGCONT) &&
  ((handler us sig =? SIG_IGN) || (bit (prop sig) SA_IGNORE && (handler us sig =? SIG_DFL))).

(** A mask without SIGKILL and SIGSTOP. *)
Definition maskable (m : Z) : Prop := Z.testbit m (SIGKILL - 1) = false ∧ Z.testbit m (SIGSTOP - 1) = false.

Record in_step (pr : Sched.proc) (us um : list Z) (old : Z) : Prop := {
  is_len : length us = 32%nat ∧ length um = 32%nat;
  is_catch : ∀ i, 0 ≤ i → Z.testbit (Sched.p_sigcatch pr) i = caught us (i + 1);
  is_ignore : ∀ i, 0 ≤ i → Z.testbit (Sched.p_sigignore pr) i = ignored us (i + 1);
  is_mask : maskable (Sched.p_sigmask pr);
  is_old : maskable old;
  is_um : Forall maskable um;
  is_kill : handler us SIGKILL = SIG_DFL ∧ handler us SIGSTOP = SIG_DFL;
  is_pend : ∀ i, 31 ≤ i → Z.testbit (Sched.p_sig pr) i = false
}.

(** The running process is awake and its sets agree with its handlers. *)
Definition ok (s : sgst) : Prop :=
  ∃ pr, procs_of s !! cur s = Some pr ∧ awake pr ∧ in_step pr (u_signal s) (u_sigmask s) (u_oldmask s) ∧
        length (u_frame (cx s)) = 33%nat ∧ is_Some (segs (cx s) !! cur s).

Lemma handler_insert us n h sig : 0 ≤ n < zlen us → 0 ≤ sig →
  handler (<[Z.to_nat n := h]> us) sig = if sig =? n then h else handler us sig.
Proof.
  intros Hn Hs. unfold handler, aget. rewrite (proj2 (Z.leb_le 0 sig)) by done. destruct (Z.eqb_spec sig n) as [->|Hne].
  - rewrite list_lookup_insert_eq by lia. done.
  - rewrite list_lookup_insert_ne by lia. done.
Qed.

Lemma aget_handler us n : 0 ≤ n < zlen us → aget us n = Some (handler us n).
Proof. intros Hn. destruct (aget_is_Some us n Hn) as (h & Hh). unfold handler. by rewrite Hh. Qed.

Lemma maskable_ldiff m : maskable (m &~ sigcantmask).
Proof. split; rewrite Z.ldiff_spec, cant_bits by done; apply andb_false_r. Qed.

Lemma maskable_lor m m' : maskable m → maskable m' → maskable (Z.lor m m').
Proof. intros (? & ?) (? & ?). split; rewrite Z.lor_spec; by apply orb_false_iff. Qed.

Lemma maskable_sub m m' : maskable m → maskable (m &~ m').
Proof. intros (H1 & H2). split; rewrite Z.ldiff_spec; by rewrite ?H1, ?H2. Qed.

Lemma maskable_sigmask n : 0 < n → n ≠ SIGKILL → n ≠ SIGSTOP → maskable (sigmask n).
Proof. intros. split; rewrite sigmask_bits by done; apply Z.eqb_neq; lia. Qed.

(** Changing one handler together with its bits. *)
Lemma in_step_handler pr pr' us um um' old n h :
  in_step pr us um old → 0 < n < NSIG → (n = SIGKILL ∨ n = SIGSTOP → h = SIG_DFL) →
  (∀ i, 0 ≤ i → Z.testbit (Sched.p_sigcatch pr') i =
     if i =? n - 1 then negb (h =? SIG_DFL) && negb (h =? SIG_IGN) else Z.testbit (Sched.p_sigcatch pr) i) →
  (∀ i, 0 ≤ i → Z.testbit (Sched.p_sigignore pr') i =
     if i =? n - 1 then negb (n =? SIGCONT) && ((h =? SIG_IGN) || (bit (prop n) SA_IGNORE && (h =? SIG_DFL)))
     else Z.testbit (Sched.p_sigignore pr) i) →
  maskable (Sched.p_sigmask pr') → Forall maskable um' → length um' = 32%nat →
  (∀ i, 31 ≤ i → Z.testbit (Sched.p_sig pr') i = false) →
  in_step pr' (<[Z.to_nat n := h]> us) um' old.
Proof.
  intros [[Hl1 Hl2] Hca Hig Hm Ho Hum [Hk Hst] Hp] Hn Hh Hca' Hig' Hm' Hum' Hl' Hp'. unfold NSIG in Hn.
  constructor; try done.
  - by rewrite length_insert.
  - intros i Hi. rewrite Hca' by done. unfold caught. rewrite handler_insert by lia.
    destruct (Z.eqb_spec i (n - 1)), (Z.eqb_spec (i + 1) n); try lia; first [done|by apply Hca].
  - intros i Hi. rewrite Hig' by done. unfold ignored. rewrite handler_insert by lia.
    destruct (Z.eqb_spec i (n - 1)), (Z.eqb_spec (i + 1) n) as [E|]; try lia; first [by rewrite E|by apply Hig].
  - rewrite !handler_insert by (unfold SIGKILL, SIGSTOP; lia).
    split; [destruct (Z.eqb_spec SIGKILL n)|destruct (Z.eqb_spec SIGSTOP n)]; auto.
Qed.

(** Everything but the sets of the running process may change freely. *)
Lemma in_step_mask pr pr' us um old old' :
  in_step pr us um old → Sched.p_sigcatch pr' = Sched.p_sigcatch pr → Sched.p_sigignore pr' = Sched.p_sigignore pr →
  maskable (Sched.p_sigmask pr') → maskable old' → (∀ i, 31 ≤ i → Z.testbit (Sched.p_sig pr') i = false) →
  in_step pr' us um old'.
Proof. intros [] Hc Hi Hm Ho Hp. constructor; try done; [by rewrite Hc|by rewrite Hi]. Qed.

Lemma ok_put pr' s pr : procs_of s !! cur s = Some pr → length (u_frame (cx s)) = 33%nat → is_Some (segs (cx s) !! cur s) → awake pr' →
  in_step pr' (u_signal s) (u_sigmask s) (u_oldmask s) → ok (put_proc (cur s) pr' s).
Proof. intros Hp Hl Hg Ha Hi. exists pr'. split; [apply procs_put|]. done. Qed.

Lemma wp_s_copyin src n (Q : Z * list Z → sgst → Prop) s :
  (∀ r, Q r s) → wp (on_sys (copyin src n)) Q s.
Proof. intros HQ. apply wp_on_sys. destruct s. apply wp_copyin; intros; apply HQ. Qed.

Lemma wp_s_copyout ws dst (Q : Z → sgst → Prop) s :
  Q EFAULT s → (∀ m, Q 0 (set_sy (set_mem m (sy s)) s)) → wp (on_sys (copyout ws dst)) Q s.
Proof. intros H1 H2. apply wp_on_sys. destruct s. apply wp_copyout; intros; [apply H1|apply H2]. Qed.

(** A call that touches none of what [ok] speaks of. *)
Definition core (s : sgst) := (procs_of s, cur s, u_signal s, u_sigmask s, u_oldmask s, u_frame (cx s), segs (cx s)).

Lemma ok_core s s' : core s' = core s → ok s → ok s'.
Proof. unfold core, ok. by intros [= -> -> -> -> -> -> ->]. Qed.

Lemma pend_del pr x (H : ∀ i, 31 ≤ i → Z.testbit (Sched.p_sig pr) i = false) i :
  31 ≤ i → Z.testbit (Sched.p_sig pr &~ x) i = false.
Proof. intros Hi. by rewrite Z.ldiff_spec, H. Qed.

Lemma setsigvec_ok signum sa s :
  0 < signum < NSIG → signum ≠ SIGKILL → signum ≠ SIGSTOP → ok s → wp (setsigvec signum sa) (λ _ s', ok s') s.
Proof.
  intros Hn Hk Hst (pr & Hp & Ha & His & Hfr & Hsg). unfold setsigvec. do 2 s_step. fold (cur s).
  pose proof (is_len _ _ _ _ His) as (Hl1 & Hl2). pose proof (is_pend _ _ _ _ His) as Hpend.
  assert (Hcont : Z.testbit (Sched.p_sigignore pr) 18 = false) by (by rewrite (is_ignore _ _ _ _ His)).
  s_step. eapply wp_store; [rewrite aset_Some by (unfold NSIG in Hn; lia); done|].
  s_step. eapply wp_store; [cbn; rewrite aset_Some by (unfold NSIG in Hn; lia); done|].
  s_step. apply wp_on_sys, wp_on_kern, wp_modify. do 2 s_step. do 2 s_step.
  s_step. apply wp_prop_of; [lia|]. fold (prop signum).
  assert (Hum : Forall maskable (<[Z.to_nat signum := sa_mask sa &~ sigcantmask]> (u_sigmask s))).
  { apply Forall_insert; [apply (is_um _ _ _ _ His)|apply maskable_ldiff]. }
  set (pr1 := if signum =? SIGCHLD then _ else pr).
  assert (H1 : awake pr1 ∧ Sched.p_sig pr1 = Sched.p_sig pr ∧ Sched.p_sigmask pr1 = Sched.p_sigmask pr ∧
    Sched.p_sigignore pr1 = Sched.p_sigignore pr ∧ Sched.p_sigcatch pr1 = Sched.p_sigcatch pr).
  { unfold pr1. by destruct (signum =? SIGCHLD). }
  destruct H1 as (Ha1 & Hsig & Hmask & Hign & Hcat).
  destruct ((sa_handler sa =? SIG_IGN) || (bit (prop signum) SA_IGNORE && (sa_handler sa =? SIG_DFL))) eqn:Ei;
    destruct (signum =? SIGCONT) eqn:Ec; cbn [negb when]; repeat s_step.
  all: eexists; (split; [apply procs_put|]); (split; [done|]); (split; [|exact (conj Hfr Hsg)]).
  all: apply (in_step_handler pr _ (u_signal s) (u_sigmask s)); try done; [by intros []| | | | |].
  all: cbn [set_p_sigcatch set_p_sigignore set_p_sig psets Sched.p_sig Sched.p_sigmask Sched.p_sigcatch Sched.p_sigignore].
  all: rewrite ?Hcat, ?Hign, ?Hsig, ?Hmask; try apply (is_mask _ _ _ _ His); try (by apply pend_del); try done.
  all: try (change (length (<[Z.to_nat signum := sa_mask sa &~ sigcantmask]> (u_sigmask s)) = 32%nat); by rewrite length_insert).
  all: intros i Hi; rewrite ?add_bit, ?del_bit, ?set_bit_spec by lia; destruct (Z.eqb_spec i (signum - 1)) as [E|E]; try done.
  all: rewrite ?Ei, ?Ec; cbn [negb andb]; try done.
  all: try (apply Z.eqb_eq in Ec; rewrite E, Ec; exact Hcont).
  all: destruct (sa_handler sa =? SIG_IGN), (sa_handler sa =? SIG_DFL); try done; by rewrite andb_false_r in Ei.
Qed.

Lemma sigaction_ok signum nsa osa tramp s : ok s → wp (sigaction signum nsa osa tramp) (λ _ s', ok s') s.
Proof.
  intros Hok. unfold sigaction. do 2 s_step.
  destruct ((signum <=? 0) || (NSIG <=? signum)) eqn:Hr; [by s_step|]. to_prop.
  destruct (negb (nsa =? 0) && _) eqn:Hk; [by s_step|].
  s_step. eapply (wp_mono _ (λ _ s', ok s')).
  2: { intros e s' Hok'. destruct (negb (e =? 0)); [by s_step|]. destruct (negb (nsa =? 0)); [|by s_step].
    s_step. apply wp_s_copyin. intros (e' & w). s_step. apply wp_when.
    - intros _. eapply (wp_mono _ (λ _ s', ok s')); [|intros; by s_step]. apply setsigvec_ok; [lia| | |done];
        (intros ->; by destruct (nsa =? 0)).
    - intros _. by s_step. }
  destruct (negb (osa =? 0)); [|by s_step]. destruct Hok as (pr & Hp & Ha & His & Hfr & Hsg).
  pose proof (is_len _ _ _ _ His) as (Hl1 & Hl2). unfold NSIG in *.
  s_step. eapply wp_load; [apply aget_handler; cbn; lia|]. s_step. eapply wp_load; [apply aget_handler; cbn; lia|].
  do 6 s_step. do 2 s_step. apply wp_s_copyout; [|intros m]; by exists pr.
Qed.

Lemma sigprocmask_ok how set oset s : ok s → wp (sigprocmask how set oset) (λ _ s', ok s') s.
Proof.
  intros (pr & Hp & Ha & His & Hfr & Hsg). unfold sigprocmask. do 2 s_step. fold (cur s). do 2 s_step.
  s_step. eapply (wp_mono _ (λ _ s', ok s')).
  2: { intros e s' Hok. s_step. eapply (wp_mono _ (λ _ s', ok s')); [|intros; by s_step].
    destruct (_ && _); [by apply wp_s_copyout; [|intros]|by s_step]. }
  assert (Hok : ok s) by (by exists pr).
  destruct (set =? 0); [by s_step|]. s_step. apply wp_s_copyin. intros (e & w).
  destruct (negb (e =? 0)); [by s_step|].
  pose proof (is_mask _ _ _ _ His) as Hm. pose proof (is_pend _ _ _ _ His). pose proof (is_old _ _ _ _ His).
  repeat case_match; repeat s_step; try done;
    (eapply ok_put; [exact Hp|done|done|done|]; apply (in_step_mask pr _ _ _ (u_oldmask s)); try done; cbn).
  - apply maskable_lor; [done|apply maskable_ldiff].
  - by apply maskable_sub.
  - apply maskable_ldiff.
Qed.

Lemma sigsuspend_mask_ok set s : ok s → wp (sigsuspend_mask set) (λ _ s', ok s') s.
Proof.
  intros (pr & Hp & Ha & His & Hfr & Hsg). unfold sigsuspend_mask. do 2 s_step. fold (cur s).
  pose proof (is_mask _ _ _ _ His). pose proof (is_pend _ _ _ _ His).
  s_step. eapply (wp_mono _ (λ _ s', s' = s)).
  2: { intros (e & w) s' ->. do 7 s_step. eexists. split; [apply procs_put|]. split; [done|]. split; [|exact (conj Hfr Hsg)].
    apply (in_step_mask pr _ _ _ (u_oldmask s)); try done. apply maskable_ldiff. }
  destruct (negb (set =? 0)); [by apply wp_s_copyin; intros|by s_step].
Qed.

Lemma sigpending_ok set s : ok s → wp (sigpending set) (λ _ s', ok s') s.
Proof.
  intros Hok. pose proof Hok as (pr & Hp & _). unfold sigpending. do 4 s_step. s_step.
  eapply (wp_mono _ (λ _ s', ok s')); [|intros; by s_step].
  destruct (negb (set =? 0)); [by apply wp_s_copyout; [|intros]|by s_step].
Qed.

Lemma sigaltstack_ok nss oss s : ok s → wp (sigaltstack nss oss) (λ _ s', ok s') s.
Proof.
  intros Hok. unfold sigaltstack. do 2 s_step. s_step. apply wp_when; intros _; [s_step|].
  all: do 3 s_step; (eapply (wp_mono _ (λ _ s', ok s'));
    [destruct (negb (oss =? 0)); [by apply wp_s_copyout; [|intros]|by s_step]|]).
  all: intros e s' Hok'; destruct (_ || _); [by s_step|]; s_step; apply wp_s_copyin; intros (e' & w).
  all: repeat case_match; repeat s_step; done.
Qed.

Lemma sigstack_ok nss oss s : ok s → wp (sigstack nss oss) (λ _ s', ok s') s.
Proof.
  intros Hok. unfold sigstack. do 3 s_step.
  eapply (wp_mono _ (λ _ s', ok s')); [destruct (negb (oss =? 0)); [by apply wp_s_copyout; [|intros]|by s_step]|].
  intros e s' Hok'. destruct (_ || _); [by s_step|]. s_step. apply wp_s_copyin. intros (e' & w).
  s_step. apply wp_when; intros _; repeat s_step; done.
Qed.

Lemma set_regs_Some l regs :
  Forall (λ iv, 0 ≤ iv.1 < zlen regs) l → ∃ regs', set_regs l regs = Some regs' ∧ length regs' = length regs.
Proof.
  revert regs. induction l as [|(i & v) l IH]; intros regs Hl; [by eexists|]. apply Forall_cons in Hl as (Hi & Hl).
  cbn [set_regs]. rewrite aset_Some by done. cbn. destruct (IH (<[Z.to_nat i := v]> regs)) as (r & -> & Hr).
  - eapply Forall_impl; [exact Hl|]. intros iv. by rewrite length_insert.
  - exists r. rewrite Hr. split; [done|by rewrite length_insert].
Qed.

Lemma wp_store_regs l (Q : unit → sgst → Prop) s :
  Forall (λ iv, 0 ≤ iv.1 < 33) l → length (u_frame (cx s)) = 33%nat →
  (∀ r, set_regs l (u_frame (cx s)) = Some r → length r = 33%nat → Q tt (set_cx (set_u_frame r (cx s)) s)) →
  wp (store_regs l) Q s.
Proof.
  intros Hl Hf HQ. destruct (set_regs_Some l (u_frame (cx s))) as (r & Hr & Hlen); [by rewrite Hf|].
  eapply wp_store; [by rewrite Hr|]. apply HQ; [done|lia].
Qed.

Lemma pend_posted sig pr i :
  0 < sig < NSIG → (∀ i, 31 ≤ i → Z.testbit (Sched.p_sig pr) i = false) → 31 ≤ i →
  Z.testbit (Sched.p_sig (posted sig pr)) i = false.
Proof.
  intros Hs Hp Hi. rewrite posted_bits by lia. rewrite Hp by done. rewrite andb_false_l, orb_false_r.
  destruct (discarded sig pr); [done|]. apply Z.eqb_neq. unfold NSIG in Hs. lia.
Qed.

Lemma posted_rest sig pr : awake pr →
  awake (posted sig pr) ∧ Sched.p_sigmask (posted sig pr) = Sched.p_sigmask pr ∧
  Sched.p_sigignore (posted sig pr) = Sched.p_sigignore pr ∧ Sched.p_sigcatch (posted sig pr) = Sched.p_sigcatch pr.
Proof. intros Ha. unfold posted. repeat case_match; done. Qed.

(** A signal the kernel may raise itself: one that kills by default. *)
Lemma fatalsig_ok RUNOUT signum s :
  0 < signum < NSIG → bit (prop signum) SA_IGNORE = false → ok s → wp (fatalsig RUNOUT signum) (λ _ s', ok s') s.
Proof.
  intros Hn Hprop (pr & Hp & Ha & His & Hfr & Hsg). unfold fatalsig. do 2 s_step. fold (cur s).
  pose proof (is_len _ _ _ _ His) as (Hl1 & Hl2). pose proof (is_pend _ _ _ _ His) as Hpend.
  s_step. eapply wp_store; [rewrite aset_Some by (unfold NSIG in Hn; lia); done|]. do 6 s_step.
  eapply psignal_awake; [apply procs_put|done|lia|]. rewrite put_put.
  set (pr' := set_p_sigmask _ _). destruct (posted_rest signum pr') as (Ha' & Hm' & Hi' & Hc'); [done|].
  eexists. split; [apply procs_put|]. split; [done|]. split; [|exact (conj Hfr Hsg)].
  apply (in_step_handler pr _ (u_signal s) (u_sigmask s)); try done.
  - intros i Hi. rewrite Hc'. cbn. by rewrite del_bit by lia.
  - intros i Hi. rewrite Hi'. cbn -[prop]. rewrite del_bit by lia. by rewrite Hprop, andb_false_r.
  - rewrite Hm'. cbn. apply maskable_sub, (is_mask _ _ _ _ His).
  - apply (is_um _ _ _ _ His).
  - intros i Hi. by apply pend_posted.
Qed.

Lemma context_regs_range : Forall (λ i, 0 ≤ i < 33) context_regs.
Proof.
  apply Forall_forall. intros i Hi. unfold context_regs, FRAME_PC in Hi.
  rewrite elem_of_app, elem_of_seqZ, list_elem_of_singleton in Hi. lia.
Qed.

Lemma saved_regs (regs : list Z) : length regs = 33%nat → ∃ ws, mapM (aget regs) context_regs = Some ws.
Proof.
  intros Hl. apply mapM_is_Some. eapply Forall_impl; [apply context_regs_range|]. intros i Hi.
  apply aget_is_Some. cbv beta in Hi. lia.
Qed.

Lemma zip_range (l ws : list Z) : Forall (λ i, 0 ≤ i < 33) l → Forall (λ iv : Z * Z, 0 ≤ iv.1 < 33) (zip l ws).
Proof.
  intros Hl. revert ws. induction Hl as [|i l Hi Hl IH]; intros [|w ws]; cbn; constructor; [done|apply IH].
Qed.

Lemma sendsig_top_ok sig s : ok s → wp (sendsig_top sig) (λ _ s', ok s') s.
Proof.
  intros Hok. unfold sendsig_top. do 6 s_step. destruct (_ && _); [repeat s_step; done|].
  pose proof Hok as (pr & _ & _ & _ & Hfr & Hsg).
  s_step. eapply wp_load; [apply aget_handler; unfold FRAME_SP; lia|]. by s_step.
Qed.

Lemma sendsig_stack_ok RUNOUT sfp s : ok s → wp (sendsig_stack RUNOUT sfp) (λ _ s', ok s') s.
Proof.
  intros Hok. unfold sendsig_stack. do 2 s_step. destruct (negb _); [|by s_step]. do 2 s_step.
  pose proof Hok as (_ & _ & _ & _ & _ & g & Hg). s_step. eapply wp_load; [exact Hg|]. do 2 s_step.
  destruct (sfp <? _).
  - s_step. eapply wp_mono; [by apply (fatalsig_ok _ SIGILL)|]. intros [] s' Hok'. by s_step.
  - s_step. apply wp_when; intros _; [|by s_step]. repeat s_step. destruct Hok as (pr & Hp & Ha & His & Hfr & _).
    exists pr. split_and!; try done. cbn. apply lookup_insert_is_Some. by left.
Qed.

Lemma sendsig_ok RUNOUT p sig mask s : ok s → wp (sendsig RUNOUT p sig mask) (λ _ s', ok s') s.
Proof.
  intros Hok. unfold sendsig. do 3 s_step. eapply wp_mono; [by apply sendsig_top_ok|]. intros top s1 Hok1.
  s_step. eapply wp_mono; [by apply sendsig_stack_ok|]. intros fits s2 Hok2. destruct (negb fits); [by s_step|].
  pose proof Hok2 as (pr & Hp & Ha & His & Hfr & Hsg). destruct (saved_regs _ Hfr) as (ws & Hws).
  s_step. eapply wp_load; [exact Hws|]. s_step. apply wp_on_sys, wp_modify. do 4 s_step.
  apply wp_store_regs; [repeat constructor; done|done|]. intros r _ Hr. exists pr. split; [exact Hp|]. done.
Qed.

Lemma sigreturn_ok s : ok s → wp sigreturn (λ _ s', ok s') s.
Proof.
  intros (pr & Hp & Ha & His & Hfr & Hsg). unfold sigreturn.
  s_step. eapply wp_load; [apply aget_handler; unfold FRAME_SP; lia|].
  destruct (_ || _); [s_step; by exists pr|]. do 8 s_step. fold (cur s). do 2 s_step.
  apply wp_store_regs; [apply zip_range, context_regs_range|done|]. intros r _ Hr.
  eexists. split; [apply procs_put|]. split; [done|]. split; [|exact (conj Hr Hsg)].
  apply (in_step_mask pr _ _ _ (u_oldmask s)); try done; [apply maskable_ldiff|apply (is_old _ _ _ _ His)|apply (is_pend _ _ _ _ His)].
Qed.

Lemma postsig_ok RUNOUT dump sig s :
  (∀ n s, ok s → wp (dump n) (λ _ s', ok s') s) → 0 < sig < NSIG → ok s → wp (postsig RUNOUT dump sig) (λ _ s', ok s') s.
Proof.
  intros Hdump Hn (pr & Hp & Ha & His & Hfr & Hsg). unfold postsig. do 2 s_step. fold (cur s).
  pose proof (is_len _ _ _ _ His) as (Hl1 & Hl2). pose proof (is_pend _ _ _ _ His) as Hpend.
  pose proof (is_mask _ _ _ _ His) as Hm. pose proof (is_old _ _ _ _ His) as Hold. unfold NSIG in Hn.
  do 2 s_step. s_step. eapply wp_load; [apply aget_handler; cbn; lia|].
  change (u_signal _) with (u_signal s). set (pr1 := set_p_sig _ pr).
  assert (His1 : in_step pr1 (u_signal s) (u_sigmask s) (u_oldmask s)).
  { apply (in_step_mask pr _ _ _ (u_oldmask s)); try done. intros i Hi. by apply pend_del. }
  destruct (negb (handler (u_signal s) sig =? SIG_DFL)) eqn:Hh.
  - do 6 s_step. s_step. eapply (wp_mono _ (λ _ s', procs_of s' !! cur s = Some pr1 ∧ ok s' ∧ core s' = core (put_proc (cur s) pr1 s))).
    { assert (ok (put_proc (cur s) pr1 s)) by (by eapply ok_put).
      destruct (bit _ _); repeat s_step; (split; [apply procs_put|done]). }
    intros rm s2 (Hp2 & Hok2 & [= Hc1 Hc2 Hc3 Hc4 Hc5 Hc6 Hc7]).
    s_step. eapply wp_load; [rewrite Hc4; apply aget_handler; cbn; lia|].
    s_step. s_step. s_step. apply wp_on_sys, wp_upd_usr. apply sendsig_ok.
    eexists. replace (cur _) with (cur s) by (symmetry; exact Hc2). split; [apply procs_put|]. split; [done|].
    split; [|split; [by rewrite <- Hfr, <- (f_equal length Hc6)|by rewrite <- Hc7 in Hsg]].
    match goal with |- in_step ?a _ _ _ => change (in_step a (u_signal s2) (u_sigmask s2) (u_oldmask s2)) end.
    rewrite Hc3, Hc4, Hc5. apply (in_step_mask pr1 _ _ _ (u_oldmask s)); try done; [|apply (is_pend _ _ _ _ His1)].
    cbn. apply maskable_lor; [done|]. apply maskable_lor.
    + pose proof (is_um _ _ _ _ His) as Hum. rewrite Forall_forall in Hum. apply Hum.
      assert (Hg : aget (u_sigmask s) sig = Some (handler (u_sigmask s) sig)) by (apply aget_handler; lia).
      unfold aget in Hg. rewrite (proj2 (Z.leb_le 0 sig)) in Hg by lia. by eapply list_elem_of_lookup_2.
    + destruct (is_kill _ _ _ _ His) as (Hk & Hst). apply maskable_sigmask; [lia| |];
        (intros ->; rewrite ?Hk, ?Hst in Hh; done).
  - assert (Hok1 : ok (put_proc (cur s) pr1 s)) by (by eapply ok_put).
    s_step. apply wp_prop_of; [unfold NSIG; lia|]. s_step. eapply (wp_mono _ (λ _ s', ok s')).
    + destruct (bit _ _); [by apply Hdump|by s_step].
    + intros b s2 Hok2. by s_step.
Qed.

(** Signals up to [k] are not caught any more. *)
Lemma execsigs_loop_ok fuel k s :
  0 ≤ k ≤ 31 → (32 ≤ fuel + Z.to_nat k)%nat → ok s →
  (∀ pr, procs_of s !! cur s = Some pr → ∀ i, 0 ≤ i < k → Z.testbit (Sched.p_sigcatch pr) i = false) →
  wp (execsigs_loop fuel (cur s)) (λ _ s', ok s') s.
Proof.
  revert k s. induction fuel as [|fuel IH]; intros k s Hk Hf Hok Hlow; [lia|].
  pose proof Hok as (pr & Hp & Ha & His & Hfr & Hsg). cbn [execsigs_loop]. do 2 s_step.
  destruct (Z.eqb_spec (Sched.p_sigcatch pr) 0) as [E|E]; [by s_step|].
  pose proof (is_len _ _ _ _ His) as (Hl1 & Hl2). pose proof (is_pend _ _ _ _ His) as Hpend.
  pose proof (is_catch _ _ _ _ His) as Hcatch.
  destruct (ffs_spec (Sched.p_sigcatch pr)) as (Hn & Hb & Hmin); [done| |].
  { intros i Hi. rewrite Hcatch by lia. unfold caught, handler, aget. rewrite (proj2 (Z.leb_le 0 _)) by lia.
    by rewrite lookup_ge_None_2 by lia. }
  set (nc := ffs _) in *. unfold NSIG in Hn.
  assert (Hkn : k < nc) by (destruct (decide (k < nc)); [done|]; rewrite (Hlow pr) in Hb; [done|done|lia]).
  do 2 s_step. s_step. apply wp_prop_of; [unfold NSIG; lia|]. fold (prop nc). s_step.
  assert (Hcaught : caught (u_signal s) nc = true) by (rewrite <- Hb, Hcatch by lia; f_equal; lia).
  assert (Hig0 : Z.testbit (Sched.p_sigignore pr) (nc - 1) = false).
  { rewrite (is_ignore _ _ _ _ His) by lia. replace (nc - 1 + 1) with nc by lia. unfold ignored, caught in *.
    destruct (handler _ nc =? SIG_DFL), (handler _ nc =? SIG_IGN); try done. by rewrite andb_false_r, andb_false_r. }
  set (ign := bit (prop nc) SA_IGNORE). set (cont := nc =? SIGCONT).
  set (pr' := psets (if ign then Sched.p_sig pr &~ sigmask nc else Sched.p_sig pr) (Sched.p_sigmask pr)
    (if ign && negb cont then Z.lor (Sched.p_sigignore pr) (sigmask nc) else Sched.p_sigignore pr)
    (Sched.p_sigcatch pr &~ sigmask nc) (Sched.p_ptracesig pr) pr).
  eapply (wp_mono _ (λ _ s', s' = put_proc (cur s) pr' s)).
  { apply wp_when; intros Hi; unfold pr'; rewrite Hi; cbn [andb]; [|done].
    do 2 s_step. s_step. by destruct cont. }
  intros _ s1 ->. s_step.
  eapply wp_store; [change (u_signal (put_proc _ _ s)) with (u_signal s); rewrite aset_Some by lia; done|].
  set (s2 := set_u_signal _ _). change (cur s) with (cur s2). apply (IH nc); [lia|lia| |].
  - exists pr'. split; [apply procs_put|]. split; [done|]. split; [|exact (conj Hfr Hsg)].
    apply (in_step_handler pr _ (u_signal s) (u_sigmask s)); try done.
    + intros i Hi. change (Sched.p_sigcatch pr') with (Sched.p_sigcatch pr &~ sigmask nc). by rewrite del_bit by lia.
    + intros i Hi. change (Sched.p_sigignore pr') with
        (if ign && negb cont then Z.lor (Sched.p_sigignore pr) (sigmask nc) else Sched.p_sigignore pr).
      fold ign cont. destruct ign, cont; cbn [andb negb orb]; rewrite ?add_bit by lia;
        destruct (Z.eqb_spec i (nc - 1)) as [->|]; done.
    + apply (is_mask _ _ _ _ His).
    + apply (is_um _ _ _ _ His).
    + intros i Hi. unfold pr'. cbn [psets Sched.p_sig]. destruct ign; [by apply pend_del|by apply Hpend].
  - intros q Hq i Hi. assert (q = pr') as ->.
    { assert (Some q = Some pr') as [= ->]; [|done]. rewrite <- Hq. apply (procs_put (cur s) pr' s). }
    change (Sched.p_sigcatch pr') with (Sched.p_sigcatch pr &~ sigmask nc).
    rewrite del_bit by lia. destruct (Z.eqb_spec i (nc - 1)); [done|]. apply Hmin. lia.
Qed.

Lemma execsigs_ok s : ok s → wp (execsigs (cur s)) (λ _ s', ok s') s.
Proof.
  intros Hok. unfold execsigs. s_step. eapply wp_mono; [apply (execsigs_loop_ok 33 0); [lia|lia|done|lia]|].
  intros [] s' Hok'. do 2 s_step. s_step. done.
Qed.

(** ** Choosing the signal to deliver *)

Section choose.
Context (RUNOUT : Z) (swtch : K unit) (procxmt : K bool).

(** The signals a process could take now. *)
Definition waiting (pr : Sched.proc) : Z :=
  let mask := Sched.p_sig pr &~ Sched.p_sigmask pr in
  if Sched.has_flag SVFORK pr then mask &~ stopsigmask else mask.

(** A signal that runs a handler or ends the process. *)
Definition takes (pr : Sched.proc) (us : list Z) (sig : Z) : bool :=
  if handler us sig =? SIG_DFL then (1 <? Sched.p_pid pr) && negb (stops sig) && negb (bit (prop sig) SA_IGNORE)
  else negb (handler us sig =? SIG_IGN).

(** A signal that stops the process. *)
Definition halts (pr : Sched.proc) (us : list Z) (sig : Z) : bool :=
  (handler us sig =? SIG_DFL) && (1 <? Sched.p_pid pr) && stops sig &&
  negb ((Sched.p_pptr pr =? PROC1) && negb (sig =? SIGSTOP)).

Definition drop_sig (n : Z) (pr : Sched.proc) : Sched.proc := set_p_sig (λ x, x &~ sigmask n) pr.

(** What [issignal] answers for the entry [pr], and what it leaves pending. *)
Record chosen (pr : Sched.proc) (us : list Z) (r x : Z) : Prop := {
  ch_range : 0 ≤ r < NSIG;
  ch_none : r = 0 → ∀ sig, 0 < sig → Z.testbit (waiting pr) (sig - 1) = true → takes pr us sig = false;
  ch_some : 0 < r → Z.testbit (waiting pr) (r - 1) = true ∧ takes pr us r = true;
  ch_first : ∀ sig, 0 < sig < r → Z.testbit (waiting pr) (sig - 1) = true → takes pr us sig = false;
  ch_left : ∀ i, 0 ≤ i → Z.testbit x i =
    (Z.testbit (Sched.p_sig pr) i && negb (Z.testbit (waiting pr) i && ((r =? 0) || (i + 1 <? r))))
}.

Lemma waiting_bits pr i : 0 ≤ i →
  Z.testbit (waiting pr) i = (Z.testbit (Sched.p_sig pr) i && negb (Z.testbit (Sched.p_sigmask pr) i) &&
    negb (Sched.has_flag SVFORK pr && stops (i + 1))).
Proof.
  intros Hi. unfold waiting. destruct (Sched.has_flag SVFORK pr); cbn [andb negb]; rewrite ?andb_true_r, !Z.ldiff_spec; [|done].
  by rewrite stop_bits.
Qed.

Lemma waiting_drop n pr i : 0 < n → 0 ≤ i →
  Z.testbit (waiting (drop_sig n pr)) i = if i =? n - 1 then false else Z.testbit (waiting pr) i.
Proof.
  intros Hn Hi. rewrite !waiting_bits by done. change (Sched.has_flag SVFORK (drop_sig n pr)) with (Sched.has_flag SVFORK pr).
  cbn [drop_sig set_p_sig psets Sched.p_sig Sched.p_sigmask]. rewrite del_bit by done. by destruct (i =? n - 1).
Qed.

(** Dropping the first signal, which is not taken, does not change the choice. *)
Lemma chosen_drop n pr us r x :
  0 < n < NSIG → Z.testbit (waiting pr) (n - 1) = true → (∀ i, 0 ≤ i < n - 1 → Z.testbit (waiting pr) i = false) →
  takes pr us n = false → chosen (drop_sig n pr) us r x → chosen pr us r x.
Proof.
  intros Hn Hw Hlow Ht [Hr H0 Hs Hf Hl].
  assert (Hnr : r ≠ 0 → n < r).
  { intros Hr0. destruct Hs as (Hwr & _); [lia|]. rewrite waiting_drop in Hwr by lia.
    destruct (Z.eqb_spec (r - 1) (n - 1)); [done|]. destruct (decide (n < r)); [done|].
    rewrite Hlow in Hwr by lia. done. }
  assert (Htr : ∀ sig, takes (drop_sig n pr) us sig = takes pr us sig) by done.
  constructor; [done| | | |].
  - intros -> sig Hsig Hws. destruct (decide (sig = n)) as [->|]; [done|]. rewrite <- Htr. apply H0; [done|done|].
    rewrite waiting_drop by lia. by rewrite (proj2 (Z.eqb_neq _ _)) by lia.
  - intros Hr0. destruct Hs as (Hwr & Htk); [done|]. rewrite waiting_drop in Hwr by lia. split; [|done].
    by destruct (r - 1 =? n - 1).
  - intros sig Hsig Hws. destruct (decide (sig = n)) as [->|]; [done|]. rewrite <- Htr. apply Hf; [done|].
    rewrite waiting_drop by lia. by rewrite (proj2 (Z.eqb_neq _ _)) by lia.
  - intros i Hi. rewrite Hl, waiting_drop by lia. cbn [drop_sig set_p_sig psets Sched.p_sig]. rewrite del_bit by lia.
    destruct (Z.eqb_spec i (n - 1)) as [->|]; [|done]. rewrite Hw. cbn [andb].
    replace ((r =? 0) || (n - 1 + 1 <? r)) with true; [by rewrite andb_false_r|].
    symmetry. destruct (Z.eqb_spec r 0); [done|]. cbn [orb]. apply Z.ltb_lt. specialize (Hnr n0). lia.
Qed.

Lemma wp_issignal_action p sig pr (Q : option Z → sgst → Prop) s :
  procs_of s !! p = Some pr → 0 < sig < NSIG → length (u_signal s) = 32%nat →
  Sched.has_flag P_TRACED pr = false → halts pr (u_signal s) sig = false →
  Q (if takes pr (u_signal s) sig then Some sig else None) s →
  wp (issignal_action RUNOUT swtch p sig (prop sig)) Q s.
Proof.
  intros Hp Hn Hl Htr Hh HQ. unfold issignal_action, takes, halts in *. unfold NSIG in Hn.
  destruct (prop_flags sig) as (_ & Hst & Htt); [unfold NSIG; lia|].
  s_step. eapply wp_load; [apply aget_handler; lia|]. destruct (handler _ _ =? SIG_DFL) eqn:Hd; cbn [andb] in *.
  - do 2 s_step. rewrite Htr, Hst, Htt. cbn [orb]. replace (Sched.p_pid pr <=? 1) with (negb (1 <? Sched.p_pid pr))
      by (rewrite <- Z.leb_antisym; done).
    destruct (1 <? Sched.p_pid pr); cbn [negb andb] in *; [|by s_step].
    destruct (stops sig); cbn [negb andb] in *.
    + apply negb_false_iff in Hh. rewrite Hh. by s_step.
    + destruct (bit (prop sig) SA_IGNORE); by s_step.
  - destruct (handler _ _ =? SIG_IGN); by s_step.
Qed.

Lemma issignal_loop fuel k pr s :
  0 ≤ k ≤ 31 → (32 ≤ fuel + Z.to_nat k)%nat →
  procs_of s !! cur s = Some pr → in_step pr (u_signal s) (u_sigmask s) (u_oldmask s) →
  Sched.has_flag P_TRACED pr = false →
  (∀ sig, 0 < sig → Z.testbit (waiting pr) (sig - 1) = true → halts pr (u_signal s) sig = false) →
  (∀ i, 0 ≤ i < k → Z.testbit (waiting pr) i = false) →
  wp (issignal RUNOUT swtch procxmt fuel (cur s))
    (λ r s', ∃ x, s' = put_proc (cur s) (set_p_sig (λ _, x) pr) s ∧ chosen pr (u_signal s) r x) s.
Proof.
  revert k pr s. induction fuel as [|fuel IH]; intros k pr s Hk Hf Hp His Htr Hh Hlow; [lia|].
  cbn [issignal]. do 2 s_step. fold (waiting pr).
  pose proof (is_len _ _ _ _ His) as (Hl & _). pose proof (is_pend _ _ _ _ His) as Hpend.
  destruct (Z.eqb_spec (waiting pr) 0) as [E|E].
  { s_step. exists (Sched.p_sig pr). split; [by rewrite put_id; destruct pr|].
    constructor; [done| |done|lia|]; intros; rewrite E, ?Z.bits_0 in *; [done|]. by rewrite andb_true_r. }
  destruct (ffs_spec (waiting pr)) as (Hn & Hb & Hmin); [done| |].
  { intros i Hi. rewrite waiting_bits, Hpend by lia. done. }
  set (n := ffs (waiting pr)) in *. assert (0 < n < 32) as Hn' by exact Hn.
  assert (Hkn : k < n) by (destruct (decide (k < n)); [done|]; rewrite Hlow in Hb; [done|lia]).
  s_step. apply wp_prop_of; [lia|]. fold (prop n). rewrite Htr. cbn [negb andb]. rewrite andb_true_r.
  assert (Hdrop : takes pr (u_signal s) n = false →
    wp (issignal RUNOUT swtch procxmt fuel (cur s))
      (λ r s', ∃ x, s' = put_proc (cur s) (set_p_sig (λ _, x) pr) s ∧ chosen pr (u_signal s) r x)
      (put_proc (cur s) (drop_sig n pr) s)).
  { intros Ht. set (s1 := put_proc _ _ s). change (cur s) with (cur s1). eapply wp_mono.
    - apply (IH n (drop_sig n pr)); [lia|lia|apply procs_put| |done| |].
      + apply (in_step_mask pr _ _ _ (u_oldmask s)); try done; [apply (is_mask _ _ _ _ His)|apply (is_old _ _ _ _ His)|].
        intros i Hi. by apply pend_del.
      + intros sig Hsig Hw. apply Hh; [done|]. rewrite waiting_drop in Hw by lia. by destruct (_ =? _).
      + intros i Hi. rewrite waiting_drop by lia. destruct (Z.eqb_spec i (n - 1)); [done|]. apply Hmin. lia.
    - intros r s' (x & -> & Hx). exists x. split; [exact (put_put (cur s) _ _ s)|]. by eapply chosen_drop. }
  destruct (bit (sigmask n) (Sched.p_sigignore pr)) eqn:Hig.
  { do 2 s_step. apply Hdrop. unfold bit in Hig. rewrite Z.land_comm in Hig. fold (bit (Sched.p_sigignore pr) (sigmask n)) in Hig.
    rewrite bit_sigmask, (is_ignore _ _ _ _ His) in Hig by lia. replace (n - 1 + 1) with n in Hig by lia.
    unfold ignored, takes in *. to_prop. destruct (handler _ n =? SIG_DFL) eqn:Hd.
    - destruct (bit (prop n) SA_IGNORE); [by rewrite andb_false_r|]. apply Z.eqb_eq in Hd. by rewrite Hd in *.
    - rewrite andb_false_r, orb_false_r in *. by apply negb_false_iff. }
  s_step. s_step. s_step. eapply wp_issignal_action; [done|done|done|done|by apply Hh; [lia|]|].
  destruct (takes pr (u_signal s) n) eqn:Ht; [|do 2 s_step; by apply Hdrop].
  s_step. exists (Sched.p_sig pr). split; [by rewrite put_id; destruct pr|]. constructor; [lia|lia|done| |].
  - intros sig Hsig Hw. rewrite Hmin in Hw by lia. done.
  - intros i Hi. rewrite (proj2 (Z.eqb_neq n 0)) by lia. cbn [orb]. destruct (Z.ltb_spec (i + 1) n).
    + rewrite Hmin by lia. by rewrite andb_true_r.
    + by rewrite andb_false_r, andb_true_r.
Qed.


End choose.

(** ** The first process *)

(** Process 0 before [siginit]: no handlers, no sets. *)
Definition fresh (s : sgst) : Prop :=
  u_signal s = replicate 32 SIG_DFL ∧ u_sigmask s = replicate 32 0 ∧ u_oldmask s = 0 ∧
  length (u_frame (cx s)) = 33%nat ∧ is_Some (segs (cx s) !! cur s) ∧
  ∃ pr, procs_of s !! cur s = Some pr ∧ awake pr ∧
    Sched.p_sig pr = 0 ∧ Sched.p_sigmask pr = 0 ∧ Sched.p_sigignore pr = 0 ∧ Sched.p_sigcatch pr = 0.

Lemma siginit_loop_ok n p i pr s :
  procs_of s !! p = Some pr → 0 ≤ i → i + Z.of_nat n ≤ NSIG →
  wp (siginit_loop n p i)
    (λ _ s', ∃ x, s' = put_proc p (set_p_sigignore (λ _, x) pr) s ∧
       ∀ j, 0 ≤ j → Z.testbit x j = (Z.testbit (Sched.p_sigignore pr) j ||
         ((i <=? j + 1) && (j + 1 <? i + Z.of_nat n) && bit (prop (j + 1)) SA_IGNORE && negb (j + 1 =? SIGCONT)))) s.
Proof.
  revert i pr s. induction n as [|n IH]; intros i pr s Hp Hi Hn; cbn [siginit_loop].
  { s_step. exists (Sched.p_sigignore pr). split; [by rewrite put_id; destruct pr|]. intros j Hj.
    destruct (Z.leb_spec i (j + 1)), (Z.ltb_spec (j + 1) (i + Z.of_nat 0)); try lia; cbn [andb]; by rewrite ?andb_false_r, ?orb_false_r. }
  s_step. apply wp_prop_of; [lia|]. fold (prop i). s_step. s_step.
  eapply wp_mono; [apply IH; [apply procs_put|lia|lia]|]. intros _ s' (x & -> & Hx). exists x.
  split; [rewrite put_put; by destruct (_ && _)|]. intros j Hj. rewrite Hx by done.
  set (r := (i + 1 <=? j + 1) && _ && _ && _).
  replace (j + 1 <? i + Z.of_nat (S n)) with (j + 1 <? i + 1 + Z.of_nat n) by (f_equal; lia).
  destruct (Z.eqb_spec i (j + 1)) as [->|Hne].
  - assert (r = false) as -> by (unfold r; by rewrite (proj2 (Z.leb_gt _ _)) by lia).
    rewrite (proj2 (Z.leb_le _ _)), (proj2 (Z.ltb_lt _ _)) by lia. cbn [andb]. rewrite orb_false_r.
    destruct (bit _ _ && negb _); [|by rewrite orb_false_r]. cbn [set_p_sigignore psets Sched.p_sigignore].
    rewrite add_bit by lia. rewrite (proj2 (Z.eqb_eq _ _)) by lia. by rewrite orb_true_r.
  - replace (i <=? j + 1) with (i + 1 <=? j + 1); [|destruct (Z.leb_spec (i + 1) (j + 1)), (Z.leb_spec i (j + 1)); lia].
    fold r. f_equal. destruct (bit (prop i) SA_IGNORE && _) eqn:E; [|done].
    cbn [set_p_sigignore psets Sched.p_sigignore]. destruct (decide (i = 0)) as [->|]; [done|].
    rewrite add_bit by lia. by rewrite (proj2 (Z.eqb_neq _ _)) by lia.
Qed.

Lemma handler_fresh n : handler (replicate 32 SIG_DFL) n = SIG_DFL.
Proof.
  unfold handler, aget. destruct (0 <=? n); [|done].
  destruct (replicate 32 SIG_DFL !! Z.to_nat n) eqn:E; [|done]. by apply lookup_replicate in E as [-> _].
Qed.

Lemma siginit_ok s : fresh s → wp (siginit (cur s)) (λ _ s', ok s') s.
Proof.
  intros (Hs & Hm & Ho & Hf & Hg & pr & Hp & Ha & H1 & H2 & H3 & H4). unfold siginit.
  eapply wp_mono; [by apply (siginit_loop_ok 32 _ 0)|]. intros _ s' (x & -> & Hx).
  eapply ok_put; [done|done|done|done|]. rewrite Hs, Hm, Ho. rewrite H3 in Hx.
  constructor; try done; cbn [set_p_sigignore psets Sched.p_sigcatch Sched.p_sigignore Sched.p_sigmask Sched.p_sig].
  - intros i Hi. unfold caught. by rewrite H4, handler_fresh, Z.bits_0.
  - intros i Hi. rewrite Hx, Z.bits_0 by done. unfold ignored. rewrite handler_fresh. cbn [orb].
    rewrite (proj2 (Z.leb_le _ _)) by lia. change (SIG_DFL =? SIG_IGN) with false. change (SIG_DFL =? SIG_DFL) with true.
    cbn [andb orb]. rewrite andb_true_r, (andb_comm (negb _)).
    destruct (Z.ltb_spec (i + 1) (0 + Z.of_nat 32)) as [|Hge]; [done|]. cbn [andb]. symmetry.
    unfold prop. destruct (decide (i + 1 = 32)) as [->|]; [done|]. rewrite nth_overflow; [done|]. cbn. lia.
  - by rewrite H2.
  - by apply Forall_replicate.
  - rewrite H1. intros. by rewrite Z.bits_0.
Qed.

(** ** Scripts of calls *)

Inductive op :=
| OAction (signum nsa osa tramp : Z)
| OProcmask (how set oset : Z)
| OPending (set : Z)
| OSuspend (set : Z)
| OAltstack (nss oss : Z)
| OStack (nss oss : Z)
| OExec
| OPost (sig : Z)
| OFatal (sig : Z)
| OReturn.

(** [postsig] is called with what [CURSIG] answered, [fatalsig] by the kernel
    for a signal that is not ignored by default. *)
Definition op_ok (o : op) : Prop :=
  match o with
  | OPost sig => 0 < sig < NSIG
  | OFatal sig => 0 < sig < NSIG ∧ bit (prop sig) SA_IGNORE = false
  | _ => True
  end.

Section script.
Context (RUNOUT : Z) (dump : Z → K bool).

Definition do_op (o : op) : K unit :=
  match o with
  | OAction signum nsa osa tramp => sigaction signum nsa osa tramp
  | OProcmask how set oset => sigprocmask how set oset
  | OPending set => sigpending set
  | OSuspend set => sigsuspend_mask set
  | OAltstack nss oss => sigaltstack nss oss
  | OStack nss oss => sigstack nss oss
  | OExec => p ← u_procp; execsigs p
  | OPost sig => postsig RUNOUT dump sig
  | OFatal sig => fatalsig RUNOUT sig
  | OReturn => sigreturn
  end.

Fixpoint do_ops (l : list op) : K unit :=
  match l with [] => mret tt | o :: l' => do_op o;; do_ops l' end.

(** The core dump writes a file and leaves the signals alone. *)
Hypothesis dump_ok : ∀ n s, ok s → wp (dump n) (λ _ s', ok s') s.

Lemma do_op_ok o s : op_ok o → ok s → wp (do_op o) (λ _ s', ok s') s.
Proof.
  intros Ho Hok. destruct o; cbn [do_op op_ok] in *.
  - by apply sigaction_ok.
  - by apply sigprocmask_ok.
  - by apply sigpending_ok.
  - by apply sigsuspend_mask_ok.
  - by apply sigaltstack_ok.
  - by apply sigstack_ok.
  - do 2 s_step. by apply execsigs_ok.
  - by apply postsig_ok.
  - by apply fatalsig_ok; destruct Ho.
  - by apply sigreturn_ok.
Qed.

End script.

(** A process whose stack pointer is well below the end of its memory. *)
Definition demo_frame : list Z := <[Z.to_nat FRAME_SP := USER_DATA_END - 1024]> (seqZ 100 33).
Definition first : sgst :=
  SG Cred.demo (replicate 32 SIG_DFL) (replicate 32 0) 0 0 0 0x7f008100 (SS 0 0 SA_DISABLE)
    (CX demo_frame 5 0 4096 2048 {[2 := Seg USER_DATA_START (USER_DATA_END - 2048) 4096 2048]}) {[0 := 7]} [].
Definition demo : sgst := match siginit 2 first with Ret _ s => s | _ => first end.

Lemma first_fresh : fresh first.
Proof. split_and!; try done. eexists. split; [by vm_compute|]. done. Qed.

Lemma demo_sound : ok demo.
Proof.
  pose proof (siginit_ok first first_fresh) as H. apply wp_run in H as (a & s & Hs & Hok).
  unfold demo. change (cur first) with 2 in Hs. by rewrite Hs.
Qed.


(** SIGINT, SIGTERM and SIGCHLD are pending, SIGTERM is held: SIGCHLD is dropped
    only if it is looked at. *)
Definition demo_pending : sgst :=
  let f := set_p_sig (λ _, Z.lor (sigmask 2) (Z.lor (sigmask 15) (sigmask SIGCHLD))) in
  let g := set_p_sigmask (λ _, sigmask 15) in
  match procs_of demo !! 2 with Some pr => put_proc 2 (g (f pr)) demo | None => demo end.

Lemma demo_pending_ok : ok demo_pending.
Proof.
  destruct demo_sound as (pr & Hp & Ha & His & Hfr & Hsg). unfold demo_pending. change 2 with (cur demo). rewrite Hp.
  eapply ok_put; [exact Hp|done|done|done|]. apply (in_step_mask pr _ _ _ (u_oldmask demo)); try done.
  intros i Hi. cbn [set_p_sigmask set_p_sig psets Sched.p_sig]. rewrite !Z.lor_spec, !sigmask_bits by done.
  change (cur demo) with 2. unfold SIGCHLD. by ztest.
Qed.


(** C23: Posting a signal to a process that neither sleeps nor is stopped changes
    only the entry of that process, and never its masks.  A signal that is
    ignored, and a stop from the terminal that would only stop a child of init,
    leaves no trace.  Any other becomes pending; SIGCONT takes the pending stop
    signals away and a stop signal a pending SIGCONT, so that the process never
    has both pending, and no other signal is lost. *)
Theorem psignal_pending RUNOUT p sig pr s :
  procs_of s !! p = Some pr → awake pr → 0 < sig < NSIG → exclusive (Sched.p_sig pr) →
  wp (psignal RUNOUT p sig)
    (λ _ s', ∃ pr', s' = put_proc p pr' s ∧ exclusive (Sched.p_sig pr') ∧
       Sched.p_sigmask pr' = Sched.p_sigmask pr ∧ Sched.p_sigignore pr' = Sched.p_sigignore pr ∧
       Sched.p_sigcatch pr' = Sched.p_sigcatch pr ∧
       ∀ i, 0 ≤ i → Z.testbit (Sched.p_sig pr') i =
         if discarded sig pr then Z.testbit (Sched.p_sig pr) i
         else (i =? sig - 1) || (Z.testbit (Sched.p_sig pr) i && negb (cancels sig (i + 1)))) s.
Proof.
  intros Hp Ha Hs Hx. eapply psignal_awake; [done|done|lia|]. exists (posted sig pr).
  destruct (posted_rest sig pr Ha) as (_ & Hm & Hi & Hc).
  split; [done|]. split; [by apply posted_exclusive|]. do 3 (split; [done|]). intros i Hj. by apply posted_bits.
Qed.

Lemma psignal_pending_witness :
  ∃ pr, procs_of demo_pending !! 2 = Some pr ∧
    wp (psignal 0 2 SIGTSTP)
    (λ _ s', ∃ pr', s' = put_proc 2 pr' demo_pending ∧ exclusive (Sched.p_sig pr') ∧
       Sched.p_sigmask pr' = Sched.p_sigmask pr ∧ Sched.p_sigignore pr' = Sched.p_sigignore pr ∧
       Sched.p_sigcatch pr' = Sched.p_sigcatch pr ∧
       ∀ i, 0 ≤ i → Z.testbit (Sched.p_sig pr') i =
         if discarded SIGTSTP pr then Z.testbit (Sched.p_sig pr) i
         else (i =? SIGTSTP - 1) || (Z.testbit (Sched.p_sig pr) i && negb (cancels SIGTSTP (i + 1)))) demo_pending.
Proof.
  destruct (procs_of demo_pending !! 2) as [pr|] eqn:Hp; [|by vm_compute in Hp].
  exists pr. split; [done|]. apply (psignal_pending 0 2 SIGTSTP pr demo_pending Hp); [| done |];
    vm_compute in Hp; injection Hp as <-; [done|]. intros Hc. by vm_compute in Hc.
Defined.

(** ** The frame of a handler *)

(** Where [sendsig] starts the frame. *)
Definition takes_stack (sig : Z) (s : sgst) : bool :=
  bit (u_psflags s) SAS_ALTSTACK && negb (bit (ss_flags (u_sigstk s)) SA_ONSTACK) && bit (u_sigonstack s) (sigmask sig).
Definition frame_top (sig : Z) (s : sgst) : Z :=
  if takes_stack sig s then u32 (ss_base (u_sigstk s) + ss_size (u_sigstk s))
  else u32 (handler (u_frame (cx s)) FRAME_SP).
Definition frame_at (sig : Z) (s : sgst) : Z := u32 (frame_top sig s - SIGFRAME).

(** Not on the signal stack, the frame must lie above the data segment. *)
Definition frame_fits (sig : Z) (s : sgst) : Prop :=
  takes_stack sig s = false → bit (ss_flags (u_sigstk s)) SA_ONSTACK = false →
  ∃ g, segs (cx s) !! cur s = Some g ∧ u32 (p_daddr g + u_dsize (cx s)) ≤ frame_at sig s.

(** The words of [struct sigcontext]. *)
Definition context (mask : Z) (ws : list Z) (s : sgst) : list Z :=
  Z.land (ss_flags (u_sigstk s)) SA_ONSTACK :: mask :: ws.

Lemma wp_sendsig RUNOUT p sig mask ws (Q : unit → sgst → Prop) s :
  length (u_frame (cx s)) = 33%nat → mapM (aget (u_frame (cx s))) context_regs = Some ws → frame_fits sig s →
  (∀ s1 r, mem (sy s1) = put (mem (sy s)) (frame_at sig s + SF_SPACE) (context mask ws s) →
     set_regs [(FRAME_R4, sig); (FRAME_R5, u_code (cx s)); (FRAME_R6, s32 (frame_at sig s + SF_SPACE));
               (FRAME_RA, s32 (u_sigtramp s)); (FRAME_SP, s32 (frame_at sig s)); (FRAME_PC, s32 p)] (u_frame (cx s)) = Some r →
     u_frame (cx s1) = r → procs_of s1 = procs_of s → cur s1 = cur s → Q tt s1) →
  wp (sendsig RUNOUT p sig mask) Q s.
Proof.
  intros Hl Hws Hfit HQ. unfold sendsig, sendsig_top. do 9 s_step. fold (takes_stack sig s).
  assert (Hend : ∀ s', mem (sy s') = mem (sy s) → u_frame (cx s') = u_frame (cx s) → u_code (cx s') = u_code (cx s) →
    u_sigtramp s' = u_sigtramp s → procs_of s' = procs_of s → cur s' = cur s →
    wp (ws ← load (λ s, mapM (aget (u_frame (cx s))) context_regs);
        on_sys (modify (λ y, set_mem (put (mem y) (frame_at sig s + SF_SPACE) (Z.land (ss_flags (u_sigstk s)) SA_ONSTACK :: mask :: ws)) y));;
        code ← gets (λ s, u_code (cx s));
        tramp ← gets u_sigtramp;
        store_regs [(FRAME_R4, sig); (FRAME_R5, code); (FRAME_R6, s32 (frame_at sig s + SF_SPACE)); (FRAME_RA, s32 tramp);
                (FRAME_SP, s32 (frame_at sig s)); (FRAME_PC, s32 p)]) Q s').
  { intros s' H1 H2 H3 H4 H5 H6. s_step. eapply wp_load; [rewrite H2; exact Hws|]. s_step. apply wp_on_sys, wp_modify.
    do 4 s_step. apply wp_store_regs; [repeat constructor; done|by rewrite <- Hl, <- H2|]. intros r Hr _.
    apply (HQ _ r); [cbn; by rewrite H1| |done|done|done]. rewrite <- H2, <- H3, <- H4. exact Hr. }
  unfold frame_fits, frame_at, frame_top in *. destruct (takes_stack sig s) eqn:Ht.
  - do 3 s_step. unfold sendsig_stack. do 3 s_step. apply andb_true_iff in Ht as (Ht & _). apply andb_true_iff in Ht as (_ & Ht).
    replace (bit (ss_flags (u_sigstk (ss_set true s))) SA_ONSTACK) with true.
    2: { symmetry. cbn [ss_set set_u_sigstk u_sigstk ss_flags]. unfold SA_ONSTACK. change 1 with (sigmask 1).
      rewrite bit_sigmask, set_bit_spec by lia. done. }
    cbn [negb]. s_step. by apply Hend.
  - s_step. eapply wp_load; [apply aget_handler; unfold FRAME_SP; lia|]. s_step. unfold sendsig_stack.
    do 3 s_step. destruct (bit (ss_flags (u_sigstk s)) SA_ONSTACK) eqn:Ho; cbn [negb].
    + s_step. by apply Hend.
    + do 2 s_step. destruct (Hfit eq_refl eq_refl) as (g & Hg & Hle). s_step. eapply wp_load; [exact Hg|]. do 2 s_step.
      rewrite (proj2 (Z.ltb_ge _ _)) by done. s_step. apply wp_when; intros _; [do 3 s_step|]; s_step; by apply Hend.
Qed.

Definition reg (s : sgst) (i : Z) : Z := default 0 (aget (u_frame (cx s)) i).

(** The handler has returned to the trampoline: its stack is where it was and
    the context it was given is intact; anything else may have changed. *)
Definition returned (at_ : Z) (s1 s2 : sgst) : Prop :=
  length (u_frame (cx s2)) = 33%nat ∧ reg s2 FRAME_SP = reg s1 FRAME_SP ∧
  get (mem (sy s2)) (at_ + SF_SPACE) 34 = get (mem (sy s1)) (at_ + SF_SPACE) 34 ∧
  is_Some (procs_of s2 !! cur s2).

(** A frame given by its 33 words. *)
Ltac frame_words l H :=
  do 33 (destruct l as [|? l]; [discriminate H|]); destruct l; [clear H|discriminate H].

Lemma restored (l l2 : list Z) ws :
  length l = 33%nat → length l2 = 33%nat → mapM (aget l) context_regs = Some ws →
  set_regs (zip context_regs ws) l2 = Some (<[31%nat := default 0 (aget l2 31)]> l).
Proof.
  intros Hl Hl2. frame_words l Hl. frame_words l2 Hl2. cbv -[Z.add]. intros [= <-]. reflexivity.
Qed.

Lemma saved_s32 (l ws : list Z) : Forall is_s32 l → mapM (aget l) context_regs = Some ws → Forall is_s32 ws ∧ length ws = 32%nat.
Proof.
  intros Hl Hws. apply mapM_Some in Hws. split; [|by apply Forall2_length in Hws].
  eapply Forall2_Forall_r; [exact Hws|]. apply Forall_forall. intros i _ w Hw. unfold aget in Hw.
  destruct (0 <=? i); [|done]. rewrite Forall_forall in Hl. apply Hl. by eapply list_elem_of_lookup_2.
Qed.

Lemma s32_words ws : Forall is_s32 ws → s32 <$> ws = ws.
Proof. induction 1 as [|w ws Hw _ IH]; [done|]. cbn [fmap list_fmap]. by rewrite s32_id, IH. Qed.

Lemma onstack_cases x : Z.land x SA_ONSTACK = 0 ∨ Z.land x SA_ONSTACK = 1.
Proof. unfold SA_ONSTACK. change 1 with (2 ^ 0) at 1 2. rewrite land_pow2 by lia. destruct (Z.testbit x 0); auto. Qed.

Lemma u32_s32 x : u32 (s32 x) = u32 x.
Proof. unfold u32, s32. rewrite Zminus_mod_idemp_l. f_equal. lia. Qed.

Lemma set_regs_spec (l r : list Z) a b c d e f :
  length l = 33%nat →
  set_regs [(FRAME_R4, a); (FRAME_R5, b); (FRAME_R6, c); (FRAME_RA, d); (FRAME_SP, e); (FRAME_PC, f)] l = Some r →
  default 0 (aget r FRAME_PC) = f ∧ default 0 (aget r FRAME_R4) = a ∧ default 0 (aget r FRAME_RA) = d ∧
  default 0 (aget r FRAME_SP) = e.
Proof. intros Hl. frame_words l Hl. cbv -[Z.add]. by intros [= <-]. Qed.

Lemma wp_sigreturn at_ oon mask ws l (Q : unit → sgst → Prop) s pr :
  length (u_frame (cx s)) = 33%nat → procs_of s !! cur s = Some pr →
  USER_DATA_START ≤ at_ → at_ + SIGFRAME < USER_DATA_END → reg s FRAME_SP = at_ →
  get (mem (sy s)) (at_ + SF_SPACE) 34 = oon :: s32 mask :: ws → (oon = 0 ∨ oon = 1) →
  length l = 33%nat → mapM (aget l) context_regs = Some ws →
  (∀ s3, u_frame (cx s3) = <[31%nat := reg s 31]> l → bit (ss_flags (u_sigstk s3)) SA_ONSTACK = (oon =? 1) →
     procs_of s3 = <[cur s := set_p_sigmask (λ _, u32 mask &~ sigcantmask) pr]> (procs_of s) → Q tt s3) →
  wp sigreturn Q s.
Proof.
  intros Hl Hp H1 H2 Hsp Hget Ho Hl0 Hws HQ. unfold sigreturn.
  unfold USER_DATA_START, USER_DATA_END, SIGFRAME, SIGCONTEXT, SF_SPACE in *.
  s_step. eapply wp_load; [apply aget_handler; unfold FRAME_SP; lia|]. fold (reg s FRAME_SP).
  change (handler (u_frame (cx s)) FRAME_SP) with (reg s FRAME_SP). rewrite Hsp.
  rewrite (u32_id (at_ + 16)) by (unfold is_u32; lia). rewrite (u32_id (at_ + 16 + _)) by (unfold is_u32; lia).
  assert (Hb : ∀ a, at_ ≤ a ≤ at_ + 152 → baduaddr a = false).
  { intros a Ha. unfold baduaddr, USER_FLASH_START, USER_DATA_START, USER_DATA_END. by ztest. }
  rewrite !Hb by lia. cbn [orb]. do 8 s_step. fold (cur s). do 2 s_step.
  change (get _ (at_ + 16) 34) with (get (mem (sy s)) (at_ + 16) 34). rewrite Hget. cbn [nth drop].
  eapply wp_store; [change (u_frame _) with (u_frame (cx s)); rewrite (restored l) by done; done|].
  apply HQ; [done| |].
  - change (bit (set_bit (bit oon SA_ONSTACK) SA_ONSTACK (ss_flags (u_sigstk s))) SA_ONSTACK = (oon =? 1)).
    unfold SA_ONSTACK. change (bit ?x 1) with (bit x (sigmask 1)). change (set_bit ?x 1) with (set_bit x (sigmask 1)).
    rewrite !bit_sigmask, set_bit_spec by lia. cbn [Z.eqb Z.sub]. by destruct Ho as [->| ->].
  - change (<[cur s := set_p_sigmask (λ _, u32 (s32 mask) &~ sigcantmask) pr]> (procs_of s) =
      <[cur s := set_p_sigmask (λ _, u32 mask &~ sigcantmask) pr]> (procs_of s)). by rewrite u32_s32.
Qed.

(** C26: What [sendsig] saves, [sigreturn] restores: when the frame lies in the
    memory of the process, the handler is entered with the signal as its argument
    and the trampoline as its return address, and after it has returned there,
    whatever it did to the other registers, the rest of memory and the signals,
    [sigreturn] gives the process all registers it had, the status register
    excepted, the mask it had before without SIGKILL and SIGSTOP, and the stack
    it was on. *)
Theorem signal_frame_roundtrip RUNOUT p sig mask s :
  length (u_frame (cx s)) = 33%nat → Forall is_s32 (u_frame (cx s)) → frame_fits sig s →
  USER_DATA_START ≤ frame_at sig s → frame_at sig s + SIGFRAME < USER_DATA_END →
  wp (sendsig RUNOUT p sig mask)
    (λ _ s1, reg s1 FRAME_PC = s32 p ∧ reg s1 FRAME_R4 = sig ∧ reg s1 FRAME_RA = s32 (u_sigtramp s) ∧
       ∀ s2, returned (frame_at sig s) s1 s2 →
         wp sigreturn (λ _ s3, u_frame (cx s3) = <[31%nat := reg s2 31]> (u_frame (cx s)) ∧
           bit (ss_flags (u_sigstk s3)) SA_ONSTACK = bit (ss_flags (u_sigstk s)) SA_ONSTACK ∧
           Sched.p_sigmask <$> procs_of s3 !! cur s2 = Some (u32 mask &~ sigcantmask)) s2) s.
Proof.
  intros Hl Hs Hfit H1 H2. destruct (saved_regs _ Hl) as (ws & Hws). destruct (saved_s32 _ _ Hs Hws) as (Hs32 & Hlw).
  eapply wp_sendsig; [done|done|done|]. intros s1 r Hm Hr Hr1 _ _. unfold reg. rewrite Hr1.
  destruct (set_regs_spec _ _ _ _ _ _ _ _ Hl Hr) as (Hpc & H4 & Hra & Hsp). do 3 (split; [done|]).
  intros s2 (Hl2 & Hsp2 & Hget & pr & Hp). unfold reg in Hsp2. rewrite Hr1, Hsp in Hsp2.
  pose proof (onstack_cases (ss_flags (u_sigstk s))) as Ho.
  rewrite Hm in Hget. replace 34%nat with (length (context mask ws s)) in Hget at 2 by (cbn; lia). rewrite get_put in Hget.
  unfold context in Hget. cbn [fmap list_fmap] in Hget. rewrite s32_words in Hget by done.
  rewrite s32_id in Hget by (destruct Ho as [->| ->]; done).
  rewrite s32_id in Hsp2 by (unfold is_s32, USER_DATA_START, USER_DATA_END, SIGFRAME, SIGCONTEXT, SF_SPACE in *; lia).
  eapply (wp_sigreturn (frame_at sig s) _ _ _ (u_frame (cx s))); [done|done|done|done|done|done|done|done|done|].
  intros s3 Hfr Hon Hps. split; [done|]. rewrite Hon, Hps, lookup_insert_eq. split; [|done].
  unfold bit. by destruct Ho as [->| ->].
Qed.

Definition demo_segs : segments := Seg USER_DATA_START (USER_DATA_END - 2048) 4096 2048.
Lemma demo_segs_ok : segs (cx demo) !! cur demo = Some demo_segs.
Proof. by vm_compute. Qed.

Lemma demo_s32 : Forall is_s32 (u_frame (cx demo)).
Proof. change (u_frame (cx demo)) with demo_frame. repeat constructor; unfold is_s32; vm_compute; intuition congruence. Qed.

Lemma signal_frame_roundtrip_witness :
  wp (sendsig 0 0x7f008400 15 (sigmask 3))
    (λ _ s1, reg s1 FRAME_PC = 0x7f008400 ∧ reg s1 FRAME_R4 = 15 ∧ reg s1 FRAME_RA = 0x7f008100 ∧
       ∀ s2, returned (frame_at 15 demo) s1 s2 →
         wp sigreturn (λ _ s3, u_frame (cx s3) = <[31%nat := reg s2 31]> demo_frame ∧
           bit (ss_flags (u_sigstk s3)) SA_ONSTACK = false ∧
           Sched.p_sigmask <$> procs_of s3 !! cur s2 = Some (sigmask 3)) s2) demo.
Proof.
  apply (signal_frame_roundtrip 0 0x7f008400 15 (sigmask 3) demo);
    [done|apply demo_s32|intros _ _; exists demo_segs; split; [exact demo_segs_ok|by vm_compute]|by vm_compute|by vm_compute].
Defined.

(** [sendsig] compares the stack pointer with the end of the data segment
    only.  A process that catches a signal with its stack pointer set to an
    address in the data of the kernel has the kernel write the registers of the
    process there, although the address is refused by [baduaddr]. *)
Theorem sendsig_writes_kernel RUNOUT p sig mask a s ws g :
  length (u_frame (cx s)) = 33%nat → Forall is_s32 (u_frame (cx s)) →
  mapM (aget (u_frame (cx s))) context_regs = Some ws →
  takes_stack sig s = false → reg s FRAME_SP = s32 (a + SIGCONTEXT) →
  segs (cx s) !! cur s = Some g → u32 (p_daddr g + u_dsize (cx s)) ≤ USER_DATA_END →
  KERNEL_DATA_START + SF_SPACE ≤ a → a + SIGCONTEXT ≤ KERNEL_DATA_END →
  baduaddr a = true ∧
  wp (sendsig RUNOUT p sig mask) (λ _ s1, get (mem (sy s1)) (a + 8) 32 = ws) s.
Proof.
  unfold KERNEL_DATA_START, KERNEL_DATA_END, SIGCONTEXT, SF_SPACE. intros Hl Hs Hws Ht Hsp Hg Hd H1 H2. split.
  { unfold baduaddr, USER_FLASH_START, USER_FLASH_END, USER_DATA_START, USER_DATA_END. by ztest. }
  assert (Hat : frame_at sig s = a - 16).
  { unfold frame_at, frame_top. rewrite Ht. change (handler _ FRAME_SP) with (reg s FRAME_SP). rewrite Hsp, u32_s32.
    unfold SIGFRAME, SIGCONTEXT, SF_SPACE. rewrite (u32_id (a + _)) by (unfold is_u32; lia). rewrite u32_id; unfold is_u32; lia. }
  destruct (saved_s32 _ _ Hs Hws) as (Hs32 & Hlw).
  eapply wp_sendsig; [done|done| |].
  - intros _ _. exists g. split; [done|]. rewrite Hat. unfold USER_DATA_END in Hd. lia.
  - intros s1 r Hm _ _ _ _. rewrite Hm, Hat. unfold SF_SPACE. replace (a - 16 + 16) with a by lia.
    unfold context. cbn [put]. rewrite !get_st32 by lia. replace (a + 4 + 4) with (a + 8) by lia.
    rewrite <- Hlw, get_put. by apply s32_words.
Qed.

(** The process of the example with its stack pointer at 0x80001088. *)
Definition demo_evil : sgst := set_cx (set_u_frame (<[Z.to_nat FRAME_SP := s32 (0x80001000 + SIGCONTEXT)]> demo_frame) (cx demo)) demo.

Lemma sendsig_writes_kernel_witness :
  baduaddr 0x80001000 = true ∧
  wp (sendsig 0 0x7f008400 15 0)
    (λ _ s1, get (mem (sy s1)) (0x80001000 + 8) 32 =
       take 31 (u_frame (cx demo_evil)) ++ [132]) demo_evil.
Proof.
  apply (sendsig_writes_kernel 0 0x7f008400 15 0 0x80001000 demo_evil _ demo_segs); [done| |by vm_compute..].
  change (u_frame (cx demo_evil)) with (<[Z.to_nat FRAME_SP := s32 (0x80001000 + SIGCONTEXT)]> demo_frame).
  apply Forall_insert; [exact demo_s32|apply s32_range].
Defined.

End SigSpec.
