(* ===== verification/KillSpec.v ===== *)
(** * Who may signal whom

    The checks of [kill] and [killpg], over the list of all processes and the
    hash table, and what a process that changed its effective user may still
    signal. *)

From S2P Require Import Prelude Links Callout Sched User Clock Cred Signal SigSpec.

Module KillSpec.
Import User.
Import Signal.
Import SigSpec.

Section send.
Context (RUNOUT : Z) (swapread : Z → K Z).

(** The real user of a process in core. *)
Definition real (s : sgst) (pr : Sched.proc) : option Z :=
  if Sched.p_stat pr =? Sched.SZOMB then Some (u32 (-2)) else ruids s !! Sched.p_addr pr.

(** The rule of [cansignal] for the process [q] with the entry [t]. *)
Definition may_signal (s : sgst) (q : Z) (t : Sched.proc) (signum : Z) : Prop :=
  ∃ c, procs_of s !! cur s = Some c ∧
    (Sched.p_uid c = 0 ∨ real s t = Some (User.u_ruid (usr (sy s))) ∨ real s t = Some (u32 (Sched.p_uid c)) ∨
     User.u_ruid (usr (sy s)) = u32 (Sched.p_uid t) ∨ Sched.p_uid c = Sched.p_uid t ∨
     (signum = SIGCONT ∧ Cred.below (kern (sy s)) q)).

(** The tables are well formed and every process is in core and awake. *)
Definition quiet (s : sgst) : Prop :=
  Cred.ok (sy s) ∧
  ∀ q pr, procs_of s !! q = Some pr →
    awake pr ∧ (Sched.p_stat pr = Sched.SZOMB ∨ (Sched.has_flag Sched.SLOAD pr = true ∧ is_Some (ruids s !! Sched.p_addr pr))).

Lemma wp_fill_from_u q pr (Q : Z → sgst → Prop) s :
  quiet s → procs_of s !! q = Some pr → (∀ r, real s pr = Some r → Q r s) → wp (fill_from_u swapread q) Q s.
Proof.
  intros (_ & Hq) Hp HQ. unfold fill_from_u. do 2 s_step. destruct (Hq _ _ Hp) as (_ & Hc). unfold real in HQ.
  destruct (Z.eqb_spec (Sched.p_stat pr) Sched.SZOMB) as [E|E]; [s_step; by apply HQ|].
  destruct Hc as [?|(-> & r & Hr)]; [done|]. eapply wp_load; [exact Hr|]. by apply HQ.
Qed.

Lemma wp_cansignal q t signum (Q : bool → sgst → Prop) s :
  quiet s → procs_of s !! q = Some t → (∀ b : bool, (b = true → may_signal s q t signum) → Q b s) →
  wp (cansignal swapread q signum) Q s.
Proof.
  intros Hquiet Hp HQ. pose proof Hquiet as (Hok & _). pose proof Hok as (((c & Hc) & _) & _).
  unfold cansignal. do 2 s_step. fold (cur s). s_step. eapply wp_fill_from_u; [done|exact Hp|]. intros ruid Hr.
  do 6 s_step. destruct (_ || _) eqn:E.
  - s_step. apply HQ. intros _. exists c. split; [done|]. rewrite Hr.
    repeat (apply orb_true_iff in E as [E|E]); apply Z.eqb_eq in E; intuition congruence.
  - destruct (Z.eqb_spec signum SIGCONT) as [->|]; [|s_step; by apply HQ].
    apply wp_on_sys. eapply Cred.wp_inferior; [done|by exists t|]. intros b Hb. destruct s. apply HQ.
    intros Hb'. exists c. split; [done|]. auto 10.
Qed.

(** What posting leaves alone. *)
Definition fixed (pr : Sched.proc) :=
  (Cred.skel pr, Sched.p_uid pr, Sched.p_stat pr, Sched.p_flag pr, Sched.p_addr pr, Sched.p_pgrp pr).

Lemma posted_fixed signo pr : fixed (posted signo pr) = fixed pr.
Proof. unfold posted. by repeat case_match. Qed.

(** From [s] to [s'] the signal went to processes that may be signalled, and
    nothing else changed in the process table. *)
Record sent_to (signo : Z) (s s' : sgst) : Prop := {
  st_cur : cur s' = cur s;
  st_all : Sched.allproc (kern (sy s')) = Sched.allproc (kern (sy s));
  st_hash : Sched.pidhash (kern (sy s')) = Sched.pidhash (kern (sy s));
  st_usr : usr (sy s') = usr (sy s);
  st_ruids : ruids s' = ruids s;
  st_procs : ∀ q, procs_of s' !! q = procs_of s !! q ∨
    ∃ pr, procs_of s !! q = Some pr ∧ may_signal s q pr signo ∧ signo ≠ 0 ∧ procs_of s' !! q = Some (posted signo pr)
}.

Lemma sent_refl signo s : sent_to signo s s.
Proof. constructor; auto. Qed.

Lemma sent_fixed signo s s' q : sent_to signo s s' → fixed <$> procs_of s' !! q = fixed <$> procs_of s !! q.
Proof.
  intros [_ _ _ _ _ Hp]. destruct (Hp q) as [->|(pr & -> & _ & _ & ->)]; [done|]. cbn. by rewrite posted_fixed.
Qed.

Lemma sent_lookup signo s s' q t : sent_to signo s s' → procs_of s' !! q = Some t →
  ∃ t0, procs_of s !! q = Some t0 ∧ fixed t = fixed t0.
Proof.
  intros Hs Ht. pose proof (sent_fixed _ _ _ q Hs) as E. rewrite Ht in E.
  destruct (procs_of s !! q) as [t0|]; [|done]. apply (inj Some) in E. eauto.
Qed.

Lemma sent_skel signo s s' : sent_to signo s s' → Cred.skel <$> procs_of s' = Cred.skel <$> procs_of s.
Proof.
  intros Hs. apply map_eq. intros q. rewrite !lookup_fmap. pose proof (sent_fixed _ _ _ q Hs) as E.
  destruct (procs_of s' !! q), (procs_of s !! q); try done. apply (inj Some) in E. cbn. f_equal. unfold fixed in E. congruence.
Qed.

Lemma sent_quiet signo s s' : quiet s → sent_to signo s s' → quiet s'.
Proof.
  intros ((Ht & Hu) & Hq) Hs. split.
  - split; [|by rewrite (st_usr _ _ _ Hs)].
    eapply Cred.tables_skel; [by eapply sent_skel|apply (st_cur _ _ _ Hs)|apply (st_all _ _ _ Hs)|apply (st_hash _ _ _ Hs)|done].
  - intros q t Hqt. destruct (sent_lookup _ _ _ _ _ Hs Hqt) as (t0 & H0 & E). destruct (Hq _ _ H0) as (Ha & Hc).
    rewrite (st_ruids _ _ _ Hs). injection E as E1 E2 E3 E4 E5 E6 E7 E8 E9 E10. unfold awake, Sched.has_flag in *.
    rewrite E7, E8, E9. done.
Qed.

Lemma sent_may signo s s' q t t0 signum :
  sent_to signo s s' → procs_of s !! q = Some t0 → fixed t = fixed t0 → may_signal s' q t signum → may_signal s q t0 signum.
Proof.
  intros Hs Hq E (c & Hc & Hor). rewrite (st_cur _ _ _ Hs) in Hc. destruct (sent_lookup _ _ _ _ _ Hs Hc) as (c0 & Hc0 & Ec).
  exists c0. split; [done|]. injection E as E1 E2 E3 E4 E5 E6 E7 E8 E9 E10. injection Ec as _ _ _ _ _ Eu _ _ _ _.
  unfold real in *. rewrite (st_usr _ _ _ Hs), (st_ruids _ _ _ Hs), E6, E7, E9, Eu in Hor.
  intuition. do 5 right. split; [done|]. eapply Cred.below_skel; [by symmetry; eapply sent_skel| |done]. symmetry. apply (st_cur _ _ _ Hs).
Qed.

Lemma sent_put signo s s' q pr :
  sent_to signo s s' → procs_of s' !! q = Some pr → procs_of s !! q = Some pr → may_signal s q pr signo → signo ≠ 0 →
  sent_to signo s (put_proc q (posted signo pr) s').
Proof.
  intros [] H1 H2 Hm H0. constructor; try done. intros z. destruct (decide (q = z)) as [<-|Hne].
  - right. exists pr. rewrite procs_put. done.
  - by rewrite procs_put_ne.
Qed.

Definition some_may (s : sgst) (signo : Z) : Prop := ∃ q t, procs_of s !! q = Some t ∧ may_signal s q t signo.

(** Sending to one process that has not been looked at yet. *)
Lemma wp_send signo s0 s q t (Q : unit → sgst → Prop) :
  quiet s → sent_to signo s0 s → 0 ≤ signo < NSIG → procs_of s !! q = Some t → procs_of s0 !! q = Some t →
  may_signal s0 q t signo →
  (∀ s', sent_to signo s0 s' → (∀ z, z ≠ q → procs_of s' !! z = procs_of s !! z) → Q tt s') →
  wp (when (negb (signo =? 0)) (psignal RUNOUT q signo)) Q s.
Proof.
  intros (_ & Hq) Hs Hn Hp Hp0 Hm HQ. apply wp_when; intros E; to_prop; [|by apply HQ].
  eapply psignal_awake; [done|by destruct (Hq _ _ Hp)|lia|]. apply HQ; [by apply sent_put|].
  intros z Hz. by apply procs_put_ne.
Qed.

Lemma next_of_sent signo s s' z : sent_to signo s s' → Cred.next_of (kern (sy s')) z = Cred.next_of (kern (sy s)) z.
Proof.
  intros Hs. unfold Cred.next_of. pose proof (sent_fixed _ _ _ z Hs) as E. unfold procs_of in E.
  destruct (Sched.procs (kern (sy s')) !! z), (Sched.procs (kern (sy s)) !! z); try done.
  apply (inj Some) in E. cbn. f_equal. unfold fixed, Cred.skel in E. congruence.
Qed.

Lemma killpg1_loop_ok fuel signo pgrp all p l f error s0 s :
  quiet s0 → sent_to signo s0 s → 0 ≤ signo < NSIG → chain (Cred.next_of (kern (sy s0))) p l → (length l < fuel)%nat →
  (∀ q, q ∈ l → procs_of s !! q = procs_of s0 !! q) → 0 ≤ f → (0 < f → some_may s0 signo) →
  wp (killpg1_loop RUNOUT swapread fuel signo pgrp all p f error)
    (λ r s', sent_to signo s0 s' ∧ 0 ≤ r.1 ∧ (0 < r.1 → some_may s0 signo) ∧ (r.2 = error ∨ r.2 = EPERM)) s.
Proof.
  intros Hquiet. revert p l f error s. induction fuel as [|fuel IH]; intros p l f error s Hs Hn Hc Hf Hl H0 Hfm; [lia|].
  cbn [killpg1_loop]. pose proof (chain_nodup _ _ _ Hc) as Hnd.
  apply Cred.chain_next in Hc as [[-> ->]|(pr & l' & Hp0 & -> & Hp & Hc)]; [s_step; cbn; auto|].
  rewrite (proj2 (Z.eqb_neq p 0)) by done. assert (Hps : procs_of s !! p = Some pr) by (rewrite Hl by set_solver; done).
  apply NoDup_cons in Hnd as (Hnin & _). assert (Hq : quiet s) by (by eapply sent_quiet).
  do 4 s_step. s_step.
  assert (Hrest : ∀ f' e' s', sent_to signo s0 s' → (∀ z, z ≠ p → procs_of s' !! z = procs_of s !! z) →
    0 ≤ f' → (0 < f' → some_may s0 signo) → (e' = error ∨ e' = EPERM) →
    wp (pr ← rdp p; killpg1_loop RUNOUT swapread fuel signo pgrp all (Sched.p_nxt pr) f' e')
      (λ r s', sent_to signo s0 s' ∧ 0 ≤ r.1 ∧ (0 < r.1 → some_may s0 signo) ∧ (r.2 = error ∨ r.2 = EPERM)) s').
  { intros f' e' s' Hs' Hz Hf' Hfm' He. pose proof (sent_fixed _ _ _ p Hs') as E. unfold procs_of at 2 in E. rewrite Hp in E.
    destruct (procs_of s' !! p) as [pr'|] eqn:Hp'; [|done]. apply (inj Some) in E. injection E as E1 _ _ _ _ _ _ _ _ _.
    do 2 s_step. rewrite E1. eapply wp_mono; [eapply (IH _ l'); [done|done|exact Hc|simpl in Hf; lia| |done|done]|].
    - intros q Hq'. rewrite Hz by (by intros ->). apply Hl. set_solver.
    - intros r s2 (? & ? & ? & Hr). split; [done|]. split; [done|]. split; [done|]. destruct Hr as [->|]; auto. }
  destruct (_ || _); [s_step; by apply Hrest; auto|].
  s_step. eapply wp_cansignal; [done|exact Hps|]. intros b Hb. destruct b; cbn [negb].
  - assert (Hm : may_signal s0 p pr signo) by (eapply sent_may; [done|exact Hp|done|by apply Hb]).
    s_step. eapply wp_send; [done|done|done|done|exact Hp|done|]. intros s' Hs' Hz. s_step.
    apply Hrest; [done|done|lia| |auto]. intros _. by exists p, pr.
  - s_step. apply Hrest; auto. destruct all; cbn; auto.
Qed.

Lemma killpg1_ok signo pgrp all s :
  quiet s → 0 ≤ signo < NSIG →
  wp (killpg1 RUNOUT swapread signo pgrp all) (λ e s', sent_to signo s s' ∧ (e = 0 → some_may s signo)) s.
Proof.
  intros Hq Hn. pose proof Hq as (((Hcur & (l & Hl) & _) & _) & _). destruct Hcur as (c & Hc).
  unfold killpg1. do 2 s_step. do 2 s_step. fold (cur s). destruct (_ && (_ =? 0)); [s_step; split; [apply sent_refl|done]|].
  do 5 s_step. eapply wp_mono; [eapply (killpg1_loop_ok _ _ _ _ _ l); [done|apply sent_refl|done|exact Hl| |done|done|done]|].
  - pose proof (Cred.chain_size _ _ _ Hl). lia.
  - intros [f e] s' (Hs & Hf & Hfm & He). s_step. split; [done|]. cbn in *. intros E. apply Hfm.
    destruct He as [->| ->]; [|done]. cbn in E. destruct (Z.eqb_spec f 0); [done|lia].
Qed.

(** The error code is all a call changes besides. *)
Lemma sent_err signo s s' e : sent_to signo s s' →
  sent_to signo s (set_sy (set_kern (Sched.set_u_error e (kern (sy s'))) (sy s')) s').
Proof. intros []. by constructor. Qed.


(** [cansignal] takes [p_uid] for the effective user, and [seteuid] does not
    change [p_uid]: a process of the super-user that gives up its privilege with
    [seteuid] may still signal every process of every user. *)
Theorem seteuid_keeps_kill euid q signum c s :
  quiet s → is_Some (procs_of s !! q) → procs_of s !! cur s = Some c → Sched.p_uid c = 0 → u_uid (usr (sy s)) = 0 →
  wp (on_sys (Cred.seteuid euid);; cansignal swapread q signum)
    (λ r s', u_uid (usr (sy s')) = euid ∧ r = true) s.
Proof.
  intros Hq (t & Ht) Hc Hu0 Hroot. s_step. apply wp_on_sys. unfold Cred.seteuid. apply wp_bind, wp_gets, wp_bind.
  eapply (wp_mono _ (λ ok s', ok = true ∧ s' = sy s)).
  { destruct (_ && _); [apply wp_suser; by rewrite Hroot|by apply wp_ret]. }
  intros ok' y (-> & ->). cbn [when]. apply wp_bind, wp_upd_usr, wp_err.
  set (s1 := set_sy _ s). assert (Hq1 : quiet s1) by exact Hq.
  unfold cansignal. do 2 s_step. s_step. eapply wp_fill_from_u; [done|exact Ht|]. intros r _.
  s_step. eapply wp_s_rdp; [exact Hc|]. s_step. eapply wp_s_rdp; [exact Ht|]. do 2 s_step. rewrite Hu0. by s_step.
Qed.
End send.

(** Three processes ready to run: 2 is the one running, 3 its child, 6 belongs
    to another user. *)
Definition demo_proc (nx pp pid ppid hash uid : Z) : Sched.proc :=
  Sched.Proc nx pp Sched.SLOAD uid pid ppid Sched.SRUN 60 0 0 0 0 hash 0 pid 0 0 0 2 0 0 0 0 0.
Definition demo_procs (uid : Z) : gmap Z Sched.proc :=
  list_to_map [(2, demo_proc 3 0 2 0 0 uid); (3, demo_proc 6 2 3 2 0 uid); (6, demo_proc 0 2 6 2 0 9)].
Definition demo_kill (uid : Z) : sgst :=
  let k := Sched.set_procs (demo_procs uid) Sched.demo in
  let k := Sched.KS (Sched.procs k) (Sched.slpque k) (Sched.qs k) [0; 0; 2; 3; 0; 0; 6; 0; 0; 0; 0; 0; 0; 0; 0; 0]
    (Sched.freeproc k) (Sched.allproc k) (Sched.zombproc k) (Sched.runrun k) (Sched.curpri k) (Sched.noproc k)
    (Sched.runin k) (Sched.runout k) (Sched.panicstr k) (Sched.v_swtch k) (Sched.ru_nvcsw k) (Sched.u_procp k)
    (Sched.u_error k) (Sched.u_sigintr k) (Sched.sigs k) (Sched.co k) in
  let y := set_usr (set_u_uid uid (usr Cred.demo)) (set_kern k Cred.demo) in
  SG y (u_signal demo) (u_sigmask demo) 0 0 0 0 (SS 0 0 SA_DISABLE) (cx demo) (list_to_map [(2, 5); (3, 5); (6, 9)]) [].

Lemma demo_kill_procs uid q pr : procs_of (demo_kill uid) !! q = Some pr →
  (q = 2 ∧ pr = demo_proc 3 0 2 0 0 uid) ∨ (q = 3 ∧ pr = demo_proc 6 2 3 2 0 uid) ∨ (q = 6 ∧ pr = demo_proc 0 2 6 2 0 9).
Proof.
  change (procs_of (demo_kill uid)) with (demo_procs uid). unfold demo_procs. cbn [list_to_map foldr fst snd].
  rewrite !lookup_insert_Some, lookup_empty. naive_solver.
Qed.

Lemma demo_kill_quiet uid : quiet (demo_kill uid).
Proof.
  assert (Hlk : ∀ f : Sched.proc → Z, ∀ q, f <$> procs_of (demo_kill uid) !! q =
    if q =? 2 then Some (f (demo_proc 3 0 2 0 0 uid)) else if q =? 3 then Some (f (demo_proc 6 2 3 2 0 uid))
    else if q =? 6 then Some (f (demo_proc 0 2 6 2 0 9)) else None).
  { intros f q. change (procs_of (demo_kill uid)) with (demo_procs uid). unfold demo_procs. cbn [list_to_map foldr fst snd].
    destruct (Z.eqb_spec q 2) as [->|]; [done|]. destruct (Z.eqb_spec q 3) as [->|]; [done|].
    destruct (Z.eqb_spec q 6) as [->|]; [done|]. by rewrite !lookup_insert_ne by congruence. }
  split; [split; [|by split_and!]|].
  - split_and!.
    + by eexists.
    + exists [2; 3; 6]. repeat (split; [done|]; split; [done|]; eexists; split; [done|]). done.
    + exists (λ i, if i =? 2 then [2] else if i =? 3 then [3] else if i =? 6 then [6] else []). split.
      * intros i Hi. assert (Hin : i ∈ seqZ 0 16) by (apply elem_of_seqZ; unfold Sched.PIDHSZ in Hi; lia).
        repeat (apply elem_of_cons in Hin as [->|Hin]; [eexists; split; [done|]; cbn;
          first [done | split; [done|]; split; [done|]; eexists; split; done]|]). by apply elem_of_nil in Hin.
      * intros i p _ Hp. destruct (Z.eqb_spec i 2) as [->|]; [by apply list_elem_of_singleton in Hp as ->|].
        destruct (Z.eqb_spec i 3) as [->|]; [by apply list_elem_of_singleton in Hp as ->|].
        destruct (Z.eqb_spec i 6) as [->|]; [by apply list_elem_of_singleton in Hp as ->|by apply elem_of_nil in Hp].
    + exists (λ p, if p =? 2 then 0%nat else 1%nat). intros p pr Hp.
      apply demo_kill_procs in Hp as [[-> ->]|[[-> ->]|[-> ->]]]; (split; [vm_compute; lia|]); intros Hpp;
        first [done | split; [by eexists|vm_compute; lia]].
  - intros q pr Hp. apply demo_kill_procs in Hp as [[-> ->]|[[-> ->]|[-> ->]]]; (split; [done|]); right; (split; [done|by eexists]).
Qed.


(** The super-user becomes user 9 and then signals process 3 of user 0. *)
Lemma seteuid_keeps_kill_witness :
  wp (on_sys (Cred.seteuid 9);; cansignal (λ _, mret 0) 3 15) (λ r s', u_uid (usr (sy s')) = 9 ∧ r = true) (demo_kill 0).
Proof.
  apply (seteuid_keeps_kill (λ _, mret 0) 9 3 15 (demo_proc 3 0 2 0 0 0) (demo_kill 0) (demo_kill_quiet 0)); try done.
Defined.
End KillSpec.
