(* ===== verification/Run.v ===== *)
(** * Making a process runnable (kern_synch.c) and posting to any process

    [unsleep] and [setrun] under the invariant of the sleep and run queues, and
    with them [psignal] and [stop] for a process in any state. *)

From S2P Require Import Prelude Links Callout Sched User Clock Cred Signal SigSpec.

Module Run.
Import Sched.

Section setrun.
Context {C : Type} `{!CalloutQueue C}.
Context (RUNOUT : Z).
Implicit Types (s : kst C) (sq : Z → list Z) (rq : list Z).

(** A process off the queues is replaced, and may be put on the run queue. *)
Lemma rep_replace s s' sq rq rq' p pr pr' :
  rep s sq rq → procs s !! p = Some pr → p_wchan pr = 0 → p ∉ rq → p_wchan pr' = 0 → chains s' sq rq' →
  (∀ z, z ≠ p → nolink <$> procs s' !! z = nolink <$> procs s !! z) → procs s' !! p = Some pr' →
  (rq' = rq ∨ (rq' = p :: rq ∧ p_stat pr' = SRUN ∧ has_flag SLOAD pr' = true)) →
  rep s' sq rq'.
Proof.
  intros (Hc & Ha & Hb & Hr) Hp Hw Hrq Hw' Hc' Hz Hp' Hrq'.
  assert (Hfw : ∀ z q, z ≠ p → procs s !! z = Some q → ∃ q', procs s' !! z = Some q' ∧ nolink q' = nolink q).
  { intros z q Hne Hq. specialize (Hz z Hne). rewrite Hq in Hz. destruct (procs s' !! z) as [q'|]; [|done].
    apply (inj Some) in Hz. eauto. }
  assert (Hbk : ∀ z q', z ≠ p → procs s' !! z = Some q' → ∃ q, procs s !! z = Some q ∧ nolink q' = nolink q).
  { intros z q' Hne Hq. specialize (Hz z Hne). rewrite Hq in Hz. destruct (procs s !! z) as [q|]; [|done].
    apply (inj Some) in Hz. eauto. }
  split; [done|]. split; [|split].
  - intros i z Hi Hin. destruct (Ha i z Hi Hin) as (q & Hq & Hwq & Hh & Hst). assert (z ≠ p) by (intros ->; congruence).
    destruct (Hfw z q) as (q' & Hq' & Hn); [done|done|]. destruct (nolink_wchan _ _ Hn) as (E1 & E2 & _ & _).
    exists q'. rewrite E1, E2. done.
  - intros z q' Hq' Hwq. assert (z ≠ p) by (intros ->; congruence). destruct (Hbk z q') as (q & Hq & Hn); [done|done|].
    destruct (nolink_wchan _ _ Hn) as (E1 & _). rewrite E1 in *. by apply (Hb z q).
  - assert (Hold : ∀ z, z ∈ rq → ∃ q, procs s' !! z = Some q ∧ p_wchan q = 0 ∧ p_stat q = SRUN ∧ has_flag SLOAD q = true).
    { intros z Hin. destruct (Hr z Hin) as (q & Hq & H1 & H2 & H3). assert (z ≠ p) by (by intros ->).
      destruct (Hfw z q) as (q' & Hq' & Hn); [done|done|]. destruct (nolink_wchan _ _ Hn) as (E1 & E2 & E3 & _).
      exists q'. unfold has_flag in *. rewrite E1, E2, E3. done. }
    destruct Hrq' as [->|(-> & H1 & H2)]; [done|]. intros z [->|Hin]%elem_of_cons; [by exists pr'|by apply Hold].
Qed.

(** A process taken off its sleep queue. *)
Lemma rep_unsleep s s' sq rq h pre p post pr pr' :
  rep s sq rq → sq h = pre ++ p :: post → 0 ≤ h < SQSIZE → procs s !! p = Some pr → p_wchan pr' = 0 →
  chains s' (upd_sq sq h (pre ++ post)) rq →
  (∀ z, z ≠ p → nolink <$> procs s' !! z = nolink <$> procs s !! z) → procs s' !! p = Some pr' →
  rep s' (upd_sq sq h (pre ++ post)) rq.
Proof.
  intros (Hc & Ha & Hb & Hr) Hsq Hh Hp Hw' Hc' Hz Hp'.
  assert (Hpin : p ∈ sq h) by (rewrite Hsq; set_solver).
  assert (Hnd : NoDup (sq h)) by (destruct Hc as (_ & Hc & _); destruct (Hc _ Hh) as (? & _ & ?); by eapply chain_nodup).
  rewrite Hsq in Hnd. apply NoDup_app in Hnd as (_ & Hd & [Hn _]%NoDup_cons).
  assert (Hsub : ∀ i z, 0 ≤ i < SQSIZE → z ∈ upd_sq sq h (pre ++ post) i ↔ z ∈ sq i ∧ z ≠ p).
  { intros i z Hi. unfold upd_sq. case_decide as Hdc.
    - subst i. rewrite Hsq. split; [|set_solver]. intros [Hx|Hx]%elem_of_app; (split; [set_solver|]); intros ->; [|done].
      apply (Hd p Hx). set_solver.
    - split; [|by intros []]. intros Hx. split; [done|]. intros ->. apply Hdc. destruct Hc as (_ & _ & _ & H4 & _). by apply (H4 i h p). }
  assert (Hlk : ∀ z, z ≠ p → (∀ q, procs s !! z = Some q → ∃ q', procs s' !! z = Some q' ∧ nolink q' = nolink q) ∧
    (∀ q', procs s' !! z = Some q' → ∃ q, procs s !! z = Some q ∧ nolink q' = nolink q)).
  { intros z Hne. specialize (Hz z Hne). split; intros q Hq; rewrite Hq in Hz.
    - destruct (procs s' !! z) as [q'|]; [|done]. apply (inj Some) in Hz. eauto.
    - destruct (procs s !! z) as [q'|]; [|done]. apply (inj Some) in Hz. eauto. }
  split; [done|]. split; [|split].
  - intros i z Hi [Hin Hne]%Hsub; [|done]. destruct (Ha i z Hi Hin) as (q & Hq & Hwq & Hhq & Hst).
    destruct (proj1 (Hlk z Hne) q Hq) as (q' & Hq' & Hnl). destruct (nolink_wchan _ _ Hnl) as (E1 & E2 & _ & _).
    exists q'. rewrite E1, E2. done.
  - intros z q' Hq' Hwq. assert (Hne : z ≠ p) by (intros ->; congruence). destruct (proj2 (Hlk z Hne) q' Hq') as (q & Hq & Hnl).
    destruct (nolink_wchan _ _ Hnl) as (E1 & _). rewrite E1 in *. apply Hsub; [apply HASH_range|]. split; [by apply (Hb z q)|done].
  - intros z Hin. destruct (Hr z Hin) as (q & Hq & H1 & H2 & H3).
    assert (Hne : z ≠ p). { intros ->. destruct Hc as (_ & _ & _ & _ & H5). by apply (H5 h p). }
    destruct (proj1 (Hlk z Hne) q Hq) as (q' & Hq' & Hnl). destruct (nolink_wchan _ _ Hnl) as (E1 & E2 & E3 & _).
    exists q'. unfold has_flag in *. rewrite E1, E2, E3. done.
Qed.

(** The walk of [unsleep] stands before [p] or somewhere in front of it. *)
Lemma unsleep_loop_ok fuel s sq rq h pre mid p post q pr (Q : unit → kst C → Prop) :
  chains s sq rq → 0 ≤ h < SQSIZE → sq h = pre ++ mid ++ p :: post → at_pos pre q → procs s !! p = Some pr → p ∉ mid →
  (length mid < fuel)%nat →
  (∀ m l, let s' := set_procs m (set_slpque l s) in
     chains s' (upd_sq sq h (pre ++ mid ++ post)) rq → same_procs s s' → procs s' !! p = Some pr → Q tt s') →
  wp (unsleep_loop fuel h q p) Q s.
Proof.
  intros Hc Hh. revert pre mid q. induction fuel as [|fuel IH]; intros pre mid q Hsq Hpos Hp Hmid Hf HQ; [lia|].
  cbn [unsleep_loop]. apply wp_bind. eapply wp_rd_q; [exact Hc|done|exact Hsq|done|].
  destruct mid as [|x mid]; cbn [app head from_option id].
  - rewrite Z.eqb_refl. apply wp_bind. eapply wp_rdp; [exact Hp|]. eapply wp_unlink; [done|done|exact Hsq|done|done|]. exact HQ.
  - rewrite (proj2 (Z.eqb_neq x p)) by set_solver.
    apply (IH (pre ++ [x]) mid (QLink x)).
    + by rewrite <- app_assoc.
    + cbn. by rewrite last_snoc.
    + done.
    + set_solver.
    + cbn in Hf. lia.
    + cbv zeta. rewrite <- app_assoc. cbn [app]. exact HQ.
Qed.

(** [p] off its channel; nobody else is touched but for the links. *)
Lemma unsleep_ok s sq rq p pr (Q : unit → kst C → Prop) :
  rep s sq rq → procs s !! p = Some pr →
  (∀ s' sq', rep s' sq' rq → only_proc s p (set_p_wchan 0 pr) s' → Q tt s') →
  wp (unsleep p) Q s.
Proof.
  intros Hrep Hp HQ. unfold unsleep. apply wp_bind. eapply wp_rdp; [exact Hp|].
  destruct (Z.eqb_spec (p_wchan pr) 0) as [E|E].
  { apply wp_ret. apply (HQ _ sq); [done|]. split; [done|]. split; [|done]. rewrite Hp. f_equal. destruct pr. cbn in *. by subst. }
  pose proof Hrep as (Hc & Ha & Hb & Hr). pose proof (Hb p pr Hp E) as Hin. pose proof (HASH_range (p_wchan pr)) as Hh.
  set (h := HASH (p_wchan pr)) in *. pose proof Hin as (pre & post & Hsq)%list_elem_of_split.
  assert (Hch : ∃ hd, chain (lnk s) hd (sq h)) by (destruct Hc as (_ & H2 & _); destruct (H2 h Hh) as (hd & _ & ?); eauto).
  destruct Hch as (hd & Hch). pose proof (chain_nodup _ _ _ Hch) as Hnd. rewrite Hsq in Hnd.
  apply wp_bind, wp_gets, wp_bind.
  assert (Hnin : p ∉ pre). { apply NoDup_app in Hnd as (_ & Hd & _). intros Hx. apply (Hd p Hx). set_solver. }
  eapply (unsleep_loop_ok _ s sq rq h [] pre p post QHead pr); [done|done|exact Hsq|done|done|done| |].
  { pose proof (pr_chain_length _ _ _ Hch) as Hl. rewrite Hsq, length_app in Hl. cbn in Hl. lia. }
  cbv zeta. intros m l Hc1 Hs1 Hp1. eapply wp_wrp; [exact Hp1|]. cbn [app] in *. set (s1 := set_procs m (set_slpque l s)) in *.
  assert (Hrw : set_procs (<[p := set_p_wchan 0 pr]> (procs s1)) s1 = with_proc s1 p (set_p_wchan 0 pr) (runrun s1)) by done.
  rewrite Hrw. eapply (HQ _ (upd_sq sq h (pre ++ post))).
  - eapply (rep_unsleep s _ sq rq h pre p post pr (set_p_wchan 0 pr)); try done.
    + by eapply chains_proc.
    + intros z Hz. cbn. rewrite lookup_insert_ne by done. apply Hs1.
    + cbn. apply lookup_insert_eq.
  - split; [|split; [cbn; apply lookup_insert_eq|done]]. intros z Hz. cbn. rewrite lookup_insert_ne by done. apply Hs1.
Qed.

(** Off its channel and ready. *)
Definition ready (pr : proc) : Prop := p_stat pr = SRUN ∧ p_wchan pr = 0.
Definition runnable (p : Z) s : Prop := ∃ pr, procs s !! p = Some pr ∧ ready pr.

(** Nobody else is touched, links aside, but sleepers on [&runout]. *)
Definition others (p : Z) s s' : Prop :=
  ∀ z, z ≠ p → chan_of s z ≠ RUNOUT → nolink <$> procs s' !! z = nolink <$> procs s !! z.

Lemma others_refl p s : others p s s.
Proof. done. Qed.

Lemma others_chan p s s' z : others p s s' → z ≠ p → chan_of s z ≠ RUNOUT → chan_of s' z = chan_of s z.
Proof.
  intros Ho Hz Hc. specialize (Ho z Hz Hc). unfold chan_of. destruct (procs s' !! z), (procs s !! z); try done.
  apply (inj Some) in Ho. cbn. by apply nolink_wchan.
Qed.

Lemma quiet_trans p s1 s2 s3 : others p s1 s2 → others p s2 s3 → others p s1 s3.
Proof. intros H1 H2 z Hz Hc. rewrite H2; [by apply H1|done|]. by rewrite (others_chan p s1). Qed.

Lemma others_wakeup p s sq rq :
  rep s sq rq → chan_of s p = 0 →
  wp (wakeup RUNOUT RUNOUT) (λ _ s', (∃ sq' rq', rep s' sq' rq') ∧ others p s s' ∧ nolink <$> procs s' !! p = nolink <$> procs s !! p) s.
Proof.
  intros Hrep Hc0. eapply wp_mono; [by apply wakeup_ok|].
  intros [] s' (b & D & sq' & rq' & H2 & ((Hdom & Hwk) & _) & (HD & _)). split; [eauto|].
  assert (Hgen : ∀ z, z ∉ D → nolink <$> procs s' !! z = nolink <$> procs s !! z).
  { intros z Hz. specialize (Hwk z). specialize (Hdom z). destruct (procs s !! z) as [q|] eqn:E, (procs s' !! z) as [q'|] eqn:E'.
    - specialize (Hwk q q' eq_refl eq_refl). rewrite decide_False in Hwk by done. cbn. by rewrite Hwk.
    - exfalso. destruct Hdom as [_ Hd]. destruct (Hd ltac:(eauto)). done.
    - exfalso. destruct Hdom as [Hd _]. destruct (Hd ltac:(eauto)). done.
    - done. }
  split.
  - intros z _ Hz. apply Hgen. intros Hin. destruct (HD z Hin) as (_ & Hor). tauto.
  - apply Hgen. intros Hin. by destruct (HD p Hin).
Qed.

Lemma setrun_tail s sq rq p pr :
  rep s sq rq → procs s !! p = Some pr → p_wchan pr = 0 → p ∉ rq → p ≠ 0 →
  wp (wrp p (set_p_stat SRUN);; pr ← rdp p; when (has_flag SLOAD pr) (setrq p);; pr ← rdp p; c ← gets curpri;
      when (p_pri pr <? c) (modify (λ s, set_runrun (runrun s + 1) s));;
      if has_flag SLOAD pr then mret tt
      else ro ← gets runout; when (negb (ro =? 0)) (modify (set_runout 0);; wakeup RUNOUT RUNOUT))
     (λ _ s', runnable p s' ∧ others p s s' ∧ ∃ sq' rq', rep s' sq' rq') s.
Proof.
  intros Hrep Hp Hw Hrq Hp0. set (pr1 := set_p_stat SRUN pr).
  assert (Hend : ∀ s2 pr2 rq2, rep s2 sq rq2 → procs s2 !! p = Some pr2 → ready pr2 →
    wp (pr ← rdp p; c ← gets curpri; when (p_pri pr <? c) (modify (λ s, set_runrun (runrun s + 1) s));;
      if has_flag SLOAD pr then mret tt
      else ro ← gets runout; when (negb (ro =? 0)) (modify (set_runout 0);; wakeup RUNOUT RUNOUT))
     (λ _ s', runnable p s' ∧ others p s2 s' ∧ ∃ sq' rq', rep s' sq' rq') s2).
  { clear. intros s pr rq Hrep Hp Hrd. apply wp_bind. eapply wp_rdp; [exact Hp|]. apply wp_bind, wp_gets, wp_bind.
    eapply (wp_mono _ (λ _ s', rep s' sq rq ∧ procs s' = procs s)).
    { apply wp_when; intros _; [apply wp_modify; split; [by apply (rep_ext s)|done]|done]. }
    intros [] s1 (H1 & E). assert (Hp1 : procs s1 !! p = Some pr) by (by rewrite E).
    assert (runnable p s1) by (by exists pr). assert (others p s s1) by (intros z _ _; by rewrite E).
    destruct (has_flag SLOAD pr); [apply wp_ret; eauto|]. apply wp_bind, wp_gets, wp_when; intros _; [|eauto].
    apply wp_bind, wp_modify. eapply wp_mono; [apply (others_wakeup p _ sq rq); [by apply (rep_ext s1)|]|].
    - rewrite (chan_of_Some _ _ pr); [apply Hrd|exact Hp1].
    - intros [] s2 (Hrep2 & Ho2 & Hsame). cbn in Hsame. rewrite Hp1 in Hsame.
      split; [|split; [by eapply quiet_trans; [exact H0|exact Ho2]|done]].
      destruct (procs s2 !! p) as [pr2|] eqn:Hp2; [|done]. apply (inj Some) in Hsame.
      destruct (nolink_wchan _ _ Hsame) as (E1 & E2 & _). exists pr2. unfold ready. by rewrite E1, E2. }
  apply wp_bind. eapply wp_wrp; [exact Hp|]. set (s1 := set_procs _ s).
  assert (Hp1 : procs s1 !! p = Some pr1) by (cbn; apply lookup_insert_eq).
  assert (Hc1 : chains s1 sq rq).
  { assert (E : s1 = with_proc s p pr1 (runrun s)) by (by destruct s). rewrite E. by eapply chains_proc; [..|apply Hrep]. }
  assert (Hz1 : ∀ z, z ≠ p → nolink <$> procs s1 !! z = nolink <$> procs s !! z) by (intros z Hz; cbn; by rewrite lookup_insert_ne).
  assert (Hrep1 : rep s1 sq rq) by (eapply (rep_replace s); [done|exact Hp|done|done| |done|done|exact Hp1|by left]; done).
  assert (Hgo : ∀ s2 pr2 rq2, rep s2 sq rq2 → procs s2 !! p = Some pr2 → ready pr2 → others p s s2 →
    wp (pr ← rdp p; c ← gets curpri; when (p_pri pr <? c) (modify (λ s, set_runrun (runrun s + 1) s));;
      if has_flag SLOAD pr then mret tt
      else ro ← gets runout; when (negb (ro =? 0)) (modify (set_runout 0);; wakeup RUNOUT RUNOUT))
     (λ _ s', runnable p s' ∧ others p s s' ∧ ∃ sq' rq', rep s' sq' rq') s2).
  { intros s2 pr2 rq2 H1 H2 H3 H4. eapply wp_mono; [by eapply Hend|]. intros [] s' (? & ? & ?). split; [done|].
    split; [by eapply quiet_trans|done]. }
  assert (Ho1 : others p s s1) by (intros z Hz _; by apply Hz1).
  apply wp_bind. eapply wp_rdp; [exact Hp1|]. apply wp_bind, wp_when; intros Hl; [|by eapply Hgo].
  eapply wp_setrq; [exact Hc1|by eapply (rep_off s1)|done|exact Hp1|]. cbv zeta. intros v Hc2 _. set (s2 := set_qs p _) in *.
  assert (Hz2 : ∀ z, z ≠ p → nolink <$> procs s2 !! z = nolink <$> procs s1 !! z) by (intros z Hz; cbn; by rewrite !lookup_insert_ne).
  eapply Hgo; [|cbn; apply lookup_insert_eq|done|].
  - apply (rep_replace s1 s2 sq rq (p :: rq) p pr1 (set_p_link v pr1)); try done; [cbn; apply lookup_insert_eq|by right].
  - intros z Hz _. rewrite Hz2 by done. by apply Hz1.
Qed.

(** A process asleep, stopped or being created is made runnable. *)
Lemma setrun_ok s sq rq p pr :
  rep s sq rq → procs s !! p = Some pr → p ≠ 0 → (p_stat pr = SSLEEP ∨ p_stat pr = SSTOP ∨ (p_stat pr = SIDL ∧ p_wchan pr = 0)) →
  wp (setrun RUNOUT p) (λ _ s', runnable p s' ∧ others p s s' ∧ ∃ sq' rq', rep s' sq' rq') s.
Proof.
  intros Hrep Hp Hp0 Hst. assert (Hrq : p ∉ rq).
  { destruct Hrep as (_ & _ & _ & Hr). intros Hin. destruct (Hr p Hin) as (q & Hq & _ & Hs & _). simplify_eq.
    rewrite Hs in Hst. by destruct Hst as [?|[?|[? _]]]. }
  unfold setrun. apply wp_bind. eapply wp_rdp; [exact Hp|]. apply wp_bind.
  eapply (wp_mono _ (λ _ s', ∃ sq', rep s' sq' rq ∧ only_proc s p (set_p_wchan 0 pr) s')).
  { destruct Hst as [E|[E|[E Hw]]]; rewrite E; cbn [Z.eqb SSLEEP SSTOP orb Pos.eqb].
    1,2: eapply unsleep_ok; [done|done|]; intros s' sq' H1 H2; by exists sq'.
    apply wp_ret. exists sq. split; [done|]. split; [done|]. split; [|done]. rewrite Hp. f_equal. destruct pr. cbn in *. by subst. }
  intros [] s1 (sq1 & Hrep1 & Ho1). clear Hrep sq. pose proof Ho1 as (_ & Hp1 & _).
  assert (Ho : others p s s1) by (intros z Hz _; by apply Ho1).
  assert (Hgo : ∀ s2 pr2, rep s2 sq1 rq → procs s2 !! p = Some pr2 → p_wchan pr2 = 0 → others p s s2 →
    wp (wrp p (set_p_stat SRUN);; pr ← rdp p; when (has_flag SLOAD pr) (setrq p);; pr ← rdp p; c ← gets curpri;
      when (p_pri pr <? c) (modify (λ s, set_runrun (runrun s + 1) s));;
      if has_flag SLOAD pr then mret tt
      else ro ← gets runout; when (negb (ro =? 0)) (modify (set_runout 0);; wakeup RUNOUT RUNOUT))
     (λ _ s', runnable p s' ∧ others p s s' ∧ ∃ sq' rq', rep s' sq' rq') s2).
  { intros s2 pr2 H1 H2 H3 H4. eapply wp_mono; [by eapply setrun_tail|]. intros [] s' (? & ? & ?). split; [done|].
    split; [by eapply quiet_trans|done]. }
  apply wp_bind. eapply wp_rdp; [exact Hp1|]. apply wp_bind, wp_when; intros _; [|by eapply Hgo].
  eapply wp_updatepri; [exact Hp1|]. intros rr. destruct (decayed_fields (set_p_wchan 0 pr)) as (D1 & D2 & D3 & D4).
  assert (Hz : ∀ z, z ≠ p → procs (with_proc s1 p (decayed (set_p_wchan 0 pr)) rr) !! z = procs s1 !! z)
    by (intros z Hz; cbn; by rewrite lookup_insert_ne).
  eapply Hgo; [|cbn; apply lookup_insert_eq|done|].
  - eapply (rep_replace s1); [done|exact Hp1|done|done| | | | |by left]; [exact D2|by eapply chains_proc; [..|apply Hrep1]| |].
    + intros z Hne. by rewrite Hz.
    + cbn. apply lookup_insert_eq.
  - intros z Hne Hc. rewrite Hz by done. by apply Ho.
Qed.

(** Writing fields the queues do not depend on. *)
Lemma rep_wrp s sq rq p pr pr' :
  rep s sq rq → procs s !! p = Some pr → p_link pr' = p_link pr → p_wchan pr' = p_wchan pr →
  (p ∈ rq → has_flag SLOAD pr' = has_flag SLOAD pr) →
  (p_stat pr' = p_stat pr ∨ ((p_stat pr' = SSLEEP ∨ p_stat pr' = SSTOP) ∧ (p_stat pr = SSLEEP ∨ p_stat pr = SSTOP))) →
  rep (set_procs (<[p := pr']> (procs s)) s) sq rq.
Proof.
  intros (Hc & Ha & Hb & Hr) Hp El Ew Ef Es. assert (Hlk : ∀ z, z ≠ p → <[p := pr']> (procs s) !! z = procs s !! z)
    by (intros; by rewrite lookup_insert_ne). split; [|split; [|split]].
  - apply (chains_ext s); [|done|done|done]. intros z. unfold lnk. cbn.
    destruct (decide (z = p)) as [->|]; [rewrite lookup_insert_eq, Hp; cbn; by f_equal|by rewrite Hlk].
  - intros i z Hi Hin. destruct (Ha i z Hi Hin) as (q & Hq & H1 & H2 & H3). cbn. destruct (decide (z = p)) as [->|Hne].
    + simplify_eq. exists pr'. rewrite lookup_insert_eq, Ew. split; [done|]. split; [done|]. split; [done|].
      destruct Es as [->|[? _]]; done.
    + exists q. by rewrite Hlk.
  - intros z q. cbn. destruct (decide (z = p)) as [->|Hne].
    + rewrite lookup_insert_eq. intros [= <-]. rewrite Ew. by apply Hb.
    + rewrite Hlk by done. apply Hb.
  - intros z Hin. destruct (Hr z Hin) as (q & Hq & H1 & H2 & H3). cbn. destruct (decide (z = p)) as [->|Hne].
    + simplify_eq. exists pr'. rewrite lookup_insert_eq, Ew, Ef by done. split; [done|]. split; [done|]. split; [|done].
      destruct Es as [->|[_ [Hs|Hs]]]; [done| |]; rewrite H2 in Hs; done.
    + exists q. by rewrite Hlk.
Qed.
End setrun.

(** ** Posting to a process in any state *)

Section post.
Import User.
Import Signal.
Import SigSpec.
Context (RUNOUT : Z).

(** The queues are sound and no process sits at the null address. *)
Definition queued (s : sgst) : Prop :=
  (∃ sq rq, Sched.rep (kern (sy s)) sq rq) ∧ procs_of s !! 0 = None.

Definition same_sched (pr pr' : Sched.proc) : Prop :=
  Sched.p_link pr' = Sched.p_link pr ∧ Sched.p_wchan pr' = Sched.p_wchan pr ∧
  Sched.has_flag Sched.SLOAD pr' = Sched.has_flag Sched.SLOAD pr ∧ Sched.p_stat pr' = Sched.p_stat pr.

Lemma queued_put p pr pr' s :
  queued s → procs_of s !! p = Some pr → same_sched pr pr' → queued (put_proc p pr' s).
Proof.
  intros ((sq & rq & Hrep) & H0) Hp (E1 & E2 & E3 & E4). split.
  - exists sq, rq. eapply rep_wrp; [done|exact Hp|done|done|done|by left].
  - rewrite procs_put_ne; [done|]. intros ->. congruence.
Qed.

Lemma queued_nonzero p pr s : queued s → procs_of s !! p = Some pr → p ≠ 0.
Proof. intros (_ & H0) Hp ->. congruence. Qed.

(** What waking, stopping and posting leave alone. *)
Definition steady (pr : Sched.proc) :=
  (Cred.skel pr, Sched.p_uid pr, Sched.p_addr pr, Sched.p_pgrp pr,
   (Sched.p_sigmask pr, Sched.p_sigignore pr, Sched.p_sigcatch pr)).
Definition frame (k : Sched.kst Callout.cost) :=
  (steady <$> Sched.procs k, Sched.allproc k, Sched.zombproc k, Sched.freeproc k, Sched.pidhash k, Sched.u_procp k, Sched.ru_nvcsw k).

Notation kern_t := (Sched.kst Callout.cost).

Lemma keeps_frame_wrp p g : (∀ r, steady (g r) = steady r) → keeps frame (Sched.wrp (C := Callout.cost) p g).
Proof.
  intros Hg. apply keeps_store. intros s s'. destruct (Sched.procs s !! p) as [pr|] eqn:E; [|done]. intros [= <-].
  unfold frame. cbn. rewrite fmap_insert, Hg. do 6 f_equal. apply insert_id. by rewrite lookup_fmap, E.
Qed.

Lemma keeps_frame_slpque h v : keeps frame (store (λ s : kern_t, l ← aset (Sched.slpque s) h v; Some (Sched.set_slpque l s))).
Proof. apply keeps_store. intros s s'. destruct (aset _ _ _); [|done]. by intros [= <-]. Qed.

#[local] Hint Extern 1 (keeps frame (Sched.wrp _ _)) => (apply keeps_frame_wrp; intros; reflexivity) : frame.
#[local] Hint Resolve keeps_frame_slpque : frame.

Lemma keeps_frame_updatepri p : keeps frame (Sched.updatepri (C := Callout.cost) p).
Proof.
  assert (Hp : ∀ p, keeps frame (Sched.setpri (C := Callout.cost) p)) by (intros; unfold Sched.setpri; keeps_tac).
  assert (Hu : ∀ n p a, keeps frame (Sched.updatepri_loop (C := Callout.cost) n p a)).
  { intros n q. induction n; intros a; cbn [Sched.updatepri_loop]; keeps_tac. }
  unfold Sched.updatepri. keeps_tac.
Qed.
#[local] Hint Resolve keeps_frame_updatepri : frame.

Lemma keeps_frame_wakeup chan : keeps frame (Sched.wakeup (C := Callout.cost) RUNOUT chan).
Proof.
  assert (Hw : ∀ n c q, keeps frame (Sched.wakeup_loop (C := Callout.cost) RUNOUT n c q)).
  { induction n as [|n IH]; intros c q; cbn [Sched.wakeup_loop]; [keeps_tac|]. unfold Sched.rd_q, Sched.wr_q, Sched.setrq. keeps_tac. }
  unfold Sched.wakeup. keeps_tac.
Qed.
#[local] Hint Resolve keeps_frame_wakeup : frame.

Lemma keeps_frame_unsleep p : keeps frame (Sched.unsleep (C := Callout.cost) p).
Proof.
  assert (Hl : ∀ n h q, keeps frame (Sched.unsleep_loop (C := Callout.cost) n h q p)).
  { induction n as [|n IH]; intros h q; cbn [Sched.unsleep_loop]; [keeps_tac|]. unfold Sched.rd_q, Sched.wr_q. keeps_tac. }
  unfold Sched.unsleep. keeps_tac.
Qed.
#[local] Hint Resolve keeps_frame_unsleep : frame.

Lemma keeps_frame_setrun p : keeps frame (Sched.setrun (C := Callout.cost) RUNOUT p).
Proof. unfold Sched.setrun, Sched.setrq. keeps_tac. Qed.
#[local] Hint Resolve keeps_frame_setrun : frame.

Definition sframe (s : sgst) := frame (kern (sy s)).

Lemma keeps_sframe {A} (m : M kern_t A) : keeps frame m → keeps sframe (on_sys (on_kern m)).
Proof.
  intros Hm s a s'. unfold on_sys, on_kern. destruct (m (kern (sy s))) eqn:E; try done. intros [= <- <-]. by apply (Hm _ _ _ E).
Qed.

Lemma keeps_sframe_wrp p f : (∀ r, steady (f r) = steady r) → keeps sframe (wrp p f).
Proof. intros Hf. by apply keeps_sframe, keeps_frame_wrp. Qed.
#[local] Hint Extern 1 (keeps sframe (wrp _ _)) => (apply keeps_sframe_wrp; intros; reflexivity) : frame.

Lemma keeps_sframe_rdp p : keeps sframe (rdp p).
Proof. apply keeps_sframe. auto with frame. Qed.
#[local] Hint Resolve keeps_sframe_rdp : frame.

Lemma keeps_sframe_stop p : keeps sframe (stop RUNOUT p).
Proof. unfold stop. keeps_tac. apply keeps_sframe. auto with frame. Qed.
#[local] Hint Resolve keeps_sframe_stop : frame.

Lemma keeps_sframe_psignal p sig : keeps sframe (psignal RUNOUT p sig).
Proof.
  assert (Hr : ∀ p, keeps sframe (psignal_run RUNOUT p)).
  { intros q. unfold psignal_run. keeps_tac. apply keeps_sframe. auto with frame. }
  unfold psignal. generalize 2%nat as n. intros n. revert p sig. induction n as [|n IH]; intros p sig; cbn [psignal_level]; [keeps_tac|].
  unfold prop_of. keeps_tac. apply keeps_sframe. auto with frame.
Qed.

Lemma queued_kern (m : M kern_t unit) (Q : kern_t → Prop) s :
  queued s → keeps frame m → wp m (λ _ k, Q k ∧ ∃ sq rq, Sched.rep k sq rq) (kern (sy s)) →
  wp (on_sys (on_kern m)) (λ _ s', queued s' ∧ Q (kern (sy s'))) s.
Proof.
  intros (_ & H0) Hk Hm. apply wp_on_sys, wp_on_kern. eapply wp_mono; [apply (wp_frame frame _ _ _ Hk Hm)|].
  intros [] k ((HQ & Hrep) & Hfr). split; [|done]. split; [done|]. injection Hfr as Hst _ _ _ _ _ _.
  assert (E : steady <$> (Sched.procs k !! 0) = steady <$> (procs_of s !! 0)) by (unfold procs_of; by rewrite <- !lookup_fmap, Hst).
  rewrite H0 in E. by destruct (Sched.procs k !! 0) eqn:E'.
Qed.

Lemma others_put p pr s : others RUNOUT p (kern (sy s)) (kern (sy (put_proc p pr s))).
Proof. intros z Hz _. cbn. by rewrite lookup_insert_ne. Qed.

Lemma psignal_run_ok p pr s :
  queued s → procs_of s !! p = Some pr → (Sched.p_stat pr = Sched.SSLEEP ∨ Sched.p_stat pr = Sched.SSTOP) →
  wp (psignal_run RUNOUT p) (λ _ s', queued s' ∧ runnable p (kern (sy s')) ∧ others RUNOUT p (kern (sy s)) (kern (sy s'))) s.
Proof.
  intros Hq Hp Hst. unfold psignal_run. do 2 s_step. s_step. s_step.
  set (pr' := if _ <? _ then _ else pr). assert (Hsame : same_sched pr pr') by (unfold pr'; by destruct (_ <? _)).
  assert (Hq' : queued (put_proc p pr' s)) by (by eapply queued_put).
  apply (queued_kern _ (λ k, runnable p k ∧ others RUNOUT p (kern (sy s)) k)); [done|auto with frame|].
  pose proof Hq' as ((sq & rq & Hrep) & _). assert (Hst' : Sched.p_stat pr' = Sched.p_stat pr) by apply Hsame.
  eapply wp_mono; [eapply setrun_ok; [exact Hrep|apply (procs_put p pr' s)|exact (queued_nonzero _ _ _ Hq Hp)|rewrite Hst'; tauto]|].
  intros [] k (H1 & H2 & H3). split; [split; [done|]|done]. eapply quiet_trans; [|exact H2]. apply others_put.
Qed.

Lemma load_unwaited x : Z.land (x &~ P_WAITED) Sched.SLOAD = Z.land x Sched.SLOAD.
Proof.
  unfold Sched.SLOAD, P_WAITED. change 1 with (2 ^ 0). change 0x20 with (2 ^ 5). rewrite !land_pow2, Z.ldiff_spec by done.
  by rewrite Z.pow2_bits_false, andb_true_r by done.
Qed.

Lemma stop_ok p pr s :
  queued s → procs_of s !! p = Some pr → Sched.p_stat pr = Sched.SSLEEP → wp (stop RUNOUT p) (λ _ s', queued s') s.
Proof.
  intros Hq Hp Hst. unfold stop. do 6 s_step. set (pr' := Sched.set_p_flag _ _). pose proof Hq as ((sq & rq & Hrep) & H0).
  assert (Hq' : queued (put_proc p pr' s)).
  { split; [|rewrite procs_put_ne; [done|exact (queued_nonzero _ _ _ Hq Hp)]]. exists sq, rq.
    eapply rep_wrp; [done|exact Hp|done|done| |right; split; [by right|by left]].
    intros _. unfold Sched.has_flag. cbn. by rewrite load_unwaited. }
  eapply wp_mono; [apply (queued_kern _ (λ _, True)); [exact Hq'|auto with frame|]|by intros [] s' (? & _)].
  destruct Hq' as ((sq' & rq' & Hrep') & _). eapply wp_mono; [apply Sched.wakeup_ok, Hrep'|].
  intros [] k (b & D & sq2 & rq2 & H2 & _). eauto.
Qed.

(** The signal makes the process runnable. *)
Definition rouses (sig : Z) (pr : Sched.proc) : bool :=
  let mask := sigmask sig in
  let traced := Sched.has_flag P_TRACED pr in
  let act := psignal_action pr mask in
  let cont := sig =? SIGCONT in
  negb (discarded sig pr) &&
  (if Sched.p_stat pr =? Sched.SSLEEP then
     Sched.has_flag Sched.P_SINTR pr && negb (act =? SIG_HOLD) &&
     (traced || negb ((cont || stops sig) && (act =? SIG_DFL)))
   else
     (Sched.p_stat pr =? Sched.SSTOP) && negb traced && negb ((act =? SIG_HOLD) && negb cont) &&
     ((sig =? SIGKILL) || (cont && ((act =? SIG_CATCH) || (Sched.p_wchan pr =? 0))))).

(** The state machine of [psignal] once the signal is pending. *)
Definition dispatch (again : M sgst unit) (p sig : Z) (pr : Sched.proc) : M sgst unit :=
  let mask := sigmask sig in
  let traced := Sched.has_flag P_TRACED pr in
  let action := psignal_action pr mask in
  let prop := prop sig in
  if Sched.p_stat pr =? Sched.SSLEEP then
    if negb (Sched.has_flag Sched.P_SINTR pr) then mret tt
    else if traced then psignal_run RUNOUT p
    else if bit prop SA_CONT && (action =? SIG_DFL) then wrp p (set_p_sig (λ x, x &~ mask))
    else if bit prop SA_STOP then
      if negb (action =? SIG_DFL) then psignal_run RUNOUT p
      else if Sched.has_flag SVFORK pr then mret tt
      else
        wrp p (set_p_sig (λ x, x &~ mask));;
        wrp p (set_p_ptracesig sig);;
        parent ← rdp (Sched.p_pptr pr);
        when (negb (Sched.has_flag P_NOCLDSTOP parent)) again;;
        stop RUNOUT p
    else psignal_run RUNOUT p
  else if Sched.p_stat pr =? Sched.SSTOP then
    if traced then mret tt
    else if sig =? SIGKILL then psignal_run RUNOUT p
    else if bit prop SA_CONT then
      when (action =? SIG_DFL) (wrp p (set_p_sig (λ x, x &~ mask)));;
      if (action =? SIG_CATCH) || (Sched.p_wchan pr =? 0) then psignal_run RUNOUT p
      else wrp p (Sched.set_p_stat Sched.SSLEEP)
    else if bit prop SA_STOP then wrp p (set_p_sig (λ x, x &~ mask))
    else when (negb (Sched.p_wchan pr =? 0) && Sched.has_flag Sched.P_SINTR pr)
           (on_sys (on_kern (Sched.unsleep p)))
  else mret tt.

(** [pr] is the entry read at the start; since then only [p_sig] and [p_nice]
    have changed. *)
Definition outcome_ok (p sig : Z) (pr : Sched.proc) (s s' : sgst) : Prop :=
  queued s' ∧ (rouses sig pr = true → runnable p (kern (sy s'))) ∧
  (stops sig = false → others RUNOUT p (kern (sy s)) (kern (sy s'))).

Lemma unsleep_queued p pr s :
  queued s → procs_of s !! p = Some pr →
  wp (on_sys (on_kern (Sched.unsleep p))) (λ _ s', queued s' ∧ others RUNOUT p (kern (sy s)) (kern (sy s'))) s.
Proof.
  intros Hq Hp. apply (queued_kern _ (λ k, others RUNOUT p (kern (sy s)) k)); [exact Hq|auto with frame|].
  destruct Hq as ((sq & rq & Hrep) & _). eapply unsleep_ok; [exact Hrep|exact Hp|]. intros k sq' Hk (Ho & _).
  split; [|eauto]. intros z Hz _. by apply Ho.
Qed.

Lemma outcome_put p sig pr q pr' s :
  queued s → procs_of s !! p = Some q → same_sched q pr' → rouses sig pr = false → outcome_ok p sig pr s (put_proc p pr' s).
Proof. intros Hq Hp Hs Hr. split; [by eapply queued_put|]. rewrite Hr. split; [done|]. intros _. apply others_put. Qed.

Lemma outcome_same p sig pr s : queued s → rouses sig pr = false → outcome_ok p sig pr s s.
Proof. intros Hq Hr. split; [done|]. rewrite Hr. done. Qed.

Lemma outcome_run p sig pr q s :
  queued s → procs_of s !! p = Some q → (Sched.p_stat q = Sched.SSLEEP ∨ Sched.p_stat q = Sched.SSTOP) →
  wp (psignal_run RUNOUT p) (λ _ s', outcome_ok p sig pr s s') s.
Proof. intros Hq Hp Hst. eapply wp_mono; [by eapply psignal_run_ok|]. intros [] s' (? & ? & ?). done. Qed.

Lemma dispatch_ok again p sig pr q s :
  queued s → procs_of s !! p = Some q → same_sched pr q → 0 < sig < NSIG → discarded sig pr = false →
  (psignal_action pr (sigmask sig) =? SIG_HOLD) && (negb (sig =? SIGCONT) || negb (Sched.p_stat pr =? Sched.SSTOP)) = false →
  (stops sig = true → Sched.p_stat pr = Sched.SSLEEP →
     is_Some (procs_of s !! Sched.p_pptr pr) ∧
     ∀ s', queued s' → procs_of s' = procs_of (put_proc p (set_p_ptracesig sig (set_p_sig (λ x, x &~ sigmask sig) q)) s) →
       wp again (λ _ s2, queued s2 ∧ ∃ q2, procs_of s2 !! p = Some q2 ∧ Sched.p_stat q2 = Sched.SSLEEP) s') →
  wp (dispatch again p sig pr) (λ _ s', outcome_ok p sig pr s s') s.
Proof.
  intros Hq Hp Hsame Hs Hdis Hhold Hagain. pose proof Hsame as (_ & Ew & _ & Est).
  destruct (prop_flags sig) as (Hc & Hst & _); [lia|]. unfold dispatch. rewrite Hc, Hst.
  set (act := psignal_action pr (sigmask sig)) in *. set (tr := Sched.has_flag P_TRACED pr).
  destruct (Z.eqb_spec (Sched.p_stat pr) Sched.SSLEEP) as [E|E].
  - assert (Hr : rouses sig pr = Sched.has_flag Sched.P_SINTR pr && negb (act =? SIG_HOLD) &&
      (tr || negb (((sig =? SIGCONT) || stops sig) && (act =? SIG_DFL)))) by (unfold rouses; by rewrite Hdis, E).
    destruct (Sched.has_flag Sched.P_SINTR pr); cbn [negb andb] in *; [|s_step; by apply outcome_same].
    assert (Hrun : wp (psignal_run RUNOUT p) (λ _ s', outcome_ok p sig pr s s') s) by (eapply outcome_run; [done|exact Hp|left; congruence]).
    destruct tr; [done|]. cbn [orb] in Hr.
    destruct ((sig =? SIGCONT) && (act =? SIG_DFL)) eqn:Ec.
    { s_step. eapply outcome_put; [done|exact Hp|done|]. rewrite Hr. to_prop. rewrite (proj2 (Z.eqb_eq _ _) H), (proj2 (Z.eqb_eq _ _) H0).
      by rewrite andb_false_r. }
    destruct (stops sig) eqn:Es; [|done]. rewrite orb_true_r in Hr. cbn [andb] in Hr.
    destruct (act =? SIG_DFL) eqn:Ed; cbn [negb]; [|done]. cbn [negb] in Hr. rewrite andb_false_r in Hr.
    destruct (Sched.has_flag SVFORK pr); [s_step; by apply outcome_same|].
    destruct (Hagain eq_refl E) as (Hpar & Hag). do 4 s_step. set (q1 := set_p_ptracesig sig _).
    assert (Hq1 : queued (put_proc p q1 s)) by (by eapply queued_put).
    assert (Hpp : ∃ pp, procs_of (put_proc p q1 s) !! Sched.p_pptr pr = Some pp).
    { destruct (decide (p = Sched.p_pptr pr)) as [<-|]; [exists q1; apply procs_put|by rewrite procs_put_ne]. }
    destruct Hpp as (pp & Hpp). do 3 s_step.
    eapply (wp_mono _ (λ _ s2, queued s2 ∧ ∃ q2, procs_of s2 !! p = Some q2 ∧ Sched.p_stat q2 = Sched.SSLEEP)).
    + apply wp_when; intros _; [by apply Hag|]. split; [done|]. exists q1. split; [apply procs_put|]. cbn. congruence.
    + intros [] s2 (H2 & q2 & Hq2 & Hs2). eapply wp_mono; [by eapply stop_ok|]. intros [] s3 H3. split; [done|]. rewrite Hr, Es. done.
  - assert (Hr : rouses sig pr = (Sched.p_stat pr =? Sched.SSTOP) && negb tr && negb ((act =? SIG_HOLD) && negb (sig =? SIGCONT)) &&
      ((sig =? SIGKILL) || ((sig =? SIGCONT) && ((act =? SIG_CATCH) || (Sched.p_wchan pr =? 0)))))
      by (unfold rouses; by rewrite Hdis, (proj2 (Z.eqb_neq _ _) E)).
    destruct (Z.eqb_spec (Sched.p_stat pr) Sched.SSTOP) as [E2|E2]; cbn [andb] in Hr; [|s_step; by apply outcome_same].
    assert (Hrun : ∀ q', same_sched q q' → wp (psignal_run RUNOUT p) (λ _ s', outcome_ok p sig pr s s') (put_proc p q' s)).
    { intros q' Hsq. pose proof Hsq as (_ & _ & _ & E'). eapply wp_mono.
      - eapply (outcome_run p sig pr q'); [by eapply queued_put|apply procs_put|right; congruence].
      - intros [] s' (H1 & H2 & H3). split; [done|]. split; [done|]. intros Es. eapply quiet_trans; [apply others_put|by apply H3]. }
    destruct tr; cbn [negb andb] in *; [s_step; by apply outcome_same|].
    destruct (Z.eqb_spec sig SIGKILL) as [->|Hnk].
    { assert (H := Hrun q ltac:(done)). by rewrite (put_id p q s Hp) in H. }
    destruct (Z.eqb_spec sig SIGCONT) as [->|Hnc]; cbn [andb orb negb] in *.
    + do 2 s_step. set (q1 := if act =? SIG_DFL then _ else q).
      assert (Hq1 : same_sched q q1) by (unfold q1; by destruct (act =? SIG_DFL)).
      destruct ((act =? SIG_CATCH) || (Sched.p_wchan pr =? 0)) eqn:Ew'; [by apply Hrun|].
      s_step. rewrite andb_false_r in Hr. split; [|rewrite Hr; split; [done|intros _; apply others_put]].
      pose proof Hq as ((sq & rq & Hrep) & H0). split; [|rewrite procs_put_ne; [done|exact (queued_nonzero _ _ _ Hq Hp)]].
      exists sq, rq. destruct Hq1 as (F1 & F2 & F3 & F4).
      eapply rep_wrp; [done|exact Hp|done|done|done|right]. split; [by left|right; congruence].
    + rewrite andb_false_r in Hr. destruct (stops sig); [s_step; by eapply outcome_put|].
      apply wp_when; intros _; [|by apply outcome_same]. eapply wp_mono; [by eapply unsleep_queued|].
      intros [] s' (H1 & H2). split; [done|]. rewrite Hr. done.
Qed.

(** The entry with the signal pending. *)
Lemma psignal_body n p sig pr s :
  queued s → procs_of s !! p = Some pr → 0 < sig < NSIG →
  (∀ q, same_sched pr q → stops sig = true → Sched.p_stat pr = Sched.SSLEEP →
     is_Some (procs_of s !! Sched.p_pptr pr) ∧
     ∀ s', queued s' → procs_of s' = procs_of (put_proc p q s) →
       wp (psignal_level RUNOUT n (Sched.p_pptr pr) SIGCHLD)
         (λ _ s2, queued s2 ∧ ∃ q2, procs_of s2 !! p = Some q2 ∧ Sched.p_stat q2 = Sched.SSLEEP) s') →
  wp (psignal_level RUNOUT (S n) p sig) (λ _ s', outcome_ok p sig pr s s') s.
Proof.
  intros Hq Hp Hs Hagain. destruct (prop_flags sig) as (Hc & Hst & Htt); [lia|]. cbn [psignal_level].
  s_step. apply wp_prop_of; [lia|]. fold (prop sig). do 2 s_step.
  destruct (negb _ && bit _ _) eqn:Hign.
  { s_step. apply outcome_same; [done|]. unfold rouses, discarded. by rewrite Hign. }
  do 4 s_step. match goal with |- context [put_proc p ?x s] => set (pr1 := x) end.
  assert (H1 : same_sched pr pr1) by (unfold pr1; by repeat case_match).
  destruct (bit (prop sig) SA_STOP && _) eqn:Hdisc.
  { s_step. eapply outcome_put; [done|exact Hp|done|]. unfold rouses, discarded. rewrite Hst, Htt in Hdisc. rewrite Hign.
    destruct (stops sig); [|done]. cbn [andb orb] in Hdisc |- *. by rewrite Hdisc. }
  do 4 s_step. match goal with |- context [put_proc p ?x s] => set (pr2 := x) end. assert (H2 : same_sched pr pr2) by (unfold pr2; destruct (bit (prop sig) SA_STOP); exact H1).
  assert (Hdis : discarded sig pr = false).
  { unfold discarded. rewrite Hign. rewrite Hst, Htt in Hdisc. by destruct (stops sig). }
  assert (Hq2 : queued (put_proc p pr2 s)) by (by eapply queued_put).
  destruct ((_ =? SIG_HOLD) && _) eqn:Hhold.
  { s_step. split; [done|]. split; [|intros _; apply others_put]. intros Hr. exfalso. unfold rouses in Hr. rewrite Hc in Hhold.
    apply andb_true_iff in Hhold as (Hh & Hh2). rewrite Hh in Hr. rewrite Hdis in Hr. cbn [negb andb] in Hr.
    destruct (Sched.p_stat pr =? Sched.SSLEEP); [by rewrite andb_false_r in Hr|].
    destruct (Sched.p_stat pr =? Sched.SSTOP); [|done]. cbn [negb] in Hh2. rewrite orb_false_r in Hh2. rewrite Hh2 in Hr.
    cbn in Hr. by rewrite andb_false_r in Hr. }
  eapply wp_mono; [eapply (dispatch_ok (psignal_level RUNOUT n (Sched.p_pptr pr) SIGCHLD) p sig pr pr2)|];
    [done|apply procs_put|done|done|done|by rewrite <- Hc| |].
  - intros Hstp Hsl. destruct (Hagain (set_p_ptracesig sig (set_p_sig (λ x, x &~ sigmask sig) pr2)) H2 Hstp Hsl) as (Hpar & Hag). split.
    + destruct (decide (p = Sched.p_pptr pr)) as [<-|]; [by rewrite procs_put|by rewrite procs_put_ne].
    + intros s' Hs' E. apply Hag; [done|]. by rewrite put_put in E.
  - intros [] s' (R1 & R2 & R3). split; [done|]. split; [done|]. intros Hns. eapply quiet_trans; [apply others_put|by apply R3].
Qed.

Lemma psignal_nostop n p sig pr s :
  queued s → procs_of s !! p = Some pr → 0 < sig < NSIG → stops sig = false →
  wp (psignal_level RUNOUT (S n) p sig) (λ _ s', outcome_ok p sig pr s s') s.
Proof. intros Hq Hp Hs Hns. apply psignal_body; [done|done|done|]. intros q _ Hst. congruence. Qed.

(** C24: A signal may be posted to a process in any state: [psignal] ends without
    a panic or a bad pointer, the sleep queues and the run queue stay as they
    have to be, exactly the processes with a channel on the queue of their
    channel and only runnable ones in core on the run queue, and the lists, the
    hash table, the ancestry and the masks of all processes are unchanged.  A
    process asleep at an interruptible priority that the signal concerns, and a
    stopped process killed or continued, is off its channel and runnable
    afterwards.  (A process the signal stops in its sleep has a parent, which is
    told, and is not the swapper asleep on [&runout].) *)
Theorem psignal_queues p sig pr s :
  queued s → procs_of s !! p = Some pr → 0 < sig < NSIG →
  (stops sig = true → Sched.p_stat pr = Sched.SSLEEP →
     is_Some (procs_of s !! Sched.p_pptr pr) ∧ Sched.p_pptr pr ≠ p ∧ Sched.p_wchan pr ≠ RUNOUT) →
  wp (psignal RUNOUT p sig)
    (λ _ s', (queued s' ∧ (rouses sig pr = true → runnable p (kern (sy s')))) ∧ sframe s' = sframe s) s.
Proof.
  intros Hq Hp Hs Hstop. apply wp_frame; [apply keeps_sframe_psignal|]. unfold psignal.
  eapply wp_mono; [apply (psignal_body 1); [done|exact Hp|done|]|by intros [] s' (? & ? & _)].
  intros q Hsame Hst Hsl. destruct (Hstop Hst Hsl) as (Hpar & Hne & Hch). split; [done|]. destruct Hpar as (pp & Hpp).
  intros s1 Hq1 E1. eapply wp_mono; [apply psignal_nostop; [done| |done|done]|].
  - rewrite E1, procs_put_ne by done. exact Hpp.
  - intros [] s2 (H1 & _ & H3). split; [done|]. specialize (H3 eq_refl p). unfold procs_of in E1.
    assert (Hp1 : Sched.procs (kern (sy s1)) !! p = Some q) by (rewrite E1; apply procs_put).
    destruct Hsame as (_ & Ew & _ & Es). specialize (H3 ltac:(done)). rewrite (Sched.chan_of_Some _ _ _ Hp1), Hp1, Ew in H3.
    specialize (H3 Hch). unfold procs_of. destruct (Sched.procs (kern (sy s2)) !! p) as [q2|]; [|done].
    apply (inj Some) in H3. destruct (Sched.nolink_wchan _ _ H3) as (_ & E2 & _). exists q2. split; [done|]. congruence.
Qed.

End post.

(** Process 4 of the example sleeps interruptibly. *)
Definition demo_sleeper : Sched.proc := Sched.demo_proc 5 Sched.SSLEEP 60 0 5 576 (Z.lor Sched.SLOAD Sched.P_SINTR) 4 0 0.
Definition demo_asleep : Signal.sgst := SigSpec.put_proc 4 demo_sleeper SigSpec.demo.

Lemma demo_asleep_queued : queued demo_asleep.
Proof. split; [|done]. exists Sched.demo_sq, [6; 7]. apply Sched.rep_check_sound. vm_compute. reflexivity. Qed.

Lemma psignal_queues_witness :
  wp (Signal.psignal 96 4 15)
    (λ _ s', (queued s' ∧ (true = true → runnable 4 (User.kern (Signal.sy s')))) ∧ sframe s' = sframe demo_asleep) demo_asleep.
Proof. by apply (psignal_queues 96 4 15 demo_sleeper demo_asleep demo_asleep_queued). Defined.
End Run.
