(* ===== verification/Swap.v ===== *)
(** * Swapping and memory size (sys/kernel/vm_swap.c, vm_swp.c, vm_sched.c, kern_mman.c)

    The memory of a PIC32 holds one user process: its data at the bottom of user
    memory, its stack at the top, and its user structure in the buffer [u0].
    All others wait on the swap device.  [swapout] writes the three pieces of a
    process to ranges taken from the resource map of the device, [swapin] brings
    them back and returns the ranges, and [sched], process 0, decides which two
    processes change places.

    The strategy routine of the swap device is a parameter.  It answers whether
    the transfer failed, after waiting for it; the buffer header [swap] borrows
    from the cache for the request is not part of the state here. *)

From S2P Require Import Prelude Links Callout Sched User Clock Cred Signal Rmap.

Module Swap.
Import User Signal.

Definition DEV_BSIZE : Z := 1024.
Definition DEV_BSHIFT : Z := 10.
Definition USIZE : Z := 3072.
Definition MAXMEM : Z := 96 * 1024.
Definition SLOCK : Z := 0x0004.
Definition SVFPRNT : Z := 0x0200.
Definition X_OLDSIZE : Z := u32 (-1).

Definition u16 (x : Z) : Z := x `mod` 2 ^ 16.
Definition btod (x : Z) : Z := Z.shiftr (u32 (x + DEV_BSIZE - 1)) DEV_BSHIFT.

(** The counters of [struct vmmeter], [u_short] each. *)
Record meter := Meter { v_swpin : Z; v_swpout : Z; v_kbin : Z; v_kbout : Z }.

(** [swapdev] is the swap device as bytes. *)
Record vst := VS {
  sg : sgst;
  swapmap : Rmap.map;
  swapdev : gmap Z Z;
  cnt : meter
}.

Notation K := (M vst).

Definition set_sg (v : sgst) (s : vst) : vst := VS v (swapmap s) (swapdev s) (cnt s).
Definition set_swapmap (v : Rmap.map) (s : vst) : vst := VS (sg s) v (swapdev s) (cnt s).
Definition set_swapdev (v : gmap Z Z) (s : vst) : vst := VS (sg s) (swapmap s) v (cnt s).
Definition set_cnt (v : meter) (s : vst) : vst := VS (sg s) (swapmap s) (swapdev s) v.

Definition on_sg {A} (m : M sgst A) : K A := λ s,
  match m (sg s) with
  | Ret a g => Ret a (set_sg g s)
  | Panic msg g => Panic msg (set_sg g s)
  | Fault => Fault
  | NoFuel => NoFuel
  end.
Definition on_map {A} (m : M Rmap.map A) : K A := λ s,
  match m (swapmap s) with
  | Ret a g => Ret a (set_swapmap g s)
  | Panic msg g => Panic msg (set_swapmap g s)
  | Fault => Fault
  | NoFuel => NoFuel
  end.

Definition rdp (p : Z) : K Sched.proc := on_sg (Signal.rdp p).
Definition wrp (p : Z) (f : Sched.proc → Sched.proc) : K unit := on_sg (Signal.wrp p f).
Definition rdg (p : Z) : K segments := on_sg (Signal.rdg p).
Definition wrg (p : Z) (g : segments) : K unit := on_sg (Signal.wrg p g).
Definition kget {A} (f : Sched.kst Callout.cost → A) : K A := gets (λ s, f (kern (sy (sg s)))).
Definition on_k {A} (m : M (Sched.kst Callout.cost) A) : K A := on_sg (on_sys (on_kern m)).
Definition count (f : meter → meter) : K unit := modify (λ s, set_cnt (f (cnt s)) s).

Definition set_p_addr (v : Z) (p : Sched.proc) : Sched.proc :=
  Sched.Proc (Sched.p_nxt p) (Sched.p_pptr p) (Sched.p_flag p) (Sched.p_uid p) (Sched.p_pid p) (Sched.p_ppid p) (Sched.p_stat p) (Sched.p_pri p) (Sched.p_cpu p) (Sched.p_time p) (Sched.p_nice p) (Sched.p_slptime p) (Sched.p_hash p) (Sched.p_link p) v (Sched.p_wchan p) (Sched.p_rtval p) (Sched.p_rtint p) (Sched.p_pgrp p) (Sched.p_sig p) (Sched.p_sigmask p) (Sched.p_sigignore p) (Sched.p_sigcatch p) (Sched.p_ptracesig p).
Definition or_flag (f : Z) (p : Sched.proc) : Sched.proc := Sched.set_p_flag (Z.lor (Sched.p_flag p) f) p.
Definition and_not_flag (f : Z) (p : Sched.proc) : Sched.proc := Sched.set_p_flag (Sched.p_flag p &~ f) p.
Definition bump_nswap (r : k_rusage) : k_rusage :=
  KR (ru_utime r) (ru_stime r) (s32 (ru_nswap r + 1)) (ru_inblock r) (ru_oublock r) (ru_msgsnd r) (ru_msgrcv r) (ru_nsignals r) (ru_nvcsw r) (ru_nivcsw r).

(** [bzero] *)
Fixpoint bzero (n : nat) (m : gmap Z Z) (a : Z) : gmap Z Z :=
  match n with O => m | S n' => <[a := 0]> (bzero n' m (a + 1)) end.

Definition brk (naddr : Z) : K unit :=
  p ← on_sg u_procp;
  g ← rdg p;
  let newsize := s32 (u32 naddr - p_daddr g) in
  let newsize := if newsize <? 0 then 0 else newsize in
  c ← gets (λ s, cx (sg s));
  if MAXMEM <? u32 (u_tsize c + newsize + u_ssize c) then on_sg (err ENOMEM)
  else
    wrg p (Seg (p_daddr g) (p_saddr g) newsize (p_ssize g));;
    let d := s32 (newsize - u_dsize c) in
    when (0 <? d)
      (on_sg (on_sys (modify (λ y, set_mem (bzero (Z.to_nat d) (mem y) (u32 (p_daddr g + u_dsize c))) y))));;
    on_sg (upd_cx (set_u_dsize newsize));;
    on_sg (on_sys (upd_usr (set_u_rval (s32 (p_daddr g + newsize))))).

Section swap.
(** [&runin], [&runout] and [&u0]. *)
Context (RUNIN RUNOUT U0 : Z).
(** Reading or writing [count] bytes at an address; [true] on failure. *)
Context (strategy : bool → Z → Z → Z → K bool).

(** [count -= count] ends the loop after one transfer. *)
Definition swap (blkno coreaddr n : Z) (rd : bool) : K unit :=
  let kb := (n + 1023) ÷ 1024 in
  count (λ c, if rd then Meter (v_swpin c) (v_swpout c) (u16 (v_kbin c + kb)) (v_kbout c)
              else Meter (v_swpin c) (v_swpout c) (v_kbin c) (u16 (v_kbout c + kb)));;
  if n =? 0 then mret tt
  else
    bad ← strategy rd blkno coreaddr n;
    if bad : bool then panic "hard err: swap" else mret tt.

Definition swapin (p : Z) : K unit :=
  g ← rdg p;
  let daddr := USER_DATA_START in
  let saddr := u32 (USER_DATA_END - p_ssize g) in
  when (negb (p_dsize g =? 0))
    (swap (p_daddr g) daddr (p_dsize g) true;;
     on_map (Rmap.mfree (btod (p_dsize g)) (p_daddr g)));;
  when (negb (p_ssize g =? 0))
    (swap (p_saddr g) saddr (p_ssize g) true;;
     on_map (Rmap.mfree (btod (p_ssize g)) (p_saddr g)));;
  pr ← rdp p;
  swap (Sched.p_addr pr) U0 USIZE true;;
  on_map (Rmap.mfree (btod USIZE) (Sched.p_addr pr));;
  wrg p (Seg daddr saddr (p_dsize g) (p_ssize g));;
  wrp p (set_p_addr U0);;
  pr ← rdp p;
  when (Sched.p_stat pr =? Sched.SRUN) (on_k (Sched.setrq p));;
  wrp p (or_flag Sched.SLOAD);;
  wrp p (Sched.set_p_time 0);;
  count (λ c, Meter (u16 (v_swpin c + 1)) (v_swpout c) (v_kbin c) (v_kbout c)).

(** [freecore] is not looked at. *)
Definition swapout (p odata ostack : Z) : K unit :=
  g ← rdg p;
  let odata := if odata =? X_OLDSIZE then p_dsize g else odata in
  let ostack := if ostack =? X_OLDSIZE then p_ssize g else ostack in
  '(r, a) ← on_map (Rmap.malloc3 (btod (p_dsize g)) (btod (p_ssize g)) (btod USIZE) [0; 0; 0]);
  if r =? 0 then panic "out of swap space"
  else
    wrp p (or_flag SLOCK);;
    a0 ← load (λ _, aget a 0);
    a1 ← load (λ _, aget a 1);
    a2 ← load (λ _, aget a 2);
    when (negb (odata =? 0)) (swap a0 (p_daddr g) odata false);;
    when (negb (ostack =? 0)) (swap a1 (p_saddr g) ostack false);;
    on_sg (on_sys (upd_usr (λ x, set_u_ru (bump_nswap (u_ru x)) x)));;
    pr ← rdp p;
    swap a2 (Sched.p_addr pr) USIZE false;;
    wrg p (Seg a0 a1 (p_dsize g) (p_ssize g));;
    wrp p (set_p_addr a2);;
    wrp p (and_not_flag (Z.lor Sched.SLOAD SLOCK));;
    wrp p (Sched.set_p_time 0);;
    count (λ c, Meter (v_swpin c) (u16 (v_swpout c + 1)) (v_kbin c) (v_kbout c));;
    ro ← kget Sched.runout;
    when (negb (ro =? 0)) (on_k (modify (Sched.set_runout 0));; on_k (Sched.wakeup RUNOUT RUNOUT)).

(** The search for the process to swap in: [(swapped_out, out_time)]. *)
Fixpoint sched_ready (fuel : nat) (rp swapped_out out_time : Z) : K (Z * Z) :=
  match fuel with
  | O => nofuel
  | S f =>
      if rp =? 0 then mret (swapped_out, out_time)
      else
        pr ← rdp rp;
        if negb (Sched.p_stat pr =? Sched.SRUN) || Sched.has_flag Sched.SLOAD pr then
          sched_ready f (Sched.p_nxt pr) swapped_out out_time
        else
          let rptime := Sched.p_time pr - Sched.p_nice pr * 8 in
          if (out_time <? rptime) || Sched.has_flag SVFPRNT pr then
            if Sched.has_flag SVFPRNT pr then mret (rp, rptime)
            else sched_ready f (Sched.p_nxt pr) rp rptime
          else sched_ready f (Sched.p_nxt pr) swapped_out out_time
  end.

(** The search for the process in core. *)
Fixpoint sched_loaded (fuel : nat) (rp : Z) : K Z :=
  match fuel with
  | O => nofuel
  | S f =>
      if rp =? 0 then mret 0
      else
        pr ← rdp rp;
        if negb (Sched.p_stat pr =? Sched.SZOMB) && (Z.land (Sched.p_flag pr) (Z.lor SSYS Sched.SLOAD) =? Sched.SLOAD)
        then mret rp
        else sched_loaded f (Sched.p_nxt pr)
  end.

(** May the process in core be swapped out for one that has waited [out_time]? *)
Definition evictable (pr : Sched.proc) (out_time : Z) : bool :=
  negb (Sched.has_flag SLOCK pr) &&
  ((Sched.p_stat pr =? Sched.SSTOP) ||
   ((Sched.p_stat pr =? Sched.SSLEEP) && Sched.has_flag Sched.P_SINTR pr) ||
   (((Sched.p_stat pr =? Sched.SRUN) || (Sched.p_stat pr =? Sched.SSLEEP)) && (2 <=? out_time) &&
    (1 <=? Sched.p_time pr + Sched.p_nice pr))).

(** Sleeping until a channel is woken, in process 0. *)
Context (pause : Z → K unit).

(** The choice of the loop of [sched]: the processes to swap out and in. *)
Definition sched_choose : K (Z * Z) :=
  n ← kget (λ k, size (Sched.procs k));
  head ← kget Sched.allproc;
  '(swapped_out, out_time) ← sched_ready (S n) head 0 (-20000);
  if swapped_out =? 0 then
    on_k (modify (λ k, Sched.set_runout (s8 (Sched.runout k + 1)) k));;
    pause RUNOUT;;
    mret (0, 0)
  else
    head ← kget Sched.allproc;
    in_core ← sched_loaded (S n) head;
    if in_core =? 0 then mret (0, swapped_out)
    else
      pr ← rdp in_core;
      if evictable pr out_time then
        wrp in_core (and_not_flag Sched.SLOAD);;
        when (Sched.p_stat pr =? Sched.SRUN) (on_k (Sched.remrq in_core));;
        mret (in_core, swapped_out)
      else
        on_k (modify (λ k, Sched.set_runin (s8 (Sched.runin k + 1)) k));;
        pause RUNIN;;
        mret (0, 0).

(** One turn of the loop of [sched]. *)
Definition sched_swap (in_core swapped_out : Z) : K unit :=
  when (negb (in_core =? 0)) (swapout in_core X_OLDSIZE X_OLDSIZE);;
  when (negb (swapped_out =? 0)) (swapin swapped_out).
Definition sched_turn (in_core swapped_out : Z) : K (Z * Z) :=
  sched_swap in_core swapped_out;;
  sched_choose.
End swap.
End Swap.
