(* ===== verification/SwapSpec.v ===== *)
(** * What swapping preserves

    The image of a process is its data, its stack and its user structure,
    wherever they are.  [layout] says where: one process may be in core, the
    others have disjoint ranges of the swap device that the resource map does
    not count as free.  Exchanging two processes moves images without changing
    any of them. *)

From S2P Require Import Prelude Links Callout Sched User Clock Cred Signal SigSpec Run Rmap Swap.

Module SwapSpec.
Import User Signal SigSpec Swap.

(** ** Bytes *)

(** [n] bytes copied from [src] at [a] to [dst] at [b]. *)
Fixpoint blit (n : nat) (src : gmap Z Z) (a : Z) (dst : gmap Z Z) (b : Z) : gmap Z Z :=
  match n with O => dst | S n' => <[b := ldb src a]> (blit n' src (a + 1) dst (b + 1)) end.

Definition bytes (m : gmap Z Z) (a n : Z) : list Z := (λ i, ldb m (a + i)) <$> seqZ 0 n.

Lemma ldb_blit n src a dst b x :
  ldb (blit n src a dst b) x = if (b <=? x) && (x <? b + Z.of_nat n) then ldb src (a + (x - b)) else ldb dst x.
Proof.
  revert a b. induction n as [|n IH]; intros a b; cbn [blit].
  - by destruct (Z.leb_spec b x), (Z.ltb_spec x (b + Z.of_nat 0)); try lia.
  - unfold ldb at 1. destruct (decide (x = b)) as [->|Hne].
    + rewrite lookup_insert_eq. destruct (Z.leb_spec b b), (Z.ltb_spec b (b + Z.of_nat (S n))); try lia.
      cbn. f_equal. lia.
    + rewrite lookup_insert_ne by done. fold (ldb (blit n src (a + 1) dst (b + 1)) x). rewrite IH.
      destruct (Z.leb_spec (b + 1) x), (Z.leb_spec b x), (Z.ltb_spec x (b + 1 + Z.of_nat n)), (Z.ltb_spec x (b + Z.of_nat (S n)));
        try lia; cbn [andb]; try done. f_equal. lia.
Qed.

Lemma bytes_ext m m' a a' n : (∀ i, 0 ≤ i < n → ldb m (a + i) = ldb m' (a' + i)) → bytes m a n = bytes m' a' n.
Proof.
  intros H. unfold bytes. apply list_fmap_ext. intros i x Hx. apply lookup_seqZ in Hx as (-> & ?). apply H. lia.
Qed.

Lemma bytes_blit n src a dst b : 0 ≤ n → bytes (blit (Z.to_nat n) src a dst b) b n = bytes src a n.
Proof.
  intros Hn. apply bytes_ext. intros i Hi. rewrite ldb_blit.
  destruct (Z.leb_spec b (b + i)), (Z.ltb_spec (b + i) (b + Z.of_nat (Z.to_nat n))); try lia. cbn. f_equal. lia.
Qed.

Lemma bytes_blit_ne n src a dst b c m : 0 ≤ n → (n = 0 ∨ m ≤ 0 ∨ b + n ≤ c ∨ c + m ≤ b) →
  bytes (blit (Z.to_nat n) src a dst b) c m = bytes dst c m.
Proof.
  intros Hn Hd. apply bytes_ext. intros i Hi. rewrite ldb_blit.
  destruct (Z.leb_spec b (c + i)), (Z.ltb_spec (c + i) (b + Z.of_nat (Z.to_nat n))); try lia; done.
Qed.

Lemma btod_spec n : 0 ≤ n ≤ MAXMEM → n ≤ DEV_BSIZE * btod n < n + DEV_BSIZE.
Proof.
  unfold MAXMEM, btod, DEV_BSIZE, DEV_BSHIFT. intros Hn. rewrite u32_id by (unfold is_u32; lia).
  rewrite Z.shiftr_div_pow2 by done. change (2 ^ 10) with 1024. pose proof (Z.div_mod (n + 1024 - 1) 1024) as H.
  pose proof (Z.mod_pos_bound (n + 1024 - 1) 1024). lia.
Qed.

Lemma btod_0 : btod 0 = 0.
Proof. done. Qed.
Lemma btod_usize : btod USIZE = 3.
Proof. done. Qed.

(** ** Where the images are *)

(** What the placement depends on: [p_addr], the segments, memory, the device
    and its map. *)
Record view := View {
  v_addr : gmap Z Z;
  v_segs : gmap Z segments;
  v_mem : gmap Z Z;
  v_dev : gmap Z Z;
  v_map : Rmap.map
}.

Definition view_of (s : vst) : view :=
  View (Sched.p_addr <$> procs_of (sg s)) (segs (cx (sg s))) (mem (sy (sg s))) (swapdev s) (swapmap s).

(** Addresses and sizes of data, stack and user structure. *)
Definition pieces (g : segments) (addr : Z) : list (Z * Z) :=
  [(p_daddr g, p_dsize g); (p_saddr g, p_ssize g); (addr, USIZE)].
Definition placed (v : view) (p : Z) : option (list (Z * Z)) :=
  g ← v_segs v !! p; addr ← v_addr v !! p; Some (pieces g addr).

(** The image of [p] when [c] is the process in core. *)
Definition image (v : view) (c : option Z) (p : Z) : option (list (list Z)) :=
  (λ l : list (Z * Z), (λ an, if decide (c = Some p) then bytes (v_mem v) an.1 an.2
               else bytes (v_dev v) (DEV_BSIZE * an.1) an.2) <$> l) <$> placed v p.

Section layout.
(** [&u0]. *)
Context (U0 : Z).

Definition sized (g : segments) : Prop := 0 ≤ p_dsize g ∧ 0 ≤ p_ssize g ∧ p_dsize g + p_ssize g ≤ MAXMEM.
Definition core_segs (g : segments) : segments := Seg USER_DATA_START (USER_DATA_END - p_ssize g) (p_dsize g) (p_ssize g).

(** Unit [x] of the device belongs to piece [i] of [p]. *)
Definition holds (v : view) (p : Z) (i : nat) (x : Z) : Prop :=
  ∃ l a n, placed v p = Some l ∧ l !! i = Some (a, n) ∧ Rmap.in_range a (btod n) x.

Record layout (v : view) (c : option Z) (lp : list Z) (es : list Rmap.mapent) : Prop := {
  lay_map : Rmap.rep (v_map v) es ∧ Rmap.wf es;
  lay_sizes : ∀ p, p ∈ lp → ∃ g a, v_segs v !! p = Some g ∧ v_addr v !! p = Some a ∧ sized g;
  lay_core : ∀ p, c = Some p → p ∈ lp ∧ ∃ g, v_segs v !! p = Some (core_segs g) ∧ v_addr v !! p = Some U0;
  lay_free : ∀ p i x, p ∈ lp → c ≠ Some p → holds v p i x → 0 < x ∧ x < 2 ^ 32 - 1 ∧ ¬ Rmap.free_in es x;
  lay_disj : ∀ p q i j x, p ∈ lp → q ∈ lp → c ≠ Some p → c ≠ Some q → holds v p i x → holds v q j x → p = q ∧ i = j
}.

(** The buffer for user structures lies outside the memory of processes. *)
Definition apart : Prop := U0 + USIZE ≤ USER_DATA_START ∨ USER_DATA_END ≤ U0.

Lemma free_bound es x : Rmap.wf es → Rmap.free_in es x → 0 < x < 2 ^ 32 - 1.
Proof.
  intros Hwf Hf. apply Exists_exists in Hf as (e & (i & Hi)%list_elem_of_lookup & Hx).
  pose proof (Rmap.wf_lookup _ _ _ Hwf Hi). unfold Rmap.in_range, Rmap.seg_end in *. lia.
Qed.

(** Disjoint units, disjoint bytes. *)
Lemma units_apart a n b m : 0 ≤ n ≤ MAXMEM → 0 ≤ m ≤ MAXMEM →
  (∀ x, Rmap.in_range a (btod n) x → Rmap.in_range b (btod m) x → False) →
  n = 0 ∨ m ≤ 0 ∨ DEV_BSIZE * a + n ≤ DEV_BSIZE * b ∨ DEV_BSIZE * b + m ≤ DEV_BSIZE * a.
Proof.
  intros Hn Hm H. pose proof (btod_spec n Hn). pose proof (btod_spec m Hm). unfold DEV_BSIZE in *.
  specialize (H (Z.max a b)). unfold Rmap.in_range in H. lia.
Qed.

Lemma disjoint_apart a n b m : 0 ≤ n ≤ MAXMEM → 0 ≤ m ≤ MAXMEM → Rmap.disjoint_ranges a (btod n) b (btod m) →
  m = 0 ∨ n ≤ 0 ∨ DEV_BSIZE * b + m ≤ DEV_BSIZE * a ∨ DEV_BSIZE * a + n ≤ DEV_BSIZE * b.
Proof. intros Hn Hm H. apply units_apart; [done|done|]. intros x H1 H2. by apply (H x). Qed.

Lemma placed_Some v p g a : v_segs v !! p = Some g → v_addr v !! p = Some a → placed v p = Some (pieces g a).
Proof. intros H1 H2. unfold placed. by rewrite H1, H2. Qed.

Lemma holds_pieces v p g a i x : v_segs v !! p = Some g → v_addr v !! p = Some a →
  holds v p i x ↔ ∃ b n, pieces g a !! i = Some (b, n) ∧ Rmap.in_range b (btod n) x.
Proof.
  intros H1 H2. unfold holds. rewrite (placed_Some _ _ _ _ H1 H2). split; [intros (l & b & n & [= <-] & ?)|intros (b & n & ?)]; eauto 6.
Qed.

Lemma holds_ext v v' p i x : placed v' p = placed v p → holds v' p i x ↔ holds v p i x.
Proof. intros H. unfold holds. by rewrite H. Qed.

Lemma pieces_sized g a i b n : sized g → pieces g a !! i = Some (b, n) → 0 ≤ n ≤ MAXMEM.
Proof.
  intros (H1 & H2 & H3) Hi. unfold MAXMEM in *. destruct i as [|[|[|]]]; cbn in Hi; simplify_eq; unfold USIZE; lia.
Qed.

Lemma holds_bytes v p g a i b n j : v_segs v !! p = Some g → v_addr v !! p = Some a → pieces g a !! i = Some (b, n) →
  Rmap.in_range b (btod n) j → holds v p i j.
Proof. intros H1 H2 Hi Hj. apply (holds_pieces _ _ _ _ _ _ H1 H2). eauto. Qed.

(** An image on the device is what it was if no piece of it was written over. *)
Lemma dev_image_ext v v' c c' p g a :
  c ≠ Some p → c' ≠ Some p → v_segs v !! p = Some g → v_addr v !! p = Some a → placed v' p = placed v p →
  (∀ i b n, pieces g a !! i = Some (b, n) → bytes (v_dev v') (DEV_BSIZE * b) n = bytes (v_dev v) (DEV_BSIZE * b) n) →
  image v' c' p = image v c p.
Proof.
  intros Hc Hc' H1 H2 Hp H. unfold image. rewrite Hp, (placed_Some _ _ _ _ H1 H2). cbn [fmap option_fmap option_map]. f_equal.
  apply list_fmap_ext. intros i (b & n) Hi. rewrite !decide_False by done. by apply (H i).
Qed.

(** ** Out and in, on views *)

Definition out_view (v : view) (p : Z) (g : segments) (a0 a1 a2 : Z) (w : Rmap.map) : view :=
  let d0 := blit (Z.to_nat (p_dsize g)) (v_mem v) (p_daddr g) (v_dev v) (DEV_BSIZE * a0) in
  let d1 := blit (Z.to_nat (p_ssize g)) (v_mem v) (p_saddr g) d0 (DEV_BSIZE * a1) in
  let d2 := blit (Z.to_nat USIZE) (v_mem v) U0 d1 (DEV_BSIZE * a2) in
  View (<[p := a2]> (v_addr v)) (<[p := Seg a0 a1 (p_dsize g) (p_ssize g)]> (v_segs v)) (v_mem v) d2 w.

Lemma placed_out_ne v p g a0 a1 a2 w q : q ≠ p → placed (out_view v p g a0 a1 a2 w) q = placed v q.
Proof. intros Hq. unfold placed. cbn. by rewrite !lookup_insert_ne. Qed.

Lemma pieces_out v p g a0 a1 a2 w :
  placed (out_view v p g a0 a1 a2 w) p = Some (pieces (Seg a0 a1 (p_dsize g) (p_ssize g)) a2).
Proof. unfold placed. cbn. by rewrite !lookup_insert_eq. Qed.

Section out.
Context (v : view) (p : Z) (lp : list Z) (es es' : list Rmap.mapent) (g : segments) (a0 a1 a2 : Z) (w : Rmap.map).
Context (HL : layout v (Some p) lp es) (Hg : v_segs v !! p = Some g) (Ha : v_addr v !! p = Some U0).
Context (Hw : Rmap.rep w es') (Hwf : Rmap.wf es').
Context (D01 : Rmap.disjoint_ranges a0 (btod (p_dsize g)) a1 (btod (p_ssize g)))
        (D02 : Rmap.disjoint_ranges a0 (btod (p_dsize g)) a2 (btod USIZE))
        (D12 : Rmap.disjoint_ranges a1 (btod (p_ssize g)) a2 (btod USIZE)).
Context (Hfree : ∀ x, Rmap.ranges3 a0 (btod (p_dsize g)) a1 (btod (p_ssize g)) a2 (btod USIZE) x → Rmap.free_in es x).
Context (Hfree' : ∀ x, Rmap.free_in es' x ↔
  Rmap.free_in es x ∧ ¬ Rmap.ranges3 a0 (btod (p_dsize g)) a1 (btod (p_ssize g)) a2 (btod USIZE) x).
Let v' := out_view v p g a0 a1 a2 w.

Lemma out_holds i x : holds v' p i x → Rmap.ranges3 a0 (btod (p_dsize g)) a1 (btod (p_ssize g)) a2 (btod USIZE) x.
Proof.
  intros (l & b & n & Hl & Hi & Hx). unfold v' in Hl. rewrite pieces_out in Hl. injection Hl as <-. unfold Rmap.ranges3.
  destruct i as [|[|[|]]]; cbn in Hi; simplify_eq; tauto.
Qed.

Lemma out_holds_ne q i x : q ≠ p → holds v' q i x ↔ holds v q i x.
Proof. intros Hq. apply holds_ext. by apply placed_out_ne. Qed.

Lemma layout_out : layout v' None lp es'.
Proof.
  pose proof HL as [(Hrep & Hwf0) Hsz Hcore Hfr Hdj]. destruct (Hcore p eq_refl) as (Hp & _). split.
  - by split.
  - intros q Hq. destruct (Hsz q Hq) as (gq & aq & H1 & H2 & H3). destruct (decide (q = p)) as [->|Hne].
    + eexists _, _. cbn. rewrite !lookup_insert_eq. split; [done|]. split; [done|]. by simplify_eq.
    + exists gq, aq. cbn. by rewrite !lookup_insert_ne.
  - done.
  - intros q i x Hq _ Hh. destruct (decide (q = p)) as [->|Hne].
    + apply out_holds in Hh. pose proof (free_bound es x Hwf0 (Hfree x Hh)). split; [lia|]. split; [lia|]. rewrite Hfree'. tauto.
    + apply out_holds_ne in Hh; [|done]. destruct (Hfr q i x Hq ltac:(congruence) Hh) as (? & ? & Hn). rewrite Hfree'. tauto.
  - intros q r i j x Hq Hr _ _ H1 H2. destruct (decide (q = p)) as [->|Hqp], (decide (r = p)) as [->|Hrp].
    + split; [done|]. destruct H1 as (l & b & n & Hl & Hi & Hx), H2 as (l2 & b2 & n2 & Hl2 & Hi2 & Hx2).
      unfold v' in *. rewrite pieces_out in *. simplify_eq. unfold Rmap.disjoint_ranges in *.
      destruct i as [|[|[|]]], j as [|[|[|]]]; cbn in Hi, Hi2; simplify_eq; try done; exfalso; naive_solver.
    + apply out_holds, Hfree in H1. apply out_holds_ne in H2; [|done]. destruct (Hfr r j x Hr ltac:(congruence) H2) as (_ & _ & []). done.
    + apply out_holds, Hfree in H2. apply out_holds_ne in H1; [|done]. destruct (Hfr q i x Hq ltac:(congruence) H1) as (_ & _ & []). done.
    + apply out_holds_ne in H1, H2; [|done..]. eapply (Hdj q r); eauto; congruence.
Qed.

Lemma image_out q : q ∈ lp → image v' None q = image v (Some p) q.
Proof.
  intros Hq. pose proof HL as [_ Hsz Hcore Hfr Hdj]. destruct (Hcore p eq_refl) as (Hp & _).
  destruct (Hsz p Hp) as (gp & ap & Hgp & _ & Hszp). simplify_eq. pose proof Hszp as (S1 & S2 & S3).
  assert (HU : 0 ≤ USIZE ≤ MAXMEM) by (unfold USIZE, MAXMEM; lia).
  destruct (decide (q = p)) as [->|Hne].
  - unfold image, v'. rewrite pieces_out, (placed_Some _ _ _ _ Hg Ha). cbn [fmap option_fmap option_map]. f_equal.
    unfold pieces. cbn [fmap list_fmap fst snd p_daddr p_saddr p_dsize p_ssize v_dev v_mem out_view].
    rewrite !(decide_False (P := None = Some p)), !(decide_True (P := Some p = Some p)) by done.
    f_equal; [|f_equal; [|f_equal]].
    + rewrite 2!bytes_blit_ne; [apply bytes_blit; lia|lia| |lia|]; apply disjoint_apart; done || lia.
    + rewrite bytes_blit_ne; [apply bytes_blit; lia|lia|]. apply disjoint_apart; done || lia.
    + apply bytes_blit. lia.
  - destruct (Hsz q Hq) as (gq & aq & H1 & H2 & Hszq).
    eapply dev_image_ext; [congruence|congruence|exact H1|exact H2|by apply placed_out_ne|].
    intros i b n Hi. pose proof (pieces_sized _ _ _ _ _ Hszq Hi).
    assert (Hx : ∀ x, Rmap.in_range b (btod n) x → ¬ Rmap.free_in es x).
    { intros x Hx. destruct (Hfr q i x Hq ltac:(congruence)) as (_ & _ & ?); [|done]. by eapply holds_bytes. }
    unfold v', out_view. cbn [v_dev].
    rewrite !bytes_blit_ne; try lia; try done; apply units_apart; try lia; intros x Hx1 Hx2; apply (Hx x Hx2), Hfree; unfold Rmap.ranges3; tauto.
Qed.
End out.
Definition in_view (v : view) (p : Z) (g : segments) (addr : Z) (w : Rmap.map) : view :=
  let m0 := blit (Z.to_nat (p_dsize g)) (v_dev v) (DEV_BSIZE * p_daddr g) (v_mem v) USER_DATA_START in
  let m1 := blit (Z.to_nat (p_ssize g)) (v_dev v) (DEV_BSIZE * p_saddr g) m0 (USER_DATA_END - p_ssize g) in
  let m2 := blit (Z.to_nat USIZE) (v_dev v) (DEV_BSIZE * addr) m1 U0 in
  View (<[p := U0]> (v_addr v)) (<[p := core_segs g]> (v_segs v)) m2 (v_dev v) w.

Section swapped_in.
Context (v : view) (p : Z) (lp : list Z) (es es' : list Rmap.mapent) (g : segments) (addr : Z) (w : Rmap.map).
Context (HL : layout v None lp es) (Hp : p ∈ lp) (Hg : v_segs v !! p = Some g) (Ha : v_addr v !! p = Some addr).
Context (Hw : Rmap.rep w es') (Hwf : Rmap.wf es').
Context (Hfree' : ∀ x, Rmap.free_in es' x → Rmap.free_in es x ∨ ∃ i, holds v p i x).
Let v' := in_view v p g addr w.

Lemma placed_in_ne q : q ≠ p → placed v' q = placed v q.
Proof. intros Hq. unfold placed, v'. cbn. by rewrite !lookup_insert_ne. Qed.

Lemma layout_in : layout v' (Some p) lp es'.
Proof.
  pose proof HL as [(Hrep & Hwf0) Hsz Hcore Hfr Hdj]. split.
  - by split.
  - intros q Hq. destruct (Hsz q Hq) as (gq & aq & H1 & H2 & H3). destruct (decide (q = p)) as [->|Hne].
    + eexists _, _. unfold v'. cbn. rewrite !lookup_insert_eq. split; [done|]. split; [done|]. by simplify_eq.
    + exists gq, aq. unfold v'. cbn. by rewrite !lookup_insert_ne.
  - intros q [= <-]. split; [done|]. exists g. unfold v'. cbn. by rewrite !lookup_insert_eq.
  - intros q i x Hq Hne Hh. apply (holds_ext v) in Hh; [|apply placed_in_ne; congruence].
    destruct (Hfr q i x Hq ltac:(done) Hh) as (? & ? & Hn). split; [done|]. split; [done|].
    intros [?|(j & Hj)]%Hfree'; [done|]. destruct (Hdj q p i j x Hq Hp ltac:(done) ltac:(done) Hh Hj) as [-> _]. done.
  - intros q r i j x Hq Hr Hqp Hrp H1 H2. apply (holds_ext v) in H1, H2; [|apply placed_in_ne; congruence..].
    by apply (Hdj q r i j x).
Qed.

Lemma image_in q : apart → q ∈ lp → image v' (Some p) q = image v None q.
Proof.
  intros Hap Hq. pose proof HL as [_ Hsz _ _ _]. destruct (Hsz p Hp) as (gp & ap & Hgp & _ & S1 & S2 & S3). simplify_eq.
  destruct (decide (q = p)) as [->|Hne].
  - unfold image, v'. rewrite (placed_Some _ _ _ _ Hg Ha).
    rewrite (placed_Some (in_view v p g addr w) p (core_segs g) U0) by (cbn; apply lookup_insert_eq).
    cbn [fmap option_fmap option_map]. f_equal. unfold pieces.
    cbn [fmap list_fmap fst snd p_daddr p_saddr p_dsize p_ssize v_dev v_mem in_view core_segs].
    rewrite !(decide_False (P := None = Some p)), !(decide_True (P := Some p = Some p)) by done.
    unfold apart, MAXMEM, USER_DATA_START, USER_DATA_END in *. f_equal; [|f_equal; [|f_equal]].
    + rewrite 2!bytes_blit_ne; [apply bytes_blit; lia|lia|lia|unfold USIZE; lia|unfold USIZE in *; lia].
    + rewrite bytes_blit_ne; [apply bytes_blit; lia|unfold USIZE; lia|unfold USIZE in *; lia].
    + apply bytes_blit. unfold USIZE. lia.
  - destruct (Hsz q Hq) as (gq & aq & H1 & H2 & Hszq).
    eapply dev_image_ext; [congruence|congruence|exact H1|exact H2|by apply placed_in_ne|done].
Qed.
End swapped_in.
End layout.

(** ** The swap device *)

Definition set_memory (m : gmap Z Z) (s : vst) : vst := set_sg (set_sy (set_mem m (sy (sg s))) (sg s)) s.
Definition memory (s : vst) : gmap Z Z := mem (sy (sg s)).

(** What the driver of the swap device promises: it transfers the bytes it is
    asked for, and nothing else changes. *)
Class SwapDevice (strategy : bool → Z → Z → Z → M vst bool) : Prop := {
  sd_write : ∀ s b a n, 0 < n →
    strategy false b a n s = Ret false (set_swapdev (blit (Z.to_nat n) (memory s) a (swapdev s) (DEV_BSIZE * b)) s);
  sd_read : ∀ s b a n, 0 < n →
    strategy true b a n s = Ret false (set_memory (blit (Z.to_nat n) (swapdev s) (DEV_BSIZE * b) (memory s) a) s)
}.

(** A device that does. *)
Definition ram_strategy (rd : bool) (b a n : Z) : M vst bool :=
  modify (λ s, if rd then set_memory (blit (Z.to_nat n) (swapdev s) (DEV_BSIZE * b) (memory s) a) s
               else set_swapdev (blit (Z.to_nat n) (memory s) a (swapdev s) (DEV_BSIZE * b)) s);;
  mret false.
#[export] Instance ram_device : SwapDevice ram_strategy.
Proof. by split. Qed.

(** ** Rules *)

Definition vprocs (s : vst) : gmap Z Sched.proc := procs_of (sg s).
Definition vput (p : Z) (pr : Sched.proc) (s : vst) : vst := set_sg (put_proc p pr (sg s)) s.
Definition vsegs (s : vst) : gmap Z segments := segs (cx (sg s)).
Definition gput (p : Z) (g : segments) (s : vst) : vst :=
  set_sg (set_cx (set_segs (<[p := g]> (vsegs s)) (cx (sg s))) (sg s)) s.

Lemma wp_on_sg {A} (m : M sgst A) (Q : A → vst → Prop) s : wp m (λ a g, Q a (set_sg g s)) (sg s) → wp (on_sg m) Q s.
Proof. intros (a & g & E & HQ)%wp_run. apply wp_run. unfold on_sg. rewrite E. eauto. Qed.

Lemma wp_on_map {A} (m : M Rmap.map A) (Q : A → vst → Prop) s :
  wp m (λ a w, Q a (set_swapmap w s)) (swapmap s) → wp (on_map m) Q s.
Proof. intros (a & g & E & HQ)%wp_run. apply wp_run. unfold on_map. rewrite E. eauto. Qed.

Lemma wp_v_rdp p pr (Q : Sched.proc → vst → Prop) s : vprocs s !! p = Some pr → Q pr s → wp (rdp p) Q s.
Proof. intros Hp HQ. apply wp_on_sg. eapply wp_s_rdp; [exact Hp|]. by destruct s. Qed.

Lemma wp_v_wrp p pr f (Q : unit → vst → Prop) s : vprocs s !! p = Some pr → Q tt (vput p (f pr) s) → wp (wrp p f) Q s.
Proof. intros Hp HQ. apply wp_on_sg. by eapply wp_s_wrp; [exact Hp|]. Qed.

Lemma wp_v_rdg p g (Q : segments → vst → Prop) s : vsegs s !! p = Some g → Q g s → wp (rdg p) Q s.
Proof. intros Hp HQ. apply wp_on_sg. eapply wp_load; [exact Hp|]. by destruct s. Qed.

Lemma wp_v_wrg p g (Q : unit → vst → Prop) s : Q tt (gput p g s) → wp (wrg p g) Q s.
Proof. intros HQ. apply wp_on_sg. by apply wp_modify. Qed.

Section rules.
Context (RUNIN RUNOUT U0 : Z) (strategy : bool → Z → Z → Z → M vst bool) `{!SwapDevice strategy}.

Lemma wp_swap_write b a n (Q : unit → vst → Prop) s : 0 ≤ n →
  (∀ c, Q tt (set_swapdev (blit (Z.to_nat n) (memory s) a (swapdev s) (DEV_BSIZE * b)) (set_cnt c s))) →
  wp (swap strategy b a n false) Q s.
Proof.
  intros Hn HQ. unfold swap. apply wp_bind, wp_modify. destruct (Z.eqb_spec n 0) as [->|Hne].
  - apply wp_ret. specialize (HQ (Meter (v_swpin (cnt s)) (v_swpout (cnt s)) (v_kbin (cnt s)) (u16 (v_kbout (cnt s) + (0 + 1023) ÷ 1024)))).
    by destruct s.
  - apply wp_bind, wp_run. eexists _, _. split; [apply sd_write; lia|]. apply wp_ret, HQ.
Qed.

Lemma wp_swap_read b a n (Q : unit → vst → Prop) s : 0 ≤ n →
  (∀ c, Q tt (set_memory (blit (Z.to_nat n) (swapdev s) (DEV_BSIZE * b) (memory s) a) (set_cnt c s))) →
  wp (swap strategy b a n true) Q s.
Proof.
  intros Hn HQ. unfold swap. apply wp_bind, wp_modify. destruct (Z.eqb_spec n 0) as [->|Hne].
  - apply wp_ret. specialize (HQ (Meter (v_swpin (cnt s)) (v_swpout (cnt s)) (u16 (v_kbin (cnt s) + (0 + 1023) ÷ 1024)) (v_kbout (cnt s)))).
    destruct s as [[[]] ? ? ?]. done.
  - apply wp_bind, wp_run. eexists _, _. split; [apply sd_read; lia|]. apply wp_ret, HQ.
Qed.

Notation kern_t := (Sched.kst Callout.cost).
Definition vk (s : vst) : kern_t := kern (sy (sg s)).

(** What waking a process leaves alone. *)
Definition still (pr : Sched.proc) := (Run.steady pr, Sched.p_flag pr).
Definition kstill (k : kern_t) :=
  (still <$> Sched.procs k, Sched.allproc k, Sched.zombproc k, Sched.freeproc k, Sched.pidhash k, Sched.u_procp k).

Lemma keeps_kstill_wrp p g : (∀ r, still (g r) = still r) → keeps kstill (Sched.wrp (C := Callout.cost) p g).
Proof.
  intros Hg. apply keeps_store. intros k k'. destruct (Sched.procs k !! p) as [pr|] eqn:E; [|done]. intros [= <-].
  unfold kstill. cbn. rewrite fmap_insert, Hg. do 5 f_equal. apply insert_id. by rewrite lookup_fmap, E.
Qed.
Lemma keeps_kstill_slpque h v : keeps kstill (store (λ s : kern_t, l ← aset (Sched.slpque s) h v; Some (Sched.set_slpque l s))).
Proof. apply keeps_store. intros s s'. destruct (aset _ _ _); [|done]. by intros [= <-]. Qed.

#[local] Hint Extern 1 (keeps kstill (Sched.wrp _ _)) => (apply keeps_kstill_wrp; intros; reflexivity) : frame.
#[local] Hint Resolve keeps_kstill_slpque : frame.

Lemma keeps_kstill_updatepri p : keeps kstill (Sched.updatepri (C := Callout.cost) p).
Proof.
  assert (Hp : ∀ p, keeps kstill (Sched.setpri (C := Callout.cost) p)) by (intros; unfold Sched.setpri; keeps_tac).
  assert (Hu : ∀ n p a, keeps kstill (Sched.updatepri_loop (C := Callout.cost) n p a)).
  { intros n q. induction n; intros a; cbn [Sched.updatepri_loop]; keeps_tac. }
  unfold Sched.updatepri. keeps_tac.
Qed.
#[local] Hint Resolve keeps_kstill_updatepri : frame.

Lemma keeps_kstill_wakeup chan : keeps kstill (Sched.wakeup (C := Callout.cost) RUNOUT chan).
Proof.
  assert (Hw : ∀ n c q, keeps kstill (Sched.wakeup_loop (C := Callout.cost) RUNOUT n c q)).
  { induction n as [|n IH]; intros c q; cbn [Sched.wakeup_loop]; [keeps_tac|]. unfold Sched.rd_q, Sched.wr_q, Sched.setrq. keeps_tac. }
  unfold Sched.wakeup. keeps_tac.
Qed.

(** Nobody is touched, links aside, but sleepers on [&runout]. *)
Definition undisturbed (k k' : kern_t) : Prop :=
  ∀ z, Sched.chan_of k z ≠ RUNOUT → Sched.nolink <$> Sched.procs k' !! z = Sched.nolink <$> Sched.procs k !! z.

Lemma wakeup_runout k sq rq : Sched.rep k sq rq →
  wp (Sched.wakeup RUNOUT RUNOUT) (λ _ k', (∃ sq' rq', Sched.rep k' sq' rq') ∧ undisturbed k k' ∧ kstill k' = kstill k) k.
Proof.
  intros Hrep. eapply wp_mono; [apply (wp_frame kstill), (Sched.wakeup_ok _ _ _ _ _ Hrep); apply keeps_kstill_wakeup|].
  intros [] k' ((b & D & sq' & rq' & H2 & ((Hdom & Hwk) & _) & (HD & _)) & Hf). split; [eauto|]. split; [|done].
  intros z Hc. assert (Hz : z ∉ D) by (intros Hin; destruct (HD z Hin) as (_ & ?); tauto).
  specialize (Hwk z). specialize (Hdom z). destruct (Sched.procs k !! z) as [q|] eqn:E, (Sched.procs k' !! z) as [q'|] eqn:E'.
  - specialize (Hwk q q' eq_refl eq_refl). rewrite decide_False in Hwk by done. cbn. by rewrite Hwk.
  - exfalso. destruct Hdom as [_ Hd]. destruct (Hd ltac:(eauto)). done.
  - exfalso. destruct Hdom as [Hd _]. destruct (Hd ltac:(eauto)). done.
  - done.
Qed.

(** ** Swapping out *)

Definition gone (a : Z) (pr : Sched.proc) : Sched.proc :=
  Sched.set_p_time 0 (and_not_flag (Z.lor Sched.SLOAD SLOCK) (set_p_addr a (or_flag SLOCK pr))).

Definition room (g : segments) (es : list Rmap.mapent) : Prop :=
  Exists (λ e, btod (p_dsize g) + btod (p_ssize g) + btod USIZE ≤ Rmap.m_size e) es.

Definition vqueued (s : vst) : Prop := ∃ sq rq, Sched.rep (vk s) sq rq.

Lemma view_vput p pr pr' s : vprocs s !! p = Some pr →
  view_of (vput p pr' s) = View (<[p := Sched.p_addr pr']> (v_addr (view_of s))) (v_segs (view_of s)) (v_mem (view_of s)) (v_dev (view_of s)) (v_map (view_of s)).
Proof. intros Hp. unfold view_of. cbn. by rewrite fmap_insert. Qed.

Lemma rep_vput p pr pr' s sq rq :
  Sched.rep (vk s) sq rq → vprocs s !! p = Some pr → p ∉ rq → Sched.p_link pr' = Sched.p_link pr →
  Sched.p_wchan pr' = Sched.p_wchan pr → Sched.p_stat pr' = Sched.p_stat pr → Sched.rep (vk (vput p pr' s)) sq rq.
Proof. intros Hr Hp Hn H1 H2 H3. eapply Run.rep_wrp; [exact Hr|exact Hp|done|done|done|by left]. Qed.

Lemma kick_ok s sq rq (Q : unit → vst → Prop) :
  Sched.rep (vk s) sq rq →
  (∀ s', view_of s' = view_of s → vqueued s' → undisturbed (vk s) (vk s') → kstill (vk s') = kstill (vk s) → Q tt s') →
  wp (ro ← kget Sched.runout; when (negb (ro =? 0)) (on_k (modify (Sched.set_runout 0));; on_k (Sched.wakeup RUNOUT RUNOUT))) Q s.
Proof.
  intros Hrep HQ. apply wp_bind, wp_gets, wp_when; intros _; [|apply HQ; try done; by exists sq, rq].
  apply wp_bind, wp_on_sg, wp_on_sys, wp_on_kern, wp_modify. apply wp_on_sg, wp_on_sys, wp_on_kern.
  eapply wp_mono; [apply (wakeup_runout _ sq rq); by apply (Sched.rep_ext (vk s))|].
  intros [] k' (Hr & Hu & Hf). apply HQ; try done. injection Hf as Hp _ _ _ _ _. unfold view_of. f_equal.
  apply map_eq. intros z. rewrite !lookup_fmap. apply (f_equal (.!! z)) in Hp. rewrite !lookup_fmap in Hp. cbn in Hp.
  unfold procs_of. cbn. destruct (Sched.procs k' !! z), (Sched.procs (kern (sy (sg s))) !! z); try done.
  unfold still, Run.steady in Hp. cbn in Hp |- *. congruence.
Qed.

(** All images survive; [p] is out of core, and of the other processes only
    sleepers on [&runout] may have been woken. *)
Definition out_post (p : Z) (pr : Sched.proc) (lp : list Z) (s s' : vst) : Prop :=
  ∃ es' a, layout U0 (view_of s') None lp es' ∧
    (∀ q, q ∈ lp → image (view_of s') None q = image (view_of s) (Some p) q) ∧
    vqueued s' ∧ undisturbed (vk (vput p (gone a pr) s)) (vk s') ∧ kstill (vk s') = kstill (vk (vput p (gone a pr) s)) ∧
    v_mem (view_of s') = v_mem (view_of s) ∧ ∀ q, q ≠ p → placed (view_of s') q = placed (view_of s) q.

Lemma malloc3_room w es g : Rmap.rep w es → Rmap.wf es → sized g → room g es →
  wp (Rmap.malloc3 (btod (p_dsize g)) (btod (p_ssize g)) (btod USIZE) [0; 0; 0])
    (λ r w', ∃ a0 a1 a2 es', r = (a2, [a0; a1; a2]) ∧ a2 ≠ 0 ∧ Rmap.rep w' es' ∧ Rmap.wf es' ∧
       Rmap.disjoint_ranges a0 (btod (p_dsize g)) a1 (btod (p_ssize g)) ∧ Rmap.disjoint_ranges a0 (btod (p_dsize g)) a2 (btod USIZE) ∧
       Rmap.disjoint_ranges a1 (btod (p_ssize g)) a2 (btod USIZE) ∧
       (∀ x, Rmap.ranges3 a0 (btod (p_dsize g)) a1 (btod (p_ssize g)) a2 (btod USIZE) x → Rmap.free_in es x) ∧
       (∀ x, Rmap.free_in es' x ↔ Rmap.free_in es x ∧ ¬ Rmap.ranges3 a0 (btod (p_dsize g)) a1 (btod (p_ssize g)) a2 (btod USIZE) x)) w.
Proof.
  intros Hrep Hwf (S1 & S2 & S3) Hroom. unfold MAXMEM in *. pose proof (btod_spec (p_dsize g)). pose proof (btod_spec (p_ssize g)).
  unfold DEV_BSIZE, MAXMEM in *. eapply wp_mono; [apply Rmap.malloc3_refines; [exact Hrep|done|lia|lia|rewrite btod_usize; lia|done]|].
  intros r w' [(_ & _ & Hf)|(a0 & a1 & a2 & es' & -> & R1 & R2 & _ & _ & D1 & D2 & D3 & F1 & F2)].
  - exfalso. apply Exists_exists in Hroom as (e & He & Hle). rewrite Forall_forall in Hf. specialize (Hf e He). lia.
  - exists a0, a1, a2, es'. split_and!; try done. intros ->. specialize (F1 0). unfold Rmap.ranges3, Rmap.in_range in F1.
    rewrite btod_usize in F1. pose proof (free_bound es 0 Hwf (F1 ltac:(lia))). lia.
Qed.

Lemma view_out p pr g a0 a1 a2 s s' :
  vprocs s !! p = Some pr → Sched.p_addr pr = U0 →
  vprocs s' = <[p := gone a2 pr]> (vprocs s) → vsegs s' = <[p := Seg a0 a1 (p_dsize g) (p_ssize g)]> (vsegs s) →
  memory s' = memory s →
  swapdev s' = blit (Z.to_nat USIZE) (memory s) U0
    (blit (Z.to_nat (p_ssize g)) (memory s) (p_saddr g)
       (blit (Z.to_nat (p_dsize g)) (memory s) (p_daddr g) (swapdev s) (DEV_BSIZE * a0)) (DEV_BSIZE * a1)) (DEV_BSIZE * a2) →
  view_of s' = out_view U0 (view_of s) p g a0 a1 a2 (swapmap s').
Proof.
  intros Hp Ha E1 E2 E3 E4. unfold view_of, out_view. fold (vprocs s') (vprocs s) (vsegs s') (vsegs s) (memory s') (memory s).
  cbn [v_addr v_segs v_mem v_dev]. rewrite E1, E2, E3, E4. rewrite fmap_insert. done.
Qed.

Lemma swapout_ok p pr g lp es sq rq s :
  layout U0 (view_of s) (Some p) lp es → vprocs s !! p = Some pr → vsegs s !! p = Some g → room g es →
  Sched.rep (vk s) sq rq → p ∉ rq →
  wp (swapout RUNOUT strategy p X_OLDSIZE X_OLDSIZE) (λ _ s', out_post p pr lp s s') s.
Proof.
  intros HL Hp Hg Hroom Hrep Hrq. pose proof HL as [(Hmap & Hwf) Hsz Hcore _ _]. destruct (Hcore p eq_refl) as (Hin & g' & _ & Ha).
  destruct (Hsz p Hin) as (g1 & a1 & Hg1 & _ & Hsized). change (v_segs (view_of s)) with (vsegs s) in Hg1. simplify_eq.
  assert (Haddr : Sched.p_addr pr = U0).
  { cbn in Ha. rewrite lookup_fmap in Ha. change (procs_of (sg s)) with (vprocs s) in Ha. rewrite Hp in Ha. by injection Ha. }
  pose proof Hsized as (S1 & S2 & S3). unfold swapout. apply wp_bind. eapply wp_v_rdg; [exact Hg|].
  change (X_OLDSIZE =? X_OLDSIZE) with true. cbv iota. apply wp_bind, wp_on_map.
  eapply wp_mono; [by apply malloc3_room|]. intros r w (a0 & b1 & a2 & es' & -> & Hne & R1 & R2 & D1 & D2 & D3 & F1 & F2).
  rewrite (proj2 (Z.eqb_neq a2 0)) by done. apply wp_bind. eapply wp_v_wrp; [exact Hp|]. do 3 (apply wp_bind; eapply wp_load; [done|]).
  apply wp_bind.
  assert (Hw : ∀ b a n (Q : unit → vst → Prop) s, 0 ≤ n →
    (∀ c, Q tt (set_swapdev (blit (Z.to_nat n) (memory s) a (swapdev s) (DEV_BSIZE * b)) (set_cnt c s))) →
    wp (when (negb (n =? 0)) (swap strategy b a n false)) Q s).
  { intros b a n Q t Hn HQ. apply wp_when; intros E; to_prop; [by apply wp_swap_write|]. subst n. specialize (HQ (cnt t)). by destruct t. }
  apply Hw; [done|]. intros c1. apply wp_bind. apply Hw; [done|]. intros c2. apply wp_bind, wp_on_sg, wp_on_sys, wp_upd_usr.
  apply wp_bind. eapply wp_v_rdp; [cbn; apply lookup_insert_eq|]. apply wp_bind, wp_swap_write; [by unfold USIZE|]. intros c3.
  apply wp_bind, wp_v_wrg. apply wp_bind. eapply wp_v_wrp; [cbn; apply lookup_insert_eq|].
  apply wp_bind. eapply wp_v_wrp; [cbn; apply lookup_insert_eq|]. apply wp_bind. eapply wp_v_wrp; [cbn; apply lookup_insert_eq|].
  apply wp_bind, wp_modify. match goal with |- wp _ _ ?x => set (t := x) end.
  assert (Hpt : vprocs t = <[p := gone a2 pr]> (vprocs s)) by (unfold t, vprocs, procs_of; cbn; by rewrite !insert_insert_eq).
  assert (Hv : view_of t = out_view U0 (view_of s) p g a0 b1 a2 w).
  { change w with (swapmap t). apply (view_out p pr); try done. unfold t. cbn. by rewrite Haddr. }
  assert (Hrt : Sched.rep (vk t) sq rq).
  { apply (Sched.rep_ext (vk (vput p (gone a2 pr) s))); [exact Hpt|done|done|]. by eapply rep_vput. }
  eapply kick_ok; [exact Hrt|]. intros s' Hv' Hq' Hu' Hf'. exists es', a2. rewrite Hv', Hv.
  split; [|split; [|split; [done|split; [|split; [|split; [done|]]]]]].
  - by apply layout_out with (es := es).
  - intros q Hq. by apply image_out with (lp := lp) (es := es).
  - intros z Hz. unfold undisturbed in Hu'. specialize (Hu' z). change (Sched.procs (vk t)) with (vprocs t) in Hu'. rewrite Hpt in Hu'. apply Hu'.
    unfold Sched.chan_of in *. change (Sched.procs (vk t)) with (vprocs t). by rewrite Hpt.
  - rewrite Hf'. unfold kstill. change (Sched.procs (vk t)) with (vprocs t). by rewrite Hpt.
  - intros q Hq. by apply placed_out_ne.
Qed.

(** ** Swapping in *)

Definition arrived (pr : Sched.proc) : Sched.proc := Sched.set_p_time 0 (or_flag Sched.SLOAD (set_p_addr U0 pr)).

(** One piece read back and its range returned. *)
Lemma fetch_ok b a n es (Q : unit → vst → Prop) s :
  0 ≤ n ≤ MAXMEM → Rmap.rep (swapmap s) es → Rmap.wf es →
  (∀ x, Rmap.in_range b (btod n) x → 0 < x < 2 ^ 32 - 1 ∧ ¬ Rmap.free_in es x) →
  (∀ c w es', Rmap.rep w es' → Rmap.wf es' → (∀ x, Rmap.free_in es' x → Rmap.free_in es x ∨ Rmap.in_range b (btod n) x) →
     Q tt (set_swapmap w (set_memory (blit (Z.to_nat n) (swapdev s) (DEV_BSIZE * b) (memory s) a) (set_cnt c s)))) →
  wp (when (negb (n =? 0)) (swap strategy b a n true;; on_map (Rmap.mfree (btod n) b))) Q s.
Proof.
  intros Hn Hrep Hwf Hx HQ. pose proof (btod_spec n Hn) as Hb. unfold DEV_BSIZE in Hb. apply wp_when; intros E; to_prop.
  - apply wp_bind, wp_swap_read; [lia|]. intros c. apply wp_on_map.
    assert (H1 : Rmap.in_range b (btod n) b) by (unfold Rmap.in_range; lia).
    assert (H2 : Rmap.in_range b (btod n) (b + btod n - 1)) by (unfold Rmap.in_range; lia).
    pose proof (proj1 (Hx _ H1)). pose proof (proj1 (Hx _ H2)).
    eapply wp_mono; [apply (Rmap.mfree_refines _ es); [done|done|lia|lia|lia|intros x Hi; apply (proj2 (Hx x Hi))]|].
    intros [] w (_ & [(es' & R1 & (R2 & F) & _)|(R1 & _)]); eapply HQ; [exact R1|done| |exact R1|done|by left].
    intros x ?%F. tauto.
  - subst n. specialize (HQ (cnt s) (swapmap s) es Hrep Hwf ltac:(by left)). by destruct s as [[[]] ? ? ?].
Qed.

Definition in_post (p : Z) (pr : Sched.proc) (lp : list Z) (s s' : vst) : Prop :=
  ∃ es', layout U0 (view_of s') (Some p) lp es' ∧
    (∀ q, q ∈ lp → image (view_of s') (Some p) q = image (view_of s) None q) ∧ vqueued s' ∧
    (∀ z, z ≠ p → Sched.nolink <$> vprocs s' !! z = Sched.nolink <$> vprocs s !! z) ∧
    Sched.nolink <$> vprocs s' !! p = Some (Sched.nolink (arrived pr)).

Lemma view_in p pr g s s' :
  vprocs s !! p = Some pr → Sched.p_addr <$> vprocs s' = <[p := U0]> (Sched.p_addr <$> vprocs s) → vsegs s' = <[p := core_segs g]> (vsegs s) →
  swapdev s' = swapdev s →
  memory s' = blit (Z.to_nat USIZE) (swapdev s) (DEV_BSIZE * Sched.p_addr pr)
    (blit (Z.to_nat (p_ssize g)) (swapdev s) (DEV_BSIZE * p_saddr g)
       (blit (Z.to_nat (p_dsize g)) (swapdev s) (DEV_BSIZE * p_daddr g) (memory s) USER_DATA_START) (USER_DATA_END - p_ssize g)) U0 →
  view_of s' = in_view U0 (view_of s) p g (Sched.p_addr pr) (swapmap s').
Proof.
  intros Hp E1 E2 E3 E4. unfold view_of, in_view. fold (vprocs s') (vprocs s) (vsegs s') (vsegs s) (memory s') (memory s).
  cbn [v_addr v_segs v_mem v_dev]. by rewrite E1, E2, E3, E4.
Qed.

Lemma has_or_flag pr : Sched.has_flag Sched.SLOAD (Sched.set_p_time 0 (or_flag Sched.SLOAD pr)) = true.
Proof.
  unfold Sched.has_flag. cbn. change Sched.SLOAD with (2 ^ 0). rewrite flag_test, Z.lor_spec by done.
  rewrite Z.pow2_bits_true by done. by rewrite orb_true_r.
Qed.

Lemma nolink_addr pr pr' : Sched.nolink pr' = Sched.nolink (arrived pr) → Sched.p_addr pr' = U0.
Proof. destruct pr, pr'. by intros [=]. Qed.

Lemma wp_seq2 {S A B C} (m1 : M S A) (m2 : M S B) (k : M S C) (Q : C → S → Prop) s :
  wp (m1;; m2) (λ _, wp k Q) s → wp (m1;; m2;; k) Q s.
Proof.
  intros (b & s2 & E & HQ)%wp_run. apply wp_run in HQ as (c & s3 & E' & HQ). apply wp_run. exists c, s3. split; [|done].
  unfold mbind, M_bind in *. destruct (m1 s) as [a s1| | |]; try done. destruct (m2 s1); try done. by injection E as -> ->.
Qed.

(** The last steps: the process is entered in the table and on the run queue. *)
Lemma enter_ok p pr sq rq s (Q : unit → vst → Prop) :
  Sched.rep (vk s) sq rq → vprocs s !! p = Some pr → p ≠ 0 → Sched.has_flag Sched.SLOAD pr = false →
  (Sched.p_stat pr = Sched.SRUN → Sched.p_wchan pr = 0) →
  (∀ s' pr', vqueued s' → vprocs s' = <[p := pr']> (vprocs s) → Sched.nolink pr' = Sched.nolink (arrived pr) →
     vsegs s' = vsegs s → memory s' = memory s → swapdev s' = swapdev s → swapmap s' = swapmap s → Q tt s') →
  wp (wrp p (set_p_addr U0);;
      pr ← rdp p;
      when (Sched.p_stat pr =? Sched.SRUN) (on_k (Sched.setrq p));;
      wrp p (or_flag Sched.SLOAD);;
      wrp p (Sched.set_p_time 0);;
      count (λ c, Meter (u16 (v_swpin c + 1)) (v_swpout c) (v_kbin c) (v_kbout c))) Q s.
Proof.
  intros Hrep Hp Hp0 Hl Hst HQ. assert (Hrq : p ∉ rq).
  { destruct Hrep as (_ & _ & _ & Hr). intros Hin. destruct (Hr p Hin) as (q & Hq & _ & _ & Hf).
    change (vprocs s !! p = Some q) in Hq. rewrite Hp in Hq. injection Hq as <-. by rewrite Hl in Hf. }
  set (pr1 := set_p_addr U0 pr). apply wp_bind. eapply wp_v_wrp; [exact Hp|]. fold pr1.
  assert (Hrep1 : Sched.rep (vk (vput p pr1 s)) sq rq) by (by eapply rep_vput).
  apply wp_bind. eapply wp_v_rdp; [cbn; apply lookup_insert_eq|]. apply wp_bind, wp_when; intros E; to_prop.
  - specialize (Hst E). apply wp_on_sg, wp_on_sys, wp_on_kern. assert (Hp1 : Sched.procs (vk (vput p pr1 s)) !! p = Some pr1) by (cbn; apply lookup_insert_eq).
    eapply Sched.wp_setrq; [apply Hrep1|by eapply Sched.rep_off|done|exact Hp1|]. cbv zeta. intros x Hc _.
    apply wp_bind. eapply wp_v_wrp; [cbn; apply lookup_insert_eq|]. apply wp_bind. eapply wp_v_wrp; [cbn; apply lookup_insert_eq|].
    apply wp_modify. match goal with |- Q tt ?y => set (t := y) end.
    set (pr' := Sched.set_p_time 0 (or_flag Sched.SLOAD (Sched.set_p_link x pr1))).
    assert (Ht : vprocs t = <[p := pr']> (vprocs s)) by (unfold t, vprocs, procs_of; cbn; by rewrite !insert_insert_eq).
    apply (HQ t pr'); try done. exists sq, (p :: rq).
    assert (Htp : Sched.procs (vk t) !! p = Some pr') by (change (vprocs t !! p = Some pr'); rewrite Ht; apply lookup_insert_eq).
    eapply (Run.rep_replace (vk (vput p pr1 s))); [exact Hrep1|exact Hp1|done|done| | | |exact Htp|right]; [done| | |].
    + eapply Sched.chains_ext; [..|exact Hc]; [|done|done]. intros z. unfold Sched.lnk. change (Sched.procs (vk t)) with (vprocs t). rewrite Ht.
      cbn. unfold procs_of. cbn. destruct (decide (z = p)) as [->|]; [by rewrite !lookup_insert_eq|by rewrite !lookup_insert_ne].
    + intros z Hz. change (Sched.procs (vk t)) with (vprocs t). rewrite Ht. cbn. by rewrite !lookup_insert_ne.
    + split; [done|]. split; [done|]. apply has_or_flag.
  - apply wp_bind. eapply wp_v_wrp; [cbn; apply lookup_insert_eq|]. apply wp_bind. eapply wp_v_wrp; [cbn; apply lookup_insert_eq|].
    apply wp_modify. apply (HQ _ (arrived pr)); try done.
    + exists sq, rq. apply (Sched.rep_ext (vk (vput p (arrived pr) s))); [|done|done|by eapply rep_vput].
      cbn. by rewrite !insert_insert_eq.
    + unfold vprocs, procs_of. cbn. by rewrite !insert_insert_eq.
Qed.

Lemma swapin_ok p pr lp es sq rq s :
  apart U0 → layout U0 (view_of s) None lp es → p ∈ lp → vprocs s !! p = Some pr → p ≠ 0 →
  Sched.rep (vk s) sq rq → Sched.has_flag Sched.SLOAD pr = false → (Sched.p_stat pr = Sched.SRUN → Sched.p_wchan pr = 0) →
  wp (swapin U0 strategy p) (λ _ s', in_post p pr lp s s') s.
Proof.
  intros Hap HL Hin Hp Hp0 Hrep Hl Hst. pose proof HL as [(Hmap & Hwf) Hsz _ Hfr Hdj].
  destruct (Hsz p Hin) as (g & ad & Hg & Ha & Hsized). pose proof Hsized as (S1 & S2 & S3).
  assert (Had : ad = Sched.p_addr pr).
  { cbn in Ha. rewrite lookup_fmap in Ha. change (procs_of (sg s)) with (vprocs s) in Ha. rewrite Hp in Ha. by injection Ha. }
  assert (HU : 0 ≤ USIZE ≤ MAXMEM) by (unfold USIZE, MAXMEM; lia).
  assert (Hpc : ∀ i b n x, pieces g ad !! i = Some (b, n) → Rmap.in_range b (btod n) x → holds (view_of s) p i x)
    by (intros i b n x Hi Hx; by eapply holds_bytes).
  assert (Hown : ∀ i b n x, pieces g ad !! i = Some (b, n) → Rmap.in_range b (btod n) x → 0 < x < 2 ^ 32 - 1 ∧ ¬ Rmap.free_in es x).
  { intros i b n x Hi Hx. destruct (Hfr p i x Hin ltac:(done) (Hpc _ _ _ _ Hi Hx)) as (? & ? & ?). split; [lia|done]. }
  assert (Hsep : ∀ i j b n b' n' x, pieces g ad !! i = Some (b, n) → pieces g ad !! j = Some (b', n') →
    Rmap.in_range b (btod n) x → Rmap.in_range b' (btod n') x → i = j).
  { intros i j b n b' n' x Hi Hj H1 H2. apply (Hdj p p i j x); eauto. }
  unfold swapin. apply wp_bind. eapply wp_v_rdg; [exact Hg|]. cbv zeta. unfold MAXMEM in S3.
  rewrite (u32_id (USER_DATA_END - p_ssize g)) by (unfold is_u32, USER_DATA_END; lia).
  apply wp_bind. eapply fetch_ok; [unfold MAXMEM; lia|exact Hmap|done|exact (λ x, Hown 0%nat _ _ x eq_refl)|]. intros c1 w1 es1 R1 W1 F1.
  apply wp_bind. eapply fetch_ok; [unfold MAXMEM; lia|exact R1|done| |].
  { intros x Hx. pose proof (Hown 1%nat _ _ x eq_refl Hx) as (N1 & N2). split; [done|]. intros [?|H0]%F1; [done|].
    by pose proof (Hsep 0%nat 1%nat _ _ _ _ x eq_refl eq_refl H0 Hx). }
  intros c2 w2 es2 R2 W2 F2. apply wp_bind. eapply wp_v_rdp; [exact Hp|]. rewrite <- Had. apply wp_seq2.
  eapply (fetch_ok ad U0 USIZE); [done|exact R2|done| |].
  { intros x Hx. pose proof (Hown 2%nat _ _ x eq_refl Hx) as (N1 & N2). split; [done|]. intros [[?|H0]%F1|H0]%F2; [done|..].
    - by pose proof (Hsep 0%nat 2%nat _ _ _ _ x eq_refl eq_refl H0 Hx).
    - by pose proof (Hsep 1%nat 2%nat _ _ _ _ x eq_refl eq_refl H0 Hx). }
  intros c3 w3 es3 R3 W3 F3. apply wp_bind, wp_v_wrg. change (Seg _ _ _ _) with (core_segs g).
  match goal with |- wp _ _ ?y => set (t := y) end.
  eapply (enter_ok p pr sq rq t); [exact Hrep|exact Hp|done|done|done|]. intros s' pr' Hq Hpt Hpr Hsg Hm Hd Hw.
  assert (Hv : view_of s' = in_view U0 (view_of s) p g ad (swapmap s')).
  { rewrite Had. apply (view_in p pr); [done| |by rewrite Hsg|by rewrite Hd|by rewrite Hm, <- Had]. rewrite Hpt. rewrite fmap_insert.
    change (vprocs t) with (vprocs s). f_equal. exact (nolink_addr _ _ Hpr). }
  exists es3. rewrite Hv, Hw. assert (Hfree : ∀ x, Rmap.free_in es3 x → Rmap.free_in es x ∨ ∃ i, holds (view_of s) p i x).
  { intros x [[[?|H0]%F1|H0]%F2|H0]%F3; [by left|right..]; [exists 0%nat|exists 1%nat|exists 2%nat]; by eapply Hpc. }
  split; [by eapply layout_in|]. split; [intros q Hq'; by eapply image_in|]. split; [done|]. rewrite Hpt. change (vprocs t) with (vprocs s). split.
  - intros z Hz. by rewrite lookup_insert_ne.
  - rewrite lookup_insert_eq. cbn. by rewrite Hpr.
Qed.

(** ** The exchange *)

(** [p] is out of core; it is not asleep if it is runnable. *)
Definition outside (p : Z) (s : vst) : Prop :=
  ∃ pr, vprocs s !! p = Some pr ∧ Sched.has_flag Sched.SLOAD pr = false ∧
        (Sched.p_stat pr = Sched.SRUN → Sched.p_wchan pr = 0) ∧ Sched.p_wchan pr ≠ RUNOUT.

(** What [sched] may ask for: the process in core goes out, one of the others
    comes in. *)
Record plan (s : vst) (c : option Z) (lp : list Z) (ic so : Z) : Prop := {
  plan_zero : 0 ∉ lp;
  plan_out : ic ≠ 0 → c = Some ic ∧ ∃ pr, vprocs s !! ic = Some pr ∧ Sched.has_flag Sched.SLOAD pr = false;
  plan_in : so ≠ 0 → so ∈ lp ∧ so ≠ ic ∧ outside so s ∧ (ic = 0 → c = None)
}.

Definition in_core_after (c : option Z) (ic so : Z) : option Z :=
  if decide (so = 0) then (if decide (ic = 0) then c else None) else Some so.

Lemma outside_out p pr lp s s' q : p ≠ q → out_post p pr lp s s' → outside q s → outside q s'.
Proof.
  intros Hne (es' & a & _ & _ & _ & Hu & _) (qr & Hq & H1 & H2 & H3).
  assert (Hq' : vprocs (vput p (gone a pr) s) !! q = Some qr) by (unfold vprocs; cbn; by rewrite lookup_insert_ne).
  specialize (Hu q). unfold Sched.chan_of in Hu. change (Sched.procs (vk (vput p (gone a pr) s))) with (vprocs (vput p (gone a pr) s)) in Hu.
  rewrite Hq' in Hu. specialize (Hu H3). change (Sched.procs (vk s')) with (vprocs s') in Hu.
  destruct (vprocs s' !! q) as [qr'|] eqn:E; [|done]. apply (inj Some) in Hu. destruct (Sched.nolink_wchan _ _ Hu) as (E1 & E2 & E3 & _).
  exists qr'. unfold Sched.has_flag in *. by rewrite E1, E2, E3.
Qed.

Lemma rep_loaded (k : kern_t) sq rq p pr : Sched.rep k sq rq → Sched.procs k !! p = Some pr → Sched.has_flag Sched.SLOAD pr = false → p ∉ rq.
Proof. intros (_ & _ & _ & Hr) Hp Hl Hin. destruct (Hr p Hin) as (q & Hq & _ & _ & Hf). congruence. Qed.

Lemma exchange_ok s c lp es ic so :
  apart U0 → layout U0 (view_of s) c lp es → vqueued s → plan s c lp ic so →
  (∀ g, ic ≠ 0 → vsegs s !! ic = Some g → room g es) →
  wp (sched_swap RUNOUT U0 strategy ic so)
    (λ _ s', ∃ es', layout U0 (view_of s') (in_core_after c ic so) lp es' ∧ vqueued s' ∧
       ∀ q, q ∈ lp → image (view_of s') (in_core_after c ic so) q = image (view_of s) c q) s.
Proof.
  intros Hap HL (sq & rq & Hrep) [Hz Hout Hin] Hroom. unfold sched_swap, in_core_after. apply wp_bind.
  eapply (wp_mono _ (λ _ s1, ∃ es1, layout U0 (view_of s1) (if decide (ic = 0) then c else None) lp es1 ∧ vqueued s1 ∧
    (∀ q, q ∈ lp → image (view_of s1) (if decide (ic = 0) then c else None) q = image (view_of s) c q) ∧ (so ≠ 0 → outside so s1))).
  - apply wp_when; intros E; to_prop.
    + destruct (Hout E) as (-> & pr & Hp & Hl). pose proof HL as [_ Hsz Hcore _ _]. destruct (Hcore ic eq_refl) as (Hic & g & Hg & _).
      eapply wp_mono; [eapply (swapout_ok ic pr (core_segs g)); [done|done|exact Hg|by eapply Hroom|exact Hrep|by eapply rep_loaded]|].
      intros [] s1 Hpost. pose proof Hpost as (es1 & a & H1 & H2 & H3 & _). rewrite decide_False by done. exists es1. split_and!; try done.
      intros Hso. destruct (Hin Hso) as (_ & Hne & Ho & _). by eapply outside_out.
    + subst ic. exists es. rewrite decide_True by done. split_and!; try done; [by exists sq, rq|]. intros Hso. by destruct (Hin Hso) as (_ & _ & ? & _).
  - intros [] s1 (es1 & L1 & (sq1 & rq1 & R1) & I1 & O1). apply wp_when; intros E; to_prop.
    + destruct (Hin E) as (Hso & _ & _ & Hc). destruct (O1 E) as (pr & Hp & Hl & Hw & _). rewrite decide_False by done.
      assert (Hnone : (if decide (ic = 0) then c else None) = None) by (case_decide; auto). rewrite Hnone in L1, I1.
      eapply wp_mono; [by eapply (swapin_ok so pr lp)|]. intros [] s2 (es2 & L2 & I2 & Q2 & _). exists es2. split_and!; try done.
      intros q Hq. by rewrite I2, I1.
    + subst so. rewrite decide_True by done. exists es1. split_and!; try done. by exists sq1, rq1.
Qed.
End rules.

(** ** Properties *)


(** [brk] cannot make data and stack overlap, gives zeroed memory, and changes
    nothing when it refuses. *)
Definition brk_post (naddr : Z) (p : Z) (g : segments) (c : ctx) (s s' : vst) : Prop :=
  let n := Z.max 0 (s32 (u32 naddr - p_daddr g)) in
  (MAXMEM < u_tsize c + n + u_ssize c ∧ s' = set_sg (set_sy (set_kern (Sched.set_u_error ENOMEM (kern (sy (sg s)))) (sy (sg s))) (sg s)) s) ∨
  (u_tsize c + n + u_ssize c ≤ MAXMEM ∧ vsegs s' = <[p := Seg (p_daddr g) (p_saddr g) n (p_ssize g)]> (vsegs s) ∧
   u_dsize (cx (sg s')) = n ∧ (∀ a, p_daddr g + u_dsize c ≤ a < p_daddr g + n → ldb (memory s') a = 0) ∧
   (∀ a, ¬ (p_daddr g + u_dsize c ≤ a < p_daddr g + n) → ldb (memory s') a = ldb (memory s) a)).

Lemma ldb_bzero n m a x : ldb (bzero n m a) x = if (a <=? x) && (x <? a + Z.of_nat n) then 0 else ldb m x.
Proof.
  revert a. induction n as [|n IH]; intros a; cbn [bzero].
  - by destruct (Z.leb_spec a x), (Z.ltb_spec x (a + Z.of_nat 0)); try lia.
  - unfold ldb at 1. destruct (decide (x = a)) as [->|Hne].
    + rewrite lookup_insert_eq. by destruct (Z.leb_spec a a), (Z.ltb_spec a (a + Z.of_nat (S n))); try lia.
    + rewrite lookup_insert_ne by done. fold (ldb (bzero n m (a + 1)) x). rewrite IH.
      by destruct (Z.leb_spec (a + 1) x), (Z.leb_spec a x), (Z.ltb_spec x (a + 1 + Z.of_nat n)), (Z.ltb_spec x (a + Z.of_nat (S n)));
        try lia.
Qed.


(** Process 2 leaves, process 3, whose pieces are at units 10, 20 and 30, enters;
    process 8 is the swapper. *)
Definition demo_U0 : Z := 0x80000400.
Definition demo_swap : vst :=
  let k := Sched.set_procs (list_to_map
    [(2, set_p_addr demo_U0 (Sched.demo_proc 3 Sched.SRUN 60 0 0 0 0 2 0 0));
     (3, set_p_addr 30 (Sched.demo_proc 8 Sched.SRUN 60 0 0 0 0 3 0 1));
     (8, Sched.demo_proc 0 Sched.SSLEEP 10 0 0 96 Sched.SLOAD 18 2 0)])
    (Sched.set_slpque (<[3%nat := 8]> (replicate 16 0)) (Sched.set_qs 0 Sched.demo)) in
  let g := SigSpec.demo in
  let c := CX demo_frame 5 0 1500 1000 (list_to_map
    [(2, Seg USER_DATA_START (USER_DATA_END - 1000) 1500 1000); (3, Seg 10 20 2000 700)]) in
  VS (set_cx c (set_sy (set_kern k (sy g)) g)) (Rmap.Map [Rmap.Mapent 100 50; Rmap.terminator; Rmap.terminator] 2 []) ∅ (Meter 0 0 0 0).

Lemma demo_layout : layout demo_U0 (view_of demo_swap) (Some 2) [2; 3] [Rmap.Mapent 100 50].
Proof.
  assert (H3 : ∀ i x, holds (view_of demo_swap) 3 i x → (i = 0%nat ∧ 10 ≤ x < 12) ∨ (i = 1%nat ∧ 20 ≤ x < 21) ∨ (i = 2%nat ∧ 30 ≤ x < 33)).
  { intros i x (l & a & n & Hl & Hi & Hx). unfold placed in Hl. change (v_segs _ !! 3) with (Some (Seg 10 20 2000 700)) in Hl.
    change (v_addr _ !! 3) with (Some 30) in Hl. injection Hl as <-. unfold Rmap.in_range in Hx.
    destruct i as [|[|[|]]]; cbn in Hi; simplify_eq; vm_compute in Hx; intuition lia. }
  split.
  - split; [split; [done|by exists [Rmap.terminator]]|]. repeat split; cbn; lia.
  - intros p [->|[->|[]%elem_of_nil]%elem_of_cons]%elem_of_cons; eexists _, _; (split; [reflexivity|]; split; [reflexivity|]); by vm_compute.
  - intros p [= <-]. split; [set_solver|]. exists (Seg 0 0 1500 1000). done.
  - intros p i x [->|[->|[]%elem_of_nil]%elem_of_cons]%elem_of_cons Hne Hh; [done|]. apply H3 in Hh. unfold Rmap.free_in. rewrite Exists_cons, Exists_nil.
    unfold Rmap.in_range. cbn. lia.
  - intros p q i j x Hp Hq Hnp Hnq H1 H2. assert (p = 3 ∧ q = 3) as (-> & ->) by set_solver. split; [done|]. apply H3 in H1, H2. lia.
Qed.

Lemma demo_swap_queued : vqueued demo_swap.
Proof. exists (λ i, if i =? 3 then [8] else []), []. apply Sched.rep_check_sound. vm_compute. reflexivity. Qed.


End SwapSpec.
