(* ===== verification/Proc.v ===== *)
(** * Process creation, exit and wait (sys/kernel/kern_fork.c, kern_exit.c, kern_proc.c)

    Every entry of the process table is on one of three lists through [p_nxt]:
    [freeproc], [allproc] for the living and [zombproc] for those that have
    exited and are not yet waited for.  The last two are doubly linked: [p_prev]
    points to the pointer that leads to the entry.  [newproc] takes an entry off
    the free list and a fresh process id, [exit] makes a zombie and gives the
    children to process 1, [wait1] reports a zombie to its parent and frees it.

    The status and resource usage of a zombie overwrite the fields of a living
    process ([p_un] in proc.h); [bury] writes them in both views.  Sharing and
    releasing open files and directories, the switch to other processes while
    one sleeps and the strategy routine of the swap device are parameters. *)

From S2P Require Import Prelude Links Callout Sched User Clock Cred Signal Rmap Swap.

Module Proc.
Import User Signal Swap.

Definition SVFDONE : Z := 0x0400.
Definition EAGAIN : Z := 11.
Definition ECHILD : Z := 10.
Definition MAXUPRC : Z := 20.
Definition WAIT_ANY : Z := -1.
Definition WAIT_MYPGRP : Z := 0.
Definition WNOHANG : Z := 1.
Definition WUNTRACED : Z := 2.
Definition RLIMIT_FSIZE : Z := 1.
Definition SIGHUP : Z := 1.
Definition PIDMAX : Z := 30000.

Definition W_STOPCODE (sig : Z) : Z := Z.lor (Z.shiftl sig 8) 0x7f.
Definition W_EXITCODE (ret sig : Z) : Z := s32 (Z.lor (Z.shiftl ret 8) sig).

(** A [struct proc **]: [&allproc], [&zombproc] or [&p->p_nxt]. *)
Inductive pref := PAll | PZomb | PNxt (p : Z).

Record forkstat_t := FS { cntfork : Z; cntvfork : Z; sizfork : Z; sizvfork : Z }.

(** [dead] gives [p_xstat] and [p_ru]; [mpid] and [pidchecked] are the last
    process id given out and the bound below which no check is needed. *)
Record pst := PS {
  vm : vst;
  prevs : gmap Z pref;
  dead : gmap Z (Z * k_rusage);
  mpid : Z;
  pidchecked : Z;
  forkstat : forkstat_t;
  u_start : Z
}.

Notation K := (M pst).

Definition set_vm (v : vst) (s : pst) : pst := PS v (prevs s) (dead s) (mpid s) (pidchecked s) (forkstat s) (u_start s).
Definition set_prevs (v : gmap Z pref) (s : pst) : pst := PS (vm s) v (dead s) (mpid s) (pidchecked s) (forkstat s) (u_start s).
Definition set_dead (v : gmap Z (Z * k_rusage)) (s : pst) : pst := PS (vm s) (prevs s) v (mpid s) (pidchecked s) (forkstat s) (u_start s).
Definition set_pids (m c : Z) (s : pst) : pst := PS (vm s) (prevs s) (dead s) m c (forkstat s) (u_start s).
Definition set_forkstat (v : forkstat_t) (s : pst) : pst := PS (vm s) (prevs s) (dead s) (mpid s) (pidchecked s) v (u_start s).
Definition set_u_start (v : Z) (s : pst) : pst := PS (vm s) (prevs s) (dead s) (mpid s) (pidchecked s) (forkstat s) v.

Definition on_vm {A} (m : M vst A) : K A := λ s,
  match m (vm s) with
  | Ret a v => Ret a (set_vm v s)
  | Panic msg v => Panic msg (set_vm v s)
  | Fault => Fault
  | NoFuel => NoFuel
  end.
Definition on_s {A} (m : M sgst A) : K A := on_vm (on_sg m).
Definition on_y {A} (m : M sys A) : K A := on_s (on_sys m).
Definition on_kn {A} (m : M (Sched.kst Callout.cost) A) : K A := on_y (on_kern m).
Definition kern_of (s : pst) : Sched.kst Callout.cost := kern (sy (sg (vm s))).
Definition kgets {A} (f : Sched.kst Callout.cost → A) : K A := gets (λ s, f (kern_of s)).

Definition rdp (p : Z) : K Sched.proc := on_kn (Sched.rdp p).
Definition wrp (p : Z) (f : Sched.proc → Sched.proc) : K unit := on_kn (Sched.wrp p f).
Definition rdg (p : Z) : K segments := on_s (Signal.rdg p).
Definition wrg (p : Z) (g : segments) : K unit := on_s (Signal.wrg p g).
Definition err (e : Z) : K unit := on_y (User.err e).
Definition nprocs : K nat := kgets (λ k, S (size (Sched.procs k))).

Definition set_p_nxt (v : Z) (p : Sched.proc) : Sched.proc :=
  Sched.Proc v (Sched.p_pptr p) (Sched.p_flag p) (Sched.p_uid p) (Sched.p_pid p) (Sched.p_ppid p) (Sched.p_stat p) (Sched.p_pri p) (Sched.p_cpu p) (Sched.p_time p) (Sched.p_nice p) (Sched.p_slptime p) (Sched.p_hash p) (Sched.p_link p) (Sched.p_addr p) (Sched.p_wchan p) (Sched.p_rtval p) (Sched.p_rtint p) (Sched.p_pgrp p) (Sched.p_sig p) (Sched.p_sigmask p) (Sched.p_sigignore p) (Sched.p_sigcatch p) (Sched.p_ptracesig p).
Definition set_p_parent (pptr ppid : Z) (p : Sched.proc) : Sched.proc :=
  Sched.Proc (Sched.p_nxt p) pptr (Sched.p_flag p) (Sched.p_uid p) (Sched.p_pid p) ppid (Sched.p_stat p) (Sched.p_pri p) (Sched.p_cpu p) (Sched.p_time p) (Sched.p_nice p) (Sched.p_slptime p) (Sched.p_hash p) (Sched.p_link p) (Sched.p_addr p) (Sched.p_wchan p) (Sched.p_rtval p) (Sched.p_rtint p) (Sched.p_pgrp p) (Sched.p_sig p) (Sched.p_sigmask p) (Sched.p_sigignore p) (Sched.p_sigcatch p) (Sched.p_ptracesig p).
Definition set_p_hash (v : Z) (p : Sched.proc) : Sched.proc :=
  Sched.Proc (Sched.p_nxt p) (Sched.p_pptr p) (Sched.p_flag p) (Sched.p_uid p) (Sched.p_pid p) (Sched.p_ppid p) (Sched.p_stat p) (Sched.p_pri p) (Sched.p_cpu p) (Sched.p_time p) (Sched.p_nice p) (Sched.p_slptime p) v (Sched.p_link p) (Sched.p_addr p) (Sched.p_wchan p) (Sched.p_rtval p) (Sched.p_rtint p) (Sched.p_pgrp p) (Sched.p_sig p) (Sched.p_sigmask p) (Sched.p_sigignore p) (Sched.p_sigcatch p) (Sched.p_ptracesig p).
Definition set_u_procp (v : Z) (k : Sched.kst Callout.cost) : Sched.kst Callout.cost :=
  Sched.KS (Sched.procs k) (Sched.slpque k) (Sched.qs k) (Sched.pidhash k) (Sched.freeproc k) (Sched.allproc k) (Sched.zombproc k) (Sched.runrun k) (Sched.curpri k) (Sched.noproc k) (Sched.runin k) (Sched.runout k) (Sched.panicstr k) (Sched.v_swtch k) (Sched.ru_nvcsw k) v (Sched.u_error k) (Sched.u_sigintr k) (Sched.sigs k) (Sched.co k).
Definition set_pidhash (v : list Z) (k : Sched.kst Callout.cost) : Sched.kst Callout.cost :=
  Sched.KS (Sched.procs k) (Sched.slpque k) (Sched.qs k) v (Sched.freeproc k) (Sched.allproc k) (Sched.zombproc k) (Sched.runrun k) (Sched.curpri k) (Sched.noproc k) (Sched.runin k) (Sched.runout k) (Sched.panicstr k) (Sched.v_swtch k) (Sched.ru_nvcsw k) (Sched.u_procp k) (Sched.u_error k) (Sched.u_sigintr k) (Sched.sigs k) (Sched.co k).
Definition set_u_cru (v : k_rusage) (x : user) : user :=
  U (u_uid x) (u_svuid x) (u_ruid x) (u_svgid x) (u_rgid x) (u_groups x) (u_rval x) (u_ru x) v (u_timer x) (u_rlimit x) (u_prof x).

(** [p->p_prev = v] and [*r = v]. *)
Definition wr_prev (p : Z) (v : pref) : K unit :=
  store (λ s, _ ← Sched.procs (kern_of s) !! p; Some (set_prevs (<[p := v]> (prevs s)) s)).
Definition rd_prev (p : Z) : K pref := load (λ s, prevs s !! p).
Definition wr_ref (r : pref) (v : Z) : K unit :=
  match r with
  | PAll => on_kn (modify (Sched.set_allproc v))
  | PZomb => on_kn (modify (Sched.set_zombproc v))
  | PNxt p => wrp p (set_p_nxt v)
  end.

(** [if (( *p->p_prev = p->p_nxt) != NULL) p->p_nxt->p_prev = p->p_prev;] *)
Definition unlink (p : Z) : K unit :=
  r ← rd_prev p;
  pr ← rdp p;
  wr_ref r (Sched.p_nxt pr);;
  when (negb (Sched.p_nxt pr =? 0)) (wr_prev (Sched.p_nxt pr) r).

(** ** kern_proc.c *)

(** [for (p = proc+NPROC; --p > proc; freeproc = p) p->p_nxt = freeproc;] *)
Fixpoint pqinit_loop (n : nat) (p : Z) : K Z :=
  match n with
  | O => nofuel
  | S n' =>
      let p := p - 1 in
      if Sched.PROC0 <? p then
        f ← kgets Sched.freeproc;
        wrp p (set_p_nxt f);;
        on_kn (modify (Sched.set_freeproc p));;
        pqinit_loop n' p
      else mret p
  end.

Definition pqinit : K unit :=
  on_kn (modify (Sched.set_freeproc 0));;
  p ← pqinit_loop (Z.to_nat Sched.NPROC) (Sched.PROC0 + Sched.NPROC);
  on_kn (modify (Sched.set_allproc p));;
  wrp p (set_p_nxt 0);;
  wr_prev p PAll;;
  on_kn (modify (Sched.set_zombproc 0)).

(** ** kern_fork.c *)

(** The scan of one list: [mpid], [pidchecked], and whether to [goto retry]. *)
Fixpoint pid_scan (fuel : nat) (child m c : Z) : K (Z * Z * bool) :=
  match fuel with
  | O => nofuel
  | S f =>
      if child =? 0 then mret (m, c, false)
      else
        pr ← rdp child;
        let hit := (Sched.p_pid pr =? m) || (Sched.p_pgrp pr =? m) in
        let m := if hit then m + 1 else m in
        if hit && (c <=? m) then mret (m, c, true)
        else
          let c := if (m <? Sched.p_pid pr) && (Sched.p_pid pr <? c) then Sched.p_pid pr else c in
          let c := if (m <? Sched.p_pgrp pr) && (Sched.p_pgrp pr <? c) then Sched.p_pgrp pr else c in
          pid_scan f (Sched.p_nxt pr) m c
  end.

(** From the label [retry] on. *)
Fixpoint pid_retry (fuel : nat) (m c : Z) : K (Z * Z) :=
  match fuel with
  | O => nofuel
  | S f =>
      let '(m, c) := if PIDMAX <=? m then (100, 0) else (m, c) in
      if c <=? m then
        n ← nprocs;
        a ← kgets Sched.allproc;
        '(m, c, again) ← pid_scan n a m PIDMAX;
        if again : bool then pid_retry f m c
        else
          z ← kgets Sched.zombproc;
          '(m, c, again) ← pid_scan n z m c;
          if again : bool then pid_retry f m c else mret (m, c)
      else mret (m, c)
  end.

(** A process has two numbers; each can stop the search once before and once
    after it wraps around. *)
Definition pid_fuel (s : pst) : nat := 4 * size (Sched.procs (kern_of s)) + 4.

Definition new_pid : K unit :=
  m ← gets mpid;
  c ← gets pidchecked;
  n ← gets pid_fuel;
  '(m, c) ← pid_retry n (m + 1) c;
  modify (set_pids m c).

(** The fields of the new entry [c] set from its parent [pp]. *)
Definition child_of (parent pid : Z) (pp c : Sched.proc) : Sched.proc :=
  Sched.Proc (Sched.p_nxt c) parent Sched.SLOAD (Sched.p_uid pp) (s16 pid) (Sched.p_pid pp) Sched.SIDL (Sched.p_pri c) 0 0
    (Sched.p_nice pp) 0 (Sched.p_hash c) (Sched.p_link c) (Sched.p_addr c) 0 0 (Sched.p_rtint c) (Sched.p_pgrp pp)
    (Sched.p_sig c) (Sched.p_sigmask pp) (Sched.p_sigignore pp) (Sched.p_sigcatch pp) (Sched.p_ptracesig c).

Definition count_fork (isvfork : bool) (g : segments) (f : forkstat_t) : forkstat_t :=
  let kb := Z.shiftr (u32 (p_dsize g + p_ssize g)) 10 in
  if isvfork then FS (cntfork f) (s32 (cntvfork f + 1)) (sizfork f) (s32 (sizvfork f + kb))
  else FS (s32 (cntfork f + 1)) (cntvfork f) (s32 (sizfork f + kb)) (sizvfork f).

(** Put [child] on the hash chain of its process id and in front of [allproc]. *)
Definition enter (child : Z) : K unit :=
  pr ← rdp child;
  let h := Sched.PIDHASH (Sched.p_pid pr) in
  x ← load (λ s, aget (Sched.pidhash (kern_of s)) h);
  wrp child (set_p_hash x);;
  on_kn (store (λ k, l ← aset (Sched.pidhash k) h child; Some (set_pidhash l k)));;
  a ← kgets Sched.allproc;
  wrp child (set_p_nxt a);;
  wr_prev a (PNxt child);;
  wr_prev child PAll;;
  on_kn (modify (Sched.set_allproc child)).

Section fork.
Context (RUNIN RUNOUT : Z) (strategy : bool → Z → Z → Z → M vst bool).
(** Counting the references of a new process to files and directories, and
    sleeping on a channel. *)
Context (share : K unit) (pause : Z → K unit).

(** [while (child->p_flag & SVFORK) sleep(...)] *)
Fixpoint vfork_wait (fuel : nat) (child : Z) : K unit :=
  match fuel with
  | O => nofuel
  | S f =>
      pr ← rdp child;
      if Sched.has_flag SVFORK pr then pause child;; vfork_wait f child else mret tt
  end.

(** The parent in [vfork] lends its segments to the child until it is done. *)
Definition vfork_parent (fuel : nat) (parent child : Z) : K unit :=
  g ← rdg parent;
  wrg parent (Seg (p_daddr g) (p_saddr g) 0 0);;
  wrp child (or_flag SVFORK);;
  wrp parent (or_flag SVFPRNT);;
  vfork_wait fuel child;;
  pr ← rdp child;
  if negb (Sched.has_flag Sched.SLOAD pr) then panic "newproc vfork"
  else
    g ← rdg child;
    wrg parent (Seg (p_daddr g) (p_saddr g) (p_dsize g) (p_ssize g));;
    on_s (upd_cx (λ c, set_u_ssize (p_ssize g) (set_u_dsize (p_dsize g) c)));;
    wrg child (Seg (p_daddr g) (p_saddr g) 0 0);;
    wrp child (or_flag SVFDONE);;
    on_kn (Sched.wakeup RUNOUT parent);;
    wrp parent (and_not_flag SVFPRNT).

(** The return in the parent; the child resumes where [u_ssave] was set. *)
Definition newproc (fuel : nat) (isvfork : bool) : K unit :=
  new_pid;;
  child ← kgets Sched.freeproc;
  if child =? 0 then panic "no procs"
  else
    c ← rdp child;
    on_kn (modify (Sched.set_freeproc (Sched.p_nxt c)));;
    parent ← kgets Sched.u_procp;
    pp ← rdp parent;
    pid ← gets mpid;
    wrp child (child_of parent pid pp);;
    g ← rdg parent;
    modify (λ s, set_forkstat (count_fork isvfork g (forkstat s)) s);;
    enter child;;
    share;;
    wrg child g;;
    on_kn (modify (set_u_procp child));;
    wrp parent (Sched.set_p_stat Sched.SIDL);;
    pp ← rdp parent;
    wrp child (set_p_addr (Sched.p_addr pp));;
    wrp child (Sched.set_p_stat Sched.SRUN);;
    on_vm (swapout RUNOUT strategy child X_OLDSIZE X_OLDSIZE);;
    wrp child (or_flag Sched.SSWAP);;
    wrp parent (Sched.set_p_stat Sched.SRUN);;
    on_kn (modify (set_u_procp parent));;
    when isvfork (vfork_parent fuel parent child).

(** The processes of one list that belong to the user. *)
Fixpoint count_user (fuel : nat) (p a : Z) : K Z :=
  match fuel with
  | O => nofuel
  | S f =>
      if p =? 0 then mret a
      else
        pr ← rdp p;
        uid ← gets (λ s, u_uid (usr (sy (sg (vm s)))));
        count_user f (Sched.p_nxt pr) (if u32 (Sched.p_uid pr) =? uid then a + 1 else a)
  end.

Definition fork1 (fuel : nat) (isvfork : bool) : K unit :=
  uid ← gets (λ s, u_uid (usr (sy (sg (vm s)))));
  n ← nprocs;
  a ← (if uid =? 0 then mret 0
       else
         l ← kgets Sched.allproc;
         a ← count_user n l 0;
         z ← kgets Sched.zombproc;
         count_user n z a);
  p2 ← kgets Sched.freeproc;
  full ← (if p2 =? 0 then mret true
          else if uid =? 0 then mret false
          else pr ← rdp p2; mret ((Sched.p_nxt pr =? 0) || (MAXUPRC <? a)));
  if full : bool then err EAGAIN
  else
    newproc fuel isvfork;;
    pr ← rdp p2;
    on_y (upd_usr (set_u_rval (Sched.p_pid pr))).

(** [fork1] in the child. *)
Definition fork1_child : K unit :=
  on_y (upd_usr (set_u_rval 0));;
  t ← gets (λ s, tv_sec (time (clk (sy (sg (vm s))))));
  modify (set_u_start t);;
  on_y (upd_usr (set_u_ru (KR 0 0 0 0 0 0 0 0 0 0)));;
  on_kn (modify (Sched.set_ru_nvcsw 0));;
  on_y (upd_usr (set_u_cru (KR 0 0 0 0 0 0 0 0 0 0))).

Definition fork (fuel : nat) : K unit := fork1 fuel false.
Definition vfork (fuel : nat) : K unit := fork1 fuel true.
End fork.

(** ** kern_exit.c *)

(** [p->p_xstat = x; p->p_ru = ru], in the view of a living process. *)
Definition overlay (x : Z) (ru : k_rusage) (p : Sched.proc) : Sched.proc :=
  Sched.Proc (Sched.p_nxt p) (Sched.p_pptr p) (Sched.p_flag p) (Sched.p_uid p) (Sched.p_pid p) (Sched.p_ppid p) (Sched.p_stat p)
    (s8 x) (s8 (Z.shiftr x 8)) (s8 (Z.shiftr x 16)) (s8 (Z.shiftr x 24)) (s8 (ru_utime ru)) (u32 (ru_stime ru))
    (u32 (ru_msgrcv ru)) (u32 (ru_nsignals ru)) (Sched.p_wchan p) (Sched.p_rtval p) (Sched.p_rtint p) (s16 (ru_msgsnd ru))
    (Sched.p_sig p) (ru_nswap ru) (ru_inblock ru) (ru_oublock ru) (s8 (Z.shiftr (ru_utime ru) 8)).

Definition bury (p x : Z) (ru : k_rusage) : K unit :=
  wrp p (overlay x ru);;
  g ← rdg p;
  wrg p (Seg (u32 (ru_nvcsw ru)) (u32 (ru_nivcsw ru)) (p_dsize g) (p_ssize g));;
  modify (λ s, set_dead (<[p := (x, ru)]> (dead s)) s).

(** A [struct proc **] on a hash chain. *)
Inductive href := HHead | HLink (p : Z).
Definition rd_href (h : Z) (r : href) : K Z :=
  match r with
  | HHead => load (λ s, aget (Sched.pidhash (kern_of s)) h)
  | HLink p => pr ← rdp p; mret (Sched.p_hash pr)
  end.
Definition wr_href (h : Z) (r : href) (v : Z) : K unit :=
  match r with
  | HHead => on_kn (store (λ k, l ← aset (Sched.pidhash k) h v; Some (set_pidhash l k)))
  | HLink p => wrp p (set_p_hash v)
  end.

Fixpoint unhash (fuel : nat) (h : Z) (pp : href) (p : Z) : K unit :=
  match fuel with
  | O => nofuel
  | S f =>
      x ← rd_href h pp;
      if x =? 0 then panic "exit"
      else if x =? p then
        pr ← rdp p;
        wr_href h pp (Sched.p_hash pr)
      else unhash f h (HLink x) p
  end.

Section exit.
Context (RUNIN RUNOUT : Z).
(** Closing the files and releasing the directories of the process; sleeping on
    a channel, and the same with signals let through. *)
Context (release : K unit) (pause : Z → K unit) (tsleep : Z → K Z).

Definition psignal (p sig : Z) : K unit := on_s (Signal.psignal RUNOUT p sig).
Definition wakeup (chan : Z) : K unit := on_kn (Sched.wakeup RUNOUT chan).

Fixpoint endvfork_wait (fuel : nat) (rpp rip : Z) : K unit :=
  match fuel with
  | O => nofuel
  | S f =>
      pr ← rdp rpp;
      if Sched.has_flag SVFDONE pr then mret tt else pause rip;; endvfork_wait f rpp rip
  end.

Definition endvfork (fuel : nat) : K unit :=
  rpp ← kgets Sched.u_procp;
  pr ← rdp rpp;
  let rip := Sched.p_pptr pr in
  wrp rpp (and_not_flag SVFORK);;
  wrp rpp (or_flag SLOCK);;
  wakeup rpp;;
  endvfork_wait fuel rpp rip;;
  g ← rdg rpp;
  wrg rpp (Seg (p_daddr g) (p_saddr g) 0 0);;
  on_s (upd_cx (λ c, set_u_ssize 0 (set_u_dsize 0 c)));;
  wrp rpp (and_not_flag (Z.lor SVFDONE SLOCK)).

(** The children of [p] on one list get process 1 for a parent. *)
Fixpoint orphan_loop (fuel : nat) (q p : Z) : K unit :=
  match fuel with
  | O => nofuel
  | S f =>
      if q =? 0 then mret tt
      else
        qr ← rdp q;
        (if Sched.p_pptr qr =? p then
           wrp q (set_p_parent PROC1 1);;
           wakeup PROC1;;
           qr ← rdp q;
           if Sched.has_flag P_TRACED qr then
             wrp q (and_not_flag P_TRACED);;
             psignal q SIGKILL
           else when (Sched.p_stat qr =? Sched.SSTOP) (psignal q SIGHUP;; psignal q SIGCONT)
         else mret tt);;
        qr ← rdp q;
        orphan_loop f (Sched.p_nxt qr) p
  end.

(** Off [allproc], onto [zombproc], off the hash chain. *)
Definition retire (p : Z) : K unit :=
  unlink p;;
  z ← kgets Sched.zombproc;
  wrp p (set_p_nxt z);;
  when (negb (z =? 0)) (wr_prev z (PNxt p));;
  wr_prev p PZomb;;
  on_kn (modify (Sched.set_zombproc p));;
  wrp p (Sched.set_p_stat Sched.SZOMB);;
  on_kn (modify (Sched.set_noproc true));;
  pr ← rdp p;
  n ← nprocs;
  unhash n (Sched.PIDHASH (Sched.p_pid pr)) HHead p.

(** Up to the call of [swtch], which does not return. *)
Definition exit (fuel : nat) (rv : Z) : K unit :=
  p ← kgets Sched.u_procp;
  wrp p (and_not_flag P_TRACED);;
  wrp p (set_p_sigignore (λ _, -1));;
  wrp p (set_p_sig (λ _, 0));;
  release;;
  on_y (upd_usr (λ u, set_u_rlimit (alter (λ l, RL RLIM_INFINITY (rlim_max l)) (Z.to_nat RLIMIT_FSIZE) (u_rlimit u)) u));;
  pr ← rdp p;
  when (Sched.has_flag SVFORK pr) (endvfork fuel);;
  pr ← rdp p;
  if Sched.p_pid pr =? 1 then panic "init died"
  else
    retire p;;
    u ← gets (λ s, usr (sy (sg (vm s))));
    nv ← kgets Sched.ru_nvcsw;
    bury p rv (Cred.ruadd (set_ru_nvcsw nv (u_ru u)) (u_cru u));;
    n ← nprocs;
    a ← kgets Sched.allproc;
    orphan_loop n a p;;
    z ← kgets Sched.zombproc;
    orphan_loop n z p;;
    pr ← rdp p;
    psignal (Sched.p_pptr pr) SIGCHLD;;
    wakeup (Sched.p_pptr pr);;
    wakeup RUNIN.

Definition rexit (fuel : nat) (rval : Z) : K unit := exit fuel (W_EXITCODE rval 0).

(** Is [pr] a child of [q] that the argument [pid] of [wait4] names? *)
Definition asked (q pid : Z) (pr : Sched.proc) : bool :=
  (Sched.p_pptr pr =? q) && ((pid =? WAIT_ANY) || (Sched.p_pid pr =? pid) || (Sched.p_pgrp pr =? - pid)).

(** Lines 205 to 208 and 213 to 220 of [wait1]. *)
Definition wipe_status (p : Sched.proc) : Sched.proc :=
  Sched.Proc (Sched.p_nxt p) (Sched.p_pptr p) (Sched.p_flag p) (Sched.p_uid p) 0 0 0 0 0 0 0 (Sched.p_slptime p) (Sched.p_hash p)
    (Sched.p_link p) (Sched.p_addr p) (Sched.p_wchan p) (Sched.p_rtval p) (Sched.p_rtint p) (Sched.p_pgrp p)
    (Sched.p_sig p) (Sched.p_sigmask p) (Sched.p_sigignore p) (Sched.p_sigcatch p) (Sched.p_ptracesig p).
Definition wipe_rest (p : Sched.proc) : Sched.proc :=
  Sched.Proc (Sched.p_nxt p) 0 0 (Sched.p_uid p) (Sched.p_pid p) (Sched.p_ppid p) (Sched.p_stat p) (Sched.p_pri p) (Sched.p_cpu p)
    (Sched.p_time p) (Sched.p_nice p) (Sched.p_slptime p) (Sched.p_hash p) (Sched.p_link p) (Sched.p_addr p) 0
    (Sched.p_rtval p) (Sched.p_rtint p) 0 0 0 0 0 (Sched.p_ptracesig p).

(** The entry goes back on the free list. *)
Definition reap (p : Z) (ru : k_rusage) : K unit :=
  on_y (upd_usr (λ u, set_u_cru (Cred.ruadd (u_cru u) ru) u));;
  wrp p wipe_status;;
  modify (λ s, set_dead (<[p := (0, ru)]> (dead s)) s);;
  unlink p;;
  f ← kgets Sched.freeproc;
  wrp p (set_p_nxt f);;
  on_kn (modify (Sched.set_freeproc p));;
  wrp p wipe_rest.

(** The first loop of [wait1]: [retval[0]] and the error, if it returns. *)
Fixpoint wait_zombies (fuel : nat) (p q pid status rusage : Z) : K (option (Z * Z)) :=
  match fuel with
  | O => nofuel
  | S f =>
      if p =? 0 then mret None
      else
        pr ← rdp p;
        if negb (asked q pid pr) then wait_zombies f (Sched.p_nxt pr) q pid status rusage
        else
          '(x, ru) ← load (λ s, dead s !! p);
          e ← (if status =? 0 then mret 0 else on_y (copyout [x] status));
          if negb (e =? 0) then mret (Some (Sched.p_pid pr, e))
          else
            e ← (if rusage =? 0 then mret 0 else on_y (copyout (Cred.rucvt ru) rusage));
            if negb (e =? 0) then mret (Some (Sched.p_pid pr, e))
            else
              reap p ru;;
              mret (Some (Sched.p_pid pr, 0))
  end.

(** The second loop: the number of children found, and the result if it returns. *)
Fixpoint wait_stopped (fuel : nat) (p q pid options status nfound : Z) : K (Z * option (Z * Z)) :=
  match fuel with
  | O => nofuel
  | S f =>
      if p =? 0 then mret (nfound, None)
      else
        pr ← rdp p;
        if negb (asked q pid pr) then wait_stopped f (Sched.p_nxt pr) q pid options status nfound
        else if (Sched.p_stat pr =? Sched.SSTOP) && negb (Sched.has_flag P_WAITED pr) &&
                (Sched.has_flag P_TRACED pr || bit options WUNTRACED) then
          wrp p (or_flag P_WAITED);;
          e ← (if status =? 0 then mret 0 else on_y (copyout [W_STOPCODE (Sched.p_ptracesig pr)] status));
          mret (nfound + 1, Some (Sched.p_pid pr, e))
        else wait_stopped f (Sched.p_nxt pr) q pid options status (nfound + 1)
  end.

(** [wait1] from the label [loop] on. *)
Fixpoint wait_loop (fuel : nat) (q pid options status rusage : Z) : K (Z * Z) :=
  match fuel with
  | O => nofuel
  | S f =>
      n ← nprocs;
      z ← kgets Sched.zombproc;
      r ← wait_zombies n z q pid status rusage;
      match r with
      | Some r => mret r
      | None =>
          a ← kgets Sched.allproc;
          '(nfound, r) ← wait_stopped n a q pid options status 0;
          match r with
          | Some r => mret r
          | None =>
              if nfound =? 0 then mret (0, ECHILD)
              else if bit options WNOHANG then mret (0, 0)
              else
                error ← tsleep q;
                if error =? 0 then wait_loop f q pid options status rusage else mret (0, error)
          end
      end
  end.

Definition wait1 (fuel : nat) (q pid status options rusage : Z) : K (Z * Z) :=
  pid ← (if pid =? WAIT_MYPGRP then qr ← rdp q; mret (- Sched.p_pgrp qr) else mret pid);
  wait_loop fuel q pid options status rusage.

Definition wait4 (fuel : nat) (pid status options rusage : Z) : K unit :=
  q ← kgets Sched.u_procp;
  '(rv, e) ← wait1 fuel q pid status options rusage;
  err e;;
  when (e =? 0) (on_y (upd_usr (set_u_rval rv))).
End exit.
End Proc.
