(* ===== verification/PidSpec.v ===== *)
(** * Process ids

    [newproc] looks for an id that no process has as its own or as its group.
    The search ends, and it finds such an id unless the id and the group of some
    process are neighbours. *)

From S2P Require Import Prelude Links Callout Sched User Clock Cred Signal SigSpec Run Rmap Swap SwapSpec Proc.

Module PidSpec.
Import User Swap Proc.

(** ** Rules *)

Lemma wp_on_vm {A} (m : M vst A) (Q : A → pst → Prop) s : wp m (λ a v, Q a (set_vm v s)) (vm s) → wp (on_vm m) Q s.
Proof. intros (a & v & E & HQ)%wp_run. apply wp_run. unfold on_vm. rewrite E. eauto. Qed.

Definition set_kern_of (k : Sched.kst Callout.cost) (s : pst) : pst :=
  set_vm (Swap.set_sg (Signal.set_sy (set_kern k (Signal.sy (sg (vm s)))) (sg (vm s))) (vm s)) s.

Lemma wp_on_kn {A} (m : M (Sched.kst Callout.cost) A) (Q : A → pst → Prop) s :
  wp m (λ a k, Q a (set_kern_of k s)) (kern_of s) → wp (on_kn m) Q s.
Proof. intros H. by apply wp_on_vm, SwapSpec.wp_on_sg, SigSpec.wp_on_sys, wp_on_kern. Qed.

Lemma set_kern_of_id s : set_kern_of (kern_of s) s = s.
Proof. by destruct s as [[[[]] ? ? ?] ? ? ? ? ? ?]. Qed.

Definition tab (s : pst) : gmap Z Sched.proc := Sched.procs (kern_of s).

Lemma wp_p_rdp p pr (Q : Sched.proc → pst → Prop) s : tab s !! p = Some pr → Q pr s → wp (rdp p) Q s.
Proof. intros Hp HQ. apply wp_on_kn. eapply Sched.wp_rdp; [exact Hp|]. by rewrite set_kern_of_id. Qed.

(** ** The search *)

Definition next (s : pst) : Z → option Z := λ p, Sched.p_nxt <$> tab s !! p.
Definition ids (T : gmap Z Sched.proc) (p : Z) : Z * Z :=
  match T !! p with Some pr => (Sched.p_pid pr, Sched.p_pgrp pr) | None => (0, 0) end.

(** [pid_scan] on the numbers of the processes of the list. *)
Fixpoint scan (l : list (Z * Z)) (m c : Z) : Z * Z * bool :=
  match l with
  | [] => (m, c, false)
  | (a, b) :: l' =>
      let hit := (a =? m) || (b =? m) in
      let m := if hit then m + 1 else m in
      if hit && (c <=? m) then (m, c, true)
      else
        let c := if (m <? a) && (a <? c) then a else c in
        let c := if (m <? b) && (b <? c) then b else c in
        scan l' m c
  end.

Lemma pid_scan_ok fuel l s : ∀ child m c (Q : Z * Z * bool → pst → Prop),
  chain (next s) child l → (length l < fuel)%nat → Q (scan (ids (tab s) <$> l) m c) s → wp (pid_scan fuel child m c) Q s.
Proof.
  revert l. induction fuel as [|fuel IH]; intros l child m c Q Hc Hf HQ; [lia|]. cbn [pid_scan]. destruct l as [|x l].
  { cbn in Hc. subst child. by apply wp_ret. }
  destruct Hc as (-> & Hx & n & Hn & Hc). rewrite (proj2 (Z.eqb_neq x 0)) by done. unfold next in Hn.
  destruct (tab s !! x) as [pr|] eqn:E; [|done]. injection Hn as <-. apply wp_bind. eapply wp_p_rdp; [exact E|].
  assert (Hid : ids (tab s) x = (Sched.p_pid pr, Sched.p_pgrp pr)) by (unfold ids; by rewrite E).
  rewrite fmap_cons, Hid in HQ. cbn [scan] in HQ. destruct (_ && _); [by apply wp_ret|].
  apply (IH l); [done|cbn in Hf; lia|done].
Qed.

Definition used (l : list (Z * Z)) (v : Z) : Prop := ∃ ab, ab ∈ l ∧ (ab.1 = v ∨ ab.2 = v).

(** No process has neighbouring numbers. *)
Definition spaced (l : list (Z * Z)) : Prop := ∀ a b, (a, b) ∈ l → (0 < b → a ≠ b + 1) ∧ (0 < a → b ≠ a + 1).

(** Every number of [l] is below [m] or at least [c]. *)
Definition clear (l : list (Z * Z)) (m c : Z) : Prop := ∀ v, used l v → v < m ∨ c ≤ v.
Definition covered (l : list (Z * Z)) (m m' : Z) : Prop := ∀ x, m ≤ x < m' → used l x.

Lemma used_cons a b l v : used ((a, b) :: l) v ↔ a = v ∨ b = v ∨ used l v.
Proof.
  unfold used. split.
  - intros (ab & [->|H]%elem_of_cons & Hv); [cbn in Hv; tauto|]. right. right. eauto.
  - intros [H|[H|(ab & H & Hv)]]; [exists (a, b)|exists (a, b)|exists ab]; set_solver.
Qed.

Lemma used_app l1 l2 v : used (l1 ++ l2) v ↔ used l1 v ∨ used l2 v.
Proof. unfold used. setoid_rewrite elem_of_app. naive_solver. Qed.

Lemma scan_spec l m c :
  0 < m < c → spaced l →
  match scan l m c with
  | (m', c', false) => m ≤ m' < c' ∧ c' ≤ c ∧ clear l m' c' ∧ covered l m m'
  | (m', c', true) => m < m' ∧ c' ≤ m' ∧ covered l m m'
  end.
Proof.
  revert m c. induction l as [|(a, b) l IH]; intros m c Hm Hs.
  { cbn. split; [lia|]. split; [lia|]. split; [by intros v (ab & ?%elem_of_nil & _)|]. intros x. lia. }
  assert (Hsl : spaced l) by (intros a' b' Hin; apply Hs; set_solver). destruct (Hs a b) as (Ha & Hb); [set_solver|]. cbn [scan].
  set (hit := (a =? m) || (b =? m)). assert (Hhit : hit = true → a = m ∨ b = m).
  { unfold hit. intros [?|?]%orb_true_iff; to_prop; auto. }
  assert (Hmiss : hit = false → a ≠ m ∧ b ≠ m) by (unfold hit; intros [?%Z.eqb_neq ?%Z.eqb_neq]%orb_false_iff; done).
  set (m1 := if hit then m + 1 else m). destruct (hit && (c <=? m1)) eqn:Eg.
  { apply andb_true_iff in Eg as (E1 & E2%Z.leb_le). unfold m1 in *. rewrite E1 in *. split; [lia|]. split; [lia|].
    intros x Hx. apply used_cons. destruct (Hhit eq_refl); lia. }
  assert (H1 : m ≤ m1 < c ∧ a ≠ m1 ∧ b ≠ m1 ∧ covered ((a, b) :: l) m m1).
  { unfold m1 in *. destruct hit; cbn [andb] in Eg.
    - apply Z.leb_gt in Eg. specialize (Hhit eq_refl). split; [lia|]. split; [lia|]. split; [lia|]. intros x Hx. apply used_cons. lia.
    - specialize (Hmiss eq_refl). split; [lia|]. split; [lia|]. split; [lia|]. intros x. lia. }
  destruct H1 as (H1 & Hna & Hnb & Hcov). clearbody m1. clear Eg Hhit Hmiss hit.
  set (c1 := if (m1 <? a) && (a <? c) then a else c). set (c2 := if (m1 <? b) && (b <? c1) then b else c1).
  assert (Hc1 : m1 < c1 ≤ c ∧ (a < m1 ∨ c1 ≤ a)).
  { unfold c1. destruct (Z.ltb_spec m1 a), (Z.ltb_spec a c); cbn [andb]; lia. }
  assert (Hc2 : m1 < c2 ≤ c1 ∧ (b < m1 ∨ c2 ≤ b)).
  { unfold c2. destruct (Z.ltb_spec m1 b), (Z.ltb_spec b c1); cbn [andb]; lia. }
  clearbody c1 c2. specialize (IH m1 c2 ltac:(lia) Hsl). destruct (scan l m1 c2) as ((m', c'), [|]).
  - destruct IH as (I1 & I2 & I3). split; [lia|]. split; [done|]. intros x Hx. destruct (decide (x < m1)); [apply Hcov; lia|].
    apply used_cons. right. right. apply I3. lia.
  - destruct IH as (I1 & I2 & I3 & I4). split; [lia|]. split; [lia|]. split.
    + intros v [Hv|[Hv|Hv]]%used_cons; [lia|lia|by apply I3].
    + intros x Hx. destruct (decide (x < m1)); [apply Hcov; lia|]. apply used_cons. right. right. apply I4. lia.
Qed.

(** The numbers at least [m] that are in use. *)
Definition above (l : list (Z * Z)) (m : Z) : gset Z := filter (λ v, m ≤ v) (list_to_set (l.*1 ++ l.*2)).

Lemma elem_above l m v : v ∈ above l m ↔ m ≤ v ∧ used l v.
Proof.
  unfold above, used. rewrite elem_of_filter, elem_of_list_to_set, elem_of_app, !list_elem_of_fmap. naive_solver.
Qed.

Lemma above_size l m : (size (above l m) ≤ 2 * length l)%nat.
Proof.
  transitivity (size (list_to_set (C := gset Z) (l.*1 ++ l.*2))); [apply subseteq_size; unfold above; set_solver|].
  transitivity (length (l.*1 ++ l.*2)); [|rewrite length_app, !length_fmap; lia].
  generalize (l.*1 ++ l.*2). induction l0 as [|x l0 IH]; [done|]. cbn [list_to_set length]. rewrite size_union_alt, size_singleton. pose proof (subseteq_size (list_to_set (C := gset Z) l0 ∖ {[x]}) (list_to_set l0) ltac:(set_solver)). lia.
Qed.

Lemma above_less l m m' : m < m' → covered l m m' → (size (above l m') < size (above l m))%nat.
Proof.
  intros Hm Hc. apply subset_size. assert (Hin : m ∈ above l m) by (apply elem_above; split; [lia|apply Hc; lia]).
  split; [intros v; rewrite !elem_above; intros [? ?]; split; [lia|done]|].
  intros Hsub. apply Hsub in Hin. apply elem_above in Hin. lia.
Qed.

(** From 100 on there are more ids than numbers in use. *)
Lemma covered_short l m : 100 ≤ m → covered l 100 m → m - 100 ≤ 2 * zlen l.
Proof.
  intros Hm Hc. assert (H : (length (seqZ 100 (m - 100)) ≤ size (above l 100))%nat).
  { rewrite <- (size_list_to_set (C := gset Z) (seqZ 100 (m - 100))) by apply NoDup_seqZ. apply subseteq_size.
    intros v. rewrite elem_of_list_to_set, elem_of_seqZ, elem_above. intros Hv. split; [lia|]. apply Hc. lia. }
  rewrite length_seqZ in H. pose proof (above_size l 100). lia.
Qed.

Section search.
Context (s : pst) (la lz : list Z).
Context (Hla : chain (next s) (Sched.allproc (kern_of s)) la) (Hlz : chain (next s) (Sched.zombproc (kern_of s)) lz).
Context (Hlen : (length la + length lz ≤ size (tab s))%nat) (Hsize : Z.of_nat (size (tab s)) ≤ 1000).
Let L := (ids (tab s) <$> la) ++ (ids (tab s) <$> lz).
Context (Hsp : spaced L).

Lemma len_L : (length L = length la + length lz)%nat.
Proof. unfold L. by rewrite length_app, !length_fmap. Qed.

(** Both lists are scanned. *)
Lemma round_ok m (again : Z → Z → M pst (Z * Z)) (Q : Z * Z → pst → Prop) : 0 < m < PIDMAX →
  (∀ m' c', m < m' → c' ≤ m' → covered L m m' → wp (again m' c') Q s) →
  (∀ m' c', m ≤ m' < c' → c' ≤ PIDMAX → covered L m m' → clear L m' c' → Q (m', c') s) →
  wp (n ← nprocs; a ← kgets Sched.allproc; '(m, c, r) ← pid_scan n a m PIDMAX;
      if r : bool then again m c
      else z ← kgets Sched.zombproc; '(m, c, r) ← pid_scan n z m c; if r : bool then again m c else mret (m, c)) Q s.
Proof.
  intros Hm Hag HQ. apply wp_bind, wp_gets, wp_bind, wp_gets, wp_bind. change (Sched.procs (kern_of s)) with (tab s).
  assert (Hs1 : spaced (ids (tab s) <$> la)) by (intros a b Hin; apply Hsp; unfold L; set_solver).
  assert (Hs2 : spaced (ids (tab s) <$> lz)) by (intros a b Hin; apply Hsp; unfold L; set_solver).
  apply (pid_scan_ok _ la); [done|lia|]. pose proof (scan_spec _ m PIDMAX Hm Hs1) as H1. destruct (scan _ m PIDMAX) as ((m1, c1), [|]).
  { destruct H1 as (? & ? & Hc). apply Hag; [done|done|]. intros x Hx. apply used_app. left. by apply Hc. }
  destruct H1 as (? & ? & Hcl & Hc). apply wp_bind, wp_gets, wp_bind. apply (pid_scan_ok _ lz); [done|lia|].
  pose proof (scan_spec _ m1 c1 ltac:(lia) Hs2) as H2.
  assert (Hcov : ∀ m2, covered (ids (tab s) <$> lz) m1 m2 → covered L m m2).
  { intros m2 Hc2 x Hx. apply used_app. destruct (decide (x < m1)); [left; apply Hc; lia|right; apply Hc2; lia]. }
  destruct (scan _ m1 c1) as ((m2, c2), [|]).
  - destruct H2 as (? & ? & Hc2). apply Hag; [lia|done|by apply Hcov].
  - destruct H2 as (? & ? & Hcl2 & Hc2). apply wp_ret, HQ; [lia|lia|by apply Hcov|].
    intros v [Hv|Hv]%used_app; [specialize (Hcl v Hv); lia|by apply Hcl2].
Qed.

Definition found (r : Z * Z) (s' : pst) : Prop := s' = s ∧ 0 < r.1 < r.2 ∧ r.2 ≤ PIDMAX ∧ clear L r.1 r.2.

Lemma retry_ok fuel : ∀ m c (wrapped : bool), 0 < m →
  (m < c → clear L m c ∧ c ≤ PIDMAX) → (if wrapped then 100 ≤ m ∧ covered L 100 m else True) →
  (size (above L m) + (if wrapped then 0 else 2 * length L + 1) < fuel)%nat →
  wp (pid_retry fuel m c) found s.
Proof.
  induction fuel as [|fuel IH]; intros m c wrapped Hm Hc Hw Hf; [lia|]. cbn [pid_retry]. pose proof len_L as HL.
  assert (Hround : ∀ w m c, 0 < m < PIDMAX → (m < c → clear L m c ∧ c ≤ PIDMAX) → (if w : bool then 100 ≤ m ∧ covered L 100 m else True) →
    (size (above L m) + (if w then 0 else 2 * length L + 1) ≤ fuel)%nat →
    wp (if c <=? m then
          n ← nprocs; a ← kgets Sched.allproc; '(m, c, r) ← pid_scan n a m PIDMAX;
          if r : bool then pid_retry fuel m c
          else z ← kgets Sched.zombproc; '(m, c, r) ← pid_scan n z m c; if r : bool then pid_retry fuel m c else mret (m, c)
        else mret (m, c)) found s).
  { clear m c wrapped Hm Hc Hw Hf. intros w m c Hm Hc Hw Hf. destruct (Z.leb_spec c m) as [Hle|Hlt].
    2: { apply wp_ret. destruct (Hc Hlt). split; [done|]. cbn. split; [lia|done]. }
    apply round_ok; [done| |].
    - intros m' c' Hm' Hc' Hcov. pose proof (above_less _ _ _ Hm' Hcov). apply (IH m' c' w); [lia|lia| |lia].
      destruct w; [|done]. destruct Hw as (? & Hw). split; [lia|]. intros x Hx. destruct (decide (x < m)); [apply Hw|apply Hcov]; lia.
    - intros m' c' H1 H2 _ H3. split; [done|]. cbn. split; [lia|done]. }
  destruct (Z.leb_spec PIDMAX m) as [Hge|Hlt].
  - destruct wrapped.
    { exfalso. destruct Hw as (? & Hw). pose proof (covered_short L m ltac:(lia) Hw) as Hshort. unfold PIDMAX in Hge. lia. }
    apply (Hround true 100 0); [unfold PIDMAX; lia|lia|split; [lia|intros x; lia]|]. pose proof (above_size L 100). lia.
  - apply (Hround wrapped m c); [lia|done|done|lia].
Qed.

Lemma new_pid_ok : 0 ≤ mpid s → (mpid s + 1 < pidchecked s → clear L (mpid s + 1) (pidchecked s) ∧ pidchecked s ≤ PIDMAX) →
  wp new_pid (λ _ s', ∃ m c, s' = set_pids m c s ∧ 0 < m < c ∧ c ≤ PIDMAX ∧ clear L m c) s.
Proof.
  intros Hm Hc. unfold new_pid. apply wp_bind, wp_gets, wp_bind, wp_gets, wp_bind, wp_gets, wp_bind.
  eapply wp_mono; [apply (retry_ok _ (mpid s + 1) (pidchecked s) false); [lia|done|done|]|].
  - pose proof (above_size L (mpid s + 1)). pose proof len_L. unfold pid_fuel. change (Sched.procs (kern_of s)) with (tab s). lia.
  - intros (m, c) s' (-> & H1 & H2 & H3). apply wp_modify. eauto 10.
Qed.
End search.

(** Entries of the table that the two lists hold. *)
Lemma lists_size s p l q l' : chain (next s) p l → chain (next s) q l' → NoDup (l ++ l') → (length l + length l' ≤ size (tab s))%nat.
Proof.
  intros H1 H2 Hnd. rewrite <- length_app, <- size_dom, <- (size_list_to_set (C := gset Z) (l ++ l')) by done.
  apply subseteq_size. intros x. rewrite elem_of_list_to_set, elem_of_dom, elem_of_app.
  assert (H : ∀ r m, chain (next s) r m → x ∈ m → is_Some (tab s !! x)).
  { intros r m Hc (l1 & l2 & ->)%list_elem_of_split. apply lseg_app in Hc as (y & _ & -> & _ & n & Hn & _).
    unfold next in Hn. destruct (tab s !! x); [eauto|done]. }
  intros [?|?]; eauto.
Qed.


(** Process 3, with id 101, is in group 100, whose leader is gone. *)
Definition demo_pids (m : Z) : pst :=
  let pr nx pid pgrp := User.set_p_pgrp pgrp (Sched.demo_proc nx Sched.SRUN 60 0 0 0 Sched.SLOAD pid 0 0) in
  let k := Sched.set_procs (list_to_map [(1, pr 0 0 0); (2, pr 1 1 0); (3, pr 2 101 100); (4, pr 0 0 0)])
    (Sched.set_allproc 3 (Sched.set_freeproc 4 (Sched.set_zombproc 0 Sched.demo))) in
  let v := SwapSpec.demo_swap in
  PS (Swap.set_sg (Signal.set_sy (User.set_kern k (Signal.sy (sg v))) (sg v)) v) ∅ ∅ m 0 (FS 0 0 0 0) 0.

(** The search can give out an id that is in use.  The code tests
    [p_pid == mpid || p_pgrp == mpid] once and then steps to the next number
    without testing the same process again.  Process 3 has id 101 and group 100;
    when [mpid] comes to 100 the group stops it, and the search returns 101. *)
Theorem new_pid_duplicate :
  ∃ s', new_pid (demo_pids 99) = Ret tt s' ∧ mpid s' = 101 ∧
    (Sched.p_pid <$> tab s' !! 3) = Some 101 ∧ chain (next s') (Sched.allproc (kern_of s')) [3; 2; 1].
Proof. eexists. split; [vm_compute; reflexivity|]. split; [done|]. split; [done|]. apply lsegb_sound. vm_compute. reflexivity. Qed.

(** From 29999 the search wraps around to 100 and has to pass 100 and 101. *)
Definition demo_wrap : pst :=
  let s := demo_pids 29999 in
  set_kern_of (Sched.set_procs (alter (λ pr, User.set_p_pgrp 101 pr) 3 (tab s)) (kern_of s)) s.

End PidSpec.
