(* ===== verification/ProcSpec.v ===== *)
(** * The lists of processes

    Doubly linked lists with a pointer back to the pointer, the hash chains, and
    what [unlink] and [retire] do to them. *)

From S2P Require Import Prelude Links Callout Sched User Clock Cred Signal SigSpec Run Rmap Swap SwapSpec Proc PidSpec.

Module ProcSpec.
Import User Swap Proc PidSpec.

(** ** Lists with a pointer back to the pointer *)

Fixpoint dlist (nx : Z → option Z) (pv : Z → option pref) (r : pref) (p : Z) (l : list Z) : Prop :=
  match l with
  | [] => p = 0
  | x :: l' => p = x ∧ x ≠ 0 ∧ pv x = Some r ∧ ∃ n, nx x = Some n ∧ dlist nx pv (PNxt x) n l'
  end.

Lemma dlist_chain nx pv r p l : dlist nx pv r p l → chain nx p l.
Proof. revert r p. induction l as [|x l IH]; intros r p; [done|]. intros (-> & Hx & _ & n & Hn & Hl). split; [done|]. split; [done|]. eauto. Qed.

Lemma dlist_ext nx pv nx' pv' r p l :
  (∀ x, x ∈ l → nx' x = nx x ∧ pv' x = pv x) → dlist nx pv r p l → dlist nx' pv' r p l.
Proof.
  revert r p. induction l as [|x l IH]; intros r p Hx; [done|]. intros (-> & Hx0 & Hr & n & Hn & Hl).
  destruct (Hx x) as (E1 & E2); [set_solver|]. split_and!; [done|done|congruence|]. exists n. split; [congruence|].
  apply IH; [|done]. intros y Hy. apply Hx. set_solver.
Qed.

(** The pointer to the entry behind [l1]. *)
Definition ref_to (r : pref) (l1 : list Z) : pref := match last l1 with Some x => PNxt x | None => r end.

Lemma dlist_app nx pv r p l1 l2 :
  dlist nx pv r p (l1 ++ l2) ↔ ∃ m, lseg nx p l1 m ∧ (∀ l0 x l3, l1 = l0 ++ x :: l3 → pv x = Some (ref_to r l0)) ∧ dlist nx pv (ref_to r l1) m l2.
Proof.
  revert r p. induction l1 as [|y l1 IH]; intros r p; cbn [app].
  - split; [intros H; exists p; split_and!; try done; intros [] ? ?; done|]. intros (m & Hm & _ & H). cbn in Hm. by subst.
  - cbn [dlist lseg]. assert (Href : ∀ l0, ref_to (PNxt y) l0 = ref_to r (y :: l0)).
    { intros l0. unfold ref_to. rewrite last_cons. by destruct (last l0). }
    split.
    + intros (-> & Hy & Hr & n & Hn & (m & H1 & H2 & H3)%IH). exists m. split_and!; [done|done|eauto| |by rewrite <- Href].
      intros [|z l0] x l3 E; cbn in E; simplify_eq; [done|]. rewrite <- Href. eauto.
    + intros (m & (-> & Hy & n & Hn & H1) & H2 & H3). split_and!; [done|done|exact (H2 [] y l1 eq_refl)|]. exists n. split; [done|].
      apply IH. exists m. split_and!; [done| |by rewrite Href]. intros l0 x l3 ->. rewrite Href. apply (H2 (y :: l0) x l3). done.
Qed.

Lemma dlist_head nx pv r p x l : dlist nx pv r p (x :: l) → p = x ∧ x ≠ 0 ∧ pv x = Some r ∧ ∃ n, nx x = Some n ∧ dlist nx pv (PNxt x) n l.
Proof. done. Qed.

(** Leading to the list through another pointer. *)
Lemma dlist_relink nx pv r r' p l : dlist nx pv r p l →
  dlist nx (λ z, if decide (z = p ∧ p ≠ 0) then Some r' else pv z) r' p l.
Proof.
  destruct l as [|x l]; [done|]. intros Hd. pose proof (chain_nodup _ _ _ (dlist_chain _ _ _ _ _ Hd)) as [Hn _]%NoDup_cons.
  destruct Hd as (-> & Hx & _ & n & Hnx & Hl). split_and!; [done|done|by rewrite decide_True|]. exists n. split; [done|].
  eapply dlist_ext; [|exact Hl]. intros y Hy. rewrite decide_False; [done|]. intros [-> _]. done.
Qed.

(** Taking [x] out. *)
Lemma dlist_remove nx pv nx' pv' r p p' l1 x l2 n :
  dlist nx pv r p (l1 ++ x :: l2) → nx x = Some n →
  (∀ y, y ∈ l1 → ref_to r l1 ≠ PNxt y → nx' y = nx y) → (∀ y, ref_to r l1 = PNxt y → nx' y = Some n) →
  (∀ y, y ∈ l2 → nx' y = nx y) →
  (∀ y, y ∈ l1 ++ l2 → pv' y = if decide (y = n ∧ n ≠ 0) then Some (ref_to r l1) else pv y) →
  p' = (if decide (l1 = []) then n else p) →
  dlist nx' pv' r p' (l1 ++ l2).
Proof.
  intros Hd Hn Hn1 Hn2 Hn3 Hpv ->. pose proof (chain_nodup _ _ _ (dlist_chain _ _ _ _ _ Hd)) as Hnd.
  apply NoDup_app in Hnd as (Hnd1 & Hdis & [Hx2 Hnd2]%NoDup_cons).
  apply dlist_app in Hd as (m & H1 & H2 & H3). apply dlist_head in H3 as (-> & Hx0 & Hrx & n' & Hn' & H3). rewrite Hn in Hn'. injection Hn' as <-.
  assert (Hnl1 : n ∈ l1 → n ≠ 0 → False).
  { intros Hin Hn0. destruct l2 as [|y l2]; [done|]. destruct H3 as (-> & _). apply (Hdis y); set_solver. }
  apply dlist_app. exists n. split; [|split].
  - destruct (last l1) as [y|] eqn:El.
    + apply last_Some in El as (l0 & ->). apply lseg_snoc in H1 as (H1 & Hy0 & Hy). rewrite decide_False by (by destruct l0).
      assert (Hr : ref_to r (l0 ++ [y]) = PNxt y) by (unfold ref_to; by rewrite last_snoc).
      apply lseg_snoc. split_and!; [|done|by apply Hn2]. eapply lseg_ext; [|exact H1]. intros z Hz. apply Hn1; [set_solver|].
      rewrite Hr. intros [= ->]. apply NoDup_app in Hnd1 as (_ & Hd1 & _). apply (Hd1 z Hz). set_solver.
    + apply last_None in El as ->. by rewrite decide_True.
  - intros l0 y l3 ->. rewrite Hpv by set_solver. rewrite decide_False; [by eapply H2|]. intros [-> Hn0]. apply Hnl1; set_solver.
  - eapply dlist_ext; [|exact (dlist_relink _ _ _ (ref_to r l1) _ _ H3)]. intros y Hy. split; [by apply Hn3|]. apply Hpv. set_solver.
Qed.

(** Adding [x] in front. *)
Lemma dlist_push nx pv nx' pv' r p l x :
  dlist nx pv r p l → x ∉ l → x ≠ 0 → nx' x = Some p → (∀ y, y ∈ l → nx' y = nx y) → pv' x = Some r →
  (∀ y, y ∈ l → pv' y = if decide (y = p ∧ p ≠ 0) then Some (PNxt x) else pv y) → dlist nx' pv' r x (x :: l).
Proof.
  intros Hd Hx Hx0 Hnx Hn Hpx Hpv. split_and!; [done|done|done|]. exists p. split; [done|].
  eapply dlist_ext; [|exact (dlist_relink _ _ _ (PNxt x) _ _ Hd)]. intros y Hy. split; [by apply Hn|]. by apply Hpv.
Qed.

(** ** Rules *)

Notation kern_t := (Sched.kst Callout.cost).

Definition set_tab (T : gmap Z Sched.proc) (s : pst) : pst := set_kern_of (Sched.set_procs T (kern_of s)) s.
Definition prev (s : pst) : Z → option pref := λ p, prevs s !! p.
Definition all_of (s : pst) : Z := Sched.allproc (kern_of s).
Definition zomb_of (s : pst) : Z := Sched.zombproc (kern_of s).
Definition free_of (s : pst) : Z := Sched.freeproc (kern_of s).

Lemma wp_p_wrp p pr f (Q : unit → pst → Prop) s : tab s !! p = Some pr → Q tt (set_tab (<[p := f pr]> (tab s)) s) → wp (wrp p f) Q s.
Proof. intros Hp HQ. apply wp_on_kn. by eapply Sched.wp_wrp; [exact Hp|]. Qed.

Lemma wp_wr_prev p v (Q : unit → pst → Prop) s : is_Some (tab s !! p) → Q tt (set_prevs (<[p := v]> (prevs s)) s) → wp (wr_prev p v) Q s.
Proof. intros [pr Hp] HQ. eapply wp_store; [|exact HQ]. unfold tab in Hp. by rewrite Hp. Qed.

Lemma wp_on_s {A} (m : M Signal.sgst A) (Q : A → pst → Prop) s :
  wp m (λ a g, Q a (set_vm (Swap.set_sg g (vm s)) s)) (sg (vm s)) → wp (on_s m) Q s.
Proof. intros H. by apply wp_on_vm, SwapSpec.wp_on_sg. Qed.

(** Everything but the process table, the heads of the lists and [p_prev]. *)
Definition bare (s : pst) : pst :=
  set_prevs ∅ (set_kern_of (Sched.set_procs ∅ (Sched.set_allproc 0 (Sched.set_zombproc 0 (Sched.set_freeproc 0
    (set_pidhash [] (Sched.set_noproc false (kern_of s))))))) s).

(** Up to the links of the lists and hash chains. *)
Definition plain (pr : Sched.proc) : Sched.proc := set_p_nxt 0 (set_p_hash 0 pr).
Definition same_plain (s s' : pst) : Prop := ∀ z, plain <$> tab s' !! z = plain <$> tab s !! z.

Lemma next_Some s p pr : tab s !! p = Some pr → next s p = Some (Sched.p_nxt pr).
Proof. unfold next. by intros ->. Qed.

Lemma dlist_tab s pv r p l x : dlist (next s) pv r p l → x ∈ l → ∃ pr, tab s !! x = Some pr.
Proof.
  intros Hd%dlist_chain (l1 & l2 & ->)%list_elem_of_split. apply lseg_app in Hd as (y & _ & -> & _ & n & Hn & _).
  unfold next in Hn. destruct (tab s !! x); [eauto|done].
Qed.

(** ** Taking an entry off a list *)

(** The head a list starts from. *)
Definition head_of (z : bool) (s : pst) : Z := if z then zomb_of s else all_of s.
Definition root (z : bool) : pref := if z then PZomb else PAll.

Lemma unlink_ok z s l1 p l2 (Q : unit → pst → Prop) :
  dlist (next s) (prev s) (root z) (head_of z s) (l1 ++ p :: l2) →
  (∀ s', dlist (next s') (prev s') (root z) (head_of z s') (l1 ++ l2) →
     (∀ y, y ∉ l1 → tab s' !! y = tab s !! y) → (∀ y, y ∉ l2 → prev s' y = prev s y) →
     head_of (negb z) s' = head_of (negb z) s → free_of s' = free_of s →
     same_plain s s' → Sched.pidhash (kern_of s') = Sched.pidhash (kern_of s) → (∀ y, Sched.hnk (kern_of s') y = Sched.hnk (kern_of s) y) →
     bare s' = bare s → Q tt s') →
  wp (unlink p) Q s.
Proof.
  intros Hd HQ. destruct (dlist_tab _ _ _ _ _ p Hd) as (pr & Hp); [set_solver|].
  pose proof (chain_nodup _ _ _ (dlist_chain _ _ _ _ _ Hd)) as Hnd. apply NoDup_app in Hnd as (Hnd1 & Hdis & [Hp2 Hnd2]%NoDup_cons).
  pose proof Hd as (m & H1 & _ & H3)%dlist_app. apply dlist_head in H3 as (-> & Hp0 & Hrp & n & Hn & H3).
  assert (n = Sched.p_nxt pr) as -> by (rewrite (next_Some _ _ _ Hp) in Hn; congruence). set (n := Sched.p_nxt pr) in *.
  unfold unlink. apply wp_bind. eapply wp_load; [exact Hrp|]. apply wp_bind. eapply wp_p_rdp; [exact Hp|]. fold n. apply wp_bind.
  assert (Hn2 : n ≠ 0 → n ∈ l2 ∧ is_Some (tab s !! n)).
  { intros Hn0. destruct l2 as [|y l2]; [done|]. destruct H3 as (-> & _). split; [set_solver|].
    destruct (dlist_tab _ _ _ _ _ y Hd) as (yr & ?); [set_solver|eauto]. }
  (** What is left after the write through [p_prev]. *)
  assert (Hgo : ∀ s1, (∀ y, is_Some (tab s !! y) → is_Some (tab s1 !! y)) → prevs s1 = prevs s →
    (∀ pv, (∀ y, pv !! y = if decide (y = n ∧ n ≠ 0) then Some (ref_to (root z) l1) else prevs s !! y) → Q tt (set_prevs pv s1)) →
    wp (when (negb (n =? 0)) (wr_prev n (ref_to (root z) l1))) Q s1).
  { intros s1 Hs1 Hpv HQ1. apply wp_when; intros E; to_prop.
    - apply wp_wr_prev; [by apply Hs1, Hn2|]. rewrite Hpv. apply HQ1. intros y. destruct (decide (y = n)) as [->|].
      + rewrite lookup_insert_eq, decide_True; done.
      + rewrite lookup_insert_ne, decide_False by (try done; by intros []). done.
    - replace s1 with (set_prevs (prevs s) s1) by (rewrite <- Hpv; by destruct s1). apply HQ1. intros y. by rewrite decide_False by tauto. }
  destruct (last l1) as [y|] eqn:El.
  - apply last_Some in El as (l0 & ->). assert (Href : ref_to (root z) (l0 ++ [y]) = PNxt y) by (unfold ref_to; by rewrite last_snoc).
    destruct (dlist_tab _ _ _ _ _ y Hd) as (yr & Hy); [set_solver|]. rewrite Href in *. cbn [wr_ref].
    assert (Hyp : y ∉ p :: l2) by (apply Hdis; set_solver).
    eapply wp_p_wrp; [exact Hy|]. set (T := <[y := set_p_nxt n yr]> (tab s)). apply (Hgo (set_tab T s)); [|done|].
    { intros x Hx. unfold T. cbn. by apply lookup_insert_is_Some'; right. }
    intros pv Hpv. assert (HT : ∀ x, x ≠ y → T !! x = tab s !! x) by (intros; by apply lookup_insert_ne).
    assert (Hty : T !! y = Some (set_p_nxt n yr)) by apply lookup_insert_eq. apply HQ.
    + eapply (dlist_remove (next s) (prev s)); [exact Hd|exact Hn| | | | |].
      * intros x Hx Hne. unfold next. change (tab (set_prevs pv (set_tab T s))) with T. rewrite HT by congruence. done.
      * rewrite Href. intros x [= <-]. unfold next. change (tab (set_prevs pv (set_tab T s))) with T. by rewrite Hty.
      * intros x Hx. unfold next. change (tab (set_prevs pv (set_tab T s))) with T. rewrite HT; [done|]. intros ->. set_solver.
      * intros x _. rewrite Href. apply Hpv.
      * rewrite decide_False by (by destruct l0). by destruct z.
    + intros x Hx. change (tab (set_prevs pv (set_tab T s))) with T. apply HT. set_solver.
    + intros x Hx. unfold prev. cbn. rewrite Hpv. rewrite decide_False; [done|]. intros [-> H0]. by apply Hx, Hn2.
    + by destruct z.
    + done.
    + intros x. change (tab (set_prevs pv (set_tab T s))) with T. destruct (decide (x = y)) as [->|]; [by rewrite Hty, Hy|by rewrite HT].
    + done.
    + intros x. unfold Sched.hnk. change (Sched.procs (kern_of (set_prevs pv (set_tab T s)))) with T. change (Sched.procs (kern_of s)) with (tab s).
      destruct (decide (x = y)) as [->|]; [by rewrite Hty, Hy|by rewrite HT].
    + done.
  - apply last_None in El as ->. cbn [ref_to last]. change (ref_to (root z) []) with (root z) in *.
    assert (Hw : ∀ (Q' : unit → pst → Prop), (∀ s1, tab s1 = tab s → prevs s1 = prevs s → head_of z s1 = n → head_of (negb z) s1 = head_of (negb z) s →
      free_of s1 = free_of s → Sched.pidhash (kern_of s1) = Sched.pidhash (kern_of s) → bare s1 = bare s → Q' tt s1) → wp (wr_ref (root z) n) Q' s).
    { intros Q' HQ'. destruct z; apply wp_on_kn, wp_modify; by apply HQ'. }
    apply Hw. intros s1 Et Ep Eh Eo Ef Ehs Eb. apply (Hgo s1); [by rewrite Et|done|]. intros pv Hpv.
    assert (Htab : tab (set_prevs pv s1) = tab s) by (exact Et). apply HQ; try done.
    + eapply (dlist_remove (next s) (prev s) _ _ _ _ _ []); [exact Hd|exact Hn|set_solver|by destruct z| | |].
      * intros x Hx. unfold next. by rewrite Htab.
      * intros x _. apply Hpv.
      * rewrite decide_True by done. by destruct z.
    + intros x _. by rewrite Htab.
    + intros x Hx. unfold prev. cbn. rewrite Hpv. rewrite decide_False; [done|]. intros [-> H0]. by apply Hx, Hn2.
    + intros x. by rewrite Htab.
    + intros x. unfold Sched.hnk. change (Sched.procs (kern_of (set_prevs pv s1))) with (tab s1). by rewrite Et.
Qed.

(** ** Hash chains *)

Definition upd_hq (hq : Z → list Z) (h : Z) (l : list Z) : Z → list Z := λ i, if decide (i = h) then l else hq i.
Definition at_href (pre : list Z) (r : href) : Prop := match r with HHead => pre = [] | HLink x => last pre = Some x end.

(** What a change of the hash chains leaves alone. *)
Record hash_frame (s s' : pst) : Prop := {
  hf_next : ∀ y, next s' y = next s y;
  hf_prevs : prevs s' = prevs s;
  hf_heads : all_of s' = all_of s ∧ zomb_of s' = zomb_of s ∧ free_of s' = free_of s;
  hf_plain : same_plain s s';
  hf_bare : bare s' = bare s
}.

Lemma plain_fields pr pr' : plain pr' = plain pr → Sched.p_pid pr' = Sched.p_pid pr ∧ Sched.p_pptr pr' = Sched.p_pptr pr ∧
  Sched.p_stat pr' = Sched.p_stat pr ∧ Sched.p_flag pr' = Sched.p_flag pr ∧ Sched.p_wchan pr' = Sched.p_wchan pr ∧
  Sched.p_link pr' = Sched.p_link pr ∧ Sched.p_ppid pr' = Sched.p_ppid pr ∧ Sched.p_pgrp pr' = Sched.p_pgrp pr.
Proof. destruct pr, pr'. unfold plain, set_p_nxt, set_p_hash. cbn. by intros [=]. Qed.

Lemma same_plain_tab s s' p pr : same_plain s s' → tab s !! p = Some pr → ∃ pr', tab s' !! p = Some pr' ∧ plain pr' = plain pr.
Proof. intros H Hp. specialize (H p). rewrite Hp in H. destruct (tab s' !! p) as [pr'|]; [|done]. apply (inj Some) in H. eauto. Qed.

Lemma same_plain_pid s s' p : same_plain s s' → Sched.pid_of (kern_of s') p = Sched.pid_of (kern_of s) p.
Proof.
  intros H. specialize (H p). unfold Sched.pid_of. change (Sched.procs (kern_of s')) with (tab s'). change (Sched.procs (kern_of s)) with (tab s).
  destruct (tab s' !! p), (tab s !! p); try done. apply (inj Some), plain_fields in H. cbn. by destruct H.
Qed.

Lemma hash_tab s h l x : chain (Sched.hnk (kern_of s)) h l → x ∈ l → ∃ pr, tab s !! x = Some pr.
Proof.
  intros Hd (l1 & l2 & ->)%list_elem_of_split. apply lseg_app in Hd as (y & _ & -> & _ & n & Hn & _).
  unfold Sched.hnk in Hn. change (Sched.procs (kern_of s)) with (tab s) in Hn. destruct (tab s !! x); [eauto|done].
Qed.

Lemma hash_disjoint (k : kern_t) hq i j p : Sched.hashed k hq → 0 ≤ i < Sched.PIDHSZ → 0 ≤ j < Sched.PIDHSZ → p ∈ hq i → p ∈ hq j → i = j.
Proof. intros (_ & H) Hi Hj H1 H2. rewrite <- (H i p), <- (H j p); done. Qed.

(** The link that leads to [p] is set to its successor. *)
Lemma wr_href_ok s hq h pre p post r pr (Q : unit → pst → Prop) :
  Sched.hashed (kern_of s) hq → 0 ≤ h < Sched.PIDHSZ → hq h = pre ++ p :: post → at_href pre r → tab s !! p = Some pr →
  (∀ s', hash_frame s s' → Sched.hashed (kern_of s') (upd_hq hq h (pre ++ post)) → Q tt s') →
  wp (wr_href h r (Sched.p_hash pr)) Q s.
Proof.
  intros Hh Hr Hq Hpos Hp HQ. pose proof Hh as (Hc & Hi). destruct (Hc h Hr) as (hd & Hhd & Hch). rewrite Hq in Hch.
  pose proof (chain_nodup _ _ _ Hch) as Hnd. apply NoDup_app in Hnd as (Hnd1 & Hdis & [Hp2 _]%NoDup_cons).
  assert (Hlp : Sched.hnk (kern_of s) p = Some (Sched.p_hash pr)) by (unfold Sched.hnk; change (Sched.procs (kern_of s)) with (tab s); by rewrite Hp).
  assert (Hin : ∀ i z, z ∈ upd_hq hq h (pre ++ post) i → z ∈ hq i).
  { intros i z. unfold upd_hq. case_decide; [subst; rewrite Hq; set_solver|done]. }
  destruct r as [|x]; cbn in Hpos; cbn [wr_href].
  - subst pre. destruct Hch as (-> & Hp0 & n & Hn & Hch). rewrite Hlp in Hn. injection Hn as <-.
    apply wp_on_kn. eapply wp_store; [rewrite aset_Some; [reflexivity|]; apply aget_Some in Hhd; done|]. apply HQ; [by split|].
    split; [|intros i z Hir Hz; by apply Hi, Hin]. intros i Hir. cbn. rewrite aget_insert by (apply aget_Some in Hhd; done).
    unfold upd_hq. destruct (decide (h = i)) as [<-|]; [rewrite decide_True by done; eauto|]. rewrite decide_False by done. by apply Hc.
  - apply last_Some in Hpos as (l0 & ->). destruct (hash_tab _ _ _ x Hch) as (xr & Hx); [set_solver|].
    assert (Hxp : x ≠ p) by (intros ->; apply (Hdis p); set_solver).
    rewrite <- app_assoc in Hch. cbn [app] in Hch. apply lseg_app in Hch as (m & H1 & -> & Hx0 & n & Hn & (-> & Hp0 & n' & Hn' & H2)).
    eapply wp_p_wrp; [exact Hx|]. set (T := <[x := set_p_hash (Sched.p_hash pr) xr]> (tab s)).
    assert (HT : ∀ y, y ≠ x → T !! y = tab s !! y) by (intros; by apply lookup_insert_ne).
    assert (Htx : T !! x = Some (set_p_hash (Sched.p_hash pr) xr)) by apply lookup_insert_eq.
    assert (Hnk : ∀ y, Sched.hnk (kern_of (set_tab T s)) y = upd (Sched.hnk (kern_of s)) x (Sched.p_hash pr) y).
    { intros y. unfold Sched.hnk, upd. change (Sched.procs (kern_of (set_tab T s))) with T. case_decide as E; [subst; by rewrite Htx|by rewrite HT]. }
    assert (Hpl : same_plain s (set_tab T s)).
    { intros y. change (tab (set_tab T s)) with T. destruct (decide (y = x)) as [->|]; [by rewrite Htx, Hx|by rewrite HT]. }
    apply HQ.
    + split; try done. intros y. unfold next. change (tab (set_tab T s)) with T. destruct (decide (y = x)) as [->|]; [by rewrite Htx, Hx|by rewrite HT].
    + split; [|intros i z Hir Hz; rewrite (same_plain_pid s) by done; by apply Hi, Hin]. intros i Hir. unfold upd_hq.
      destruct (decide (i = h)) as [->|Hne].
      * exists hd. split; [done|]. rewrite <- app_assoc. apply lseg_app. exists x. split.
        { eapply lseg_ext; [|exact H1]. intros y Hy. rewrite Hnk. apply upd_ne. intros ->. apply NoDup_app in Hnd1 as (_ & Hd & _). apply (Hd x Hy). set_solver. }
        split; [done|]. split; [done|]. exists (Sched.p_hash pr). split; [rewrite Hnk; apply upd_eq|]. rewrite Hlp in Hn'. injection Hn' as <-.
        eapply lseg_ext; [|exact H2]. intros y Hy. rewrite Hnk. apply upd_ne. intros ->. apply (Hdis x); set_solver.
      * destruct (Hc i Hir) as (hi & Hhi & Hci). exists hi. split; [done|]. eapply lseg_ext; [|exact Hci]. intros y Hy. rewrite Hnk.
        apply upd_ne. intros ->. apply Hne. eapply hash_disjoint; [done|done|done|exact Hy|]. rewrite Hq. set_solver.
Qed.

Lemma unhash_ok fuel s hq h pre mid p post r pr (Q : unit → pst → Prop) :
  Sched.hashed (kern_of s) hq → 0 ≤ h < Sched.PIDHSZ → hq h = pre ++ mid ++ p :: post → at_href pre r → tab s !! p = Some pr → p ∉ mid →
  (length mid < fuel)%nat →
  (∀ s', hash_frame s s' → Sched.hashed (kern_of s') (upd_hq hq h (pre ++ mid ++ post)) → Q tt s') →
  wp (unhash fuel h r p) Q s.
Proof.
  intros Hh Hr. revert pre mid r. induction fuel as [|fuel IH]; intros pre mid r Hq Hpos Hp Hmid Hf HQ; [lia|]. cbn [unhash].
  pose proof Hh as (Hc & _). destruct (Hc h Hr) as (hd & Hhd & Hch). rewrite Hq in Hch. pose proof Hch as (m & H1 & H2)%lseg_app.
  apply wp_bind. assert (Hrd : ∀ Q' : Z → pst → Prop, Q' m s → wp (rd_href h r) Q' s).
  { intros Q' HQ'. destruct r as [|x]; cbn in Hpos; cbn [rd_href].
    - subst pre. cbn in H1. subst m. by eapply wp_load.
    - apply last_Some in Hpos as (l0 & ->). apply lseg_snoc in H1 as (_ & _ & Hx). unfold Sched.hnk in Hx.
      change (Sched.procs (kern_of s)) with (tab s) in Hx. destruct (tab s !! x) as [xr|] eqn:E; [|done]. injection Hx as <-.
      apply wp_bind. eapply wp_p_rdp; [exact E|]. by apply wp_ret. }
  apply Hrd. destruct mid as [|x mid]; cbn [app] in *.
  - destruct H2 as (-> & Hp0 & _). rewrite (proj2 (Z.eqb_neq p 0)), Z.eqb_refl by done. apply wp_bind. eapply wp_p_rdp; [exact Hp|].
    by eapply wr_href_ok.
  - destruct H2 as (-> & Hx0 & _). rewrite (proj2 (Z.eqb_neq x 0)), (proj2 (Z.eqb_neq x p)) by set_solver.
    apply (IH (pre ++ [x]) mid (HLink x)); [by rewrite <- app_assoc|cbn; by rewrite last_snoc|done|set_solver|cbn in Hf; lia|].
    intros s'. rewrite <- app_assoc. apply HQ.
Qed.

(** ** The invariant *)

Record lists (s : pst) (la lz lf : list Z) (hq : Z → list Z) : Prop := {
  l_all : dlist (next s) (prev s) PAll (all_of s) la;
  l_zomb : dlist (next s) (prev s) PZomb (zomb_of s) lz;
  l_free : chain (next s) (free_of s) lf;
  l_nodup : NoDup (la ++ lz ++ lf);
  l_hash : Sched.hashed (kern_of s) hq;
  l_hashed : ∀ p, p ∈ la ↔ ∃ i, 0 ≤ i < Sched.PIDHSZ ∧ p ∈ hq i
}.

Lemma lists_disjoint s la lz lf hq : lists s la lz lf hq →
  (∀ x, x ∈ la → x ∉ lz ∧ x ∉ lf) ∧ (∀ x, x ∈ lz → x ∉ la ∧ x ∉ lf) ∧ (∀ x, x ∈ lf → x ∉ la ∧ x ∉ lz).
Proof.
  intros [_ _ _ (H1 & H2 & (H3 & H4 & H5)%NoDup_app)%NoDup_app _ _]. split_and!; intros x Hx; split; intros Hy.
  - apply (H2 x Hx). set_solver.
  - apply (H2 x Hx). set_solver.
  - apply (H2 x Hy). set_solver.
  - by apply (H4 x).
  - apply (H2 x Hy). set_solver.
  - by apply (H4 x).
Qed.

Lemma hash_at s la lz lf hq p pr : lists s la lz lf hq → p ∈ la → tab s !! p = Some pr → p ∈ hq (Sched.PIDHASH (Sched.p_pid pr)).
Proof.
  intros HL Hp Hpr. destruct (l_hashed _ _ _ _ _ HL p) as [(i & Hi & Hin) _]; [done|]. destruct (l_hash _ _ _ _ _ HL) as (_ & H).
  specialize (H i p Hi Hin). unfold Sched.pid_of in H. change (Sched.procs (kern_of s)) with (tab s) in H. rewrite Hpr in H. cbn in H. by rewrite H.
Qed.

(** [p] has become a zombie; everything else is as it was. *)
Record retired (p : Z) (pr : Sched.proc) (s s' : pst) : Prop := {
  r_self : ∃ pr', tab s' !! p = Some pr' ∧ plain pr' = plain (Sched.set_p_stat Sched.SZOMB pr);
  r_others : ∀ z, z ≠ p → plain <$> tab s' !! z = plain <$> tab s !! z;
  r_bare : bare s' = bare s
}.

Lemma retire_ok s l1 p l2 lz lf hq pr (Q : unit → pst → Prop) :
  lists s (l1 ++ p :: l2) lz lf hq → tab s !! p = Some pr →
  (∀ s' hq', lists s' (l1 ++ l2) (p :: lz) lf hq' → retired p pr s s' → Q tt s') →
  wp (retire p) Q s.
Proof.
  intros HL Hp HQ. pose proof (lists_disjoint _ _ _ _ _ HL) as (D1 & D2 & D3).
  destruct (D1 p) as (Hpz & Hpf); [set_solver|]. pose proof HL as [Hall Hzomb Hfree Hnd Hhash Hhd].
  assert (Hp0 : p ≠ 0) by (intros ->; apply dlist_chain, lseg_app in Hall as (m & _ & _ & ? & _); done).
  unfold retire. apply wp_bind. eapply (unlink_ok false s l1 p l2); [exact Hall|]. cbn [negb head_of root].
  intros s1 A1 T1 P1 Z1 F1 S1 H1 N1 B1.
  assert (Hpa : p ∉ l1 ++ l2 ∧ NoDup (l1 ++ l2)).
  { pose proof (chain_nodup _ _ _ (dlist_chain _ _ _ _ _ Hall)) as (N & M & (O & R)%NoDup_cons)%NoDup_app. split.
    - rewrite elem_of_app. intros [?|?]; [by apply (M p); [|set_solver]|done].
    - apply NoDup_app. split_and!; [done|set_solver|done]. }
  destruct Hpa as (Hpa & Hnda).
  assert (Hp1 : tab s1 !! p = Some pr) by (rewrite T1; [done|set_solver]).
  apply wp_bind, wp_gets. fold (zomb_of s1). apply wp_bind. eapply wp_p_wrp; [exact Hp1|]. set (z := zomb_of s1).
  assert (Hz1 : dlist (next s1) (prev s1) PZomb z lz).
  { unfold z. rewrite Z1. eapply dlist_ext; [|exact Hzomb]. intros x Hx. destruct (D2 x Hx) as (Hxa & _). rewrite !elem_of_app in Hxa.
    unfold next. rewrite T1 by set_solver. split; [done|]. apply P1. set_solver. }
  assert (Hzn : z ≠ 0 → z ∈ lz ∧ is_Some (tab s1 !! z)).
  { intros Hz0. destruct lz as [|y lz]; [done|]. destruct (dlist_tab _ _ _ _ _ y Hz1) as (yr & ?); [set_solver|]. destruct Hz1 as (-> & _).
    split; [set_solver|eauto]. }
  apply wp_bind. eapply (wp_mono _ (λ _ s2, ∃ pv, s2 = set_prevs pv (set_tab (<[p := set_p_nxt z pr]> (tab s1)) s1) ∧
    ∀ y, pv !! y = if decide (y = z ∧ z ≠ 0) then Some (PNxt p) else prevs s1 !! y)).
  { apply wp_when; intros E; to_prop.
    - apply wp_wr_prev; [cbn; apply lookup_insert_is_Some'; right; by apply Hzn|]. eexists. split; [done|]. intros y. cbn.
      destruct (decide (y = z)) as [->|]; [by rewrite lookup_insert_eq, decide_True|]. rewrite lookup_insert_ne by done. by rewrite decide_False by tauto.
    - exists (prevs s1). split; [by destruct s1 as [[[[]] ? ? ?] ? ? ? ? ? ?]|]. intros y. by rewrite decide_False by tauto. }
  intros [] s2 (pv & -> & Hpv). apply wp_bind, wp_wr_prev; [cbn; rewrite lookup_insert_eq; eauto|].
  apply wp_bind, wp_on_kn, wp_modify. apply wp_bind. eapply wp_p_wrp; [cbn; apply lookup_insert_eq|].
  apply wp_bind, wp_on_kn, wp_modify. apply wp_bind. eapply wp_p_rdp; [cbn; apply lookup_insert_eq|]. apply wp_bind, wp_gets.
  set (pr3 := Sched.set_p_stat Sched.SZOMB (set_p_nxt z pr)). match goal with |- wp _ _ ?x => set (s3 := x) end.
  set (T := <[p := pr3]> (tab s1)). assert (Ht3 : tab s3 = T) by (unfold T; cbn; by rewrite insert_insert_eq).
  assert (HT : ∀ y, y ≠ p → T !! y = tab s1 !! y) by (intros; by apply lookup_insert_ne).
  assert (Htp : T !! p = Some pr3) by apply lookup_insert_eq.
  assert (Hn3 : ∀ y, y ≠ p → next s3 y = next s1 y) by (intros y Hy; unfold next; by rewrite Ht3, HT).
  assert (Hp3 : ∀ y, prev s3 y = if decide (y = p) then Some PZomb else if decide (y = z ∧ z ≠ 0) then Some (PNxt p) else prev s1 y).
  { intros y. change (prev s3 y) with (<[p := PZomb]> pv !! y). destruct (decide (y = p)) as [->|]; [apply lookup_insert_eq|]. rewrite lookup_insert_ne by done. apply Hpv. }
  assert (Hhash3 : Sched.hashed (kern_of s3) hq).
  { assert (Hnk : ∀ y, Sched.hnk (kern_of s3) y = Sched.hnk (kern_of s) y).
    { intros y. rewrite <- N1. unfold Sched.hnk. change (Sched.procs (kern_of s3)) with (tab s3). change (Sched.procs (kern_of s1)) with (tab s1).
      rewrite Ht3. destruct (decide (y = p)) as [->|]; [by rewrite Htp, Hp1|by rewrite HT]. }
    assert (Hpid : ∀ y, Sched.pid_of (kern_of s3) y = Sched.pid_of (kern_of s) y).
    { intros y. rewrite <- (same_plain_pid s s1) by done. unfold Sched.pid_of. change (Sched.procs (kern_of s3)) with (tab s3).
      change (Sched.procs (kern_of s1)) with (tab s1). rewrite Ht3. destruct (decide (y = p)) as [->|]; [by rewrite Htp, Hp1|by rewrite HT]. }
    destruct Hhash as (Hc & Hi). split; [|intros i y Hir Hy; rewrite Hpid; by apply Hi]. intros i Hir. destruct (Hc i Hir) as (h & Hh & Hch).
    exists h. split; [change (Sched.pidhash (kern_of s3)) with (Sched.pidhash (kern_of s1)); by rewrite H1|]. eapply lseg_ext; [|exact Hch]. auto. }
  pose proof (hash_at _ _ _ _ _ p pr HL ltac:(set_solver) Hp) as Hin. set (h := Sched.PIDHASH (Sched.p_pid pr)) in *.
  apply list_elem_of_split in Hin as (pre & post & Hsplit).
  assert (Hch : ∃ hd, chain (Sched.hnk (kern_of s3)) hd (hq h)).
  { destruct Hhash3 as (Hc & _). destruct (Hc h (Sched.PIDHASH_range _)) as (hd & _ & ?). eauto. }
  destruct Hch as (hd & Hch). pose proof (chain_nodup _ _ _ Hch) as Hndh. rewrite Hsplit in Hndh.
  assert (Hpp : p ∉ pre ∧ p ∉ post).
  { apply NoDup_app in Hndh as (_ & Hdd & [? _]%NoDup_cons). split; [|done]. intros Hx. apply (Hdd p Hx). set_solver. }
  eapply (unhash_ok _ s3 hq h [] pre p post HHead pr3); [done|apply Sched.PIDHASH_range|done|done|by rewrite Ht3|by destruct Hpp| |].
  { pose proof (Sched.hchain_length _ _ _ Hch) as Hl. rewrite Hsplit, length_app in Hl. cbn [length] in Hl. unfold s3 in Hl |- *. lia. }
  cbn [app]. intros s' [F2 F3 (F4 & F5 & F6) F7 F8] Hhash'. apply (HQ s' (upd_hq hq h (pre ++ post))).
  - split; [| | | | |].
    + rewrite F4. eapply dlist_ext; [|exact A1]. intros y Hy. assert (y ≠ p) by (intros ->; done). rewrite F2, Hn3 by done. split; [done|].
      unfold prev at 1. rewrite F3. change (prevs s3 !! y) with (prev s3 y). rewrite Hp3, decide_False by done. rewrite decide_False; [done|].
      intros [-> Hz0]. apply Hzn in Hz0 as [Hz _]. destruct (D2 _ Hz) as [Hza _]. set_solver.
    + rewrite F5. change (zomb_of s3) with p. eapply (dlist_push (next s1) (prev s1)); [exact Hz1|done|done| | | |].
      * rewrite F2. unfold next. by rewrite Ht3, Htp.
      * intros y Hy. rewrite F2. apply Hn3. intros ->. done.
      * unfold prev. rewrite F3. change (prevs s3 !! p) with (prev s3 p). by rewrite Hp3, decide_True.
      * intros y Hy. unfold prev at 1. rewrite F3. change (prevs s3 !! y) with (prev s3 y). rewrite Hp3. apply decide_False. intros ->. done.
    + rewrite F6. change (free_of s3) with (free_of s1). rewrite F1. eapply lseg_ext; [|exact Hfree]. intros y Hy.
      destruct (D3 y Hy) as [Hya _]. rewrite F2, Hn3 by (intros ->; done). unfold next. rewrite T1; [done|set_solver].
    + eapply NoDup_Permutation_proper; [|exact Hnd]. rewrite <- !app_assoc. apply Permutation_app_head. cbn.
      symmetry. apply (Permutation_middle l2 (lz ++ lf) p).
    + done.
    + intros y. unfold upd_hq. split.
      * intros Hy. assert (y ≠ p) by (intros ->; done). destruct (Hhd y) as [(i & Hi & Hyi) _]; [set_solver|]. exists i. split; [done|].
        destruct (decide (i = h)) as [E|]; [|done]. rewrite E, Hsplit in Hyi. set_solver.
      * intros (i & Hi & Hyi). assert (Hne : y ≠ p).
        { intros ->. destruct (decide (i = h)) as [E|E]; [set_solver|]. apply E. eapply (hash_disjoint _ hq i h p Hhash); [done|apply Sched.PIDHASH_range|done|].
          rewrite Hsplit. set_solver. }
        assert (Hyq : y ∈ hq i) by (destruct (decide (i = h)) as [E|E]; [rewrite E, Hsplit; set_solver|done]).
        assert (y ∈ l1 ++ p :: l2) by (apply Hhd; eauto). set_solver.
  - split.
    + destruct (same_plain_tab s3 s' p pr3 F7) as (pr' & Hpr' & E); [by rewrite Ht3|]. exists pr'. split; [done|]. rewrite E. by destruct pr.
    + intros y Hy. rewrite F7, Ht3, HT by done. apply S1.
    + rewrite F8, <- B1. done.
Qed.
End ProcSpec.
