(* ===== verification/ExitSpec.v ===== *)
(** * The process table: exit and wait

    [table] says which entries are alive, dead and free, that both doubly linked
    lists and the hash chains hold exactly the entries they should, that every
    process has a living parent and that the queues of the scheduler are sound.
    [exit] moves an entry from the living to the dead, [wait1] from the dead to
    the free. *)

From S2P Require Import Prelude Links Callout Sched User Clock Cred Signal SigSpec Run Rmap Swap SwapSpec Proc PidSpec ProcSpec.

Module ExitSpec.
Import User Swap Proc PidSpec ProcSpec.

(** ** The table and the queues *)

Definition parents (s : pst) : gmap Z Z := Sched.p_pptr <$> tab s.

(** A zombie: its status is recorded, and it is on no queue. *)
Definition dead_entry (s : pst) (x : Z) : Prop :=
  is_Some (dead s !! x) ∧ ∃ pr, tab s !! x = Some pr ∧ Sched.p_stat pr = Sched.SZOMB ∧ Sched.p_wchan pr = 0 ∧ Sched.has_flag Signal.P_TRACED pr = false.

Definition free_entry (s : pst) (x : Z) : Prop := ∃ pr, tab s !! x = Some pr ∧ Sched.p_stat pr = 0 ∧ Sched.p_wchan pr = 0.

(** Every process but those without a parent has a living one, or [g]. *)
Record tablex (g : Z) (s : pst) (la lz lf : list Z) (hq : Z → list Z) : Prop := {
  t_lists : lists s la lz lf hq;
  t_queued : Run.queued (sg (vm s));
  t_init : Signal.PROC1 ∈ la ∧ Sched.p_pid <$> tab s !! Signal.PROC1 = Some 1;
  t_parent : ∀ x v, x ∈ la ++ lz → parents s !! x = Some v → v ∈ la ∨ v = g ∨ v = 0;
  t_zomb : ∀ x, x ∈ lz → dead_entry s x;
  t_free : ∀ x, x ∈ lf → free_entry s x;
  t_segs : ∀ x, is_Some (tab s !! x) → is_Some (Signal.segs (Signal.cx (sg (vm s))) !! x)
}.
Definition table := tablex 0.

(** What the lists and chains depend on. *)
Definition ring (pr : Sched.proc) := (Sched.p_nxt pr, Sched.p_hash pr, Sched.p_pid pr).
Definition rings (s : pst) := (ring <$> tab s, all_of s, zomb_of s, free_of s, Sched.pidhash (kern_of s), prevs s).

Lemma hashed_ext (k k' : kern_t) (la : list Z) hq :
  Sched.pidhash k' = Sched.pidhash k → (∀ i x, 0 ≤ i < Sched.PIDHSZ → x ∈ hq i → x ∈ la) →
  (∀ x, x ∈ la → Sched.hnk k' x = Sched.hnk k x ∧ Sched.pid_of k' x = Sched.pid_of k x) → Sched.hashed k hq → Sched.hashed k' hq.
Proof.
  intros Eh Hin Hk (H5 & H5'). split; [|intros i x Hi Hx; rewrite (proj2 (Hk x (Hin i x Hi Hx))); by apply H5'].
  intros i Hi. destruct (H5 i Hi) as (h & Hh & Hc). exists h. rewrite Eh. split; [done|]. eapply lseg_ext; [|exact Hc]. intros x Hx. by eapply Hk, Hin.
Qed.

Lemma lists_ext s s' la lz lf hq :
  (∀ x, next s' x = next s x) → all_of s' = all_of s → zomb_of s' = zomb_of s → free_of s' = free_of s →
  Sched.pidhash (kern_of s') = Sched.pidhash (kern_of s) → prevs s' = prevs s →
  (∀ x, x ∈ la → Sched.hnk (kern_of s') x = Sched.hnk (kern_of s) x ∧ Sched.pid_of (kern_of s') x = Sched.pid_of (kern_of s) x) →
  lists s la lz lf hq → lists s' la lz lf hq.
Proof.
  intros Hn Ea Ez Ef Eh Ep Hk [H1 H2 H3 H4 H5 H6]. assert (Hp : ∀ x, prev s' x = prev s x) by (intros x; unfold prev; by rewrite Ep).
  split; [| | |done| |done].
  - rewrite Ea. eapply dlist_ext; [|exact H1]. auto.
  - rewrite Ez. eapply dlist_ext; [|exact H2]. auto.
  - rewrite Ef. eapply lseg_ext; [|exact H3]. auto.
  - eapply hashed_ext; [done| |exact Hk|exact H5]. intros i x Hi Hx. apply H6. eauto.
Qed.

Lemma lists_rings s s' la lz lf hq : rings s' = rings s → lists s la lz lf hq → lists s' la lz lf hq.
Proof.
  intros E. injection E as Et Ea Ez Ef Eh Ep.
  assert (Hr : ∀ x, ring <$> tab s' !! x = ring <$> tab s !! x) by (intros x; by rewrite <- !lookup_fmap, Et).
  apply lists_ext; try done; intros x; specialize (Hr x).
  - unfold next. destruct (tab s' !! x), (tab s !! x); try done. cbn in *. unfold ring in Hr. congruence.
  - intros _. unfold Sched.hnk, Sched.pid_of, tab in *.
    destruct (Sched.procs (kern_of s') !! x), (Sched.procs (kern_of s) !! x); try done. cbn in *. unfold ring in Hr. split; congruence.
Qed.

(** The queues do not depend on a process that is on none of them. *)
Definition qview (pr : Sched.proc) := (Sched.p_link pr, Sched.p_wchan pr, Sched.p_stat pr, Sched.has_flag Sched.SLOAD pr).

Lemma rep_view (k k' : kern_t) sq rq p :
  Sched.rep k sq rq → Sched.slpque k' = Sched.slpque k → Sched.qs k' = Sched.qs k →
  (∀ z, z ≠ p → qview <$> Sched.procs k' !! z = qview <$> Sched.procs k !! z) →
  Sched.chan_of k p = 0 → p ∉ rq → Sched.chan_of k' p = 0 → Sched.rep k' sq rq.
Proof.
  intros (Hc & Ha & Hb & Hr) Es Eq Hz Hch Hrq Hch'.
  assert (Hfw : ∀ z q, z ≠ p → Sched.procs k !! z = Some q → ∃ q', Sched.procs k' !! z = Some q' ∧ qview q' = qview q).
  { intros z q Hne Hq. specialize (Hz z Hne). rewrite Hq in Hz. destruct (Sched.procs k' !! z) as [q'|]; [|done]. apply (inj Some) in Hz. eauto. }
  assert (Hoff : ∀ i z, 0 ≤ i < Sched.SQSIZE → z ∈ sq i → z ≠ p).
  { intros i z Hi Hin ->. destruct (Ha i p Hi Hin) as (pr & Hp & Hw & _). unfold Sched.chan_of in Hch. rewrite Hp in Hch. done. }
  assert (Hl : ∀ z, z ≠ p → Sched.lnk k' z = Sched.lnk k z).
  { intros z Hne. specialize (Hz z Hne). unfold Sched.lnk. destruct (Sched.procs k' !! z), (Sched.procs k !! z); try done.
    apply (inj Some) in Hz. injection Hz as Hz _ _ _. cbn. by rewrite Hz. }
  split; [|split; [|split]].
  - destruct Hc as (H1 & H2 & H3 & H4 & H5). split_and!; rewrite ?Es, ?Eq; try done.
    + intros i Hi. destruct (H2 i Hi) as (h & Hh & Hc). exists h. split; [done|]. eapply lseg_ext; [|exact Hc]. intros z Hin. by apply Hl, (Hoff i).
    + eapply lseg_ext; [|exact H3]. intros z Hin. apply Hl. intros ->. done.
  - intros i z Hi Hin. destruct (Ha i z Hi Hin) as (q & Hq & H1 & H2 & H3). destruct (Hfw z q) as (q' & Hq' & E); [by apply (Hoff i)|done|].
    injection E as _ Ew Et _. exists q'. by rewrite Ew, Et.
  - intros z q' Hq' Hw. assert (Hne : z ≠ p) by (intros ->; unfold Sched.chan_of in Hch'; rewrite Hq' in Hch'; done).
    pose proof (Hz z Hne) as E. rewrite Hq' in E. destruct (Sched.procs k !! z) as [q|] eqn:Eq0; [|done]. apply (inj Some) in E.
    injection E as _ Ew _ _. rewrite Ew in *. by apply (Hb z q).
  - intros z Hin. destruct (Hr z Hin) as (q & Hq & H1 & H2 & H3). destruct (Hfw z q) as (q' & Hq' & E); [by intros ->|done|].
    injection E as _ Ew Et Ef. exists q'. by rewrite Ew, Et, Ef.
Qed.

(** The fields that neither the table nor the queues depend on may be written. *)
Lemma table_wrp g s la lz lf hq p pr pr' :
  tablex g s la lz lf hq → tab s !! p = Some pr → ring pr' = ring pr → qview pr' = qview pr →
  (p ∈ la ++ lz → Sched.p_pptr pr' ∈ la ∨ Sched.p_pptr pr' = g ∨ Sched.p_pptr pr' = 0) →
  (Sched.has_flag Signal.P_TRACED pr = false → Sched.has_flag Signal.P_TRACED pr' = false) →
  tablex g (set_tab (<[p := pr']> (tab s)) s) la lz lf hq.
Proof.
  intros [H1 ((sq & rq & Hrep) & Hq0) (H3 & H3') H4 H5 H7 H6] Hp Er Eq Hpp Htr. set (T := <[p := pr']> (tab s)).
  assert (HT : ∀ y, y ≠ p → T !! y = tab s !! y) by (intros; by apply lookup_insert_ne).
  assert (Htp : T !! p = Some pr') by apply lookup_insert_eq. injection Eq as El Ew Es Ef. split.
  - eapply lists_rings; [|exact H1]. unfold rings. do 5 f_equal. change (tab (set_tab T s)) with T. unfold T. rewrite fmap_insert, Er.
    apply insert_id. by rewrite lookup_fmap, Hp.
  - split.
    + exists sq, rq. by eapply (Run.rep_wrp _ _ _ _ pr); [exact Hrep|exact Hp|..]; auto.
    + change (T !! 0 = None). rewrite HT; [exact Hq0|]. intros <-. unfold tab, kern_of in Hp. unfold SigSpec.procs_of in Hq0. congruence.
  - split; [done|]. change (tab (set_tab T s)) with T. destruct (decide (Signal.PROC1 = p)) as [E|]; [|by rewrite HT]. rewrite E, Htp.
    rewrite E, Hp in H3'. cbn in *. injection Er as _ _ ->. done.
  - intros x v Hx. unfold parents. change (tab (set_tab T s)) with T. rewrite lookup_fmap. destruct (decide (x = p)) as [->|Hne].
    + rewrite Htp. intros [= <-]. auto.
    + rewrite HT by done. intros Hv. apply (H4 x v Hx). unfold parents. by rewrite lookup_fmap.
  - intros x Hx. destruct (H5 x Hx) as (Hd & q & Hq & F1 & F2 & F3). split; [done|]. change (tab (set_tab T s)) with T.
    destruct (decide (x = p)) as [->|Hne]; [|rewrite HT by done; eauto]. rewrite Hp in Hq. injection Hq as <-. exists pr'. rewrite Es, Ew. auto.
  - intros x Hx. destruct (H7 x Hx) as (q & Hq & F1 & F2). change (∃ pr, T !! x = Some pr ∧ Sched.p_stat pr = 0 ∧ Sched.p_wchan pr = 0).
    destruct (decide (x = p)) as [->|Hne]; [|rewrite HT by done; eauto]. rewrite Hp in Hq. injection Hq as <-. exists pr'. by rewrite Es, Ew.
  - intros x Hx. change (is_Some (Signal.segs (Signal.cx (sg (vm s))) !! x)). apply H6. change (is_Some (T !! x)) in Hx.
    unfold T in Hx. apply lookup_insert_is_Some' in Hx as [->|]; eauto.
Qed.
(** Waking and posting leave the table alone. *)
Record kept (s s' : pst) : Prop := {
  k_frame : Run.frame (kern_of s') = Run.frame (kern_of s);
  k_usr : usr (Signal.sy (sg (vm s'))) = usr (Signal.sy (sg (vm s)));
  k_cx : Signal.cx (sg (vm s')) = Signal.cx (sg (vm s));
  k_prevs : prevs s' = prevs s;
  k_dead : dead s' = dead s
}.

Lemma kept_refl s : kept s s.
Proof. done. Qed.

Lemma kept_trans s1 s2 s3 : kept s1 s2 → kept s2 s3 → kept s1 s3.
Proof. intros [] []. split; by etransitivity. Qed.

Lemma kept_steady s s' x : kept s s' → Run.steady <$> tab s' !! x = Run.steady <$> tab s !! x.
Proof. intros [E _ _ _ _]. injection E as E _ _ _ _ _ _. rewrite <- !lookup_fmap. unfold tab. by rewrite E. Qed.

Lemma kept_rings s s' : kept s s' → rings s' = rings s.
Proof.
  intros [E _ _ Ep _]. injection E as E Ea Ez Ef Eh _ _. unfold rings, all_of, zomb_of, free_of. rewrite Ea, Ez, Ef, Eh, Ep. do 5 f_equal.
  apply map_eq. intros x. apply (f_equal (λ m : gmap Z _, m !! x)) in E. rewrite !lookup_fmap in *. unfold tab.
  destruct (Sched.procs (kern_of s') !! x), (Sched.procs (kern_of s) !! x); try done. cbn in *. unfold Run.steady, Cred.skel in E. unfold ring. congruence.
Qed.

Lemma kept_parents s s' : kept s s' → parents s' = parents s.
Proof.
  intros Hk. apply map_eq. intros x. pose proof (kept_steady _ _ x Hk) as E. unfold parents. rewrite !lookup_fmap.
  destruct (tab s' !! x), (tab s !! x); try done. cbn in *. unfold Run.steady, Cred.skel in E. congruence.
Qed.

(** The table does not depend on the rest of an entry. *)
Lemma table_still g s s' la lz lf hq :
  tablex g s la lz lf hq → rings s' = rings s → parents s' = parents s → Run.queued (sg (vm s')) →
  (∀ z, z ∈ lz ++ lf → Sched.nolink <$> tab s' !! z = Sched.nolink <$> tab s !! z) → dead s' = dead s →
  (∀ x, is_Some (tab s !! x) → is_Some (Signal.segs (Signal.cx (sg (vm s))) !! x) → is_Some (Signal.segs (Signal.cx (sg (vm s'))) !! x)) → tablex g s' la lz lf hq.
Proof.
  intros [H1 H2 (H3 & H3') H4 H5 H7 H6] Er Ep Hq Hz Hd Hsg. pose proof Er as E. injection E as E _ _ _ _ _.
  assert (Hr : ∀ x, ring <$> tab s' !! x = ring <$> tab s !! x) by (intros x; by rewrite <- !lookup_fmap, E).
  split; [by eapply lists_rings| done| |by rewrite Ep| | |].
  - split; [done|]. rewrite <- H3'. specialize (Hr Signal.PROC1). destruct (tab s' !! Signal.PROC1), (tab s !! Signal.PROC1); try done.
    cbn in *. unfold ring in Hr. congruence.
  - intros x Hx. destruct (H5 x Hx) as (Hd' & q & Hq' & F1 & F2 & F3). unfold dead_entry. rewrite Hd. split; [done|]. specialize (Hz x ltac:(set_solver)).
    rewrite Hq' in Hz. destruct (tab s' !! x) as [q'|]; [|done]. apply (inj Some), Sched.nolink_wchan in Hz as (E1 & E2 & E3 & _).
    exists q'. unfold Sched.has_flag in *. rewrite E1, E2, E3. done.
  - intros x Hx. destruct (H7 x Hx) as (q & Hq' & F1 & F2). specialize (Hz x ltac:(set_solver)).
    rewrite Hq' in Hz. unfold free_entry. destruct (tab s' !! x) as [q'|]; [|done]. apply (inj Some), Sched.nolink_wchan in Hz as (E1 & E2 & _). exists q'. by rewrite E1, E2.
  - intros x Hx. assert (Hx' : is_Some (tab s !! x)) by (specialize (Hr x); destruct (tab s !! x); [eauto|]; destruct Hx as [q Hx]; by rewrite Hx in Hr).
    by apply Hsg, H6.
Qed.

Lemma table_kept g s s' la lz lf hq :
  tablex g s la lz lf hq → kept s s' → Run.queued (sg (vm s')) →
  (∀ z, z ∈ lz ++ lf → Sched.nolink <$> tab s' !! z = Sched.nolink <$> tab s !! z) → tablex g s' la lz lf hq.
Proof.
  intros Ht Hk Hq Hz. eapply table_still; [exact Ht|by apply kept_rings|by apply kept_parents|done|done|apply Hk|]. by rewrite (k_cx _ _ Hk).
Qed.

Lemma table_off g s la lz lf hq z : tablex g s la lz lf hq → z ∈ lz ++ lf → z ∉ la ∧ ∃ zr, tab s !! z = Some zr ∧ Sched.p_wchan zr = 0.
Proof.
  intros Ht Hz. destruct (lists_disjoint _ _ _ _ _ (t_lists _ _ _ _ _ _ Ht)) as (_ & D2 & D3). apply elem_of_app in Hz as [Hz|Hz].
  - split; [by apply D2|]. destruct (t_zomb _ _ _ _ _ _ Ht z Hz) as (_ & zr & ? & _ & ? & _). eauto.
  - split; [by apply D3|]. destruct (t_free _ _ _ _ _ _ Ht z Hz) as (zr & ? & _ & ?). eauto.
Qed.

(** What [on_kern] cannot touch. *)
Definition outer (g : Signal.sgst) := (usr (Signal.sy g), Signal.cx g).

Lemma keeps_outer {A} (m : M kern_t A) : keeps outer (Signal.on_sys (on_kern m)).
Proof. intros s a s'. unfold Signal.on_sys, on_kern. destruct (m _); try done. by intros [= _ <-]. Qed.

Section rouse.
Context (RUNOUT : Z) (HRO : RUNOUT ≠ 0).

Lemma keeps_outer_psignal p sig : keeps outer (Signal.psignal RUNOUT p sig).
Proof.
  unfold Signal.psignal. generalize 2%nat as n. intros n. revert p sig. induction n as [|n IH]; intros p sig; cbn [Signal.psignal_level]; [keeps_tac|].
  unfold Signal.prop_of, Signal.psignal_run, Signal.stop, Signal.rdp, Signal.wrp. keeps_tac; apply keeps_outer.
Qed.

Lemma psignal_table g s la lz lf hq q sig (Q : unit → pst → Prop) :
  tablex g s la lz lf hq → q ∈ la → 0 < sig < Signal.NSIG → SigSpec.stops sig = false →
  (∀ s', tablex g s' la lz lf hq → kept s s' → Q tt s') → wp (psignal RUNOUT q sig) Q s.
Proof.
  intros Ht Hq Hs Hst HQ. destruct (dlist_tab _ _ _ _ _ q (l_all _ _ _ _ _ (t_lists _ _ _ _ _ _ Ht)) Hq) as (qr & Hqr).
  apply wp_on_s. pose proof (Run.psignal_nostop RUNOUT 1 q sig qr _ (t_queued _ _ _ _ _ _ Ht) Hqr Hs Hst) as Hp.
  apply (wp_frame Run.sframe _ _ _ (Run.keeps_sframe_psignal RUNOUT q sig)), (wp_frame outer _ _ _ (keeps_outer_psignal q sig)) in Hp.
  eapply wp_mono; [exact Hp|].
  intros [] g' (((Hqu & _ & Ho) & Hfr) & Hout). injection Hout as Hu Hc. apply HQ; [|by split]. eapply table_kept; [exact Ht|by split|done|].
  intros z Hz. destruct (table_off _ _ _ _ _ _ z Ht Hz) as (Hza & zr & Hzr & Hw). apply (Ho Hst).
  - intros ->. done.
  - unfold Sched.chan_of. unfold tab, kern_of in Hzr. rewrite Hzr. cbn. congruence.
Qed.

(** Who sleeps on [chan]. *)
Definition sleeps_on (s : pst) (x chan : Z) : Prop := Sched.chan_of (kern_of s) x = chan.

Lemma wakeup_table g s la lz lf hq chan (Q : unit → pst → Prop) :
  tablex g s la lz lf hq → chan ≠ 0 →
  (∀ s', tablex g s' la lz lf hq → kept s s' → (∀ x, Sched.chan_of (kern_of s') x = 0 ∨ Sched.chan_of (kern_of s') x = Sched.chan_of (kern_of s) x) →
     (∀ x, ¬ sleeps_on s' x chan) → Q tt s') → wp (wakeup RUNOUT chan) Q s.
Proof.
  intros Ht Hch HQ. pose proof (t_queued _ _ _ _ _ _ Ht) as ((sq & rq & Hrep) & H0). apply wp_on_kn.
  eapply wp_mono; [exact (wp_frame Run.frame _ _ _ (Run.keeps_frame_wakeup RUNOUT chan) (Sched.wakeup_ok RUNOUT _ _ _ chan Hrep))|].
  intros [] k ((b & D & sq' & rq' & Hrep' & (Hw & _) & HD & Hno & _) & Hfr).
  assert (Hk : kept s (set_kern_of k s)) by done. apply HQ; [|done| |].
  - eapply table_kept; [exact Ht|done| |].
    + split; [by exists sq', rq'|]. pose proof (kept_steady _ _ 0 Hk) as E. unfold SigSpec.procs_of in *. unfold tab, kern_of in E. rewrite H0 in E.
      by destruct (Sched.procs (kern (Signal.sy (sg (vm (set_kern_of k s))))) !! 0).
    + intros z Hz. destruct (table_off _ _ _ _ _ _ z Ht Hz) as (_ & zr & Hzr & Hwz). destruct Hw as (Hdom & Hw).
      assert (HzD : z ∉ D). { intros Hin. destruct (HD z Hin) as (Hc & _). apply Hc. unfold Sched.chan_of. unfold tab, kern_of in Hzr. unfold kern_of. by rewrite Hzr. }
      destruct (proj2 (Hdom z)) as [zr' Hzr']; [eauto|]. specialize (Hw z zr zr' Hzr Hzr'). rewrite decide_False in Hw by done.
      change (tab (set_kern_of k s)) with (Sched.procs k). rewrite Hzr, Hzr'. cbn. by f_equal.
  - intros x. change (kern_of (set_kern_of k s)) with k. rewrite (Sched.woke_chan D (kern_of s) k) by done. case_decide; auto.
  - intros x Hx. apply Hch. by apply (Hno x).
Qed.

End rouse.

Lemma list_len s l h : chain (next s) h l → (length l < S (size (tab s)))%nat.
Proof.
  intros Hc. pose proof (chain_nodup _ _ _ Hc) as Hnd. rewrite <- (size_list_to_set (C := gset Z) l), <- size_dom by done.
  apply le_n_S, subseteq_size. intros x. rewrite elem_of_list_to_set, elem_of_dom. intros (l1 & l2 & ->)%list_elem_of_split.
  apply lseg_app in Hc as (r & _ & -> & _ & n & Hn & _). unfold next in Hn. destruct (tab s !! x); [eauto|done].
Qed.

(** ** Orphans *)

Lemma flag_left a b pr : Z.land a b = 0 → Sched.has_flag a (and_not_flag b pr) = Sched.has_flag a pr.
Proof.
  intros Hab. unfold Sched.has_flag, and_not_flag. cbn. do 2 f_equal. apply Z.bits_inj. intros i. rewrite !Z.land_spec, Z.ldiff_spec.
  apply (f_equal (λ x, Z.testbit x i)) in Hab. rewrite Z.land_spec, Z.bits_0 in Hab.
  destruct (Z.testbit a i), (Z.testbit b i); try done; by rewrite ?andb_false_r, ?andb_true_r.
Qed.

Lemma flag_cleared b pr : Sched.has_flag b (and_not_flag b pr) = false.
Proof.
  unfold Sched.has_flag, and_not_flag. cbn. replace (Z.land _ b) with 0; [done|]. symmetry. apply Z.bits_inj_0. intros i.
  rewrite Z.land_spec, Z.ldiff_spec. by destruct (Z.testbit b i); rewrite ?andb_false_r.
Qed.

(** Only parents change. *)
Record carried (s s' : pst) : Prop := {
  c_next : ∀ x, next s' x = next s x;
  c_kern : Sched.u_procp (kern_of s') = Sched.u_procp (kern_of s) ∧ Sched.ru_nvcsw (kern_of s') = Sched.ru_nvcsw (kern_of s) ∧
    size (tab s') = size (tab s) ∧ all_of s' = all_of s ∧ zomb_of s' = zomb_of s;
  c_usr : usr (Signal.sy (sg (vm s'))) = usr (Signal.sy (sg (vm s)));
  c_dead : dead s' = dead s
}.

Lemma carried_trans s1 s2 s3 : carried s1 s2 → carried s2 s3 → carried s1 s3.
Proof. intros [A (B & C & D & E & F) G H] [A' (B' & C' & D' & E' & F') G' H']. split; [|split_and!|..]; intros; congruence. Qed.

Lemma kept_carried s s' : kept s s' → carried s s'.
Proof.
  intros Hk. pose proof (kept_rings _ _ Hk) as E. injection E as E Ea Ez _ _ _. split; [| |apply Hk|apply Hk].
  - intros x. apply (f_equal (λ m : gmap Z _, m !! x)) in E. rewrite !lookup_fmap in E. unfold next.
    destruct (tab s' !! x), (tab s !! x); try done. cbn in *. unfold ring in E. congruence.
  - assert (Hs : size (tab s') = size (tab s)) by (rewrite <- (map_size_fmap ring (tab s')), E; apply map_size_fmap).
    destruct Hk as [Ef _ _ _ _]. injection Ef as _ _ _ _ _ Eu En. done.
Qed.

Lemma carried_wrp s p pr pr' : tab s !! p = Some pr → Sched.p_nxt pr' = Sched.p_nxt pr → carried s (set_tab (<[p := pr']> (tab s)) s).
Proof.
  intros Hp Hn. set (T := <[p := pr']> (tab s)). split; [|split_and!; try done|done|done].
  - intros x. unfold next. change (tab (set_tab T s)) with T. unfold T. destruct (decide (x = p)) as [->|].
    + rewrite lookup_insert_eq, Hp. cbn. by f_equal.
    + by rewrite lookup_insert_ne.
  - change (tab (set_tab T s)) with T. unfold T. by rewrite map_size_insert_Some.
Qed.

Lemma parents_wrp s p pr pr' : tab s !! p = Some pr → parents (set_tab (<[p := pr']> (tab s)) s) = <[p := Sched.p_pptr pr']> (parents s).
Proof. intros Hp. unfold parents. change (tab (set_tab ?T s)) with T. apply fmap_insert. Qed.

Section orphans.
Context (RUNOUT : Z) (HRO : RUNOUT ≠ 0).
Context (p : Z) (la lz lf : list Z) (hq : Z → list Z).
Notation good := (λ s, tablex p s la lz lf hq).

Lemma orphan_ok x xr s (Q : unit → pst → Prop) :
  good s → x ∈ la ∨ x ∈ lz → tab s !! x = Some xr →
  (∀ s', good s' → carried s s' → parents s' = <[x := Signal.PROC1]> (parents s) → Q tt s') →
  wp (wrp x (set_p_parent Signal.PROC1 1);;
      wakeup RUNOUT Signal.PROC1;;
      qr ← rdp x;
      if Sched.has_flag Signal.P_TRACED qr then
        wrp x (and_not_flag Signal.P_TRACED);;
        psignal RUNOUT x Signal.SIGKILL
      else when (Sched.p_stat qr =? Sched.SSTOP) (psignal RUNOUT x SIGHUP;; psignal RUNOUT x Signal.SIGCONT)) Q s.
Proof.
  intros Hg Hx Hxr HQ. apply wp_bind. eapply wp_p_wrp; [exact Hxr|]. set (s1 := set_tab _ s).
  assert (Hg1 : good s1).
  { eapply table_wrp; [done|exact Hxr|done|done| |done]. intros _. left. apply (t_init _ _ _ _ _ _ Hg). }
  assert (Hc1 : carried s s1) by (by eapply carried_wrp). assert (Hp1 : parents s1 = <[x := Signal.PROC1]> (parents s)) by (by eapply parents_wrp).
  clearbody s1. apply wp_bind. eapply (wakeup_table RUNOUT); [exact Hg1|done|]. intros s2 Hg2 Hk2 _ _.
  assert (Hc2 : carried s s2) by (eapply carried_trans; [exact Hc1|by apply kept_carried]).
  assert (Hp2 : parents s2 = <[x := Signal.PROC1]> (parents s)) by (by rewrite (kept_parents _ _ Hk2)). clear s1 Hg1 Hc1 Hp1 Hk2.
  assert (Hx2 : ∃ xr2, tab s2 !! x = Some xr2 ∧ Sched.p_pptr xr2 = Signal.PROC1).
  { apply (f_equal (.!! x)) in Hp2. rewrite lookup_insert_eq in Hp2. unfold parents in Hp2. rewrite lookup_fmap in Hp2.
    destruct (tab s2 !! x) as [xr2|]; [|done]. exists xr2. split; [done|]. by injection Hp2. }
  destruct Hx2 as (xr2 & Hx2 & Hpp). apply wp_bind. eapply wp_p_rdp; [exact Hx2|].
  assert (Hzo : x ∈ lz → Sched.has_flag Signal.P_TRACED xr2 = false ∧ Sched.p_stat xr2 = Sched.SZOMB).
  { intros Hz. destruct (t_zomb _ _ _ _ _ _ Hg2 x Hz) as (_ & zr & Hzr & ? & _ & ?). rewrite Hx2 in Hzr. by injection Hzr as <-. }
  destruct (Sched.has_flag Signal.P_TRACED xr2) eqn:Ht.
  - assert (Hla : x ∈ la) by (destruct Hx as [|Hz]; [done|destruct (Hzo Hz); done]).
    apply wp_bind. eapply wp_p_wrp; [exact Hx2|]. set (s3 := set_tab _ s2). assert (Hg3 : good s3).
    { eapply table_wrp; [done|exact Hx2|done| | |]; [|intros _; left; change (Sched.p_pptr xr2 ∈ la); rewrite Hpp; apply (t_init _ _ _ _ _ _ Hg)|intros _; apply flag_cleared].
      unfold qview. f_equal. by apply flag_left. }
    assert (Hc3 : carried s s3) by (eapply carried_trans; [exact Hc2|by eapply carried_wrp]).
    assert (Hp3 : parents s3 = <[x := Signal.PROC1]> (parents s)).
    { unfold s3. erewrite parents_wrp by exact Hx2. cbn. rewrite Hpp, Hp2. apply insert_insert_eq. }
    clearbody s3. eapply (psignal_table RUNOUT HRO); [exact Hg3|done|done|done|]. intros s4 Hg4 Hk4. apply HQ; [done| |by rewrite (kept_parents _ _ Hk4)].
    eapply carried_trans; [exact Hc3|by apply kept_carried].
  - apply wp_when; intros Hst; to_prop; [|by apply HQ].
    assert (Hla : x ∈ la) by (destruct Hx as [|Hz]; [done|destruct (Hzo Hz) as (_ & E); rewrite E in Hst; done]).
    apply wp_bind. eapply (psignal_table RUNOUT HRO); [exact Hg2|done|done|done|]. intros s3 Hg3 Hk3.
    eapply (psignal_table RUNOUT HRO); [exact Hg3|done|done|done|]. intros s4 Hg4 Hk4. pose proof (kept_trans _ _ _ Hk3 Hk4) as Hk.
    apply HQ; [done| |by rewrite (kept_parents _ _ Hk)]. eapply carried_trans; [exact Hc2|by apply kept_carried].
Qed.

(** Whose parent is [p] gets process 1. *)
Definition adopted (l : list Z) (s s' : pst) : Prop :=
  ∀ x, parents s' !! x = (λ v, if decide (x ∈ l ∧ v = p) then Signal.PROC1 else v) <$> parents s !! x.

Lemma orphan_loop_ok fuel : ∀ l q s (Q : unit → pst → Prop),
  good s → chain (next s) q l → (∀ x, x ∈ l → x ∈ la ∨ x ∈ lz) → (length l < fuel)%nat →
  (∀ s', good s' → carried s s' → adopted l s s' → Q tt s') → wp (orphan_loop RUNOUT fuel q p) Q s.
Proof.
  induction fuel as [|fuel IH]; intros l q s Q Hg Hc Hl Hf HQ; [lia|]. cbn [orphan_loop]. destruct l as [|x l].
  { cbn in Hc. subst q. apply wp_ret, HQ; [done|by split|]. intros x. destruct (parents s !! x); [|done]. cbn. by rewrite decide_False by (intros []; set_solver). }
  pose proof (chain_nodup _ _ _ Hc) as [Hxl _]%NoDup_cons.
  destruct Hc as (-> & Hx0 & n & Hn & Hc). rewrite (proj2 (Z.eqb_neq x 0)) by done. pose proof Hn as Hn0. unfold next in Hn0.
  destruct (tab s !! x) as [xr|] eqn:Hxr; [|done]. injection Hn0 as Hn0. apply wp_bind. eapply wp_p_rdp; [exact Hxr|].
  apply wp_bind. assert (Hgo : ∀ s1, good s1 → carried s s1 → parents s1 = <[x := if decide (Sched.p_pptr xr = p) then Signal.PROC1 else Sched.p_pptr xr]> (parents s) →
    wp (qr ← rdp x; orphan_loop RUNOUT fuel (Sched.p_nxt qr) p) Q s1).
  { intros s1 Hg1 Hc1 Hp1. pose proof (c_next _ _ Hc1 x) as Hn1. rewrite Hn in Hn1. pose proof Hn1 as Hn2. unfold next in Hn2.
    destruct (tab s1 !! x) as [xr1|] eqn:Hx1; [|done]. injection Hn2 as Hn2. apply wp_bind. eapply wp_p_rdp; [exact Hx1|]. rewrite Hn2.
    apply (IH l); [done| |intros; apply Hl; set_solver|cbn in Hf; lia|].
    - eapply lseg_ext; [|exact Hc]. intros y _. apply Hc1.
    - intros s2 Hg2 Hc2 Ha2. apply HQ; [done|by eapply carried_trans|]. intros y. rewrite Ha2, Hp1. destruct (decide (y = x)) as [->|Hne].
      + rewrite lookup_insert_eq. unfold parents. rewrite lookup_fmap, Hxr. cbn. f_equal. rewrite decide_False by (intros []; done).
        destruct (decide (Sched.p_pptr xr = p)); [rewrite decide_True by (split; [set_solver|done])|rewrite decide_False by (intros []; done)]; done.
      + rewrite lookup_insert_ne by done. destruct (parents s !! y) as [v|]; [|done]. cbn. f_equal.
        destruct (decide (y ∈ l ∧ v = p)) as [[]|Hno]; [by rewrite decide_True by (split; [set_solver|done])|].
        rewrite decide_False; [done|]. intros [[->|]%elem_of_cons ?]; [done|]. by apply Hno. }
  destruct (Z.eqb_spec (Sched.p_pptr xr) p) as [E|E].
  - eapply orphan_ok; [done|apply Hl; set_solver|exact Hxr|]. intros s1 Hg1 Hc1 Hp1. apply Hgo; [done|done|]. by rewrite decide_True.
  - apply wp_ret, Hgo; [done|by split|]. rewrite decide_False by done. symmetry. apply insert_id. unfold parents. by rewrite lookup_fmap, Hxr.
Qed.
End orphans.

(** ** Exit *)

(** [p] runs and is not one that cannot exit: process 1, the swapper, a child
    in [vfork]. *)
Definition running (p : Z) (s : pst) : Prop :=
  Sched.u_procp (kern_of s) = p ∧
  (∃ sq rq, Sched.rep (kern_of s) sq rq ∧ p ∉ rq) ∧
  ∃ pr, tab s !! p = Some pr ∧ Sched.p_wchan pr = 0 ∧ Sched.p_pid pr ≠ 1 ∧ Sched.p_pptr pr ≠ 0 ∧ Sched.has_flag Signal.SVFORK pr = false.

Definition live (p : Z) (s : pst) : Prop := ∃ la lz lf hq, table s la lz lf hq ∧ p ∈ la ∧ running p s.
Definition untraced (p : Z) (s : pst) : Prop := ∀ pr, tab s !! p = Some pr → Sched.has_flag Signal.P_TRACED pr = false.

Lemma live_wrp p s pr pr' :
  live p s → tab s !! p = Some pr → ring pr' = ring pr → qview pr' = qview pr → Sched.p_pptr pr' = Sched.p_pptr pr →
  Sched.has_flag Signal.SVFORK pr' = Sched.has_flag Signal.SVFORK pr →
  (Sched.has_flag Signal.P_TRACED pr = false → Sched.has_flag Signal.P_TRACED pr' = false) →
  live p (set_tab (<[p := pr']> (tab s)) s).
Proof.
  intros (la & lz & lf & hq & Ht & Hp & Hu & (sq & rq & Hrep & Hrq) & pr0 & Hpr & Hw & Hid & Hpp & Hv) Hpr' Er Eq Epp Ev Htr.
  rewrite Hpr' in Hpr. injection Hpr as <-. exists la, lz, lf, hq. split_and!; [|done|split_and!; [done| |]].
  - eapply table_wrp; [exact Ht|exact Hpr'|done|done| |done]. intros Hx. rewrite Epp. apply (t_parent _ _ _ _ _ _ Ht p); [done|].
    unfold parents. by rewrite lookup_fmap, Hpr'.
  - exists sq, rq. split; [|done]. injection Eq as El Ew Es Ef. by eapply (Run.rep_wrp _ _ _ _ pr); [exact Hrep|exact Hpr'|..]; auto.
  - exists pr'. split; [cbn; apply lookup_insert_eq|]. injection Eq as _ -> _ _. injection Er as _ _ ->. rewrite Epp, Ev. done.
Qed.

Lemma table_usr g s s' la lz lf hq :
  kern_of s' = kern_of s → prevs s' = prevs s → dead s' = dead s → Signal.cx (sg (vm s')) = Signal.cx (sg (vm s)) →
  tablex g s la lz lf hq → tablex g s' la lz lf hq.
Proof.
  intros Ek Ep Ed Ec [H1 H2 H3 H4 H5 H7 H6]. unfold dead_entry, free_entry, parents, tab, Run.queued, SigSpec.procs_of in *.
  change (kern (Signal.sy (sg (vm s)))) with (kern_of s) in *.
  split; unfold dead_entry, free_entry, parents, tab, Run.queued, SigSpec.procs_of; change (kern (Signal.sy (sg (vm s')))) with (kern_of s');
    rewrite ?Ek, ?Ed, ?Ec; try done.
  eapply lists_rings; [|exact H1]. unfold rings, tab, all_of, zomb_of, free_of. by rewrite Ek, Ep.
Qed.

Lemma live_usr p s s' : kern_of s' = kern_of s → prevs s' = prevs s → dead s' = dead s → Signal.cx (sg (vm s')) = Signal.cx (sg (vm s)) →
  live p s → live p s'.
Proof.
  intros Ek Ep Ed Ec (la & lz & lf & hq & Ht & Hp & Hr). exists la, lz, lf, hq. split; [by eapply table_usr|]. split; [done|].
  unfold running, tab in *. by rewrite Ek.
Qed.

Lemma plain_qview pr pr' : plain pr' = plain pr → qview pr' = qview pr.
Proof. intros (_ & _ & Es & Ef & Ew & El & _)%plain_fields. unfold qview, Sched.has_flag. by rewrite Es, Ef, Ew, El. Qed.

(** One entry [c], off the queues, has moved from list to list. *)
Lemma table_moved g g' s s' la lz lf hq la' lz' lf' hq' c :
  tablex g s la lz lf hq → lists s' la' lz' lf' hq' →
  (∀ x, x ≠ c → plain <$> tab s' !! x = plain <$> tab s !! x) → is_Some (tab s !! c) →
  (∃ sq rq, Sched.rep (kern_of s) sq rq ∧ c ∉ rq) → Sched.chan_of (kern_of s) c = 0 → Sched.chan_of (kern_of s') c = 0 →
  Sched.slpque (kern_of s') = Sched.slpque (kern_of s) ∧ Sched.qs (kern_of s') = Sched.qs (kern_of s) →
  (Signal.PROC1 = c → Sched.p_pid <$> tab s' !! c = Some 1) → Signal.PROC1 ∈ la' →
  (∀ x v, x ∈ la' ++ lz' → parents s' !! x = Some v → v ∈ la' ∨ v = g' ∨ v = 0) →
  (∀ x, x ∈ lz' → x ≠ c → x ∈ lz ∧ dead s' !! x = dead s !! x) → (c ∈ lz' → dead_entry s' c) →
  (∀ x, x ∈ lf' → x ≠ c → x ∈ lf) → (c ∈ lf' → free_entry s' c) →
  (∀ x, is_Some (Signal.segs (Signal.cx (sg (vm s))) !! x) → is_Some (Signal.segs (Signal.cx (sg (vm s'))) !! x)) →
  tablex g' s' la' lz' lf' hq'.
Proof.
  intros [_ (_ & Hq0) (_ & Hi') _ Hz Hfr Hsg] HL Hoth Hc (sq & rq & Hrep & Hrq) Hch Hch' (Hs & Hq) Hne Hi Hpar Hz1 Hz2 Hf1 Hf2 Hsg'.
  split; [done| |split; [done|]|done| | |].
  - split.
    + exists sq, rq. eapply (rep_view (kern_of s) _ _ _ c); try done.
      intros z Hzc. specialize (Hoth z Hzc). unfold tab in Hoth. change (kern (Signal.sy (sg (vm s')))) with (kern_of s').
      destruct (Sched.procs (kern_of s') !! z), (Sched.procs (kern_of s) !! z); try done. apply (inj Some), plain_qview in Hoth. cbn. by f_equal.
    + change (tab s' !! 0 = None). change (tab s !! 0 = None) in Hq0. assert (0 ≠ c) by (intros <-; rewrite Hq0 in Hc; by destruct Hc).
      specialize (Hoth 0 ltac:(done)). rewrite Hq0 in Hoth. by destruct (tab s' !! 0).
  - destruct (decide (Signal.PROC1 = c)) as [E|Hne']; [rewrite E; by apply Hne|]. specialize (Hoth _ Hne'). rewrite <- Hi'.
    destruct (tab s' !! Signal.PROC1), (tab s !! Signal.PROC1); try done. apply (inj Some), plain_fields in Hoth as (E & _). cbn. by f_equal.
  - intros x Hx. destruct (decide (x = c)) as [->|Hxc]; [by apply Hz2|]. unfold dead_entry; destruct (Hz1 x Hx Hxc) as (Hx' & ->).
    destruct (Hz x Hx') as (Hd & q & Hq' & G1 & G2 & G3). split; [done|]. specialize (Hoth x Hxc). rewrite Hq' in Hoth.
    destruct (tab s' !! x) as [q'|]; [|done]. apply (inj Some), plain_fields in Hoth as (_ & _ & Es & Ef & Ew & _).
    exists q'. unfold Sched.has_flag in *. by rewrite Es, Ef, Ew.
  - intros x Hx. destruct (decide (x = c)) as [->|Hxc]; [by apply Hf2|]. destruct (Hfr x (Hf1 x Hx Hxc)) as (q & Hq' & G1 & G2).
    specialize (Hoth x Hxc). rewrite Hq' in Hoth. unfold free_entry.
    destruct (tab s' !! x) as [q'|]; [|done]. apply (inj Some), plain_fields in Hoth as (_ & _ & Es & _ & Ew & _). exists q'. by rewrite Es, Ew.
  - intros x Hx. apply Hsg', Hsg. destruct (decide (x = c)) as [->|Hxc]; [done|]. specialize (Hoth x Hxc).
    destruct (tab s !! x); [eauto|]. destruct Hx as [? Hx]. rewrite Hx in Hoth. done.
Qed.

Definition buried (p x : Z) (ru : k_rusage) (s s' : pst) : Prop :=
  ∃ pr g, tab s !! p = Some pr ∧ tab s' = <[p := overlay x ru pr]> (tab s) ∧
    kern_of s' = Sched.set_procs (tab s') (kern_of s) ∧ prevs s' = prevs s ∧ dead s' = <[p := (x, ru)]> (dead s) ∧
    Signal.cx (sg (vm s')) = Signal.set_segs (<[p := g]> (Signal.segs (Signal.cx (sg (vm s))))) (Signal.cx (sg (vm s))) ∧
    usr (Signal.sy (sg (vm s'))) = usr (Signal.sy (sg (vm s))).

Lemma bury_ok p x ru s (Q : unit → pst → Prop) :
  is_Some (tab s !! p) → is_Some (Signal.segs (Signal.cx (sg (vm s))) !! p) → (∀ s', buried p x ru s s' → Q tt s') → wp (bury p x ru) Q s.
Proof.
  intros [pr Hp] [g Hg] HQ. unfold bury. apply wp_bind. eapply wp_p_wrp; [exact Hp|]. apply wp_bind, wp_on_s. eapply wp_load; [exact Hg|].
  apply wp_bind, wp_on_s, wp_modify, wp_modify. apply HQ. exists pr. eexists. split_and!; try done.
Qed.

(** The zombie is in the table; only its children are left without a parent. *)
Lemma die_ok p la0 lz lf hq0 rv s (K : K unit) (Q : unit → pst → Prop) :
  table s la0 lz lf hq0 → p ∈ la0 → running p s → untraced p s →
  (∀ s' la hq, tablex p s' la (p :: lz) lf hq → parents s' = parents s →
     usr (Signal.sy (sg (vm s'))) = usr (Signal.sy (sg (vm s))) → Sched.ru_nvcsw (kern_of s') = Sched.ru_nvcsw (kern_of s) →
     (let u := usr (Signal.sy (sg (vm s))) in
      dead s' !! p = Some (rv, Cred.ruadd (set_ru_nvcsw (Sched.ru_nvcsw (kern_of s)) (u_ru u)) (u_cru u))) → wp K Q s') →
  wp (retire p;; u ← gets (λ s, usr (Signal.sy (sg (vm s)))); nv ← kgets Sched.ru_nvcsw;
      bury p rv (Cred.ruadd (set_ru_nvcsw nv (u_ru u)) (u_cru u));; K) Q s.
Proof.
  intros Ht (l1 & l2 & ->)%list_elem_of_split (Hu & (sq & rq & Hrep & Hrq) & pr & Hp & Hw & Hid & Hpp & Hv) Hun HQ.
  pose proof Ht as [HL _ (Hi & Hi') Hpar _ _ Hsg]. apply wp_bind. eapply retire_ok; [exact HL|exact Hp|]. intros s1 hq1 HL1 [(pr1 & Hp1 & E1) Ho1 B1].
  assert (Hbu : usr (Signal.sy (sg (vm s1))) = usr (Signal.sy (sg (vm s))) ∧ Signal.cx (sg (vm s1)) = Signal.cx (sg (vm s)) ∧
    Sched.ru_nvcsw (kern_of s1) = Sched.ru_nvcsw (kern_of s) ∧ Sched.slpque (kern_of s1) = Sched.slpque (kern_of s) ∧
    Sched.qs (kern_of s1) = Sched.qs (kern_of s) ∧ dead s1 = dead s).
  { split_and!; [exact (f_equal (λ t, usr (Signal.sy (sg (vm t)))) B1)|exact (f_equal (λ t, Signal.cx (sg (vm t))) B1)|
      exact (f_equal (λ t, Sched.ru_nvcsw (kern_of t)) B1)|exact (f_equal (λ t, Sched.slpque (kern_of t)) B1)|
      exact (f_equal (λ t, Sched.qs (kern_of t)) B1)|exact (f_equal dead B1)]. }
  destruct Hbu as (Bu & Bc & Bn & Bs & Bq & Bd). apply wp_bind, wp_gets, wp_bind, wp_gets, wp_bind. rewrite Bu, Bn.
  set (ru := Cred.ruadd _ _). apply bury_ok; [by eauto|rewrite Bc; apply Hsg; eauto|].
  intros s2 (pr1' & g & Hp1' & Ht2 & Hk2 & Hpv2 & Hd2 & Hc2 & Hu2). rewrite Hp1 in Hp1'. injection Hp1' as <-.
  apply plain_fields in E1 as (F1 & F2 & F3 & F4 & F5 & F6 & F7 & F8).
  assert (Hoth : ∀ z, z ≠ p → plain <$> tab s2 !! z = plain <$> tab s !! z) by (intros z Hz'; rewrite Ht2, lookup_insert_ne by done; by apply Ho1).
  assert (Hself : tab s2 !! p = Some (overlay rv ru pr1)) by (rewrite Ht2; apply lookup_insert_eq).
  assert (Hpeq : parents s2 = parents s).
  { apply map_eq. intros x. unfold parents. rewrite !lookup_fmap. destruct (decide (x = p)) as [->|Hx]; [rewrite Hself, Hp; cbn; by f_equal|].
    specialize (Hoth x Hx). destruct (tab s2 !! x), (tab s !! x); try done. apply (inj Some), plain_fields in Hoth as (_ & E & _). cbn. by f_equal. }
  destruct (lists_disjoint _ _ _ _ _ HL1) as (D1 & _ & _).
  assert (Hne : Signal.PROC1 ≠ p) by (intros E; rewrite E, Hp in Hi'; cbn in Hi'; congruence).
  apply (HQ s2 (l1 ++ l2) hq1); [|done|by rewrite Hu2|by rewrite Hk2|rewrite Hd2; apply lookup_insert_eq].
  eapply (table_moved 0 p s s2 _ _ _ _ _ _ _ _ p Ht); [|done|eauto|eauto|unfold Sched.chan_of; unfold tab in Hp; by rewrite Hp| |by rewrite Hk2|done|set_solver| | | |done| |].
  - eapply lists_ext; [..|exact HL1]; unfold all_of, zomb_of, free_of; rewrite ?Hk2; try done.
    + intros x. unfold next. rewrite Ht2. destruct (decide (x = p)) as [->|]; [by rewrite lookup_insert_eq, Hp1|by rewrite lookup_insert_ne].
    + intros x Hx. assert (x ≠ p) by (intros ->; destruct (D1 p Hx); set_solver). unfold Sched.hnk, Sched.pid_of.
      change (Sched.procs (kern_of s1)) with (tab s1). cbn. by rewrite Ht2, lookup_insert_ne.
  - unfold Sched.chan_of. unfold tab in Hself. rewrite Hself. cbn. by rewrite F5.
  - rewrite Hpeq. intros x v Hx Hxv. assert (Hx' : x ∈ (l1 ++ p :: l2) ++ lz) by (clear -Hx; set_solver).
    destruct (Hpar x v Hx' Hxv) as [Hin|[->| ->]]; [|auto|auto]. clear -Hin. set_solver.
  - intros x Hx Hxp. rewrite Hd2, lookup_insert_ne, Bd by done. split; [clear -Hx Hxp; set_solver|done].
  - intros _. split; [rewrite Hd2, lookup_insert_eq; eauto|]. eexists. split; [exact Hself|].
    change (Sched.p_stat pr1 = Sched.SZOMB ∧ Sched.p_wchan pr1 = 0 ∧ negb (Z.land (Sched.p_flag pr1) Signal.P_TRACED =? 0) = false).
    rewrite F3, F4, F5. split; [done|]. split; [done|]. exact (Hun pr Hp).
  - intros Hin. destruct (lists_disjoint _ _ _ _ _ HL1) as (_ & _ & D3). destruct (D3 p Hin) as (_ & Hn). exfalso. apply Hn, elem_of_cons. by left.
  - intros x Hx. rewrite Hc2. cbn. apply lookup_insert_is_Some'. right. by rewrite Bc.
Qed.

Lemma sleeps_less s s' x chan : (∀ x, Sched.chan_of (kern_of s') x = 0 ∨ Sched.chan_of (kern_of s') x = Sched.chan_of (kern_of s) x) →
  chan ≠ 0 → sleeps_on s' x chan → sleeps_on s x chan.
Proof. intros H Hc. unfold sleeps_on. destruct (H x) as [E|E]; congruence. Qed.

Section exit.
Context (RUNOUT : Z) (HRO : RUNOUT ≠ 0).

(** The children are given to process 1 and the parent is told. *)
Lemma bereave_ok RUNIN p la lz lf hq s0 (Q : unit → pst → Prop) :
  RUNIN ≠ 0 → tablex p s0 la (p :: lz) lf hq → (∃ v, parents s0 !! p = Some v ∧ v ≠ 0) →
  (∀ s' par, table s' la (p :: lz) lf hq → carried s0 s' → parents s' !! p = Some par → par ∈ la → (∀ x, ¬ sleeps_on s' x par) → Q tt s') →
  wp (n ← nprocs; a ← kgets Sched.allproc; orphan_loop RUNOUT n a p;;
      z ← kgets Sched.zombproc; orphan_loop RUNOUT n z p;;
      pr ← rdp p; psignal RUNOUT (Sched.p_pptr pr) Signal.SIGCHLD;; wakeup RUNOUT (Sched.p_pptr pr);; wakeup RUNOUT RUNIN) Q s0.
Proof.
  intros HRI Ht (v0 & Hv0 & Hv0z) HQ. apply wp_bind, wp_gets, wp_bind, wp_gets.
  pose proof (t_lists _ _ _ _ _ _ Ht) as HL. apply wp_bind.
  eapply (orphan_loop_ok RUNOUT HRO p la (p :: lz) lf hq _ la); [exact Ht|exact (dlist_chain _ _ _ _ _ (l_all _ _ _ _ _ HL))|auto| |].
  { eapply list_len, dlist_chain, (l_all _ _ _ _ _ HL). }
  intros s1 Ht1 Hc1 Ha1. apply wp_bind, wp_gets, wp_bind. pose proof (t_lists _ _ _ _ _ _ Ht1) as HL1.
  eapply (orphan_loop_ok RUNOUT HRO p la (p :: lz) lf hq _ (p :: lz)); [exact Ht1|exact (dlist_chain _ _ _ _ _ (l_zomb _ _ _ _ _ HL1))|auto| |].
  { change (Sched.procs (kern_of s0)) with (tab s0). destruct (c_kern _ _ Hc1) as (_ & _ & <- & _). eapply list_len, dlist_chain, (l_zomb _ _ _ _ _ HL1). }
  intros s2 Ht2 Hc2 Ha2. pose proof (carried_trans _ _ _ Hc1 Hc2) as Hc. pose proof (t_lists _ _ _ _ _ _ Ht2) as HL2.
  assert (Hpla : p ∉ la) by (intros Hp; destruct (lists_disjoint _ _ _ _ _ HL2) as (D & _); destruct (D p Hp); set_solver).
  assert (Hpar : ∀ x v, x ∈ la ++ p :: lz → parents s2 !! x = Some v → v ∈ la ∨ v = 0).
  { intros x v Hx Hv. destruct (t_parent _ _ _ _ _ _ Ht2 x v Hx Hv) as [|[Hvp|]]; [auto|exfalso|auto]. subst v. rewrite Ha2, Ha1 in Hv.
    destruct (t_init _ _ _ _ _ _ Ht) as (Hi & _). assert (Signal.PROC1 ≠ p) by congruence.
    destruct (parents s0 !! x) as [w|]; [|done]. cbn in Hv. injection Hv as Hv. apply elem_of_app in Hx.
    repeat case_decide; simplify_eq; naive_solver. }
  assert (Htab : table s2 la (p :: lz) lf hq) by (destruct Ht2; split; try done; intros x v Hx Hv; destruct (Hpar x v Hx Hv); auto).
  assert (Hp2 : ∃ pr, tab s2 !! p = Some pr ∧ Sched.p_pptr pr ∈ la).
  { assert (Hv : ∃ v, parents s2 !! p = Some v ∧ v ≠ 0).
    { rewrite Ha2, Ha1, Hv0. cbn. eexists. split; [done|]. repeat case_decide; done. }
    destruct Hv as (v & Hv & Hvz). pose proof Hv as Hv'. unfold parents in Hv'. rewrite lookup_fmap in Hv'.
    destruct (tab s2 !! p) as [pr|]; [|done]. injection Hv' as Hv'. exists pr. split; [done|]. rewrite Hv'.
    destruct (Hpar p v) as [|]; [set_solver|done|done|done]. }
  destruct Hp2 as (pr & Hp2 & Hin). apply wp_bind. eapply wp_p_rdp; [exact Hp2|]. set (par := Sched.p_pptr pr) in *.
  assert (Hpar2 : parents s2 !! p = Some par) by (unfold parents; by rewrite lookup_fmap, Hp2).
  assert (Hpar0 : par ≠ 0).
  { intros E. destruct (dlist_tab _ _ _ _ _ par (l_all _ _ _ _ _ HL2) Hin) as (q & Hq). rewrite E in Hq.
    destruct (t_queued _ _ _ _ _ _ Ht2) as (_ & H0). change (tab s2 !! 0 = None) in H0. congruence. }
  apply wp_bind. eapply (psignal_table RUNOUT HRO); [exact Htab|done|done|done|]. intros s3 Ht3 Hk3.
  apply wp_bind. eapply (wakeup_table RUNOUT); [exact Ht3|done|]. intros s4 Ht4 Hk4 _ Hno4.
  eapply (wakeup_table RUNOUT); [exact Ht4|done|]. intros s5 Ht5 Hk5 Hle Hno5.
  pose proof (kept_trans _ _ _ Hk3 (kept_trans _ _ _ Hk4 Hk5)) as Hk. apply (HQ s5 par); [done| | |done|].
  - eapply carried_trans; [exact Hc|by apply kept_carried].
  - by rewrite (kept_parents _ _ Hk).
  - intros x Hx. by eapply (Hno4 x), sleeps_less.
Qed.


End exit.

(** ** Wait *)

(** [ru] is added to the usage of the caller's children. *)
Definition charged (ru : k_rusage) (s s' : pst) : Prop :=
  usr (Signal.sy (sg (vm s'))) = set_u_cru (Cred.ruadd (u_cru (usr (Signal.sy (sg (vm s))))) ru) (usr (Signal.sy (sg (vm s)))) ∧
  mem (Signal.sy (sg (vm s'))) = mem (Signal.sy (sg (vm s))).

Lemma reap_ok s la l1 c l2 lf hq ru (Q : unit → pst → Prop) :
  table s la (l1 ++ c :: l2) lf hq →
  (∀ s', table s' la (l1 ++ l2) (c :: lf) hq → charged ru s s' → (∀ x, x ≠ c → plain <$> tab s' !! x = plain <$> tab s !! x) → Q tt s') →
  wp (reap c ru) Q s.
Proof.
  intros Ht HQ. pose proof Ht as [HL ((sq & rq & Hrep) & Hq0) (Hi & Hi') Hpar Hz _ Hsg]. pose proof HL as [Hall Hzo Hfree Hnd Hhash Hhd].
  destruct (lists_disjoint _ _ _ _ _ HL) as (D1 & D2 & D3). destruct (D2 c) as (Hca & Hcf); [set_solver|].
  destruct (Hz c) as (_ & cr & Hc & Hcs & Hcw & _); [set_solver|].
  assert (Hcz : c ∉ l1 ∧ c ∉ l2).
  { pose proof (chain_nodup _ _ _ (dlist_chain _ _ _ _ _ Hzo)) as (_ & M & (O & _)%NoDup_cons)%NoDup_app. split; [|done]. intros Hx. apply (M c Hx). set_solver. }
  unfold reap. apply wp_bind, wp_on_s, SigSpec.wp_on_sys, wp_modify. apply wp_bind. eapply wp_p_wrp; [exact Hc|]. apply wp_bind, wp_modify.
  match goal with |- wp _ _ ?x => set (s3 := x) end. set (T3 := <[c := wipe_status cr]> (tab s)). assert (Ht3 : tab s3 = T3) by done.
  assert (HT3 : ∀ y, y ≠ c → T3 !! y = tab s !! y) by (intros; by apply lookup_insert_ne).
  assert (Hc3 : T3 !! c = Some (wipe_status cr)) by apply lookup_insert_eq.
  assert (Hn3 : ∀ y, next s3 y = next s y).
  { intros y. unfold next. rewrite Ht3. destruct (decide (y = c)) as [->|]; [by rewrite Hc3, Hc|by rewrite HT3]. }
  apply wp_bind. eapply (unlink_ok true s3 l1 c l2).
  { change (head_of true s3) with (zomb_of s). eapply dlist_ext; [|exact Hzo]. intros y _. split; [apply Hn3|done]. }
  cbn [negb head_of root]. intros s4 A4 T4 P4 Z4 F4 S4 H4 N4 B4. assert (Hc4 : tab s4 !! c = Some (wipe_status cr)) by (rewrite T4, Ht3; tauto).
  apply wp_bind, wp_gets, wp_bind. eapply wp_p_wrp; [exact Hc4|]. apply wp_bind, wp_on_kn, wp_modify. eapply wp_p_wrp; [cbn; apply lookup_insert_eq|].
  set (f := Sched.freeproc (kern_of s4)). set (cr' := wipe_rest (set_p_nxt f (wipe_status cr))). match goal with |- Q tt ?x => set (s' := x) end.
  set (T := <[c := cr']> (tab s4)). assert (Ht' : tab s' = T) by (unfold T; cbn; by rewrite insert_insert_eq).
  assert (HT : ∀ y, y ≠ c → T !! y = tab s4 !! y) by (intros; by apply lookup_insert_ne).
  assert (Htc : T !! c = Some cr') by apply lookup_insert_eq.
  assert (Hn' : ∀ y, y ≠ c → next s' y = next s4 y) by (intros y Hy; unfold next; by rewrite Ht', HT).
  assert (Hoth : ∀ y, y ≠ c → plain <$> tab s' !! y = plain <$> tab s !! y) by (intros y Hy; by rewrite Ht', HT, S4, Ht3, HT3 by done).
  assert (Hsame : ∀ y, y ≠ c → y ∉ l1 → tab s' !! y = tab s !! y) by (intros y Hy Hl; by rewrite Ht', HT, T4, Ht3, HT3 by done).
  assert (Hk4 : kern_of s' = Sched.set_procs T (Sched.set_freeproc c (kern_of s4))) by (unfold T; cbn; by rewrite insert_insert_eq).
  assert (Hla : ∀ y, y ∈ la → y ≠ c ∧ y ∉ l1 ∧ y ∉ l2) by (intros y Hy; destruct (D1 y Hy); set_solver).
  assert (Hxl : ∀ x, x ∈ l1 ++ l2 → x ∈ l1 ++ c :: l2 ∧ x ≠ c) by (intros x Hx; split; [set_solver|]; intros ->; set_solver).
  apply HQ; [|by split_and!; [exact (f_equal (λ t, usr (Signal.sy (sg (vm t)))) B4)|exact (f_equal (λ t, mem (Signal.sy (sg (vm t)))) B4)]|exact Hoth].
  eapply (table_moved 0 0 s s' _ _ _ _ _ _ _ _ c Ht); [|done|eauto| |unfold Sched.chan_of; unfold tab in Hc; by rewrite Hc| | | |done| | | | | |].
  - split; [| | | | |done].
    + change (all_of s') with (all_of s4). rewrite Z4. eapply dlist_ext; [|exact Hall]. intros y Hy. destruct (Hla y Hy) as (G1 & G2 & G3).
      unfold next. rewrite Hsame by done. split; [done|]. by apply P4.
    + eapply dlist_ext; [|exact A4]. intros y Hy. split; [|done]. by apply Hn', Hxl.
    + change (free_of s') with c. assert (Hc0 : c ≠ 0) by (intros ->; change (tab s !! 0 = None) in Hq0; congruence).
      split; [done|]. split; [done|]. exists f. split; [unfold next; by rewrite Ht', Htc|]. unfold f. change (Sched.freeproc (kern_of s4)) with (free_of s4). rewrite F4.
      eapply lseg_ext; [|exact Hfree]. intros y Hy. destruct (D3 y Hy) as (G1 & G2). unfold next. rewrite Hsame; [done| |set_solver]. intros ->. done.
    + eapply NoDup_Permutation_proper; [|exact Hnd]. apply Permutation_app_head. rewrite <- !app_assoc. apply Permutation_app_head. cbn.
      symmetry. apply Permutation_middle.
    + eapply (hashed_ext (kern_of s)); [by rewrite Hk4| |..|exact Hhash]; [intros i x Hix Hx; apply Hhd; eauto|]. intros y Hy. destruct (Hla y Hy) as (G1 & G2 & _).
      unfold Sched.hnk, Sched.pid_of. change (Sched.procs (kern_of s')) with (tab s'). rewrite Hsame by done. done.
  - exists sq, rq. split; [done|]. intros Hin. destruct Hrep as (_ & _ & _ & Hr). destruct (Hr c Hin) as (q & Hq & _ & E & _). change (tab s !! c = Some q) in Hq.
    rewrite Hc in Hq. injection Hq as <-. rewrite Hcs in E. done.
  - unfold Sched.chan_of. change (Sched.procs (kern_of s')) with (tab s'). by rewrite Ht', Htc.
  - rewrite Hk4. split; [exact (f_equal (λ t, Sched.slpque (kern_of t)) B4)|exact (f_equal (λ t, Sched.qs (kern_of t)) B4)].
  - intros E. rewrite E in Hi. done.
  - intros x v Hx Hv. assert (Hx' : x ∈ la ++ l1 ++ c :: l2 ∧ x ≠ c).
    { apply elem_of_app in Hx as [Hx|Hx]; [destruct (Hla x Hx); set_solver|]. destruct (Hxl x Hx). set_solver. }
    destruct Hx' as (Hx' & Hne). apply (Hpar x v Hx'). unfold parents in *. rewrite lookup_fmap in *. specialize (Hoth x Hne).
    destruct (tab s' !! x), (tab s !! x); try done. apply (inj Some), plain_fields in Hoth as (_ & E & _). cbn in *. by rewrite <- E.
  - intros x Hx Hne. destruct (Hxl x Hx) as (Hx' & _). split; [done|].
    assert (Ed : dead s' = <[c := (0, ru)]> (dead s)) by exact (f_equal dead B4). by rewrite Ed, lookup_insert_ne.
  - intros Hin. by destruct (Hxl c Hin).
  - set_solver.
  - intros _. exists cr'. by rewrite Ht', Htc.
  - assert (Ec : Signal.cx (sg (vm s')) = Signal.cx (sg (vm s))) by exact (f_equal (λ t, Signal.cx (sg (vm t))) B4). by rewrite Ec.
Qed.

(** The memory after the words [ws] are stored for the caller at [a]. *)
Definition give (a : Z) (ws : list Z) (m : gmap Z Z) : option (gmap Z Z) :=
  if a =? 0 then Some m
  else if baduaddr a || baduaddr (u32 (a + 4 * Z.of_nat (length ws) - 1)) then None
  else Some (put m a ws).

Definition mem_of (s : pst) : gmap Z Z := mem (Signal.sy (sg (vm s))).
Definition set_mem_of (m : gmap Z Z) (s : pst) : pst :=
  set_vm (Swap.set_sg (Signal.set_sy (set_mem m (Signal.sy (sg (vm s)))) (sg (vm s))) (vm s)) s.

Lemma wp_give ws a s (Q : Z → pst → Prop) :
  match give a ws (mem_of s) with Some m => Q 0 (set_mem_of m s) | None => Q EFAULT s end →
  wp (if a =? 0 then mret 0 else on_y (copyout ws a)) Q s.
Proof.
  unfold give. intros HQ. destruct (a =? 0); [|destruct (_ || _) eqn:E].
  - apply wp_ret. by destruct s as [[[[]] ? ? ?] ? ? ? ? ? ?].
  - apply wp_on_s, SigSpec.wp_on_sys, wp_copyout; rewrite E; [|done]. intros _. by destruct s as [[[[]] ? ? ?] ? ? ? ? ? ?].
  - by apply wp_on_s, SigSpec.wp_on_sys, wp_copyout; rewrite E.
Qed.

Definition passed (q pid : Z) (s : pst) (l : list Z) : Prop := ∀ x xr, x ∈ l → tab s !! x = Some xr → asked q pid xr = false.

Lemma passed_cons q pid s x l : passed q pid s (x :: l) → (∀ xr, tab s !! x = Some xr → asked q pid xr = false) ∧ passed q pid s l.
Proof. intros H. split; [intros xr; apply H; set_solver|]. intros y yr Hy. apply H. set_solver. Qed.

(** What a call that finds the zombie [c] does. *)
Definition told (q status rusage x : Z) (ru : k_rusage) (pr : Sched.proc) (la l1 : list Z) (c : Z) (l2 lf : list Z) hq (s : pst) (r : Z * Z) (s' : pst) : Prop :=
  match give status [x] (mem_of s) ≫= give rusage (Cred.rucvt ru) with
  | Some m => r = (Sched.p_pid pr, 0) ∧ table s' la (l1 ++ l2) (c :: lf) hq ∧ charged ru (set_mem_of m s) s'
  | None => r = (Sched.p_pid pr, EFAULT) ∧ table s' la (l1 ++ c :: l2) lf hq ∧ dead s' !! c = Some (x, ru) ∧ tab s' !! c = Some pr
  end.

Lemma wait_zombies_ok fuel la l1 c l2 lf hq q pid status rusage pr x ru s :
  table s la (l1 ++ c :: l2) lf hq → tab s !! c = Some pr → dead s !! c = Some (x, ru) → asked q pid pr = true →
  ∀ l0 l p, l1 = l0 ++ l → chain (next s) p (l ++ c :: l2) → passed q pid s l → (length l < fuel)%nat →
  wp (wait_zombies fuel p q pid status rusage)
    (λ r s', ∃ r', r = Some r' ∧ told q status rusage x ru pr la l1 c l2 lf hq s r' s') s.
Proof.
  intros Ht Hc Hd Hask. induction fuel as [|fuel IH]; intros l0 l p El Hch Hpass Hf; [lia|]. cbn [wait_zombies]. destruct l as [|y l].
  - destruct Hch as (-> & Hc0 & _). rewrite (proj2 (Z.eqb_neq c 0)) by done. apply wp_bind. eapply wp_p_rdp; [exact Hc|]. rewrite Hask. cbn [negb].
    apply wp_bind. eapply wp_load; [exact Hd|]. apply wp_bind, wp_give. unfold told. destruct (give status [x] (mem_of s)) as [m1|] eqn:E1; cbn [mbind option_bind].
    + change (negb (0 =? 0)) with false. cbn iota. apply wp_bind, wp_give. change (mem_of (set_mem_of m1 s)) with m1.
      destruct (give rusage (Cred.rucvt ru) m1) as [m2|].
      * change (negb (0 =? 0)) with false. cbn iota. apply wp_bind. eapply (reap_ok _ la l1 c l2 lf hq); [by eapply (table_usr 0 s)|].
        intros s' Ht' Hch' _. apply wp_ret. eexists. split; [done|]. split; [done|]. split; [done|]. exact Hch'.
      * apply wp_ret. eexists. split; [done|]. split; [done|]. split; [by eapply (table_usr 0 s)|]. done.
    + apply wp_ret. eexists. split; [done|]. done.
  - apply passed_cons in Hpass as (Hy & Hpass). destruct Hch as (-> & Hy0 & n & Hn & Hch). rewrite (proj2 (Z.eqb_neq y 0)) by done.
    unfold next in Hn. destruct (tab s !! y) as [yr|] eqn:Ey; [|done]. injection Hn as <-. apply wp_bind. eapply wp_p_rdp; [exact Ey|].
    rewrite (Hy yr eq_refl). cbn [negb]. apply (IH (l0 ++ [y]) l); [by rewrite <- app_assoc|done|done|cbn in Hf; lia].
Qed.

Lemma wait_zombies_none fuel q pid status rusage s (Q : option (Z * Z) → pst → Prop) :
  ∀ l p, chain (next s) p l → passed q pid s l → (length l < fuel)%nat → Q None s → wp (wait_zombies fuel p q pid status rusage) Q s.
Proof.
  induction fuel as [|fuel IH]; intros l p Hch Hpass Hf HQ; [lia|]. cbn [wait_zombies]. destruct l as [|y l].
  - cbn in Hch. subst p. by apply wp_ret.
  - apply passed_cons in Hpass as (Hy & Hpass). destruct Hch as (-> & Hy0 & n & Hn & Hch). rewrite (proj2 (Z.eqb_neq y 0)) by done.
    unfold next in Hn. destruct (tab s !! y) as [yr|] eqn:Ey; [|done]. injection Hn as <-. apply wp_bind. eapply wp_p_rdp; [exact Ey|].
    rewrite (Hy yr eq_refl). cbn [negb]. by apply (IH l); [..|cbn in Hf; lia|].
Qed.

(** A child that has stopped and not been reported. *)
Definition reportable (options : Z) (pr : Sched.proc) : bool :=
  (Sched.p_stat pr =? Sched.SSTOP) && negb (Sched.has_flag Signal.P_WAITED pr) && (Sched.has_flag Signal.P_TRACED pr || Signal.bit options WUNTRACED).

Definition is_asked (q pid : Z) (s : pst) (x : Z) : bool := match tab s !! x with Some pr => asked q pid pr | None => false end.

Lemma wait_stopped_none fuel q pid options status s (Q : Z * option (Z * Z) → pst → Prop) :
  ∀ l p nf, chain (next s) p l → (∀ x xr, x ∈ l → tab s !! x = Some xr → asked q pid xr = true → reportable options xr = false) → (length l < fuel)%nat →
  Q (nf + zlen (filter (λ x, is_asked q pid s x = true) l), None) s → wp (wait_stopped fuel p q pid options status nf) Q s.
Proof.
  induction fuel as [|fuel IH]; intros l p nf Hch Hrep Hf HQ; [lia|]. cbn [wait_stopped]. destruct l as [|y l].
  - cbn in Hch. subst p. apply wp_ret. by rewrite filter_nil, Z.add_0_r in HQ.
  - destruct Hch as (-> & Hy0 & n & Hn & Hch). rewrite (proj2 (Z.eqb_neq y 0)) by done. unfold next in Hn.
    destruct (tab s !! y) as [yr|] eqn:Ey; [|done]. injection Hn as <-. apply wp_bind. eapply wp_p_rdp; [exact Ey|].
    assert (Hl : ∀ x xr, x ∈ l → tab s !! x = Some xr → asked q pid xr = true → reportable options xr = false) by (intros x xr Hx; apply (Hrep x xr); set_solver).
    assert (Hiy : is_asked q pid s y = asked q pid yr) by (unfold is_asked; by rewrite Ey).
    rewrite filter_cons in HQ. destruct (asked q pid yr) eqn:Ea; cbn [negb].
    + assert (Hr : reportable options yr = false) by (apply (Hrep y yr); [set_solver|done|done]). unfold reportable in Hr. rewrite Hr.
      rewrite decide_True in HQ by done. apply (IH l); [done|done|cbn in Hf; lia|]. cbn [length] in HQ.
      by rewrite Nat2Z.inj_succ, <- Z.add_1_l, Z.add_assoc in HQ.
    + rewrite decide_False in HQ by congruence. by apply (IH l); [..|cbn in Hf; lia|].
Qed.

(** The number [wait1] looks for. *)
Definition target (q pid : Z) (s : pst) : Z :=
  if pid =? WAIT_MYPGRP then - default 0 (Sched.p_pgrp <$> tab s !! q) else pid.

Lemma wp_target q pid s (Q : Z → pst → Prop) :
  is_Some (tab s !! q) → Q (target q pid s) s → wp (if pid =? WAIT_MYPGRP then qr ← rdp q; mret (- Sched.p_pgrp qr) else mret pid) Q s.
Proof.
  intros [qr Hq] HQ. unfold target in HQ. destruct (pid =? WAIT_MYPGRP); [|by apply wp_ret].
  apply wp_bind. eapply wp_p_rdp; [exact Hq|]. rewrite Hq in HQ. by apply wp_ret.
Qed.

Lemma table_len g s la lz lf hq : tablex g s la lz lf hq → (length la < S (size (tab s)))%nat ∧ (length lz < S (size (tab s)))%nat.
Proof. intros [HL _ _ _ _ _ _]. split; eapply list_len, dlist_chain; apply HL. Qed.


(** When no zombie is asked for and no child asked for has stopped since it was
    reported, [wait4] changes nothing: it fails with [ECHILD] if there is no living
    child either, and with [WNOHANG] it returns 0 if there is one. *)
Theorem wait_nothing (tsleep : Z → K Z) fuel q pid options status rusage s la lz lf hq :
  table s la lz lf hq → is_Some (tab s !! q) → passed q (target q pid s) s lz →
  (∀ x xr, x ∈ la → tab s !! x = Some xr → asked q (target q pid s) xr = true → reportable options xr = false) →
  (Signal.bit options WNOHANG = true ∨ passed q (target q pid s) s la) →
  wp (wait1 tsleep (S fuel) q pid status options rusage)
    (λ r s', s' = s ∧ r = (0, if existsb (is_asked q (target q pid s) s) la then 0 else ECHILD)) s.
Proof.
  intros Ht Hq Hz Hst Hor. unfold wait1. apply wp_bind, wp_target; [done|]. cbn [wait_loop]. apply wp_bind, wp_gets, wp_bind, wp_gets, wp_bind.
  destruct (table_len _ _ _ _ _ _ Ht) as (Hla & Hlz). pose proof (t_lists _ _ _ _ _ _ Ht) as HL.
  eapply wait_zombies_none; [exact (dlist_chain _ _ _ _ _ (l_zomb _ _ _ _ _ HL))|done|done|]. apply wp_bind, wp_gets, wp_bind.
  eapply wait_stopped_none; [exact (dlist_chain _ _ _ _ _ (l_all _ _ _ _ _ HL))|done|done|]. rewrite Z.add_0_l.
  set (t := target q pid s) in *. destruct (existsb (is_asked q t s) la) eqn:E.
  - apply existsb_exists in E as (x & Hx%list_elem_of_In & Ex). rewrite (proj2 (Z.eqb_neq _ 0)).
    + destruct Hor as [->|Hp]; [by apply wp_ret|]. exfalso. unfold is_asked in Ex. destruct (tab s !! x) as [xr|] eqn:Exr; [|done]. by rewrite (Hp x xr) in Ex.
    + intros H0. assert (Hin : x ∈ filter (λ x, is_asked q t s x = true) la) by (by apply list_elem_of_filter).
      destruct (filter (λ x, is_asked q t s x = true) la); [set_solver|]. cbn in H0. lia.
  - assert (Hf : filter (λ x, is_asked q t s x = true) la = []).
    { destruct (filter _ la) as [|x l] eqn:Ef; [done|]. assert (Hin : x ∈ x :: l) by set_solver. rewrite <- Ef in Hin.
      apply list_elem_of_filter in Hin as (Ex & Hx%list_elem_of_In). assert (existsb (is_asked q t s) la = true) by (apply existsb_exists; eauto). congruence. }
    rewrite Hf. by apply wp_ret.
Qed.

(** ** Checking a concrete table *)

#[global] Instance pref_eq_dec : EqDecision pref.
Proof. solve_decision. Defined.

Fixpoint dlistb (nx : Z → option Z) (pv : Z → option pref) (r : pref) (p : Z) (l : list Z) : bool :=
  match l with
  | [] => p =? 0
  | x :: l' => (p =? x) && negb (x =? 0) && bool_decide (pv x = Some r) && match nx x with Some n => dlistb nx pv (PNxt x) n l' | None => false end
  end.

Lemma dlistb_sound nx pv r p l : dlistb nx pv r p l = true → dlist nx pv r p l.
Proof.
  revert r p. induction l as [|x l IH]; intros r p; cbn; [by intros ?%Z.eqb_eq|]. rewrite !andb_true_iff. intros (((H1 & H2) & H3) & H4).
  apply Z.eqb_eq in H1. apply bool_decide_eq_true in H3. destruct (nx x) as [n|]; [|done]. to_prop. split_and!; [done|done|done|]. exists n. auto.
Qed.

Definition lists_check (s : pst) (la lz lf : list Z) (hq : Z → list Z) : bool :=
  dlistb (next s) (prev s) PAll (all_of s) la && dlistb (next s) (prev s) PZomb (zomb_of s) lz && lsegb (next s) (free_of s) lf 0 &&
  bool_decide (NoDup (la ++ lz ++ lf)) &&
  forallb (λ i, match aget (Sched.pidhash (kern_of s)) i with Some h => lsegb (Sched.hnk (kern_of s)) h (hq i) 0 | None => false end &&
    forallb (λ x, (Sched.PIDHASH (Sched.pid_of (kern_of s) x) =? i) && bool_decide (x ∈ la)) (hq i)) (seqZ 0 16) &&
  forallb (λ x, bool_decide (x ∈ hq (Sched.PIDHASH (Sched.pid_of (kern_of s) x)))) la.

Lemma lists_check_sound s la lz lf hq : lists_check s la lz lf hq = true → lists s la lz lf hq.
Proof.
  unfold lists_check. rewrite !andb_true_iff. intros (((((H1 & H2) & H3) & H4) & H5) & H6). apply bool_decide_eq_true in H4.
  assert (Hi : ∀ i, 0 ≤ i < Sched.PIDHSZ → i ∈ seqZ 0 16) by (intros; apply elem_of_seqZ; unfold Sched.PIDHSZ in *; lia).
  split; [by apply dlistb_sound|by apply dlistb_sound|by apply lsegb_sound|done| |].
  - split; [intros i Hr%Hi|intros i x Hr%Hi Hx]; apply (forallb_elem _ _ i) in H5 as [Ha Hb]%andb_true_iff; try done.
    + destruct (aget _ i) as [h|]; [|done]. exists h. split; [done|by apply lsegb_sound].
    + apply (forallb_elem _ _ x) in Hb as [Hc _]%andb_true_iff; [|done]. by apply Z.eqb_eq.
  - intros x. split.
    + intros Hx. apply (forallb_elem _ _ x) in H6; [|done]. apply bool_decide_eq_true in H6. eexists. split; [|exact H6]. apply Sched.PIDHASH_range.
    + intros (i & Hr%Hi & Hx). apply (forallb_elem _ _ i) in H5 as [_ Hb]%andb_true_iff; [|done].
      apply (forallb_elem _ _ x) in Hb as [_ Hc]%andb_true_iff; [|done]. by apply bool_decide_eq_true in Hc.
Qed.

Definition table_check (s : pst) (la lz lf : list Z) (hq sq : Z → list Z) (rq : list Z) : bool :=
  lists_check s la lz lf hq && Sched.rep_check (kern_of s) sq rq && bool_decide (tab s !! 0 = None) &&
  bool_decide (Signal.PROC1 ∈ la) && bool_decide (Sched.p_pid <$> tab s !! Signal.PROC1 = Some 1) &&
  forallb (λ x, match parents s !! x with Some v => bool_decide (v ∈ la) || (v =? 0) | None => false end) (la ++ lz) &&
  forallb (λ x, bool_decide (is_Some (dead s !! x)) &&
    match tab s !! x with Some pr => (Sched.p_stat pr =? Sched.SZOMB) && (Sched.p_wchan pr =? 0) && negb (Sched.has_flag Signal.P_TRACED pr) | None => false end) lz &&
  forallb (λ x, match tab s !! x with Some pr => (Sched.p_stat pr =? 0) && (Sched.p_wchan pr =? 0) | None => false end) lf &&
  bool_decide (map_Forall (λ x _, is_Some (Signal.segs (Signal.cx (sg (vm s))) !! x)) (tab s)).

Lemma table_check_sound s la lz lf hq sq rq : table_check s la lz lf hq sq rq = true → table s la lz lf hq ∧ Sched.rep (kern_of s) sq rq.
Proof.
  unfold table_check. rewrite !andb_true_iff. intros ((((((((H1 & H2) & H3) & H4) & H5) & H6) & H7) & H8) & H9).
  apply lists_check_sound in H1. apply Sched.rep_check_sound in H2. apply bool_decide_eq_true in H3, H4, H5, H9. split; [|done].
  split; [done|split; [by exists sq, rq|done]|done| | | |].
  - intros x v Hx Hv. apply (forallb_elem _ _ x) in H6; [cbv beta in H6|done]. rewrite Hv in H6.
    apply orb_true_iff in H6 as [?%bool_decide_eq_true|?%Z.eqb_eq]; auto.
  - intros x Hx. apply (forallb_elem _ _ x) in H7 as [Ha Hb]%andb_true_iff; [|done]. apply bool_decide_eq_true in Ha. split; [done|].
    destruct (tab s !! x) as [pr|]; [|done]. exists pr. to_prop. done.
  - intros x Hx. apply (forallb_elem _ _ x) in H8; [cbv beta in H8|done]. destruct (tab s !! x) as [pr|] eqn:E; [|done]. exists pr. to_prop. done.
  - intros x [pr Hx]. exact (H9 x pr Hx).
Qed.

(** ** An example *)

(** Process 4 runs; its parent 3 waits for it, and it has a stopped child 5 and
    a dead one 6. *)
Definition demo_entry (nx pptr flag pid st chan hash pgrp : Z) : Sched.proc :=
  Sched.Proc nx pptr flag 0 pid 0 st 60 0 0 0 0 hash 0 0 chan 0 0 pgrp 0 0 0 0 0.
Definition demo_usage : k_rusage := KR 100 30 0 2 1 0 0 0 7 3.
Definition demo_table : pst :=
  let k := Sched.KS (list_to_map [
        (1, demo_entry 0 0 3 0 Sched.SRUN 0 0 0);
        (2, demo_entry 1 1 1 1 Sched.SSLEEP 2 0 0);
        (3, demo_entry 2 2 1 3 Sched.SSLEEP 3 0 3);
        (4, demo_entry 3 3 1 4 Sched.SRUN 0 0 4);
        (5, demo_entry 4 4 1 20 Sched.SSTOP 0 4 4);
        (6, demo_entry 0 4 1 6 Sched.SZOMB 0 0 0);
        (7, demo_entry 8 0 0 0 0 0 0 0);
        (8, demo_entry 0 0 0 0 0 0 0 0)])
     (<[0%nat := 2]> (replicate 16 0)) 0
     (<[0%nat := 1]> (<[1%nat := 2]> (<[3%nat := 3]> (<[4%nat := 5]> (replicate 16 0)))))
     7 5 6 0 50 false 0 0 false 0 7 4 0 0 [] Callout.demo in
  let k := Sched.set_procs (alter (Sched.set_p_link 3) 2 (Sched.procs k)) k in
  let v := SwapSpec.demo_swap in
  let g := sg v in
  let y := Signal.sy g in
  let c := Signal.cx g in
  let c := Signal.set_segs (list_to_map ((λ p, (p, Signal.Seg USER_DATA_START (USER_DATA_END - 1000) 1500 1000)) <$> seqZ 1 8)) c in
  PS (Swap.set_sg (Signal.set_cx c (Signal.set_sy (User.set_kern k y) g)) v)
     (list_to_map [(5, PAll); (4, PNxt 5); (3, PNxt 4); (2, PNxt 3); (1, PNxt 2); (6, PZomb)])
     {[6 := (W_EXITCODE 1 0, demo_usage)]} 20 0 (FS 0 0 0 0) 0.

Definition demo_hq (i : Z) : list Z := if i =? 0 then [1] else if i =? 1 then [2] else if i =? 3 then [3] else if i =? 4 then [5; 4] else [].
Definition demo_sq (i : Z) : list Z := if i =? 0 then [2; 3] else [].

Lemma demo_table_ok : table demo_table [5; 4; 3; 2; 1] [6] [7; 8] demo_hq ∧ Sched.rep (kern_of demo_table) demo_sq [].
Proof. apply table_check_sound. vm_compute. reflexivity. Qed.

Lemma demo_live : live 4 demo_table.
Proof.
  exists [5; 4; 3; 2; 1], [6], [7; 8], demo_hq. split; [apply demo_table_ok|]. split; [set_solver|]. split; [done|]. split.
  - exists demo_sq, []. split; [apply demo_table_ok|set_solver].
  - eexists. split; [reflexivity|]. done.
Qed.


(** The caller of the examples gives addresses in its data segment. *)
Definition demo_stored : gmap Z Z := put (put (mem_of demo_table) 0x7f008100 [W_EXITCODE 1 0]) 0x7f008200 (Cred.rucvt demo_usage).

Lemma demo_given : give 0x7f008100 [W_EXITCODE 1 0] (mem_of demo_table) ≫= give 0x7f008200 (Cred.rucvt demo_usage) = Some demo_stored.
Proof. reflexivity. Qed.


(** Process 3 has a living child only. *)
Lemma wait_nothing_witness :
  wp (wait1 (λ _, mret 0) 1 3 WAIT_ANY 0 WNOHANG 0) (λ r s', s' = demo_table ∧ r = (0, 0)) demo_table.
Proof.
  pose proof (wait_nothing (λ _, mret 0) 0 3 WAIT_ANY WNOHANG 0 0 demo_table [5; 4; 3; 2; 1] [6] [7; 8] demo_hq (proj1 demo_table_ok)
    ltac:(vm_compute; eauto)) as H.
  apply H; [| |by left].
  - intros x xr ->%list_elem_of_singleton Hx. vm_compute in Hx. injection Hx as <-. by vm_compute.
  - intros x xr Hx. rewrite !elem_of_cons, elem_of_nil in Hx. intros Hxr Ha.
    destruct Hx as [->|[->|[->|[->|[->|[]]]]]]; vm_compute in Hxr; injection Hxr as <-; vm_compute in Ha |- *; done.
Defined.

(** The example after the exit. *)
Definition result {S A} (r : outcome S A) : option A := match r with Ret a _ => Some a | _ => None end.
Definition demo_exit : outcome pst unit := exit 128 96 (mret tt) (λ _, mret tt) 1 (W_EXITCODE 3 0) demo_table.
Definition demo_after : pst := match demo_exit with Ret _ s => s | _ => demo_table end.

(** [wait4] for a process group does not find a child that has exited.  The
    usage that [exit] stores in the entry covers [p_pgrp], which [wait1] still
    compares.  Process 4, a child of 3, is in group 4: while it lives, process 3
    waiting for the group finds it; once it has exited the same call fails with
    [ECHILD], though the zombie is there and a call for any child reports it. *)
Theorem wait_group_misses :
  Sched.p_pgrp <$> tab demo_table !! 4 = Some 4 ∧
  result (wait1 (λ _, mret 0) 1 3 (-4) 0 WNOHANG 0 demo_table) = Some (0, 0) ∧
  result demo_exit = Some tt ∧
  result (wait1 (λ _, mret 0) 1 3 (-4) 0 WNOHANG 0 demo_after) = Some (0, ECHILD) ∧
  result (wait1 (λ _, mret 0) 1 3 WAIT_ANY 0 WNOHANG 0 demo_after) = Some (4, 0).
Proof. split; [reflexivity|]. split; [vm_compute; reflexivity|]. split; [vm_compute; reflexivity|]. split; vm_compute; reflexivity. Qed.
End ExitSpec.
