(* ===== verification/ForkSpec.v ===== *)
(** * The process table: fork

    [newproc] takes an entry off the free list, enters it among the living and
    leaves the child on the swap device with a copy of the memory of its parent. *)

From S2P Require Import Prelude Links Callout Sched User Clock Cred Signal SigSpec Run Rmap Swap SwapSpec Proc PidSpec ProcSpec ExitSpec.

Module ForkSpec.
Import User Swap Proc PidSpec ProcSpec ExitSpec.

(** ** A copy in core goes to the device *)

Lemma view_eq v v' : SwapSpec.v_addr v = SwapSpec.v_addr v' → SwapSpec.v_segs v = SwapSpec.v_segs v' → SwapSpec.v_mem v = SwapSpec.v_mem v' →
  SwapSpec.v_dev v = SwapSpec.v_dev v' → SwapSpec.v_map v = SwapSpec.v_map v' → v = v'.
Proof. destruct v, v'. cbn. by intros -> -> -> -> ->. Qed.

Section copy.
Import SwapSpec.
Context (U0 p c : Z) (Hpc : p ≠ c).

(** [c] has been given the segments and the user structure of [p]. *)
Definition shared_view (v : view) (g : Signal.segments) : view :=
  View (<[c := U0]> (v_addr v)) (<[c := g]> (v_segs v)) (v_mem v) (v_dev v) (v_map v).

Lemma placed_shared v g q : q ≠ c → placed (shared_view v g) q = placed v q.
Proof. intros Hq. unfold placed. cbn. by rewrite !lookup_insert_ne. Qed.

Lemma layout_shared v g lo es :
  layout U0 v (Some p) (p :: lo) es → p ∉ lo → c ∉ lo → v_segs v !! p = Some g → layout U0 (shared_view v g) (Some c) (c :: lo) es.
Proof.
  intros [Hm Hsz Hcore Hfr Hdj] Hp Hc Hg. destruct (Hcore p eq_refl) as (_ & g0 & Hg0 & Ha).
  assert (Hlo : ∀ q, q ∈ c :: lo → Some c ≠ Some q → q ∈ lo ∧ q ≠ c ∧ Some p ≠ Some q).
  { intros q [->|Hq]%elem_of_cons Hne; [done|]. split; [done|]. split; congruence. }
  assert (Hlp : ∀ q, q ∈ lo → q ∈ p :: lo) by (intros; by apply elem_of_cons; right). split.
  - done.
  - intros q [->|Hq]%elem_of_cons.
    + destruct (Hsz p ltac:(set_solver)) as (g1 & a1 & Hg1 & _ & Hs). rewrite Hg in Hg1. injection Hg1 as <-.
      exists g, U0. cbn. rewrite !lookup_insert_eq. done.
    + destruct (Hsz q (Hlp q Hq)) as (g1 & a1 & H1 & H2 & H3). exists g1, a1. cbn. rewrite !lookup_insert_ne by congruence. done.
  - intros q [= <-]. split; [set_solver|]. exists g0. cbn. rewrite !lookup_insert_eq. split; [congruence|done].
  - intros q i x Hq Hne Hh. destruct (Hlo q Hq Hne) as (Hq' & Hqc & Hqp). apply (holds_ext v) in Hh; [|by apply placed_shared].
    apply (Hfr q i x); [by apply Hlp|done|done].
  - intros q r i j x Hq Hr Hqn Hrn H1 H2. destruct (Hlo q Hq Hqn) as (Hq' & Hqc & Hqp), (Hlo r Hr Hrn) as (Hr' & Hrc & Hrp).
    apply (holds_ext v) in H1, H2; [|by apply placed_shared..]. apply (Hdj q r i j x); [by apply Hlp|by apply Hlp|done|done|done|done].
Qed.

Lemma image_shared v g q lo es :
  layout U0 v (Some p) (p :: lo) es → p ∉ lo → c ∉ lo → v_segs v !! p = Some g → q ∈ c :: lo →
  image (shared_view v g) (Some c) q = image v (Some p) (if decide (q = c) then p else q).
Proof.
  intros [_ Hsz Hcore _ _] Hp Hc Hg Hq. destruct (Hcore p eq_refl) as (_ & g0 & _ & Ha). case_decide as E.
  - subst q. unfold image. rewrite (placed_Some _ _ _ _ Hg Ha), (placed_Some (shared_view v g) c g U0) by (cbn; apply lookup_insert_eq).
    cbn [fmap option_fmap option_map]. f_equal. apply list_fmap_ext. intros i x _. by rewrite !decide_True.
  - apply elem_of_cons in Hq as [?|Hq]; [done|]. unfold image. rewrite placed_shared by done. destruct (placed v q) as [l|]; [|done].
    cbn [fmap option_fmap option_map]. f_equal. apply list_fmap_ext. intros i x _. rewrite !decide_False by congruence. done.
Qed.

Lemma pieces_inj g a g' a' : pieces g a = pieces g' a' → g = g' ∧ a = a'.
Proof. destruct g, g'. unfold pieces. cbn. intros [=]. subst. done. Qed.

(** The parent, which stayed in core, is counted again. *)
Lemma layout_back v v' g lo es es' :
  layout U0 v (Some p) (p :: lo) es → v_segs v !! p = Some g → c ∉ lo → p ∉ lo → layout U0 v' None (c :: lo) es' → placed v' p = placed v p →
  layout U0 v' (Some p) (c :: p :: lo) es'.
Proof.
  intros [_ Hsz0 Hcore0 _ _] Hg Hc Hp [Hm Hsz Hcore Hfr Hdj] Hpl. destruct (Hcore0 p eq_refl) as (_ & g0 & Hg0 & Ha).
  rewrite (placed_Some _ _ _ _ Hg0 Ha) in Hpl. assert (Hpp : v_segs v' !! p = Some (core_segs g0) ∧ v_addr v' !! p = Some U0).
  { unfold placed in Hpl. destruct (v_segs v' !! p) as [g1|]; [|done]. destruct (v_addr v' !! p) as [a1|]; [|done]. 
    change (Some (pieces g1 a1) = Some (pieces (core_segs g0) U0)) in Hpl. by apply (inj Some), pieces_inj in Hpl as [-> ->]. }
  assert (Hlo : ∀ q, q ∈ c :: p :: lo → Some p ≠ Some q → q ∈ c :: lo).
  { intros q [->|[->|Hq]%elem_of_cons]%elem_of_cons Hne; [set_solver|done|set_solver]. } split.
  - done.
  - intros q Hq. destruct (decide (q = p)) as [->|Hne].
    + destruct (Hsz0 p ltac:(set_solver)) as (g1 & a1 & Hg1 & Ha1 & Hs). rewrite Hg0 in Hg1. injection Hg1 as <-. destruct Hpp. eauto.
    + apply Hsz, Hlo; [done|congruence].
  - intros q [= <-]. split; [set_solver|]. exists g0. done.
  - intros q i x Hq Hne. apply Hfr; [by apply Hlo|done].
  - intros q r i j x Hq Hr Hqn Hrn. apply Hdj; [by apply Hlo|by apply Hlo|done|done].
Qed.
End copy.

(** ** Entering the lists *)

Definition set_free (f : Z) (s : pst) : pst := set_kern_of (Sched.set_freeproc f (kern_of s)) s.

(** [c] is taken off the free list, and its entry written. *)
Lemma lists_take s la lz c lf hq cr pr :
  lists s la lz (c :: lf) hq → tab s !! c = Some cr → lists (set_tab (<[c := pr]> (tab s)) (set_free (Sched.p_nxt cr) s)) la lz lf hq.
Proof.
  intros HL Hc. destruct (lists_disjoint _ _ _ _ _ HL) as (D1 & D2 & D3). pose proof HL as [H1 H2 H3 H4 H5 H6].
  set (s' := set_tab _ _). assert (Hn : ∀ x, x ≠ c → tab s' !! x = tab s !! x) by (intros; by apply lookup_insert_ne).
  assert (Hd : ∀ r h l, c ∉ l → dlist (next s) (prev s) r h l → dlist (next s') (prev s') r h l).
  { intros r h l Hcl. apply dlist_ext. intros x Hx. split; [|done]. unfold next. by rewrite Hn by congruence. }
  destruct (D3 c ltac:(set_solver)) as (Hca & Hcz). destruct H3 as (E0 & _ & n & Hcn & H3).
  assert (Hcf : c ∉ lf). { apply NoDup_app in H4 as (_ & _ & H4). apply NoDup_app in H4 as (_ & _ & H4). by apply NoDup_cons in H4 as [? _]. }
  split.
  - by apply Hd.
  - by apply Hd.
  - change (free_of s') with (Sched.p_nxt cr). rewrite (next_Some _ _ _ Hc) in Hcn. injection Hcn as ->.
    eapply lseg_ext; [|exact H3]. intros x Hx. unfold next. by rewrite Hn by congruence.
  - eapply (sublist_NoDup); [exact H4|]. apply sublist_app; [done|]. apply sublist_app; [done|]. by apply sublist_cons.
  - eapply (hashed_ext (kern_of s) _ la); [done|intros i x Hi Hx; apply H6; eauto| |exact H5]. intros x Hx.
    unfold Sched.hnk, Sched.pid_of. change (Sched.procs (kern_of s')) with (tab s'). rewrite Hn by congruence. done.
  - done.
Qed.

Lemma enter_lists s la lz lf hq c cr (h := Sched.PIDHASH (Sched.p_pid cr)) (Q : unit → pst → Prop) :
  lists s la lz lf hq → la ≠ [] → c ∉ la ++ lz ++ lf → c ≠ 0 → tab s !! c = Some cr →
  (∀ s', lists s' (c :: la) lz lf (upd_hq hq h (c :: hq h)) → same_plain s s' → bare s' = bare s → Q tt s') →
  wp (enter c) Q s.
Proof.
  intros HL Hla Hcn Hc0 Hc HQ. pose proof HL as [H1 H2 H3 H4 (H5 & H5') H6]. pose proof (Sched.PIDHASH_range (Sched.p_pid cr)) as Hr. fold h in Hr.
  destruct (H5 h Hr) as (x & Hx & Hch). unfold enter. apply wp_bind. eapply wp_p_rdp; [exact Hc|]. fold h.
  apply wp_bind. eapply wp_load; [exact Hx|]. apply wp_bind. eapply wp_p_wrp; [exact Hc|]. apply wp_bind, wp_on_kn.
  eapply wp_store; [cbn; rewrite aset_Some; [reflexivity|]; apply aget_Some in Hx; done|]. apply wp_bind, wp_gets.
  apply wp_bind. eapply wp_p_wrp; [cbn; apply lookup_insert_eq|]. set (a := all_of s).
  assert (Ha : a ≠ 0 ∧ a ∈ la). { destruct la as [|y la]; [done|]. destruct H1 as (E & Hy & _). unfold a. rewrite E. set_solver. }
  destruct Ha as (Ha0 & Haa). destruct (dlist_tab _ _ _ _ _ a H1 Haa) as (ar & Har).
  apply wp_bind. change (Sched.allproc _) with a.
  apply wp_wr_prev; [cbn; rewrite insert_insert_eq; apply lookup_insert_is_Some'; right; eauto|].
  apply wp_bind, wp_wr_prev; [cbn; rewrite insert_insert_eq, lookup_insert_eq; eauto|]. apply wp_on_kn, wp_modify.
  match goal with |- Q tt ?y => set (s' := y) end. set (cr' := set_p_nxt a (set_p_hash x cr)).
  assert (Ht : tab s' = <[c := cr']> (tab s)) by (unfold tab, s'; cbn; by rewrite insert_insert_eq).
  assert (Hne : ∀ y, y ≠ c → tab s' !! y = tab s !! y) by (intros; rewrite Ht; by apply lookup_insert_ne).
  assert (Hself : tab s' !! c = Some cr') by (rewrite Ht; apply lookup_insert_eq).
  assert (Hp : ∀ y, prev s' y = if decide (y = c) then Some PAll else if decide (y = a) then Some (PNxt c) else prev s y).
  { intros y. unfold prev. cbn. destruct (decide (y = c)) as [->|]; [apply lookup_insert_eq|]. rewrite lookup_insert_ne by done.
    destruct (decide (y = a)) as [->|]; [apply lookup_insert_eq|by apply lookup_insert_ne]. }
  assert (Hin : ∀ y, y ∈ la ++ lz ++ lf → y ≠ c) by (intros y Hy ->; done).
  assert (Hnx : ∀ y, y ∈ la ++ lz ++ lf → next s' y = next s y) by (intros y Hy; unfold next; by rewrite Hne by auto).
  assert (Hpl : same_plain s s') by (intros y; destruct (decide (y = c)) as [->|]; [by rewrite Hself, Hc|by rewrite Hne]).
  assert (Hhq : ∀ i y, 0 ≤ i < Sched.PIDHSZ → y ∈ hq i → y ∈ la) by (intros i y Hi Hy; apply H6; eauto).
  apply HQ; [|done|done]. split.
  - change (all_of s') with c. eapply (dlist_push (next s) (prev s)); [exact H1|intros ?; apply Hcn; set_solver|done| | | |].
    + unfold next. by rewrite Hself.
    + intros y Hy. apply Hnx. set_solver.
    + rewrite Hp. by rewrite decide_True.
    + intros y Hy. rewrite Hp, decide_False by (apply Hin; set_solver). destruct (decide (y = a)) as [->|].
      * by rewrite decide_True.
      * by rewrite decide_False by (intros []; done).
  - change (zomb_of s') with (zomb_of s). eapply dlist_ext; [|exact H2]. intros y Hy. split; [apply Hnx; set_solver|].
    rewrite Hp, decide_False by (apply Hin; set_solver). rewrite decide_False; [done|]. intros ->.
    destruct (lists_disjoint _ _ _ _ _ HL) as (D & _). by destruct (D a Haa).
  - change (free_of s') with (free_of s). eapply lseg_ext; [|exact H3]. intros y Hy. apply Hnx. set_solver.
  - by apply NoDup_cons.
  - assert (Hk : ∀ y, y ≠ c → Sched.hnk (kern_of s') y = Sched.hnk (kern_of s) y).
    { intros y Hy. unfold Sched.hnk. change (Sched.procs (kern_of s')) with (tab s'). by rewrite Hne. }
    split.
    + intros i Hi. change (Sched.pidhash (kern_of s')) with (<[Z.to_nat h := c]> (Sched.pidhash (kern_of s))).
      rewrite aget_insert by (apply aget_Some in Hx; done). unfold upd_hq. destruct (decide (h = i)) as [<-|Hh].
      * rewrite decide_True by done. exists c. split; [done|]. split; [done|]. split; [done|]. exists x.
        split; [unfold Sched.hnk; change (Sched.procs (kern_of s')) with (tab s'); by rewrite Hself|].
        eapply lseg_ext; [|exact Hch]. intros y Hy. apply Hk, Hin. pose proof (Hhq h y Hr Hy). set_solver.
      * rewrite decide_False by done. destruct (H5 i Hi) as (z & Hz & Hzc). exists z. split; [done|].
        eapply lseg_ext; [|exact Hzc]. intros y Hy. apply Hk, Hin. pose proof (Hhq i y Hi Hy). set_solver.
    + intros i y Hi Hy. rewrite (same_plain_pid s) by done. unfold upd_hq in Hy. destruct (decide (i = h)) as [->|]; [|by apply H5'].
      apply elem_of_cons in Hy as [->|Hy]; [|by apply H5']. unfold Sched.pid_of. change (Sched.procs (kern_of s)) with (tab s). by rewrite Hc.
  - intros y. rewrite elem_of_cons, H6. unfold upd_hq. split.
    + intros [->|(i & Hi & Hy)].
      * exists h. split; [done|]. rewrite decide_True by done. set_solver.
      * exists i. split; [done|]. destruct (decide (i = h)) as [->|]; [set_solver|done].
    + intros (i & Hi & Hy). destruct (decide (i = h)) as [->|]; [apply elem_of_cons in Hy as [?|?]; [by left|right; eauto]|right; eauto].
Qed.

(** ** The table *)

(** An entry off the queues is written. *)
Lemma table_write s la lz lf hq p pr pr' sq rq (s' := set_tab (<[p := pr']> (tab s)) s) :
  table s la lz lf hq → p ∈ la → tab s !! p = Some pr → ring pr' = ring pr → Sched.p_pptr pr' = Sched.p_pptr pr →
  Sched.p_wchan pr = 0 → Sched.p_wchan pr' = 0 → Sched.rep (kern_of s) sq rq → p ∉ rq →
  table s' la lz lf hq ∧ Sched.rep (kern_of s') sq rq.
Proof.
  intros Ht Hp Hpr Er Ep Hw Hw' Hrep Hrq. assert (Hn : ∀ x, x ≠ p → tab s' !! x = tab s !! x) by (intros; by apply lookup_insert_ne).
  assert (Hself : tab s' !! p = Some pr') by apply lookup_insert_eq. destruct (lists_disjoint _ _ _ _ _ (t_lists _ _ _ _ _ _ Ht)) as (D & _).
  destruct (D p Hp) as (Hpz & Hpf).
  assert (Hc : Sched.chan_of (kern_of s) p = 0) by (unfold Sched.chan_of; unfold tab in Hpr; by rewrite Hpr).
  assert (Hc' : Sched.chan_of (kern_of s') p = 0) by (unfold Sched.chan_of; unfold tab in Hself; by rewrite Hself).
  split.
  - eapply (table_moved 0 0 s s' _ _ _ _ _ _ _ _ p Ht); [|by intros; rewrite Hn|eauto|eauto|done|done|done| |apply (t_init _ _ _ _ _ _ Ht)| |done|done|done|done|done].
    + eapply lists_rings; [|apply Ht]. unfold rings. do 5 f_equal. change (tab s') with (<[p := pr']> (tab s)). rewrite fmap_insert, Er.
      apply insert_id. by rewrite lookup_fmap, Hpr.
    + intros E. destruct (t_init _ _ _ _ _ _ Ht) as (_ & Hi). rewrite E, Hpr in Hi. rewrite Hself. cbn in *. injection Er as _ _ ->. done.
    + intros x v Hx Hv. apply (t_parent _ _ _ _ _ _ Ht x v Hx). unfold parents in *. rewrite lookup_fmap in *.
      destruct (decide (x = p)) as [->|Hne]; [|by rewrite Hn in Hv]. rewrite Hself in Hv. rewrite Hpr. cbn in *. by rewrite <- Ep.
  - eapply (rep_view (kern_of s) _ _ _ p); try done. intros z Hz. specialize (Hn z Hz). unfold tab in Hn. by rewrite Hn.
Qed.

(** The child has been entered. *)
Lemma table_born s s' la lz c lf hq hq' p pp cr pid sq rq :
  table s la lz (c :: lf) hq → p ∈ la → tab s !! c = Some cr → Sched.rep (kern_of s) sq rq →
  lists s' (c :: la) lz lf hq' → (∀ x, x ≠ c → plain <$> tab s' !! x = plain <$> tab s !! x) →
  plain <$> tab s' !! c = Some (plain (child_of p pid pp cr)) →
  Sched.slpque (kern_of s') = Sched.slpque (kern_of s) ∧ Sched.qs (kern_of s') = Sched.qs (kern_of s) →
  dead s' = dead s → Signal.cx (sg (vm s')) = Signal.cx (sg (vm s)) →
  table s' (c :: la) lz lf hq' ∧ Sched.rep (kern_of s') sq rq ∧ c ∉ rq.
Proof.
  intros Ht Hp Hc Hrep HL Hoth Hself Hqs Hd Hcx. destruct (t_free _ _ _ _ _ _ Ht c ltac:(set_solver)) as (cr0 & Hc0 & Hst & Hw).
  rewrite Hc in Hc0. injection Hc0 as <-. destruct (lists_disjoint _ _ _ _ _ HL) as (D1 & _ & _).
  destruct (D1 c ltac:(set_solver)) as (Hcz & Hcf). destruct (lists_disjoint _ _ _ _ _ (t_lists _ _ _ _ _ _ Ht)) as (_ & _ & D3).
  destruct (D3 c ltac:(set_solver)) as (Hca & _).
  assert (Hrq : c ∉ rq).
  { intros Hin. destruct Hrep as (_ & _ & _ & Hr). destruct (Hr c Hin) as (q & Hq & _ & E & _). change (tab s !! c = Some q) in Hq.
    rewrite Hc in Hq. injection Hq as <-. rewrite Hst in E. done. }
  assert (Hch : Sched.chan_of (kern_of s) c = 0) by (unfold Sched.chan_of; unfold tab in Hc; by rewrite Hc).
  destruct (tab s' !! c) as [cr'|] eqn:Hc'; [|done]. apply (inj Some), plain_fields in Hself as (E1 & E2 & E3 & E4 & E5 & _).
  assert (Hch' : Sched.chan_of (kern_of s') c = 0) by (unfold Sched.chan_of; unfold tab in Hc'; rewrite Hc'; by cbn; rewrite E5).
  split; [|split; [|done]].
  - eapply (table_moved 0 0 s s' _ _ _ _ _ _ _ _ c Ht); [done|done|eauto|eauto|done|done|done| | | | |done|intros x Hx _; set_solver|done|by rewrite Hcx].
    + intros E. destruct (t_init _ _ _ _ _ _ Ht) as (Hi & _). rewrite E in Hi. done.
    + apply elem_of_cons. right. apply (t_init _ _ _ _ _ _ Ht).
    + intros x v Hx Hv. unfold parents in Hv. rewrite lookup_fmap in Hv. destruct (decide (x = c)) as [->|Hne].
      * rewrite Hc' in Hv. injection Hv as <-. left. rewrite E2. apply elem_of_cons. by right.
      * assert (Hx' : x ∈ la ++ lz) by (clear -Hx Hne; set_solver). specialize (Hoth x Hne).
        destruct (t_parent _ _ _ _ _ _ Ht x v Hx') as [Hin|Hin]; [|left; apply elem_of_cons; by right|by right].
        unfold parents. rewrite lookup_fmap, <- Hv. destruct (tab s' !! x), (tab s !! x); try done.
        apply (inj Some), plain_fields in Hoth as (_ & E & _). cbn. by f_equal.
    + intros x Hx _. by rewrite Hd.
  - eapply (rep_view (kern_of s) _ _ _ c); [done|apply Hqs|apply Hqs| |done|done|done].
    intros z Hz. specialize (Hoth z Hz). unfold tab in Hoth.
    destruct (Sched.procs (kern_of s') !! z), (Sched.procs (kern_of s) !! z); try done. apply (inj Some), plain_qview in Hoth. cbn. by f_equal.
Qed.

(** ** Creating a process *)

Section newproc.
Context (RUNOUT U0 : Z) (strategy : bool → Z → Z → Z → M vst bool) `{!SwapSpec.SwapDevice strategy}.
Context (HRO : RUNOUT ≠ 0).

Definition image_of (s : pst) (core : option Z) (q : Z) : option (list (list Z)) := SwapSpec.image (SwapSpec.view_of (vm s)) core q.
Definition layout_of (s : pst) (core : option Z) (lp : list Z) (es : list Rmap.mapent) : Prop :=
  SwapSpec.layout U0 (SwapSpec.view_of (vm s)) core lp es.

(** Swapping [c] out leaves the table alone. *)
Lemma table_out s la lz lf hq c cr lp v :
  table s la lz lf hq → c ∈ la → tab s !! c = Some cr → Sched.p_wchan cr = 0 → c ∈ lp → SwapSpec.out_post RUNOUT U0 c cr lp (vm s) v →
  table (set_vm v s) la lz lf hq ∧
  (∃ a, Sched.nolink <$> tab (set_vm v s) !! c = Some (Sched.nolink (SwapSpec.gone a cr))) ∧
  (∀ x xr, x ≠ c → tab s !! x = Some xr → Sched.p_wchan xr = 0 → Sched.nolink <$> tab (set_vm v s) !! x = Some (Sched.nolink xr)) ∧
  Sched.u_procp (kern_of (set_vm v s)) = Sched.u_procp (kern_of s).
Proof.
  intros Ht Hca Hc Hw Hclp (es' & a & HL & _ & Hq & Hu & Hk & _ & Hpl). set (s' := set_vm v s).
  set (w := SwapSpec.vput c (SwapSpec.gone a cr) (vm s)) in *. change (SwapSpec.vk v) with (kern_of s') in *.
  assert (Hw0 : Sched.procs (SwapSpec.vk w) = <[c := SwapSpec.gone a cr]> (tab s)) by done.
  assert (Hund : ∀ x xr, <[c := SwapSpec.gone a cr]> (tab s) !! x = Some xr → Sched.p_wchan xr = 0 →
    Sched.nolink <$> tab s' !! x = Some (Sched.nolink xr)).
  { intros x xr Hx Hxw. specialize (Hu x). rewrite Hw0, Hx in Hu. unfold Sched.chan_of in Hu. rewrite Hw0, Hx in Hu. apply Hu. cbn. congruence. }
  assert (Hself : Sched.nolink <$> tab s' !! c = Some (Sched.nolink (SwapSpec.gone a cr))) by (apply Hund; [apply lookup_insert_eq|done]).
  assert (Hoth : ∀ x xr, x ≠ c → tab s !! x = Some xr → Sched.p_wchan xr = 0 → Sched.nolink <$> tab s' !! x = Some (Sched.nolink xr)).
  { intros x xr Hx Hxr. apply Hund. by rewrite lookup_insert_ne. }
  unfold SwapSpec.kstill in Hk. rewrite Hw0 in Hk. injection Hk as Kp Ka Kz Kf Kh Ku.
  assert (Hst : ∀ x, Cred.skel <$> tab s' !! x = Cred.skel <$> tab s !! x).
  { intros x. apply (f_equal (.!! x)) in Kp. rewrite !lookup_fmap in Kp. destruct (decide (x = c)) as [->|Hne].
    - rewrite lookup_insert_eq in Kp. rewrite Hc. unfold tab. destruct (Sched.procs (kern_of s') !! c); [|done]. cbn in *. unfold SwapSpec.still, Run.steady in Kp.
      unfold Cred.skel in *. cbn in Kp. congruence.
    - rewrite lookup_insert_ne in Kp by done. unfold tab in *. destruct (Sched.procs (kern_of s') !! x), (Sched.procs (kern_of s) !! x); try done.
      cbn in *. unfold SwapSpec.still, Run.steady in Kp. congruence. }
  split; [|split; [eauto|split; [done|exact Ku]]]. eapply table_still; [exact Ht| | | | |done|].
  - unfold rings, all_of, zomb_of, free_of. rewrite Ka, Kz, Kf, Kh. do 5 f_equal. apply map_eq. intros x. specialize (Hst x). rewrite !lookup_fmap.
    destruct (tab s' !! x), (tab s !! x); try done. cbn in *. unfold Cred.skel in Hst. unfold ring. congruence.
  - apply map_eq. intros x. specialize (Hst x). unfold parents. rewrite !lookup_fmap. destruct (tab s' !! x), (tab s !! x); try done.
    cbn in *. unfold Cred.skel in Hst. congruence.
  - split; [exact Hq|]. destruct (t_queued _ _ _ _ _ _ Ht) as (_ & H0). change (tab s !! 0 = None) in H0. change (tab s' !! 0 = None).
    specialize (Hst 0). rewrite H0 in Hst. by destruct (tab s' !! 0).
  - intros z Hz. destruct (table_off _ _ _ _ _ _ z Ht Hz) as (Hza & zr & Hzr & Hzw). rewrite Hzr. apply Hoth; [by intros ->|done|done].
  - intros x [xr Hx] [gx Hgx]. destruct (decide (x = c)) as [->|Hne].
    + destruct (SwapSpec.lay_sizes _ _ _ _ _ HL c Hclp) as (g & ? & Hg & _). change (Signal.segs (Signal.cx (sg v)) !! c = Some g) in Hg. eauto.
    + specialize (Hpl x Hne). rewrite (SwapSpec.placed_Some (SwapSpec.view_of (vm s)) x gx (Sched.p_addr xr)) in Hpl; [|done|].
      * unfold SwapSpec.placed in Hpl. cbn in Hpl. change (Signal.cx (sg (vm s'))) with (Signal.cx (sg v)).
        destruct (Signal.segs (Signal.cx (sg v)) !! x); [eauto|done].
      * cbn. rewrite lookup_fmap. change (SigSpec.procs_of (sg (vm s))) with (tab s). by rewrite Hx.
Qed.

(** The child: a new number, the parent's identity and signal masks, ready to
    run and swapped out. *)
Definition child_ok (p pid : Z) (pp cr : Sched.proc) : Prop :=
  Sched.p_pid cr = pid ∧ Sched.p_pptr cr = p ∧ Sched.p_ppid cr = Sched.p_pid pp ∧ Sched.p_uid cr = Sched.p_uid pp ∧
  Sched.p_pgrp cr = Sched.p_pgrp pp ∧ Sched.p_nice cr = Sched.p_nice pp ∧ Sched.p_sigmask cr = Sched.p_sigmask pp ∧
  Sched.p_sigignore cr = Sched.p_sigignore pp ∧ Sched.p_sigcatch cr = Sched.p_sigcatch pp ∧
  Sched.p_stat cr = Sched.SRUN ∧ Sched.p_flag cr = Sched.SSWAP.

Lemma child_fields p pid pp cr0 cr3 a b cr9 :
  plain cr3 = plain (child_of p pid pp cr0) → Sched.nolink cr9 = Sched.nolink (SwapSpec.gone a (Sched.set_p_stat Sched.SRUN (set_p_addr b cr3))) →
  child_ok p (s16 pid) pp (or_flag Sched.SSWAP cr9).
Proof.
  intros H3 H9. assert (Hf : Sched.p_flag cr3 = Sched.SLOAD) by exact (f_equal Sched.p_flag H3).
  unfold child_ok. split_and!.
  1: etransitivity; [exact (f_equal Sched.p_pid H9)|exact (f_equal Sched.p_pid H3)].
  1: etransitivity; [exact (f_equal Sched.p_pptr H9)|exact (f_equal Sched.p_pptr H3)].
  1: etransitivity; [exact (f_equal Sched.p_ppid H9)|exact (f_equal Sched.p_ppid H3)].
  1: etransitivity; [exact (f_equal Sched.p_uid H9)|exact (f_equal Sched.p_uid H3)].
  1: etransitivity; [exact (f_equal Sched.p_pgrp H9)|exact (f_equal Sched.p_pgrp H3)].
  1: etransitivity; [exact (f_equal Sched.p_nice H9)|exact (f_equal Sched.p_nice H3)].
  1: etransitivity; [exact (f_equal Sched.p_sigmask H9)|exact (f_equal Sched.p_sigmask H3)].
  1: etransitivity; [exact (f_equal Sched.p_sigignore H9)|exact (f_equal Sched.p_sigignore H3)].
  1: etransitivity; [exact (f_equal Sched.p_sigcatch H9)|exact (f_equal Sched.p_sigcatch H3)].
  - exact (f_equal Sched.p_stat H9).
  - change (Z.lor (Sched.p_flag cr9) Sched.SSWAP = Sched.SSWAP).
    replace (Sched.p_flag cr9) with (Sched.p_flag (SwapSpec.gone a (Sched.set_p_stat Sched.SRUN (set_p_addr b cr3)))) by (symmetry; exact (f_equal Sched.p_flag H9)).
    cbn. by rewrite Hf.
Qed.

(** From the swap on. *)
Lemma depart_ok s la lz lf hq sq rq p c pp cr g lo es (Q : unit → pst → Prop) :
  table s la lz lf hq → Sched.rep (kern_of s) sq rq → p ∈ la → c ∈ la → p ≠ c → c ∉ rq →
  tab s !! p = Some pp → Sched.p_stat pp = Sched.SIDL → Sched.p_wchan pp = 0 → tab s !! c = Some cr → Sched.p_wchan cr = 0 →
  Signal.segs (Signal.cx (sg (vm s))) !! c = Some g → SwapSpec.room g es → layout_of s (Some c) (c :: lo) es →
  (∀ s' es' cr9 pp9 a, table s' la lz lf hq → Sched.u_procp (kern_of s') = p →
     tab s' !! c = Some (or_flag Sched.SSWAP cr9) → Sched.nolink cr9 = Sched.nolink (SwapSpec.gone a cr) →
     tab s' !! p = Some (Sched.set_p_stat Sched.SRUN pp9) → Sched.nolink pp9 = Sched.nolink pp →
     layout_of s' None (c :: lo) es' → (∀ q, q ∈ c :: lo → image_of s' None q = image_of s (Some c) q) →
     SwapSpec.v_mem (SwapSpec.view_of (vm s')) = SwapSpec.v_mem (SwapSpec.view_of (vm s)) →
     SwapSpec.placed (SwapSpec.view_of (vm s')) p = SwapSpec.placed (SwapSpec.view_of (vm s)) p → Q tt s') →
  wp (on_vm (swapout RUNOUT strategy c X_OLDSIZE X_OLDSIZE);; wrp c (or_flag Sched.SSWAP);; wrp p (Sched.set_p_stat Sched.SRUN);;
      on_kn (modify (set_u_procp p));; mret tt) Q s.
Proof.
  intros Ht Hrep Hpa Hca Hpc Hcq Hp Hps Hpw Hc Hcw Hg Hroom HL HQ. apply wp_bind, wp_on_vm.
  eapply wp_mono; [apply (SwapSpec.swapout_ok RUNOUT U0 strategy c cr g (c :: lo) es sq rq); done|]. intros [] v Hout.
  destruct (table_out s la lz lf hq c cr (c :: lo) v Ht Hca Hc Hcw ltac:(set_solver) Hout) as (Ht9 & (a & Hc9) & Hoth & _).
  destruct Hout as (es' & a' & HL' & Him & (sq9 & rq9 & Hrep9) & _ & _ & Hm & Hpl). set (s9 := set_vm v s) in *.
  specialize (Hoth p pp Hpc Hp Hpw). destruct (tab s9 !! p) as [pp9|] eqn:Hp9; [|done]. apply (inj Some) in Hoth.
  destruct (tab s9 !! c) as [cr9|] eqn:Ec9; [|done]. apply (inj Some) in Hc9.
  destruct (Sched.nolink_wchan _ _ Hoth) as (Ew & Es & _ & _). destruct (Sched.nolink_wchan _ _ Hc9) as (Ew9 & _ & Ef9 & _).
  assert (Hcq9 : c ∉ rq9).
  { eapply SwapSpec.rep_loaded; [exact Hrep9|exact Ec9|]. unfold Sched.has_flag. rewrite Ef9. apply negb_false_iff, Z.eqb_eq, Z.bits_inj_0. intros i.
    cbn. rewrite Z.land_spec, Z.ldiff_spec, !Z.lor_spec. by destruct (Z.testbit Sched.SLOAD i), (Z.testbit SLOCK i); rewrite ?andb_false_r, ?orb_true_r. }
  assert (Hpq9 : p ∉ rq9).
  { intros Hin. destruct Hrep9 as (_ & _ & _ & Hr). destruct (Hr p Hin) as (q & Hq & _ & E & _). change (tab s9 !! p = Some q) in Hq.
    rewrite Hp9 in Hq. injection Hq as <-. rewrite Es, Hps in E. done. }
  apply wp_bind. eapply wp_p_wrp; [exact Ec9|].
  destruct (table_write s9 la lz lf hq c cr9 (or_flag Sched.SSWAP cr9) sq9 rq9 Ht9 Hca Ec9) as (Ht10 & Hrep10); [done|done|by rewrite Ew9|cbn; by rewrite Ew9|done|done|].
  set (s10 := set_tab _ s9) in *. assert (Hp10 : tab s10 !! p = Some pp9) by (change (tab s10) with (<[c := or_flag Sched.SSWAP cr9]> (tab s9)); by rewrite lookup_insert_ne).
  apply wp_bind. eapply wp_p_wrp; [exact Hp10|].
  destruct (table_write s10 la lz lf hq p pp9 (Sched.set_p_stat Sched.SRUN pp9) sq9 rq9 Ht10 Hpa Hp10) as (Ht11 & Hrep11); [done|done|by rewrite Ew|cbn; by rewrite Ew|done|done|].
  set (s11 := set_tab _ s10) in *. apply wp_bind, wp_on_kn, wp_modify, wp_ret. match goal with |- Q tt ?x => set (s' := x) end.
  assert (Htab : tab s' = <[p := Sched.set_p_stat Sched.SRUN pp9]> (<[c := or_flag Sched.SSWAP cr9]> (tab s9))) by done.
  assert (Hview : SwapSpec.view_of (vm s') = SwapSpec.view_of v).
  { unfold SwapSpec.view_of. change (SigSpec.procs_of (sg (vm s'))) with (tab s'). rewrite Htab, !fmap_insert. cbn [Sched.p_addr Sched.set_p_stat or_flag Sched.set_p_flag].
    change (SigSpec.procs_of (sg v)) with (tab s9). f_equal. rewrite (insert_id (Sched.p_addr <$> tab s9) c); [|by rewrite lookup_fmap, Ec9].
    apply insert_id. by rewrite lookup_fmap, Hp9. }
  apply (HQ s' es' cr9 pp9 a); unfold layout_of, image_of; rewrite ?Hview; try done.
  - destruct Ht11 as [T1 T2 T3 T4 T5 T6 T7]. split; try done. eapply lists_rings; [|exact T1]. done.
  - rewrite Htab, lookup_insert_ne by done. apply lookup_insert_eq.
  - rewrite Htab. apply lookup_insert_eq.
  - by apply Hpl.
Qed.

(** [p] runs, in core, and can be copied. *)
Definition forkable (p : Z) (pp : Sched.proc) (g : Signal.segments) (lo : list Z) (es : list Rmap.mapent) (s : pst) : Prop :=
  Sched.u_procp (kern_of s) = p ∧ tab s !! p = Some pp ∧ Sched.p_stat pp = Sched.SRUN ∧ Sched.p_wchan pp = 0 ∧
  (∃ sq rq, Sched.rep (kern_of s) sq rq ∧ p ∉ rq) ∧
  Signal.segs (Signal.cx (sg (vm s))) !! p = Some g ∧ p ∉ lo ∧ layout_of s (Some p) (p :: lo) es ∧ SwapSpec.room g es.

(** The search for an id can rely on [pidchecked], and finds one. *)
Definition pids_ok (s : pst) (la lz : list Z) : Prop :=
  let L := (ids (tab s) <$> la) ++ (ids (tab s) <$> lz) in
  Z.of_nat (size (tab s)) ≤ Sched.NPROC ∧ spaced L ∧ 0 ≤ mpid s ∧
  (mpid s + 1 < pidchecked s → clear L (mpid s + 1) (pidchecked s) ∧ pidchecked s ≤ PIDMAX).

Lemma pid_ok s la lz lf hq (Q : unit → pst → Prop) :
  table s la lz lf hq → pids_ok s la lz →
  (∀ m c, 0 < m < PIDMAX → ¬ used ((ids (tab s) <$> la) ++ (ids (tab s) <$> lz)) m → Q tt (set_pids m c s)) → wp new_pid Q s.
Proof.
  intros [[Ha Hz _ Hnd _ _] _ _ _ _ _ _] (Hsz & Hsp & Hm & Hc) HQ. apply dlist_chain in Ha, Hz. unfold Sched.NPROC in Hsz.
  assert (Hnd' : NoDup (la ++ lz)) by (rewrite app_assoc in Hnd; by apply NoDup_app in Hnd as (? & _ & _)).
  eapply wp_mono; [apply (new_pid_ok s la lz); [done|done|by eapply lists_size|lia|done|done|done]|].
  intros [] s' (m & c & -> & H1 & H2 & H3). apply HQ; [lia|]. intros Hu. specialize (H3 m Hu). lia.
Qed.

End newproc.

(** Process 4 of the example forks; its user structure lies in [u0]. *)
Definition demo_parent : Sched.proc := set_p_addr SwapSpec.demo_U0 (demo_entry 3 3 1 4 Sched.SRUN 0 0 4).
Definition demo_fork : pst := set_tab (<[4 := demo_parent]> (tab demo_table)) demo_table.
Definition demo_segs : Signal.segments := Signal.Seg USER_DATA_START (USER_DATA_END - 1000) 1500 1000.

Lemma demo_fork_ok : table demo_fork [5; 4; 3; 2; 1] [6] [7; 8] ExitSpec.demo_hq ∧ Sched.rep (kern_of demo_fork) ExitSpec.demo_sq [].
Proof. apply table_check_sound. vm_compute. reflexivity. Qed.

Lemma demo_fork_layout : layout_of SwapSpec.demo_U0 demo_fork (Some 4) [4] [Rmap.Mapent 100 50].
Proof.
  split.
  - split; [split; [done|by exists [Rmap.terminator]]|]. repeat split; cbn; lia.
  - intros p ->%list_elem_of_singleton. exists demo_segs, SwapSpec.demo_U0. split; [reflexivity|]. split; [reflexivity|]. by vm_compute.
  - intros p [= <-]. split; [set_solver|]. exists demo_segs. done.
  - intros p i x ->%list_elem_of_singleton. done.
  - intros p q i j x ->%list_elem_of_singleton. done.
Qed.

Lemma demo_forkable : forkable SwapSpec.demo_U0 4 demo_parent demo_segs [] [Rmap.Mapent 100 50] demo_fork.
Proof.
  split_and!; [done|reflexivity|done|done| |reflexivity|set_solver|exact demo_fork_layout|].
  - exists ExitSpec.demo_sq, []. split; [apply demo_fork_ok|set_solver].
  - apply Exists_cons_hd. by vm_compute.
Qed.

Lemma demo_pids_ok : pids_ok demo_fork [5; 4; 3; 2; 1] [6].
Proof.
  split; [by vm_compute|]. split; [|split; [done|done]]. intros a b Hin.
  change (_ ++ _) with [(20, 4); (4, 4); (3, 3); (1, 0); (0, 0); (6, 0)] in Hin.
  repeat (apply elem_of_cons in Hin as [[= -> ->]|Hin]; [lia|]). by apply elem_of_nil in Hin.
Qed.

End ForkSpec.
