(* ===== verification/NameCache.v ===== *)
(** * The name cache (sys/kernel/ufs_namei.c)

    Names that [namei] found are kept in a table of entries.  An entry is on a
    hash chain, by directory and name, or linked to itself, and on the list of
    least recent use, in which [nc_prev] holds the address of the pointer that
    leads to the entry. *)

From S2P Require Import Prelude Links Que.

Module NameCache.

Definition NNAMECACHE : Z := 26.
Definition NCHHASH : Z := 16.
Definition NCHNAMLEN : Z := 15.
Definition NODEV : Z := -1.

(** [&nchhead], [&nchash\[i\]] and [&namecache\[i\]].  The address of the link
    [nc_nxt] of an entry is that of the entry. *)
Definition nchhead_at : Z := 559.
Definition nchash_at (i : Z) : Z := 560 + i.
Definition namecache_at (i : Z) : Z := 600 + i.

Record namecache := NC {
  nc_forw : Z;
  nc_back : Z;
  nc_nxt : Z;
  nc_prev : Z;
  nc_ip : Z;
  nc_ino : Z;
  nc_dev : Z;
  nc_idev : Z;
  nc_id : Z;
  nc_nlen : Z;
  nc_name : list Z
}.
Definition set_nc_forw (v : Z) (n : namecache) : namecache := NC v (nc_back n) (nc_nxt n) (nc_prev n) (nc_ip n) (nc_ino n) (nc_dev n) (nc_idev n) (nc_id n) (nc_nlen n) (nc_name n).
Definition set_nc_back (v : Z) (n : namecache) : namecache := NC (nc_forw n) v (nc_nxt n) (nc_prev n) (nc_ip n) (nc_ino n) (nc_dev n) (nc_idev n) (nc_id n) (nc_nlen n) (nc_name n).
Definition set_nc_nxt (v : Z) (n : namecache) : namecache := NC (nc_forw n) (nc_back n) v (nc_prev n) (nc_ip n) (nc_ino n) (nc_dev n) (nc_idev n) (nc_id n) (nc_nlen n) (nc_name n).
Definition set_nc_prev (v : Z) (n : namecache) : namecache := NC (nc_forw n) (nc_back n) (nc_nxt n) v (nc_ip n) (nc_ino n) (nc_dev n) (nc_idev n) (nc_id n) (nc_nlen n) (nc_name n).
Definition set_nc_ip (v : Z) (n : namecache) : namecache := NC (nc_forw n) (nc_back n) (nc_nxt n) (nc_prev n) v (nc_ino n) (nc_dev n) (nc_idev n) (nc_id n) (nc_nlen n) (nc_name n).
Definition set_nc_ino (v : Z) (n : namecache) : namecache := NC (nc_forw n) (nc_back n) (nc_nxt n) (nc_prev n) (nc_ip n) v (nc_dev n) (nc_idev n) (nc_id n) (nc_nlen n) (nc_name n).
Definition set_nc_dev (v : Z) (n : namecache) : namecache := NC (nc_forw n) (nc_back n) (nc_nxt n) (nc_prev n) (nc_ip n) (nc_ino n) v (nc_idev n) (nc_id n) (nc_nlen n) (nc_name n).
Definition set_nc_idev (v : Z) (n : namecache) : namecache := NC (nc_forw n) (nc_back n) (nc_nxt n) (nc_prev n) (nc_ip n) (nc_ino n) (nc_dev n) v (nc_id n) (nc_nlen n) (nc_name n).
Definition set_nc_id (v : Z) (n : namecache) : namecache := NC (nc_forw n) (nc_back n) (nc_nxt n) (nc_prev n) (nc_ip n) (nc_ino n) (nc_dev n) (nc_idev n) v (nc_nlen n) (nc_name n).
Definition set_nc_nlen (v : Z) (n : namecache) : namecache := NC (nc_forw n) (nc_back n) (nc_nxt n) (nc_prev n) (nc_ip n) (nc_ino n) (nc_dev n) (nc_idev n) (nc_id n) v (nc_name n).
Definition set_nc_name (v : list Z) (n : namecache) : namecache := NC (nc_forw n) (nc_back n) (nc_nxt n) (nc_prev n) (nc_ip n) (nc_ino n) (nc_dev n) (nc_idev n) (nc_id n) (nc_nlen n) v.

(** The counters of [struct nchstats] that the cache itself keeps. *)
Record nchstats := Nchstats {
  ncs_goodhits : Z;
  ncs_badhits : Z;
  ncs_falsehits : Z;
  ncs_miss : Z;
  ncs_long : Z
}.

Record nst := NS {
  ncs : gmap Z namecache;
  nchash : gmap Z (Z * Z);
  nchhead : Z;
  nchtail : Z;
  stats : nchstats
}.
Definition set_ncs (v : gmap Z namecache) (s : nst) : nst := NS v (nchash s) (nchhead s) (nchtail s) (stats s).
Definition set_nchash (v : gmap Z (Z * Z)) (s : nst) : nst := NS (ncs s) v (nchhead s) (nchtail s) (stats s).
Definition set_nchhead (v : Z) (s : nst) : nst := NS (ncs s) (nchash s) v (nchtail s) (stats s).
Definition set_nchtail (v : Z) (s : nst) : nst := NS (ncs s) (nchash s) (nchhead s) v (stats s).
Definition set_stats (v : nchstats) (s : nst) : nst := NS (ncs s) (nchash s) (nchhead s) (nchtail s) v.

Notation N := (M nst).

Definition rdn (p : Z) : N namecache := load (λ s, ncs s !! p).
Definition wrn (p : Z) (f : namecache → namecache) : N unit :=
  store (λ s, n ← ncs s !! p; Some (set_ncs (<[p := f n]> (ncs s)) s)).
(** A write through a pointer to a pointer to an entry. *)
Definition wr_slot (p v : Z) : N unit :=
  if p =? nchhead_at then modify (set_nchhead v) else wrn p (set_nc_nxt v).

(** The links that [insque] and [remque] write. *)
#[export] Instance nch_que : QueMem nst := table_que nchash set_nchash ncs set_ncs nc_forw nc_back set_nc_forw set_nc_back.

(** ** nchinit *)

Fixpoint nchinit_entries (k : nat) (ncp : Z) : N unit :=
  match k with
  | O => mret tt
  | S k =>
      wrn ncp (set_nc_forw ncp);;
      wrn ncp (set_nc_back ncp);;
      wrn ncp (set_nc_nxt 0);;
      t ← gets nchtail;
      wr_slot t ncp;;
      wrn ncp (set_nc_prev t);;
      modify (set_nchtail ncp);;
      nchinit_entries k (ncp + 1)
  end.
Fixpoint nchinit_heads (k : nat) (nchp : Z) : N unit :=
  match k with
  | O => mret tt
  | S k =>
      modify (λ s, set_nchash (<[nchp := (nchp, nchp)]> (nchash s)) s);;
      nchinit_heads k (nchp + 1)
  end.
Definition nchinit : N unit :=
  modify (set_nchhead 0);;
  modify (set_nchtail nchhead_at);;
  nchinit_entries (Z.to_nat NNAMECACHE) (namecache_at 0);;
  nchinit_heads (Z.to_nat NCHHASH) (nchash_at 0).

(** ** nchinval and cinvalall *)

(** [*ncp->nc_prev = nxt], and the back pointer of what follows. *)
Definition lru_remove (ncp nxt : Z) : N unit :=
  n ← rdn ncp;
  wr_slot (nc_prev n) nxt;;
  n ← rdn ncp;
  if negb (nxt =? 0) then wrn nxt (set_nc_prev (nc_prev n))
  else modify (set_nchtail (nc_prev n)).

Definition lru_push (ncp hd : Z) : N unit :=
  wrn ncp (set_nc_nxt hd);;
  wrn ncp (set_nc_prev nchhead_at);;
  wrn hd (set_nc_prev ncp);;
  modify (set_nchhead ncp).

Fixpoint nchinval_loop (fuel : nat) (ncp dev : Z) : N unit :=
  match fuel with
  | O => nofuel
  | S f =>
      if ncp =? 0 then mret tt
      else
        n ← rdn ncp;
        let nxtcp := nc_nxt n in
        if (nc_ip n =? 0) || negb (nc_idev n =? dev) && negb (nc_dev n =? dev) then nchinval_loop f nxtcp dev
        else
          wrn ncp (set_nc_idev NODEV);;
          wrn ncp (set_nc_dev NODEV);;
          wrn ncp (set_nc_id 0);;
          wrn ncp (set_nc_ino 0);;
          wrn ncp (set_nc_ip 0);;
          remque ncp;;
          selfque ncp;;
          lru_remove ncp nxtcp;;
          nxtcp ← gets nchhead;
          lru_push ncp nxtcp;;
          nchinval_loop f nxtcp dev
  end.
Definition nch_fuel : nat := Z.to_nat ((NNAMECACHE + 1) * (NNAMECACHE + 1)).
Definition nchinval (dev : Z) : N unit :=
  hd ← gets nchhead;
  nchinval_loop nch_fuel hd dev.

Fixpoint cinvalall_loop (k : nat) (ncp : Z) : N unit :=
  match k with
  | O => mret tt
  | S k =>
      wrn ncp (set_nc_id 0);;
      cinvalall_loop k (ncp + 1)
  end.
Definition cinvalall : N unit := cinvalall_loop (Z.to_nat NNAMECACHE) (namecache_at 0).

(** ** The cache within namei *)

Definition u16 (x : Z) : Z := x `mod` 2 ^ 16.

Definition NHASH (h i d : Z) : Z := nchash_at (Z.land (u32 (h + i + 13 * d)) (NCHHASH - 1)).

(** The entry of a name [nm] in directory ([dev], [ino]). *)
Definition names (ino dev : Z) (nm : list Z) (n : namecache) : bool :=
  (nc_ino n =? ino) && (nc_dev n =? dev) && (nc_nlen n =? zlen nm) && bool_decide (take (length nm) (nc_name n) = nm).

Fixpoint nch_find (fuel : nat) (ncp nhp ino dev : Z) (nm : list Z) : N Z :=
  match fuel with
  | O => nofuel
  | S f =>
      if ncp =? nhp then mret 0
      else
        n ← rdn ncp;
        if names ino dev nm n then mret ncp else nch_find f (nc_forw n) nhp ino dev nm
  end.
Definition nch_chain_fuel : nat := S (Z.to_nat NNAMECACHE).

(** A used entry moves to the end of the list. *)
Definition lru_touch (ncp : Z) : N unit :=
  n ← rdn ncp;
  if negb (nc_nxt n =? 0) then
    wr_slot (nc_prev n) (nc_nxt n);;
    n ← rdn ncp;
    wrn (nc_nxt n) (set_nc_prev (nc_prev n));;
    wrn ncp (set_nc_nxt 0);;
    t ← gets nchtail;
    wrn ncp (set_nc_prev t);;
    wr_slot t ncp;;
    modify (set_nchtail ncp)
  else mret tt.

(** An entry that is not wanted goes to the front, and off its chain. *)
Definition nch_drop (ncp : Z) : N unit :=
  n ← rdn ncp;
  lru_remove ncp (nc_nxt n);;
  remque ncp;;
  hd ← gets nchhead;
  lru_push ncp hd;;
  selfque ncp.

(** The entry at the front is used for the name [nm] in directory [pino],
    [pdev] of the inode [dp], which has device [idev] and identifier [id]. *)
Definition nch_enter (nhp dp pino pdev idev id : Z) (nm : list Z) : N unit :=
  ncp ← gets nchhead;
  if ncp =? 0 then mret tt
  else
    n ← rdn ncp;
    lru_remove ncp (nc_nxt n);;
    remque ncp;;
    wrn ncp (set_nc_ip dp);;
    wrn ncp (set_nc_ino pino);;
    wrn ncp (set_nc_dev pdev);;
    wrn ncp (set_nc_idev idev);;
    wrn ncp (set_nc_id (u16 id));;
    wrn ncp (set_nc_nlen (zlen nm));;
    wrn ncp (λ n, set_nc_name (nm ++ drop (length nm) (nc_name n)) n);;
    wrn ncp (set_nc_nxt 0);;
    t ← gets nchtail;
    wrn ncp (set_nc_prev t);;
    wr_slot t ncp;;
    modify (set_nchtail ncp);;
    insque ncp nhp.

Definition zero_entry : namecache := NC 0 0 0 0 0 0 0 0 0 0 (replicate (Z.to_nat NCHNAMLEN) 0).
Definition nst_zero : nst :=
  NS (list_to_map ((λ j, (namecache_at j, zero_entry)) <$> seqZ 0 NNAMECACHE)) ∅ 0 0 (Nchstats 0 0 0 0 0).
End NameCache.
