(* ===== verification/Bio.v ===== *)
(** * The buffer cache (sys/kernel/ufs_bio.c) and its disk driver (sys/pic32/sd.c)

    A buffer header lies on a hash chain, by device and block, and, while not
    busy, on one of three free lists; both are circular doubly linked lists
    through real pointers.  Headers, the heads of the 16 hash chains and the
    heads of the free lists share one address space [bufs].

    [sleep] (other processes run) and the driver entry [d_strategy] are
    parameters of the cache; [sdstrategy] is the driver of the SD card, which
    transfers the block before it returns. *)

From S2P Require Import Prelude Links.

Module Bio.

Definition NBUF : Z := 10.
Definition BUFHSZ : Z := 16.
Definition BQ_LOCKED : Z := 0.
Definition BQ_LRU : Z := 1.
Definition BQ_AGE : Z := 2.
Definition BQ_EMPTY : Z := 3.
Definition BQUEUES : Z := 3.
Definition DEV_BSIZE : Z := 1024.
Definition NODEV : Z := -1.
Definition PRIBIO : Z := 20.
Definition EIO : Z := 5.
Definition EINVAL : Z := 22.
Definition EROFS : Z := 30.
Definition B_READ : Z := 1.
Definition B_DONE : Z := 2.
Definition B_ERROR : Z := 4.
Definition B_BUSY : Z := 8.
Definition B_PHYS : Z := 16.
Definition B_WANTED : Z := 64.
Definition B_AGE : Z := 128.
Definition B_ASYNC : Z := 256.
Definition B_DELWRI : Z := 512.
Definition B_INVAL : Z := 2048.
Definition B_LOCKED : Z := 8192.
Definition B_RAMREMAP : Z := 32768.

(** [&bufhash\[i\]], [&bfreelist\[i\]], [&buf\[i\]] and the data area of
    [buf\[i\]]. *)
Definition bufhash_at (i : Z) : Z := 100 + i.
Definition bfreelist_at (i : Z) : Z := 200 + i.
Definition buf_at (i : Z) : Z := 300 + i.
Definition bufdata_at (i : Z) : Z := 4096 + DEV_BSIZE * i.

Record buf := Buf {
  b_flags : Z;
  b_forw : Z;
  b_back : Z;
  av_forw : Z;
  av_back : Z;
  b_bcount : Z;
  b_error : Z;
  b_dev : Z;
  b_addr : Z;
  b_blkno : Z;
  b_resid : Z
}.

Definition set_b_flags (v : Z) (b : buf) : buf := Buf v (b_forw b) (b_back b) (av_forw b) (av_back b) (b_bcount b) (b_error b) (b_dev b) (b_addr b) (b_blkno b) (b_resid b).
Definition set_b_forw (v : Z) (b : buf) : buf := Buf (b_flags b) v (b_back b) (av_forw b) (av_back b) (b_bcount b) (b_error b) (b_dev b) (b_addr b) (b_blkno b) (b_resid b).
Definition set_b_back (v : Z) (b : buf) : buf := Buf (b_flags b) (b_forw b) v (av_forw b) (av_back b) (b_bcount b) (b_error b) (b_dev b) (b_addr b) (b_blkno b) (b_resid b).
Definition set_av_forw (v : Z) (b : buf) : buf := Buf (b_flags b) (b_forw b) (b_back b) v (av_back b) (b_bcount b) (b_error b) (b_dev b) (b_addr b) (b_blkno b) (b_resid b).
Definition set_av_back (v : Z) (b : buf) : buf := Buf (b_flags b) (b_forw b) (b_back b) (av_forw b) v (b_bcount b) (b_error b) (b_dev b) (b_addr b) (b_blkno b) (b_resid b).
Definition set_b_bcount (v : Z) (b : buf) : buf := Buf (b_flags b) (b_forw b) (b_back b) (av_forw b) (av_back b) v (b_error b) (b_dev b) (b_addr b) (b_blkno b) (b_resid b).
Definition set_b_error (v : Z) (b : buf) : buf := Buf (b_flags b) (b_forw b) (b_back b) (av_forw b) (av_back b) (b_bcount b) v (b_dev b) (b_addr b) (b_blkno b) (b_resid b).
Definition set_b_dev (v : Z) (b : buf) : buf := Buf (b_flags b) (b_forw b) (b_back b) (av_forw b) (av_back b) (b_bcount b) (b_error b) v (b_addr b) (b_blkno b) (b_resid b).
Definition set_b_addr (v : Z) (b : buf) : buf := Buf (b_flags b) (b_forw b) (b_back b) (av_forw b) (av_back b) (b_bcount b) (b_error b) (b_dev b) v (b_blkno b) (b_resid b).
Definition set_b_blkno (v : Z) (b : buf) : buf := Buf (b_flags b) (b_forw b) (b_back b) (av_forw b) (av_back b) (b_bcount b) (b_error b) (b_dev b) (b_addr b) v (b_resid b).
Definition set_b_resid (v : Z) (b : buf) : buf := Buf (b_flags b) (b_forw b) (b_back b) (av_forw b) (av_back b) (b_bcount b) (b_error b) (b_dev b) (b_addr b) (b_blkno b) v.

(** [data] maps a core address to the block there, [disk] a unit and a physical
    block to its contents. *)
Record bst := BS {
  bufs : gmap Z buf;
  data : gmap Z (list Z);
  disk : gmap (Z * Z) (list Z);
  u_error : Z;
  ru_inblock : Z;
  ru_oublock : Z;
  wakeups : list Z
}.

Definition set_bufs (v : gmap Z buf) (s : bst) : bst := BS v (data s) (disk s) (u_error s) (ru_inblock s) (ru_oublock s) (wakeups s).
Definition set_data (v : gmap Z (list Z)) (s : bst) : bst := BS (bufs s) v (disk s) (u_error s) (ru_inblock s) (ru_oublock s) (wakeups s).
Definition set_disk (v : gmap (Z * Z) (list Z)) (s : bst) : bst := BS (bufs s) (data s) v (u_error s) (ru_inblock s) (ru_oublock s) (wakeups s).
Definition set_u_error (v : Z) (s : bst) : bst := BS (bufs s) (data s) (disk s) v (ru_inblock s) (ru_oublock s) (wakeups s).
Definition set_ru_inblock (v : Z) (s : bst) : bst := BS (bufs s) (data s) (disk s) (u_error s) v (ru_oublock s) (wakeups s).
Definition set_ru_oublock (v : Z) (s : bst) : bst := BS (bufs s) (data s) (disk s) (u_error s) (ru_inblock s) v (wakeups s).
Definition set_wakeups (v : list Z) (s : bst) : bst := BS (bufs s) (data s) (disk s) (u_error s) (ru_inblock s) (ru_oublock s) v.

Notation K := (M bst).

Definition rdb (p : Z) : K buf := load (λ s, bufs s !! p).
Definition wrb (p : Z) (f : buf → buf) : K unit :=
  store (λ s, b ← bufs s !! p; Some (set_bufs (<[p := f b]> (bufs s)) s)).
Definition wakeup (chan : Z) : K unit := modify (λ s, set_wakeups (wakeups s ++ [chan]) s).
Definition or_flags (f : Z) (b : buf) : buf := set_b_flags (Z.lor (b_flags b) f) b.
Definition and_not_flags (f : Z) (b : buf) : buf := set_b_flags (Z.land (b_flags b) (Z.lnot f)) b.
Definition has (f : Z) (b : buf) : bool := negb (Z.land (b_flags b) f =? 0).

Definition BUFHASH (dev bn : Z) : Z := bufhash_at (Z.land (dev + bn) (BUFHSZ - 1)).

(** The macros of buf.h. *)
Definition bremhash (bp : Z) : K unit :=
  b ← rdb bp;
  wrb (b_back b) (set_b_forw (b_forw b));;
  b ← rdb bp;
  wrb (b_forw b) (set_b_back (b_back b)).
Definition binshash (bp dp : Z) : K unit :=
  d ← rdb dp;
  wrb bp (set_b_forw (b_forw d));;
  wrb bp (set_b_back dp);;
  d ← rdb dp;
  wrb (b_forw d) (set_b_back bp);;
  wrb dp (set_b_forw bp).
Definition bremfree (bp : Z) : K unit :=
  b ← rdb bp;
  wrb (av_back b) (set_av_forw (av_forw b));;
  b ← rdb bp;
  wrb (av_forw b) (set_av_back (av_back b)).
Definition binsheadfree (bp dp : Z) : K unit :=
  d ← rdb dp;
  wrb (av_forw d) (set_av_back bp);;
  d ← rdb dp;
  wrb bp (set_av_forw (av_forw d));;
  wrb dp (set_av_forw bp);;
  wrb bp (set_av_back dp).
Definition binstailfree (bp dp : Z) : K unit :=
  d ← rdb dp;
  wrb (av_back d) (set_av_forw bp);;
  d ← rdb dp;
  wrb bp (set_av_back (av_back d));;
  wrb dp (set_av_back bp);;
  wrb bp (set_av_forw dp).
Definition notavail (bp : Z) : K unit :=
  bremfree bp;;
  wrb bp (or_flags B_BUSY).
Definition bfree (bp : Z) : K unit := wrb bp (set_b_bcount 0).

Definition geterror (bp : Z) : K Z :=
  b ← rdb bp;
  if has B_ERROR b then mret (if b_error b =? 0 then EIO else b_error b) else mret 0.

Definition brelse (bp : Z) : K unit :=
  b ← rdb bp;
  when (has B_WANTED b) (wakeup bp);;
  f0 ← rdb (bfreelist_at 0);
  when (has B_WANTED f0) (wrb (bfreelist_at 0) (and_not_flags B_WANTED);; wakeup (bfreelist_at 0));;
  b ← rdb bp;
  (if has B_ERROR b then
     if has B_LOCKED b then wrb bp (and_not_flags B_ERROR) else wrb bp (set_b_dev NODEV)
   else mret tt);;
  b ← rdb bp;
  (if has (Z.lor B_ERROR B_INVAL) b then binsheadfree bp (bfreelist_at BQ_AGE)
   else
     let flist := if has B_LOCKED b then BQ_LOCKED else if has B_AGE b then BQ_AGE else BQ_LRU in
     binstailfree bp (bfreelist_at flist));;
  wrb bp (and_not_flags (Z.lor B_WANTED (Z.lor B_BUSY (Z.lor B_ASYNC B_AGE)))).

Definition biodone (bp : Z) : K unit :=
  b ← rdb bp;
  if has B_DONE b then panic "dup biodone"
  else
    wrb bp (or_flags B_DONE);;
    b ← rdb bp;
    if has B_ASYNC b then brelse bp
    else
      wrb bp (and_not_flags B_WANTED);;
      wakeup bp.

(** The search of a hash chain for a valid buffer of the block. *)
Fixpoint hash_find (fuel : nat) (bp dp dev blkno : Z) : K Z :=
  match fuel with
  | O => nofuel
  | S f =>
      if bp =? dp then mret 0
      else
        b ← rdb bp;
        if (b_blkno b =? blkno) && (b_dev b =? dev) && negb (has B_INVAL b) then mret bp
        else hash_find f (b_forw b) dp dev blkno
  end.
Definition chain_fuel : nat := S (Z.to_nat NBUF).

Definition incore (dev blkno : Z) : K bool :=
  let dp := BUFHASH dev blkno in
  d ← rdb dp;
  bp ← hash_find chain_fuel (b_forw d) dp dev blkno;
  mret (negb (bp =? 0)).

Section cache.
Context (sleep : Z → Z → K unit) (strategy : Z → K unit) (is_tape : Z → bool).

Fixpoint biowait_loop (fuel : nat) (bp : Z) : K unit :=
  match fuel with
  | O => nofuel
  | S f =>
      b ← rdb bp;
      if has B_DONE b then mret tt
      else
        sleep bp PRIBIO;;
        biowait_loop f bp
  end.
Definition biowait (fuel : nat) (bp : Z) : K unit :=
  biowait_loop fuel bp;;
  e ← gets u_error;
  if e =? 0 then
    e ← geterror bp;
    modify (set_u_error e)
  else mret tt.

Definition bwrite (fuel : nat) (bp : Z) : K unit :=
  b ← rdb bp;
  let flag := b in
  wrb bp (and_not_flags (Z.lor B_READ (Z.lor B_DONE (Z.lor B_ERROR B_DELWRI))));;
  when (negb (has B_DELWRI flag)) (modify (λ s, set_ru_oublock (ru_oublock s + 1) s));;
  wrb bp (set_b_bcount DEV_BSIZE);;
  strategy bp;;
  if negb (has B_ASYNC flag) then
    biowait fuel bp;;
    brelse bp
  else when (has B_DELWRI flag) (wrb bp (or_flags B_AGE)).

Definition bawrite (fuel : nat) (bp : Z) : K unit :=
  wrb bp (or_flags B_ASYNC);;
  bwrite fuel bp.

Definition bdwrite (fuel : nat) (bp : Z) : K unit :=
  b ← rdb bp;
  when (negb (has B_DELWRI b)) (modify (λ s, set_ru_oublock (ru_oublock s + 1) s));;
  if is_tape (b_dev b) then bawrite fuel bp
  else
    wrb bp (or_flags (Z.lor B_DELWRI B_DONE));;
    brelse bp.

(** [for (dp = &bfreelist\[BQ_AGE\]; dp > bfreelist; dp--)]: the index of the
    first nonempty list, 0 if there is none. *)
Definition pick_freelist : K Z :=
  a ← rdb (bfreelist_at BQ_AGE);
  if negb (av_forw a =? bfreelist_at BQ_AGE) then mret BQ_AGE
  else
    l ← rdb (bfreelist_at BQ_LRU);
    if negb (av_forw l =? bfreelist_at BQ_LRU) then mret BQ_LRU else mret 0.

Fixpoint getnewbuf (fuel : nat) : K Z :=
  match fuel with
  | O => nofuel
  | S f =>
      i ← pick_freelist;
      if i =? 0 then
        wrb (bfreelist_at 0) (or_flags B_WANTED);;
        sleep (bfreelist_at 0) (PRIBIO + 1);;
        getnewbuf f
      else
        d ← rdb (bfreelist_at i);
        let bp := av_forw d in
        notavail bp;;
        b ← rdb bp;
        if has B_DELWRI b then
          bawrite f bp;;
          getnewbuf f
        else
          when (has (Z.lor B_RAMREMAP B_PHYS) b) (wrb bp (set_b_addr (bufdata_at (bp - buf_at 0))));;
          wrb bp (set_b_flags B_BUSY);;
          mret bp
  end.

Fixpoint getblk (fuel : nat) (dev blkno : Z) : K Z :=
  match fuel with
  | O => nofuel
  | S f =>
      let dp := BUFHASH dev blkno in
      d ← rdb dp;
      bp ← hash_find chain_fuel (b_forw d) dp dev blkno;
      if negb (bp =? 0) then
        b ← rdb bp;
        if has B_BUSY b then
          wrb bp (or_flags B_WANTED);;
          sleep bp (PRIBIO + 1);;
          getblk f dev blkno
        else
          notavail bp;;
          mret bp
      else
        bp ← getnewbuf f;
        bfree bp;;
        bremhash bp;;
        binshash bp dp;;
        wrb bp (set_b_dev dev);;
        wrb bp (set_b_blkno blkno);;
        wrb bp (set_b_error 0);;
        mret bp
  end.

Definition geteblk (fuel : nat) : K Z :=
  bp ← getnewbuf fuel;
  wrb bp (or_flags B_INVAL);;
  bfree bp;;
  bremhash bp;;
  binshash bp (bfreelist_at BQ_AGE);;
  wrb bp (set_b_dev NODEV);;
  wrb bp (set_b_error 0);;
  mret bp.

Definition start_read (bp flags : Z) : K unit :=
  wrb bp (or_flags flags);;
  wrb bp (set_b_bcount DEV_BSIZE);;
  strategy bp;;
  modify (λ s, set_ru_inblock (ru_inblock s + 1) s).

Definition bread (fuel : nat) (dev blkno : Z) : K Z :=
  bp ← getblk fuel dev blkno;
  b ← rdb bp;
  if has (Z.lor B_DONE B_DELWRI) b then mret bp
  else
    start_read bp B_READ;;
    biowait fuel bp;;
    mret bp.

Definition breada (fuel : nat) (dev blkno rablkno : Z) : K Z :=
  i ← incore dev blkno;
  bp ←
    (if i : bool then mret 0
     else
       bp ← getblk fuel dev blkno;
       b ← rdb bp;
       when (negb (has (Z.lor B_DONE B_DELWRI) b)) (start_read bp B_READ);;
       mret bp);
  (if rablkno =? 0 then mret tt
   else
     i ← incore dev rablkno;
     if i : bool then mret tt
     else
       rabp ← getblk fuel dev rablkno;
       rb ← rdb rabp;
       if has (Z.lor B_DONE B_DELWRI) rb then brelse rabp
       else start_read rabp (Z.lor B_READ B_ASYNC));;
  if bp =? 0 then bread fuel dev blkno
  else
    biowait fuel bp;;
    mret bp.

(** [blkflush]: the chain is searched again after each wait and each write. *)
Fixpoint blkflush_scan (fuel : nat) (ep dp dev blkno : Z) : K (option Z) :=
  match fuel with
  | O => nofuel
  | S f =>
      if ep =? dp then mret None
      else
        e ← rdb ep;
        if (b_blkno e =? blkno) && (b_dev e =? dev) && negb (has B_INVAL e) && (has B_BUSY e || has B_DELWRI e)
        then mret (Some ep)
        else blkflush_scan f (b_forw e) dp dev blkno
  end.
Fixpoint blkflush (fuel : nat) (dev blkno : Z) : K unit :=
  match fuel with
  | O => nofuel
  | S f =>
      let dp := BUFHASH dev blkno in
      d ← rdb dp;
      r ← blkflush_scan chain_fuel (b_forw d) dp dev blkno;
      match r with
      | None => mret tt
      | Some ep =>
          e ← rdb ep;
          (if has B_BUSY e then
             wrb ep (or_flags B_WANTED);;
             sleep ep (PRIBIO + 1)
           else
             notavail ep;;
             bwrite f ep);;
          blkflush f dev blkno
      end
  end.

(** [bflush]: the first delayed write for the device on a free list. *)
Fixpoint bflush_list (fuel : nat) (bp flist dev : Z) : K Z :=
  match fuel with
  | O => nofuel
  | S f =>
      if bp =? flist then mret 0
      else
        b ← rdb bp;
        if has B_DELWRI b && (dev =? b_dev b) then mret bp
        else bflush_list f (av_forw b) flist dev
  end.
Fixpoint bflush_scan (n : nat) (i dev : Z) : K Z :=
  match n with
  | O => mret 0
  | S n =>
      d ← rdb (bfreelist_at i);
      bp ← bflush_list chain_fuel (av_forw d) (bfreelist_at i) dev;
      if bp =? 0 then bflush_scan n (i + 1) dev else mret bp
  end.
Fixpoint bflush (fuel : nat) (dev : Z) : K unit :=
  match fuel with
  | O => nofuel
  | S f =>
      bp ← bflush_scan (Z.to_nat BQ_EMPTY) 0 dev;
      if bp =? 0 then mret tt
      else
        wrb bp (or_flags B_ASYNC);;
        notavail bp;;
        bwrite f bp;;
        bflush f dev
  end.
End cache.

Fixpoint binval_chain (fuel : nat) (bp dp dev : Z) : K unit :=
  match fuel with
  | O => nofuel
  | S f =>
      if bp =? dp then mret tt
      else
        b ← rdb bp;
        when (b_dev b =? dev) (wrb bp (or_flags B_INVAL));;
        b ← rdb bp;
        binval_chain f (b_forw b) dp dev
  end.
Fixpoint binval_from (n : nat) (i dev : Z) : K unit :=
  match n with
  | O => mret tt
  | S n =>
      d ← rdb (bufhash_at i);
      binval_chain chain_fuel (b_forw d) (bufhash_at i) dev;;
      binval_from n (i + 1) dev
  end.
Definition binval (dev : Z) : K unit := binval_from (Z.to_nat BUFHSZ) 0 dev.

(** ** Initialisation (init_main.c) *)

Fixpoint bhinit_loop (n : nat) (i : Z) : K unit :=
  match n with
  | O => mret tt
  | S n =>
      wrb (bufhash_at i) (set_b_back (bufhash_at i));;
      wrb (bufhash_at i) (set_b_forw (bufhash_at i));;
      bhinit_loop n (i + 1)
  end.
Definition bhinit : K unit := bhinit_loop (Z.to_nat BUFHSZ) 0.

Fixpoint binit_lists (n : nat) (i : Z) : K unit :=
  match n with
  | O => mret tt
  | S n =>
      let bp := bfreelist_at i in
      wrb bp (set_av_back bp);;
      wrb bp (set_av_forw bp);;
      wrb bp (set_b_back bp);;
      wrb bp (set_b_forw bp);;
      binit_lists n (i + 1)
  end.
Fixpoint binit_bufs (n : nat) (i paddr : Z) : K unit :=
  match n with
  | O => mret tt
  | S n =>
      let bp := buf_at i in
      wrb bp (set_b_dev NODEV);;
      wrb bp (set_b_bcount 0);;
      wrb bp (set_b_addr paddr);;
      binshash bp (bfreelist_at BQ_AGE);;
      wrb bp (set_b_flags (Z.lor B_BUSY B_INVAL));;
      brelse bp;;
      binit_bufs n (i + 1) (paddr + DEV_BSIZE)
  end.
Definition binit : K unit :=
  binit_lists (Z.to_nat BQUEUES) 0;;
  binit_bufs (Z.to_nat NBUF) 0 (bufdata_at 0).

(** ** The SD card driver *)

Section sd.
(** The partition table: offset and number of 512-byte sectors of a device, the
    drive it is on, and whether sector 0 of the drive may be written; and
    whether the card accepts a command ([true] to read). *)
Context (sdunit : Z → Z) (dp_offset dp_nsectors : Z → Z) (label_writable : Z → bool).
Context (card_ok : bool → Z → Z → bool).

(** [card_read] and [card_write] of one block; a command the card rejects
    transfers nothing and returns 0. *)
Definition zero_block : list Z := replicate 256 0.
Definition card_read (u offset addr : Z) : K bool :=
  if card_ok true u offset then
    modify (λ s, set_data (<[addr := default zero_block (disk s !! (u, offset))]> (data s)) s);;
    mret true
  else mret false.
Definition card_write (u offset addr : Z) : K bool :=
  if card_ok false u offset then
    store (λ s, c ← data s !! addr; Some (set_disk (<[(u, offset) := c]> (disk s)) s));;
    mret true
  else mret false.

(** A transfer of one block, the only size the cache asks for. *)
Definition sdstrategy (bp : Z) : K unit :=
  b ← rdb bp;
  let u := sdunit (b_dev b) in
  let part_size := Z.shiftr (dp_nsectors (b_dev b)) 1 in
  let nblk := Z.shiftr (b_bcount b + (DEV_BSIZE - 1)) 10 in
  let offset := b_blkno b + Z.shiftr (dp_offset (b_dev b)) 1 in
  let bad :=
    wrb bp (or_flags B_ERROR);;
    biodone bp in
  let transfer :=
    b ← rdb bp;
    _ ← (if has B_READ b then card_read u offset (b_addr b) else card_write u offset (b_addr b));
    biodone bp in
  if (offset =? 0) && negb (has B_READ b) && negb (label_writable u) then
    wrb bp (set_b_error EROFS);;
    bad
  else if part_size <? b_blkno b + nblk then
    if b_blkno b =? part_size then
      wrb bp (set_b_resid (b_bcount b));;
      biodone bp
    else
      let nblk := part_size - b_blkno b in
      if nblk <=? 0 then
        wrb bp (set_b_error EINVAL);;
        bad
      else
        wrb bp (set_b_bcount (Z.shiftl nblk 10));;
        transfer
  else transfer.
End sd.

(** ** Link operations

    The hash chains and the free lists use different pairs of link fields in
    the same way; [gn], [gp] read and [sn], [sp] write a pair, [core] forgets
    it. *)

Section dlinks.
Context (gn gp : buf → Z) (sn sp : Z → buf → buf) (core : buf → buf).
Hypothesis gn_sn : ∀ v b, gn (sn v b) = v.
Hypothesis gp_sn : ∀ v b, gp (sn v b) = gp b.
Hypothesis gn_sp : ∀ v b, gn (sp v b) = gn b.
Hypothesis gp_sp : ∀ v b, gp (sp v b) = v.
Hypothesis core_sn : ∀ v b, core (sn v b) = core b.
Hypothesis core_sp : ∀ v b, core (sp v b) = core b.
Implicit Types (s : bst).

Definition gnm s (z : Z) : option Z := gn <$> bufs s !! z.
Definition gpm s (z : Z) : option Z := gp <$> bufs s !! z.

(** From [s] to [s'] only the links changed, to [fn] and [fp]. *)
Definition linked s s' (fn fp : Z → option Z) : Prop :=
  ∃ m, s' = set_bufs m s ∧ (∀ z, core <$> m !! z = core <$> bufs s !! z) ∧ (∀ z, gnm s' z = fn z) ∧ (∀ z, gpm s' z = fp z).

Lemma linked_refl s : linked s s (gnm s) (gpm s).
Proof. exists (bufs s). split_and!; try done. by destruct s. Qed.

Lemma linked_trans s s1 s2 f1 p1 f2 p2 : linked s s1 f1 p1 → linked s1 s2 f2 p2 → linked s s2 f2 p2.
Proof.
  intros (m1 & -> & C1 & N1 & P1) (m2 & -> & C2 & N2 & P2). exists m2. split_and!; try done.
  intros z. rewrite C2. simpl. apply C1.
Qed.

Lemma linked_dom s s' fn fp z : linked s s' fn fp → is_Some (bufs s !! z) → is_Some (bufs s' !! z).
Proof. intros (m & -> & C & _) [b Hb]. specialize (C z). rewrite Hb in C. simpl. destruct (m !! z); [eauto|done]. Qed.

Lemma wp_rd_links s p n m (Q : buf → bst → Prop) :
  gnm s p = Some n → gpm s p = Some m → (∀ b, gn b = n → gp b = m → Q b s) → wp (rdb p) Q s.
Proof.
  unfold gnm, gpm. destruct (bufs s !! p) as [b|] eqn:E; [|done]. intros [= Hn] [= Hm] HQ. eapply wp_load; [exact E|]. by apply HQ.
Qed.

Lemma wp_sn s p v (Q : unit → bst → Prop) :
  is_Some (gnm s p) → (∀ s', linked s s' (λ z, if decide (z = p) then Some v else gnm s z) (gpm s) → Q tt s') → wp (wrb p (sn v)) Q s.
Proof.
  intros Hp HQ. unfold gnm in Hp. destruct (bufs s !! p) as [b|] eqn:E; [|by destruct Hp]. eapply wp_store; [rewrite E; reflexivity|].
  apply HQ. eexists. split; [reflexivity|]. unfold gnm, gpm. simpl. split_and!; intros z; (destruct (decide (z = p)) as [->|]; [rewrite lookup_insert_eq|by rewrite lookup_insert_ne]); rewrite ?E; simpl; by rewrite ?core_sn, ?gn_sn, ?gp_sn.
Qed.

Lemma wp_sp s p v (Q : unit → bst → Prop) :
  is_Some (gnm s p) → (∀ s', linked s s' (gnm s) (λ z, if decide (z = p) then Some v else gpm s z) → Q tt s') → wp (wrb p (sp v)) Q s.
Proof.
  intros Hp HQ. unfold gnm in Hp. destruct (bufs s !! p) as [b|] eqn:E; [|by destruct Hp]. eapply wp_store; [rewrite E; reflexivity|].
  apply HQ. eexists. split; [reflexivity|]. unfold gnm, gpm. simpl. split_and!; intros z; (destruct (decide (z = p)) as [->|]; [rewrite lookup_insert_eq|by rewrite lookup_insert_ne]); rewrite ?E; simpl; by rewrite ?core_sp, ?gn_sp, ?gp_sp.
Qed.

Lemma linked_some s s' fn fp z : linked s s' fn fp → is_Some (gnm s z) → is_Some (gnm s' z).
Proof. intros Hl. unfold gnm. rewrite !fmap_is_Some. by eapply linked_dom. Qed.

Lemma gpm_some s z : is_Some (gnm s z) ↔ is_Some (gpm s z).
Proof. unfold gnm, gpm. by rewrite !fmap_is_Some. Qed.

(** [bremhash] and [bremfree]. *)
Lemma wp_dremove s bp a c (Q : unit → bst → Prop) :
  gnm s bp = Some c → gpm s bp = Some a → a ≠ bp → c ≠ bp → is_Some (gnm s a) → is_Some (gnm s c) →
  (∀ s', linked s s' (λ z, if decide (z = a) then Some c else gnm s z) (λ z, if decide (z = c) then Some a else gpm s z) → Q tt s') →
  wp (b ← rdb bp; wrb (gp b) (sn (gn b));; b ← rdb bp; wrb (gn b) (sp (gp b))) Q s.
Proof.
  intros Hn Hp Ha Hc Hsa Hsc HQ. apply wp_bind. eapply wp_rd_links; [done|done|]. intros b -> ->.
  apply wp_bind, wp_sn; [done|]. intros s1 L1. pose proof L1 as (m1 & _ & _ & N1 & P1).
  apply wp_bind. eapply wp_rd_links; [rewrite N1, decide_False by done; exact Hn|by rewrite P1|]. intros b1 -> ->.
  apply wp_sp; [by eapply linked_some|]. intros s2 L2. apply HQ. pose proof L2 as (m2 & E2 & C2 & N2 & P2).
  destruct (linked_trans _ _ _ _ _ _ _ L1 L2) as (m & Em & Cm & _ & _). exists m. split_and!; [done|done| |].
  - intros z. by rewrite N2, N1.
  - intros z. rewrite P2. case_decide; [done|]. apply P1.
Qed.

(** The effect of the three insertions: [bp] between [a] and [c]. *)
Definition inserted s s' (a bp c : Z) : Prop :=
  linked s s' (λ z, if decide (z = a) then Some bp else if decide (z = bp) then Some c else gnm s z)
              (λ z, if decide (z = c) then Some bp else if decide (z = bp) then Some a else gpm s z).

Lemma linked_ext s s' fn fp fn' fp' : linked s s' fn fp → (∀ z, fn z = fn' z) → (∀ z, fp z = fp' z) → linked s s' fn' fp'.
Proof. intros (m & ? & ? & N & P) Hn Hp. exists m. split_and!; [done|done|intros; by rewrite N|intros; by rewrite P]. Qed.

Lemma wp_binshash_like s bp dp c a (Q : unit → bst → Prop) :
  gnm s dp = Some c → gpm s dp = Some a → bp ≠ dp → c ≠ bp → is_Some (gnm s bp) → is_Some (gnm s c) →
  (∀ s', inserted s s' dp bp c → Q tt s') →
  wp (d ← rdb dp; wrb bp (sn (gn d));; wrb bp (sp dp);; d ← rdb dp; wrb (gn d) (sp bp);; wrb dp (sn bp)) Q s.
Proof.
  intros Hn Hp Hd Hc Hsb Hsc HQ. apply wp_bind. eapply wp_rd_links; [done|done|]. intros b -> _.
  apply wp_bind, wp_sn; [done|]. intros s1 L1. pose proof L1 as (_ & _ & _ & N1 & P1).
  apply wp_bind, wp_sp; [by eapply linked_some|]. intros s2 L2. pose proof L2 as (_ & _ & _ & N2 & P2).
  apply wp_bind. eapply wp_rd_links; [rewrite N2, N1, decide_False by done; exact Hn|rewrite P2, decide_False by done; by rewrite P1|]. intros b2 -> _.
  apply wp_bind, wp_sp; [do 2 (eapply linked_some; [eassumption|]); done|]. intros s3 L3. pose proof L3 as (_ & _ & _ & N3 & P3).
  apply wp_sn; [do 3 (eapply linked_some; [eassumption|]); rewrite Hn; eauto|]. intros s4 L4. apply HQ. unfold inserted.
  eapply linked_ext; [eapply linked_trans; [eapply linked_trans; [eapply linked_trans; [exact L1|exact L2]|exact L3]|exact L4]| |].
  - intros z. cbv beta. case_decide; [done|]. by rewrite N3, N2, N1.
  - intros z. rewrite P3. case_decide; [done|]. rewrite P2. case_decide; [done|]. apply P1.
Qed.

Lemma wp_binshead_like s bp dp c a (Q : unit → bst → Prop) :
  gnm s dp = Some c → gpm s dp = Some a → bp ≠ dp → c ≠ bp → is_Some (gnm s bp) → is_Some (gnm s c) →
  (∀ s', inserted s s' dp bp c → Q tt s') →
  wp (d ← rdb dp; wrb (gn d) (sp bp);; d ← rdb dp; wrb bp (sn (gn d));; wrb dp (sn bp);; wrb bp (sp dp)) Q s.
Proof.
  intros Hn Hp Hd Hc Hsb Hsc HQ. apply wp_bind. eapply wp_rd_links; [done|done|]. intros b -> _.
  apply wp_bind, wp_sp; [done|]. intros s1 L1. pose proof L1 as (_ & _ & _ & N1 & P1).
  assert (is_Some (gpm s1 dp)) as [a1 Ha1] by (apply gpm_some; eapply linked_some; [exact L1|]; rewrite Hn; eauto).
  apply wp_bind. eapply wp_rd_links; [by rewrite N1|exact Ha1|]. intros b1 -> _.
  apply wp_bind, wp_sn; [by eapply linked_some|]. intros s2 L2. pose proof L2 as (_ & _ & _ & N2 & P2).
  apply wp_bind, wp_sn; [do 2 (eapply linked_some; [eassumption|]); rewrite Hn; eauto|]. intros s3 L3. pose proof L3 as (_ & _ & _ & N3 & P3).
  apply wp_sp; [do 3 (eapply linked_some; [eassumption|]); done|]. intros s4 L4. apply HQ. unfold inserted.
  eapply linked_ext; [eapply linked_trans; [eapply linked_trans; [eapply linked_trans; [exact L1|exact L2]|exact L3]|exact L4]| |].
  - intros z. rewrite N3. case_decide; [done|]. rewrite N2. case_decide; [done|]. apply N1.
  - intros z. cbv beta. destruct (decide (z = bp)) as [->|]; [by rewrite decide_False|]. rewrite P3, P2, P1. done.
Qed.

Lemma wp_binstail_like s bp dp c a (Q : unit → bst → Prop) :
  gnm s dp = Some c → gpm s dp = Some a → bp ≠ dp → a ≠ bp → is_Some (gnm s bp) → is_Some (gnm s a) →
  (∀ s', inserted s s' a bp dp → Q tt s') →
  wp (d ← rdb dp; wrb (gp d) (sn bp);; d ← rdb dp; wrb bp (sp (gp d));; wrb dp (sp bp);; wrb bp (sn dp)) Q s.
Proof.
  intros Hn Hp Hd Hc Hsb Hsc HQ. apply wp_bind. eapply wp_rd_links; [done|done|]. intros b _ ->.
  apply wp_bind, wp_sn; [done|]. intros s1 L1. pose proof L1 as (_ & _ & _ & N1 & P1).
  assert (is_Some (gnm s1 dp)) as [n1 Hn1] by (eapply linked_some; [exact L1|]; rewrite Hn; eauto).
  apply wp_bind. eapply wp_rd_links; [exact Hn1|by rewrite P1|]. intros b1 _ ->.
  apply wp_bind, wp_sp; [by eapply linked_some|]. intros s2 L2. pose proof L2 as (_ & _ & _ & N2 & P2).
  apply wp_bind, wp_sp; [do 2 (eapply linked_some; [eassumption|]); rewrite Hn; eauto|]. intros s3 L3. pose proof L3 as (_ & _ & _ & N3 & P3).
  apply wp_sn; [do 3 (eapply linked_some; [eassumption|]); done|]. intros s4 L4. apply HQ. unfold inserted.
  eapply linked_ext; [eapply linked_trans; [eapply linked_trans; [eapply linked_trans; [exact L1|exact L2]|exact L3]|exact L4]| |].
  - intros z. cbv beta. destruct (decide (z = bp)) as [->|]; [by rewrite decide_False|]. rewrite N3, N2, N1. done.
  - intros z. rewrite P3. case_decide; [done|]. rewrite P2. case_decide; [done|]. apply P1.
Qed.

(** ** Families of rings *)

(** The rings with heads [hs] and elements [q h], with no node in common. *)
Definition rings s (hs : list Z) (q : Z → list Z) : Prop :=
  (∀ h, h ∈ hs → ring (gnm s) (gpm s) h (q h)) ∧
  (∀ h h' x, h ∈ hs → h' ∈ hs → (x = h ∨ x ∈ q h) → (x = h' ∨ x ∈ q h') → h = h').

Definition qset (q : Z → list Z) (h : Z) (l : list Z) : Z → list Z := λ i, if decide (i = h) then l else q i.

Lemma ring_some s h l x : ring (gnm s) (gpm s) h l → x = h ∨ x ∈ l → is_Some (gnm s x).
Proof.
  intros Hr [->|(l1 & l2 & ->)%list_elem_of_split].
  - destruct (ring_around _ _ _ [] l Hr) as [E _]. change (before h []) with h in E. rewrite E. eauto.
  - destruct (ring_at _ _ _ _ _ _ Hr) as [-> _]. eauto.
Qed.

Lemma rings_ext s s' hs q : (∀ z, gnm s' z = gnm s z) → (∀ z, gpm s' z = gpm s z) → rings s hs q → rings s' hs q.
Proof. intros Hn Hp [H1 H2]. split; [|done]. intros h Hh. eapply ring_ext; [|by apply H1]. auto. Qed.

Lemma wp_ring_remove s hs q h l1 bp l2 (Q : unit → bst → Prop) :
  rings s hs q → h ∈ hs → q h = l1 ++ bp :: l2 →
  (∀ s' fn fp, linked s s' fn fp → rings s' hs (qset q h (l1 ++ l2)) → Q tt s') →
  wp (b ← rdb bp; wrb (gp b) (sn (gn b));; b ← rdb bp; wrb (gn b) (sp (gp b))) Q s.
Proof.
  intros [HR HD] Hh Hq HQ. pose proof (HR h Hh) as Hr. rewrite Hq in Hr. pose proof (ring_at _ _ _ _ _ _ Hr) as (E1 & E2 & E3 & E4).
  pose proof Hr as [_ Hnd]. apply NoDup_cons in Hnd as [Hh0 Hnd]. apply NoDup_app in Hnd as (_ & Hd1 & [Hd2 _]%NoDup_cons).
  assert (Ha : before h l1 ≠ bp ∧ (before h l1 = h ∨ before h l1 ∈ l1)).
  { destruct (before_cases h l1) as [[-> ->]|(l1' & a & -> & ->)]; [set_solver|]. split; [|set_solver]. intros ->. apply (Hd1 bp); set_solver. }
  assert (Hc : after h l2 ≠ bp ∧ (after h l2 = h ∨ after h l2 ∈ l2)).
  { destruct (after_cases h l2) as [[-> ->]|(b & l2' & -> & ->)]; [set_solver|]. split; [|set_solver]. intros ->. set_solver. }
  eapply wp_dremove; [exact E1|exact E2|apply Ha|apply Hc|rewrite E4; eauto| |].
  { apply (ring_some s h (l1 ++ bp :: l2)); [done|]. set_solver. }
  intros s' L. pose proof L as (m & _ & _ & N & P). eapply HQ; [exact L|]. split.
  - intros h' Hh'. unfold qset. case_decide as Hd.
    + subst h'. eapply (ring_remove (gnm s) (gpm s)); [exact Hr|exact N|exact P].
    + eapply ring_ext; [|by apply HR]. intros y Hy. rewrite N, P. assert (Hy' : ∀ z, (z = h ∨ z ∈ q h) → y ≠ z).
      { intros z Hz ->. apply Hd. by apply (HD h' h z). }
      rewrite Hq in Hy'. rewrite !decide_False; [done|apply Hy'; set_solver..].
  - assert (Hsub : ∀ i x, x = i ∨ x ∈ qset q h (l1 ++ l2) i → x = i ∨ x ∈ q i).
    { intros i x. unfold qset. case_decide; [subst; rewrite Hq; set_solver|done]. }
    intros i j x Hi Hj Hx1 Hx2. apply (HD i j x); auto.
Qed.

Lemma rings_insert s s' hs q h l1 l2 bp :
  rings s hs q → h ∈ hs → q h = l1 ++ l2 → (∀ i, i ∈ hs → bp ≠ i ∧ bp ∉ q i) →
  inserted s s' (before h l1) bp (after h l2) → rings s' hs (qset q h (l1 ++ bp :: l2)).
Proof.
  intros [HR HD] Hh Hq Hbp L. pose proof (HR h Hh) as Hr. rewrite Hq in Hr. destruct L as (m & _ & _ & N & P).
  destruct (Hbp h Hh) as [Hb1 Hb2]. rewrite Hq in Hb2. split.
  - intros h' Hh'. unfold qset. case_decide as Hd.
    + subst h'. eapply (ring_insert (gnm s) (gpm s)); [exact Hr|done|set_solver|set_solver|exact N|exact P].
    + eapply ring_ext; [|by apply HR]. intros y Hy. rewrite N, P.
      assert (Hy' : ∀ z, (z = h ∨ z ∈ q h) → y ≠ z) by (intros z Hz ->; apply Hd; by apply (HD h' h z)).
      assert (Hyb : y ≠ bp) by (destruct (Hbp h' Hh') as [? ?]; intros ->; destruct Hy; done).
      rewrite Hq in Hy'. rewrite !decide_False; [done|done| |done|].
      * destruct (after_cases h l2) as [[-> ->]|(b & l2' & -> & ->)]; apply Hy'; set_solver.
      * destruct (before_cases h l1) as [[-> ->]|(l1' & b & -> & ->)]; apply Hy'; set_solver.
  - assert (Hsub : ∀ i x, i ∈ hs → x = i ∨ x ∈ qset q h (l1 ++ bp :: l2) i → (x = bp ∧ i = h) ∨ (x ≠ bp ∧ (x = i ∨ x ∈ q i))).
    { intros i x Hi. destruct (Hbp i Hi) as [Hbi Hqi]. unfold qset. case_decide as Hd.
      - subst i. destruct (decide (x = bp)); [by left|]. right. split; [done|]. rewrite Hq. set_solver.
      - intros Hx. right. split; [|done]. intros ->. destruct Hx; congruence. }
    intros i j x Hi Hj Hx1 Hx2. destruct (Hsub i x Hi Hx1) as [[-> ->]|[? ?]], (Hsub j _ Hj Hx2) as [[? ->]|[? ?]]; try congruence.
    by apply (HD i j x).
Qed.
End dlinks.

End Bio.
