(* ===== verification/Cache.v ===== *)
(** * What the buffer cache promises

    The invariant of the buffer cache and the proof that it is transparent:
    with a driver that transfers blocks, reading a block through the cache
    yields what was last written to it, whether or not it has reached the
    disk. *)

From S2P Require Import Prelude Links Bio.
Import Bio.

Module Cache.
#[local] Set Default Proof Using "Type".

(** ** Three views of the buffer headers

    The hash links, the free-list links, and the rest, which [ct] keeps. *)

Definition ct (b : buf) : buf := set_b_forw 0 (set_b_back 0 (set_av_forw 0 (set_av_back 0 b))).
Definition ctm (s : bst) (z : Z) : option buf := ct <$> bufs s !! z.
Definition hcore (b : buf) : buf := set_b_forw 0 (set_b_back 0 b).
Definition fcore (b : buf) : buf := set_av_forw 0 (set_av_back 0 b).

Notation hrings := (rings b_forw b_back).
Notation frings := (rings av_forw av_back).

(** Everything but the headers is the same. *)
Definition same_env (s s' : bst) : Prop := s' = set_bufs (bufs s') s.

Lemma same_env_trans s s1 s2 : same_env s s1 → same_env s1 s2 → same_env s s2.
Proof. unfold same_env. intros -> ->. by destruct s. Qed.

(** A change of hash links only, of free links only, of the rest only. *)
Definition hash_step (s s' : bst) : Prop :=
  same_env s s' ∧ (∀ z, ctm s' z = ctm s z) ∧ (∀ z, gnm av_forw s' z = gnm av_forw s z) ∧ (∀ z, gpm av_back s' z = gpm av_back s z).
Definition free_step (s s' : bst) : Prop :=
  same_env s s' ∧ (∀ z, ctm s' z = ctm s z) ∧ (∀ z, gnm b_forw s' z = gnm b_forw s z) ∧ (∀ z, gpm b_back s' z = gpm b_back s z).
Definition ct_step (bp : Z) (f : buf → buf) (s s' : bst) : Prop :=
  same_env s s' ∧ (∀ z, ctm s' z = if decide (z = bp) then f <$> ctm s z else ctm s z) ∧
  (∀ z, gnm b_forw s' z = gnm b_forw s z) ∧ (∀ z, gpm b_back s' z = gpm b_back s z) ∧
  (∀ z, gnm av_forw s' z = gnm av_forw s z) ∧ (∀ z, gpm av_back s' z = gpm av_back s z).

Lemma fmap_core {X Y} (core : buf → Y) (g : Y → X) (m m' : gmap Z buf) z :
  core <$> m' !! z = core <$> m !! z → (g ∘ core) <$> m' !! z = (g ∘ core) <$> m !! z.
Proof. destruct (m' !! z), (m !! z); simpl; intros; simplify_option_eq; congruence. Qed.

Lemma linked_hash s s' fn fp : linked b_forw b_back hcore s s' fn fp → hash_step s s'.
Proof.
  intros (m & -> & C & _). split; [done|].
  split_and!; intros z; [apply (fmap_core _ ct _ _ _ (C z))|apply (fmap_core _ av_forw _ _ _ (C z))|apply (fmap_core _ av_back _ _ _ (C z))].
Qed.

Lemma linked_free s s' fn fp : linked av_forw av_back fcore s s' fn fp → free_step s s'.
Proof.
  intros (m & -> & C & _). split; [done|].
  split_and!; intros z; [apply (fmap_core _ ct _ _ _ (C z))|apply (fmap_core _ b_forw _ _ _ (C z))|apply (fmap_core _ b_back _ _ _ (C z))].
Qed.

(** Updates of a header that leave its links alone. *)
Definition plain (f : buf → buf) : Prop :=
  ∀ b, ct (f b) = f (ct b) ∧ b_forw (f b) = b_forw b ∧ b_back (f b) = b_back b ∧ av_forw (f b) = av_forw b ∧ av_back (f b) = av_back b.

Lemma wp_ct s bp f (Q : unit → bst → Prop) :
  plain f → is_Some (ctm s bp) → (∀ s', ct_step bp f s s' → Q tt s') → wp (wrb bp f) Q s.
Proof.
  unfold ctm. intros Hf Hb HQ. destruct (bufs s !! bp) as [b|] eqn:E; [|by destruct Hb].
  eapply wp_store; [rewrite E; reflexivity|]. apply HQ. split; [done|].
  destruct (Hf b) as (F1 & F2 & F3 & F4 & F5).
  unfold ctm, gnm, gpm; split_and!; intros z; simpl; destruct (decide (z = bp)) as [->|]; rewrite ?lookup_insert_eq, ?lookup_insert_ne by done; rewrite ?E; simpl; congruence.
Qed.

Lemma wp_rd_ct s bp c (Q : buf → bst → Prop) :
  ctm s bp = Some c → (∀ b, ct b = c → Some (b_forw b) = gnm b_forw s bp → Some (av_forw b) = gnm av_forw s bp → Q b s) → wp (rdb bp) Q s.
Proof.
  unfold ctm, gnm. destruct (bufs s !! bp) as [b|] eqn:E; [|done]. intros [= Hc] HQ. eapply wp_load; [exact E|]. by apply HQ.
Qed.

Lemma has_ct f b c : ct b = c → has f b = has f c.
Proof. by intros <-. Qed.

(** ** Flags

    The masks are literals, so the side conditions compute. *)

Section flags.
Implicit Types (F G f v : Z) (b : buf).

Lemma has_lor f g b : has (Z.lor f g) b = has f b || has g b.
Proof.
  unfold has. rewrite Z.land_lor_distr_r. destruct (Z.eqb_spec (Z.land (b_flags b) f) 0) as [->|Hf]; simpl; [by rewrite Z.lor_0_l|].
  apply negb_true_iff, Z.eqb_neq. intros [? _]%Z.lor_eq_0_iff. done.
Qed.

Lemma has_or_keep F f b : Z.land f F = 0 → has F (or_flags f b) = has F b.
Proof. intros H. unfold has, or_flags, set_b_flags, b_flags at 1. by rewrite Z.land_lor_distr_l, H, Z.lor_0_r. Qed.

Lemma has_or_set F f b : Z.land f F = F → F ≠ 0 → has F (or_flags f b) = true.
Proof.
  intros H HF. unfold has, or_flags, set_b_flags, b_flags at 1. rewrite Z.land_lor_distr_l, H.
  apply negb_true_iff, Z.eqb_neq. intros [_ ?]%Z.lor_eq_0_iff. done.
Qed.

Lemma has_clear F f b : Z.land F f = F → has F (and_not_flags f b) = false.
Proof.
  intros H. unfold has, and_not_flags, set_b_flags, b_flags at 1. rewrite <- Z.land_assoc, (Z.land_comm _ F), <- H, <- Z.land_assoc, Z.land_lnot_diag, !Z.land_0_r. done.
Qed.

Lemma has_keep F f b : Z.land F f = 0 → has F (and_not_flags f b) = has F b.
Proof.
  intros H. unfold has, and_not_flags, set_b_flags, b_flags at 1. rewrite <- Z.land_assoc, (Z.land_comm _ F).
  assert (E : Z.land F (Z.lnot f) = F); [|by rewrite E]. rewrite <- Z.ldiff_land. apply Z.bits_inj'. intros n Hn.
  pose proof (f_equal (λ z, Z.testbit z n) H) as Hb. cbv beta in Hb. rewrite Z.land_spec, Z.bits_0 in Hb. rewrite Z.ldiff_spec.
  destruct (Z.testbit F n), (Z.testbit f n); done.
Qed.

Lemma has_set_on F v b : Z.land v F ≠ 0 → has F (set_b_flags v b) = true.
Proof. intros H. unfold has, set_b_flags, b_flags at 1. by apply negb_true_iff, Z.eqb_neq. Qed.

Lemma has_set_off F v b : Z.land v F = 0 → has F (set_b_flags v b) = false.
Proof. intros H. unfold has, set_b_flags, b_flags at 1. by rewrite H. Qed.

Lemma has_sub F G b : Z.land G F = F → has G b = false → has F b = false.
Proof.
  unfold has. rewrite !negb_false_iff, !Z.eqb_eq. intros <- H. by rewrite Z.land_assoc, H, Z.land_0_l.
Qed.

Lemma has_and_not_false F f b : has F b = false → has F (and_not_flags f b) = false.
Proof.
  unfold has, and_not_flags, set_b_flags, b_flags at 2. rewrite !negb_false_iff, !Z.eqb_eq. intros H.
  by rewrite <- Z.land_assoc, (Z.land_comm (Z.lnot f)), Z.land_assoc, H.
Qed.

Lemma has_bcount F v b : has F (set_b_bcount v b) = has F b.
Proof. done. Qed.
Lemma has_error F v b : has F (set_b_error v b) = has F b.
Proof. done. Qed.
Lemma has_dev F v b : has F (set_b_dev v b) = has F b.
Proof. done. Qed.
Lemma has_blkno F v b : has F (set_b_blkno v b) = has F b.
Proof. done. Qed.
End flags.

Create HintDb bflags.
#[export] Hint Rewrite has_bcount has_error has_dev has_blkno : bflags.

(** Compute the flags after an update; [autorewrite] would give up at the first
    flag whose side condition fails. *)
Ltac bflags :=
  repeat first
    [ progress autorewrite with bflags
    | match goal with
      | |- context [has ?F (or_flags ?f ?b)] =>
          first [ rewrite (has_or_keep F f b) by reflexivity | rewrite (has_or_set F f b) by (reflexivity || discriminate) ]
      | |- context [has ?F (and_not_flags ?f ?b)] =>
          first [ rewrite (has_clear F f b) by reflexivity | rewrite (has_keep F f b) by reflexivity ]
      | |- context [has ?F (set_b_flags ?v ?b)] =>
          first [ rewrite (has_set_off F v b) by reflexivity | rewrite (has_set_on F v b) by discriminate ]
      end ].
#[global] Arguments has : simpl never.

Lemma plain_or f : plain (or_flags f).
Proof. done. Qed.
Lemma plain_and f : plain (and_not_flags f).
Proof. done. Qed.
Lemma plain_flags v : plain (set_b_flags v).
Proof. done. Qed.
Lemma plain_bcount v : plain (set_b_bcount v).
Proof. done. Qed.
Lemma plain_dev v : plain (set_b_dev v).
Proof. done. Qed.
Lemma plain_blkno v : plain (set_b_blkno v).
Proof. done. Qed.
Lemma plain_error v : plain (set_b_error v).
Proof. done. Qed.
#[export] Hint Resolve plain_or plain_and plain_flags plain_bcount plain_dev plain_blkno plain_error : bflags.

(** ** The invariant *)

Notation key := (Z * Z)%type.
Notation block := (list Z).

(** The block a header is valid for. *)
Definition bkey (c : buf) : option key :=
  if has B_INVAL c || (b_dev c =? NODEV) then None else Some (b_dev c, b_blkno c).
Definition isbuf (bp : Z) : Prop := buf_at 0 ≤ bp < buf_at NBUF.
Definition hash_heads : list Z := bfreelist_at BQ_AGE :: (bufhash_at <$> seqZ 0 BUFHSZ).
Definition free_heads : list Z := bfreelist_at <$> seqZ 0 BQUEUES.
Definition khash (k : key) : Z := BUFHASH k.1 k.2.
(** Flags no buffer has while the disk does not fail. *)
Definition B_ODD : Z := Eval vm_compute in Z.lor B_ERROR (Z.lor B_LOCKED (Z.lor B_PHYS B_RAMREMAP)).

Definition dget (dk : gmap key block) (p : key) : block := default zero_block (dk !! p).
Definition vset (V : key → block) (k : key) (v : block) : key → block := λ k', if decide (k' = k) then v else V k'.

Section inv.
(** Where a block of a device lies on the disk, and the blocks in use: those of
    partitions that do not overlap. *)
Context (phys : key → key) (good : key → Prop).
Hypothesis phys_inj : ∀ k k', good k → good k' → phys k = phys k' → k = k'.

Implicit Types (V : key → block) (H : gmap Z (key * block)) (X : option Z) (C : Z → option buf).
Implicit Types (d : gmap Z block) (dk : gmap key block) (s : bst).

(** What holds of one buffer: [V] is the contents of the disk as the users of
    the cache see it, [H] the buffers they hold with the block and the data,
    and [X] a buffer being given a new identity. *)
Definition bok V H X d dk (bp : Z) (c : buf) : Prop :=
  has B_ODD c = false ∧ (has B_DELWRI c = true → has B_DONE c = true) ∧ is_Some (d !! b_addr c) ∧
  (has B_BUSY c = true ↔ is_Some (H !! bp) ∨ X = Some bp) ∧
  (X ≠ Some bp →
     match bkey c with
     | None => has B_DELWRI c = false ∧ H !! bp = None
     | Some k => good k ∧ (has B_DELWRI c = false → dget dk (phys k) = V k) ∧
         match H !! bp with
         | None => has B_DONE c = true → d !! b_addr c = Some (V k)
         | Some (k', v) => k' = k ∧ d !! b_addr c = Some v
         end
     end).

Record sem V H X C d dk : Prop := Sem {
  sem_buf : ∀ bp, isbuf bp → ∃ c, C bp = Some c ∧ bok V H X d dk bp c;
  sem_addr : ∀ bp bp' c c', isbuf bp → isbuf bp' → C bp = Some c → C bp' = Some c' → b_addr c = b_addr c' → bp = bp';
  sem_key : ∀ bp bp' c c' k, isbuf bp → isbuf bp' → X ≠ Some bp → X ≠ Some bp' → C bp = Some c → C bp' = Some c' →
    bkey c = Some k → bkey c' = Some k → bp = bp';
  sem_held : ∀ bp, is_Some (H !! bp) ∨ X = Some bp → isbuf bp;
  sem_disj : ∀ bp, X = Some bp → H !! bp = None;
  sem_disk : ∀ k, good k → (∀ bp c, isbuf bp → X ≠ Some bp → C bp = Some c → bkey c ≠ Some k) → dget dk (phys k) = V k
}.

(** A step that touches one buffer. *)
Lemma sem_update V V' H H' X X' C C' d d' dk dk' bp c c' :
  sem V H X C d dk → isbuf bp → C bp = Some c → (∀ z, C' z = if decide (z = bp) then Some c' else C z) →
  b_addr c' = b_addr c → (∀ a, a ≠ b_addr c → d' !! a = d !! a) → (∀ z, z ≠ bp → H' !! z = H !! z) →
  (∀ z, z ≠ bp → X' = Some z ↔ X = Some z) → (X' = Some bp → H' !! bp = None) →
  (∀ k, good k → ¬ (bkey c = Some k ∧ X ≠ Some bp) → V' k = V k ∧ dget dk' (phys k) = dget dk (phys k)) →
  bok V' H' X' d' dk' bp c' →
  (∀ k z cz, X' ≠ Some bp → bkey c' = Some k → isbuf z → z ≠ bp → X ≠ Some z → C z = Some cz → bkey cz ≠ Some k) →
  (∀ k, good k → bkey c = Some k → X ≠ Some bp → (bkey c' = Some k ∧ X' ≠ Some bp) ∨ dget dk' (phys k) = V' k) →
  sem V' H' X' C' d' dk'.
Proof.
  intros [S1 S2 S3 S4 S5 S6] Hbp Hc HC Ha Hd HH HX HX' HV Hb Hk Hold.
  assert (Hne : ∀ z cz k, isbuf z → z ≠ bp → X ≠ Some z → C z = Some cz → bkey cz = Some k → ¬ (bkey c = Some k ∧ X ≠ Some bp)).
  { intros z cz k Hz Hzb HXz Hcz Hkz [Hkc HXb]. apply Hzb. eapply S3; eauto. }
  split.
  - intros z Hz. rewrite HC. case_decide as Hd1; [subst; eauto|]. destruct (S1 z Hz) as (cz & Hcz & B1 & B2 & B3 & B4 & B5).
    exists cz. split; [done|]. assert (Hza : b_addr cz ≠ b_addr c) by (intros E; apply Hd1; eapply S2; eauto).
    unfold bok. rewrite HH, HX, Hd by done. split_and!; [done..|]. intros HXz. specialize (B5 HXz).
    destruct (bkey cz) as [k|] eqn:Ek; [|done]. destruct B5 as (Hg & B5). pose proof (Hne z cz k Hz Hd1 HXz Hcz Ek) as Hn.
    destruct (HV k Hg Hn) as [-> ->]. done.
  - intros z z' cz cz' Hz Hz'. rewrite !HC. repeat case_decide; subst; [done|..]; intros; simplify_eq; eauto.
    + exfalso. apply H1. eapply S2; eauto. congruence.
    + exfalso. apply H0. eapply S2; eauto. congruence.
  - intros z z' cz cz' k Hz Hz' HXz HXz'. rewrite !HC. repeat case_decide; subst; [done|..]; intros; simplify_eq.
    + exfalso. eapply (Hk k z'); eauto. by rewrite <- HX.
    + exfalso. eapply (Hk k z); eauto. by rewrite <- HX.
    + rewrite HX in HXz, HXz' by done. eapply S3; eauto.
  - intros z Hz. destruct (decide (z = bp)) as [->|]; [done|]. apply S4. by rewrite <- HH, <- HX.
  - intros z Hz. destruct (decide (z = bp)) as [->|]; [auto|]. rewrite HH by done. apply S5. by rewrite <- HX.
  - intros k Hg Hno. destruct (decide (bkey c = Some k ∧ X ≠ Some bp)) as [[Hkc HXb]|Hn].
    + destruct (Hold k Hg Hkc HXb) as [[? ?]|?]; [|done]. exfalso. eapply (Hno bp c'); eauto. rewrite HC. by rewrite decide_True.
    + destruct (HV k Hg Hn) as [-> ->]. apply S6; [done|]. intros z cz Hz HXz Hcz Hkz.
      destruct (decide (z = bp)) as [->|Hzb]; [apply Hn; simplify_eq; auto|]. eapply (Hno z cz); eauto; [by rewrite HX|]. rewrite HC. by rewrite decide_False.
Qed.

Lemma sem_get V H X C d dk bp c : sem V H X C d dk → isbuf bp → C bp = Some c → bok V H X d dk bp c.
Proof. intros [S1 _ _ _ _ _] Hb Hc. destruct (S1 bp Hb) as (c' & ? & ?). by simplify_eq. Qed.

(** A free buffer that holds block [k] is taken by a user. *)
Lemma sem_take V H C C' d dk bp c k :
  sem V H None C d dk → isbuf bp → C bp = Some c → has B_BUSY c = false → bkey c = Some k →
  (∀ z, C' z = if decide (z = bp) then Some (or_flags B_BUSY c) else C z) →
  ∃ v, d !! b_addr c = Some v ∧ (has B_DONE c = true → v = V k) ∧ sem V (<[bp := (k, v)]> H) None C' d dk.
Proof.
  intros Hs Hb Hc Hnb Hk HC. pose proof (sem_get _ _ _ _ _ _ _ _ Hs Hb Hc) as (B1 & B2 & [v Hv] & B4 & B5).
  rewrite Hk in B5. destruct B5 as (Hg & Hd & Hh); [done|].
  assert (HHb : H !! bp = None). { destruct (H !! bp) eqn:E; [|done]. rewrite (proj2 B4) in Hnb; [done|]. left. eauto. }
  rewrite HHb in Hh. exists v. split_and!; [done|intros Hdn; specialize (Hh Hdn); congruence|].
  assert (Hkc : bkey (or_flags B_BUSY c) = bkey c) by (unfold bkey; by bflags).
  eapply sem_update; [exact Hs|exact Hb|exact Hc|exact HC|done|done|intros; by rewrite lookup_insert_ne|done|done|done| | |].
  - unfold bok. bflags. rewrite Hkc, Hk, lookup_insert_eq. change (b_addr (or_flags B_BUSY c)) with (b_addr c). split_and!; eauto. split; eauto.
  - intros k' z cz _ Hk' Hz Hzb _ Hcz Hkz. apply Hzb. rewrite Hkc in Hk'. by eapply (sem_key _ _ _ _ _ _ Hs).
  - intros k' _ Hk' _. left. by rewrite Hkc.
Qed.

(** A free buffer with nothing to write back is taken for another block. *)
Lemma sem_recycle V H C C' d dk bp c :
  sem V H None C d dk → isbuf bp → C bp = Some c → has B_BUSY c = false → has B_DELWRI c = false →
  (∀ z, C' z = if decide (z = bp) then Some (or_flags B_BUSY c) else C z) → sem V H (Some bp) C' d dk.
Proof.
  intros Hs Hb Hc Hnb Hnd HC. pose proof (sem_get _ _ _ _ _ _ _ _ Hs Hb Hc) as (B1 & B2 & Hv & B4 & B5).
  assert (HHb : H !! bp = None). { destruct (H !! bp) eqn:E; [|done]. rewrite (proj2 B4) in Hnb; [done|]. left. eauto. }
  eapply sem_update; [exact Hs|exact Hb|exact Hc|exact HC|done|done|done|intros; split; congruence|done|done| |done|].
  - unfold bok. bflags. split_and!; auto; naive_solver.
  - intros k Hg Hk _. right. rewrite Hk in B5. by apply B5.
Qed.

Lemma sem_limbo V H C C' d dk bp c c' :
  sem V H (Some bp) C d dk → C bp = Some c → (∀ z, C' z = if decide (z = bp) then Some c' else C z) →
  b_addr c' = b_addr c → has B_BUSY c' = true → has B_ODD c' = false → has B_DELWRI c' = false → sem V H (Some bp) C' d dk.
Proof.
  intros Hs Hc HC Ha Hbz Ho Hdw. pose proof (sem_held _ _ _ _ _ _ Hs bp (or_intror eq_refl)) as Hb.
  pose proof (sem_get _ _ _ _ _ _ _ _ Hs Hb Hc) as (B1 & B2 & Hv & B4 & B5).
  eapply sem_update; [exact Hs|exact Hb|exact Hc|exact HC|done|done|done|done|by apply (sem_disj _ _ _ _ _ _ Hs)|done| |done|done].
  unfold bok. rewrite Ha, Hdw, Hbz. split_and!; try done. split; [by right|done].
Qed.

(** The new identity is complete. *)
Lemma sem_claim V H C d dk bp c k :
  sem V H (Some bp) C d dk → C bp = Some c → bkey c = Some k → good k → has B_DELWRI c = false → dget dk (phys k) = V k →
  (∀ z cz, isbuf z → z ≠ bp → C z = Some cz → bkey cz ≠ Some k) →
  ∃ v, d !! b_addr c = Some v ∧ sem V (<[bp := (k, v)]> H) None C d dk.
Proof.
  intros Hs Hc Hk Hg Hnd Hdk Hno. pose proof (sem_held _ _ _ _ _ _ Hs bp (or_intror eq_refl)) as Hb.
  pose proof (sem_get _ _ _ _ _ _ _ _ Hs Hb Hc) as (B1 & B2 & [v Hv] & B4 & _). exists v. split; [done|].
  eapply sem_update; [exact Hs|exact Hb|exact Hc| |done|done|intros; by rewrite lookup_insert_ne|intros; split; congruence|done|done| | |].
  - intros z. case_decide; [by subst|done].
  - unfold bok. rewrite Hk, lookup_insert_eq. split_and!; eauto. split; [eauto|]. intros _. by apply B4; right.
  - intros k' z cz _ Hk' Hz Hzb _ Hcz. simplify_eq. by apply (Hno z).
  - done.
Qed.

(** A step on a held buffer: its data, its block on the disk and in the view. *)
Lemma sem_hstep V V' H H' C C' d d' dk dk' bp c c' k v :
  sem V H None C d dk → H !! bp = Some (k, v) → C bp = Some c → (∀ z, C' z = if decide (z = bp) then Some c' else C z) →
  b_addr c' = b_addr c → bkey c' = bkey c → (∀ a, a ≠ b_addr c → d' !! a = d !! a) → (∀ z, z ≠ bp → H' !! z = H !! z) →
  (∀ k', k' ≠ k → V' k' = V k') → (∀ p, p ≠ phys k → dk' !! p = dk !! p) →
  (isbuf bp → good k → bkey c = Some k → d !! b_addr c = Some v → bok V H None d dk bp c → bok V' H' None d' dk' bp c') →
  sem V' H' None C' d' dk'.
Proof using phys_inj.
  intros Hs HHb Hc HC Ha Hkc Hd HH HV Hdk Hok.
  assert (Hb : isbuf bp) by (apply (sem_held _ _ _ _ _ _ Hs); left; eauto).
  pose proof (sem_get _ _ _ _ _ _ _ _ Hs Hb Hc) as B. pose proof B as (B1 & B2 & B3 & B4 & B5).
  destruct (bkey c) as [k0|] eqn:Ek; [|destruct B5 as [_ ?]; [done|congruence]].
  rewrite HHb in B5. destruct B5 as (Hg & B6 & B7 & B8); [done|]. subst k0.
  eapply sem_update; [exact Hs|exact Hb|exact Hc|exact HC|done|done|done|done|done| | | |].
  - intros k' Hg' Hn. assert (Hkk : k' ≠ k) by (intros ->; apply Hn; auto). split; [by apply HV|].
    unfold dget. rewrite Hdk; [done|]. intros E. apply Hkk. by apply phys_inj.
  - by apply Hok.
  - intros k' z cz _ Hk' Hz Hzb _ Hcz Hkz. apply Hzb. rewrite Hkc in Hk'. eapply (sem_key _ _ _ _ _ _ Hs z bp cz c k'); try done. congruence.
  - intros k' _ Hk' _. left. split; [|done]. congruence.
Qed.

(** The block is valid in one buffer at most, the held one if it is held. *)
Lemma sem_held_info V H C d dk bp k v : sem V H None C d dk → H !! bp = Some (k, v) →
  isbuf bp ∧ good k ∧ ∃ c, C bp = Some c ∧ bkey c = Some k ∧ d !! b_addr c = Some v ∧ has B_BUSY c = true ∧ has B_ODD c = false ∧
    (has B_DELWRI c = true → has B_DONE c = true) ∧ (has B_DELWRI c = false → dget dk (phys k) = V k).
Proof.
  intros Hs HHb. assert (Hb : isbuf bp) by (apply (sem_held _ _ _ _ _ _ Hs); left; eauto). split; [done|].
  destruct (sem_buf _ _ _ _ _ _ Hs bp Hb) as (c & Hc & B1 & B2 & B3 & B4 & B5).
  destruct (bkey c) as [k0|] eqn:Ek; [|destruct B5 as [_ ?]; [done|congruence]].
  rewrite HHb in B5. destruct B5 as (Hg & B6 & <- & B8); [done|]. split; [done|]. exists c. split_and!; try done. apply B4. left. eauto.
Qed.
End inv.

(** ** Heads and buffers *)

Lemma isbuf_not_head bp h : isbuf bp → h ∈ hash_heads ∨ h ∈ free_heads → bp ≠ h.
Proof.
  unfold isbuf, buf_at, NBUF. intros Hb Hh ->.
  assert (Ho : ∀ z, z ∈ hash_heads ++ free_heads → z < 300).
  { intros z Hz. apply Z.ltb_lt. eapply (forallb_elem (λ z, z <? 300)); [|exact Hz]. by vm_compute. }
  specialize (Ho h). rewrite elem_of_app in Ho. specialize (Ho Hh). lia.
Qed.

Lemma khash_head k : khash k ∈ hash_heads.
Proof.
  unfold khash, BUFHASH. apply list_elem_of_further, list_elem_of_fmap. eexists. split; [reflexivity|]. apply elem_of_seqZ.
  change (BUFHSZ - 1) with (Z.ones 4). rewrite Z.land_ones by lia. unfold BUFHSZ. pose proof (Z.mod_pos_bound (k.1 + k.2) (2 ^ 4)). lia.
Qed.

Lemma free_head i : 0 ≤ i < BQUEUES → bfreelist_at i ∈ free_heads.
Proof. intros. apply list_elem_of_fmap. eexists. split; [done|]. apply elem_of_seqZ. lia. Qed.

Lemma rings_disj gn gp s hs q h l1 bp l2 i : rings gn gp s hs q → h ∈ hs → q h = l1 ++ bp :: l2 → i ∈ hs →
  bp ≠ i ∧ bp ∉ qset q h (l1 ++ l2) i.
Proof.
  intros [HR HD] Hh Hq Hi. destruct (HR h Hh) as [_ Hnd]. rewrite Hq in Hnd. apply NoDup_cons in Hnd as [Hnh Hnd].
  rewrite <- Permutation_middle in Hnd. apply NoDup_cons in Hnd as [Hb _].
  assert (Hbq : bp ∈ q h) by (rewrite Hq; set_solver). unfold qset. case_decide; [subst; split; [|done]; intros ->; set_solver|].
  split; intros E; [|by assert (h = i) by (by apply (HD h i bp); auto)].
  subst i. assert (h = bp) by (apply (HD h bp bp); auto). done.
Qed.

(** ** Placement

    Every buffer is on one hash chain, that of its block, and on a free list
    unless it is busy. *)

Section placement.
Implicit Types (X : option Z) (C : Z → option buf) (s : bst).

Definition placed X (qh qf : Z → list Z) C : Prop :=
  (∀ h bp, h ∈ hash_heads → bp ∈ qh h → isbuf bp) ∧ (∀ bp, isbuf bp → ∃ h, h ∈ hash_heads ∧ bp ∈ qh h) ∧
  (∀ bp c k, isbuf bp → X ≠ Some bp → C bp = Some c → bkey c = Some k → bp ∈ qh (khash k)) ∧
  (∀ h bp, h ∈ free_heads → bp ∈ qf h → isbuf bp) ∧ qf (bfreelist_at BQ_LOCKED) = [] ∧
  (∀ bp c, isbuf bp → C bp = Some c → has B_BUSY c = false ↔ ∃ h, h ∈ free_heads ∧ bp ∈ qf h).

Lemma placed_take X qh qf C C' s bp c h l1 l2 :
  placed None qh qf C → frings s free_heads qf → isbuf bp → C bp = Some c → h ∈ free_heads → qf h = l1 ++ bp :: l2 →
  (X = None ∨ X = Some bp) → (∀ z, C' z = if decide (z = bp) then Some (or_flags B_BUSY c) else C z) →
  placed X qh (qset qf h (l1 ++ l2)) C'.
Proof.
  intros (P1 & P2 & P3 & P4 & P5 & P6) HF Hb Hc Hh Hq HX HC.
  assert (Hout : ∀ i, i ∈ free_heads → bp ∉ qset qf h (l1 ++ l2) i) by (intros; by eapply rings_disj).
  assert (Hsub : ∀ i z, z ∈ qset qf h (l1 ++ l2) i → z ∈ qf i).
  { intros i z. unfold qset. case_decide; [subst; rewrite Hq; set_solver|done]. }
  split_and!; [done|done| |naive_solver| |].
  - intros z cz k Hz _ Hcz Hk. rewrite HC in Hcz. case_decide; [subst; simplify_eq|eauto].
    apply (P3 bp c); [done|done|done|]. rewrite <- Hk. unfold bkey. by bflags.
  - apply elem_of_nil_inv. intros z Hz%Hsub. rewrite P5 in Hz. set_solver.
  - intros z cz Hz. rewrite HC. case_decide as Hd.
    + subst. intros [= <-]. bflags. split; [done|]. intros (i & Hi & Hbi). by destruct (Hout i Hi).
    + intros Hcz. rewrite (P6 z cz Hz Hcz). split; intros (i & Hi & Hzi); exists i; (split; [done|]); [|eauto].
      unfold qset. case_decide; [|done]. subst i. rewrite Hq in Hzi. set_solver.
Qed.

Lemma placed_release qh qf C C' bp c c' h l1 l2 :
  placed None qh qf C → isbuf bp → C bp = Some c → h ∈ free_heads → h ≠ bfreelist_at BQ_LOCKED → qf h = l1 ++ l2 →
  bkey c' = bkey c → has B_BUSY c' = false → (∀ z, C' z = if decide (z = bp) then Some c' else C z) →
  placed None qh (qset qf h (l1 ++ bp :: l2)) C'.
Proof.
  intros (P1 & P2 & P3 & P4 & P5 & P6) Hb Hc Hh Hl Hq Hk Hnb HC.
  assert (Hin : ∀ i z, z ∈ qset qf h (l1 ++ bp :: l2) i ↔ z ∈ qf i ∨ (i = h ∧ z = bp)).
  { intros i z. unfold qset. case_decide; [subst; rewrite Hq; set_solver|naive_solver]. }
  split_and!; [done|done| | | |].
  - intros z cz k Hz _ Hcz Hkz. rewrite HC in Hcz. case_decide; [subst; simplify_eq|eauto]. apply (P3 bp c); congruence.
  - intros i z Hi [?|[-> ->]]%Hin; eauto.
  - unfold qset. by rewrite decide_False.
  - intros z cz Hz. rewrite HC. case_decide as Hd.
    + subst. intros [= <-]. split; [|done]. intros _. exists h. split; [done|]. apply Hin. auto.
    + intros Hcz. rewrite (P6 z cz Hz Hcz). setoid_rewrite Hin. naive_solver.
Qed.

Lemma placed_same X X' qh qf C C' bp c c' :
  placed X qh qf C → isbuf bp → C bp = Some c → has B_BUSY c' = has B_BUSY c → (∀ z, z ≠ bp → X ≠ Some z) →
  (∀ k, X' ≠ Some bp → bkey c' = Some k → bp ∈ qh (khash k)) →
  (∀ z, C' z = if decide (z = bp) then Some c' else C z) → placed X' qh qf C'.
Proof.
  intros (P1 & P2 & P3 & P4 & P5 & P6) Hb Hc Hbz HX Hk HC. split_and!; [done|done| |done|done|].
  - intros z cz k Hz HXz Hcz Hkz. rewrite HC in Hcz. case_decide; [subst; simplify_eq; auto|]. apply (P3 z cz); auto.
  - intros z cz Hz. rewrite HC. case_decide; [|by apply P6]. subst. intros [= <-]. rewrite Hbz. by apply P6.
Qed.
End placement.

(** ** Links *)

Section links.
Implicit Types (s : bst).

Definition hsame s s' : Prop := (∀ z, gnm b_forw s' z = gnm b_forw s z) ∧ (∀ z, gpm b_back s' z = gpm b_back s z).
Definition fsame s s' : Prop := (∀ z, gnm av_forw s' z = gnm av_forw s z) ∧ (∀ z, gpm av_back s' z = gpm av_back s z).

Lemma wp_notavail s qf bp c h l1 l2 (Q : unit → bst → Prop) :
  frings s free_heads qf → h ∈ free_heads → qf h = l1 ++ bp :: l2 → ctm s bp = Some c →
  (∀ s', same_env s s' → (∀ z, ctm s' z = if decide (z = bp) then Some (or_flags B_BUSY c) else ctm s z) → hsame s s' →
     frings s' free_heads (qset qf h (l1 ++ l2)) → Q tt s') → wp (notavail bp) Q s.
Proof.
  intros HF Hh Hq Hc HQ. unfold notavail. apply wp_bind.
  eapply (wp_ring_remove av_forw av_back set_av_forw set_av_back fcore); [done..|exact HF|exact Hh|exact Hq|].
  intros s1 fn fp L HF1. apply linked_free in L as (E1 & C1 & N1 & P1).
  apply wp_ct; [auto with bflags|rewrite C1, Hc; eauto|]. intros s2 (E2 & C2 & N2 & P2 & N3 & P3). apply HQ.
  - by eapply same_env_trans.
  - intros z. rewrite C2, C1. case_decide; [subst; by rewrite Hc|done].
  - split; intros; by rewrite ?N2, ?P2, ?N1, ?P1.
  - by eapply rings_ext.
Qed.

Lemma wp_binstailfree s qf bp h (Q : unit → bst → Prop) :
  frings s free_heads qf → h ∈ free_heads → isbuf bp → is_Some (ctm s bp) → (∀ i, i ∈ free_heads → bp ∉ qf i) →
  (∀ s', free_step s s' → frings s' free_heads (qset qf h (qf h ++ [bp])) → Q tt s') → wp (binstailfree bp h) Q s.
Proof.
  intros HF Hh Hb Hc Hnq HQ. pose proof HF as [HR HD]. pose proof (HR h Hh) as Hr.
  pose proof Hr as [Hds Hnd]. rewrite <- (app_nil_r (qf h)) in Hr. destruct (ring_around _ _ _ (qf h) [] Hr) as [E1 E2].
  change (after h []) with h in E1, E2. rewrite app_nil_r in Hr.
  assert (Hbh : ∀ i, i ∈ free_heads → bp ≠ i ∧ bp ∉ qf i) by (intros; split; [apply isbuf_not_head; auto|auto]).
  assert (Hin : before h (qf h) = h ∨ before h (qf h) ∈ qf h) by (destruct (before_cases h (qf h)) as [[_ ?]|(? & ? & -> & ->)]; set_solver).
  assert (is_Some (gnm av_forw s h)) as [n Hn] by (apply (ring_some av_forw av_back s h (qf h)); auto).
  eapply (wp_binstail_like av_forw av_back set_av_forw set_av_back fcore); [done..|exact Hn|exact E2|by apply Hbh| | | |].
  - destruct (Hbh h Hh). intros Eb. rewrite Eb in Hin. destruct Hin; done.
  - revert Hc. unfold ctm, gnm. by rewrite !fmap_is_Some.
  - eauto.
  - intros s' L. apply HQ; [by eapply linked_free|]. eapply (rings_insert av_forw av_back set_av_forw set_av_back fcore); [done..|exact HF|exact Hh|by rewrite app_nil_r|exact Hbh|exact L].
Qed.
End links.

(** ** The whole invariant *)

Section ops.
Context (phys : key → key) (good : key → Prop).
Hypothesis phys_inj : ∀ k k', good k → good k' → phys k = phys k' → k = k'.
Implicit Types (V : key → block) (H : gmap Z (key * block)) (X : option Z) (s : bst).
Notation sem := (sem phys good).

Definition cinv V H X s : Prop := ∃ qh qf,
  hrings s hash_heads qh ∧ frings s free_heads qf ∧ placed X qh qf (ctm s) ∧ sem V H X (ctm s) (data s) (disk s).

(** *** Steps that do not concern the buffers *)

Lemma sem_ext V H X C C' d dk : (∀ z, isbuf z → C' z = C z) → sem V H X C d dk → sem V H X C' d dk.
Proof.
  intros HC [S1 S2 S3 S4 S5 S6]. split; [| | |done|done|].
  - intros bp Hb. rewrite HC by done. auto.
  - intros bp bp' c c' Hb Hb'. rewrite !HC by done. by apply S2.
  - intros bp bp' c c' k Hb Hb' ? ?. rewrite !HC by done. eauto.
  - intros k Hg Hno. apply S6; [done|]. intros bp c Hb HX Hc. apply (Hno bp c); [done|done|]. by rewrite HC.
Qed.

Lemma placed_ext X qh qf (C C' : Z → option buf) : (∀ z, isbuf z → C' z = C z) → placed X qh qf C → placed X qh qf C'.
Proof.
  intros HC (P1 & P2 & P3 & P4 & P5 & P6). split_and!; [done|done| |done|done|].
  - intros bp c k Hb HX. rewrite HC by done. eauto.
  - intros bp c Hb. rewrite HC by done. auto.
Qed.

Lemma cinv_ext V H X s s' : hsame s s' → fsame s s' → (∀ z, isbuf z → ctm s' z = ctm s z) → data s' = data s → disk s' = disk s →
  cinv V H X s → cinv V H X s'.
Proof.
  intros [H1 H2] [F1 F2] HC Hd Hk (qh & qf & Hh & Hf & HP & Hs). exists qh, qf. rewrite Hd, Hk.
  split_and!; [by eapply rings_ext|by eapply rings_ext|by eapply placed_ext|by eapply sem_ext].
Qed.

Lemma cinv_env V H X s s' : bufs s' = bufs s → data s' = data s → disk s' = disk s → cinv V H X s → cinv V H X s'.
Proof. intros Hb. apply cinv_ext; [split..|]; intros; unfold gnm, gpm, ctm; by rewrite Hb. Qed.

Lemma same_env_data s s' : same_env s s' → data s' = data s ∧ disk s' = disk s.
Proof. unfold same_env. intros ->. done. Qed.

Lemma cinv_head V H X s s' bp f : ¬ isbuf bp → ct_step bp f s s' → cinv V H X s → cinv V H X s'.
Proof.
  intros Hb (He & HC & H1 & H2 & F1 & F2). apply same_env_data in He as [? ?]. apply cinv_ext; [done|done| |done|done].
  intros z Hz. rewrite HC, decide_False; [done|]. by intros ->.
Qed.


(** A change of a header that none of the invariant's facts depend on. *)
Definition harmless (f : buf → buf) : Prop := ∀ c,
  has B_ODD (f c) = has B_ODD c ∧ has B_DELWRI (f c) = has B_DELWRI c ∧ has B_DONE (f c) = has B_DONE c ∧
  has B_BUSY (f c) = has B_BUSY c ∧ bkey (f c) = bkey c ∧ b_addr (f c) = b_addr c.

Lemma ct_step_at bp f s s' c : ct_step bp f s s' → ctm s bp = Some c → ∀ z, ctm s' z = if decide (z = bp) then Some (f c) else ctm s z.
Proof. intros (_ & HC & _) Hc z. rewrite HC. case_decide; [subst; by rewrite Hc|done]. Qed.

Lemma cinv_harmless V H s s' bp f : harmless f → ct_step bp f s s' → cinv V H None s → cinv V H None s'.
Proof.
  intros Hf L Hi. destruct (decide (isbuf bp)) as [Hb|Hb]; [|by eapply cinv_head].
  destruct Hi as (qh & qf & Hh & HF & HP & Hs). destruct (sem_buf _ _ _ _ _ _ _ _ Hs bp Hb) as (c & Hc & Hok).
  pose proof (ct_step_at _ _ _ _ _ L Hc) as HC. destruct L as (He & _ & H1 & H2 & F1 & F2). apply same_env_data in He as [Ed Ek].
  destruct (Hf c) as (G1 & G2 & G3 & G4 & G5 & G6). exists qh, qf. rewrite Ed, Ek. split_and!; [by eapply rings_ext|by eapply rings_ext| |].
  - eapply placed_same; [exact HP|exact Hb|exact Hc|done|done| |exact HC]. intros k _. rewrite G5. by apply (proj1 (proj2 (proj2 HP)) bp c).
  - eapply sem_update; [exact Hs|exact Hb|exact Hc|exact HC|done|done|done|done|done|done| | |].
    + unfold bok. by rewrite G1, G2, G3, G4, G5, G6.
    + intros k z cz _ Hk Hz Hzb _ Hcz Hkz. apply Hzb. rewrite G5 in Hk. by eapply (sem_key _ _ _ _ _ _ _ _ Hs).
    + intros k _ Hk _. left. by rewrite G5.
Qed.

Lemma harmless_age : harmless (or_flags B_AGE).
Proof. intros c. unfold bkey. by bflags. Qed.
Lemma harmless_unwant : harmless (and_not_flags B_WANTED).
Proof. intros c. unfold bkey. by bflags. Qed.

(** *** Releasing a buffer *)

(** What [brelse] does to a header. *)
Definition released : buf → buf := and_not_flags (Z.lor B_WANTED (Z.lor B_BUSY (Z.lor B_ASYNC B_AGE))).

(** The last part of [brelse], on the free list. *)
Definition brelse_put (bp : Z) : M bst unit :=
  b ← rdb bp;
  (if has B_ERROR b then
     if has B_LOCKED b then wrb bp (and_not_flags B_ERROR) else wrb bp (set_b_dev NODEV)
   else mret tt);;
  b ← rdb bp;
  (if has (Z.lor B_ERROR B_INVAL) b then binsheadfree bp (bfreelist_at BQ_AGE)
   else
     let flist := if has B_LOCKED b then BQ_LOCKED else if has B_AGE b then BQ_AGE else BQ_LRU in
     binstailfree bp (bfreelist_at flist));;
  wrb bp (and_not_flags (Z.lor B_WANTED (Z.lor B_BUSY (Z.lor B_ASYNC B_AGE)))).

(** A held buffer without errors goes to the tail of a list. *)
Lemma wp_brelse_links V H s bp k v c (Q : unit → bst → Prop) :
  cinv V H None s → H !! bp = Some (k, v) → ctm s bp = Some c →
  (∀ s' qh qf h, let c' := released c in
     hrings s' hash_heads qh → frings s' free_heads (qset qf h (qf h ++ [bp])) → h ∈ free_heads → h ≠ bfreelist_at BQ_LOCKED →
     placed None qh qf (ctm s) → sem V H None (ctm s) (data s) (disk s) →
     (∀ z, ctm s' z = if decide (z = bp) then Some c' else ctm s z) → data s' = data s → disk s' = disk s → Q tt s') →
  wp (brelse_put bp) Q s.
Proof.
  intros Hi HHb Hc HQ. destruct Hi as (qh & qf & Hh & HF & HP & Hs).
  pose proof (sem_held_info _ _ _ _ _ _ _ _ _ _ Hs HHb) as (Hb & Hg & c1 & Hc1 & Hk & Hd & Hbz & Hodd & Hdel & Hdk). simplify_eq.
  assert (Herr : has B_ERROR c = false) by (by apply (has_sub _ B_ODD)).
  assert (Hlck : has B_LOCKED c = false) by (by apply (has_sub _ B_ODD)).
  assert (Hinv : has B_INVAL c = false) by (revert Hk; unfold bkey; by destruct (has B_INVAL c)).
  unfold brelse_put. apply wp_bind. eapply wp_rd_ct; [exact Hc|]. intros b Eb _ _. rewrite (has_ct _ _ _ Eb), Herr. apply wp_bind, wp_ret.
  apply wp_bind. eapply wp_rd_ct; [exact Hc|]. intros b1 Eb1 _ _. rewrite has_lor, !(has_ct _ _ _ Eb1), Herr, Hinv, Hlck. cbn [orb].
  set (h := bfreelist_at (if has B_AGE c then BQ_AGE else BQ_LRU)).
  assert (h ∈ free_heads ∧ h ≠ bfreelist_at BQ_LOCKED) as [Hfh Hhl] by (subst h; destruct (has B_AGE c); split; done || by apply free_head).
  assert (Hnf : ∀ i, i ∈ free_heads → bp ∉ qf i).
  { intros i Hi' Hbi. destruct HP as (_ & _ & _ & _ & _ & P6). rewrite (proj2 (P6 bp c Hb Hc)) in Hbz; [done|eauto]. }
  apply wp_bind. eapply (wp_binstailfree s qf bp h); [exact HF|exact Hfh|exact Hb|rewrite Hc; eauto|exact Hnf|].
  intros s1 (E1 & C1 & N1 & P1) HF1. apply wp_ct; [auto with bflags|rewrite C1, Hc; eauto|]. intros s2 L2.
  rewrite <- C1 in Hc. pose proof (ct_step_at _ _ _ _ _ L2 Hc) as HC2. destruct L2 as (E2 & _ & N2 & P2 & N3 & P3).
  pose proof (same_env_data _ _ (same_env_trans _ _ _ E1 E2)) as [Ed Ek]. apply (HQ s2 qh qf h); try done.
  - eapply rings_ext; [..|exact Hh]; intros z; rewrite ?N2, ?P2; auto.
  - by eapply rings_ext.
  - intros z. rewrite HC2. case_decide; [done|apply C1].
Qed.

Lemma wp_brelse_put V H s bp k v (Q : unit → bst → Prop) :
  cinv V H None s → H !! bp = Some (k, v) → (∀ c, ctm s bp = Some c → has B_DONE c = true → v = V k) →
  (∀ s', cinv V (delete bp H) None s' → (∀ z, ctm s' z = if decide (z = bp) then released <$> ctm s z else ctm s z) → Q tt s') → wp (brelse_put bp) Q s.
Proof using phys_inj.
  intros Hi HHb Hv HQ. pose proof Hi as (_ & _ & _ & _ & _ & Hs0).
  pose proof (sem_held_info _ _ _ _ _ _ _ _ _ _ Hs0 HHb) as (Hb & Hg & c & Hc & Hk & _). clear Hs0.
  eapply wp_brelse_links; [exact Hi|exact HHb|exact Hc|]. intros s2 qh qf h c' Hh HF Hfh Hhl HP Hs HC Ed Ek.
  apply HQ; [|intros z; rewrite HC; case_decide; [subst; by rewrite Hc|done]].
  assert (Hkc : bkey c' = bkey c) by (unfold bkey, c', released; by bflags).
  exists qh, (qset qf h (qf h ++ [bp])). rewrite Ed, Ek. split_and!; [done|done| |].
  - eapply placed_release; [exact HP|exact Hb|exact Hc|exact Hfh|exact Hhl|by rewrite app_nil_r|exact Hkc|unfold c', released; by bflags|exact HC].
  - eapply sem_hstep; [exact phys_inj|exact Hs|exact HHb|exact Hc|exact HC|done|exact Hkc|done|intros; by rewrite lookup_delete_ne|done|done|].
    intros _ _ _ Hd (B1 & B2 & B3 & B4 & B5). unfold bok. rewrite Hkc, Hk, lookup_delete_eq. unfold c', released. bflags. split_and!; try done.
    + split; [done|]. intros [[? ?]|?]; done.
    + intros _. rewrite Hk in B5. destruct B5 as (? & ? & _); [done|]. split_and!; try done. intros Hdn. by rewrite <- (Hv c Hc Hdn).
Qed.

Lemma wp_wakeup V H X s ch (Q : unit → bst → Prop) :
  cinv V H X s → (∀ s', cinv V H X s' → bufs s' = bufs s → Q tt s') → wp (wakeup ch) Q s.
Proof. intros Hi HQ. apply wp_modify. apply HQ; [|done]. by eapply cinv_env. Qed.

Lemma cinv_free_head V H X s i : cinv V H X s → 0 ≤ i < BQUEUES → is_Some (ctm s (bfreelist_at i)).
Proof.
  intros (qh & qf & Hh & HF & _) Hi.
  assert (Hx : is_Some (gnm av_forw s (bfreelist_at i))) by (eapply (ring_some av_forw av_back); [apply HF; by apply free_head|by left]).
  revert Hx. unfold gnm, ctm. by rewrite !fmap_is_Some.
Qed.

Lemma wp_brelse V H s bp k v (Q : unit → bst → Prop) :
  cinv V H None s → H !! bp = Some (k, v) → (∀ c, ctm s bp = Some c → has B_DONE c = true → v = V k) →
  (∀ s', cinv V (delete bp H) None s' → (∀ z, isbuf z → ctm s' z = if decide (z = bp) then released <$> ctm s z else ctm s z) → Q tt s') → wp (brelse bp) Q s.
Proof using phys_inj.
  intros Hi HHb Hv HQ. pose proof Hi as (_ & _ & _ & _ & _ & Hs).
  pose proof (sem_held_info _ _ _ _ _ _ _ _ _ _ Hs HHb) as (Hb & _ & c & Hc & _). clear Hs.
  unfold brelse. apply wp_bind. eapply wp_rd_ct; [exact Hc|]. intros b _ _ _. apply wp_bind.
  apply (wp_mono _ (λ _ s1, cinv V H None s1 ∧ ∀ z, isbuf z → ctm s1 z = ctm s z)).
  { apply wp_when; [|done]. intros _. eapply wp_wakeup; [exact Hi|]. intros s1 Hi1 E. split; [done|]. unfold ctm. by rewrite E. }
  intros _ s1 [Hi1 E1]. apply wp_bind. destruct (cinv_free_head _ _ _ _ 0 Hi1) as [c0 Hc0]; [done|].
  eapply wp_rd_ct; [exact Hc0|]. intros f0 _ _ _. apply wp_bind.
  apply (wp_mono _ (λ _ s2, cinv V H None s2 ∧ ∀ z, isbuf z → ctm s2 z = ctm s z)).
  - apply wp_when; [|done]. intros _. apply wp_bind, wp_ct; [auto with bflags|rewrite Hc0; eauto|]. intros s2 L.
    eapply wp_wakeup; [eapply cinv_harmless; [apply harmless_unwant|exact L|exact Hi1]|]. intros s3 Hi3 E3. split; [done|]. intros z Hz.
    unfold ctm. rewrite E3. change (ctm s2 z = ctm s z). rewrite (ct_step_at _ _ _ _ _ L Hc0), decide_False; [by apply E1|].
    apply isbuf_not_head; [done|right; by apply free_head].
  - intros _ s2 [Hi2 E2]. eapply wp_brelse_put; [exact Hi2|exact HHb|by rewrite E2|]. intros s3 Hi3 E3. apply HQ; [done|].
    intros z Hz. by rewrite E3, E2.
Qed.

(** *** Transfers *)

(** Between two points of an operation only the header of [bp] changed. *)
Definition touched (bp : Z) (c' : buf) s s' : Prop :=
  hsame s s' ∧ fsame s s' ∧ ∀ z, ctm s' z = if decide (z = bp) then Some c' else ctm s z.

Lemma touched_refl bp c s : ctm s bp = Some c → touched bp c s s.
Proof. intros Hc. split_and!; [done|done|]. intros z. case_decide; [by subst|done]. Qed.

Lemma touched_env bp c s s1 s2 : touched bp c s s1 → bufs s2 = bufs s1 → touched bp c s s2.
Proof. unfold touched, hsame, fsame, ctm, gnm, gpm. by intros Ht ->. Qed.

Lemma touched_ct bp c f s s1 s2 : touched bp c s s1 → ct_step bp f s1 s2 → touched bp (f c) s s2 ∧ same_env s1 s2.
Proof.
  intros ([H1 H2] & [F1 F2] & HC) (E & C2 & N2 & P2 & N3 & P3). split; [|done]. split_and!.
  - split; intros z; by rewrite ?N2, ?P2.
  - split; intros z; by rewrite ?N3, ?P3.
  - intros z. rewrite C2, HC. by case_decide.
Qed.

Lemma wp_touch bp c f s s1 (Q : unit → bst → Prop) :
  touched bp c s s1 → plain f → (∀ s2, touched bp (f c) s s2 → same_env s1 s2 → Q tt s2) → wp (wrb bp f) Q s1.
Proof.
  intros Ht Hf HQ. apply wp_ct; [done| |]. { destruct Ht as (_ & _ & ->). rewrite decide_True by done. eauto. }
  intros s2 L. destruct (touched_ct _ _ _ _ _ _ Ht L). auto.
Qed.

Lemma wp_touch_rd bp c s s1 (Q : buf → bst → Prop) : touched bp c s s1 → (∀ b, ct b = c → Q b s1) → wp (rdb bp) Q s1.
Proof. intros (_ & _ & HC) HQ. eapply wp_rd_ct; [rewrite HC; by rewrite decide_True|]. auto. Qed.

(** After a step on a held buffer. *)
Lemma cinv_held V V' H H' s s' bp c c' k v :
  cinv V H None s → H !! bp = Some (k, v) → ctm s bp = Some c → touched bp c' s s' →
  b_addr c' = b_addr c → bkey c' = bkey c → has B_BUSY c' = true →
  (∀ a, a ≠ b_addr c → data s' !! a = data s !! a) → (∀ z, z ≠ bp → H' !! z = H !! z) →
  (∀ k', k' ≠ k → V' k' = V k') → (∀ p, p ≠ phys k → disk s' !! p = disk s !! p) →
  (bok phys good V H None (data s) (disk s) bp c → data s !! b_addr c = Some v → bok phys good V' H' None (data s') (disk s') bp c') →
  cinv V' H' None s'.
Proof using phys_inj.
  intros (qh & qf & Hh & HF & HP & Hs) HHb Hc ([H1 H2] & [F1 F2] & HC) Ha Hk Hbz Hd HH HV Hdk Hok.
  pose proof (sem_held_info _ _ _ _ _ _ _ _ _ _ Hs HHb) as (Hb & _ & c1 & Hc1 & Hkc & _ & Hbz1 & _). simplify_eq.
  exists qh, qf. split_and!; [by eapply rings_ext|by eapply rings_ext| |].
  - eapply (placed_same _ _ _ _ _ _ bp c c'); [exact HP|exact Hb|exact Hc|congruence|done| |exact HC]. intros k' _ Hk'. rewrite Hk in Hk'.
    by apply (proj1 (proj2 (proj2 HP)) bp c).
  - eapply sem_hstep; [exact phys_inj|exact Hs|exact HHb|exact Hc|exact HC|exact Ha|exact Hk|exact Hd|exact HH|exact HV|exact Hdk|auto].
Qed.

(** The block has been written: view, disk and buffer agree. *)
Lemma cinv_written V H s s' bp c c' k v :
  cinv V H None s → H !! bp = Some (k, v) → ctm s bp = Some c → touched bp c' s s' →
  b_addr c' = b_addr c → bkey c' = bkey c → has B_BUSY c' = true → has B_ODD c' = false → has B_DELWRI c' = false →
  data s' = data s → disk s' = <[phys k := v]> (disk s) → cinv (vset V k v) H None s'.
Proof using phys_inj.
  intros Hi HHb Hc Ht Ha Hk Hbz Hodd Hdw Hd Hdk.
  eapply cinv_held; [exact Hi|exact HHb|exact Hc|exact Ht|done|done|done|by rewrite Hd|done| | |].
  - intros k' ?. unfold vset. by rewrite decide_False.
  - intros p ?. rewrite Hdk. by rewrite lookup_insert_ne.
  - intros (B1 & B2 & B3 & B4 & B5) Hv. unfold bok. rewrite Hdw, Hbz, Hk, Ha, Hd, Hdk. rewrite HHb in B5 |- *. split_and!; try done.
    { split; [left; eauto|done]. }
    intros _. destruct (bkey c) as [k0|] eqn:Ek; [|destruct B5; done]. destruct B5 as (Hg & B6 & <- & _); [done|]. split_and!; try done.
    intros _. unfold dget, vset. rewrite lookup_insert_eq, decide_True by done. done.
Qed.

(** A delayed write: the buffer holds the view. *)
Lemma cinv_delayed V H s s' bp c c' k v :
  cinv V H None s → H !! bp = Some (k, v) → ctm s bp = Some c → touched bp c' s s' →
  b_addr c' = b_addr c → bkey c' = bkey c → has B_BUSY c' = true → has B_ODD c' = false → has B_DELWRI c' = true → has B_DONE c' = true →
  data s' = data s → disk s' = disk s → cinv (vset V k v) H None s'.
Proof using phys_inj.
  intros Hi HHb Hc Ht Ha Hk Hbz Hodd Hdw Hdn Hd Hdk.
  eapply cinv_held; [exact Hi|exact HHb|exact Hc|exact Ht|done|done|done|by rewrite Hd|done| |by rewrite Hdk|].
  - intros k' ?. unfold vset. by rewrite decide_False.
  - intros (B1 & B2 & B3 & B4 & B5) Hv. unfold bok. rewrite Hdw, Hbz, Hk, Ha, Hd, Hdk. rewrite HHb in B5 |- *. split_and!; try done.
    { split; [left; eauto|done]. }
    intros _. destruct (bkey c) as [k0|] eqn:Ek; [|destruct B5; done]. destruct B5 as (Hg & B6 & <- & _); done.
Qed.

(** A block has been read into a buffer that has nothing to write back. *)
Lemma cinv_read V H s s' bp c c' k v :
  cinv V H None s → H !! bp = Some (k, v) → ctm s bp = Some c → touched bp c' s s' → has B_DELWRI c = false →
  b_addr c' = b_addr c → bkey c' = bkey c → has B_BUSY c' = true → has B_ODD c' = false → has B_DELWRI c' = false →
  data s' = <[b_addr c := dget (disk s) (phys k)]> (data s) → disk s' = disk s → cinv V (<[bp := (k, V k)]> H) None s'.
Proof using phys_inj.
  intros Hi HHb Hc Ht Hdw0 Ha Hk Hbz Hodd Hdw Hd Hdk.
  eapply cinv_held; [exact Hi|exact HHb|exact Hc|exact Ht|done|done|done| | |done|by rewrite Hdk|].
  - intros a ?. rewrite Hd. by rewrite lookup_insert_ne.
  - intros z ?. by rewrite lookup_insert_ne.
  - intros (B1 & B2 & B3 & B4 & B5) Hv. unfold bok. rewrite Hdw, Hbz, Hk, Ha, Hd, Hdk, !lookup_insert_eq. rewrite HHb in B5. split_and!; try done.
    { split; [left; eauto|done]. }
    intros _. destruct (bkey c) as [k0|] eqn:Ek; [|destruct B5; done]. destruct B5 as (Hg & B6 & <- & _); [done|].
    split_and!; [done|auto|done|]. by rewrite B6.
Qed.
End ops.
End Cache.
