(* ===== verification/CacheIO.v ===== *)
(** * The operations of the buffer cache

    Specifications of [bwrite], [bawrite], [bdwrite], [getnewbuf], [getblk],
    [bread] and [bflush] over the invariant of Cache, for any driver that
    transfers the block before it returns, and the SD card as such a driver. *)

From S2P Require Import Prelude Links Bio Cache.
Import Bio Cache.

(** What the cache asks of a driver: the transfer of a valid block, then
    [biodone]. *)
Definition transfer (phys : key → key) (b : buf) (s : bst) : bst :=
  let k := (b_dev b, b_blkno b) in
  if has B_READ b then set_data (<[b_addr b := dget (disk s) (phys k)]> (data s)) s
  else set_disk (<[phys k := default zero_block (data s !! b_addr b)]> (disk s)) s.

Class Driver (strategy : Z → M bst unit) (phys : key → key) (good : key → Prop) : Prop := {
  drv_inj : ∀ k k', good k → good k' → phys k = phys k' → k = k';
  drv_ok : ∀ s bp b k, bufs s !! bp = Some b → bkey b = Some k → good k → b_bcount b = DEV_BSIZE → is_Some (data s !! b_addr b) →
    strategy bp s = biodone bp (transfer phys b s)
}.

Module CacheIO.
#[local] Set Default Proof Using "Type".

(** ** Hash chains *)

Section chains.
Implicit Types (s : bst).

Definition matches (dev blkno : Z) (c : buf) : bool := (b_blkno c =? blkno) && (b_dev c =? dev) && negb (has B_INVAL c).

Lemma matches_key dev blkno c : dev ≠ NODEV → matches dev blkno c = true ↔ bkey c = Some (dev, blkno).
Proof.
  intros Hdev. unfold matches, bkey. destruct (has B_INVAL c); cbn [negb orb]; [rewrite andb_false_r; done|]. rewrite andb_true_r.
  rewrite andb_true_iff, !Z.eqb_eq. destruct (Z.eqb_spec (b_dev c) NODEV); split; [intros [? ?]; congruence|done|intros [-> ->]; done|intros [= -> ->]; done].
Qed.

Lemma chain_short s qh qf X (C : Z → option buf) h : hrings s hash_heads qh → placed X qh qf C → h ∈ hash_heads → (length (qh h) <= Z.to_nat NBUF)%nat.
Proof.
  intros [HR _] (P1 & _) Hh. destruct (HR h Hh) as [_ [_ Hnd]%NoDup_cons].
  rewrite <- (length_seqZ (buf_at 0) NBUF). apply submseteq_length. apply NoDup_submseteq; [done|].
  intros z Hz. apply elem_of_seqZ. specialize (P1 h z Hh Hz). unfold isbuf, buf_at in *. lia.
Qed.

Lemma wp_hash_find s qh dp dev blkno l2 : ∀ l1 fuel (Q : Z → bst → Prop),
  hrings s hash_heads qh → dp ∈ hash_heads → (∀ z, z ∈ l2 → isbuf z) → qh dp = l1 ++ l2 → (length l2 < fuel)%nat →
  ((∀ z c, z ∈ l2 → ctm s z = Some c → matches dev blkno c = false) → Q 0 s) →
  (∀ bp c, bp ∈ l2 → ctm s bp = Some c → matches dev blkno c = true → Q bp s) →
  wp (hash_find fuel (after dp l2) dp dev blkno) Q s.
Proof.
  induction l2 as [|bp l2 IH]; intros l1 fuel Q HR Hdp Hb Hq Hf HQ0 HQ1; (destruct fuel as [|fuel]; [simpl in Hf; lia|]); cbn [hash_find].
  - change (after dp []) with dp. rewrite Z.eqb_refl. apply wp_ret, HQ0. intros z c Hz. by apply elem_of_nil in Hz.
  - change (after dp (bp :: l2)) with bp. assert (Hbp : isbuf bp) by (apply Hb; by left).
    rewrite (proj2 (Z.eqb_neq bp dp)) by (apply isbuf_not_head; auto).
    pose proof HR as [HR0 _]. specialize (HR0 dp Hdp). rewrite Hq in HR0. destruct (ring_at _ _ _ _ _ _ HR0) as (E1 & _).
    assert (is_Some (ctm s bp)) as [c Hc] by (unfold gnm in E1; unfold ctm; destruct (bufs s !! bp); [eauto|done]).
    apply wp_bind. eapply wp_rd_ct; [exact Hc|]. intros b Eb Ef _. rewrite E1 in Ef. injection Ef as Ef.
    assert (Hm : (b_blkno b =? blkno) && (b_dev b =? dev) && negb (has B_INVAL b) = matches dev blkno c) by (by rewrite <- Eb). rewrite Hm.
    destruct (matches dev blkno c) eqn:Em; [apply wp_ret; eapply HQ1; [by left|done|done]|].
    rewrite Ef. eapply (IH (l1 ++ [bp])); [done|done|intros; apply Hb; by right|by rewrite <- app_assoc|simpl in Hf; lia| |].
    + intros Hno. apply HQ0. intros z cz [->|Hz]%elem_of_cons; [congruence|by apply Hno].
    + intros z cz Hz. apply HQ1. by right.
Qed.

Lemma wp_binshash s qh bp dp (Q : unit → bst → Prop) :
  hrings s hash_heads qh → dp ∈ hash_heads → isbuf bp → is_Some (ctm s bp) → (∀ i, i ∈ hash_heads → bp ∉ qh i) →
  (∀ s', hash_step s s' → hrings s' hash_heads (qset qh dp (bp :: qh dp)) → Q tt s') → wp (binshash bp dp) Q s.
Proof.
  intros HH Hdp Hb Hc Hnq HQ. pose proof HH as [HR _]. pose proof (HR dp Hdp) as Hr.
  destruct (ring_around _ _ _ [] _ Hr) as [E1 E2]. change (before dp []) with dp in E1, E2.
  assert (Hbh : ∀ i, i ∈ hash_heads → bp ≠ i ∧ bp ∉ qh i) by (intros; split; [apply isbuf_not_head; auto|auto]).
  assert (Hin : after dp (qh dp) = dp ∨ after dp (qh dp) ∈ qh dp) by (destruct (after_cases dp (qh dp)) as [[_ ?]|(? & ? & -> & ->)]; set_solver).
  assert (is_Some (gpm b_back s dp)) as [a Ha] by (apply (gpm_some b_forw b_back); rewrite E1; eauto).
  eapply (wp_binshash_like b_forw b_back set_b_forw set_b_back hcore); [done..|exact E1|exact Ha|by apply Hbh| | | |].
  - destruct (Hbh dp Hdp). intros Eb. rewrite Eb in Hin. destruct Hin; done.
  - revert Hc. unfold ctm, gnm. by rewrite !fmap_is_Some.
  - by apply (ring_some b_forw b_back s dp (qh dp)).
  - intros s' L. apply HQ; [by eapply linked_hash|].
    eapply (rings_insert b_forw b_back set_b_forw set_b_back hcore) with (l1 := []); [done..|exact HH|exact Hdp|done|exact Hbh|exact L].
Qed.

(** The new buffer moves to the chain of its block. *)
Lemma placed_rehash bp qh qf (C : Z → option buf) dp h l1 l2 :
  placed (Some bp) qh qf C → isbuf bp → dp ∈ hash_heads → h ∈ hash_heads → qh h = l1 ++ bp :: l2 →
  let qh1 := qset qh h (l1 ++ l2) in placed (Some bp) (qset qh1 dp (bp :: qh1 dp)) qf C.
Proof.
  intros (P1 & P2 & P3 & P4 & P5 & P6) Hb Hdp Hh Hq qh1.
  assert (Hin : ∀ i z, z ∈ qset qh1 dp (bp :: qh1 dp) i ↔ (i = dp ∧ z = bp) ∨ z ∈ qh1 i).
  { intros i z. unfold qset at 1. case_decide; [subst; rewrite elem_of_cons; naive_solver|naive_solver]. }
  assert (Hin1 : ∀ i z, z ∈ qh1 i → z ∈ qh i).
  { intros i z. unfold qh1, qset. case_decide; [|done]. subst i. rewrite Hq, !elem_of_app, elem_of_cons. tauto. }
  assert (Hin2 : ∀ i z, z ≠ bp → z ∈ qh i → z ∈ qh1 i).
  { intros i z Hz. unfold qh1, qset. case_decide; [|done]. subst i. rewrite Hq, !elem_of_app, elem_of_cons. tauto. }
  split_and!; [| | |done|done|done].
  - intros i z Hi [[-> ->]|?%Hin1]%Hin; eauto.
  - intros z Hz. destruct (decide (z = bp)) as [->|Hne]; [exists dp; split; [done|]; apply Hin; auto|].
    destruct (P2 z Hz) as (i & Hi & Hzi). exists i. split; [done|]. apply Hin. right. by apply Hin2.
  - intros z c k Hz HX Hc Hk. apply Hin. right. apply Hin2; [congruence|]. eauto.
Qed.

(** The search of [bflush] through one free list and through all of them. *)
Definition dirty (dev : Z) (c : buf) : bool := has B_DELWRI c && (dev =? b_dev c).

Lemma wp_bflush_list s qf h dev l2 : ∀ l1 fuel (Q : Z → bst → Prop),
  frings s free_heads qf → h ∈ free_heads → (∀ z, z ∈ l2 → isbuf z) → qf h = l1 ++ l2 → (length l2 < fuel)%nat →
  ((∀ z c, z ∈ l2 → ctm s z = Some c → dirty dev c = false) → Q 0 s) →
  (∀ bp c, bp ∈ l2 → ctm s bp = Some c → dirty dev c = true → Q bp s) →
  wp (bflush_list fuel (after h l2) h dev) Q s.
Proof.
  induction l2 as [|bp l2 IH]; intros l1 fuel Q HR Hh Hb Hq Hf HQ0 HQ1; (destruct fuel as [|fuel]; [simpl in Hf; lia|]); cbn [bflush_list].
  - change (after h []) with h. rewrite Z.eqb_refl. apply wp_ret, HQ0. intros z c Hz. by apply elem_of_nil in Hz.
  - change (after h (bp :: l2)) with bp. assert (Hbp : isbuf bp) by (apply Hb; by left).
    rewrite (proj2 (Z.eqb_neq bp h)) by (apply isbuf_not_head; auto).
    pose proof HR as [HR0 _]. specialize (HR0 h Hh). rewrite Hq in HR0. destruct (ring_at _ _ _ _ _ _ HR0) as (E1 & _).
    assert (is_Some (ctm s bp)) as [c Hc] by (unfold gnm in E1; unfold ctm; destruct (bufs s !! bp); [eauto|done]).
    apply wp_bind. eapply wp_rd_ct; [exact Hc|]. intros b Eb _ Ef. rewrite E1 in Ef. injection Ef as Ef.
    assert (Hm : has B_DELWRI b && (dev =? b_dev b) = dirty dev c) by (by rewrite <- Eb). rewrite Hm.
    destruct (dirty dev c) eqn:Em; [apply wp_ret; eapply HQ1; [by left|done|done]|].
    rewrite Ef. eapply (IH (l1 ++ [bp])); [done|done|intros; apply Hb; by right|by rewrite <- app_assoc|simpl in Hf; lia| |].
    + intros Hno. apply HQ0. intros z cz [->|Hz]%elem_of_cons; [congruence|by apply Hno].
    + intros z cz Hz. apply HQ1. by right.
Qed.

Lemma free_short s qh qf X (C : Z → option buf) h : frings s free_heads qf → placed X qh qf C → h ∈ free_heads → (length (qf h) <= Z.to_nat NBUF)%nat.
Proof.
  intros [HR _] (_ & _ & _ & P4 & _) Hh. destruct (HR h Hh) as [_ [_ Hnd]%NoDup_cons].
  rewrite <- (length_seqZ (buf_at 0) NBUF). apply submseteq_length. apply NoDup_submseteq; [done|].
  intros z Hz. apply elem_of_seqZ. specialize (P4 h z Hh Hz). unfold isbuf, buf_at in *. lia.
Qed.

Lemma wp_bflush_scan s qh qf X (C : Z → option buf) dev n : ∀ i (Q : Z → bst → Prop),
  frings s free_heads qf → placed X qh qf C → 0 ≤ i → i + Z.of_nat n = BQUEUES →
  ((∀ j z c, i ≤ j < BQUEUES → z ∈ qf (bfreelist_at j) → ctm s z = Some c → dirty dev c = false) → Q 0 s) →
  (∀ bp c h, h ∈ free_heads → bp ∈ qf h → isbuf bp → ctm s bp = Some c → dirty dev c = true → Q bp s) →
  wp (bflush_scan n i dev) Q s.
Proof.
  induction n as [|n IH]; intros i Q HF HP Hi Hn HQ0 HQ1; cbn [bflush_scan]; [apply wp_ret, HQ0; intros; lia|].
  assert (Hh : bfreelist_at i ∈ free_heads) by (apply free_head; lia). pose proof HF as [HR _].
  destruct (ring_around _ _ _ [] _ (HR _ Hh)) as [E1 _]. change (before (bfreelist_at i) []) with (bfreelist_at i) in E1.
  unfold gnm in E1. destruct (bufs s !! bfreelist_at i) as [b|] eqn:Eb; [|done]. injection E1 as E1.
  apply wp_bind. eapply wp_load; [exact Eb|]. rewrite E1. apply wp_bind. pose proof HP as (_ & _ & _ & P4 & _).
  eapply (wp_bflush_list s qf (bfreelist_at i) dev (qf (bfreelist_at i)) []); [done|done|intros; by eapply P4|done| | |].
  - pose proof (free_short _ _ _ _ _ _ HF HP Hh). unfold chain_fuel. lia.
  - intros Hno. rewrite Z.eqb_refl. eapply IH; [done|done|lia|lia| |done]. intros Hno1. apply HQ0. intros j z c Hj.
    destruct (decide (j = i)) as [->|]; [apply Hno|]. apply (Hno1 j). lia.
  - intros bp c Hin Hc Hd. assert (Hb : isbuf bp) by (by eapply P4).
    rewrite (proj2 (Z.eqb_neq bp 0)) by (unfold isbuf, buf_at in Hb; lia). apply wp_ret. by eapply HQ1.
Qed.
End chains.

(** ** The operations *)

Section io.
Context (sleep : Z → Z → M bst unit) (strategy : Z → M bst unit) (is_tape : Z → bool).
Context {phys : key → key} {good : key → Prop} `{!Driver strategy phys good}.
Implicit Types (V : key → block) (H : gmap Z (key * block)) (s : bst).
Notation cinv := (cinv phys good).

(** Between operations no transfer is under way, and none was short. *)
Definition calm (c : buf) : Prop := has B_ASYNC c = false ∧ b_resid c = 0.

(** The state of the cache between operations, for its users. *)
Definition cache V H s : Prop := cinv V H None s ∧ ∀ z c, isbuf z → ctm s z = Some c → calm c.

Lemma bkey_of b k : bkey b = Some k → k = (b_dev b, b_blkno b).
Proof. unfold bkey. destruct (has B_INVAL b || (b_dev b =? NODEV)); [done|congruence]. Qed.

Lemma wp_strategy s bp c k (Q : unit → bst → Prop) :
  ctm s bp = Some c → bkey c = Some k → good k → b_bcount c = DEV_BSIZE → is_Some (data s !! b_addr c) →
  wp (biodone bp) Q (transfer phys c s) → wp (strategy bp) Q s.
Proof using Type*.
  unfold ctm. destruct (bufs s !! bp) as [b|] eqn:E; [|done]. intros [= <-] Hk Hg Hn Hd HQ.
  change (bkey b = Some k) in Hk. change (b_bcount b = DEV_BSIZE) in Hn. change (is_Some (data s !! b_addr b)) in Hd.
  revert HQ. rewrite !wp_run. by rewrite (drv_ok s bp b k E Hk Hg Hn Hd).
Qed.

Definition env_same s s' : Prop := data s' = data s ∧ disk s' = disk s ∧ u_error s' = u_error s.

Lemma env_of s s' : same_env s s' → env_same s s'.
Proof. unfold same_env. intros ->. done. Qed.

Lemma wp_biodone_sync s0 s bp c (Q : unit → bst → Prop) :
  touched bp c s0 s → has B_DONE c = false → has B_ASYNC c = false →
  (∀ s', touched bp (and_not_flags B_WANTED (or_flags B_DONE c)) s0 s' → env_same s s' → Q tt s') → wp (biodone bp) Q s.
Proof.
  intros Ht Hdn Has HQ. unfold biodone. apply wp_bind. eapply wp_touch_rd; [exact Ht|]. intros b Eb. rewrite (has_ct _ _ _ Eb), Hdn.
  apply wp_bind. eapply wp_touch; [exact Ht|done|]. intros s1 T1 E1%env_of. apply wp_bind. eapply wp_touch_rd; [exact T1|]. intros b1 Eb1.
  rewrite (has_ct _ _ _ Eb1). assert (has B_ASYNC (or_flags B_DONE c) = false) as -> by (by bflags).
  apply wp_bind. eapply wp_touch; [exact T1|done|]. intros s2 T2 E2%env_of. apply wp_modify. apply HQ; [by eapply touched_env|].
  destruct E1 as (? & ? & ?), E2 as (? & ? & ?). unfold env_same. simpl. split_and!; congruence.
Qed.

Lemma wp_biodone_async s0 s bp c (Q : unit → bst → Prop) :
  touched bp c s0 s → has B_DONE c = false → has B_ASYNC c = true →
  (∀ s', touched bp (or_flags B_DONE c) s0 s' → env_same s s' → wp (brelse bp) Q s') → wp (biodone bp) Q s.
Proof.
  intros Ht Hdn Has HQ. unfold biodone. apply wp_bind. eapply wp_touch_rd; [exact Ht|]. intros b Eb. rewrite (has_ct _ _ _ Eb), Hdn.
  apply wp_bind. eapply wp_touch; [exact Ht|done|]. intros s1 T1 E1%env_of. apply wp_bind. eapply wp_touch_rd; [exact T1|]. intros b1 Eb1.
  rewrite (has_ct _ _ _ Eb1). assert (has B_ASYNC (or_flags B_DONE c) = true) as -> by (by bflags). auto.
Qed.

Lemma keeps_brelse bp : keeps u_error (brelse bp).
Proof.
  assert (Hw : ∀ p f, keeps u_error (wrb p f)).
  { intros p f. apply keeps_store. intros s s'. destruct (bufs s !! p); [|done]. by intros [= <-]. }
  unfold brelse, binsheadfree, binstailfree, wakeup, rdb. keeps_tac.
Qed.

(** What [bwrite] hands to the driver. *)
Definition wr_header (c : buf) : buf := set_b_bcount DEV_BSIZE (and_not_flags (Z.lor B_READ (Z.lor B_DONE (Z.lor B_ERROR B_DELWRI))) c).

Lemma wr_header_key c : bkey (wr_header c) = bkey c.
Proof. unfold wr_header, bkey. by bflags. Qed.

(** The common part of [bwrite] and [bawrite], up to the end of the transfer. *)
Lemma wp_write_transfer s0 s bp c c1 k v (flag : buf) (rest : M bst unit) (Q : unit → bst → Prop) :
  touched bp c1 s0 s → data s = data s0 → disk s = disk s0 → bkey c1 = Some k → good k → b_addr c1 = b_addr c → data s0 !! b_addr c = Some v →
  (∀ s', touched bp (wr_header c1) s0 s' → data s' = data s0 → disk s' = <[phys k := v]> (disk s0) → u_error s' = u_error s → wp (biodone bp) (λ _, wp rest Q) s') →
  wp (wrb bp (and_not_flags (Z.lor B_READ (Z.lor B_DONE (Z.lor B_ERROR B_DELWRI))));;
      when (negb (has B_DELWRI flag)) (modify (λ s, set_ru_oublock (ru_oublock s + 1) s));;
      wrb bp (set_b_bcount DEV_BSIZE);;
      strategy bp;;
      rest) Q s.
Proof using Type*.
  intros Ht Ed Ek Hk Hg Ha Hv HQ. apply wp_bind. eapply wp_touch; [exact Ht|done|]. intros s1 T1 (D1 & K1 & U1)%env_of. apply wp_bind.
  apply (wp_mono _ (λ _ s2, bufs s2 = bufs s1 ∧ env_same s1 s2)).
  { apply wp_when; [|done]. intros _. by apply wp_modify. }
  intros _ s2 (E2 & D2 & K2 & U2). apply wp_bind. eapply wp_touch; [eapply touched_env; [exact T1|exact E2]|done|].
  intros s3 T3 (D3 & K3 & U3)%env_of. fold (wr_header c1) in T3.
  assert (Hc3 : ctm s3 bp = Some (wr_header c1)) by (destruct T3 as (_ & _ & ->); by rewrite decide_True).
  assert (Hd3 : data s3 !! b_addr (wr_header c1) = Some v) by (change (b_addr (wr_header c1)) with (b_addr c1); congruence).
  apply wp_bind. eapply wp_strategy; [exact Hc3|by rewrite wr_header_key|done|done|rewrite Hd3; eauto|].
  unfold transfer. assert (has B_READ (wr_header c1) = false) as -> by (unfold wr_header; by bflags).
  apply HQ; [by eapply touched_env|simpl; congruence| |simpl; congruence].
  pose proof (bkey_of _ _ (eq_trans (wr_header_key c1) Hk)) as <-. rewrite Hd3. simpl. congruence.
Qed.

Lemma wp_biowait fuel s bp c (Q : unit → bst → Prop) :
  ctm s bp = Some c → has B_DONE c = true → has B_ERROR c = false → (∀ s', bufs s' = bufs s → env_same s s' → Q tt s') →
  wp (biowait sleep (S fuel) bp) Q s.
Proof.
  intros Hc Hdn Her HQ. unfold biowait. apply wp_bind. cbn [biowait_loop]. apply wp_bind. eapply wp_rd_ct; [exact Hc|]. intros b Eb _ _.
  rewrite (has_ct _ _ _ Eb), Hdn. apply wp_ret, wp_bind, wp_gets. destruct (Z.eqb_spec (u_error s) 0) as [E|_]; [|apply wp_ret; by apply HQ].
  apply wp_bind. unfold geterror. apply wp_bind. eapply wp_rd_ct; [exact Hc|]. intros b1 Eb1 _ _. rewrite (has_ct _ _ _ Eb1), Her.
  apply wp_ret, wp_modify, HQ; [done|]. split_and!; done.
Qed.

Lemma cache_env V H s s' : bufs s' = bufs s → env_same s s' → cache V H s → cache V H s'.
Proof.
  intros Hb (Hd & Hk & _) [Hi Ha]. split; [by eapply cinv_env|]. intros z c Hz. unfold ctm. rewrite Hb. by apply Ha.
Qed.

(** The headers other than [bp]. *)
Definition others (bp : Z) s s' : Prop := ∀ z, isbuf z → z ≠ bp → ctm s' z = ctm s z.

Lemma cache_held V H s bp k v : cache V H s → H !! bp = Some (k, v) →
  isbuf bp ∧ good k ∧ ∃ c, ctm s bp = Some c ∧ bkey c = Some k ∧ data s !! b_addr c = Some v ∧ has B_BUSY c = true ∧ has B_ODD c = false ∧
    calm c ∧ (has B_DELWRI c = true → has B_DONE c = true).
Proof.
  intros [(qh & qf & _ & _ & _ & Hs) Has] HHb. destruct (sem_held_info _ _ _ _ _ _ _ _ _ _ Hs HHb) as (Hb & Hg & c & Hc & Hk & Hd & Hbz & Hodd & Hdel & _).
  split_and!; [done..|]. exists c. split_and!; eauto.
Qed.

(** Releasing, once the buffer agrees with the view. *)
Lemma wp_brelse_done V H s0 s bp k v (Q : unit → bst → Prop) :
  cinv V H None s → H !! bp = Some (k, v) → (∀ c, ctm s bp = Some c → has B_DONE c = true → v = V k) → others bp s0 s →
  (∀ z c, isbuf z → z ≠ bp → ctm s0 z = Some c → calm c) → (∀ c, ctm s bp = Some c → b_resid c = 0) →
  (∀ s', cache V (delete bp H) s' → u_error s' = u_error s → others bp s0 s' → ctm s' bp = released <$> ctm s bp → Q tt s') → wp (brelse bp) Q s.
Proof using Driver0.
  intros Hi HHb Hv Ho Has Hr HQ. pose proof Hi as (_ & _ & _ & _ & _ & Hs).
  pose proof (sem_held_info _ _ _ _ _ _ _ _ _ _ Hs HHb) as (Hb & _).
  apply (wp_mono _ (λ _ s', (cinv V (delete bp H) None s' ∧ ∀ z, isbuf z → ctm s' z = if decide (z = bp) then released <$> ctm s z else ctm s z) ∧ u_error s' = u_error s)).
  { apply wp_frame; [apply keeps_brelse|]. eapply wp_brelse; [apply drv_inj|exact Hi|exact HHb|exact Hv|auto]. }
  intros [] s' [[Hi' HC] Hu]. apply HQ; [|done| |by rewrite HC, decide_True].
  - split; [done|]. intros z c Hz. rewrite HC by done. case_decide as Hd; [|rewrite Ho by done; by apply Has].
    subst z. destruct (ctm s bp) as [c1|] eqn:E1; [|done]. intros [= <-]. split; [unfold released; by bflags|].
    change (b_resid c1 = 0). by apply Hr.
  - intros z Hz Hne. rewrite HC, decide_False by done. auto.
Qed.

Lemma wp_bwrite_others V H s fuel bp k v (Q : unit → bst → Prop) :
  cache V H s → H !! bp = Some (k, v) → (∀ s' c', cache (vset V k v) (delete bp H) s' → u_error s' = u_error s → others bp s s' → ctm s' bp = Some c' → has B_DELWRI c' = false → Q tt s') →
  wp (bwrite sleep strategy (S fuel) bp) Q s.
Proof using Driver0.
  intros Hca HHb HQ. pose proof (cache_held _ _ _ _ _ _ Hca HHb) as (Hb & Hg & c & Hc & Hk & Hd & Hbz & Hodd & [Has Hrs] & _).
  pose proof (touched_refl _ _ _ Hc) as T0. destruct Hca as [Hi Hasy].
  unfold bwrite. apply wp_bind. eapply wp_rd_ct; [exact Hc|]. intros b Eb _ _. cbv zeta.
  eapply (wp_write_transfer s s bp c c k v b); [done..|]. intros s1 T1 D1 K1 U1.
  eapply wp_biodone_sync; [exact T1|unfold wr_header; by bflags|unfold wr_header; by bflags|]. intros s2 T2 (D2 & K2 & U2).
  set (c2 := and_not_flags B_WANTED (or_flags B_DONE (wr_header c))) in *.
  assert (Hk2 : bkey c2 = bkey c) by (unfold c2, wr_header, bkey; by bflags).
  assert (Hi2 : cinv (vset V k v) H None s2).
  { eapply (cinv_written _ _ drv_inj V H s s2 bp c c2); [exact Hi|exact HHb|exact Hc|exact T2|done|done|unfold c2, wr_header; by bflags| |unfold c2, wr_header; by bflags|congruence|congruence].
    unfold c2. apply has_and_not_false. bflags. unfold wr_header. bflags. by apply has_and_not_false. }
  rewrite (has_ct _ _ _ Eb), Has. cbn [negb].
  assert (Hc2 : ctm s2 bp = Some c2) by (destruct T2 as (_ & _ & ->); by rewrite decide_True).
  apply wp_bind. eapply wp_biowait; [exact Hc2|unfold c2; by bflags|unfold c2, wr_header; by bflags|]. intros s3 B3 (D3 & K3 & U3).
  assert (HC3 : ∀ z, ctm s3 z = ctm s2 z) by (intros z; unfold ctm; by rewrite B3).
  eapply (wp_brelse_done (vset V k v) H s); [by eapply cinv_env|exact HHb| | |eauto|intros c3; rewrite HC3, Hc2; by intros [= <-]|].
  - intros _ _ _. unfold vset. by rewrite decide_True.
  - intros z Hz Hne. rewrite HC3. destruct T2 as (_ & _ & ->). by rewrite decide_False.
  - intros s4 Hca4 U4 O4 C4. rewrite HC3, Hc2 in C4. eapply HQ; [done|congruence|done|exact C4|]. unfold released, c2, wr_header. by bflags.
Qed.

Lemma wp_bwrite V H s fuel bp k v (Q : unit → bst → Prop) :
  cache V H s → H !! bp = Some (k, v) → (∀ s', cache (vset V k v) (delete bp H) s' → u_error s' = u_error s → Q tt s') →
  wp (bwrite sleep strategy (S fuel) bp) Q s.
Proof using Driver0. intros Hca HHb HQ. eapply wp_bwrite_others; [exact Hca|exact HHb|]. intros s' c' ? ? _ _ _. by apply HQ. Qed.

Lemma others_trans bp s s1 s2 : others bp s s1 → others bp s1 s2 → others bp s s2.
Proof. intros H1 H2 z Hz Hne. rewrite H2 by done. auto. Qed.

Lemma others_touched bp c s s' : touched bp c s s' → others bp s s'.
Proof. intros (_ & _ & HC) z _ Hne. by rewrite HC, decide_False. Qed.

(** The asynchronous write releases the buffer when the transfer is done. *)
Lemma wp_bwrite_async V H s fuel bp k v c (Q : unit → bst → Prop) :
  cinv V H None s → (∀ z c, isbuf z → z ≠ bp → ctm s z = Some c → calm c) → H !! bp = Some (k, v) →
  ctm s bp = Some c → has B_ASYNC c = true → b_resid c = 0 →
  (∀ s' c', cache (vset V k v) (delete bp H) s' → u_error s' = u_error s → others bp s s' → ctm s' bp = Some c' → has B_DELWRI c' = false → bkey c' = Some k → Q tt s') →
  wp (bwrite sleep strategy fuel bp) Q s.
Proof using Driver0.
  intros Hi Hasy HHb Hc Has Hr HQ. pose proof Hi as (_ & _ & _ & _ & _ & Hs).
  pose proof (sem_held_info _ _ _ _ _ _ _ _ _ _ Hs HHb) as (Hb & Hg & c1 & Hc1 & Hk & Hd & Hbz & Hodd & _). simplify_eq. clear Hs.
  unfold bwrite. apply wp_bind. eapply wp_rd_ct; [exact Hc|]. intros b Eb _ _. cbv zeta.
  eapply (wp_write_transfer s s bp c c k v b); [by apply touched_refl|done..|]. intros s2 T2 D2 K2 U2.
  eapply wp_biodone_async; [exact T2|unfold wr_header; by bflags|unfold wr_header; by bflags|]. intros s3 T3 (D3 & K3 & U3).
  set (c3 := or_flags B_DONE (wr_header c)) in *.
  assert (Hi3 : cinv (vset V k v) H None s3).
  { eapply (cinv_written _ _ drv_inj V H s s3 bp c c3); [exact Hi|exact HHb|exact Hc|exact T3|done|unfold c3, wr_header, bkey; by bflags|unfold c3, wr_header; by bflags| |unfold c3, wr_header; by bflags|congruence|congruence].
    unfold c3, wr_header. bflags. by apply has_and_not_false. }
  assert (Hc3 : ctm s3 bp = Some c3) by (destruct T3 as (_ & _ & ->); by rewrite decide_True).
  eapply (wp_brelse_done (vset V k v) H s); [exact Hi3|exact HHb| |by eapply others_touched|exact Hasy|intros c4; rewrite Hc3; by intros [= <-]|].
  { intros _ _ _. unfold vset. by rewrite decide_True. }
  intros s4 [Hi4 Ha4] U4 O4 C4. rewrite Hc3 in C4. simpl in C4.
  assert (Hdw : has B_DELWRI (released c3) = false) by (unfold released, c3, wr_header; by bflags).
  assert (Hk4 : bkey (released c3) = Some k) by (rewrite <- Hk; unfold bkey, released, c3, wr_header; by bflags).
  rewrite (has_ct _ _ _ Eb), Has. cbn [negb].
  apply wp_when; [|intros _; eapply HQ; [by split|congruence|done|done|done|done]]. intros _.
  apply wp_ct; [auto with bflags|rewrite C4; eauto|]. intros s5 L. pose proof (ct_step_at _ _ _ _ _ L C4) as C5.
  assert (O5 : others bp s4 s5) by (intros z _ Hne; by rewrite C5, decide_False).
  eapply HQ; [split; [eapply cinv_harmless; [apply harmless_age|exact L|exact Hi4]|]| |by eapply others_trans|by rewrite C5, decide_True|by bflags|unfold bkey in *; by bflags].
  - intros z cz Hz. rewrite C5. case_decide; [|by apply Ha4]. intros [= <-]. destruct (Ha4 bp (released c3) Hb C4) as [? ?]. split; [by bflags|done].
  - destruct L as [(_ & _ & ->)%env_of _]. congruence.
Qed.

Lemma harmless_async : harmless (or_flags B_ASYNC).
Proof. intros c. unfold bkey. by bflags. Qed.

Lemma wp_bawrite V H s fuel bp k v (Q : unit → bst → Prop) :
  cache V H s → H !! bp = Some (k, v) →
  (∀ s' c', cache (vset V k v) (delete bp H) s' → u_error s' = u_error s → others bp s s' → ctm s' bp = Some c' → has B_DELWRI c' = false → bkey c' = Some k → Q tt s') →
  wp (bawrite sleep strategy fuel bp) Q s.
Proof using Driver0.
  intros Hca HHb HQ. pose proof (cache_held _ _ _ _ _ _ Hca HHb) as (Hb & Hg & c & Hc & Hk & Hd & Hbz & Hodd & [Has Hrs] & _).
  destruct Hca as [Hi Hasy]. unfold bawrite. apply wp_bind, wp_ct; [done|eauto|]. intros s1 L. pose proof (ct_step_at _ _ _ _ _ L Hc) as C1.
  assert (O1 : others bp s s1) by (intros z _ Hne; by rewrite C1, decide_False).
  eapply (wp_bwrite_async V H s1 fuel bp k v (or_flags B_ASYNC c)); [eapply cinv_harmless; [apply harmless_async|exact L|exact Hi]| |exact HHb|by rewrite C1, decide_True|by bflags|done|].
  - intros z cz Hz Hne. rewrite O1 by done. by apply Hasy.
  - destruct L as [(_ & _ & U1)%env_of _]. intros s' c' Hca' U' O' Hc' Hd' Hk'. eapply HQ; [exact Hca'|congruence|by eapply others_trans|done..].
Qed.

Lemma wp_bdwrite V H s fuel bp k v (Q : unit → bst → Prop) :
  cache V H s → H !! bp = Some (k, v) → (∀ s', cache (vset V k v) (delete bp H) s' → u_error s' = u_error s → Q tt s') →
  wp (bdwrite sleep strategy is_tape fuel bp) Q s.
Proof using Driver0.
  intros Hca HHb HQ. pose proof (cache_held _ _ _ _ _ _ Hca HHb) as (Hb & Hg & c & Hc & Hk & Hd & Hbz & Hodd & [Has Hrs] & _).
  unfold bdwrite. apply wp_bind. eapply wp_rd_ct; [exact Hc|]. intros b Eb _ _. apply wp_bind.
  apply (wp_mono _ (λ _ s1, bufs s1 = bufs s ∧ env_same s s1)).
  { apply wp_when; [|done]. intros _. by apply wp_modify. }
  intros _ s1 (B1 & E1). pose proof (cache_env _ _ _ _ B1 E1 Hca) as Hca1. destruct E1 as (D1 & K1 & U1).
  destruct (is_tape (b_dev b)); [eapply wp_bawrite; [exact Hca1|exact HHb|]; intros; apply HQ; [done|congruence]|].
  assert (Hc1 : ctm s1 bp = Some c) by (unfold ctm; by rewrite B1). pose proof (touched_refl _ _ _ Hc1) as T1. destruct Hca1 as [Hi1 Ha1].
  apply wp_bind. eapply wp_touch; [exact T1|done|]. intros s2 T2 (D2 & K2 & U2)%env_of.
  eapply (wp_brelse_done (vset V k v) H s1); [|exact HHb| |by eapply others_touched|eauto|destruct T2 as (_ & _ & C2); intros c2; rewrite C2, decide_True by done; by intros [= <-]|].
  - eapply (cinv_delayed _ _ drv_inj V H s1 s2 bp c); [exact Hi1|exact HHb|exact Hc1|exact T2|done|unfold bkey; by bflags|by bflags..|done|done].
  - intros _ _ _. unfold vset. by rewrite decide_True.
  - intros s3 Hca3 U3 _ _. apply HQ; [done|congruence].
Qed.

(** *** Getting a buffer *)

Lemma free_exists V H s qf qh :
  placed None qh qf (ctm s) → sem phys good V H None (ctm s) (data s) (disk s) → (size H < Z.to_nat NBUF)%nat →
  ∃ i, (i = BQ_LRU ∨ i = BQ_AGE) ∧ qf (bfreelist_at i) ≠ [].
Proof.
  intros HP Hs Hn.
  assert (∃ bp, isbuf bp ∧ H !! bp = None) as (bp & Hb & HHb).
  { destruct (decide (Forall (λ z, is_Some (H !! z)) (seqZ (buf_at 0) NBUF))) as [Hall|(z & Hz & Hno)%not_Forall_Exists%Exists_exists]; [|exists z| apply _].
    - exfalso. assert (Hsub : list_to_set (seqZ (buf_at 0) NBUF) ⊆ (dom H : gset Z)).
      { intros z Hz%elem_of_list_to_set. apply elem_of_dom. by eapply Forall_forall in Hall. }
      apply subseteq_size in Hsub. rewrite size_dom, size_list_to_set, length_seqZ in Hsub by apply NoDup_seqZ. lia.
    - apply elem_of_seqZ in Hz. split; [unfold isbuf, buf_at in *; lia|]. by apply eq_None_not_Some. }
  destruct (sem_buf _ _ _ _ _ _ _ _ Hs bp Hb) as (c & Hc & _ & _ & _ & B4 & _).
  destruct HP as (_ & _ & _ & _ & P5 & P6). destruct (has B_BUSY c) eqn:Eb; [destruct (proj1 B4 eq_refl) as [[? ?]|?]; congruence|].
  destruct (proj1 (P6 bp c Hb Hc) Eb) as (h & Hh & Hq). apply list_elem_of_fmap in Hh as (i & -> & Hi%elem_of_seqZ). exists i.
  unfold BQUEUES in Hi. assert (i = 0 ∨ i = BQ_LRU ∨ i = BQ_AGE) as [->|Hi'] by (unfold BQ_LRU, BQ_AGE; lia).
  - change (bfreelist_at 0) with (bfreelist_at BQ_LOCKED) in Hq. rewrite P5 in Hq. by apply elem_of_nil in Hq.
  - split; [done|]. intros E. rewrite E in Hq. by apply elem_of_nil in Hq.
Qed.

(** Reading a list head gives the first element. *)
Lemma wp_rd_head s qf i (Q : buf → bst → Prop) :
  frings s free_heads qf → 0 ≤ i < BQUEUES → (∀ b, av_forw b = after (bfreelist_at i) (qf (bfreelist_at i)) → Q b s) → wp (rdb (bfreelist_at i)) Q s.
Proof.
  intros [HR _] Hi HQ. pose proof (HR _ (free_head i Hi)) as Hr. destruct (ring_around _ _ _ [] _ Hr) as [E _].
  change (before (bfreelist_at i) []) with (bfreelist_at i) in E. unfold gnm in E.
  destruct (bufs s !! bfreelist_at i) as [b|] eqn:Eb; [|done]. injection E as E. eapply wp_load; [exact Eb|]. auto.
Qed.

Lemma ring_empty nx pv h l : ring nx pv h l → (after h l =? h) = true ↔ l = [].
Proof.
  intros [_ Hnd]. rewrite Z.eqb_eq. destruct l as [|a l]; [done|]. split; [|done]. intros E. change (a = h) in E. subst a.
  apply NoDup_cons in Hnd as [[]%not_elem_of_cons _]. done.
Qed.

Lemma wp_pick s qf (Q : Z → bst → Prop) :
  frings s free_heads qf → (∃ i, (i = BQ_LRU ∨ i = BQ_AGE) ∧ qf (bfreelist_at i) ≠ []) →
  (∀ i, (i = BQ_LRU ∨ i = BQ_AGE) → qf (bfreelist_at i) ≠ [] → Q i s) → wp pick_freelist Q s.
Proof.
  intros HF Hex HQ. unfold pick_freelist. apply wp_bind. apply (wp_rd_head _ qf); [done|done|]. intros a ->. pose proof HF as [HR _].
  pose proof (ring_empty _ _ _ _ (HR _ (free_head BQ_AGE ltac:(done)))) as He. destruct (after _ _ =? _); cbn [negb].
  - apply wp_bind. apply (wp_rd_head _ qf); [done|done|]. intros l ->.
    pose proof (ring_empty _ _ _ _ (HR _ (free_head BQ_LRU ltac:(done)))) as He1. destruct (after _ _ =? _); cbn [negb]; apply wp_ret.
    + destruct Hex as (i & [-> | ->] & Hq); exfalso; apply Hq; [by apply He1|by apply He].
    + apply HQ; [by left|]. intros E. by apply He1 in E.
  - apply wp_ret, HQ; [by right|]. intros E. by apply He in E.
Qed.

Lemma cinv_view V V' H X s : (∀ k, V' k = V k) → cinv V H X s → cinv V' H X s.
Proof.
  intros HV (qh & qf & ? & ? & ? & [S1 S2 S3 S4 S5 S6]). exists qh, qf. split_and!; [done..|]. split; [|done|done|done|done|].
  - intros bp Hb. destruct (S1 bp Hb) as (c & Hc & B1 & B2 & B3 & B4 & B5). exists c. split; [done|]. unfold bok. split_and!; [done..|].
    intros HX. specialize (B5 HX). destruct (bkey c); [|done]. by rewrite HV.
  - intros k Hg Hno. rewrite HV. auto.
Qed.

Lemma cinv_limbo V H s s' bp c c' :
  cinv V H (Some bp) s → ctm s bp = Some c → touched bp c' s s' → b_addr c' = b_addr c → has B_BUSY c' = true → has B_ODD c' = false →
  has B_DELWRI c' = false → data s' = data s → disk s' = disk s → cinv V H (Some bp) s'.
Proof.
  intros (qh & qf & Hh & HF & HP & Hs) Hc ([H1 H2] & [F1 F2] & HC) Ha Hbz Hodd Hdw Hd Hk.
  pose proof (sem_held _ _ _ _ _ _ _ _ Hs bp (or_intror eq_refl)) as Hb.
  destruct (sem_get _ _ _ _ _ _ _ _ _ _ Hs Hb Hc) as (_ & _ & _ & B4 & _).
  exists qh, qf. rewrite Hd, Hk. split_and!; [by eapply rings_ext|by eapply rings_ext| |].
  - eapply (placed_same _ _ _ _ _ _ bp c c'); [exact HP|exact Hb|exact Hc| |congruence|done|exact HC]. rewrite Hbz. symmetry. apply B4. by right.
  - by eapply (sem_limbo _ _ _ _ _ _ _ _ bp c c').
Qed.

(** A buffer is taken off its free list. *)
Lemma wp_take V H s qh qf bp c h l1 l2 (Q : unit → bst → Prop) :
  hrings s hash_heads qh → frings s free_heads qf → placed None qh qf (ctm s) → sem phys good V H None (ctm s) (data s) (disk s) →
  h ∈ free_heads → qf h = l1 ++ bp :: l2 → ctm s bp = Some c → isbuf bp →
  (∀ s', (∀ z, ctm s' z = if decide (z = bp) then Some (or_flags B_BUSY c) else ctm s z) → env_same s s' →
     hrings s' hash_heads qh → frings s' free_heads (qset qf h (l1 ++ l2)) → (∀ X, X = None ∨ X = Some bp → placed X qh (qset qf h (l1 ++ l2)) (ctm s')) → Q tt s') →
  wp (notavail bp) Q s.
Proof.
  intros Hh HF HP Hs Hfh Hq Hc Hb HQ. eapply (wp_notavail s qf bp c h l1 l2); [exact HF|exact Hfh|exact Hq|exact Hc|].
  intros s1 E1 C1 [N1 P1] HF1. apply HQ; [done|by apply env_of|by eapply rings_ext|done|].
  intros X HX. by eapply (placed_take X qh qf (ctm s) (ctm s1) s bp c h l1 l2).
Qed.

(** Taken by a user: the buffer is not busy and holds block [k]. *)
Lemma wp_take_held V H s bp c k (Q : unit → bst → Prop) :
  cinv V H None s → isbuf bp → ctm s bp = Some c → has B_BUSY c = false → bkey c = Some k →
  (∀ s' v, cinv V (<[bp := (k, v)]> H) None s' → env_same s s' → (has B_DONE c = true → v = V k) →
     (∀ z, ctm s' z = if decide (z = bp) then Some (or_flags B_BUSY c) else ctm s z) → Q tt s') →
  wp (notavail bp) Q s.
Proof.
  intros (qh & qf & Hh & HF & HP & Hs) Hb Hc Hbz Hk HQ. pose proof HP as (_ & _ & _ & _ & _ & P6).
  destruct (proj1 (P6 bp c Hb Hc) Hbz) as (h & Hfh & (l1 & l2 & Hq)%list_elem_of_split).
  eapply wp_take; [exact Hh|exact HF|exact HP|exact Hs|exact Hfh|exact Hq|exact Hc|exact Hb|].
  intros s1 C1 (D1 & K1 & U1) Hh1 HF1 HP1. destruct (sem_take _ _ _ _ _ (ctm s1) _ _ _ _ _ Hs Hb Hc Hbz Hk C1) as (v & Hv & Hvk & Hs1).
  apply (HQ s1 v); [|done|done|done]. exists qh, (qset qf h (l1 ++ l2)). rewrite D1, K1. split_and!; [done|done|by apply HP1; left|done].
Qed.

Lemma calm_taken s s' bp c : (∀ z c, isbuf z → ctm s z = Some c → calm c) → isbuf bp → ctm s bp = Some c →
  (∀ z, ctm s' z = if decide (z = bp) then Some (or_flags B_BUSY c) else ctm s z) → ∀ z c, isbuf z → ctm s' z = Some c → calm c.
Proof.
  intros Has Hb Hc C1 z cz Hz. rewrite C1. case_decide; [|by apply Has]. intros [= <-]. destruct (Has bp c Hb Hc). split; [by bflags|done].
Qed.

(** Taken to be given to another block. *)
Lemma wp_take_new V H s bp c (Q : unit → bst → Prop) :
  cache V H s → isbuf bp → ctm s bp = Some c → has B_BUSY c = false → has B_DELWRI c = false →
  (∀ s', cinv V H (Some bp) s' → env_same s s' → (∀ z, ctm s' z = if decide (z = bp) then Some (or_flags B_BUSY c) else ctm s z) → Q tt s') →
  wp (notavail bp) Q s.
Proof.
  intros [(qh & qf & Hh & HF & HP & Hs) Has] Hb Hc Hbz Hdw HQ. pose proof HP as (_ & _ & _ & _ & _ & P6).
  destruct (proj1 (P6 bp c Hb Hc) Hbz) as (h & Hfh & (l1 & l2 & Hq)%list_elem_of_split).
  eapply wp_take; [exact Hh|exact HF|exact HP|exact Hs|exact Hfh|exact Hq|exact Hc|exact Hb|].
  intros s1 C1 (D1 & K1 & U1) Hh1 HF1 HP1. apply HQ; [|done|done].
  exists qh, (qset qf h (l1 ++ l2)). rewrite D1, K1. split_and!; [done|done|by apply HP1; right|by eapply sem_recycle].
Qed.

(** No buffer but [bp] holds [k]. *)
Definition uncached (k : key) (bp : Z) s : Prop := ∀ z c, isbuf z → z ≠ bp → ctm s z = Some c → bkey c ≠ Some k.

(** The buffer at the head of the list picked. *)
Lemma wp_pick_first V H s (W : M bst Z) (K : buf → M bst Z) (Q : Z → bst → Prop) :
  cache V H s → (size H < Z.to_nat NBUF)%nat →
  (∀ d c, isbuf (av_forw d) → ctm s (av_forw d) = Some c → has B_BUSY c = false → wp (K d) Q s) →
  wp (i ← pick_freelist;
      if i =? 0 then W else
        d ← rdb (bfreelist_at i); K d) Q s.
Proof.
  intros [(qh & qf & Hh & HF & HP & Hs) _] Hn HQ. apply wp_bind. eapply (wp_pick s qf); [done|by eapply free_exists|]. intros i Hi Hq.
  assert (0 ≤ i < BQUEUES ∧ (i =? 0) = false) as [Hir ->] by (destruct Hi as [-> | ->]; done).
  apply wp_bind. eapply wp_rd_head; [exact HF|done|]. intros b Eb. destruct (qf (bfreelist_at i)) as [|bp l] eqn:Eq; [done|].
  change (after (bfreelist_at i) (bp :: l)) with bp in Eb. destruct HP as (_ & _ & _ & P4 & _ & P6).
  assert (Hin : bp ∈ qf (bfreelist_at i)) by (rewrite Eq; by left). pose proof (P4 _ _ (free_head i Hir) Hin) as Hb.
  destruct (sem_buf _ _ _ _ _ _ _ _ Hs bp Hb) as (c & Hc & _). rewrite <- Eb in *. eapply HQ; [done|exact Hc|]. apply (P6 _ c Hb Hc). eauto using free_head.
Qed.

(** Other buffers stay as they are, but that a delayed write may have been done. *)
Definition tame H (bp : Z) s s' : Prop := ∀ z c', isbuf z → z ≠ bp → ctm s' z = Some c' →
  ∃ c, ctm s z = Some c ∧ (c' = c ∨ H !! z = None ∧ has B_DELWRI c' = false).

Lemma tame_same H bp s s' : (∀ z, z ≠ bp → ctm s' z = ctm s z) → tame H bp s s'.
Proof. intros HC z c' _ Hne. rewrite HC by done. eauto. Qed.

Lemma tame_after H bp b s s1 s2 c c1 : others b s s1 → ctm s b = Some c → ctm s1 b = Some c1 → has B_DELWRI c1 = false → H !! b = None → tame H bp s1 s2 → tame H bp s s2.
Proof.
  intros Ho Hc Hc1 Hd HH Ht z c' Hz Hne Hc'. destruct (Ht z c' Hz Hne Hc') as (cz & Hcz & Hor). destruct (decide (z = b)) as [->|Hzb].
  - exists c. split; [done|]. right. split; [done|]. destruct Hor as [->|[_ ?]]; [by simplify_eq|done].
  - exists cz. split; [by rewrite <- Ho|done].
Qed.

Lemma wp_getnewbuf fuel : ∀ V H (D : gset Z) s (Q : Z → bst → Prop),
  cache V H s → (size H < Z.to_nat NBUF)%nat → (∀ z c, isbuf z → ctm s z = Some c → has B_DELWRI c = true → z ∈ D) → (size D < fuel)%nat →
  (∀ bp s' c, cinv V H (Some bp) s' → isbuf bp → u_error s' = u_error s → (∀ z c, isbuf z → ctm s' z = Some c → calm c) →
     ctm s' bp = Some c → b_flags c = B_BUSY → (∀ k, uncached k 0 s → uncached k bp s') → tame H bp s s' → Q bp s') →
  wp (getnewbuf sleep strategy fuel) Q s.
Proof using Driver0.
  clear is_tape. induction fuel as [|fuel IH]; intros V H D s Q Hca Hn HD Hf HQ; [lia|]. cbn [getnewbuf].
  eapply wp_pick_first; [exact Hca|exact Hn|]. intros d c. cbv zeta. generalize (av_forw d). clear d. intros bp Hb Hc Hbz.
  pose proof Hca as [(qh & qf & _ & _ & _ & Hs) Has]. pose proof (sem_get _ _ _ _ _ _ _ _ _ _ Hs Hb Hc) as (B1 & B2 & B3 & B4 & B5).
  assert (Hb0 : ∀ z, isbuf z → z ≠ 0) by (unfold isbuf, buf_at; intros; lia).
  apply wp_bind. destruct (has B_DELWRI c) eqn:Edw.
  - destruct (bkey c) as [k|] eqn:Ek; [|by destruct B5]. eapply wp_take_held; [exact (proj1 Hca)|exact Hb|exact Hc|exact Hbz|exact Ek|].
    intros s1 v Hi1 (D1 & K1 & U1) Hv C1. assert (Hc1 : ctm s1 bp = Some (or_flags B_BUSY c)) by (by rewrite C1, decide_True).
    apply wp_bind. eapply wp_rd_ct; [exact Hc1|]. intros b Eb _ _. rewrite (has_ct _ _ _ Eb). bflags. rewrite Edw. apply wp_bind.
    eapply wp_bawrite; [split; [exact Hi1|by eapply calm_taken]|by rewrite lookup_insert_eq|]. intros s2 c2 Hca2 U2 O2 Hc2 Hdw2 Hk2.
    assert (HHb : H !! bp = None) by (destruct (H !! bp) eqn:E; [|done]; rewrite (proj2 B4) in Hbz; [done|left; eauto]).
    rewrite delete_insert_id in Hca2 by done. eapply (IH V H (D ∖ {[bp]})); [|exact Hn| | |].
    + destruct Hca2 as [Hi2 Ha2]. split; [|done]. eapply cinv_view; [|exact Hi2]. intros k'. unfold vset. case_decide; [subst; by rewrite Hv by auto|done].
    + intros z cz Hz Hcz Hdz. destruct (decide (z = bp)) as [->|Hne]; [congruence|]. rewrite O2, C1, decide_False in Hcz by done. set_solver.
    + assert (bp ∈ D) by eauto. assert (size (D ∖ {[bp]}) < size D)%nat; [|lia]. apply subset_size. set_solver.
    + intros bp' s' c' Hi' Hb' Hu' Ha' Hc' Hf' Hun Htm. apply (HQ bp' s' c'); [done|done|congruence|done|done|done| |].
      2: { eapply (tame_after H bp' bp s s2 s' c c2); [|done|done|done|done|done]. intros z Hz Hne. by rewrite O2, C1, decide_False. }
      intros k' Hk'. apply Hun. intros z cz Hz Hz0 Hcz. destruct (decide (z = bp)) as [->|Hne].
      * simplify_eq. rewrite Hk2. rewrite <- Ek. by apply (Hk' bp).
      * rewrite O2, C1, decide_False in Hcz by done. by eapply Hk'.
  - eapply wp_take_new; [exact Hca|exact Hb|exact Hc|exact Hbz|exact Edw|]. intros s1 Hi1 (D1 & K1 & U1) C1.
    assert (Hc1 : ctm s1 bp = Some (or_flags B_BUSY c)) by (by rewrite C1, decide_True).
    apply wp_bind. eapply wp_rd_ct; [exact Hc1|]. intros b Eb _ _. rewrite !(has_ct _ _ _ Eb). bflags. rewrite Edw.
    assert (has (Z.lor B_RAMREMAP B_PHYS) c = false) as -> by (by apply (has_sub _ B_ODD)). apply wp_bind, wp_ret, wp_bind.
    eapply wp_touch; [by apply touched_refl|done|]. intros s2 T2 (D2 & K2 & U2)%env_of. apply wp_ret.
    assert (HC2 : ∀ z, ctm s2 z = if decide (z = bp) then Some (set_b_flags B_BUSY (or_flags B_BUSY c)) else ctm s z).
    { intros z. destruct T2 as (_ & _ & ->). case_decide; [done|]. by rewrite C1, decide_False. }
    eapply HQ; [eapply cinv_limbo; [exact Hi1|exact Hc1|exact T2|done|by bflags..|done|done]|done|congruence| |by rewrite HC2, decide_True|done| |].
    3: { apply tame_same. intros z Hne. by rewrite HC2, decide_False. }
    + intros z cz Hz. rewrite HC2. case_decide; [|by apply Has]. intros [= <-]. destruct (Has bp c Hb Hc). split; [by bflags|done].
    + intros k Hk z cz Hz Hzb. rewrite HC2, decide_False by done. apply Hk; auto.
Qed.

Lemma wp_rehash V H s bp dp (rest : M bst Z) (Q : Z → bst → Prop) :
  cinv V H (Some bp) s → dp ∈ hash_heads →
  (∀ s' qh qf, hrings s' hash_heads qh → frings s' free_heads qf → placed (Some bp) qh qf (ctm s') →
     sem phys good V H (Some bp) (ctm s') (data s') (disk s') → bp ∈ qh dp → (∀ z, ctm s' z = ctm s z) → env_same s s' → wp rest Q s') →
  wp (bremhash bp;; binshash bp dp;; rest) Q s.
Proof.
  intros (qh & qf & Hh & HF & HP & Hs) Hdp HQ. pose proof (sem_held _ _ _ _ _ _ _ _ Hs bp (or_intror eq_refl)) as Hb.
  destruct (sem_buf _ _ _ _ _ _ _ _ Hs bp Hb) as (c & Hc & _).
  pose proof (proj1 (proj2 HP) bp Hb) as (h & Hhh & (l1 & l2 & Hq)%list_elem_of_split).
  apply wp_bind. eapply (wp_ring_remove b_forw b_back set_b_forw set_b_back hcore); [done..|exact Hh|exact Hhh|exact Hq|].
  intros s1 fn fp L Hh1. apply linked_hash in L as (E1 & C1 & N1 & P1).
  assert (Hnq : ∀ i, i ∈ hash_heads → bp ∉ qset qh h (l1 ++ l2) i).
  { intros i Hi. by apply (rings_disj b_forw b_back s hash_heads qh h l1 bp l2 i). }
  apply wp_bind. eapply wp_binshash; [exact Hh1|exact Hdp|exact Hb|rewrite C1, Hc; eauto|exact Hnq|].
  intros s2 (E2 & C2 & N2 & P2) Hh2. assert (HC : ∀ z, ctm s2 z = ctm s z) by (intros z; by rewrite C2).
  pose proof (env_of _ _ (same_env_trans _ _ _ E1 E2)) as Hes. pose proof Hes as (D & K & _).
  eapply HQ; [exact Hh2| | | | |exact HC|exact Hes].
  - eapply rings_ext; [..|exact HF]; intros z; rewrite ?N2, ?P2; auto.
  - eapply placed_ext; [intros; apply HC|]. by apply placed_rehash.
  - rewrite D, K. eapply sem_ext; [intros; apply HC|exact Hs].
  - unfold qset at 1. rewrite decide_True by done. by left.
Qed.

(** The miss of [getblk]. *)
Lemma wp_new_identity V H s bp c k (Q : Z → bst → Prop) :
  cinv V H (Some bp) s → good k → k.1 ≠ NODEV → ctm s bp = Some c → b_flags c = B_BUSY → (∀ z c, isbuf z → ctm s z = Some c → calm c) →
  uncached k bp s → (∀ k', good k' → uncached k' bp s → dget (disk s) (phys k') = V k') →
  (∀ s' v c', cache V (<[bp := (k, v)]> H) s' → u_error s' = u_error s → ctm s' bp = Some c' → has B_DONE c' = false → has B_DELWRI c' = false → (∀ z, z ≠ bp → ctm s' z = ctm s z) → Q bp s') →
  wp (bfree bp;; bremhash bp;; binshash bp (BUFHASH k.1 k.2);; wrb bp (set_b_dev k.1);; wrb bp (set_b_blkno k.2);; wrb bp (set_b_error 0);; mret bp) Q s.
Proof.
  intros Hi Hg Hdev Hc Hfl Has Hun Hdk HQ. pose proof Hi as (_ & _ & _ & _ & _ & Hs0). pose proof (sem_held _ _ _ _ _ _ _ _ Hs0 bp (or_intror eq_refl)) as Hb. clear Hs0.
  assert (HF : ∀ F c', b_flags c' = B_BUSY → has F c' = negb (Z.land B_BUSY F =? 0)) by (intros F c' E; unfold has; by rewrite E).
  apply wp_bind. eapply wp_touch; [by apply touched_refl|done|]. intros s1 T1 (D1 & K1 & U1)%env_of.
  assert (Hc1 : ctm s1 bp = Some (set_b_bcount 0 c)) by (destruct T1 as (_ & _ & ->); by rewrite decide_True).
  eapply wp_rehash; [eapply cinv_limbo; [exact Hi|exact Hc|exact T1|done|by rewrite HF..|done|done]|apply (khash_head k)|].
  intros s2 qh qf Hh2 HF2 HP2 Hs2 Hin HC2 (D2 & K2 & U2). rewrite <- HC2 in Hc1.
  apply wp_bind. eapply wp_touch; [by apply touched_refl|done|]. intros s3 T3 (D3 & K3 & U3)%env_of.
  apply wp_bind. eapply wp_touch; [exact T3|done|]. intros s4 T4 (D4 & K4 & U4)%env_of.
  apply wp_bind. eapply wp_touch; [exact T4|done|]. intros s5 T5 (D5 & K5 & U5)%env_of. apply wp_ret.
  set (c5 := set_b_error 0 (set_b_blkno k.2 (set_b_dev k.1 (set_b_bcount 0 c)))) in *.
  destruct T5 as ([N5 P5] & [N5' P5'] & C5). assert (Hf5 : b_flags c5 = B_BUSY) by done.
  assert (Hk5 : bkey c5 = Some k). { unfold bkey. rewrite HF by done. change (b_dev c5) with k.1. rewrite (proj2 (Z.eqb_neq _ _) Hdev). by destruct k. }
  assert (HC5 : ∀ z, ctm s5 z = if decide (z = bp) then Some c5 else ctm s z).
  { intros z. rewrite C5. case_decide; [done|]. rewrite HC2. destruct T1 as (_ & _ & ->). by rewrite decide_False. }
  assert (Hs5 : sem phys good V H (Some bp) (ctm s5) (data s5) (disk s5)).
  { rewrite D5, D4, D3, K5, K4, K3. eapply (sem_limbo _ _ V H (ctm s2) (ctm s5)); [exact Hs2|exact Hc1|exact C5|done|by rewrite HF..]. }
  destruct (sem_claim _ _ V H _ _ _ bp c5 k Hs5) as (v & Hv & Hs6); [by rewrite C5, decide_True|done|done|by rewrite HF| | |].
  - replace (disk s5) with (disk s) by congruence. by apply Hdk.
  - intros z cz Hz Hzb. rewrite HC5, decide_False by done. by apply Hun.
  - eapply (HQ s5 v c5); [split|congruence|by rewrite C5, decide_True|by rewrite HF..|intros z Hne; by rewrite HC5, decide_False].
    + exists qh, qf. split_and!; [by eapply rings_ext|by eapply rings_ext| |done].
      eapply (placed_same (Some bp) None qh qf _ _ bp _ c5); [exact HP2|exact Hb|exact Hc1|by rewrite !HF|congruence| |exact C5].
      intros k' _ Hk'. rewrite Hk5 in Hk'. by injection Hk' as <-.
    + intros z cz Hz. rewrite HC5. case_decide; [|by apply Has]. intros [= <-]. destruct (Has bp c Hb Hc). split; [by rewrite HF|done].
Qed.

Lemma wp_getblk_tame V H s fuel dev blkno (Q : Z → bst → Prop) :
  let k := (dev, blkno) in
  cache V H s → good k → dev ≠ NODEV → (∀ bp v, H !! bp ≠ Some (k, v)) → (size H < Z.to_nat NBUF)%nat → (Z.to_nat NBUF + 2 <= fuel)%nat →
  (∀ bp s' v c, cache V (<[bp := (k, v)]> H) s' → H !! bp = None → u_error s' = u_error s → ctm s' bp = Some c →
     (has B_DONE c = true → v = V k) → tame H bp s s' → Q bp s') →
  wp (getblk sleep strategy fuel dev blkno) Q s.
Proof using Driver0.
  clear is_tape. intros k Hca Hg Hdev Hnh Hn Hf HQ. destruct fuel as [|fuel]; [lia|]. cbn [getblk]. cbv zeta.
  pose proof Hca as [(qh & qf & Hh & HF & HP & Hs) Has]. pose proof (khash_head k) as Hkh. change (BUFHASH dev blkno) with (khash k).
  pose proof Hh as [HR _]. destruct (ring_around _ _ _ [] _ (HR _ Hkh)) as [E1 _]. change (before (khash k) []) with (khash k) in E1.
  assert (is_Some (ctm s (khash k))) as [cd Hcd] by (unfold gnm in E1; unfold ctm; destruct (bufs s !! khash k); [eauto|done]).
  apply wp_bind. eapply wp_rd_ct; [exact Hcd|]. intros d _ Ed _. rewrite E1 in Ed. injection Ed as ->. apply wp_bind.
  pose proof (chain_short _ _ _ _ _ _ Hh HP Hkh) as Hlen. pose proof HP as (P1 & P2 & P3 & _).
  assert (Hb0 : ∀ z, isbuf z → (z =? 0) = false) by (unfold isbuf, buf_at; intros; lia).
  eapply (wp_hash_find s qh (khash k) dev blkno (qh (khash k)) []); [exact Hh|exact Hkh|intros; by eapply P1|done|unfold chain_fuel; lia| |].
  - intros Hno. cbn [negb Z.eqb]. apply wp_bind.
    assert (Hun : uncached k 0 s).
    { intros z c Hz _ Hc Hkc. pose proof (P3 z c k Hz ltac:(done) Hc Hkc) as Hin. specialize (Hno z c Hin Hc). apply (matches_key dev blkno c Hdev) in Hkc. congruence. }
    eapply (wp_getnewbuf fuel V H (list_to_set (seqZ (buf_at 0) NBUF))); [exact Hca|exact Hn| | |].
    + intros z c Hz _ _. apply elem_of_list_to_set, elem_of_seqZ. unfold isbuf, buf_at in *. lia.
    + rewrite size_list_to_set, length_seqZ by apply NoDup_seqZ. lia.
    + intros bp s1 c Hi1 Hb Hu1 Ha1 Hc1 Hf1 Hun1 Htm. pose proof Hi1 as (_ & _ & _ & _ & _ & Hs1). rewrite <- Hu1 in HQ.
      eapply (wp_new_identity V H s1 bp c k); [exact Hi1|exact Hg|done|exact Hc1|exact Hf1|exact Ha1|by apply Hun1| |].
      * intros k' Hg' Hun'. apply (sem_disk _ _ _ _ _ _ _ _ Hs1); [done|]. intros z cz Hz HX Hcz. apply (Hun' z cz); [done|congruence|done].
      * intros s2 v c2 Hca2 Hu2 Hc2 Hd2 _ HC2. eapply HQ; [exact Hca2|by apply (sem_disj _ _ _ _ _ _ _ _ Hs1)|done|exact Hc2|congruence|].
        intros z c' Hz Hne. rewrite HC2 by done. by apply Htm.
  - intros bp c Hin Hc Hm. pose proof (P1 _ _ Hkh Hin) as Hb. rewrite (Hb0 bp Hb). cbn [negb]. apply (matches_key dev blkno c Hdev) in Hm.
    pose proof (sem_get _ _ _ _ _ _ _ _ _ _ Hs Hb Hc) as (_ & _ & _ & B4 & B5). specialize (B5 ltac:(done)). rewrite Hm in B5.
    assert (HHb : H !! bp = None).
    { destruct (H !! bp) as [[k' v']|] eqn:E; [|done]. destruct B5 as (_ & _ & -> & _). exfalso. by apply (Hnh bp v'). }
    assert (Hbz : has B_BUSY c = false) by (destruct (has B_BUSY c); [|done]; destruct (proj1 B4 eq_refl) as [[? ?]|?]; congruence).
    apply wp_bind. eapply wp_rd_ct; [exact Hc|]. intros b Eb _ _. rewrite (has_ct _ _ _ Eb), Hbz. apply wp_bind.
    eapply (wp_take_held V H s bp c k); [exact (proj1 Hca)|exact Hb|exact Hc|exact Hbz|exact Hm|]. intros s1 v Hi1 (_ & _ & Hu1) Hv C1. apply wp_ret.
    eapply HQ; [split; [exact Hi1|by eapply calm_taken]|exact HHb|exact Hu1|by rewrite C1, decide_True|by bflags|].
    apply tame_same. intros z Hne. by rewrite C1, decide_False.
Qed.

Lemma wp_getblk V H s fuel dev blkno (Q : Z → bst → Prop) :
  let k := (dev, blkno) in
  cache V H s → good k → dev ≠ NODEV → (∀ bp v, H !! bp ≠ Some (k, v)) → (size H < Z.to_nat NBUF)%nat → (Z.to_nat NBUF + 2 <= fuel)%nat →
  (∀ bp s' v c, cache V (<[bp := (k, v)]> H) s' → H !! bp = None → u_error s' = u_error s → ctm s' bp = Some c →
     (has B_DONE c = true → v = V k) → Q bp s') →
  wp (getblk sleep strategy fuel dev blkno) Q s.
Proof using Driver0. intros k Hca Hg Hdev Hnh Hn Hf HQ. eapply wp_getblk_tame; [done..|]. intros bp s' v c ? ? ? ? ? _. by eapply HQ. Qed.

(** *** Reading a block *)

Lemma wp_read_transfer V H s bp c k v (Q : unit → bst → Prop) :
  cache V H s → H !! bp = Some (k, v) → ctm s bp = Some c → has B_DONE c = false → has B_DELWRI c = false →
  (∀ s' c', cache V (<[bp := (k, V k)]> H) s' → u_error s' = u_error s → ctm s' bp = Some c' → has B_DONE c' = true → has B_ERROR c' = false → Q tt s') →
  wp (start_read strategy bp B_READ) Q s.
Proof using Driver0.
  intros Hca HHb Hc Hdn Hdw HQ. pose proof (cache_held _ _ _ _ _ _ Hca HHb) as (Hb & Hg & c1 & Hc1 & Hk & Hd & Hbz & Hodd & [Has Hrs] & _). simplify_eq.
  destruct Hca as [Hi Hasy]. unfold start_read.
  apply wp_bind. eapply wp_touch; [by apply touched_refl|done|]. intros s1 T1 (D1 & K1 & U1)%env_of.
  apply wp_bind. eapply wp_touch; [exact T1|done|]. intros s2 T2 (D2 & K2 & U2)%env_of.
  set (c2 := set_b_bcount DEV_BSIZE (or_flags B_READ c)) in *.
  assert (Hc2 : ctm s2 bp = Some c2) by (destruct T2 as (_ & _ & ->); by rewrite decide_True).
  assert (Hk2 : bkey c2 = Some k) by (rewrite <- Hk; unfold c2, bkey; by bflags).
  apply wp_bind. eapply wp_strategy; [exact Hc2|exact Hk2|done|done|rewrite D2, D1; eauto|].
  unfold transfer. assert (has B_READ c2 = true) as -> by (unfold c2; by bflags). rewrite <- (bkey_of _ _ Hk2).
  eapply wp_biodone_sync; [eapply touched_env; [exact T2|done]|unfold c2; by bflags|unfold c2; by bflags|]. intros s3 T3 (D3 & K3 & U3).
  set (c3 := and_not_flags B_WANTED (or_flags B_DONE c2)) in *. apply wp_modify.
  assert (Hc3 : ctm s3 bp = Some c3) by (destruct T3 as (_ & _ & ->); by rewrite decide_True).
  assert (Herr : has B_ERROR c3 = false) by (unfold c3, c2; bflags; by apply (has_sub _ B_ODD)).
  eapply (HQ _ c3); [split|simpl; rewrite U3; simpl; congruence|exact Hc3|unfold c3; by bflags|done].
  - apply (cinv_env _ _ _ _ _ s3); [done..|].
    eapply (cinv_read _ _ drv_inj V H s s3 bp c c3 k v); [exact Hi|exact HHb|exact Hc|exact T3|done|done|unfold c3, c2, bkey; by bflags|unfold c3, c2; by bflags..| |].
    + rewrite D3. simpl. rewrite D2, D1, K2, K1. done.
    + rewrite K3. simpl. congruence.
  - intros z cz Hz. change (ctm s3 z = Some cz → calm cz). destruct T3 as (_ & _ & ->). case_decide; [|by apply Hasy].
    intros [= <-]. split; [unfold c3, c2; by bflags|done].
Qed.

Lemma wp_bread V H s fuel dev blkno (Q : Z → bst → Prop) :
  let k := (dev, blkno) in
  cache V H s → good k → dev ≠ NODEV → (∀ bp v, H !! bp ≠ Some (k, v)) → (size H < Z.to_nat NBUF)%nat → (Z.to_nat NBUF + 2 <= fuel)%nat →
  (∀ bp s', cache V (<[bp := (k, V k)]> H) s' → H !! bp = None → u_error s' = u_error s → Q bp s') →
  wp (bread sleep strategy fuel dev blkno) Q s.
Proof using Driver0.
  intros k Hca Hg Hdev Hnh Hn Hf HQ. unfold bread. apply wp_bind. eapply wp_getblk; [done..|]. fold k. intros bp s1 v c Hca1 HHb U1 Hc1 Hv.
  pose proof (cache_held _ _ _ _ _ _ Hca1 (lookup_insert_eq _ _ _)) as (Hb & _ & c1 & Hc1' & Hk & Hd & Hbz & Hodd & Hcalm & Hdd). simplify_eq.
  apply wp_bind. eapply wp_rd_ct; [exact Hc1|]. intros b Eb _ _. rewrite has_lor, !(has_ct _ _ _ Eb).
  destruct (has B_DONE c) eqn:Edn; cbn [orb].
  { apply wp_ret, HQ; [|done|done]. rewrite <- Hv by done. done. }
  destruct (has B_DELWRI c) eqn:Edw; [specialize (Hdd eq_refl); congruence|]. apply wp_bind.
  eapply wp_read_transfer; [exact Hca1|apply lookup_insert_eq|exact Hc1|done|done|]. intros s2 c2 Hca2 U2 Hc2 Hdn2 Her2.
  rewrite insert_insert_eq in Hca2. apply wp_bind. destruct fuel as [|fuel]; [lia|].
  eapply wp_biowait; [exact Hc2|done|done|]. intros s3 B3 E3. apply wp_ret, HQ; [by eapply cache_env|done|]. destruct E3 as (_ & _ & ->). congruence.
Qed.

(** The user changes the data of a buffer it holds. *)
Lemma cache_store V H s bp k v v' c :
  cache V H s → H !! bp = Some (k, v) → ctm s bp = Some c → cache V (<[bp := (k, v')]> H) (set_data (<[b_addr c := v']> (data s)) s).
Proof using Driver0.
  intros [Hi Has] HHb Hc. split; [|done].
  eapply (cinv_held _ _ drv_inj V V H (<[bp := (k, v')]> H) s _ bp c c k v); [exact Hi|exact HHb|exact Hc| |done|done| | | |done|done|].
  - eapply touched_env; [by apply touched_refl|done].
  - destruct Hi as (_ & _ & _ & _ & _ & Hs). destruct (sem_held_info _ _ _ _ _ _ _ _ _ _ Hs HHb) as (_ & _ & c1 & ? & _ & _ & ? & _). by simplify_eq.
  - intros a Ha. simpl. by rewrite lookup_insert_ne.
  - intros z Hz. by rewrite lookup_insert_ne.
  - intros (B1 & B2 & B3 & B4 & B5) Hv. unfold bok. simpl. rewrite !lookup_insert_eq. split_and!; [done|done|eauto| |].
    + rewrite B4, HHb. split; intros _; left; eauto.
    + intros _. rewrite HHb in B5. destruct (bkey c); [|by destruct B5]. destruct B5 as (? & ? & -> & _); done.
Qed.

(** *** Flushing a device *)

(** Blocks that are not held and not waiting to be written are on the disk. *)
Lemma clean_on_disk V H s k : cache V H s → good k → (∀ bp v, H !! bp ≠ Some (k, v)) →
  (∀ z c, isbuf z → ctm s z = Some c → has B_BUSY c = false → has B_DELWRI c = true → b_dev c ≠ k.1) → dget (disk s) (phys k) = V k.
Proof.
  intros [(qh & qf & _ & _ & _ & Hs) _] Hg Hnh Hcl.
  destruct (decide (Exists (λ z, ctm s z ≫= bkey = Some k) (seqZ (buf_at 0) NBUF))) as [(z & Hz & (c & Hc & Hk)%bind_Some)%Exists_exists|Hno].
  - apply elem_of_seqZ in Hz. assert (Hb : isbuf z) by (unfold isbuf, buf_at in *; lia).
    pose proof (sem_get _ _ _ _ _ _ _ _ _ _ Hs Hb Hc) as (_ & _ & _ & B4 & B5). specialize (B5 ltac:(done)). rewrite Hk in B5.
    destruct B5 as (_ & B6 & B7). apply B6. destruct (H !! z) as [[k' v']|] eqn:EH; [destruct B7 as [-> _]; by destruct (Hnh z v')|].
    destruct (has B_DELWRI c) eqn:Ed; [|done]. exfalso. apply (Hcl z c); [done|done| |done|by rewrite (bkey_of _ _ Hk)].
    destruct (has B_BUSY c); [|done]. destruct (proj1 B4 eq_refl) as [[? ?]|?]; congruence.
  - apply (sem_disk _ _ _ _ _ _ _ _ Hs); [done|]. intros bp c Hb _ Hc Hk. apply Hno, Exists_exists. exists bp. split; [|by rewrite Hc].
    apply elem_of_seqZ. unfold isbuf, buf_at in *. lia.
Qed.

Lemma wp_bflush fuel : ∀ V H (D : gset Z) s dev (Q : unit → bst → Prop),
  cache V H s → (∀ z c, isbuf z → ctm s z = Some c → has B_DELWRI c = true → z ∈ D) → (size D < fuel)%nat →
  (∀ s', cache V H s' → u_error s' = u_error s →
     (∀ z c, isbuf z → ctm s' z = Some c → has B_BUSY c = false → has B_DELWRI c = true → b_dev c ≠ dev) → Q tt s') →
  wp (bflush sleep strategy fuel dev) Q s.
Proof using Driver0.
  clear is_tape. induction fuel as [|fuel IH]; intros V H D s dev Q Hca HD Hf HQ; [lia|]. cbn [bflush]. apply wp_bind.
  pose proof Hca as [(qh & qf & Hh & HF & HP & Hs) Has]. eapply (wp_bflush_scan s qh qf None (ctm s)); [done|done|done|done| |].
  - intros Hno. rewrite Z.eqb_refl. apply wp_ret, HQ; [done|done|]. intros z c Hz Hc Hbz Hd Hdev. destruct HP as (_ & _ & _ & _ & _ & P6).
    destruct (proj1 (P6 z c Hz Hc) Hbz) as (h & (j & -> & Hj%elem_of_seqZ)%list_elem_of_fmap & Hin).
    assert (Hdt : dirty dev c = false) by (apply (Hno j z c); [lia|done|done]). unfold dirty in Hdt. rewrite Hd, Hdev, Z.eqb_refl in Hdt. done.
  - intros bp c h Hfh Hin Hb Hc [Hd Hdev]%andb_true_iff. rewrite (proj2 (Z.eqb_neq bp 0)) by (unfold isbuf, buf_at in Hb; lia).
    pose proof (sem_get _ _ _ _ _ _ _ _ _ _ Hs Hb Hc) as (B1 & B2 & B3 & B4 & B5). destruct (bkey c) as [k|] eqn:Ek; [|by destruct B5; congruence].
    assert (Hbz : has B_BUSY c = false) by (destruct HP as (_ & _ & _ & _ & _ & P6); apply (P6 bp c Hb Hc); eauto).
    apply wp_bind, wp_ct; [done|eauto|]. intros s1 L. pose proof (ct_step_at _ _ _ _ _ L Hc) as C1.
    assert (U1 : u_error s1 = u_error s) by (by destruct L as [(_ & _ & U1)%env_of _]). apply wp_bind.
    eapply (wp_take_held V H s1 bp (or_flags B_ASYNC c) k); [eapply cinv_harmless; [apply harmless_async|exact L|exact (proj1 Hca)]|exact Hb|by rewrite C1, decide_True|by bflags|unfold bkey in *; by bflags|].
    intros s2 v Hi2 (_ & _ & U2) Hv C2. assert (Hvk : v = V k) by (apply Hv; bflags; auto). apply wp_bind.
    eapply (wp_bwrite_async V (<[bp := (k, v)]> H) s2 fuel bp k v (or_flags B_BUSY (or_flags B_ASYNC c))); [exact Hi2| |apply lookup_insert_eq|by rewrite C2, decide_True|by bflags|change (b_resid c = 0); by apply (Has bp)|].
    { intros z cz Hz Hne. rewrite C2, C1, !decide_False by done. by apply Has. }
    intros s3 c3 [Hi3 Ha3] U3 O3 Hc3 Hd3 Hk3. assert (HHb : H !! bp = None).
    { destruct (H !! bp) eqn:E; [|done]. rewrite (proj2 B4) in Hbz; [done|left; eauto]. }
    rewrite delete_insert_eq, delete_id in Hi3 by done. eapply (IH V H (D ∖ {[bp]})).
    + split; [|done]. eapply cinv_view; [|exact Hi3]. intros k'. unfold vset. case_decide; [by subst|done].
    + intros z cz Hz Hcz Hdz. destruct (decide (z = bp)) as [->|Hne]; [congruence|]. rewrite O3, C2, C1, !decide_False in Hcz by done. set_solver.
    + assert (bp ∈ D) by eauto. assert (size (D ∖ {[bp]}) < size D)%nat; [|lia]. apply subset_size. set_solver.
    + intros s4 Hca4 U4. apply HQ; [done|congruence].
Qed.
End io.
End CacheIO.
