(* ===== verification/CacheRa.v ===== *)
(** * Reading ahead

    [breada] of ufs_bio.c starts the transfer of a second block and does not
    wait for it.  Over any block driver it gives what [bread] gives. *)

From S2P Require Import Prelude Links Bio Cache CacheIO.
Import Bio Cache CacheIO.

Module CacheRa.
#[local] Set Default Proof Using "Type".

Section ra.
Context (sleep : Z → Z → M bst unit) (strategy : Z → M bst unit).
Context {phys : key → key} {good : key → Prop} `{!Driver strategy phys good}.
Implicit Types (V : key → block) (H : gmap Z (key * block)) (s : bst).
Notation cache := (cache (phys := phys) (good := good)).

Lemma wp_incore V H s dev blkno (Q : bool → bst → Prop) : cache V H s → (∀ b, Q b s) → wp (incore dev blkno) Q s.
Proof.
  intros [(qh & qf & Hh & _ & HP & _) _] HQ. unfold incore. cbv zeta. pose proof (khash_head (dev, blkno)) as Hkh. change (khash (dev, blkno)) with (BUFHASH dev blkno) in Hkh.
  pose proof Hh as [HR _]. destruct (ring_around _ _ _ [] _ (HR _ Hkh)) as [E1 _]. change (before (BUFHASH dev blkno) []) with (BUFHASH dev blkno) in E1.
  unfold gnm in E1. destruct (bufs s !! BUFHASH dev blkno) as [d|] eqn:Ed; [|done]. injection E1 as E1. apply wp_bind. eapply wp_load; [exact Ed|]. rewrite E1.
  pose proof (chain_short _ _ _ _ _ _ Hh HP Hkh) as Hlen. pose proof HP as (P1 & _). apply wp_bind.
  eapply (wp_hash_find s qh (BUFHASH dev blkno) dev blkno (qh (BUFHASH dev blkno)) []); [exact Hh|exact Hkh|intros; by eapply P1|done|unfold chain_fuel; lia|..].
  - intros _. by apply wp_ret.
  - intros bp c _ _ _. by apply wp_ret.
Qed.

(** The transfer that nobody waits for releases its buffer. *)
Lemma wp_read_async V H s bp c k v (Q : unit → bst → Prop) :
  cache V H s → H !! bp = Some (k, v) → ctm s bp = Some c → has B_DONE c = false → has B_DELWRI c = false →
  (∀ s', cache V (delete bp H) s' → u_error s' = u_error s → others bp s s' → Q tt s') →
  wp (start_read strategy bp (Z.lor B_READ B_ASYNC)) Q s.
Proof using Driver0.
  intros Hca HHb Hc Hdn Hdw HQ. pose proof (cache_held _ _ _ _ _ _ Hca HHb) as (Hb & Hg & c1 & Hc1 & Hk & Hd & Hbz & Hodd & [Has Hrs] & _). simplify_eq.
  destruct Hca as [Hi Hasy]. unfold start_read.
  apply wp_bind. eapply wp_touch; [by apply touched_refl|done|]. intros s1 T1 (D1 & K1 & U1)%env_of.
  apply wp_bind. eapply wp_touch; [exact T1|done|]. intros s2 T2 (D2 & K2 & U2)%env_of.
  set (c2 := set_b_bcount DEV_BSIZE (or_flags (Z.lor B_READ B_ASYNC) c)) in *.
  assert (Hc2 : ctm s2 bp = Some c2) by (destruct T2 as (_ & _ & ->); by rewrite decide_True).
  assert (Hk2 : bkey c2 = Some k) by (rewrite <- Hk; unfold c2, bkey; by bflags).
  apply wp_bind. eapply (wp_strategy strategy); [exact Hc2|exact Hk2|done|done|rewrite D2, D1; eauto|].
  unfold transfer. assert (has B_READ c2 = true) as -> by (unfold c2; by bflags). rewrite <- (bkey_of _ _ Hk2).
  eapply wp_biodone_async; [eapply touched_env; [exact T2|done]|unfold c2; by bflags|unfold c2; by bflags|]. intros s3 T3 (D3 & K3 & U3).
  set (c3 := or_flags B_DONE c2) in *. assert (Hc3 : ctm s3 bp = Some c3) by (destruct T3 as (_ & _ & ->); by rewrite decide_True).
  assert (Hi3 : cinv phys good V (<[bp := (k, V k)]> H) None s3).
  { eapply (cinv_read _ _ drv_inj V H s s3 bp c c3 k v); [exact Hi|exact HHb|exact Hc|exact T3|done|done|unfold c3, c2, bkey; by bflags|unfold c3, c2; by bflags..| |].
    + rewrite D3. simpl. rewrite D2, D1, K2, K1. done.
    + rewrite K3. simpl. congruence. }
  eapply (wp_brelse_done strategy V _ s); [exact Hi3|apply lookup_insert_eq|done|by eapply others_touched|intros z cz Hz _; by apply Hasy|intros c4; rewrite Hc3; by intros [= <-]|].
  rewrite delete_insert_eq. intros s4 [Hi4 Ha4] U4 O4 _. apply wp_modify, HQ; [|cbn; rewrite U4, U3; cbn; congruence|done].
  split; [by apply (cinv_env _ _ _ _ _ s4)|done].
Qed.

(** The block that is wanted next stays out of the way of the buffers held. *)
Lemma wp_ahead V H s fuel dev rablkno (Q : unit → bst → Prop) :
  cache V H s → dev ≠ NODEV → (rablkno ≠ 0 → good (dev, rablkno) ∧ ∀ bp v, H !! bp ≠ Some ((dev, rablkno), v)) →
  (size H < Z.to_nat NBUF)%nat → (Z.to_nat NBUF + 2 <= fuel)%nat →
  (∀ s', cache V H s' → u_error s' = u_error s → (∀ bp, is_Some (H !! bp) → ctm s' bp = ctm s bp) → Q tt s') →
  wp (if rablkno =? 0 then mret tt
      else
        i ← incore dev rablkno;
        if i : bool then mret tt
        else
          rabp ← getblk sleep strategy fuel dev rablkno;
          rb ← rdb rabp;
          if has (Z.lor B_DONE B_DELWRI) rb then brelse rabp
          else start_read strategy rabp (Z.lor B_READ B_ASYNC)) Q s.
Proof using Driver0.
  intros Hca Hdev Hra Hn Hf HQ. destruct (Z.eqb_spec rablkno 0) as [->|H0]; [apply wp_ret; by apply HQ|]. destruct (Hra H0) as [Hg Hnh].
  apply wp_bind. eapply wp_incore; [exact Hca|]. intros [|]; [apply wp_ret; by apply HQ|].
  apply wp_bind. eapply wp_getblk_tame; [done..|]. intros rb s1 v c Hca1 HHb U1 Hc1 Hv Htm.
  assert (Hsame : ∀ s2, others rb s1 s2 → ∀ bp, is_Some (H !! bp) → ctm s2 bp = ctm s bp).
  { intros s2 Ho bp [[k' v'] Hbp]. assert (Hne : bp ≠ rb) by congruence. assert (Hin : <[rb := ((dev, rablkno), v)]> H !! bp = Some (k', v')) by (by rewrite lookup_insert_ne).
    destruct (cache_held _ _ _ _ _ _ Hca1 Hin) as (Hb & _ & c' & Hc' & _). rewrite Ho, Hc' by done. destruct (Htm bp c' Hb Hne Hc') as (c0 & -> & [->|[? _]]); [done|congruence]. }
  pose proof (cache_held _ _ _ _ _ _ Hca1 (lookup_insert_eq _ _ _)) as (Hb & _ & c1 & Hc1' & _ & _ & _ & _ & [_ Hrs] & Hdd). simplify_eq.
  apply wp_bind. eapply wp_rd_ct; [exact Hc1|]. intros b Eb _ _. rewrite has_lor, !(has_ct _ _ _ Eb).
  destruct (has B_DONE c) eqn:Edn; cbn [orb].
  - eapply (wp_brelse_done strategy V _ s1 s1); [exact (proj1 Hca1)|apply lookup_insert_eq|intros c' Hc' _; by apply Hv|done|intros z cz Hz _; by apply (proj2 Hca1)|intros c'; rewrite Hc1; by intros [= <-]|].
    rewrite delete_insert_id by done. intros s2 Hca2 U2 O2 _. apply HQ; [done|congruence|by apply Hsame].
  - destruct (has B_DELWRI c) eqn:Edw; [specialize (Hdd eq_refl); congruence|].
    eapply wp_read_async; [exact Hca1|apply lookup_insert_eq|exact Hc1|done|done|]. rewrite delete_insert_id by done. intros s2 Hca2 U2 O2. apply HQ; [done|congruence|by apply Hsame].
Qed.

Lemma wp_breada V H s fuel dev blkno rablkno (Q : Z → bst → Prop) :
  let k := (dev, blkno) in
  cache V H s → good k → dev ≠ NODEV → (rablkno ≠ 0 → good (dev, rablkno) ∧ rablkno ≠ blkno) →
  (∀ bp b v, b = blkno ∨ b = rablkno → H !! bp ≠ Some ((dev, b), v)) → (S (size H) < Z.to_nat NBUF)%nat → (Z.to_nat NBUF + 2 <= fuel)%nat →
  (∀ bp s', cache V (<[bp := (k, V k)]> H) s' → H !! bp = None → u_error s' = u_error s → Q bp s') →
  wp (breada sleep strategy fuel dev blkno rablkno) Q s.
Proof using Driver0.
  intros k Hca Hg Hdev Hra Hnh Hn Hf HQ. unfold breada. apply wp_bind. eapply wp_incore; [exact Hca|]. intros [|]; apply wp_bind.
  - apply wp_ret, wp_bind. eapply (wp_ahead V H); [exact Hca|done|intros H0; split; [by apply Hra|intros bp v; apply Hnh; by right]|lia|done|]. intros s1 Hca1 U1 _.
    change (0 =? 0) with true. cbv iota. eapply (wp_bread sleep strategy V H); [exact Hca1|done|done|intros bp v; apply Hnh; by left|lia|done|]. intros bp s2 Hca2 HHb U2. apply HQ; [done|done|congruence].
  - apply wp_bind. eapply (wp_getblk sleep strategy V H); [exact Hca|done|done|intros bp v; apply Hnh; by left|lia|done|]. fold k. intros bp s1 v c Hca1 HHb U1 Hc1 Hv.
    pose proof (cache_held _ _ _ _ _ _ Hca1 (lookup_insert_eq _ _ _)) as (Hb & _ & c1 & Hc1' & _ & _ & _ & Hodd & _ & Hdd). simplify_eq.
    apply wp_bind. eapply wp_rd_ct; [exact Hc1|]. intros b Eb _ _. rewrite has_lor, !(has_ct _ _ _ Eb). apply wp_bind.
    apply (wp_mono _ (λ _ s', cache V (<[bp := (k, V k)]> H) s' ∧ u_error s' = u_error s ∧ ∃ c', ctm s' bp = Some c' ∧ has B_DONE c' = true ∧ has B_ERROR c' = false)).
    { apply wp_when; intros Hfl.
      - assert (has B_DONE c = false ∧ has B_DELWRI c = false) as [Edn Edw] by (by destruct (has B_DONE c), (has B_DELWRI c)).
        eapply (wp_read_transfer strategy); [exact Hca1|apply lookup_insert_eq|exact Hc1|done|done|]. rewrite insert_insert_eq. intros s2 c2 ? ? ? ? ?. split_and!; [done|congruence|eauto].
      - assert (Edn : has B_DONE c = true) by (destruct (has B_DONE c); [done|]; destruct (has B_DELWRI c) eqn:E; [by apply Hdd|done]).
        rewrite Hv in Hca1 by done. split_and!; [done|done|]. exists c. split_and!; [done|done|by apply (has_sub _ B_ODD)]. }
    intros _ s2 (Hca2 & U2 & c2 & Hc2 & Hdn2 & Her2). apply wp_ret, wp_bind.
    eapply (wp_ahead V (<[bp := (k, V k)]> H)); [exact Hca2|done| |rewrite map_size_insert_None by done; lia|done|].
    { intros H0. destruct (Hra H0) as [Hgr Hne]. split; [done|]. intros z w. destruct (decide (z = bp)) as [->|Hz]; [rewrite lookup_insert_eq; unfold k; congruence|].
      rewrite lookup_insert_ne by done. apply Hnh. by right. }
    intros s3 Hca3 U3 Hsame. rewrite (proj2 (Z.eqb_neq bp 0)) by (unfold isbuf, buf_at in Hb; lia).
    apply wp_bind. destruct fuel as [|fuel]; [lia|]. eapply (wp_biowait sleep); [rewrite Hsame by (rewrite lookup_insert_eq; eauto); exact Hc2|done|done|].
    intros s4 B4 E4. apply wp_ret, HQ; [by eapply cache_env|done|]. destruct E4 as (_ & _ & ->). congruence.
Qed.
End ra.
End CacheRa.
