(* ===== verification/CacheSpec.v ===== *)
(** * The buffer cache as a disk

    The users of the cache see a disk: a script of reads, writes of the three
    kinds and flushes gives the same results as on a plain array of blocks,
    from the state [binit] leaves and with the SD card as the driver.  Two
    executions show where the code falls short of this: an unchecked error of
    the card, and a block cached twice. *)

From S2P Require Import Prelude Links Bio Cache CacheIO.
Import Bio Cache CacheIO.

Module CacheSpec.
#[local] Set Default Proof Using "Type".

(** ** Scripts *)

Inductive wmode := Sync | Async | Delayed.
Inductive cop :=
| Read (k : key)
| Write (m : wmode) (k : key) (v : block)
| Flush (dev : Z).

(** A plain disk. *)
Definition plain_op (V : key → block) (o : cop) : (key → block) * list block :=
  match o with
  | Read k => (V, [V k])
  | Write _ k v => (vset V k v, [])
  | Flush _ => (V, [])
  end.
Fixpoint plain_run (V : key → block) (os : list cop) : (key → block) * list block :=
  match os with
  | [] => (V, [])
  | o :: os =>
      let '(V1, r) := plain_op V o in
      let '(V2, r') := plain_run V1 os in
      (V2, r ++ r')
  end.

Section script.
Context (sleep : Z → Z → M bst unit) (strategy : Z → M bst unit) (is_tape : Z → bool).

(** The data of a buffer, as its user reads and writes it. *)
Definition contents (bp : Z) : M bst block :=
  b ← rdb bp;
  load (λ s, data s !! b_addr b).
Definition fill (bp : Z) (v : block) : M bst unit :=
  b ← rdb bp;
  modify (λ s, set_data (<[b_addr b := v]> (data s)) s).

Definition run_op (fuel : nat) (o : cop) : M bst (list block) :=
  match o with
  | Read k =>
      bp ← bread sleep strategy fuel k.1 k.2;
      v ← contents bp;
      brelse bp;;
      mret [v]
  | Write m k v =>
      bp ← getblk sleep strategy fuel k.1 k.2;
      fill bp v;;
      match m with
      | Sync => bwrite sleep strategy fuel bp
      | Async => bawrite sleep strategy fuel bp
      | Delayed => bdwrite sleep strategy is_tape fuel bp
      end;;
      mret []
  | Flush dev =>
      bflush sleep strategy fuel dev;;
      mret []
  end.
Fixpoint run (fuel : nat) (os : list cop) : M bst (list block) :=
  match os with
  | [] => mret []
  | o :: os =>
      r ← run_op fuel o;
      r' ← run fuel os;
      mret (r ++ r')
  end.

(** Buffers to be written back, buffers to be found, and one more round. *)
Definition enough : nat := Z.to_nat NBUF + 2.

Context {phys : key → key} {good : key → Prop} `{!Driver strategy phys good}.
Implicit Types (V : key → block) (H : gmap Z (key * block)) (s : bst).
Notation cache := (cache (phys := phys) (good := good)).

Definition valid_op (o : cop) : Prop :=
  match o with
  | Read k | Write _ k _ => good k ∧ k.1 ≠ NODEV
  | Flush _ => True
  end.

Lemma wp_contents V H s bp k v (Q : block → bst → Prop) : cache V H s → H !! bp = Some (k, v) → Q v s → wp (contents bp) Q s.
Proof.
  intros Hca HHb HQ. destruct (cache_held _ _ _ _ _ _ Hca HHb) as (_ & _ & c & Hc & _ & Hd & _).
  unfold contents. apply wp_bind. eapply wp_rd_ct; [exact Hc|]. intros b Eb _ _. eapply wp_load; [|exact HQ]. rewrite <- Hd. by rewrite <- Eb.
Qed.

Lemma wp_fill V H s bp k v v' (Q : unit → bst → Prop) : cache V H s → H !! bp = Some (k, v) →
  (∀ s', cache V (<[bp := (k, v')]> H) s' → u_error s' = u_error s → Q tt s') → wp (fill bp v') Q s.
Proof using Driver0.
  intros Hca HHb HQ. destruct (cache_held _ _ _ _ _ _ Hca HHb) as (_ & _ & c & Hc & _). unfold fill. apply wp_bind.
  eapply wp_rd_ct; [exact Hc|]. intros b Eb _ _. apply wp_modify. apply HQ; [|done].
  assert (Ea : b_addr b = b_addr c) by (by rewrite <- Eb). rewrite Ea. by eapply (cache_store strategy).
Qed.

Lemma wp_run_op V s fuel o (Q : list block → bst → Prop) :
  cache V ∅ s → valid_op o → (enough <= fuel)%nat →
  (∀ s', cache (plain_op V o).1 ∅ s' → u_error s' = u_error s → Q (plain_op V o).2 s') → wp (run_op fuel o) Q s.
Proof using Driver0.
  assert (Hsz : (size (∅ : gmap Z (key * block)) < Z.to_nat NBUF)%nat) by (rewrite map_size_empty; unfold NBUF; lia).
  intros Hca Hok Hf HQ. destruct o as [[dev blk]|m [dev blk] v|dev]; cbn [run_op plain_op fst snd valid_op] in *.
  - destruct Hok as [Hg Hdev]. apply wp_bind. eapply (wp_bread sleep strategy V ∅); [done|done|done|by intros|exact Hsz|done|].
    intros bp s1 Hca1 _ U1. apply wp_bind. eapply wp_contents; [exact Hca1|apply lookup_insert_eq|]. apply wp_bind.
    pose proof Hca1 as [Hi1 Ha1]. eapply (wp_brelse_done strategy V _ s1); [exact Hi1|apply lookup_insert_eq|done|done|eauto| |].
    { intros c Hc. destruct (cache_held _ _ _ _ _ _ Hca1 (lookup_insert_eq _ _ _)) as (Hb & _). by apply (Ha1 bp c Hb Hc). }
    intros s2 Hca2 U2 _ _. rewrite delete_insert_eq, delete_empty in Hca2. apply wp_ret, HQ; [done|congruence].
  - destruct Hok as [Hg Hdev]. apply wp_bind. eapply (wp_getblk sleep strategy V ∅); [done|done|done|by intros|exact Hsz|done|].
    intros bp s1 v1 c Hca1 _ U1 _ _. apply wp_bind. eapply wp_fill; [exact Hca1|apply lookup_insert_eq|]. rewrite insert_insert_eq.
    intros s2 Hca2 U2. apply wp_bind. assert (Hend : ∀ s3, cache (vset V (dev, blk) v) (delete bp {[bp := (dev, blk, v)]}) s3 → u_error s3 = u_error s2 → wp (mret []) Q s3).
    { intros s3 Hca3 U3. rewrite delete_singleton_eq in Hca3. apply wp_ret, HQ; [done|congruence]. }
    destruct m; [|eapply (wp_bawrite sleep strategy V)|eapply (wp_bdwrite sleep strategy is_tape V)]; [destruct fuel as [|fuel]; [unfold enough in Hf; lia|]; eapply (wp_bwrite sleep strategy V)|..]; (exact Hca2 || apply lookup_insert_eq || eauto).
  - apply wp_bind. eapply (wp_bflush sleep strategy fuel V ∅ (list_to_set (seqZ (buf_at 0) NBUF))); [done| | |].
    + intros z c Hz _ _. apply elem_of_list_to_set, elem_of_seqZ. unfold isbuf, buf_at in *. lia.
    + rewrite size_list_to_set, length_seqZ by apply NoDup_seqZ. unfold enough in Hf. lia.
    + intros s1 Hca1 U1 _. apply wp_ret, HQ; done.
Qed.

Lemma wp_run_ops os : ∀ V s fuel (Q : list block → bst → Prop),
  cache V ∅ s → Forall valid_op os → (enough <= fuel)%nat →
  (∀ s', cache (plain_run V os).1 ∅ s' → u_error s' = u_error s → Q (plain_run V os).2 s') → wp (run fuel os) Q s.
Proof using Driver0.
  induction os as [|o os IH]; intros V s fuel Q Hca Hok Hf HQ; cbn [run plain_run] in *; [by apply wp_ret, HQ|].
  apply Forall_cons in Hok as [Ho Hok]. apply wp_bind. eapply wp_run_op; [exact Hca|done|done|]. intros s1 Hca1 U1. apply wp_bind.
  destruct (plain_op V o) as [V1 r1]. eapply IH; [exact Hca1|done|done|]. intros s2 Hca2 U2. apply wp_ret.
  cbn [fst snd] in *. destruct (plain_run V1 os) as [V2 r2]. apply HQ; [done|]. cbn [fst snd] in *. congruence.
Qed.
End script.

(** ** The SD card *)

Section sd.
Context (sdunit dp_offset dp_nsectors : Z → Z) (label_writable : Z → bool) (card_ok : bool → Z → Z → bool).
Hypothesis card_works : ∀ r u o, card_ok r u o = true.

Definition sd_phys (k : key) : key := (sdunit k.1, k.2 + Z.shiftr (dp_offset k.1) 1).
(** A block of one of the partitions [devs], past the label of its drive. *)
Definition sd_good (devs : list Z) (k : key) : Prop :=
  k.1 ∈ devs ∧ 0 ≤ k.2 < Z.shiftr (dp_nsectors k.1) 1 ∧ (sd_phys k).2 ≠ 0.
(** Partitions in use together do not overlap. *)
Definition sd_apart (devs : list Z) : Prop := ∀ d d', d ∈ devs → d' ∈ devs → d ≠ d' → sdunit d = sdunit d' →
  let o x := Z.shiftr (dp_offset x) 1 in let n x := Z.shiftr (dp_nsectors x) 1 in
  o d + n d ≤ o d' ∨ o d' + n d' ≤ o d.

Lemma sd_phys_inj devs k k' : sd_apart devs → sd_good devs k → sd_good devs k' → sd_phys k = sd_phys k' → k = k'.
Proof.
  intros Ha (H1 & H2 & _) (H1' & H2' & _) [= Eu Eo]. destruct k as [d b], k' as [d' b']. cbn [fst snd] in *.
  destruct (decide (d = d')) as [->|Hne]; [f_equal; lia|]. destruct (Ha d d' H1 H1' Hne Eu); lia.
Qed.

Lemma sd_transfers devs s bp b k : bufs s !! bp = Some b → bkey b = Some k → sd_good devs k → b_bcount b = DEV_BSIZE → is_Some (data s !! b_addr b) →
  sdstrategy sdunit dp_offset dp_nsectors label_writable card_ok bp s = biodone bp (transfer sd_phys b s).
Proof using card_works.
  intros Hb Hk (_ & Hr & Hz) Hn [v Hv]. apply bkey_of in Hk. subst k. cbn [fst snd] in *.
  unfold sd_phys in Hz. cbn [fst snd] in Hz.
  assert (Er : rdb bp s = Ret b s) by (unfold rdb, load; by rewrite Hb).
  unfold sdstrategy. unfold mbind at 1, M_bind at 1. rewrite Er. rewrite (proj2 (Z.eqb_neq _ _) Hz). cbn [andb].
  rewrite Hn. change (Z.shiftr (DEV_BSIZE + (DEV_BSIZE - 1)) 10) with 1. rewrite (proj2 (Z.ltb_ge _ _)) by lia.
  unfold mbind at 1, M_bind at 1. rewrite Er. unfold transfer, mbind, M_bind, card_read, card_write. rewrite !card_works.
  destruct (has B_READ b).
  - reflexivity.
  - unfold store, mbind, M_bind, option_bind. rewrite Hv. reflexivity.
Qed.

Lemma sd_driver devs : sd_apart devs → Driver (sdstrategy sdunit dp_offset dp_nsectors label_writable card_ok) sd_phys (sd_good devs).
Proof using card_works. intros Ha. split; [intros k k'; by apply sd_phys_inj|intros s bp b k; by apply sd_transfers]. Qed.
End sd.

(** ** The state [binit] leaves *)

(** Zeroed memory, with the heads and the headers. *)
Definition zero_buf : buf := Buf 0 0 0 0 0 0 0 0 0 0 0.
Definition mem_zero : gmap Z buf :=
  list_to_map ((λ p, (p, zero_buf)) <$> (bufhash_at <$> seqZ 0 BUFHSZ) ++ (bfreelist_at <$> seqZ 0 BQUEUES) ++ (buf_at <$> seqZ 0 NBUF)).
Definition mem_init : gmap Z buf := Eval vm_compute in
  match (bhinit;; binit) (BS mem_zero ∅ ∅ 0 0 0 []) with Ret _ s => bufs s | _ => ∅ end.

Lemma init_run d dk e i o w : (bhinit;; binit) (BS mem_zero d dk e i o w) = Ret tt (BS mem_init d dk e i o w).
Proof. vm_compute. reflexivity. Qed.

Definition init_list (h : Z) : list Z := if decide (h = bfreelist_at BQ_AGE) then reverse (seqZ (buf_at 0) NBUF) else [].

Lemma init_lists h z : z ∈ init_list h → h = bfreelist_at BQ_AGE ∧ isbuf z.
Proof.
  unfold init_list. case_decide; [|by intros ?%elem_of_nil]. rewrite elem_of_reverse, elem_of_seqZ. unfold isbuf, buf_at. intros. split; [done|lia].
Qed.

Lemma init_rings (gn gp : buf → Z) hs d dk e i o w :
  forallb (λ h, ringb (λ z, gn <$> mem_init !! z) (λ z, gp <$> mem_init !! z) h (init_list h)) hs = true → (∀ h, h ∈ hs → ¬ isbuf h) →
  rings gn gp (BS mem_init d dk e i o w) hs init_list.
Proof.
  intros Hr Hh. split.
  - intros h Hin. apply ringb_sound. by apply (forallb_elem _ _ _ Hr).
  - intros h h' x Hin Hin' [->|Hx] [Ex|Hx']; [done| | |].
    + destruct (init_lists _ _ Hx') as [_ Hb]. by destruct (Hh h Hin).
    + subst x. destruct (init_lists _ _ Hx) as [_ Hb]. by destruct (Hh h' Hin').
    + destruct (init_lists _ _ Hx) as [-> _], (init_lists _ _ Hx') as [-> _]. done.
Qed.

(** What [binit] makes of a header: free, invalid, with its own data area. *)
Lemma init_headers d dk e i o w z : isbuf z → ∃ c, ctm (BS mem_init d dk e i o w) z = Some c ∧
  b_flags c = B_INVAL ∧ b_dev c = NODEV ∧ b_addr c = bufdata_at (z - buf_at 0) ∧ b_resid c = 0.
Proof.
  intros Hz. set (chk := λ z, match mem_init !! z with
    | Some b => (b_flags b =? B_INVAL) && (b_dev b =? NODEV) && (b_addr b =? bufdata_at (z - buf_at 0)) && (b_resid b =? 0) | None => false end).
  assert (Hc : forallb chk (seqZ (buf_at 0) NBUF) = true) by (vm_compute; reflexivity).
  pose proof (forallb_range chk _ _ z Hc Hz) as Hk. unfold chk in Hk. unfold ctm. cbn [bufs].
  destruct (mem_init !! z) as [b|]; [|done]. exists (ct b). split; [done|]. to_prop. done.
Qed.

Lemma init_cache phys good d dk e i o w :
  (∀ j, 0 ≤ j < NBUF → is_Some (d !! bufdata_at j)) →
  CacheIO.cache (phys := phys) (good := good) (λ k, dget dk (phys k)) ∅ (BS mem_init d dk e i o w).
Proof.
  intros Hd. set (s := BS mem_init d dk e i o w). pose proof (init_headers d dk e i o w) as Hhd. fold s in Hhd.
  assert (HF : ∀ F c, b_flags c = B_INVAL → has F c = negb (Z.land B_INVAL F =? 0)) by (intros F c E; unfold has; by rewrite E).
  assert (Hkey : ∀ z c, isbuf z → ctm s z = Some c → bkey c = None ∧ has B_BUSY c = false).
  { intros z c Hz Hc. destruct (Hhd z Hz) as (c' & Hc' & Hf & Hdv & _). simplify_eq. unfold bkey. by rewrite !HF. }
  split; [exists init_list, init_list; split_and!|].
  - apply init_rings; [vm_compute; reflexivity|]. intros h Hin Hb. by apply (isbuf_not_head h h); auto.
  - apply init_rings; [vm_compute; reflexivity|]. intros h Hin Hb. by apply (isbuf_not_head h h); auto.
  - assert (Hall : ∀ bp, isbuf bp → bp ∈ init_list (bfreelist_at BQ_AGE)).
    { intros bp Hb. unfold init_list. rewrite decide_True by done. apply elem_of_reverse, elem_of_seqZ. unfold isbuf, buf_at in *. lia. }
    split_and!.
    + intros h bp _ Hin. by apply (init_lists h).
    + intros bp Hb. exists (bfreelist_at BQ_AGE). split; [by left|auto].
    + intros bp c k Hb _ Hc Hk. destruct (Hkey bp c Hb Hc). congruence.
    + intros h bp _ Hin. by apply (init_lists h).
    + done.
    + intros bp c Hb Hc. split; [|intros _; by apply (Hkey bp)]. intros _. exists (bfreelist_at BQ_AGE). split; [by apply free_head|auto].
  - split.
    + intros bp Hb. destruct (Hhd bp Hb) as (c & Hc & Hf & Hdv & Ha & _). exists c. split; [done|]. destruct (Hkey bp c Hb Hc) as [Hk Hbz].
      unfold bok. rewrite Hk, Hbz, !HF by done. split_and!; try done.
      * rewrite Ha. apply Hd. unfold isbuf, buf_at in *. lia.
      * split; [done|]. intros [[? ?]|?]; done.
    + intros bp bp' c c' Hb Hb' Hc Hc' Ea. destruct (Hhd bp Hb) as (c1 & Hc1 & _ & _ & Ha & _), (Hhd bp' Hb') as (c2 & Hc2 & _ & _ & Ha' & _).
      simplify_eq. rewrite Ha, Ha' in Ea. unfold bufdata_at, DEV_BSIZE in Ea. lia.
    + intros bp bp' c c' k Hb Hb' _ _ Hc Hc' Hk. destruct (Hkey bp c Hb Hc). congruence.
    + intros bp [[? ?]|?]; done.
    + done.
    + done.
  - intros z c Hz Hc. destruct (Hhd z Hz) as (c' & Hc' & Hf & _ & _ & Hr). simplify_eq. split; [by rewrite HF|done].
Qed.

(** ** Executions that break the promise *)

(** A card that accepts no command. *)
Lemma sd_dead_card devs sdunit dp_offset dp_nsectors label_writable s bp b k :
  bufs s !! bp = Some b → bkey b = Some k → sd_good sdunit dp_offset dp_nsectors devs k → b_bcount b = DEV_BSIZE →
  sdstrategy sdunit dp_offset dp_nsectors label_writable (λ _ _ _, false) bp s = biodone bp s.
Proof.
  intros Hb Hk (_ & Hr & Hz) Hn. apply bkey_of in Hk. subst k. unfold sd_phys in Hz. cbn [fst snd] in *.
  assert (Er : rdb bp s = Ret b s) by (unfold rdb, load; by rewrite Hb).
  unfold sdstrategy. unfold mbind at 1, M_bind at 1. rewrite Er. rewrite (proj2 (Z.eqb_neq _ _) Hz). cbn [andb].
  rewrite Hn. change (Z.shiftr (DEV_BSIZE + (DEV_BSIZE - 1)) 10) with 1. rewrite (proj2 (Z.ltb_ge _ _)) by lia.
  unfold mbind at 1, M_bind at 1. rewrite Er. unfold mbind, M_bind, card_read, card_write. by destruct (has B_READ b).
Qed.

(** One drive with a partition of 100 blocks that starts at block 1. *)
Definition one_strategy : Z → M bst unit := sdstrategy (λ _, 0) (λ _, 2) (λ _, 200) (λ _, false) (λ _ _ _, true).
Definition nosleep : Z → Z → M bst unit := λ _ _, mret tt.

(** Ten buffers held for blocks 20 to 29 of device 0. *)
Fixpoint hold (n : nat) (blk : Z) : M bst unit :=
  match n with
  | O => mret tt
  | S n =>
      _ ← getblk nosleep one_strategy enough 0 blk;
      hold n (blk + 1)
  end.

(** While a process waits for a buffer another one gets two of them back,
    writes block 5 and leaves it to be written later. *)
Definition rival (chan pri : Z) : M bst unit :=
  brelse (buf_at 0);;
  brelse (buf_at 1);;
  bp ← getblk nosleep one_strategy enough 0 5;
  fill bp [7];;
  bdwrite nosleep one_strategy (λ _, false) enough bp.

Definition data_zero : gmap Z block := list_to_map ((λ j, (bufdata_at j, zero_block)) <$> seqZ 0 NBUF).
Definition race : M bst (Z * block) :=
  bhinit;;
  binit;;
  hold 10 20;;
  bp ← bread rival one_strategy enough 0 5;
  v ← contents bp;
  mret (bp, v).

Lemma data_zero_ok j : 0 ≤ j < NBUF → is_Some (data_zero !! bufdata_at j).
Proof.
  intros Hj. set (chk := λ j, match data_zero !! bufdata_at j with Some _ => true | None => false end).
  assert (Hc : forallb chk (seqZ 0 NBUF) = true) by (vm_compute; reflexivity).
  pose proof (forallb_range chk _ _ j Hc Hj) as Hk. unfold chk in Hk. destruct (data_zero !! bufdata_at j); [eauto|done].
Qed.

(** The valid buffers of a block. *)
Definition holders (k : key) (s : bst) : list Z :=
  filter (λ z, ctm s z ≫= bkey = Some k) (seqZ (buf_at 0) NBUF).

(** ** Claims *)

(** C12: the buffer cache over the SD card is a disk.  From the state [bhinit]
    and [binit] leave, any script of reads, synchronous, asynchronous and
    delayed writes and flushes of blocks of partitions that do not overlap
    terminates without a panic or an error, and its reads return exactly what
    they return on a plain array of blocks, whatever was evicted or is still
    unwritten. *)
Theorem sd_cache_is_disk sleep is_tape sdunit dp_offset dp_nsectors label_writable card_ok devs d dk e i o w os :
  (∀ r u off, card_ok r u off = true) → sd_apart sdunit dp_offset dp_nsectors devs →
  (∀ j, 0 ≤ j < NBUF → is_Some (d !! bufdata_at j)) → Forall (valid_op (good := sd_good sdunit dp_offset dp_nsectors devs)) os →
  wp (bhinit;; binit;; run sleep (sdstrategy sdunit dp_offset dp_nsectors label_writable card_ok) is_tape enough os)
    (λ rs s', rs = (plain_run (λ k, dget dk (sd_phys sdunit dp_offset k)) os).2 ∧ u_error s' = e) (BS mem_zero d dk e i o w).
Proof.
  intros Hcard Hap Hd Hok. pose proof (sd_driver sdunit dp_offset dp_nsectors label_writable card_ok Hcard devs Hap) as Hdrv.
  pose proof (init_run d dk e i o w) as Hrun. apply wp_run. revert Hrun. unfold mbind, M_bind.
  destruct (bhinit (BS mem_zero d dk e i o w)) as [[] s1| | |]; [|done..]. intros Hrun. rewrite Hrun. apply wp_run.
  eapply (wp_run_ops _ _ _ (phys := sd_phys sdunit dp_offset)); [by apply init_cache|exact Hok|done|]. intros s' _ Hu. done.
Qed.

Lemma sd_cache_is_disk_witness :
  wp (bhinit;; binit;; run nosleep one_strategy (λ _, false) enough [Write Delayed (0, 5) [7]; Read (0, 5); Read (0, 6)])
    (λ rs s', rs = [[7]; zero_block] ∧ u_error s' = 0) (BS mem_zero data_zero ∅ 0 0 0 []).
Proof.
  unfold one_strategy. eapply wp_mono; [apply (sd_cache_is_disk nosleep (λ _, false) (λ _, 0) (λ _, 2) (λ _, 200) (λ _, false) (λ _ _ _, true) [0] data_zero ∅ 0 0 0 [])|].
  - done.
  - intros x y Hx%list_elem_of_singleton Hy%list_elem_of_singleton Hne. congruence.
  - apply data_zero_ok.
  - repeat constructor; vm_compute; done.
  - intros rs s' [-> Hu]. split; [vm_compute; reflexivity|exact Hu].
Defined.

(** C13: what the users wrote reaches the disk.  After any script of valid
    operations [bflush] of a device terminates, and then every block of the
    device that is in use is on the disk as the script left it. *)
Theorem bflush_durable sleep strategy is_tape phys good `{!Driver strategy phys good} V s fuel os dev :
  CacheIO.cache (phys := phys) (good := good) V ∅ s → Forall (valid_op (good := good)) os → (enough <= fuel)%nat →
  wp (_ ← run sleep strategy is_tape fuel os; bflush sleep strategy fuel dev)
    (λ _ s', ∀ k, good k → k.1 = dev → dget (disk s') (phys k) = (plain_run V os).1 k) s.
Proof.
  intros Hca Hok Hf. apply wp_bind. eapply (wp_run_ops sleep strategy is_tape (phys := phys) (good := good)); [exact Hca|exact Hok|exact Hf|]. intros s1 Hca1 _.
  eapply (wp_bflush sleep strategy fuel _ ∅ (list_to_set (seqZ (buf_at 0) NBUF))); [exact Hca1| | |].
  - intros z c Hz _ _. apply elem_of_list_to_set, elem_of_seqZ. unfold isbuf, buf_at in *. lia.
  - rewrite size_list_to_set, length_seqZ by apply NoDup_seqZ. unfold enough in Hf. lia.
  - intros s2 Hca2 _ Hcl k Hg <-. by eapply (clean_on_disk (good := good) _ ∅ s2 k).
Qed.

Lemma bflush_durable_witness :
  wp (_ ← run nosleep one_strategy (λ _, false) enough [Write Delayed (0, 5) [7]]; bflush nosleep one_strategy enough 0)
    (λ _ s', ∀ k, sd_good (λ _, 0) (λ _, 2) (λ _, 200) [0] k → k.1 = 0 → dget (disk s') (sd_phys (λ _, 0) (λ _, 2) k) = (plain_run (λ k, dget ∅ (sd_phys (λ _, 0) (λ _, 2) k)) [Write Delayed (0, 5) [7]]).1 k)
    (BS mem_init data_zero ∅ 0 0 0 []).
Proof.
  apply (bflush_durable (Driver0 := sd_driver (λ _, 0) (λ _, 2) (λ _, 200) (λ _, false) (λ _ _ _, true) (λ _ _ _, eq_refl) [0]
    (λ x y Hx Hy Hne _, match Hne (eq_trans (proj1 (list_elem_of_singleton x 0) Hx) (eq_sym (proj1 (list_elem_of_singleton y 0) Hy))) with end))
    nosleep _ (λ _, false) _ _ (λ k, dget ∅ (sd_phys (λ _, 0) (λ _, 2) k)) _ enough [Write Delayed (0, 5) [7]] 0).
  - apply (init_cache (sd_phys (λ _, 0) (λ _, 2)) _ data_zero ∅ 0 0 0 []).
    apply data_zero_ok.
  - repeat constructor; vm_compute; done.
  - done.
Defined.

(** a block may be cached twice.  [getblk] looks for the block, then sleeps
    in [getnewbuf] for a buffer, and does not look again: if another process
    brings the block in meanwhile two valid buffers hold it, and [bread]
    returns the block as it was before the other process wrote it. *)
Theorem getblk_race : match race (BS mem_zero data_zero ∅ 0 0 0 []) with
  | Ret (bp, v) s => holders (0, 5) s = [buf_at 0; bp] ∧ v = zero_block ∧ data s !! bufdata_at 0 = Some [7] ∧ u_error s = 0
  | _ => False
  end.
Proof. vm_compute. split_and!; reflexivity. Qed.

(** a failed transfer is not reported.  When the card rejects a command
    [sdstrategy] calls [biodone] on the unchanged state: a read of a block in
    range leaves the old contents of the buffer, marked as valid, with neither
    [B_ERROR] nor [u_error] set. *)
Theorem sdstrategy_hides_failure sdunit dp_offset dp_nsectors label_writable devs sleep fuel s bp b k :
  bufs s !! bp = Some b → bkey b = Some k → sd_good sdunit dp_offset dp_nsectors devs k → b_bcount b = DEV_BSIZE →
  has B_DONE b = false → has B_ASYNC b = false → has B_ERROR b = false → u_error s = 0 →
  wp (sdstrategy sdunit dp_offset dp_nsectors label_writable (λ _ _ _, false) bp;; biowait sleep (S fuel) bp)
    (λ _ s', data s' = data s ∧ disk s' = disk s ∧ u_error s' = 0 ∧ ∃ b', bufs s' !! bp = Some b' ∧ has B_DONE b' = true ∧ has B_ERROR b' = false) s.
Proof.
  intros Hb Hk Hg Hn Hdn Has Her Hu. apply wp_bind. apply wp_run.
  rewrite (sd_dead_card devs _ _ _ _ s bp b k) by done. apply wp_run.
  assert (Hc : ctm s bp = Some (ct b)) by (unfold ctm; by rewrite Hb).
  eapply (wp_biodone_sync s s bp (ct b)); [by apply touched_refl|done|done|]. intros s1 (_ & _ & C1) (D1 & K1 & U1).
  set (c1 := and_not_flags B_WANTED (or_flags B_DONE (ct b))) in *. specialize (C1 bp). rewrite decide_True in C1 by done.
  eapply wp_biowait; [exact C1|unfold c1; by bflags|unfold c1; by bflags|]. intros s2 B2 (D2 & K2 & U2).
  split_and!; [congruence..|]. unfold ctm in C1. rewrite <- B2 in C1. destruct (bufs s2 !! bp) as [b'|]; [|done].
  assert (E1 : ct b' = c1) by exact (inj Some _ _ C1). exists b'. split; [done|]. rewrite !(has_ct _ _ _ E1). unfold c1. by bflags.
Qed.

Lemma sdstrategy_hides_failure_witness :
  let b := Buf (Z.lor B_BUSY B_READ) 0 0 0 0 DEV_BSIZE 0 0 (bufdata_at 0) 5 0 in
  wp (sdstrategy (λ _, 0) (λ _, 2) (λ _, 200) (λ _, false) (λ _ _ _, false) (buf_at 0);; biowait nosleep 1 (buf_at 0))
    (λ _ s', data s' = data_zero ∧ disk s' = ∅ ∧ u_error s' = 0 ∧ ∃ b', bufs s' !! buf_at 0 = Some b' ∧ has B_DONE b' = true ∧ has B_ERROR b' = false)
    (BS {[buf_at 0 := b]} data_zero ∅ 0 0 0 []).
Proof.
  intros b. apply (sdstrategy_hides_failure (λ _, 0) (λ _, 2) (λ _, 200) (λ _, false) [0] nosleep 0 (BS {[buf_at 0 := b]} data_zero ∅ 0 0 0 []) (buf_at 0) b (0, 5)); try (vm_compute; reflexivity).
  split; [by left|]. split; [vm_compute; done|done].
Defined.
End CacheSpec.
