(* ===== verification/Alloc.v ===== *)
(** * Block allocation (sys/kernel/ufs_alloc.c, ufs_subr.c)

    The free blocks of a file system are a list in chunks of up to [NICFREE]
    block numbers: the first chunk is in the superblock in core, and block 0 of
    each chunk holds the next one.  The superblocks, the inodes and the mount
    table join the buffer cache in the state; disk blocks are lists of 256
    words of 32 bits. *)

From S2P Require Import Prelude Links Que NameCache Bio Cache CacheIO CacheSpec.
Import NameCache Bio Cache CacheIO CacheSpec.

Module Alloc.
#[local] Set Default Proof Using "Type".

(** ** State *)

Definition SUPERB : Z := 0.
Definition NICINOD : Z := 32.
Definition NICFREE : Z := 200.
Definition MNT_ASYNC : Z := 64.
Definition B_CLRBUF : Z := 1.
Definition B_SYNC : Z := 2.
Definition PINOD : Z := 10.
Definition ENOSPC : Z := 28.
Definition EFBIG : Z := 27.
Definition NMOUNT : Z := 2.

(** [fs_fsmnt], 28 characters, is kept as seven words. *)
Record fs := Fs {
  fs_magic1 : Z;
  fs_isize : Z;
  fs_fsize : Z;
  fs_swapsz : Z;
  fs_nfree : Z;
  fs_free : list Z;
  fs_ninode : Z;
  fs_inode : list Z;
  fs_flock : Z;
  fs_fmod : Z;
  fs_ilock : Z;
  fs_ronly : Z;
  fs_time : Z;
  fs_tfree : Z;
  fs_tinode : Z;
  fs_fsmnt : list Z;
  fs_lasti : Z;
  fs_nbehind : Z;
  fs_flags : Z;
  fs_magic2 : Z
}.

Definition set_fs_nfree (v : Z) (f : fs) : fs := Fs (fs_magic1 f) (fs_isize f) (fs_fsize f) (fs_swapsz f) v (fs_free f) (fs_ninode f) (fs_inode f) (fs_flock f) (fs_fmod f) (fs_ilock f) (fs_ronly f) (fs_time f) (fs_tfree f) (fs_tinode f) (fs_fsmnt f) (fs_lasti f) (fs_nbehind f) (fs_flags f) (fs_magic2 f).
Definition set_fs_free (v : list Z) (f : fs) : fs := Fs (fs_magic1 f) (fs_isize f) (fs_fsize f) (fs_swapsz f) (fs_nfree f) v (fs_ninode f) (fs_inode f) (fs_flock f) (fs_fmod f) (fs_ilock f) (fs_ronly f) (fs_time f) (fs_tfree f) (fs_tinode f) (fs_fsmnt f) (fs_lasti f) (fs_nbehind f) (fs_flags f) (fs_magic2 f).
Definition set_fs_ninode (v : Z) (f : fs) : fs := Fs (fs_magic1 f) (fs_isize f) (fs_fsize f) (fs_swapsz f) (fs_nfree f) (fs_free f) v (fs_inode f) (fs_flock f) (fs_fmod f) (fs_ilock f) (fs_ronly f) (fs_time f) (fs_tfree f) (fs_tinode f) (fs_fsmnt f) (fs_lasti f) (fs_nbehind f) (fs_flags f) (fs_magic2 f).
Definition set_fs_inode (v : list Z) (f : fs) : fs := Fs (fs_magic1 f) (fs_isize f) (fs_fsize f) (fs_swapsz f) (fs_nfree f) (fs_free f) (fs_ninode f) v (fs_flock f) (fs_fmod f) (fs_ilock f) (fs_ronly f) (fs_time f) (fs_tfree f) (fs_tinode f) (fs_fsmnt f) (fs_lasti f) (fs_nbehind f) (fs_flags f) (fs_magic2 f).
Definition set_fs_flock (v : Z) (f : fs) : fs := Fs (fs_magic1 f) (fs_isize f) (fs_fsize f) (fs_swapsz f) (fs_nfree f) (fs_free f) (fs_ninode f) (fs_inode f) v (fs_fmod f) (fs_ilock f) (fs_ronly f) (fs_time f) (fs_tfree f) (fs_tinode f) (fs_fsmnt f) (fs_lasti f) (fs_nbehind f) (fs_flags f) (fs_magic2 f).
Definition set_fs_fmod (v : Z) (f : fs) : fs := Fs (fs_magic1 f) (fs_isize f) (fs_fsize f) (fs_swapsz f) (fs_nfree f) (fs_free f) (fs_ninode f) (fs_inode f) (fs_flock f) v (fs_ilock f) (fs_ronly f) (fs_time f) (fs_tfree f) (fs_tinode f) (fs_fsmnt f) (fs_lasti f) (fs_nbehind f) (fs_flags f) (fs_magic2 f).
Definition set_fs_ilock (v : Z) (f : fs) : fs := Fs (fs_magic1 f) (fs_isize f) (fs_fsize f) (fs_swapsz f) (fs_nfree f) (fs_free f) (fs_ninode f) (fs_inode f) (fs_flock f) (fs_fmod f) v (fs_ronly f) (fs_time f) (fs_tfree f) (fs_tinode f) (fs_fsmnt f) (fs_lasti f) (fs_nbehind f) (fs_flags f) (fs_magic2 f).
Definition set_fs_time (v : Z) (f : fs) : fs := Fs (fs_magic1 f) (fs_isize f) (fs_fsize f) (fs_swapsz f) (fs_nfree f) (fs_free f) (fs_ninode f) (fs_inode f) (fs_flock f) (fs_fmod f) (fs_ilock f) (fs_ronly f) v (fs_tfree f) (fs_tinode f) (fs_fsmnt f) (fs_lasti f) (fs_nbehind f) (fs_flags f) (fs_magic2 f).
Definition set_fs_tfree (v : Z) (f : fs) : fs := Fs (fs_magic1 f) (fs_isize f) (fs_fsize f) (fs_swapsz f) (fs_nfree f) (fs_free f) (fs_ninode f) (fs_inode f) (fs_flock f) (fs_fmod f) (fs_ilock f) (fs_ronly f) (fs_time f) v (fs_tinode f) (fs_fsmnt f) (fs_lasti f) (fs_nbehind f) (fs_flags f) (fs_magic2 f).
Definition set_fs_tinode (v : Z) (f : fs) : fs := Fs (fs_magic1 f) (fs_isize f) (fs_fsize f) (fs_swapsz f) (fs_nfree f) (fs_free f) (fs_ninode f) (fs_inode f) (fs_flock f) (fs_fmod f) (fs_ilock f) (fs_ronly f) (fs_time f) (fs_tfree f) v (fs_fsmnt f) (fs_lasti f) (fs_nbehind f) (fs_flags f) (fs_magic2 f).
Definition set_fs_lasti (v : Z) (f : fs) : fs := Fs (fs_magic1 f) (fs_isize f) (fs_fsize f) (fs_swapsz f) (fs_nfree f) (fs_free f) (fs_ninode f) (fs_inode f) (fs_flock f) (fs_fmod f) (fs_ilock f) (fs_ronly f) (fs_time f) (fs_tfree f) (fs_tinode f) (fs_fsmnt f) v (fs_nbehind f) (fs_flags f) (fs_magic2 f).
Definition set_fs_nbehind (v : Z) (f : fs) : fs := Fs (fs_magic1 f) (fs_isize f) (fs_fsize f) (fs_swapsz f) (fs_nfree f) (fs_free f) (fs_ninode f) (fs_inode f) (fs_flock f) (fs_fmod f) (fs_ilock f) (fs_ronly f) (fs_time f) (fs_tfree f) (fs_tinode f) (fs_fsmnt f) (fs_lasti f) v (fs_flags f) (fs_magic2 f).

(** The structure copies: a superblock fills a block, [struct fblk] its first
    201 words. *)
Definition fs_words (f : fs) : list Z :=
  [fs_magic1 f; fs_isize f; fs_fsize f; fs_swapsz f; fs_nfree f] ++ fs_free f ++ [fs_ninode f] ++ fs_inode f ++
  [fs_flock f; fs_fmod f; fs_ilock f; fs_ronly f; fs_time f; fs_tfree f; fs_tinode f] ++ fs_fsmnt f ++
  [fs_lasti f; fs_nbehind f; fs_flags f; fs_magic2 f].
Definition put_fblk (f : fs) (blk : list Z) : list Z := fs_nfree f :: fs_free f ++ drop (S (Z.to_nat NICFREE)) blk.
Definition get_fblk (blk : list Z) (f : fs) : fs :=
  set_fs_nfree (default 0 (head blk)) (set_fs_free (take (Z.to_nat NICFREE) (tail blk)) f).

(** An inode in core, with the macros of inode.h as projections.  Field [i_freef]
    is also [i_lastr] of a file in use, [i_freeb] holds the address of the pointer
    that leads here, and [i_rdev] of a device lies over the second address.  The
    lock counts and the select pointers are with the descriptors. *)
Record icommon1 := Icommon1 { ic_mode : Z; ic_nlink : Z; ic_uid : Z; ic_gid : Z; ic_size : Z }.
Record icommon2 := Icommon2 { ic_atime : Z; ic_mtime : Z; ic_ctime : Z }.
Record inode := Inode {
  i_forw : Z;
  i_back : Z;
  i_flag : Z;
  i_count : Z;
  i_dev : Z;
  i_number : Z;
  i_id : Z;
  i_fs : Z;
  i_addr : list Z;
  i_freef : Z;
  i_freeb : Z;
  i_ic1 : icommon1;
  i_flags : Z;
  i_ic2 : icommon2
}.
Definition i_mode (i : inode) : Z := ic_mode (i_ic1 i).
Definition i_nlink (i : inode) : Z := ic_nlink (i_ic1 i).
Definition i_size (i : inode) : Z := ic_size (i_ic1 i).
Definition i_rdev (i : inode) : Z := default 0 (i_addr i !! 1%nat).

Definition set_i_forw (v : Z) (i : inode) : inode := Inode v (i_back i) (i_flag i) (i_count i) (i_dev i) (i_number i) (i_id i) (i_fs i) (i_addr i) (i_freef i) (i_freeb i) (i_ic1 i) (i_flags i) (i_ic2 i).
Definition set_i_back (v : Z) (i : inode) : inode := Inode (i_forw i) v (i_flag i) (i_count i) (i_dev i) (i_number i) (i_id i) (i_fs i) (i_addr i) (i_freef i) (i_freeb i) (i_ic1 i) (i_flags i) (i_ic2 i).
Definition set_i_flag (v : Z) (i : inode) : inode := Inode (i_forw i) (i_back i) v (i_count i) (i_dev i) (i_number i) (i_id i) (i_fs i) (i_addr i) (i_freef i) (i_freeb i) (i_ic1 i) (i_flags i) (i_ic2 i).
Definition set_i_count (v : Z) (i : inode) : inode := Inode (i_forw i) (i_back i) (i_flag i) v (i_dev i) (i_number i) (i_id i) (i_fs i) (i_addr i) (i_freef i) (i_freeb i) (i_ic1 i) (i_flags i) (i_ic2 i).
Definition set_i_dev (v : Z) (i : inode) : inode := Inode (i_forw i) (i_back i) (i_flag i) (i_count i) v (i_number i) (i_id i) (i_fs i) (i_addr i) (i_freef i) (i_freeb i) (i_ic1 i) (i_flags i) (i_ic2 i).
Definition set_i_number (v : Z) (i : inode) : inode := Inode (i_forw i) (i_back i) (i_flag i) (i_count i) (i_dev i) v (i_id i) (i_fs i) (i_addr i) (i_freef i) (i_freeb i) (i_ic1 i) (i_flags i) (i_ic2 i).
Definition set_i_id (v : Z) (i : inode) : inode := Inode (i_forw i) (i_back i) (i_flag i) (i_count i) (i_dev i) (i_number i) v (i_fs i) (i_addr i) (i_freef i) (i_freeb i) (i_ic1 i) (i_flags i) (i_ic2 i).
Definition set_i_fs (v : Z) (i : inode) : inode := Inode (i_forw i) (i_back i) (i_flag i) (i_count i) (i_dev i) (i_number i) (i_id i) v (i_addr i) (i_freef i) (i_freeb i) (i_ic1 i) (i_flags i) (i_ic2 i).
Definition set_i_addr (v : list Z) (i : inode) : inode := Inode (i_forw i) (i_back i) (i_flag i) (i_count i) (i_dev i) (i_number i) (i_id i) (i_fs i) v (i_freef i) (i_freeb i) (i_ic1 i) (i_flags i) (i_ic2 i).
Definition set_i_freef (v : Z) (i : inode) : inode := Inode (i_forw i) (i_back i) (i_flag i) (i_count i) (i_dev i) (i_number i) (i_id i) (i_fs i) (i_addr i) v (i_freeb i) (i_ic1 i) (i_flags i) (i_ic2 i).
Definition set_i_freeb (v : Z) (i : inode) : inode := Inode (i_forw i) (i_back i) (i_flag i) (i_count i) (i_dev i) (i_number i) (i_id i) (i_fs i) (i_addr i) (i_freef i) v (i_ic1 i) (i_flags i) (i_ic2 i).
Definition set_i_ic1 (v : icommon1) (i : inode) : inode := Inode (i_forw i) (i_back i) (i_flag i) (i_count i) (i_dev i) (i_number i) (i_id i) (i_fs i) (i_addr i) (i_freef i) (i_freeb i) v (i_flags i) (i_ic2 i).
Definition set_i_flags (v : Z) (i : inode) : inode := Inode (i_forw i) (i_back i) (i_flag i) (i_count i) (i_dev i) (i_number i) (i_id i) (i_fs i) (i_addr i) (i_freef i) (i_freeb i) (i_ic1 i) v (i_ic2 i).
Definition set_i_ic2 (v : icommon2) (i : inode) : inode := Inode (i_forw i) (i_back i) (i_flag i) (i_count i) (i_dev i) (i_number i) (i_id i) (i_fs i) (i_addr i) (i_freef i) (i_freeb i) (i_ic1 i) (i_flags i) v.
Definition set_i_mode (v : Z) (i : inode) : inode := let c := i_ic1 i in set_i_ic1 (Icommon1 v (ic_nlink c) (ic_uid c) (ic_gid c) (ic_size c)) i.
Definition set_i_size (v : Z) (i : inode) : inode := let c := i_ic1 i in set_i_ic1 (Icommon1 (ic_mode c) (ic_nlink c) (ic_uid c) (ic_gid c) v) i.
Definition set_i_atime (v : Z) (i : inode) : inode := let c := i_ic2 i in set_i_ic2 (Icommon2 v (ic_mtime c) (ic_ctime c)) i.
Definition set_i_mtime (v : Z) (i : inode) : inode := let c := i_ic2 i in set_i_ic2 (Icommon2 (ic_atime c) v (ic_ctime c)) i.
Definition set_i_ctime (v : Z) (i : inode) : inode := let c := i_ic2 i in set_i_ic2 (Icommon2 (ic_atime c) (ic_mtime c) v) i.

Record mount_ent := Mount { m_inodp : Z; m_dev : Z; m_filsys : Z }.

(** The inode table hangs from [ihead], the links of the hash chain heads, and
    the free list from [ifreeh] to [ifreet]; [nch] is the name cache. *)
Record ast := AS {
  bs : bst;
  fss : gmap Z fs;
  inodes : gmap Z inode;
  ihead : gmap Z (Z * Z);
  ifreeh : Z;
  ifreet : Z;
  nextinodeid : Z;
  nch : nst;
  mount : list mount_ent;
  time_sec : Z;
  rablock : Z;
  console : list string;
  fwakeups : list Z
}.
Definition set_bs (v : bst) (s : ast) : ast := AS v (fss s) (inodes s) (ihead s) (ifreeh s) (ifreet s) (nextinodeid s) (nch s) (mount s) (time_sec s) (rablock s) (console s) (fwakeups s).
Definition set_fss (v : gmap Z fs) (s : ast) : ast := AS (bs s) v (inodes s) (ihead s) (ifreeh s) (ifreet s) (nextinodeid s) (nch s) (mount s) (time_sec s) (rablock s) (console s) (fwakeups s).
Definition set_inodes (v : gmap Z inode) (s : ast) : ast := AS (bs s) (fss s) v (ihead s) (ifreeh s) (ifreet s) (nextinodeid s) (nch s) (mount s) (time_sec s) (rablock s) (console s) (fwakeups s).
Definition set_ihead (v : gmap Z (Z * Z)) (s : ast) : ast := AS (bs s) (fss s) (inodes s) v (ifreeh s) (ifreet s) (nextinodeid s) (nch s) (mount s) (time_sec s) (rablock s) (console s) (fwakeups s).
Definition set_ifreeh (v : Z) (s : ast) : ast := AS (bs s) (fss s) (inodes s) (ihead s) v (ifreet s) (nextinodeid s) (nch s) (mount s) (time_sec s) (rablock s) (console s) (fwakeups s).
Definition set_ifreet (v : Z) (s : ast) : ast := AS (bs s) (fss s) (inodes s) (ihead s) (ifreeh s) v (nextinodeid s) (nch s) (mount s) (time_sec s) (rablock s) (console s) (fwakeups s).
Definition set_nextinodeid (v : Z) (s : ast) : ast := AS (bs s) (fss s) (inodes s) (ihead s) (ifreeh s) (ifreet s) v (nch s) (mount s) (time_sec s) (rablock s) (console s) (fwakeups s).
Definition set_nch (v : nst) (s : ast) : ast := AS (bs s) (fss s) (inodes s) (ihead s) (ifreeh s) (ifreet s) (nextinodeid s) v (mount s) (time_sec s) (rablock s) (console s) (fwakeups s).
Definition set_rablock (v : Z) (s : ast) : ast := AS (bs s) (fss s) (inodes s) (ihead s) (ifreeh s) (ifreet s) (nextinodeid s) (nch s) (mount s) (time_sec s) v (console s) (fwakeups s).
Definition set_console (v : list string) (s : ast) : ast := AS (bs s) (fss s) (inodes s) (ihead s) (ifreeh s) (ifreet s) (nextinodeid s) (nch s) (mount s) (time_sec s) (rablock s) v (fwakeups s).
Definition set_fwakeups (v : list Z) (s : ast) : ast := AS (bs s) (fss s) (inodes s) (ihead s) (ifreeh s) (ifreet s) (nextinodeid s) (nch s) (mount s) (time_sec s) (rablock s) (console s) v.

Notation A := (M ast).

(** An operation of the buffer cache. *)
Definition bio {X} (m : M bst X) : A X := λ s,
  match m (bs s) with
  | Ret a b => Ret a (set_bs b s)
  | Panic msg b => Panic msg (set_bs b s)
  | Fault => Fault
  | NoFuel => NoFuel
  end.
Definition rdfs (p : Z) : A fs := load (λ s, fss s !! p).
Definition wrfs (p : Z) (f : fs → fs) : A unit := store (λ s, x ← fss s !! p; Some (set_fss (<[p := f x]> (fss s)) s)).
Definition rdi (p : Z) : A inode := load (λ s, inodes s !! p).
Definition wri (p : Z) (f : inode → inode) : A unit := store (λ s, x ← inodes s !! p; Some (set_inodes (<[p := f x]> (inodes s)) s)).
Definition printf (msg : string) : A unit := modify (λ s, set_console (console s ++ [msg]) s).
Definition fwakeup (chan : Z) : A unit := modify (λ s, set_fwakeups (fwakeups s ++ [chan]) s).
Definition seterr (e : Z) : A unit := bio (modify (set_u_error e)).

(** The data of a buffer, as the code reaches it through [b_addr]. *)
Definition rd_data (bp : Z) : A (list Z) := bio (b ← rdb bp; load (λ s, data s !! b_addr b)).
Definition wr_data (bp : Z) (f : list Z → list Z) : A unit :=
  bio (b ← rdb bp; store (λ s, d ← data s !! b_addr b; Some (set_data (<[b_addr b := f d]> (data s)) s))).

(** ** ufs_subr.c *)

Definition fserr (fsp : Z) (msg : string) : A unit := printf msg.

(** [bn] is compared with unsigned fields. *)
Definition badblock (fsp bn : Z) : A bool :=
  f ← rdfs fsp;
  if (u32 bn <? fs_isize f) || (fs_fsize f <=? u32 bn) then
    printf "bad block";;
    fserr fsp "bad block";;
    mret true
  else mret false.

Fixpoint getfs_loop (ms : list mount_ent) (dev : Z) : A Z :=
  match ms with
  | [] =>
      printf "no fs on dev";;
      mret 0
  | mp :: ms =>
      if (m_inodp mp =? 0) || negb (m_dev mp =? dev) then getfs_loop ms dev
      else
        f ← rdfs (m_filsys mp);
        when ((NICFREE <? fs_nfree f) || (NICINOD <? fs_ninode f))
          (fserr (m_filsys mp) "bad count";;
           wrfs (m_filsys mp) (λ f, set_fs_nfree 0 (set_fs_ninode 0 f)));;
        mret (m_filsys mp)
  end.
Definition getfs (dev : Z) : A Z :=
  ms ← gets mount;
  getfs_loop ms dev.

(** ** ufs_alloc.c *)

Section alloc.
(** Sleeping in the file system and in the buffer cache, and the driver. *)
Context (fsleep : Z → Z → A unit) (sleep : Z → Z → M bst unit) (strategy : Z → M bst unit) (is_tape : Z → bool).
(** The address of [lbolt]. *)
Context (lbolt : Z).

Fixpoint wait_flock (fuel : nat) (fsp : Z) : A unit :=
  match fuel with
  | O => nofuel
  | S n =>
      f ← rdfs fsp;
      if fs_flock f =? 0 then mret tt
      else
        fsleep fsp PINOD;;
        wait_flock n fsp
  end.

(** The [do] loop of [balloc]: [None] leads to [nospace]. *)
Fixpoint balloc_pick (fuel : nat) (fsp : Z) : A (option Z) :=
  match fuel with
  | O => nofuel
  | S n =>
      f ← rdfs fsp;
      if fs_nfree f <=? 0 then mret None
      else if NICFREE <? fs_nfree f then
        fserr fsp "bad free count";;
        mret None
      else
        wrfs fsp (set_fs_nfree (fs_nfree f - 1));;
        f ← rdfs fsp;
        bno ← load (λ _, aget (fs_free f) (fs_nfree f));
        if bno =? 0 then mret None
        else
          bad ← badblock fsp bno;
          if bad : bool then balloc_pick n fsp else mret (Some bno)
  end.
Definition pick_fuel : nat := S (Z.to_nat NICFREE).

Fixpoint sleep_times (n : nat) : A unit :=
  match n with
  | O => mret tt
  | S n =>
      fsleep lbolt PRIBIO;;
      sleep_times n
  end.
Definition nospace (fsp : Z) : A Z :=
  wrfs fsp (set_fs_nfree 0);;
  wrfs fsp (set_fs_tfree 0);;
  fserr fsp "file system full";;
  printf "write failed, file system full";;
  sleep_times 5;;
  seterr ENOSPC;;
  mret 0.

(** The next chunk of the free list, and the superblock to the disk. *)
Definition balloc_refill (fuel : nat) (dev fsp bno : Z) (async : bool) : A unit :=
  wrfs fsp (λ f, set_fs_flock (fs_flock f + 1) f);;
  bp ← bio (bread sleep strategy fuel dev bno);
  b ← bio (rdb bp);
  when (negb (has B_ERROR b) && (b_resid b =? 0))
    (d ← rd_data bp;
     wrfs fsp (get_fblk d));;
  bio (brelse bp);;
  bp ← bio (getblk sleep strategy fuel dev SUPERB);
  wrfs fsp (set_fs_fmod 0);;
  t ← gets time_sec;
  wrfs fsp (set_fs_time t);;
  f ← rdfs fsp;
  wr_data bp (λ _, fs_words f);;
  (if async then bio (bdwrite sleep strategy is_tape fuel bp) else bio (bwrite sleep strategy fuel bp));;
  wrfs fsp (set_fs_flock 0);;
  fwakeup fsp.

Definition balloc (fuel : nat) (ip flags : Z) : A Z :=
  i ← rdi ip;
  let fsp := i_fs i in
  f ← rdfs fsp;
  let async := negb (Z.land (fs_flags f) MNT_ASYNC =? 0) in
  wait_flock fuel fsp;;
  r ← balloc_pick pick_fuel fsp;
  match r with
  | None => nospace fsp
  | Some bno =>
      f ← rdfs fsp;
      full ←
        (if fs_nfree f <=? 0 then
           balloc_refill fuel (i_dev i) fsp bno async;;
           f ← rdfs fsp;
           mret (fs_nfree f <=? 0)
         else mret false);
      if full : bool then nospace fsp
      else
        bp ← bio (getblk sleep strategy fuel (i_dev i) bno);
        bio (wrb bp (set_b_resid 0));;
        when (negb (Z.land flags B_CLRBUF =? 0)) (wr_data bp (λ _, zero_block));;
        wrfs fsp (set_fs_fmod 1);;
        wrfs fsp (λ f, set_fs_tfree (u32 (fs_tfree f - 1)) f);;
        mret bp
  end.

Definition free (fuel : nat) (ip bno : Z) : A unit :=
  i ← rdi ip;
  let fsp := i_fs i in
  bad ← badblock fsp bno;
  if bad : bool then printf "bad block, ino"
  else
    wait_flock fuel fsp;;
    f ← rdfs fsp;
    when (fs_nfree f <=? 0)
      (wrfs fsp (set_fs_nfree 1);;
       f ← rdfs fsp;
       wrfs fsp (set_fs_free (<[0%nat := 0]> (fs_free f))));;
    f ← rdfs fsp;
    when (NICFREE <=? fs_nfree f)
      (wrfs fsp (λ f, set_fs_flock (fs_flock f + 1) f);;
       bp ← bio (getblk sleep strategy fuel (i_dev i) bno);
       f ← rdfs fsp;
       wr_data bp (put_fblk f);;
       wrfs fsp (set_fs_nfree 0);;
       f ← rdfs fsp;
       (if negb (Z.land (fs_flags f) MNT_ASYNC =? 0) then bio (bdwrite sleep strategy is_tape fuel bp)
        else bio (bwrite sleep strategy fuel bp));;
       wrfs fsp (set_fs_flock 0);;
       fwakeup fsp);;
    f ← rdfs fsp;
    fr ← load (λ _, aset (fs_free f) (fs_nfree f) bno);
    wrfs fsp (set_fs_free fr);;
    wrfs fsp (set_fs_nfree (fs_nfree f + 1));;
    wrfs fsp (λ f, set_fs_tfree (u32 (fs_tfree f + 1)) f);;
    wrfs fsp (set_fs_fmod 1).
End alloc.

Definition ifree (ip ino : Z) : A unit :=
  i ← rdi ip;
  let fsp := i_fs i in
  wrfs fsp (λ f, set_fs_tinode (u32 (fs_tinode f + 1)) f);;
  f ← rdfs fsp;
  if negb (fs_ilock f =? 0) then mret tt
  else if NICINOD <=? fs_ninode f then
    when (ino <? fs_lasti f) (wrfs fsp (λ f, set_fs_nbehind (u32 (fs_nbehind f + 1)) f))
  else
    l ← load (λ _, aset (fs_inode f) (fs_ninode f) ino);
    wrfs fsp (set_fs_inode l);;
    wrfs fsp (set_fs_ninode (fs_ninode f + 1));;
    wrfs fsp (set_fs_fmod 1).

(** ** The free list

    [flist V n arr l]: the chunk [arr] of [n] numbers and the chunks linked from
    it through the blocks [V] make the free list [l], in the order in which
    [balloc] hands it out. *)

Inductive flist (V : Z → list Z) : Z → list Z → list Z → Prop :=
| fl_none n arr : n ≤ 0 → length arr = Z.to_nat NICFREE → flist V n arr []
| fl_last n ar : 1 ≤ n ≤ NICFREE → length (0 :: ar) = Z.to_nat NICFREE → flist V n (0 :: ar) (reverse (take (Z.to_nat (n - 1)) ar))
| fl_link n b ar n' arr' rest l :
    1 ≤ n ≤ NICFREE → length (b :: ar) = Z.to_nat NICFREE → b ≠ 0 →
    V b = n' :: arr' ++ rest → length arr' = Z.to_nat NICFREE → 1 ≤ n' → flist V n' arr' l →
    flist V n (b :: ar) (reverse (take (Z.to_nat (n - 1)) ar) ++ b :: l).

Section flists.
Implicit Types (V : Z → list Z) (l arr : list Z).

Lemma flist_length V n arr l : flist V n arr l → length arr = Z.to_nat NICFREE.
Proof. by destruct 1. Qed.

Lemma flist_le V n arr l : flist V n arr l → n ≤ NICFREE.
Proof. destruct 1; unfold NICFREE in *; lia. Qed.

Lemma flist_ext V V' n arr l : flist V n arr l → (∀ x, x ∈ l → V' x = V x) → flist V' n arr l.
Proof.
  induction 1 as [| |n b ar n' arr' rest l Hn Hl Hb HV Hl' Hn' Hf IH]; intros HV'; [by constructor|by constructor|].
  eapply fl_link; [done|done|done| |done|done|apply IH].
  - rewrite HV'; [done|]. set_solver.
  - intros x Hx. apply HV'. set_solver.
Qed.

Lemma flist_nil V n arr : flist V n arr [] → n ≤ 0 ∨ (n = 1 ∧ aget arr 0 = Some 0).
Proof.
  inversion 1 as [|n' ar Hn Hl Ha Hb Hr|n' b ar n'' arr' rest l Hn Hl Hb HV Hl' Hn' Hf Ha Hb' Hr]; subst; [by left| |].
  - right. split; [|done]. apply (f_equal length) in Hr. rewrite length_reverse, length_take in Hr. unfold NICFREE in *. simpl in *. lia.
  - apply (f_equal length) in Hr. rewrite length_app in Hr. simpl in Hr. lia.
Qed.

Lemma reverse_take_S l k x : l !! k = Some x → reverse (take (S k) l) = x :: reverse (take k l).
Proof. intros Hx. rewrite (take_S_r l k x Hx), reverse_app. done. Qed.

(** Taking the first block: from the chunk, or the link to the next one. *)
Lemma flist_pop V n arr b l : flist V n arr (b :: l) →
  1 ≤ n ∧ aget arr (n - 1) = Some b ∧
  ((2 ≤ n ∧ flist V (n - 1) arr l) ∨
   (n = 1 ∧ b ≠ 0 ∧ ∃ n' arr' rest, V b = n' :: arr' ++ rest ∧ length arr' = Z.to_nat NICFREE ∧ 1 ≤ n' ∧ flist V n' arr' l)).
Proof.
  inversion 1 as [|n' ar Hn Hl Ha Hb Hr|n' b' ar n'' arr' rest l' Hn Hl Hb HV Hl' Hn' Hf Ha Hb' Hr]; subst.
  - destruct (decide (n = 1)) as [->|Hn1]; [done|]. assert (∃ k, Z.to_nat (n - 1) = S k) as [k Hk] by (exists (Z.to_nat (n - 2)); lia).
    rewrite Hk in Hr. assert (Hlk : (k < length ar)%nat) by (unfold NICFREE in *; simpl in Hl; lia).
    destruct (lookup_lt_is_Some_2 ar k Hlk) as [x Hx]. rewrite (reverse_take_S _ _ _ Hx) in Hr. injection Hr as -> <-.
    split_and!; [lia| |].
    + unfold aget. rewrite Zle_imp_le_bool by lia. by rewrite Hk.
    + left. split; [lia|]. replace k with (Z.to_nat (n - 1 - 1)) by lia. constructor; [lia|done].
  - destruct (decide (n = 1)) as [->|Hn1].
    + simpl in Hr. injection Hr as -> ->. split_and!; [lia|done|]. right. split_and!; [done|done|]. by exists n'', arr', rest.
    + assert (∃ k, Z.to_nat (n - 1) = S k) as [k Hk] by (exists (Z.to_nat (n - 2)); lia).
      rewrite Hk in Hr. assert (Hlk : (k < length ar)%nat) by (unfold NICFREE in *; simpl in Hl; lia).
      destruct (lookup_lt_is_Some_2 ar k Hlk) as [x Hx]. rewrite (reverse_take_S _ _ _ Hx) in Hr. simpl in Hr. injection Hr as -> <-.
      split_and!; [lia| |].
      * unfold aget. rewrite Zle_imp_le_bool by lia. by rewrite Hk.
      * left. split; [lia|]. replace k with (Z.to_nat (n - 1 - 1)) by lia. eapply fl_link; [lia|done..].
Qed.

Lemma flist_push V n arr b l : flist V n arr l → 1 ≤ n < NICFREE → flist V (n + 1) (<[Z.to_nat n := b]> arr) (b :: l).
Proof.
  intros Hf Hn. assert (Hk : ∃ k, Z.to_nat n = S k) by (exists (Z.to_nat (n - 1)); lia). destruct Hk as [k Hk]. rewrite Hk.
  assert (Hrev : ∀ ar : list Z, (k < length ar)%nat → reverse (take (Z.to_nat (n + 1 - 1)) (<[k := b]> ar)) = b :: reverse (take (Z.to_nat (n - 1)) ar)).
  { intros ar Hl. replace (Z.to_nat (n + 1 - 1)) with (S k) by lia. replace (Z.to_nat (n - 1)) with k by lia.
    rewrite (reverse_take_S _ _ b); [|by apply list_lookup_insert_eq]. by rewrite take_insert_ge by lia. }
  inversion Hf as [|n' ar Hn' Hl|n' b' ar n'' arr' rest l' Hn' Hl Hb HV Hl' Hn'' Hf']; subst; [lia| |]; cbn [insert list_insert] in *; unfold NICFREE in *; simpl in Hl.
  - rewrite <- (Hrev ar) by lia. constructor; [unfold NICFREE; lia|]. simpl. rewrite length_insert. done.
  - rewrite app_comm_cons. rewrite <- (Hrev ar) by lia. eapply fl_link; [unfold NICFREE; lia|simpl; by rewrite length_insert|done..].
Qed.

Lemma flist_push_link V arr b l rest : flist V NICFREE arr l → b ≠ 0 → V b = NICFREE :: arr ++ rest → flist V 1 (<[0%nat := b]> arr) (b :: l).
Proof.
  intros Hf Hb HV. pose proof (flist_length _ _ _ _ Hf) as Hl. destruct arr as [|x arr]; [done|].
  change (<[0%nat := b]> (x :: arr)) with (b :: arr). change (b :: l) with (reverse (take (Z.to_nat (1 - 1)) arr) ++ b :: l).
  eapply fl_link; [done|done|done|exact HV|done|done|done].
Qed.
End flists.

(** ** Symbolic execution

    Since [s0], only the superblock at [fsp], the buffer cache, [rablock] and the console
    changed. *)

Definition tables (s : ast) := (ihead s, ifreeh s, ifreet s, nextinodeid s, nch s, time_sec s).
Definition upto (s0 : ast) (fsp : Z) (f : fs) (s : ast) : Prop :=
  fss s = <[fsp := f]> (fss s0) ∧ inodes s = inodes s0 ∧ mount s = mount s0 ∧ tables s = tables s0.

Section rules.
Implicit Types (s : ast) (f : fs).

Lemma upto_refl s fsp f : fss s !! fsp = Some f → upto s fsp f s.
Proof. intros Hf. unfold upto. by rewrite insert_id. Qed.

Lemma upto_at s0 fsp f s : upto s0 fsp f s → fss s !! fsp = Some f.
Proof. intros [-> _]. by rewrite lookup_insert_eq. Qed.

Lemma wp_rdfs s0 s fsp f (Q : fs → ast → Prop) : upto s0 fsp f s → Q f s → wp (rdfs fsp) Q s.
Proof. intros Hu HQ. eapply wp_load; [by eapply upto_at|done]. Qed.

Lemma wp_wrfs s0 s fsp f g (Q : unit → ast → Prop) :
  upto s0 fsp f s → (∀ s', upto s0 fsp (g f) s' → bs s' = bs s → Q tt s') → wp (wrfs fsp g) Q s.
Proof.
  intros Hu HQ. eapply wp_store; [rewrite (upto_at _ _ _ _ Hu); reflexivity|]. apply HQ; [|done].
  destruct Hu as (Hf & ? & ? & ?). split_and!; try done. simpl. by rewrite Hf, insert_insert_eq.
Qed.

Lemma wp_bio {X} s0 s fsp f (m : M bst X) (Q : X → ast → Prop) :
  upto s0 fsp f s → wp m (λ a b, ∀ s', upto s0 fsp f s' → bs s' = b → Q a s') (bs s) → wp (bio m) Q s.
Proof.
  intros Hu. rewrite !wp_run. intros (a & b & Hm & HQ). exists a, (set_bs b s). unfold bio. rewrite Hm. split; [done|].
  apply HQ; [|done]. destruct Hu as (? & ? & ? & ?). done.
Qed.

Lemma wp_printf s0 s fsp f msg (Q : unit → ast → Prop) : upto s0 fsp f s → (∀ s', upto s0 fsp f s' → bs s' = bs s → Q tt s') → wp (printf msg) Q s.
Proof. intros (? & ? & ? & ?) HQ. apply wp_modify. by apply HQ. Qed.

Lemma wp_fwakeup s0 s fsp f c (Q : unit → ast → Prop) : upto s0 fsp f s → (∀ s', upto s0 fsp f s' → bs s' = bs s → Q tt s') → wp (fwakeup c) Q s.
Proof. intros (? & ? & ? & ?) HQ. apply wp_modify. by apply HQ. Qed.

Lemma wp_badblock s0 s fsp f b (Q : bool → ast → Prop) :
  upto s0 fsp f s → 0 ≤ b < 2 ^ 32 → fs_isize f ≤ b < fs_fsize f → Q false s → wp (badblock fsp b) Q s.
Proof.
  intros Hu Hb Hr HQ. unfold badblock. apply wp_bind. eapply wp_rdfs; [exact Hu|]. rewrite u32_id by done. ztest. by apply wp_ret.
Qed.

Lemma wp_wait_flock fsleep s0 s fsp f n (Q : unit → ast → Prop) : upto s0 fsp f s → fs_flock f = 0 → Q tt s → wp (wait_flock fsleep (S n) fsp) Q s.
Proof. intros Hu Hf HQ. cbn [wait_flock]. apply wp_bind. eapply wp_rdfs; [exact Hu|]. rewrite Hf. by apply wp_ret. Qed.
End rules.

(** ** The allocator *)

Section spec.
Context (fsleep : Z → Z → A unit) (sleep : Z → Z → M bst unit) (strategy : Z → M bst unit) (is_tape : Z → bool) (lbolt : Z).
Context {phys : key → key} {good : key → Prop} `{!Driver strategy phys good}.
Implicit Types (V : key → block) (H : gmap Z (key * block)) (s : ast) (f : fs).
Notation cache := (cache (phys := phys) (good := good)).

(** The superblock [f] of device [dev] and its free blocks [l]. *)
Record free_ok V (dev : Z) f (l : list Z) : Prop := FreeOk {
  fo_list : flist (λ b, V (dev, b)) (fs_nfree f) (fs_free f) l;
  fo_nodup : NoDup l;
  fo_range : ∀ b, b ∈ l → fs_isize f ≤ b < fs_fsize f;
  fo_geom : 0 < fs_isize f ≤ fs_fsize f ∧ fs_fsize f < 2 ^ 31;
  fo_good : ∀ b, 0 ≤ b < fs_fsize f → good (dev, b);
  fo_flock : fs_flock f = 0;
  fo_total : fs_tfree f = zlen l
}.

(** No user holds block [b] of [dev]. *)
Definition unheld H (dev b : Z) : Prop := ∀ bp v, H !! bp ≠ Some ((dev, b), v).

(** What the allocator leaves of a superblock. *)
Definition fs_fixed f := (fs_flags f, fs_ronly f, fs_ilock f, fs_ninode f, fs_inode f, fs_tinode f, fs_lasti f, fs_nbehind f).
Definition same_geom f f' : Prop := fs_isize f' = fs_isize f ∧ fs_fsize f' = fs_fsize f ∧ fs_fixed f' = fs_fixed f.

Lemma wp_rd_data V H s0 s fsp f bp k v (Q : list Z → ast → Prop) :
  upto s0 fsp f s → cache V H (bs s) → H !! bp = Some (k, v) → (∀ s', upto s0 fsp f s' → bs s' = bs s → Q v s') → wp (rd_data bp) Q s.
Proof.
  intros Hu Hca HHb HQ. eapply wp_bio; [exact Hu|]. destruct (cache_held _ _ _ _ _ _ Hca HHb) as (_ & _ & c & Hc & _ & Hd & _).
  apply wp_bind. eapply wp_rd_ct; [exact Hc|]. intros b Eb _ _. eapply wp_load; [|exact HQ]. rewrite <- Hd. by rewrite <- Eb.
Qed.

Lemma wp_wr_data V H s0 s fsp f bp k v g (Q : unit → ast → Prop) :
  upto s0 fsp f s → cache V H (bs s) → H !! bp = Some (k, v) →
  (∀ s', upto s0 fsp f s' → cache V (<[bp := (k, g v)]> H) (bs s') → u_error (bs s') = u_error (bs s) → Q tt s') → wp (wr_data bp g) Q s.
Proof using Driver0.
  intros Hu Hca HHb HQ. eapply wp_bio; [exact Hu|]. destruct (cache_held _ _ _ _ _ _ Hca HHb) as (_ & _ & c & Hc & _ & Hd & _).
  apply wp_bind. eapply wp_rd_ct; [exact Hc|]. intros b Eb _ _. assert (Ea : b_addr b = b_addr c) by (by rewrite <- Eb).
  eapply wp_store; [rewrite Ea, Hd; reflexivity|]. intros s' Hu' Eb'. apply HQ; [done| |by rewrite Eb'].
  rewrite Eb'. by eapply (cache_store strategy).
Qed.

Lemma cache_resid V H (s : bst) bp k v (Q : unit → bst → Prop) : cache V H s → H !! bp = Some (k, v) →
  (∀ s' : bst, cache V H s' → u_error s' = u_error s → Q tt s') → wp (wrb bp (set_b_resid 0)) Q s.
Proof.
  intros Hca HHb HQ. destruct (cache_held _ _ _ _ _ _ Hca HHb) as (Hb & _ & c & Hc & _). destruct Hca as [Hi Has].
  apply wp_ct; [done|eauto|]. intros s' L. pose proof (ct_step_at _ _ _ _ _ L Hc) as C. apply HQ.
  - split; [eapply cinv_harmless; [|exact L|exact Hi]; done|]. intros z cz Hz. rewrite C. case_decide; [|by apply Has].
    intros [= <-]. destruct (Has bp c Hb Hc). done.
  - by destruct L as [(_ & _ & ?)%env_of _].
Qed.

(** *** Taking a number off the superblock *)

Lemma wp_pick_some s0 s fsp f bno n (Q : option Z → ast → Prop) :
  upto s0 fsp f s → 1 ≤ fs_nfree f ≤ NICFREE → aget (fs_free f) (fs_nfree f - 1) = Some bno → 0 ≤ bno < 2 ^ 31 → bno ≠ 0 → fs_isize f ≤ bno < fs_fsize f →
  (∀ s', upto s0 fsp (set_fs_nfree (fs_nfree f - 1) f) s' → bs s' = bs s → Q (Some bno) s') → wp (balloc_pick (S n) fsp) Q s.
Proof.
  intros Hu Hn Ha Hb Hb0 Hr HQ. cbn [balloc_pick]. apply wp_bind. eapply wp_rdfs; [exact Hu|]. ztest.
  apply wp_bind. eapply wp_wrfs; [exact Hu|]. intros s1 Hu1 E1. apply wp_bind. eapply wp_rdfs; [exact Hu1|].
  apply wp_bind. eapply wp_load; [exact Ha|]. ztest. apply wp_bind. eapply wp_badblock; [exact Hu1|lia|done|]. apply wp_ret. by apply HQ.
Qed.

Lemma wp_pick_none s0 s fsp f n (Q : option Z → ast → Prop) :
  upto s0 fsp f s → fs_nfree f ≤ 0 ∨ (fs_nfree f = 1 ∧ aget (fs_free f) 0 = Some 0) →
  (∀ s' n, upto s0 fsp (set_fs_nfree n f) s' → bs s' = bs s → Q None s') → wp (balloc_pick (S n) fsp) Q s.
Proof.
  intros Hu Hn HQ. cbn [balloc_pick]. apply wp_bind. eapply wp_rdfs; [exact Hu|]. destruct Hn as [Hn|[Hn Ha]]; [|rewrite Hn].
  - ztest. apply wp_ret. apply (HQ s (fs_nfree f)); [|done]. by destruct f.
  - change (1 <=? 0) with false. change (NICFREE <? 1) with false. cbv iota.
    apply wp_bind. eapply wp_wrfs; [exact Hu|]. intros s1 Hu1 E1. apply wp_bind. eapply wp_rdfs; [exact Hu1|].
    apply wp_bind. eapply wp_load; [exact Ha|]. rewrite Z.eqb_refl. apply wp_ret. by eapply HQ.
Qed.

(** *** No space *)

Hypothesis quiet : ∀ c p s, fsleep c p s = Ret tt s.

Lemma wp_sleep_times n s (Q : unit → ast → Prop) : Q tt s → wp (sleep_times fsleep lbolt n) Q s.
Proof using quiet.
  revert s. induction n as [|n IH]; intros s HQ; cbn [sleep_times]; [by apply wp_ret|]. apply wp_bind, wp_run. rewrite quiet.
  exists tt, s. split; [done|]. by apply IH.
Qed.

Lemma cache_err V H (b : bst) e : cache V H b → cache V H (set_u_error e b).
Proof. intros [Hi Ha]. split; [|done]. by eapply cinv_env. Qed.

Lemma wp_nospace V H s0 s fsp f (Q : Z → ast → Prop) :
  upto s0 fsp f s → cache V H (bs s) →
  (∀ s', upto s0 fsp (set_fs_tfree 0 (set_fs_nfree 0 f)) s' → cache V H (bs s') → u_error (bs s') = ENOSPC → Q 0 s') →
  wp (nospace fsleep lbolt fsp) Q s.
Proof using quiet.
  intros Hu Hca HQ. unfold nospace. apply wp_bind. eapply wp_wrfs; [exact Hu|]. intros s1 Hu1 E1.
  apply wp_bind. eapply wp_wrfs; [exact Hu1|]. intros s2 Hu2 E2. apply wp_bind. eapply wp_printf; [exact Hu2|]. intros s3 Hu3 E3.
  apply wp_bind. eapply wp_printf; [exact Hu3|]. intros s4 Hu4 E4. apply wp_bind, wp_sleep_times. apply wp_bind.
  eapply wp_bio; [exact Hu4|]. apply wp_modify. intros s5 Hu5 E5. apply wp_ret, HQ; [done| |by rewrite E5].
  rewrite E5. apply cache_err. congruence.
Qed.

(** *** The next chunk *)

Lemma wp_refill V H s0 s fsp f dev bno l n' arr' rest fuel async (Q : unit → ast → Prop) :
  upto s0 fsp f s → cache V H (bs s) → dev ≠ NODEV → good (dev, bno) → good (dev, SUPERB) → unheld H dev bno → unheld H dev SUPERB →
  (size H < Z.to_nat NBUF)%nat → (Z.to_nat NBUF + 2 <= fuel)%nat → fs_flock f = 0 →
  V (dev, bno) = n' :: arr' ++ rest → length arr' = Z.to_nat NICFREE → flist (λ b, V (dev, b)) n' arr' l → SUPERB ∉ l →
  (∀ s' V' f', upto s0 fsp f' s' → cache V' H (bs s') → u_error (bs s') = u_error (bs s) → (∀ k, k ≠ (dev, SUPERB) → V' k = V k) →
     flist (λ b, V' (dev, b)) n' arr' l → fs_nfree f' = n' → fs_free f' = arr' → fs_flock f' = 0 → fs_tfree f' = fs_tfree f → same_geom f f' → Q tt s') →
  wp (balloc_refill sleep strategy is_tape fuel dev fsp bno async) Q s.
Proof using Driver0.
  intros Hu Hca Hdev Hg Hg0 Hn0 Hns Hsz Hfu Hfl HV Hl' Hfr HSl HQ. unfold balloc_refill.
  apply wp_bind. eapply wp_wrfs; [exact Hu|]. intros s1 Hu1 E1. rewrite <- E1 in Hca.
  apply wp_bind. eapply wp_bio; [exact Hu1|]. eapply (wp_bread sleep strategy V H); [done..|]. intros bp b2 Hca2 HHb U2 s2 Hu2 E2. rewrite <- E2 in Hca2, U2.
  assert (HHb2 : <[bp := ((dev, bno), V (dev, bno))]> H !! bp = Some ((dev, bno), V (dev, bno))) by apply lookup_insert_eq.
  destruct (cache_held _ _ _ _ _ _ Hca2 HHb2) as (Hb & _ & c & Hc & _ & _ & _ & Hodd & [_ Hrs] & _).
  apply wp_bind. eapply wp_bio; [exact Hu2|]. eapply wp_rd_ct; [exact Hc|]. intros b Eb _ _ s3 Hu3 E3. rewrite <- E3 in Hca2.
  assert (has B_ERROR b = false) as -> by (rewrite (has_ct _ _ _ Eb); by apply (has_sub _ B_ODD)).
  assert ((b_resid b =? 0) = true) as -> by (rewrite <- Eb in Hrs; by apply Z.eqb_eq). cbn [negb andb when].
  apply wp_bind, wp_bind. eapply wp_rd_data; [exact Hu3|exact Hca2|exact HHb2|]. intros s4 Hu4 E4. rewrite <- E4 in Hca2.
  eapply wp_wrfs; [exact Hu4|]. intros s5 Hu5 E5. rewrite <- E5 in Hca2.
  apply wp_bind. eapply wp_bio; [exact Hu5|]. pose proof Hca2 as [Hi2 Ha2].
  eapply (wp_brelse_done strategy V _ (bs s5)); [exact Hi2|exact HHb2|done|done|eauto|intros c' Hc'; by apply (Ha2 bp c')|].
  intros b6 Hca6 U6 _ _ s6 Hu6 E6. rewrite delete_insert_id in Hca6 by done. rewrite <- E6 in Hca6, U6.
  apply wp_bind. eapply wp_bio; [exact Hu6|]. eapply (wp_getblk sleep strategy V H); [done..|]. intros bp7 b7 v7 c7 Hca7 HHb7 U7 _ _ s7 Hu7 E7. rewrite <- E7 in Hca7, U7.
  apply wp_bind. eapply wp_wrfs; [exact Hu7|]. intros s8 Hu8 E8. apply wp_bind, wp_gets. apply wp_bind. eapply wp_wrfs; [exact Hu8|]. intros s9 Hu9 E9.
  apply wp_bind. eapply wp_rdfs; [exact Hu9|]. set (f9 := set_fs_time _ _) in *. rewrite <- E8, <- E9 in Hca7.
  apply wp_bind. eapply wp_wr_data; [exact Hu9|exact Hca7|apply lookup_insert_eq|]. intros s10 Hu10 Hca10 U10. rewrite insert_insert_eq in Hca10.
  set (V' := vset V (dev, SUPERB) (fs_words f9)) in *.
  assert (Hw : wp (if async then bio (bdwrite sleep strategy is_tape fuel bp7) else bio (bwrite sleep strategy fuel bp7))
    (λ _ s', upto s0 fsp f9 s' ∧ cache V' H (bs s') ∧ u_error (bs s') = u_error (bs s10)) s10).
  { assert (Hd : delete bp7 (<[bp7 := ((dev, SUPERB), fs_words f9)]> H) = H) by (by rewrite delete_insert_id).
    destruct async; (eapply wp_bio; [exact Hu10|]).
    - eapply (wp_bdwrite sleep strategy is_tape V); [exact Hca10|apply lookup_insert_eq|]. rewrite Hd. intros b' Hca' U' s' Hu' E'. by rewrite E'.
    - destruct fuel as [|fuel]; [lia|]. eapply (wp_bwrite sleep strategy V); [exact Hca10|apply lookup_insert_eq|]. rewrite Hd. intros b' Hca' U' s' Hu' E'. by rewrite E'. }
  apply wp_bind. eapply wp_mono; [exact Hw|]. intros _ s11 (Hu11 & Hca11 & U11).
  apply wp_bind. eapply wp_wrfs; [exact Hu11|]. intros s12 Hu12 E12. eapply wp_fwakeup; [exact Hu12|]. intros s13 Hu13 E13.
  assert (HV' : ∀ k, k ≠ (dev, SUPERB) → V' k = V k) by (intros k Hk; unfold V', vset; by rewrite decide_False).
  eapply (HQ s13 V'); [exact Hu13|congruence|congruence|done| | | |done|done|done].
  - eapply flist_ext; [exact Hfr|]. intros x Hx. apply HV'. intros [= ->]. done.
  - simpl. by rewrite HV.
  - simpl. rewrite HV. simpl. rewrite take_app_le by lia. by rewrite firstn_all2 by lia.
Qed.

(** *** [balloc] and [free] *)

Lemma free_ok_range V dev f l b : free_ok V dev f l → b ∈ l → 0 ≤ b < 2 ^ 31 ∧ b ≠ 0 ∧ fs_isize f ≤ b < fs_fsize f ∧ good (dev, b).
Proof. intros [F1 F2 F3 F4 F5 F6 F7] Hb. specialize (F3 b Hb). split_and!; try lia. apply F5. lia. Qed.

(** The number is off the list; the rest of [balloc]. *)
Lemma wp_balloc_take V V0 H s0 s fsp f f0 dev b l flags fuel (Q : Z → ast → Prop) :
  upto s0 fsp f s → cache V H (bs s) → free_ok V0 dev f0 (b :: l) → same_geom f0 f → flist (λ b, V (dev, b)) (fs_nfree f) (fs_free f) l →
  fs_flock f = 0 → fs_tfree f = fs_tfree f0 → dev ≠ NODEV → unheld H dev b → (size H < Z.to_nat NBUF)%nat → (Z.to_nat NBUF + 2 <= fuel)%nat →
  (∀ bp s' f' v, upto s0 fsp f' s' → cache V (<[bp := ((dev, b), v)]> H) (bs s') → H !! bp = None → u_error (bs s') = u_error (bs s) →
     free_ok V dev f' l → same_geom f0 f' → (Z.land flags B_CLRBUF ≠ 0 → v = zero_block) → Q bp s') →
  wp (bp ← bio (getblk sleep strategy fuel dev b);
      bio (wrb bp (set_b_resid 0));;
      when (negb (Z.land flags B_CLRBUF =? 0)) (wr_data bp (λ _, zero_block));;
      wrfs fsp (set_fs_fmod 1);;
      wrfs fsp (λ f, set_fs_tfree (u32 (fs_tfree f - 1)) f);;
      mret bp) Q s.
Proof using Driver0.
  intros Hu Hca Hok Hge Hfl Hlk Htf Hdev Hnh Hsz Hfu HQ.
  destruct (free_ok_range _ _ _ _ b Hok ltac:(by left)) as (Hb & Hb0 & Hr & Hg).
  apply wp_bind. eapply wp_bio; [exact Hu|]. eapply (wp_getblk sleep strategy V H); [done..|]. intros bp b1 v c Hca1 HHb U1 _ _ s1 Hu1 E1. rewrite <- E1 in Hca1, U1.
  apply wp_bind. eapply wp_bio; [exact Hu1|]. eapply cache_resid; [exact Hca1|apply lookup_insert_eq|]. intros b2 Hca2 U2 s2 Hu2 E2. rewrite <- E2 in Hca2, U2.
  apply wp_bind. apply (wp_mono _ (λ _ s3, ∃ v', upto s0 fsp f s3 ∧ cache V (<[bp := ((dev, b), v')]> H) (bs s3) ∧ u_error (bs s3) = u_error (bs s2) ∧ (Z.land flags B_CLRBUF ≠ 0 → v' = zero_block))).
  { apply wp_when; intros Hfl'.
    - eapply wp_wr_data; [exact Hu2|exact Hca2|apply lookup_insert_eq|]. rewrite insert_insert_eq. intros s3 Hu3 Hca3 U3. by exists zero_block.
    - exists v. split_and!; [done|done|done|]. intros Hne. apply negb_false_iff, Z.eqb_eq in Hfl'. done. }
  intros _ s3 (v' & Hu3 & Hca3 & U3 & Hz). apply wp_bind. eapply wp_wrfs; [exact Hu3|]. intros s4 Hu4 E4.
  apply wp_bind. eapply wp_wrfs; [exact Hu4|]. intros s5 Hu5 E5. apply wp_ret. eapply HQ; [exact Hu5|rewrite E5, E4; exact Hca3|done|congruence| |done|done].
  destruct Hok as [F1 F2 F3 F4 F5 F6 F7]. destruct Hge as (G1 & G2 & G3). apply NoDup_cons in F2 as [_ F2]. split; simpl; try done.
  - intros x Hx. rewrite G1, G2. apply F3. by right.
  - by rewrite G1, G2.
  - rewrite G2. done.
  - rewrite Htf, F7. simpl. rewrite u32_id; [lia|]. split; [lia|].
    assert (Hle : (length l < Z.to_nat (2 ^ 31))%nat); [|lia].
    assert (Hsub : NoDup l → (∀ x, x ∈ l → 0 ≤ x < fs_fsize f0 - 1 + 1) → (length l <= Z.to_nat (fs_fsize f0))%nat).
    { intros Hnd Hin. rewrite <- (length_seqZ 0 (fs_fsize f0)). apply submseteq_length, NoDup_submseteq; [done|]. intros x Hx. apply elem_of_seqZ. specialize (Hin x Hx). lia. }
    specialize (Hsub F2). assert (∀ x, x ∈ l → 0 ≤ x < fs_fsize f0 - 1 + 1) by (intros x Hx; specialize (F3 x ltac:(by right)); lia).
    specialize (Hsub ltac:(done)). lia.
Qed.

Lemma wp_balloc V H s ip i f b l flags fuel (Q : Z → ast → Prop) :
  inodes s !! ip = Some i → fss s !! i_fs i = Some f → cache V H (bs s) → free_ok V (i_dev i) f (b :: l) →
  i_dev i ≠ NODEV → unheld H (i_dev i) b → unheld H (i_dev i) SUPERB → (size H < Z.to_nat NBUF)%nat → (Z.to_nat NBUF + 2 <= fuel)%nat →
  (∀ bp s' V' f' v, upto s (i_fs i) f' s' → cache V' (<[bp := ((i_dev i, b), v)]> H) (bs s') → H !! bp = None → u_error (bs s') = u_error (bs s) →
     (∀ k, k ≠ (i_dev i, SUPERB) → V' k = V k) → free_ok V' (i_dev i) f' l → same_geom f f' → (Z.land flags B_CLRBUF ≠ 0 → v = zero_block) → Q bp s') →
  wp (balloc fsleep sleep strategy is_tape lbolt fuel ip flags) Q s.
Proof using Driver0.
  clear quiet. intros Hi Hf Hca Hok Hdev Hnb Hns Hsz Hfu HQ. pose proof (upto_refl _ _ _ Hf) as Hu. unfold balloc.
  destruct (free_ok_range _ _ _ _ b Hok ltac:(by left)) as (Hb & Hb0 & Hr & Hg). pose proof Hok as [F1 F2 F3 F4 F5 F6 F7].
  destruct (flist_pop _ _ _ _ _ F1) as (Hn1 & Ha & Hcase). pose proof (flist_le _ _ _ _ F1) as Hn2.
  apply wp_bind. eapply wp_load; [exact Hi|]. cbv zeta. apply wp_bind. eapply wp_rdfs; [exact Hu|]. set (async := negb _).
  apply wp_bind. destruct fuel as [|fuel']; [lia|]. eapply wp_wait_flock; [exact Hu|done|]. remember (S fuel') as fuel eqn:Efuel. clear fuel' Efuel.
  apply wp_bind. eapply wp_pick_some; [exact Hu|lia|exact Ha|done|done|done|]. intros s1 Hu1 E1. set (f1 := set_fs_nfree (fs_nfree f - 1) f) in *.
  rewrite <- E1 in Hca. assert (HSl : SUPERB ∉ l) by (intros Hin; specialize (F3 SUPERB ltac:(by right)); unfold SUPERB in *; lia).
  apply wp_bind. eapply wp_rdfs; [exact Hu1|]. apply wp_bind. change (fs_nfree f1) with (fs_nfree f - 1).
  destruct Hcase as [[Hn Hfl]|(Hn & _ & n' & arr' & rest & HV & Hl' & Hn' & Hfl)].
  - rewrite (proj2 (Z.leb_gt _ _)) by lia. apply wp_ret.
    eapply (wp_balloc_take V V H s s1 _ f1 f); [exact Hu1|exact Hca|exact Hok|done|exact Hfl|done|done|done|done|done|done|].
    intros bp s' f' v Hu' Hca' HHb U' Hok' Hge Hz. eapply HQ; try done. congruence.
  - rewrite Hn. change (1 - 1 <=? 0) with true. cbv iota. apply wp_bind.
    eapply (wp_refill V H s s1 _ f1 (i_dev i) b l n' arr' rest); [exact Hu1|exact Hca|done|done|apply F5; unfold SUPERB; lia|done|done|done|done|done|exact HV|done|exact Hfl|done|].
    intros s2 V2 f2 Hu2 Hca2 U2 HV2 Hfl2 En Ef Hlk2 Ht2 Hge2. apply wp_bind. eapply wp_rdfs; [exact Hu2|]. rewrite En, (proj2 (Z.leb_gt _ _)) by lia. apply wp_ret.
    eapply (wp_balloc_take V2 V H s s2 _ f2 f); [exact Hu2|exact Hca2|exact Hok|exact Hge2|by rewrite En, Ef|done|done|done|done|done|done|].
    intros bp s' f' v Hu' Hca' HHb U' Hok' Hge Hz. eapply HQ; try done. congruence.
Qed.

Lemma wp_balloc_full V H s ip i f flags fuel (Q : Z → ast → Prop) :
  inodes s !! ip = Some i → fss s !! i_fs i = Some f → cache V H (bs s) → free_ok V (i_dev i) f [] → (1 <= fuel)%nat →
  (∀ s' f', upto s (i_fs i) f' s' → cache V H (bs s') → u_error (bs s') = ENOSPC → free_ok V (i_dev i) f' [] → same_geom f f' → Q 0 s') →
  wp (balloc fsleep sleep strategy is_tape lbolt fuel ip flags) Q s.
Proof using quiet.
  intros Hi Hf Hca Hok Hfu HQ. pose proof (upto_refl _ _ _ Hf) as Hu. unfold balloc. pose proof Hok as [F1 F2 F3 F4 F5 F6 F7].
  apply wp_bind. eapply wp_load; [exact Hi|]. cbv zeta. apply wp_bind. eapply wp_rdfs; [exact Hu|].
  apply wp_bind. destruct fuel as [|fuel']; [lia|]. eapply wp_wait_flock; [exact Hu|done|].
  apply wp_bind. eapply wp_pick_none; [exact Hu|by eapply flist_nil|]. intros s1 n Hu1 E1. rewrite <- E1 in Hca.
  eapply wp_nospace; [exact Hu1|exact Hca|]. intros s2 Hu2 Hca2 U2. eapply HQ; [exact Hu2|exact Hca2|exact U2| |done].
  split; simpl; try done. constructor; [done|]. by eapply flist_length.
Qed.

(** The chunk goes to the freed block when the superblock is full. *)
Lemma wp_spill V H s0 s fsp f dev b l fuel (Q : unit → ast → Prop) :
  upto s0 fsp f s → cache V H (bs s) → dev ≠ NODEV → good (dev, b) → unheld H dev b → (size H < Z.to_nat NBUF)%nat → (Z.to_nat NBUF + 2 <= fuel)%nat →
  fs_flock f = 0 → flist (λ b, V (dev, b)) (fs_nfree f) (fs_free f) l → 1 ≤ fs_nfree f → b ∉ l →
  (∀ s' V' f' n, upto s0 fsp f' s' → cache V' H (bs s') → u_error (bs s') = u_error (bs s) → (∀ k, k ≠ (dev, b) → V' k = V k) →
     fs_free f' = fs_free f → fs_flock f' = 0 → fs_tfree f' = fs_tfree f → same_geom f f' → fs_nfree f' = n →
     (n = 0 ∧ (∃ rest, V' (dev, b) = NICFREE :: fs_free f ++ rest) ∧ flist (λ b, V' (dev, b)) NICFREE (fs_free f) l ∨
      1 ≤ n < NICFREE ∧ flist (λ b, V' (dev, b)) n (fs_free f) l) → Q tt s') →
  wp (when (NICFREE <=? fs_nfree f)
      (wrfs fsp (λ f, set_fs_flock (fs_flock f + 1) f);;
       bp ← bio (getblk sleep strategy fuel dev b);
       f ← rdfs fsp;
       wr_data bp (put_fblk f);;
       wrfs fsp (set_fs_nfree 0);;
       f ← rdfs fsp;
       (if negb (Z.land (fs_flags f) MNT_ASYNC =? 0) then bio (bdwrite sleep strategy is_tape fuel bp)
        else bio (bwrite sleep strategy fuel bp));;
       wrfs fsp (set_fs_flock 0);;
       fwakeup fsp)) Q s.
Proof using Driver0.
  clear quiet. intros Hu Hca Hdev Hg Hnh Hsz Hfu Hlk Hfl Hn Hbl HQ. pose proof (flist_le _ _ _ _ Hfl) as Hle. apply wp_when; intros Ht.
  2: { apply Z.leb_gt in Ht. eapply HQ; [exact Hu|exact Hca|done|done|done|done|done|done|done|]. right. done. }
  apply Z.leb_le in Ht. assert (En : fs_nfree f = NICFREE) by lia. rewrite En in Hfl.
  apply wp_bind. eapply wp_wrfs; [exact Hu|]. intros s1 Hu1 E1. rewrite <- E1 in Hca.
  apply wp_bind. eapply wp_bio; [exact Hu1|]. eapply (wp_getblk sleep strategy V H); [done..|]. intros bp b2 v2 c2 Hca2 HHb U2 _ _ s2 Hu2 E2. rewrite <- E2 in Hca2, U2.
  apply wp_bind. eapply wp_rdfs; [exact Hu2|]. apply wp_bind. eapply wp_wr_data; [exact Hu2|exact Hca2|apply lookup_insert_eq|].
  intros s3 Hu3 Hca3 U3. rewrite insert_insert_eq in Hca3. apply wp_bind. eapply wp_wrfs; [exact Hu3|]. intros s4 Hu4 E4. rewrite <- E4 in Hca3.
  apply wp_bind. eapply wp_rdfs; [exact Hu4|]. set (async := negb _). set (w := put_fblk _ _) in *. set (V' := vset V (dev, b) w).
  apply wp_bind. apply (wp_mono _ (λ _ s', upto s0 fsp (set_fs_nfree 0 (set_fs_flock (fs_flock f + 1) f)) s' ∧ cache V' H (bs s') ∧ u_error (bs s') = u_error (bs s4))).
  { assert (Hd : delete bp (<[bp := ((dev, b), w)]> H) = H) by (by rewrite delete_insert_id).
    destruct async; (eapply wp_bio; [exact Hu4|]).
    - eapply (wp_bdwrite sleep strategy is_tape V); [exact Hca3|apply lookup_insert_eq|]. rewrite Hd. intros b' Hca' U' s' Hu' E'. by rewrite E'.
    - destruct fuel as [|fuel]; [lia|]. eapply (wp_bwrite sleep strategy V); [exact Hca3|apply lookup_insert_eq|]. rewrite Hd. intros b' Hca' U' s' Hu' E'. by rewrite E'. }
  intros _ s5 (Hu5 & Hca5 & U5). apply wp_bind. eapply wp_wrfs; [exact Hu5|]. intros s6 Hu6 E6. eapply wp_fwakeup; [exact Hu6|]. intros s7 Hu7 E7.
  assert (HV' : ∀ k, k ≠ (dev, b) → V' k = V k) by (intros k Hk; unfold V', vset; by rewrite decide_False).
  eapply (HQ s7 V' _ 0); [exact Hu7|congruence|congruence|done|done|done|done|done|done|]. left. split_and!; [done| |].
  - exists (drop (S (Z.to_nat NICFREE)) v2). unfold V', vset, w, put_fblk. rewrite decide_True by done. simpl. by rewrite En.
  - eapply flist_ext; [exact Hfl|]. intros x Hx. apply HV'. intros [= ->]. done.
Qed.

Lemma free_ok_count V dev f l : free_ok V dev f l → zlen l < 2 ^ 31.
Proof.
  intros [F1 F2 F3 F4 F5 F6 F7]. assert (Hle : (length l <= Z.to_nat (fs_fsize f))%nat); [|lia].
  rewrite <- (length_seqZ 0 (fs_fsize f)). apply submseteq_length, NoDup_submseteq; [done|]. intros x Hx. apply elem_of_seqZ. specialize (F3 x Hx). lia.
Qed.

Lemma wp_free V H s ip i f l b fuel (Q : unit → ast → Prop) :
  inodes s !! ip = Some i → fss s !! i_fs i = Some f → cache V H (bs s) → free_ok V (i_dev i) f l →
  fs_isize f ≤ b < fs_fsize f → b ∉ l → i_dev i ≠ NODEV → unheld H (i_dev i) b → (size H < Z.to_nat NBUF)%nat → (Z.to_nat NBUF + 2 <= fuel)%nat →
  (∀ s' V' f', upto s (i_fs i) f' s' → cache V' H (bs s') → u_error (bs s') = u_error (bs s) →
     (∀ k, k ≠ (i_dev i, b) → V' k = V k) → free_ok V' (i_dev i) f' (b :: l) → same_geom f f' → Q tt s') →
  wp (free fsleep sleep strategy is_tape fuel ip b) Q s.
Proof using Driver0.
  clear quiet lbolt. intros Hi Hf Hca Hok Hr Hbl Hdev Hnh Hsz Hfu HQ. pose proof (upto_refl _ _ _ Hf) as Hu. pose proof (free_ok_count _ _ _ _ Hok) as Hcnt.
  pose proof Hok as [F1 F2 F3 F4 F5 F6 F7]. unfold free. apply wp_bind. eapply wp_load; [exact Hi|]. cbv zeta.
  apply wp_bind. eapply wp_badblock; [exact Hu|lia|done|]. apply wp_bind. destruct fuel as [|fuel']; [lia|]. eapply wp_wait_flock; [exact Hu|done|].
  remember (S fuel') as fuel eqn:Efuel. clear fuel' Efuel. apply wp_bind. eapply wp_rdfs; [exact Hu|].
  (* an empty list gets its end mark *)
  apply wp_bind. apply (wp_mono _ (λ _ s1, ∃ f1, upto s (i_fs i) f1 s1 ∧ bs s1 = bs s ∧ flist (λ b, V (i_dev i, b)) (fs_nfree f1) (fs_free f1) l ∧
    1 ≤ fs_nfree f1 ∧ fs_flock f1 = 0 ∧ fs_tfree f1 = fs_tfree f ∧ same_geom f f1)).
  { apply wp_when; intros Ht.
    - apply Z.leb_le in Ht. apply wp_bind. eapply wp_wrfs; [exact Hu|]. intros s1 Hu1 E1. apply wp_bind. eapply wp_rdfs; [exact Hu1|].
      eapply wp_wrfs; [exact Hu1|]. intros s2 Hu2 E2. eexists. split; [exact Hu2|]. split_and!; try done; [congruence|]. simpl.
      inversion F1 as [n arr Hn Hl| |]; subst; [|lia..]. destruct (fs_free f) as [|x ar]; [done|]. change (<[0%nat := 0]> (x :: ar)) with (0 :: ar).
      by apply (fl_last _ 1 ar).
    - apply Z.leb_gt in Ht. exists f. split_and!; try done. lia. }
  intros _ s1 (f1 & Hu1 & E1 & Hfl1 & Hn1 & Hlk1 & Ht1 & Hge1). rewrite <- E1 in Hca.
  apply wp_bind. eapply wp_rdfs; [exact Hu1|]. apply wp_bind.
  eapply (wp_spill V H s s1 _ f1 (i_dev i) b l); [exact Hu1|exact Hca|done|apply F5; lia|done|done|done|done|exact Hfl1|done|done|].
  intros s2 V2 f2 n Hu2 Hca2 U2 HV2 Ef Hlk2 Ht2 Hge2 En Hn. pose proof (flist_length _ _ _ _ Hfl1) as Hlen.
  apply wp_bind. eapply wp_rdfs; [exact Hu2|].
  assert (Hset : aset (fs_free f2) (fs_nfree f2) b = Some (<[Z.to_nat n := b]> (fs_free f1))).
  { rewrite Ef, En, aset_Some; [done|]. rewrite Hlen. unfold NICFREE in *. destruct Hn as [[-> _]|[? _]]; lia. }
  apply wp_bind. eapply wp_load; [exact Hset|]. apply wp_bind. eapply wp_wrfs; [exact Hu2|]. intros s3 Hu3 E3. apply wp_bind. eapply wp_wrfs; [exact Hu3|]. intros s4 Hu4 E4.
  apply wp_bind. eapply wp_wrfs; [exact Hu4|]. intros s5 Hu5 E5. eapply wp_wrfs; [exact Hu5|]. intros s6 Hu6 E6.
  destruct Hge1 as (G1 & G2 & G3), Hge2 as (G4 & G5 & G6).
  eapply HQ; [exact Hu6|rewrite E6, E5, E4, E3; exact Hca2|congruence|done| |split_and!; [simpl; congruence..|change (fs_fixed f2 = fs_fixed f); congruence]].
  split; simpl; try done.
  - rewrite En. destruct Hn as [(-> & (rest & HV) & Hfl2)|[Hn Hfl2]]; [apply flist_push_link with rest; [done|lia|done]|by apply flist_push].
  - by apply NoDup_cons.
  - intros x [->|Hx]%elem_of_cons; [lia|]. specialize (F3 x Hx). lia.
  - lia.
  - rewrite G5, G2. done.
  - rewrite Ht2, Ht1, F7, u32_id by (unfold is_u32; lia). lia.
Qed.

(** ** Scripts of allocations and releases *)

Inductive aop :=
| AllocB (flags : Z)
| FreeB (b : Z).

(** A stack of free blocks; 0 is the answer when it is empty. *)
Definition stack_op (l : list Z) (o : aop) : list Z * list Z :=
  match o with
  | AllocB _ => match l with [] => ([], [0]) | b :: l => (l, [b]) end
  | FreeB b => (b :: l, [])
  end.
Fixpoint stack_run (l : list Z) (os : list aop) : list Z * list Z :=
  match os with
  | [] => (l, [])
  | o :: os =>
      let '(l1, r) := stack_op l o in
      let '(l2, r') := stack_run l1 os in
      (l2, r ++ r')
  end.
(** Blocks given back are of the file system and are not free already. *)
Fixpoint aops_ok (lo hi : Z) (l : list Z) (os : list aop) : Prop :=
  match os with
  | [] => True
  | o :: os => match o with AllocB _ => True | FreeB b => lo ≤ b < hi ∧ b ∉ l end ∧ aops_ok lo hi (stack_op l o).1 os
  end.
(** The blocks a script may write. *)
Definition op_blocks (l : list Z) (o : aop) : list Z := match o with AllocB _ => take 1 l | FreeB b => [b] end.
Fixpoint touched_blocks (l : list Z) (os : list aop) : list Z :=
  match os with
  | [] => []
  | o :: os => op_blocks l o ++ touched_blocks (stack_op l o).1 os
  end.

Definition arun_op (fuel : nat) (ip : Z) (o : aop) : A (list Z) :=
  match o with
  | AllocB flags =>
      bp ← balloc fsleep sleep strategy is_tape lbolt fuel ip flags;
      if bp =? 0 then mret [0]
      else
        b ← bio (rdb bp);
        bio (bdwrite sleep strategy is_tape fuel bp);;
        mret [b_blkno b]
  | FreeB b =>
      free fsleep sleep strategy is_tape fuel ip b;;
      mret []
  end.
Fixpoint arun (fuel : nat) (ip : Z) (os : list aop) : A (list Z) :=
  match os with
  | [] => mret []
  | o :: os =>
      r ← arun_op fuel ip o;
      r' ← arun fuel ip os;
      mret (r ++ r')
  end.

(** The state of one file system between operations. *)
Definition fsys V s (ip : Z) (i : inode) (f : fs) (l : list Z) : Prop :=
  inodes s !! ip = Some i ∧ fss s !! i_fs i = Some f ∧ cache V ∅ (bs s) ∧ free_ok V (i_dev i) f l ∧ i_dev i ≠ NODEV.

Lemma fsys_upto V V' s s' ip i f f' l l' : fsys V s ip i f l → upto s (i_fs i) f' s' → cache V' ∅ (bs s') → free_ok V' (i_dev i) f' l' → fsys V' s' ip i f' l'.
Proof.
  intros (Hi & Hf & _ & _ & Hd) Hu Hca Hok. split_and!; [|by eapply upto_at|done|done|done]. destruct Hu as (_ & -> & _). done.
Qed.

Lemma free_ok_ext V V' dev f l : (∀ x, x ∈ l → V' (dev, x) = V (dev, x)) → free_ok V dev f l → free_ok V' dev f l.
Proof. intros HV [F1 F2 F3 F4 F5 F6 F7]. split; try done. eapply flist_ext; [exact F1|done]. Qed.

Lemma wp_arun_op V s ip i f l fuel o (Q : list Z → ast → Prop) :
  fsys V s ip i f l → match o with AllocB _ => True | FreeB b => fs_isize f ≤ b < fs_fsize f ∧ b ∉ l end → (Z.to_nat NBUF + 2 <= fuel)%nat →
  (∀ s' V' f', fsys V' s' ip i f' (stack_op l o).1 → same_geom f f' → (∀ k, k.1 ≠ i_dev i ∨ k.2 ≠ SUPERB ∧ k.2 ∉ op_blocks l o → V' k = V k) → Q (stack_op l o).2 s') →
  wp (arun_op fuel ip o) Q s.
Proof using quiet Driver0.
  assert (Hsz : (size (∅ : gmap Z (key * block)) < Z.to_nat NBUF)%nat) by (rewrite map_size_empty; unfold NBUF; lia).
  intros Hfs Ho Hfu HQ. pose proof Hfs as (Hi & Hf & Hca & Hok & Hdev). destruct o as [flags|b]; cbn [arun_op stack_op] in *.
  - destruct l as [|b l]; apply wp_bind; cbn [fst snd] in *.
    + eapply (wp_balloc_full V ∅); [done..|lia|]. intros s' f' Hu' Hca' _ Hok' Hge. rewrite Z.eqb_refl. apply wp_ret, (HQ s' V f'); [|done|done].
      by eapply fsys_upto.
    + eapply (wp_balloc V ∅ s ip i f b l); [done|done|done|done|done|done|done|done|done|]. intros bp s1 V1 f1 v Hu1 Hca1 _ _ HV1 Hok1 Hge1 _.
      destruct (cache_held _ _ _ _ _ _ Hca1 (lookup_insert_eq _ _ _)) as (Hb & _ & c & Hc & Hk & _).
      rewrite (proj2 (Z.eqb_neq bp 0)) by (unfold isbuf, buf_at in Hb; lia). apply wp_bind. eapply wp_bio; [exact Hu1|].
      eapply wp_rd_ct; [exact Hc|]. intros bb Eb _ _ s2 Hu2 E2. rewrite <- E2 in Hca1. apply wp_bind. eapply wp_bio; [exact Hu2|].
      eapply (wp_bdwrite sleep strategy is_tape V1); [exact Hca1|apply lookup_insert_eq|]. rewrite delete_insert_id by done.
      intros b3 Hca3 _ s3 Hu3 E3. rewrite <- E3 in Hca3. apply wp_ret.
      assert (b_blkno bb = b) as -> by (change (b_blkno (ct bb) = b); rewrite Eb; by injection (bkey_of _ _ Hk)).
      pose proof Hok as [F1 F2 F3 F4 F5 F6 F7]. apply NoDup_cons in F2 as [Hbl _].
      apply (HQ s3 (vset V1 (i_dev i, b) v) f1); [|done|].
      * eapply fsys_upto; [exact Hfs|exact Hu3|exact Hca3|]. eapply free_ok_ext; [|exact Hok1]. intros x Hx. unfold vset. rewrite decide_False; [done|]. intros [= ->]. done.
      * intros [d x] Hk'. cbn [fst snd] in Hk'. unfold vset. rewrite decide_False; [apply HV1|]; intros [= -> ->]; simpl in Hk'; destruct Hk' as [?|[? ?]]; set_solver.
  - destruct Ho as [Hr Hbl]. apply wp_bind. eapply (wp_free V ∅ s ip i f l b); [done..|]. intros s1 V1 f1 Hu1 Hca1 _ HV1 Hok1 Hge1. apply wp_ret, (HQ s1 V1 f1); [|done|].
    + by eapply fsys_upto.
    + intros [d x] Hk'. cbn [fst snd] in Hk'. apply HV1. intros [= -> ->]. simpl in Hk'. destruct Hk' as [?|[? ?]]; set_solver.
Qed.

Lemma wp_arun os : ∀ V s ip i f l fuel (Q : list Z → ast → Prop),
  fsys V s ip i f l → aops_ok (fs_isize f) (fs_fsize f) l os → (Z.to_nat NBUF + 2 <= fuel)%nat →
  (∀ s' V' f', fsys V' s' ip i f' (stack_run l os).1 → same_geom f f' → (∀ k, k.1 ≠ i_dev i ∨ k.2 ≠ SUPERB ∧ k.2 ∉ touched_blocks l os → V' k = V k) → Q (stack_run l os).2 s') →
  wp (arun fuel ip os) Q s.
Proof using quiet Driver0.
  induction os as [|o os IH]; intros V s ip i f l fuel Q Hfs Hok Hfu HQ; cbn [arun stack_run aops_ok touched_blocks] in *; [by apply wp_ret, (HQ s V f)|].
  destruct Hok as [Ho Hok]. apply wp_bind. eapply wp_arun_op; [exact Hfs|exact Ho|done|]. intros s1 V1 f1 Hfs1 (G1 & G2 & G3) HV1. apply wp_bind.
  eapply (IH V1 s1 ip i f1); [exact Hfs1|by rewrite G1, G2|done|]. intros s2 V2 f2 Hfs2 (G4 & G5 & G6) HV2. apply wp_ret.
  destruct (stack_op l o) as [l1 r1]. cbn [fst snd] in *. destruct (stack_run l1 os) as [l2 r2]. cbn [fst snd] in *.
  apply (HQ s2 V2 f2); [done|split_and!; congruence|]. intros k Hk. rewrite HV2, HV1; [done| |]; rewrite not_elem_of_app in Hk; tauto.
Qed.
End spec.

(** ** A small file system *)

Definition demo_fs : fs := Fs 0 2 10 0 4 ([0; 3; 4; 5] ++ replicate 196 0) 0 (replicate 32 0) 0 0 0 0 0 3 0 (replicate 7 0) 1 0 0 0.
Definition demo_inode : inode := Inode 0 0 0 1 0 3 0 1 [0; 0; 0; 0; 0; 0; 0] 0 0 (Icommon1 33188 1 0 0 0) 0 (Icommon2 0 0 0).
Definition demo_as : ast := AS (BS mem_init data_zero ∅ 0 0 0 []) {[1 := demo_fs]} {[2 := demo_inode]} ∅ 0 0 0 nst_zero [] 0 0 [] [].
Definition demo_good : key → Prop := sd_good (λ _, 0) (λ _, 2) (λ _, 200) [0].
Definition demo_V (k : key) : block := dget ∅ (sd_phys (λ _, 0) (λ _, 2) k).

Lemma demo_apart : sd_apart (λ _, 0) (λ _, 2) (λ _, 200) [0].
Proof. intros x y Hx%list_elem_of_singleton Hy%list_elem_of_singleton Hne. congruence. Qed.

#[export] Instance demo_driver : Driver one_strategy (sd_phys (λ _, 0) (λ _, 2)) demo_good.
Proof. apply sd_driver; [done|apply demo_apart]. Qed.

Lemma demo_fsys : fsys (phys := sd_phys (λ _, 0) (λ _, 2)) (good := demo_good) demo_V demo_as 2 demo_inode demo_fs [5; 4; 3].
Proof.
  split_and!; [done|done| | |done].
  - apply init_cache. apply data_zero_ok.
  - split.
    + apply (fl_last _ 4 ([3; 4; 5] ++ replicate 196 0)); [done|by vm_compute].
    + apply (bool_decide_unpack _). by vm_compute.
    + intros b Hb. simpl. set_solver by lia.
    + done.
    + intros b Hb. simpl in Hb. split; [by left|]. split; cbn [fst snd sd_phys]; [change (Z.shiftr 200 1) with 100|change (Z.shiftr 2 1) with 1]; lia.
    + done.
    + done.
Qed.

(** ** Claims *)

(** C14: the free blocks of a file system are a stack.  Any script of [balloc]
    and [free] returns; [balloc] hands out the block freed last, or the next
    one of the list across its chunks on the disk, and reports no space exactly
    when the list is empty; so no block is handed out twice without being freed
    in between.  Only the superblock and the blocks allocated or freed are
    written. *)
Theorem alloc_refines_stack fsleep sleep strategy is_tape lbolt phys good `{!Driver strategy phys good} V s ip i f l os fuel :
  (∀ c p s, fsleep c p s = Ret tt s) → fsys (phys := phys) (good := good) V s ip i f l →
  aops_ok (fs_isize f) (fs_fsize f) l os → (Z.to_nat NBUF + 2 <= fuel)%nat →
  wp (arun fsleep sleep strategy is_tape lbolt fuel ip os)
    (λ rs s', rs = (stack_run l os).2 ∧ ∃ V' f', fsys (phys := phys) (good := good) V' s' ip i f' (stack_run l os).1 ∧
       ∀ k, k.1 ≠ i_dev i ∨ k.2 ≠ SUPERB ∧ k.2 ∉ touched_blocks l os → V' k = V k) s.
Proof.
  intros Hq Hfs Hok Hfu. eapply (wp_arun fsleep sleep strategy is_tape lbolt Hq); [exact Hfs|exact Hok|exact Hfu|].
  intros s' V' f' Hfs' _ HV. split; [done|]. by exists V', f'.
Qed.

Lemma alloc_refines_stack_witness :
  wp (arun (λ _ _, mret tt) nosleep one_strategy (λ _, false) 9 enough 2 [AllocB 1; AllocB 0; FreeB 5; AllocB 0; AllocB 0; AllocB 0])
    (λ rs s', rs = [5; 4; 5; 3; 0] ∧ ∃ V' f', fsys (phys := sd_phys (λ _, 0) (λ _, 2)) (good := demo_good) V' s' 2 demo_inode f' [] ∧
       ∀ k, k.1 ≠ 0 ∨ k.2 ≠ SUPERB ∧ k.2 ∉ [5; 4; 5; 5; 3] → V' k = demo_V k) demo_as.
Proof.
  apply (alloc_refines_stack (λ _ _, mret tt) nosleep one_strategy (λ _, false) 9 _ demo_good demo_V demo_as 2 demo_inode demo_fs [5; 4; 3]
    [AllocB 1; AllocB 0; FreeB 5; AllocB 0; AllocB 0; AllocB 0] enough).
  - done.
  - apply demo_fsys.
  - cbn [aops_ok stack_op fst]. repeat split; try done. apply (bool_decide_unpack _). by vm_compute.
  - done.
Defined.
End Alloc.
