(* ===== verification/Bmap.v ===== *)
(** * Files as block maps (sys/kernel/ufs_bmap.c)

    [bmap] translates a block of a file to a block of the device through the
    seven addresses of the inode: four direct blocks and a single, a double and
    a triple indirect one, allocating what is missing when it writes. *)

From S2P Require Import Prelude Links Que NameCache Bio Cache CacheIO CacheSpec Alloc.
Import NameCache Bio Cache CacheIO CacheSpec Alloc.

Module Bmap.
#[local] Set Default Proof Using "Type".

Definition NADDR : Z := 7.
Definition NINDIR : Z := 256.
Definition NSHIFT : Z := 8.
Definition NMASK : Z := 255.
Definition IUPD : Z := 2.
Definition ICHG : Z := 64.

(** The number of levels: [j], [sh] and the block number within the tree. *)
Fixpoint bmap_level (j : nat) (sh nb bn : Z) : Z * Z * Z :=
  match j with
  | O => (0, sh, bn)
  | S j' =>
      let sh := sh + NSHIFT in
      let nb := Z.shiftl nb NSHIFT in
      if bn <? nb then (Z.of_nat j, sh, bn) else bmap_level j' sh nb (bn - nb)
  end.

Section bmap.
Context (fsleep : Z → Z → A unit) (sleep : Z → Z → M bst unit) (strategy : Z → M bst unit) (is_tape : Z → bool) (lbolt : Z).
Notation balloc := (balloc fsleep sleep strategy is_tape lbolt).
Notation bwrite := (bwrite sleep strategy).
Notation bdwrite := (bdwrite sleep strategy is_tape).

(** A new block for address [n] of the inode; [sync] chooses the write. *)
Definition bmap_new (fuel : nat) (ip n rwflg flags : Z) (sync : bool) : A (option Z) :=
  if rwflg =? B_READ then mret None
  else
    bp ← balloc fuel ip flags;
    if bp =? 0 then mret None
    else
      b ← bio (rdb bp);
      let nb := b_blkno b in
      (if sync then bio (bwrite fuel bp) else bio (bdwrite fuel bp));;
      i ← rdi ip;
      a ← load (λ _, aset (i_addr i) n nb);
      wri ip (set_i_addr a);;
      wri ip (λ i, set_i_flag (Z.lor (i_flag i) (Z.lor IUPD ICHG)) i);;
      mret (Some nb).

(** The loop through the indirect blocks: [n] levels are left. *)
Fixpoint bmap_loop (n : nat) (fuel : nat) (ip bn rwflg flags : Z) (async : bool) (sh nb ra : Z) : A Z :=
  match n with
  | O =>
      modify (set_rablock ra);;
      mret nb
  | S n' =>
      let j := 4 - Z.of_nat n in
      i ← rdi ip;
      bp ← bio (bread sleep strategy fuel (i_dev i) nb);
      b ← bio (rdb bp);
      if has B_ERROR b || negb (b_resid b =? 0) then
        bio (brelse bp);;
        mret 0
      else
        bap ← rd_data bp;
        let sh := sh - NSHIFT in
        let x := Z.land (Z.shiftr bn sh) NMASK in
        nb ← load (λ _, aget bap x);
        ra ← (if x <? NINDIR - 1 then load (λ _, aget bap (x + 1)) else mret ra);
        if nb =? 0 then
          nbp ← (if rwflg =? B_READ then mret 0 else balloc fuel ip (Z.lor flags B_CLRBUF));
          if nbp =? 0 then
            bio (brelse bp);;
            mret (-1)
          else
            b ← bio (rdb nbp);
            let nb := b_blkno b in
            (if negb async && ((j <? 3) || negb (Z.land flags B_SYNC =? 0)) then bio (bwrite fuel nbp) else bio (bdwrite fuel nbp));;
            wr_data bp (λ bap, <[Z.to_nat x := nb]> bap);;
            bio (bdwrite fuel bp);;
            bmap_loop n' fuel ip bn rwflg flags async sh nb ra
        else
          bio (brelse bp);;
          bmap_loop n' fuel ip bn rwflg flags async sh nb ra
  end.

Definition bmap (fuel : nat) (ip bn rwflg flags : Z) : A Z :=
  i ← rdi ip;
  f ← rdfs (i_fs i);
  let async := negb (Z.land (fs_flags f) MNT_ASYNC =? 0) in
  if bn <? 0 then
    seterr EFBIG;;
    mret 0
  else
    modify (set_rablock 0);;
    if bn <? NADDR - 3 then
      nb ← load (λ _, aget (i_addr i) bn);
      r ← (if nb =? 0 then bmap_new fuel ip bn rwflg flags (negb (Z.land flags B_SYNC =? 0)) else mret (Some nb));
      match r with
      | None => mret (-1)
      | Some nb =>
          i ← rdi ip;
          when (bn <? NADDR - 4)
            (ra ← load (λ _, aget (i_addr i) (bn + 1));
             modify (set_rablock ra));;
          mret nb
      end
    else
      let '(j, sh, bn) := bmap_level 3 0 1 (bn - (NADDR - 3)) in
      if j =? 0 then
        seterr EFBIG;;
        mret 0
      else
        nb ← load (λ _, aget (i_addr i) (NADDR - j));
        r ← (if nb =? 0 then bmap_new fuel ip (NADDR - j) rwflg (Z.lor flags B_CLRBUF) (negb async) else mret (Some nb));
        match r with
        | None => mret (-1)
        | Some nb => bmap_loop (Z.to_nat (4 - j)) fuel ip bn rwflg flags async sh nb 0
        end.
End bmap.

(** ** Trees of blocks

    [W b] is the block [b] of the device.  [tget W d nb bn] follows [d] levels of
    indirect blocks from [nb], [towns W d nb] is the blocks of that tree. *)

Definition idx (d : nat) (bn : Z) : Z := Z.land (Z.shiftr bn (NSHIFT * Z.of_nat d)) NMASK.
Definition word (blk : list Z) (x : Z) : Z := default 0 (blk !! Z.to_nat x).

Fixpoint tget (W : Z → list Z) (d : nat) (nb bn : Z) : Z :=
  match d with
  | O => nb
  | S d => if nb =? 0 then 0 else tget W d (word (W nb) (idx d bn)) bn
  end.
Fixpoint towns (W : Z → list Z) (d : nat) (nb : Z) : list Z :=
  if nb =? 0 then []
  else nb :: match d with O => [] | S d => flat_map (towns W d) (W nb) end.
(** Indirect blocks are full blocks. *)
Fixpoint tree (W : Z → list Z) (d : nat) (nb : Z) : Prop :=
  match d with
  | O => True
  | S d => nb = 0 ∨ length (W nb) = Z.to_nat NINDIR ∧ ∀ c, c ∈ W nb → tree W d c
  end.

Section trees.
Implicit Types (W : Z → list Z) (d : nat).

Lemma idx_range d bn : 0 ≤ idx d bn < NINDIR.
Proof. unfold idx, NINDIR. change NMASK with (Z.ones 8). rewrite Z.land_ones by lia. apply Z.mod_pos_bound. lia. Qed.

Lemma word_lookup blk x : length blk = Z.to_nat NINDIR → 0 ≤ x < NINDIR → blk !! Z.to_nat x = Some (word blk x) ∧ aget blk x = Some (word blk x).
Proof.
  intros Hl Hx. assert (is_Some (blk !! Z.to_nat x)) as [y Hy] by (apply lookup_lt_is_Some; unfold NINDIR in *; lia).
  unfold word, aget. rewrite Hy, Zle_imp_le_bool by lia. done.
Qed.

Lemma towns_0 W d : towns W d 0 = [].
Proof. by destruct d. Qed.

Lemma towns_S W d nb : nb ≠ 0 → towns W (S d) nb = nb :: flat_map (towns W d) (W nb).
Proof. intros Hn. simpl. by rewrite (proj2 (Z.eqb_neq _ _) Hn). Qed.

Lemma towns_head W d nb : nb ≠ 0 → nb ∈ towns W d nb.
Proof. intros Hn. destruct d; simpl; rewrite (proj2 (Z.eqb_neq _ _) Hn); by left. Qed.

Lemma towns_child W d nb c : nb ≠ 0 → c ∈ W nb → ∀ x, x ∈ towns W d c → x ∈ towns W (S d) nb.
Proof. intros Hn Hc x Hx. rewrite towns_S by done. right. apply list_elem_of_In, in_flat_map. exists c. split; by apply list_elem_of_In. Qed.

Lemma tget_0 W d bn : tget W d 0 bn = 0.
Proof. by destruct d. Qed.

Lemma tget_towns W d : ∀ nb bn, tget W d nb bn ≠ 0 → tget W d nb bn ∈ towns W d nb.
Proof.
  induction d as [|d IH]; intros nb bn; [apply (towns_head W 0)|]. cbn [tget]. destruct (Z.eqb_spec nb 0) as [->|Hn]; [done|]. intros Ht.
  apply (towns_child W d nb (word (W nb) (idx d bn))); [done| |by apply IH]. unfold word in *.
  destruct (W nb !! Z.to_nat (idx d bn)) as [c|] eqn:E; [by eapply list_elem_of_lookup_2|]. cbn in Ht. by rewrite tget_0 in Ht.
Qed.

(** A tree depends only on its own blocks. *)
Lemma tree_local W W' d : ∀ nb, (∀ x, x ∈ towns W d nb → W' x = W x) →
  towns W' d nb = towns W d nb ∧ (∀ bn, tget W' d nb bn = tget W d nb bn) ∧ (tree W d nb → tree W' d nb).
Proof.
  induction d as [|d IH]; intros nb HW; [done|]. destruct (decide (nb = 0)) as [->|Hn]; [by rewrite !towns_0; split_and!; [..|left]|].
  assert (HWn : W' nb = W nb) by (by apply HW, towns_head).
  assert (Hch : ∀ c, c ∈ W nb → towns W' d c = towns W d c ∧ (∀ bn, tget W' d c bn = tget W d c bn) ∧ (tree W d c → tree W' d c)).
  { intros c Hc. apply IH. intros x Hx. apply HW. by eapply towns_child. }
  split_and!.
  - rewrite !towns_S, HWn by done. f_equal. clear HW HWn. induction (W nb) as [|c cs IHc]; [done|]. simpl. f_equal; [apply Hch; by left|].
    apply IHc. intros c' Hc'. apply Hch. by right.
  - intros bn. simpl. rewrite (proj2 (Z.eqb_neq _ _) Hn), HWn. unfold word. destruct (W nb !! Z.to_nat (idx d bn)) as [c|] eqn:E; [|simpl].
    + apply Hch. by eapply list_elem_of_lookup_2.
    + destruct d; done.
  - intros [?|[Hl Ht]]; [done|]. right. rewrite HWn. split; [done|]. intros c Hc. apply Hch; auto.
Qed.

(** Two block numbers share the last [d] digits. *)
Fixpoint same_path (d : nat) (bn bn' : Z) : Prop :=
  match d with O => True | S d => idx d bn = idx d bn' ∧ same_path d bn bn' end.

Lemma same_path_mod d bn bn' : 0 ≤ bn → 0 ≤ bn' → same_path d bn bn' → bn `mod` 2 ^ (NSHIFT * Z.of_nat d) = bn' `mod` 2 ^ (NSHIFT * Z.of_nat d).
Proof.
  intros Hb Hb'. induction d as [|d IH]; [by rewrite !Z.mod_1_r|]. intros [Hi Hs]. specialize (IH Hs). unfold idx in Hi.
  change NMASK with (Z.ones 8) in Hi. rewrite !Z.land_ones, !Z.shiftr_div_pow2 in Hi by (unfold NSHIFT; lia).
  replace (NSHIFT * Z.of_nat (S d)) with (NSHIFT * Z.of_nat d + 8) by (unfold NSHIFT; lia). rewrite Z.pow_add_r by (unfold NSHIFT; lia).
  rewrite !Z.rem_mul_r by (unfold NSHIFT; lia). congruence.
Qed.

Lemma flat_map_ext_in {X Y} (f g : X → list Y) l : (∀ x, x ∈ l → f x = g x) → flat_map f l = flat_map g l.
Proof. induction l as [|x l IH]; intros Hfg; [done|]. simpl. rewrite Hfg by (by left). f_equal. apply IH. intros y Hy. apply Hfg. by right. Qed.

(** One child of an indirect block changes. *)
Lemma tree_update W W' d nb i c c' : nb ≠ 0 → length (W nb) = Z.to_nat NINDIR → 0 ≤ i < NINDIR → W nb !! Z.to_nat i = Some c →
  W' nb = <[Z.to_nat i := c']> (W nb) →
  (∀ D1 D2, W nb = D1 ++ c :: D2 → length D1 = Z.to_nat i → ∀ x, x ∈ D1 ++ D2 → ∀ y, y ∈ towns W d x → W' y = W y) →
  (∀ used, towns W' d c' ≡ₚ used ++ towns W d c → towns W' (S d) nb ≡ₚ used ++ towns W (S d) nb) ∧
  (∀ bn, tget W' (S d) nb bn = if decide (idx d bn = i) then tget W' d c' bn else tget W (S d) nb bn) ∧
  (tree W (S d) nb → tree W' d c' → tree W' (S d) nb).
Proof.
  intros Hn Hl Hi Hc HW' Hsib. pose proof (list_elem_of_split_length _ _ _ Hc) as (D1 & D2 & HD & Hl1).
  specialize (Hsib D1 D2 HD (eq_sym Hl1)). rewrite HD, Hl1, insert_app_r_alt, Nat.sub_diag in HW' by lia. cbn [insert list_insert] in HW'.
  assert (Hloc : ∀ x, x ∈ D1 ++ D2 → towns W' d x = towns W d x ∧ (∀ bn, tget W' d x bn = tget W d x bn) ∧ (tree W d x → tree W' d x)).
  { intros x Hx. apply tree_local. by apply Hsib. }
  split_and!.
  - intros used Hp. rewrite !towns_S, HW', HD, !flat_map_app by done. simpl.
    rewrite (flat_map_ext_in (towns W' d) (towns W d) D1), (flat_map_ext_in (towns W' d) (towns W d) D2); [|intros x Hx; apply Hloc; set_solver..].
    rewrite Hp. rewrite <- !app_assoc. rewrite <- Permutation_middle. f_equiv. rewrite !app_assoc. f_equiv. f_equiv. apply Permutation_app_comm.
  - intros bn. pose proof (idx_range d bn) as Hr. cbn [tget]. rewrite (proj2 (Z.eqb_neq _ _) Hn), HW'. unfold word. case_decide as Hd.
    + rewrite Hd, Hl1, list_lookup_middle by done. done.
    + rewrite HD. assert (Hne : Z.to_nat (idx d bn) ≠ length D1) by lia.
      assert (Hlk : (D1 ++ c' :: D2) !! Z.to_nat (idx d bn) = (D1 ++ c :: D2) !! Z.to_nat (idx d bn)).
      { destruct (decide (Z.to_nat (idx d bn) < length D1)%nat); [by rewrite !lookup_app_l|]. rewrite !lookup_app_r by lia.
        destruct (Z.to_nat (idx d bn) - length D1)%nat eqn:E; [lia|done]. }
      rewrite Hlk. destruct ((D1 ++ c :: D2) !! Z.to_nat (idx d bn)) as [x|] eqn:Ex; [|by destruct d]. simpl. apply Hloc.
      destruct (decide (Z.to_nat (idx d bn) < length D1)%nat) as [Hlt|Hge]; [rewrite lookup_app_l in Ex by done; apply elem_of_app; left; by eapply list_elem_of_lookup_2|].
      rewrite lookup_app_r in Ex by lia. destruct (Z.to_nat (idx d bn) - length D1)%nat eqn:E; [lia|]. apply elem_of_app; right. by eapply list_elem_of_lookup_2.
  - intros [?|[_ Ht]] Hc'; [done|]. right. rewrite HW'. rewrite HD in Hl, Ht. split; [by rewrite length_app in Hl |- *|].
    intros x Hx. apply elem_of_app in Hx as [Hx|[->|Hx]%elem_of_cons]; [|done|]; apply Hloc; [set_solver|apply Ht; set_solver|set_solver|apply Ht; set_solver].
Qed.

(** Siblings do not share blocks. *)
Lemma towns_apart W d nb D1 c D2 : nb ≠ 0 → W nb = D1 ++ c :: D2 → NoDup (towns W (S d) nb) →
  NoDup (towns W d c) ∧ nb ∉ towns W d c ∧ (∀ x y, x ∈ D1 ++ D2 → y ∈ towns W d x → y ≠ nb ∧ y ∉ towns W d c).
Proof.
  intros Hn HD Hnd. rewrite towns_S, HD, flat_map_app in Hnd by done. simpl in Hnd. apply NoDup_cons in Hnd as [Hnb Hnd].
  apply NoDup_app in Hnd as (Hnd1 & Hd1 & Hnd2). apply NoDup_app in Hnd2 as (Hnd2 & Hd2 & Hnd3). rewrite !elem_of_app in Hnb.
  split_and!; [done|tauto|]. intros x y Hx Hy.
  assert (Hin : ∀ l, x ∈ l → y ∈ flat_map (towns W d) l) by (intros l Hl; apply list_elem_of_In, in_flat_map; exists x; split; by apply list_elem_of_In).
  apply elem_of_app in Hx as [Hx|Hx]; specialize (Hin _ Hx).
  - split; [intros ->; tauto|]. intros Hy2. apply (Hd1 y Hin). apply elem_of_app. by left.
  - split; [intros ->; tauto|]. intros Hy2. by apply (Hd2 y Hy2).
Qed.
End trees.

(** ** Growing a tree

    [grown]: the tree of root [nb] became that of root [nb'], with [bn] mapped to
    [r] and every other block as before; the new blocks come from the front of
    the free list [l].  Blocks in [ex] may have changed too.  The contents of
    the other blocks mapped before stay, that of [bn] if [kp], and a new one is
    zero if [clr]. *)

Record grown (kp clr : Prop) (V V' : key → block) (dev : Z) (ex : list Z) (d : nat) (nb nb' bn : Z) (l l' : list Z) (r : Z) : Prop := Grown {
  gr_used : ∃ used, l = used ++ l' ∧ towns (λ b, V' (dev, b)) d nb' ≡ₚ used ++ towns (λ b, V (dev, b)) d nb ∧
    (∀ k, k.1 ≠ dev ∨ k.2 ≠ SUPERB ∧ k.2 ∉ ex ∧ k.2 ∉ towns (λ b, V (dev, b)) d nb ∧ k.2 ∉ used → V' k = V k) ∧
    (tget (λ b, V (dev, b)) d nb bn ≠ 0 → used = [] ∧ r = tget (λ b, V (dev, b)) d nb bn);
  gr_tree : tree (λ b, V' (dev, b)) d nb';
  gr_get : tget (λ b, V' (dev, b)) d nb' bn = r ∧ r ≠ 0;
  gr_other : ∀ bn', ¬ same_path d bn bn' → tget (λ b, V' (dev, b)) d nb' bn' = tget (λ b, V (dev, b)) d nb bn';
  gr_keep : ∀ bn', let b := tget (λ b, V (dev, b)) d nb bn' in kp ∨ ¬ same_path d bn bn' → b ≠ 0 → V' (dev, b) = V (dev, b);
  gr_fresh : clr → tget (λ b, V (dev, b)) d nb bn = 0 → V' (dev, r) = zero_block;
  gr_small : (length l <= length l' + d + if (nb =? 0)%Z then 1 else 0)%nat
}.

Section growth.
Implicit Types (V : key → block) (W : Z → list Z).

Lemma fresh_tree W d b : W b = zero_block → b ≠ 0 → towns W d b = [b] ∧ tree W d b ∧ (∀ bn, (0 < d)%nat → tget W d b bn = 0).
Proof.
  intros Hz Hb. destruct d as [|d]; [simpl; rewrite (proj2 (Z.eqb_neq _ _) Hb); split_and!; [done|done|lia]|].
  assert (H0 : ∀ c, c ∈ zero_block → c = 0) by (intros c Hc; by apply elem_of_replicate in Hc as [-> _]).
  split_and!.
  - rewrite towns_S, Hz by done. f_equal. rewrite (flat_map_ext_in _ (λ _, [])); [|intros c Hc; rewrite (H0 c Hc); apply towns_0]. generalize zero_block. intros l. by induction l.
  - right. rewrite Hz. split; [done|]. intros c Hc. rewrite (H0 c Hc). destruct d; [done|by left].
  - intros bn _. cbn [tget]. rewrite (proj2 (Z.eqb_neq _ _) Hb), Hz. unfold word.
    destruct (zero_block !! Z.to_nat (idx d bn)) as [c|] eqn:E; [|by destruct d]. simpl. rewrite (H0 c) by (by eapply list_elem_of_lookup_2). by destruct d.
Qed.

Lemma lookup_other {X} (D1 D2 : list X) c x j : (D1 ++ c :: D2) !! j = Some x → j ≠ length D1 → x ∈ D1 ++ D2.
Proof.
  intros Hj Hne. apply elem_of_app. destruct (decide (j < length D1)%nat); [left|right].
  - rewrite lookup_app_l in Hj by done. by eapply list_elem_of_lookup_2.
  - rewrite lookup_app_r in Hj by lia. destruct (j - length D1)%nat eqn:E; [lia|]. by eapply list_elem_of_lookup_2.
Qed.

Lemma grown_weaken (kp clr clr' : Prop) V V' dev ex d nb nb' bn l l' r : (clr' → clr) → grown kp clr V V' dev ex d nb nb' bn l l' r → grown kp clr' V V' dev ex d nb nb' bn l l' r.
Proof. intros Hc [G1 G2 G3 G4 G5 G6 G7]. split; auto. Qed.

(** From a child to its parent. *)
Lemma grown_up kp clr V V' dev ex d nb c c' bn l l' r :
  let W b := V (dev, b) in
  grown kp clr V V' dev ex d c c' bn l l' r → nb ≠ 0 → tree W (S d) nb → W nb !! Z.to_nat (idx d bn) = Some c →
  V' (dev, nb) = <[Z.to_nat (idx d bn) := c']> (W nb) → (∀ x, x ∈ ex → x = nb) → NoDup (towns W (S d) nb) →
  (∀ x, x ∈ towns W (S d) nb → x ∉ l ∧ x ≠ SUPERB) → grown kp clr V V' dev [] (S d) nb nb bn l l' r.
Proof.
  intros W [(used & Hl & Hp & Hfr & Hold) Htr [Hget Hr] Hoth Hkeep Hfresh Hsm] Hn Ht Hc HV' Hex Hnd Hdis. set (W' := λ b, V' (dev, b)) in *.
  destruct Ht as [?|[Hlw Htc]]; [done|]. pose proof (idx_range d bn) as Hi.
  assert (Hcin : c ∈ W nb) by (by eapply list_elem_of_lookup_2).
  assert (Hsib : ∀ D1 D2, W nb = D1 ++ c :: D2 → length D1 = Z.to_nat (idx d bn) → ∀ x, x ∈ D1 ++ D2 → ∀ y, y ∈ towns W d x → W' y = W y).
  { intros D1 D2 HD _ x Hx y Hy. destruct (towns_apart W d nb D1 c D2 Hn HD Hnd) as (_ & _ & Hap). destruct (Hap x y Hx Hy) as [Hyn Hyc].
    assert (Hyt : y ∈ towns W (S d) nb). { eapply towns_child; [done| |exact Hy]. rewrite HD. apply elem_of_app in Hx as [?|?]; set_solver. }
    destruct (Hdis y Hyt) as [Hyl HyS]. apply (Hfr (dev, y)). right. cbn [fst snd]. split_and!; [done|intros Hye; by apply Hyn, Hex|done|]. rewrite Hl in Hyl. set_solver. }
  destruct (tree_update W W' d nb (idx d bn) c c' Hn Hlw Hi Hc HV' Hsib) as (U1 & U2 & U3).
  split.
  - exists used. split_and!; [done|by apply U1| |].
    + intros k Hk. apply Hfr. destruct Hk as [?|(? & _ & Hkt & ?)]; [by left|right]. split_and!; [done| | |done].
      * intros Hke. apply Hkt. rewrite (Hex _ Hke). by apply towns_head.
      * intros Hkc. apply Hkt. by eapply towns_child.
    + cbn [tget]. rewrite (proj2 (Z.eqb_neq _ _) Hn). fold (W nb). unfold word. rewrite Hc. done.
  - apply U3; [|done]. right. done.
  - rewrite U2, decide_True by done. done.
  - intros bn' Hsp. rewrite U2. case_decide as Hd; [|done]. cbn [same_path] in Hsp. rewrite Hoth; [|intros Hs; apply Hsp; done].
    cbn [tget]. rewrite (proj2 (Z.eqb_neq _ _) Hn). fold (W nb). unfold word. rewrite Hd, Hc. done.
  - intros bn'. cbn [tget]. rewrite (proj2 (Z.eqb_neq _ _) Hn). fold (W nb). cbv zeta. destruct (decide (idx d bn' = idx d bn)) as [Hd|Hd].
    + unfold word. rewrite Hd, Hc. intros Hk. apply Hkeep. destruct Hk as [?|Hk]; [by left|right]. intros Hs. apply Hk. by split.
    + intros _ Hx. destruct (list_elem_of_split_length _ _ _ Hc) as (D1 & D2 & HD & Hl1). apply (Hsib D1 D2 HD (eq_sym Hl1) (word (W nb) (idx d bn'))); [|by apply tget_towns].
      unfold word in Hx |- *. destruct (W nb !! Z.to_nat (idx d bn')) as [x|] eqn:Ex; [|cbn in Hx; by rewrite tget_0 in Hx]. cbn. rewrite HD in Ex.
      eapply lookup_other; [exact Ex|]. pose proof (idx_range d bn'). lia.
  - intros Hclr. cbn [tget]. rewrite (proj2 (Z.eqb_neq _ _) Hn). fold (W nb). unfold word. rewrite Hc. by apply Hfresh.
  - rewrite (proj2 (Z.eqb_neq _ _) Hn). destruct (c =? 0); lia.
Qed.

(** A new child: [V3] is [V] with the new block [b] and its parent written. *)
Lemma grown_new kp clr V V3 V' dev nb d b bn l l' r :
  grown kp clr V3 V' dev [] d b b bn l l' r → V3 (dev, b) = zero_block → b ≠ 0 →
  (∀ k, k.1 ≠ dev ∨ k.2 ≠ SUPERB ∧ k.2 ≠ b ∧ k.2 ≠ nb → V3 k = V k) → kp → grown kp clr V V' dev [nb] d 0 b bn (b :: l) l' r.
Proof.
  intros [(used & Hl & Hp & Hfr & Hold) Htr Hget Hoth Hkeep Hfresh Hsm] HV3 Hb H3 Hkp.
  destruct (fresh_tree (λ b, V3 (dev, b)) d b HV3 Hb) as (T1 & T2 & T3). rewrite T1 in Hp, Hfr. split; [|done|done|..].
  - exists (b :: used). rewrite towns_0, app_nil_r. split_and!; [by rewrite Hl|by rewrite Hp, Permutation_app_comm| |].
    + intros k Hk. rewrite Hfr, H3; [done| |]; (destruct Hk as [?|(K1 & K2 & K3 & K4)]; [by left|right]); clear Hfr H3; set_solver.
    + destruct d; done.
  - intros bn' Hs. rewrite Hoth by done. destruct d as [|d]; [by destruct Hs|]. rewrite T3 by lia. done.
  - intros bn'. by rewrite tget_0.
  - intros Hclr _. destruct d as [|d]; [|by apply Hfresh, T3; [|lia]]. destruct (Hold Hb) as [_ ->]. cbn [tget]. rewrite <- HV3. exact (Hkeep bn (or_introl Hkp) Hb).
  - rewrite (proj2 (Z.eqb_neq _ _) Hb) in Hsm. simpl. lia.
Qed.

Lemma grown_direct (kp clr : Prop) V V3 dev b bn l : b ≠ 0 → (∀ k, k.1 ≠ dev ∨ k.2 ≠ SUPERB ∧ k.2 ≠ b → V3 k = V k) → (clr → V3 (dev, b) = zero_block) →
  grown kp clr V V3 dev [] 0 0 b bn (b :: l) l b.
Proof.
  intros Hb HV Hz. split; [|done|done|intros bn' Hs; by destruct Hs|done|by intros; apply Hz|simpl; lia]. exists [b]. simpl. rewrite (proj2 (Z.eqb_neq _ _) Hb). split_and!; [done|done| |done].
  intros k Hk. apply HV. destruct Hk as [?|(? & _ & _ & Hk)]; [by left|right]. split; [done|]. by apply not_elem_of_cons in Hk as [? _].
Qed.

Lemma grown_root kp clr V V3 V' dev d b bn l l' r :
  grown kp clr V3 V' dev [] d b b bn l l' r → V3 (dev, b) = zero_block → b ≠ 0 →
  (∀ k, k.1 ≠ dev ∨ k.2 ≠ SUPERB ∧ k.2 ≠ b → V3 k = V k) → kp → grown kp clr V V' dev [] d 0 b bn (b :: l) l' r.
Proof.
  intros Hgr Hz Hb HV Hkp. destruct (grown_new kp clr V V3 V' dev SUPERB d b bn l l' r Hgr Hz Hb) as [(used & U1 & U2 & U3 & U4) G2 G3 G4 G5 G6 G7]; [intros k Hk; apply HV; tauto|done|].
  split; [|done..]. exists used. split_and!; [done|done| |done]. intros k Hk. apply U3. destruct Hk as [?|(? & _ & ? & ?)]; [by left|right].
  split_and!; [done| |done|done]. by rewrite list_elem_of_singleton.
Qed.
(** The contents of a block change. *)
Lemma grown_data clr V dev v bn l d : ∀ nb r, let W b := V (dev, b) in
  tree W d nb → NoDup (towns W d nb) → (∀ x, x ∈ towns W d nb → x ∉ l ∧ x ≠ SUPERB) → tget W d nb bn = r → r ≠ 0 →
  grown False clr V (vset V (dev, r) v) dev [] d nb nb bn l l r.
Proof.
  induction d as [|d IH]; intros nb r W Ht Hnd Hdis Hg Hr.
  - cbn [tget] in Hg. subst r. split; [|done|done|done|naive_solver|done|lia]. exists []. split_and!; [done|done| |done].
    intros [kd kb] Hk. unfold vset. rewrite decide_False; [done|]. intros [= -> ->]. destruct Hk as [?|(_ & _ & Hk & _)]; [done|]. apply Hk. by apply (towns_head W 0).
  - cbn [tget] in Hg. destruct (Z.eqb_spec nb 0) as [->|Hn]; [done|]. destruct Ht as [?|[Hl Htc]]; [done|]. fold (W nb) in *.
    destruct (word_lookup (W nb) (idx d bn) Hl (idx_range d bn)) as [Hlk _]. set (c := word (W nb) (idx d bn)) in *.
    assert (Hin : c ∈ W nb) by (by eapply list_elem_of_lookup_2). pose proof (list_elem_of_split _ _ Hin) as (D1 & D2 & HD).
    destruct (towns_apart W d nb D1 c D2 Hn HD Hnd) as (Hndc & Hnb & _).
    assert (Hrc : r ∈ towns W d c) by (subst r; by apply tget_towns).
    eapply (grown_up _ _ V _ dev [] d nb c c); [apply IH| | | | | | |]; try done.
    + by apply Htc.
    + intros x Hx. apply Hdis. by apply (towns_child W d nb c).
    + right. done.
    + rewrite list_insert_id by done. unfold vset. rewrite decide_False; [done|]. intros [= E]. by rewrite E in Hnb.
    + intros x Hx. by apply elem_of_nil in Hx.
Qed.
End growth.

(** ** Files

    Slot [n] of the inode is the root of a tree of [lev n] levels. *)

Definition lev (n : nat) : nat := (n - 3)%nat.
(** The largest file, in blocks. *)
Definition MAXBN : Z := 4 + 256 + 65536 + 16777216.
Definition locate (bn : Z) : nat * Z :=
  if bn <? 4 then (Z.to_nat bn, bn)
  else if bn - 4 <? 256 then (4%nat, bn - 4)
  else if bn - 4 - 256 <? 65536 then (5%nat, bn - 4 - 256)
  else (6%nat, bn - 4 - 256 - 65536).
Definition fget (W : Z → list Z) (addr : list Z) (bn : Z) : Z :=
  let '(n, b) := locate bn in tget W (lev n) (word addr (Z.of_nat n)) b.
Definition fowns (W : Z → list Z) (addr : list Z) : list Z := concat (imap (λ n a, towns W (lev n) a) addr).
Definition ftree (W : Z → list Z) (addr : list Z) : Prop :=
  length addr = Z.to_nat NADDR ∧ ∀ n a, addr !! n = Some a → tree W (lev n) a.

Section files.
Implicit Types (W : Z → list Z) (addr : list Z).

Lemma level_spec b : 0 ≤ b → bmap_level 3 0 1 b =
  if b <? 256 then (3, 8, b) else if b - 256 <? 65536 then (2, 16, b - 256)
  else if b - 256 - 65536 <? 16777216 then (1, 24, b - 256 - 65536) else (0, 24, b - 256 - 65536 - 16777216).
Proof. intros Hb. reflexivity. Qed.

(** The level the loop finds is that of the slot. *)
Lemma level_locate bn : 4 ≤ bn < MAXBN → ∃ n, bmap_level 3 0 1 (bn - (NADDR - 3)) = (7 - Z.of_nat n, NSHIFT * Z.of_nat (lev n), (locate bn).2) ∧
  (locate bn).1 = n ∧ (4 ≤ n ≤ 6)%nat.
Proof.
  unfold MAXBN, NADDR. intros Hb. rewrite level_spec by lia. unfold locate. rewrite (proj2 (Z.ltb_ge bn 4)) by lia.
  replace (bn - (7 - 3)) with (bn - 4) by lia. destruct (Z.ltb_spec (bn - 4) 256); [exists 4%nat; split_and!; try reflexivity; lia|].
  destruct (Z.ltb_spec (bn - 4 - 256) 65536); [exists 5%nat; split_and!; try reflexivity; lia|].
  rewrite (proj2 (Z.ltb_lt _ _)) by lia. exists 6%nat. split_and!; try reflexivity; lia.
Qed.

Lemma level_beyond bn : MAXBN ≤ bn → (bmap_level 3 0 1 (bn - (NADDR - 3))).1.1 = 0.
Proof. unfold MAXBN, NADDR. intros Hb. rewrite level_spec by lia. rewrite !(proj2 (Z.ltb_ge _ _)) by lia. done. Qed.

Lemma locate_direct bn : 0 ≤ bn < 4 → locate bn = (Z.to_nat bn, bn) ∧ lev (Z.to_nat bn) = 0%nat.
Proof. intros Hb. unfold locate, lev. rewrite (proj2 (Z.ltb_lt _ _)) by lia. split; [done|lia]. Qed.

Lemma fowns_slot W addr n a x : addr !! n = Some a → x ∈ towns W (lev n) a → x ∈ fowns W addr.
Proof.
  intros Ha Hx. unfold fowns. apply list_elem_of_In, in_concat. exists (towns W (lev n) a). split; apply list_elem_of_In; [|done].
  apply elem_of_lookup_imap. by exists n, a.
Qed.

Lemma addr_word addr (n : nat) : length addr = Z.to_nat NADDR → (n < 7)%nat → addr !! n = Some (word addr (Z.of_nat n)) ∧ aget addr (Z.of_nat n) = Some (word addr (Z.of_nat n)).
Proof.
  intros Hl Hn. assert (is_Some (addr !! n)) as [a Ha] by (apply lookup_lt_is_Some; rewrite Hl; unfold NADDR; lia).
  unfold word, aget. rewrite Zle_imp_le_bool, Nat2Z.id by lia. by rewrite Ha.
Qed.

Lemma fowns_split W A1 a A2 : fowns W (A1 ++ a :: A2) =
  concat (imap (λ n a, towns W (lev n) a) A1) ++ towns W (lev (length A1)) a ++ concat (imap (λ n a, towns W (lev (length A1 + S n)) a) A2).
Proof. unfold fowns. rewrite imap_app, concat_app, imap_cons. simpl. rewrite Nat.add_0_r. done. Qed.

(** Block numbers are located in different slots or on different paths. *)
Lemma fowns_slot_nodup W addr n a : addr !! n = Some a → NoDup (fowns W addr) → NoDup (towns W (lev n) a).
Proof.
  intros Ha Hnd. destruct (list_elem_of_split_length _ _ _ Ha) as (A1 & A2 & -> & ->). rewrite fowns_split in Hnd.
  apply NoDup_app in Hnd as (_ & _ & Hnd). by apply NoDup_app in Hnd as (? & _).
Qed.

Lemma locate_inj bn bn' : 0 ≤ bn < MAXBN → 0 ≤ bn' < MAXBN → bn ≠ bn' →
  (locate bn).1 ≠ (locate bn').1 ∨ ¬ same_path (lev (locate bn).1) (locate bn).2 (locate bn').2.
Proof.
  intros Hb Hb' Hne. destruct (decide ((locate bn).1 = (locate bn').1)) as [E|]; [right|by left]. intros Hs.
  unfold MAXBN in *. unfold locate in *. revert E Hs.
  repeat case_match; cbn [fst snd]; to_prop; intros E Hs; try lia.
  all: apply same_path_mod in Hs; [|lia..]; change (NSHIFT * Z.of_nat (lev 4)) with 8 in Hs || change (NSHIFT * Z.of_nat (lev 5)) with 16 in Hs || change (NSHIFT * Z.of_nat (lev 6)) with 24 in Hs; rewrite !Z.mod_small in Hs by lia; lia.
Qed.

Lemma locate_slot bn : 0 ≤ bn < MAXBN → ((locate bn).1 < 7)%nat.
Proof. intros Hb. unfold locate. repeat case_match; cbn [fst]; to_prop; lia. Qed.
End files.

(** ** Ownership *)

Section ownership.
Implicit Types (V : key → block) (f : fs).

(** A tree in use: its blocks are distinct, of the file system and not free. *)
Definition owned V dev f (l : list Z) (d : nat) (nb : Z) : Prop :=
  tree (λ b, V (dev, b)) d nb ∧ NoDup (towns (λ b, V (dev, b)) d nb) ∧
  ∀ x, x ∈ towns (λ b, V (dev, b)) d nb → x ∉ l ∧ fs_isize f ≤ x < fs_fsize f.

Lemma owned_child V dev f l d nb c : nb ≠ 0 → owned V dev f l (S d) nb → c ∈ V (dev, nb) → owned V dev f l d c.
Proof.
  intros Hn (Ht & Hnd & Hr) Hc. destruct Ht as [?|[_ Ht]]; [done|]. pose proof (list_elem_of_split _ _ Hc) as (D1 & D2 & HD). split_and!.
  - by apply Ht.
  - by apply (towns_apart (λ b, V (dev, b)) d nb D1 c D2 Hn HD Hnd).
  - intros x Hx. apply Hr. by apply (towns_child (λ b, V (dev, b)) d nb c Hn Hc).
Qed.

Definition fowned V dev f (l addr : list Z) : Prop :=
  ftree (λ b, V (dev, b)) addr ∧ NoDup (fowns (λ b, V (dev, b)) addr) ∧ ∀ x, x ∈ fowns (λ b, V (dev, b)) addr → x ∉ l ∧ fs_isize f ≤ x < fs_fsize f.

Lemma fowned_slot V dev f l addr n a : fowned V dev f l addr → addr !! n = Some a → owned V dev f l (lev n) a.
Proof.
  intros ([_ Ht] & Hnd & Hr) Ha. split_and!; [by apply Ht|by eapply fowns_slot_nodup|intros x Hx; apply Hr; by eapply fowns_slot].
Qed.

(** From the slot to the file. *)
Lemma fgrown kp clr V V' dev f l l' addr n a a' b r :
  let W b := V (dev, b) in let W' b := V' (dev, b) in
  fowned V dev f l addr → 0 < fs_isize f → addr !! n = Some a → grown kp clr V V' dev [] (lev n) a a' b l l' r → NoDup l → (∀ x, x ∈ l → fs_isize f ≤ x < fs_fsize f) →
  let addr' := <[n := a']> addr in
  fowned V' dev f l' addr' ∧
  (∀ bn, locate bn = (n, b) → fget W' addr' bn = r) ∧
  (∀ bn, 0 ≤ bn < MAXBN → (locate bn).1 ≠ n ∨ ¬ same_path (lev n) b (locate bn).2 → fget W' addr' bn = fget W addr bn) ∧
  (∃ used, l = used ++ l' ∧ fowns W' addr' ≡ₚ used ++ fowns W addr) ∧
  (∀ k, k.1 ≠ dev ∨ k.2 ≠ SUPERB ∧ k.2 ∉ fowns W addr ∧ k.2 ∉ l → V' k = V k) ∧
  (∀ bn, 0 ≤ bn < MAXBN → kp ∨ (locate bn).1 ≠ n ∨ ¬ same_path (lev n) b (locate bn).2 → fget W addr bn ≠ 0 → V' (dev, fget W addr bn) = V (dev, fget W addr bn)) ∧
  (length l <= length l' + S (lev n))%nat.
Proof.
  intros W W' Hfo His Ha [(used & Hl & Hp & Hfr & Hold) Htr [Hget Hr] Hoth Hkeep _ Hsm] Hndl Hrl addr'. pose proof Hfo as ([Hlen Ht] & Hnd & Hrg).
  destruct (list_elem_of_split_length _ _ _ Ha) as (A1 & A2 & HA & Hn). fold W W' in Hp, Hfr, Hold, Htr, Hget, Hoth, Ht, Hnd, Hrg. set (T := towns W (lev n) a) in *.
  assert (HA' : addr' = A1 ++ a' :: A2) by (unfold addr'; rewrite HA, Hn, insert_app_r_alt, Nat.sub_diag by lia; done).
  assert (Houter : ∀ m x y, addr !! m = Some x → m ≠ n → y ∈ towns W (lev m) x → W' y = W y).
  { intros m x y Hx Hm Hy. assert (Hyf : y ∈ fowns W addr) by (by eapply fowns_slot). destruct (Hrg y Hyf) as [Hyl Hyr].
    apply (Hfr (dev, y)). right. cbn [fst snd]. split_and!; [unfold SUPERB; lia|apply not_elem_of_nil| |rewrite Hl in Hyl; set_solver].
    rewrite HA, fowns_split, <- Hn in Hnd. fold T in Hnd. apply NoDup_app in Hnd as (_ & Hd1 & Hnd2). apply NoDup_app in Hnd2 as (_ & Hd2 & _).
    rewrite HA in Hx. intros HyT. destruct (decide (m < n)%nat) as [Hlt|Hge].
    - rewrite lookup_app_l in Hx by lia. apply (Hd1 y); [|apply elem_of_app; by left]. apply list_elem_of_In, in_concat. exists (towns W (lev m) x).
      split; apply list_elem_of_In; [|done]. apply elem_of_lookup_imap. by exists m, x.
    - rewrite lookup_app_r in Hx by lia. destruct (m - length A1)%nat as [|q] eqn:Eq; [lia|]. cbn in Hx. apply (Hd2 y HyT). apply list_elem_of_In, in_concat.
      exists (towns W (lev m) x). split; apply list_elem_of_In; [|done]. apply elem_of_lookup_imap. exists q, x. split; [|done]. f_equal. f_equal. lia. }
  assert (Hother : ∀ m x, addr !! m = Some x → m ≠ n → towns W' (lev m) x = towns W (lev m) x ∧ (∀ c, tget W' (lev m) x c = tget W (lev m) x c) ∧ (tree W (lev m) x → tree W' (lev m) x)).
  { intros m x Hx Hm. apply tree_local. eauto. }
  assert (Hfow : fowns W' addr' ≡ₚ used ++ fowns W addr).
  { rewrite HA', HA, !fowns_split, <- Hn. fold T.
    assert (E1 : imap (λ m x, towns W' (lev m) x) A1 = imap (λ m x, towns W (lev m) x) A1).
    { apply imap_ext. intros m x Hx. apply Hother; [rewrite HA; by apply lookup_app_l_Some|]. apply lookup_lt_Some in Hx. lia. }
    assert (E2 : imap (λ m x, towns W' (lev (n + S m)) x) A2 = imap (λ m x, towns W (lev (n + S m)) x) A2).
    { apply imap_ext. intros m x Hx. apply Hother; [|lia]. rewrite HA, lookup_app_r by lia. replace (n + S m - length A1)%nat with (S m) by lia. done. }
    rewrite E1, E2, Hp. rewrite <- !app_assoc. rewrite !app_assoc. f_equiv. f_equiv. apply Permutation_app_comm. }
  assert (Hndu : NoDup (used ++ fowns W addr)).
  { apply NoDup_app. rewrite Hl in Hndl. apply NoDup_app in Hndl as (? & _ & _). split_and!; [done| |done]. intros x Hx Hx'. destruct (Hrg x Hx') as [Hxl _]. rewrite Hl in Hxl. set_solver. }
  split_and!.
  - unfold fowned. fold W'. split_and!; [split; [unfold addr'; by rewrite length_insert|]|by rewrite Hfow|].
    + intros m x Hx. unfold addr' in Hx. destruct (decide (m = n)) as [->|Hm].
      * rewrite list_lookup_insert_eq in Hx by (by eapply lookup_lt_Some). by injection Hx as <-.
      * rewrite list_lookup_insert_ne in Hx by done. apply Hother; [done|done|]. by apply Ht.
    + intros x. rewrite Hfow, elem_of_app. rewrite Hl in Hndl. apply NoDup_app in Hndl as (_ & Hdl & _). intros [Hx|Hx].
      * split; [by apply Hdl|]. apply Hrl. rewrite Hl. set_solver.
      * destruct (Hrg x Hx) as [Hxl ?]. split; [|done]. rewrite Hl in Hxl. set_solver.
  - intros bn Hloc. unfold fget. rewrite Hloc. unfold word, addr'. rewrite Nat2Z.id, list_lookup_insert_eq by (by eapply lookup_lt_Some). done.
  - intros bn Hbn Hd. pose proof (locate_slot bn Hbn) as Hsl. unfold fget. destruct (locate bn) as [m c]. cbn [fst snd] in *. destruct (addr_word addr m Hlen Hsl) as [Hm _].
    destruct (decide (m = n)) as [->|Hne].
    + destruct Hd as [?|Hd]; [done|]. unfold word, addr'. rewrite Nat2Z.id, list_lookup_insert_eq by (by eapply lookup_lt_Some). rewrite Ha. simpl. by apply Hoth.
    + unfold word at 1, addr'. rewrite Nat2Z.id, list_lookup_insert_ne by done. rewrite Hm. simpl. by apply Hother.
  - by exists used.
  - intros k Hk. apply Hfr. destruct Hk as [?|(? & Hkf & Hkl)]; [by left|right]. split_and!; [done|apply not_elem_of_nil| |rewrite Hl in Hkl; set_solver].
    intros HkT. apply Hkf. by eapply fowns_slot.
  - intros bn Hbn. pose proof (locate_slot bn Hbn) as Hsl. unfold fget. destruct (locate bn) as [m c]. cbn [fst snd] in *. destruct (addr_word addr m Hlen Hsl) as [Hm _].
    destruct (decide (m = n)) as [->|Hne]; [rewrite Ha in Hm; injection Hm as <-; intros Hk; apply Hkeep; tauto|]. intros _ Hx. apply (Houter m _ _ Hm Hne). by apply tget_towns.
  - destruct (a =? 0); lia.
Qed.
End ownership.

(** ** Reading the map *)

Section spec.
Context (fsleep : Z → Z → A unit) (sleep : Z → Z → M bst unit) (strategy : Z → M bst unit) (is_tape : Z → bool) (lbolt : Z).
Context {phys : key → key} {good : key → Prop} `{!Driver strategy phys good}.
Implicit Types (V : key → block) (H : gmap Z (key * block)) (s : ast) (f : fs).
Notation cache := (cache (phys := phys) (good := good)).
Notation free_ok := (free_ok (good := good)).

Lemma upto_rablock s0 fsp f s r : upto s0 fsp f s → upto s0 fsp f (set_rablock r s).
Proof. done. Qed.

(** One indirect block: read, and released or changed by the continuation. *)
Lemma wp_read_ind V s0 s fsp f ip i nb fuel {X} (err : A X) (K : Z → list Z → A X) (Q : X → ast → Prop) :
  upto s0 fsp f s → inodes s0 !! ip = Some i → cache V ∅ (bs s) → good (i_dev i, nb) → i_dev i ≠ NODEV → (Z.to_nat NBUF + 2 <= fuel)%nat →
  (∀ bp s', upto s0 fsp f s' → cache V {[bp := ((i_dev i, nb), V (i_dev i, nb))]} (bs s') → u_error (bs s') = u_error (bs s) →
     wp (K bp (V (i_dev i, nb))) Q s') →
  wp (i ← rdi ip;
      bp ← bio (bread sleep strategy fuel (i_dev i) nb);
      b ← bio (rdb bp);
      if has B_ERROR b || negb (b_resid b =? 0) then
        bio (brelse bp);;
        err
      else
        bap ← rd_data bp;
        K bp bap) Q s.
Proof using Driver0.
  assert (Hsz : (size (∅ : gmap Z (key * block)) < Z.to_nat NBUF)%nat) by (rewrite map_size_empty; unfold NBUF; lia).
  intros Hu Hi Hca Hg Hdev Hfu HQ. apply wp_bind. eapply wp_load; [destruct Hu as (_ & -> & _); exact Hi|].
  apply wp_bind. eapply wp_bio; [exact Hu|]. eapply (wp_bread sleep strategy V ∅); [done|done|done|by intros|exact Hsz|done|].
  intros bp b1 Hca1 _ U1 s1 Hu1 E1. rewrite <- E1 in Hca1, U1.
  destruct (cache_held _ _ _ _ _ _ Hca1 (lookup_insert_eq _ _ _)) as (Hb & _ & c & Hc & _ & _ & _ & Hodd & [_ Hrs] & _).
  apply wp_bind. eapply wp_bio; [exact Hu1|]. eapply wp_rd_ct; [exact Hc|]. intros b Eb _ _ s2 Hu2 E2. rewrite <- E2 in Hca1, U1.
  assert (has B_ERROR b = false) as -> by (rewrite (has_ct _ _ _ Eb); by apply (has_sub _ B_ODD)).
  assert ((b_resid b =? 0) = true) as -> by (rewrite <- Eb in Hrs; by apply Z.eqb_eq). cbn [negb orb].
  apply wp_bind. eapply wp_rd_data; [exact Hu2|exact Hca1|apply lookup_insert_eq|]. intros s3 Hu3 E3. rewrite <- E3 in Hca1, U1. by apply HQ.
Qed.

Lemma wp_release_ind V s0 s fsp f bp k (Q : unit → ast → Prop) :
  upto s0 fsp f s → cache V {[bp := (k, V k)]} (bs s) →
  (∀ s', upto s0 fsp f s' → cache V ∅ (bs s') → u_error (bs s') = u_error (bs s) → Q tt s') → wp (bio (brelse bp)) Q s.
Proof using Driver0.
  intros Hu Hca HQ. eapply wp_bio; [exact Hu|]. pose proof Hca as [Hi Ha].
  eapply (wp_brelse_done strategy V _ (bs s)); [exact Hi|apply lookup_insert_eq|done|done|eauto| |].
  { intros c Hc. destruct (cache_held _ _ _ _ _ _ Hca (lookup_insert_eq _ _ _)) as (Hb & _). by apply (Ha bp c). }
  intros b1 Hca1 U1 _ _ s1 Hu1 E1. rewrite delete_singleton_eq in Hca1. apply HQ; [done|by rewrite E1|by rewrite E1].
Qed.

Definition answer (r : Z) : Z := if r =? 0 then -1 else r.

(** The block to read ahead is none or another block of the file. *)
Definition ahead (bs : list Z) (r ra : Z) : Prop := ra = 0 ∨ ra ∈ bs ∧ (NoDup bs → ra ≠ r).

Lemma ahead_sub b c r ra : (∀ x, x ∈ b → x ∈ c) → (NoDup c → NoDup b) → ahead b r ra → ahead c r ra.
Proof. intros Hs Hn [?|[? ?]]; [by left|right; auto]. Qed.

Lemma ahead_next W d nb bn x : nb ≠ 0 → x ∈ W nb → W nb !! Z.to_nat (idx d bn) = Some (word (W nb) (idx d bn)) → W nb !! Z.to_nat (idx d bn + 1) = Some x →
  tget W d (word (W nb) (idx d bn)) bn ≠ 0 → ahead (towns W (S d) nb) (tget W d (word (W nb) (idx d bn)) bn) x.
Proof.
  intros Hn Hx Hc Hx' Ht. destruct (decide (x = 0)) as [->|H0]; [by left|right]. pose proof (towns_child W d nb x Hn Hx x (towns_head W d x H0)) as Hin.
  split; [done|]. intros Hnd. destruct (list_elem_of_split_length _ _ _ Hc) as (D1 & D2 & HD & Hl1). destruct (towns_apart W d nb D1 _ D2 Hn HD Hnd) as (_ & _ & Hap).
  assert (Hx2 : x ∈ D1 ++ D2) by (eapply lookup_other; [rewrite <- HD; exact Hx'|pose proof (idx_range d bn); lia]).
  destruct (Hap x x Hx2 (towns_head W d x H0)) as [_ Hni]. intros Heq. apply Hni. rewrite Heq. by apply tget_towns.
Qed.

Lemma ahead_direct W addr bn a a' : (0 ≤ bn < 3) → addr !! Z.to_nat bn = Some a → addr !! Z.to_nat (bn + 1) = Some a' → a ≠ 0 → ahead (fowns W addr) a a'.
Proof.
  intros Hb H0 H1 Hn. destruct (decide (a' = 0)) as [->|Hn1]; [by left|right].
  split; [eapply fowns_slot; [exact H1|by apply towns_head]|]. intros Hnd ->.
  destruct (list_elem_of_split_length _ _ _ H0) as (A1 & A2 & -> & Hl). rewrite fowns_split in Hnd. apply NoDup_app in Hnd as (_ & _ & Hnd).
  apply NoDup_app in Hnd as (_ & Hd & _). apply (Hd a); [by apply towns_head|]. apply list_elem_of_In, in_concat.
  rewrite lookup_app_r in H1 by lia. replace (Z.to_nat (bn + 1) - length A1)%nat with 1%nat in H1 by lia. cbn in H1.
  eexists. split; apply list_elem_of_In; [apply elem_of_lookup_imap; exists 0%nat, a; by split|]. by apply towns_head.
Qed.

Lemma wp_loop_read V f ip i fuel flags async bn d : ∀ s0 s fsp nb ra (Q : Z → ast → Prop),
  let W b := V (i_dev i, b) in
  upto s0 fsp f s → inodes s0 !! ip = Some i → cache V ∅ (bs s) → i_dev i ≠ NODEV → (Z.to_nat NBUF + 2 <= fuel)%nat →
  nb ≠ 0 → tree W d nb → (∀ x, x ∈ towns W d nb → good (i_dev i, x)) →
  (∀ s', upto s0 fsp f s' → cache V ∅ (bs s') → u_error (bs s') = u_error (bs s) →
     (tget W d nb bn ≠ 0 → rablock s' = ra ∨ ahead (towns W d nb) (tget W d nb bn) (rablock s')) → Q (answer (tget W d nb bn)) s') →
  wp (bmap_loop fsleep sleep strategy is_tape lbolt d fuel ip bn B_READ flags async (NSHIFT * Z.of_nat d) nb ra) Q s.
Proof using Driver0.
  induction d as [|d IH]; intros s0 s fsp nb ra Q W Hu Hi Hca Hdev Hfu Hn Ht Hg HQ; cbn [bmap_loop].
  - apply wp_bind, wp_modify, wp_ret. specialize (HQ (set_rablock ra s)). unfold answer in HQ. cbn [tget] in HQ.
    rewrite (proj2 (Z.eqb_neq _ _) Hn) in HQ. apply HQ; [done..|]. by left.
  - cbv zeta. eapply (wp_read_ind V s0 s fsp f ip i nb); [done|done|done|apply Hg; by apply towns_head|done|done|].
    intros bp s1 Hu1 Hca1 U1. cbv beta. destruct Ht as [?|[Hl Ht]]; [done|]. fold (W nb) in *.
    replace (NSHIFT * Z.of_nat (S d) - NSHIFT) with (NSHIFT * Z.of_nat d) by (unfold NSHIFT; lia). fold (idx d bn).
    pose proof (idx_range d bn) as Hx. destruct (word_lookup (W nb) (idx d bn) Hl Hx) as [Hlk Hag].
    apply wp_bind. eapply wp_load; [exact Hag|]. apply wp_bind.
    apply (wp_mono _ (λ ra1 s', s' = s1 ∧ (ra1 = ra ∨ W nb !! Z.to_nat (idx d bn + 1) = Some ra1))).
    { destruct (Z.ltb_spec (idx d bn) (NINDIR - 1)); [|apply wp_ret; by auto]. destruct (word_lookup (W nb) (idx d bn + 1) Hl ltac:(lia)) as [Hlk1 Hag1].
      eapply wp_load; [exact Hag1|]. auto. }
    intros ra1 ? [-> Hra1]. cbn [tget] in HQ. rewrite (proj2 (Z.eqb_neq _ _) Hn) in HQ.
    destruct (Z.eqb_spec (word (W nb) (idx d bn)) 0) as [E0|E0].
    + change (B_READ =? B_READ) with true. cbv iota. apply wp_bind, wp_ret. change (0 =? 0) with true. cbv iota.
      apply wp_bind. eapply wp_release_ind; [exact Hu1|exact Hca1|]. intros s2 Hu2 Hca2 U2. apply wp_ret.
      rewrite E0 in HQ. rewrite tget_0 in HQ. by apply (HQ s2 Hu2 Hca2 ltac:(congruence)).
    + apply wp_bind. eapply wp_release_ind; [exact Hu1|exact Hca1|]. intros s2 Hu2 Hca2 U2.
      assert (Hin : word (W nb) (idx d bn) ∈ W nb) by (by eapply list_elem_of_lookup_2).
      eapply (IH s0 s2 fsp (word (W nb) (idx d bn)) ra1); [exact Hu2|done|exact Hca2|done|done|exact E0|by apply Ht| |].
      * intros x Hx'. apply Hg. by eapply towns_child.
      * intros s3 Hu3 Hca3 U3 Hra. apply HQ; [done|done|congruence|]. intros Ht0. destruct (Hra Ht0) as [->|Ha].
        -- destruct Hra1 as [->|Hx1]; [by left|right]. eapply ahead_next; [done|by eapply list_elem_of_lookup_2|done|done|done].
        -- right. eapply ahead_sub; [|intros Hnd|exact Ha]; [by intros; eapply towns_child|].
           pose proof (list_elem_of_split _ _ Hin) as (D1 & D2 & HD). by apply (towns_apart W d nb D1 _ D2 Hn HD Hnd).
Qed.

Lemma wp_bmap_read_ra V s ip i f fuel flags bn (Q : Z → ast → Prop) :
  let W b := V (i_dev i, b) in
  inodes s !! ip = Some i → fss s !! i_fs i = Some f → cache V ∅ (bs s) → i_dev i ≠ NODEV → (Z.to_nat NBUF + 2 <= fuel)%nat →
  ftree W (i_addr i) → (∀ x, x ∈ fowns W (i_addr i) → good (i_dev i, x)) → 0 ≤ bn < MAXBN →
  (∀ s', upto s (i_fs i) f s' → cache V ∅ (bs s') → u_error (bs s') = u_error (bs s) →
     (fget W (i_addr i) bn ≠ 0 → ahead (fowns W (i_addr i)) (fget W (i_addr i) bn) (rablock s')) → Q (answer (fget W (i_addr i) bn)) s') →
  wp (bmap fsleep sleep strategy is_tape lbolt fuel ip bn B_READ flags) Q s.
Proof using Driver0.
  intros W Hi Hf Hca Hdev Hfu [Hl Ht] Hg Hbn HQ. pose proof (upto_refl _ _ _ Hf) as Hu. unfold bmap.
  apply wp_bind. eapply wp_load; [exact Hi|]. apply wp_bind. eapply wp_rdfs; [exact Hu|]. cbv zeta.
  rewrite (proj2 (Z.ltb_ge bn 0)) by lia. apply wp_bind, wp_modify. apply (upto_rablock _ _ _ _ 0) in Hu. change (bs s) with (bs (set_rablock 0 s)) in Hca.
  unfold fget in HQ. change (NADDR - 3) with 4. destruct (Z.ltb_spec bn 4) as [Hlt|Hge].
  - destruct (locate_direct bn ltac:(lia)) as [El Ev]. rewrite El in HQ. cbv iota in HQ. rewrite Ev in HQ. cbn [tget] in HQ.
    destruct (addr_word (i_addr i) (Z.to_nat bn) Hl ltac:(lia)) as [_ Ha]. rewrite Z2Nat.id in Ha, HQ by lia.
    apply wp_bind. eapply wp_load; [exact Ha|]. unfold answer in HQ. destruct (Z.eqb_spec (word (i_addr i) bn) 0) as [E0|E0].
    + apply wp_bind. unfold bmap_new. change (B_READ =? B_READ) with true. apply wp_ret, wp_ret. by apply HQ.
    + apply wp_bind, wp_ret, wp_bind. eapply wp_load; [exact Hi|]. apply wp_bind.
      apply (wp_mono _ (λ _ s', upto s (i_fs i) f s' ∧ bs s' = bs s ∧ ahead (fowns W (i_addr i)) (word (i_addr i) bn) (rablock s'))).
      { apply wp_when; [|intros _; split_and!; [done|done|by left]]. intros Hb. apply Z.ltb_lt in Hb. unfold NADDR in Hb.
        destruct (addr_word (i_addr i) (Z.to_nat (bn + 1)) Hl ltac:(lia)) as [Hlk1 Ha1]. rewrite Z2Nat.id in Ha1, Hlk1 by lia.
        destruct (addr_word (i_addr i) (Z.to_nat bn) Hl ltac:(lia)) as [Hlk0 _]. rewrite Z2Nat.id in Hlk0 by lia.
        apply wp_bind. eapply wp_load; [exact Ha1|]. apply wp_modify. split_and!; [done|done|]. eapply (ahead_direct W (i_addr i) bn); [lia|done..]. }
      intros _ s1 (Hu1 & E1 & Hra). apply wp_ret, HQ; [done|by rewrite E1|by rewrite E1|done].
  - destruct (level_locate bn ltac:(lia)) as (n & Elv & En & Hn). change (NADDR - 3) with 4 in Elv. rewrite Elv. destruct (locate bn) as [n' b]. cbn [fst snd] in *. subst n'.
    rewrite (proj2 (Z.eqb_neq (7 - Z.of_nat n) 0)) by lia. replace (NADDR - (7 - Z.of_nat n)) with (Z.of_nat n) by (unfold NADDR; lia).
    destruct (addr_word (i_addr i) n Hl ltac:(lia)) as [Hlk Ha]. apply wp_bind. eapply wp_load; [exact Ha|].
    destruct (Z.eqb_spec (word (i_addr i) (Z.of_nat n)) 0) as [E0|E0].
    + apply wp_bind. unfold bmap_new. change (B_READ =? B_READ) with true. apply wp_ret, wp_ret. rewrite E0 in HQ.
      rewrite tget_0 in HQ. by apply HQ.
    + apply wp_bind, wp_ret. replace (Z.to_nat (4 - (7 - Z.of_nat n))) with (lev n) by (unfold lev; lia).
      eapply (wp_loop_read V f ip i); [exact Hu|done|exact Hca|done|done|exact E0|by apply Ht| |].
      * intros x Hx. apply Hg. by eapply fowns_slot.
      * intros s1 Hu1 Hca1 U1 Hra. apply HQ; [done..|]. intros Ht0. destruct (Hra Ht0) as [->|Hah]; [by left|].
        eapply ahead_sub; [|intros Hnd|exact Hah]; [by intros; eapply fowns_slot|by eapply fowns_slot_nodup].
Qed.

Lemma wp_bmap_read V s ip i f fuel flags bn (Q : Z → ast → Prop) :
  let W b := V (i_dev i, b) in
  inodes s !! ip = Some i → fss s !! i_fs i = Some f → cache V ∅ (bs s) → i_dev i ≠ NODEV → (Z.to_nat NBUF + 2 <= fuel)%nat →
  ftree W (i_addr i) → (∀ x, x ∈ fowns W (i_addr i) → good (i_dev i, x)) → 0 ≤ bn < MAXBN →
  (∀ s', upto s (i_fs i) f s' → cache V ∅ (bs s') → u_error (bs s') = u_error (bs s) → Q (answer (fget W (i_addr i) bn)) s') →
  wp (bmap fsleep sleep strategy is_tape lbolt fuel ip bn B_READ flags) Q s.
Proof using Driver0. intros W Hi Hf Hca Hdev Hfu Ht Hg Hbn HQ. eapply (wp_bmap_read_ra V); [done..|]. intros s' ? ? ? _. by apply HQ. Qed.

(** ** Extending a file *)

Lemma clrbuf flags : Z.land (Z.lor flags B_CLRBUF) B_CLRBUF ≠ 0.
Proof. rewrite Z.land_lor_distr_l, Z.land_diag. unfold B_CLRBUF. intros [_ E]%Z.lor_eq_0_iff. done. Qed.

(** A buffer written, at once or later. *)
Lemma wp_write_back V H s0 s fsp f bp k v fuel (sync : bool) (Q : unit → ast → Prop) :
  upto s0 fsp f s → cache V H (bs s) → H !! bp = Some (k, v) → (1 <= fuel)%nat →
  (∀ s', upto s0 fsp f s' → cache (vset V k v) (delete bp H) (bs s') → u_error (bs s') = u_error (bs s) → Q tt s') →
  wp (if sync then bio (bwrite sleep strategy fuel bp) else bio (bdwrite sleep strategy is_tape fuel bp)) Q s.
Proof using Driver0.
  intros Hu Hca HHb Hf HQ. destruct sync; (eapply wp_bio; [exact Hu|]).
  - destruct fuel as [|fuel]; [lia|]. eapply (wp_bwrite sleep strategy V); [exact Hca|exact HHb|]. intros b' Hca' U' s' Hu' E'. apply HQ; [done|by rewrite E'|by rewrite E'].
  - eapply (wp_bdwrite sleep strategy is_tape V); [exact Hca|exact HHb|]. intros b' Hca' U' s' Hu' E'. apply HQ; [done|by rewrite E'|by rewrite E'].
Qed.

(** A zeroed block for entry [x] of the indirect block held in [bp]. *)
Lemma wp_new_child V s0 s f ip i bp nb D x b l flags fuel sync (Q : Z → ast → Prop) (K : Z → A Z) :
  let dev := i_dev i in
  upto s0 (i_fs i) f s → inodes s0 !! ip = Some i → cache V {[bp := ((dev, nb), D)]} (bs s) → free_ok V dev f (b :: l) → dev ≠ NODEV → (Z.to_nat NBUF + 2 <= fuel)%nat →
  nb ∉ b :: l → nb ≠ SUPERB →
  (∀ s' V3 f', upto s0 (i_fs i) f' s' → cache V3 ∅ (bs s') → u_error (bs s') = u_error (bs s) → free_ok V3 dev f' l → same_geom f f' →
     V3 (dev, b) = zero_block → V3 (dev, nb) = <[Z.to_nat x := b]> D → (∀ k, k.1 ≠ dev ∨ k.2 ≠ SUPERB ∧ k.2 ≠ b ∧ k.2 ≠ nb → V3 k = V k) → wp (K b) Q s') →
  wp (nbp ← balloc fsleep sleep strategy is_tape lbolt fuel ip (Z.lor flags B_CLRBUF);
      if nbp =? 0 then
        bio (brelse bp);;
        mret (-1)
      else
        b ← bio (rdb nbp);
        let nb := b_blkno b in
        (if sync : bool then bio (bwrite sleep strategy fuel nbp) else bio (bdwrite sleep strategy is_tape fuel nbp));;
        wr_data bp (λ bap, <[Z.to_nat x := nb]> bap);;
        bio (bdwrite sleep strategy is_tape fuel bp);;
        K nb) Q s.
Proof using Driver0.
  intros dev Hu Hi Hca Hok Hdev Hfu Hnb Hn0 HQ. pose proof Hok as [F1 F2 F3 F4 F5 F6 F7]. apply not_elem_of_cons in Hnb as [Hnb Hnl].
  assert (Hi' : inodes s !! ip = Some i) by (by destruct Hu as (_ & -> & _)). apply wp_bind.
  assert (Hun : ∀ y, y ≠ nb → unheld {[bp := ((dev, nb), D)]} dev y) by (intros y Hy bp' v' [_ [= ? _]]%lookup_singleton_Some; congruence).
  eapply (wp_balloc fsleep sleep strategy is_tape lbolt V _ s ip i f b l); [exact Hi'|by eapply upto_at|exact Hca|exact Hok|done|by apply Hun|by apply Hun|by rewrite map_size_singleton; unfold NBUF; lia|done|].
  intros nbp s1 V1 f1 v Hu1 Hca1 HHn U1 HV1 Hok1 Hge1 Hz. specialize (Hz (clrbuf flags)). subst v.
  assert (Hu1' : upto s0 (i_fs i) f1 s1).
  { destruct Hu as (Ef & ? & ? & ?), Hu1 as (Ef1 & ? & ? & ?). split_and!; [by rewrite Ef1, Ef, insert_insert_eq|congruence..]. }
  destruct (cache_held _ _ _ _ _ _ Hca1 (lookup_insert_eq _ _ _)) as (Hb & _ & c & Hc & Hk & _).
  rewrite (proj2 (Z.eqb_neq nbp 0)) by (unfold isbuf, buf_at in Hb; lia). apply wp_bind. eapply wp_bio; [exact Hu1'|].
  eapply wp_rd_ct; [exact Hc|]. intros bb Eb _ _ s2 Hu2 E2. rewrite <- E2 in Hca1, U1. cbv zeta.
  assert (b_blkno bb = b) as -> by (change (b_blkno (ct bb) = b); rewrite Eb; by injection (bkey_of _ _ Hk)).
  apply wp_bind. eapply wp_write_back; [exact Hu2|exact Hca1|apply lookup_insert_eq|lia|]. intros s3 Hu3 Hca3 U3. rewrite delete_insert_id in Hca3 by done.
  apply wp_bind. eapply (wp_wr_data strategy); [exact Hu3|exact Hca3|apply lookup_insert_eq|]. intros s4 Hu4 Hca4 U4. rewrite insert_singleton_eq in Hca4.
  apply wp_bind. eapply (wp_write_back _ _ _ _ _ _ _ _ _ fuel false); [exact Hu4|exact Hca4|apply lookup_insert_eq|lia|]. intros s5 Hu5 Hca5 U5. rewrite delete_singleton_eq in Hca5.
  set (V3 := vset (vset V1 (dev, b) zero_block) (dev, nb) (<[Z.to_nat x := b]> D)) in *.
  assert (HV3 : ∀ k, k.1 ≠ dev ∨ k.2 ≠ b ∧ k.2 ≠ nb → V3 k = V1 k).
  { intros [kd kb] Hk'. unfold V3, vset. cbn [fst snd] in Hk'. rewrite !decide_False; [done| |]; intros [= -> ->]; tauto. }
  apply (HQ s5 V3 f1); [done|exact Hca5|congruence| |done| | |].
  - eapply free_ok_ext; [|exact Hok1]. intros y Hy. apply HV3. right. cbn [snd]. apply NoDup_cons in F2 as [? _]. split; [intros ->; done|intros ->; done].
  - unfold V3, vset. rewrite decide_False by congruence. by rewrite decide_True.
  - unfold V3, vset. by rewrite decide_True.
  - intros [kd kb] Hk'. cbn [fst snd] in *. rewrite HV3 by (cbn [fst snd]; tauto). apply HV1. intros [= -> ->]. tauto.
Qed.

Lemma upto_trans s0 fsp f s f' s' : upto s0 fsp f s → upto s fsp f' s' → upto s0 fsp f' s'.
Proof. intros (Ef & ? & ? & ?) (Ef1 & ? & ? & ?). split_and!; [by rewrite Ef1, Ef, insert_insert_eq|congruence..]. Qed.

Lemma same_geom_trans f f1 f2 : same_geom f f1 → same_geom f1 f2 → same_geom f f2.
Proof. intros (? & ? & ?) (? & ? & ?). split_and!; congruence. Qed.

Lemma grown_leaf kp clr V dev nb bn l : nb ≠ 0 → grown kp clr V V dev [] 0 nb nb bn l l nb.
Proof. intros Hn. split; [|done|done|done|done|done|lia]. exists []. done. Qed.

Lemma wp_loop_write ip i fuel flags async bn rw d : ∀ V f l s0 s nb ra (Q : Z → ast → Prop),
  let dev := i_dev i in
  (rw =? B_READ) = false → upto s0 (i_fs i) f s → inodes s0 !! ip = Some i → cache V ∅ (bs s) → dev ≠ NODEV → (Z.to_nat NBUF + 2 <= fuel)%nat →
  nb ≠ 0 → owned V dev f l d nb → free_ok V dev f l → (d <= length l)%nat →
  (∀ s' V' f' l' r, upto s0 (i_fs i) f' s' → cache V' ∅ (bs s') → u_error (bs s') = u_error (bs s) → free_ok V' dev f' l' → same_geom f f' →
     grown True True V V' dev [] d nb nb bn l l' r → Q r s') →
  wp (bmap_loop fsleep sleep strategy is_tape lbolt d fuel ip bn rw flags async (NSHIFT * Z.of_nat d) nb ra) Q s.
Proof using Driver0.
  induction d as [|d IH]; intros V f l s0 s nb ra Q dev Hrw Hu Hi Hca Hdev Hfu Hn Hown Hok Hlen HQ; subst dev; cbn [bmap_loop].
  { apply wp_bind, wp_modify, wp_ret. apply (HQ (set_rablock ra s) V f l); [done|done|done|done|done|by apply grown_leaf]. }
  pose proof Hok as [F1 F2 F3 F4 F5 F6 F7]. pose proof Hown as (Ht & Hnd & Hrg).
  assert (Hnb : nb ∉ l ∧ fs_isize f ≤ nb < fs_fsize f) by (apply Hrg; by apply towns_head). destruct Hnb as [Hnl Hnr].
  assert (Hdis : ∀ x, x ∈ towns (λ b, V ((i_dev i), b)) (S d) nb → x ∉ l ∧ x ≠ SUPERB) by (intros x Hx; destruct (Hrg x Hx); split; [done|unfold SUPERB; lia]).
  cbv zeta. eapply (wp_read_ind V s0 s _ f ip i nb); [done|done|done|apply F5; lia|done|done|].
  intros bp s1 Hu1 Hca1 U1. cbv beta. pose proof Ht as [?|[Hl Htc]]; [done|].
  replace (NSHIFT * Z.of_nat (S d) - NSHIFT) with (NSHIFT * Z.of_nat d) by (unfold NSHIFT; lia). fold (idx d bn).
  pose proof (idx_range d bn) as Hx. destruct (word_lookup _ (idx d bn) Hl Hx) as [Hlk Hag].  set (D := V ((i_dev i), nb)) in *.
  apply wp_bind. eapply wp_load; [exact Hag|]. apply wp_bind. apply (wp_mono _ (λ _ s', s' = s1)).
  { destruct (Z.ltb_spec (idx d bn) (NINDIR - 1)); [|by apply wp_ret]. destruct (word_lookup D (idx d bn + 1) Hl ltac:(lia)) as [_ Hag1]. by eapply wp_load. }
  intros ra1 ? ->. rewrite Hrw. destruct (Z.eqb_spec (word D (idx d bn)) 0) as [E0|E0].
  - destruct l as [|b l]; [simpl in Hlen; lia|].
    eapply (wp_new_child V s0 s1 f ip i bp nb D (idx d bn) b l flags fuel (negb async && ((4 - Z.of_nat (S d) <? 3) || negb (Z.land flags B_SYNC =? 0))))
      with (K := λ nb', bmap_loop fsleep sleep strategy is_tape lbolt d fuel ip bn rw flags async (NSHIFT * Z.of_nat d) nb' ra1);
      [exact Hu1|done|exact Hca1|exact Hok|done|done|done|unfold SUPERB; lia|].
    intros s2 V3 f2 Hu2 Hca2 U2 Hok2 Hge2 HVb HVn HV3. destruct (free_ok_range _ _ _ _ b Hok ltac:(by left)) as (_ & Hb0 & Hbr & _).
    destruct (fresh_tree (λ y, V3 ((i_dev i), y)) d b HVb Hb0) as (T1 & T2 & _). pose proof Hge2 as (G1 & G2 & _).
    eapply (IH V3 f2 l s0 s2 b ra1); [done|exact Hu2|done|exact Hca2|done|done|done| |exact Hok2|simpl in Hlen; lia|].
    + split_and!; [done|rewrite T1; apply NoDup_singleton|]. rewrite T1, G1, G2. intros y Hy%list_elem_of_singleton. subst y. apply NoDup_cons in F2 as [? _]. done.
    + intros s3 V' f3 l' r Hu3 Hca3 U3 Hok3 Hge3 Hgr. apply (HQ s3 V' f3 l' r); [done|done|congruence|done|by eapply same_geom_trans|].
      eapply (grown_up _ _ V V' (i_dev i) [nb] d nb 0 b); [by eapply grown_new|done|done|rewrite <- E0; exact Hlk| |set_solver|done|done].
      destruct Hgr as [(used & Hl' & _ & Hfr & _) _ _ _ _ _ _]. etrans; [|exact HVn]. apply (Hfr ((i_dev i), nb)). right. cbn [fst snd]. rewrite T1.
      apply not_elem_of_cons in Hnl as [? Hnl]. split_and!; [unfold SUPERB; lia|set_solver|set_solver|]. rewrite Hl' in Hnl. set_solver.
  - apply wp_bind. eapply wp_release_ind; [exact Hu1|exact Hca1|]. intros s2 Hu2 Hca2 U2.
    assert (Hin : word D (idx d bn) ∈ D) by (by eapply list_elem_of_lookup_2).
    eapply (IH V f l s0 s2 (word D (idx d bn)) ra1); [done|exact Hu2|done|exact Hca2|done|done|exact E0|exact (owned_child _ _ _ _ _ nb _ Hn Hown Hin)|exact Hok|lia|].
    intros s3 V' f3 l' r Hu3 Hca3 U3 Hok3 Hge3 Hgr. apply (HQ s3 V' f3 l' r); [done|done|congruence|done|done|].
    eapply (grown_up _ _ V V' (i_dev i) [] d nb (word D (idx d bn)) (word D (idx d bn))); [exact Hgr|done|done|exact Hlk| |set_solver|done|done].
    destruct Hgr as [(used & Hl' & _ & Hfr & _) _ _ _ _ _ _]. etrans; [|symmetry; apply list_insert_id; exact Hlk]. apply (Hfr ((i_dev i), nb)). right. cbn [fst snd].
    pose proof (list_elem_of_split _ _ Hin) as (D1 & D2 & HD). destruct (towns_apart (λ b, V ((i_dev i), b)) d nb D1 _ D2 Hn HD Hnd) as (_ & Hnt & _).
    split_and!; [unfold SUPERB; lia|set_solver|done|]. rewrite Hl' in Hnl. set_solver.
Qed.

(** The inode after address [n] became [b]. *)
Definition readdressed (i : inode) (n : nat) (b : Z) : inode :=
  set_i_flag (Z.lor (i_flag i) (Z.lor IUPD ICHG)) (set_i_addr (<[n := b]> (i_addr i)) i).

Lemma wp_bmap_new V s0 s ip i f n b l rw flags sync fuel (Q : option Z → ast → Prop) :
  let dev := i_dev i in
  (rw =? B_READ) = false → upto s0 (i_fs i) f s → inodes s0 !! ip = Some i → cache V ∅ (bs s) → free_ok V dev f (b :: l) → dev ≠ NODEV → (Z.to_nat NBUF + 2 <= fuel)%nat →
  0 ≤ n < zlen (i_addr i) →
  (∀ s' V3 f', let s0' := set_inodes (<[ip := readdressed i (Z.to_nat n) b]> (inodes s0)) s0 in
     upto s0' (i_fs i) f' s' → cache V3 ∅ (bs s') → u_error (bs s') = u_error (bs s) → free_ok V3 dev f' l → same_geom f f' →
     (Z.land flags B_CLRBUF ≠ 0 → V3 (dev, b) = zero_block) → (∀ k, k.1 ≠ dev ∨ k.2 ≠ SUPERB ∧ k.2 ≠ b → V3 k = V k) → Q (Some b) s') →
  wp (bmap_new fsleep sleep strategy is_tape lbolt fuel ip n rw flags sync) Q s.
Proof using Driver0.
  intros dev Hrw Hu Hi Hca Hok Hdev Hfu Hn HQ. pose proof Hok as [F1 F2 F3 F4 F5 F6 F7]. unfold bmap_new. rewrite Hrw.
  assert (Hi' : inodes s !! ip = Some i) by (by destruct Hu as (_ & -> & _)). apply wp_bind.
  eapply (wp_balloc fsleep sleep strategy is_tape lbolt V ∅ s ip i f b l); [exact Hi'|by eapply upto_at|exact Hca|exact Hok|done|done|done|by rewrite map_size_empty; unfold NBUF; lia|done|].
  intros nbp s1 V1 f1 v Hu1 Hca1 _ U1 HV1 Hok1 Hge1 Hz. pose proof (upto_trans _ _ _ _ _ _ Hu Hu1) as Hu1'.
  destruct (cache_held _ _ _ _ _ _ Hca1 (lookup_insert_eq _ _ _)) as (Hb & _ & c & Hc & Hk & _).
  rewrite (proj2 (Z.eqb_neq nbp 0)) by (unfold isbuf, buf_at in Hb; lia). apply wp_bind. eapply wp_bio; [exact Hu1'|].
  eapply wp_rd_ct; [exact Hc|]. intros bb Eb _ _ s2 Hu2 E2. rewrite <- E2 in Hca1, U1. cbv zeta.
  assert (b_blkno bb = b) as -> by (change (b_blkno (ct bb) = b); rewrite Eb; by injection (bkey_of _ _ Hk)).
  apply wp_bind. eapply wp_write_back; [exact Hu2|exact Hca1|apply lookup_insert_eq|lia|]. intros s3 Hu3 Hca3 U3. rewrite delete_insert_id in Hca3 by done.
  pose proof Hu3 as (Ef3 & Ei3 & Em3 & Et3). apply wp_bind. eapply wp_load; [rewrite Ei3; exact Hi|].
  apply wp_bind. eapply wp_load; [by apply aset_Some|]. apply wp_bind. eapply wp_store; [rewrite Ei3, Hi; reflexivity|]. apply wp_bind.
  eapply wp_store; [cbn [inodes set_inodes]; rewrite lookup_insert_eq; reflexivity|]. apply wp_ret.
  apply (HQ _ (vset V1 (dev, b) v) f1); [|exact Hca3|simpl; congruence| |done| |].
  - split_and!; simpl; [done|by rewrite insert_insert_eq|done|done].
  - eapply free_ok_ext; [|exact Hok1]. intros y Hy. unfold vset. rewrite decide_False; [done|]. apply NoDup_cons in F2 as [? _]. intros [= ->]. done.
  - intros Hcl. unfold vset. rewrite decide_True by done. auto.
  - intros [kd kb] Hk'. cbn [fst snd] in Hk'. unfold vset. rewrite decide_False; [apply HV1|]; intros [= -> ->]; tauto.
Qed.

(** What a write access to block [bn] leaves; [written Q s] is the postcondition
    for [bmap]. *)
Definition written (clr : Prop) V s ip i f (l : list Z) (bn : Z) (Q : Z → ast → Prop) : Prop :=
  ∀ s' V' f' l' r i' n b a', locate bn = (n, b) → upto (set_inodes (<[ip := i']> (inodes s)) s) (i_fs i) f' s' → cache V' ∅ (bs s') → u_error (bs s') = u_error (bs s) →
    free_ok V' (i_dev i) f' l' → same_geom f f' → i_addr i' = <[n := a']> (i_addr i) → i' = i ∨ i' = readdressed i n a' →
    grown True clr V V' (i_dev i) [] (lev n) (word (i_addr i) (Z.of_nat n)) a' b l l' r → Q r s'.

Lemma same_inodes s ip i : inodes s !! ip = Some i → set_inodes (<[ip := i]> (inodes s)) s = s.
Proof. intros Hi. rewrite insert_id by done. by destruct s. Qed.

(** The read-ahead of the direct blocks. *)
Lemma wp_direct_ra s i bn nb (Q : Z → ast → Prop) : length (i_addr i) = Z.to_nat NADDR → 0 ≤ bn → (∀ r, Q nb (set_rablock r s)) → Q nb s →
  wp (when (bn <? NADDR - 4) (ra ← load (λ _ : ast, aget (i_addr i) (bn + 1)); modify (set_rablock ra));; mret nb) Q s.
Proof.
  intros Hl Hb HQ1 HQ2. apply wp_bind, wp_when; [|intros _; by apply wp_ret]. intros Hlt%Z.ltb_lt. unfold NADDR in Hlt.
  destruct (addr_word (i_addr i) (Z.to_nat (bn + 1)) Hl ltac:(lia)) as [_ Ha1]. rewrite Z2Nat.id in Ha1 by lia.
  apply wp_bind. eapply wp_load; [exact Ha1|]. apply wp_modify, wp_ret, HQ1.
Qed.

Lemma wp_write_direct V s0 s ip i f l fuel flags rw bn sync (Q : Z → ast → Prop) :
  (rw =? B_READ) = false → upto s0 (i_fs i) f s → inodes s0 !! ip = Some i → cache V ∅ (bs s) → u_error (bs s) = u_error (bs s0) → i_dev i ≠ NODEV → (Z.to_nat NBUF + 2 <= fuel)%nat →
  free_ok V (i_dev i) f l → fowned V (i_dev i) f l (i_addr i) → (1 <= length l)%nat → 0 ≤ bn < 4 → written (Z.land flags B_CLRBUF ≠ 0) V s0 ip i f l bn Q →
  wp (nb ← load (λ _, aget (i_addr i) bn);
      r ← (if nb =? 0 then bmap_new fsleep sleep strategy is_tape lbolt fuel ip bn rw flags sync else mret (Some nb));
      match r with
      | None => mret (-1)
      | Some nb =>
          i ← rdi ip;
          when (bn <? NADDR - 4) (ra ← load (λ _, aget (i_addr i) (bn + 1)); modify (set_rablock ra));;
          mret nb
      end) Q s.
Proof using Driver0.
  intros Hrw Hu Hi Hca Hue Hdev Hfu Hok Hfo Hlen Hbn HQ. pose proof Hfo as ([Hl Ht] & _).
  destruct l as [|b0 l]; [simpl in Hlen; lia|]. destruct (free_ok_range _ _ _ _ b0 Hok ltac:(by left)) as (_ & Hb0 & Hbr & _).
  destruct (locate_direct bn Hbn) as [El Ev]. destruct (addr_word (i_addr i) (Z.to_nat bn) Hl ltac:(lia)) as [Hlk Ha].
  rewrite Z2Nat.id in Ha, Hlk by lia. apply wp_bind. eapply wp_load; [exact Ha|]. destruct (Z.eqb_spec (word (i_addr i) bn) 0) as [E0|E0].
  - apply wp_bind. eapply (wp_bmap_new V s0 _ ip i f bn b0 l); [done|exact Hu|done|exact Hca|exact Hok|done|done|unfold NADDR in *; lia|].
    intros s1 V3 f1 s0' Hu1 Hca1 U1 Hok1 Hge1 Hz HV3. apply wp_bind. eapply wp_load; [destruct Hu1 as (_ & -> & _); by apply lookup_insert_eq|].
    assert (Hfin : ∀ s2, upto s0' (i_fs i) f1 s2 → bs s2 = bs s1 → Q b0 s2).
    { intros s2 Hu2 E2. apply (HQ s2 V3 f1 l b0 (readdressed i (Z.to_nat bn) b0) (Z.to_nat bn) bn b0); try done; [by rewrite E2|rewrite E2; congruence|by right|].
      rewrite Z2Nat.id by lia. rewrite E0, Ev. by apply grown_direct. }
    apply wp_direct_ra; [simpl; by rewrite length_insert|lia|intros r|]; apply Hfin; done.
  - apply wp_bind, wp_ret, wp_bind. eapply wp_load; [destruct Hu as (_ & -> & _); exact Hi|].
    assert (Hfin : ∀ s2, upto s0 (i_fs i) f s2 → bs s2 = bs s → Q (word (i_addr i) bn) s2).
    { intros s2 Hu2 E2. apply (HQ s2 V f (b0 :: l) (word (i_addr i) bn) i (Z.to_nat bn) bn (word (i_addr i) bn)); try done; [by rewrite same_inodes|by rewrite E2|by rewrite E2| |by left|].
      - by rewrite list_insert_id.
      - rewrite Z2Nat.id by lia. rewrite Ev. by apply grown_leaf. }
    apply wp_direct_ra; [done|lia|intros r|]; apply Hfin; done.
Qed.

Lemma wp_write_indirect V s0 s ip i f l fuel flags rw bn n b async (Q : Z → ast → Prop) :
  (rw =? B_READ) = false → upto s0 (i_fs i) f s → inodes s0 !! ip = Some i → cache V ∅ (bs s) → u_error (bs s) = u_error (bs s0) → i_dev i ≠ NODEV → (Z.to_nat NBUF + 2 <= fuel)%nat →
  free_ok V (i_dev i) f l → fowned V (i_dev i) f l (i_addr i) → (4 <= length l)%nat → locate bn = (n, b) → (4 ≤ n ≤ 6)%nat → written (Z.land flags B_CLRBUF ≠ 0) V s0 ip i f l bn Q →
  wp (nb ← load (λ _, aget (i_addr i) (Z.of_nat n));
      r ← (if nb =? 0 then bmap_new fsleep sleep strategy is_tape lbolt fuel ip (Z.of_nat n) rw (Z.lor flags B_CLRBUF) (negb async) else mret (Some nb));
      match r with
      | None => mret (-1)
      | Some nb => bmap_loop fsleep sleep strategy is_tape lbolt (lev n) fuel ip b rw flags async (NSHIFT * Z.of_nat (lev n)) nb 0
      end) Q s.
Proof using Driver0.
  intros Hrw Hu Hi Hca Hue Hdev Hfu Hok Hfo Hlen Hloc Hn HQ. pose proof Hfo as ([Hl Ht] & _).
  destruct l as [|b0 l]; [simpl in Hlen; lia|]. destruct (free_ok_range _ _ _ _ b0 Hok ltac:(by left)) as (_ & Hb0 & Hbr & _).
  destruct (addr_word (i_addr i) n Hl ltac:(lia)) as [Hlk Ha]. apply wp_bind. eapply wp_load; [exact Ha|].
  destruct (Z.eqb_spec (word (i_addr i) (Z.of_nat n)) 0) as [E0|E0].
  - apply wp_bind. eapply (wp_bmap_new V s0 _ ip i f (Z.of_nat n) b0 l); [done|exact Hu|done|exact Hca|exact Hok|done|done|unfold NADDR in *; lia|].
    rewrite Nat2Z.id. intros s1 V3 f1 s0' Hu1 Hca1 U1 Hok1 Hge1 Hz HV3. specialize (Hz (clrbuf flags)). pose proof Hge1 as (G1 & G2 & _).
    destruct (fresh_tree (λ y, V3 (i_dev i, y)) (lev n) b0 Hz Hb0) as (T1 & T2 & _).
    eapply (wp_loop_write ip (readdressed i n b0) fuel flags async b rw (lev n) V3 f1 l s0' s1 b0); [done|exact Hu1|apply lookup_insert_eq|exact Hca1|done|done|done| |exact Hok1|simpl in Hlen; unfold lev; lia|].
    + change (i_dev (readdressed i n b0)) with (i_dev i). unfold owned. rewrite T1, G1, G2. destruct Hok as [_ Hnd _ _ _ _ _]. apply NoDup_cons in Hnd as [? _].
      split_and!; [done|apply NoDup_singleton|]. intros y Hy%list_elem_of_singleton. by subst y.
    + intros s2 V' f2 l' r Hu2 Hca2 U2 Hok2 Hge2 Hgr. apply (HQ s2 V' f2 l' r (readdressed i n b0) n b b0); try done; [congruence|by eapply same_geom_trans|by right|].
      rewrite E0. apply (grown_weaken True True); [done|]. by eapply grown_root.
  - apply wp_bind, wp_ret. eapply (wp_loop_write ip i fuel flags async b rw (lev n) V f (b0 :: l) s0); [done|exact Hu|done|exact Hca|done|done|exact E0|by eapply fowned_slot|exact Hok|simpl in *; unfold lev; lia|].
    intros s2 V' f2 l' r Hu2 Hca2 U2 Hok2 Hge2 Hgr. apply (HQ s2 V' f2 l' r i n b (word (i_addr i) (Z.of_nat n))); try done; [by rewrite same_inodes|congruence| |by left|by apply (grown_weaken True True)].
    by rewrite list_insert_id.
Qed.

Lemma wp_bmap_write V s ip i f l fuel flags rw bn (Q : Z → ast → Prop) :
  (rw =? B_READ) = false → inodes s !! ip = Some i → fss s !! i_fs i = Some f → cache V ∅ (bs s) → i_dev i ≠ NODEV → (Z.to_nat NBUF + 2 <= fuel)%nat →
  free_ok V (i_dev i) f l → fowned V (i_dev i) f l (i_addr i) → (4 <= length l)%nat → 0 ≤ bn < MAXBN → written (Z.land flags B_CLRBUF ≠ 0) V s ip i f l bn Q →
  wp (bmap fsleep sleep strategy is_tape lbolt fuel ip bn rw flags) Q s.
Proof using Driver0.
  intros Hrw Hi Hf Hca Hdev Hfu Hok Hfo Hlen Hbn HQ. pose proof (upto_refl _ _ _ Hf) as Hu. unfold bmap.
  apply wp_bind. eapply wp_load; [exact Hi|]. apply wp_bind. eapply wp_rdfs; [exact Hu|]. cbv zeta. rewrite (proj2 (Z.ltb_ge bn 0)) by lia.
  apply wp_bind, wp_modify. apply (upto_rablock _ _ _ _ 0) in Hu. change (bs s) with (bs (set_rablock 0 s)) in Hca.
  change (NADDR - 3) with 4. destruct (Z.ltb_spec bn 4) as [Hlt|Hge]; [eapply (wp_write_direct V s); [done|exact Hu|done|exact Hca|done|done|done|exact Hok|exact Hfo|lia|lia|exact HQ]|].
  destruct (level_locate bn ltac:(lia)) as (n & Elv & En & Hn). change (NADDR - 3) with 4 in Elv. rewrite Elv.
  rewrite (proj2 (Z.eqb_neq (7 - Z.of_nat n) 0)) by lia. replace (NADDR - (7 - Z.of_nat n)) with (Z.of_nat n) by (unfold NADDR; lia).
  replace (Z.to_nat (4 - (7 - Z.of_nat n))) with (lev n) by (unfold lev; lia).
  eapply (wp_write_indirect V s); [done|exact Hu|done|exact Hca|done|done|done|exact Hok|exact Hfo|lia| |exact Hn|exact HQ]. subst n. by destruct (locate bn).
Qed.
End spec.

(** ** A small file *)

Definition file_fs : fs := Fs 0 2 10 0 6 ([0; 3; 4; 5; 8; 9] ++ replicate 194 0) 0 (replicate 32 0) 0 0 0 0 0 5 0 (replicate 7 0) 1 0 0 0.
Definition file_inode : inode := Inode 0 0 0 1 0 3 0 1 [6; 7; 0; 0; 0; 0; 0] 0 0 (Icommon1 33188 1 0 0 2048) 0 (Icommon2 0 0 0).
Definition file_as : ast := AS (BS mem_init data_zero ∅ 0 0 0 []) {[1 := file_fs]} {[2 := file_inode]} ∅ 0 0 0 nst_zero [] 0 0 [] [].
Definition demo_phys : key → key := sd_phys (λ _, 0) (λ _, 2).

Lemma file_cache : CacheIO.cache (phys := demo_phys) (good := demo_good) demo_V ∅ (bs file_as).
Proof. apply init_cache. apply data_zero_ok. Qed.

Lemma file_free_ok : free_ok (good := demo_good) demo_V 0 file_fs [9; 8; 5; 4; 3].
Proof.
  split.
  - apply (fl_last _ 6 ([3; 4; 5; 8; 9] ++ replicate 194 0)); [done|by vm_compute].
  - apply (bool_decide_unpack _). by vm_compute.
  - intros b Hb. simpl. set_solver by lia.
  - done.
  - intros b Hb. simpl in Hb. split; [by left|]. split; cbn [fst snd sd_phys]; [change (Z.shiftr 200 1) with 100|change (Z.shiftr 2 1) with 1]; lia.
  - done.
  - done.
Qed.

Lemma file_owned : fowned demo_V 0 file_fs [9; 8; 5; 4; 3] (i_addr file_inode).
Proof.
  split_and!.
  - split; [done|]. intros n a Ha. destruct (lev n) as [|d] eqn:E; [done|]. left.
    assert (Hn : (4 ≤ n)%nat) by (unfold lev in E; lia). do 7 (destruct n as [|n]; [try lia; by injection Ha|]). done.
  - apply (bool_decide_unpack _). by vm_compute.
  - change (fowns (λ b, demo_V (0, b)) (i_addr file_inode)) with [6; 7]. intros x Hx. simpl. set_solver by lia.
Qed.

(** ** Claims *)

(** C15: read access.  For every block number of a file [bmap] returns what the
    reference lookup through its tree of indirect blocks gives, or -1 for a
    hole, and beyond the largest file it sets [EFBIG]; it changes neither the
    file, nor the free list, nor the contents of the disk. *)
Theorem bmap_read_reference fsleep sleep strategy is_tape lbolt phys good `{!Driver strategy phys good} V s ip i f fuel flags bn :
  let W b := V (i_dev i, b) in
  inodes s !! ip = Some i → fss s !! i_fs i = Some f → CacheIO.cache (phys := phys) (good := good) V ∅ (bs s) → i_dev i ≠ NODEV → (Z.to_nat NBUF + 2 <= fuel)%nat →
  ftree W (i_addr i) → (∀ x, x ∈ fowns W (i_addr i) → good (i_dev i, x)) →
  wp (bmap fsleep sleep strategy is_tape lbolt fuel ip bn B_READ flags)
    (λ r s', (r = if decide (0 ≤ bn < MAXBN) then answer (fget W (i_addr i) bn) else 0) ∧
       (u_error (bs s') = if decide (0 ≤ bn < MAXBN) then u_error (bs s) else EFBIG) ∧
       inodes s' = inodes s ∧ fss s' = fss s ∧ CacheIO.cache (phys := phys) (good := good) V ∅ (bs s')) s.
Proof.
  intros W Hi Hf Hca Hdev Hfu Ht Hg. destruct (decide (0 ≤ bn < MAXBN)) as [Hbn|Hbn].
  { eapply (wp_bmap_read fsleep sleep strategy is_tape lbolt V s ip i f); [done|done|done|done|done|done|done|done|].
    intros s' (Ef & Ei & _) Hca' U'. split_and!; try done. by rewrite Ef, insert_id. }
  assert (Hcb : CacheIO.cache (phys := phys) (good := good) V ∅ (set_u_error EFBIG (bs s))) by (by apply cache_err).
  unfold bmap. apply wp_bind. eapply wp_load; [exact Hi|]. apply wp_bind. eapply wp_load; [exact Hf|]. cbv zeta.
  destruct (Z.ltb_spec bn 0) as [Hlt|Hge].
  - apply wp_bind, wp_run. unfold seterr, bio. simpl. eexists tt, _. split; [reflexivity|]. apply wp_ret. done.
  - assert (Hmax : MAXBN ≤ bn) by lia. apply wp_bind, wp_modify. change (NADDR - 3) with 4. rewrite (proj2 (Z.ltb_ge bn 4)) by (unfold MAXBN in *; lia).
    pose proof (level_beyond bn Hmax) as Hj. change (NADDR - 3) with 4 in Hj. destruct (bmap_level 3 0 1 (bn - 4)) as [[j sh] b]. cbn [fst] in Hj. subst j.
    rewrite Z.eqb_refl. apply wp_bind, wp_run. unfold seterr, bio. simpl. eexists tt, _. split; [reflexivity|]. apply wp_ret. done.
Qed.

Lemma bmap_read_reference_witness :
  wp (bmap (λ _ _, mret tt) nosleep one_strategy (λ _, false) 9 enough 2 1 B_READ 0)
    (λ r s', r = 7 ∧ u_error (bs s') = 0 ∧ inodes s' = inodes file_as ∧ fss s' = fss file_as ∧ CacheIO.cache (phys := demo_phys) (good := demo_good) demo_V ∅ (bs s')) file_as.
Proof.
  apply (bmap_read_reference (λ _ _, mret tt) nosleep one_strategy (λ _, false) 9 demo_phys demo_good demo_V file_as 2 file_inode file_fs enough 0 1).
  - done.
  - done.
  - apply file_cache.
  - done.
  - done.
  - apply file_owned.
  - intros x Hx. destruct file_free_ok as [_ _ _ _ Hg _ _]. apply Hg. destruct file_owned as (_ & _ & Hr). destruct (Hr x Hx) as [_ ?]. simpl in *. lia.
Defined.

(** C16: write access.  With four free blocks or more [bmap] maps any block of
    the file: it returns the block now mapped there, which is the old one if
    there was one; every other block of the file stays mapped as it was; what it
    allocates, indirect blocks included, comes off the free list; blocks of the
    file stay distinct from each other and from the free ones; and no other
    block of the disk but the superblock is written. *)
Theorem bmap_write_extends fsleep sleep strategy is_tape lbolt phys good `{!Driver strategy phys good} V s ip i f l fuel flags rw bn :
  let W b := V (i_dev i, b) in
  (rw =? B_READ) = false → inodes s !! ip = Some i → fss s !! i_fs i = Some f → CacheIO.cache (phys := phys) (good := good) V ∅ (bs s) → i_dev i ≠ NODEV → (Z.to_nat NBUF + 2 <= fuel)%nat →
  free_ok (good := good) V (i_dev i) f l → fowned V (i_dev i) f l (i_addr i) → (4 <= length l)%nat → 0 ≤ bn < MAXBN →
  wp (bmap fsleep sleep strategy is_tape lbolt fuel ip bn rw flags)
    (λ r s', ∃ V' f' i' l' used, let W' b := V' (i_dev i, b) in
       inodes s' = <[ip := i']> (inodes s) ∧ fss s' = <[i_fs i := f']> (fss s) ∧ CacheIO.cache (phys := phys) (good := good) V' ∅ (bs s') ∧
       free_ok (good := good) V' (i_dev i) f' l' ∧ fowned V' (i_dev i) f' l' (i_addr i') ∧ u_error (bs s') = u_error (bs s) ∧
       r ≠ 0 ∧ fget W' (i_addr i') bn = r ∧ (∀ bn', 0 ≤ bn' < MAXBN → bn' ≠ bn → fget W' (i_addr i') bn' = fget W (i_addr i) bn') ∧
       l = used ++ l' ∧ fowns W' (i_addr i') ≡ₚ used ++ fowns W (i_addr i) ∧ (fget W (i_addr i) bn ≠ 0 → used = [] ∧ r = fget W (i_addr i) bn) ∧
       ∀ k, k.1 ≠ i_dev i ∨ k.2 ≠ SUPERB ∧ k.2 ∉ fowns W (i_addr i) ∧ k.2 ∉ l → V' k = V k) s.
Proof.
  intros W Hrw Hi Hf Hca Hdev Hfu Hok Hfo Hlen Hbn. eapply (wp_bmap_write fsleep sleep strategy is_tape lbolt V s ip i f l); [done..|].
  intros s' V' f' l' r i' n b a' Hloc (Ef & Ei & _) Hca' U' Hok' Hge Ha' _ Hgr. pose proof Hfo as ([Hl _] & _).
  pose proof (locate_slot bn Hbn) as Hsl. rewrite Hloc in Hsl. destruct (addr_word (i_addr i) n Hl Hsl) as [Hlk _].
  pose proof Hok as [F1 F2 F3 F4 F5 F6 F7]. destruct (fgrown _ _ V V' (i_dev i) f l l' (i_addr i) n _ a' b r Hfo ltac:(lia) Hlk Hgr F2 F3) as (G1 & G2 & G3 & (used & Hu1 & Hu2) & G5 & _ & _).
  destruct Hgr as [(used' & Hu3 & _ & _ & Hold) _ [_ Hr] _ _ _ _]. assert (used' = used) as -> by (eapply app_inv_tail; by rewrite <- Hu3).
  exists V', f', i', l', used. rewrite Ha'. cbn zeta. fold W. split_and!; try done.
  - destruct G1 as (T1 & T2 & T3). destruct Hge as (E1 & E2 & _). split_and!; [done|done|]. by rewrite E1, E2.
  - by apply G2.
  - intros bn' Hbn' Hne. apply G3; [done|]. destruct (locate_inj bn bn' Hbn Hbn' ltac:(done)) as [Hd|Hd]; rewrite Hloc in Hd; [left; by cbn in Hd|by right].
  - unfold fget. rewrite Hloc. exact Hold.
Qed.

Lemma bmap_write_extends_witness :
  wp (bmap (λ _ _, mret tt) nosleep one_strategy (λ _, false) 9 enough 2 260 0 0)
    (λ r s', ∃ V' f' i' l' used, let W b := demo_V (0, b) in let W' b := V' (0, b) in
       inodes s' = <[2 := i']> (inodes file_as) ∧ fss s' = <[1 := f']> (fss file_as) ∧ CacheIO.cache (phys := demo_phys) (good := demo_good) V' ∅ (bs s') ∧
       free_ok (good := demo_good) V' 0 f' l' ∧ fowned V' 0 f' l' (i_addr i') ∧ u_error (bs s') = 0 ∧
       r ≠ 0 ∧ fget W' (i_addr i') 260 = r ∧ (∀ bn', 0 ≤ bn' < MAXBN → bn' ≠ 260 → fget W' (i_addr i') bn' = fget W (i_addr file_inode) bn') ∧
       [9; 8; 5; 4; 3] = used ++ l' ∧ fowns W' (i_addr i') ≡ₚ used ++ fowns W (i_addr file_inode) ∧ (fget W (i_addr file_inode) 260 ≠ 0 → used = [] ∧ r = fget W (i_addr file_inode) 260) ∧
       ∀ k, k.1 ≠ 0 ∨ k.2 ≠ SUPERB ∧ k.2 ∉ fowns W (i_addr file_inode) ∧ k.2 ∉ [9; 8; 5; 4; 3] → V' k = demo_V k) file_as.
Proof.
  apply (bmap_write_extends (λ _ _, mret tt) nosleep one_strategy (λ _, false) 9 demo_phys demo_good demo_V file_as 2 file_inode file_fs [9; 8; 5; 4; 3] enough 0 0 260).
  - done.
  - done.
  - done.
  - apply file_cache.
  - done.
  - done.
  - apply file_free_ok.
  - apply file_owned.
  - simpl. lia.
  - done.
Defined.
End Bmap.
