(* ===== verification/Inode.v ===== *)
(** * Inodes (sys/kernel/ufs_inode.c)

    The table of inodes in core.  An inode is on the hash chain of its device and
    number, or linked to itself, and while nobody refers to it also on the free
    list, from which [iget] takes the least recently used one for a new file.
    [iupdat] writes an inode back to its place on the disk, [itrunc] gives the
    blocks beyond a length back to the file system. *)

From S2P Require Import Prelude Links Que NameCache Bio Cache CacheIO CacheSpec Alloc Bmap.
Import NameCache Bio Cache CacheIO CacheSpec Alloc Bmap.

Module Inode.
#[local] Set Default Proof Using "Type".

Definition NINODE : Z := 24.
Definition INOHSZ : Z := 16.
Definition INOPB : Z := 16.
Definition ROOTINO : Z := 2.
Definition NDADDR : Z := 4.
Definition NADDR : Z := 7.
Definition DEV_BSHIFT : Z := 10.
Definition DEV_BMASK : Z := 1023.
Definition MAXPIPSIZ : Z := 4096.
Definition IO_SYNC : Z := 4.
Definition ENFILE : Z := 23.
Definition B_WRITE : Z := 0.

Definition ILOCKED : Z := 1.
Definition IACC : Z := 4.
Definition IMOUNT : Z := 8.
Definition IWANT : Z := 16.
Definition IMOD : Z := 1024.
Definition IPIPE : Z := 4096.
Definition IFMT : Z := 61440.
Definition IFBLK : Z := 24576.

(** [&ihead\[i\]], [&inode\[i\]] and [&ifreeh].  The address of the link [i_freef]
    of an inode is that of the inode.  [tip_at] is where [itrunc] keeps its copy
    of an inode on the stack. *)
Definition ihead_at (i : Z) : Z := 700 + i.
Definition inode_at (i : Z) : Z := 800 + i.
Definition ifreeh_at : Z := 699.
Definition tip_at : Z := 900.

Definition INOHASH (dev ino : Z) : Z := ihead_at (Z.land (u32 (dev + ino)) (INOHSZ - 1)).
Definition itoo (x : Z) : Z := u32 (x + INOPB - 1) `mod` INOPB.
Definition itod (x : Z) : Z := u32 (x + INOPB - 1) / INOPB.
Definition lblkno (loc : Z) : Z := Z.shiftr (u32 loc) DEV_BSHIFT.
Definition blkoff (loc : Z) : Z := Z.land loc DEV_BMASK.
Definition ihas (f : Z) (i : inode) : bool := negb (Z.land (i_flag i) f =? 0).
Definition ior (f : Z) (i : inode) : inode := set_i_flag (Z.lor (i_flag i) f) i.
Definition iand_not (f : Z) (i : inode) : inode := set_i_flag (Z.land (i_flag i) (Z.lnot f)) i.

(** ** The inode on the disk

    [struct dinode] fills sixteen words; the first holds [di_mode] and
    [di_nlink], the twelfth is not used. *)

Record dinode := Dinode { di_ic1 : icommon1; di_addr : list Z; di_flags : Z; di_ic2 : icommon2 }.

Definition get_dinode (blk : list Z) (o : Z) : dinode :=
  let w k := default 0 (blk !! Z.to_nat (16 * o + k)) in
  Dinode (Icommon1 (Z.land (w 0) 65535) (Z.land (Z.shiftr (w 0) 16) 65535) (w 1) (w 2) (w 3))
    (w <$> [4; 5; 6; 7; 8; 9; 10]) (w 12) (Icommon2 (w 13) (w 14) (w 15)).
Definition put_dinode (d : dinode) (o : Z) (blk : list Z) : list Z :=
  let c := di_ic1 d in let t := di_ic2 d in
  take (Z.to_nat (16 * o)) blk ++
  [Z.lor (ic_mode c) (Z.shiftl (ic_nlink c) 16); ic_uid c; ic_gid c; ic_size c] ++ di_addr d ++
  [default 0 (blk !! Z.to_nat (16 * o + 11)); di_flags d; ic_atime t; ic_mtime t; ic_ctime t] ++
  drop (Z.to_nat (16 * o + 16)) blk.

Definition to_dinode (i : inode) : dinode := Dinode (i_ic1 i) (i_addr i) (i_flags i) (i_ic2 i).
Definition of_dinode (d : dinode) (i : inode) : inode :=
  set_i_addr (di_addr d) (set_i_ic2 (di_ic2 d) (set_i_flags (di_flags d) (set_i_ic1 (di_ic1 d) i))).

(** ** State *)

#[export] Instance inode_que : QueMem ast := table_que ihead set_ihead inodes set_inodes i_forw i_back set_i_forw set_i_back.

(** A write through a pointer to a pointer to an inode. *)
Definition wr_islot (p v : Z) : A unit :=
  if p =? ifreeh_at then modify (set_ifreeh v) else wri p (set_i_freef v).
(** An operation of the name cache. *)
Definition nop {X} (m : M nst X) : A X := λ s,
  match m (nch s) with
  | Ret a n => Ret a (set_nch n s)
  | Panic msg n => Panic msg (set_nch n s)
  | Fault => Fault
  | NoFuel => NoFuel
  end.

(** ** ihinit *)

Fixpoint ihinit_heads (k : nat) (ih : Z) : A unit :=
  match k with
  | O => mret tt
  | S k =>
      modify (λ s, set_ihead (<[ih := (ih, ih)]> (ihead s)) s);;
      ihinit_heads k (ih + 1)
  end.
Fixpoint ihinit_inodes (k : nat) (ip : Z) : A Z :=
  match k with
  | O => mret ip
  | S k =>
      let ip := ip + 1 in
      wri ip (set_i_forw ip);;
      wri ip (set_i_back ip);;
      t ← gets ifreet;
      wr_islot t ip;;
      wri ip (set_i_freeb t);;
      modify (set_ifreet ip);;
      ihinit_inodes k ip
  end.
Definition ihinit : A unit :=
  let ip := inode_at 0 in
  ihinit_heads (Z.to_nat INOHSZ) (ihead_at 0);;
  modify (set_ifreeh ip);;
  modify (set_ifreet ip);;
  wri ip (set_i_freeb ifreeh_at);;
  wri ip (set_i_forw ip);;
  wri ip (set_i_back ip);;
  ip ← ihinit_inodes (Z.to_nat (NINODE - 1)) ip;
  wri ip (set_i_freef 0).

(** ** ifind *)

(** The search of a hash chain; 0 when it comes back to its head. *)
Fixpoint ichain (fuel : nat) (ip ih dev ino : Z) : A Z :=
  match fuel with
  | O => nofuel
  | S f =>
      if ip =? ih then mret 0
      else
        i ← rdi ip;
        if (ino =? i_number i) && (dev =? i_dev i) then mret ip else ichain f (i_forw i) ih dev ino
  end.
Definition ichain_fuel : nat := S (Z.to_nat NINODE).
Definition ifind (dev ino : Z) : A Z :=
  let ih := INOHASH dev ino in
  ip ← rd_next ih;
  ichain ichain_fuel ip ih dev ino.

(** ** The free list *)

(** [igrab] and [iget] take an unused inode off the free list. *)
Definition ifree_remove (ip : Z) : A unit :=
  i ← rdi ip;
  let iq := i_freef i in
  (if negb (iq =? 0) then wri iq (set_i_freeb (i_freeb i)) else modify (set_ifreet (i_freeb i)));;
  i ← rdi ip;
  wr_islot (i_freeb i) iq;;
  wri ip (set_i_freef 0);;
  wri ip (set_i_freeb 0).
Definition ifree_append (ip : Z) : A unit :=
  h ← gets ifreeh;
  (if negb (h =? 0) then
     t ← gets ifreet;
     wr_islot t ip;;
     t ← gets ifreet;
     wri ip (set_i_freeb t)
   else
     modify (set_ifreeh ip);;
     wri ip (set_i_freeb ifreeh_at));;
  wri ip (set_i_freef 0);;
  modify (set_ifreet ip).

Definition cacheinval (ip : Z) : A unit :=
  n ← gets nextinodeid;
  modify (set_nextinodeid (u32 (n + 1)));;
  wri ip (set_i_id (u32 (n + 1)));;
  when (u16 (u32 (n + 1)) =? 0) (nop cinvalall).

(** ** Locks *)

Definition iunlock (ip : Z) : A unit :=
  wri ip (iand_not ILOCKED);;
  i ← rdi ip;
  when (ihas IWANT i)
    (wri ip (iand_not IWANT);;
     fwakeup ip).

Section inodes.
Context (fsleep : Z → Z → A unit) (sleep : Z → Z → M bst unit) (strategy : Z → M bst unit) (is_tape : Z → bool) (lbolt : Z).
Notation bread := (bread sleep strategy).
Notation bwrite := (bwrite sleep strategy).
Notation bawrite := (bawrite sleep strategy).
Notation bdwrite := (bdwrite sleep strategy is_tape).
Notation free := (free fsleep sleep strategy is_tape).
Notation bmap := (bmap fsleep sleep strategy is_tape lbolt).

(** [while (ip->i_flag & ILOCKED) { ip->i_flag |= IWANT; sleep(ip, PINOD); }] *)
Fixpoint wait_ilock (fuel : nat) (ip : Z) : A unit :=
  match fuel with
  | O => nofuel
  | S f =>
      i ← rdi ip;
      if ihas ILOCKED i then
        wri ip (ior IWANT);;
        fsleep ip PINOD;;
        wait_ilock f ip
      else mret tt
  end.
Definition ilock (fuel : nat) (ip : Z) : A unit :=
  wait_ilock fuel ip;;
  wri ip (ior ILOCKED).

(** What follows when the inode is there and not locked. *)
Definition itake (ip : Z) : A unit :=
  i ← rdi ip;
  when (i_count i =? 0) (ifree_remove ip);;
  wri ip (λ i, set_i_count (u32 (i_count i + 1)) i);;
  wri ip (ior ILOCKED).
Definition igrab (fuel : nat) (ip : Z) : A unit :=
  wait_ilock fuel ip;;
  itake ip.

(** ** iupdat *)

Definition DIRTY : Z := Eval vm_compute in Z.lor IUPD (Z.lor IACC (Z.lor ICHG IMOD)).

Definition iupdat (fuel : nat) (ip ta tm waitfor : Z) : A unit :=
  i ← rdi ip;
  if negb (ihas DIRTY i) then mret tt
  else
    f ← rdfs (i_fs i);
    if negb (fs_ronly f =? 0) then mret tt
    else
      bp ← bio (bread fuel (i_dev i) (itod (i_number i)));
      b ← bio (rdb bp);
      if has B_ERROR b then bio (brelse bp)
      else
        i ← rdi ip;
        when (ihas IACC i) (wri ip (set_i_atime ta));;
        when (ihas IUPD i) (wri ip (set_i_mtime tm));;
        now ← gets time_sec;
        when (ihas ICHG i) (wri ip (set_i_ctime now));;
        wri ip (iand_not DIRTY);;
        i ← rdi ip;
        wr_data bp (put_dinode (to_dinode i) (itoo (i_number i)));;
        f ← rdfs (i_fs i);
        if negb (waitfor =? 0) && (Z.land (fs_flags f) MNT_ASYNC =? 0) then bio (bwrite fuel bp)
        else bio (bdwrite fuel bp).

Definition ITIMES (ip ta tm : Z) : A unit :=
  i ← rdi ip;
  when (ihas (Z.lor IUPD (Z.lor IACC ICHG)) i)
    (wri ip (ior IMOD);;
     when (ihas IACC i) (wri ip (set_i_atime ta));;
     when (ihas IUPD i) (wri ip (set_i_mtime tm));;
     now ← gets time_sec;
     when (ihas ICHG i) (wri ip (set_i_ctime now));;
     wri ip (iand_not (Z.lor IACC (Z.lor IUPD ICHG)))).

(** ** itrunc *)

(** [for (; bstart > bstop; --bstart)]: [k] entries are left, the next is [x]. *)
Fixpoint trsingle_loop (k : nat) (fuel : nat) (ip bp x : Z) : A unit :=
  match k with
  | O => mret tt
  | S k =>
      bap ← rd_data bp;
      nb ← load (λ _, aget bap x);
      when (negb (nb =? 0)) (free fuel ip nb);;
      trsingle_loop k fuel ip bp (x - 1)
  end.
Definition trsingle (fuel : nat) (ip bp last : Z) : A unit :=
  trsingle_loop (Z.to_nat (NINDIR - 1 - last)) fuel ip bp (NINDIR - 1).

(** [bzero] of the words of a block from [from] on; outside of the block it
    would run on through memory. *)
Definition wr_zero (bp from : Z) : A unit :=
  if (0 <=? from) && (from <=? NINDIR) then
    wr_data bp (λ d, take (Z.to_nat from) d ++ replicate (Z.to_nat (NINDIR - from)) 0)
  else λ _, Fault.

(** The loop over the blocks that are not kept, with the call for one of them. *)
Fixpoint trindir_loop (k : nat) (fuel : nat) (ip bp x : Z) (sub : Z → A unit) : A unit :=
  match k with
  | O => mret tt
  | S k =>
      bap ← rd_data bp;
      nb ← load (λ _, aget bap x);
      when (negb (nb =? 0))
        (sub nb;;
         free fuel ip nb);;
      trindir_loop k fuel ip bp (x - 1) sub
  end.

Fixpoint indirtrunc (level : nat) (fuel : nat) (ip bn lastbn aflags : Z) : A unit :=
  let factor := NINDIR ^ Z.of_nat level in
  let last := if 0 <? lastbn then lastbn / factor else lastbn in
  i ← rdi ip;
  bp ← bio (bread fuel (i_dev i) bn);
  b ← bio (rdb bp);
  if has B_ERROR b then bio (brelse bp)
  else
    cpy ← bio (geteblk sleep strategy fuel);
    d ← rd_data bp;
    wr_data cpy (λ _, d);;
    wr_zero bp (last + 1);;
    (if negb (Z.land aflags B_SYNC =? 0) then bio (bwrite fuel bp) else bio (bawrite fuel bp));;
    let bp := cpy in
    match level with
    | O => trsingle fuel ip bp last
    | S l =>
        trindir_loop (Z.to_nat (NINDIR - 1 - last)) fuel ip bp (NINDIR - 1) (λ nb, indirtrunc l fuel ip nb (-1) aflags);;
        when (0 <=? lastbn)
          (bap ← rd_data bp;
           nb ← load (λ _, aget bap last);
           when (negb (nb =? 0)) (indirtrunc l fuel ip nb (lastbn `mod` factor) aflags))
    end;;
    bio (brelse bp).

(** The rest of a block from byte [off] on is cleared. *)
Definition zero_from (off : Z) (d : list Z) : list Z :=
  imap (λ k w, let k := Z.of_nat k in
    if k <? off / 4 then w else if k =? off / 4 then Z.land w (2 ^ (8 * (off `mod` 4)) - 1) else 0) d.

(** The blocks an inode keeps: [lastiblock\[level\]], -1 if nothing is kept. *)
Definition lastiblock (lastblock : Z) (level : nat) : Z :=
  match level with
  | O => lastblock - NDADDR
  | 1%nat => lastblock - NDADDR - NINDIR
  | _ => lastblock - NDADDR - NINDIR - NINDIR * NINDIR
  end.
Definition lastnorm (lastblock : Z) (level : nat) : Z :=
  let l := lastiblock lastblock level in if l <? 0 then -1 else l.

Definition set_daddr (n : Z) (v : Z) (i : inode) : inode := set_i_addr (<[Z.to_nat n := v]> (i_addr i)) i.

(** [for (level = TRIPLE; level >= SINGLE; level--)], clearing pointers. *)
Fixpoint clear_ib (n : nat) (ip lastblock : Z) : A unit :=
  match n with
  | O => mret tt
  | S level =>
      when (lastiblock lastblock level <? 0) (wri ip (set_daddr (NDADDR + Z.of_nat level) 0));;
      clear_ib level ip lastblock
  end.
(** [for (i = NDADDR - 1; i > lastblock; i--)] *)
Fixpoint clear_db (n : nat) (ip lastblock : Z) : A unit :=
  match n with
  | O => mret tt
  | S i =>
      if lastblock <? Z.of_nat i then
        wri ip (set_daddr (Z.of_nat i) 0);;
        clear_db i ip lastblock
      else mret tt
  end.

(** Indirect blocks first; [false] leads to [done]. *)
Fixpoint free_ib (n : nat) (fuel : nat) (ip lastblock aflags : Z) : A bool :=
  match n with
  | O => mret true
  | S level =>
      i ← rdi ip;
      bn ← load (λ _, aget (i_addr i) (NDADDR + Z.of_nat level));
      let last := lastnorm lastblock level in
      when (negb (bn =? 0))
        (indirtrunc level fuel ip bn last aflags;;
         when (last <? 0)
           (wri ip (set_daddr (NDADDR + Z.of_nat level) 0);;
            free fuel ip bn));;
      if 0 <=? last then mret false else free_ib level fuel ip lastblock aflags
  end.
Fixpoint free_db (n : nat) (fuel : nat) (ip lastblock : Z) : A unit :=
  match n with
  | O => mret tt
  | S i =>
      if lastblock <? Z.of_nat i then
        ii ← rdi ip;
        bn ← load (λ _, aget (i_addr ii) (Z.of_nat i));
        when (negb (bn =? 0))
          (wri ip (set_daddr (Z.of_nat i) 0);;
           free fuel ip bn);;
        free_db i fuel ip lastblock
      else mret tt
  end.

Definition itrunc_done (fuel : nat) (oip : Z) : A unit :=
  wri oip (ior (Z.lor ICHG IUPD));;
  now ← gets time_sec;
  iupdat fuel oip now now 1.

(** The block that the new end of the file lies in: [false] is a return. *)
Definition itrunc_partial (fuel : nat) (oip length aflags : Z) : A bool :=
  let offset := blkoff length in
  if offset =? 0 then mret true
  else
    bn ← bmap fuel oip (lblkno length) B_WRITE aflags;
    e ← bio (gets u_error);
    if negb (e =? 0) || (bn <? 0) then mret false
    else
      i ← rdi oip;
      bp ← bio (bread fuel (i_dev i) bn);
      b ← bio (rdb bp);
      if has B_ERROR b then
        seterr EIO;;
        bio (brelse bp);;
        mret false
      else
        wr_data bp (zero_from offset);;
        bio (bdwrite fuel bp);;
        mret true.

Definition itrunc_shorten (fuel : nat) (oip length aflags : Z) : A unit :=
  let lastblock := s32 (lblkno (length + DEV_BSIZE - 1) - 1) in
  go ← itrunc_partial fuel oip length aflags;
  if go : bool then
    i ← rdi oip;
    modify (λ s, set_inodes (<[tip_at := i]> (inodes s)) s);;
    wri oip (set_i_size (s32 length));;
    clear_ib 3 oip lastblock;;
    clear_db (Z.to_nat NDADDR) oip lastblock;;
    more ← free_ib 3 fuel tip_at lastblock aflags;
    when more (free_db (Z.to_nat NDADDR) fuel tip_at lastblock);;
    modify (λ s, set_inodes (delete tip_at (inodes s)) s);;
    itrunc_done fuel oip
  else mret tt.

Definition itrunc (fuel : nat) (oip length ioflags : Z) : A unit :=
  let aflags := if negb (Z.land ioflags IO_SYNC =? 0) then Z.lor B_CLRBUF B_SYNC else B_CLRBUF in
  i ← rdi oip;
  when (ihas IPIPE i) (wri oip (set_i_size MAXPIPSIZ));;
  if negb (ihas IPIPE i) && (u32 (i_size i) =? length) then itrunc_done fuel oip
  else
    i ← rdi oip;
    if u32 (i_size i) <? length then
      bn ← bmap fuel oip (lblkno (length - 1)) B_WRITE aflags;
      e ← bio (gets u_error);
      if negb (e =? 0) || (bn <? 0) then mret tt
      else
        wri oip (set_i_size (s32 length));;
        itrunc_done fuel oip
    else itrunc_shorten fuel oip length aflags.

(** ** irele and iput *)

Definition irele (fuel : nat) (ip : Z) : A unit :=
  i ← rdi ip;
  (if i_count i =? 1 then
     wri ip (ior ILOCKED);;
     i ← rdi ip;
     ro ← (if i_nlink i <=? 0 then f ← rdfs (i_fs i); mret (fs_ronly f =? 0) else mret false);
     when ro
       (itrunc fuel ip 0 0;;
        wri ip (set_i_mode 0);;
        wri ip (set_daddr 1 0);;
        wri ip (ior (Z.lor IUPD ICHG));;
        i ← rdi ip;
        ifree ip (i_number i));;
     i ← rdi ip;
     now ← gets time_sec;
     when (ihas DIRTY i) (iupdat fuel ip now now 0);;
     iunlock ip;;
     wri ip (set_i_flag 0);;
     ifree_append ip
   else
     now ← gets time_sec;
     when (negb (ihas ILOCKED i)) (ITIMES ip now now));;
  wri ip (λ i, set_i_count (u32 (i_count i - 1)) i).

Definition iput (fuel : nat) (ip : Z) : A unit :=
  iunlock ip;;
  irele fuel ip.

(** ** iget *)

(** The loop over the mount table for an inode that is mounted on. *)
Definition mounted_here (ip : Z) : A (option (Z * Z)) :=
  ms ← gets mount;
  mret (m ← list_find (λ m, m_inodp m = ip) ms; Some (m_dev m.2, m_filsys m.2)).

(** The inode at the front of the free list is given to file [ino] of [dev]. *)
Definition iget_new (fuel : nat) (dev fsp ino : Z) : A Z :=
  let ih := INOHASH dev ino in
  ip ← gets ifreeh;
  if ip =? 0 then
    printf "inode: table full";;
    seterr ENFILE;;
    mret 0
  else
    i ← rdi ip;
    if negb (i_count i =? 0) then panic "free inode isn't"
    else
      let iq := i_freef i in
      when (negb (iq =? 0)) (wri iq (set_i_freeb ifreeh_at));;
      modify (set_ifreeh iq);;
      wri ip (set_i_freef 0);;
      wri ip (set_i_freeb 0);;
      remque ip;;
      insque ip ih;;
      wri ip (set_i_dev dev);;
      wri ip (set_i_fs fsp);;
      wri ip (set_i_number ino);;
      cacheinval ip;;
      wri ip (set_i_flag ILOCKED);;
      wri ip (λ i, set_i_count (u32 (i_count i + 1)) i);;
      wri ip (set_i_freef 0);;
      bp ← bio (bread fuel dev (itod ino));
      b ← bio (rdb bp);
      if has B_ERROR b then
        bio (brelse bp);;
        remque ip;;
        selfque ip;;
        wri ip (set_i_number 0);;
        iput fuel ip;;
        mret 0
      else
        d ← rd_data bp;
        wri ip (of_dinode (get_dinode d (itoo ino)));;
        bio (brelse bp);;
        mret ip.

Fixpoint iget (fuel : nat) (dev fsp ino : Z) : A Z :=
  match fuel with
  | O => nofuel
  | S f =>
      ip ← ifind dev ino;
      if ip =? 0 then iget_new f dev fsp ino
      else
        i ← rdi ip;
        if ihas ILOCKED i then
          wri ip (ior IWANT);;
          fsleep ip PINOD;;
          iget f dev fsp ino
        else if ihas IMOUNT i then
          m ← mounted_here ip;
          match m with
          | Some (dev, fsp) => iget f dev fsp ROOTINO
          | None => panic "no imt"
          end
        else
          itake ip;;
          mret ip
  end.

(** ** ialloc (ufs_alloc.c)

    [&fs->fs_ilock], a channel of its own beside [&fs->fs_flock]. *)

Definition ilock_chan (fsp : Z) : Z := -1 - fsp.
Fixpoint wait_fs_ilock (fuel : nat) (fsp : Z) : A unit :=
  match fuel with
  | O => nofuel
  | S n =>
      f ← rdfs fsp;
      if fs_ilock f =? 0 then mret tt
      else
        fsleep (ilock_chan fsp) PINOD;;
        wait_fs_ilock n fsp
  end.

(** The loop over the inodes of one block of the i-list, [k] of them left: those
    that are free on the disk and not in core are entered in the superblock. *)
Fixpoint ialloc_slots (k : nat) (dev fsp bp i ino : Z) : A Z :=
  match k with
  | O => mret ino
  | S k =>
      d ← rd_data bp;
      used ← (if negb (ic_mode (di_ic1 (get_dinode d i)) =? 0) then mret true
              else ip ← ifind dev ino; mret (negb (ip =? 0)));
      if used : bool then ialloc_slots k dev fsp bp (i + 1) (u32 (ino + 1))
      else
        f ← rdfs fsp;
        ns ← load (λ _, aset (fs_inode f) (fs_ninode f) ino);
        wrfs fsp (set_fs_inode ns);;
        wrfs fsp (set_fs_ninode (fs_ninode f + 1));;
        if NICINOD <=? fs_ninode f + 1 then mret ino
        else ialloc_slots k dev fsp bp (i + 1) (u32 (ino + 1))
  end.
(** The loop over the blocks of the i-list; the result is [inobas]. *)
Fixpoint ialloc_scan (n : nat) (fuel : nat) (dev fsp adr ino inobas : Z) : A Z :=
  match n with
  | O => nofuel
  | S n =>
      f ← rdfs fsp;
      if u32 adr <? fs_isize f then
        let inobas := ino in
        bp ← bio (bread fuel dev adr);
        b ← bio (rdb bp);
        if has B_ERROR b || negb (b_resid b =? 0) then
          bio (brelse bp);;
          ialloc_scan n fuel dev fsp (adr + 1) (u32 (ino + INOPB)) inobas
        else
          ino ← ialloc_slots (Z.to_nat INOPB) dev fsp bp 0 ino;
          bio (brelse bp);;
          f ← rdfs fsp;
          if NICINOD <=? fs_ninode f then mret inobas
          else ialloc_scan n fuel dev fsp (adr + 1) ino inobas
      else mret inobas
  end.
Definition ialloc_fromtop (fuel : nat) (dev fsp : Z) : A Z :=
  wrfs fsp (set_fs_nbehind 0);;
  f ← rdfs fsp;
  ialloc_scan (S (Z.to_nat (fs_isize f))) fuel dev fsp (SUPERB + 1) 1 0.
(** A new list of free inodes for the superblock. *)
Definition ialloc_refill (fuel : nat) (dev fsp : Z) : A unit :=
  wrfs fsp (λ f, set_fs_ilock (fs_ilock f + 1) f);;
  f ← rdfs fsp;
  inobas ←
    (if fs_nbehind f <? 4 * NICINOD then
       inobas ← ialloc_scan (S (Z.to_nat (fs_isize f))) fuel dev fsp (itod (fs_lasti f)) (fs_lasti f) 0;
       f ← rdfs fsp;
       if fs_ninode f <? NICINOD then ialloc_fromtop fuel dev fsp else mret inobas
     else ialloc_fromtop fuel dev fsp);
  wrfs fsp (set_fs_lasti inobas);;
  wrfs fsp (set_fs_ilock 0);;
  fwakeup (ilock_chan fsp).

(** From the label [loop] on. *)
Fixpoint ialloc_loop (n : nat) (fuel : nat) (dev fsp : Z) : A Z :=
  match n with
  | O => nofuel
  | S n =>
      f ← rdfs fsp;
      if 0 <? fs_ninode f then
        wrfs fsp (set_fs_ninode (fs_ninode f - 1));;
        ino ← load (λ _, aget (fs_inode f) (fs_ninode f - 1));
        if ino <=? ROOTINO then ialloc_loop n fuel dev fsp
        else
          ip ← iget fuel dev fsp ino;
          if ip =? 0 then mret 0
          else
            i ← rdi ip;
            if i_mode i =? 0 then
              wri ip (set_i_addr (replicate (Z.to_nat NADDR) 0));;
              wri ip (set_i_flags 0);;
              wrfs fsp (set_fs_fmod 1);;
              wrfs fsp (λ f, set_fs_tinode (u32 (fs_tinode f - 1)) f);;
              mret ip
            else
              iput fuel ip;;
              ialloc_loop n fuel dev fsp
      else
        ialloc_refill fuel dev fsp;;
        f ← rdfs fsp;
        if 0 <? fs_ninode f then ialloc_loop n fuel dev fsp
        else
          fserr fsp "no inodes free";;
          printf "no inodes free";;
          seterr ENOSPC;;
          mret 0
  end.
Definition ialloc (fuel : nat) (pip : Z) : A Z :=
  p ← rdi pip;
  wait_fs_ilock fuel (i_fs p);;
  ialloc_loop fuel fuel (i_dev p) (i_fs p).

(** ** The name cache within namei

    The part of [namei] (ufs_namei.c) that looks the name [nm], of hash [hash],
    up in directory [dp]: the inode of the name, locked and with a reference,
    while the directory is unlocked, or [None] when the directory is to be
    searched.  [rdir] is the root directory of the process. *)

Definition count_stat (f : nchstats → nchstats) : A unit := nop (modify (λ n, set_stats (f (stats n)) n)).
Definition nch_hit (fuel : nat) (ncp dp : Z) (n : namecache) (isdotdot : bool) (rdir : Z) : A (option Z) :=
  nop (lru_touch ncp);;
  let pdp := dp in
  let dp := if negb isdotdot || negb (dp =? rdir) then nc_ip n else dp in
  if dp =? 0 then panic "namei: null cache ino"
  else
    (if pdp =? dp then wri dp (λ i, set_i_count (u32 (i_count i + 1)) i)
     else if isdotdot then
       iunlock pdp;;
       igrab fuel dp
     else
       igrab fuel dp;;
       iunlock pdp);;
    n ← nop (rdn ncp);
    i ← rdi (nc_ip n);
    if negb (nc_id n =? i_id i) then
      iput fuel dp;;
      ilock fuel pdp;;
      count_stat (λ c, Nchstats (ncs_goodhits c) (ncs_badhits c) (ncs_falsehits c + 1) (ncs_miss c) (ncs_long c));;
      mret None
    else
      count_stat (λ c, Nchstats (ncs_goodhits c + 1) (ncs_badhits c) (ncs_falsehits c) (ncs_miss c) (ncs_long c));;
      mret (Some dp).
Definition nch_lookup (fuel : nat) (dp hash : Z) (nm : list Z) (makeentry isdotdot : bool) (rdir : Z) : A (option Z) :=
  if NCHNAMLEN <? zlen nm then
    count_stat (λ c, Nchstats (ncs_goodhits c) (ncs_badhits c) (ncs_falsehits c) (ncs_miss c) (ncs_long c + 1));;
    mret None
  else
    d ← rdi dp;
    let nhp := NHASH hash (i_number d) (i_dev d) in
    ncp ← nop (hd ← rd_next nhp; nch_find nch_chain_fuel hd nhp (i_number d) (i_dev d) nm);
    if ncp =? 0 then
      count_stat (λ c, Nchstats (ncs_goodhits c) (ncs_badhits c) (ncs_falsehits c) (ncs_miss c + 1) (ncs_long c));;
      mret None
    else
      n ← nop (rdn ncp);
      i ← rdi (nc_ip n);
      r ←
        (if negb (nc_id n =? i_id i) then
           count_stat (λ c, Nchstats (ncs_goodhits c) (ncs_badhits c) (ncs_falsehits c + 1) (ncs_miss c) (ncs_long c));;
           mret None
         else if negb makeentry then
           count_stat (λ c, Nchstats (ncs_goodhits c) (ncs_badhits c + 1) (ncs_falsehits c) (ncs_miss c) (ncs_long c));;
           mret None
         else nch_hit fuel ncp dp n isdotdot rdir);
      match r with
      | Some dp => mret (Some dp)
      | None =>
          nop (nch_drop ncp);;
          mret None
      end.
End inodes.

(** ** iflush *)

Fixpoint iflush_loop (k : nat) (ip dev open : Z) : A Z :=
  match k with
  | O => mret open
  | S k =>
      i ← rdi ip;
      if i_dev i =? dev then
        if negb (i_count i =? 0) then mret (-1)
        else
          remque ip;;
          selfque ip;;
          iflush_loop k (ip + 1) dev open
      else if negb (i_count i =? 0) && (Z.land (i_mode i) IFMT =? IFBLK) && (i_rdev i =? dev) then
        iflush_loop k (ip + 1) dev (open + 1)
      else iflush_loop k (ip + 1) dev open
  end.
Definition iflush (dev : Z) : A Z := iflush_loop (Z.to_nat NINODE) (inode_at 0) dev 0.
End Inode.
