(* ===== verification/InodeRules.v ===== *)
(** * Symbolic execution on the inode table

    [ist] describes a state by the hash chains, the free list, the contents of
    the inodes without their links, and the rest of the kernel; each step of the
    operations of the table has a rule over it. *)

From S2P Require Import Prelude Links Que NameCache Bio Cache CacheIO CacheSpec Alloc Bmap Inode.
Import NameCache Bio Cache CacheIO CacheSpec Alloc Bmap Inode.

Module InodeRules.
#[local] Set Default Proof Using "Type".

Definition is_ino (ip : Z) : Prop := inode_at 0 ≤ ip < inode_at NINODE.
Definition iheads : list Z := ihead_at <$> seqZ 0 INOHSZ.

(** An inode without its links, and the kernel without the inode table. *)
Definition icore (i : inode) : inode := set_i_forw 0 (set_i_back 0 i).
Definition icont (i : inode) : inode := set_i_freef 0 (set_i_freeb 0 (icore i)).
Definition world (s : ast) : ast := set_inodes ∅ (set_ihead ∅ (set_ifreeh 0 (set_ifreet 0 s))).

(** The free list as a ring: the head is the place of [ifreeh] and of the null
    pointer at the end, and [ifreet] is its back pointer. *)
Definition nz (v : Z) : Z := if v =? 0 then ifreeh_at else if v =? ifreeh_at then 0 else v.
Definition ffn (s : ast) (y : Z) : option Z := if decide (y = ifreeh_at) then Some (nz (ifreeh s)) else nz <$> (i_freef <$> inodes s !! y).
Definition ffp (s : ast) (y : Z) : option Z := if decide (y = ifreeh_at) then Some (ifreet s) else i_freeb <$> inodes s !! y.
Definition freel (s : ast) (F : list Z) : Prop :=
  (∀ ip, ip ∈ F → is_ino ip) ∧ (F = [] → ifreeh s = 0) ∧ (F ≠ [] → ring (ffn s) (ffp s) ifreeh_at F).

Definition iworld (s : ast) := (world s, ifreeh s, ifreet s).
Definition irest : ast → _ := table_rest ihead inodes iworld icore.

#[export] Instance inode_que_laws : QueLaws ast irest.
Proof. by apply table_laws. Qed.

(** ** The state of the table *)

Record ist (s : ast) (X : option Z) (q : Z → list Z) (F : list Z) (C : Z → option inode) (O : ast) : Prop := Ist {
  is_chains : hashed is_ino iheads X (q_next s) (q_prev s) q;
  is_heads : ∀ p, is_Some (ihead s !! p) ↔ p ∈ iheads;
  is_free : freel s F;
  is_cont : ∀ z, icont <$> inodes s !! z = C z;
  is_world : world s = O
}.
Definition cset (ip : Z) (c : inode) (C : Z → option inode) : Z → option inode := λ z, if decide (z = ip) then Some c else C z.

Section rules.
Implicit Types (s O : ast) (X : option Z) (q : Z → list Z) (F : list Z) (C : Z → option inode).

Lemma ino_not_slot ip : is_ino ip → ip ≠ ifreeh_at ∧ ip ≠ 0.
Proof. unfold is_ino, inode_at, ifreeh_at, NINODE. lia. Qed.

Lemma ihead_ino h : h ∈ iheads → ¬ is_ino h.
Proof. unfold iheads. intros (j & -> & [? ?]%elem_of_seqZ)%list_elem_of_fmap. unfold is_ino, ihead_at, inode_at, INOHSZ, NINODE in *. lia. Qed.

Lemma INOHASH_head dev ino : INOHASH dev ino ∈ iheads.
Proof.
  unfold INOHASH, iheads. apply list_elem_of_fmap. eexists. split; [done|]. apply elem_of_seqZ. change (INOHSZ - 1) with (Z.ones 4).
  rewrite Z.land_ones by lia. unfold INOHSZ. pose proof (Z.mod_pos_bound (u32 (dev + ino)) (2 ^ 4)). lia.
Qed.

Lemma ist_get s X q F C O ip c : ist s X q F C O → C ip = Some c → ∃ i, inodes s !! ip = Some i ∧ icont i = c.
Proof. intros [_ _ _ Hc _] H. rewrite <- Hc in H. destruct (inodes s !! ip) as [i|]; simplify_eq/=. eauto. Qed.

Lemma ist_some s X q F C O ip : ist s X q F C O → is_ino ip → is_Some (C ip).
Proof.
  intros [[_ _ _ _ _ HM] Hh _ Hc _] Hi. rewrite <- Hc. destruct (HM ip Hi) as [Hn _]. unfold q_next, inode_que, table_que in Hn.
  destruct (ihead s !! ip) as [l|] eqn:E; [|destruct (inodes s !! ip); simpl; [eauto|by destruct Hn]].
  exfalso. apply (ihead_ino ip); [|done]. apply Hh. by rewrite E.
Qed.

Lemma freel_ext s s' F :
  (∀ y, y = ifreeh_at ∨ y ∈ F → ffn s' y = ffn s y ∧ ffp s' y = ffp s y) → ifreeh s' = ifreeh s → freel s F → freel s' F.
Proof.
  intros Hy He (H1 & H2 & H3). split_and!; [done|by rewrite He|]. intros HF. eapply ring_ext; [|by apply H3]. intros y Hyy. by apply Hy.
Qed.

Lemma ist_rest s s' X X' q q' F C O :
  ist s X q F C O → irest s' = irest s → hashed is_ino iheads X' (q_next s') (q_prev s') q' → ist s' X' q' F C O.
Proof.
  intros [_ Hh Hf Hc Hw] Hr Hq. unfold irest, table_rest, iworld in Hr. rewrite !pair_equal_spec in Hr. destruct Hr as [[[[W1 W2] W3] E1] E2].
  assert (L : ∀ y, icore <$> inodes s' !! y = icore <$> inodes s !! y) by (intros y; by rewrite <- !lookup_fmap, E1).
  assert (LH : ∀ y, is_Some (ihead s' !! y) ↔ is_Some (ihead s !! y)).
  { intros y. rewrite <- (fmap_is_Some (λ _, ())), <- lookup_fmap, E2, lookup_fmap. by rewrite fmap_is_Some. }
  split; [done|intros p; by rewrite LH| | |congruence].
  - eapply (freel_ext s); [|done|exact Hf]. intros y _. unfold ffn, ffp. rewrite W2, W3. case_decide; [done|]. specialize (L y).
    destruct (inodes s' !! y) as [i'|], (inodes s !! y) as [i|]; simplify_eq/=; [|done]. destruct i, i'; unfold icore in L; simplify_eq/=; done.
  - intros z. rewrite <- Hc. assert (HC : ∀ o : option inode, icont <$> o = (λ i, set_i_freef 0 (set_i_freeb 0 i)) <$> (icore <$> o)) by (intros o; by destruct o).
    by rewrite !HC, L.
Qed.

Lemma wp_rdi_ist s X q F C O ip c (Q : inode → ast → Prop) :
  ist s X q F C O → C ip = Some c → (∀ i, inodes s !! ip = Some i → icont i = c → Q i s) → wp (rdi ip) Q s.
Proof. intros H Hc HQ. destruct (ist_get _ _ _ _ _ _ _ _ H Hc) as (i & Hi & Hic). eapply wp_load; [exact Hi|]. by apply HQ. Qed.

(** A write that leaves the links of the inode alone, or at most those of a free
    list it is not on. *)
Lemma wp_wri_ist s X q F C O ip c c' f (Q : unit → ast → Prop) :
  ist s X q F C O → C ip = Some c → (∀ i, i_forw (f i) = i_forw i ∧ i_back (f i) = i_back i) →
  (∀ i, ip ∈ F → i_freef (f i) = i_freef i ∧ i_freeb (f i) = i_freeb i) → (∀ i, icont i = c → icont (f i) = c') →
  (∀ s', ist s' X q F (cset ip c' C) O → Q tt s') → wp (wri ip f) Q s.
Proof.
  intros H Hc Hl Hfl Hcc HQ. destruct (ist_get _ _ _ _ _ _ _ _ H Hc) as (i & Hi & Hic). destruct H as [Hq Hh Hf Hct Hw].
  eapply wp_store; [rewrite Hi; reflexivity|]. apply HQ. split; [|done| | |by rewrite <- Hw].
  - assert (HN : ∀ y, q_next (set_inodes (<[ip := f i]> (inodes s)) s) y = q_next s y).
    { intros y. cbn. destruct (ihead s !! y); [done|]. rewrite lookup_replace. case_decide; [|done]. subst. rewrite Hi. simpl. f_equal. apply Hl. }
    assert (HP : ∀ y, q_prev (set_inodes (<[ip := f i]> (inodes s)) s) y = q_prev s y).
    { intros y. cbn. destruct (ihead s !! y); [done|]. rewrite lookup_replace. case_decide; [|done]. subst. rewrite Hi. simpl. f_equal. apply Hl. }
    destruct Hq as [HR HE HD HH HL HM]. split; try done.
    + intros h Hhs. eapply ring_ext; [|by apply HR]. intros y _. by rewrite HN, HP.
    + intros e He HX Hno. rewrite HN, HP. by apply HL.
    + intros e He. rewrite HN, HP. by apply HM.
  - eapply (freel_ext s); [|done|exact Hf]. intros y Hy. unfold ffn, ffp. cbn. case_decide; [done|]. rewrite lookup_replace. case_decide; [|done].
    subst. rewrite Hi. simpl. destruct Hy as [|Hy]; [done|]. by destruct (Hfl i Hy) as [-> ->].
  - intros z. cbn. unfold cset. rewrite lookup_replace. case_decide; [|done]. simpl. f_equal. by apply Hcc.
Qed.

Lemma world_time s : time_sec (world s) = time_sec s.
Proof. done. Qed.

(** What does not touch the table. *)
Lemma wp_modify_ist s X q F C O (g : ast → ast) (Q : unit → ast → Prop) :
  ist s X q F C O → (∀ s, inodes (g s) = inodes s ∧ ihead (g s) = ihead s ∧ ifreeh (g s) = ifreeh s ∧ ifreet (g s) = ifreet s ∧ world (g s) = g (world s)) →
  (∀ s', ist s' X q F C (g O) → Q tt s') → wp (modify g) Q s.
Proof.
  intros [Hq Hh Hf Hct Hw] Hg HQ. apply wp_modify, HQ. destruct (Hg s) as (E1 & E2 & E3 & E4 & E5). split.
  - unfold q_next, q_prev, inode_que, table_que. by rewrite E1, E2.
  - by rewrite E2.
  - eapply (freel_ext s); [|done|exact Hf]. intros y _. unfold ffn, ffp. by rewrite E1, E3, E4.
  - by rewrite E1.
  - by rewrite E5, Hw.
Qed.

Lemma wp_bio_ist {Y} s X q F C O (m : M bst Y) (Q : Y → ast → Prop) :
  ist s X q F C O → wp m (λ a b, ∀ s', ist s' X q F C (set_bs b O) → bs s' = b → Q a s') (bs O) → wp (bio m) Q s.
Proof.
  intros Hi. assert (bs O = bs s) as -> by (by rewrite <- (is_world _ _ _ _ _ _ Hi)). rewrite !wp_run. intros (a & b & Hm & HQ). exists a, (set_bs b s). unfold bio. rewrite Hm. split; [done|]. apply HQ; [|done].
  destruct Hi as [Hq Hh Hf Hct Hw]. split; [done..|]. by rewrite <- Hw.
Qed.

(** *** Chains *)

Lemma wp_remque_ist s q F C O ip (Q : unit → ast → Prop) :
  ist s None q F C O → is_ino ip → (∀ s', ist s' (Some ip) (without ip q) F C O → Q tt s') → wp (remque ip) Q s.
Proof.
  intros H Hi HQ. eapply (wp_remque irest is_ino iheads); [by eapply is_chains|done|]. intros s' Hq Hr. apply HQ. by eapply ist_rest.
Qed.

Lemma wp_insque_ist s q F C O ip h (Q : unit → ast → Prop) :
  ist s (Some ip) q F C O → is_ino ip → h ∈ iheads → (∀ h', h' ∈ iheads → ip ∉ q h') → (∀ s', ist s' None (front ip h q) F C O → Q tt s') → wp (insque ip h) Q s.
Proof.
  intros H Hi Hh Hno HQ. eapply (wp_insque irest is_ino iheads); [by eapply is_chains|done|done|done|]. intros s' Hq Hr. apply HQ. by eapply ist_rest.
Qed.

Lemma wp_selfque_ist s q F C O ip (Q : unit → ast → Prop) :
  ist s (Some ip) q F C O → is_ino ip → (∀ h', h' ∈ iheads → ip ∉ q h') → (∀ s', ist s' None q F C O → Q tt s') → wp (selfque ip) Q s.
Proof.
  intros H Hi Hno HQ. eapply (wp_selfque irest is_ino iheads); [by eapply is_chains|done|done|]. intros s' Hq Hr. apply HQ. by eapply ist_rest.
Qed.

Lemma chains_short s X q F C O h : ist s X q F C O → h ∈ iheads → (length (q h) <= Z.to_nat NINODE)%nat.
Proof.
  intros [[HR HE _ _ _ _] _ _ _ _] Hh. destruct (HR h Hh) as [_ [_ Hnd]%NoDup_cons].
  pose proof (submseteq_length (q h) (seqZ (inode_at 0) NINODE)) as Hl. rewrite length_seqZ in Hl. apply Hl, NoDup_submseteq; [done|].
  intros x Hx. apply elem_of_seqZ. apply (HE h x Hh) in Hx. unfold is_ino, inode_at in *. lia.
Qed.

(** *** The free list *)

(** Steps that change only links of the free list. *)
Definition ibase s s' : Prop :=
  (∀ y, q_next s' y = q_next s y) ∧ (∀ y, q_prev s' y = q_prev s y) ∧ ihead s' = ihead s ∧
  (∀ z, icont <$> inodes s' !! z = icont <$> inodes s !! z) ∧ world s' = world s.

Lemma ibase_trans s1 s2 s3 : ibase s1 s2 → ibase s2 s3 → ibase s1 s3.
Proof.
  intros (A1 & A2 & A3 & A4 & A5) (B1 & B2 & B3 & B4 & B5). split_and!; try congruence; intros; by rewrite ?B1, ?B2, ?B4, ?A1, ?A2, ?A4.
Qed.

Lemma ibase_some s s' ip : ibase s s' → is_Some (inodes s !! ip) → is_Some (inodes s' !! ip).
Proof. intros (_ & _ & _ & Hc & _) [i Hi]. specialize (Hc ip). rewrite Hi in Hc. destruct (inodes s' !! ip); [eauto|done]. Qed.

Lemma ist_base s s' X q F F' C O : ist s X q F C O → ibase s s' → freel s' F' → ist s' X q F' C O.
Proof.
  intros [[HR HE HD HH HL HM] Hh _ Hc Hw] (HN & HP & Hih & Hct & Hww) Hf. split; [|by rewrite Hih|done|intros; by rewrite Hct|congruence].
  split; try done.
  - intros h Hhs. eapply ring_ext; [|by apply HR]. intros y _. by rewrite HN, HP.
  - intros e He HX Hno. rewrite HN, HP. by apply HL.
  - intros e He. rewrite HN, HP. by apply HM.
Qed.

Lemma base_wri s ip i f : inodes s !! ip = Some i → (∀ i, i_forw (f i) = i_forw i ∧ i_back (f i) = i_back i ∧ icont (f i) = icont i) →
  ibase s (set_inodes (<[ip := f i]> (inodes s)) s).
Proof.
  intros Hi Hf. destruct (Hf i) as (F1 & F2 & F3). split_and!; try done; intros y; cbn; [destruct (ihead s !! y); [done|]..|];
    rewrite lookup_replace; case_decide; subst; rewrite ?Hi; simpl; congruence.
Qed.

Lemma wp_islot s p v (Q : unit → ast → Prop) :
  is_Some (ffn s p) →
  (∀ s', ibase s s' → (∀ y, ffn s' y = upd (ffn s) p (nz v) y) → (∀ y, ffp s' y = ffp s y) → Q tt s') → wp (wr_islot p v) Q s.
Proof.
  intros Hp HQ. unfold wr_islot. destruct (Z.eqb_spec p ifreeh_at) as [->|Hne].
  - apply wp_modify, HQ; [by split_and!| |done]. intros y. unfold ffn, upd. cbn. by case_decide.
  - unfold ffn in Hp. rewrite decide_False in Hp by done. destruct (inodes s !! p) as [i|] eqn:Hi; [|by destruct Hp].
    eapply wp_store; [rewrite Hi; reflexivity|]. apply HQ; [by apply base_wri| |].
    + intros y. unfold ffn, upd. cbn. rewrite lookup_replace. repeat (case_decide; subst); done.
    + intros y. unfold ffp. cbn. rewrite lookup_replace. repeat (case_decide; subst); rewrite ?Hi; done.
Qed.

Lemma wp_freeb s ip v (Q : unit → ast → Prop) :
  ip ≠ ifreeh_at → is_Some (inodes s !! ip) →
  (∀ s', ibase s s' → (∀ y, ffn s' y = ffn s y) → (∀ y, ffp s' y = upd (ffp s) ip v y) → Q tt s') → wp (wri ip (set_i_freeb v)) Q s.
Proof.
  intros Hp [i Hi] HQ. eapply wp_store; [rewrite Hi; reflexivity|]. apply HQ; [by apply base_wri| |].
  - intros y. unfold ffn. cbn. rewrite lookup_replace. repeat (case_decide; subst); rewrite ?Hi; done.
  - intros y. unfold ffp, upd. cbn. rewrite lookup_replace. repeat (case_decide; subst); done.
Qed.

Lemma wp_freef s ip v (Q : unit → ast → Prop) :
  ip ≠ ifreeh_at → is_Some (inodes s !! ip) →
  (∀ s', ibase s s' → (∀ y, ffn s' y = upd (ffn s) ip (nz v) y) → (∀ y, ffp s' y = ffp s y) → Q tt s') → wp (wri ip (set_i_freef v)) Q s.
Proof.
  intros Hp [i Hi] HQ. assert (wri ip (set_i_freef v) = wr_islot ip v) as ->. { unfold wr_islot. by rewrite (proj2 (Z.eqb_neq _ _) Hp). }
  apply wp_islot; [|done]. unfold ffn. by rewrite decide_False, Hi by done.
Qed.

Lemma wp_ifreeh s v (Q : unit → ast → Prop) :
  (∀ s', ibase s s' → (∀ y, ffn s' y = upd (ffn s) ifreeh_at (nz v) y) → (∀ y, ffp s' y = ffp s y) → Q tt s') → wp (modify (set_ifreeh v)) Q s.
Proof. intros HQ. change (modify (set_ifreeh v)) with (wr_islot ifreeh_at v). apply wp_islot; [|done]. unfold ffn. by rewrite decide_True. Qed.

Lemma wp_ifreet s v (Q : unit → ast → Prop) :
  (∀ s', ibase s s' → (∀ y, ffn s' y = ffn s y) → (∀ y, ffp s' y = upd (ffp s) ifreeh_at v y) → Q tt s') → wp (modify (set_ifreet v)) Q s.
Proof. intros HQ. apply wp_modify, HQ; [by split_and!|done|]. intros y. unfold ffp, upd. cbn. by case_decide. Qed.

Lemma nz_end v : nz v = ifreeh_at ↔ v = 0.
Proof. unfold nz, ifreeh_at. destruct (Z.eqb_spec v 0); [done|]. destruct (Z.eqb_spec v 699); lia. Qed.

Lemma nz_ino v ip : is_ino ip → nz v = ip ↔ v = ip.
Proof. unfold nz, is_ino, inode_at, ifreeh_at, NINODE. intros. destruct (Z.eqb_spec v 0); [lia|]. destruct (Z.eqb_spec v 699); lia. Qed.

Lemma freel_ring s F : ring (ffn s) (ffp s) ifreeh_at F → (∀ ip, ip ∈ F → is_ino ip) → freel s F.
Proof.
  intros Hr Hi. split_and!; [done| |done]. intros ->. destruct Hr as [[Hn _] _]. unfold ffn in Hn. rewrite decide_True in Hn by done.
  injection Hn as Hn. by apply nz_end.
Qed.

Lemma freel_at s F1 ip F2 : freel s (F1 ++ ip :: F2) → ∃ i, inodes s !! ip = Some i ∧ is_ino ip ∧
  nz (i_freef i) = after ifreeh_at F2 ∧ i_freeb i = before ifreeh_at F1 ∧ ring (ffn s) (ffp s) ifreeh_at (F1 ++ ip :: F2).
Proof.
  intros (Hi & _ & Hr). assert (Hip : is_ino ip) by (apply Hi; set_solver). destruct (ino_not_slot _ Hip) as [Hs _].
  specialize (Hr ltac:(by destruct F1)). destruct (ring_at _ _ _ _ _ _ Hr) as (Hn & Hp & _). unfold ffn, ffp in Hn, Hp.
  rewrite decide_False in Hn, Hp by done. destruct (inodes s !! ip) as [i|]; [|done]. cbn in Hn, Hp. exists i. split_and!; congruence.
Qed.

Lemma freel_some s F ip : freel s F → ip ∈ F → is_Some (inodes s !! ip).
Proof. intros Hf (F1 & F2 & ->)%list_elem_of_split. destruct (freel_at _ _ _ _ Hf) as (i & -> & _). eauto. Qed.

Lemma ring_noslot nx pv F1 ip F2 : ring nx pv ifreeh_at (F1 ++ ip :: F2) → (∀ x, x ∈ F1 ++ ip :: F2 → is_ino x) →
  ip ∉ F1 ∧ ip ∉ F2 ∧ after ifreeh_at F2 ≠ ip ∧ before ifreeh_at F1 ≠ ip.
Proof.
  intros [_ Hnd] Hi. apply NoDup_cons in Hnd as [_ Hnd]. apply NoDup_app in Hnd as (_ & Hd & [H2 _]%NoDup_cons).
  assert (ip ∉ F1) by (intros ?; apply (Hd ip); [done|by left]). destruct (ino_not_slot ip) as [Hs _]; [apply Hi; set_solver|].
  split_and!; [done|done| |].
  - destruct (after_mem ifreeh_at F2) as [->|]; [done|]. intros E. congruence.
  - destruct (before_mem ifreeh_at F1) as [->|]; [done|]. intros E. congruence.
Qed.

Lemma wp_ifree_remove s X q F1 ip F2 C O (Q : unit → ast → Prop) :
  ist s X q (F1 ++ ip :: F2) C O → (∀ s', ist s' X q (F1 ++ F2) C O → Q tt s') → wp (ifree_remove ip) Q s.
Proof.
  intros H HQ. pose proof (is_free _ _ _ _ _ _ H) as Hf. destruct (freel_at _ _ _ _ Hf) as (i & Hi & Hip & Hn & Hp & Hr).
  pose proof Hf as (Hino & _ & _). destruct (ring_noslot _ _ _ _ _ Hr Hino) as (H1 & H2 & Ha & Hb). destruct (ino_not_slot _ Hip) as [Hs _].
  unfold ifree_remove. apply wp_bind. eapply wp_load; [exact Hi|]. apply wp_bind.
  apply (wp_mono _ (λ _ s1, ibase s s1 ∧ (∀ y, ffn s1 y = ffn s y) ∧ (∀ y, ffp s1 y = upd (ffp s) (after ifreeh_at F2) (before ifreeh_at F1) y))).
  { rewrite Hp, <- Hn. destruct (Z.eqb_spec (i_freef i) 0) as [E|E]; cbn [negb].
    - rewrite E. apply wp_ifreet. by intros.
    - assert (Hin : after ifreeh_at F2 ∈ F2). { destruct (after_mem ifreeh_at F2) as [E'|]; [|done]. rewrite E' in Hn. by apply nz_end in Hn. }
      assert (Hif : is_ino (after ifreeh_at F2)) by (apply Hino; set_solver).
      rewrite Hn. apply (nz_ino _ _ Hif) in Hn as ->. apply wp_freeb; [by apply ino_not_slot| |by intros].
      eapply freel_some; [exact Hf|]. set_solver. }
  intros _ s1 (B1 & N1 & P1). assert (is_Some (inodes s1 !! ip)) as [i1 Hi1] by (eapply ibase_some; eauto).
  apply wp_bind. eapply wp_load; [exact Hi1|]. assert (i_freeb i1 = before ifreeh_at F1) as ->.
  { specialize (P1 ip). rewrite upd_ne in P1 by done. unfold ffp in P1. rewrite !decide_False, Hi, Hi1 in P1 by done. cbn in P1. congruence. }
  apply wp_bind, wp_islot. { rewrite N1. destruct (ring_at _ _ _ _ _ _ Hr) as (_ & _ & _ & ->). eauto. }
  intros s2 B2 N2 P2. rewrite Hn in N2.
  assert (Hi2 : is_Some (inodes s2 !! ip)) by (eapply ibase_some; eauto).
  apply wp_bind, wp_freef; [done|done|]. intros s3 B3 N3 P3.
  assert (Hi3 : is_Some (inodes s3 !! ip)) by (by eapply ibase_some).
  apply wp_freeb; [done|done|]. intros s4 B4 N4 P4.
  apply HQ. eapply ist_base; [exact H|by do 3 (eapply ibase_trans; [eassumption|])|]. apply freel_ring; [|intros x Hx; apply Hino; set_solver].
  eapply (ring_ext (ffn s2) (ffp s2)).
  - intros y Hy. assert (y ≠ ip) by (intros ->; set_solver). by rewrite N4, N3, P4, !upd_ne, P3 by done.
  - eapply ring_remove; [exact Hr| |].
    + intros y. rewrite N2. unfold upd. by rewrite N1.
    + intros y. by rewrite P2, P1.
Qed.

Lemma wp_ifree_append s X q F ip C O (Q : unit → ast → Prop) :
  ist s X q F C O → is_ino ip → is_Some (C ip) → ip ∉ F → (∀ s', ist s' X q (F ++ [ip]) C O → Q tt s') → wp (ifree_append ip) Q s.
Proof.
  intros H Hip Hs Hno HQ. pose proof (is_free _ _ _ _ _ _ H) as (Hino & HF0 & HF). destruct (ino_not_slot _ Hip) as [Hsl _].
  assert (Hi : is_Some (inodes s !! ip)) by (destruct Hs as [c Hc]; destruct (ist_get _ _ _ _ _ _ _ _ H Hc) as (? & -> & _); eauto).
  unfold ifree_append. apply wp_bind, wp_gets. apply wp_bind.
  apply (wp_mono _ (λ _ s1, ibase s s1 ∧ (∀ y, ffn s1 y = upd (ffn s) (before ifreeh_at F) ip y) ∧ (∀ y, ffp s1 y = upd (ffp s) ip (before ifreeh_at F) y))).
  - destruct (Z.eqb_spec (ifreeh s) 0) as [E|E]; cbn [negb].
    + assert (F = []) as ->.
      { destruct F as [|x F]; [done|]. specialize (HF ltac:(done)). destruct HF as [[Hn _] _]. unfold ffn in Hn. rewrite decide_True, E in Hn by done.
        injection Hn as Hn. assert (Hx : is_ino x) by (apply Hino; by left). symmetry in Hn. apply ino_not_slot in Hx as [Hx _]. destruct Hx. rewrite Hn. done. }
      apply wp_bind, wp_ifreeh. intros s1 B1 N1 P1. apply wp_freeb; [done|by eapply ibase_some|]. intros s2 B2 N2 P2.
      split_and!; [by eapply ibase_trans| |].
      * intros y. rewrite N2, N1. f_equal. by apply nz_ino.
      * intros y. rewrite P2. unfold upd. by rewrite P1.
    + assert (F ≠ []) as HFn by (intros ->; by apply E, HF0). specialize (HF HFn). rewrite <- (app_nil_r F) in HF.
      destruct (ring_around _ _ _ F [] HF) as [Hn Hp]. change (after ifreeh_at []) with ifreeh_at in *. unfold ffp in Hp. rewrite decide_True in Hp by done. injection Hp as Ht.
      apply wp_bind, wp_gets. rewrite Ht. apply wp_bind, wp_islot; [by rewrite Hn|]. intros s1 B1 N1 P1. apply wp_bind, wp_gets.
      assert (ifreet s1 = before ifreeh_at F) as -> by (specialize (P1 ifreeh_at); unfold ffp in P1; rewrite !decide_True in P1 by done; congruence).
      apply wp_freeb; [done|by eapply ibase_some|]. intros s2 B2 N2 P2. split_and!; [by eapply ibase_trans| |].
      * intros y. rewrite N2, N1. f_equal. by apply nz_ino.
      * intros y. rewrite P2. unfold upd. by rewrite P1.
  - intros _ s1 (B1 & N1 & P1). apply wp_bind, wp_freef; [done|by eapply ibase_some|]. intros s2 B2 N2 P2. apply wp_ifreet. intros s3 B3 N3 P3.
    apply HQ. eapply ist_base; [exact H|by do 2 (eapply ibase_trans; [eassumption|])|].
    apply freel_ring; [|intros x [?|?%list_elem_of_singleton]%elem_of_app; [by apply Hino|by subst]].
    assert (Hnh : before ifreeh_at F ≠ ip). { destruct (before_mem ifreeh_at F) as [->|]; [done|]. congruence. }
    assert (N : ∀ y, ffn s3 y = if decide (y = before ifreeh_at F) then Some ip else if decide (y = ip) then Some ifreeh_at else ffn s y).
    { intros y. rewrite N3, N2. unfold upd at 1. case_decide; [subst; by rewrite decide_False|]. by rewrite N1. }
    assert (P : ∀ y, ffp s3 y = if decide (y = ifreeh_at) then Some ip else if decide (y = ip) then Some (before ifreeh_at F) else ffp s y).
    { intros y. rewrite P3. unfold upd. case_decide; [done|]. by rewrite P2, P1. }
    destruct F as [|x F].
    + split; [|repeat constructor; set_solver]. cbn. change (before ifreeh_at []) with ifreeh_at in *.
      split_and!; rewrite ?N, ?P; repeat case_decide; congruence.
    + eapply (ring_insert (ffn s) (ffp s) _ _ ifreeh_at (x :: F) []); [rewrite app_nil_r; by apply HF|done|done|set_solver|exact N|exact P].
Qed.

(** The front of the free list is taken; [ifreet] is left behind. *)
Lemma wp_ifree_pop {Y} s X q ip F C O (K : A Y) (Q : Y → ast → Prop) i :
  ist s X q (ip :: F) C O → inodes s !! ip = Some i → (∀ s', ist s' X q F C O → wp K Q s') →
  wp (when (negb (i_freef i =? 0)) (wri (i_freef i) (set_i_freeb ifreeh_at));; modify (set_ifreeh (i_freef i));;
      wri ip (set_i_freef 0);; wri ip (set_i_freeb 0);; K) Q s.
Proof.
  intros H Hi HQ. pose proof (is_free _ _ _ _ _ _ H) as Hf. destruct (freel_at s [] ip F Hf) as (i' & Hi' & Hip & Hn & Hp & Hr). simplify_eq.
  pose proof Hf as (Hino & _ & _). destruct (ring_noslot _ _ [] _ _ Hr Hino) as (_ & H2 & Ha & _). destruct (ino_not_slot _ Hip) as [Hs _].
  apply wp_bind. apply (wp_mono _ (λ _ s1, ibase s s1 ∧ (∀ y, ffn s1 y = ffn s y) ∧ (F ≠ [] → ∀ y, ffp s1 y = upd (ffp s) (after ifreeh_at F) ifreeh_at y))).
  { destruct (Z.eqb_spec (i_freef i) 0) as [E|E]; cbn [negb when].
    - apply wp_ret. split_and!; [by split_and!|done|]. intros HF. destruct F as [|x F]; [done|]. rewrite E in Hn. cbn in Hn.
      assert (Hx : is_ino x) by (apply Hino; set_solver). apply ino_not_slot in Hx as [Hx _]. by destruct Hx.
    - assert (Hin : after ifreeh_at F ∈ F). { destruct (after_mem ifreeh_at F) as [E'|]; [|done]. rewrite E' in Hn. by apply nz_end in Hn. }
      assert (Hif : is_ino (after ifreeh_at F)) by (apply Hino; set_solver).
      apply (nz_ino _ _ Hif) in Hn as ->. apply wp_freeb; [by apply ino_not_slot| |by intros]. eapply freel_some; [exact Hf|]. set_solver. }
  intros _ s1 (B1 & N1 & P1). apply wp_bind, wp_ifreeh. intros s2 B2 N2 P2. rewrite Hn in N2.
  apply wp_bind, wp_freef; [done|eapply ibase_some; [eassumption|]; by eapply ibase_some|]. intros s3 B3 N3 P3.
  apply wp_bind, wp_freeb; [done|do 2 (eapply ibase_some; [eassumption|]); by eapply ibase_some|]. intros s4 B4 N4 P4.
  apply HQ. eapply ist_base; [exact H|by do 3 (eapply ibase_trans; [eassumption|])|].
  assert (Hh : ffn s4 ifreeh_at = Some (after ifreeh_at F)) by (by rewrite N4, N3, upd_ne, N2, upd_eq).
  split_and!; [intros x Hx; apply Hino; set_solver| |].
  - intros ->. unfold ffn in Hh. rewrite decide_True in Hh by done. injection Hh as Hh. by apply nz_end.
  - intros HF. specialize (P1 HF). eapply (ring_ext (ffn s2) (ffp s2)).
    + intros y Hy. assert (y ≠ ip) by (intros ->; set_solver). by rewrite N4, N3, P4, !upd_ne, P3 by done.
    + eapply (ring_remove _ _ _ _ _ []); [exact Hr| |].
      * intros y. rewrite N2. unfold upd. by rewrite N1.
      * intros y. by rewrite P2, P1.
Qed.
End rules.

(** ** Inodes on the disk *)

Definition ino_ok (ino : Z) : Prop := 0 < ino < 2 ^ 31.
Record wf_dinode (d : dinode) : Prop := WfDinode {
  wd_addr : length (di_addr d) = Z.to_nat NADDR;
  wd_mode : 0 ≤ ic_mode (di_ic1 d) < 2 ^ 16;
  wd_nlink : 0 ≤ ic_nlink (di_ic1 d) < 2 ^ 16
}.

Definition ikey (c : inode) : key := (i_dev c, i_number c).
Definition dnode (V : key → block) (k : key) : dinode := get_dinode (V (k.1, itod k.2)) (itoo k.2).

Section codec.
Implicit Types (d : dinode) (blk : list Z).

Lemma ito_range ino : 0 ≤ itoo ino < 16.
Proof. unfold itoo. apply Z.mod_pos_bound. unfold INOPB. lia. Qed.

Lemma ito_inj a b : ino_ok a → ino_ok b → itod a = itod b → itoo a = itoo b → a = b.
Proof.
  unfold ino_ok, itod, itoo, INOPB. intros Ha Hb. rewrite !u32_id by (unfold is_u32; lia).
  intros. pose proof (Z.div_mod (a + 16 - 1) 16). pose proof (Z.div_mod (b + 16 - 1) 16). lia.
Qed.

Lemma put_length d o blk : wf_dinode d → length blk = 256%nat → 0 ≤ o < 16 → length (put_dinode d o blk) = 256%nat.
Proof. intros [Ha _ _] Hl Ho. unfold put_dinode. rewrite !length_app, length_take, length_drop, Ha, Hl. unfold NADDR. simpl. lia. Qed.

Lemma put_other d o blk j : wf_dinode d → length blk = 256%nat → 0 ≤ o < 16 → (j < Z.to_nat (16 * o) ∨ Z.to_nat (16 * o + 16) <= j)%nat →
  put_dinode d o blk !! j = blk !! j.
Proof.
  intros [Ha _ _] Hl Ho Hj. unfold put_dinode. destruct Hj as [Hj|Hj].
  - rewrite lookup_app_l by (rewrite length_take; lia). by rewrite lookup_take_lt.
  - rewrite lookup_app_r by (rewrite length_take; lia). rewrite length_take, Hl.
    rewrite lookup_app_r by (simpl; lia). rewrite lookup_app_r by (rewrite Ha; unfold NADDR; simpl; lia). rewrite lookup_app_r by (rewrite Ha; unfold NADDR; simpl; lia).
    rewrite lookup_drop, Ha. f_equal. unfold NADDR. simpl. lia.
Qed.

Lemma put_here d o blk k : wf_dinode d → length blk = 256%nat → 0 ≤ o < 16 → (k < 16)%nat →
  put_dinode d o blk !! (Z.to_nat (16 * o) + k)%nat =
  ([Z.lor (ic_mode (di_ic1 d)) (Z.shiftl (ic_nlink (di_ic1 d)) 16); ic_uid (di_ic1 d); ic_gid (di_ic1 d); ic_size (di_ic1 d)] ++ di_addr d ++
   [default 0 (blk !! Z.to_nat (16 * o + 11)); di_flags d; ic_atime (di_ic2 d); ic_mtime (di_ic2 d); ic_ctime (di_ic2 d)]) !! k.
Proof.
  intros [Ha _ _] Hl Ho Hk. unfold put_dinode. rewrite lookup_app_r by (rewrite length_take; lia). rewrite length_take, Hl.
  replace (Z.to_nat (16 * o) + k - Z.to_nat (16 * o) `min` 256)%nat with k by lia. rewrite !app_assoc.
  rewrite lookup_app_l; [done|]. rewrite !length_app, Ha. unfold NADDR. simpl. lia.
Qed.

Lemma mode_word m n : 0 ≤ m < 2 ^ 16 → Z.land (Z.lor m (Z.shiftl n 16)) 65535 = m.
Proof.
  intros Hm. change 65535 with (Z.ones 16). apply Z.bits_inj'. intros k Hk. rewrite Z.land_spec, Z.lor_spec, Z.shiftl_spec by done.
  rewrite Z.testbit_ones_nonneg by lia. destruct (Z.ltb_spec k 16).
  - rewrite (Z.testbit_neg_r n) by lia. by rewrite orb_false_r, andb_true_r.
  - rewrite andb_false_r. symmetry. destruct (decide (m = 0)) as [->|]; [apply Z.bits_0|]. apply Z.bits_above_log2; [lia|]. apply Z.log2_lt_pow2; [lia|].
    eapply Z.lt_le_trans; [apply Hm|]. apply Z.pow_le_mono_r; lia.
Qed.

Lemma nlink_word m n : 0 ≤ m < 2 ^ 16 → 0 ≤ n < 2 ^ 16 → Z.land (Z.shiftr (Z.lor m (Z.shiftl n 16)) 16) 65535 = n.
Proof.
  intros Hm Hn. rewrite Z.shiftr_lor, Z.shiftr_shiftl_l by lia. rewrite Z.shiftr_div_pow2, Z.div_small by lia.
  rewrite Z.lor_0_l. change 65535 with (Z.ones 16). rewrite Z.land_ones by lia. change (16 - 16) with 0. rewrite Z.shiftl_0_r. by apply Z.mod_small.
Qed.

(** What is written at a place is read there, and nothing else changes. *)
Lemma get_put_same d o blk : wf_dinode d → length blk = 256%nat → 0 ≤ o < 16 → get_dinode (put_dinode d o blk) o = d.
Proof.
  intros Hd Hl Ho. unfold get_dinode. assert (Hk : ∀ k, 0 ≤ k < 16 → Z.to_nat (16 * o + k) = (Z.to_nat (16 * o) + Z.to_nat k)%nat) by (intros; lia).
  cbn [fmap list_fmap]. rewrite !Hk by lia. rewrite !(put_here d o blk) by (done || lia). destruct Hd as [Ha Hm Hn].
  destruct d as [[m n u g z] a fl [t1 t2 t3]]. cbn in *. do 8 (destruct a as [|? a]; try done). change (Z.to_nat 0) with 0%nat.
  repeat match goal with |- context [Z.to_nat (Zpos ?p)] => let v := eval vm_compute in (Z.to_nat (Zpos p)) in change (Z.to_nat (Zpos p)) with v end.
  cbn -[Z.land Z.lor Z.shiftl Z.shiftr]. by rewrite mode_word, nlink_word.
Qed.

Lemma get_put_other d o o' blk : wf_dinode d → length blk = 256%nat → 0 ≤ o < 16 → 0 ≤ o' < 16 → o ≠ o' → get_dinode (put_dinode d o blk) o' = get_dinode blk o'.
Proof. intros Hd Hl Ho Ho' Hne. unfold get_dinode. cbn [fmap list_fmap]. rewrite !(put_other d o blk) by (done || lia). done. Qed.

Lemma get_wf blk o : wf_dinode (get_dinode blk o).
Proof.
  split; [done|..]; cbn; change 65535 with (Z.ones 16); rewrite Z.land_ones by lia; apply Z.mod_pos_bound; lia.
Qed.
End codec.

(** ** Symbolic execution on one inode

    The inode at hand has contents [c] over the others [C]. *)

Definition iplain (f : inode → inode) : Prop := ∀ i,
  i_forw (f i) = i_forw i ∧ i_back (f i) = i_back i ∧ i_freef (f i) = i_freef i ∧ i_freeb (f i) = i_freeb i ∧ icont (f i) = f (icont i).

Ltac plain_wr := by (intros ?; split_and!).

Section one.
Implicit Types (s O : ast) (X : option Z) (q : Z → list Z) (F : list Z) (C : Z → option inode).

Lemma cset_eq ip c C : cset ip c C ip = Some c.
Proof. unfold cset. by rewrite decide_True. Qed.

Lemma cset_ne ip c C z : z ≠ ip → cset ip c C z = C z.
Proof. unfold cset. intros. by rewrite decide_False. Qed.

Lemma ist_ext s X q F C C' O : (∀ z, C' z = C z) → ist s X q F C O → ist s X q F C' O.
Proof. intros HC [H1 H2 H3 H4 H5]. split; [done..| |done]. intros z. by rewrite HC. Qed.

Lemma ist_open s X q F C O ip c : C ip = Some c → ist s X q F C O → ist s X q F (cset ip c C) O.
Proof. intros Hc. apply ist_ext. intros z. unfold cset. case_decide; [by subst|done]. Qed.

Lemma wp_irdc s X q F C O ip c (Q : inode → ast → Prop) :
  ist s X q F (cset ip c C) O → (∀ i, inodes s !! ip = Some i → icont i = c → Q i s) → wp (rdi ip) Q s.
Proof. intros H HQ. eapply wp_rdi_ist; [exact H|apply cset_eq|done]. Qed.

Lemma wp_iwrc s X q F C O ip c f (Q : unit → ast → Prop) :
  ist s X q F (cset ip c C) O → iplain f → (∀ s', ist s' X q F (cset ip (f c) C) O → Q tt s') → wp (wri ip f) Q s.
Proof.
  intros H Hf HQ. eapply (wp_wri_ist s X q F (cset ip c C) O ip c (f c)); [exact H|apply cset_eq|..].
  - intros i. destruct (Hf i) as (? & ? & _). done.
  - intros i _. destruct (Hf i) as (_ & _ & ? & ? & _). done.
  - intros i <-. apply Hf.
  - intros s' H'. apply HQ. eapply ist_ext; [|exact H']. intros z. unfold cset. by case_decide.
Qed.

Lemma wp_when_wr s X q F C O ip c f (b : bool) (Q : unit → ast → Prop) :
  ist s X q F (cset ip c C) O → iplain f → (∀ s', ist s' X q F (cset ip (if b then f c else c) C) O → Q tt s') → wp (when b (wri ip f)) Q s.
Proof. intros H Hf HQ. destruct b; [by eapply wp_iwrc|]. by apply wp_ret, HQ. Qed.

Lemma wp_rdfs_ist s X q F C O p f (Q : fs → ast → Prop) : ist s X q F C O → fss O !! p = Some f → Q f s → wp (rdfs p) Q s.
Proof. intros H Hf HQ. eapply wp_load; [|exact HQ]. rewrite <- Hf. by rewrite <- (is_world _ _ _ _ _ _ H). Qed.

(** *** Flags *)

Lemma ihas_and_not g f c : ihas g (iand_not f c) = ihas (Z.land g (Z.lnot f)) c.
Proof. unfold ihas, iand_not. cbn [i_flag set_i_flag]. by rewrite <- Z.land_assoc, (Z.land_comm (Z.lnot f)). Qed.

Lemma ihas_or g f c : ihas g (ior f c) = ihas g c || negb (Z.land f g =? 0).
Proof.
  unfold ihas, ior. cbn [i_flag set_i_flag]. rewrite Z.land_lor_distr_l, <- negb_andb. f_equal.
  destruct (Z.eqb_spec (Z.lor (Z.land (i_flag c) g) (Z.land f g)) 0) as [E|E].
  - apply Z.lor_eq_0_iff in E as [-> ->]. done.
  - symmetry. apply andb_false_iff. rewrite !Z.eqb_neq. destruct (decide (Z.land (i_flag c) g = 0)) as [E1|]; [|by left]. right. intros E2. by rewrite E1, E2 in E.
Qed.

Lemma ihas_lor f g c : ihas (Z.lor f g) c = ihas f c || ihas g c.
Proof.
  unfold ihas. rewrite Z.land_lor_distr_r, <- negb_andb. f_equal. destruct (Z.eqb_spec (Z.lor (Z.land (i_flag c) f) (Z.land (i_flag c) g)) 0) as [E|E].
  - apply Z.lor_eq_0_iff in E as [-> ->]. done.
  - symmetry. apply andb_false_iff. rewrite !Z.eqb_neq. destruct (decide (Z.land (i_flag c) f = 0)) as [E1|]; [|by left]. right. intros E2. by rewrite E1, E2 in E.
Qed.

Lemma ihas_sub f g c : Z.land g f = f → ihas g c = false → ihas f c = false.
Proof.
  unfold ihas. rewrite !negb_false_iff, !Z.eqb_eq. intros <- E. by rewrite Z.land_assoc, E, Z.land_0_l.
Qed.

Lemma ihas_flag f c c' : i_flag c' = i_flag c → ihas f c' = ihas f c.
Proof. unfold ihas. by intros ->. Qed.

(** [IUNLOCK] drops the lock and wakes who waits for it. *)
Definition unlocked (c : inode) : inode := let c := iand_not ILOCKED c in if ihas IWANT c then iand_not IWANT c else c.

Lemma unlocked_same c : to_dinode (unlocked c) = to_dinode c ∧ ikey (unlocked c) = ikey c ∧ i_count (unlocked c) = i_count c ∧ i_fs (unlocked c) = i_fs c.
Proof. unfold unlocked. by destruct (ihas IWANT (iand_not ILOCKED c)). Qed.

Lemma land_lnot_disj f x : Z.land f x = 0 → Z.land f (Z.lnot x) = f.
Proof.
  intros H. apply Z.bits_inj'. intros k Hk. rewrite Z.land_spec, Z.lnot_spec by done. pose proof (f_equal (λ z, Z.testbit z k) H) as E. cbn beta in E.
  rewrite Z.land_spec, Z.bits_0 in E. by destruct (Z.testbit f k), (Z.testbit x k).
Qed.

Lemma unlocked_land f c : Z.land f (Z.lor ILOCKED IWANT) = 0 → Z.land (i_flag (unlocked c)) f = Z.land (i_flag c) f.
Proof.
  intros Hf. assert (H1 : ∀ x, Z.land (Z.lor ILOCKED IWANT) x = x → Z.land f (Z.lnot x) = f).
  { intros x Hx. apply land_lnot_disj. by rewrite <- Hx, Z.land_assoc, Hf, Z.land_0_l. }
  assert (H2 : ∀ x c, Z.land (Z.lor ILOCKED IWANT) x = x → Z.land (i_flag (iand_not x c)) f = Z.land (i_flag c) f).
  { intros x c' Hx. cbn [iand_not i_flag set_i_flag]. by rewrite <- Z.land_assoc, (Z.land_comm (Z.lnot x)), H1. }
  unfold unlocked. destruct (ihas IWANT (iand_not ILOCKED c)); by rewrite !H2.
Qed.

Lemma unlocked_keep f c : Z.land f (Z.lor ILOCKED IWANT) = 0 → ihas f (unlocked c) = ihas f c.
Proof. intros Hf. unfold ihas. by rewrite unlocked_land. Qed.

Lemma unlocked_off c : ihas (Z.lor ILOCKED IWANT) (unlocked c) = false.
Proof.
  unfold unlocked. destruct (ihas IWANT (iand_not ILOCKED c)) eqn:E; rewrite !ihas_and_not.
  - change (Z.land _ _) with 0. unfold ihas. by rewrite Z.land_0_r.
  - rewrite ihas_and_not in E. done.
Qed.

Lemma wp_iunlock s X q F C O ip c (Q : unit → ast → Prop) :
  ist s X q F (cset ip c C) O → (∀ s' w, ist s' X q F (cset ip (unlocked c) C) (set_fwakeups w O) → Q tt s') → wp (iunlock ip) Q s.
Proof.
  intros H HQ. unfold iunlock. apply wp_bind. eapply wp_iwrc; [exact H|plain_wr|]. intros s1 H1.
  apply wp_bind. eapply wp_irdc; [exact H1|]. intros i _ Hi. assert (ihas IWANT i = ihas IWANT (iand_not ILOCKED c)) as -> by (by rewrite <- Hi).
  unfold unlocked in HQ. destruct (ihas IWANT (iand_not ILOCKED c)); cbn [when].
  - apply wp_bind. eapply wp_iwrc; [exact H1|plain_wr|]. intros s2 H2. eapply wp_modify. eapply (HQ _ (fwakeups s2 ++ [ip])).
    destruct H2 as [A1 A2 A3 A4 A5]. split; try done. by rewrite <- A5.
  - apply wp_ret. apply (HQ _ (fwakeups O)). by destruct O.
Qed.

(** *** Times *)

(** The times the flags of [c0] ask for. *)
Definition stamp (now : Z) (c0 c : inode) : inode :=
  let c := if ihas IACC c0 then set_i_atime now c else c in
  let c := if ihas IUPD c0 then set_i_mtime now c else c in
  if ihas ICHG c0 then set_i_ctime now c else c.
Definition STAMPS : Z := Eval vm_compute in Z.lor IUPD (Z.lor IACC ICHG).
Definition itimes (now : Z) (c : inode) : inode :=
  if ihas STAMPS c then iand_not (Z.lor IACC (Z.lor IUPD ICHG)) (stamp now c (ior IMOD c)) else c.

Lemma stamp_same now c0 c : i_flag (stamp now c0 c) = i_flag c ∧ ikey (stamp now c0 c) = ikey c ∧ i_count (stamp now c0 c) = i_count c ∧
  i_fs (stamp now c0 c) = i_fs c ∧ i_ic1 (stamp now c0 c) = i_ic1 c ∧ i_addr (stamp now c0 c) = i_addr c.
Proof. unfold stamp. by destruct (ihas IACC c0), (ihas IUPD c0), (ihas ICHG c0). Qed.

Lemma stamp_none now c0 c : ihas STAMPS c0 = false → stamp now c0 c = c.
Proof.
  intros H. unfold stamp. by rewrite !(ihas_sub _ STAMPS) by done.
Qed.

Lemma wp_ITIMES s X q F C O ip c (Q : unit → ast → Prop) :
  ist s X q F (cset ip c C) O → (∀ s', ist s' X q F (cset ip (itimes (time_sec O) c) C) O → Q tt s') →
  wp (ITIMES ip (time_sec O) (time_sec O)) Q s.
Proof.
  intros H HQ. unfold ITIMES. apply wp_bind. eapply wp_irdc; [exact H|]. intros i _ Hi.
  assert (Hf : ∀ f, ihas f i = ihas f c) by (intros f; by rewrite <- Hi). rewrite !Hf. change (Z.lor IUPD (Z.lor IACC ICHG)) with STAMPS.
  unfold itimes in HQ. destruct (ihas STAMPS c); cbn [when]; [|by apply wp_ret, HQ].
  apply wp_bind. eapply wp_iwrc; [exact H|plain_wr|]. intros s1 H1.
  apply wp_bind. eapply wp_when_wr; [exact H1|plain_wr|]. intros s2 H2.
  apply wp_bind. eapply wp_when_wr; [exact H2|plain_wr|]. intros s3 H3.
  apply wp_bind, wp_gets. assert (time_sec s3 = time_sec O) as -> by (by rewrite <- (is_world _ _ _ _ _ _ H3)).
  apply wp_bind. eapply wp_when_wr; [exact H3|plain_wr|]. intros s4 H4. eapply wp_iwrc; [exact H4|plain_wr|]. exact HQ.
Qed.

(** *** Finding an inode *)

Lemma wp_ichain s X q F C O dev ino h l2 : ∀ l1 fuel (Q : Z → ast → Prop),
  ist s X q F C O → h ∈ iheads → q h = l1 ++ l2 → (length l2 < fuel)%nat →
  (∀ ip c, ip ∈ l2 → C ip = Some c → ikey c = (dev, ino) → Q ip s) →
  ((∀ ip c, ip ∈ l2 → C ip = Some c → ikey c ≠ (dev, ino)) → Q 0 s) →
  wp (ichain fuel (after h l2) h dev ino) Q s.
Proof.
  induction l2 as [|ip l2 IH]; intros l1 fuel Q H Hh Hq Hfu HY HN; (destruct fuel as [|fuel]; [cbn in Hfu; lia|]); cbn [ichain].
  - cbn. rewrite Z.eqb_refl. apply wp_ret, HN. set_solver.
  - change (after h (ip :: l2)) with ip. pose proof (is_chains _ _ _ _ _ _ H) as [HR HE _ HH _ _].
    assert (Hip : is_ino ip) by (apply (HE h); [done|]; rewrite Hq; set_solver).
    assert (Hne : ip ≠ h) by (intros ->; by apply (HH h)). rewrite (proj2 (Z.eqb_neq _ _) Hne).
    destruct (ist_some _ _ _ _ _ _ _ H Hip) as [c Hc]. apply wp_bind. eapply wp_rdi_ist; [exact H|exact Hc|]. intros i Hi Hic.
    assert (ikey i = ikey c) as Hk by (by rewrite <- Hic).
    destruct ((ino =? i_number i) && (dev =? i_dev i)) eqn:E.
    + apply wp_ret, (HY ip c); [by left|done|]. rewrite <- Hk. unfold ikey. apply andb_prop in E as [->%Z.eqb_eq ->%Z.eqb_eq]. done.
    + assert (Hnk : ikey c ≠ (dev, ino)). { rewrite <- Hk. unfold ikey. intros [= E1 E2]. by rewrite E1, E2, !Z.eqb_refl in E. }
      pose proof (HR h Hh) as Hr. rewrite Hq in Hr. destruct (ring_at _ _ _ _ _ _ Hr) as (Hnx & _).
      assert (i_forw i = after h l2) as ->.
      { cbn in Hnx. destruct (ihead s !! ip) eqn:Eh; [|rewrite Hi in Hnx; by injection Hnx].
        exfalso. apply (ihead_ino ip); [|done]. apply (is_heads _ _ _ _ _ _ H). by rewrite Eh. }
      eapply (IH (l1 ++ [ip])); [exact H|done|by rewrite <- app_assoc|cbn in Hfu; lia| |].
      * intros ip' c' Hin. apply HY. by right.
      * intros Hno. apply HN. intros ip' c' [->|Hin]%elem_of_cons Hc'; [|by eapply Hno]. by simplify_eq.
Qed.

Lemma wp_ifind s X q F C O dev ino (Q : Z → ast → Prop) :
  ist s X q F C O →
  (∀ ip c, ip ∈ q (INOHASH dev ino) → C ip = Some c → ikey c = (dev, ino) → Q ip s) →
  ((∀ ip c, ip ∈ q (INOHASH dev ino) → C ip = Some c → ikey c ≠ (dev, ino)) → Q 0 s) →
  wp (ifind dev ino) Q s.
Proof.
  intros H HY HN. pose proof (INOHASH_head dev ino) as Hh. unfold ifind. apply wp_bind.
  pose proof (is_chains _ _ _ _ _ _ H) as [HR _ _ _ _ _]. destruct (ring_around _ _ _ [] _ (HR _ Hh)) as [Hn _].
  eapply wp_load; [exact Hn|]. eapply (wp_ichain s X q F C O dev ino _ (q (INOHASH dev ino)) []); [exact H|done|done| |done|done].
  pose proof (chains_short _ _ _ _ _ _ _ H Hh). unfold ichain_fuel. lia.
Qed.

(** *** Taking an inode *)

Lemma wp_itake s q F1 F2 C O ip c (Q : unit → ast → Prop) :
  ist s None q (if i_count c =? 0 then F1 ++ ip :: F2 else F1 ++ F2) (cset ip c C) O → 0 ≤ i_count c < 2 ^ 32 - 1 →
  (∀ s', ist s' None q (F1 ++ F2) (cset ip (ior ILOCKED (set_i_count (i_count c + 1) c)) C) O → Q tt s') → wp (itake ip) Q s.
Proof.
  intros H Hn HQ. unfold itake. apply wp_bind. eapply wp_irdc; [exact H|]. intros i _ Hi.
  assert (i_count i = i_count c) as -> by (by rewrite <- Hi). apply wp_bind.
  apply (wp_mono _ (λ _ s1, ist s1 None q (F1 ++ F2) (cset ip c C) O)).
  { destruct (i_count c =? 0); cbn [when]; [|by apply wp_ret]. eapply wp_ifree_remove; [exact H|done]. }
  intros _ s1 H1. apply wp_bind. eapply wp_iwrc; [exact H1|plain_wr|]. intros s2 H2. eapply wp_iwrc; [exact H2|plain_wr|]. intros s3 H3.
  apply HQ. by rewrite u32_id in H3 by (unfold is_u32; lia).
Qed.

(** *** Identifiers *)

Definition nch_full (n : nst) : Prop := ∀ j, 0 ≤ j < NNAMECACHE → is_Some (ncs n !! namecache_at j).

Lemma wp_cinvalall_loop k : ∀ j n (Q : unit → nst → Prop),
  nch_full n → 0 ≤ j → j + Z.of_nat k ≤ NNAMECACHE → (∀ n', nch_full n' → Q tt n') → wp (cinvalall_loop k (namecache_at j)) Q n.
Proof.
  induction k as [|k IH]; intros j n Q Hn Hj Hk HQ; cbn [cinvalall_loop]; [by apply wp_ret, HQ|].
  destruct (Hn j ltac:(lia)) as [e He]. apply wp_bind. eapply wp_store; [rewrite He; reflexivity|].
  replace (namecache_at j + 1) with (namecache_at (j + 1)) by (unfold namecache_at; lia). apply IH; [|lia|lia|done].
  intros j' Hj'. cbn. rewrite lookup_replace. case_decide; [eauto|by apply Hn].
Qed.

Lemma wp_cacheinval s X q F C O ip c (Q : unit → ast → Prop) :
  ist s X q F (cset ip c C) O → nch_full (nch O) →
  (∀ s' n m, ist s' X q F (cset ip (set_i_id n c) C) (set_nch m (set_nextinodeid n O)) → nch_full m → Q tt s') → wp (cacheinval ip) Q s.
Proof.
  intros H Hn HQ. unfold cacheinval. apply wp_bind, wp_gets.
  apply wp_bind. eapply wp_modify_ist; [exact H|done|]. intros s1 H1. apply wp_bind. eapply wp_iwrc; [exact H1|plain_wr|]. intros s2 H2.
  apply wp_when; intros _; [|by eapply (HQ _ _ (nch O)); [destruct O; exact H2|]].
  pose proof (wp_cinvalall_loop (Z.to_nat NNAMECACHE) 0 (nch O) (λ _ n', nch_full n') Hn ltac:(lia) ltac:(unfold NNAMECACHE; lia) ltac:(done)) as Hw.
  assert (En : nch s2 = nch O) by exact (f_equal nch (is_world _ _ _ _ _ _ H2)).
  apply wp_run in Hw as ([] & n' & Hr & Hn'). apply wp_run. exists tt, (set_nch n' s2). unfold nop. rewrite En. unfold cinvalall. rewrite Hr.
  split; [done|]. eapply HQ; [|exact Hn']. destruct H2 as [A1 A2 A3 A4 A5]. split; try done. by rewrite <- A5.
Qed.
End one.
End InodeRules.
