(* ===== verification/InodeSpec.v ===== *)
(** * The inode table is a cache of the inodes on the disk

    Specifications of the operations of the table over any block driver.  The
    last theorem runs any script of references, changes and releases: the table
    behaves as a map from files to inodes that serves every request until 24
    files are in use. *)

From S2P Require Import Prelude Links Que NameCache Bio Cache CacheIO CacheSpec Alloc Bmap Inode InodeRules.
Import NameCache Bio Cache CacheIO CacheSpec Alloc Bmap Inode InodeRules.

Module InodeSpec.
#[local] Set Default Proof Using "Type".

Section spec.
Context (fsleep : Z → Z → A unit) (sleep : Z → Z → M bst unit) (strategy : Z → M bst unit) (is_tape : Z → bool) (lbolt : Z).
Context {phys : key → key} {good : key → Prop} `{!Driver strategy phys good}.
Implicit Types (V : key → block) (s O : ast) (X : option Z) (q : Z → list Z) (F : list Z) (C : Z → option inode).
Notation cache := (cache (phys := phys) (good := good)).
Notation enough fuel := (Z.to_nat NBUF + 2 <= fuel)%nat.

(** Reading the block of an inode. *)
Lemma wp_read_ist {Y} V s X q F C O dev blk fuel (E K : Z → A Y) (Q : Y → ast → Prop) :
  ist s X q F C O → cache V ∅ (bs O) → good (dev, blk) → dev ≠ NODEV → enough fuel →
  (∀ bp s' b', ist s' X q F C (set_bs b' O) → cache V {[bp := ((dev, blk), V (dev, blk))]} b' → u_error b' = u_error (bs O) → wp (K bp) Q s') →
  wp (bp ← bio (bread sleep strategy fuel dev blk); b ← bio (rdb bp); if has B_ERROR b then E bp else K bp) Q s.
Proof using Driver0.
  intros H Hca Hg Hdev Hfu HQ. assert (Hsz : (size (∅ : gmap Z (key * block)) < Z.to_nat NBUF)%nat) by (rewrite map_size_empty; unfold NBUF; lia).
  apply wp_bind. eapply wp_bio_ist; [exact H|]. eapply (wp_bread sleep strategy V ∅); [done|done|done|by intros|exact Hsz|done|].
  intros bp b1 Hca1 _ U1 s1 H1 E1. destruct (cache_held _ _ _ _ _ _ Hca1 (lookup_insert_eq _ _ _)) as (Hb & _ & c & Hc & _ & _ & _ & Hodd & _).
  apply wp_bind. eapply wp_bio_ist; [exact H1|]. eapply wp_rd_ct; [exact Hc|]. intros b Eb _ _ s2 H2 E2.
  assert (has B_ERROR b = false) as -> by (rewrite (has_ct _ _ _ Eb); by apply (has_sub _ B_ODD)). eapply HQ; [exact H2|done|done].
Qed.

Lemma wp_wr_data_ist V H s X q F C O bp k v g (Q : unit → ast → Prop) :
  ist s X q F C O → cache V H (bs O) → H !! bp = Some (k, v) →
  (∀ s' b', ist s' X q F C (set_bs b' O) → cache V (<[bp := (k, g v)]> H) b' → u_error b' = u_error (bs O) → Q tt s') → wp (wr_data bp g) Q s.
Proof using Driver0.
  intros Hi Hca HHb HQ. eapply wp_bio_ist; [exact Hi|]. destruct (cache_held _ _ _ _ _ _ Hca HHb) as (_ & _ & c & Hc & _ & Hd & _).
  apply wp_bind. eapply wp_rd_ct; [exact Hc|]. intros b Eb _ _. assert (Ea : b_addr b = b_addr c) by (by rewrite <- Eb).
  eapply wp_store; [rewrite Ea, Hd; reflexivity|]. intros s' Hi' Eb'. eapply HQ; [exact Hi'| |done]. by eapply (cache_store strategy).
Qed.

Lemma wp_rd_data_ist V H s X q F C O bp k v (Q : list Z → ast → Prop) :
  ist s X q F C O → cache V H (bs O) → H !! bp = Some (k, v) → (∀ s', ist s' X q F C O → Q v s') → wp (rd_data bp) Q s.
Proof using Driver0.
  intros Hi Hca HHb HQ. eapply wp_bio_ist; [exact Hi|]. destruct (cache_held _ _ _ _ _ _ Hca HHb) as (_ & _ & c & Hc & _ & Hd & _).
  apply wp_bind. eapply wp_rd_ct; [exact Hc|]. intros b Eb _ _. eapply wp_load; [rewrite <- Hd; by rewrite <- Eb|]. intros s' Hi' _. apply HQ. by destruct O.
Qed.

Lemma wp_release_ist V s X q F C O bp k (Q : unit → ast → Prop) :
  ist s X q F C O → cache V {[bp := (k, V k)]} (bs O) →
  (∀ s' b', ist s' X q F C (set_bs b' O) → cache V ∅ b' → u_error b' = u_error (bs O) → Q tt s') → wp (bio (brelse bp)) Q s.
Proof using Driver0.
  intros H Hca HQ. eapply wp_bio_ist; [exact H|]. pose proof Hca as [Hi Ha].
  eapply (wp_brelse_done strategy V _ (bs O)); [exact Hi|apply lookup_insert_eq|done|done|eauto| |].
  { intros c Hc. destruct (cache_held _ _ _ _ _ _ Hca (lookup_insert_eq _ _ _)) as (Hb & _). by apply (Ha bp c). }
  intros b1 Hca1 U1 _ _ s1 H1 _. rewrite delete_singleton_eq in Hca1. by eapply HQ.
Qed.

Lemma wp_write_ist V s X q F C O bp k v fuel (sync : bool) (Q : unit → ast → Prop) :
  ist s X q F C O → cache V {[bp := (k, v)]} (bs O) → (1 <= fuel)%nat →
  (∀ s' b', ist s' X q F C (set_bs b' O) → cache (vset V k v) ∅ b' → u_error b' = u_error (bs O) → Q tt s') →
  wp (if sync then bio (bwrite sleep strategy fuel bp) else bio (bdwrite sleep strategy is_tape fuel bp)) Q s.
Proof using Driver0.
  intros H Hca Hf HQ. destruct sync; (eapply wp_bio_ist; [exact H|]).
  - destruct fuel as [|fuel]; [lia|]. eapply (wp_bwrite sleep strategy V); [exact Hca|apply lookup_insert_eq|]. intros b' Hca' U' s' H' _.
    rewrite delete_singleton_eq in Hca'. by eapply HQ.
  - eapply (wp_bdwrite sleep strategy is_tape V); [exact Hca|apply lookup_insert_eq|]. intros b' Hca' U' s' H' _. rewrite delete_singleton_eq in Hca'. by eapply HQ.
Qed.

(** ** Writing an inode back *)

(** The inode as [iupdat] leaves it, and the disk. *)
Definition synced (now : Z) (c : inode) : inode := iand_not DIRTY (stamp now c c).
Definition vput V (c : inode) : key → block :=
  let k := (i_dev c, itod (i_number c)) in vset V k (put_dinode (to_dinode c) (itoo (i_number c)) (V k)).

Lemma wp_iupdat V s X q F C O ip c f w fuel (Q : unit → ast → Prop) :
  ist s X q F (cset ip c C) O → cache V ∅ (bs O) → good (i_dev c, itod (i_number c)) → i_dev c ≠ NODEV → fss O !! i_fs c = Some f → fs_ronly f = 0 →
  ihas DIRTY c = true → enough fuel →
  (∀ s' b', ist s' X q F (cset ip (synced (time_sec O) c) C) (set_bs b' O) → cache (vput V (synced (time_sec O) c)) ∅ b' → u_error b' = u_error (bs O) → Q tt s') →
  wp (iupdat sleep strategy is_tape fuel ip (time_sec O) (time_sec O) w) Q s.
Proof using Driver0.
  intros H Hca Hg Hdev Hf Hro Hd Hfu HQ. unfold iupdat. apply wp_bind. eapply wp_irdc; [exact H|]. intros i _ Hi.
  assert (Hfl : ∀ f, ihas f i = ihas f c) by (intros; by rewrite <- Hi). rewrite Hfl, Hd. cbn [negb].
  assert (i_fs i = i_fs c ∧ i_dev i = i_dev c ∧ i_number i = i_number c) as (-> & -> & ->) by (by rewrite <- Hi).
  apply wp_bind. eapply wp_rdfs_ist; [exact H|exact Hf|]. rewrite Hro. cbn [negb Z.eqb].
  eapply wp_read_ist; [exact H|exact Hca|exact Hg|exact Hdev|exact Hfu|]. intros bp s1 b1 H1 Hca1 U1.
  apply wp_bind. eapply wp_irdc; [exact H1|]. intros i1 _ Hi1. assert (Hfl1 : ∀ f, ihas f i1 = ihas f c) by (intros; by rewrite <- Hi1). rewrite !Hfl1.
  apply wp_bind. eapply wp_when_wr; [exact H1|plain_wr|]. intros s2 H2.
  apply wp_bind. eapply wp_when_wr; [exact H2|plain_wr|]. intros s3 H3.
  apply wp_bind, wp_gets. assert (time_sec s3 = time_sec O) as -> by (by rewrite <- (world_time s3), (is_world _ _ _ _ _ _ H3)).
  apply wp_bind. eapply wp_when_wr; [exact H3|plain_wr|]. intros s4 H4.
  apply wp_bind. eapply wp_iwrc; [exact H4|plain_wr|]. intros s5 H5. fold (stamp (time_sec O) c c) in H5.
  change (iand_not DIRTY _) with (synced (time_sec O) c) in H5.
  destruct (stamp_same (time_sec O) c c) as (_ & Hk & _ & Hfs & _). injection Hk as Hk1 Hk2.
  apply wp_bind. eapply wp_irdc; [exact H5|]. intros i5 _ Hi5.
  assert (to_dinode i5 = to_dinode (synced (time_sec O) c)) as -> by (by rewrite <- Hi5).
  assert (i_number i5 = i_number c) as ->. { rewrite <- Hk2. change (i_number i5) with (i_number (icont i5)). by rewrite Hi5. }
  apply wp_bind. eapply wp_wr_data_ist; [exact H5|exact Hca1|apply lookup_insert_eq|]. intros s6 b6 H6 Hca6 U6. rewrite insert_singleton_eq in Hca6.
  apply wp_bind. eapply wp_rdfs_ist; [exact H6| |].
  { assert (i_fs i5 = i_fs c) as ->; [|exact Hf]. rewrite <- Hfs. change (i_fs i5) with (i_fs (icont i5)). by rewrite Hi5. }
  eapply wp_write_ist; [exact H6|exact Hca6|lia|]. intros s7 b7 H7 Hca7 U7. eapply HQ; [exact H7| |cbn in *; congruence].
  unfold vput. change (i_dev (synced (time_sec O) c)) with (i_dev (stamp (time_sec O) c c)).
  change (i_number (synced (time_sec O) c)) with (i_number (stamp (time_sec O) c c)). by rewrite Hk1, Hk2.
Qed.

(** ** Releasing an inode *)

(** The last reference to a file that still has a name. *)
Lemma wp_irele_last V s q F C O ip c f fuel (Q : unit → ast → Prop) :
  ist s None q F (cset ip c C) O → is_ino ip → ip ∉ F → cache V ∅ (bs O) → good (i_dev c, itod (i_number c)) → i_dev c ≠ NODEV →
  fss O !! i_fs c = Some f → fs_ronly f = 0 → i_count c = 1 → 0 < i_nlink c → enough fuel →
  (∀ s' b' w c', let cs := stamp (time_sec O) c c in
     ist s' None q (F ++ [ip]) (cset ip c' C) (set_fwakeups w (set_bs b' O)) → cache (if ihas DIRTY c then vput V cs else V) ∅ b' → u_error b' = u_error (bs O) →
     to_dinode c' = to_dinode cs → ikey c' = ikey c → i_fs c' = i_fs c → i_flag c' = 0 → i_count c' = 0 → Q tt s') →
  wp (irele fsleep sleep strategy is_tape lbolt fuel ip) Q s.
Proof using Driver0.
  intros H Hip HF Hca Hg Hdev Hf Hro Hn Hl Hfu HQ. set (c1 := ior ILOCKED c). set (cs := stamp (time_sec O) c c).
  destruct (stamp_same (time_sec O) c c) as (Hsf & Hsk & Hsc & Hsfs & _). fold cs in Hsf, Hsk, Hsc, Hsfs.
  unfold irele. apply wp_bind. eapply wp_irdc; [exact H|]. intros i _ Hi.
  assert (i_count i = 1) as -> by (rewrite <- Hn; change (i_count i) with (i_count (icont i)); by rewrite Hi). cbn [Z.eqb Pos.eqb].
  apply wp_bind. apply wp_bind. eapply wp_iwrc; [exact H|plain_wr|]. intros s1 H1. fold c1 in H1.
  apply wp_bind. eapply wp_irdc; [exact H1|]. intros i1 _ Hi1.
  assert (i_nlink i1 = i_nlink c) as -> by (change (i_nlink i1) with (i_nlink (icont i1)); by rewrite Hi1).
  rewrite (proj2 (Z.leb_gt _ _)) by done. apply wp_bind, wp_ret. cbn [when]. apply wp_bind, wp_ret.
  apply wp_bind. eapply wp_irdc; [exact H1|]. intros i1' _ Hi1'. apply wp_bind, wp_gets.
  assert (time_sec s1 = time_sec O) as -> by (by rewrite <- (world_time s1), (is_world _ _ _ _ _ _ H1)).
  assert (ihas DIRTY i1' = ihas DIRTY c) as ->.
  { change (ihas DIRTY i1') with (ihas DIRTY (icont i1')). rewrite Hi1'. unfold c1. rewrite ihas_or. by rewrite orb_false_r. }
  apply wp_bind. apply (wp_mono _ (λ _ s2, ∃ c2 b2, ist s2 None q F (cset ip c2 C) (set_bs b2 O) ∧ cache (if ihas DIRTY c then vput V cs else V) ∅ b2 ∧
    u_error b2 = u_error (bs O) ∧ to_dinode c2 = to_dinode cs ∧ ikey c2 = ikey c ∧ i_fs c2 = i_fs c ∧ i_count c2 = 1)).
  { destruct (ihas DIRTY c) eqn:Ed; cbn [when].
    - assert (Est : ∀ f, Z.land ILOCKED f = 0 → ihas f c1 = ihas f c) by (intros g Hg'; unfold c1; by rewrite ihas_or, Hg', orb_false_r).
      assert (Hcs : to_dinode (synced (time_sec O) c1) = to_dinode cs).
      { unfold synced, cs, stamp. rewrite !Est by done. by destruct (ihas IACC c), (ihas IUPD c), (ihas ICHG c). }
      destruct (stamp_same (time_sec O) c1 c1) as (_ & Hk' & Hc' & Hf' & _).
      eapply (wp_iupdat V s1 None q F C O ip c1 f); [exact H1|done|done|done|done|done|by rewrite Est|done|]. intros s2 b2 H2 Hca2 U2.
      exists (synced (time_sec O) c1), b2. split_and!; [done| |done|done|exact Hk'|exact Hf'|rewrite <- Hn; exact Hc'].
      assert (vput V cs = vput V (synced (time_sec O) c1)) as ->; [|done]. unfold vput. rewrite Hcs.
      change (i_dev cs) with (ikey cs).1. change (i_number cs) with (ikey cs).2. rewrite Hsk.
      change (i_dev (synced (time_sec O) c1)) with (ikey (stamp (time_sec O) c1 c1)).1. change (i_number (synced (time_sec O) c1)) with (ikey (stamp (time_sec O) c1 c1)).2.
      by rewrite Hk'.
    - apply wp_ret. exists c1, (bs O). split_and!; try done.
      + by destruct O.
      + unfold cs. rewrite stamp_none; [done|]. by apply (ihas_sub _ DIRTY). }
  intros _ s2 (c2 & b2 & H2 & Hca2 & U2 & D2 & K2 & F2 & N2).
  apply wp_bind. eapply wp_iunlock; [exact H2|]. intros s3 w H3. destruct (unlocked_same c2) as (D3 & K3 & N3 & F3).
  apply wp_bind. eapply wp_iwrc; [exact H3|plain_wr|]. intros s4 H4.
  eapply wp_ifree_append; [exact H4|done|by rewrite cset_eq|done|]. intros s5 H5.
  eapply wp_iwrc; [exact H5|plain_wr|]. intros s6 H6. eapply HQ; [exact H6|exact Hca2|done|..].
  - change (to_dinode (unlocked c2) = to_dinode cs). congruence.
  - change (ikey (unlocked c2) = ikey c). congruence.
  - change (i_fs (unlocked c2) = i_fs c). congruence.
  - done.
  - change (u32 (i_count (unlocked c2) - 1) = 0). by rewrite N3, N2.
Qed.

(** One of several references. *)
Lemma wp_irele_more s q F C O ip c n fuel (Q : unit → ast → Prop) :
  ist s None q F (cset ip c C) O → i_count c = n → 1 < n < 2 ^ 32 → ihas ILOCKED c = false →
  (∀ s', ist s' None q F (cset ip (set_i_count (n - 1) (itimes (time_sec O) c)) C) O → Q tt s') →
  wp (irele fsleep sleep strategy is_tape lbolt fuel ip) Q s.
Proof.
  intros H Hn Hr Hl HQ. unfold irele. apply wp_bind. eapply wp_irdc; [exact H|]. intros i _ Hi.
  assert (i_count i = n) as -> by (rewrite <- Hn; change (i_count i) with (i_count (icont i)); by rewrite Hi).
  assert (ihas ILOCKED i = false) as -> by (rewrite <- Hl; change (ihas ILOCKED i) with (ihas ILOCKED (icont i)); by rewrite Hi).
  rewrite (proj2 (Z.eqb_neq n 1)) by lia. cbn [negb when]. apply wp_bind. apply wp_bind, wp_gets.
  assert (time_sec s = time_sec O) as -> by (by rewrite <- (world_time s), (is_world _ _ _ _ _ _ H)).
  eapply wp_ITIMES; [exact H|]. intros s1 H1.
  assert (Hc1 : i_count (itimes (time_sec O) c) = n).
  { rewrite <- Hn. unfold itimes. destruct (ihas STAMPS c); [|done]. apply (stamp_same _ c (ior IMOD c)). }
  eapply wp_iwrc; [exact H1|plain_wr|]. intros s2 H2. apply HQ. by rewrite Hc1, u32_id in H2 by (unfold is_u32; lia).
Qed.

(** ** A file that is not in core *)

Lemma wp_iget_full s q C O dev fsp ino fuel (Q : Z → ast → Prop) :
  ist s None q [] C O →
  (∀ s', let O' := set_bs (set_u_error ENFILE (bs O)) (set_console (console O ++ ["inode: table full"%string]) O) in ist s' None q [] C O' → Q 0 s') →
  wp (iget_new fsleep sleep strategy is_tape lbolt fuel dev fsp ino) Q s.
Proof.
  clear Driver0 good phys. intros H HQ. unfold iget_new. apply wp_bind, wp_gets. pose proof (is_free _ _ _ _ _ _ H) as (_ & Hf & _). rewrite Hf by done. cbn [Z.eqb].
  apply wp_bind. eapply wp_modify_ist; [exact H|done|]. intros s1 H1. apply wp_bind. eapply wp_bio_ist; [exact H1|].
  apply wp_modify. intros s2 H2 _. by apply wp_ret, HQ.
Qed.

(** The inode loaded for file ([dev], [ino]). *)
Definition loaded V (c0 : inode) (dev fsp ino n : Z) : inode :=
  of_dinode (dnode V (dev, ino))
    (set_i_count 1 (set_i_flag ILOCKED (set_i_id n (set_i_number ino (set_i_fs fsp (set_i_dev dev c0)))))).

Lemma without_notin e q h : e ∉ without e q h.
Proof. clear. rewrite without_in. tauto. Qed.

Lemma wp_iget_load V s q ip F C c0 O dev fsp ino fuel (Q : Z → ast → Prop) :
  ist s None q (ip :: F) C O → C ip = Some c0 → i_count c0 = 0 → cache V ∅ (bs O) → good (dev, itod ino) → dev ≠ NODEV → nch_full (nch O) → enough fuel →
  (∀ s' b' n m, ist s' None (front ip (INOHASH dev ino) (without ip q)) F (cset ip (loaded V c0 dev fsp ino n) C) (set_bs b' (set_nch m (set_nextinodeid n O))) →
     cache V ∅ b' → nch_full m → u_error b' = u_error (bs O) → Q ip s') →
  wp (iget_new fsleep sleep strategy is_tape lbolt fuel dev fsp ino) Q s.
Proof using Driver0.
  intros H Hc Hn Hca Hg Hdev Hnf Hfu HQ. pose proof (is_free _ _ _ _ _ _ H) as (Hino & _ & Hr). specialize (Hr ltac:(done)).
  assert (Hip : is_ino ip) by (apply Hino; by left). destruct (ino_not_slot _ Hip) as [Hsl H0].
  assert (HipF : ip ∉ F) by (destruct Hr as [_ Hnd]; apply NoDup_cons in Hnd as [_ Hnd]; by apply NoDup_cons in Hnd as [? _]).
  unfold iget_new. apply wp_bind, wp_gets.
  assert (ifreeh s = ip) as ->. { destruct Hr as [[Hnx _] _]. unfold ffn in Hnx. rewrite decide_True in Hnx by done. injection Hnx as Hnx. by apply (nz_ino _ _ Hip). }
  rewrite (proj2 (Z.eqb_neq _ _) H0). apply wp_bind. eapply wp_rdi_ist; [exact H|exact Hc|]. intros i Hi Hic.
  assert (i_count i = 0) as -> by (rewrite <- Hn, <- Hic; done). cbn [negb Z.eqb].
  eapply wp_ifree_pop; [exact H|exact Hi|]. intros s1 H1. apply (ist_open _ _ _ _ _ _ _ _ Hc) in H1.
  apply wp_bind. eapply wp_remque_ist; [exact H1|done|]. intros s2 H2.
  apply wp_bind. eapply wp_insque_ist; [exact H2|done|apply INOHASH_head|intros; apply without_notin|]. intros s3 H3.
  apply wp_bind. eapply wp_iwrc; [exact H3|plain_wr|]. intros s4 H4. apply wp_bind. eapply wp_iwrc; [exact H4|plain_wr|]. intros s5 H5.
  apply wp_bind. eapply wp_iwrc; [exact H5|plain_wr|]. intros s6 H6. apply wp_bind. eapply wp_cacheinval; [exact H6|done|]. intros s7 n m H7 Hm.
  apply wp_bind. eapply wp_iwrc; [exact H7|plain_wr|]. intros s8 H8. apply wp_bind. eapply wp_iwrc; [exact H8|plain_wr|]. intros s9 H9.
  apply wp_bind. eapply (wp_wri_ist _ _ _ _ (cset ip _ C)); [exact H9|apply cset_eq|done|done|intros j Hj; exact Hj|]. intros s10 H10.
  apply (ist_ext _ _ _ _ _ (cset ip (set_i_count 1 (set_i_flag ILOCKED (set_i_id n (set_i_number ino (set_i_fs fsp (set_i_dev dev c0)))))) C)) in H10; cycle 1.
  { intros z. unfold cset. case_decide; [|done]. cbn. by rewrite Hn. }
  eapply (wp_read_ist V); [exact H10|exact Hca|exact Hg|exact Hdev|exact Hfu|]. intros bp s11 b' H11 Hca11 U11.
  apply wp_bind. eapply wp_rd_data_ist; [exact H11|exact Hca11|apply lookup_insert_eq|]. intros s12 H12.
  apply wp_bind. eapply wp_iwrc; [exact H12|plain_wr|]. intros s13 H13.
  apply wp_bind. eapply (wp_release_ist V); [exact H13|exact Hca11|]. intros s14 b'' H14 Hca14 U14. apply wp_ret.
  eapply HQ; [exact H14|exact Hca14|exact Hm|]. cbn in *. congruence.
Qed.
End spec.

(** ** The table and the files

    [L k] is the inode of file [k] as its users see it, [R] the number of
    references to the files in use, [P k] the times that are to be updated.
    The superblocks [FS] and the place [fsof dev] of the one of a device stay. *)

Section table.
Context (good : key → Prop) (FS : gmap Z fs) (fsof : Z → Z).
Implicit Types (V : key → block) (q : Z → list Z) (F : list Z) (C : Z → option inode) (k : key) (c : inode).
Implicit Types (L : key → dinode) (R : gmap key Z) (P : key → Z).

Definition ihash (k : key) : Z := INOHASH k.1 k.2.
(** A file of a writable file system. *)
Definition kok (k : key) : Prop := good (k.1, itod k.2) ∧ k.1 ≠ NODEV ∧ ino_ok k.2 ∧ ∃ f, FS !! fsof k.1 = Some f ∧ fs_ronly f = 0.

Definition present q C k (ip : Z) c : Prop := ip ∈ q (ihash k) ∧ C ip = Some c ∧ ikey c = k.
Definition refs R k : Z := default 0 (R !! k).

Record file_ok V L R P k c : Prop := FileOk {
  fk_ok : kok k;
  fk_node : to_dinode c = L k;
  fk_refs : i_count c = refs R k;
  fk_pend : Z.land (i_flag c) STAMPS = P k;
  fk_clean : ihas DIRTY c = false → L k = dnode V k;
  fk_idle : i_count c = 0 → i_flag c = 0;
  fk_fs : i_fs c = fsof k.1;
  fk_wf : wf_dinode (L k);
  fk_open : ihas (Z.lor ILOCKED IMOUNT) c = false
}.

Record itab V q F C L R P : Prop := Itab {
  tb_len : ∀ k, kok k → length (V (k.1, itod k.2)) = 256%nat;
  tb_uniq : ∀ k ip ip' c c', present q C k ip c → present q C k ip' c' → ip = ip';
  tb_key : ∀ h ip c, h ∈ iheads → ip ∈ q h → C ip = Some c → h = ihash (ikey c);
  tb_free : ∀ ip c, is_ino ip → C ip = Some c → ip ∈ F ↔ i_count c = 0;
  tb_used : ∀ ip c, is_ino ip → C ip = Some c → i_count c ≠ 0 → ip ∈ q (ihash (ikey c));
  tb_file : ∀ k ip c, present q C k ip c → file_ok V L R P k c;
  tb_absent : ∀ k, kok k → (∀ ip c, ¬ present q C k ip c) → R !! k = None ∧ L k = dnode V k ∧ P k = 0;
  tb_refs : ∀ k n, R !! k = Some n → kok k ∧ 0 < n
}.

Lemma ihash_head k : ihash k ∈ iheads.
Proof. apply INOHASH_head. Qed.

Lemma refs_zero V q F C L R P k : itab V q F C L R P → refs R k = 0 ↔ R !! k = None.
Proof. intros H. unfold refs. destruct (R !! k) as [n|] eqn:E; [|done]. apply (tb_refs _ _ _ _ _ _ _ H) in E as [_ E]. cbn. split; [lia|done]. Qed.

(** The disk after an inode was written. *)
Lemma dnode_vput V c k : ino_ok (i_number c) → kok k → length (V (i_dev c, itod (i_number c))) = 256%nat → wf_dinode (to_dinode c) →
  dnode (vput V c) k = if decide (k = ikey c) then to_dinode c else dnode V k.
Proof.
  intros Hi Hk Hl Hw. unfold dnode, vput, vset. case_decide as E; cycle 1.
  { rewrite decide_False; [done|]. intros ->. by apply E. }
  injection E as E1 E2. rewrite E1, E2. destruct (decide (k = ikey c)) as [->|Hne].
  - by apply get_put_same; [..|apply ito_range].
  - apply get_put_other; [done|done|apply ito_range|apply ito_range|]. intros E3. apply Hne. unfold ikey. destruct k as [d i]. cbn in *.
    f_equal; [done|]. destruct Hk as (_ & _ & Hk & _). symmetry. by apply ito_inj.
Qed.

Lemma vput_len V c k : length (V k) = 256%nat → length (V (i_dev c, itod (i_number c))) = 256%nat → wf_dinode (to_dinode c) → length (vput V c k) = 256%nat.
Proof. intros Hk Hl Hw. unfold vput, vset. case_decide; [|done]. apply put_length; [done|done|apply ito_range]. Qed.

(** A file in core changes. *)
Lemma itab_touch V V' q F F' C L L' R R' P P' k ip c c' :
  itab V q F C L R P → present q C k ip c → ikey c' = k → file_ok V' L' R' P' k c' →
  (∀ k', kok k' → length (V' (k'.1, itod k'.2)) = 256%nat) → (∀ k', kok k' → k' ≠ k → dnode V' k' = dnode V k') →
  (∀ ip', ip' ≠ ip → ip' ∈ F' ↔ ip' ∈ F) → (ip ∈ F' ↔ i_count c' = 0) →
  (∀ k', k' ≠ k → L' k' = L k' ∧ R' !! k' = R !! k' ∧ P' k' = P k') → (∀ n, R' !! k = Some n → 0 < n) →
  itab V' q F' (cset ip c' C) L' R' P'.
Proof.
  intros HT Hp Hk Hf Hl HV HF HFi HLR HR. destruct Hp as (Hin & Hc & Hck).
  assert (Hpr : ∀ k1 ip1 c1, present q (cset ip c' C) k1 ip1 c1 → (ip1 = ip ∧ k1 = k ∧ c1 = c') ∨ (ip1 ≠ ip ∧ k1 ≠ k ∧ present q C k1 ip1 c1)).
  { intros k1 ip1 c1 (A1 & A2 & A3). unfold cset in A2. case_decide as E; [left; injection A2 as <-; split_and!; congruence|right]. split_and!; [done| |by split_and!].
    intros ->. apply E. eapply (tb_uniq _ _ _ _ _ _ _ HT k); by split_and!. }
  split.
  - done.
  - intros k1 i1 i2 c1 c2 H1 H2. apply Hpr in H1 as [(? & ? & ?)|(? & ? & H1)], H2 as [(? & ? & ?)|(? & ? & H2)]; try congruence.
    by eapply (tb_uniq _ _ _ _ _ _ _ HT k1).
  - intros h ip1 c1 Hh Hi1. unfold cset. case_decide; [|by apply (tb_key _ _ _ _ _ _ _ HT)]. intros [= <-]. subst ip1. rewrite Hk, <- Hck. by apply (tb_key _ _ _ _ _ _ _ HT _ ip).
  - intros ip1 c1 Hi1. unfold cset. case_decide as E; [intros [= <-]; by subst|]. intros Hc1. rewrite HF by done. by apply (tb_free _ _ _ _ _ _ _ HT).
  - intros ip1 c1 Hi1. unfold cset. case_decide as E; [intros [= <-] _; subst ip1; by rewrite Hk|]. by apply (tb_used _ _ _ _ _ _ _ HT).
  - intros k1 ip1 c1 [(-> & -> & ->)|(Hne & Hkn & H1)]%Hpr; [done|]. apply (tb_file _ _ _ _ _ _ _ HT) in H1 as [B1 B2 B3 B4 B5 B6 B7 B8 B9].
    destruct (HLR k1 Hkn) as (E1 & E2 & E3). split; unfold refs in *; rewrite ?E1, ?E2, ?E3, ?HV by done; done.
  - intros k1 Hk1 Hno. assert (Hne : k1 ≠ k). { intros ->. apply (Hno ip c'). split_and!; [done|by rewrite cset_eq|done]. }
    destruct (HLR k1 Hne) as (E1 & E2 & E3). rewrite E1, E2, E3, HV by done. apply (tb_absent _ _ _ _ _ _ _ HT); [done|]. intros ip1 c1 (A1 & A2 & A3).
    apply (Hno ip1 c1). split_and!; [done| |done]. rewrite cset_ne; [done|]. intros ->. simplify_eq.
  - intros k1 n Hn. destruct (decide (k1 = k)) as [->|Hne]; [split; [apply Hf|by apply HR]|]. destruct (HLR k1 Hne) as (_ & E & _). rewrite E in Hn. by apply (tb_refs _ _ _ _ _ _ _ HT).
Qed.

(** A file comes into core in place of one that nobody uses. *)
Lemma itab_load V q ip F C L R P k c0 c' :
  itab V q (ip :: F) C L R P → is_ino ip → ip ∉ F → C ip = Some c0 → kok k → (∀ ip' c, ¬ present q C k ip' c) → ikey c' = k → i_count c' = 1 →
  file_ok V L (<[k := 1]> R) P k c' → itab V (front ip (ihash k) (without ip q)) F (cset ip c' C) L (<[k := 1]> R) P.
Proof.
  intros HT Hip HF Hc0 Hk Hno Hck Hn Hf. pose proof (ihash_head k) as Hkh.
  assert (Hz : i_count c0 = 0) by (apply (tb_free _ _ _ _ _ _ _ HT ip); [done|done|by left]).
  assert (Hq : ∀ h x, x ∈ front ip (ihash k) (without ip q) h ↔ (x = ip ∧ h = ihash k) ∨ (x ≠ ip ∧ x ∈ q h)).
  { intros h x. unfold front. case_decide as E; rewrite ?elem_of_cons, !without_in; [subst; tauto|]. split; [tauto|]. intros [[-> ?]|?]; [done|tauto]. }
  assert (Hpr : ∀ k1 ip1 c1, present (front ip (ihash k) (without ip q)) (cset ip c' C) k1 ip1 c1 ↔ (ip1 = ip ∧ k1 = k ∧ c1 = c') ∨ (ip1 ≠ ip ∧ present q C k1 ip1 c1)).
  { intros k1 ip1 c1. unfold present. rewrite Hq. unfold cset. case_decide as E.
    - subst ip1. split.
      + intros ([[_ _]|[? _]] & [= <-] & <-); [|done]. by left.
      + intros [(_ & -> & ->)|[? _]]; [|done]. split_and!; [by left|done|done].
    - split.
      + intros ([[? _]|[_ ?]] & ? & ?); [done|]. by right.
      + intros [[? _]|(_ & ? & ? & ?)]; [done|]. split_and!; [by right|done|done]. }
  assert (Hne : ∀ k1 ip1 c1, present q C k1 ip1 c1 → k1 ≠ k) by (intros k1 ip1 c1 H1 ->; by eapply Hno).
  split.
  - apply (tb_len _ _ _ _ _ _ _ HT).
  - intros k1 i1 i2 c1 c2 H1%Hpr H2%Hpr. destruct H1 as [(? & ? & ?)|(? & H1)], H2 as [(? & ? & ?)|(? & H2)]; subst.
    + done.
    + by apply Hne in H2.
    + by apply Hne in H1.
    + by eapply (tb_uniq _ _ _ _ _ _ _ HT k1).
  - intros h ip1 c1 Hh [[-> ->]|[Hn1 Hin]]%Hq.
    + rewrite cset_eq. intros [= <-]. by rewrite Hck.
    + rewrite cset_ne by done. by apply (tb_key _ _ _ _ _ _ _ HT).
  - intros ip1 c1 Hi1. unfold cset. case_decide as E.
    + intros [= <-]. subst. rewrite Hn. split; [done|lia].
    + intros Hc1. rewrite <- (tb_free _ _ _ _ _ _ _ HT ip1 c1) by done. set_solver.
  - intros ip1 c1 Hi1. rewrite Hq. unfold cset. case_decide as E.
    + intros [= <-] _. subst ip1. rewrite Hck. by left.
    + intros Hc1 Hn1. right. split; [done|]. by apply (tb_used _ _ _ _ _ _ _ HT).
  - intros k1 ip1 c1 [(-> & -> & ->)|(Hn1 & H1)]%Hpr; [done|]. pose proof (Hne _ _ _ H1) as Hkn.
    apply (tb_file _ _ _ _ _ _ _ HT) in H1 as [B1 B2 B3 B4 B5 B6 B7 B8 B9]. split; try done. unfold refs. by rewrite lookup_insert_ne.
  - intros k1 Hk1 Hno1. assert (Hkn : k1 ≠ k). { intros ->. apply (Hno1 ip c'), Hpr. by left. } rewrite lookup_insert_ne by done.
    destruct (decide (ip ∈ q (ihash k1) ∧ ikey c0 = k1)) as [[Hin Hk0]|Hnot].
    + assert (Hp : present q C k1 ip c0) by (by split_and!). pose proof (tb_file _ _ _ _ _ _ _ HT _ _ _ Hp) as [B1 B2 B3 B4 B5 B6 B7 B8 B9].
      specialize (B6 Hz). rewrite Hz in B3. split_and!.
      * by eapply refs_zero.
      * apply B5. unfold ihas. by rewrite B6.
      * by rewrite <- B4, B6.
    + apply (tb_absent _ _ _ _ _ _ _ HT); [done|]. intros ip1 c1 H1. apply (Hno1 ip1 c1), Hpr. right. split; [|done]. intros ->.
      destruct H1 as (A1 & A2 & A3). simplify_eq. by apply Hnot.
  - intros k1 n Hn1. destruct (decide (k1 = k)) as [->|Hkn]; [rewrite lookup_insert_eq in Hn1; injection Hn1 as <-; split; [done|lia]|].
    rewrite lookup_insert_ne in Hn1 by done. by apply (tb_refs _ _ _ _ _ _ _ HT).
Qed.

(** The free inodes and the files in use make up the table. *)
Lemma itab_count V q F C L R P : itab V q F C L R P → (∀ ip, is_ino ip → is_Some (C ip)) →
  (∀ h ip, h ∈ iheads → ip ∈ q h → is_ino ip) → (∀ ip, ip ∈ F → is_ino ip) → NoDup F →
  (size R + length F = Z.to_nat NINODE)%nat.
Proof.
  intros HT HC Hel Hino Hnd. set (T := seqZ (inode_at 0) NINODE). set (U := filter (λ ip, ip ∉ F) T).
  assert (HT' : ∀ ip, ip ∈ T ↔ is_ino ip) by (intros ip; unfold T, is_ino, inode_at; rewrite elem_of_seqZ; lia).
  assert (HU : ∀ ip, ip ∈ U ↔ is_ino ip ∧ ip ∉ F) by (intros ip; unfold U; rewrite list_elem_of_filter, HT'; tauto).
  assert (NU : NoDup U) by apply NoDup_filter, NoDup_seqZ.
  assert (Hperm : T ≡ₚ U ++ F).
  { apply NoDup_Permutation; [apply NoDup_seqZ| |].
    - apply NoDup_app. split_and!; [done| |done]. intros x Hx. by apply HU in Hx as [_ ?].
    - intros x. rewrite elem_of_app, HT', HU. destruct (decide (x ∈ F)); [|tauto]. split; [tauto|]. intros _. by apply Hino. }
  apply Permutation_length in Hperm. unfold T in Hperm. rewrite length_seqZ, length_app in Hperm.
  set (kf := λ ip, match C ip with Some c => ikey c | None => (0, 0) end).
  assert (Hkf : ∀ ip, ip ∈ U → ∃ c, C ip = Some c ∧ kf ip = ikey c ∧ present q C (ikey c) ip c).
  { intros ip [Hi HF]%HU. destruct (HC ip Hi) as [c Hc]. exists c. unfold kf. rewrite Hc. split_and!; [done|done|].
    split_and!; [|done|done]. apply (tb_used _ _ _ _ _ _ _ HT); [done|done|]. intros E. by apply HF, (tb_free _ _ _ _ _ _ _ HT ip c). }
  assert (Nk : NoDup (kf <$> U)).
  { apply NoDup_fmap_2_strong; [|done]. intros x y Hx Hy E. destruct (Hkf x Hx) as (cx & _ & E1 & Px), (Hkf y Hy) as (cy & _ & E2 & Py).
    rewrite E1, E2 in E. rewrite E in Px. by eapply (tb_uniq _ _ _ _ _ _ _ HT). }
  assert (Hdom : dom R ≡ (list_to_set (kf <$> U) : gset key)).
  { intros k. rewrite elem_of_list_to_set, elem_of_dom. split.
    - intros [n Hn]. destruct (tb_refs _ _ _ _ _ _ _ HT k n Hn) as [Hk Hpos].
      destruct (decide (Exists (λ ip, ip ∈ q (ihash k) ∧ kf ip = k) T)) as [He|He].
      + apply Exists_exists in He as (ip & Hi & Hin & Hck). apply HT' in Hi. destruct (HC ip Hi) as [c Hc].
        apply list_elem_of_fmap. exists ip. split; [done|]. unfold kf in Hck. rewrite Hc in Hck. apply HU. split; [done|].
        intros HF. apply (tb_free _ _ _ _ _ _ _ HT ip c) in HF; [|done|done].
        pose proof (fk_refs _ _ _ _ _ _ (tb_file _ _ _ _ _ _ _ HT k ip c ltac:(by split_and!))) as B. unfold refs in B. rewrite Hn in B. cbn in B. lia.
      + exfalso. destruct (tb_absent _ _ _ _ _ _ _ HT k Hk) as [E _]; [|congruence]. intros ip c (A1 & A2 & A3). apply He, Exists_exists. exists ip.
        unfold kf. rewrite A2. split; [|done]. apply HT'. apply (Hel _ _ (ihash_head k) A1).
    - intros (ip & -> & Hi)%list_elem_of_fmap. destruct (Hkf ip Hi) as (c & Hc & -> & Hp). apply HU in Hi as [Hi HF].
      pose proof (fk_refs _ _ _ _ _ _ (tb_file _ _ _ _ _ _ _ HT _ _ _ Hp)) as B. unfold refs in B. destruct (R !! ikey c); [eauto|]. cbn in B.
      destruct HF. by apply (tb_free _ _ _ _ _ _ _ HT ip c). }
  rewrite <- size_dom, Hdom, size_list_to_set by done. rewrite length_fmap. lia.
Qed.
End table.

(** ** Scripts *)

Inductive iop :=
| IGet (k : key)
| ISet (k : key) (d : dinode) (fl : Z)
| IPut (k : key).

(** What a script does to the kernel: [IGet] takes a reference and reads the
    inode, [ISet] writes the inode of a file in use and marks it, with the times
    [fl] to be updated, [IPut] drops a reference. *)
Section run.
Context (fsleep : Z → Z → A unit) (sleep : Z → Z → M bst unit) (strategy : Z → M bst unit) (is_tape : Z → bool) (lbolt : Z) (fsof : Z → Z).

Definition run_iop (fuel : nat) (o : iop) : A (option dinode) :=
  match o with
  | IGet k =>
      ip ← iget fsleep sleep strategy is_tape lbolt fuel k.1 (fsof k.1) k.2;
      if ip =? 0 then mret None
      else
        i ← rdi ip;
        iunlock ip;;
        mret (Some (to_dinode i))
  | ISet k d fl =>
      ip ← ifind k.1 k.2;
      wri ip (of_dinode d);;
      wri ip (ior (Z.lor IMOD fl));;
      mret None
  | IPut k =>
      ip ← ifind k.1 k.2;
      iput fsleep sleep strategy is_tape lbolt fuel ip;;
      mret None
  end.
Fixpoint run_iops (fuel : nat) (os : list iop) : A (list (option dinode)) :=
  match os with
  | [] => mret []
  | o :: os =>
      r ← run_iop fuel o;
      rs ← run_iops fuel os;
      mret (r :: rs)
  end.
End run.

(** The specification: files, references, times to be updated, and the error. *)
Record afs := AF { af_node : key → dinode; af_refs : gmap key Z; af_pend : key → Z; af_err : Z }.
Definition kset {Y} (k : key) (v : Y) (f : key → Y) : key → Y := λ k', if decide (k' = k) then v else f k'.
Definition stamp_d (now p : Z) (d : dinode) : dinode :=
  let t := di_ic2 d in let on f x := if Z.land p f =? 0 then x else now in
  Dinode (di_ic1 d) (di_addr d) (di_flags d) (Icommon2 (on IACC (ic_atime t)) (on IUPD (ic_mtime t)) (on ICHG (ic_ctime t))).
Definition astep (now : Z) (a : afs) (o : iop) : afs * option dinode :=
  match o with
  | IGet k =>
      if bool_decide (is_Some (af_refs a !! k) ∨ (size (af_refs a) < Z.to_nat NINODE)%nat) then
        (AF (af_node a) (<[k := refs (af_refs a) k + 1]> (af_refs a)) (af_pend a) (af_err a), Some (af_node a k))
      else (AF (af_node a) (af_refs a) (af_pend a) ENFILE, None)
  | ISet k d fl => (AF (kset k d (af_node a)) (af_refs a) (kset k (Z.lor (af_pend a k) fl) (af_pend a)) (af_err a), None)
  | IPut k =>
      let n := refs (af_refs a) k in
      (AF (kset k (stamp_d now (af_pend a k) (af_node a k)) (af_node a)) (if n =? 1 then delete k (af_refs a) else <[k := n - 1]> (af_refs a))
         (kset k 0 (af_pend a)) (af_err a), None)
  end.
Fixpoint arun_iops (now : Z) (a : afs) (os : list iop) : afs * list (option dinode) :=
  match os with
  | [] => (a, [])
  | o :: os =>
      let '(a1, r) := astep now a o in
      let '(a2, rs) := arun_iops now a1 os in
      (a2, r :: rs)
  end.

Section refinement.
Context (fsleep : Z → Z → A unit) (sleep : Z → Z → M bst unit) (strategy : Z → M bst unit) (is_tape : Z → bool) (lbolt : Z).
Context {phys : key → key} {good : key → Prop} `{!Driver strategy phys good}.
Context (FS : gmap Z fs) (fsof : Z → Z) (now : Z).
Notation cache := (cache (phys := phys) (good := good)).
Notation kok := (kok good FS fsof).
Notation itab := (itab good FS fsof).
Notation run_iop := (run_iop fsleep sleep strategy is_tape lbolt fsof).

(** Only files of writable file systems, files in use are changed and released,
    and no file without a name is released. *)
Definition iop_ok (a : afs) (o : iop) : Prop :=
  match o with
  | IGet k => kok k ∧ refs (af_refs a) k < 2 ^ 32 - 2
  | ISet k d fl => is_Some (af_refs a !! k) ∧ wf_dinode d ∧ Z.land fl STAMPS = fl
  | IPut k => is_Some (af_refs a !! k) ∧ refs (af_refs a) k < 2 ^ 32 - 1 ∧ 0 < ic_nlink (di_ic1 (af_node a k))
  end.
Fixpoint iops_ok (a : afs) (os : list iop) : Prop :=
  match os with
  | [] => True
  | o :: os => iop_ok a o ∧ iops_ok (astep now a o).1 os
  end.

Definition wok (O : ast) (e : Z) : Prop := fss O = FS ∧ time_sec O = now ∧ nch_full (nch O) ∧ u_error (bs O) = e.
Definition irel (s : ast) (a : afs) : Prop := ∃ V q F C O,
  ist s None q F C O ∧ cache V ∅ (bs O) ∧ itab V q F C (af_node a) (af_refs a) (af_pend a) ∧ wok O (af_err a).

Lemma present_ino s q F C O k ip c : ist s None q F C O → present q C k ip c → is_ino ip ∧ ip ≠ 0.
Proof.
  clear. intros H (Hin & _). pose proof (is_chains _ _ _ _ _ _ H) as [_ HE _ _ _ _]. pose proof (HE _ _ (ihash_head k) Hin) as Hi.
  split; [done|]. by apply ino_not_slot.
Qed.

(** A file in use is found in the table. *)
Lemma wp_ifind_used V s q F C O a k n (Q : Z → ast → Prop) :
  ist s None q F C O → itab V q F C (af_node a) (af_refs a) (af_pend a) → af_refs a !! k = Some n →
  (∀ ip c, present q C k ip c → is_ino ip → i_count c = n → 0 < n → Q ip s) → wp (ifind k.1 k.2) Q s.
Proof.
  clear Driver0. intros H HT Hn HQ. destruct (tb_refs _ _ _ _ _ _ _ _ _ _ HT k n Hn) as [Hk Hpos]. destruct k as [dev ino]. eapply wp_ifind; [exact H|..].
  - intros ip c Hin Hc Hck. assert (Hp : present q C (dev, ino) ip c) by (by split_and!). apply (HQ ip c); [done|by eapply present_ino| |done].
    rewrite (fk_refs _ _ _ _ _ _ _ _ _ (tb_file _ _ _ _ _ _ _ _ _ _ HT _ _ _ Hp)). unfold refs. by rewrite Hn.
  - intros Hno. destruct (tb_absent _ _ _ _ _ _ _ _ _ _ HT (dev, ino) Hk) as [E _]; [|congruence]. intros ip c (A1 & A2 & A3). by eapply Hno.
Qed.

Lemma kset_eq {Y} k (v : Y) f : kset k v f k = v.
Proof. clear. unfold kset. by rewrite decide_True. Qed.
Lemma kset_ne {Y} k k' (v : Y) f : k' ≠ k → kset k v f k' = f k'.
Proof. clear. unfold kset. intros. by rewrite decide_False. Qed.

Lemma stamp_node c : to_dinode (stamp now c c) = stamp_d now (Z.land (i_flag c) STAMPS) (to_dinode c).
Proof.
  clear. assert (H : ∀ f, Z.land STAMPS f = f → (Z.land (Z.land (i_flag c) STAMPS) f =? 0) = negb (ihas f c)).
  { intros f Hf. unfold ihas. by rewrite negb_involutive, <- Z.land_assoc, Hf. }
  unfold stamp, stamp_d. cbv beta zeta. rewrite !H by done. destruct (ihas IACC c), (ihas IUPD c), (ihas ICHG c); by destruct c as [? ? ? ? ? ? ? ? ? ? ? ? ? [? ? ?]].
Qed.

Lemma stamp_wf p d : wf_dinode d → wf_dinode (stamp_d now p d).
Proof. clear. intros [H1 H2 H3]. by split. Qed.

(** A reference more to a file in core, with the lock dropped again. *)
Lemma get_file_ok V a k c : 0 ≤ i_count c →
  file_ok good FS fsof V (af_node a) (af_refs a) (af_pend a) k c →
  file_ok good FS fsof V (af_node a) (<[k := refs (af_refs a) k + 1]> (af_refs a)) (af_pend a) k (unlocked (ior ILOCKED (set_i_count (i_count c + 1) c))).
Proof.
  clear. intros Hn [B1 B2 B3 B4 B5 B6 B7 B8 B9]. set (c1 := ior ILOCKED (set_i_count (i_count c + 1) c)).
  destruct (unlocked_same c1) as (D & K & N & Fs).
  assert (Hfl : ∀ f, Z.land f (Z.lor ILOCKED IWANT) = 0 → Z.land (i_flag (unlocked c1)) f = Z.land (i_flag c) f).
  { intros f Hf. rewrite unlocked_land by done. cbn [c1 ior i_flag set_i_flag set_i_count]. rewrite Z.land_lor_distr_l.
    assert (Z.land ILOCKED f = 0) as ->; [|by rewrite Z.lor_0_r]. change ILOCKED with (Z.land (Z.lor ILOCKED IWANT) ILOCKED).
    by rewrite (Z.land_comm (Z.lor ILOCKED IWANT)), <- Z.land_assoc, (Z.land_comm _ f), Hf, Z.land_0_r. }
  split; try done.
  - by rewrite D.
  - rewrite N. unfold refs. rewrite lookup_insert_eq. cbn. by rewrite B3.
  - by rewrite Hfl.
  - unfold ihas. rewrite Hfl by done. exact B5.
  - rewrite N. cbn. lia.
  - by rewrite Fs.
  - rewrite ihas_lor. rewrite (ihas_sub ILOCKED (Z.lor ILOCKED IWANT)) by (done || apply unlocked_off). cbn [orb].
    unfold ihas. rewrite Hfl by done. exact (ihas_sub IMOUNT (Z.lor ILOCKED IMOUNT) c eq_refl B9).
Qed.

Lemma bd_get (Q : Prop) `{!Decision Q} {Y} (x y : Y) : Q → (if bool_decide Q then x else y) = x.
Proof. clear. intros. by rewrite bool_decide_true. Qed.

Notation enough fuel := (Z.to_nat NBUF + 3 <= fuel)%nat.

Lemma wp_get_hit V s q F C O a k ip c fuel (Q : option dinode → ast → Prop) :
  ist s None q F C O → cache V ∅ (bs O) → itab V q F C (af_node a) (af_refs a) (af_pend a) → wok O (af_err a) → iop_ok a (IGet k) →
  present q C k ip c → (∀ s', irel s' (astep now a (IGet k)).1 → Q (astep now a (IGet k)).2 s') →
  wp (i ← rdi ip; if ihas ILOCKED i then wri ip (ior IWANT);; fsleep ip PINOD;; iget fsleep sleep strategy is_tape lbolt fuel k.1 (fsof k.1) k.2
      else if ihas IMOUNT i then
        m ← mounted_here ip;
        match m with
        | Some (dev, fsp) => iget fsleep sleep strategy is_tape lbolt fuel dev fsp ROOTINO
        | None => panic "no imt"
        end
      else itake ip;; mret ip)
    (λ ip s, wp (if ip =? 0 then mret None else i ← rdi ip; iunlock ip;; mret (Some (to_dinode i))) Q s) s.
Proof using Driver0.
  intros H Hca HT Hw [Hk Hbd] Hp HQ. destruct (present_ino _ _ _ _ _ _ _ _ H Hp) as [Hip H0].
  pose proof (tb_file _ _ _ _ _ _ _ _ _ _ HT _ _ _ Hp) as HF. pose proof Hp as (Hin & Hc & Hck).
  apply wp_bind. eapply wp_rdi_ist; [exact H|exact Hc|]. intros i _ Hi.
  assert (Hfl : ∀ f, ihas f i = ihas f c) by (intros; by rewrite <- Hi). rewrite !Hfl. pose proof (fk_open _ _ _ _ _ _ _ _ _ HF) as Hop.
  rewrite (ihas_sub ILOCKED (Z.lor ILOCKED IMOUNT)), (ihas_sub IMOUNT (Z.lor ILOCKED IMOUNT)) by done.
  pose proof (fk_refs _ _ _ _ _ _ _ _ _ HF) as Hrf.
  assert (Hn0 : 0 ≤ i_count c).
  { rewrite Hrf. unfold refs. destruct (af_refs a !! k) as [n|] eqn:E; [|done]. cbn. apply (tb_refs _ _ _ _ _ _ _ _ _ _ HT) in E as [_ E]. lia. }
  pose proof (is_free _ _ _ _ _ _ H) as (Hino & _ & Hring).
  assert (∃ F1 F2, F = (if i_count c =? 0 then F1 ++ ip :: F2 else F1 ++ F2) ∧ ip ∉ F1 ++ F2) as (F1 & F2 & EF & HnF).
  { destruct (Z.eqb_spec (i_count c) 0) as [E|E].
    - apply (tb_free _ _ _ _ _ _ _ _ _ _ HT ip c) in E; [|done|done]. assert (F ≠ []) as HFn by (intros ->; set_solver). specialize (Hring HFn).
      apply list_elem_of_split in E as (F1 & F2 & ->). exists F1, F2. split; [done|]. destruct (ring_noslot _ _ _ _ _ Hring Hino) as (? & ? & _). set_solver.
    - exists F, []. rewrite app_nil_r. split; [done|]. by rewrite (tb_free _ _ _ _ _ _ _ _ _ _ HT ip c). }
  apply wp_bind. eapply wp_itake; [rewrite <- EF; by apply ist_open| |]. { rewrite Hrf. unfold refs in *. destruct (af_refs a !! k); cbn in *; lia. }
  intros s1 H1. apply wp_ret. rewrite (proj2 (Z.eqb_neq _ _) H0). apply wp_bind. eapply wp_irdc; [exact H1|]. intros i1 _ Hi1.
  apply wp_bind. eapply wp_iunlock; [exact H1|]. intros s2 w H2. apply wp_ret.
  assert (to_dinode i1 = af_node a k) as ->. { rewrite <- (fk_node _ _ _ _ _ _ _ _ _ HF). change (to_dinode i1) with (to_dinode (icont i1)). by rewrite Hi1. }
  assert (Hbd' : is_Some (af_refs a !! k) ∨ (size (af_refs a) < Z.to_nat NINODE)%nat).
  { destruct (af_refs a !! k) as [n|] eqn:E; [left; eauto|right]. assert (Hz : i_count c = 0) by (rewrite Hrf; unfold refs; by rewrite E).
    apply (tb_free _ _ _ _ _ _ _ _ _ _ HT ip c) in Hz; [|done|done]. assert (F ≠ []) as HFn by (intros ->; set_solver).
    pose proof (is_chains _ _ _ _ _ _ H) as [_ HE _ _ _ _]. destruct (Hring HFn) as [_ [_ Hnd]%NoDup_cons].
    pose proof (itab_count _ _ _ _ _ _ _ _ _ _ HT (λ ip, ist_some _ _ _ _ _ _ ip H) HE Hino Hnd). destruct F; [done|]. cbn in *. lia. }
  cbn [astep] in HQ. rewrite (bd_get _ _ _ Hbd') in HQ. apply HQ. exists V, q, (F1 ++ F2), (cset ip (unlocked (ior ILOCKED (set_i_count (i_count c + 1) c))) C), (set_fwakeups w O).
  split_and!; [exact H2|exact Hca| |exact Hw]. cbn [af_node af_refs af_pend fst].
  eapply (itab_touch good FS fsof V V q F (F1 ++ F2)); [exact HT|exact Hp|by rewrite (proj1 (proj2 (unlocked_same _)))|by apply get_file_ok| | | | | |].
  - apply (tb_len _ _ _ _ _ _ _ _ _ _ HT).
  - done.
  - intros ip' Hne. rewrite EF. destruct (i_count c =? 0); [set_solver|done].
  - rewrite (proj1 (proj2 (proj2 (unlocked_same _)))). cbn. split; [done|lia].
  - intros k' Hne. by rewrite lookup_insert_ne.
  - intros n. rewrite lookup_insert_eq. intros [= <-]. rewrite <- Hrf. lia.
Qed.

Lemma loaded_file_ok V a k c0 n : kok k → af_refs a !! k = None → af_node a k = dnode V k → af_pend a k = 0 →
  file_ok good FS fsof V (af_node a) (<[k := 1]> (af_refs a)) (af_pend a) k (unlocked (loaded V c0 k.1 (fsof k.1) k.2 n)).
Proof.
  clear. intros Hk Hr Hn Hp. set (c1 := loaded V c0 k.1 (fsof k.1) k.2 n). destruct (unlocked_same c1) as (D & K & N & Fs).
  assert (Hd : to_dinode c1 = dnode V k) by (by destruct k).
  assert (Hf : i_flag (unlocked c1) = 0) by reflexivity. split.
  - exact Hk.
  - by rewrite D, Hd, Hn.
  - rewrite N. unfold refs. by rewrite lookup_insert_eq.
  - by rewrite Hf, Hp.
  - intros _. exact Hn.
  - intros _. exact Hf.
  - by rewrite Fs.
  - rewrite Hn. apply get_wf.
  - unfold ihas. by rewrite Hf.
Qed.

Lemma wp_run_get s a k fuel (Q : option dinode → ast → Prop) :
  irel s a → iop_ok a (IGet k) → enough fuel → (∀ s', irel s' (astep now a (IGet k)).1 → Q (astep now a (IGet k)).2 s') → wp (run_iop fuel (IGet k)) Q s.
Proof using Driver0.
  intros (V & q & F & C & O & H & Hca & HT & Hw) Hok Hfu HQ. cbn [InodeSpec.run_iop]. destruct fuel as [|fuel]; [lia|]. apply wp_bind. cbn [iget].
  apply wp_bind. eapply wp_ifind; [exact H|..].
  - intros ip c Hin Hc Hck. assert (Hp : present q C k ip c) by (destruct k; by split_and!). destruct (present_ino _ _ _ _ _ _ _ _ H Hp) as [_ H0].
    rewrite (proj2 (Z.eqb_neq _ _) H0). by eapply wp_get_hit.
  - intros Hno. rewrite Z.eqb_refl. assert (Habs : ∀ ip c, ¬ present q C k ip c) by (intros ip c (A1 & A2 & A3); eapply Hno; [exact A1|exact A2|by destruct k]).
    pose proof Hok as [Hk _]. destruct (tb_absent _ _ _ _ _ _ _ _ _ _ HT k Hk Habs) as (Hr & Hn & Hpd). pose proof (is_free _ _ _ _ _ _ H) as (Hino & _ & Hring).
    pose proof (is_chains _ _ _ _ _ _ H) as [_ HE _ _ _ _]. pose proof (λ ip, ist_some _ _ _ _ _ _ ip H) as HC.
    destruct F as [|ip F].
    + eapply wp_iget_full; [exact H|]. cbv zeta. intros s1 H1. rewrite Z.eqb_refl. apply wp_ret.
      assert (Hsz : ¬ (is_Some (af_refs a !! k) ∨ (size (af_refs a) < Z.to_nat NINODE)%nat)).
      { rewrite Hr. pose proof (itab_count _ _ _ _ _ _ _ _ _ _ HT HC HE Hino ltac:(constructor)) as Hs. cbn in Hs. intros [[? ?]|?]; [done|lia]. }
      cbn [astep] in HQ. rewrite bool_decide_false in HQ by done. apply HQ. destruct Hw as (W1 & W2 & W3 & W4).
      exists V, q, [], C, (set_bs (set_u_error ENFILE (bs O)) (set_console (console O ++ ["inode: table full"%string]) O)).
      split_and!; [exact H1|by apply cache_err|exact HT|by split_and!].
    + specialize (Hring ltac:(done)). assert (Hip : is_ino ip) by (apply Hino; by left). destruct (HC ip Hip) as [c0 Hc0].
      destruct Hring as [_ [_ Hnd]%NoDup_cons]. pose proof (itab_count _ _ _ _ _ _ _ _ _ _ HT HC HE Hino Hnd) as Hs. apply NoDup_cons in Hnd as [HnF _].
      assert (Hz : i_count c0 = 0) by (apply (tb_free _ _ _ _ _ _ _ _ _ _ HT ip); [done|done|by left]). destruct Hk as (Hg & Hdv & Hk').
      pose proof Hw as (W1 & W2 & W3 & W4).
      eapply (wp_iget_load fsleep sleep strategy is_tape lbolt V); [exact H|exact Hc0|exact Hz|exact Hca|exact Hg|exact Hdv|exact W3|lia|].
      intros s1 b1 n m H1 Hca1 Hm U1. destruct (ino_not_slot _ Hip) as [_ H0]. rewrite (proj2 (Z.eqb_neq _ _) H0).
      apply wp_bind. eapply wp_irdc; [exact H1|]. intros i1 _ Hi1. apply wp_bind. eapply wp_iunlock; [exact H1|]. intros s2 w H2. apply wp_ret.
      assert (to_dinode i1 = af_node a k) as ->. { rewrite Hn. change (to_dinode i1) with (to_dinode (icont i1)). rewrite Hi1. by destruct k. }
      cbn [astep] in HQ. rewrite bd_get in HQ by (right; cbn in Hs; lia).
      assert (Hrf : refs (af_refs a) k + 1 = 1) by (unfold refs; by rewrite Hr). rewrite Hrf in HQ. apply HQ.
      eexists V, _, F, _, _. split_and!; [exact H2|exact Hca1| |split_and!; [done|done|done|cbn; by rewrite U1]].
      cbn [af_node af_refs af_pend fst]. eapply itab_load; [exact HT|done|done|exact Hc0|exact (proj1 Hok)|done| | |].
      * rewrite (proj1 (proj2 (unlocked_same _))). by destruct k.
      * by rewrite (proj1 (proj2 (proj2 (unlocked_same _)))).
      * apply loaded_file_ok; [exact (proj1 Hok)|done|done|done].
Qed.

Lemma sub_stamps fl m : Z.land fl STAMPS = fl → Z.land STAMPS m = 0 → Z.land fl m = 0.
Proof. clear. intros <- H. by rewrite <- Z.land_assoc, H, Z.land_0_r. Qed.

Lemma wp_run_set s a k d fl fuel (Q : option dinode → ast → Prop) :
  irel s a → iop_ok a (ISet k d fl) → (∀ s', irel s' (astep now a (ISet k d fl)).1 → Q (astep now a (ISet k d fl)).2 s') → wp (run_iop fuel (ISet k d fl)) Q s.
Proof using Driver0.
  intros (V & q & F & C & O & H & Hca & HT & Hw) ([n Hn] & Hwf & Hfl) HQ. cbn [InodeSpec.run_iop]. apply wp_bind.
  eapply wp_ifind_used; [exact H|exact HT|exact Hn|]. intros ip c Hp Hip Hcn Hpos. pose proof Hp as (Hin & Hc & Hck).
  pose proof (tb_file _ _ _ _ _ _ _ _ _ _ HT _ _ _ Hp) as [B1 B2 B3 B4 B5 B6 B7 B8 B9].
  apply (ist_open _ _ _ _ _ _ _ _ Hc) in H. apply wp_bind. eapply wp_iwrc; [exact H|plain_wr|]. intros s1 H1.
  apply wp_bind. eapply wp_iwrc; [exact H1|plain_wr|]. intros s2 H2. apply wp_ret, HQ. eexists V, q, F, _, O.
  split_and!; [exact H2|exact Hca| |exact Hw]. cbn [astep af_node af_refs af_pend fst].
  eapply (itab_touch good FS fsof V V q F F); [exact HT|exact Hp|exact Hck| | | | | | |].
  - split; rewrite ?kset_eq; try done.
    + by destruct d.
    + change (Z.land (Z.lor (i_flag c) (Z.lor IMOD fl)) STAMPS = Z.lor (af_pend a k) fl). rewrite !Z.land_lor_distr_l, B4, Hfl. done.
    + rewrite ihas_or. rewrite Z.land_lor_distr_l. intros E. exfalso. apply orb_false_iff in E as [_ E]. apply negb_false_iff, Z.eqb_eq in E.
      apply Z.lor_eq_0_iff in E as [E _]. done.
    + intros E. change (i_count c = 0) in E. lia.
    + rewrite ihas_or. apply orb_false_iff. split; [exact B9|]. rewrite Z.land_lor_distr_l. by rewrite (sub_stamps fl).
  - apply (tb_len _ _ _ _ _ _ _ _ _ _ HT).
  - done.
  - done.
  - exact (tb_free _ _ _ _ _ _ _ _ _ _ HT ip c Hip Hc).
  - intros k' Hne. by rewrite !kset_ne.
  - apply (tb_refs _ _ _ _ _ _ _ _ _ _ HT).
Qed.

(** The flags an inode keeps when it was not locked. *)
Lemma unlocked_file V a k c : file_ok good FS fsof V (af_node a) (af_refs a) (af_pend a) k c →
  Z.land (i_flag (unlocked c)) STAMPS = af_pend a k ∧ ihas DIRTY (unlocked c) = ihas DIRTY c ∧ ihas (Z.lor ILOCKED IMOUNT) (unlocked c) = false.
Proof.
  clear. intros [B1 B2 B3 B4 B5 B6 B7 B8 B9]. split_and!; [by rewrite unlocked_land|by rewrite unlocked_keep|].
  rewrite ihas_lor, (ihas_sub ILOCKED (Z.lor ILOCKED IWANT)) by (done || apply unlocked_off). rewrite unlocked_keep by done.
  exact (ihas_sub IMOUNT (Z.lor ILOCKED IMOUNT) c eq_refl B9).
Qed.

Lemma itimes_spec c : to_dinode (itimes now c) = to_dinode (stamp now c c) ∧ ikey (itimes now c) = ikey c ∧ i_fs (itimes now c) = i_fs c ∧
  Z.land (i_flag (itimes now c)) STAMPS = 0 ∧ (ihas DIRTY (itimes now c) = false → ihas DIRTY c = false) ∧ ihas (Z.lor ILOCKED IMOUNT) (itimes now c) = ihas (Z.lor ILOCKED IMOUNT) c.
Proof.
  clear. unfold itimes. destruct (ihas STAMPS c) eqn:E; cycle 1.
  { rewrite stamp_none by done. split_and!; try done. unfold ihas in E. apply negb_false_iff, Z.eqb_eq in E. done. }
  destruct (stamp_same now c (ior IMOD c)) as (S1 & S2 & S3 & S4 & _).
  assert (Hd : to_dinode (stamp now c (ior IMOD c)) = to_dinode (stamp now c c)) by (unfold stamp; by destruct (ihas IACC c), (ihas IUPD c), (ihas ICHG c)).
  split_and!; [exact Hd|exact S2|exact S4| | |].
  - cbn [iand_not i_flag set_i_flag]. rewrite <- Z.land_assoc. change (Z.land (Z.lnot _) STAMPS) with 0. apply Z.land_0_r.
  - rewrite ihas_and_not. change (Z.land DIRTY _) with IMOD. rewrite (ihas_flag _ _ _ S1), ihas_or. intros [_ F]%orb_false_iff. done.
  - rewrite ihas_and_not. change (Z.land (Z.lor ILOCKED IMOUNT) _) with (Z.lor ILOCKED IMOUNT). rewrite (ihas_flag _ _ _ S1), ihas_or. by rewrite orb_false_r.
Qed.

(** What is left on the disk by the last release. *)
Lemma put_clean V q F C a k ip c :
  itab V q F C (af_node a) (af_refs a) (af_pend a) → present q C k ip c →
  let c1 := unlocked c in let cs := stamp now c1 c1 in let V' := if ihas DIRTY c1 then vput V cs else V in
  to_dinode cs = stamp_d now (af_pend a k) (af_node a k) ∧
  (∀ k', kok k' → dnode V' k' = if decide (k' = k) then to_dinode cs else dnode V k') ∧ (∀ k', kok k' → length (V' (k'.1, itod k'.2)) = 256%nat).
Proof.
  clear. intros HT Hp c1 cs V'. pose proof (tb_file _ _ _ _ _ _ _ _ _ _ HT _ _ _ Hp) as HF. pose proof HF as [B1 B2 B3 B4 B5 B6 B7 B8 B9].
  destruct (unlocked_file _ _ _ _ HF) as (P1 & D1 & _). destruct (unlocked_same c) as (U1 & U2 & _ & _). fold c1 in P1, D1, U1, U2.
  assert (Hcs : to_dinode cs = stamp_d now (af_pend a k) (af_node a k)) by (unfold cs; by rewrite stamp_node, P1, U1, B2).
  destruct Hp as (Hin & Hc & Hck). destruct (stamp_same now c1 c1) as (_ & S2 & _). fold cs in S2. rewrite U2, Hck in S2.
  pose proof (tb_len _ _ _ _ _ _ _ _ _ _ HT) as Hl. assert (Hlk : length (V (i_dev cs, itod (i_number cs))) = 256%nat) by (rewrite <- (Hl k B1), <- S2; done).
  assert (Hw : wf_dinode (to_dinode cs)) by (rewrite Hcs; by apply stamp_wf).
  split_and!; [done| |].
  - intros k' Hk'. unfold V'. destruct (ihas DIRTY c1) eqn:Ed.
    + rewrite (dnode_vput good FS fsof) by (try done; rewrite <- S2 in B1; apply B1). by rewrite S2.
    + case_decide; [subst k'|done]. rewrite <- B5 by congruence. unfold cs. rewrite stamp_none by (by apply (ihas_sub _ DIRTY)). congruence.
  - intros k' Hk'. unfold V'. destruct (ihas DIRTY c1); [|by apply Hl]. apply vput_len; [by apply Hl|done|done].
Qed.

Lemma wp_run_put s a k fuel (Q : option dinode → ast → Prop) :
  irel s a → iop_ok a (IPut k) → enough fuel → (∀ s', irel s' (astep now a (IPut k)).1 → Q (astep now a (IPut k)).2 s') → wp (run_iop fuel (IPut k)) Q s.
Proof using Driver0.
  intros (V & q & F & C & O & H & Hca & HT & Hw) ([n Hn] & Hmx & Hnl) Hfu HQ. cbn [InodeSpec.run_iop]. apply wp_bind.
  eapply wp_ifind_used; [exact H|exact HT|exact Hn|]. intros ip c Hp Hip Hcn Hpos. pose proof Hp as (Hin & Hc & Hck).
  pose proof (tb_file _ _ _ _ _ _ _ _ _ _ HT _ _ _ Hp) as HF. pose proof HF as [B1 B2 B3 B4 B5 B6 B7 B8 B9]. rewrite <- B3, Hcn in Hmx.
  destruct (put_clean _ _ _ _ _ _ _ _ HT Hp) as (Hcs & HdV & HlV). destruct (unlocked_file _ _ _ _ HF) as (P1 & D1 & O1).
  destruct (unlocked_same c) as (U1 & U2 & U3 & U4). set (c1 := unlocked c) in *. rewrite Hck in U2. rewrite B7 in U4. rewrite Hcn in U3.
  pose proof Hw as (W1 & W2 & W3 & W4). pose proof B1 as (Hg & Hdv & Hiok & f & Hf & Hro).
  assert (Hk1 : i_dev c1 = k.1 ∧ i_number c1 = k.2) by (by rewrite <- U2). destruct Hk1 as [Hk1 Hk2].
  apply (ist_open _ _ _ _ _ _ _ _ Hc) in H. apply wp_bind. unfold iput. apply wp_bind. eapply wp_iunlock; [exact H|]. intros s1 w H1. fold c1 in H1.
  assert (HnF : ip ∉ F) by (rewrite (tb_free _ _ _ _ _ _ _ _ _ _ HT ip c) by done; lia).
  assert (Ern : refs (af_refs a) k = n) by congruence. cbn [astep] in HQ. rewrite Ern in HQ.
  destruct (Z.eqb_spec n 1) as [E1|E1].
  - eapply (wp_irele_last fsleep sleep strategy is_tape lbolt V); [exact H1|done|done|exact Hca|by rewrite Hk1, Hk2|by rewrite Hk1|cbn; by rewrite U4, W1|done|congruence| |lia|].
    { unfold i_nlink. change (i_ic1 c1) with (di_ic1 (to_dinode c1)). rewrite U1, B2. exact Hnl. }
    cbv zeta. cbn [time_sec set_fwakeups bs]. rewrite W2. intros s2 b2 w2 c' H2 Hca2 U5 D5 K5 F5 L5 N5. apply wp_ret, HQ. eexists _, q, _, _, _.
    split_and!; [exact H2|exact Hca2| |split_and!; [done|done|done|cbn; by rewrite U5]]. cbn [af_node af_refs af_pend fst].
    eapply (itab_touch good FS fsof V _ q F); [exact HT|exact Hp|congruence| |exact HlV| | | | |].
    + split; rewrite ?kset_eq; [exact B1|congruence|unfold refs; by rewrite lookup_delete_eq|by rewrite L5| |done|congruence|by apply stamp_wf|unfold ihas; by rewrite L5].
      intros _. rewrite HdV, decide_True by done. congruence.
    + intros k' Hk' Hne. by rewrite HdV, decide_False.
    + intros ip' Hne. set_solver.
    + rewrite N5. set_solver.
    + intros k' Hne. rewrite !kset_ne, lookup_delete_ne by done. done.
    + intros m. by rewrite lookup_delete_eq.
  - eapply (wp_irele_more fsleep sleep strategy is_tape lbolt); [exact H1|exact U3|lia|by apply (ihas_sub _ (Z.lor ILOCKED IMOUNT))|].
    cbn [time_sec set_fwakeups]. rewrite W2. intros s2 H2. apply wp_ret, HQ. eexists V, q, F, _, _.
    split_and!; [exact H2|exact Hca| |done]. cbn [af_node af_refs af_pend fst]. destruct (itimes_spec c1) as (T1 & T2 & T3 & T4 & T5 & T6).
    eapply (itab_touch good FS fsof V V q F F); [exact HT|exact Hp| | |apply (tb_len _ _ _ _ _ _ _ _ _ _ HT)|done|done| | |].
    + change (ikey (itimes now c1) = k). congruence.
    + assert (Hcl : ihas DIRTY (itimes now c1) = false → stamp_d now (af_pend a k) (af_node a k) = dnode V k).
      { intros E. apply T5 in E. rewrite <- Hcs, stamp_none by (by apply (ihas_sub _ DIRTY)). rewrite U1, B2. apply B5. congruence. }
      split; rewrite ?kset_eq.
      * exact B1.
      * change (to_dinode (itimes now c1) = stamp_d now (af_pend a k) (af_node a k)). congruence.
      * unfold refs. by rewrite lookup_insert_eq.
      * exact T4.
      * exact Hcl.
      * intros E. change (n - 1 = 0) in E. lia.
      * change (i_fs (itimes now c1) = fsof k.1). congruence.
      * by apply stamp_wf.
      * change (ihas (Z.lor ILOCKED IMOUNT) (itimes now c1) = false). congruence.
    + change (ip ∈ F ↔ n - 1 = 0). split; [done|lia].
    + intros k' Hne. rewrite !kset_ne, lookup_insert_ne by done. done.
    + intros m. rewrite lookup_insert_eq. intros [= <-]. lia.
Qed.

Lemma wp_run_iop s a o fuel (Q : option dinode → ast → Prop) :
  irel s a → iop_ok a o → enough fuel → (∀ s', irel s' (astep now a o).1 → Q (astep now a o).2 s') → wp (run_iop fuel o) Q s.
Proof using Driver0. destruct o; eauto using wp_run_get, wp_run_set, wp_run_put. Qed.

Lemma wp_run_iops os : ∀ s a fuel (Q : list (option dinode) → ast → Prop),
  irel s a → iops_ok a os → enough fuel → (∀ s', irel s' (arun_iops now a os).1 → Q (arun_iops now a os).2 s') →
  wp (run_iops fsleep sleep strategy is_tape lbolt fsof fuel os) Q s.
Proof using Driver0.
  induction os as [|o os IH]; intros s a fuel Q H Hok Hfu HQ; cbn [run_iops]; [by apply wp_ret, HQ|]. destruct Hok as [Ho Hos].
  apply wp_bind. eapply wp_run_iop; [exact H|exact Ho|exact Hfu|]. intros s1 H1. apply wp_bind. eapply IH; [exact H1|exact Hos|exact Hfu|]. intros s2 H2. apply wp_ret.
  cbn [arun_iops] in HQ. destruct (astep now a o) as [a1 r]. cbn [fst snd] in *. destruct (arun_iops now a1 os) as [a2 rs]. by apply HQ.
Qed.
End refinement.

(** ** The table at boot *)

Definition zero_inode : inode := Alloc.Inode 0 0 0 0 0 0 0 0 (replicate 7 0) 0 0 (Icommon1 0 0 0 0 0) 0 (Icommon2 0 0 0).
Definition itab_zero : gmap Z inode := list_to_map ((λ j, (inode_at j, zero_inode)) <$> seqZ 0 NINODE).
Definition boot (b : bst) (f : gmap Z fs) (n : Z) (nc : nst) (m : list mount_ent) (t r : Z) (c : list string) (w : list Z) : ast :=
  AS b f itab_zero ∅ 0 0 n nc m t r c w.
Definition itab_init : gmap Z inode := Eval vm_compute in
  match ihinit (AS (BS ∅ ∅ ∅ 0 0 0 []) ∅ itab_zero ∅ 0 0 0 nst_zero [] 0 0 [] []) with Ret _ s => inodes s | _ => ∅ end.
Definition ihead_init : gmap Z (Z * Z) := Eval vm_compute in
  match ihinit (AS (BS ∅ ∅ ∅ 0 0 0 []) ∅ itab_zero ∅ 0 0 0 nst_zero [] 0 0 [] []) with Ret _ s => ihead s | _ => ∅ end.
Definition booted (b : bst) (f : gmap Z fs) (n : Z) (nc : nst) (m : list mount_ent) (t r : Z) (c : list string) (w : list Z) : ast :=
  AS b f itab_init ihead_init (inode_at 0) (inode_at (NINODE - 1)) n nc m t r c w.

Lemma ihinit_run b f n nc m t r c w : ihinit (boot b f n nc m t r c w) = Ret tt (booted b f n nc m t r c w).
Proof. vm_compute. reflexivity. Qed.

Lemma ino_seq ip : is_ino ip → ip ∈ seqZ (inode_at 0) NINODE.
Proof. unfold is_ino, inode_at. rewrite elem_of_seqZ. lia. Qed.

Lemma init_heads : Forall (λ h, ihead_init !! h = Some (h, h)) iheads.
Proof. refine (bool_decide_unpack _ _). vm_compute. done. Qed.

Lemma init_only_heads : dom ihead_init = list_to_set iheads.
Proof. refine (bool_decide_unpack _ _). vm_compute. done. Qed.

Lemma init_inodes : Forall (λ ip, ihead_init !! ip = None ∧ (i_forw <$> itab_init !! ip) = Some ip ∧ (i_back <$> itab_init !! ip) = Some ip ∧
  (i_count <$> itab_init !! ip) = Some 0) (seqZ (inode_at 0) NINODE).
Proof. refine (bool_decide_unpack _ _). vm_compute. done. Qed.

Lemma init_table b f n nc m t r c w :
  ist (booted b f n nc m t r c w) None (λ _, []) (seqZ (inode_at 0) NINODE) (λ z, icont <$> itab_init !! z) (world (booted b f n nc m t r c w)).
Proof.
  pose proof init_heads as HH. pose proof init_inodes as HI. rewrite Forall_forall in HH, HI.
  assert (HD : ∀ p, is_Some (ihead_init !! p) ↔ p ∈ iheads).
  { intros p. rewrite <- elem_of_dom, init_only_heads. apply elem_of_list_to_set. }
  split; [|exact HD| |done|done].
  - split.
    + intros h Hh. split; [|repeat constructor; set_solver]. cbn. by rewrite (HH h Hh).
    + intros h e _ He. by apply elem_of_nil in He.
    + intros h h' e _ _ He. by apply elem_of_nil in He.
    + apply ihead_ino.
    + intros e He _ _. destruct (HI e (ino_seq e He)) as (E1 & E2 & E3 & _). cbn. by rewrite E1.
    + intros e He. destruct (HI e (ino_seq e He)) as (E1 & E2 & E3 & _). cbn. rewrite E1, E2, E3. eauto.
  - apply freel_ring; [|intros ip; rewrite elem_of_seqZ; unfold is_ino, inode_at; lia]. apply ringb_sound. vm_compute. done.
Qed.

Lemma boot_irel phys good fsof V b f n nc m t r c w :
  CacheIO.cache (phys := phys) (good := good) V ∅ b → (∀ k, kok good f fsof k → length (V (k.1, itod k.2)) = 256%nat) → nch_full nc →
  irel (phys := phys) (good := good) f fsof t (booted b f n nc m t r c w) (AF (dnode V) ∅ (λ _, 0) (u_error b)).
Proof.
  intros Hca Hl Hn. eexists V, _, _, _, _. split_and!; [apply init_table|exact Hca| |by split_and!].
  pose proof init_inodes as HI. rewrite Forall_forall in HI.
  assert (Hz : ∀ ip c', is_ino ip → icont <$> itab_init !! ip = Some c' → i_count c' = 0).
  { intros ip c' Hip Hc. destruct (HI ip (ino_seq ip Hip)) as (_ & _ & _ & E). destruct (itab_init !! ip) as [i|]; [|done]. injection Hc as <-. by injection E. }
  split; cbn.
  - exact Hl.
  - intros k ip ip' c1 c2 (A1 & _). by apply elem_of_nil in A1.
  - intros h ip c1 _ A1. by apply elem_of_nil in A1.
  - intros ip c1 Hip Hc. rewrite (Hz ip c1) by done. split; [done|]. intros _. by apply ino_seq.
  - intros ip c1 Hip Hc E. by rewrite (Hz ip c1) in E.
  - intros k ip c1 (A1 & _). by apply elem_of_nil in A1.
  - done.
  - done.
Qed.

(** C33: The inode table is transparent.  After [ihinit], take any script that
    takes and drops references to files and changes the inodes of files in use,
    over any block driver that keeps its promises.  Every request gives the inode
    the file had last, whether it is still in core, was written back when its
    last reference was dropped, or was evicted from the table and read again; a
    release stamps the times that were asked for; and [iget] fails, with ENFILE,
    exactly when the file is not in use and 24 others are. *)
Theorem inode_table_transparent fsleep sleep strategy is_tape lbolt phys good `{!Driver strategy phys good} V b FS fsof n nc m now r c w fuel os :
  cache (phys := phys) (good := good) V ∅ b → (∀ k, kok good FS fsof k → length (V (k.1, itod k.2)) = 256%nat) → nch_full nc →
  let a := AF (dnode V) ∅ (λ _, 0) (u_error b) in
  iops_ok (good := good) FS fsof now a os → (Z.to_nat NBUF + 3 <= fuel)%nat →
  wp (ihinit;; run_iops fsleep sleep strategy is_tape lbolt fsof fuel os)
    (λ rs s', rs = (arun_iops now a os).2 ∧ u_error (bs s') = af_err (arun_iops now a os).1 ∧ irel (phys := phys) (good := good) FS fsof now s' (arun_iops now a os).1)
    (boot b FS n nc m now r c w).
Proof.
  intros Hca Hl Hn a Hok Hfu. apply wp_bind, wp_run. exists tt, (booted b FS n nc m now r c w). split; [apply ihinit_run|].
  eapply (wp_run_iops fsleep sleep strategy is_tape lbolt FS fsof now os _ a); [by apply boot_irel|exact Hok|exact Hfu|]. intros s' H'.
  split_and!; [done| |exact H']. destruct H' as (V' & q & F & C & O & H1 & _ & _ & (_ & _ & _ & <-)). by rewrite <- (is_world _ _ _ _ _ _ H1).
Qed.

Definition demo_node : dinode := Dinode (Icommon1 33188 1 7 8 100) [3; 0; 0; 0; 0; 0; 0] 0 (Icommon2 1 2 3).
Definition demo_script : list iop := [IGet (0, 5); ISet (0, 5) demo_node ICHG; IPut (0, 5); IGet (0, 5)].

Lemma nst_zero_full : nch_full nst_zero.
Proof.
  intros j Hj. assert (H : Forall (λ p, is_Some (ncs nst_zero !! p)) (namecache_at <$> seqZ 0 NNAMECACHE)) by (refine (bool_decide_unpack _ _); vm_compute; done).
  rewrite Forall_forall in H. apply H, list_elem_of_fmap. exists j. split; [done|]. apply elem_of_seqZ. lia.
Qed.

Lemma demo_kok k : k = (0, 5) → kok demo_good {[1 := demo_fs]} (λ _, 1) k.
Proof.
  intros ->. split_and!; [|done|unfold ino_ok; cbn; lia|by exists demo_fs].
  unfold demo_good, sd_good. split_and!; [by left|vm_compute; done..].
Qed.

Lemma inode_table_transparent_witness :
  wp (ihinit;; run_iops (λ _ _, mret tt) nosleep one_strategy (λ _, false) 9 (λ _, 1) 13 demo_script)
    (λ rs s', rs = [Some (dnode demo_V (0, 5)); None; None; Some (stamp_d 50 ICHG demo_node)] ∧ u_error (bs s') = 0)
    (boot (bs file_as) {[1 := demo_fs]} 0 nst_zero [] 50 0 [] []).
Proof.
  eapply wp_mono.
  - apply (inode_table_transparent (λ _ _, mret tt) nosleep one_strategy (λ _, false) 9 demo_phys demo_good demo_V (bs file_as) {[1 := demo_fs]} (λ _, 1) 0 nst_zero [] 50 0 [] [] 13 demo_script).
    + apply file_cache.
    + intros k _. done.
    + apply nst_zero_full.
    + split; [split; [by apply demo_kok|vm_compute; done]|]. split; [split; [vm_compute; eauto|split; [by split|done]]|].
      split; [split; [vm_compute; eauto|split; vm_compute; done]|]. split; [split; [by apply demo_kok|vm_compute; done]|done].
    + done.
  - intros rs s' (-> & E & _). split; [reflexivity|exact E].
Defined.

(** ** A read error in iget

    A mounted file system of ten blocks, and the number of an inode that would
    lie beyond the end of the disk, as a damaged directory can name it. *)
Definition FSMAGIC2 : Z := 1397112382.
Definition live_fs : fs := Fs 1 2 10 0 4 ([0; 3; 4; 5] ++ replicate 196 0) 0 (replicate 32 0) 0 0 0 0 0 3 0 (replicate 7 0) 1 0 0 FSMAGIC2.
Definition live (now : Z) : ast :=
  boot (BS mem_init data_zero {[ (0, 1) := fs_words live_fs ]} 0 0 0 []) {[1 := live_fs]} 0 nst_zero [] now 0 [] [].
Definition bad_ino : Z := 2400.

(** When [iget] cannot read an inode into a table entry that was never used, it
    gives the entry the number 0 and drops it with [iput]; the link count there is
    still 0, so [irele] takes it for a removed file.  Number 0 is the last inode
    of the superblock's own block: [iupdat] overwrites the end of the superblock
    on the disk, its magic number included, and 0 is entered as a free inode. *)
Theorem iget_error_spoils_superblock now :
  fs_words live_fs !! 255%nat = Some FSMAGIC2 ∧
  wp (ihinit;; iget (λ _ _, mret tt) nosleep one_strategy (λ _, false) 9 20 0 1 bad_ino)
    (λ ip s', ip = 0 ∧ u_error (bs s') = EINVAL ∧
      (∃ d, disk (bs s') !! (0, 1) = Some d ∧ d !! 255%nat = Some now ∧ d !! 254%nat = Some now) ∧
      (∃ f, fss s' !! 1 = Some f ∧ fs_ninode f = 1 ∧ head (fs_inode f) = Some 0 ∧ fs_tinode f = 1))
    (live now).
Proof.
  split; [reflexivity|]. apply wp_run. eexists _, _. split; [vm_compute; reflexivity|].
  split_and!; [reflexivity..|eexists; split_and!; reflexivity|eexists; split_and!; reflexivity].
Qed.
End InodeSpec.
