(* ===== verification/NameSpec.v ===== *)
(** * The name cache stays in order

    The hash chains and the list of least recent use of the name cache under its
    operations, what [nchinval] leaves of a file system that goes away, and what
    becomes of a name that is entered. *)

From S2P Require Import Prelude Links Que NameCache Bio Alloc Inode.
Import NameCache Bio Alloc Inode.

Module NameSpec.
#[local] Set Default Proof Using "Type".

Definition is_nc (p : Z) : Prop := namecache_at 0 ≤ p < namecache_at NNAMECACHE.
Definition nheads : list Z := nchash_at <$> seqZ 0 NCHHASH.

(** An entry without its links. *)
Definition ncore (n : namecache) : namecache := set_nc_forw 0 (set_nc_back 0 n).
Definition ncont (n : namecache) : namecache := set_nc_nxt 0 (set_nc_prev 0 (ncore n)).

(** The list as a ring: the head is the place of [nchhead] and of the null
    pointer at the end, and [nchtail] is its back pointer. *)
Definition nz (v : Z) : Z := if v =? 0 then nchhead_at else if v =? nchhead_at then 0 else v.
Definition lnx (s : nst) (y : Z) : option Z := if decide (y = nchhead_at) then Some (nz (nchhead s)) else nz <$> (nc_nxt <$> ncs s !! y).
Definition lpv (s : nst) (y : Z) : option Z := if decide (y = nchhead_at) then Some (nchtail s) else nc_prev <$> ncs s !! y.
Definition lru (s : nst) (L : list Z) : Prop := ring (lnx s) (lpv s) nchhead_at L ∧ ∀ p, p ∈ L → is_nc p.

Definition nworld (s : nst) := (nchhead s, nchtail s, stats s).
Definition nrest : nst → _ := table_rest nchash ncs nworld ncore.

#[export] Instance nch_que_laws : QueLaws nst nrest.
Proof. by apply table_laws. Qed.

Record nist (s : nst) (X : option Z) (q : Z → list Z) (L : list Z) (C : Z → option namecache) (st : nchstats) : Prop := Nist {
  ns_chains : hashed is_nc nheads X (q_next s) (q_prev s) q;
  ns_heads : ∀ p, is_Some (nchash s !! p) ↔ p ∈ nheads;
  ns_lru : lru s L;
  ns_cont : ∀ z, ncont <$> ncs s !! z = C z;
  ns_stats : stats s = st
}.
Definition nset (p : Z) (c : namecache) (C : Z → option namecache) : Z → option namecache := λ z, if decide (z = p) then Some c else C z.

Section rules.
Implicit Types (s : nst) (X : option Z) (q : Z → list Z) (L : list Z) (C : Z → option namecache).

Lemma nc_not_slot p : is_nc p → p ≠ nchhead_at ∧ p ≠ 0.
Proof. unfold is_nc, namecache_at, nchhead_at, NNAMECACHE. lia. Qed.

Lemma nhead_nc h : h ∈ nheads → ¬ is_nc h.
Proof. unfold nheads. intros (j & -> & [? ?]%elem_of_seqZ)%list_elem_of_fmap. unfold is_nc, nchash_at, namecache_at, NCHHASH, NNAMECACHE in *. lia. Qed.

Lemma nist_get s X q L C st p c : nist s X q L C st → C p = Some c → ∃ n, ncs s !! p = Some n ∧ ncont n = c.
Proof. intros [_ _ _ Hc _] H. rewrite <- Hc in H. destruct (ncs s !! p) as [n|]; simplify_eq/=. eauto. Qed.

Lemma lru_ext s s' L : (∀ y, y = nchhead_at ∨ y ∈ L → lnx s' y = lnx s y ∧ lpv s' y = lpv s y) → lru s L → lru s' L.
Proof. intros Hy [Hr Hi]. split; [|done]. by eapply ring_ext. Qed.

Lemma nist_rest s s' X X' q q' L C st :
  nist s X q L C st → nrest s' = nrest s → hashed is_nc nheads X' (q_next s') (q_prev s') q' → nist s' X' q' L C st.
Proof.
  intros [_ Hh Hl Hc Hs] Hr Hq. unfold nrest, table_rest, nworld in Hr. rewrite !pair_equal_spec in Hr. destruct Hr as [[[[W1 W2] W3] E1] E2].
  assert (LL : ∀ y, ncore <$> ncs s' !! y = ncore <$> ncs s !! y) by (intros y; by rewrite <- !lookup_fmap, E1).
  assert (LH : ∀ y, is_Some (nchash s' !! y) ↔ is_Some (nchash s !! y)).
  { intros y. rewrite <- (fmap_is_Some (λ _, ())), <- lookup_fmap, E2, lookup_fmap. by rewrite fmap_is_Some. }
  split; [done|intros p; by rewrite LH| | |congruence].
  - eapply (lru_ext s); [|exact Hl]. intros y _. unfold lnx, lpv. rewrite W1, W2. case_decide; [done|]. specialize (LL y).
    destruct (ncs s' !! y) as [n'|], (ncs s !! y) as [n|]; simplify_eq/=; [|done]. destruct n, n'; unfold ncore in LL; simplify_eq/=; done.
  - intros z. rewrite <- Hc. assert (HC : ∀ o : option namecache, ncont <$> o = (λ n, set_nc_nxt 0 (set_nc_prev 0 n)) <$> (ncore <$> o)) by (intros o; by destruct o).
    by rewrite !HC, LL.
Qed.

(** *** Contents *)

Definition nplain (f : namecache → namecache) : Prop := ∀ n,
  nc_forw (f n) = nc_forw n ∧ nc_back (f n) = nc_back n ∧ nc_nxt (f n) = nc_nxt n ∧ nc_prev (f n) = nc_prev n ∧ ncont (f n) = f (ncont n).

Lemma nset_eq p c C : nset p c C p = Some c.
Proof. unfold nset. by rewrite decide_True. Qed.

Lemma nist_ext s X q L C C' st : (∀ z, C' z = C z) → nist s X q L C st → nist s X q L C' st.
Proof. intros HC [H1 H2 H3 H4 H5]. split; [done..| |done]. intros z. by rewrite HC. Qed.

Lemma nist_open s X q L C st p c : C p = Some c → nist s X q L C st → nist s X q L (nset p c C) st.
Proof. intros Hc. apply nist_ext. intros z. unfold nset. case_decide; [by subst|done]. Qed.

Lemma wp_rdn s X q L C st p c (Q : namecache → nst → Prop) :
  nist s X q L C st → C p = Some c → (∀ n, ncs s !! p = Some n → ncont n = c → Q n s) → wp (rdn p) Q s.
Proof. intros H Hc HQ. destruct (nist_get _ _ _ _ _ _ _ _ H Hc) as (n & Hn & Hnc). eapply wp_load; [exact Hn|]. by apply HQ. Qed.

Lemma wp_wrn s X q L C st p c f (Q : unit → nst → Prop) :
  nist s X q L (nset p c C) st → nplain f → (∀ s', nist s' X q L (nset p (f c) C) st → Q tt s') → wp (wrn p f) Q s.
Proof.
  intros H Hf HQ. destruct (nist_get _ _ _ _ _ _ _ _ H (nset_eq p c C)) as (n & Hn & Hnc). destruct H as [Hq Hh Hl Hct Hs].
  destruct (Hf n) as (F1 & F2 & F3 & F4 & F5). eapply wp_store; [rewrite Hn; reflexivity|]. apply HQ. split; [|done| | |done].
  - assert (HN : ∀ y, q_next (set_ncs (<[p := f n]> (ncs s)) s) y = q_next s y).
    { intros y. cbn. destruct (nchash s !! y); [done|]. rewrite lookup_replace. case_decide; [|done]. subst. rewrite Hn. simpl. by f_equal. }
    assert (HP : ∀ y, q_prev (set_ncs (<[p := f n]> (ncs s)) s) y = q_prev s y).
    { intros y. cbn. destruct (nchash s !! y); [done|]. rewrite lookup_replace. case_decide; [|done]. subst. rewrite Hn. simpl. by f_equal. }
    destruct Hq as [HR HE HD HH HL HM]. split; try done.
    + intros h Hhs. eapply ring_ext; [|by apply HR]. intros y _. by rewrite HN, HP.
    + intros e He HX Hno. rewrite HN, HP. by apply HL.
    + intros e He. rewrite HN, HP. by apply HM.
  - eapply (lru_ext s); [|exact Hl]. intros y _. unfold lnx, lpv. cbn. case_decide; [done|]. rewrite lookup_replace. case_decide; [|done].
    subst. rewrite Hn. simpl. by rewrite F3, F4.
  - intros z. cbn. rewrite lookup_replace. unfold nset. specialize (Hct z). unfold nset in Hct. case_decide; [|done]. simpl. rewrite F5. by rewrite Hnc.
Qed.

(** *** Chains *)

Lemma wp_remque_n s q L C st p (Q : unit → nst → Prop) :
  nist s None q L C st → is_nc p → (∀ s', nist s' (Some p) (without p q) L C st → Q tt s') → wp (remque p) Q s.
Proof. intros H Hi HQ. eapply (wp_remque nrest is_nc nheads); [by eapply ns_chains|done|]. intros s' Hq Hr. apply HQ. by eapply nist_rest. Qed.

Lemma wp_insque_n s q L C st p h (Q : unit → nst → Prop) :
  nist s (Some p) q L C st → is_nc p → h ∈ nheads → (∀ h', h' ∈ nheads → p ∉ q h') → (∀ s', nist s' None (front p h q) L C st → Q tt s') → wp (insque p h) Q s.
Proof. intros H Hi Hh Hno HQ. eapply (wp_insque nrest is_nc nheads); [by eapply ns_chains|done|done|done|]. intros s' Hq Hr. apply HQ. by eapply nist_rest. Qed.

Lemma wp_selfque_n s q L C st p (Q : unit → nst → Prop) :
  nist s (Some p) q L C st → is_nc p → (∀ h', h' ∈ nheads → p ∉ q h') → (∀ s', nist s' None q L C st → Q tt s') → wp (selfque p) Q s.
Proof. intros H Hi Hno HQ. eapply (wp_selfque nrest is_nc nheads); [by eapply ns_chains|done|done|]. intros s' Hq Hr. apply HQ. by eapply nist_rest. Qed.

(** *** The list of least recent use *)

(** Steps that change only its links. *)
Definition nbase s s' : Prop :=
  (∀ y, q_next s' y = q_next s y) ∧ (∀ y, q_prev s' y = q_prev s y) ∧ nchash s' = nchash s ∧
  (∀ z, ncont <$> ncs s' !! z = ncont <$> ncs s !! z) ∧ stats s' = stats s.

Lemma nbase_trans s1 s2 s3 : nbase s1 s2 → nbase s2 s3 → nbase s1 s3.
Proof.
  intros (A1 & A2 & A3 & A4 & A5) (B1 & B2 & B3 & B4 & B5). split_and!; try congruence; intros; by rewrite ?B1, ?B2, ?B4, ?A1, ?A2, ?A4.
Qed.

Lemma nbase_some s s' p : nbase s s' → is_Some (ncs s !! p) → is_Some (ncs s' !! p).
Proof. intros (_ & _ & _ & Hc & _) [n Hn]. specialize (Hc p). rewrite Hn in Hc. destruct (ncs s' !! p); [eauto|done]. Qed.

Lemma nist_base s s' X q L L' C st : nist s X q L C st → nbase s s' → lru s' L' → nist s' X q L' C st.
Proof.
  intros [[HR HE HD HH HL HM] Hh _ Hc Hs] (HN & HP & Hih & Hct & Hss) Hl. split; [|by rewrite Hih|done|intros; by rewrite Hct|congruence].
  split; try done.
  - intros h Hhs. eapply ring_ext; [|by apply HR]. intros y _. by rewrite HN, HP.
  - intros e He HX Hno. rewrite HN, HP. by apply HL.
  - intros e He. rewrite HN, HP. by apply HM.
Qed.

Lemma nbase_wrn s p n f : ncs s !! p = Some n → (∀ n, nc_forw (f n) = nc_forw n ∧ nc_back (f n) = nc_back n ∧ ncont (f n) = ncont n) →
  nbase s (set_ncs (<[p := f n]> (ncs s)) s).
Proof.
  intros Hn Hf. destruct (Hf n) as (F1 & F2 & F3). split_and!; try done; intros y; cbn; [destruct (nchash s !! y); [done|]..|];
    rewrite lookup_replace; case_decide; subst; rewrite ?Hn; simpl; congruence.
Qed.

Lemma wp_wr_slot s p v (Q : unit → nst → Prop) :
  is_Some (lnx s p) →
  (∀ s', nbase s s' → (∀ y, lnx s' y = upd (lnx s) p (nz v) y) → (∀ y, lpv s' y = lpv s y) → Q tt s') → wp (wr_slot p v) Q s.
Proof.
  intros Hp HQ. unfold wr_slot. destruct (Z.eqb_spec p nchhead_at) as [->|Hne].
  - apply wp_modify, HQ; [by split_and!| |done]. intros y. unfold lnx, upd. cbn. by case_decide.
  - unfold lnx in Hp. rewrite decide_False in Hp by done. destruct (ncs s !! p) as [n|] eqn:Hn; [|by destruct Hp].
    eapply wp_store; [rewrite Hn; reflexivity|]. apply HQ; [by apply nbase_wrn| |].
    + intros y. unfold lnx, upd. cbn. rewrite lookup_replace. repeat (case_decide; subst); done.
    + intros y. unfold lpv. cbn. rewrite lookup_replace. repeat (case_decide; subst); rewrite ?Hn; done.
Qed.

Lemma wp_set_prev s p v (Q : unit → nst → Prop) :
  is_nc p → is_Some (ncs s !! p) →
  (∀ s', nbase s s' → (∀ y, lnx s' y = lnx s y) → (∀ y, lpv s' y = upd (lpv s) p v y) → Q tt s') → wp (wrn p (set_nc_prev v)) Q s.
Proof.
  intros Hp [n Hn] HQ. destruct (nc_not_slot p Hp) as [Hs _]. eapply wp_store; [rewrite Hn; reflexivity|]. apply HQ; [by apply nbase_wrn| |].
  - intros y. unfold lnx. cbn. rewrite lookup_replace. repeat (case_decide; subst); rewrite ?Hn; done.
  - intros y. unfold lpv, upd. cbn. rewrite lookup_replace. repeat (case_decide; subst); done.
Qed.

Lemma wp_set_nxt s p v (Q : unit → nst → Prop) :
  is_nc p → is_Some (ncs s !! p) →
  (∀ s', nbase s s' → (∀ y, lnx s' y = upd (lnx s) p (nz v) y) → (∀ y, lpv s' y = lpv s y) → Q tt s') → wp (wrn p (set_nc_nxt v)) Q s.
Proof.
  intros Hp [n Hn] HQ. destruct (nc_not_slot p Hp) as [Hs _]. assert (wrn p (set_nc_nxt v) = wr_slot p v) as ->.
  { unfold wr_slot. by rewrite (proj2 (Z.eqb_neq _ _) Hs). }
  apply wp_wr_slot; [|done]. unfold lnx. by rewrite decide_False, Hn by done.
Qed.

Lemma wp_set_head s v (Q : unit → nst → Prop) :
  (∀ s', nbase s s' → (∀ y, lnx s' y = upd (lnx s) nchhead_at (nz v) y) → (∀ y, lpv s' y = lpv s y) → Q tt s') → wp (modify (set_nchhead v)) Q s.
Proof. intros HQ. change (modify (set_nchhead v)) with (wr_slot nchhead_at v). apply wp_wr_slot; [|done]. unfold lnx. by rewrite decide_True. Qed.

Lemma wp_set_tail s v (Q : unit → nst → Prop) :
  (∀ s', nbase s s' → (∀ y, lnx s' y = lnx s y) → (∀ y, lpv s' y = upd (lpv s) nchhead_at v y) → Q tt s') → wp (modify (set_nchtail v)) Q s.
Proof. intros HQ. apply wp_modify, HQ; [by split_and!|done|]. intros y. unfold lpv, upd. cbn. by case_decide. Qed.

Lemma nz_nch_end v : nz v = nchhead_at ↔ v = 0.
Proof. unfold nz, nchhead_at. destruct (Z.eqb_spec v 0); [done|]. destruct (Z.eqb_spec v 559); lia. Qed.

Lemma nz_nc v p : is_nc p → nz v = p ↔ v = p.
Proof. unfold nz, is_nc, namecache_at, nchhead_at, NNAMECACHE. intros. destruct (Z.eqb_spec v 0); [lia|]. destruct (Z.eqb_spec v 559); lia. Qed.

Lemma lru_at s L1 p L2 : lru s (L1 ++ p :: L2) → ∃ n, ncs s !! p = Some n ∧ is_nc p ∧
  nz (nc_nxt n) = after nchhead_at L2 ∧ nc_prev n = before nchhead_at L1 ∧ p ∉ L1 ∧ p ∉ L2 ∧ after nchhead_at L2 ≠ p ∧ before nchhead_at L1 ≠ p.
Proof.
  intros [Hr Hi]. assert (Hp : is_nc p) by (apply Hi; set_solver). destruct (nc_not_slot _ Hp) as [Hs _].
  destruct (ring_at _ _ _ _ _ _ Hr) as (Hn & Hpv & _). unfold lnx, lpv in Hn, Hpv. rewrite decide_False in Hn, Hpv by done.
  destruct (ncs s !! p) as [n|]; [|done]. cbn in Hn, Hpv. destruct Hr as [_ [_ Hnd]%NoDup_cons]. apply NoDup_app in Hnd as (_ & Hd & [H2 _]%NoDup_cons).
  assert (p ∉ L1) by (intros ?; apply (Hd p); [done|by left]). exists n. split_and!; try congruence.
  - destruct (after_mem nchhead_at L2) as [->|]; [done|]. congruence.
  - destruct (before_mem nchhead_at L1) as [->|]; [done|]. congruence.
Qed.

Lemma lru_some s L p : lru s L → p ∈ L → is_Some (ncs s !! p).
Proof. intros Hl (L1 & L2 & ->)%list_elem_of_split. destruct (lru_at _ _ _ _ Hl) as (n & -> & _). eauto. Qed.

(** The entry is taken off the list; its own links are left. *)
Lemma wp_lru_remove s X q L1 p L2 C st n (Q : unit → nst → Prop) :
  nist s X q (L1 ++ p :: L2) C st → ncs s !! p = Some n → (∀ s', nist s' X q (L1 ++ L2) C st → Q tt s') → wp (lru_remove p (nc_nxt n)) Q s.
Proof.
  intros H Hn HQ. pose proof (ns_lru _ _ _ _ _ _ H) as Hl. destruct (lru_at _ _ _ _ Hl) as (n' & Hn' & Hp & Hnx & Hpv & H1 & H2 & Ha & Hb). simplify_eq.
  pose proof Hl as [Hr Hi]. unfold lru_remove. apply wp_bind. eapply wp_load; [exact Hn|]. rewrite Hpv.
  apply wp_bind, wp_wr_slot. { destruct (ring_at _ _ _ _ _ _ Hr) as (_ & _ & _ & ->). eauto. }
  intros s1 B1 N1 P1. rewrite Hnx in N1. destruct (nbase_some _ _ p B1 ltac:(by rewrite Hn)) as [n1 Hn1]. apply wp_bind. eapply wp_load; [exact Hn1|].
  destruct (nc_not_slot _ Hp) as [Hs _].
  assert (nc_prev n1 = before nchhead_at L1) as ->.
  { specialize (P1 p). unfold lpv in P1. rewrite !decide_False, Hn, Hn1 in P1 by done. cbn in P1. congruence. }
  apply (wp_mono _ (λ _ s2, nbase s1 s2 ∧ (∀ y, lnx s2 y = lnx s1 y) ∧ (∀ y, lpv s2 y = upd (lpv s1) (after nchhead_at L2) (before nchhead_at L1) y))).
  - destruct (Z.eqb_spec (nc_nxt n) 0) as [E|E]; cbn [negb].
    + assert (after nchhead_at L2 = nchhead_at) as -> by (rewrite <- Hnx, E; done). apply wp_set_tail. by intros.
    + assert (Hin : after nchhead_at L2 ∈ L2). { destruct (after_mem nchhead_at L2) as [E'|]; [|done]. rewrite E' in Hnx. by apply nz_nch_end in Hnx. }
      assert (Hif : is_nc (after nchhead_at L2)) by (apply Hi; set_solver). apply (nz_nc _ _ Hif) in Hnx as ->.
      apply wp_set_prev; [done| |by intros]. eapply nbase_some; [exact B1|]. eapply lru_some; [exact Hl|]. set_solver.
  - intros [] s2 (B2 & N2 & P2). apply HQ. eapply nist_base; [exact H|by eapply nbase_trans|]. split; [|intros x Hx; apply Hi; set_solver].
    eapply ring_remove; [exact Hr| |].
    + intros y. by rewrite N2, N1.
    + intros y. rewrite P2. unfold upd. by rewrite P1.
Qed.

Lemma wp_lru_push s X q x L p C st (Q : unit → nst → Prop) :
  nist s X q (x :: L) C st → is_nc p → is_Some (C p) → p ∉ x :: L → (∀ s', nist s' X q (p :: x :: L) C st → Q tt s') → wp (lru_push p x) Q s.
Proof.
  intros H Hp [c Hc] Hno HQ. pose proof (ns_lru _ _ _ _ _ _ H) as [Hr Hi]. destruct (nist_get _ _ _ _ _ _ _ _ H Hc) as (n & Hn & _).
  destruct (nc_not_slot _ Hp) as [Hs _]. assert (Hx : is_nc x) by (apply Hi; by left). assert (Hxs : is_Some (ncs s !! x)) by (eapply lru_some; [by split|by left]).
  unfold lru_push. apply wp_bind, wp_set_nxt; [done|by rewrite Hn|]. intros s1 B1 N1 P1. assert (nz x = x) as E by (by apply nz_nc). rewrite E in N1.
  apply wp_bind, wp_set_prev; [done|eapply nbase_some; [exact B1|]; by rewrite Hn|]. intros s2 B2 N2 P2.
  apply wp_bind, wp_set_prev; [done|by do 2 (eapply nbase_some; [eassumption|])|]. intros s3 B3 N3 P3.
  apply wp_set_head. intros s4 B4 N4 P4. assert (nz p = p) as E' by (by apply nz_nc). rewrite E' in N4.
  apply HQ. eapply nist_base; [exact H|by do 3 (eapply nbase_trans; [eassumption|])|]. split; [|intros y [->|Hy]%elem_of_cons; [done|by apply Hi]].
  eapply (ring_insert _ _ _ _ nchhead_at [] (x :: L)); [exact Hr|done|set_solver|done| |].
  - intros y. change (before nchhead_at []) with nchhead_at. change (after nchhead_at (x :: L)) with x. rewrite N4. unfold upd. case_decide; [done|]. rewrite N3, N2, N1. done.
  - intros y. change (before nchhead_at []) with nchhead_at. change (after nchhead_at (x :: L)) with x. rewrite P4, P3. unfold upd. case_decide; [done|]. rewrite P2. unfold upd. case_decide; [done|]. apply P1.
Qed.

Lemma wp_lru_append {Y} s X q L p C st (K : M nst Y) (Q : Y → nst → Prop) :
  nist s X q L C st → is_nc p → is_Some (C p) → p ∉ L → (∀ s', nist s' X q (L ++ [p]) C st → wp K Q s') →
  wp (wrn p (set_nc_nxt 0);; t ← gets nchtail; wrn p (set_nc_prev t);; wr_slot t p;; modify (set_nchtail p);; K) Q s.
Proof.
  intros H Hp [c Hc] Hno HQ. pose proof (ns_lru _ _ _ _ _ _ H) as [Hr Hi]. destruct (nist_get _ _ _ _ _ _ _ _ H Hc) as (n & Hn & _).
  destruct (nc_not_slot _ Hp) as [Hs _]. rewrite <- (app_nil_r L) in Hr. destruct (ring_around _ _ _ L [] Hr) as [Hnx Hpv]. change (after nchhead_at []) with nchhead_at in *.
  assert (Hbp : before nchhead_at L ≠ p) by (destruct (before_mem nchhead_at L) as [->|]; [done|congruence]).
  apply wp_bind, wp_set_nxt; [done|by rewrite Hn|]. intros s1 B1 N1 P1. apply wp_bind, wp_gets.
  assert (nchtail s1 = before nchhead_at L) as ->. { specialize (P1 nchhead_at). unfold lpv in P1, Hpv. rewrite !decide_True in P1 by done. rewrite decide_True in Hpv by done. congruence. }
  apply wp_bind, wp_set_prev; [done|eapply nbase_some; [exact B1|]; by rewrite Hn|]. intros s2 B2 N2 P2.
  apply wp_bind, wp_wr_slot; [rewrite N2, N1, upd_ne by done; by rewrite Hnx|]. intros s3 B3 N3 P3. assert (nz p = p) as E by (by apply nz_nc). rewrite E in N3.
  apply wp_bind, wp_set_tail. intros s4 B4 N4 P4. apply HQ. eapply nist_base; [exact H|by do 3 (eapply nbase_trans; [eassumption|])|].
  split; [|intros y [?|?%list_elem_of_singleton]%elem_of_app; [by apply Hi|by subst]].
  eapply (ring_insert _ _ _ _ nchhead_at L []); [exact Hr|done|done|set_solver| |].
  - intros y. rewrite N4, N3. unfold upd. case_decide; [done|]. rewrite N2, N1. done.
  - intros y. rewrite P4. unfold upd. change (after nchhead_at []) with nchhead_at. case_decide; [done|]. rewrite P3, P2. unfold upd. case_decide; [done|]. apply P1.
Qed.

(** ** nchinval *)

(** An entry for a name on [dev], or in a directory there. *)
Definition of_dev (dev : Z) (c : namecache) : bool := negb ((nc_ip c =? 0) || negb (nc_idev c =? dev) && negb (nc_dev c =? dev)).
Definition stale C (dev p : Z) : bool := match C p with Some c => of_dev dev c | None => false end.
Definition purged (c : namecache) : namecache := set_nc_ip 0 (set_nc_ino 0 (set_nc_id 0 (set_nc_dev NODEV (set_nc_idev NODEV c)))).
Notation stales C dev l := (filter (λ p, stale C dev p = true) l).
Notation fresh C dev l := (filter (λ p, stale C dev p = false) l).

Lemma lru_short s L : lru s L → (length L <= Z.to_nat NNAMECACHE)%nat.
Proof.
  intros [[_ [_ Hnd]%NoDup_cons] Hi]. pose proof (submseteq_length L (seqZ (namecache_at 0) NNAMECACHE)) as Hl. rewrite length_seqZ in Hl.
  apply Hl, NoDup_submseteq; [done|]. intros x Hx. apply elem_of_seqZ. apply Hi in Hx. unfold is_nc, namecache_at in *. lia.
Qed.

Lemma purged_fresh dev c : of_dev dev (purged c) = false.
Proof. done. Qed.

Lemma stale_ne C dev p c y : y ≠ p → stale (nset p c C) dev y = stale C dev y.
Proof. intros Hy. unfold stale, nset. by rewrite decide_False. Qed.

Lemma stales_ne C dev p c (l : list Z) : p ∉ l → stales (nset p c C) dev l = stales C dev l ∧ fresh (nset p c C) dev l = fresh C dev l.
Proof.
  intros Hp. induction l as [|x l IH]; [done|]. destruct IH as [IH1 IH2]; [set_solver|]. rewrite !filter_cons, stale_ne, IH1, IH2 by set_solver. done.
Qed.

(** One entry goes off its chain and to the front of the list. *)
Lemma wp_purge s q L1 p L2 C st c n {Y} (K : Z → M nst Y) (Q : Y → nst → Prop) :
  nist s None q (L1 ++ p :: L2) C st → C p = Some c → ncs s !! p = Some n → L1 ++ L2 ≠ [] →
  (∀ s', nist s' None (without p q) (p :: L1 ++ L2) (nset p (purged c) C) st → wp (K (after 0 (L1 ++ L2))) Q s') →
  wp (wrn p (set_nc_idev NODEV);; wrn p (set_nc_dev NODEV);; wrn p (set_nc_id 0);; wrn p (set_nc_ino 0);; wrn p (set_nc_ip 0);;
      remque p;; selfque p;; lru_remove p (nc_nxt n);; nxtcp ← gets nchhead; lru_push p nxtcp;; K nxtcp) Q s.
Proof.
  intros H Hc Hn Hne HQ. pose proof (ns_lru _ _ _ _ _ _ H) as Hl. destruct (lru_at _ _ _ _ Hl) as (n' & Hn' & Hp & Hnx & Hpv & H1 & H2 & _). simplify_eq.
  apply (nist_open _ _ _ _ _ _ _ _ Hc) in H.
  apply wp_bind. eapply wp_wrn; [exact H|by (intros ?; split_and!)|]. intros s1 A1. apply wp_bind. eapply wp_wrn; [exact A1|by (intros ?; split_and!)|]. intros s2 A2.
  apply wp_bind. eapply wp_wrn; [exact A2|by (intros ?; split_and!)|]. intros s3 A3. apply wp_bind. eapply wp_wrn; [exact A3|by (intros ?; split_and!)|]. intros s4 A4.
  apply wp_bind. eapply wp_wrn; [exact A4|by (intros ?; split_and!)|]. intros s5 A5. change (set_nc_ip 0 _) with (purged c) in A5.
  apply wp_bind. eapply wp_remque_n; [exact A5|done|]. intros s6 A6.
  apply wp_bind. eapply wp_selfque_n; [exact A6|done|intros h _; rewrite without_in; tauto|]. intros s7 A7. apply wp_bind.
  pose proof (ns_lru _ _ _ _ _ _ A7) as Hl7. destruct (lru_at _ _ _ _ Hl7) as (n7 & Hn7 & _ & Hnx7 & _).
  assert (nc_nxt n = nc_nxt n7) as ->.
  { destruct (decide (L2 = [])) as [->|HL2].
    - change (after nchhead_at []) with nchhead_at in *. apply nz_nch_end in Hnx. apply nz_nch_end in Hnx7. congruence.
    - assert (Ha : is_nc (after nchhead_at L2)) by (destruct L2; [done|]; apply Hl; cbn; set_solver).
      apply (proj1 (nz_nc _ _ Ha)) in Hnx, Hnx7. congruence. }
  eapply wp_lru_remove; [exact A7|exact Hn7|]. intros s8 A8. apply wp_bind, wp_gets. destruct (L1 ++ L2) as [|x L] eqn:EL; [done|].
  assert (nchhead s8 = x) as ->.
  { pose proof (ns_lru _ _ _ _ _ _ A8) as [[[Hx _] _] Hi]. unfold lnx in Hx. rewrite decide_True in Hx by done. injection Hx as Hx. apply (proj1 (nz_nc _ x (Hi x ltac:(by left)))). done. }
  apply wp_bind. eapply wp_lru_push; [exact A8|done|by rewrite nset_eq|rewrite <- EL; set_solver|]. exact HQ.
Qed.

(** What becomes of the chains, the list and the contents. *)
Definition kept C dev (post : list Z) q : Z → list Z := λ h, filter (λ p, ¬ (p ∈ post ∧ stale C dev p = true)) (q h).
Definition moved C dev (pre post : list Z) : list Z := reverse (stales C dev post) ++ pre ++ fresh C dev post.
Definition cleaned C dev (post : list Z) : Z → option namecache :=
  λ z, if decide (z ∈ post ∧ stale C dev z = true) then purged <$> C z else C z.

Lemma fresh_all C dev (l : list Z) : (∀ x, x ∈ l → stale C dev x = false) → stales C dev l = [] ∧ fresh C dev l = l.
Proof.
  intros Hl. induction l as [|x l IH]; [done|]. destruct IH as [IH1 IH2]; [intros; apply Hl; set_solver|].
  rewrite !filter_cons, (Hl x) by set_solver. cbn. by rewrite IH1, IH2.
Qed.

Lemma hashed_same el hs X nx pv q q' : (∀ h, h ∈ hs → q' h = q h) → hashed el hs X nx pv q → hashed el hs X nx pv q'.
Proof.
  intros Hq [HR HE HD HH HL HM]. split.
  - intros h Hh. rewrite Hq by done. by apply HR.
  - intros h e Hh. rewrite Hq by done. by apply HE.
  - intros h h' e Hh Hh'. rewrite !Hq by done. by apply HD.
  - done.
  - intros e He HX Hno. apply HL; [done|done|]. intros h Hh. rewrite <- Hq by done. by apply Hno.
  - done.
Qed.

Lemma nist_same s X q q' L L' C C' st : (∀ h, q' h = q h) → L' = L → (∀ z, C' z = C z) → nist s X q L C st → nist s X q' L' C' st.
Proof. intros Hq -> HC H. eapply nist_ext; [exact HC|]. destruct H as [H1 H2 H3 H4 H5]. split; try done. eapply hashed_same; [|exact H1]. by intros. Qed.

Lemma wp_nchinval_loop dev fuel : ∀ s q pre post C st (Q : unit → nst → Prop),
  nist s None q (pre ++ post) C st → (2 <= length (pre ++ post))%nat → (∀ x, x ∈ pre → stale C dev x = false) →
  (length (stales C dev post) * S (length (pre ++ post)) + length post < fuel)%nat →
  (∀ s', nist s' None (kept C dev post q) (moved C dev pre post) (cleaned C dev post) st → Q tt s') →
  wp (nchinval_loop fuel (after 0 post) dev) Q s.
Proof.
  induction fuel as [|fuel IH]; intros s q pre post C st Q H Hlen Hpre Hfu HQ; [lia|]. cbn [nchinval_loop].
  pose proof (ns_lru _ _ _ _ _ _ H) as [[_ Hnd] Hi]. apply NoDup_cons in Hnd as [_ Hnd].
  destruct post as [|p post].
  { apply wp_ret, HQ. eapply nist_same; [..|exact H].
    - intros h. unfold kept. induction (q h) as [|x l IHl]; [done|]. rewrite filter_cons, decide_True by set_solver. by rewrite IHl.
    - done.
    - intros z. unfold cleaned. by rewrite decide_False by set_solver. }
  change (after 0 (p :: post)) with p. assert (Hp : is_nc p) by (apply Hi; set_solver). destruct (nc_not_slot _ Hp) as [_ H0]. rewrite (proj2 (Z.eqb_neq _ _) H0).
  destruct (lru_at _ _ _ _ (ns_lru _ _ _ _ _ _ H)) as (n & Hn & _ & Hnx & _ & Hp1 & Hp2 & _).
  assert (Hc : C p = Some (ncont n)) by (rewrite <- (ns_cont _ _ _ _ _ _ H), Hn; done).
  assert (Hst : stale C dev p = of_dev dev n) by (unfold stale; by rewrite Hc).
  apply wp_bind. eapply wp_load; [exact Hn|]. rewrite filter_cons, Hst in Hfu.
  destruct ((nc_ip n =? 0) || negb (nc_idev n =? dev) && negb (nc_dev n =? dev)) eqn:E.
  - assert (Hof : of_dev dev n = false) by (unfold of_dev; by rewrite E). rewrite Hof in Hst, Hfu. rewrite decide_False in Hfu by done. cbn in Hfu.
    assert (nc_nxt n = after 0 post) as ->.
    { destruct post as [|y post]; [by apply nz_nch_end in Hnx|]. change (after nchhead_at (y :: post)) with y in Hnx. apply (nz_nc _ y); [apply Hi; set_solver|done]. }
    eapply (IH s q (pre ++ [p]) post C st); [by rewrite <- app_assoc|by rewrite <- app_assoc| |rewrite <- app_assoc; cbn; lia|].
    + intros x [?|?%list_elem_of_singleton]%elem_of_app; [by apply Hpre|by subst].
    + intros s' H'. apply HQ. eapply nist_same; [..|exact H'].
      * intros h. unfold kept. apply list_filter_iff. intros x. split; intros Hx [Hx1 Hx2]; apply Hx; (split; [|done]); [set_solver|]. apply elem_of_cons in Hx1 as [->|]; [congruence|done].
      * unfold moved. rewrite !filter_cons, Hst. cbn. by rewrite <- app_assoc.
      * intros z. unfold cleaned. apply decide_ext. rewrite elem_of_cons. split; [intros [[->|?] ?]; [congruence|done]|intros [? ?]; split; [by right|done]].
  - assert (Hof : of_dev dev n = true) by (unfold of_dev; by rewrite E). rewrite Hof in Hst, Hfu. rewrite decide_True in Hfu by done. cbn in Hfu.
    assert (Hpp : p ∉ pre ++ post) by set_solver. assert (Hlp : S (length (pre ++ post)) = length (pre ++ p :: post)) by (rewrite !length_app; cbn; lia).
    eapply (wp_purge s q pre p post C st); [exact H|exact Hc|exact Hn|intros E0; rewrite E0 in Hlp; cbn in Hlp; lia|].
    intros s1 H1. set (c' := purged (ncont n)) in *. destruct (stales_ne C dev p c' post Hp2) as [S1 S2]. destruct (fresh_all C dev pre Hpre) as [S3 S4].
    destruct (stales_ne C dev p c' pre Hp1) as [S5 S6].
    eapply (IH s1 (without p q) [p] (pre ++ post) (nset p c' C) st); [exact H1|cbn; lia| | |].
    + intros x ->%list_elem_of_singleton. unfold stale. rewrite nset_eq. apply purged_fresh.
    + rewrite filter_app, S1, S5, S3. cbn. rewrite !length_app in *. cbn in *. nia.
    + intros s' H'. apply HQ. eapply nist_same; [..|exact H'].
      * intros h. unfold kept, without. rewrite list_filter_filter. apply list_filter_iff. intros x. destruct (decide (x = p)) as [->|Hxp].
        { split; [intros Hx; destruct Hx; split; [by left|done]|intros [_ ?]; done]. }
        rewrite stale_ne, elem_of_cons, elem_of_app by done. split; [intros Hx; split; [|done]|intros [Hx _]].
        -- intros [[Hx1|Hx1] Hx2]; [rewrite Hpre in Hx2 by done; done|]. apply Hx. split; [by right|done].
        -- intros [[?|Hx1] Hx2]; [done|]. apply Hx. split; [by right|done].
      * unfold moved. rewrite !filter_cons, Hst, (decide_True (P := true = true)), (decide_False (P := true = false)) by done. rewrite !filter_app, S1, S2, S5, S6, S3, S4. rewrite reverse_cons, <- !app_assoc. done.
      * intros z. unfold cleaned. destruct (decide (z = p)) as [->|Hz].
        -- rewrite decide_True by (split; [set_solver|done]). rewrite decide_False by set_solver. rewrite nset_eq, Hc. done.
        -- rewrite stale_ne by done. unfold nset. rewrite (decide_False (P := z = p)) by done. apply decide_ext. rewrite elem_of_cons, elem_of_app.
           split; [intros [[?|?] ?]; [done|split; [by right|done]]|]. intros [[?|?] Hz2]; [rewrite Hpre in Hz2 by done; done|split; [by right|done]].
Qed.

(** ** Names *)

Lemma nist_some s X q L C st p : nist s X q L C st → is_nc p → is_Some (C p).
Proof.
  intros [[_ _ _ _ _ HM] Hh _ Hc _] Hp. rewrite <- Hc. destruct (HM p Hp) as [Hn _]. unfold q_next, nch_que, table_que in Hn.
  destruct (nchash s !! p) as [l|] eqn:E; [|destruct (ncs s !! p); simpl; [eauto|by destruct Hn]].
  exfalso. apply (nhead_nc p); [|done]. apply Hh. by rewrite E.
Qed.

Lemma nchains_short s X q L C st h : nist s X q L C st → h ∈ nheads → (length (q h) <= Z.to_nat NNAMECACHE)%nat.
Proof.
  intros [[HR HE _ _ _ _] _ _ _ _] Hh. destruct (HR h Hh) as [_ [_ Hnd]%NoDup_cons].
  pose proof (submseteq_length (q h) (seqZ (namecache_at 0) NNAMECACHE)) as Hl. rewrite length_seqZ in Hl. apply Hl, NoDup_submseteq; [done|].
  intros x Hx. apply elem_of_seqZ. apply (HE h x Hh) in Hx. unfold is_nc, namecache_at in *. lia.
Qed.

Lemma NHASH_head h i d : NHASH h i d ∈ nheads.
Proof.
  unfold NHASH, nheads. apply list_elem_of_fmap. eexists. split; [done|]. apply elem_of_seqZ. change (NCHHASH - 1) with (Z.ones 4).
  rewrite Z.land_ones by lia. unfold NCHHASH. pose proof (Z.mod_pos_bound (u32 (h + i + 13 * d)) (2 ^ 4)). lia.
Qed.

Lemma names_cont ino dev nm n : names ino dev nm (ncont n) = names ino dev nm n.
Proof. done. Qed.

(** The search of a chain: the first entry of the name, or none. *)
Lemma wp_nch_find s X q L C st h ino dev nm l2 : ∀ l1 fuel (Q : Z → nst → Prop),
  nist s X q L C st → h ∈ nheads → q h = l1 ++ l2 → (length l2 < fuel)%nat →
  (∀ l3 p c l4, l2 = l3 ++ p :: l4 → C p = Some c → names ino dev nm c = true → (∀ x cx, x ∈ l3 → C x = Some cx → names ino dev nm cx = false) → Q p s) →
  ((∀ p c, p ∈ l2 → C p = Some c → names ino dev nm c = false) → Q 0 s) →
  wp (nch_find fuel (after h l2) h ino dev nm) Q s.
Proof.
  induction l2 as [|p l2 IH]; intros l1 fuel Q H Hh Hq Hfu HY HN; (destruct fuel as [|fuel]; [cbn in Hfu; lia|]); cbn [nch_find].
  - cbn. rewrite Z.eqb_refl. apply wp_ret, HN. set_solver.
  - change (after h (p :: l2)) with p. pose proof (ns_chains _ _ _ _ _ _ H) as [HR HE _ HH _ _].
    assert (Hp : is_nc p) by (apply (HE h); [done|]; rewrite Hq; set_solver).
    assert (Hne : p ≠ h) by (intros ->; by apply (HH h)). rewrite (proj2 (Z.eqb_neq _ _) Hne).
    destruct (nist_some _ _ _ _ _ _ _ H Hp) as [c Hc]. apply wp_bind. eapply wp_rdn; [exact H|exact Hc|]. intros n Hn Hnc.
    rewrite <- names_cont, Hnc. destruct (names ino dev nm c) eqn:E.
    + apply wp_ret, (HY [] p c l2); [done|done|done|set_solver].
    + pose proof (HR h Hh) as Hr. rewrite Hq in Hr. destruct (ring_at _ _ _ _ _ _ Hr) as (Hnx & _).
      assert (nc_forw n = after h l2) as ->.
      { cbn in Hnx. destruct (nchash s !! p) eqn:Eh; [|rewrite Hn in Hnx; by injection Hnx].
        exfalso. apply (nhead_nc p); [|done]. apply (ns_heads _ _ _ _ _ _ H). by rewrite Eh. }
      eapply (IH (l1 ++ [p])); [exact H|done|by rewrite <- app_assoc|cbn in Hfu; lia| |].
      * intros l3 p' c' l4 -> Hc' Hn' Hno. apply (HY (p :: l3) p' c' l4); [done|done|done|]. intros x cx [->|Hx]%elem_of_cons Hcx; [by simplify_eq|by eapply Hno].
      * intros Hno. apply HN. intros p' c' [->|Hin]%elem_of_cons Hc'; [by simplify_eq|by eapply Hno].
Qed.

Lemma wp_find_chain s X q L C st h ino dev nm (Q : Z → nst → Prop) :
  nist s X q L C st → h ∈ nheads →
  (∀ l3 p c l4, q h = l3 ++ p :: l4 → C p = Some c → names ino dev nm c = true → (∀ x cx, x ∈ l3 → C x = Some cx → names ino dev nm cx = false) → Q p s) →
  ((∀ p c, p ∈ q h → C p = Some c → names ino dev nm c = false) → Q 0 s) →
  wp (hd ← rd_next h; nch_find nch_chain_fuel hd h ino dev nm) Q s.
Proof.
  intros H Hh HY HN. apply wp_bind. pose proof (ns_chains _ _ _ _ _ _ H) as [HR _ _ _ _ _]. destruct (ring_around _ _ _ [] _ (HR _ Hh)) as [Hn _].
  eapply wp_load; [exact Hn|]. eapply (wp_nch_find s X q L C st h ino dev nm (q h) []); [exact H|done|done| |done|done].
  pose proof (nchains_short _ _ _ _ _ _ _ H Hh). unfold nch_chain_fuel. lia.
Qed.

(** An entry that is not wanted. *)
Lemma wp_nch_drop s q L1 p L2 C st (Q : unit → nst → Prop) :
  nist s None q (L1 ++ p :: L2) C st → L1 ++ L2 ≠ [] → (∀ s', nist s' None (without p q) (p :: L1 ++ L2) C st → Q tt s') → wp (nch_drop p) Q s.
Proof.
  intros H Hne HQ. destruct (lru_at _ _ _ _ (ns_lru _ _ _ _ _ _ H)) as (n & Hn & Hp & _ & _ & H1 & H2 & _).
  unfold nch_drop. apply wp_bind. eapply wp_load; [exact Hn|]. apply wp_bind. eapply wp_lru_remove; [exact H|exact Hn|]. intros s1 A1.
  apply wp_bind. eapply wp_remque_n; [exact A1|done|]. intros s2 A2. apply wp_bind, wp_gets. destruct (L1 ++ L2) as [|x L] eqn:EL; [done|].
  assert (nchhead s2 = x) as ->.
  { pose proof (ns_lru _ _ _ _ _ _ A2) as [[[Hx _] _] Hi]. unfold lnx in Hx. rewrite decide_True in Hx by done. injection Hx as Hx. apply (proj1 (nz_nc _ x (Hi x ltac:(by left)))). done. }
  apply wp_bind. eapply wp_lru_push; [exact A2|done|by eapply nist_some|rewrite <- EL; set_solver|]. intros s3 A3.
  eapply wp_selfque_n; [exact A3|done|intros h _; rewrite without_in; tauto|done].
Qed.

(** A name is entered in the least recently used entry. *)
Definition entered (dp pino pdev idev id : Z) (nm : list Z) (c : namecache) : namecache :=
  set_nc_name (nm ++ drop (length nm) (nc_name c))
    (set_nc_nlen (zlen nm) (set_nc_id (u16 id) (set_nc_idev idev (set_nc_dev pdev (set_nc_ino pino (set_nc_ip dp c)))))).

Lemma wp_nch_enter s q p L C st c h dp pino pdev idev id nm (Q : unit → nst → Prop) :
  nist s None q (p :: L) C st → C p = Some c → h ∈ nheads →
  (∀ s', nist s' None (front p h (without p q)) (L ++ [p]) (nset p (entered dp pino pdev idev id nm c) C) st → Q tt s') →
  wp (nch_enter h dp pino pdev idev id nm) Q s.
Proof.
  intros H Hc Hh HQ. destruct (lru_at s [] p L (ns_lru _ _ _ _ _ _ H)) as (n & Hn & Hp & _ & _ & _ & Hno & _). destruct (nc_not_slot _ Hp) as [_ H0].
  unfold nch_enter. apply wp_bind, wp_gets.
  assert (nchhead s = p) as ->.
  { pose proof (ns_lru _ _ _ _ _ _ H) as [[[Hx _] _] _]. unfold lnx in Hx. rewrite decide_True in Hx by done. injection Hx as Hx. by apply (proj1 (nz_nc _ p Hp)). }
  rewrite (proj2 (Z.eqb_neq _ _) H0). apply wp_bind. eapply wp_load; [exact Hn|].
  apply wp_bind. eapply (wp_lru_remove s None q [] p L); [exact H|exact Hn|]. intros s1 A1. apply (nist_open _ _ _ _ _ _ _ _ Hc) in A1.
  apply wp_bind. eapply wp_remque_n; [exact A1|done|]. intros s2 A2.
  apply wp_bind. eapply wp_wrn; [exact A2|by (intros ?; split_and!)|]. intros s3 A3. apply wp_bind. eapply wp_wrn; [exact A3|by (intros ?; split_and!)|]. intros s4 A4.
  apply wp_bind. eapply wp_wrn; [exact A4|by (intros ?; split_and!)|]. intros s5 A5. apply wp_bind. eapply wp_wrn; [exact A5|by (intros ?; split_and!)|]. intros s6 A6.
  apply wp_bind. eapply wp_wrn; [exact A6|by (intros ?; split_and!)|]. intros s7 A7. apply wp_bind. eapply wp_wrn; [exact A7|by (intros ?; split_and!)|]. intros s8 A8.
  apply wp_bind. eapply wp_wrn; [exact A8|by (intros ?; split_and!)|]. intros s9 A9. eapply wp_lru_append; [exact A9|done|by rewrite nset_eq|done|]. intros s10 A10.
  eapply wp_insque_n; [exact A10|done|done|intros h' _; rewrite without_in; tauto|exact HQ].
Qed.

Lemma entered_names dp pino pdev idev id nm c : names pino pdev nm (entered dp pino pdev idev id nm c) = true.
Proof. unfold names, entered. cbn. rewrite !Z.eqb_refl, take_app_length, bool_decide_true by done. done. Qed.
End rules.

(** ** Operations of the name cache within the kernel *)

Lemma wp_nop {Y} (m : M nst Y) s (Q : Y → ast → Prop) : wp m (λ a n, Q a (set_nch n s)) (nch s) → wp (nop m) Q s.
Proof. rewrite !wp_run. intros (a & n & Hm & HQ). exists a, (set_nch n s). unfold nop. by rewrite Hm. Qed.

Lemma wp_count_stat f s q L C st (Q : unit → ast → Prop) :
  nist (nch s) None q L C st → (∀ n', nist n' None q L C (f st) → Q tt (set_nch n' s)) → wp (count_stat f) Q s.
Proof.
  intros [H1 H2 H3 H4 H5] HQ. unfold count_stat. apply wp_nop, wp_modify, HQ. split; try done. cbn. by rewrite H5.
Qed.

(** ** A cache with one name *)

Definition demo_nst : nst := Eval vm_compute in
  match (nchinit;; nch_enter (nchash_at 3) 800 2 0 0 7 [97; 98]) nst_zero with Ret _ s => s | _ => nst_zero end.
Definition demo_q (h : Z) : list Z := if decide (h = nchash_at 3) then [namecache_at 0] else [].
Definition demo_L : list Z := seqZ (namecache_at 1) 25 ++ [namecache_at 0].
Definition demo_C (z : Z) : option namecache := ncont <$> ncs demo_nst !! z.

Lemma nc_seq p : is_nc p → p ∈ seqZ (namecache_at 0) NNAMECACHE.
Proof. unfold is_nc, namecache_at. rewrite elem_of_seqZ. lia. Qed.

Lemma demo_q_in h p : p ∈ demo_q h → h = nchash_at 3 ∧ p = namecache_at 0.
Proof. unfold demo_q. case_decide; [|by intros ?%elem_of_nil]. by intros ->%list_elem_of_singleton. Qed.

Lemma demo_rings : Forall (λ h, ringb (q_next demo_nst) (q_prev demo_nst) h (demo_q h) = true ∧ is_Some (nchash demo_nst !! h)) nheads.
Proof. refine (bool_decide_unpack _ _). vm_compute. done. Qed.

Lemma demo_only_heads : dom (nchash demo_nst) = list_to_set nheads.
Proof. refine (bool_decide_unpack _ _). vm_compute. done. Qed.

Lemma demo_entries : Forall (λ p, (p = namecache_at 0 ∨ q_next demo_nst p = Some p ∧ q_prev demo_nst p = Some p) ∧
  is_Some (q_next demo_nst p) ∧ is_Some (q_prev demo_nst p)) (seqZ (namecache_at 0) NNAMECACHE).
Proof. refine (bool_decide_unpack _ _). vm_compute. done. Qed.

Lemma demo_nist : nist demo_nst None demo_q demo_L demo_C (Nchstats 0 0 0 0 0).
Proof.
  pose proof demo_rings as HR. pose proof demo_entries as HE. rewrite Forall_forall in HR, HE. split; [split|..].
  - intros h Hh. by apply ringb_sound, HR.
  - intros h e _ [_ ->]%demo_q_in. unfold is_nc, namecache_at, NNAMECACHE. lia.
  - intros h h' e _ _ [-> _]%demo_q_in [-> _]%demo_q_in. done.
  - apply nhead_nc.
  - intros e He _ Hno. destruct (HE e (nc_seq e He)) as [[->|?] _]; [|done]. exfalso. apply (Hno (nchash_at 3)).
    + apply list_elem_of_fmap. exists 3. split; [done|]. apply elem_of_seqZ. unfold NCHHASH. lia.
    + unfold demo_q. rewrite decide_True by done. by left.
  - intros e He. by destruct (HE e (nc_seq e He)) as [_ ?].
  - intros p. rewrite <- elem_of_dom, demo_only_heads. apply elem_of_list_to_set.
  - split; [apply ringb_sound; vm_compute; done|]. intros p. unfold demo_L. rewrite elem_of_app, elem_of_seqZ, list_elem_of_singleton.
    unfold is_nc, namecache_at, NNAMECACHE. lia.
  - done.
  - done.
Qed.

Lemma demo_all p : is_nc p → p ∈ demo_L.
Proof. unfold is_nc, demo_L, namecache_at, NNAMECACHE. rewrite elem_of_app, elem_of_seqZ, list_elem_of_singleton. lia. Qed.

(** ** Claims *)

(** C36: When a file system goes away, [nchinval] ends, and leaves no entry for a
    name on that device or in a directory there; those entries are off their hash
    chains and at the front of the list, ready for use, in reverse order; every
    other entry keeps its contents, its chain and its place. *)
Theorem nchinval_purges dev s q L C st :
  nist s None q L C st → (∀ p, is_nc p → p ∈ L) →
  wp (nchinval dev) (λ _ s',
    nist s' None (kept C dev L q) (reverse (filter (λ p, stale C dev p = true) L) ++ filter (λ p, stale C dev p = false) L) (cleaned C dev L) st ∧
    ∀ p n, is_nc p → ncs s' !! p = Some n → nc_ip n = 0 ∨ nc_idev n ≠ dev ∧ nc_dev n ≠ dev) s.
Proof.
  intros H Hall. pose proof (ns_lru _ _ _ _ _ _ H) as Hl. pose proof (lru_short _ _ Hl) as Hs. unfold nchinval. apply wp_bind, wp_gets.
  assert (Hlen : (2 <= length L)%nat).
  { apply (submseteq_length [namecache_at 0; namecache_at 1]), NoDup_submseteq; [by apply (bool_decide_unpack _); vm_compute|].
    intros x Hx. apply Hall. unfold is_nc, namecache_at, NNAMECACHE in *. apply elem_of_cons in Hx as [->|Hx%list_elem_of_singleton]; lia. }
  assert (nchhead s = after 0 L) as ->.
  { destruct L as [|p L]; [cbn in Hlen; lia|]. destruct Hl as [[[Hx _] _] Hi]. unfold lnx in Hx. rewrite decide_True in Hx by done. injection Hx as Hx.
    by apply (proj1 (nz_nc _ p (Hi p ltac:(by left)))). }
  eapply (wp_nchinval_loop dev nch_fuel s q [] L C st); [exact H|exact Hlen|by intros x ?%elem_of_nil| |].
  - pose proof (length_filter (λ p, stale C dev p = true) L). cbn [app]. unfold nch_fuel, NNAMECACHE in *. nia.
  - intros s' H'. split; [exact H'|]. intros p n Hp Hn. pose proof (ns_cont _ _ _ _ _ _ H' p) as Hc. rewrite Hn in Hc. cbn in Hc. unfold cleaned in Hc.
    destruct (decide (nc_ip n = 0)) as [|Hip]; [by left|right]. assert (nc_ip n = nc_ip (ncont n)) as Ei by done.
    case_decide as D; [destruct (C p); [apply (inj Some) in Hc; rewrite Ei, Hc in Hip; done|done]|].
    assert (Hst : stale C dev p = false) by (destruct (stale C dev p) eqn:E; [|done]; destruct D; auto).
    unfold stale in Hst. rewrite <- Hc in Hst. unfold of_dev in Hst. cbn in Hst. rewrite (proj2 (Z.eqb_neq _ _) Hip) in Hst. cbn in Hst.
    apply negb_false_iff, andb_prop in Hst as [E1 E2]. rewrite !negb_true_iff, !Z.eqb_neq in *. done.
Qed.

Lemma nchinval_purges_witness :
  wp (nchinval 0) (λ _ s', nist s' None (kept demo_C 0 demo_L demo_q) (namecache_at 0 :: seqZ (namecache_at 1) 25) (cleaned demo_C 0 demo_L) (Nchstats 0 0 0 0 0) ∧
    ∀ p n, is_nc p → ncs s' !! p = Some n → nc_ip n = 0 ∨ nc_idev n ≠ 0 ∧ nc_dev n ≠ 0) demo_nst.
Proof. apply (nchinval_purges 0 demo_nst demo_q demo_L demo_C); [apply demo_nist|apply demo_all]. Defined.

(** A name that [namei] enters is found again: the entry comes from the front
    of the list, which is the least recently used, goes to its end, and a search
    for the name in its directory leads to it, whatever was on the chain. *)
Theorem name_enter_find s q p L C st h dp pino pdev idev id nm :
  nist s None q (p :: L) C st → h ∈ nheads →
  wp (nch_enter h dp pino pdev idev id nm;; hd ← rd_next h; nch_find nch_chain_fuel hd h pino pdev nm)
    (λ r s', r = p ∧ (∃ n, ncs s' !! p = Some n ∧ nc_ip n = dp ∧ nc_id n = u16 id ∧ nc_idev n = idev) ∧ ∃ q' C', nist s' None q' (L ++ [p]) C' st) s.
Proof.
  intros H Hh. assert (Hp : is_nc p) by (apply (ns_lru _ _ _ _ _ _ H); by left). destruct (nist_some _ _ _ _ _ _ _ H Hp) as [c Hc].
  apply wp_bind. eapply wp_nch_enter; [exact H|exact Hc|exact Hh|]. intros s1 H1.
  assert (Hq : front p h (without p q) h = p :: without p q h) by (unfold front; by rewrite decide_True).
  eapply wp_find_chain; [exact H1|exact Hh| |].
  - intros l3 p' c' l4 Eq Hc' _ Hno. destruct l3 as [|x l3]; rewrite Hq in Eq; injection Eq as <- Eq; cycle 1.
    { specialize (Hno p _ ltac:(by left) (nset_eq _ _ _)). by rewrite entered_names in Hno. }
    split_and!; [done| |by eexists _, _]. destruct (nist_get _ _ _ _ _ _ _ _ H1 (nset_eq _ _ _)) as (n & Hn & Hnc). exists n. split; [done|].
    change (nc_ip (ncont n) = dp ∧ nc_id (ncont n) = u16 id ∧ nc_idev (ncont n) = idev). by rewrite Hnc.
  - intros Hno. specialize (Hno p _ ltac:(rewrite Hq; by left) (nset_eq _ _ _)). by rewrite entered_names in Hno.
Qed.

Lemma name_enter_find_witness :
  wp (nch_enter (nchash_at 3) 801 2 0 0 8 [99];; hd ← rd_next (nchash_at 3); nch_find nch_chain_fuel hd (nchash_at 3) 2 0 [99])
    (λ r s', r = namecache_at 1 ∧ (∃ n, ncs s' !! namecache_at 1 = Some n ∧ nc_ip n = 801 ∧ nc_id n = 8 ∧ nc_idev n = 0) ∧
       ∃ q' C', nist s' None q' (seqZ (namecache_at 2) 24 ++ [namecache_at 0] ++ [namecache_at 1]) C' (Nchstats 0 0 0 0 0)) demo_nst.
Proof.
  apply (name_enter_find demo_nst demo_q (namecache_at 1) (seqZ (namecache_at 2) 24 ++ [namecache_at 0]) demo_C (Nchstats 0 0 0 0 0) (nchash_at 3) 801 2 0 0 8 [99]).
  - apply demo_nist.
  - apply (NHASH_head 0 3 0).
Defined.

(** Once the identifiers of inodes have passed 65535 the name cache never
    answers: an entry keeps only the low 16 bits of the identifier, which are
    compared with all 32, so that every name found in the cache is taken for a
    stale one and dropped. *)
Theorem name_cache_dead fsleep sleep strategy is_tape lbolt fuel s q L C st dp d hash nm makeentry isdotdot rdir :
  nist (nch s) None q L C st → (∀ p, is_nc p → p ∈ L) → inodes s !! dp = Some d →
  (∀ h p c, h ∈ nheads → p ∈ q h → C p = Some c → 0 ≤ nc_id c < 2 ^ 16 ∧ ∃ i, inodes s !! nc_ip c = Some i ∧ 2 ^ 16 ≤ i_id i) →
  wp (nch_lookup fsleep sleep strategy is_tape lbolt fuel dp hash nm makeentry isdotdot rdir)
    (λ r s', r = None ∧ inodes s' = inodes s ∧ ∃ q' L' st', nist (nch s') None q' L' C st' ∧ ncs_goodhits st' = ncs_goodhits st) s.
Proof.
  intros H Hall Hd Hid. unfold nch_lookup. destruct (NCHNAMLEN <? zlen nm).
  { apply wp_bind. eapply wp_count_stat; [exact H|]. intros n' H'. apply wp_ret. split_and!; [done|done|]. by eexists _, _, _. }
  apply wp_bind. eapply wp_load; [exact Hd|]. apply wp_bind, wp_nop. eapply wp_find_chain; [exact H|apply NHASH_head| |].
  - intros l3 p c l4 Eq Hc _ _. pose proof (ns_chains _ _ _ _ _ _ H) as [_ HE _ _ _ _].
    assert (Hp : is_nc p) by (eapply HE; [apply NHASH_head|]; rewrite Eq; set_solver). destruct (nc_not_slot _ Hp) as [_ H0].
    rewrite (proj2 (Z.eqb_neq _ _) H0). apply wp_bind, wp_nop. eapply wp_rdn; [exact H|exact Hc|]. intros n Hn Hnc.
    destruct (Hid _ p c (NHASH_head hash (i_number d) (i_dev d)) ltac:(rewrite Eq; set_solver) Hc) as (Hb & i & Hi & Hbi). apply wp_bind. eapply wp_load; [change (nc_ip n) with (nc_ip (ncont n)); rewrite Hnc; exact Hi|].
    assert (nc_id n = nc_id c) as -> by (by rewrite <- Hnc). rewrite (proj2 (Z.eqb_neq _ _)) by lia. cbn [negb].
    apply wp_bind, wp_bind. eapply wp_count_stat; [exact H|]. intros n' H'. apply wp_ret. apply wp_bind, wp_nop.
    destruct (list_elem_of_split _ _ (Hall p Hp)) as (L1 & L2 & ->). eapply wp_nch_drop; [exact H'| |].
    { assert (Hx : ∃ x, is_nc x ∧ x ≠ p). { destruct (decide (p = namecache_at 0)) as [->|]; [exists (namecache_at 1)|exists (namecache_at 0)]; unfold is_nc, namecache_at, NNAMECACHE in *; lia. }
      destruct Hx as (x & Hx & Hxp). specialize (Hall x Hx). intros E. apply app_eq_nil in E as [-> ->]. set_solver. }
    intros n2 H2. apply wp_ret. split_and!; [done|done|]. by eexists _, _, _.
  - intros _. cbn [Z.eqb]. apply wp_bind. eapply wp_count_stat; [exact H|]. intros n' H'. apply wp_ret. split_and!; [done|done|]. by eexists _, _, _.
Qed.

(** The directory of the name, and the inode the name was entered for. *)
Definition demo_dir : inode := Alloc.Inode 0 0 1 1 0 2 9 1 (replicate 7 0) 0 0 (Icommon1 16877 2 0 0 512) 0 (Icommon2 0 0 0).
Definition demo_file : inode := Alloc.Inode 0 0 0 1 0 6 (7 + 2 ^ 16) 1 (replicate 7 0) 0 0 (Icommon1 33188 1 0 0 0) 0 (Icommon2 0 0 0).
Definition demo_names : ast := AS (BS ∅ ∅ ∅ 0 0 0 []) ∅ {[800 := demo_file; 801 := demo_dir]} ∅ 0 0 (8 + 2 ^ 16) demo_nst [] 0 0 [] [].

Lemma name_cache_dead_witness :
  wp (nch_lookup (λ _ _, mret tt) (λ _ _, mret tt) (λ _, mret tt) (λ _, false) 9 5 801 1 [97; 98] true false 801)
    (λ r s', r = None ∧ inodes s' = inodes demo_names ∧ ∃ q' L' st', nist (nch s') None q' L' demo_C st' ∧ ncs_goodhits st' = 0) demo_names.
Proof.
  apply (name_cache_dead (λ _ _, mret tt) (λ _ _, mret tt) (λ _, mret tt) (λ _, false) 9 5 demo_names demo_q demo_L demo_C (Nchstats 0 0 0 0 0) 801 demo_dir 1 [97; 98] true false 801).
  - apply demo_nist.
  - apply demo_all.
  - done.
  - intros h p c _ [_ ->]%demo_q_in Hc. vm_compute in Hc. apply (inj Some) in Hc as <-. split; [by split|]. exists demo_file. split; [done|by vm_compute].
Defined.
End NameSpec.
