(* ===== verification/TruncSpec.v ===== *)
(** * Removing a file

    When the last reference to a file without a name is dropped, [irele] gives
    its blocks back to the file system with [itrunc] and its inode with [ifree].
    The theorem is for files without indirect blocks. *)

From S2P Require Import Prelude Links Que NameCache Bio Cache CacheIO CacheSpec Alloc Bmap Inode InodeRules InodeSpec.
Import NameCache Bio Cache CacheIO CacheSpec Alloc Bmap Inode InodeRules InodeSpec.

Module TruncSpec.
#[local] Set Default Proof Using "Type".

Section tip.
Implicit Types (s O : ast) (X : option Z) (q : Z → list Z) (F : list Z) (C : Z → option inode).

Lemma tip_apart : ¬ is_ino tip_at ∧ tip_at ∉ iheads ∧ tip_at ≠ ifreeh_at.
Proof.
  split_and!; [unfold is_ino, tip_at, inode_at, NINODE; lia| |done]. unfold iheads. intros (j & E & [? ?]%elem_of_seqZ)%list_elem_of_fmap.
  unfold tip_at, ihead_at, INOHSZ in *. lia.
Qed.

(** The copy of the inode on the stack is not part of the table. *)
Lemma ist_stack s X q F C C' O (m : gmap Z inode) :
  ist s X q F C O → (∀ z, z ≠ tip_at → m !! z = inodes s !! z) → (∀ z, icont <$> m !! z = C' z) → ist (set_inodes m s) X q F C' O.
Proof.
  intros [[HR HE HD HH HL HM] Hh Hf Hct Hw] Hm HC. destruct tip_apart as (T1 & T2 & T3).
  assert (HN : ∀ y, y ≠ tip_at → q_next (set_inodes m s) y = q_next s y ∧ q_prev (set_inodes m s) y = q_prev s y) by (intros y Hy; cbn; by rewrite Hm).
  split; [|done| |done|by rewrite <- Hw].
  - split; try done.
    + intros h Hhs. eapply ring_ext; [|by apply HR]. intros y Hy. apply HN. intros ->. destruct Hy as [<-|Hy]; [done|]. by apply T1, (HE h).
    + intros e He HX Hno. assert (e ≠ tip_at) by (by intros ->). destruct (HN e) as [-> ->]; [done|]. by apply HL.
    + intros e He. assert (e ≠ tip_at) by (by intros ->). destruct (HN e) as [-> ->]; [done|]. by apply HM.
  - eapply (freel_ext s); [|done|exact Hf]. intros y Hy. unfold ffn, ffp. cbn. case_decide; [done|]. rewrite Hm; [done|]. intros ->.
    destruct Hy as [?|Hy]; [done|]. by apply T1, Hf.
Qed.

Lemma wp_tip_push s X q F C O i (Q : unit → ast → Prop) :
  ist s X q F C O → (∀ s', ist s' X q F (cset tip_at (icont i) C) O → Q tt s') → wp (modify (λ s, set_inodes (<[tip_at := i]> (inodes s)) s)) Q s.
Proof.
  intros H HQ. apply wp_modify, HQ. eapply ist_stack; [exact H|intros; by rewrite lookup_insert_ne|]. intros z. unfold cset. rewrite lookup_replace.
  case_decide; [done|]. apply (is_cont _ _ _ _ _ _ H).
Qed.

Lemma wp_tip_pop s X q F C O c (Q : unit → ast → Prop) :
  ist s X q F (cset tip_at c C) O → C tip_at = None → (∀ s', ist s' X q F C O → Q tt s') → wp (modify (λ s, set_inodes (delete tip_at (inodes s)) s)) Q s.
Proof.
  intros H HC HQ. apply wp_modify, HQ. eapply ist_stack; [exact H|intros; by rewrite lookup_delete_ne|]. intros z. pose proof (is_cont _ _ _ _ _ _ H z) as E.
  destruct (decide (z = tip_at)) as [->|Hz]; [by rewrite lookup_delete_eq, HC|]. rewrite lookup_delete_ne by done. by rewrite E, cset_ne.
Qed.

(** A step that changes a superblock and the buffers only. *)
Lemma ist_upto s s' X q F C O fsp f' : ist s X q F C O → upto s fsp f' s' → ist s' X q F C (world s') ∧ upto O fsp f' (world s').
Proof.
  intros [Hq Hh Hf Hct Hw] (U1 & U2 & U3 & U4). unfold tables in U4. rewrite !pair_equal_spec in U4. destruct U4 as (((((E1 & E2) & E3) & E4) & E5) & E6).
  split.
  - split; [| | | |done].
    + unfold q_next, q_prev, inode_que, table_que. by rewrite U2, E1.
    + by rewrite E1.
    + eapply (freel_ext s); [|done|exact Hf]. intros y _. unfold ffn, ffp. by rewrite U2, E2, E3.
    + by rewrite U2.
  - rewrite <- Hw. split_and!; [done|done|done|]. unfold tables. cbn. by rewrite E4, E5, E6.
Qed.

End tip.

(** ** Giving the blocks back *)

Section trunc.
Context (fsleep : Z → Z → A unit) (sleep : Z → Z → M bst unit) (strategy : Z → M bst unit) (is_tape : Z → bool) (lbolt : Z).
Context {phys : key → key} {good : key → Prop} `{!Driver strategy phys good}.
Implicit Types (V : key → block) (s O : ast) (X : option Z) (q : Z → list Z) (F : list Z) (C : Z → option inode) (f : fs).
Notation cache := (cache (phys := phys) (good := good)).
Notation free_ok := (free_ok (good := good)).
Notation enough fuel := (Z.to_nat NBUF + 2 <= fuel)%nat.

(** The blocks among the addresses of an inode. *)
Definition blocks (l : list Z) : list Z := filter (λ b, b ≠ 0) l.

(** Since [O] the superblock at [fsp] has become [f'], whose free list is [l],
    and of the disk only the blocks [bl] of [dev] changed. *)
Record freed V O (dev fsp : Z) f (l bl : list Z) V' O' f' : Prop := Freed {
  fd_upto : upto O fsp f' O';
  fd_cache : cache V' ∅ (bs O');
  fd_err : u_error (bs O') = u_error (bs O);
  fd_list : free_ok V' dev f' l;
  fd_geom : same_geom f f';
  fd_rest : ∀ k, k.1 ≠ dev ∨ k.2 ∉ bl → V' k = V k
}.

Lemma wp_free_ist V s X q F C O ip c f l b fuel (Q : unit → ast → Prop) :
  ist s X q F (cset ip c C) O → fss O !! i_fs c = Some f → cache V ∅ (bs O) → free_ok V (i_dev c) f l →
  fs_isize f ≤ b < fs_fsize f → b ∉ l → i_dev c ≠ NODEV → enough fuel →
  (∀ s' V' O' f', ist s' X q F (cset ip c C) O' → freed V O (i_dev c) (i_fs c) f (b :: l) [b] V' O' f' → Q tt s') →
  wp (free fsleep sleep strategy is_tape fuel ip b) Q s.
Proof using Driver0.
  intros H Hf Hca Hok Hr Hbl Hdev Hfu HQ. destruct (ist_get _ _ _ _ _ _ ip c H (cset_eq _ _ _)) as (i & Hi & Hic).
  assert (Ef : i_fs i = i_fs c) by (by rewrite <- Hic). assert (Ed : i_dev i = i_dev c) by (by rewrite <- Hic).
  assert (Hw : fss s = fss O ∧ bs s = bs O) by (rewrite <- (is_world _ _ _ _ _ _ H); done). destruct Hw as [Hw1 Hw2].
  eapply (wp_free fsleep sleep strategy is_tape V ∅ s ip i f l b);
    [done|by rewrite Hw1, Ef|by rewrite Hw2|by rewrite Ed|done|done|by rewrite Ed|done|rewrite map_size_empty; unfold NBUF; lia|done|].
  rewrite Ef, Ed. intros s' V' f' Hu Hca' U' HV Hok' Hge. destruct (ist_upto _ _ _ _ _ _ _ _ _ H Hu) as [H' Hu']. eapply HQ; [exact H'|].
  split; [exact Hu'|exact Hca'|cbn; congruence|done|done|]. intros [d x] Hk. apply HV. intros [= -> ->]. cbn in Hk. destruct Hk; [done|set_solver].
Qed.

Lemma freed_trans V O dev fsp f l1 bl1 V1 O1 f1 l2 bl2 V2 O2 f2 :
  freed V O dev fsp f l1 bl1 V1 O1 f1 → freed V1 O1 dev fsp f1 l2 bl2 V2 O2 f2 → freed V O dev fsp f l2 (bl2 ++ bl1) V2 O2 f2.
Proof.
  clear Driver0 fsleep sleep strategy is_tape lbolt. intros [A1 A2 A3 A4 (G1 & G2 & G3) A6] [B1 B2 B3 B4 (G4 & G5 & G6) B6]. split; [by eapply upto_trans|done|congruence|done|split_and!; congruence|].
  intros k Hk. rewrite B6, A6; [done|..]; rewrite not_elem_of_app in Hk; tauto.
Qed.

Lemma blocks_snoc l k b : l !! k = Some b → blocks (take (S k) l) = blocks (take k l) ++ (if decide (b = 0) then [] else [b]).
Proof. clear. intros Hb. rewrite (take_S_r l k b Hb). unfold blocks. rewrite filter_app, filter_cons. f_equal. by repeat case_decide. Qed.

(** Blocks that can be given back to a file system with free blocks [l]. *)
Definition givable f (l bl : list Z) : Prop := NoDup bl ∧ ∀ b, b ∈ bl → fs_isize f ≤ b < fs_fsize f ∧ b ∉ l.

Lemma wp_free_db n : ∀ V s X q F C O ip c f l fuel (Q : unit → ast → Prop),
  ist s X q F (cset ip c C) O → fss O !! i_fs c = Some f → cache V ∅ (bs O) → free_ok V (i_dev c) f l →
  (n <= length (i_addr c))%nat → givable f l (blocks (take n (i_addr c))) → i_dev c ≠ NODEV → enough fuel →
  (∀ s' V' O' f' c', ist s' X q F (cset ip c' C) O' →
     freed V O (i_dev c) (i_fs c) f (blocks (take n (i_addr c)) ++ l) (blocks (take n (i_addr c))) V' O' f' → Q tt s') →
  wp (free_db fsleep sleep strategy is_tape n fuel ip (-1)) Q s.
Proof using Driver0.
  induction n as [|k IH]; intros V s X q F C O ip c f l fuel Q H Hf Hca Hok Hn Hgv Hdev Hfu HQ; cbn [free_db].
  { apply wp_ret. eapply HQ; [exact H|]. split; [by apply upto_refl|done|done|done|by split_and!|done]. }
  rewrite (proj2 (Z.ltb_lt _ _)) by lia. destruct (lookup_lt_is_Some_2 (i_addr c) k ltac:(lia)) as [b Hb].
  rewrite (blocks_snoc _ _ _ Hb) in Hgv, HQ. apply wp_bind. eapply wp_irdc; [exact H|]. intros i _ Hi.
  assert (i_addr i = i_addr c) as -> by (by rewrite <- Hi).
  assert (Hget : aget (i_addr c) (Z.of_nat k) = Some b) by (unfold aget; rewrite (proj2 (Z.leb_le _ _)), Nat2Z.id by lia; done).
  apply wp_bind. eapply wp_load; [exact Hget|]. destruct (Z.eqb_spec b 0) as [->|Hb0]; cbn [negb when].
  - rewrite decide_True, app_nil_r in Hgv, HQ by done. apply wp_bind, wp_ret. by eapply (IH V s X q F C O ip c f l); [..|lia|done|done|done|].
  - rewrite decide_False in Hgv, HQ by done. destruct Hgv as [Hnd Hr]. apply NoDup_app in Hnd as (Hnd & Hdj & _).
    destruct (Hr b ltac:(set_solver)) as [Hrb Hbl]. apply wp_bind. apply wp_bind.
    eapply wp_iwrc; [exact H|plain_wr|]. intros s1 H1. set (c1 := set_daddr (Z.of_nat k) 0 c) in *.
    assert (Htk : take k (i_addr c1) = take k (i_addr c)) by (unfold c1, set_daddr; cbn; rewrite Nat2Z.id, take_insert_ge; done).
    eapply (wp_free_ist V s1 X q F C O ip c1 f l b); [done..|]. intros s2 V2 O2 f2 H2 D2. pose proof D2 as [U2 Hca2 _ Hok2 (G1 & G2 & G3) _].
    change (i_dev c1) with (i_dev c) in *. change (i_fs c1) with (i_fs c) in *.
    eapply (IH V2 s2 X q F C O2 ip c1 f2 (b :: l)); [exact H2|exact (upto_at _ _ _ _ U2)|exact Hca2|exact Hok2| | |done|done|].
    + unfold c1, set_daddr. cbn. rewrite length_insert. lia.
    + rewrite Htk. split; [done|]. intros x Hx. rewrite G1, G2. destruct (Hr x ltac:(set_solver)) as [? ?]. split; [done|]. intros [->|?]%elem_of_cons; [|done].
      apply (Hdj b); [done|by left].
    + rewrite Htk. intros s3 V3 O3 f3 c3 H3 D3. eapply HQ; [exact H3|]. rewrite <- app_assoc. by eapply freed_trans.
Qed.

(** *** The inode number *)

(** The superblock with [ino] on its list of free inodes. *)
Definition ino_freed (ino : Z) f : fs :=
  let f := set_fs_tinode (u32 (fs_tinode f + 1)) f in
  set_fs_fmod 1 (set_fs_ninode (fs_ninode f + 1) (set_fs_inode (<[Z.to_nat (fs_ninode f) := ino]> (fs_inode f)) f)).
Definition ino_room f : Prop := fs_ilock f = 0 ∧ 0 ≤ fs_ninode f < NICINOD ∧ length (fs_inode f) = Z.to_nat NICINOD.

Lemma wp_wrfs_ist s X q F C O fsp f g (Q : unit → ast → Prop) :
  ist s X q F C O → fss O !! fsp = Some f → (∀ s' O', ist s' X q F C O' → upto O fsp (g f) O' → bs O' = bs O → Q tt s') → wp (wrfs fsp g) Q s.
Proof.
  clear Driver0 fsleep sleep strategy is_tape lbolt good phys. intros H Hf HQ. assert (Hw : fss s = fss O ∧ bs s = bs O) by (rewrite <- (is_world _ _ _ _ _ _ H); done). destruct Hw as [Hw1 Hw2].
  eapply wp_wrfs; [apply (upto_refl s fsp f); by rewrite Hw1|]. intros s' Hu' E'. destruct (ist_upto _ _ _ _ _ _ _ _ _ H Hu') as [H' Hu]. eapply HQ; [exact H'|exact Hu|]. cbn. congruence.
Qed.

Lemma wp_ifree_ist s X q F C O ip c f ino (Q : unit → ast → Prop) :
  ist s X q F (cset ip c C) O → fss O !! i_fs c = Some f → ino_room f →
  (∀ s' O', ist s' X q F (cset ip c C) O' → upto O (i_fs c) (ino_freed ino f) O' → bs O' = bs O → Q tt s') → wp (ifree ip ino) Q s.
Proof.
  clear Driver0 fsleep sleep strategy is_tape lbolt good phys. intros H Hf (Hlk & Hn & Hl) HQ. unfold ifree. apply wp_bind. eapply wp_irdc; [exact H|]. intros i _ Hi.
  assert (i_fs i = i_fs c) as -> by (by rewrite <- Hi). apply wp_bind. eapply wp_wrfs_ist; [exact H|exact Hf|]. intros s1 O1 H1 Hu1 E1.
  apply wp_bind. eapply wp_rdfs_ist; [exact H1|exact (upto_at _ _ _ _ Hu1)|]. cbn [fs_ilock set_fs_tinode fs_ninode fs_inode]. rewrite Hlk.
  cbn [negb Z.eqb]. rewrite (proj2 (Z.leb_gt _ _)) by lia. apply wp_bind. eapply wp_load; [apply aset_Some; unfold NICINOD in *; lia|].
  apply wp_bind. eapply wp_wrfs_ist; [exact H1|exact (upto_at _ _ _ _ Hu1)|]. intros s2 O2 H2 Hu2 E2.
  apply wp_bind. eapply wp_wrfs_ist; [exact H2|exact (upto_at _ _ _ _ Hu2)|]. intros s3 O3 H3 Hu3 E3.
  eapply wp_wrfs_ist; [exact H3|exact (upto_at _ _ _ _ Hu3)|]. intros s4 O4 H4 Hu4 E4. eapply HQ; [exact H4| |congruence].
  eapply upto_trans; [eapply upto_trans; [eapply upto_trans; [exact Hu1|exact Hu2]|exact Hu3]|exact Hu4].
Qed.

(** *** itrunc to nothing *)

(** A file of direct blocks only, as it is and without its blocks. *)
Definition direct_only (c : inode) : Prop := ∃ a, i_addr c = a ++ [0; 0; 0] ∧ length a = 4%nat.
Definition emptied (c : inode) : inode := set_i_addr (replicate (Z.to_nat NADDR) 0) (set_i_size 0 c).

Lemma wp_clear_ptrs s X q F C O ip c (K : A unit) (Q : unit → ast → Prop) :
  ist s X q F (cset ip c C) O → direct_only c → (∀ s', ist s' X q F (cset ip (emptied c) C) O → wp K Q s') →
  wp (wri ip (set_i_size (s32 0));; clear_ib 3 ip (-1);; clear_db (Z.to_nat NDADDR) ip (-1);; K) Q s.
Proof.
  clear Driver0 fsleep sleep strategy is_tape lbolt good phys. intros H (a & Ha & Hl) HQ. apply wp_bind. eapply wp_iwrc; [exact H|plain_wr|]. intros s1 H1.
  apply wp_bind. cbn [clear_ib]. change (lastiblock (-1) 2 <? 0) with true. change (lastiblock (-1) 1 <? 0) with true. change (lastiblock (-1) 0 <? 0) with true. cbn [when].
  apply wp_bind. eapply wp_iwrc; [exact H1|plain_wr|]. intros s2 H2. apply wp_bind. eapply wp_iwrc; [exact H2|plain_wr|]. intros s3 H3.
  apply wp_bind. eapply wp_iwrc; [exact H3|plain_wr|]. intros s4 H4. apply wp_ret.
  apply wp_bind. change (Z.to_nat NDADDR) with 4%nat. cbn [clear_db]. change (-1 <? Z.of_nat 3) with true. change (-1 <? Z.of_nat 2) with true.
  change (-1 <? Z.of_nat 1) with true. change (-1 <? Z.of_nat 0) with true.
  apply wp_bind. eapply wp_iwrc; [exact H4|plain_wr|]. intros s5 H5. apply wp_bind. eapply wp_iwrc; [exact H5|plain_wr|]. intros s6 H6.
  apply wp_bind. eapply wp_iwrc; [exact H6|plain_wr|]. intros s7 H7. apply wp_bind. eapply wp_iwrc; [exact H7|plain_wr|]. intros s8 H8. apply wp_ret, HQ.
  eapply ist_ext; [|exact H8]. intros z. unfold cset. case_decide; [|done]. f_equal. unfold emptied, set_daddr. cbn.
  destruct a as [|a0 [|a1 [|a2 [|a3 [|]]]]]; try done. by rewrite Ha.
Qed.

Lemma cset_comm ip ip' c c' C z : ip ≠ ip' → cset ip c (cset ip' c' C) z = cset ip' c' (cset ip c C) z.
Proof. clear. intros. unfold cset. repeat case_decide; congruence. Qed.

Lemma wp_free_ib s X q F C O ip c fuel (Q : bool → ast → Prop) :
  ist s X q F (cset ip c C) O → direct_only c → Q true s → wp (free_ib fsleep sleep strategy is_tape 3 fuel ip (-1) B_CLRBUF) Q s.
Proof.
  clear Driver0 lbolt good phys. intros H (a & Ha & Hl) HQ.
  assert (Hg : ∀ k, (k < 3)%nat → aget (i_addr c) (NDADDR + Z.of_nat k) = Some 0).
  { intros k Hk. rewrite Ha. unfold aget. rewrite (proj2 (Z.leb_le _ _)) by (unfold NDADDR; lia). rewrite lookup_app_r by (unfold NDADDR; lia).
    rewrite Hl. replace (Z.to_nat (NDADDR + Z.of_nat k) - 4)%nat with k by (unfold NDADDR; lia). do 3 (destruct k as [|k]; [done|]). lia. }
  assert (Ei : ∀ j, icont j = c → i_addr j = i_addr c) by (intros ? <-; done).
  cbn [free_ib]. do 3 (apply wp_bind; eapply wp_irdc; [exact H|]; intros ? _ Hi; apply wp_bind; eapply wp_load;
    [rewrite (Ei _ Hi); apply Hg; lia|]; clear Hi;
    cbn [Z.eqb negb when]; apply wp_bind, wp_ret; change (0 <=? lastnorm (-1) _) with false; cbv iota).
  by apply wp_ret.
Qed.

Lemma wp_itrunc_zero V s X q F C O ip c f l fuel (Q : unit → ast → Prop) :
  let bl := blocks (take 4 (i_addr c)) in let c' := synced (time_sec O) (ior (Z.lor ICHG IUPD) (emptied c)) in
  ist s X q F (cset ip c C) O → is_ino ip → C tip_at = None → cache V ∅ (bs O) → fss O !! i_fs c = Some f → fs_ronly f = 0 → free_ok V (i_dev c) f l →
  givable f l bl → direct_only c → 0 < i_size c < 2 ^ 31 → ihas IPIPE c = false → i_dev c ≠ NODEV → good (i_dev c, itod (i_number c)) → enough fuel →
  (∀ s' V1 O1 f1 b', freed V O (i_dev c) (i_fs c) f (bl ++ l) bl V1 O1 f1 → ist s' X q F (cset ip c' C) (set_bs b' O1) →
     cache (vput V1 c') ∅ b' → u_error b' = u_error (bs O) → Q tt s') →
  wp (itrunc fsleep sleep strategy is_tape lbolt fuel ip 0 0) Q s.
Proof using Driver0.
  intros bl c' H Hip HC Hca Hf Hro Hok Hgv Hdo Hsz Hpi Hdev Hg Hfu HQ. destruct tip_apart as [T1 _]. assert (Hne : tip_at ≠ ip) by (by intros <-). pose proof (not_eq_sym Hne) as Hne'.
  unfold itrunc. change (if negb (Z.land 0 IO_SYNC =? 0) then _ else _) with B_CLRBUF. apply wp_bind. eapply wp_irdc; [exact H|]. intros i _ Hi.
  assert (Es : ∀ j, icont j = c → ihas IPIPE j = ihas IPIPE c ∧ i_size j = i_size c) by (intros j <-; done). destruct (Es i Hi) as [-> ->]. rewrite Hpi. cbn [when negb andb].
  apply wp_bind, wp_ret. rewrite u32_id by (unfold is_u32; lia). rewrite (proj2 (Z.eqb_neq _ _)) by lia.
  apply wp_bind. eapply wp_irdc; [exact H|]. intros i2 _ Hi2. destruct (Es i2 Hi2) as [_ ->]. rewrite u32_id by (unfold is_u32; lia). rewrite (proj2 (Z.ltb_ge _ _)) by lia.
  unfold itrunc_shorten. change (s32 (lblkno (0 + DEV_BSIZE - 1) - 1)) with (-1). unfold itrunc_partial. change (blkoff 0 =? 0) with true. cbv iota. apply wp_bind, wp_ret.
  apply wp_bind. eapply wp_irdc; [exact H|]. intros i3 _ Hi3. apply wp_bind. eapply wp_tip_push; [exact H|]. rewrite Hi3. intros s1 H1.
  eapply (wp_clear_ptrs s1 X q F (cset tip_at c C)); [eapply ist_ext; [|exact H1]; intros z; exact (cset_comm _ _ _ _ _ _ Hne')|done|]. intros s2 H2.
  apply (ist_ext _ _ _ _ _ (cset tip_at c (cset ip (emptied c) C))) in H2; [|intros z; by apply cset_comm].
  apply wp_bind. eapply wp_free_ib; [exact H2|done|]. cbn [when]. apply wp_bind. destruct Hdo as (a & Ha & Hl).
  eapply (wp_free_db 4 V s2 X q F (cset ip (emptied c) C) O tip_at c f l); [exact H2|done|done|done|rewrite Ha, length_app; lia|done|done|done|]. intros s3 V3 O3 f3 c3 H3 D3.
  pose proof D3 as [U3 Hca3 E3 Hok3 (G1 & G2 & G3) HV3]. assert (Et : time_sec O3 = time_sec O).
  { destruct U3 as (_ & _ & _ & U3). exact (f_equal snd U3). }
  assert (Er : fs_ronly f3 = 0) by (rewrite <- Hro; by injection G3).
  apply wp_bind. eapply wp_tip_pop; [exact H3|by rewrite cset_ne|]. intros s4 H4. unfold itrunc_done.
  apply wp_bind. eapply wp_iwrc; [exact H4|plain_wr|]. intros s5 H5. apply wp_bind, wp_gets.
  assert (time_sec s5 = time_sec O3) as -> by (by rewrite <- (world_time s5), (is_world _ _ _ _ _ _ H5)).
  eapply (wp_iupdat sleep strategy is_tape V3 s5 X q F C O3 ip _ f3); [exact H5|done|exact Hg|exact Hdev|exact (upto_at _ _ _ _ U3)|done|rewrite ihas_or; apply orb_true_r|done|].
  rewrite Et. fold c'. intros s6 b6 H6 Hca6 U6. by eapply HQ; [exact D3|exact H6|exact Hca6|congruence].
Qed.

(** *** The last reference *)

(** A file without a name, with one reference left, and its file system. *)
Record doomed V s q F C O (ip : Z) (c : inode) f (l : list Z) : Prop := Doomed {
  dm_ist : ist s None q F (cset ip c C) O;
  dm_used : is_ino ip ∧ ip ∉ F ∧ C tip_at = None;
  dm_cache : cache V ∅ (bs O);
  dm_super : fss O !! i_fs c = Some f ∧ fs_ronly f = 0 ∧ free_ok V (i_dev c) f l ∧ ino_room f;
  dm_blocks : direct_only c ∧ givable f l (blocks (take 4 (i_addr c)));
  dm_size : 0 < i_size c < 2 ^ 31;
  dm_last : i_count c = 1 ∧ i_nlink c = 0 ∧ 0 ≤ i_mode c < 2 ^ 16 ∧ ihas IPIPE c = false;
  dm_place : i_dev c ≠ NODEV ∧ good (i_dev c, itod (i_number c)) ∧ itod (i_number c) < fs_isize f ∧ length (V (i_dev c, itod (i_number c))) = 256%nat
}.

(** The inode that stays on the disk. *)
Definition removed (now : Z) (c : inode) : dinode :=
  Dinode (Icommon1 0 0 (ic_uid (i_ic1 c)) (ic_gid (i_ic1 c)) 0) (replicate (Z.to_nat NADDR) 0) (i_flags c)
    (Icommon2 (if ihas IACC c then now else ic_atime (i_ic2 c)) now now).

(** From [IUPDAT] on in [irele]. *)
Lemma wp_irele_tail V s q F C O ip c f fuel (Q : unit → ast → Prop) :
  ist s None q F (cset ip c C) O → is_ino ip → ip ∉ F → cache V ∅ (bs O) → good (i_dev c, itod (i_number c)) → i_dev c ≠ NODEV →
  fss O !! i_fs c = Some f → fs_ronly f = 0 → i_count c = 1 → ihas DIRTY c = true → enough fuel →
  (∀ s' b' w c', let cs := synced (time_sec O) c in
     ist s' None q (F ++ [ip]) (cset ip c' C) (set_fwakeups w (set_bs b' O)) → cache (vput V cs) ∅ b' → u_error b' = u_error (bs O) →
     to_dinode c' = to_dinode cs → ikey c' = ikey c → i_flag c' = 0 → i_count c' = 0 → Q tt s') →
  wp (i ← rdi ip; now ← gets time_sec; when (ihas DIRTY i) (iupdat sleep strategy is_tape fuel ip now now 0);;
      iunlock ip;; wri ip (set_i_flag 0);; ifree_append ip) (λ _ s', wp (wri ip (λ i, set_i_count (u32 (i_count i - 1)) i)) Q s') s.
Proof using Driver0.
  clear fsleep lbolt. intros H Hip HF Hca Hg Hdev Hf Hro Hn Hd Hfu HQ. destruct (stamp_same (time_sec O) c c) as (_ & Hsk & Hsc & _ & _).
  apply wp_bind. eapply wp_irdc; [exact H|]. intros i _ Hi. apply wp_bind, wp_gets.
  assert (time_sec s = time_sec O) as -> by (by rewrite <- (world_time s), (is_world _ _ _ _ _ _ H)).
  assert (ihas DIRTY i = true) as -> by (rewrite <- Hd; change (ihas DIRTY i) with (ihas DIRTY (icont i)); by rewrite Hi). cbn [when].
  apply wp_bind. eapply (wp_iupdat sleep strategy is_tape V s None q F C O ip c f); [done..|]. intros s2 b2 H2 Hca2 U2.
  apply wp_bind. eapply wp_iunlock; [exact H2|]. intros s3 w H3. destruct (unlocked_same (synced (time_sec O) c)) as (D3 & K3 & N3 & _).
  apply wp_bind. eapply wp_iwrc; [exact H3|plain_wr|]. intros s4 H4.
  eapply wp_ifree_append; [exact H4|done|by rewrite cset_eq|done|]. intros s5 H5.
  eapply wp_iwrc; [exact H5|plain_wr|]. intros s6 H6. eapply HQ; [exact H6|exact Hca2|done|exact D3| |done|].
  - change (ikey (unlocked (synced (time_sec O) c)) = ikey c). rewrite K3. exact Hsk.
  - change (u32 (i_count (unlocked (synced (time_sec O) c)) - 1) = 0). rewrite N3. change (u32 (i_count (stamp (time_sec O) c c) - 1) = 0). by rewrite Hsc, Hn.
Qed.

Lemma synced_removed now c c1 :
  c1 = synced now (ior (Z.lor ICHG IUPD) (emptied (ior ILOCKED c))) → i_nlink c = 0 →
  to_dinode (synced now (ior (Z.lor IUPD ICHG) (set_daddr 1 0 (set_i_mode 0 c1)))) = removed now c.
Proof.
  clear. intros -> Hn.
  assert (E1 : ∀ c, ihas ICHG (ior (Z.lor ICHG IUPD) c) = true ∧ ihas IUPD (ior (Z.lor ICHG IUPD) c) = true ∧ ihas IACC (ior (Z.lor ICHG IUPD) c) = ihas IACC c).
  { intros x. rewrite !ihas_or. by rewrite !orb_true_r, orb_false_r. }
  unfold synced at 1, stamp at 1. rewrite (Z.lor_comm IUPD ICHG).
  destruct (E1 (set_daddr 1 0 (set_i_mode 0 (synced now (ior (Z.lor ICHG IUPD) (emptied (ior ILOCKED c))))))) as (-> & -> & ->).
  unfold synced, stamp. destruct (E1 (emptied (ior ILOCKED c))) as (-> & -> & ->).
  assert (ihas IACC (emptied (ior ILOCKED c)) = ihas IACC c) as -> by (change (ihas IACC (ior ILOCKED c) = ihas IACC c); by rewrite ihas_or, orb_false_r).
  assert (E2 : ∀ x, ihas IACC (set_daddr 1 0 (set_i_mode 0 (iand_not DIRTY x))) = false).
  { intros x. change (ihas IACC (iand_not DIRTY x) = false). rewrite ihas_and_not. unfold ihas. change (Z.land IACC (Z.lnot DIRTY)) with 0. by rewrite Z.land_0_r. }
  rewrite E2. unfold removed. by destruct (ihas IACC c), c as [? ? ? ? ? ? ? ? ? ? ? [] ? []]; cbn in Hn; subst.
Qed.

Lemma vput_ne V c k : k ≠ (i_dev c, itod (i_number c)) → vput V c k = V k.
Proof. clear. intros Hk. unfold vput, vset. by rewrite decide_False. Qed.

Lemma vput_node V c k : k = ikey c → wf_dinode (to_dinode c) → length (V (i_dev c, itod (i_number c))) = 256%nat → dnode (vput V c) k = to_dinode c.
Proof.
  clear. intros -> Hw Hl. unfold dnode, vput, vset, ikey. cbn [fst snd]. rewrite decide_True by done. apply get_put_same; [done..|apply ito_range].
Qed.

Lemma vput_length V c k : wf_dinode (to_dinode c) → length (V k) = 256%nat → length (vput V c k) = 256%nat.
Proof.
  clear. intros Hw Hl. destruct (decide (k = (i_dev c, itod (i_number c)))) as [->|Hk]; [|by rewrite vput_ne].
  unfold vput, vset. rewrite decide_True by done. apply put_length; [done..|apply ito_range].
Qed.

Lemma free_ok_ino V dev f l ino : free_ok V dev f l → free_ok V dev (ino_freed ino f) l.
Proof. by intros []. Qed.

Lemma synced_wf now x c : 0 ≤ i_mode c < 2 ^ 16 → i_nlink c = 0 → wf_dinode (to_dinode (synced now (ior x (emptied (ior ILOCKED c))))).
Proof.
  clear. intros Hm Hl. destruct (stamp_same now (ior x (emptied (ior ILOCKED c))) (ior x (emptied (ior ILOCKED c)))) as (_ & _ & _ & _ & E1 & E2).
  unfold synced. split; cbn; rewrite ?E1, ?E2; [done|exact Hm|]. change (0 ≤ i_nlink c < 2 ^ 16). by rewrite Hl.
Qed.

Lemma upto_time O fsp f O' : upto O fsp f O' → time_sec O' = time_sec O.
Proof. intros (_ & _ & _ & E). exact (f_equal snd E). Qed.

Lemma room_geom f f' : ino_room f → same_geom f f' → ino_room f'.
Proof. intros Hr (_ & _ & E). injection E as ? ? E1 E2 E3 ? ? ?. unfold ino_room. by rewrite E1, E2, E3. Qed.

Lemma ronly_geom f f' : fs_ronly f = 0 → same_geom f f' → fs_ronly f' = 0.
Proof. intros Hr (_ & _ & E). rewrite <- Hr. by injection E. Qed.

(** Everything after the test for a file without a name. *)
Lemma wp_irele_doomed V s q F C O ip c f l fuel (Q : unit → ast → Prop) :
  let bl := blocks (take 4 (i_addr c)) in let n := itod (i_number c) in
  doomed V s q F C O ip c f l → enough fuel →
  (∀ s' V' O' c' f' f1, ist s' None q (F ++ [ip]) (cset ip c' C) O' → cache V' ∅ (bs O') → u_error (bs O') = u_error (bs O) →
     fss O' !! i_fs c = Some f' → free_ok V' (i_dev c) f' (bl ++ l) → f' = ino_freed (i_number c) f1 → same_geom f f1 →
     to_dinode c' = removed (time_sec O) c → ikey c' = ikey c → i_flag c' = 0 → i_count c' = 0 → dnode V' (ikey c) = removed (time_sec O) c →
     (∀ k, k.1 ≠ i_dev c ∨ k.2 ∉ bl ∧ k.2 ≠ n → V' k = V k) → Q tt s') →
  wp (irele fsleep sleep strategy is_tape lbolt fuel ip) Q s.
Proof using Driver0.
  intros bl n [H (Hip & HF & HC) Hca (Hf & Hro & Hok & Hroom) (Hdo & Hgv) Hsz (Hn & Hl & Hm & Hpi) (Hdev & Hg & Hisz & H256)] Hfu HQ. set (now := time_sec O) in *.
  unfold irele. apply wp_bind. eapply wp_irdc; [exact H|]. intros i _ Hi.
  assert (i_count i = 1) as -> by (rewrite <- Hn; change (i_count i) with (i_count (icont i)); by rewrite Hi). cbn [Z.eqb Pos.eqb].
  apply wp_bind, wp_bind. eapply wp_iwrc; [exact H|plain_wr|]. intros s1 H1. set (c1 := ior ILOCKED c) in *.
  apply wp_bind. eapply wp_irdc; [exact H1|]. intros i1 _ Hi1.
  assert (Ei : i_nlink i1 = i_nlink c ∧ i_fs i1 = i_fs c) by (change (i_nlink (icont i1) = i_nlink c ∧ i_fs (icont i1) = i_fs c); by rewrite Hi1). destruct Ei as [-> ->].
  rewrite Hl. cbn [Z.leb Z.compare]. apply wp_bind, wp_bind. eapply wp_rdfs_ist; [exact H1|exact Hf|]. rewrite Hro. apply wp_ret. cbn [Z.eqb when].
  apply wp_bind, wp_bind.
  eapply (wp_itrunc_zero V s1 None q F C O ip c1 f l); [done..|by unfold c1; rewrite ihas_or, orb_false_r|done|done|done|]. intros s2 V2 O2 f2 b2 D2 H2 Hca2 U2.
  change (i_dev c1) with (i_dev c) in *. change (i_fs c1) with (i_fs c) in *. change (i_addr c1) with (i_addr c) in *. fold bl in D2. fold now in H2, Hca2.
  set (c2 := synced now (ior (Z.lor ICHG IUPD) (emptied c1))) in *. pose proof D2 as [Hu2 _ _ Hok2 Hge2 HV2].
  apply wp_bind. eapply wp_iwrc; [exact H2|plain_wr|]. intros s3 H3. apply wp_bind. eapply wp_iwrc; [exact H3|plain_wr|]. intros s4 H4.
  apply wp_bind. eapply wp_iwrc; [exact H4|plain_wr|]. intros s5 H5. set (c5 := ior _ (set_daddr _ _ _)) in H5.
  destruct (stamp_same now (ior (Z.lor ICHG IUPD) (emptied c1)) (ior (Z.lor ICHG IUPD) (emptied c1))) as (_ & K2 & N2 & F2 & _).
  change (ikey c5 = ikey c) in K2. change (i_count c5 = i_count c) in N2. change (i_fs c5 = i_fs c) in F2.
  assert (K2' : i_number c5 = i_number c) by exact (f_equal snd K2). apply (f_equal fst) in K2. change (i_dev c5 = i_dev c) in K2.
  apply wp_bind. eapply wp_irdc; [exact H5|]. intros i5 _ Hi5. assert (i_number i5 = i_number c) as -> by (change (i_number (icont i5) = i_number c); rewrite Hi5; exact K2').
  eapply (wp_ifree_ist _ _ _ _ _ _ _ _ f2); [exact H5|rewrite F2; exact (upto_at _ _ _ _ Hu2)|by apply (room_geom f)|]. rewrite F2. intros s6 O6 H6 Hu6 Eb6.
  assert (Et : time_sec O6 = now) by (by rewrite (upto_time _ _ _ _ Hu6), (upto_time O (i_fs c) f2 (set_bs b2 O2) Hu2)). change (bs (set_bs b2 O2)) with b2 in Eb6.
  assert (Hca6 : cache (vput V2 c2) ∅ (bs O6)) by (rewrite Eb6; done).
  eapply (wp_irele_tail (vput V2 c2) s6 q F C O6 ip c5 (ino_freed (i_number c) f2));
    [exact H6|done|done|exact Hca6|by rewrite K2, K2'|by rewrite K2|rewrite F2; exact (upto_at _ _ _ _ Hu6)|exact (ronly_geom f f2 Hro Hge2)|by rewrite N2|unfold c5; rewrite ihas_or; apply orb_true_r|done|].
  rewrite Et. intros s7 b7 w c7 c6 H7 Hca7 U7 D7 K7 G7 N7.
  assert (Hk6 : i_dev c6 = i_dev c ∧ i_number c6 = i_number c ∧ i_dev c2 = i_dev c ∧ i_number c2 = i_number c).
  { destruct (stamp_same now c5 c5) as (_ & K6 & _). split_and!; [rewrite <- K2; exact (f_equal fst K6)|rewrite <- K2'; exact (f_equal snd K6)|exact K2|exact K2']. }
  destruct Hk6 as (J1 & J2 & J3 & J4). assert (Hrm : to_dinode c6 = removed now c) by (by apply (synced_removed now c c2)).
  assert (Hw2 : wf_dinode (to_dinode c2)) by (by apply synced_wf).
  assert (Hw6 : wf_dinode (to_dinode c6)) by (rewrite Hrm; by split).
  assert (H256' : length (V2 (i_dev c, n)) = 256%nat).
  { rewrite HV2; [done|]. right. cbn. intros Hin. destruct Hgv as [_ Hgv]. specialize (Hgv n Hin). unfold n in *. lia. }
  assert (HV6 : ∀ k, k ≠ (i_dev c, n) → vput (vput V2 c2) c6 k = V2 k) by (intros k Hk; by rewrite !vput_ne by (rewrite ?J1, ?J2, ?J3, ?J4; done)).
  eapply (HQ s7 (vput (vput V2 c2) c6) _ c7 (ino_freed (i_number c) f2) f2); [exact H7|exact Hca7|cbn; congruence|exact (upto_at _ _ _ _ Hu6)| |done|done|by rewrite D7| |done|done| |].
  - apply free_ok_ino. eapply free_ok_ext; [|exact Hok2]. intros x Hx. apply HV6. intros [= ->]. apply (fo_range _ _ _ _ Hok2) in Hx. destruct Hge2 as (G1 & _). unfold n in *. lia.
  - rewrite K7. unfold ikey. by rewrite K2, K2'.
  - rewrite (vput_node _ c6); [exact Hrm|unfold ikey; by rewrite J1, J2|exact Hw6|]. rewrite J1, J2. by apply vput_length.
  - intros k Hk. rewrite HV6; [apply HV2; tauto|]. intros ->. cbn in Hk. tauto.
Qed.

(** *** A new file *)

(** The inode and the superblock when [ialloc] hands the inode out. *)
Definition ialloced (c : inode) : inode := set_i_flags 0 (set_i_addr (replicate (Z.to_nat NADDR) 0) (ior ILOCKED (set_i_count 1 c))).
Definition ino_taken f : fs :=
  let f := set_fs_fmod 1 (set_fs_ninode (fs_ninode f - 1) f) in set_fs_tinode (u32 (fs_tinode f - 1)) f.

(** An inode in core that nobody refers to is found by [iget]. *)
Lemma wp_iget_core s q F1 F2 C O ip c dev fsp ino fuel (Q : Z → ast → Prop) :
  ist s None q (F1 ++ ip :: F2) (cset ip c C) O → ikey c = (dev, ino) → ip ∈ q (INOHASH dev ino) → is_ino ip →
  (∀ x cx, x ∈ q (INOHASH dev ino) → C x = Some cx → ikey cx = (dev, ino) → x = ip) → i_count c = 0 → i_flag c = 0 → (1 <= fuel)%nat →
  (∀ s', ist s' None q (F1 ++ F2) (cset ip (ior ILOCKED (set_i_count 1 c)) C) O → Q ip s') →
  wp (iget fsleep sleep strategy is_tape lbolt fuel dev fsp ino) Q s.
Proof.
  clear Driver0 good phys. intros H Hk Hin Hip Hun Hn Hfl Hfu HQ. destruct fuel as [|fuel]; [lia|]. cbn [iget]. apply wp_bind. eapply wp_ifind; [exact H|..].
  - intros x cx Hx Hcx Hkx. assert (x = ip) as ->. { destruct (decide (x = ip)) as [|Hne]; [done|]. apply (Hun x cx); [done| |done]. by rewrite cset_ne in Hcx. }
    rewrite (proj2 (Z.eqb_neq ip 0)) by apply (ino_not_slot ip Hip). apply wp_bind. eapply wp_irdc; [exact H|]. intros i _ Hi.
    assert (Ei : ∀ g, ihas g i = false) by (intros g; change (ihas g (icont i) = false); rewrite Hi; unfold ihas; by rewrite Hfl).
    rewrite !Ei. apply wp_bind. eapply (wp_itake s q F1 F2); [by rewrite Hn|rewrite Hn; lia|]. rewrite Hn. intros s1 H1. by apply wp_ret, HQ.
  - intros Hno. by destruct (Hno ip c Hin (cset_eq _ _ _)).
Qed.

Lemma wp_ialloc_core s q F1 F2 C O ip c pip p f fuel (Q : Z → ast → Prop) :
  ist s None q (F1 ++ ip :: F2) (cset ip c C) O → is_ino ip → C pip = Some p → pip ≠ ip → i_dev p = i_dev c → fss O !! i_fs p = Some f →
  fs_ilock f = 0 → 0 < fs_ninode f → aget (fs_inode f) (fs_ninode f - 1) = Some (i_number c) → ROOTINO < i_number c →
  ip ∈ q (INOHASH (i_dev c) (i_number c)) → (∀ x cx, x ∈ q (INOHASH (i_dev c) (i_number c)) → C x = Some cx → ikey cx = ikey c → x = ip) →
  i_count c = 0 → i_flag c = 0 → i_mode c = 0 → (1 <= fuel)%nat →
  (∀ s' O', ist s' None q (F1 ++ F2) (cset ip (ialloced c) C) O' → upto O (i_fs p) (ino_taken f) O' → bs O' = bs O → Q ip s') →
  wp (ialloc fsleep sleep strategy is_tape lbolt fuel pip) Q s.
Proof.
  clear Driver0 good phys. intros H Hip Hp Hne Hd Hf Hlk Hn Hget Hino Hin Hun Hc Hfl Hm Hfu HQ.
  unfold ialloc. apply wp_bind. eapply wp_rdi_ist; [exact H|by rewrite cset_ne|]. intros ip0 _ Hp0.
  assert (Ep : i_fs ip0 = i_fs p ∧ i_dev ip0 = i_dev c) by (rewrite <- Hd, <- Hp0; done). destruct Ep as [-> ->].
  destruct fuel as [|fuel]; [lia|]. cbn [wait_fs_ilock ialloc_loop]. apply wp_bind, wp_bind. eapply wp_rdfs_ist; [exact H|exact Hf|]. rewrite Hlk. apply wp_ret.
  apply wp_bind. eapply wp_rdfs_ist; [exact H|exact Hf|]. rewrite (proj2 (Z.ltb_lt _ _) Hn).
  apply wp_bind. eapply wp_wrfs_ist; [exact H|exact Hf|]. intros s1 O1 H1 Hu1 E1. apply wp_bind. eapply wp_load; [exact Hget|]. rewrite (proj2 (Z.leb_gt _ _) Hino).
  apply wp_bind. eapply (wp_iget_core s1 q F1 F2 C O1 ip c); [exact H1|done|done|done|done|done|done|done|]. intros s2 H2.
  rewrite (proj2 (Z.eqb_neq ip 0)) by apply (ino_not_slot ip Hip). apply wp_bind. eapply wp_irdc; [exact H2|]. intros i2 _ Hi2.
  assert (i_mode i2 = 0) as -> by (rewrite <- Hm; change (i_mode (icont i2) = i_mode c); by rewrite Hi2). cbn [Z.eqb].
  apply wp_bind. eapply wp_iwrc; [exact H2|plain_wr|]. intros s3 H3. apply wp_bind. eapply wp_iwrc; [exact H3|plain_wr|]. intros s4 H4.
  apply wp_bind. eapply wp_wrfs_ist; [exact H4|exact (upto_at _ _ _ _ Hu1)|]. intros s5 O5 H5 Hu5 E5.
  apply wp_bind. eapply wp_wrfs_ist; [exact H5|exact (upto_at _ _ _ _ Hu5)|]. intros s6 O6 H6 Hu6 E6. apply wp_ret.
  eapply HQ; [exact H6| |congruence]. eapply upto_trans; [eapply upto_trans; [exact Hu1|exact Hu5]|exact Hu6].
Qed.

(** A file that is not in core. *)
Lemma wp_iget_absent V s q ip F C c0 O dev fsp ino fuel (Q : Z → ast → Prop) :
  ist s None q (ip :: F) C O → C ip = Some c0 → i_count c0 = 0 → cache V ∅ (bs O) → good (dev, itod ino) → dev ≠ NODEV → nch_full (nch O) → enough fuel →
  (∀ x cx, x ∈ q (INOHASH dev ino) → C x = Some cx → ikey cx ≠ (dev, ino)) →
  (∀ s' b' n m, ist s' None (front ip (INOHASH dev ino) (without ip q)) F (cset ip (loaded V c0 dev fsp ino n) C) (set_bs b' (set_nch m (set_nextinodeid n O))) →
     cache V ∅ b' → nch_full m → u_error b' = u_error (bs O) → Q ip s') →
  wp (iget fsleep sleep strategy is_tape lbolt (S fuel) dev fsp ino) Q s.
Proof using Driver0.
  intros H Hc Hn Hca Hg Hdev Hnf Hfu Hno HQ. cbn [iget]. apply wp_bind. eapply wp_ifind; [exact H|intros x cx Hx Hcx Hk; by destruct (Hno x cx Hx Hcx)|].
  intros _. cbn [Z.eqb]. by eapply (wp_iget_load fsleep sleep strategy is_tape lbolt V s q ip F C c0 O).
Qed.
End trunc.

(** ** Claims *)



(** ** A file system with a root directory and a file without a name *)

Definition rm_root : dinode := Dinode (Icommon1 16877 2 0 0 1024) [8; 0; 0; 0; 0; 0; 0] 0 (Icommon2 1 2 3).
Definition rm_file : dinode := Dinode (Icommon1 33188 0 7 8 1500) [6; 7; 0; 0; 0; 0; 0] 0 (Icommon2 1 2 3).
Definition rm_disk : gmap key block := {[ demo_phys (0, 1) := put_dinode rm_root 1 (put_dinode rm_file 4 zero_block) ]}.
Definition rm_V (k : key) : block := dget rm_disk (demo_phys k).
Definition rm_boot : ast := boot (BS mem_init data_zero rm_disk 0 0 0 []) {[1 := demo_fs]} 0 nst_zero [] 50 0 [] [].
Definition rm_loaded (n : Z) : inode := loaded rm_V (icont (default zero_inode (itab_init !! 801))) 0 1 5 n.
Notation rm_iget := (iget (λ _ _, mret tt) nosleep one_strategy (λ _, false) 9 13 0 1).

Lemma rm_good b : 0 ≤ b < 10 → demo_good (0, b).
Proof. intros Hb. split; [by left|]. split; cbn [fst snd sd_phys]; [change (Z.shiftr 200 1) with 100|change (Z.shiftr 2 1) with 1]; lia. Qed.

Lemma demo_free V : Alloc.free_ok (good := demo_good) V 0 demo_fs [5; 4; 3].
Proof.
  split; [apply (fl_last _ 4 ([3; 4; 5] ++ replicate 196 0)); [done|by vm_compute]|apply (bool_decide_unpack _); by vm_compute| |done| |done|done].
  - intros b Hb. simpl. set_solver by lia.
  - intros b Hb. by apply rm_good.
Qed.

Lemma rm_doomed (K : Z → Z → A Z) (Q : Z → ast → Prop) :
  (∀ s q F C O n, doomed (phys := demo_phys) (good := demo_good) rm_V s q F C O 801 (rm_loaded n) demo_fs [5; 4; 3] → time_sec O = 50 → u_error (bs O) = 0 →
     801 ∈ q (INOHASH 0 5) → (∀ x cx, x ∈ q (INOHASH 0 5) → C x = Some cx → ikey cx = (0, 5) → x = 801) →
     (∃ p, C 800 = Some p ∧ i_dev p = 0 ∧ i_fs p = 1) → wp (K 800 801) Q s) →
  wp (ihinit;; pip ← rm_iget 2; ip ← rm_iget 5; K pip ip) Q rm_boot.
Proof.
  intros HQ. apply wp_bind, wp_run. eexists tt, _. split; [apply ihinit_run|].
  pose proof (init_table (BS mem_init data_zero rm_disk 0 0 0 []) {[1 := demo_fs]} 0 nst_zero [] 50 0 [] []) as H. change (seqZ (inode_at 0) NINODE) with (800 :: 801 :: seqZ 802 22) in H.
  apply wp_bind. eapply (wp_iget_absent (λ _ _, mret tt) nosleep one_strategy (λ _, false) 9 rm_V _ (λ _, []) 800);
    [exact H|vm_compute; reflexivity|done|apply init_cache, data_zero_ok|by apply rm_good|done|apply nst_zero_full|done|intros x cx Hx; by apply elem_of_nil in Hx|].
  intros s1 b1 n1 m1 H1 Hca1 Hm1 U1.
  apply wp_bind. eapply (wp_iget_absent (λ _ _, mret tt) nosleep one_strategy (λ _, false) 9 rm_V _ _ 801);
    [exact H1|vm_compute; reflexivity|done|exact Hca1|by apply rm_good|done|exact Hm1|done|intros x cx Hx; by apply elem_of_nil in Hx|].
  intros s2 b2 n2 m2 H2 Hca2 Hm2 U2. eapply (HQ s2 _ _ _ _ n2); [eapply Doomed; [exact H2|..]|..].
  - split_and!; [unfold is_ino, inode_at, NINODE; lia|apply (bool_decide_unpack _); by vm_compute|by vm_compute].
  - exact Hca2.
  - split_and!; [done|done|apply demo_free|by vm_compute].
  - split; [by exists [6; 7; 0; 0]|]. change (blocks _) with [6; 7]. split; [apply (bool_decide_unpack _); by vm_compute|]. intros b Hb.
    split; [simpl; set_solver by lia|set_solver by lia].
  - by vm_compute.
  - by vm_compute.
  - split_and!; [done|by apply rm_good|by vm_compute|by vm_compute].
  - done.
  - cbn. rewrite U2. exact U1.
  - by left.
  - intros x cx Hx _ _. change (x ∈ [801]) in Hx. by apply list_elem_of_singleton in Hx.
  - eexists. split; [vm_compute; reflexivity|done].
Qed.


End TruncSpec.
