(* ===== verification/Rw.v ===== *)
(** * Reading and writing files (sys/kernel/sys_inode.c, kern_subr.c)

    [rwip] moves data between the pieces of memory a [uio] describes and the
    blocks of a file, one block at a time, through [bmap] and the buffer cache;
    [uiomove] copies the bytes.  Blocks are lists of words, as the allocator has
    them; their bytes are those of the words, the lowest first.  Memory holds the
    bytes a transfer names, apart from the buffers. *)

From S2P Require Import Prelude Links Que NameCache Bio Cache CacheIO CacheSpec Alloc Bmap Inode.
Import NameCache Bio Cache CacheIO CacheSpec Alloc Bmap Inode.

Module Rw.
#[local] Set Default Proof Using "Type".

Definition IO_UNIT : Z := 1.
Definition IO_APPEND : Z := 2.
Definition MNT_NOATIME : Z := 128.
Definition APPEND : Z := 1028.
Definition IFCHR : Z := 8192.
Definition IFDIR : Z := 16384.
Definition IFREG : Z := 32768.
Definition IFLNK : Z := 40960.
Definition ISUID : Z := 2048.
Definition ISGID : Z := 1024.
Definition EPERM : Z := 1.
Definition EFTYPE : Z := 79.
Definition SIGXFSZ : Z := 25.

(** ** Bytes and words *)

Definition word_bytes (w : Z) : list Z := [Z.land w 255; Z.land (Z.shiftr w 8) 255; Z.land (Z.shiftr w 16) 255; Z.land (Z.shiftr w 24) 255].
(** The [DEV_BSIZE] bytes of a block. *)
Definition blk_bytes (d : list Z) : list Z := take (Z.to_nat DEV_BSIZE) (mbind word_bytes d ++ replicate (Z.to_nat DEV_BSIZE) 0).
Fixpoint blk_words (bs : list Z) : list Z :=
  match bs with
  | b0 :: b1 :: b2 :: b3 :: bs => b0 + 2 ^ 8 * b1 + 2 ^ 16 * b2 + 2 ^ 24 * b3 :: blk_words bs
  | _ => []
  end.
Definition splice (bs : list Z) (at_ : nat) (new : list Z) : list Z := take at_ bs ++ new ++ drop (at_ + length new) bs.

(** ** State *)

Record iovec := Iov { iov_base : Z; iov_len : Z }.
Inductive uio_dir := UIO_READ | UIO_WRITE.
(** [uio_iov] holds the pieces from the current one on. *)
Record uio := Uio { uio_iov : list iovec; uio_iovcnt : Z; uio_offset : Z; uio_resid : Z; uio_rw : uio_dir }.
Definition is_read (u : uio) : bool := match uio_rw u with UIO_READ => true | UIO_WRITE => false end.

(** The kernel, memory by bytes, the transfer, and of the user structure the real
    user and the limit on the size of files; [sigs] are the signals posted to
    the process. *)
Record rst := RS { kn : ast; mem : gmap Z Z; io : uio; u_ruid : Z; rlim_fsize : Z; sigs : list Z }.
Definition set_kn (v : ast) (s : rst) : rst := RS v (mem s) (io s) (u_ruid s) (rlim_fsize s) (sigs s).
Definition set_mem (v : gmap Z Z) (s : rst) : rst := RS (kn s) v (io s) (u_ruid s) (rlim_fsize s) (sigs s).
Definition set_io (v : uio) (s : rst) : rst := RS (kn s) (mem s) v (u_ruid s) (rlim_fsize s) (sigs s).
Definition set_sigs (v : list Z) (s : rst) : rst := RS (kn s) (mem s) (io s) (u_ruid s) (rlim_fsize s) v.

Notation R := (M rst).

(** A wild pointer. *)
Definition wild {X} : R X := λ _, Fault.
(** An operation of the file system. *)
Definition ka {X} (m : A X) : R X := λ s,
  match m (kn s) with
  | Ret a k => Ret a (set_kn k s)
  | Panic msg k => Panic msg (set_kn k s)
  | Fault => Fault
  | NoFuel => NoFuel
  end.

Definition mem_get (m : gmap Z Z) (base n : Z) : option (list Z) := mapM (λ j, m !! (base + j)) (seqZ 0 n).
(** All of the memory written must be there. *)
Fixpoint mem_put (m : gmap Z Z) (base : Z) (bs : list Z) : option (gmap Z Z) :=
  match bs with
  | [] => Some m
  | b :: bs => _ ← m !! base; mem_put (<[base := b]> m) (base + 1) bs
  end.

(** ** uiomove *)

(** [bcopy] between the bytes of buffer [bp] from [cp] on and memory. *)
Definition copy_out (bp cp base cnt : Z) : R unit :=
  d ← ka (rd_data bp);
  if cp + cnt <=? DEV_BSIZE then
    store (λ s, m ← mem_put (mem s) base (take (Z.to_nat cnt) (drop (Z.to_nat cp) (blk_bytes d))); Some (set_mem m s))
  else wild.
Definition copy_in (bp cp base cnt : Z) : R unit :=
  bs ← load (λ s, mem_get (mem s) base cnt);
  if cp + cnt <=? DEV_BSIZE then ka (wr_data bp (λ d, blk_words (splice (blk_bytes d) (Z.to_nat cp) bs)))
  else wild.

Fixpoint uiomove (fuel : nat) (bp cp n : Z) : R Z :=
  match fuel with
  | O => nofuel
  | S f =>
      u ← gets io;
      if (0 <? n) && negb (uio_resid u =? 0) then
        match uio_iov u with
        | [] => wild
        | iov :: rest =>
            if iov_len iov =? 0 then
              modify (set_io (Uio rest (uio_iovcnt u - 1) (uio_offset u) (uio_resid u) (uio_rw u)));;
              uiomove f bp cp n
            else
              let cnt := if n <? iov_len iov then n else iov_len iov in
              (if is_read u then copy_out bp cp (iov_base iov) cnt else copy_in bp cp (iov_base iov) cnt);;
              modify (set_io (Uio (Iov (iov_base iov + cnt) (iov_len iov - cnt) :: rest) (uio_iovcnt u) (s32 (uio_offset u + cnt)) (u32 (uio_resid u - cnt)) (uio_rw u)));;
              uiomove f bp (cp + cnt) (n - cnt)
        end
      else mret 0
  end.
(** Each piece is passed at most twice. *)
Definition uio_fuel (u : uio) : nat := S (2 * length (uio_iov u)).

Section rw.
Context (fsleep : Z → Z → A unit) (sleep : Z → Z → M bst unit) (strategy : Z → M bst unit) (is_tape : Z → bool) (lbolt : Z).
(** [d_read] and [d_write] of the character devices. *)
Context (d_read d_write : Z → Z → R Z).

(** ** rwip *)

(** The checks on the type of the file: an error, or the flags to go on with. *)
Definition rwip_check (ip ioflag : Z) : R (Z + Z) :=
  i ← ka (rdi ip);
  let type := Z.land (i_mode i) IFMT in
  u ← gets io;
  if is_read u then
    f ← ka (rdfs (i_fs i));
    when (Z.land (fs_flags f) MNT_NOATIME =? 0) (ka (wri ip (ior IACC)));;
    mret (inr ioflag)
  else if type =? IFREG then
    when (negb (Z.land ioflag IO_APPEND =? 0)) (modify (set_io (Uio (uio_iov u) (uio_iovcnt u) (i_size i) (uio_resid u) (uio_rw u))));;
    u ← gets io;
    if negb (Z.land (i_flags i) APPEND =? 0) && negb (uio_offset u =? i_size i) then mret (inl EPERM) else mret (inr ioflag)
  else if type =? IFDIR then mret (inr (Z.lor ioflag IO_SYNC))
  else if (type =? IFLNK) || (type =? IFBLK) || (type =? IFCHR) then mret (inr ioflag)
  else mret (inl EFTYPE).

Definition rwip_chr (ip dev ioflag : Z) : R Z :=
  u ← gets io;
  i ← ka (rdi ip);
  if is_read u then
    f ← ka (rdfs (i_fs i));
    when (Z.land (fs_flags f) MNT_NOATIME =? 0) (ka (wri ip (ior IACC)));;
    d_read dev ioflag
  else
    ka (wri ip (ior (Z.lor IUPD ICHG)));;
    d_write dev ioflag.

(** The block of the next piece and its length: [inl] returns from [rwip]. *)
Definition rwip_map (fuel : nat) (ip type flags lbn n : Z) : R (Z + Z * Z) :=
  u ← gets io;
  if negb (type =? IFBLK) then
    i ← ka (rdi ip);
    let diff := s32 (i_size i - uio_offset u) in
    if is_read u && (diff <=? 0) then mret (inl 0)
    else
      let n := if is_read u && (diff <? n) then diff else n in
      bn ← ka (if is_read u then bmap fsleep sleep strategy is_tape lbolt fuel ip lbn B_READ flags
               else bmap fsleep sleep strategy is_tape lbolt fuel ip lbn B_WRITE (if n =? DEV_BSIZE then flags else Z.lor flags B_CLRBUF));
      e ← ka (bio (gets u_error));
      if negb (e =? 0) || negb (is_read u) && (bn <? 0) then mret (inl e)
      else
        i ← ka (rdi ip);
        when (negb (is_read u) && (i_size i <? s32 (uio_offset u + n)) && ((type =? IFDIR) || (type =? IFREG) || (type =? IFLNK)))
          (ka (wri ip (set_i_size (s32 (uio_offset u + n)))));;
        mret (inr (bn, n))
  else
    ka (modify (set_rablock (s32 (lbn + 1))));;
    mret (inr (lbn, n)).

(** A buffer for it. *)
Definition rwip_buf (fuel : nat) (ip dev lbn bn n : Z) : R Z :=
  u ← gets io;
  if is_read u then
    i ← ka (rdi ip);
    bp ← ka (if bn <? 0 then
               bp ← bio (geteblk sleep strategy fuel);
               wr_data bp (λ _, zero_block);;
               mret bp
             else if s32 (i_freef i + 1) =? lbn then
               ra ← gets rablock;
               bio (breada sleep strategy fuel dev bn ra)
             else bio (bread sleep strategy fuel dev bn));
    ka (wri ip (set_i_freef lbn));;
    mret bp
  else
    bp ← ka (bio (if n =? DEV_BSIZE then getblk sleep strategy fuel dev bn else bread sleep strategy fuel dev bn));
    b ← ka (bio (rdb bp));
    when (b_resid b =? DEV_BSIZE)
      (ka (bio (wrb bp (set_b_resid 0)));;
       ka (wr_data bp (λ _, zero_block)));;
    mret bp.

(** The data is moved and the buffer given back. *)
Definition rwip_move (fuel : nat) (ip ioflag bp on n : Z) : R unit :=
  u ← gets io;
  e ← uiomove (uio_fuel u) bp on n;
  ka (seterr e);;
  u ← gets io;
  i ← ka (rdi ip);
  if is_read u then
    when ((n + on =? DEV_BSIZE) || (uio_offset u =? i_size i))
      (ka (bio (wrb bp (or_flags B_AGE)));;
       when (ihas IPIPE i) (ka (bio (wrb bp (and_not_flags B_DELWRI)))));;
    ka (bio (brelse bp))
  else
    (if negb (Z.land ioflag IO_SYNC =? 0) then ka (bio (bwrite sleep strategy fuel bp))
     else if (n + on =? DEV_BSIZE) && negb (ihas IPIPE i) then
       ka (bio (wrb bp (or_flags B_AGE)));;
       ka (bio (bawrite sleep strategy fuel bp))
     else ka (bio (bdwrite sleep strategy is_tape fuel bp)));;
    ka (wri ip (ior (Z.lor IUPD ICHG)));;
    uid ← gets u_ruid;
    when (negb (uid =? 0)) (ka (wri ip (λ i, set_i_mode (Z.land (i_mode i) (Z.lnot (Z.lor ISUID ISGID))) i))).

(** The [do] loop: [inl] returns from [rwip], [inr] is [error] after the loop. *)
Fixpoint rwip_loop (k : nat) (fuel : nat) (ip dev type ioflag flags : Z) : R (Z + Z) :=
  match k with
  | O => nofuel
  | S k =>
      u ← gets io;
      let lbn := lblkno (uio_offset u) in
      let on := blkoff (uio_offset u) in
      m ← rwip_map fuel ip type flags lbn (Z.min (DEV_BSIZE - on) (uio_resid u));
      match m with
      | inl e => mret (inl e)
      | inr (bn, n) =>
          bp ← rwip_buf fuel ip dev lbn bn n;
          b ← ka (bio (rdb bp));
          let n := Z.min n (DEV_BSIZE - b_resid b) in
          if has B_ERROR b then
            ka (bio (brelse bp));;
            mret (inr EIO)
          else
            rwip_move fuel ip ioflag bp on n;;
            e ← ka (bio (gets u_error));
            u ← gets io;
            if (e =? 0) && negb (uio_resid u =? 0) && negb (n =? 0) then rwip_loop k fuel ip dev type ioflag flags
            else mret (inr 0)
      end
  end.

(** A failed write with [IO_UNIT] is undone. *)
Definition rwip_undo (fuel : nat) (ip type ioflag osize resid error : Z) : R Z :=
  e ← ka (bio (gets u_error));
  let error := if error =? 0 then e else error in
  u ← gets io;
  when (negb (error =? 0) && negb (is_read u) && negb (Z.land ioflag IO_UNIT =? 0) && negb (type =? IFBLK))
    (ka (itrunc fsleep sleep strategy is_tape lbolt fuel ip (u32 osize) (Z.land ioflag IO_SYNC));;
     u ← gets io;
     modify (set_io (Uio (uio_iov u) (uio_iovcnt u) (s32 (uio_offset u - (resid - uio_resid u))) (u32 resid) (uio_rw u))));;
  mret error.

Definition rwip (k fuel : nat) (ip ioflag : Z) : R Z :=
  i ← ka (rdi ip);
  let type := Z.land (i_mode i) IFMT in
  let dev := i_rdev i in
  r ← rwip_check ip ioflag;
  match r with
  | inl e => mret e
  | inr ioflag =>
      f ← ka (rdfs (i_fs i));
      let ioflag := if (type =? IFREG) || (type =? IFDIR) && negb (Z.land (fs_flags f) MNT_ASYNC =? 0) then Z.land ioflag (Z.lnot IO_SYNC) else ioflag in
      if type =? IFCHR then rwip_chr ip dev ioflag
      else
        u ← gets io;
        if uio_resid u =? 0 then mret 0
        else
          lim ← gets rlim_fsize;
          if negb (is_read u) && (type =? IFREG) && (u32 lim <? u32 (uio_offset u + uio_resid u)) then
            modify (λ s, set_sigs (sigs s ++ [SIGXFSZ]) s);;
            mret EFBIG
          else
            let dev := if type =? IFBLK then dev else i_dev i in
            r ← rwip_loop k fuel ip dev type ioflag (if negb (Z.land ioflag IO_SYNC =? 0) then B_SYNC else 0);
            match r with
            | inl e => mret e
            | inr error => rwip_undo fuel ip type ioflag (i_size i) (uio_resid u) error
            end
  end.

(** ** rdwri *)

(** A transfer for the kernel itself, of one piece of memory; [aresid] tells
    whether the caller asks for what is left. *)
Definition rdwri (k fuel : nat) (rw : uio_dir) (ip base len offset ioflg : Z) (aresid : bool) : R (Z * Z) :=
  modify (set_io (Uio [Iov base len] 1 offset len rw));;
  error ← rwip k fuel ip ioflg;
  u ← gets io;
  mret (if negb aresid && negb (uio_resid u =? 0) then EIO else error, uio_resid u).
End rw.
End Rw.
