(* ===== verification/RwMove.v ===== *)
(** * Moving bytes between memory and buffers

    The bytes of a block, the addresses a transfer names, and what [uiomove] of
    kern_subr.c does with them: it delivers bytes to these addresses, or collects
    them, in order, whatever the pieces. *)

From S2P Require Import Prelude Links Que NameCache Bio Cache CacheIO CacheSpec Alloc Bmap Inode Rw.
Import NameCache Bio Cache CacheIO CacheSpec Alloc Bmap Inode Rw.

Module RwMove.
#[local] Set Default Proof Using "Type".

(** ** Bytes of words *)

Definition is_byte (b : Z) : Prop := 0 ≤ b < 256.

Lemma word_bytes_length w : length (word_bytes w) = 4%nat.
Proof. done. Qed.

Lemma words_bytes_length d : length (mbind word_bytes d) = (4 * length d)%nat.
Proof. induction d as [|w d IH]; [done|]. cbn [mbind list_bind]. rewrite length_app, word_bytes_length, IH. simpl. lia. Qed.

Lemma blk_bytes_length d : zlen (blk_bytes d) = DEV_BSIZE.
Proof. unfold blk_bytes. rewrite length_take, length_app, length_replicate. unfold DEV_BSIZE. lia. Qed.

Lemma low_byte x : Z.land x 255 = x `mod` 256.
Proof. change 255 with (Z.ones 8). by rewrite Z.land_ones. Qed.

Lemma byte_div b0 r : is_byte b0 → Z.shiftr (b0 + 2 ^ 8 * r) 8 = r.
Proof. unfold is_byte. intros. rewrite Z.shiftr_div_pow2 by lia. change (2 ^ 8) with 256. rewrite Z.mul_comm, Z.div_add by lia. rewrite Z.div_small by lia. lia. Qed.

Lemma byte_mod b0 r : is_byte b0 → Z.land (b0 + 2 ^ 8 * r) 255 = b0.
Proof. unfold is_byte. intros. rewrite low_byte. change (2 ^ 8) with 256. rewrite Z.mul_comm, Z.mod_add by lia. by apply Z.mod_small. Qed.

Lemma word_bytes_of b0 b1 b2 b3 : is_byte b0 → is_byte b1 → is_byte b2 → is_byte b3 → word_bytes (b0 + 2 ^ 8 * b1 + 2 ^ 16 * b2 + 2 ^ 24 * b3) = [b0; b1; b2; b3].
Proof.
  intros H0 H1 H2 H3. replace (b0 + 2 ^ 8 * b1 + 2 ^ 16 * b2 + 2 ^ 24 * b3) with (b0 + 2 ^ 8 * (b1 + 2 ^ 8 * (b2 + 2 ^ 8 * (b3 + 2 ^ 8 * 0)))) by lia.
  unfold word_bytes. change 24 with (8 + (8 + 8)). change 16 with (8 + 8) at 1. rewrite <- !Z.shiftr_shiftr by lia. rewrite !byte_div, !byte_mod by done. done.
Qed.

Lemma bytes_of_words bs : Forall is_byte bs → (4 | zlen bs) → mbind word_bytes (blk_words bs) = bs.
Proof.
  intros Hb [n Hn]. assert (Hlen : length bs = (4 * Z.to_nat n)%nat) by lia. clear Hn. revert bs Hb Hlen. induction (Z.to_nat n) as [|m IH]; intros bs Hb Hlen.
  { by destruct bs. }
  destruct bs as [|b0 [|b1 [|b2 [|b3 bs]]]]; try (simpl in Hlen; lia). cbn [blk_words mbind list_bind].
  repeat (apply Forall_cons in Hb as [? Hb]). rewrite word_bytes_of by done. cbn [app]. do 4 f_equal. apply IH; [done|simpl in Hlen; lia].
Qed.

Lemma blk_bytes_words bs : Forall is_byte bs → zlen bs = DEV_BSIZE → blk_bytes (blk_words bs) = bs.
Proof.
  intros Hb Hl. unfold blk_bytes. rewrite bytes_of_words; [|done|rewrite Hl; by exists 256]. apply take_app_length'. lia.
Qed.

Lemma blk_bytes_ok d : Forall is_byte (blk_bytes d).
Proof.
  apply Forall_take, Forall_app. split; [|apply Forall_replicate; unfold is_byte; lia]. induction d as [|w d IH]; [done|]. cbn [mbind list_bind]. apply Forall_app. split; [|done].
  unfold word_bytes. repeat apply Forall_cons_2; [..|done]; unfold is_byte; rewrite low_byte; apply Z.mod_pos_bound; lia.
Qed.

Lemma zero_bytes : blk_bytes zero_block = replicate (Z.to_nat DEV_BSIZE) 0.
Proof. by vm_compute. Qed.

(** ** Splicing *)

Lemma splice_nil bs n : splice bs n [] = bs.
Proof. unfold splice. simpl. rewrite Nat.add_0_r. apply take_drop. Qed.

Lemma splice_length bs n new : (n + length new <= length bs)%nat → length (splice bs n new) = length bs.
Proof. intros. unfold splice. rewrite !length_app, length_take, length_drop. lia. Qed.

Lemma splice_app bs n b1 b2 : (n + length b1 <= length bs)%nat → splice (splice bs n b1) (n + length b1) b2 = splice bs n (b1 ++ b2).
Proof.
  intros Hl. unfold splice. rewrite length_app. assert (Ht : length (take n bs ++ b1) = (n + length b1)%nat) by (rewrite length_app, length_take; lia).
  rewrite (app_assoc (take n bs)). rewrite (take_app_length' (take n bs ++ b1)) by done. rewrite drop_app_ge by lia. rewrite Ht, drop_drop, <- !app_assoc.
  do 3 f_equal. f_equal. lia.
Qed.

Lemma splice_lookup bs n new j : (n + length new <= length bs)%nat →
  splice bs n new !! j = if decide (n ≤ j < n + length new)%nat then new !! (j - n)%nat else bs !! j.
Proof.
  intros Hl. unfold splice. assert (Ht : length (take n bs) = n) by (rewrite length_take; lia). case_decide as Hd.
  - rewrite lookup_app_r, Ht, lookup_app_l by lia. done.
  - destruct (decide (j < n)%nat) as [Hj|Hj]; [by rewrite lookup_app_l, lookup_take_lt by lia|].
    rewrite lookup_app_r, Ht, lookup_app_r, lookup_drop by lia. f_equal. lia.
Qed.

Lemma splice_ok bs n new : Forall is_byte bs → Forall is_byte new → Forall is_byte (splice bs n new).
Proof. intros. unfold splice. rewrite !Forall_app. split_and!; auto using Forall_take, Forall_drop. Qed.

(** ** The memory a transfer names *)

(** The addresses, in order. *)
Definition places (iov : list iovec) : list Z := mbind (λ v, seqZ (iov_base v) (iov_len v)) iov.
(** Bytes delivered to addresses, and collected from them. *)
Fixpoint scatter (m : gmap Z Z) (ads bs : list Z) : gmap Z Z :=
  match ads, bs with
  | a :: ads, b :: bs => scatter (<[a := b]> m) ads bs
  | _, _ => m
  end.
Definition gather (m : gmap Z Z) (ads : list Z) : list Z := (λ a, m !!! a) <$> ads.
Definition present (m : gmap Z Z) (ads : list Z) : Prop := ∀ a, a ∈ ads → is_Some (m !! a).

Lemma places_cons v iov : places (v :: iov) = seqZ (iov_base v) (iov_len v) ++ places iov.
Proof. done. Qed.

Lemma scatter_app m a1 : ∀ b1 a2 b2, length a1 = length b1 → scatter m (a1 ++ a2) (b1 ++ b2) = scatter (scatter m a1 b1) a2 b2.
Proof. revert m. induction a1 as [|a a1 IH]; intros m [|b b1] a2 b2 Hl; try done. simpl. apply IH. by injection Hl. Qed.

Lemma scatter_dom m ads : ∀ bs a, is_Some (m !! a) → is_Some (scatter m ads bs !! a).
Proof. revert m. induction ads as [|x ads IH]; intros m [|b bs] a Ha; try done. simpl. apply IH. rewrite lookup_insert. case_decide; eauto. Qed.

Lemma mem_put_spec bs : ∀ m base, present m (seqZ base (zlen bs)) → mem_put m base bs = Some (scatter m (seqZ base (zlen bs)) bs).
Proof.
  induction bs as [|b bs IH]; intros m base Hp; [done|].
  assert (E : seqZ base (zlen (b :: bs)) = base :: seqZ (Z.succ base) (zlen bs)).
  { rewrite seqZ_cons by (simpl; lia). f_equal. f_equal. simpl. lia. }
  rewrite E in *. cbn [mem_put scatter]. destruct (Hp base ltac:(by left)) as [x ->]. cbn [mbind option_bind]. replace (base + 1) with (Z.succ base) in * by lia. apply IH.
  intros a Ha. rewrite lookup_insert. case_decide; [eauto|]. apply Hp. by right.
Qed.

Lemma mem_get_spec m base n : present m (seqZ base n) → mem_get m base n = Some (gather m (seqZ base n)).
Proof.
  intros Hp. unfold mem_get, gather. apply mapM_Some. apply Forall2_same_length_lookup_2; [by rewrite length_fmap, !length_seqZ|].
  intros j x y Hx Hy. apply lookup_seqZ in Hx as [-> Hj]. apply list_lookup_fmap_Some in Hy as (a & -> & Ha). apply lookup_seqZ in Ha as [-> _].
  destruct (Hp (base + Z.of_nat j)) as [v Hv]; [apply elem_of_seqZ; lia|]. rewrite Z.add_0_l, Hv. by rewrite (lookup_total_correct _ _ _ Hv).
Qed.

(** ** The state of a transfer *)

Definition uio_wf (u : uio) : Prop :=
  Forall (λ v, 0 ≤ iov_len v) (uio_iov u) ∧ uio_resid u = zlen (places (uio_iov u)) ∧ 0 ≤ uio_offset u ∧ uio_offset u + uio_resid u < 2 ^ 31.
(** [n] bytes later. *)
Definition moved (n : Z) (u u' : uio) : Prop :=
  uio_wf u' ∧ places (uio_iov u') = drop (Z.to_nat n) (places (uio_iov u)) ∧ uio_offset u' = uio_offset u + n ∧ uio_rw u' = uio_rw u.
(** A bound on the iterations of [uiomove]. *)
Definition uio_left (u : uio) : nat :=
  (2 * length (uio_iov u) - match uio_iov u with v :: _ => if (iov_len v =? 0)%Z then 1 else 0 | [] => 0 end)%nat.

Lemma moved_none u : uio_wf u → moved 0 u u.
Proof. intros. split_and!; [done|done|lia|done]. Qed.

Lemma moved_more n m u u1 u2 : 0 ≤ n → 0 ≤ m → moved n u u1 → moved m u1 u2 → moved (n + m) u u2.
Proof. intros Hn Hm (_ & P1 & O1 & R1) (W2 & P2 & O2 & R2). split_and!; [done| |lia|congruence]. rewrite P2, P1, drop_drop. f_equal. lia. Qed.

Lemma moved_resid n u u' : 0 ≤ n ≤ uio_resid u → uio_wf u → moved n u u' → uio_resid u' = uio_resid u - n.
Proof. intros Hn (_ & R & _) ((_ & R' & _) & P & _). rewrite R', P, length_drop. lia. Qed.

Lemma uio_left_fuel u : (uio_left u < uio_fuel u)%nat.
Proof. unfold uio_left, uio_fuel. lia. Qed.

(** One iteration: a piece without bytes is passed, or [cnt] bytes of it are moved. *)
Lemma uio_skip u v rest c : uio_wf u → uio_iov u = v :: rest → iov_len v = 0 →
  let u' := Uio rest c (uio_offset u) (uio_resid u) (uio_rw u) in moved 0 u u' ∧ (uio_left u' < uio_left u)%nat.
Proof.
  intros (Hf & Hr & Ho) E0 Hv u'. unfold moved, uio_wf, u', uio_left. cbn. rewrite E0 in *. apply Forall_cons in Hf as [_ Hf]. rewrite places_cons, Hv in *. cbn [seqZ app] in *.
  change (seqZ (iov_base v) 0) with (@nil Z) in *. cbn [app drop] in *. split_and!; [done|done|lia|lia|done|lia|done|]. cbn [length]. rewrite ?Z.eqb_refl. destruct rest as [|w rest]; [simpl; lia|]. simpl. lia.
Qed.

Lemma uio_step u v rest c cnt : uio_wf u → uio_iov u = v :: rest → 0 < cnt ≤ iov_len v →
  let u' := Uio (Iov (iov_base v + cnt) (iov_len v - cnt) :: rest) c (s32 (uio_offset u + cnt)) (u32 (uio_resid u - cnt)) (uio_rw u) in
  moved cnt u u' ∧ take (Z.to_nat cnt) (places (uio_iov u)) = seqZ (iov_base v) cnt ∧ (cnt = iov_len v → (uio_left u' < uio_left u)%nat).
Proof.
  intros (Hf & Hr & Ho) E0 Hc u'. pose proof Hf as Hf0. rewrite E0 in Hf. apply Forall_cons in Hf as [Hv Hf].
  assert (Hs : seqZ (iov_base v) (iov_len v) = seqZ (iov_base v) cnt ++ seqZ (iov_base v + cnt) (iov_len v - cnt)) by (rewrite <- seqZ_app by lia; f_equal; lia).
  assert (Hlc : length (seqZ (iov_base v) cnt) = Z.to_nat cnt) by (apply length_seqZ).
  assert (Hpl : places (uio_iov u) = seqZ (iov_base v) cnt ++ places (uio_iov u')) by (rewrite E0; unfold u'; cbn [uio_iov]; rewrite !places_cons, Hs, <- app_assoc; done).
  assert (Hlen : zlen (places (uio_iov u)) = cnt + zlen (places (uio_iov u'))) by (rewrite Hpl, length_app, Hlc; lia).
  split; [|split].
  - unfold moved. rewrite Hpl, drop_app_length' by done. 
    split; [|split_and!; [done|unfold u'; cbn [uio_offset]; by rewrite s32_id by (unfold is_s32; lia)|done]]. unfold uio_wf, u'. split_and!; cbn; [by apply Forall_cons_2; [cbn; lia|]|rewrite u32_id by (unfold is_u32; lia); fold u'; cbn in Hlen; lia|rewrite s32_id by (unfold is_s32; lia); lia|].
    rewrite s32_id, u32_id by (unfold is_s32, is_u32; lia). lia.
  - rewrite Hpl. by apply take_app_length'.
  - intros ->. unfold uio_left, u'. rewrite E0. cbn. rewrite Z.sub_diag. cbn. destruct (Z.eqb_spec (iov_len v) 0); lia.
Qed.

(** ** uiomove *)

Lemma wp_ka {X} (m : A X) s (Q : X → rst → Prop) : wp m (λ a k, Q a (set_kn k s)) (kn s) → wp (ka m) Q s.
Proof. rewrite !wp_run. intros (a & k & Hm & HQ). exists a, (set_kn k s). unfold ka. by rewrite Hm. Qed.

(** The loop, for any account [P] of what was copied. *)
Lemma wp_uiomove (P : Z → rst → Prop) bp cp n u0 fuel (Q : Z → rst → Prop) : ∀ j s,
  P j s → moved j u0 (io s) → uio_wf u0 → 0 ≤ j ≤ n → n ≤ uio_resid u0 → (uio_left (io s) < fuel)%nat →
  (∀ j s u, P j s → P j (set_io u s)) →
  (∀ j s base cnt, P j s → 0 ≤ j → 0 < cnt → j + cnt ≤ n → take (Z.to_nat cnt) (drop (Z.to_nat j) (places (uio_iov u0))) = seqZ base cnt →
     wp (if is_read u0 then copy_out bp (cp + j) base cnt else copy_in bp (cp + j) base cnt) (λ _ s', P (j + cnt) s' ∧ io s' = io s) s) →
  (∀ s', P n s' → moved n u0 (io s') → Q 0 s') →
  wp (uiomove fuel bp (cp + j) (n - j)) Q s.
Proof.
  induction fuel as [|fuel IH]; intros j s HP Hm Hwf Hj Hn Hfu Hio Hcp HQ; [lia|]. cbn [uiomove]. apply wp_bind, wp_gets.
  pose proof (moved_resid j u0 (io s) ltac:(lia) Hwf Hm) as Hres. pose proof Hm as (Hw & Hpl & Hoff & Hrw).
  destruct (Z.ltb_spec 0 (n - j)) as [Hlt|Hge]; cycle 1.
  { cbn [andb]. apply wp_ret. assert (j = n) as -> by lia. by apply HQ. }
  rewrite (proj2 (Z.eqb_neq (uio_resid (io s)) 0)) by lia. cbn [andb negb].
  destruct (uio_iov (io s)) as [|v rest] eqn:E0.
  { destruct Hw as (_ & Hr & _). rewrite E0 in Hr. simpl in Hr. lia. }
  assert (Hv : 0 ≤ iov_len v) by (destruct Hw as (Hf & _); rewrite E0 in Hf; by apply Forall_cons in Hf as [? _]).
  destruct (Z.eqb_spec (iov_len v) 0) as [Hz|Hz].
  - destruct (uio_skip (io s) v rest (uio_iovcnt (io s) - 1) Hw E0 Hz) as [Hm' Hl']. apply wp_bind, wp_modify.
    apply IH; try done; [by apply Hio| |cbn [io set_io]; lia]. cbn [io set_io]. rewrite <- (Z.add_0_r j). eapply moved_more; [lia|lia|exact Hm|exact Hm'].
  - set (cnt := if n - j <? iov_len v then n - j else iov_len v) in *.
    assert (Hcnt : 0 < cnt ≤ iov_len v ∧ j + cnt ≤ n ∧ (cnt = iov_len v ∨ j + cnt = n)) by (unfold cnt; destruct (Z.ltb_spec (n - j) (iov_len v)); lia).
    destruct Hcnt as (Hc1 & Hc2 & Hc3). destruct (uio_step (io s) v rest (uio_iovcnt (io s)) cnt Hw E0 Hc1) as (Hm' & Htk & Hlf).
    rewrite E0, Hpl in Htk. assert (is_read (io s) = is_read u0) as -> by (unfold is_read; by rewrite Hrw).
    apply wp_bind. eapply wp_mono; [apply (Hcp j s (iov_base v) cnt HP); try lia; exact Htk|].
    intros _ s1 [HP1 E1]. apply wp_bind, wp_modify. replace (cp + j + cnt) with (cp + (j + cnt)) by lia. replace (n - j - cnt) with (n - (j + cnt)) by lia.
    assert (Hmv : moved (j + cnt) u0 (io (set_io (Uio (Iov (iov_base v + cnt) (iov_len v - cnt) :: rest) (uio_iovcnt (io s)) (s32 (uio_offset (io s) + cnt)) (u32 (uio_resid (io s) - cnt)) (uio_rw (io s))) s1))).
    { eapply moved_more; [lia|lia|exact Hm|exact Hm']. }
    destruct Hc3 as [Hc3|Hc3]; [apply IH; try done; [by apply Hio|lia|cbn [io set_io]; specialize (Hlf Hc3); lia]|].
    destruct fuel as [|fuel]; [unfold uio_left in Hfu; rewrite E0 in Hfu; rewrite (proj2 (Z.eqb_neq _ _) Hz) in Hfu; simpl in Hfu; lia|].
    cbn [uiomove]. apply wp_bind, wp_gets. rewrite (proj2 (Z.ltb_ge 0 (n - (j + cnt)))) by lia. cbn [andb]. apply wp_ret. rewrite <- Hc3 in HQ. apply HQ; [by apply Hio|done].
Qed.

Definition bytes_ok (m : gmap Z Z) : Prop := ∀ a v, m !! a = Some v → is_byte v.
(** The rest of the process. *)
Definition same_proc (s s' : rst) : Prop := u_ruid s' = u_ruid s ∧ rlim_fsize s' = rlim_fsize s ∧ sigs s' = sigs s.

Lemma gather_ok m ads : bytes_ok m → present m ads → Forall is_byte (gather m ads).
Proof. intros Hm Hp. apply Forall_fmap, Forall_forall. intros a Ha. destruct (Hp a Ha) as [v Hv]. cbn. rewrite (lookup_total_correct _ _ _ Hv). by eapply Hm. Qed.

Lemma gather_app m a b : gather m (a ++ b) = gather m a ++ gather m b.
Proof. apply fmap_app. Qed.

Lemma present_sub m a b : (∀ x, x ∈ a → x ∈ b) → present m b → present m a.
Proof. intros Hs Hp x Hx. auto. Qed.


Section moves.
Context (strategy : Z → M bst unit) {phys : key → key} {good : key → Prop} `{!Driver strategy phys good}.
Implicit Types (V : key → block) (s : rst).
Notation cache := (cache (phys := phys) (good := good)).

Lemma wp_uiomove_read V k0 fsp f bp k d cp n s (Q : Z → rst → Prop) :
  let pl := take (Z.to_nat n) (places (uio_iov (io s))) in
  upto k0 fsp f (kn s) → cache V {[bp := (k, d)]} (bs (kn s)) → is_read (io s) = true → uio_wf (io s) → 0 ≤ cp → 0 ≤ n → cp + n ≤ DEV_BSIZE →
  n ≤ uio_resid (io s) → present (mem s) pl →
  (∀ s', upto k0 fsp f (kn s') → cache V {[bp := (k, d)]} (bs (kn s')) → u_error (bs (kn s')) = u_error (bs (kn s)) →
     mem s' = scatter (mem s) pl (take (Z.to_nat n) (drop (Z.to_nat cp) (blk_bytes d))) → moved n (io s) (io s') → same_proc s s' → Q 0 s') →
  wp (uiomove (uio_fuel (io s)) bp cp n) Q s.
Proof using Type*.
  intros pl Hu Hca Hrd Hwf Hcp Hn Hcn Hres Hpr HQ. pose proof (blk_bytes_length d) as Hd. set (B := blk_bytes d) in *. set (all := places (uio_iov (io s))) in *.
  assert (Hall : n ≤ zlen all) by (destruct Hwf as (_ & E & _); fold all in E; lia).
  rewrite <- (Z.add_0_r cp) at 1. rewrite <- (Z.sub_0_r n) at 1.
  apply (wp_uiomove (λ j s', (upto k0 fsp f (kn s') ∧ cache V {[bp := (k, d)]} (bs (kn s')) ∧ u_error (bs (kn s')) = u_error (bs (kn s))) ∧
    mem s' = scatter (mem s) (take (Z.to_nat j) all) (take (Z.to_nat j) (drop (Z.to_nat cp) B)) ∧ same_proc s s') bp cp n (io s)); [by split_and!|by apply moved_none|done|lia|done|apply uio_left_fuel|done| |].
  - intros j s1 base cnt ((Hu1 & Hca1 & U1) & Hm1 & Hs1) Hj Hc Hjc Htk. rewrite Hrd. fold all in Htk. unfold copy_out. apply wp_bind, wp_ka.
    eapply wp_rd_data; [exact Hu1|exact Hca1|apply lookup_singleton_eq|]. intros k1 Hu2 E2. cbv beta. rewrite (proj2 (Z.leb_le _ _)) by lia. fold B.
    assert (Hlen : zlen (take (Z.to_nat cnt) (drop (Z.to_nat (cp + j)) B)) = cnt) by (rewrite length_take, length_drop; lia).
    eapply wp_store; [cbn [mem set_kn]; rewrite mem_put_spec; [reflexivity|]|].
    + rewrite Hlen, Hm1, <- Htk. intros a Ha. apply scatter_dom, Hpr. unfold pl. fold all.
      replace (Z.to_nat n) with (Z.to_nat j + (Z.to_nat cnt + (Z.to_nat n - Z.to_nat j - Z.to_nat cnt)))%nat by lia.
      rewrite <- take_take_drop. apply elem_of_app. right. rewrite <- take_take_drop. apply elem_of_app. by left.
    + cbn. split; [|done]. split_and!; [done|by rewrite E2|by rewrite E2| |done..]. rewrite Hlen, Hm1, <- Htk.
      replace (Z.to_nat (j + cnt)) with (Z.to_nat j + Z.to_nat cnt)%nat by lia. rewrite <- !take_take_drop, scatter_app, drop_drop by (rewrite !length_take, length_drop; lia).
      do 3 f_equal. lia.
  - intros s' ((Hu1 & Hca1 & U1) & Hm1 & Hs1) Hmv. by apply HQ.
Qed.

Lemma wp_uiomove_write V k0 fsp f bp k d cp n s (Q : Z → rst → Prop) :
  let pl := take (Z.to_nat n) (places (uio_iov (io s))) in
  upto k0 fsp f (kn s) → cache V {[bp := (k, d)]} (bs (kn s)) → is_read (io s) = false → uio_wf (io s) → 0 ≤ cp → 0 ≤ n → cp + n ≤ DEV_BSIZE →
  n ≤ uio_resid (io s) → present (mem s) pl → bytes_ok (mem s) →
  (∀ s' d', upto k0 fsp f (kn s') → cache V {[bp := (k, d')]} (bs (kn s')) → u_error (bs (kn s')) = u_error (bs (kn s)) →
     blk_bytes d' = splice (blk_bytes d) (Z.to_nat cp) (gather (mem s) pl) → mem s' = mem s → moved n (io s) (io s') → same_proc s s' → Q 0 s') →
  wp (uiomove (uio_fuel (io s)) bp cp n) Q s.
Proof using Type*.
  intros pl Hu Hca Hrd Hwf Hcp Hn Hcn Hres Hpr Hbo HQ. pose proof (blk_bytes_length d) as Hd. set (B := blk_bytes d) in *. set (all := places (uio_iov (io s))) in *.
  assert (Hall : n ≤ zlen all) by (destruct Hwf as (_ & E & _); fold all in E; lia).
  rewrite <- (Z.add_0_r cp) at 1. rewrite <- (Z.sub_0_r n) at 1.
  apply (wp_uiomove (λ j s', (∃ d', upto k0 fsp f (kn s') ∧ cache V {[bp := (k, d')]} (bs (kn s')) ∧ u_error (bs (kn s')) = u_error (bs (kn s)) ∧
    blk_bytes d' = splice B (Z.to_nat cp) (gather (mem s) (take (Z.to_nat j) all))) ∧ mem s' = mem s ∧ same_proc s s') bp cp n (io s));
    [split_and!; [exists d; by rewrite splice_nil|done..]|by apply moved_none|done|lia|done|apply uio_left_fuel|done| |].
  - intros j s1 base cnt ((d1 & Hu1 & Hca1 & U1 & Hd1) & Hm1 & Hs1) Hj Hc Hjc Htk. rewrite Hrd. fold all in Htk. unfold copy_in.
    assert (Hlg : length (gather (mem s) (take (Z.to_nat j) all)) = Z.to_nat j) by (unfold gather; rewrite length_fmap, length_take; lia).
    assert (Hsb : ∀ x, x ∈ seqZ base cnt → x ∈ pl).
    { rewrite <- Htk. intros x Hx. unfold pl. replace (Z.to_nat n) with (Z.to_nat j + (Z.to_nat cnt + (Z.to_nat n - Z.to_nat j - Z.to_nat cnt)))%nat by lia.
      rewrite <- take_take_drop. apply elem_of_app. right. rewrite <- take_take_drop. apply elem_of_app. by left. }
    assert (Hps : present (mem s) (seqZ base cnt)) by (intros x Hx; auto).
    apply wp_bind. eapply wp_load; [rewrite Hm1; by apply mem_get_spec|]. rewrite (proj2 (Z.leb_le _ _)) by lia. apply wp_ka.
    eapply (wp_wr_data strategy); [exact Hu1|exact Hca1|apply lookup_singleton_eq|]. intros k2 Hu2 Hca2 U2. rewrite insert_singleton_eq in Hca2.
    cbn. split; [|done]. split; [|done]. eexists. split_and!; [done|exact Hca2|congruence|].
    pose proof (blk_bytes_length d1) as Hlen1.
    rewrite blk_bytes_words; [| |].
    + rewrite Hd1. replace (Z.to_nat (cp + j)) with (Z.to_nat cp + length (gather (mem s) (take (Z.to_nat j) all)))%nat by lia.
      rewrite splice_app by lia. f_equal. rewrite <- gather_app, <- Htk, take_take_drop. do 2 f_equal. lia.
    + apply splice_ok; [apply blk_bytes_ok|by apply gather_ok].
    + rewrite splice_length; [done|]. unfold gather. rewrite length_fmap, length_seqZ. lia.
  - intros s' ((d1 & Hu1 & Hca1 & U1 & Hd1) & Hm1 & Hs1) Hmv. by eapply HQ.
Qed.
End moves.
End RwMove.
