(* ===== verification/RwSpec.v ===== *)
(** * What reading and writing a file does

    A file is the function that gives the byte at each offset: [fbyte].  [rwip]
    delivers these bytes to the memory the caller names, in order, and changes
    exactly the bytes written. *)

From S2P Require Import Prelude Links Que NameCache Bio Cache CacheIO CacheRa CacheSpec Alloc Bmap Inode Rw RwMove.
Import NameCache Bio Cache CacheIO CacheRa CacheSpec Alloc Bmap Inode Rw RwMove.

Module RwSpec.
#[local] Set Default Proof Using "Type".

(** ** The bytes of a file *)

(** A hole reads as zero. *)
Definition fbyte (V : key → block) (dev : Z) (addr : list Z) (o : Z) : Z :=
  let b := fget (λ b, V (dev, b)) addr (o `div` DEV_BSIZE) in
  if b =? 0 then 0 else blk_bytes (V (dev, b)) !!! Z.to_nat (o `mod` DEV_BSIZE).
Definition fbytes (V : key → block) (dev : Z) (addr : list Z) (o n : Z) : list Z := fbyte V dev addr <$> seqZ o n.

Lemma fbytes_length V dev addr o n : length (fbytes V dev addr o n) = Z.to_nat n.
Proof. unfold fbytes. by rewrite length_fmap, length_seqZ. Qed.

Lemma fbytes_app V dev addr o n m : 0 ≤ n → 0 ≤ m → fbytes V dev addr o (n + m) = fbytes V dev addr o n ++ fbytes V dev addr (o + n) m.
Proof. intros. unfold fbytes. by rewrite seqZ_app, fmap_app. Qed.

(** Offsets and blocks. *)
Lemma off_block o : 0 ≤ o < 2 ^ 31 → lblkno o = o `div` DEV_BSIZE ∧ blkoff o = o `mod` DEV_BSIZE ∧ 0 ≤ lblkno o < MAXBN ∧ 0 ≤ blkoff o < DEV_BSIZE.
Proof.
  intros Ho. unfold lblkno, blkoff. rewrite u32_id by (unfold is_u32; lia). rewrite Z.shiftr_div_pow2 by done. change DEV_BMASK with (Z.ones 10). rewrite Z.land_ones by lia.
  change (2 ^ DEV_BSHIFT) with 1024. change (2 ^ 10) with 1024. unfold DEV_BSIZE, MAXBN. pose proof (Z.mod_pos_bound o 1024). split_and!; try lia; [apply Z.div_pos; lia|].
  apply Z.div_lt_upper_bound; lia.
Qed.

Lemma block_byte lbn on : 0 ≤ on < DEV_BSIZE → (lbn * DEV_BSIZE + on) `div` DEV_BSIZE = lbn ∧ (lbn * DEV_BSIZE + on) `mod` DEV_BSIZE = on.
Proof. unfold DEV_BSIZE. intros. rewrite Z.add_comm, Z.div_add, Z.mod_add, Z.div_small, Z.mod_small by lia. lia. Qed.

(** Bytes of one block. *)
Lemma fbytes_block V dev addr o n b : 0 ≤ o → 0 ≤ n → o `mod` DEV_BSIZE + n ≤ DEV_BSIZE → fget (λ b, V (dev, b)) addr (o `div` DEV_BSIZE) = b → b ≠ 0 →
  fbytes V dev addr o n = take (Z.to_nat n) (drop (Z.to_nat (o `mod` DEV_BSIZE)) (blk_bytes (V (dev, b)))).
Proof.
  intros Ho Hn Hon Hb Hb0. pose proof (blk_bytes_length (V (dev, b))) as Hl. pose proof (Z.mod_pos_bound o DEV_BSIZE ltac:(done)) as Hm.
  pose proof (Z.div_mod o DEV_BSIZE ltac:(done)) as Hdm. apply list_eq_same_length with (Z.to_nat n); [rewrite length_take, length_drop; lia|by rewrite fbytes_length|].
  intros j x y Hj Hx Hy. unfold fbytes in Hx. apply list_lookup_fmap_Some in Hx as (a & -> & Ha). apply lookup_seqZ in Ha as [-> _].
  rewrite lookup_take_lt, lookup_drop in Hy by done. unfold fbyte.
  destruct (block_byte (o `div` DEV_BSIZE) (o `mod` DEV_BSIZE + Z.of_nat j) ltac:(lia)) as [E1 E2].
  replace (o + Z.of_nat j) with (o `div` DEV_BSIZE * DEV_BSIZE + (o `mod` DEV_BSIZE + Z.of_nat j)) by lia. rewrite E1, E2, Hb, (proj2 (Z.eqb_neq b 0) Hb0).
  rewrite Z2Nat.inj_add, Nat2Z.id by lia. by apply list_lookup_total_correct.
Qed.

(** ** The inode in use *)

(** [k] is [k0] but for the buffers, the superblock [f] at [fsp] and the inode. *)
Definition upon (k0 : ast) (ip : Z) (i : inode) (fsp : Z) (f : fs) (k : ast) : Prop := upto (set_inodes (<[ip := i]> (inodes k0)) k0) fsp f k.
(** What a transfer leaves of an inode. *)
Definition same_file (i i' : inode) : Prop :=
  (i_dev i', i_number i', i_fs i', i_id i', i_count i', i_flags i', i_nlink i', ic_uid (i_ic1 i'), ic_gid (i_ic1 i')) =
  (i_dev i, i_number i, i_fs i, i_id i, i_count i, i_flags i, i_nlink i, ic_uid (i_ic1 i), ic_gid (i_ic1 i)) ∧
  Z.land (i_mode i') IFMT = Z.land (i_mode i) IFMT ∧ ihas IPIPE i' = ihas IPIPE i.

Section rules.
Implicit Types (s : rst).

Lemma set_kn_id s : set_kn (kn s) s = s.
Proof. by destruct s. Qed.

Lemma upon_self k ip i f : inodes k !! ip = Some i → fss k !! i_fs i = Some f → upon k ip i (i_fs i) f k.
Proof. intros Hi Hf. unfold upon. rewrite same_inodes by done. by apply upto_refl. Qed.

Lemma upon_inode k0 ip i fsp f k : upon k0 ip i fsp f k → inodes k !! ip = Some i.
Proof. intros (_ & -> & _). apply lookup_insert_eq. Qed.

Lemma wp_k_rdi k0 ip i fsp f s (Q : inode → rst → Prop) : upon k0 ip i fsp f (kn s) → Q i s → wp (ka (rdi ip)) Q s.
Proof. intros Hu HQ. apply wp_ka. eapply wp_load; [by eapply upon_inode|]. by rewrite set_kn_id. Qed.

Lemma wp_k_rdfs k0 ip i fsp f s (Q : fs → rst → Prop) : upon k0 ip i fsp f (kn s) → Q f s → wp (ka (rdfs fsp)) Q s.
Proof. intros Hu HQ. apply wp_ka. eapply wp_rdfs; [exact Hu|]. by rewrite set_kn_id. Qed.

Lemma wp_k_wri k0 ip i fsp f g s (Q : unit → rst → Prop) : upon k0 ip i fsp f (kn s) →
  (∀ k', upon k0 ip (g i) fsp f k' → bs k' = bs (kn s) → rablock k' = rablock (kn s) → Q tt (set_kn k' s)) → wp (ka (wri ip g)) Q s.
Proof.
  intros Hu HQ. apply wp_ka. eapply wp_store; [rewrite (upon_inode _ _ _ _ _ _ Hu); reflexivity|]. apply HQ; [|done|done].
  destruct Hu as (Ef & Ei & Em & Et). unfold upon, upto. simpl in *. rewrite Ei, insert_insert_eq. done.
Qed.

Lemma wp_k_err k0 ip i fsp f s (Q : Z → rst → Prop) : upon k0 ip i fsp f (kn s) → Q (u_error (bs (kn s))) s → wp (ka (bio (gets u_error))) Q s.
Proof. intros Hu HQ. apply wp_ka, wp_run. exists (u_error (bs (kn s))), (kn s). split; [|by rewrite set_kn_id]. unfold bio, gets. by destruct (kn s). Qed.

Lemma wp_k_seterr k0 ip i fsp f e s (Q : unit → rst → Prop) : upon k0 ip i fsp f (kn s) →
  (∀ k', upon k0 ip i fsp f k' → bs k' = set_u_error e (bs (kn s)) → Q tt (set_kn k' s)) → wp (ka (seterr e)) Q s.
Proof. intros Hu HQ. apply wp_ka. unfold seterr. eapply wp_bio; [exact Hu|]. apply wp_modify. intros k' Hu' E. by apply HQ. Qed.

(** An operation of the cache. *)
Lemma wp_k_bio {X} k0 ip i fsp f (m : M bst X) s (Q : X → rst → Prop) : upon k0 ip i fsp f (kn s) →
  wp m (λ a b, ∀ k', upon k0 ip i fsp f k' → bs k' = b → Q a (set_kn k' s)) (bs (kn s)) → wp (ka (bio m)) Q s.
Proof. intros Hu HQ. apply wp_ka. eapply wp_bio; [exact Hu|]. eapply wp_mono; [exact HQ|]. auto. Qed.
End rules.

Section file.
Context (fsleep : Z → Z → A unit) (sleep : Z → Z → M bst unit) (strategy : Z → M bst unit) (is_tape : Z → bool) (lbolt : Z).
Context {phys : key → key} {good : key → Prop} `{!Driver strategy phys good}.
Implicit Types (V : key → block) (s : rst).
Notation cache := (cache (phys := phys) (good := good)).
Notation free_ok := (free_ok (good := good)).

(** A file of a sound file system. *)
Record file V (i : inode) (f : fs) (l : list Z) : Prop := File {
  fl_dev : i_dev i ≠ NODEV;
  fl_free : free_ok V (i_dev i) f l;
  fl_owned : fowned V (i_dev i) f l (i_addr i)
}.

Lemma file_block V i f l x : file V i f l → x ∈ fowns (λ b, V (i_dev i, b)) (i_addr i) → 0 < x ∧ good (i_dev i, x).
Proof. intros [_ [_ _ _ F4 F5 _ _] (_ & _ & Hr)] Hx. destruct (Hr x Hx) as [_ ?]. split; [lia|]. apply F5. lia. Qed.

Lemma fget_owned W addr bn : length addr = Z.to_nat NADDR → 0 ≤ bn < MAXBN → fget W addr bn ≠ 0 → fget W addr bn ∈ fowns W addr.
Proof.
  intros Hl Hbn. pose proof (locate_slot bn Hbn) as Hs. unfold fget. destruct (locate bn) as [n b]. cbn [fst] in Hs. intros Ht.
  destruct (addr_word addr n Hl Hs) as [Hlk _]. eapply fowns_slot; [exact Hlk|]. by apply tget_towns.
Qed.

(** A flag of a held buffer. *)
Lemma wp_age V H (b : bst) bp k v (Q : unit → bst → Prop) : cache V H b → H !! bp = Some (k, v) →
  (∀ b', cache V H b' → u_error b' = u_error b → Q tt b') → wp (wrb bp (or_flags B_AGE)) Q b.
Proof.
  intros Hca HHb HQ. destruct (cache_held _ _ _ _ _ _ Hca HHb) as (Hb & _ & c & Hc & _). destruct Hca as [Hi Has].
  apply wp_ct; [auto with bflags|eauto|]. intros s' L. pose proof (ct_step_at _ _ _ _ _ L Hc) as C. apply HQ.
  - split; [eapply cinv_harmless; [apply harmless_age|exact L|exact Hi]|]. intros z cz Hz. rewrite C. case_decide; [|by apply Has].
    intros [= <-]. destruct (Has bp c Hb Hc) as [? ?]. split; [by bflags|done].
  - by destruct L as [(_ & _ & ?)%env_of _].
Qed.

(** A held buffer has no error and is not short. *)
Lemma wp_k_rdb V H k0 ip i fsp f bp k v s (Q : buf → rst → Prop) : upon k0 ip i fsp f (kn s) → cache V H (bs (kn s)) → H !! bp = Some (k, v) →
  (∀ b k', upon k0 ip i fsp f k' → bs k' = bs (kn s) → rablock k' = rablock (kn s) → has B_ERROR b = false → b_resid b = 0 → Q b (set_kn k' s)) → wp (ka (bio (rdb bp))) Q s.
Proof.
  intros Hu Hca HHb HQ. destruct (cache_held _ _ _ _ _ _ Hca HHb) as (Hb & _ & c & Hc & _ & _ & _ & Hodd & [_ Hrs] & _).
  apply wp_ka, wp_run. unfold ctm in Hc. destruct (bufs (bs (kn s)) !! bp) as [b|] eqn:E; [|done]. injection Hc as Hc. exists b, (kn s).
  split; [unfold bio, rdb, load; rewrite E; by destruct (kn s)|]. apply HQ; [done|done|done|rewrite (has_ct _ _ _ Hc); by apply (has_sub _ B_ODD)|by rewrite <- Hc in Hrs].
Qed.

Notation bmap := (bmap fsleep sleep strategy is_tape lbolt).

(** *** One block of a read *)

Lemma wp_map_read V k0 ip i f l fuel type flags n s (Q : Z + Z * Z → rst → Prop) :
  let u := io s in let diff := i_size i - uio_offset u in let bn := fget (λ b, V (i_dev i, b)) (i_addr i) (lblkno (uio_offset u)) in
  upon k0 ip i (i_fs i) f (kn s) → cache V ∅ (bs (kn s)) → u_error (bs (kn s)) = 0 → file V i f l → (Z.to_nat NBUF + 2 <= fuel)%nat →
  is_read u = true → type ≠ IFBLK → 0 ≤ uio_offset u < 2 ^ 31 → 0 ≤ i_size i < 2 ^ 31 → 0 < diff → bn ≠ 0 →
  (∀ k', upon k0 ip i (i_fs i) f k' → cache V ∅ (bs k') → u_error (bs k') = 0 → ahead (fowns (λ b, V (i_dev i, b)) (i_addr i)) bn (rablock k') →
     Q (inr (bn, Z.min n diff)) (set_kn k' s)) →
  wp (rwip_map fsleep sleep strategy is_tape lbolt fuel ip type flags (lblkno (uio_offset u)) n) Q s.
Proof using Driver0.
  intros u diff bn Hu Hca Hue Hfl Hfu Hrd Hty Ho Hsz Hdf Hbn HQ. pose proof Hfl as [Hdev Hok (Ht & Hnd & Hr)]. destruct (off_block _ Ho) as (_ & _ & Hlb & _).
  unfold rwip_map. apply wp_bind, wp_gets. fold u. rewrite (proj2 (Z.eqb_neq _ _) Hty). cbn [negb]. apply wp_bind. eapply wp_k_rdi; [exact Hu|]. cbv zeta.
  rewrite s32_id by (unfold is_s32; lia). fold diff. rewrite Hrd. cbn [andb negb]. rewrite (proj2 (Z.leb_gt diff 0)) by lia. apply wp_bind, wp_ka.
  eapply (wp_bmap_read_ra fsleep sleep strategy is_tape lbolt V (kn s) ip i f); [by eapply upon_inode|by eapply upto_at|exact Hca|done|done|done|intros x Hx; by eapply file_block|done|].
  intros k1 Hu1 Hca1 U1 Hra. fold bn in Hra |- *. assert (Hu1' : upon k0 ip i (i_fs i) f k1) by (by eapply upto_trans).
  assert (Hbp : 0 < bn) by (eapply file_block; [exact Hfl|apply fget_owned; [apply Ht|done|done]]).
  unfold answer. rewrite (proj2 (Z.eqb_neq _ _) Hbn). apply wp_bind. eapply wp_k_err; [exact Hu1'|]. cbn [kn set_kn]. rewrite U1, Hue. change (0 =? 0) with true. cbn [negb orb].
  apply wp_bind. eapply wp_k_rdi; [exact Hu1'|]. cbn [andb when]. apply wp_bind, wp_ret, wp_ret.
  replace (if diff <? n then diff else n) with (Z.min n diff) by (destruct (Z.ltb_spec diff n); lia). apply HQ; [done|done|congruence|by apply Hra].
Qed.

Lemma wp_buf_read V k0 ip i f l fuel lbn bn n s (Q : Z → rst → Prop) :
  upon k0 ip i (i_fs i) f (kn s) → cache V ∅ (bs (kn s)) → file V i f l → (Z.to_nat NBUF + 2 <= fuel)%nat → is_read (io s) = true →
  bn ∈ fowns (λ b, V (i_dev i, b)) (i_addr i) → ahead (fowns (λ b, V (i_dev i, b)) (i_addr i)) bn (rablock (kn s)) →
  (∀ bp k', upon k0 ip (set_i_freef lbn i) (i_fs i) f k' → cache V {[bp := ((i_dev i, bn), V (i_dev i, bn))]} (bs k') → u_error (bs k') = u_error (bs (kn s)) → Q bp (set_kn k' s)) →
  wp (rwip_buf sleep strategy fuel ip (i_dev i) lbn bn n) Q s.
Proof using Driver0.
  intros Hu Hca Hfl Hfu Hrd Hbn Hah HQ. destruct (file_block _ _ _ _ _ Hfl Hbn) as [Hb0 Hg]. pose proof (fl_dev _ _ _ _ Hfl) as Hdev.
  pose proof (fl_owned _ _ _ _ Hfl) as (_ & Hnd & _).
  assert (Hsz : (S (size (∅ : gmap Z (key * block))) < Z.to_nat NBUF)%nat) by (rewrite map_size_empty; unfold NBUF; lia).
  unfold rwip_buf. apply wp_bind, wp_gets. rewrite Hrd. apply wp_bind. eapply wp_k_rdi; [exact Hu|]. rewrite (proj2 (Z.ltb_ge bn 0)) by lia. apply wp_bind.
  assert (Hend : ∀ bp b', cache V (<[bp := ((i_dev i, bn), V (i_dev i, bn))]> ∅) b' → u_error b' = u_error (bs (kn s)) →
    ∀ k', upon k0 ip i (i_fs i) f k' → bs k' = b' → wp (ka (wri ip (set_i_freef lbn));; mret bp) Q (set_kn k' s)).
  { intros bp b' Hca' U' k1 Hu1 E1. apply wp_bind. eapply wp_k_wri; [exact Hu1|]. intros k2 Hu2 E2 _. apply wp_ret. apply HQ; [exact Hu2|by rewrite E2; cbn; rewrite E1|rewrite E2; cbn; congruence]. }
  destruct (s32 (i_freef i + 1) =? lbn).
  - apply wp_ka, wp_bind, wp_gets. eapply wp_bio; [exact Hu|]. eapply (wp_breada sleep strategy V ∅); [exact Hca|done|done| |done|exact Hsz|done|].
    + intros Hr0. destruct Hah as [?|[Hin Hne]]; [done|]. split; [by eapply file_block|by apply Hne].
    + intros bp b' Hca' _ U' k' Hu' E'. by apply (Hend bp b' Hca' U' k').
  - eapply wp_k_bio; [exact Hu|]. eapply (wp_bread sleep strategy V ∅); [exact Hca|done|done|done|lia|done|].
    intros bp b' Hca' _ U' k' Hu' E'. by apply (Hend bp b' Hca' U' k').
Qed.

Lemma cache_uerr V H (b : bst) e : cache V H b → cache V H (set_u_error e b).
Proof. intros [Hi Ha]. split; [by apply (cinv_env _ _ _ _ _ b)|done]. Qed.

Lemma wp_move_read V k0 ip i fsp f fuel ioflag bp k on n s (Q : unit → rst → Prop) :
  let pl := take (Z.to_nat n) (places (uio_iov (io s))) in
  upon k0 ip i fsp f (kn s) → cache V {[bp := (k, V k)]} (bs (kn s)) → is_read (io s) = true → uio_wf (io s) → ihas IPIPE i = false →
  0 ≤ on → 0 ≤ n → on + n ≤ DEV_BSIZE → n ≤ uio_resid (io s) → present (mem s) pl →
  (∀ s', upon k0 ip i fsp f (kn s') → cache V ∅ (bs (kn s')) → u_error (bs (kn s')) = 0 →
     mem s' = scatter (mem s) pl (take (Z.to_nat n) (drop (Z.to_nat on) (blk_bytes (V k)))) → moved n (io s) (io s') → same_proc s s' → Q tt s') →
  wp (rwip_move sleep strategy is_tape fuel ip ioflag bp on n) Q s.
Proof using Driver0.
  intros pl Hu Hca Hrd Hwf Hpi Hon Hn Hle Hres Hpr HQ. unfold rwip_move. apply wp_bind, wp_gets, wp_bind.
  eapply (wp_uiomove_read strategy V); [exact Hu|exact Hca|done|done|done|done|done|done|done|]. intros s1 Hu1 Hca1 U1 Hm1 Hmv Hp1.
  apply wp_bind. eapply wp_k_seterr; [exact Hu1|]. intros k2 Hu2 E2. apply (cache_uerr _ _ _ 0) in Hca1. rewrite <- E2 in Hca1.
  assert (U2 : u_error (bs k2) = 0) by (by rewrite E2). apply wp_bind, wp_gets, wp_bind. eapply wp_k_rdi; [exact Hu2|]. cbn [io set_kn].
  assert (is_read (io s1) = true) as -> by (destruct Hmv as (_ & _ & _ & Hrw); unfold is_read in *; by rewrite Hrw). apply wp_bind.
  apply (wp_mono _ (λ _ s', ∃ k', s' = set_kn k' s1 ∧ upon k0 ip i fsp f k' ∧ cache V {[bp := (k, V k)]} (bs k') ∧ u_error (bs k') = 0)).
  { apply wp_when; [|by exists k2]. intros _. apply wp_bind. eapply wp_k_bio; [exact Hu2|]. eapply wp_age; [exact Hca1|apply lookup_singleton_eq|].
    intros b' Hca' U' k' Hu' E'. rewrite Hpi. cbn [when]. apply wp_ret. exists k'. split_and!; [done|done|by rewrite E'|rewrite E'; cbn in U'; congruence]. }
  intros _ s3 (k3 & -> & Hu3 & Hca3 & U3). apply wp_ka. eapply (wp_release_ind strategy V); [exact Hu3|exact Hca3|]. intros k4 Hu4 Hca4 U4.
  apply HQ; [done|done|cbn; cbn in U4; congruence|done|done|done].
Qed.

(** *** The loop of a read *)

(** The bytes a read can deliver. *)
Definition avail (i : inode) (u : uio) : Z := Z.max 0 (Z.min (uio_resid u) (i_size i - uio_offset u)).
(** The blocks these bytes are in. *)
Definition blocks_of (o n : Z) : Z := (o + n) `div` DEV_BSIZE - o `div` DEV_BSIZE.
Definition dense V (i : inode) (o n : Z) : Prop :=
  ∀ lbn, o `div` DEV_BSIZE ≤ lbn → lbn * DEV_BSIZE < o + n → fget (λ b, V (i_dev i, b)) (i_addr i) lbn ≠ 0.

Lemma file_ext V i i' f l : i_dev i' = i_dev i → i_addr i' = i_addr i → file V i f l → file V i' f l.
Proof. intros Ed Ea [F1 F2 F3]. split; by rewrite ?Ed, ?Ea. Qed.

Lemma wp_rw_read V k0 f l fuel type ioflag flags ip kk : ∀ i s (Q : Z + Z → rst → Prop),
  let u := io s in let c := avail i u in
  upon k0 ip i (i_fs i) f (kn s) → cache V ∅ (bs (kn s)) → u_error (bs (kn s)) = 0 → file V i f l → (Z.to_nat NBUF + 2 <= fuel)%nat →
  is_read u = true → type ≠ IFBLK → ihas IPIPE i = false → 0 ≤ i_size i < 2 ^ 31 → uio_wf u → 0 < uio_resid u →
  dense V i (uio_offset u) c → present (mem s) (take (Z.to_nat c) (places (uio_iov u))) → c = 0 ∧ (1 <= kk)%nat ∨ blocks_of (uio_offset u) c + 2 ≤ Z.of_nat kk →
  (∀ r lr s', let i' := set_i_freef lr i in r = inl 0 ∨ r = inr 0 → upon k0 ip i' (i_fs i) f (kn s') → cache V ∅ (bs (kn s')) → u_error (bs (kn s')) = 0 →
     mem s' = scatter (mem s) (take (Z.to_nat c) (places (uio_iov u))) (fbytes V (i_dev i) (i_addr i) (uio_offset u) c) → moved c u (io s') → same_proc s s' → Q r s') →
  wp (rwip_loop fsleep sleep strategy is_tape lbolt kk fuel ip (i_dev i) type ioflag flags) Q s.
Proof using Driver0.
  induction kk as [|kk IH]; intros i s Q u c Hu Hca Hue Hfl Hfu Hrd Hty Hpi Hsz Hwf Hres Hdn Hpr Hkk HQ.
  { exfalso. unfold blocks_of in Hkk. pose proof (Z.div_le_mono (uio_offset u) (uio_offset u + c) DEV_BSIZE ltac:(done) ltac:(unfold c, avail; lia)). lia. }
  pose proof Hwf as (_ & Hrs & Ho & Hoe). destruct (off_block (uio_offset u) ltac:(lia)) as (El & Eo & Hlb & Hbo). cbn [rwip_loop]. apply wp_bind, wp_gets. fold u. cbv zeta.
  destruct (decide (i_size i - uio_offset u ≤ 0)) as [Hend|Hmore].
  - apply wp_bind. unfold rwip_map. apply wp_bind, wp_gets. fold u. rewrite (proj2 (Z.eqb_neq _ _) Hty). cbn [negb]. apply wp_bind. eapply wp_k_rdi; [exact Hu|]. cbv zeta.
    rewrite s32_id by (unfold is_s32; lia). rewrite Hrd. rewrite (proj2 (Z.leb_le _ 0)) by lia. cbn [andb]. apply wp_ret, wp_ret.
    assert (c = 0) as -> by (unfold c, avail; lia). apply (HQ _ (i_freef i)); [by left|by destruct i|done|done|done|by apply moved_none|done].
  - assert (Hc : c = Z.min (uio_resid u) (i_size i - uio_offset u) ∧ 0 < c) by (unfold c, avail; lia). destruct Hc as [Hc Hc0].
    pose proof (Z.div_mod (uio_offset u) DEV_BSIZE ltac:(done)) as Hdm. set (on := blkoff (uio_offset u)) in *. set (lbn := lblkno (uio_offset u)) in *. rewrite <- El, <- Eo in Hdm.
    assert (Hbn : fget (λ b, V (i_dev i, b)) (i_addr i) lbn ≠ 0) by (apply Hdn; lia). set (bn := fget (λ b, V (i_dev i, b)) (i_addr i) lbn) in *.
    apply wp_bind. eapply (wp_map_read V k0 ip i f l); [done|done|done|done|done|done|done|fold u; lia|done|fold u; lia|exact Hbn|]. intros k1 Hu1 Hca1 U1 Hah1. fold u.
    rewrite <- Z.min_assoc, <- Hc. set (n := Z.min (DEV_BSIZE - on) c). assert (Hn : 0 < n ∧ n ≤ c ∧ on + n ≤ DEV_BSIZE) by lia. destruct Hn as (Hn0 & Hnc & Hon).
    apply wp_bind. eapply (wp_buf_read V k0 ip i f l); [exact Hu1|exact Hca1|done|done|done|apply fget_owned; [apply (fl_owned _ _ _ _ Hfl)|done|done]|exact Hah1|].
    intros bp k2 Hu2 Hca2 U2. fold bn in Hca2. set (i2 := set_i_freef lbn i) in *. apply wp_bind. eapply (wp_k_rdb V); [exact Hu2|exact Hca2|apply lookup_singleton_eq|].
    intros b k3 Hu3 E3 _ Her Hbr. cbn [kn set_kn] in E3. rewrite <- E3 in Hca2, U2. cbv zeta. rewrite Her, Hbr, Z.sub_0_r. rewrite (Z.min_l n DEV_BSIZE) by lia.
    assert (Hplc : take (Z.to_nat c) (places (uio_iov u)) = take (Z.to_nat n) (places (uio_iov u)) ++ take (Z.to_nat (c - n)) (drop (Z.to_nat n) (places (uio_iov u)))).
    { rewrite take_take_drop. f_equal. lia. }
    rewrite Hplc in Hpr. apply wp_bind. eapply (wp_move_read V k0 ip i2); [exact Hu3|exact Hca2|done|done|done|lia|lia|lia|cbn; fold u; lia|intros a Ha; apply Hpr, elem_of_app; by left|].
    cbn [io mem set_kn]. fold u. intros s4 Hu4 Hca4 U4 Hm4 Hmv4 Hp4. apply wp_bind. eapply wp_k_err; [exact Hu4|]. rewrite U4. apply wp_bind, wp_gets. change (0 =? 0) with true.
    pose proof (moved_resid n u (io s4) ltac:(lia) Hwf Hmv4) as Hr4. pose proof Hmv4 as (Hwf4 & Hpl4 & Hof4 & Hrw4).
    assert (Hby : take (Z.to_nat n) (drop (Z.to_nat on) (blk_bytes (V (i_dev i, bn)))) = fbytes V (i_dev i) (i_addr i) (uio_offset u) n).
    { rewrite (fbytes_block V _ _ _ n bn); [by rewrite Eo|lia|lia|lia|by rewrite <- El|done]. }
    fold lbn in Hm4. fold bn in Hm4. rewrite Hby in Hm4. destruct (Z.eqb_spec (uio_resid (io s4)) 0) as [Hz|Hnz]; cbn [negb andb].
    { apply wp_ret. assert (Ecn : c = n) by lia. apply (HQ _ lbn); [by right|done|done|done|by rewrite Ecn|by rewrite Ecn|]. destruct Hp4 as (? & ? & ?). done. }
    rewrite (proj2 (Z.eqb_neq n 0)) by lia. cbn [negb].
    assert (Hav : avail i2 (io s4) = c - n) by (unfold avail; rewrite Hr4, Hof4; change (i_size i2) with (i_size i); lia).
    change (i_dev i) with (i_dev i2). eapply IH; [exact Hu4|exact Hca4|done|by apply (file_ext V i)|done|unfold is_read in *; by rewrite Hrw4|done|done|done|done|lia|..].
    + rewrite Hav, Hof4. intros lb Hlb1 Hlb2. apply Hdn; [|lia]. etrans; [|exact Hlb1]. apply Z.div_le_mono; [done|lia].
    + rewrite Hav, Hpl4, Hm4. intros a Ha. apply scatter_dom, Hpr, elem_of_app. by right.
    + rewrite Hav, Hof4. unfold blocks_of in *. destruct (decide (c = n)) as [Hcn|Hcn]; [left|right].
      * split; [lia|]. destruct Hkk as [?|Hkk]; [lia|]. pose proof (Z.div_le_mono (uio_offset u) (uio_offset u + c) DEV_BSIZE ltac:(done) ltac:(lia)). lia.
      * destruct Hkk as [?|Hkk]; [lia|]. assert (Hnx : uio_offset u + n = (lbn + 1) * DEV_BSIZE) by lia.
        replace (uio_offset u + n + (c - n)) with (uio_offset u + c) by lia. rewrite Hnx, Z.div_mul by done. lia.
    + rewrite Hav, Hpl4, Hof4. change (i_dev i2) with (i_dev i). change (i_addr i2) with (i_addr i). intros r lr s5 i' Hr Hu5 Hca5 U5 Hm5 Hmv5 Hp5.
      apply (HQ r lr s5); [done|done|done|done| | |].
      * rewrite Hm5, Hm4, Hplc, <- scatter_app by (rewrite fbytes_length, length_take; lia). f_equal. rewrite <- fbytes_app by lia. f_equal. lia.
      * replace c with (n + (c - n)) by lia. eapply moved_more; [lia|lia|exact Hmv4|exact Hmv5].
      * destruct Hp4 as (? & ? & ?), Hp5 as (? & ? & ?). unfold same_proc. cbn in *. split_and!; congruence.
Qed.

(** *** A block of the file mapped for writing *)

Record mapped (clr : Prop) V V' (i i' : inode) (f f' : fs) (l l' : list Z) (lbn r : Z) : Prop := Mapped {
  mp_file : file V' i' f' l';
  mp_geom : same_geom f f';
  mp_inode : i' = i ∨ ∃ n a, i' = readdressed i n a;
  mp_get : fget (λ b, V' (i_dev i, b)) (i_addr i') lbn = r ∧ r ≠ 0;
  mp_other : ∀ bn, 0 ≤ bn < MAXBN → bn ≠ lbn → fget (λ b, V' (i_dev i, b)) (i_addr i') bn = fget (λ b, V (i_dev i, b)) (i_addr i) bn;
  mp_old : fget (λ b, V (i_dev i, b)) (i_addr i) lbn ≠ 0 → r = fget (λ b, V (i_dev i, b)) (i_addr i) lbn;
  mp_keep : ∀ bn, 0 ≤ bn < MAXBN → let b := fget (λ b, V (i_dev i, b)) (i_addr i) bn in b ≠ 0 → V' (i_dev i, b) = V (i_dev i, b);
  mp_fresh : clr → fget (λ b, V (i_dev i, b)) (i_addr i) lbn = 0 → V' (i_dev i, r) = zero_block;
  mp_used : ∃ used, l = used ++ l' ∧ fowns (λ b, V' (i_dev i, b)) (i_addr i') ≡ₚ used ++ fowns (λ b, V (i_dev i, b)) (i_addr i);
  mp_small : (length l <= length l' + 4)%nat;
  mp_frame : ∀ k, k.1 ≠ i_dev i ∨ k.2 ≠ SUPERB ∧ k.2 ∉ fowns (λ b, V (i_dev i, b)) (i_addr i) ∧ k.2 ∉ l → V' k = V k
}.

Lemma wp_bmap_mapped V k0 ip i f l fuel flags lbn k (Q : Z → ast → Prop) :
  upon k0 ip i (i_fs i) f k → cache V ∅ (bs k) → file V i f l → (Z.to_nat NBUF + 2 <= fuel)%nat → (4 <= length l)%nat → 0 ≤ lbn < MAXBN →
  (∀ k' V' i' f' l' r, upon k0 ip i' (i_fs i) f' k' → cache V' ∅ (bs k') → u_error (bs k') = u_error (bs k) →
     mapped (Z.land flags B_CLRBUF ≠ 0) V V' i i' f f' l l' lbn r → Q r k') → wp (bmap fuel ip lbn B_WRITE flags) Q k.
Proof using Driver0.
  intros Hu Hca [Hdev Hok Hfo] Hfu Hlen Hlb HQ.
  eapply (wp_bmap_write fsleep sleep strategy is_tape lbolt V k ip i f l); [done|by eapply upon_inode|by eapply upto_at|done..|].
  intros k' V' f' l' r i' n b a' Hloc Hu' Hca' U' Hok' Hge Ha' Hi' Hgr. pose proof Hfo as ([Hl _] & _).
  pose proof (locate_slot lbn Hlb) as Hsl. rewrite Hloc in Hsl. cbn [fst] in Hsl. destruct (addr_word (i_addr i) n Hl Hsl) as [Hlk _].
  pose proof Hok as [F1 F2 F3 F4 F5 F6 F7]. pose proof (fgrown _ _ V V' (i_dev i) f l l' (i_addr i) n _ a' b r Hfo ltac:(lia) Hlk Hgr F2 F3) as (G1 & G2 & G3 & G4 & G5 & G6 & G7).
  rewrite <- Ha' in *. assert (Hd' : i_dev i' = i_dev i) by (destruct Hi' as [->| ->]; done).
  apply (HQ k' V' i' f' l' r); [|done|done|].
  - unfold upon in *. destruct Hu as (Ef & Ei & Em & Et), Hu' as (Ef' & Ei' & Em' & Et'). cbn in *. split_and!; cbn; [by rewrite Ef', Ef, insert_insert_eq|by rewrite Ei', Ei, insert_insert_eq|exact (eq_trans Em' Em)|exact (eq_trans Et' Et)].
  - split; try done.
    + split; rewrite ?Hd'; [done|done|]. destruct G1 as (T1 & T2 & T3), Hge as (E1 & E2 & _). split_and!; [done|done|]. by rewrite E1, E2.
    + destruct Hi' as [->| ->]; eauto.
    + split; [by apply G2|]. by apply (gr_get _ _ _ _ _ _ _ _ _ _ _ _ _ Hgr).
    + intros bn Hbn Hne. apply G3; [done|]. destruct (locate_inj lbn bn Hlb Hbn ltac:(done)) as [Hd|Hd]; rewrite Hloc in Hd; [left; by cbn in Hd|by right].
    + unfold fget. rewrite Hloc. destruct (gr_used _ _ _ _ _ _ _ _ _ _ _ _ _ Hgr) as (? & _ & _ & _ & Hold). intros Hx. by apply Hold.
    + intros bn Hbn. apply G6; [done|by left].
    + unfold fget. rewrite Hloc. apply (gr_fresh _ _ _ _ _ _ _ _ _ _ _ _ _ Hgr).
    + unfold lev in G7. lia.
Qed.

(** *** Bytes of the file changed *)

(** The file is as it was but for the bytes [bs] from [off] on. *)
Definition patched V V' (i i' : inode) (off : Z) (bs : list Z) : Prop := ∀ o, 0 ≤ o < MAXBN * DEV_BSIZE →
  fbyte V' (i_dev i) (i_addr i') o = if decide (off ≤ o < off + zlen bs) then bs !!! Z.to_nat (o - off) else fbyte V (i_dev i) (i_addr i) o.

Record stored V V' (i i' : inode) (f f' : fs) (l l' : list Z) (off : Z) (bs : list Z) (m : Z) : Prop := Stored {
  st_file : file V' i' f' l';
  st_geom : same_geom f f';
  st_bytes : patched V V' i i' off bs;
  st_used : ∃ used, l = used ++ l' ∧ fowns (λ b, V' (i_dev i, b)) (i_addr i') ≡ₚ used ++ fowns (λ b, V (i_dev i, b)) (i_addr i);
  st_small : zlen l ≤ zlen l' + 4 * m;
  st_map : ∀ bn, 0 ≤ bn < MAXBN → fget (λ b, V (i_dev i, b)) (i_addr i) bn ≠ 0 ∨ off `div` DEV_BSIZE ≤ bn ∧ bn * DEV_BSIZE < off + zlen bs →
    fget (λ b, V' (i_dev i, b)) (i_addr i') bn ≠ 0;
  st_frame : ∀ k, k.1 ≠ i_dev i ∨ k.2 ≠ SUPERB ∧ k.2 ∉ fowns (λ b, V (i_dev i, b)) (i_addr i) ∧ k.2 ∉ l → V' k = V k
}.

(** Writing one block of data. *)
Lemma file_data V i f l lbn r d : let W b := V (i_dev i, b) in let V' := vset V (i_dev i, r) d in let W' b := V' (i_dev i, b) in
  file V i f l → 0 ≤ lbn < MAXBN → fget W (i_addr i) lbn = r → r ≠ 0 →
  file V' i f l ∧ (∀ bn, 0 ≤ bn < MAXBN → fget W' (i_addr i) bn = fget W (i_addr i) bn) ∧
  (∀ bn, 0 ≤ bn < MAXBN → bn ≠ lbn → fget W (i_addr i) bn ≠ 0 → V' (i_dev i, fget W (i_addr i) bn) = V (i_dev i, fget W (i_addr i) bn)) ∧
  fowns W' (i_addr i) ≡ₚ fowns W (i_addr i) ∧ r ∈ fowns W (i_addr i).
Proof.
  intros W V' W' [Hdev Hok Hfo] Hlb Hg Hr. pose proof Hfo as ([Hl _] & _ & Hrg). pose proof Hok as [F1 F2 F3 F4 F5 F6 F7].
  assert (Hin : r ∈ fowns W (i_addr i)) by (rewrite <- Hg; apply fget_owned; [done|done|by rewrite Hg]).
  pose proof (locate_slot lbn Hlb) as Hsl. destruct (locate lbn) as [n b] eqn:Hloc. cbn [fst] in Hsl. destruct (addr_word (i_addr i) n Hl Hsl) as [Hlk _].
  set (a := word (i_addr i) (Z.of_nat n)) in *. destruct (fowned_slot _ _ _ _ _ _ _ Hfo Hlk) as (O1 & O2 & O3).
  assert (Hgr : grown False True V V' (i_dev i) [] (lev n) a a b l l r).
  { apply (grown_data True V (i_dev i) d b l (lev n) a r); [done|done| |by unfold fget in Hg; rewrite Hloc in Hg|done].
    intros x Hx. destruct (O3 x Hx). split; [done|unfold SUPERB; lia]. }
  pose proof (fgrown _ _ V V' (i_dev i) f l l (i_addr i) n a a b r Hfo ltac:(lia) Hlk Hgr F2 F3) as (G1 & G2 & G3 & (used & U1 & U2) & _ & G6 & _).
  rewrite list_insert_id in * by done. assert (used = []) as -> by (apply (app_inv_tail l); by rewrite <- U1).
  assert (Hdif : ∀ bn, 0 ≤ bn < MAXBN → bn ≠ lbn → (locate bn).1 ≠ n ∨ ¬ same_path (lev n) b (locate bn).2).
  { intros bn Hbn Hne. destruct (locate_inj lbn bn Hlb Hbn ltac:(done)) as [Hd|Hd]; rewrite Hloc in Hd; [left; by cbn in Hd|by right]. }
  split_and!; [split; [done| |exact G1]|..].
  - eapply free_ok_ext; [|exact Hok]. intros x Hx. unfold V', vset. rewrite decide_False; [done|]. intros [= ->]. by destruct (Hrg r Hin).
  - intros bn Hbn. destruct (decide (bn = lbn)) as [->|Hne]; [fold W in Hg; rewrite Hg; by apply G2|]. apply G3; [done|]. by apply Hdif.
  - intros bn Hbn Hne Hx. apply G6; [done|right; by apply Hdif|done].
  - exact U2.
  - done.
Qed.

Lemma total_splice bs n new j : (n + length new <= length bs)%nat →
  splice bs n new !!! j = if decide (n ≤ j < n + length new)%nat then new !!! (j - n)%nat else bs !!! j.
Proof. intros Hl. rewrite !list_lookup_total_alt, splice_lookup by done. by case_decide. Qed.

Lemma mapped_store clr V V' i i' f f' l l' lbn r on bs v d :
  mapped clr V V' i i' f f' l l' lbn r → 0 ≤ lbn < MAXBN → 0 ≤ on → on + zlen bs ≤ DEV_BSIZE → blk_bytes d = splice (blk_bytes v) (Z.to_nat on) bs →
  v = V' (i_dev i, r) ∧ clr ∨ on = 0 ∧ zlen bs = DEV_BSIZE → stored V (vset V' (i_dev i, r) d) i i' f f' l l' (lbn * DEV_BSIZE + on) bs 1.
Proof.
  intros [M1 M2 M3 [M4 M4'] M5 M6 M7 M8 (used & U1 & U2) M10 M11] Hlb Hon Hle Hd Hv. set (V2 := vset V' (i_dev i, r) d).
  assert (Hdv : i_dev i' = i_dev i) by (destruct M3 as [->|(? & ? & ->)]; done).
  pose proof (file_data V' i' f' l' lbn r d M1 Hlb) as Hfd. rewrite Hdv in Hfd. cbv zeta in Hfd. fold V2 in Hfd. destruct (Hfd M4 M4') as (D1 & D2 & D3 & D4 & D5). clear Hfd.
  split; [done|done| |exists used; split; [done|by rewrite D4]|lia| |].
  - intros o Ho. pose proof (Z.div_mod o DEV_BSIZE ltac:(done)) as Hdm. pose proof (Z.mod_pos_bound o DEV_BSIZE ltac:(done)) as Hm.
    assert (Hq : 0 ≤ o `div` DEV_BSIZE < MAXBN) by (split; [apply Z.div_pos; unfold DEV_BSIZE; lia|apply Z.div_lt_upper_bound; [done|lia]]).
    unfold fbyte. rewrite D2 by done. set (q := o `div` DEV_BSIZE) in *. set (j := o `mod` DEV_BSIZE) in *. destruct (decide (q = lbn)) as [Eq|Hne].
    + rewrite Eq, M4, (proj2 (Z.eqb_neq _ _) M4'). assert (V2 (i_dev i, r) = d) as -> by (unfold V2, vset; by rewrite decide_True).
      rewrite Hd, total_splice by (pose proof (blk_bytes_length v); lia). rewrite Eq in Hdm.
      destruct (decide (lbn * DEV_BSIZE + on ≤ o < lbn * DEV_BSIZE + on + zlen bs)) as [Hr|Hr].
      * rewrite decide_True by lia. f_equal. lia.
      * rewrite decide_False by lia. destruct Hv as [[-> Hclr]|[-> Hfull]]; [|exfalso; apply Hr; lia].
        destruct (Z.eqb_spec (fget (λ b, V (i_dev i, b)) (i_addr i) lbn) 0) as [E0|E0].
        -- rewrite M8, zero_bytes by done. apply lookup_total_replicate_2. lia.
        -- rewrite (M6 E0). by rewrite M7.
    + rewrite decide_False by (intros ?; apply Hne; symmetry; apply (Z.div_unique o DEV_BSIZE lbn (o - lbn * DEV_BSIZE)); [left; lia|lia]). rewrite M5 by done.
      destruct (Z.eqb_spec (fget (λ b, V (i_dev i, b)) (i_addr i) q) 0) as [E0|E0]; [done|]. rewrite <- (M5 q Hq Hne), D3; [|done|done|by rewrite M5]. rewrite M5 by done. by rewrite M7.
  - intros bn Hbn Hor. rewrite D2 by done. destruct (decide (bn = lbn)) as [->|Hne]; [by rewrite M4|]. rewrite M5 by done. destruct Hor as [?|[H1 H2]]; [done|]. exfalso.
    rewrite Z.add_comm, Z.div_add in H1 by done. pose proof (Z.div_pos on DEV_BSIZE Hon ltac:(done)). unfold DEV_BSIZE in *. lia.
  - intros k Hk. unfold V2, vset. rewrite decide_False; [by apply M11|]. intros ->. cbn [fst snd] in Hk. rewrite U2, elem_of_app in D5. rewrite U1, elem_of_app in Hk.
    destruct Hk as [?|(_ & Hk1 & Hk2)]; [done|]. destruct D5 as [D5|D5]; [apply Hk2; by left|by apply Hk1].
Qed.

Lemma patched_trans V V1 V2 i i1 i2 off b1 b2 : i_dev i1 = i_dev i → patched V V1 i i1 off b1 → patched V1 V2 i1 i2 (off + zlen b1) b2 → patched V V2 i i2 off (b1 ++ b2).
Proof.
  intros Hd H1 H2 o Ho. rewrite <- Hd, (H2 o Ho), Hd, (H1 o Ho), length_app. repeat case_decide; try lia; try done.
  - rewrite lookup_total_app_r by lia. f_equal. lia.
  - by rewrite lookup_total_app_l by lia.
Qed.

Lemma stored_trans V V1 V2 i i1 i2 f f1 f2 l l1 l2 off b1 b2 m1 m2 : i_dev i1 = i_dev i →
  stored V V1 i i1 f f1 l l1 off b1 m1 → stored V1 V2 i1 i2 f1 f2 l1 l2 (off + zlen b1) b2 m2 → stored V V2 i i2 f f2 l l2 off (b1 ++ b2) (m1 + m2).
Proof.
  intros Hd [S1 S2 S3 (u1 & A1 & A2) S5 S6 S7] [T1 T2 T3 (u2 & B1 & B2) T5 T6 T7]. rewrite Hd in *. split.
  - done.
  - by eapply same_geom_trans.
  - by eapply patched_trans.
  - exists (u1 ++ u2). split; [by rewrite A1, B1, app_assoc|]. rewrite B2, A2, !app_assoc. f_equiv. apply Permutation_app_comm.
  - lia.
  - intros bn Hbn Hor. rewrite length_app in Hor. apply T6; [done|]. destruct (decide (bn * DEV_BSIZE < off + zlen b1)) as [Hlt|Hge].
    + left. apply S6; [done|]. destruct Hor as [?|[? ?]]; [by left|by right].
    + destruct Hor as [?|[H1 H2]]; [left; apply S6; auto|right]. split; [|lia]. apply Z.lt_succ_r, Z.div_lt_upper_bound; [done|unfold DEV_BSIZE in *; lia].
  - intros k Hk. rewrite T7, S7; [done|done|]. destruct Hk as [?|(? & Hk1 & Hk2)]; [by left|right]. rewrite A2, A1 in *. rewrite elem_of_app in *. split_and!; [done|intros [?|?]; auto|auto].
Qed.

(** Only the device and the addresses of an inode matter. *)
Lemma stored_ext V V' i i' j j' f f' l l' off bs m : i_dev j = i_dev i → i_addr j = i_addr i → i_dev j' = i_dev i' → i_addr j' = i_addr i' →
  stored V V' i i' f f' l l' off bs m → stored V V' j j' f f' l l' off bs m.
Proof. intros E1 E2 E3 E4 [S1 S2 S3 S4 S5 S6 S7]. unfold patched in S3. split; unfold patched; rewrite ?E1, ?E2, ?E4; try done. by eapply file_ext. Qed.

(** *** One block of a write *)

Lemma wp_buf_write V k0 ip i fsp f fuel lbn r n s (Q : Z → rst → Prop) :
  upon k0 ip i fsp f (kn s) → cache V ∅ (bs (kn s)) → i_dev i ≠ NODEV → good (i_dev i, r) → (Z.to_nat NBUF + 2 <= fuel)%nat → is_read (io s) = false →
  (∀ bp v k', upon k0 ip i fsp f k' → cache V {[bp := ((i_dev i, r), v)]} (bs k') → u_error (bs k') = u_error (bs (kn s)) → (n ≠ DEV_BSIZE → v = V (i_dev i, r)) → Q bp (set_kn k' s)) →
  wp (rwip_buf sleep strategy fuel ip (i_dev i) lbn r n) Q s.
Proof using Driver0.
  intros Hu Hca Hdev Hg Hfu Hrd HQ. assert (Hsz : (size (∅ : gmap Z (key * block)) < Z.to_nat NBUF)%nat) by (rewrite map_size_empty; unfold NBUF; lia).
  unfold rwip_buf. apply wp_bind, wp_gets. rewrite Hrd.
  assert (Hend : ∀ bp v b', cache V (<[bp := ((i_dev i, r), v)]> ∅) b' → u_error b' = u_error (bs (kn s)) → (n ≠ DEV_BSIZE → v = V (i_dev i, r)) →
    ∀ k', upon k0 ip i fsp f k' → bs k' = b' → wp (b ← ka (bio (rdb bp)); when (b_resid b =? DEV_BSIZE) (ka (bio (wrb bp (set_b_resid 0)));; ka (wr_data bp (λ _, zero_block)));; mret bp) Q (set_kn k' s)).
  { intros bp v b' Hca' U' Hv k1 Hu1 E1. apply wp_bind. rewrite <- E1 in Hca', U'. eapply (wp_k_rdb V); [exact Hu1|exact Hca'|apply lookup_insert_eq|].
    intros b k2 Hu2 E2 _ _ ->. change (0 =? DEV_BSIZE) with false. cbn [when]. apply wp_bind, wp_ret, wp_ret. cbn [kn set_kn] in E2. rewrite <- E2 in Hca', U'. by eapply HQ. }
  apply wp_bind. eapply wp_k_bio; [exact Hu|]. destruct (Z.eqb_spec n DEV_BSIZE) as [En|En].
  - eapply (wp_getblk sleep strategy V ∅); [exact Hca|done|done|done|done|done|]. intros bp b' v c Hca' _ U' _ _ k' Hu' E'. by eapply (Hend bp v).
  - eapply (wp_bread sleep strategy V ∅); [exact Hca|done|done|done|done|done|]. intros bp b' Hca' _ U' k' Hu' E'. by eapply (Hend bp).
Qed.

(** The inode after a block was written. *)
Definition touch (uid : Z) (i : inode) : inode :=
  let i := ior (Z.lor IUPD ICHG) i in if uid =? 0 then i else set_i_mode (Z.land (i_mode i) (Z.lnot (Z.lor ISUID ISGID))) i.

Lemma wp_move_write V k0 ip i fsp f fuel ioflag bp k v on n s (Q : unit → rst → Prop) :
  let pl := take (Z.to_nat n) (places (uio_iov (io s))) in
  upon k0 ip i fsp f (kn s) → cache V {[bp := (k, v)]} (bs (kn s)) → is_read (io s) = false → uio_wf (io s) → (1 <= fuel)%nat →
  0 ≤ on → 0 ≤ n → on + n ≤ DEV_BSIZE → n ≤ uio_resid (io s) → present (mem s) pl → bytes_ok (mem s) →
  (∀ s' d, upon k0 ip (touch (u_ruid s) i) fsp f (kn s') → cache (vset V k d) ∅ (bs (kn s')) → u_error (bs (kn s')) = 0 →
     blk_bytes d = splice (blk_bytes v) (Z.to_nat on) (gather (mem s) pl) → mem s' = mem s → moved n (io s) (io s') → same_proc s s' → Q tt s') →
  wp (rwip_move sleep strategy is_tape fuel ip ioflag bp on n) Q s.
Proof using Driver0.
  intros pl Hu Hca Hrd Hwf Hfu Hon Hn Hle Hres Hpr Hby HQ. unfold rwip_move. apply wp_bind, wp_gets, wp_bind.
  eapply (wp_uiomove_write strategy V); [exact Hu|exact Hca|done|done|done|done|done|done|done|done|]. intros s1 d Hu1 Hca1 U1 Hd Hm1 Hmv Hp1.
  apply wp_bind. eapply wp_k_seterr; [exact Hu1|]. intros k2 Hu2 E2. apply (cache_uerr _ _ _ 0) in Hca1. rewrite <- E2 in Hca1.
  assert (U2 : u_error (bs k2) = 0) by (by rewrite E2). apply wp_bind, wp_gets, wp_bind. eapply wp_k_rdi; [exact Hu2|]. cbn [io set_kn].
  assert (is_read (io s1) = false) as -> by (destruct Hmv as (_ & _ & _ & Hrw); unfold is_read in *; by rewrite Hrw). apply wp_bind.
  apply (wp_mono _ (λ _ s', ∃ k', s' = set_kn k' s1 ∧ upon k0 ip i fsp f k' ∧ cache (vset V k d) ∅ (bs k') ∧ u_error (bs k') = 0)).
  { assert (Hfin : ∀ (s2 : rst) b', s2 = set_kn (kn s2) s1 → cache (vset V k d) (delete bp {[bp := (k, d)]}) b' → u_error b' = 0 → ∀ k', upon k0 ip i fsp f k' → bs k' = b' →
      ∃ k'', set_kn k' s2 = set_kn k'' s1 ∧ upon k0 ip i fsp f k'' ∧ cache (vset V k d) ∅ (bs k'') ∧ u_error (bs k'') = 0).
    { intros s2 b' E3 Hca' U' k' Hu' E'. rewrite delete_singleton_eq in Hca'. exists k'. rewrite E3, E'. done. }
    destruct (negb (Z.land ioflag IO_SYNC =? 0)); [|destruct ((n + on =? DEV_BSIZE) && negb (ihas IPIPE i))].
    - eapply wp_k_bio; [exact Hu2|]. destruct fuel as [|fuel]; [lia|]. eapply (wp_bwrite sleep strategy V); [exact Hca1|apply lookup_singleton_eq|].
      intros b' Hca' U'. eapply Hfin; [done|done|cbn in U'; congruence].
    - apply wp_bind. eapply wp_k_bio; [exact Hu2|]. eapply wp_age; [exact Hca1|apply lookup_singleton_eq|]. intros b' Hca' U' k3 Hu3 E3. rewrite <- E3 in Hca', U'.
      eapply wp_k_bio; [exact Hu3|]. eapply (wp_bawrite sleep strategy V); [exact Hca'|apply lookup_singleton_eq|].
      intros b4 c4 Hca4 U4 _ _ _ _. eapply Hfin; [done|done|cbn in U4, U'; congruence].
    - eapply wp_k_bio; [exact Hu2|]. eapply (wp_bdwrite sleep strategy is_tape V); [exact Hca1|apply lookup_singleton_eq|].
      intros b' Hca' U'. eapply Hfin; [done|done|cbn in U'; congruence]. }
  intros _ s3 (k3 & -> & Hu3 & Hca3 & U3). apply wp_bind. eapply wp_k_wri; [exact Hu3|]. intros k4 Hu4 E4 _. apply wp_bind, wp_gets.
  cbn [kn set_kn] in E4. rewrite <- E4 in Hca3, U3. assert (u_ruid s1 = u_ruid s) as Er by (by destruct Hp1). cbn [u_ruid set_kn] in *. rewrite Er. unfold touch in HQ. apply wp_when; intros Hid.
  - eapply wp_k_wri; [exact Hu4|]. intros k5 Hu5 E5 _. cbn [kn set_kn] in E5. rewrite <- E5 in Hca3, U3. destruct (u_ruid s =? 0); [done|]. by eapply HQ.
  - destruct (u_ruid s =? 0); [|done]. by eapply HQ.
Qed.

Lemma mapped_weaken (c c' : Prop) V V' i i' f f' l l' lbn r : (c' → c) → mapped c V V' i i' f f' l l' lbn r → mapped c' V V' i i' f f' l l' lbn r.
Proof. intros Hc [M1 M2 M3 M4 M5 M6 M7 M8 M9 M10 M11]. split; auto. Qed.

(** The inode with the size a write up to [e] gives. *)
Definition resize (e : Z) (i : inode) : inode := if i_size i <? e then set_i_size e i else i.

Lemma wp_map_write V k0 ip i f l fuel type flags n s (Q : Z + Z * Z → rst → Prop) :
  let u := io s in let lbn := lblkno (uio_offset u) in
  upon k0 ip i (i_fs i) f (kn s) → cache V ∅ (bs (kn s)) → u_error (bs (kn s)) = 0 → file V i f l → (Z.to_nat NBUF + 2 <= fuel)%nat → (4 <= length l)%nat →
  is_read u = false → type = IFDIR ∨ type = IFREG ∨ type = IFLNK → 0 ≤ uio_offset u → 0 ≤ n → uio_offset u + n < 2 ^ 31 →
  (∀ k' V' i' f' l' r, upon k0 ip (resize (uio_offset u + n) i') (i_fs i) f' k' → cache V' ∅ (bs k') → u_error (bs k') = 0 →
     mapped (n ≠ DEV_BSIZE) V V' i i' f f' l l' lbn r → Q (inr (r, n)) (set_kn k' s)) →
  wp (rwip_map fsleep sleep strategy is_tape lbolt fuel ip type flags lbn n) Q s.
Proof using Driver0.
  intros u lbn Hu Hca Hue Hfl Hfu Hlen Hrd Hty Ho Hn Hon HQ. destruct (off_block (uio_offset u) ltac:(lia)) as (_ & _ & Hlb & _).
  assert (Htb : (type =? IFBLK) = false ∧ ((type =? IFDIR) || (type =? IFREG) || (type =? IFLNK)) = true) by (by destruct Hty as [->|[->| ->]]). destruct Htb as [Ht1 Ht2].
  unfold rwip_map. apply wp_bind, wp_gets. fold u. rewrite Ht1. cbn [negb]. apply wp_bind. eapply wp_k_rdi; [exact Hu|]. cbv zeta. rewrite Hrd. cbn [andb negb].
  apply wp_bind, wp_ka. eapply (wp_bmap_mapped V k0 ip i f l); [exact Hu|exact Hca|done|done|done|done|]. intros k1 V1 i1 f1 l1 r Hu1 Hca1 U1 Hmp.
  assert (Hr : 0 < r). { destruct Hmp as [M1 _ M3 [M4 M4'] _ _ _ _ _ _ _]. assert (Hd : i_dev i1 = i_dev i) by (destruct M3 as [->|(? & ? & ->)]; done).
    eapply (file_block V1 i1 f1 l1); [done|]. rewrite <- M4, Hd. apply fget_owned; [apply (fl_owned _ _ _ _ M1)|done|by rewrite M4]. }
  apply wp_bind. eapply wp_k_err; [exact Hu1|]. cbn [kn set_kn]. rewrite U1, Hue. rewrite (proj2 (Z.ltb_ge r 0)) by lia. change (0 =? 0) with true. cbn [negb orb].
  apply wp_bind. eapply wp_k_rdi; [exact Hu1|]. rewrite s32_id, Ht2, andb_true_r by (unfold is_s32; lia). cbn [andb].
  assert (Hmp' : mapped (n ≠ DEV_BSIZE) V V1 i i1 f f1 l l1 lbn r) by (eapply mapped_weaken; [|exact Hmp]; intros Hne; rewrite (proj2 (Z.eqb_neq _ _) Hne); apply clrbuf).
  unfold resize in HQ. apply wp_bind, wp_when; intros Hs.
  - eapply wp_k_wri; [exact Hu1|]. intros k2 Hu2 E2 _. cbn [kn set_kn] in E2. apply wp_ret. apply (HQ k2 V1 i1 f1 l1 r); [by rewrite Hs|by rewrite E2|rewrite E2; congruence|done].
  - apply wp_ret. apply (HQ k1 V1 i1 f1 l1 r); [by rewrite Hs|done|congruence|done].
Qed.

(** What a write makes of an inode. *)
Definition wmode (uid m : Z) : Z := if uid =? 0 then m else Z.land m (Z.lnot (Z.lor ISUID ISGID)).
Definition wrote (uid e : Z) (i i' : inode) : Prop :=
  same_file i i' ∧ i_size i' = Z.max (i_size i) e ∧ i_mode i' = wmode uid (i_mode i) ∧ ihas IUPD i' = true ∧ ihas ICHG i' = true.

Lemma wmode_twice uid m : wmode uid (wmode uid m) = wmode uid m.
Proof. unfold wmode. destruct (uid =? 0); [done|]. by rewrite <- Z.land_assoc, Z.land_diag. Qed.

Lemma wmode_type uid m : Z.land (wmode uid m) IFMT = Z.land m IFMT.
Proof. unfold wmode. destruct (uid =? 0); [done|]. by rewrite <- Z.land_assoc. Qed.

Lemma wrote_trans uid e e' i i1 i2 : e ≤ e' → wrote uid e i i1 → wrote uid e' i1 i2 → wrote uid e' i i2.
Proof.
  intros He ([A1 [A2 A3]] & S1 & M1 & _) ([B1 [B2 B3]] & S2 & M2 & F2 & F3). split_and!; [split_and!; congruence|lia|by rewrite M2, M1, wmode_twice|done|done].
Qed.

Lemma lor_mark x f : Z.land f (Z.lor IUPD ICHG) = f → f ≠ 0 → (Z.land (Z.lor x (Z.lor IUPD ICHG)) f =? 0) = false.
Proof. intros Hf H0. apply Z.eqb_neq. rewrite Z.land_lor_distr_l, (Z.land_comm (Z.lor IUPD ICHG) f), Hf. intros [_ ?]%Z.lor_eq_0_iff. done. Qed.

Lemma lor_other x : Z.land (Z.lor x (Z.lor IUPD ICHG)) IPIPE = Z.land x IPIPE.
Proof. rewrite Z.land_lor_distr_l. change (Z.land (Z.lor IUPD ICHG) IPIPE) with 0. apply Z.lor_0_r. Qed.

Lemma wrote_block uid e i i' : i' = i ∨ (∃ n a, i' = readdressed i n a) → wrote uid e i (touch uid (resize e i')).
Proof.
  intros Hi. assert (Hcore : ∀ j, same_file i j → i_size j = i_size i → i_mode j = i_mode i → wrote uid e i (touch uid (resize e j))).
  { intros j [A1 [A2 A3]] Es Em. set (j1 := resize e j). assert (Hs : same_file i j1 ∧ i_size j1 = Z.max (i_size i) e ∧ i_mode j1 = i_mode i).
    { unfold j1, resize, same_file. destruct (Z.ltb_spec (i_size j) e); split_and!; try done; cbn; lia. }
    destruct Hs as ([B1 [B2 B3]] & Hs & Hm). unfold touch. set (j2 := ior (Z.lor IUPD ICHG) j1).
    assert (Hj2 : same_file i j2 ∧ ihas IUPD j2 = true ∧ ihas ICHG j2 = true).
    { unfold same_file, ihas, j2, ior. cbn [i_flag set_i_flag]. rewrite lor_other, !lor_mark by done. split_and!; done. }
    destruct Hj2 as ([C1 [C2 C3]] & F1 & F2). pose proof (wmode_type uid (i_mode i)) as Hwt. unfold wrote, wmode in *. destruct (uid =? 0); [by split_and!|].
    set (j3 := set_i_mode _ j2). assert (Hm3 : i_mode j3 = Z.land (i_mode i) (Z.lnot (Z.lor ISUID ISGID))) by (rewrite <- Hm; done).
    split_and!; [|done|exact Hm3|done|done]. split; [exact C1|]. split; [rewrite Hm3; exact Hwt|exact C3]. }
  destruct Hi as [->|(n & a & ->)]; apply Hcore; try done. split_and!; [done|done|]. unfold ihas, readdressed. cbn [i_flag set_i_flag]. by rewrite lor_other.
Qed.

(** *** The loop of a write *)

Lemma wp_rw_write k0 fuel type ioflag flags ip kk : ∀ V i f l s (Q : Z + Z → rst → Prop),
  let u := io s in let off := uio_offset u in let m := uio_resid u in
  upon k0 ip i (i_fs i) f (kn s) → cache V ∅ (bs (kn s)) → u_error (bs (kn s)) = 0 → file V i f l → (Z.to_nat NBUF + 2 <= fuel)%nat →
  is_read u = false → type = IFDIR ∨ type = IFREG ∨ type = IFLNK → uio_wf u → 0 < m →
  present (mem s) (places (uio_iov u)) → bytes_ok (mem s) → blocks_of off m + 1 ≤ Z.of_nat kk → 4 * (blocks_of off m + 1) ≤ zlen l →
  (∀ s' V' i' f' l', upon k0 ip i' (i_fs i) f' (kn s') → cache V' ∅ (bs (kn s')) → u_error (bs (kn s')) = 0 →
     stored V V' i i' f f' l l' off (gather (mem s) (places (uio_iov u))) (blocks_of off m + 1) → wrote (u_ruid s) (off + m) i i' →
     mem s' = mem s → moved m u (io s') → same_proc s s' → Q (inr 0) s') →
  wp (rwip_loop fsleep sleep strategy is_tape lbolt kk fuel ip (i_dev i) type ioflag flags) Q s.
Proof using Driver0.
  induction kk as [|kk IH]; intros V i f l s Q u off m Hu Hca Hue Hfl Hfu Hrd Hty Hwf Hm Hpr Hby Hkk Hfree HQ; pose proof Hwf as (_ & Hrs & Ho & Hoe); fold off m in Hrs, Ho, Hoe.
  all: assert (Hbl : off `div` DEV_BSIZE ≤ (off + m) `div` DEV_BSIZE) by (apply Z.div_le_mono; [done|lia]).
  { exfalso. unfold blocks_of in Hkk. lia. }
  destruct (off_block off ltac:(lia)) as (El & Eo & Hlb & Hbo). cbn [rwip_loop]. apply wp_bind, wp_gets. fold u off m. cbv zeta.
  pose proof (Z.div_mod off DEV_BSIZE ltac:(done)) as Hdm. set (on := blkoff off) in *. set (lbn := lblkno off) in *. rewrite <- El, <- Eo in Hdm.
  set (n := Z.min (DEV_BSIZE - on) m). assert (Hn : 0 < n ∧ n ≤ m ∧ on + n ≤ DEV_BSIZE) by lia. destruct Hn as (Hn0 & Hnm & Hon).
  apply wp_bind. eapply (wp_map_write V k0 ip i f l); [exact Hu|exact Hca|done|done|done|unfold blocks_of in Hfree; lia|done|done|fold u off; lia|lia|fold u off; lia|].
  fold u off lbn. intros k1 V1 i1 f1 l1 r Hu1 Hca1 U1 Hmp. pose proof (mp_inode _ _ _ _ _ _ _ _ _ _ _ Hmp) as Hi1. pose proof (mp_file _ _ _ _ _ _ _ _ _ _ _ Hmp) as Hfl1.
  pose proof (mp_get _ _ _ _ _ _ _ _ _ _ _ Hmp) as [Hg1 Hr1]. set (i2 := resize (off + n) i1) in *.
  assert (Hd2 : i_dev i2 = i_dev i ∧ i_dev i1 = i_dev i ∧ i_addr i2 = i_addr i1 ∧ i_fs i2 = i_fs i).
  { unfold i2, resize. destruct (i_size i1 <? off + n), Hi1 as [->|(? & ? & ->)]; done. }
  destruct Hd2 as (Hd2 & Hd1 & Ha2 & Hf2).
  assert (Hgd : good (i_dev i, r)). { rewrite <- Hd1. eapply (file_block V1 i1 f1 l1); [done|]. rewrite <- Hg1, Hd1. apply fget_owned; [apply (fl_owned _ _ _ _ Hfl1)|done|by rewrite Hg1]. }
  apply wp_bind. rewrite <- Hd2 at 1. eapply (wp_buf_write V1); [exact Hu1|exact Hca1|rewrite Hd2; apply (fl_dev _ _ _ _ Hfl)|by rewrite Hd2|done|done|]. rewrite Hd2.
  intros bp v k2 Hu2 Hca2 U2 Hv. cbn [kn set_kn] in U2. apply wp_bind. eapply (wp_k_rdb V1); [exact Hu2|exact Hca2|apply lookup_singleton_eq|].
  intros b k3 Hu3 E3 _ Her Hbr. cbn [kn set_kn] in E3. rewrite <- E3 in Hca2, U2. cbv zeta. rewrite Her, Hbr, Z.sub_0_r. rewrite (Z.min_l n DEV_BSIZE) by lia.
  set (pl := places (uio_iov u)) in *. assert (Hpl : pl = take (Z.to_nat n) pl ++ drop (Z.to_nat n) pl) by (by rewrite take_drop).
  apply wp_bind. eapply (wp_move_write V1 k0 ip i2); [exact Hu3|exact Hca2|done|done|lia|lia|lia|lia|cbn; fold u; fold m; lia|intros a Ha; apply Hpr; cbn in Ha; fold u in Ha; fold pl in Ha; rewrite Hpl; apply elem_of_app; by left|done|].
  cbn [io mem set_kn u_ruid]. fold u. fold pl. intros s4 d Hu4 Hca4 U4 Hd Hm4 Hmv4 Hp4. apply wp_bind. eapply wp_k_err; [exact Hu4|]. rewrite U4. apply wp_bind, wp_gets. change (0 =? 0) with true.
  pose proof (moved_resid n u (io s4) ltac:(fold m; lia) Hwf Hmv4) as Hr4. fold m in Hr4. pose proof Hmv4 as (Hwf4 & Hpl4 & Hof4 & Hrw4). fold off in Hof4. fold pl in Hpl4.
  set (i3 := touch (u_ruid s) i2) in *. set (b1 := gather (mem s) (take (Z.to_nat n) pl)) in *.
  assert (Hlb1 : zlen b1 = n) by (unfold b1, gather; rewrite length_fmap, length_take; lia).
  assert (Hd3 : i_dev i3 = i_dev i ∧ i_addr i3 = i_addr i1 ∧ i_fs i3 = i_fs i) by (unfold i3, touch; destruct (u_ruid s =? 0); cbn; rewrite ?Hd2, ?Ha2, ?Hf2; done). destruct Hd3 as (Hd3 & Ha3 & Hf3).
  assert (Hst : stored V (vset V1 (i_dev i, r) d) i i3 f f1 l l1 off b1 1).
  { apply (stored_ext V _ i i1); [done|done|congruence|done|replace off with (lbn * DEV_BSIZE + on) by lia; eapply (mapped_store _ V V1 i i1); [exact Hmp|done|lia|lia|exact Hd|]].
    destruct (decide (n = DEV_BSIZE)); [right; lia|left; auto]. }
  pose proof (wrote_block (u_ruid s) (off + n) i i1 Hi1) as Hw1. fold i2 i3 in Hw1.
  destruct (Z.eqb_spec (uio_resid (io s4)) 0) as [Hz|Hnz]; cbn [negb andb].
  { apply wp_ret. assert (Emn : m = n) by lia. assert (Etk : take (Z.to_nat n) pl = pl) by (apply take_ge; lia). unfold b1 in Hst. rewrite Etk in Hst.
    eapply (HQ s4 _ i3); [done|exact Hca4|done| |by rewrite Emn|done|by rewrite Emn|done]. destruct Hst as [S1 S2 S3 S4 S5 S6 S7]. split; try done. unfold blocks_of. lia. }
  rewrite (proj2 (Z.eqb_neq n 0)) by lia. cbn [negb]. rewrite <- Hd3.
  assert (Hnx : off + n = (lbn + 1) * DEV_BSIZE) by lia. assert (Hbk : blocks_of (off + n) (m - n) + 1 = blocks_of off m).
  { unfold blocks_of. replace (off + n + (m - n)) with (off + m) by lia. rewrite Hnx, Z.div_mul by done. lia. }
  assert (Hs4 : zlen l ≤ zlen l1 + 4) by (by destruct Hst).
  eapply (IH _ i3 f1 l1 s4); [by rewrite Hf3|exact Hca4|done|by destruct Hst|done|unfold is_read in *; by rewrite Hrw4|done|done|lia|..].
  - rewrite Hpl4, Hm4. intros a Ha. apply Hpr. rewrite Hpl. apply elem_of_app. by right.
  - by rewrite Hm4.
  - rewrite Hof4, Hr4. lia.
  - rewrite Hof4, Hr4. lia.
  - rewrite Hf3, Hof4, Hr4, Hpl4, Hm4. intros s5 V5 i5 f5 l5 Hu5 Hca5 U5 Hst5 Hw5 Hm5 Hmv5 Hp5.
    assert (Hrd5 : u_ruid s4 = u_ruid s) by (by destruct Hp4). rewrite Hrd5 in Hw5. replace (off + n + (m - n)) with (off + m) in Hw5 by lia.
    apply (HQ s5 V5 i5 f5 l5); [done|done|done| |eapply wrote_trans; [|exact Hw1|exact Hw5]; lia|done| |].
    + rewrite Hpl, gather_app. fold b1. replace (blocks_of off m + 1) with (1 + (blocks_of (off + n) (m - n) + 1)) by lia. eapply stored_trans; [exact Hd3|exact Hst|]. by rewrite Hlb1.
    + replace m with (n + (m - n)) by lia. eapply moved_more; [lia|lia|exact Hmv4|exact Hmv5].
    + destruct Hp4 as (? & ? & ?), Hp5 as (? & ? & ?). unfold same_proc. cbn in *. split_and!; congruence.
Qed.

(** *** Whole transfers *)

Notation rwip := (rwip fsleep sleep strategy is_tape lbolt).

Lemma wp_undo_none k0 ip i fsp f fuel type ioflag osize resid s (Q : Z → rst → Prop) :
  upon k0 ip i fsp f (kn s) → u_error (bs (kn s)) = 0 → Q 0 s → wp (rwip_undo fsleep sleep strategy is_tape lbolt fuel ip type ioflag osize resid 0) Q s.
Proof. intros Hu Hue HQ. unfold rwip_undo. apply wp_bind. eapply wp_k_err; [exact Hu|]. rewrite Hue. cbv zeta. apply wp_bind, wp_gets. cbn. apply wp_bind, wp_ret. by apply wp_ret. Qed.

(** The inode a read leaves. *)
Definition read_mark (f : fs) (i : inode) : inode := if Z.land (fs_flags f) MNT_NOATIME =? 0 then ior IACC i else i.

Lemma read_mark_same f i : i_dev (read_mark f i) = i_dev i ∧ i_fs (read_mark f i) = i_fs i ∧ i_addr (read_mark f i) = i_addr i ∧ i_size (read_mark f i) = i_size i ∧
  i_mode (read_mark f i) = i_mode i ∧ ihas IPIPE (read_mark f i) = ihas IPIPE i.
Proof.
  unfold read_mark. destruct (_ =? 0); [|done]. split_and!; try done. unfold ihas, ior. cbn [i_flag set_i_flag]. rewrite Z.land_lor_distr_l.
  change (Z.land IACC IPIPE) with 0. by rewrite Z.lor_0_r.
Qed.

Lemma wp_rwip_read V d_read d_write kk fuel ip i f l ioflag s (Q : Z → rst → Prop) :
  let u := io s in let c := avail i u in let type := Z.land (i_mode i) IFMT in
  inodes (kn s) !! ip = Some i → fss (kn s) !! i_fs i = Some f → cache V ∅ (bs (kn s)) → u_error (bs (kn s)) = 0 → file V i f l → (Z.to_nat NBUF + 2 <= fuel)%nat →
  is_read u = true → type ≠ IFBLK → type ≠ IFCHR → ihas IPIPE i = false → 0 ≤ i_size i < 2 ^ 31 → uio_wf u →
  dense V i (uio_offset u) c → present (mem s) (take (Z.to_nat c) (places (uio_iov u))) → blocks_of (uio_offset u) c + 2 ≤ Z.of_nat kk →
  (∀ lr s', upon (kn s) ip (set_i_freef lr (read_mark f i)) (i_fs i) f (kn s') → cache V ∅ (bs (kn s')) → u_error (bs (kn s')) = 0 →
     mem s' = scatter (mem s) (take (Z.to_nat c) (places (uio_iov u))) (fbytes V (i_dev i) (i_addr i) (uio_offset u) c) → moved c u (io s') → same_proc s s' → Q 0 s') →
  wp (rwip d_read d_write kk fuel ip ioflag) Q s.
Proof using Driver0.
  intros u c type Hi Hf Hca Hue Hfl Hfu Hrd Hty Htc Hpi Hsz Hwf Hdn Hpr Hkk HQ. pose proof (upon_self _ _ _ _ Hi Hf) as Hu.
  destruct (read_mark_same f i) as (R1 & R2 & R3 & R4 & R5 & R6). unfold Rw.rwip. apply wp_bind. eapply wp_k_rdi; [exact Hu|]. cbv zeta. fold type.
  apply wp_bind. unfold rwip_check. apply wp_bind. eapply wp_k_rdi; [exact Hu|]. cbv zeta. apply wp_bind, wp_gets. fold u. rewrite Hrd. apply wp_bind. eapply wp_k_rdfs; [exact Hu|].
  apply wp_bind. apply (wp_mono _ (λ _ s', ∃ k', s' = set_kn k' s ∧ upon (kn s) ip (read_mark f i) (i_fs i) f k' ∧ bs k' = bs (kn s))).
  { unfold read_mark. apply wp_when; intros E; rewrite E; [|by exists (kn s); rewrite set_kn_id]. eapply wp_k_wri; [exact Hu|]. intros k' Hu' E' _. by exists k'. }
  intros _ s1 (k1 & -> & Hu1 & E1). apply wp_ret. apply wp_bind. eapply wp_k_rdfs; [exact Hu1|]. cbv zeta. rewrite (proj2 (Z.eqb_neq _ _) Htc). apply wp_bind, wp_gets.
  cbn [io set_kn]. fold u. destruct (Z.eqb_spec (uio_resid u) 0) as [Hz|Hnz].
  - assert (c = 0) as -> by (unfold c, avail; destruct (Z.max_spec 0 (Z.min (uio_resid u) (i_size i - uio_offset u))); lia).
    apply wp_ret. apply (HQ (i_freef (read_mark f i))); [by destruct (read_mark f i)|cbn; by rewrite E1|cbn; by rewrite E1|done|by apply moved_none|done].
  - apply wp_bind, wp_gets. rewrite Hrd. cbn [negb andb]. rewrite (proj2 (Z.eqb_neq _ _) Hty). apply wp_bind.
    assert (Hav : avail (read_mark f i) u = c) by (unfold avail; by rewrite R4). rewrite <- R1 at 1.
    eapply (wp_rw_read V (kn s) f l); cbn [io kn mem set_kn]; fold u; rewrite ?Hav; [by rewrite R2|by rewrite E1|by rewrite E1|by apply (file_ext V i)|done|done|done|by rewrite R6|by rewrite R4|done| | |done|by right|].
    + pose proof Hwf as (_ & Hr0 & _). lia.
    + intros lb Hb1 Hb2. rewrite R1, R3. by apply Hdn.
    + rewrite R1, R2, R3. intros r lr s2 Hr Hu2 Hca2 U2 Hm2 Hmv2 Hp2.
      assert (Hfin : Q 0 s2) by (apply (HQ lr s2); done). destruct Hr as [->| ->]; [by apply wp_ret|]. by eapply wp_undo_none.
Qed.

(** Where a write starts. *)
Definition start (ioflag : Z) (i : inode) (u : uio) : Z :=
  if (Z.land (i_mode i) IFMT =? IFREG) && negb (Z.land ioflag IO_APPEND =? 0) then i_size i else uio_offset u.
Definition at_start (ioflag : Z) (i : inode) (u : uio) : uio := Uio (uio_iov u) (uio_iovcnt u) (start ioflag i u) (uio_resid u) (uio_rw u).

Lemma at_start_reg ioflag i u : Z.land (i_mode i) IFMT = IFREG →
  at_start ioflag i u = if negb (Z.land ioflag IO_APPEND =? 0) then Uio (uio_iov u) (uio_iovcnt u) (i_size i) (uio_resid u) (uio_rw u) else u.
Proof. intros Et. unfold at_start, start. rewrite Et. cbn [andb]. change (IFREG =? IFREG) with true. destruct (negb (Z.land ioflag IO_APPEND =? 0)); [done|by destruct u]. Qed.

Lemma wp_rwip_write V d_read d_write kk fuel ip i f l ioflag s (Q : Z → rst → Prop) :
  let u := at_start ioflag i (io s) in let off := uio_offset u in let m := uio_resid u in let type := Z.land (i_mode i) IFMT in
  inodes (kn s) !! ip = Some i → fss (kn s) !! i_fs i = Some f → cache V ∅ (bs (kn s)) → u_error (bs (kn s)) = 0 → file V i f l → (Z.to_nat NBUF + 2 <= fuel)%nat →
  is_read u = false → type = IFDIR ∨ type = IFREG ∨ type = IFLNK → (type = IFREG → (Z.land (i_flags i) APPEND = 0 ∨ off = i_size i) ∧ off + m ≤ u32 (rlim_fsize s)) →
  uio_wf u → 0 < m → present (mem s) (places (uio_iov u)) → bytes_ok (mem s) → blocks_of off m + 1 ≤ Z.of_nat kk → 4 * (blocks_of off m + 1) ≤ zlen l →
  (∀ s' V' i' f' l', upon (kn s) ip i' (i_fs i) f' (kn s') → cache V' ∅ (bs (kn s')) → u_error (bs (kn s')) = 0 →
     stored V V' i i' f f' l l' off (gather (mem s) (places (uio_iov u))) (blocks_of off m + 1) → wrote (u_ruid s) (off + m) i i' →
     mem s' = mem s → moved m u (io s') → same_proc s s' → Q 0 s') →
  wp (rwip d_read d_write kk fuel ip ioflag) Q s.
Proof using Driver0.
  intros u off m type Hi Hf Hca Hue Hfl Hfu Hrd Hty Hreg Hwf Hm Hpr Hby Hkk Hfree HQ. pose proof (upon_self _ _ _ _ Hi Hf) as Hu.
  assert (Hdir : is_read (io s) = false) by done. assert (Htb : (type =? IFBLK) = false ∧ (type =? IFCHR) = false) by (by destruct Hty as [->|[->| ->]]). destruct Htb as [Ht1 Ht2].
  unfold Rw.rwip. apply wp_bind. eapply wp_k_rdi; [exact Hu|]. cbv zeta. fold type. apply wp_bind.
  apply (wp_mono _ (λ r s', s' = set_io u s ∧ ∃ fl, r = inr fl)).
  { unfold rwip_check. apply wp_bind. eapply wp_k_rdi; [exact Hu|]. cbv zeta. apply wp_bind, wp_gets. rewrite Hdir. fold type.
    destruct (Z.eqb_spec type IFREG) as [Er|Er].
    - apply wp_bind. destruct (Hreg Er) as [Hap _].
      pose proof (at_start_reg ioflag i (io s) Er) as Hto. fold u in Hto.
      assert (Hgo : ∀ s', s' = set_io u s → wp (u0 ← gets io; if negb (Z.land (i_flags i) APPEND =? 0) && negb (uio_offset u0 =? i_size i) then mret (inl EPERM) else mret (inr ioflag))
        (λ r s', s' = set_io u s ∧ ∃ fl : Z, r = inr fl) s').
      { intros s' ->. apply wp_bind, wp_gets. cbn [io set_io]. fold off. destruct Hap as [->| ->]; rewrite Z.eqb_refl; cbn [negb andb]; rewrite ?andb_false_r; apply wp_ret; eauto. }
      apply wp_when; intros E; rewrite E in Hto; [apply wp_modify|]; apply Hgo; rewrite Hto; [done|by destruct s].
    - assert (Hto : set_io u s = s).
      { unfold u, at_start, start. fold type. rewrite (proj2 (Z.eqb_neq _ _) Er). cbn [andb]. destruct s as [? ? [? ? ? ? ?] ? ? ?]. done. }
      rewrite Hto. destruct (Z.eqb_spec type IFDIR); [apply wp_ret; eauto|]. assert (type = IFLNK) as Elk by (destruct Hty as [?|[?|?]]; done).
      rewrite Elk. apply wp_ret. eauto. }
  intros r s1 (-> & fl & ->). apply wp_bind. eapply (wp_k_rdfs (kn s) ip i); [exact Hu|]. cbv zeta. rewrite Ht2. apply wp_bind, wp_gets. cbn [io set_io]. fold m.
  rewrite (proj2 (Z.eqb_neq m 0)) by lia. apply wp_bind, wp_gets. rewrite Hrd. cbn [negb andb rlim_fsize set_io]. fold off.
  assert (Hlim : (type =? IFREG) && (u32 (rlim_fsize s) <? u32 (off + m)) = false).
  { destruct (Z.eqb_spec type IFREG) as [Er|]; [|done]. destruct (Hreg Er) as [_ Hl]. destruct Hwf as (_ & _ & Ho & Hoe). fold off in Ho, Hoe. fold m in Hoe.
    rewrite (u32_id (off + m)) by (unfold is_u32; lia). cbn [andb]. apply Z.ltb_ge. lia. }
  rewrite Hlim, Ht1. apply wp_bind.
  eapply (wp_rw_write (kn s) fuel type _ _ ip kk V i f l (set_io u s)); [exact Hu|exact Hca|done|done|done|done|done|done|done|done|done|done|done|].
  cbn [io set_io mem u_ruid]. fold off m. intros s' V' i' f' l' Hu' Hca' U' Hst Hw Hm' Hmv Hp. eapply wp_undo_none; [exact Hu'|done|]. by eapply HQ.
Qed.
End file.
End RwSpec.
