(* ===== verification/FileSpec.v ===== *)
(** * Reading and writing whole files: the claims

    What [rwip] and [rdwri] of sys_inode.c do to a file of a sound file system,
    over any block driver: reads deliver the bytes of the file, writes change
    exactly the bytes they name, and what was written is read back. *)

From S2P Require Import Prelude Links Que NameCache Bio Cache CacheIO CacheSpec Alloc Bmap Inode Rw RwMove RwSpec.
Import NameCache Bio Cache CacheIO CacheSpec Alloc Bmap Inode Rw RwMove RwSpec.

Module FileSpec.
#[local] Set Default Proof Using "Type".

Lemma places_one base len : places [Iov base len] = seqZ base len.
Proof. unfold places. cbn. apply app_nil_r. Qed.

Lemma gather_scatter ads : ∀ m bs, NoDup ads → length bs = length ads → gather (scatter m ads bs) ads = bs.
Proof.
  assert (Hout : ∀ ads m bs a, a ∉ ads → scatter m ads bs !!! a = m !!! a).
  { clear ads. intros ads. induction ads as [|x ads IH]; intros m [|b bs] a Ha; try done. apply not_elem_of_cons in Ha as [? ?]. cbn [scatter]. rewrite IH by done. by apply lookup_total_insert_ne. }
  induction ads as [|a ads IH]; intros m [|b bs] Hnd Hl; try done. apply NoDup_cons in Hnd as [Ha Hnd]. unfold gather. cbn [scatter fmap list_fmap]. f_equal.
  - rewrite Hout by done. apply lookup_total_insert_eq.
  - apply IH; [done|]. by injection Hl.
Qed.

Section kernel.
Context (fsleep : Z → Z → A unit) (sleep : Z → Z → M bst unit) (strategy : Z → M bst unit) (is_tape : Z → bool) (lbolt : Z) (d_read d_write : Z → Z → R Z).
Context {phys : key → key} {good : key → Prop} `{!Driver strategy phys good}.
Implicit Types (V : key → block) (s : rst).
Notation cache := (cache (phys := phys) (good := good)).
Notation file := (file (good := good)).
Notation stored := (stored (good := good)).
Notation rdwri := (rdwri fsleep sleep strategy is_tape lbolt d_read d_write).

Lemma wp_rdwri_write V kk fuel ip i f l base len off ioflag s (Q : Z * Z → rst → Prop) :
  inodes (kn s) !! ip = Some i → fss (kn s) !! i_fs i = Some f → cache V ∅ (bs (kn s)) → u_error (bs (kn s)) = 0 → file V i f l → (Z.to_nat NBUF + 2 <= fuel)%nat →
  Z.land (i_mode i) IFMT = IFREG → Z.land (i_flags i) APPEND = 0 → Z.land ioflag IO_APPEND = 0 → 0 ≤ off → 0 < len → off + len < 2 ^ 31 → off + len ≤ u32 (rlim_fsize s) →
  present (mem s) (seqZ base len) → bytes_ok (mem s) → blocks_of off len + 1 ≤ Z.of_nat kk → 4 * (blocks_of off len + 1) ≤ zlen l →
  (∀ s' V' i' f' l', upon (kn s) ip i' (i_fs i) f' (kn s') → cache V' ∅ (bs (kn s')) → u_error (bs (kn s')) = 0 →
     stored V V' i i' f f' l l' off (gather (mem s) (seqZ base len)) (blocks_of off len + 1) → wrote (u_ruid s) (off + len) i i' → mem s' = mem s → Q (0, 0) s') →
  wp (rdwri kk fuel UIO_WRITE ip base len off ioflag true) Q s.
Proof using Driver0.
  intros Hi Hf Hca Hue Hfl Hfu Hty Hap Hio Ho Hl Hol Hlim Hpr Hby Hkk Hfree HQ. unfold Rw.rdwri. apply wp_bind, wp_modify, wp_bind.
  assert (Hst : start ioflag i (Uio [Iov base len] 1 off len UIO_WRITE) = off) by (unfold start; rewrite Hio; cbn; by rewrite andb_false_r).
  assert (Hwf : uio_wf (at_start ioflag i (Uio [Iov base len] 1 off len UIO_WRITE))).
  { unfold at_start. rewrite Hst. unfold uio_wf. cbn [uio_iov uio_resid uio_offset]. rewrite places_one, length_seqZ. split_and!; [by apply Forall_singleton; cbn; lia|lia|lia|lia]. }
  eapply (wp_rwip_write fsleep sleep strategy is_tape lbolt V d_read d_write kk fuel ip i f l);
    cbn [io set_io kn mem u_ruid rlim_fsize]; unfold at_start; rewrite ?Hst; cbn [uio_offset uio_resid uio_iov]; rewrite ?places_one; try done; [by right; left|by intros _; split; [left|]|by unfold at_start in Hwf; rewrite Hst in Hwf|].
  intros s' V' i' f' l' Hu' Hca' U' Hst' Hw Hm Hmv _. apply wp_bind, wp_gets. cbn [andb negb]. apply wp_ret.
  pose proof (moved_resid len (Uio [Iov base len] 1 off len UIO_WRITE) _ ltac:(cbn; lia) ltac:(unfold at_start in Hwf; rewrite Hst in Hwf; exact Hwf) Hmv) as Hr. cbn in Hr. rewrite Hr, Z.sub_diag. by eapply HQ.
Qed.

Lemma wp_rdwri_read V kk fuel ip i f l base len off ioflag s (Q : Z * Z → rst → Prop) : let type := Z.land (i_mode i) IFMT in
  inodes (kn s) !! ip = Some i → fss (kn s) !! i_fs i = Some f → cache V ∅ (bs (kn s)) → u_error (bs (kn s)) = 0 → file V i f l → (Z.to_nat NBUF + 2 <= fuel)%nat →
  type ≠ IFBLK → type ≠ IFCHR → ihas IPIPE i = false → 0 ≤ off → 0 ≤ len → off + len ≤ i_size i < 2 ^ 31 → dense V i off len → present (mem s) (seqZ base len) → blocks_of off len + 2 ≤ Z.of_nat kk →
  (∀ s', cache V ∅ (bs (kn s')) → mem s' = scatter (mem s) (seqZ base len) (fbytes V (i_dev i) (i_addr i) off len) → Q (0, 0) s') →
  wp (rdwri kk fuel UIO_READ ip base len off ioflag true) Q s.
Proof using Driver0.
  intros type Hi Hf Hca Hue Hfl Hfu Hty Htc Hpi Ho Hl Hsz Hdn Hpr Hkk HQ. unfold Rw.rdwri. apply wp_bind, wp_modify, wp_bind. set (u := Uio [Iov base len] 1 off len UIO_READ).
  assert (Hav : avail i u = len) by (unfold avail, u; cbn; lia).
  assert (Htk : take (Z.to_nat len) (seqZ base len) = seqZ base len) by (apply take_ge; rewrite length_seqZ; lia).
  assert (Hwf : uio_wf u) by (unfold uio_wf, u; cbn [uio_iov uio_resid uio_offset]; rewrite places_one, length_seqZ; split_and!; [by apply Forall_singleton; cbn; lia|lia|lia|lia]).
  eapply (wp_rwip_read fsleep sleep strategy is_tape lbolt V d_read d_write kk fuel ip i f l); cbn [io set_io kn mem]; rewrite ?Hav; cbn [uio_offset uio_iov u]; rewrite ?places_one, ?Htk; try done; [lia|].
  intros lr s' _ Hca' _ Hm Hmv _. apply wp_bind, wp_gets. cbn [andb negb]. apply wp_ret.
  pose proof (moved_resid len u _ ltac:(cbn; lia) Hwf Hmv) as Hr. cbn in Hr. rewrite Hr, Z.sub_diag. by apply HQ.
Qed.

(** The bytes of a patched file. *)
Lemma patched_fbytes V V' i i' off bs : 0 ≤ off → off + zlen bs ≤ MAXBN * DEV_BSIZE → patched V V' i i' off bs → fbytes V' (i_dev i) (i_addr i') off (zlen bs) = bs.
Proof.
  intros Ho Hm Hp. apply list_eq_same_length with (length bs); [done|rewrite fbytes_length; lia|]. intros j x y Hj Hx Hy. unfold fbytes in Hx.
  apply list_lookup_fmap_Some in Hx as (o & -> & Ho'). apply lookup_seqZ in Ho' as [-> _]. rewrite Hp by lia. rewrite decide_True by lia.
  replace (Z.to_nat (off + Z.of_nat j - off)) with j by lia. by apply list_lookup_total_correct.
Qed.
End kernel.

(** ** A transfer in the small file system *)

Definition rw_file : inode := Inode 0 0 0 1 0 3 0 1 [6; 7; 0; 0; 0; 0; 0] 0 0 (Icommon1 35309 1 0 0 1500) 0 (Icommon2 0 0 0).
Definition rw_as : ast := AS (BS mem_init data_zero ∅ 0 0 0 []) {[1 := file_fs]} {[2 := rw_file]} ∅ 0 0 0 nst_zero [] 0 0 [] [].
Definition rw_mem : gmap Z Z := list_to_map ((λ a, (a, a `mod` 251)) <$> seqZ 0 400).
Definition rw_st (u : uio) : rst := RS rw_as rw_mem u 5 1000000 [].
Definition rd_uio : uio := Uio [Iov 10 30; Iov 0 0; Iov 100 40] 3 1470 70 UIO_READ.
Definition wr_uio : uio := Uio [Iov 10 30; Iov 0 0; Iov 100 40] 3 1000 70 UIO_WRITE.

Lemma rw_cache : CacheIO.cache (phys := demo_phys) (good := demo_good) demo_V ∅ (bs rw_as).
Proof. apply init_cache. apply data_zero_ok. Qed.

Lemma rw_sound : RwSpec.file (good := demo_good) demo_V rw_file file_fs [9; 8; 5; 4; 3].
Proof. split; [done|apply file_free_ok|apply file_owned]. Qed.

Lemma rw_present ads : bool_decide (Forall (λ a, 0 ≤ a < 400) ads) = true → present rw_mem ads.
Proof.
  intros Ha%bool_decide_eq_true a Hin. rewrite Forall_forall in Ha. specialize (Ha a Hin). unfold rw_mem. exists (a `mod` 251).
  apply elem_of_list_to_map; [rewrite <- list_fmap_compose; apply NoDup_fmap; [by intros ? ? [=]|apply NoDup_seqZ]|]. apply list_elem_of_fmap. exists a. split; [done|]. apply elem_of_seqZ. lia.
Qed.

Lemma rw_bytes : bytes_ok rw_mem.
Proof.
  intros a v Hv. apply elem_of_list_to_map_2, list_elem_of_fmap in Hv as (x & [= -> ->] & _). unfold is_byte. pose proof (Z.mod_pos_bound x 251). lia.
Qed.

Lemma rw_dense o n : 0 ≤ o → o + n ≤ 2048 → dense demo_V rw_file o n.
Proof.
  intros Ho Hn lb H1 H2. assert (Hl : lb = 0 ∨ lb = 1) by (pose proof (Z.div_pos o DEV_BSIZE Ho ltac:(done)); unfold DEV_BSIZE in *; lia). by destruct Hl as [->| ->].
Qed.

(** ** Claims *)

(** C37: reading.  A read of a file of any type but a device, where no hole lies
    among the bytes read and whatever the pieces of memory, succeeds; it delivers
    to the addresses the caller names, in order, exactly the bytes of the file
    from the offset on, as many as were asked for and lie before the end of the
    file, whether or not blocks are read ahead; it advances the transfer by as
    many; and it changes neither the contents of any block, nor the superblock,
    nor anything of an inode but its access mark and read-ahead hint. *)
Theorem file_read fsleep sleep strategy is_tape lbolt d_read d_write phys good `{!Driver strategy phys good} V s kk fuel ip i f l ioflag :
  let u := io s in let c := avail i u in let type := Z.land (i_mode i) IFMT in
  inodes (kn s) !! ip = Some i → fss (kn s) !! i_fs i = Some f → CacheIO.cache (phys := phys) (good := good) V ∅ (bs (kn s)) → u_error (bs (kn s)) = 0 →
  RwSpec.file (good := good) V i f l → (Z.to_nat NBUF + 2 <= fuel)%nat → blocks_of (uio_offset u) c + 2 ≤ Z.of_nat kk →
  is_read u = true → type ≠ IFBLK → type ≠ IFCHR → ihas IPIPE i = false → 0 ≤ i_size i < 2 ^ 31 → uio_wf u →
  dense V i (uio_offset u) c → present (mem s) (take (Z.to_nat c) (places (uio_iov u))) →
  wp (rwip fsleep sleep strategy is_tape lbolt d_read d_write kk fuel ip ioflag)
    (λ e s', e = 0 ∧ mem s' = scatter (mem s) (take (Z.to_nat c) (places (uio_iov u))) (fbytes V (i_dev i) (i_addr i) (uio_offset u) c) ∧
       uio_resid (io s') = uio_resid u - c ∧ uio_offset (io s') = uio_offset u + c ∧ places (uio_iov (io s')) = drop (Z.to_nat c) (places (uio_iov u)) ∧
       CacheIO.cache (phys := phys) (good := good) V ∅ (bs (kn s')) ∧ fss (kn s') = fss (kn s) ∧
       ∃ lastr, inodes (kn s') = <[ip := set_i_freef lastr (read_mark f i)]> (inodes (kn s))) s.
Proof.
  intros u c type Hi Hf Hca Hue Hfl Hfu Hkk Hrd Hty Htc Hpi Hsz Hwf Hdn Hpr.
  eapply (wp_rwip_read fsleep sleep strategy is_tape lbolt V d_read d_write kk fuel ip i f l); [done..|]. intros lr s' (Ef & Ei & _) Hca' _ Hm Hmv _.
  pose proof (moved_resid c u (io s') ltac:(unfold c, avail; destruct Hwf as (_ & -> & _); lia) Hwf Hmv) as Hr. destruct Hmv as (_ & Hpl & Hof & _).
  split_and!; try done; [by rewrite Ef; cbn; rewrite insert_id|by exists lr].
Qed.

Lemma file_read_witness :
  wp (rwip (λ _ _, mret tt) nosleep one_strategy (λ _, false) 9 (λ _ _, mret 0) (λ _ _, mret 0) 3 enough 2 0)
    (λ e s', e = 0 ∧ mem s' = scatter rw_mem (take 30 (places (uio_iov rd_uio))) (fbytes demo_V 0 [6; 7; 0; 0; 0; 0; 0] 1470 30) ∧
       uio_resid (io s') = 40 ∧ uio_offset (io s') = 1500 ∧ places (uio_iov (io s')) = drop 30 (places (uio_iov rd_uio)) ∧
       CacheIO.cache (phys := demo_phys) (good := demo_good) demo_V ∅ (bs (kn s')) ∧ fss (kn s') = fss rw_as ∧
       ∃ lastr, inodes (kn s') = <[2 := set_i_freef lastr (read_mark file_fs rw_file)]> (inodes rw_as)) (rw_st rd_uio).
Proof.
  apply (file_read (λ _ _, mret tt) nosleep one_strategy (λ _, false) 9 (λ _ _, mret 0) (λ _ _, mret 0) demo_phys demo_good demo_V (rw_st rd_uio) 3 enough 2 rw_file file_fs [9; 8; 5; 4; 3] 0).
  - done.
  - done.
  - apply rw_cache.
  - done.
  - apply rw_sound.
  - done.
  - done.
  - done.
  - done.
  - done.
  - done.
  - done.
  - split_and!; [by repeat constructor|done..].
  - apply rw_dense; by vm_compute.
  - apply rw_present. by vm_compute.
Defined.

(** C38: writing.  A write to a regular file, a directory or a link, at the
    offset or with [IO_APPEND] at the end, with four free blocks for each block it
    reaches, succeeds and moves all bytes.  Then the file has these bytes at
    their offsets and every other byte, holes included, as before; it ends where
    it did or at the last byte written; its blocks are still distinct from each
    other and from the free ones; set-user-id and set-group-id bits are gone
    unless the writer is the superuser; the inode is marked changed; and no block
    of another file is touched. *)
Theorem file_write fsleep sleep strategy is_tape lbolt d_read d_write phys good `{!Driver strategy phys good} V s kk fuel ip i f l ioflag :
  let u := at_start ioflag i (io s) in let off := uio_offset u in let m := uio_resid u in let type := Z.land (i_mode i) IFMT in
  let bytes := gather (mem s) (places (uio_iov u)) in
  inodes (kn s) !! ip = Some i → fss (kn s) !! i_fs i = Some f → CacheIO.cache (phys := phys) (good := good) V ∅ (bs (kn s)) → u_error (bs (kn s)) = 0 →
  RwSpec.file (good := good) V i f l → (Z.to_nat NBUF + 2 <= fuel)%nat → blocks_of off m + 1 ≤ Z.of_nat kk → 4 * (blocks_of off m + 1) ≤ zlen l →
  is_read u = false → type = IFDIR ∨ type = IFREG ∨ type = IFLNK → (type = IFREG → (Z.land (i_flags i) APPEND = 0 ∨ off = i_size i) ∧ off + m ≤ u32 (rlim_fsize s)) →
  uio_wf u → 0 < m → present (mem s) (places (uio_iov u)) → bytes_ok (mem s) →
  wp (rwip fsleep sleep strategy is_tape lbolt d_read d_write kk fuel ip ioflag)
    (λ e s', e = 0 ∧ uio_resid (io s') = 0 ∧ uio_offset (io s') = off + m ∧ mem s' = mem s ∧
       ∃ V' i' f' l', CacheIO.cache (phys := phys) (good := good) V' ∅ (bs (kn s')) ∧ RwSpec.file (good := good) V' i' f' l' ∧
         inodes (kn s') = <[ip := i']> (inodes (kn s)) ∧ fss (kn s') = <[i_fs i := f']> (fss (kn s)) ∧
         (∀ o, 0 ≤ o < MAXBN * DEV_BSIZE → fbyte V' (i_dev i) (i_addr i') o =
            if decide (off ≤ o < off + m) then bytes !!! Z.to_nat (o - off) else fbyte V (i_dev i) (i_addr i) o) ∧
         wrote (u_ruid s) (off + m) i i' ∧
         (∃ used, l = used ++ l' ∧ fowns (λ b, V' (i_dev i, b)) (i_addr i') ≡ₚ used ++ fowns (λ b, V (i_dev i, b)) (i_addr i)) ∧
         ∀ k, k.1 ≠ i_dev i ∨ k.2 ≠ SUPERB ∧ k.2 ∉ fowns (λ b, V (i_dev i, b)) (i_addr i) ∧ k.2 ∉ l → V' k = V k) s.
Proof.
  intros u off m type bytes Hi Hf Hca Hue Hfl Hfu Hkk Hfree Hrd Hty Hreg Hwf Hm Hpr Hby.
  eapply (wp_rwip_write fsleep sleep strategy is_tape lbolt V d_read d_write kk fuel ip i f l); [done..|]. intros s' V' i' f' l' (Ef & Ei & _) Hca' _ [S1 S2 S3 S4 S5 S6 S7] Hw Hmem Hmv _.
  pose proof (moved_resid m u (io s') ltac:(fold m; lia) Hwf Hmv) as Hr. fold m in Hr. destruct Hmv as (_ & _ & Hof & _). split_and!; [done|lia|done|done|].
  exists V', i', f', l'. split_and!; try done. unfold patched in S3. assert (Hlen : zlen (gather (mem s) (places (uio_iov u))) = m).
  { unfold gather. rewrite length_fmap. by destruct Hwf as (_ & <- & _). }
  fold u in S3. rewrite Hlen in S3. exact S3.
Qed.

Lemma file_write_witness :
  wp (rwip (λ _ _, mret tt) nosleep one_strategy (λ _, false) 9 (λ _ _, mret 0) (λ _ _, mret 0) 3 enough 2 IO_APPEND)
    (λ e s', e = 0 ∧ uio_resid (io s') = 0 ∧ uio_offset (io s') = 1570 ∧ mem s' = rw_mem ∧
       ∃ V' i' f' l', CacheIO.cache (phys := demo_phys) (good := demo_good) V' ∅ (bs (kn s')) ∧ RwSpec.file (good := demo_good) V' i' f' l' ∧
         inodes (kn s') = <[2 := i']> (inodes rw_as) ∧ fss (kn s') = <[1 := f']> (fss rw_as) ∧
         (∀ o, 0 ≤ o < MAXBN * DEV_BSIZE → fbyte V' 0 (i_addr i') o =
            if decide (1500 ≤ o < 1500 + 70) then gather rw_mem (places (uio_iov wr_uio)) !!! Z.to_nat (o - 1500) else fbyte demo_V 0 (i_addr rw_file) o) ∧
         wrote 5 1570 rw_file i' ∧
         (∃ used, [9; 8; 5; 4; 3] = used ++ l' ∧ fowns (λ b, V' (0, b)) (i_addr i') ≡ₚ used ++ fowns (λ b, demo_V (0, b)) (i_addr rw_file)) ∧
         ∀ k, k.1 ≠ 0 ∨ k.2 ≠ SUPERB ∧ k.2 ∉ fowns (λ b, demo_V (0, b)) (i_addr rw_file) ∧ k.2 ∉ [9; 8; 5; 4; 3] → V' k = demo_V k) (rw_st wr_uio).
Proof.
  apply (file_write (λ _ _, mret tt) nosleep one_strategy (λ _, false) 9 (λ _ _, mret 0) (λ _ _, mret 0) demo_phys demo_good demo_V (rw_st wr_uio) 3 enough 2 rw_file file_fs [9; 8; 5; 4; 3] IO_APPEND).
  - done.
  - done.
  - apply rw_cache.
  - done.
  - apply rw_sound.
  - done.
  - done.
  - done.
  - done.
  - by right; left.
  - intros _. split; [by left|done].
  - split_and!; [by repeat constructor|done..].
  - done.
  - apply rw_present. by vm_compute.
  - apply rw_bytes.
Defined.

(** C39: what is written is read back.  After the kernel's [rdwri] has written
    [len] bytes to a regular file, reading [len] bytes at the same offset into
    any memory, overlapping or not, gives the bytes that were written; both
    calls succeed and leave nothing over. *)
Theorem file_write_read fsleep sleep strategy is_tape lbolt d_read d_write phys good `{!Driver strategy phys good} V s kk fuel ip i f l base base' len off ioflag :
  inodes (kn s) !! ip = Some i → fss (kn s) !! i_fs i = Some f → CacheIO.cache (phys := phys) (good := good) V ∅ (bs (kn s)) → u_error (bs (kn s)) = 0 →
  RwSpec.file (good := good) V i f l → (Z.to_nat NBUF + 2 <= fuel)%nat → blocks_of off len + 2 ≤ Z.of_nat kk → 4 * (blocks_of off len + 1) ≤ zlen l →
  Z.land (i_mode i) IFMT = IFREG → Z.land (i_flags i) APPEND = 0 → ihas IPIPE i = false → Z.land ioflag IO_APPEND = 0 → 0 ≤ i_size i < 2 ^ 31 →
  0 ≤ off → 0 < len → off + len < 2 ^ 31 → off + len ≤ u32 (rlim_fsize s) → present (mem s) (seqZ base len) → present (mem s) (seqZ base' len) → bytes_ok (mem s) →
  wp (w ← rdwri fsleep sleep strategy is_tape lbolt d_read d_write kk fuel UIO_WRITE ip base len off ioflag true;
      r ← rdwri fsleep sleep strategy is_tape lbolt d_read d_write kk fuel UIO_READ ip base' len off ioflag true;
      mret (w, r))
    (λ wr s', wr = ((0, 0), (0, 0)) ∧ gather (mem s') (seqZ base' len) = gather (mem s) (seqZ base len)) s.
Proof.
  intros Hi Hf Hca Hue Hfl Hfu Hkk Hfree Hty Hap Hpi Hio Hsz Ho Hl Hol Hlim Hpr Hpr' Hby. apply wp_bind.
  eapply (wp_rdwri_write fsleep sleep strategy is_tape lbolt d_read d_write V kk fuel ip i f l); [done..|lia|done|].
  intros s1 V1 i1 f1 l1 Hu1 Hca1 U1 [S1 S2 S3 S4 S5 S6 S7] ([Hid [Hmt Hp1]] & Hs1 & _) Hm1. assert (Hdf : i_dev i1 = i_dev i ∧ i_fs i1 = i_fs i) by (by injection Hid). destruct Hdf as [Hd1 Hf1].
  assert (Hlg : zlen (gather (mem s) (seqZ base len)) = len) by (unfold gather; rewrite length_fmap, length_seqZ; lia). rewrite Hlg in S6.
  apply wp_bind. eapply (wp_rdwri_read fsleep sleep strategy is_tape lbolt d_read d_write V1 kk fuel ip i1 f1 l1); try done.
  - by eapply upon_inode.
  - rewrite Hf1. by eapply upto_at.
  - by rewrite Hmt, Hty.
  - by rewrite Hmt, Hty.
  - by rewrite Hp1.
  - lia.
  - lia.
  - intros lb H1 H2. rewrite Hd1. apply S6; [|by right]. pose proof (Z.div_pos off DEV_BSIZE Ho ltac:(done)). unfold MAXBN, DEV_BSIZE in *. lia.
  - by rewrite Hm1.
  - intros s2 _ Hm2. apply wp_ret. split; [done|]. rewrite Hm2, Hd1, gather_scatter; [|apply NoDup_seqZ|rewrite fbytes_length, length_seqZ; done].
    rewrite <- Hlg at 1. apply (patched_fbytes V); [done|rewrite Hlg; unfold MAXBN, DEV_BSIZE; lia|done].
Qed.

Lemma file_write_read_witness :
  wp (w ← rdwri (λ _ _, mret tt) nosleep one_strategy (λ _, false) 9 (λ _ _, mret 0) (λ _ _, mret 0) 3 enough UIO_WRITE 2 10 30 2000 0 true;
      r ← rdwri (λ _ _, mret tt) nosleep one_strategy (λ _, false) 9 (λ _ _, mret 0) (λ _ _, mret 0) 3 enough UIO_READ 2 300 30 2000 0 true;
      mret (w, r))
    (λ wr s', wr = ((0, 0), (0, 0)) ∧ gather (mem s') (seqZ 300 30) = gather rw_mem (seqZ 10 30)) (rw_st wr_uio).
Proof.
  apply (file_write_read (λ _ _, mret tt) nosleep one_strategy (λ _, false) 9 (λ _ _, mret 0) (λ _ _, mret 0) demo_phys demo_good demo_V (rw_st wr_uio) 3 enough 2 rw_file file_fs [9; 8; 5; 4; 3] 10 300 30 2000 0).
  - done.
  - done.
  - apply rw_cache.
  - done.
  - apply rw_sound.
  - done.
  - done.
  - done.
  - done.
  - done.
  - done.
  - done.
  - done.
  - done.
  - done.
  - done.
  - done.
  - apply rw_present. by vm_compute.
  - apply rw_present. by vm_compute.
  - apply rw_bytes.
Defined.



(** The flag [IO_SYNC] has no effect on a regular file, however it is mounted:
    the test that should drop it for file systems mounted [async] drops it for
    all regular files. *)
Theorem sync_write_ignored fsleep sleep strategy is_tape lbolt d_read d_write s kk fuel ip i ioflag :
  inodes (kn s) !! ip = Some i → Z.land (i_mode i) IFMT = IFREG →
  rwip fsleep sleep strategy is_tape lbolt d_read d_write kk fuel ip ioflag s = rwip fsleep sleep strategy is_tape lbolt d_read d_write kk fuel ip (Z.land ioflag (Z.lnot IO_SYNC)) s.
Proof.
  intros Hi Hty. assert (Hap : Z.land (Z.land ioflag (Z.lnot IO_SYNC)) IO_APPEND = Z.land ioflag IO_APPEND) by (by rewrite <- Z.land_assoc).
  assert (Hsy : Z.land (Z.land ioflag (Z.lnot IO_SYNC)) (Z.lnot IO_SYNC) = Z.land ioflag (Z.lnot IO_SYNC)) by (by rewrite <- Z.land_assoc, Z.land_diag).
  assert (Hrd : ka (rdi ip) s = Ret i s) by (unfold ka, rdi, load; rewrite Hi; by destruct s).
  unfold rwip, rwip_check, mbind, M_bind. rewrite Hrd, Hty. cbv beta iota zeta. rewrite Hrd, Hty, Hap. unfold gets. cbv beta iota zeta.
  destruct (is_read (io s)).
  - destruct (ka (rdfs (i_fs i)) s) as [f s1|? ?| |]; [|done..]. destruct (when _ _ s1) as [[] s2|? ?| |]; [|done..]. unfold mret, M_ret.
    destruct (ka (rdfs (i_fs i)) s2) as [f2 s3|? ?| |]; [|done..]. rewrite Hsy. done.
  - change (IFREG =? IFREG) with true. cbv beta iota. destruct (when _ _ s) as [[] s2|? ?| |]; [|done..]. destruct (negb _ && negb _); [done|]. unfold mret, M_ret.
    destruct (ka (rdfs (i_fs i)) s2) as [f2 s3|? ?| |]; [|done..]. rewrite Hsy. done.
Qed.
End FileSpec.
